(* ===== verification/_CoqProject ===== *)
-Q . S2P
Prelude.v
PyStr.v
Text.v
Regex.v
RegexSyntax.v
Sql.v
Findings.v
Tree.v
Jobs.v
ScanQueue.v
DetQueue.v
Lease.v
Intel.v
Score.v
Json.v
Triage.v
Watch.v
Scope.v
Focus.v
ThreatIntel.v
DepIntel.v
Anomaly.v
Metadata.v
Store.v
MaintWatch.v
Ingest.v
NpmCursor.v
GoCursor.v
PypiCursor.v
MaintPivot.v
WatchRefresh.v
Releases.v
CratesFeeds.v
Codecs.v
DecodeEngine.v
Iocs.v
PyAst.v
MalwarePatterns.v
SecretAccess.v
GoDirectives.v
Binary.v
Obfuscation.v
BuildRs.v
NpmInstall.v
UrlDeps.v
PypiInstall.v
Imports.v
Entropy.v
Notify.v
Scanners.v
Vault.v
Extract.v
Reuse.v
Pipeline.v
Finalize.v
Process.v
Fetch.v
DetWorker.v
Analyze.v
Glob.v
TriageSource.v
Packs.v
Service.v
Detonate.v
Enrich.v
Adapters.v
Clients.v
Host.v
Members.v
Tools.v
