(* ===== verification/Prelude.v ===== *)
(** * pkgward: a verification development

    pkgward watches the package registries (PyPI, npm, crates.io, the Go module
    index), queues what is worth looking at, downloads and unpacks it, runs
    static analyzers over the files, lets a language model second-guess the
    rules, stores a verdict, alerts, and may detonate a package in a sandbox.
    This library translates the program's own decisions and state changes
    (src/pkgward) into Rocq functions and proves what they promise.

    ** The parts and how they interact

    discovery (npm, gomod, PyPI, crates pollers, release polls of watched and
        focus packages, maintainer pivot)
      --[queue.enqueue]--> scan queue --[workers claim]--> [process_one]
      --fetch, [safe_extract], analyzers--> findings
      --[_persist_and_finalize]--> score, LLM triage, verdict, alert,
          watchlist, scope watch, fingerprint seeds, vault, pivot, detonation queue
      --[detonation_worker]--> dynamic findings, re-scored verdict, flip alert.

    Both queues are tables claimed by compare-and-swap under a token; everything
    else communicates through the tables of store/models.py.

    ** Files and sources

    Foundations
    - Prelude: this header, notations, tactics, the hint database [pk]; lists,
      stable sorting, insertion-ordered dictionaries, sliding windows.
    - PyStr, Text: Python's [str], [bytes.splitlines], [shlex.split],
      [PurePosixPath].  Regex: a backtracking matcher for [re] patterns, with the
      functions of the module; RegexSyntax: the pattern language it reads.
      Glob: the [fnmatch] patterns of the triage.
    - Sql: sessions and tables (select, update, insert under a unique key).
    - Json: decoded JSON with IEEE doubles.  PyAst: Python's syntax trees.
      Tree: the extracted files of a package.
    - Findings: adapter.py's enumerations and [Finding].
    - Store: store/models.py's scan tables, and the database record.

    Work queues
    - Jobs, ScanQueue: queue.py ([enqueue], [claim_next], [mark_done],
      [mark_failed], [sweep_stale_claims], [prune_terminal]).
    - DetQueue: detonation_queue.py and the row transitions of
      detonation_worker.py.
    - Lease: the specification both queues refine: a job is idle, leased under a
      token, or closed.

    Discovery
    - Ingest: the tables and checks all pollers share.
    - NpmCursor: ecosystems/npm/ingest/cursor.py, [poll_changes_once].
    - GoCursor: ecosystems/gomod/ingest/cursor.py, [poll_index_once] and
      [pull_since_beginning].
    - PypiCursor: ecosystems/pypi/ingest/cursor.py, [pull_since], and feeds.py,
      [poll_feeds_once].
    - CratesFeeds: ecosystems/crates/ingest/feeds.py, [poll_feeds_once] and
      [reconcile_new_crates].
    - WatchRefresh: [refresh_watchlist] of the four ingest/watchlist.py.
      Releases: their release polls and boot-time seeds, and ingest/focus.py.
    - Adapters: the four adapter.py (start-up, jobs, sweep, backfill) and the
      keystone tables.  Clients: the requests behind the pollers and the pivot.
    - Anomaly: ecosystems/version_anomaly.py (Module Core) and
      ecosystems/npm/ingest/anomaly.py (Module Npm).
    - Focus: focus.py.  MaintWatch: maintainer_watch.py.
      MaintPivot: maintainer_pivot.py, [sweep_on_malicious].

    Detection
    - Intel: intel/schema.py, intel/__init__.py.  Packs: intel/pack.py and
      store/seed_intel.py, packs as directories and their seeding.
    - Score: detect/score.py, detect/rules.py, detonate/gate.py.
    - Metadata: analyze/metadata.py, lure_names.py, version_diff.py.
    - ThreatIntel: analyze/threat_intel.py, threat_intel_auto.py.  DepIntel:
      known_bad_deps.py, analyze/dep_intel.py.
    - Codecs: the text codecs of analyze/decode_engine.py with reference encoders;
      DecodeEngine: its candidates, classification and loop, [recover].
    - The content analyzers of analyze/: Iocs, MalwarePatterns, SecretAccess,
      Obfuscation, Binary, Imports, Entropy (files of those names), and Scanners
      (unpack.py, yara_scan.py, opengrep_scan.py, webcrack_deobf.py).
    - The install analyzers of ecosystems/: NpmInstall and UrlDeps
      (npm/installer.py, npm/url_deps.py), PypiInstall (pypi/installer.py),
      BuildRs (crates/build_rs.py), GoDirectives (gomod/go_directives.py).
    - Analyze: the order in which the pipeline runs all of them, and the table of
      rules with category, severity and confidence.
    - Watch: watchlist_auto.py.  Scope: scope_watchlist.py.
    - Triage: llm/triage.py's requests, replies and policy; TriageSource: which
      source it puts in the prompt.  Notify: notify/discord.py's embeds.

    The pipeline
    - Fetch: the four fetch/download.py, over a monad of HTTP requests.
    - Extract: util/extract.py, [safe_extract].  Members: pipeline.py around one
      archive (extraction, members, hashes, clean-up), and the vault's reader in
      threat_intel_auto.py.
    - Reuse: finding_reuse.py.  Pipeline: pipeline.py up to [_persist_findings].
    - Finalize: [_persist_and_finalize], as its transactions and external calls
      in order.  Process: [process_one] and workers.py.
    - Vault: vault.py.  DetWorker: detonation_worker.py, what a job comes to.
      Detonate: detonation_staging.py, detonate/client.py and the worker's loop.
    - Enrich: enrich/downloads.py, enrich/publisher.py and the sending of alerts.
    - Service: runtime.py and cli.py, the jobs, the start-up and the commands over
      one state, and the relation [sstep] of everything that writes to it.
    - Host: the environment, the database and its migrations, the node's name
      (util/, node_id.py, store/session.py), and the linter of intel/schema.py.
    - Tools: the scripts of tools/ that measure, replay, audit and import, a Module
      each (Precision, Parity, Audit, Stats, Genome, VaultImport, TriagePkg, Eval,
      PreCommit).

    ** What the theorems show

    - Queues: the invariant of each queue in every reachable state
      ([queue_invariant], [det_queue_invariant]); a retired token never completes
      a row ([stale_worker_fenced]); a claim takes a row that was pending when it made its
      swap, and nothing else changes but by other sessions ([claim_next_exclusive]);
      an available row is found in priority order
      ([claim_next_complete]); the steps of both queues are labelled requests, each a step
      of the lease specification, which leases idle jobs only, under a fresh token, and closes
      them for the holder only ([scan_queue_refines], [det_queue_refines]); in it a
      token leases one job at most ([lease_safety]).
    - The whole service: no mix of workers, pollers, jobs, starts and commands
      breaks a component's tables ([service_invariant]); the work of a crashed
      process is taken up again ([crash_recovery]); every command but replay leaves
      running scans alone ([operator_spares_workers]; replay takes them over,
      [replay_steals_claim]).
    - Discovery: what the gates admit is queued, given up (after its attempts, or on lock
      errors of its enqueue), or still ahead of the cursor ([npm_no_silent_drop], [go_no_silent_drop],
      [pypi_pull_complete]); a poll of the Go index terminates
      ([go_poll_terminates]); the anomaly gate carries over what it cannot check
      ([anomaly_carryover_complete]) and flags a dropper hook
      ([dropper_hook_flagged]); a crates poll queues every crate of its feed
      ([crates_poll_covers]) and the backstop what it missed
      ([reconcile_covers]); a refresh makes the popularity list exactly what was
      asked or changes nothing ([merge_refresh_spec], [rebuild_refresh_spec]); a
      release poll loses a package only with its chunk ([release_poll_isolated])
      and the Go seed leaves nothing to probe ([go_seed_converges]); focus files are authoritative and parse back
      ([focus_sync_authoritative], [focus_file_roundtrip]); the maintainer watch is
      bounded ([maintainer_watch_bounded]); the pivot acts only on strong evidence
      and once per period ([pivot_sweep_justified], [pivot_once_per_period]).
    - Archives: a fetched archive is what the registry published
      ([fetch_verified]), and one that is not convicts ([tampering_convicts]); scoped
      names are encoded without loss ([encode_name_roundtrip]); extraction stays in
      its directory and its limits and is complete ([extract_contained],
      [extract_complete]); what went into the vault decrypts to the exact bytes, and is what a
      read by package name finds unless a file of the same pattern sorts before it ([vault_roundtrip]).
    - Decoding: every recovered layer replays from the text ([recover_sound]); a
      payload behind one layer of any codec is recovered, where no fingerprints
      collide ([first_layer_recovered]);
      what a finished run examined ([recover_covers]); it ends within its budgets
      ([recover_terminates], [decoder_output_bounded]).
    - Analyzers: every finding is one the table of rules declares
      ([findings_well_typed]); what convicts, where the analysis does not raise: a hook running a local
      dropper that is no executable image ([hook_script_convicts]), a sweep of credential stores
      ([sweep_convicts]), a known file ([known_file_convicts],
      [pack_fingerprints_convict]); what is found exactly: the flow of the
      environment into a request, behind the text gates ([env_flow_exact]), decoders near an eval
      ([proximity_exact]), indicators behind Base64 but for out-of-band callbacks
      ([concealed_indicator_reported]); URL dependencies are fetched within guards, and all reported
      unless one has no host that parses ([fetch_guarded]); unpacking adds only what UPX recovered
      ([unpacking_framed]); shadow mode has no influence on a scan but to fail it on
      malformed output ([shadow_mode_inert]).
    - Verdicts: the score in closed form, the verdict, and their monotonicity
      ([score_closed_form], [verdict_spec], [verdict_monotone]); the model sees the
      worst evidence ([evidence_shown]) and moves a verdict exactly as the policy
      says, on a sound reply, within the budget ([no_downgrade_policy],
      [triage_sound], [triage_budget_guard]).
    - A scan: what a run stores and whom it alerts ([scan_recorded],
      [alert_iff_malicious], [unfetched_outcome]); alerts fit the limits of the
      service ([alert_within_limits]); the call of the alert precedes completion at
      every crash point, but for archives that fail their integrity check
      ([alert_before_done]); a row stays claimed only if a failure handler itself
      raises, until the stale sweep ([claim_released]).
    - Detonation: the sandbox sees the bytes that were scanned
      ([sandbox_sees_the_sample]); a job is settled unless the loop's own retry
      raises, until the stale sweep ([detonation_settles]), done only on an answer of the service
      ([done_means_detonated]), and the scan re-scored as stated
      ([detonation_rescore]).
    - Around the program: a start-up ranks the keystone packages whatever the
      registry answers ([keystones_ranked]); the pollers' requests do not raise
      ([clients_never_raise]); the member list of an archive is true
      ([members_extracted]) and its clean-up complete ([cleanup_complete]); an older
      database is completed ([columns_ensured]); the deny list that the precision
      tool suggests takes effect as it says ([suggestion_takes_effect]); the replay,
      the audit and the evaluation decide what they report ([parity_exit],
      [audit_is_the_bar], [gate_spec]); a record made by hand convicts its file
      ([gene_convicts]).
    - Watching: scopes match at boundaries and cover siblings ([scope_boundary],
      [auto_watch_covers]); automatic additions are rate-bounded
      ([add_rate_bounded]); edit distance is the least cost of an edit script
      ([levenshtein_edit_distance]).

    The files also prove component lemmas that are not listed here, and
    [Example]s that run the code on the inputs where it does something a reader
    of its comments would not expect.

    ** How the code is modelled

    - Effects are explicit: a session is one atomic step on tables, and what other
      sessions commit in between is an argument ([interfere], [world], [env]).
      Clocks, tokens, random choices, the completion order of concurrent requests
      and the iteration order of Python sets are arguments too.  One transaction
      reads its clock once.
    - Errors are values: [option] for an exception that leaves the function, sums
      or result types where the caller tells them apart; database errors are given
      per call, so retries are modelled as they run.
    - Strings are ASCII, bytes are strings of characters below 256, and patterns
      are matched as Python matches them on ASCII; Obfuscation decodes UTF-8.
      Timestamps are microseconds.  Money, scheduler weights
      and size factors are exact rationals; confidences are IEEE doubles, NaN
      included.  The keys of ZipCrypto are 32-bit words, proved to stay so.
    - Rows of equal sort key come in insertion order, and ids from a sequence.
    - Parameters stand for code outside the repository: Python's [hash], SHA-256, ssdeep, tlsh,
      PEP 440 versions, the HTTP, XML-RPC, DNS and model services, tarfile
      and zipfile beyond what the vault needs, the parsers of Python, JSON, TOML and
      dates, and the external scanners.

    ** Bounds and fuel

    Retry loops of the queues run on the configured number of attempts plus one,
    which is what the code's [range] gives.  [CLAIM_CAS_RETRIES] bounds a claim,
    [MAX_PAGES_PER_POLL] an npm poll, the length of the pattern a glob match, the
    length of the text a regular-expression scan, the node budget plus two the decode loop.  The
    collection of Go repositories has no bound in the code either ([go_fetch_ends],
    [go_fetch_spins]).  The page loop of the Go index
    has no bound in the code: [go_poll_terminates] shows that fuel [B - cursor + 2]
    is enough when no full page lies beyond [B], and [backfill_wedges] that no fuel
    is enough for the backfill.

    ** Not modelled

    - The bodies of HTTP clients beyond what fetching needs: what a poller is
      answered is an argument.
    - [ast.parse], [json.loads], [tomllib], DEFLATE, bzip2 and LZMA below the
      decode engine, YARA, opengrep, UPX and webcrack themselves: arguments, of
      which documented behaviour is assumed by name where a theorem needs it.
    - The event loop, threads, signals and argument parsing; logging and the
      sessions of SQLAlchemy: process wiring and I/O.
    - Of tools/: the layout of the printed tables, and the functions of a Python
      file ([ast]); the shell scripts. *)
From stdpp Require Export base tactics list gmap strings.
From Stdlib Require Export ZArith Lia.
From Stdlib Require Import Permutation Sorted.

(** ** Notations and tactics *)

Declare Scope py_scope.
Delimit Scope py_scope with py.

(** [x or y] on optional values: the first one that is present. *)
Notation "x 'or_else' y" := (match x with Some _ => x | None => y end)
  (at level 60, right associativity) : py_scope.

(** Case analysis on every [if]/[match] scrutinee of the goal. *)
Ltac split_ifs := repeat (case_match; simplify_eq/=); try done.

(** Turn boolean comparisons in the context and the goal into arithmetic. *)
Ltac bool_to_Z :=
  rewrite ?andb_true_iff, ?orb_true_iff, ?andb_false_iff, ?orb_false_iff,
    ?Z.leb_le, ?Z.ltb_lt, ?Z.leb_gt, ?Z.ltb_ge, ?Z.eqb_eq, ?Z.eqb_neq in *.

Create HintDb pk.

(** ** Boolean filters (the [WHERE] clauses and list comprehensions) *)

Abbreviation bfilter := List.filter.

Lemma bfilter_in {A} (p : A -> bool) l x : x ∈ bfilter p l <-> x ∈ l /\ p x = true.
Proof. rewrite !list_elem_of_In. apply filter_In. Qed.

Lemma bfilter_all {A} (p : A -> bool) l :
  (forall x, x ∈ l -> p x = true) -> bfilter p l = l.
Proof.
  induction l as [|x l IH]; intros H; simpl; [done|].
  rewrite H by set_solver. f_equal. apply IH. set_solver.
Qed.

Lemma bfilter_none {A} (p : A -> bool) l :
  (forall x, x ∈ l -> p x = false) -> bfilter p l = [].
Proof.
  induction l as [|x l IH]; intros H; simpl; [done|].
  rewrite H by set_solver. apply IH. set_solver.
Qed.

Lemma bfilter_length {A} (p : A -> bool) l : length (bfilter p l) <= length l.
Proof. induction l as [|x l IH]; simpl; [lia|]. destruct (p x); simpl; lia. Qed.

Lemma bfilter_map {A B} (f : A -> B) (p : B -> bool) l :
  bfilter p (map f l) = map f (bfilter (fun x => p (f x)) l).
Proof. induction l as [|x l IH]; simpl; [done|]. rewrite IH. by destruct (p (f x)). Qed.

Lemma bfilter_bfilter {A} (p q : A -> bool) l :
  bfilter p (bfilter q l) = bfilter (fun x => q x && p x) l.
Proof.
  induction l as [|x l IH]; simpl; [done|].
  destruct (q x) eqn:E; simpl; rewrite IH; done.
Qed.

Lemma bfilter_ext {A} (p q : A -> bool) l :
  (forall x, x ∈ l -> p x = q x) -> bfilter p l = bfilter q l.
Proof.
  induction l as [|x l IH]; intros H; simpl; [done|].
  rewrite (H x) by set_solver. rewrite IH by set_solver. done.
Qed.

Lemma bfilter_NoDup_fmap {A B} (f : A -> B) (p : A -> bool) l :
  NoDup (f <$> l) -> NoDup (f <$> bfilter p l).
Proof.
  induction l as [|x l IH]; simpl; [done|].
  intros [Hx Hl]%NoDup_cons. destruct (p x); simpl; [|by apply IH].
  apply NoDup_cons; split; [|by apply IH].
  intros (y & Hfy & Hy)%list_elem_of_fmap. apply Hx, list_elem_of_fmap.
  exists y. split; [done|]. by apply bfilter_in in Hy as [? _].
Qed.

Lemma existsb_true {A} (p : A -> bool) l :
  existsb p l = true <-> exists x, x ∈ l /\ p x = true.
Proof. rewrite existsb_exists. by setoid_rewrite list_elem_of_In. Qed.

Lemma existsb_false {A} (p : A -> bool) l :
  existsb p l = false <-> forall x, x ∈ l -> p x = false.
Proof.
  rewrite <- not_true_iff_false, existsb_true. split.
  - intros H x Hx. destruct (p x) eqn:E; [|done]. exfalso. eauto.
  - intros H (x & Hx & Hp). specialize (H x Hx). congruence.
Qed.

Lemma forallb_true {A} (p : A -> bool) l :
  forallb p l = true <-> forall x, x ∈ l -> p x = true.
Proof. rewrite forallb_forall. by setoid_rewrite list_elem_of_In. Qed.

Lemma firstn_elem {A} n (l : list A) x : x ∈ List.firstn n l -> x ∈ l.
Proof. intros (i & Hi & _)%elem_of_take. by apply list_elem_of_lookup_2 in Hi. Qed.

Lemma head_in {A} (l : list A) x : head l = Some x -> x ∈ l.
Proof. destruct l; simpl; intros; simplify_eq. set_solver. Qed.

(** ** Stable insertion sort (Python's [sorted] and SQL's [ORDER BY]) *)

Section Sort.
Context {A : Type} (leb : A -> A -> bool).

Fixpoint sinsert (x : A) (l : list A) : list A :=
  match l with
  | [] => [x]
  | y :: l' => if leb x y then x :: l else y :: sinsert x l'
  end.

Definition ssort (l : list A) : list A := fold_right sinsert [] l.

Lemma sinsert_perm x l : sinsert x l ≡ₚ x :: l.
Proof.
  induction l as [|y l IH]; simpl; [done|]. destruct (leb x y); [done|].
  rewrite IH. apply perm_swap.
Qed.

Lemma ssort_perm l : ssort l ≡ₚ l.
Proof. induction l as [|x l IH]; simpl; [done|]. by rewrite sinsert_perm, IH. Qed.

Lemma ssort_in x l : x ∈ ssort l <-> x ∈ l.
Proof. by rewrite ssort_perm. Qed.

Lemma ssort_length l : length (ssort l) = length l.
Proof. by rewrite ssort_perm. Qed.

Hypothesis leb_total : forall x y, leb x y = true \/ leb y x = true.
Hypothesis leb_trans : forall x y z, leb x y = true -> leb y z = true -> leb x z = true.

Lemma sinsert_sorted x l :
  StronglySorted (fun a b => leb a b = true) l ->
  StronglySorted (fun a b => leb a b = true) (sinsert x l).
Proof.
  induction l as [|y l IH]; simpl; intros Hs.
  - repeat constructor.
  - inversion Hs as [|? ? Hs' Hy]; subst. destruct (leb x y) eqn:E.
    + constructor; [done|]. constructor; [done|].
      eapply List.Forall_impl; [|exact Hy]. eauto.
    + constructor; [by apply IH|].
      rewrite sinsert_perm. constructor; [|done].
      destruct (leb_total x y); congruence.
Qed.

Lemma ssort_sorted l : StronglySorted (fun a b => leb a b = true) (ssort l).
Proof. induction l as [|x l IH]; simpl; [constructor|]. by apply sinsert_sorted. Qed.

(** The head of a sorted list is a least element of the list. *)
Lemma ssort_head_least l x l' :
  ssort l = x :: l' -> x ∈ l /\ forall y, y ∈ l -> leb x y = true.
Proof.
  intros E. pose proof (ssort_sorted l) as Hs. rewrite E in Hs.
  inversion Hs as [|? ? Hs' Hx]; subst. split.
  - apply ssort_in. rewrite E. set_solver.
  - intros y Hy. apply ssort_in in Hy. rewrite E in Hy.
    apply elem_of_cons in Hy as [->|Hy].
    + destruct (leb_total x x); done.
    + by rewrite Forall_forall in Hx; apply Hx.
Qed.

End Sort.

(** Sorting by an integer key, ascending and descending. *)
Section SortBy.
Context {A : Type} (key : A -> Z).

Definition asc (x y : A) : bool := (key x <=? key y)%Z.
Definition desc (x y : A) : bool := (key y <=? key x)%Z.

Lemma asc_total x y : asc x y = true \/ asc y x = true.
Proof. unfold asc. bool_to_Z. lia. Qed.

Lemma asc_trans x y z : asc x y = true -> asc y z = true -> asc x z = true.
Proof. unfold asc. bool_to_Z. lia. Qed.

Lemma desc_total x y : desc x y = true \/ desc y x = true.
Proof. unfold desc. bool_to_Z. lia. Qed.

Lemma desc_trans x y z : desc x y = true -> desc y z = true -> desc x z = true.
Proof. unfold desc. bool_to_Z. lia. Qed.

End SortBy.

#[export] Hint Resolve asc_total asc_trans desc_total desc_trans : pk.

(** ** Python dictionaries: insertion-ordered association lists *)

Section Dict.
Context {K V : Type} `{EqDecision K}.
Implicit Types (k : K) (v : V) (d : list (K * V)).

Fixpoint dget k d : option V :=
  match d with
  | [] => None
  | (k', v) :: d' => if decide (k = k') then Some v else dget k d'
  end.

(** [d[k] = v]: overwrites in place, appends a new key at the end. *)
Fixpoint dset k v d : list (K * V) :=
  match d with
  | [] => [(k, v)]
  | (k', v') :: d' => if decide (k = k') then (k', v) :: d' else (k', v') :: dset k v d'
  end.

Definition dget_or k v d : V := default v (dget k d).
Definition dhas k d : bool := bool_decide (is_Some (dget k d)).

(** [d.update(e)], entry by entry. *)
Definition dupdate (d e : list (K * V)) : list (K * V) :=
  fold_left (fun acc kv => dset kv.1 kv.2 acc) e d.

Lemma dget_dset_eq k v d : dget k (dset k v d) = Some v.
Proof.
  induction d as [|[k' v'] d IH]; simpl; [by case_decide|].
  case_decide; simpl; by case_decide.
Qed.

Lemma dget_dset_ne k k' v d : k <> k' -> dget k' (dset k v d) = dget k' d.
Proof.
  intros Hne. induction d as [|[k1 v1] d IH]; simpl.
  - case_decide; congruence.
  - case_decide; simpl; case_decide; congruence.
Qed.

Lemma dget_dset k k' v d :
  dget k' (dset k v d) = if decide (k = k') then Some v else dget k' d.
Proof. case_decide; subst; [apply dget_dset_eq | by apply dget_dset_ne]. Qed.

Lemma dget_None k d : dget k d = None <-> k ∉ d.*1.
Proof.
  induction d as [|[k' v'] d IH]; simpl; [by rewrite elem_of_nil; split; [intros _ []|]|].
  rewrite not_elem_of_cons. case_decide; [naive_solver|]. rewrite IH. naive_solver.
Qed.

Lemma dget_Some_in k v d : dget k d = Some v -> (k, v) ∈ d.
Proof.
  induction d as [|[k' v'] d IH]; simpl; [done|].
  case_decide; intros; simplify_eq; set_solver.
Qed.

Lemma dget_in_NoDup k v d : NoDup d.*1 -> (k, v) ∈ d -> dget k d = Some v.
Proof.
  induction d as [|[k' v'] d IH]; simpl; [set_solver|].
  intros [Hn Hd]%NoDup_cons [E|Hin]%elem_of_cons; simplify_eq.
  - by case_decide.
  - case_decide; subst; [|by apply IH].
    destruct Hn. apply list_elem_of_fmap. by exists (k', v).
Qed.

Lemma dset_keys k v d k' : k' ∈ (dset k v d).*1 <-> k' = k \/ k' ∈ d.*1.
Proof.
  induction d as [|[k1 v1] d IH]; simpl; [by rewrite list_elem_of_singleton, elem_of_nil; tauto|].
  case_decide; subst; simpl; rewrite !elem_of_cons; [|rewrite IH]; tauto.
Qed.

Lemma dset_NoDup k v d : NoDup d.*1 -> NoDup (dset k v d).*1.
Proof.
  induction d as [|[k1 v1] d IH]; simpl; [intros _; apply NoDup_singleton|].
  intros [Hn Hd]%NoDup_cons. case_decide; subst; simpl.
  - by apply NoDup_cons.
  - apply NoDup_cons; split; [|by apply IH].
    rewrite dset_keys. intros [->|?]; done.
Qed.

Lemma dupdate_NoDup d e : NoDup d.*1 -> NoDup (dupdate d e).*1.
Proof.
  unfold dupdate. revert d. induction e as [|kv e IH]; simpl; [done|].
  intros d Hd. by apply IH, dset_NoDup.
Qed.

(** [d.update(e)] replaces: a key of [e] wins, every other key keeps its value. *)
Lemma dget_dupdate d e k :
  NoDup e.*1 -> dget k (dupdate d e) = match dget k e with Some v => Some v | None => dget k d end.
Proof.
  unfold dupdate. revert d. induction e as [|[k1 v1] e IH]; simpl; [done|].
  intros d [Hn He]%NoDup_cons. rewrite IH by done. rewrite dget_dset.
  destruct (decide (k1 = k)) as [->|Hne].
  - rewrite (proj2 (dget_None k e)) by done. by rewrite decide_True.
  - by rewrite (decide_False (P := k = k1)).
Qed.

End Dict.

#[export] Hint Resolve dset_NoDup dupdate_NoDup : pk.

(** ** Ordered de-duplication: the [if x not in acc: acc.append(x)] loop *)

Section Dedup.
Context {A : Type} `{EqDecision A}.

(** [for x in new: if x not in acc: acc.append(x)]. *)
Definition append_new (acc new : list A) : list A :=
  fold_left (fun acc x => if bool_decide (x ∈ acc) then acc else acc ++ [x]) new acc.

Lemma append_new_elem acc new x : x ∈ append_new acc new <-> x ∈ acc \/ x ∈ new.
Proof.
  unfold append_new. revert acc. induction new as [|y new IH]; intros acc; simpl; [set_solver|].
  rewrite IH. case_bool_decide; set_solver.
Qed.

Lemma append_new_prefix acc new : acc `prefix_of` append_new acc new.
Proof.
  unfold append_new. revert acc. induction new as [|y new IH]; intros acc; simpl; [done|].
  case_bool_decide; [apply IH|].
  etrans; [|apply IH]. by apply prefix_app_r.
Qed.

Lemma append_new_NoDup acc new : NoDup acc -> NoDup (append_new acc new).
Proof.
  unfold append_new. revert acc. induction new as [|y new IH]; intros acc Hd; simpl; [done|].
  apply IH. case_bool_decide; [done|].
  apply NoDup_app. split; [done|]. split; [set_solver|]. apply NoDup_singleton.
Qed.

Lemma append_new_absorb acc new : (forall x, x ∈ new -> x ∈ acc) -> append_new acc new = acc.
Proof.
  unfold append_new. induction new as [|y new IH]; intros H; simpl; [done|].
  rewrite bool_decide_true by set_solver. apply IH. set_solver.
Qed.

(** [list(dict.fromkeys(l))], and any [set(l)] enumerated in first-seen order. *)
Definition dedup (l : list A) : list A := append_new [] l.

Lemma dedup_elem l x : x ∈ dedup l <-> x ∈ l.
Proof. unfold dedup. rewrite append_new_elem. set_solver. Qed.

Lemma dedup_NoDup l : NoDup (dedup l).
Proof. apply append_new_NoDup. constructor. Qed.

End Dedup.

(** ** Time

    [datetime] and [time.time()] values are integers counting microseconds. *)

Abbreviation timestamp := Z (only parsing).
Definition seconds (n : Z) : Z := (n * 1000000)%Z.
Definition hours (n : Z) : Z := seconds (n * 3600).
Definition days (n : Z) : Z := seconds (n * 86400).


(** ** Sliding windows: the [deque] of recent times

    [while dq and dq[0] < cutoff: dq.popleft()], and the rate limiter that
    appends the time of every admitted event. *)

Fixpoint drop_before (cutoff : timestamp) (l : list timestamp) : list timestamp :=
  match l with
  | [] => []
  | t :: l' => if (t <? cutoff)%Z then drop_before cutoff l' else l
  end.

Section Window.
Variables (cap span : Z).

Definition admit_event (now : timestamp) (dq : list timestamp) : bool * list timestamp :=
  let dq := drop_before (now - span) dq in
  if (cap <=? Z.of_nat (length dq))%Z then (false, dq) else (true, dq ++ [now]).

(** The admitted ones among a sequence of requests. *)
Fixpoint admitted (dq : list timestamp) (times : list timestamp) : list timestamp :=
  match times with
  | [] => []
  | now :: times' =>
      let '(ok, dq') := admit_event now dq in
      if ok then now :: admitted dq' times' else admitted dq' times'
  end.

Definition in_span (t0 t : timestamp) : bool := ((t0 <=? t) && (t <=? t0 + span))%Z.

Lemma drop_before_sorted cutoff l :
  StronglySorted Z.le l -> drop_before cutoff l = bfilter (fun t => (cutoff <=? t)%Z) l.
Proof.
  induction 1 as [|x l Hl IH Hx]; simpl; [done|].
  destruct (Z.ltb_spec x cutoff); destruct (Z.leb_spec cutoff x); try lia; [done|].
  f_equal. symmetry. apply bfilter_all. intros t Ht. rewrite Forall_forall in Hx. specialize (Hx t Ht). lia.
Qed.

Lemma sorted_snoc (l : list Z) x :
  StronglySorted Z.le l -> Forall (fun y => y <= x)%Z l -> StronglySorted Z.le (l ++ [x]).
Proof.
  induction 1 as [|y l Hl IH Hy]; simpl; intros Hall; [repeat constructor|].
  inversion Hall; subst. constructor; [by apply IH|]. apply Forall_app. split; [done|]. by repeat constructor.
Qed.

Lemma bfilter_sub {A} (p q : A -> bool) l :
  (forall x, p x = true -> q x = true) -> (length (bfilter p l) <= length (bfilter q l))%nat.
Proof.
  intros H. induction l as [|x l IH]; simpl; [lia|]. specialize (H x).
  destruct (p x), (q x); simpl; try lia; by specialize (H eq_refl).
Qed.

(** No window of length [span] holds more than [cap] admitted events. *)
Lemma admitted_bounded times t0 :
  (0 <= span)%Z -> (0 <= cap)%Z -> StronglySorted Z.le times ->
  (Z.of_nat (length (bfilter (in_span t0) (admitted [] times))) <= cap)%Z.
Proof.
  intros Hspan Hcap Hs.
  assert (forall acc dq c, StronglySorted Z.le acc -> StronglySorted Z.le times ->
    (forall x, x ∈ acc -> forall y, y ∈ times -> x <= y)%Z ->
    (forall y, y ∈ times -> c <= y - span)%Z ->
    dq = bfilter (fun t => c <=? t)%Z acc ->
    (Z.of_nat (length (bfilter (in_span t0) acc)) <= cap)%Z ->
    (Z.of_nat (length (bfilter (in_span t0) (acc ++ admitted dq times))) <= cap)%Z) as H.
  2: { apply (H [] [] (match times with [] => 0 | y :: _ => y - span end)%Z); try (constructor || done).
       - set_solver.
       - destruct times as [|y l]; [set_solver|]. inversion Hs as [|? ? ? Hy]; subst.
         rewrite Forall_forall in Hy. intros z [->|Hz]%elem_of_cons; [lia|]. specialize (Hy z Hz). lia. }
  clear Hs. induction times as [|now times IH]; intros acc dq c Ha Ht Hle Hc Hdq Hok; cbn [admitted].
  { by rewrite app_nil_r. }
  unfold admit_event. inversion Ht as [|? ? Ht' Hnow]; subst. rewrite Forall_forall in Hnow.
  assert (drop_before (now - span) (bfilter (fun t => (c <=? t)%Z) acc) =
          bfilter (fun t => (now - span <=? t)%Z) acc) as ->.
  { assert (forall l, StronglySorted Z.le l -> StronglySorted Z.le (bfilter (fun t => (c <=? t)%Z) l)) as Hsub.
    { induction 1 as [|x l Hl IHl Hx]; simpl; [constructor|]. destruct (c <=? x)%Z; [|done]. constructor; [done|].
      apply Forall_forall. intros y [Hy _]%bfilter_in. rewrite Forall_forall in Hx. by apply Hx. }
    rewrite drop_before_sorted by auto. rewrite bfilter_bfilter. apply bfilter_ext. intros t _.
    specialize (Hc now ltac:(set_solver)). destruct (Z.leb_spec c t), (Z.leb_spec (now - span) t); simpl; lia || done. }
  destruct (Z.leb_spec cap (Z.of_nat (length (bfilter (fun t => (now - span <=? t)%Z) acc)))) as [Hfull|Hroom].
  - apply (IH acc _ (now - span)%Z); try done.
    + intros x Hx y Hy. apply Hle; set_solver.
    + intros y Hy. specialize (Hnow y Hy). lia.
  - replace (acc ++ now :: admitted _ times) with
      ((acc ++ [now]) ++ admitted (bfilter (fun t => (now - span <=? t)%Z) acc ++ [now]) times)
      by (by rewrite <- app_assoc).
    apply (IH (acc ++ [now]) _ (now - span)%Z).
    + apply sorted_snoc; [done|]. apply Forall_forall. intros x Hx. apply Hle; set_solver.
    + done.
    + intros x [Hx| ->%list_elem_of_singleton]%elem_of_app y Hy; [apply Hle; set_solver|by apply Hnow].
    + intros y Hy. specialize (Hnow y Hy). lia.
    + rewrite List.filter_app. simpl. destruct (Z.leb_spec (now - span) now); [done|lia].
    + rewrite List.filter_app, length_app. simpl. destruct (in_span t0 now) eqn:E; simpl; [|lia].
      pose proof (bfilter_sub (in_span t0) (fun t => (now - span <=? t)%Z) acc) as Hsub.
      unfold in_span in *. bool_to_Z. specialize (Hsub ltac:(intros x; bool_to_Z; lia)). lia.
Qed.

End Window.
