(* ===== verification/PyStr.v ===== *)
(** * Python strings and bytes

    The [str] operations the scanner uses, on [String.string].  A character is
    one [ascii]; the case mapping, [strip] and [isdigit] are the ones Python
    uses on ASCII text. *)
From S2P Require Import Prelude.
From stdpp Require Import pretty.
From Stdlib Require Import Ascii String.
From Stdlib Require Import Sorting.Sorted.

Open Scope string_scope.

(** ** Characters *)

Definition code (c : ascii) : Z := Z.of_N (N_of_ascii c).
Definition chr (n : Z) : ascii := ascii_of_N (Z.to_N n).
Definition is_upper (c : ascii) : bool := ((65 <=? code c) && (code c <=? 90))%Z.
Definition is_digit (c : ascii) : bool := ((48 <=? code c) && (code c <=? 57))%Z.
Definition lower_char (c : ascii) : ascii := if is_upper c then chr (code c + 32) else c.

(** Whitespace for [str.strip]: tab..CR, FS..US and space. *)
Definition is_space (c : ascii) : bool :=
  (((9 <=? code c) && (code c <=? 13)) || ((28 <=? code c) && (code c <=? 32)))%Z.

(** ** Operations *)

Fixpoint lower (s : string) : string :=
  match s with
  | EmptyString => EmptyString
  | String c s' => String (lower_char c) (lower s')
  end.

(** [s.replace(c, "")]. *)
Fixpoint remove_char (c : ascii) (s : string) : string :=
  match s with
  | EmptyString => EmptyString
  | String d s' => if Ascii.eqb c d then remove_char c s' else String d (remove_char c s')
  end.

Fixpoint has_char (c : ascii) (s : string) : bool :=
  match s with
  | EmptyString => false
  | String d s' => Ascii.eqb c d || has_char c s'
  end.

Definition startswith (s p : string) : bool := String.prefix p s.

(** [p in s]. *)
Fixpoint contains (p s : string) : bool :=
  String.prefix p s || match s with EmptyString => false | String _ s' => contains p s' end.

(** [s[n:]] and [s[:n]] for [n >= 0]. *)
Fixpoint str_drop (n : nat) (s : string) : string :=
  match n, s with
  | O, _ => s
  | S n', EmptyString => EmptyString
  | S n', String _ s' => str_drop n' s'
  end.

Fixpoint str_take (n : nat) (s : string) : string :=
  match n, s with
  | O, _ => EmptyString
  | S n', EmptyString => EmptyString
  | S n', String c s' => String c (str_take n' s')
  end.

Definition len (s : string) : nat := String.length s.

Definition endswith (s p : string) : bool :=
  (len p <=? len s)%nat && String.eqb (str_drop (len s - len p) s) p.

Fixpoint str_rev_onto (acc s : string) : string :=
  match s with
  | EmptyString => acc
  | String c s' => str_rev_onto (String c acc) s'
  end.
Definition str_rev (s : string) : string := str_rev_onto EmptyString s.

Fixpoint lstrip_where (p : ascii -> bool) (s : string) : string :=
  match s with
  | EmptyString => EmptyString
  | String c s' => if p c then lstrip_where p s' else s
  end.

(** Right strip, written structurally: drop the maximal suffix satisfying [p]. *)
Fixpoint rstrip_where (p : ascii -> bool) (s : string) : string :=
  match s with
  | EmptyString => EmptyString
  | String c s' =>
      match rstrip_where p s' with
      | EmptyString => if p c then EmptyString else String c EmptyString
      | s'' => String c s''
      end
  end.

Definition strip_where (p : ascii -> bool) (s : string) : string := rstrip_where p (lstrip_where p s).
Definition strip (s : string) : string := strip_where is_space s.
Definition rstrip_char (c : ascii) (s : string) : string := rstrip_where (Ascii.eqb c) s.
Definition lstrip_char (c : ascii) (s : string) : string := lstrip_where (Ascii.eqb c) s.

(** [s.split(c)]: never empty. *)
Fixpoint split (c : ascii) (s : string) : list string :=
  match s with
  | EmptyString => [EmptyString]
  | String d s' =>
      if Ascii.eqb c d then EmptyString :: split c s'
      else match split c s' with
           | [] => [String d EmptyString]
           | w :: ws => String d w :: ws
           end
  end.

(** [s.split(c, 1)[0]] and the part after the first [c], if there is one. *)
Definition before_first (c : ascii) (s : string) : string :=
  match split c s with [] => s | w :: _ => w end.

Fixpoint after_first (c : ascii) (s : string) : option string :=
  match s with
  | EmptyString => None
  | String d s' => if Ascii.eqb c d then Some s' else after_first c s'
  end.

(** [s.rsplit(c, 1)[-1]]: everything after the last [c]. *)
Fixpoint after_last (c : ascii) (s : string) : string :=
  match s with
  | EmptyString => EmptyString
  | String d s' =>
      if has_char c s' then after_last c s'
      else if Ascii.eqb c d then s' else s
  end.

(** [s.find(c)]: the index of the first [c], or [-1]. *)
Fixpoint find_char (c : ascii) (s : string) : Z :=
  match s with
  | EmptyString => -1
  | String d s' =>
      if Ascii.eqb c d then 0
      else let i := find_char c s' in if (i <? 0)%Z then -1 else i + 1
  end%Z.

Definition join (sep : string) (l : list string) : string := String.concat sep l.

Fixpoint str_forall (p : ascii -> bool) (s : string) : bool :=
  match s with
  | EmptyString => true
  | String c s' => p c && str_forall p s'
  end.

Definition isdigit (s : string) : bool := negb (String.eqb s "") && str_forall is_digit s.

(** [int(s)] on a string of ASCII digits. *)
Fixpoint int_onto (acc : Z) (s : string) : Z :=
  match s with
  | EmptyString => acc
  | String c s' => int_onto (acc * 10 + (code c - 48)) s'
  end%Z.
Definition int_of (s : string) : Z := int_onto 0 s.

Definition truthy (s : string) : bool := negb (String.eqb s "").
Definition str_in (s : string) (l : list string) : bool := bool_decide (s ∈ l).

(** [x or y] on strings. *)
Definition str_or (x y : string) : string := if truthy x then x else y.
(** [x or ""] on an optional string. *)
Definition ostr (x : option string) : string := default "" x.
(** [x or None]: an empty string becomes [None]. *)
Definition nonempty (x : string) : option string := if truthy x then Some x else None.
Definition otruthy (x : option string) : bool := truthy (ostr x).

(** ** Formatting *)

Definition show (n : Z) : string := pretty n.

Definition hex_digit (n : Z) : ascii := chr (if (n <? 10)%Z then 48 + n else 87 + n).

(** [repr] of one character inside a literal quoted with [q]. *)
Definition repr_char (q c : ascii) : string :=
  let n := code c in
  if Ascii.eqb c q || Ascii.eqb c (chr 92) then String (chr 92) (String c EmptyString)
  else if (n =? 9)%Z then "\t" else if (n =? 10)%Z then "\n" else if (n =? 13)%Z then "\r"
  else if ((n <? 32) || (n =? 127))%Z
  then "\x" +:+ String (hex_digit (n / 16)) (String (hex_digit (n mod 16)) EmptyString)
  else String c EmptyString.

Fixpoint repr_body (q : ascii) (s : string) : string :=
  match s with
  | EmptyString => EmptyString
  | String c s' => repr_char q c +:+ repr_body q s'
  end.

(** [repr(s)]: single quotes unless the text holds one and no double quote. *)
Definition repr (s : string) : string :=
  let sq := chr 39 in
  let dq := chr 34 in
  let q := if has_char sq s && negb (has_char dq s) then dq else sq in
  String q (repr_body q s +:+ String q EmptyString).

(** [str(list)] of a list of strings. *)
Definition repr_list (l : list string) : string := "[" +:+ join ", " (map repr l) +:+ "]".

(** [sorted(xs)] on strings, by code point. *)
Definition py_sorted (l : list string) : list string := ssort String.leb l.

(** [sorted(set(xs))]. *)
Definition sorted_set (l : list string) : list string := py_sorted (dedup l).

(** ** Lemmas *)

Definition NUL : ascii := chr 0.

Lemma append_cons c (a b : string) : String c a +:+ b = String c (a +:+ b).
Proof. reflexivity. Qed.

Lemma remove_char_absent c s : has_char c (remove_char c s) = false.
Proof.
  induction s as [|d s IH]; simpl; [done|].
  destruct (Ascii.eqb c d) eqn:E; simpl; [done|]. by rewrite E.
Qed.

Lemma remove_char_id c s : has_char c s = false -> remove_char c s = s.
Proof.
  induction s as [|d s IH]; simpl; [done|].
  intros [E H]%orb_false_iff. rewrite E. by rewrite IH.
Qed.

Lemma has_char_app c s t : has_char c (s +:+ t) = has_char c s || has_char c t.
Proof. induction s as [|d s IH]; simpl; [done|]. by rewrite IH, orb_assoc. Qed.

Lemma has_char_take c n s : has_char c s = false -> has_char c (str_take n s) = false.
Proof.
  revert s. induction n as [|n IH]; intros [|d s]; simpl; try done.
  intros [-> H]%orb_false_iff. by apply IH.
Qed.

Lemma str_take_length n s : (len (str_take n s) <= n)%nat.
Proof.
  unfold len. revert s. induction n as [|n IH]; intros [|d s]; simpl; try lia.
  specialize (IH s). lia.
Qed.

Lemma str_take_all n s : (len s <= n)%nat -> str_take n s = s.
Proof.
  unfold len. revert s. induction n as [|n IH]; intros [|d s]; simpl; intros; try done; [lia|].
  rewrite IH; [done|lia].
Qed.

Lemma len_app s t : len (s +:+ t) = (len s + len t)%nat.
Proof. unfold len. induction s as [|c s IH]; simpl; [done|]. by rewrite IH. Qed.

Lemma lower_app s t : lower (s +:+ t) = lower s +:+ lower t.
Proof. induction s as [|c s IH]; simpl; [done|]. by rewrite IH. Qed.

Lemma len_lower s : len (lower s) = len s.
Proof. unfold len. induction s as [|c s IH]; simpl; congruence. Qed.

Lemma code_chr n : (0 <= n < 256)%Z -> code (chr n) = n.
Proof. intros H. unfold code, chr. rewrite N_ascii_embedding; lia. Qed.

Lemma chr_code c : chr (code c) = c.
Proof. unfold code, chr. rewrite N2Z.id. apply ascii_N_embedding. Qed.

Lemma lower_char_idem c : lower_char (lower_char c) = lower_char c.
Proof. destruct c as [[] [] [] [] [] [] [] []]; reflexivity. Qed.

Lemma lower_idem s : lower (lower s) = lower s.
Proof. induction s as [|c s IH]; simpl; [done|]. by rewrite lower_char_idem, IH. Qed.

(** A character that is not a letter is found in [lower s] exactly where it is in [s]. *)
Lemma lower_char_eqb c d :
  is_upper c = false -> lower_char c = c -> ((97 <=? code c) && (code c <=? 122))%Z = false ->
  Ascii.eqb c (lower_char d) = Ascii.eqb c d.
Proof.
  intros Hu _ Hl. unfold lower_char. destruct (is_upper d) eqn:E; [|done].
  assert (c <> chr (code d + 32)) as H1.
  { intros ->. unfold is_upper in E. bool_to_Z. destruct E.
    rewrite code_chr in Hl by lia. lia. }
  assert (c <> d) as H2 by (intros ->; congruence).
  apply Ascii.eqb_neq in H1, H2. congruence.
Qed.

Lemma prefix_app p s : String.prefix p (p +:+ s) = true.
Proof.
  induction p as [|c p IH]; simpl; [by destruct s|]. by destruct (Ascii.ascii_dec c c).
Qed.

Lemma prefix_inv p s : String.prefix p s = true -> exists t, s = p +:+ t.
Proof.
  revert s. induction p as [|c p IH]; intros s; simpl; [by eexists|].
  destruct s as [|d s]; [done|]. simpl. destruct (Ascii.ascii_dec c d) as [->|]; [|discriminate].
  intros [t ->]%IH. by exists t.
Qed.

Lemma contains_prefix p s : String.prefix p s = true -> contains p s = true.
Proof. destruct s; simpl; intros ->; done. Qed.

Lemma contains_app_r p s t : contains p t = true -> contains p (s +:+ t) = true.
Proof.
  intros H. induction s as [|c s IH]; [done|].
  change (String.prefix p (String c (s +:+ t)) || contains p (s +:+ t) = true).
  rewrite IH. apply orb_true_r.
Qed.

Lemma contains_mid p s t : contains p (s +:+ p +:+ t) = true.
Proof. apply contains_app_r, contains_prefix, prefix_app. Qed.

Lemma str_app_assoc (a b c : string) : (a +:+ b) +:+ c = a +:+ (b +:+ c).
Proof. induction a as [|x a IH]; [done|]. rewrite ?append_cons. by rewrite IH. Qed.

Lemma str_app_nil_r (a : string) : a +:+ "" = a.
Proof. induction a as [|x a IH]; [done|]. rewrite ?append_cons. by rewrite IH. Qed.

Lemma str_drop_app p s : str_drop (len p) (p +:+ s) = s.
Proof. induction p as [|c p IH]; simpl; done. Qed.

Lemma str_take_drop n s : str_take n s +:+ str_drop n s = s.
Proof. revert s. induction n as [|n IH]; intros [|c s]; simpl; try done. by rewrite append_cons, IH. Qed.

Lemma str_forall_app p s t : str_forall p (s +:+ t) = str_forall p s && str_forall p t.
Proof. induction s as [|c s IH]; [done|]. rewrite append_cons. simpl. by rewrite IH, andb_assoc. Qed.

Lemma split_nonempty c s : split c s <> [].
Proof.
  destruct s as [|d s]; simpl; [done|]. destruct (Ascii.eqb c d); [done|].
  by destruct (split c s).
Qed.

(** [c.join(s.split(c)) == s]. *)
Lemma join_split c s : join (String c EmptyString) (split c s) = s.
Proof.
  unfold join. induction s as [|d s IH]; simpl; [done|].
  destruct (Ascii.eqb_spec c d) as [->|].
  - pose proof (split_nonempty d s). destruct (split d s) as [|w ws]; [done|].
    rewrite <- IH at 1. reflexivity.
  - pose proof (split_nonempty c s). destruct (split c s) as [|w ws]; [done|].
    destruct ws as [|w' ws]; rewrite <- IH at 1; reflexivity.
Qed.

Lemma split_no_sep c s w : w ∈ split c s -> has_char c w = false.
Proof.
  revert w. induction s as [|d s IH]; simpl; intros w.
  - by intros ->%list_elem_of_singleton.
  - destruct (Ascii.eqb c d) eqn:E.
    + intros [->|H]%elem_of_cons; [done|by apply IH].
    + pose proof (split_nonempty c s). destruct (split c s) as [|w0 ws]; [done|].
      intros [->|H']%elem_of_cons; simpl.
      * rewrite E. apply IH. set_solver.
      * apply IH. set_solver.
Qed.

Lemma leb_cons c s d t : String.leb (String c s) (String d t) =
  match N.compare (N_of_ascii c) (N_of_ascii d) with Eq => String.leb s t | Lt => true | Gt => false end.
Proof. unfold String.leb. cbn [String.compare]. unfold Ascii.compare. by destruct (N.compare _ _). Qed.

Lemma string_leb_trans x y z : String.leb x y = true -> String.leb y z = true -> String.leb x z = true.
Proof.
  revert y z. induction x as [|c x IH]; intros [|d y] [|e z]; try done. rewrite !leb_cons.
  destruct (N.compare_spec (N_of_ascii c) (N_of_ascii d)), (N.compare_spec (N_of_ascii d) (N_of_ascii e)),
    (N.compare_spec (N_of_ascii c) (N_of_ascii e)); try done; try lia. apply IH.
Qed.

Lemma py_sorted_sorted l : StronglySorted (fun x y => String.leb x y = true) (py_sorted l).
Proof. apply ssort_sorted; [apply String.leb_total|apply string_leb_trans]. Qed.

(** The first answer along a sorted list is that of [x], if nothing that sorts before it answers. *)
Lemma first_of_sorted {A} (g : string -> option A) (l : list string) x v :
  x ∈ l -> g x = Some v -> (forall y, y ∈ l -> y <> x -> String.leb y x = true -> g y = None) ->
  head (omap g (py_sorted l)) = Some v.
Proof.
  intros Hx Hg Hn. pose proof (py_sorted_sorted l) as Hs. unfold py_sorted in *.
  assert (forall y, y ∈ ssort String.leb l -> y <> x -> String.leb y x = true -> g y = None) as Hn'
    by (intros y Hy%ssort_in; auto).
  apply (ssort_in String.leb) in Hx. revert Hs Hx Hn'. clear Hn. generalize (ssort String.leb l) as k.
  induction k as [|y k IH]; intros Hs Hx Hn; [by apply elem_of_nil in Hx|]. simpl.
  inversion Hs as [|? ? Hs' Hy]; subst. destruct (decide (y = x)) as [->|Hne]; [by rewrite Hg|].
  apply elem_of_cons in Hx as [->|Hx]; [done|]. rewrite Forall_forall in Hy.
  rewrite Hn by (done || by left || by apply Hy). apply IH; [done..|]. intros z Hz. apply Hn. by right.
Qed.

Lemma py_sorted_elem l x : x ∈ py_sorted l <-> x ∈ l.
Proof. apply ssort_in. Qed.

Lemma sorted_set_elem l x : x ∈ sorted_set l <-> x ∈ l.
Proof. unfold sorted_set. by rewrite py_sorted_elem, dedup_elem. Qed.

Lemma str_in_true s l : str_in s l = true <-> s ∈ l.
Proof. unfold str_in. apply bool_decide_eq_true. Qed.

#[export] Hint Resolve remove_char_absent has_char_take : pk.

Example lower_ex : lower "AbC-9" = "abc-9". Proof. reflexivity. Qed.
Example strip_ex : strip "  a b " = "a b". Proof. reflexivity. Qed.
Example after_last_ex : after_last "/" "a/b/c.js" = "c.js". Proof. reflexivity. Qed.
Example repr_ex : repr "it's" = String (chr 34) ("it's" +:+ String (chr 34) ""). Proof. reflexivity. Qed.
