(* ===== verification/Text.v ===== *)
(** * Lines, words, paths and small scanners

    The text operations of the standard library that single components need:
    [splitlines], searches for a character class, [re.findall] for a delimited
    group, POSIX path parts, [shlex.split] and [int]. *)
From S2P Require Import Prelude PyStr.
From Stdlib Require Import Ascii String.

Open Scope string_scope.

(** The characters [str.splitlines] breaks at (ASCII); [\r\n] counts once. *)
Definition is_break (c : ascii) : bool :=
  (((10 <=? code c) && (code c <=? 13)) || ((28 <=? code c) && (code c <=? 30)))%Z.
Definition CR : ascii := chr 13.
Definition LF : ascii := chr 10.

Definition glue (c : ascii) (ls : list string) : list string :=
  match ls with [] => [String c EmptyString] | w :: ws => String c w :: ws end.

(** [s.splitlines()]: no empty last line. *)
Fixpoint splitlines (s : string) : list string :=
  match s with
  | EmptyString => []
  | String c s' =>
      if is_break c then
        match s' with
        | String d s'' => if Ascii.eqb c CR && Ascii.eqb d LF then EmptyString :: splitlines s''
                          else EmptyString :: splitlines s'
        | EmptyString => [EmptyString]
        end
      else glue c (splitlines s')
  end.

(** The split at the first character of a class, which opens the second part. *)
Fixpoint span_until (p : ascii -> bool) (s : string) : string * string :=
  match s with
  | EmptyString => (EmptyString, EmptyString)
  | String c s' => if p c then (EmptyString, s) else let '(a, b) := span_until p s' in (String c a, b)
  end.

Definition no_break (s : string) : bool := str_forall (fun c => negb (is_break c)) s.

(** The groups of [re.findall(pre + "([^" + stops + "]+)" + post)], left to right. *)
Fixpoint groups (pre : string) (stop : ascii -> bool) (post : string) (fuel : nat) (s : string) : list string :=
  match fuel with
  | O => []
  | S fuel' =>
      match s with
      | EmptyString => []
      | String _ s' =>
          if startswith s pre then
            let '(body, rest) := span_until stop (str_drop (len pre) s) in
            if truthy body && startswith rest post then body :: groups pre stop post fuel' (str_drop (len post) rest)
            else groups pre stop post fuel' s'
          else groups pre stop post fuel' s'
      end
  end.
Definition find_groups (pre : string) (stop : ascii -> bool) (post s : string) : list string := groups pre stop post (S (len s)) s.

(** ** Lemmas *)

Lemma str_forall_impl (p q : ascii -> bool) s :
  (forall c, p c = true -> q c = true) -> str_forall p s = true -> str_forall q s = true.
Proof. intros H. induction s as [|c s IH]; simpl; [done|]. rewrite !andb_true_iff. naive_solver. Qed.

Lemma span_until_app p s t : str_forall (fun c => negb (p c)) s = true ->
  span_until p (s +:+ t) = (s +:+ (span_until p t).1, (span_until p t).2).
Proof.
  induction s as [|c s IH]; simpl.
  { intros _. change ("" +:+ t) with t. by destruct (span_until p t). }
  rewrite andb_true_iff, negb_true_iff. intros [-> Hs]. specialize (IH Hs).
  change (append s t) with (s +:+ t). by rewrite IH.
Qed.

Lemma span_until_spec p s :
  s = (span_until p s).1 +:+ (span_until p s).2 /\ str_forall (fun c => negb (p c)) (span_until p s).1 = true.
Proof.
  induction s as [|c s [IH1 IH2]]; simpl; [done|]. destruct (p c) eqn:E; [done|].
  destruct (span_until p s) as [a b]. cbn in *. rewrite E. split; [by rewrite IH1 at 1|done].
Qed.

Lemma splitlines_line s : s <> "" -> no_break s = true -> splitlines s = [s].
Proof.
  unfold no_break. induction s as [|c s IH]; [done|]. intros _. cbn [str_forall]. rewrite andb_true_iff, negb_true_iff.
  intros [Hc Hs]. cbn [splitlines]. rewrite Hc. destruct s as [|d s]; [done|]. by rewrite IH.
Qed.

(** A line, a line feed, and the rest. *)
Lemma splitlines_cons l s : no_break l = true -> splitlines (l +:+ String LF s) = l :: splitlines s.
Proof.
  unfold no_break. induction l as [|c l IH].
  - intros _. cbn -[splitlines]. change (splitlines (String LF s) = "" :: splitlines s). cbn [splitlines].
    change (is_break LF) with true. cbn iota. destruct s as [|d s]; done.
  - cbn [str_forall]. rewrite andb_true_iff, negb_true_iff. intros [Hc Hl]. specialize (IH Hl).
    rewrite append_cons. cbn [splitlines]. by rewrite Hc, IH.
Qed.

Lemma splitlines_join ls : Forall (fun l => no_break l = true) ls ->
  splitlines (join (String LF "") ls) = match ls with [] => [] | _ => if truthy (List.last ls "") then ls else removelast ls end.
Proof.
  unfold join. induction 1 as [|l ls Hl Hls IH]; [done|]. destruct ls as [|l' ls].
  - cbn. destruct (String.eqb_spec l "") as [->|Hne]; [done|].
    assert (truthy l = true) as -> by (unfold truthy; by rewrite (proj2 (String.eqb_neq _ _))). by apply splitlines_line.
  - change (String.concat (String LF "") (l :: l' :: ls)) with (l +:+ String LF (String.concat (String LF "") (l' :: ls))).
    rewrite splitlines_cons, IH by done. cbn. destruct (truthy _); done.
Qed.

Lemma lstrip_where_head p s c t : lstrip_where p s = String c t -> p c = false.
Proof. induction s as [|d s IH]; [done|]. cbn [lstrip_where]. destruct (p d) eqn:E; [done|]. by intros [= <- _]. Qed.

Lemma lstrip_where_nil p s : lstrip_where p s = "" <-> str_forall p s = true.
Proof. induction s as [|d s IH]; [done|]. cbn [lstrip_where str_forall]. destruct (p d); [done|]. done. Qed.

(** ** POSIX paths ([pathlib.PurePosixPath]) *)

(** The parts of a path without its root: empty parts and [.] are dropped. *)
Definition path_parts (s : string) : list string :=
  List.filter (fun p => truthy p && negb (String.eqb p ".")) (split "/"%char s).
Definition path_name (s : string) : string := List.last (path_parts s) "".

(** ** [shlex.split] *)

Inductive shlex_state := ShBlank | ShWord | ShQuote (q : ascii) | ShEscape (back : option ascii).

Definition sh_blank (c : ascii) : bool := has_char c (String (chr 32) (String (chr 9) (String CR (String LF "")))).
Definition SQ : ascii := chr 39.
Definition DQ : ascii := chr 34.
Definition BS : ascii := chr 92.
Definition is_quote (c : ascii) : bool := Ascii.eqb c SQ || Ascii.eqb c DQ.
Definition snoc (s : string) (c : ascii) : string := s +:+ String c "".

(** [None] is the [ValueError] of an open quote or a trailing backslash.
    [ShEscape (Some q)] returns to the quote [q], [ShEscape None] to a word. *)
Fixpoint shlex_go (st : shlex_state) (tok : string) (quoted : bool) (s : string) : option (list string) :=
  let emit := if truthy tok || quoted then [tok] else [] in
  match s with
  | EmptyString => match st with ShBlank | ShWord => Some emit | _ => None end
  | String c s' =>
      match st with
      | ShBlank | ShWord =>
          if sh_blank c then app emit <$> shlex_go ShBlank "" false s'
          else if Ascii.eqb c BS then shlex_go (ShEscape None) tok quoted s'
          else if is_quote c then shlex_go (ShQuote c) tok true s'
          else shlex_go ShWord (snoc tok c) quoted s'
      | ShQuote q =>
          if Ascii.eqb c q then shlex_go ShWord tok quoted s'
          else if Ascii.eqb c BS && Ascii.eqb q DQ then shlex_go (ShEscape (Some q)) tok quoted s'
          else shlex_go (ShQuote q) (snoc tok c) quoted s'
      | ShEscape (Some q) =>
          shlex_go (ShQuote q) (if Ascii.eqb c BS || Ascii.eqb c q then snoc tok c else snoc (snoc tok BS) c) quoted s'
      | ShEscape None => shlex_go ShWord (snoc tok c) quoted s'
      end
  end.
Definition shlex_split (s : string) : option (list string) := shlex_go ShBlank "" false s.

(** ** [int(s)] *)

(** Digits with single underscores between them. *)
Fixpoint int_digits (acc : Z) (after_digit : bool) (s : string) : option Z :=
  match s with
  | EmptyString => if after_digit then Some acc else None
  | String c s' =>
      if is_digit c then int_digits (acc * 10 + (code c - 48))%Z true s'
      else if Ascii.eqb c "_"%char && after_digit then int_digits acc false s' else None
  end.

(** [None] is [ValueError]. *)
Definition py_int (s : string) : option Z :=
  match strip s with
  | String c s' as t =>
      if Ascii.eqb c "-"%char then Z.opp <$> int_digits 0 false s'
      else if Ascii.eqb c "+"%char then int_digits 0 false s'
      else int_digits 0 false t
  | EmptyString => None
  end.
