(* ===== verification/Regex.v ===== *)
(** * Regular expressions ([re])

    The analyzers decide by Python's [re].  This file gives the expressions they
    use a meaning twice: [matches], a relation between the two ends of a match,
    and [run], the ordered list of the ways to match that the backtracking
    matcher tries.  [search], [finditer], [sub] and [re_split] are defined on
    [run]; the theorems say that they find exactly what [matches] allows.

    A subject is a list of code points.  Case folding and the classes [\w],
    [\d], [\s] are Python's on ASCII. *)
From S2P Require Import Prelude PyStr Text.
From Stdlib Require Import Ascii String Sorted.

Open Scope Z_scope.
Open Scope list_scope.

(** ** Syntax *)

Inductive cls := CDigit | CWord | CSpace.
Inductive item := Rng (lo hi : Z) | Cls (neg : bool) (k : cls).

Inductive re :=
  | Eps
  | Set_ (neg : bool) (its : list item)
  | Dot
  | Bol | Eol
  | WordB (neg : bool)
  | Cat (r1 r2 : re)
  | Alt (r1 r2 : re)
  | Rep (greedy : bool) (lo : nat) (hi : option nat) (r : re)
  | Group (n : nat) (r : re)
  | Look (neg : bool) (r : re).

Record flags := mkFlags { IGNORECASE : bool; DOTALL : bool; MULTILINE : bool; BYTES : bool }.

(** A compiled pattern. *)
Record regex := mkRegex { r_flags : flags; r_body : re }.

(** ** Subjects *)

Definition codes_of (s : string) : list Z := map code (list_ascii_of_string s).
Definition str_of_codes (l : list Z) : string := string_of_list_ascii (map chr l).

(** A position in the subject: its index, the character before it, and what follows. *)
Record cursor := mkCur { pos : nat; prev : option Z; rest : list Z }.
Definition start (l : list Z) : cursor := mkCur 0 None l.

Definition last_code (l : list Z) : option Z := list.last l.
Definition cursor_at (l : list Z) (i : nat) : cursor := mkCur i (last_code (firstn i l)) (skipn i l).

(** The spans of the groups that took part, the latest first. *)
Definition caps : Type := list (nat * (nat * nat)).

(** ** Characters *)

Definition is_word (bytes : bool) (c : Z) : bool :=
  ((48 <=? c) && (c <=? 57)) || ((65 <=? c) && (c <=? 90)) || ((97 <=? c) && (c <=? 122)) || (c =? 95).

(** [\s] of a [str] pattern holds the four separators 28..31, of a [bytes] pattern not. *)
Definition in_cls (bytes : bool) (k : cls) (c : Z) : bool :=
  match k with
  | CDigit => (48 <=? c) && (c <=? 57)
  | CWord => is_word bytes c
  | CSpace => ((9 <=? c) && (c <=? 13)) || (c =? 32) || (negb bytes && (28 <=? c) && (c <=? 31))
  end.

Definition in_item (bytes : bool) (c : Z) (it : item) : bool :=
  match it with
  | Rng lo hi => (lo <=? c) && (c <=? hi)
  | Cls neg k => xorb neg (in_cls bytes k c)
  end.

Definition lower_code (c : Z) : Z := if (65 <=? c) && (c <=? 90) then c + 32 else c.
Definition upper_code (c : Z) : Z := if (97 <=? c) && (c <=? 122) then c - 32 else c.

Section Match.
Variable fl : flags.

Definition in_set (neg : bool) (its : list item) (c : Z) : bool :=
  let hit x := existsb (in_item (BYTES fl) x) its in
  xorb neg (if IGNORECASE fl then hit (lower_code c) || hit (upper_code c) else hit c).

Definition is_dot (c : Z) : bool := DOTALL fl || negb (c =? 10).

Definition at_bol (c : cursor) : bool :=
  match prev c with None => true | Some p => MULTILINE fl && (p =? 10) end.
Definition at_eol (c : cursor) : bool :=
  match rest c with [] => true | [x] => x =? 10 | x :: _ => MULTILINE fl && (x =? 10) end.
Definition at_wordb (c : cursor) : bool :=
  xorb (match prev c with Some p => is_word (BYTES fl) p | None => false end)
       (match rest c with x :: _ => is_word (BYTES fl) x | [] => false end).

(** The position after one character of a class. *)
Definition advance (p : Z -> bool) (c : cursor) : option cursor :=
  match rest c with
  | x :: l => if p x then Some (mkCur (S (pos c)) (Some x) l) else None
  | [] => None
  end.

(** ** The matcher: all ways to match, the preferred first *)

Definition ways : Type := list (cursor * caps).
Definition guard (b : bool) (c : cursor) (g : caps) : ways := if b then [(c, g)] else [].
Definition one (p : Z -> bool) (c : cursor) (g : caps) : ways :=
  match advance p c with Some c' => [(c', g)] | None => [] end.

(** The mandatory iterations of a repetition. *)
Fixpoint times (k : nat) (f : cursor -> caps -> ways) (c : cursor) (g : caps) : ways :=
  match k with
  | O => [(c, g)]
  | S k' => flat_map (fun cg => times k' f cg.1 cg.2) (f c g)
  end.

(** The optional ones: an iteration that consumes nothing ends the loop. *)
Fixpoint more (n : nat) (greedy : bool) (f : cursor -> caps -> ways) (c : cursor) (g : caps) : ways :=
  match n with
  | O => [(c, g)]
  | S n' =>
      let next := flat_map (fun cg => if (pos c <? pos cg.1)%nat then more n' greedy f cg.1 cg.2 else []) (f c g) in
      if greedy then next ++ [(c, g)] else (c, g) :: next
  end.

Definition room (lo : nat) (hi : option nat) (c : cursor) : nat :=
  match hi with None => List.length (rest c) | Some h => Nat.min (h - lo) (List.length (rest c)) end.

Fixpoint run (r : re) (c : cursor) (g : caps) : ways :=
  match r with
  | Eps => [(c, g)]
  | Set_ neg its => one (in_set neg its) c g
  | Dot => one is_dot c g
  | Bol => guard (at_bol c) c g
  | Eol => guard (at_eol c) c g
  | WordB neg => guard (xorb neg (at_wordb c)) c g
  | Cat r1 r2 => flat_map (fun cg => run r2 cg.1 cg.2) (run r1 c g)
  | Alt r1 r2 => run r1 c g ++ run r2 c g
  | Rep greedy lo hi r1 =>
      flat_map (fun cg => more (room lo hi cg.1) greedy (run r1) cg.1 cg.2) (times lo (run r1) c g)
  | Group n r1 => map (fun cg => (cg.1, (n, (pos c, pos cg.1)) :: cg.2)) (run r1 c g)
  | Look neg r1 => guard (xorb neg (match run r1 c g with [] => false | _ => true end)) c g
  end.

(** ** The meaning: between which positions an expression matches *)

Fixpoint matches (r : re) (c c' : cursor) : Prop :=
  match r with
  | Eps => c' = c
  | Set_ neg its => advance (in_set neg its) c = Some c'
  | Dot => advance is_dot c = Some c'
  | Bol => c' = c /\ at_bol c = true
  | Eol => c' = c /\ at_eol c = true
  | WordB neg => c' = c /\ at_wordb c = negb neg
  | Cat r1 r2 => exists d, matches r1 c d /\ matches r2 d c'
  | Alt r1 r2 => matches r1 c c' \/ matches r2 c c'
  | Rep _ lo hi r1 => exists n, (lo <= n)%nat /\ (forall h, hi = Some h -> (n <= Nat.max lo h)%nat) /\ nsteps (matches r1) n c c'
  | Group _ r1 => matches r1 c c'
  | Look neg r1 => c' = c /\ (if neg then ~ exists d, matches r1 c d else exists d, matches r1 c d)
  end.

End Match.

(** ** Searching *)

Record mtch := mkMatch { m_start : nat; m_end : nat; m_caps : caps }.
#[export] Instance mtch_eq_dec : EqDecision mtch. Proof. solve_decision. Defined.

(** What a way from [c] gives as a match. *)
Definition as_match (c : cursor) (w : cursor * caps) : mtch * cursor := (mkMatch (pos c) (pos w.1) w.2, w.1).

(** [must]: the match may not be empty here, since the last one ended here empty. *)
Definition match_here (r : regex) (must : bool) (c : cursor) : option (mtch * cursor) :=
  as_match c <$> head (List.filter (fun w => negb must || (pos c <? pos w.1)%nat) (run (r_flags r) (r_body r) c [])).

(** The first position at or after [c] where a match begins. *)
Fixpoint search_list (r : regex) (must : bool) (n : nat) (before : option Z) (l : list Z) : option (mtch * cursor) :=
  match match_here r must (mkCur n before l) with
  | Some m => Some m
  | None => match l with [] => None | x :: l' => search_list r false (S n) (Some x) l' end
  end.
Definition search_from (r : regex) (must : bool) (c : cursor) : option (mtch * cursor) :=
  search_list r must (pos c) (prev c) (rest c).

Fixpoint scan (fuel : nat) (r : regex) (must : bool) (c : cursor) : list mtch :=
  match fuel with
  | O => []
  | S fuel' =>
      match search_from r must c with
      | None => []
      | Some (m, c') => m :: scan fuel' r (m_start m =? m_end m)%nat c'
      end
  end.

(** On lists of code points. *)
Definition search_codes (r : regex) (l : list Z) : option mtch := fst <$> search_from r false (start l).
Definition match_codes (r : regex) (l : list Z) : option mtch := fst <$> match_here r false (start l).
Definition finditer_codes (r : regex) (l : list Z) : list mtch := scan (2 * List.length l + 2) r false (start l).

(** On strings: [p.search(s)], [p.match(s)], [p.finditer(s)]. *)
Definition search (r : regex) (s : string) : option mtch := search_codes r (codes_of s).
Definition match_ (r : regex) (s : string) : option mtch := match_codes r (codes_of s).
Definition finditer (r : regex) (s : string) : list mtch := finditer_codes r (codes_of s).

(** [bool(p.search(s))], [bool(p.match(s))]. *)
Definition found (r : regex) (s : string) : bool := match search r s with Some _ => true | None => false end.
Definition found_at_start (r : regex) (s : string) : bool := match match_ r s with Some _ => true | None => false end.

(** [s[a:b]] for [0 <= a <= b]. *)
Definition slice (s : string) (a b : nat) : string := str_take (b - a) (str_drop a s).

(** [m.group(0)] and [m.group(n)]; [None] where the group took no part. *)
Definition group0 (s : string) (m : mtch) : string := slice s (m_start m) (m_end m).
Definition span_of (n : nat) (m : mtch) : option (nat * nat) := snd <$> List.find (fun kv => Nat.eqb kv.1 n) (m_caps m).
Definition group (s : string) (n : nat) (m : mtch) : option string := (fun ab => slice s ab.1 ab.2) <$> span_of n m.
Definition group_or (s : string) (n : nat) (m : mtch) : string := ostr (group s n m).

(** [p.findall(s)] of a pattern with one group. *)
Definition findall (r : regex) (s : string) : list string := map (group_or s 1) (finditer r s).

(** The pieces of [s] between the matches [ms], from index [from]. *)
Fixpoint between (s : string) (from : nat) (ms : list mtch) : list string :=
  match ms with
  | [] => [str_drop from s]
  | m :: ms' => slice s from (m_start m) :: between s (m_end m) ms'
  end.
(** [p.sub(w, s)] and [p.split(s)]. *)
Definition sub (r : regex) (w s : string) : string := join w (between s 0 (finditer r s)).
Definition re_split (r : regex) (s : string) : list string := between s 0 (finditer r s).

(** ** Positions *)

Lemma elem_flat_map {A B} (f : A -> list B) l y : y ∈ flat_map f l <-> exists x, x ∈ l /\ y ∈ f x.
Proof. rewrite list_elem_of_In, in_flat_map. setoid_rewrite list_elem_of_In. done. Qed.

(** [c'] lies at or after [c] in the same subject. *)
Definition reach (c c' : cursor) : Prop :=
  exists w, rest c = w ++ rest c' /\ pos c' = (pos c + List.length w)%nat /\ prev c' = match w with [] => prev c | _ => last_code w end.

Lemma last_code_snoc l x : last_code (l ++ [x]) = Some x.
Proof. apply last_snoc. Qed.

Lemma last_code_app l w : w <> [] -> last_code (l ++ w) = last_code w.
Proof. intros H. destruct (exists_last H) as (w' & x & ->). by rewrite app_assoc, !last_code_snoc. Qed.

Lemma reach_refl c : reach c c.
Proof. exists []. cbn. split_and!; [done|lia|done]. Qed.

Lemma reach_trans c d e : reach c d -> reach d e -> reach c e.
Proof.
  intros (w & H1 & H2 & H3) (v & H4 & H5 & H6). exists (w ++ v). rewrite H1, H4, app_assoc, length_app.
  split_and!; [done|lia|]. destruct v as [|x v]; [rewrite app_nil_r; congruence|].
  rewrite last_code_app by done. destruct w; done.
Qed.

Lemma reach_advance p c c' : advance p c = Some c' -> reach c c' /\ pos c' = S (pos c).
Proof.
  unfold advance. destruct (rest c) as [|x l] eqn:E; [done|]. destruct (p x); [|done]. intros [= <-]. split; [|done].
  exists [x]. cbn. rewrite E. split_and!; [done|lia|done].
Qed.

Lemma reach_pos c c' : reach c c' -> (pos c <= pos c')%nat /\ (pos c' - pos c = List.length (rest c) - List.length (rest c'))%nat /\ (List.length (rest c') <= List.length (rest c))%nat.
Proof. intros (w & H1 & H2 & _). rewrite H1, length_app. lia. Qed.

Lemma reach_same c c' : reach c c' -> pos c' = pos c -> c' = c.
Proof.
  intros (w & H1 & H2 & H3) Hp. destruct w; [|cbn in H2; lia]. destruct c as [i p l], c' as [i' p' l']. cbn in *. f_equal; [lia|congruence|congruence].
Qed.

Lemma skipn_snoc {A} (l : list A) w r : l = w ++ r -> skipn (List.length w) l = r /\ firstn (List.length w) l = w.
Proof. intros ->. split; [by rewrite skipn_app, skipn_all, Nat.sub_diag|by rewrite firstn_app, firstn_all, Nat.sub_diag, app_nil_r]. Qed.

Lemma reach_at l i c : (i <= List.length l)%nat -> reach (cursor_at l i) c <-> (i <= pos c <= List.length l)%nat /\ c = cursor_at l (pos c).
Proof.
  intros Hi. split.
  - intros (w & H1 & H2 & H3). cbn in H1, H2, H3.
    assert (l = (firstn i l ++ w) ++ rest c) as Hl by (rewrite <- app_assoc, <- H1; by rewrite firstn_skipn).
    assert (List.length (firstn i l ++ w) = pos c) as Hw by (rewrite length_app, length_firstn; lia).
    destruct (skipn_snoc _ _ _ Hl) as [Hr Hf]. rewrite Hw in Hr, Hf.
    split; [apply (f_equal (@List.length Z)) in Hl; rewrite !length_app, length_firstn in Hl; lia|].
    unfold cursor_at. rewrite Hr, Hf. destruct c as [j p r]. cbn in *. f_equal. rewrite H3.
    destruct w; [by rewrite app_nil_r|by rewrite last_code_app].
  - intros [Hp Hc]. exists (firstn (pos c - i) (skipn i l)). rewrite Hc. cbn.
    assert (skipn (pos c) l = skipn (pos c - i) (skipn i l)) as Hs by (rewrite skipn_skipn; f_equal; lia).
    split_and!; [by rewrite Hs, firstn_skipn|rewrite length_firstn, length_skipn; lia|].
    assert (firstn (pos c) l = firstn i l ++ firstn (pos c - i) (skipn i l)) as ->.
    { rewrite <- (firstn_skipn i l) at 1. rewrite firstn_app, length_firstn, firstn_firstn. do 2 f_equal; lia. }
    destruct (firstn (pos c - i) (skipn i l)) eqn:E; [by rewrite app_nil_r|by rewrite last_code_app].
Qed.

(** ** The matcher and the relation agree *)

Section Agree.
Variable fl : flags.

Lemma nsteps_reach (R : cursor -> cursor -> Prop) n c c' :
  (forall d d', R d d' -> reach d d') -> nsteps R n c c' -> reach c c'.
Proof. intros HR. induction 1; [apply reach_refl|]. eapply reach_trans; eauto. Qed.

Lemma matches_reach r c c' : matches fl r c c' -> reach c c'.
Proof.
  revert c c'. induction r; intros c c'; cbn [matches]; try (intros [-> _]; apply reach_refl).
  - intros ->. apply reach_refl.
  - by intros [H _]%reach_advance.
  - by intros [H _]%reach_advance.
  - intros (d & H1 & H2). eapply reach_trans; eauto.
  - intros [H|H]; eauto.
  - intros (n & _ & _ & H). eapply nsteps_reach; eauto.
  - eauto.
Qed.

(** A matcher agrees with a relation whatever the groups so far. *)
Definition agrees (f : cursor -> caps -> ways) (R : cursor -> cursor -> Prop) : Prop :=
  (forall c g c' g', (c', g') ∈ f c g -> R c c') /\ (forall c c' g, R c c' -> exists g', (c', g') ∈ f c g).

Lemma agrees_guard b : agrees (guard b) (fun c c' => c' = c /\ b = true).
Proof.
  unfold guard. split.
  - intros c g c' g'. destruct b; [|by intros ?%elem_of_nil]. by intros [= -> ->]%list_elem_of_singleton.
  - intros c c' g [-> ->]. exists g. set_solver.
Qed.

Lemma guard_agrees (b : cursor -> bool) : agrees (fun c g => guard (b c) c g) (fun c c' => c' = c /\ b c = true).
Proof. split; intros c; [intros g c' g'|intros c' g]; apply (agrees_guard (b c)). Qed.

Lemma one_agrees p : agrees (one p) (fun c c' => advance p c = Some c').
Proof.
  unfold one. split.
  - intros c g c' g'. destruct (advance p c); [|by intros ?%elem_of_nil]. by intros [= -> ->]%list_elem_of_singleton.
  - intros c c' g ->. exists g. set_solver.
Qed.

Lemma bind_agrees f1 R1 f2 R2 : agrees f1 R1 -> agrees f2 R2 ->
  agrees (fun c g => flat_map (fun cg => f2 cg.1 cg.2) (f1 c g)) (fun c c' => exists d, R1 c d /\ R2 d c').
Proof.
  intros [S1 C1] [S2 C2]. split.
  - intros c g c' g' ([d h] & H1 & H2)%elem_flat_map. exists d. cbn in H2. eauto.
  - intros c c' g (d & H1 & H2). destruct (C1 c d g H1) as [h Hh]. destruct (C2 d c' h H2) as [g' Hg]. exists g'.
    apply elem_flat_map. by exists (d, h).
Qed.

Lemma times_agrees f R k : agrees f R -> agrees (times k f) (nsteps R k).
Proof.
  intros Hf. induction k as [|k IH]; cbn [times].
  - split; [intros c g c' g' [= -> ->]%list_elem_of_singleton; constructor|].
    intros c c' g H. inversion H; subst. exists g. set_solver.
  - destruct (bind_agrees _ _ _ _ Hf IH) as [S1 C1]. split; cbn in *.
    + intros c g c' g' (d & H1 & H2)%S1. by econstructor.
    + intros c c' g H. inversion H; subst. eauto.
Qed.

(** Optional iterations: at most [n], each of which consumes something. *)
Definition progress (R : cursor -> cursor -> Prop) (c c' : cursor) : Prop := R c c' /\ (pos c < pos c')%nat.

Lemma more_agrees f R n greedy : agrees f R -> agrees (more n greedy f) (fun c c' => exists m, (m <= n)%nat /\ nsteps (progress R) m c c').
Proof.
  intros [S0 C0]. induction n as [|n [IHs IHc]]; cbn [more].
  - split; [intros c g c' g' [= -> ->]%list_elem_of_singleton; exists O; split; [lia|constructor]|].
    intros c c' g (m & Hm & H). assert (m = O) as -> by lia. inversion H; subst. exists g. set_solver.
  - set (next := fun c g => flat_map (fun cg => if (pos c <? pos cg.1)%nat then more n greedy f cg.1 cg.2 else []) (f c g)).
    assert (forall c g c' g', (c', g') ∈ next c g <-> exists d h, (d, h) ∈ f c g /\ (pos c < pos d)%nat /\ (c', g') ∈ more n greedy f d h) as Hnext.
    { intros c g c' g'. unfold next. rewrite elem_flat_map. split.
      - intros ([d h] & H1 & H2). cbn [fst snd] in H2. destruct (Nat.ltb_spec (pos c) (pos d)); [|by apply elem_of_nil in H2]. eauto.
      - intros (d & h & H1 & H2 & H3). exists (d, h). cbn [fst snd]. by rewrite (proj2 (Nat.ltb_lt _ _) H2). }
    assert (forall c g w, w ∈ (if greedy then next c g ++ [(c, g)] else (c, g) :: next c g) <-> w ∈ next c g \/ w = (c, g)) as Hor.
    { intros. destruct greedy; set_solver. }
    split.
    + intros c g c' g'. change (_ ∈ _) with ((c', g') ∈ (if greedy then next c g ++ [(c, g)] else (c, g) :: next c g)).
      intros [(d & h & H1 & H2 & (m & Hm & H3)%IHs)%Hnext|[= -> ->]]%Hor; [exists (S m)|exists O]; (split; [lia|]); econstructor; eauto.
      split; eauto.
    + intros c c' g (m & Hm & H). change (exists g', (c', g') ∈ (if greedy then next c g ++ [(c, g)] else (c, g) :: next c g)).
      inversion H as [|m' x d z [H1 H2] H3]; subst; [exists g; apply Hor; by right|].
      destruct (C0 c d g H1) as [h Hh]. destruct (IHc d c' h) as [g' Hg]; [exists m'; split; [lia|done]|].
      exists g'. apply Hor. left. apply Hnext. eauto 6.
Qed.

(** Iterations that consume nothing can be left out. *)
Lemma nsteps_progress (R : cursor -> cursor -> Prop) n c c' : (forall d d', R d d' -> reach d d') -> nsteps R n c c' ->
  exists m, (m <= n)%nat /\ nsteps (progress R) m c c'.
Proof.
  intros HR. induction 1 as [c|n c d c' H1 _ (m & Hm & IH)]; [exists O; split; [lia|constructor]|].
  destruct (decide (pos c < pos d)%nat) as [Hp|Hp].
  - exists (S m). split; [lia|]. econstructor; eauto. by split.
  - assert (d = c) as -> by (apply reach_same; [by apply HR|pose proof (reach_pos _ _ (HR _ _ H1)); lia]). exists m. split; [lia|done].
Qed.

Lemma progress_bound (R : cursor -> cursor -> Prop) m c c' : (forall d d', R d d' -> reach d d') -> nsteps (progress R) m c c' ->
  (m <= List.length (rest c))%nat.
Proof.
  intros HR. induction 1 as [c|n c d c' [H1 H2] _ IH]; [lia|]. apply HR, reach_pos in H1. lia.
Qed.

Lemma nsteps_weaken (R Q : cursor -> cursor -> Prop) n c c' : (forall d d', R d d' -> Q d d') -> nsteps R n c c' -> nsteps Q n c c'.
Proof. intros H. induction 1; econstructor; eauto. Qed.

Lemma rep_agrees f R greedy lo hi : (forall d d', R d d' -> reach d d') -> agrees f R ->
  agrees (fun c g => flat_map (fun cg => more (room lo hi cg.1) greedy f cg.1 cg.2) (times lo f c g))
    (fun c c' => exists n, (lo <= n)%nat /\ (forall h, hi = Some h -> (n <= Nat.max lo h)%nat) /\ nsteps R n c c').
Proof.
  intros HR Hf. destruct (times_agrees f R lo Hf) as [S1 C1]. split.
  - intros c g c' g' ([d h] & H1%S1 & H2)%elem_flat_map. cbn in H2.
    destruct (proj1 (more_agrees f R (room lo hi d) greedy Hf) _ _ _ _ H2) as (m & Hm & H3). exists (lo + m)%nat.
    split_and!; [lia|intros k ->; cbn in Hm; lia|].
    eapply nsteps_trans; [exact H1|]. eapply nsteps_weaken; [|exact H3]. by intros ? ? [].
  - intros c c' g (n & Hlo & Hhi & H). replace n with (lo + (n - lo))%nat in H by lia.
    apply nsteps_add_inv in H as (d & H1 & H2). destruct (C1 c d g H1) as [h Hh].
    destruct (nsteps_progress R _ _ _ HR H2) as (m & Hm & H3).
    destruct (proj2 (more_agrees f R (room lo hi d) greedy Hf) d c' h) as [g' Hg].
    { exists m. split; [|done]. pose proof (progress_bound R m d c' HR H3). unfold room. destruct hi as [k|]; [|done].
      specialize (Hhi k eq_refl). lia. }
    exists g'. apply elem_flat_map. by exists (d, h).
Qed.

Lemma run_agrees r : agrees (run fl r) (matches fl r).
Proof.
  induction r as [|neg its| | | |neg|r1 IH1 r2 IH2|r1 [S1 C1] r2 [S2 C2]|gr lo hi r IH|n r [S0 C0]|neg r [S0 C0]]; cbn [run matches].
  - split; [by intros c g c' g' [= -> ->]%list_elem_of_singleton|]. intros c c' g ->. exists g. set_solver.
  - apply one_agrees.
  - apply one_agrees.
  - apply (guard_agrees (at_bol fl)).
  - apply (guard_agrees (at_eol fl)).
  - destruct (guard_agrees (fun c => xorb neg (at_wordb fl c))) as [S0 C0]. split.
    + intros c g c' g' [-> H]%S0. split; [done|]. by destruct neg, (at_wordb fl c).
    + intros c c' g [-> H]. apply C0. split; [done|]. rewrite H. by destruct neg.
  - by apply bind_agrees.
  - split.
    + intros c g c' g' [H|H]%elem_of_app; eauto.
    + intros c c' g [H|H]; [destruct (C1 c c' g H) as [h Hh]|destruct (C2 c c' g H) as [h Hh]]; exists h; set_solver.
  - apply rep_agrees; [apply matches_reach|done].
  - split.
    + intros c g c' g' ([d h] & [= -> ->] & H)%list_elem_of_fmap. eauto.
    + intros c c' g H. destruct (C0 c c' g H) as [h Hh]. exists ((n, (pos c, pos c')) :: h). apply list_elem_of_fmap. by exists (c', h).
  - assert (forall c g, match run fl r c g with [] => false | _ => true end = true <-> exists d, matches fl r c d) as Hb.
    { intros c g. split.
      - destruct (run fl r c g) as [|[d h] l] eqn:E; [done|]. intros _. exists d. apply (S0 c g d h). rewrite E. set_solver.
      - intros (d & Hd). destruct (C0 c d g Hd) as [h Hh]. destruct (run fl r c g); [by apply elem_of_nil in Hh|done]. }
    split.
    + intros c g c' g' H. unfold guard in H. specialize (Hb c g). destruct neg; cbn in H;
        destruct (match run fl r c g with [] => false | _ => true end) eqn:E; cbn in H; try (by apply elem_of_nil in H);
        apply list_elem_of_singleton in H as [= -> ->]; (split; [done|]); [intros Hd%Hb; done|by apply Hb].
    + intros c c' g [-> H]. exists g. unfold guard. specialize (Hb c g). replace (xorb _ _) with true; [set_solver|]. symmetry.
      destruct neg; [apply negb_true_iff, not_true_iff_false; by rewrite Hb|rewrite xorb_false_l; by apply Hb].
Qed.

End Agree.

(** ** What searching finds *)

Section Searching.
Variable r : regex.
Notation M := (matches (r_flags r) (r_body r)).

(** A match that [search_from r must c] may return. *)
Definition live (must : bool) (c d d' : cursor) : Prop :=
  reach c d /\ M d d' /\ (must = true -> pos d = pos c -> (pos d < pos d')%nat).

Lemma match_here_Some must c m c' : match_here r must c = Some (m, c') ->
  M c c' /\ m_start m = pos c /\ m_end m = pos c' /\ (must = true -> (pos c < pos c')%nat).
Proof.
  unfold match_here. intros ([d g] & H & [= -> ->])%fmap_Some_1. apply head_in, bfilter_in in H as [H1 H2]. cbn [fst snd] in H2.
  split_and!; [by eapply (proj1 (run_agrees _ _))|done|done|]. intros ->. by apply Nat.ltb_lt.
Qed.

Lemma match_here_None must c d : match_here r must c = None -> M c d -> must = true /\ pos d = pos c.
Proof.
  unfold match_here. intros H%fmap_None Hd. pose proof (reach_pos _ _ (matches_reach _ _ _ _ Hd)) as [Hp _].
  destruct (proj2 (run_agrees _ _) c d [] Hd) as [g Hg]. apply head_None in H.
  assert (forall b, negb must || (pos c <? pos d)%nat = b -> b = true -> False) as Hno.
  { intros b Hb ->. apply (not_elem_of_nil (d, g)). rewrite <- H. apply bfilter_in. by split. }
  destruct must; [split; [done|]|destruct (Hno _ eq_refl); done].
  destruct (decide (pos d = pos c)); [done|]. destruct (Hno _ eq_refl). apply Nat.ltb_lt. lia.
Qed.

(** The searched positions: [c], then those after its first character. *)
Lemma reach_step n b x l d : reach (mkCur n b (x :: l)) d -> d = mkCur n b (x :: l) \/ reach (mkCur (S n) (Some x) l) d.
Proof.
  intros (w & H1 & H2 & H3). destruct w as [|y w].
  - left. apply reach_same; [by exists []|cbn in *; lia].
  - right. cbn in H1. injection H1 as <- H1. exists w. cbn in *. split_and!; [done|lia|]. rewrite H3. by destruct w.
Qed.

Lemma reach_next n b x l : reach (mkCur n b (x :: l)) (mkCur (S n) (Some x) l).
Proof. exists [x]. cbn. split_and!; [done|lia|done]. Qed.

Lemma search_from_Some must c m c' : search_from r must c = Some (m, c') -> exists d,
  live must c d c' /\ m_start m = pos d /\ m_end m = pos c' /\ forall e e', live must c e e' -> (pos d <= pos e)%nat.
Proof.
  unfold search_from. destruct c as [n b l]. cbn [pos prev rest]. revert must n b. induction l as [|x l IH]; intros must n b; cbn [search_list].
  - destruct (match_here r must (mkCur n b [])) as [[m' d']|] eqn:E; [|done]. intros [= -> ->].
    apply match_here_Some in E as (H1 & H2 & H3 & H4). exists (mkCur n b []). split_and!; [split_and!; auto using reach_refl|done|done|].
    intros e e' (He & _ & _). by apply reach_pos in He as [? _].
  - destruct (match_here r must (mkCur n b (x :: l))) as [[m' d']|] eqn:E.
    + intros [= -> ->]. apply match_here_Some in E as (H1 & H2 & H3 & H4). exists (mkCur n b (x :: l)).
      split_and!; [split_and!; auto using reach_refl|done|done|]. intros e e' (He & _ & _). by apply reach_pos in He as [? _].
    + intros (d & (Hd1 & Hd2 & _) & H2 & H3 & H4)%IH. exists d.
      pose proof (reach_pos _ _ Hd1) as [Hp _]. cbn in Hp. split_and!; [|done|done|].
      * split_and!; [by eapply reach_trans; [apply reach_next|]|done|cbn; lia].
      * intros e e' (He1 & He2 & He3). destruct (reach_step _ _ _ _ _ He1) as [->|He].
        -- destruct (match_here_None _ _ _ E He2) as [-> Heq]. specialize (He3 eq_refl eq_refl). lia.
        -- apply (H4 e e'). by split_and!.
Qed.

Lemma search_from_None must c d d' : search_from r must c = None -> ~ live must c d d'.
Proof.
  unfold search_from. destruct c as [n b l]. cbn [pos prev rest]. revert must n b. induction l as [|x l IH]; intros must n b; cbn [search_list].
  all: destruct (match_here r must (mkCur n b _)) eqn:E; [done|]; intros H (H1 & H2 & H3).
  - assert (d = mkCur n b []) as ->.
    { apply reach_same; [done|]. destruct H1 as (w & Hw & Hp & _). cbn in Hw, Hp |- *. destruct w; [cbn in Hp; lia|done]. }
    destruct (match_here_None _ _ _ E H2) as [-> Heq]. specialize (H3 eq_refl eq_refl). lia.
  - destruct (reach_step _ _ _ _ _ H1) as [->|He].
    + destruct (match_here_None _ _ _ E H2) as [-> Heq]. specialize (H3 eq_refl eq_refl). lia.
    + by apply (IH _ _ _ H).
Qed.

Lemma reach_linear c d e : reach c d -> reach c e -> (pos d <= pos e)%nat -> reach d e.
Proof.
  intros (w & H1 & H2 & H3) (v & H4 & H5 & H6) Hle. rewrite H1 in H4. apply app_eq_app in H4 as [u [[-> H4]|[-> H4]]].
  - exists []. rewrite length_app in H2. assert (List.length u = 0)%nat by lia. destruct u; [|done]. rewrite app_nil_r in H3. cbn in H4 |- *.
    split_and!; [congruence|lia|congruence].
  - exists u. rewrite length_app in H5. split_and!; [done|lia|]. rewrite H6. destruct u; [by rewrite app_nil_r|].
    rewrite last_code_app by done. by destruct w.
Qed.

(** The fuel of [scan] that is enough. *)
Definition demand (must : bool) (c : cursor) : nat := 2 * List.length (rest c) + if must then 0 else 1.

Lemma demand_falls must c m c' : search_from r must c = Some (m, c') -> reach c c' /\
  (demand (m_start m =? m_end m)%nat c' < demand must c)%nat.
Proof.
  intros (d & (H1 & H2 & H3) & H4 & H5 & _)%search_from_Some. pose proof (matches_reach _ _ _ _ H2) as H6.
  assert (reach c c') as H7 by (by eapply reach_trans). split; [done|]. unfold demand. rewrite H4, H5.
  apply reach_pos in H1, H6, H7. destruct (Nat.eqb_spec (pos d) (pos c')) as [He|He]; [|destruct must; lia].
  destruct must; [|lia]. assert (pos d <> pos c) by (intros ?; specialize (H3 eq_refl ltac:(done)); lia). lia.
Qed.

Lemma scan_covers fuel must c d d' : (demand must c < fuel)%nat -> reach c d -> M d d' -> (pos d < pos d')%nat ->
  exists m, m ∈ scan fuel r must c /\ (m_start m <= pos d)%nat /\ (m_start m = pos d \/ pos d < m_end m)%nat.
Proof.
  revert must c. induction fuel as [|fuel IH]; intros must c Hf Hc Hd Hp; [lia|]. cbn [scan].
  destruct (search_from r must c) as [[m c']|] eqn:E.
  - destruct (demand_falls _ _ _ _ E) as [Hc' Hlt]. apply search_from_Some in E as (e & (_ & He & _) & H1 & H2 & H3).
    specialize (H3 d d' ltac:(by split_and!)).
    destruct (decide (m_start m = pos d \/ pos d < m_end m)%nat) as [Hin|Hout]; [exists m; split_and!; [set_solver|lia|done]|].
    destruct (IH (m_start m =? m_end m)%nat c') as (m' & Hm' & ?); [lia|by apply (reach_linear c); [..|lia]|done|done|].
    exists m'. split; [set_solver|done].
  - exfalso. by apply (search_from_None _ _ d d' E).
Qed.

Lemma scan_found fuel must c m : m ∈ scan fuel r must c ->
  exists d d', reach c d /\ M d d' /\ m_start m = pos d /\ m_end m = pos d'.
Proof.
  revert must c. induction fuel as [|fuel IH]; intros must c; cbn [scan]; [by intros ?%elem_of_nil|].
  destruct (search_from r must c) as [[m0 c']|] eqn:E; [|by intros ?%elem_of_nil].
  pose proof (demand_falls _ _ _ _ E) as [Hc _]. apply search_from_Some in E as (d & (H1 & H2 & _) & H3 & H4 & _).
  intros [->|(e & e' & He & ?)%IH]%elem_of_cons; [by exists d, c'|]. exists e, e'. split; [by eapply reach_trans|done].
Qed.

Definition apart (m m' : mtch) : Prop := (m_end m <= m_start m')%nat.
Lemma scan_apart fuel must c : StronglySorted apart (scan fuel r must c).
Proof.
  revert must c. induction fuel as [|fuel IH]; intros must c; cbn [scan]; [constructor|].
  destruct (search_from r must c) as [[m c']|] eqn:E; [|constructor]. constructor; [done|].
  apply search_from_Some in E as (d & _ & _ & H & _). apply Forall_forall. intros m' (e & e' & He & _ & Hs & _)%scan_found.
  apply reach_pos in He. unfold apart. lia.
Qed.

End Searching.

(** ** On whole subjects *)

(** [r] matches the characters [i] to [j] of [l], where they stand. *)
Definition occurs (r : regex) (l : list Z) (i j : nat) : Prop :=
  (i <= j <= List.length l)%nat /\ matches (r_flags r) (r_body r) (cursor_at l i) (cursor_at l j).

Lemma reach_start l c : reach (start l) c <-> (pos c <= List.length l)%nat /\ c = cursor_at l (pos c).
Proof. change (start l) with (cursor_at l 0). rewrite reach_at by lia. intuition lia. Qed.

Lemma occurs_of r l d d' : reach (start l) d -> matches (r_flags r) (r_body r) d d' -> occurs r l (pos d) (pos d').
Proof.
  intros Hd H. pose proof (matches_reach _ _ _ _ H) as Hr. assert (reach (start l) d') as Hd' by (by eapply reach_trans).
  apply reach_start in Hd as [_ Hd], Hd' as [Hl Hd']. split; [apply reach_pos in Hr; lia|by rewrite <- Hd, <- Hd'].
Qed.

Lemma of_occurs r l i j : occurs r l i j -> reach (start l) (cursor_at l i) /\ matches (r_flags r) (r_body r) (cursor_at l i) (cursor_at l j).
Proof. intros [H1 H2]. split; [apply reach_start; cbn; split; [lia|done]|done]. Qed.

(** [search] gives a leftmost occurrence. *)
Lemma search_Some r s m : search r s = Some m ->
  occurs r (codes_of s) (m_start m) (m_end m) /\ forall i j, occurs r (codes_of s) i j -> (m_start m <= i)%nat.
Proof.
  unfold search, search_codes. intros ([m' c'] & E & ->)%fmap_Some_1. apply search_from_Some in E as (d & (H1 & H2 & _) & H3 & H4 & H5).
  cbn [fst]. rewrite H3, H4. split; [by apply occurs_of|]. intros i j [Hi Hj]%of_occurs.
  apply (H5 (cursor_at (codes_of s) i) (cursor_at (codes_of s) j)). by split_and!.
Qed.

Lemma search_None r s : search r s = None <-> forall i j, ~ occurs r (codes_of s) i j.
Proof.
  split.
  - intros E%fmap_None i j [Hi Hj]%of_occurs. apply (search_from_None _ _ _ (cursor_at (codes_of s) i) (cursor_at (codes_of s) j) E). by split_and!.
  - intros H. destruct (search r s) as [m|] eqn:E; [|done]. apply search_Some in E as [E _]. by apply H in E.
Qed.

Lemma found_true r s : found r s = true <-> exists i j, occurs r (codes_of s) i j.
Proof.
  unfold found. destruct (search r s) as [m|] eqn:E.
  - split; [|done]. intros _. apply search_Some in E as [H _]. eauto.
  - split; [done|]. intros (i & j & H). by apply (proj1 (search_None r s) E) in H.
Qed.

(** ** Occurrences and reported matches *)

Lemma codes_app s t : codes_of (s +:+ t) = codes_of s ++ codes_of t.
Proof. unfold codes_of. induction s as [|c s IH]; [done|]. rewrite append_cons. cbn. by rewrite IH. Qed.

Lemma codes_length s : List.length (codes_of s) = len s.
Proof. unfold codes_of, len. rewrite length_map. induction s; cbn; congruence. Qed.

Lemma finditer_occurs r s m : m ∈ finditer r s -> occurs r (codes_of s) (m_start m) (m_end m).
Proof. intros (d & d' & Hd & H & -> & ->)%scan_found. by apply occurs_of. Qed.

(** Every occurrence that is not empty begins at or inside a reported match. *)
Lemma finditer_covers r s i j : occurs r (codes_of s) i j -> (i < j)%nat ->
  exists m, m ∈ finditer r s /\ (m_start m <= i)%nat /\ (m_start m = i \/ i < m_end m)%nat.
Proof.
  intros [Hi Hj]%of_occurs Hlt.
  apply (scan_covers r (2 * List.length (codes_of s) + 2) false (start (codes_of s)) (cursor_at (codes_of s) i) (cursor_at (codes_of s) j)); [unfold demand; cbn; lia|done..].
Qed.

(** A reported match is the preferred way at its position. *)
Lemma scan_preferred r fuel must c m : m ∈ scan fuel r must c -> exists b d d', reach c d /\ match_here r b d = Some (m, d') /\ m_start m = pos d.
Proof.
  revert must c. induction fuel as [|fuel IH]; intros must c; cbn [scan]; [by intros ?%elem_of_nil|].
  destruct (search_from r must c) as [[m0 c']|] eqn:E; [|by intros ?%elem_of_nil]. pose proof (demand_falls _ _ _ _ _ E) as [Hc _].
  intros [->|(b & d & d' & Hd & H)%IH]%elem_of_cons; [|exists b, d, d'; split; [by eapply reach_trans|done]].
  clear IH Hc. unfold search_from in E. destruct c as [n p l]. cbn [pos prev rest] in E. revert must n p E.
  induction l as [|x l IH]; intros must n p; cbn [search_list]; (destruct (match_here r must _) as [w|] eqn:Em; [intros [= ->]; exists must; do 2 eexists; split_and!; [apply reach_refl|exact Em|by apply match_here_Some in Em as (_ & ? & _)]|]); [done|].
  intros (b & d & d' & Hd & H)%IH. exists b, d, d'. split; [eapply reach_trans; [apply reach_next|done]|done].
Qed.

(** ** Characters consumed *)

Section Consumed.
Context (fl : flags) (P : Z -> Prop).

(** Every character class inside [r] stays within [P]. *)
Fixpoint within (r : re) : Prop :=
  match r with
  | Eps | Bol | Eol | WordB _ | Look _ _ => True
  | Set_ neg its => forall x, in_set fl neg its x = true -> P x
  | Dot => forall x, is_dot fl x = true -> P x
  | Cat r1 r2 | Alt r1 r2 => within r1 /\ within r2
  | Rep _ _ _ r1 | Group _ r1 => within r1
  end.

Definition consumed (c c' : cursor) : Prop := exists w, rest c = w ++ rest c' /\ Forall P w.

Lemma consumed_refl c : consumed c c.
Proof. exists []. by split. Qed.
Lemma consumed_trans c d e : consumed c d -> consumed d e -> consumed c e.
Proof. intros (w & H1 & H2) (v & H3 & H4). exists (w ++ v). rewrite H1, H3, app_assoc. split; [done|by apply Forall_app]. Qed.

Lemma consumed_advance p c c' : (forall x, p x = true -> P x) -> advance p c = Some c' -> consumed c c'.
Proof.
  unfold advance. intros H. destruct (rest c) as [|x l] eqn:E; [done|]. destruct (p x) eqn:Ex; [|done]. intros [= <-]. exists [x].
  rewrite E. split; [done|]. constructor; [by apply H|constructor].
Qed.

Lemma matches_within r c c' : within r -> matches fl r c c' -> consumed c c'.
Proof.
  revert c c'. induction r; intros c c' Hw; cbn [matches]; try (intros [-> _]; apply consumed_refl).
  - intros ->. apply consumed_refl.
  - by apply consumed_advance.
  - by apply consumed_advance.
  - destruct Hw. intros (d & H1 & H2). eapply consumed_trans; eauto.
  - destruct Hw. intros [?|?]; eauto.
  - intros (n & _ & _ & H). induction H; [apply consumed_refl|]. eapply consumed_trans; eauto.
  - eauto.
Qed.

End Consumed.

(** ** Greedy runs of a class *)

Fixpoint lead (p : Z -> bool) (l : list Z) : nat :=
  match l with [] => O | x :: l' => if p x then S (lead p l') else O end.

(** The cursor [k] characters further. *)
Fixpoint skip (k : nat) (c : cursor) : cursor :=
  match k with
  | O => c
  | S k' => match rest c with x :: l => skip k' (mkCur (S (pos c)) (Some x) l) | [] => c end
  end.

Lemma lead_le p l : (lead p l <= List.length l)%nat.
Proof. induction l as [|x l IH]; cbn; [lia|]. destruct (p x); cbn; lia. Qed.

Lemma skip_rest k c : rest (skip k c) = skipn k (rest c).
Proof. revert c. induction k as [|k IH]; intros c; [done|]. cbn. destruct (rest c) eqn:E; [done|]. by rewrite IH. Qed.

Lemma skip_pos k c : (k <= List.length (rest c))%nat -> pos (skip k c) = (pos c + k)%nat.
Proof. revert c. induction k as [|k IH]; intros c H; [cbn; lia|]. cbn. destruct (rest c) eqn:E; [cbn in H; lia|]. rewrite IH; cbn in *; lia. Qed.

Lemma skip_skip a b c : skip a (skip b c) = skip (b + a) c.
Proof.
  revert c. induction b as [|b IH]; intros c; [done|]. cbn. destruct (rest c) eqn:E; [|apply IH].
  destruct a; [done|]. cbn. by rewrite E.
Qed.

Lemma head_flat_map {A B} (f : A -> list B) l x y : head l = Some x -> head (f x) = Some y -> head (flat_map f l) = Some y.
Proof. destruct l as [|x' l]; [done|]. intros [= ->]. cbn. by destruct (f x). Qed.

Lemma one_eq p c g : one p c g = match rest c with x :: l => if p x then [(mkCur (S (pos c)) (Some x) l, g)] else [] | [] => [] end.
Proof. unfold one, advance. destruct (rest c) as [|x l]; [done|]. by destruct (p x). Qed.

Lemma times_one p k c g : times k (one p) c g = if (k <=? lead p (rest c))%nat then [(skip k c, g)] else [].
Proof.
  revert c. induction k as [|k IH]; intros c; [done|]. cbn [times]. rewrite one_eq. destruct (rest c) as [|x l] eqn:E; [done|]. cbn [lead].
  destruct (p x); [|done]. cbn [flat_map fst snd]. rewrite IH, app_nil_r. cbn [rest skip]. rewrite E.
  change (S k <=? S (lead p l))%nat with (k <=? lead p l)%nat. by destruct (k <=? lead p l)%nat.
Qed.

Lemma more_one p n c g : head (more n true (one p) c g) = Some (skip (Nat.min n (lead p (rest c))) c, g).
Proof.
  revert c. induction n as [|n IH]; intros c; [done|]. cbn [more]. rewrite one_eq. destruct (rest c) as [|x l] eqn:E; [done|]. cbn [lead].
  destruct (p x); [|by rewrite Nat.min_0_r]. cbn [flat_map fst snd]. cbn [pos]. rewrite (proj2 (Nat.ltb_lt _ _)) by lia. rewrite app_nil_r.
  specialize (IH (mkCur (S (pos c)) (Some x) l)). cbn [rest] in IH.
  destruct (more n true (one p) _ g) as [|w ws] eqn:Em; [done|]. cbn in IH |- *. rewrite E. exact IH.
Qed.

(** A greedy repetition of a class takes all it can. *)
Lemma run_class fl lo hi neg its c g (Hlo : (lo <= lead (in_set fl neg its) (rest c))%nat) (Hhi : forall h, hi = Some h -> (lo <= h)%nat) :
  let n := lead (in_set fl neg its) (rest c) in
  head (run fl (Rep true lo hi (Set_ neg its)) c g) = Some (skip (match hi with None => n | Some h => Nat.min h n end) c, g).
Proof.
  cbn [run]. change (fun c g => one (in_set fl neg its) c g) with (one (in_set fl neg its)).
  set (p := in_set fl neg its) in *. rewrite times_one, (proj2 (Nat.leb_le _ _) Hlo).
  eapply head_flat_map; [reflexivity|]. cbn [fst snd]. rewrite more_one, skip_rest, skip_skip. do 2 f_equal. f_equal.
  assert (lead p (skipn lo (rest c)) = lead p (rest c) - lo)%nat as ->.
  { clear Hhi. revert Hlo. generalize (rest c) as l. induction lo as [|lo IH]; intros l Hlo; [by rewrite Nat.sub_0_r|].
    destruct l as [|x l]; [done|]. cbn in *. destruct (p x); [|lia]. cbn. apply IH. lia. }
  pose proof (lead_le p (rest c)). unfold room. rewrite skip_rest, length_skipn. destruct hi as [h|]; [specialize (Hhi h eq_refl)|]; lia.
Qed.

(** ** Delimited tokens

    A run of a class with up to two pads, as the candidate patterns describe it,
    is reported exactly where it stands when its neighbours are outside. *)

Section Token.
Context (fl : flags) (its : list item) (lo : nat).
Notation inb := (in_set fl false its).
Definition PADC : Z := 61.
Definition token_body : re := Cat (Rep true lo None (Set_ false its)) (Cat (Rep true 0 (Some 2%nat) (Set_ false [Rng PADC PADC])) Eps).

Hypothesis pad_apart : inb PADC = false.

Lemma is_pad x : in_set fl false [Rng PADC PADC] x = (x =? PADC).
Proof.
  unfold in_set, PADC. cbn [existsb in_item xorb]. unfold lower_code, upper_code. rewrite !orb_false_r.
  destruct (IGNORECASE fl); repeat case_match; lia.
Qed.

(** What may stand next to a token. *)
Definition outside (o : option Z) : Prop := match o with Some x => inb x = false /\ x <> PADC | None => True end.

Lemma lead_app p w l : Forall (fun x => p x = true) w -> match head l with Some x => p x = false | None => True end -> lead p (w ++ l) = List.length w.
Proof.
  intros Hw Hl. induction Hw as [|x w Hx _ IH]; cbn; [|by rewrite Hx, IH]. destruct l as [|x l]; [done|]. cbn in Hl |- *. by rewrite Hl.
Qed.

Context (pre w post : list Z) (k : nat).
Hypotheses (Hw : Forall (fun x => inb x = true) w) (Hlo : (lo <= List.length w)%nat) (Hne : (0 < List.length w)%nat) (Hk : (k <= 2)%nat).
Hypotheses (Hpre : outside (list.last pre)) (Hpost : outside (head post)).
Let tok := w ++ repeat PADC k.
Let l := pre ++ tok ++ post.
Let i := List.length pre.

Lemma token_run : head (run fl token_body (cursor_at l i) []) = Some (skip (List.length tok) (cursor_at l i), []).
Proof.
  assert (rest (cursor_at l i) = w ++ repeat PADC k ++ post) as Hr.
  { unfold cursor_at, l, i, tok. cbn [rest]. by rewrite skipn_app, skipn_all, Nat.sub_diag, <- app_assoc. }
  assert (lead inb (rest (cursor_at l i)) = List.length w) as Hl1.
  { rewrite Hr. apply lead_app; [done|]. destruct k; [destruct post; [done|by destruct Hpost]|done]. }
  assert (Forall (fun x => in_set fl false [Rng PADC PADC] x = true) (repeat PADC k)) as Hpads.
  { apply Forall_forall. intros x Hx. apply list_elem_of_In, repeat_spec in Hx as ->. by rewrite is_pad, Z.eqb_refl. }
  assert (lead (in_set fl false [Rng PADC PADC]) (rest (skip (List.length w) (cursor_at l i))) = k) as Hl2.
  { rewrite skip_rest, Hr, skipn_app, skipn_all, Nat.sub_diag. change ([] ++ skipn 0 (repeat PADC k ++ post)) with (repeat PADC k ++ post).
    rewrite lead_app; [apply repeat_length|done|]. destruct post; [done|]. destruct Hpost as [_ Hz]. cbn [head]. rewrite is_pad. by apply Z.eqb_neq. }
  unfold token_body. cbn [run]. eapply head_flat_map; [rewrite <- (run_class fl lo None false its) by (rewrite ?Hl1; done || lia); reflexivity|].
  cbn [fst snd]. rewrite Hl1. eapply head_flat_map.
  - etransitivity; [|apply (run_class fl 0 (Some 2%nat) false [Rng PADC PADC]); [lia|intros ? [= <-]; lia]]. reflexivity.
  - cbn [fst snd head]. rewrite Hl2, skip_skip. unfold tok. rewrite length_app, repeat_length. do 3 f_equal. lia.
Qed.

Lemma token_reported (s : string) : codes_of s = l -> mkMatch i (i + List.length tok) [] ∈ finditer (mkRegex fl token_body) s.
Proof.
  intros Hs. pose proof token_run as Hrun.
  assert (List.length (rest (cursor_at l i)) = List.length tok + List.length post)%nat as Hlen.
  { cbn. unfold l, i. by rewrite skipn_app, skipn_all, Nat.sub_diag, <- length_app. }
  assert (pos (skip (List.length tok) (cursor_at l i)) = i + List.length tok)%nat as Hpos by (rewrite skip_pos; [done|lia]).
  assert (0 < List.length tok)%nat as Htok by (unfold tok; rewrite length_app; lia).
  assert (reach (start l) (cursor_at l i)) as Hi by (apply reach_start; cbn; unfold l; rewrite length_app; unfold i; split; [lia|done]).
  assert (matches fl token_body (cursor_at l i) (skip (List.length tok) (cursor_at l i))) as Hm.
  { apply head_in in Hrun. by eapply (proj1 (run_agrees fl token_body)). }
  pose proof (occurs_of (mkRegex fl token_body) l _ _ Hi Hm) as Ho. rewrite Hpos in Ho. cbn [pos cursor_at] in Ho. rewrite <- Hs in Ho.
  destruct (finditer_covers _ _ _ _ Ho ltac:(lia)) as (m & Hin & Hle & Hor).
  destruct (decide (m_start m = i)) as [He|Hne'].
  - pose proof Hin as Hin'. apply scan_preferred in Hin' as (b & d & d' & Hd & Hh & Hp). rewrite Hs in Hd.
    assert (d = cursor_at l i) as ->.
    { apply reach_start in Hd as [_ Hd]. rewrite Hd. f_equal. congruence. }
    unfold match_here in Hh. cbn [r_flags r_body] in Hh.
    destruct (run fl token_body (cursor_at l i) []) as [|x ws]; [done|]. injection Hrun as ->. cbn [List.filter fst] in Hh.
    rewrite Hpos in Hh. cbn [pos cursor_at] in Hh. rewrite (proj2 (Nat.ltb_lt i _)), orb_true_r in Hh by lia. cbn in Hh.
    injection Hh as Hh _. rewrite Hpos in Hh. by rewrite Hh.
  - exfalso. destruct Hor as [|Hlt]; [done|]. pose proof (finditer_occurs _ _ _ Hin) as [[_ Hend] Hoc]. rewrite Hs in Hend, Hoc.
    apply (matches_within fl (fun x => inb x = true \/ x = PADC)) in Hoc as (v & Hv & HP); cbn [rest cursor_at] in *.
    2: { cbn [within token_body]. split; [by left|]. split; [|done]. intros x Hx. rewrite is_pad in Hx. right. lia. }
    assert (exists x, list.last pre = Some x /\ pre !! (i - 1)%nat = Some x) as (x & Hx & Hlk).
    { destruct (list.last pre) as [x|] eqn:E; [|apply last_None in E; unfold i in *; rewrite E in *; cbn in *; lia].
      exists x. split; [done|]. rewrite last_lookup in E. unfold i. by replace (List.length pre - 1)%nat with (pred (List.length pre)) by lia. }
    rewrite Hx in Hpre. destruct Hpre as [H1 H2].
    assert (List.length v = m_end m - m_start m)%nat as Hlv.
    { pose proof (f_equal (@List.length Z) Hv) as E. rewrite length_app, !length_skipn in E. lia. }
    assert (v !! (i - 1 - m_start m)%nat = Some x) as Hvx.
    { rewrite <- (lookup_app_l v (skipn (m_end m) l)), <- Hv, lookup_drop by lia.
      replace (m_start m + (i - 1 - m_start m))%nat with (i - 1)%nat by lia. unfold l. by rewrite lookup_app_l by (unfold i in *; lia). }
    rewrite Forall_lookup in HP. destruct (HP _ _ Hvx) as [H3|H3]; congruence.
Qed.
End Token.

(** ** The least width of a match *)

Fixpoint min_width (r : re) : nat :=
  match r with
  | Eps | Bol | Eol | WordB _ | Look _ _ => 0
  | Set_ _ _ | Dot => 1
  | Cat r1 r2 => min_width r1 + min_width r2
  | Alt r1 r2 => Nat.min (min_width r1) (min_width r2)
  | Rep _ lo _ r1 => lo * min_width r1
  | Group _ r1 => min_width r1
  end.

Lemma matches_width fl r c c' : matches fl r c c' -> (pos c + min_width r <= pos c')%nat.
Proof.
  revert c c'. induction r; intros c c'; cbn [matches min_width]; try (intros [-> _]; lia).
  - intros ->. lia.
  - intros [_ H]%reach_advance. lia.
  - intros [_ H]%reach_advance. lia.
  - intros (d & H1%IHr1 & H2%IHr2). lia.
  - intros [H%IHr1|H%IHr2]; lia.
  - intros (n & Hn & _ & H). assert (pos c + n * min_width r <= pos c')%nat; [|nia].
    clear Hn. induction H as [|n c d c' H1 _ IH]; [lia|]. apply IHr in H1. lia.
  - apply IHr.
Qed.

(** A pattern that matches nothing empty and is found is reported. *)
Lemma found_finditer r s : (0 < min_width (r_body r))%nat -> found r s = true -> exists m, m ∈ finditer r s.
Proof.
  intros Hw (i & j & H)%found_true. pose proof H as [_ Hm%matches_width]. cbn in Hm.
  destruct (finditer_covers r s i j H) as (m & Hm' & _); [lia|]. by exists m.
Qed.
