(* ===== verification/RegexSyntax.v ===== *)
(** * The pattern syntax of [re]

    [compile] reads a pattern the way [re.compile] does, so that the patterns of
    the analyzers are written here as they are in the source.  Each file with
    patterns checks that [re.compile] accepts them ([compiled]). *)
From S2P Require Import Prelude PyStr Text Regex.
From Stdlib Require Import Ascii String.

Open Scope string_scope.
Open Scope list_scope.
Open Scope Z_scope.

(** A double quote, to be spliced into patterns. *)
Definition Q : string := String DQ "".

(** ** Escapes *)

Definition lit (c : ascii) : item := Rng (code c) (code c).
Definition lit_code (n : Z) : item := Rng n n.

Definition hex_value (c : ascii) : option Z :=
  let n := code c in
  if is_digit c then Some (n - 48)
  else if (97 <=? n) && (n <=? 102) then Some (n - 87)
  else if (65 <=? n) && (n <=? 70) then Some (n - 55) else None.

(** The letter after a backslash, where it stands for one character or a class;
    [None]: the pattern is refused. *)
Definition escape (c : ascii) : option item :=
  if Ascii.eqb c "d" then Some (Cls false CDigit) else if Ascii.eqb c "D" then Some (Cls true CDigit)
  else if Ascii.eqb c "w" then Some (Cls false CWord) else if Ascii.eqb c "W" then Some (Cls true CWord)
  else if Ascii.eqb c "s" then Some (Cls false CSpace) else if Ascii.eqb c "S" then Some (Cls true CSpace)
  else if Ascii.eqb c "n" then Some (lit_code 10) else if Ascii.eqb c "t" then Some (lit_code 9)
  else if Ascii.eqb c "r" then Some (lit_code 13) else if Ascii.eqb c "f" then Some (lit_code 12)
  else if Ascii.eqb c "v" then Some (lit_code 11) else if Ascii.eqb c "a" then Some (lit_code 7)
  else if is_word false (code c) then None else Some (lit c).

(** An escaped item, after the backslash: [\xHH] or one letter. *)
Definition escaped_item (s : string) : option (item * string) :=
  match s with
  | String x (String h (String l s')) =>
      if Ascii.eqb x "x" then
        match hex_value h, hex_value l with Some a, Some b => Some (lit_code (16 * a + b), s') | _, _ => None end
      else (fun it => (it, String h (String l s'))) <$> escape x
  | String x s' => (fun it => (it, s')) <$> escape x
  | EmptyString => None
  end.

(** ** Character sets *)

(** One member of a set, not yet a range; [\b] is a backspace here. *)
Definition set_member (s : string) : option (item * string) :=
  match s with
  | String c s' =>
      if Ascii.eqb c BS then
        match s' with
        | String b s'' => if Ascii.eqb b "b" then Some (lit_code 8, s'') else escaped_item s'
        | EmptyString => None
        end
      else Some (lit c, s')
  | EmptyString => None
  end.

Definition range (a b : item) : option item :=
  match a, b with
  | Rng lo _, Rng hi _ => if lo <=? hi then Some (Rng lo hi) else None
  | _, _ => None
  end.

(** The members up to the closing bracket; a bracket that comes first is a member. *)
Fixpoint set_items (fuel : nat) (first : bool) (s : string) : option (list item * string) :=
  match fuel with
  | O => None
  | S fuel' =>
      match s with
      | EmptyString => None
      | String c s' =>
          if Ascii.eqb c "]" && negb first then Some ([], s')
          else
            match set_member s with
            | None => None
            | Some (a, t) =>
                let plain := match set_items fuel' false t with Some (its, u) => Some (a :: its, u) | None => None end in
                match t with
                | String d (String e t') =>
                    if Ascii.eqb d "-" && negb (Ascii.eqb e "]") then
                      match set_member (String e t') with
                      | None => None
                      | Some (b, t'') =>
                          match range a b, set_items fuel' false t'' with Some r, Some (its, u) => Some (r :: its, u) | _, _ => None end
                      end
                    else plain
                | _ => plain
                end
            end
      end
  end.

(** ** Repetitions *)

Fixpoint digits (acc : option nat) (s : string) : option nat * string :=
  match s with
  | String c s' => if is_digit c then digits (Some (10 * default O acc + Z.to_nat (code c - 48))%nat) s' else (acc, s)
  | EmptyString => (acc, s)
  end.

Definition closes (s : string) : option string :=
  match s with String c s' => if Ascii.eqb c "}" then Some s' else None | EmptyString => None end.

(** The inside of braces: [{m}], [{m,}], [{,n}], [{m,n}]; [None]: an ordinary brace. *)
Definition braces (s : string) : option (nat * option nat * string) :=
  let '(lo, s1) := digits None s in
  match s1 with
  | String c s2 =>
      if Ascii.eqb c "," then
        let '(hi, s3) := digits None s2 in
        match lo, hi with None, None => None | _, _ => (fun t => (default O lo, hi, t)) <$> closes s3 end
      else match lo with None => None | Some n => (fun t => (n, Some n, t)) <$> closes s1 end
  | EmptyString => None
  end.

Definition quantifier (s : string) : option (nat * option nat * string) :=
  match s with
  | String c s' =>
      if Ascii.eqb c "*" then Some (O, None, s') else if Ascii.eqb c "+" then Some (1%nat, None, s')
      else if Ascii.eqb c "?" then Some (O, Some 1%nat, s') else if Ascii.eqb c "{" then braces s' else None
  | EmptyString => None
  end.

(** A repeated atom; a question mark after the quantifier makes it lazy. *)
Definition repeated (r : re) (s : string) : re * string :=
  match quantifier s with
  | None => (r, s)
  | Some (lo, hi, s') =>
      match s' with
      | String c s'' => if Ascii.eqb c "?" then (Rep false lo hi r, s'') else (Rep true lo hi r, s')
      | EmptyString => (Rep true lo hi r, s')
      end
  end.

(** ** Expressions *)

(** An atom that is not a group, after its first character. *)
Definition simple_atom (c : ascii) (s : string) : option (re * string) :=
  if Ascii.eqb c "." then Some (Dot, s)
  else if Ascii.eqb c "^" then Some (Bol, s)
  else if Ascii.eqb c "$" then Some (Eol, s)
  else if Ascii.eqb c "[" then
    match s with
    | String d s' =>
        let neg := Ascii.eqb d "^" in
        (fun r => (Set_ neg r.1, r.2)) <$> set_items (S (len s)) true (if neg then s' else s)
    | EmptyString => None
    end
  else if Ascii.eqb c BS then
    match s with
    | String d s' =>
        if Ascii.eqb d "b" then Some (WordB false, s') else if Ascii.eqb d "B" then Some (WordB true, s')
        else (fun r => (Set_ false [r.1], r.2)) <$> escaped_item s
    | EmptyString => None
    end
  else if Ascii.eqb c "*" || Ascii.eqb c "+" || Ascii.eqb c "?" then None
  else Some (Set_ false [lit c], s).

(** How a group opens, after its parenthesis: what is done with the body. *)
Definition group_kind (s : string) : (option (re -> re)) * string :=
  match s with
  | String q (String k s') =>
      if Ascii.eqb q "?" then
        if Ascii.eqb k ":" then (Some (fun r => r), s')
        else if Ascii.eqb k "!" then (Some (Look true), s')
        else if Ascii.eqb k "=" then (Some (Look false), s') else (None, s)
      else (None, s)
  | _ => (None, s)
  end.

(** [n]: the number of the next group. *)
Fixpoint parse_alt (fuel : nat) (s : string) (n : nat) : option (re * string * nat) :=
  match fuel with
  | O => None
  | S fuel' =>
      match parse_seq fuel' s n with
      | Some (r1, String c s1, n1) =>
          if Ascii.eqb c "|" then
            match parse_alt fuel' s1 n1 with Some (r2, s2, n2) => Some (Alt r1 r2, s2, n2) | None => None end
          else Some (r1, String c s1, n1)
      | other => other
      end
  end
with parse_seq (fuel : nat) (s : string) (n : nat) : option (re * string * nat) :=
  match fuel with
  | O => None
  | S fuel' =>
      match s with
      | EmptyString => Some (Eps, s, n)
      | String c s' =>
          if Ascii.eqb c "|" || Ascii.eqb c ")" then Some (Eps, s, n)
          else
            let atom :=
              if Ascii.eqb c "(" then
                let '(kind, body) := group_kind s' in
                let n0 := match kind with None => S n | Some _ => n end in
                match parse_alt fuel' body n0 with
                | Some (r, String d s2, n2) =>
                    if Ascii.eqb d ")" then Some ((match kind with None => Group n r | Some k => k r end), s2, n2) else None
                | _ => None
                end
              else (fun r => (r, n)) <$> simple_atom c s'
            in
            match atom with
            | None => None
            | Some (r, s2, n2) =>
                let '(r', s3) := repeated r s2 in
                match parse_seq fuel' s3 n2 with Some (rs, s4, n4) => Some (Cat r' rs, s4, n4) | None => None end
            end
      end
  end.

Definition parse (s : string) : option re :=
  match parse_alt (4 * len s + 8) s 1 with Some (r, EmptyString, _) => Some r | _ => None end.

(** [re.compile]; a pattern that is refused becomes one that matches nothing. *)
Definition compile (fl : flags) (s : string) : regex := mkRegex fl (default (Set_ false []) (parse s)).

Definition plain : flags := mkFlags false false false false.
Definition icase : flags := mkFlags true false false false.
Definition dotall : flags := mkFlags false true false false.
Definition multiline : flags := mkFlags false false true false.
Definition bplain : flags := mkFlags false false false true.
Definition bicase : flags := mkFlags true false false true.

Definition compiled (r : regex) : bool := match r_body r with Set_ false [] => false | _ => true end.
