(* ===== verification/Sql.v ===== *)
(** * Tables and queries

    The SQLAlchemy sessions of the program, as far as the modelled code uses
    them: a table is its rows in insertion order with the next value of its id
    sequence.  [SELECT ... WHERE] is a boolean filter, [ORDER BY] the stable
    sort of the prelude, a mutated ORM object followed by [flush] is [put], and
    a unique constraint is a key function checked by [insert_unique]. *)
From S2P Require Import Prelude.

Open Scope Z_scope.

(** What every mapped class has: an integer primary key. *)
Class Entity (R : Type) := { row_id : R -> Z }.

Record table (R : Type) := Table { rows : list R; seq : Z }.
Arguments Table {R} _ _.
Arguments rows {R} _.
Arguments seq {R} _.

Definition empty_table {R} : table R := Table [] 1.

Section Table.
Context {R : Type} `{Entity R}.
Implicit Types (t : table R) (r : R) (p : R -> bool).

Definition select p t : list R := bfilter p (rows t).
Definition exists_row p t : bool := existsb p (rows t).
Definition count_where p t : Z := Z.of_nat (length (select p t)).

(** [ORDER BY key ASC|DESC LIMIT 1]. *)
Definition first_asc (key : R -> Z) p t : option R := head (ssort (asc key) (select p t)).
Definition first_desc (key : R -> Z) p t : option R := head (ssort (desc key) (select p t)).
(** [.first()] / [session.scalar] without an order. *)
Definition first p t : option R := head (select p t).

Definition get (i : Z) t : option R := head (select (fun r => row_id r =? i) t).

Definition update_where p (f : R -> R) t : table R :=
  Table ((fun r => if p r then f r else r) <$> rows t) (seq t).
Definition delete_where p t : table R := Table (bfilter (fun r => negb (p r)) (rows t)) (seq t).
Definition put r t : table R := update_where (fun r' => row_id r' =? row_id r) (fun _ => r) t.
Definition insert (mk : Z -> R) t : table R * R :=
  (Table (rows t ++ [mk (seq t)]) (seq t + 1), mk (seq t)).

(** Insert under a unique constraint; [None] is [IntegrityError]. *)
Definition insert_unique {K} `{EqDecision K} (key : R -> K) (mk : Z -> R) t : option (table R * R) :=
  if exists_row (fun r => bool_decide (key r = key (mk (seq t)))) t then None
  else Some (insert mk t).

(** ** Well-formed tables *)

Definition table_wf t : Prop :=
  NoDup (row_id <$> rows t) /\ Forall (fun r => row_id r < seq t) (rows t).

Definition unique {K} (key : R -> K) t : Prop := NoDup (key <$> rows t).

Lemma select_in r p t : r ∈ select p t <-> r ∈ rows t /\ p r = true.
Proof. apply bfilter_in. Qed.

Lemma first_asc_Some key p t r :
  first_asc key p t = Some r ->
  r ∈ select p t /\ forall r', r' ∈ select p t -> key r <= key r'.
Proof.
  unfold first_asc. destruct (ssort _ _) as [|x l] eqn:E; [done|]. intros [= ->].
  apply ssort_head_least in E as [Hin Hmin]; [|auto with pk..].
  - split; [done|]. intros r' Hr'. apply Hmin in Hr'. unfold asc in Hr'. lia.
  - intros ???. apply asc_trans.
Qed.

Lemma first_desc_Some key p t r :
  first_desc key p t = Some r ->
  r ∈ select p t /\ forall r', r' ∈ select p t -> key r' <= key r.
Proof.
  unfold first_desc. destruct (ssort _ _) as [|x l] eqn:E; [done|]. intros [= ->].
  apply ssort_head_least in E as [Hin Hmin]; [|auto with pk..].
  - split; [done|]. intros r' Hr'. apply Hmin in Hr'. unfold desc in Hr'. lia.
  - intros ???. apply desc_trans.
Qed.

Lemma first_asc_None key p t : first_asc key p t = None <-> select p t = [].
Proof.
  unfold first_asc. pose proof (ssort_length (asc key) (select p t)) as Hl.
  split.
  - destruct (ssort _ _) eqn:E; [|done]. intros _. by apply nil_length_inv.
  - intros E. rewrite E. done.
Qed.

Lemma get_in i t r : get i t = Some r -> r ∈ rows t /\ row_id r = i.
Proof. intros Hr%head_in. apply select_in in Hr as [? ?]. split; [done|]. lia. Qed.

Lemma select_nil p t : select p t = [] <-> forall r, r ∈ rows t -> p r = false.
Proof.
  split.
  - intros E r Hr. destruct (p r) eqn:Ep; [|done].
    assert (r ∈ select p t) as Hin by (by apply select_in). rewrite E in Hin. set_solver.
  - apply bfilter_none.
Qed.

Lemma row_id_inj t r r' :
  table_wf t -> r ∈ rows t -> r' ∈ rows t -> row_id r = row_id r' -> r = r'.
Proof.
  intros [Hd _] Hr Hr' E.
  apply list_elem_of_lookup in Hr as [i Hi], Hr' as [j Hj].
  assert ((row_id <$> rows t) !! i = Some (row_id r)) as Hi' by (by rewrite list_lookup_fmap, Hi).
  assert ((row_id <$> rows t) !! j = Some (row_id r)) as Hj' by (by rewrite list_lookup_fmap, Hj, E).
  pose proof (NoDup_lookup _ _ _ _ Hd Hi' Hj'). simplify_eq. done.
Qed.

Lemma get_unique t r : table_wf t -> r ∈ rows t -> get (row_id r) t = Some r.
Proof.
  intros Hwf Hr. unfold get.
  assert (r ∈ select (fun r' => row_id r' =? row_id r) t) as Hs by (apply select_in; split; [done|lia]).
  destruct (select _ t) as [|x l] eqn:E; [set_solver|]. simpl. f_equal.
  assert (x ∈ select (fun r' => row_id r' =? row_id r) t) as Hx by (rewrite E; set_solver).
  apply select_in in Hx as [Hx Hid]. eapply row_id_inj; eauto. lia.
Qed.

(** ** Membership after an update *)

Lemma update_where_in p f t r :
  r ∈ rows (update_where p f t) <->
  exists r0, r0 ∈ rows t /\ r = if p r0 then f r0 else r0.
Proof.
  unfold update_where; simpl. rewrite list_elem_of_fmap. naive_solver.
Qed.

Lemma put_in r t r' :
  r' ∈ rows (put r t) -> r' = r \/ (r' ∈ rows t /\ row_id r' <> row_id r).
Proof.
  intros (r0 & Hr0 & ->)%update_where_in. destruct (Z.eqb_spec (row_id r0) (row_id r)); auto.
Qed.

Lemma put_other r t r' : r' ∈ rows t -> row_id r' <> row_id r -> r' ∈ rows (put r t).
Proof.
  intros Hr' Hne. apply update_where_in. exists r'. split; [done|].
  destruct (Z.eqb_spec (row_id r') (row_id r)); congruence.
Qed.

Lemma put_self r t r0 : r0 ∈ rows t -> row_id r0 = row_id r -> r ∈ rows (put r t).
Proof.
  intros Hr0 E. apply update_where_in. exists r0. split; [done|].
  destruct (Z.eqb_spec (row_id r0) (row_id r)); congruence.
Qed.

Lemma delete_where_in p t r : r ∈ rows (delete_where p t) <-> r ∈ rows t /\ p r = false.
Proof. unfold delete_where; simpl. rewrite bfilter_in. by rewrite negb_true_iff. Qed.

Lemma insert_in mk t r : r ∈ rows (insert mk t).1 <-> r ∈ rows t \/ r = mk (seq t).
Proof. simpl. rewrite elem_of_app, list_elem_of_singleton. done. Qed.

(** ** Preservation of well-formedness *)

Lemma fmap_key_same {K} (key : R -> K) (g : R -> R) (l : list R) :
  (forall r, r ∈ l -> key (g r) = key r) -> key <$> (g <$> l) = key <$> l.
Proof.
  induction l as [|r l IH]; intros Hk; [done|].
  rewrite !fmap_cons, Hk by set_solver. f_equal. apply IH. set_solver.
Qed.

Lemma update_where_keys {K} (key : R -> K) p f t :
  (forall r, r ∈ rows t -> p r = true -> key (f r) = key r) ->
  key <$> rows (update_where p f t) = key <$> rows t.
Proof.
  intros Hf. apply fmap_key_same. intros r Hr. destruct (p r) eqn:E; auto.
Qed.

Lemma table_wf_update p f t :
  (forall r, r ∈ rows t -> p r = true -> row_id (f r) = row_id r) ->
  table_wf t -> table_wf (update_where p f t).
Proof.
  intros Hf [Hd Hlt]. split; [by rewrite update_where_keys|].
  apply Forall_forall. intros r (r0 & Hr0 & ->)%update_where_in.
  rewrite Forall_forall in Hlt. specialize (Hlt _ Hr0). simpl.
  destruct (p r0) eqn:E; [rewrite Hf by done|]; done.
Qed.

Lemma table_wf_put r t : table_wf t -> table_wf (put r t).
Proof. apply table_wf_update. intros r0 _ E. lia. Qed.

Lemma table_wf_delete p t : table_wf t -> table_wf (delete_where p t).
Proof.
  intros [Hd Hlt]. split.
  - by apply bfilter_NoDup_fmap.
  - apply Forall_forall. intros r [Hr _]%delete_where_in.
    rewrite Forall_forall in Hlt. by apply Hlt.
Qed.

Lemma table_wf_insert mk t :
  (forall i, row_id (mk i) = i) -> table_wf t -> table_wf (insert mk t).1.
Proof.
  intros Hmk [Hd Hlt]. rewrite Forall_forall in Hlt. split; simpl.
  - rewrite fmap_app. apply NoDup_app. split; [done|]. split; [|apply NoDup_singleton].
    intros i (r & -> & Hr)%list_elem_of_fmap E. apply list_elem_of_singleton in E.
    rewrite Hmk in E. specialize (Hlt _ Hr). lia.
  - apply Forall_app. split.
    + apply Forall_forall. intros r Hr. specialize (Hlt _ Hr). lia.
    + constructor; [|done]. rewrite Hmk. lia.
Qed.

Lemma unique_delete {K} (key : R -> K) p t : unique key t -> unique key (delete_where p t).
Proof. apply bfilter_NoDup_fmap. Qed.

Lemma unique_update {K} (key : R -> K) p f t :
  (forall r, r ∈ rows t -> p r = true -> key (f r) = key r) ->
  unique key t -> unique key (update_where p f t).
Proof. intros Hf Hu. unfold unique. by rewrite update_where_keys. Qed.

Lemma unique_insert {K} `{EqDecision K} (key : R -> K) mk t t' r :
  insert_unique key mk t = Some (t', r) -> unique key t -> unique key t'.
Proof.
  unfold insert_unique. destruct (exists_row _ t) eqn:E; [done|]. intros [= <- <-] Hu.
  unfold unique; simpl. rewrite fmap_app. apply NoDup_app. split; [done|].
  split; [|apply NoDup_singleton].
  intros k (r & -> & Hr)%list_elem_of_fmap Hk. apply list_elem_of_singleton in Hk.
  unfold exists_row in E. rewrite existsb_false in E. specialize (E _ Hr). simpl in E.
  by apply bool_decide_eq_false in E.
Qed.

Lemma insert_unique_inv {K} `{EqDecision K} (key : R -> K) mk t t' r :
  insert_unique key mk t = Some (t', r) ->
  t' = (insert mk t).1 /\ r = mk (seq t) /\ forall r0, r0 ∈ rows t -> key r0 <> key r.
Proof.
  unfold insert_unique. destruct (exists_row _ t) eqn:E; [done|]. intros [= <- <-].
  split; [done|]. split; [done|]. intros r0 Hr0.
  unfold exists_row in E. rewrite existsb_false in E. specialize (E _ Hr0).
  by apply bool_decide_eq_false in E.
Qed.

(** Deleting, by id, the first [n] rows of a sorted selection leaves exactly the rest. *)
Lemma bfilter_perm (p : R -> bool) l1 l2 : l1 ≡ₚ l2 -> bfilter p l1 ≡ₚ bfilter p l2.
Proof. induction 1; simpl; repeat case_match; eauto using perm_swap, perm_skip, perm_trans. Qed.

Lemma delete_first_sorted (key : R -> Z) p n t :
  table_wf t ->
  select p (delete_where (fun r => bool_decide (row_id r ∈ map row_id (List.firstn n (ssort (asc key) (select p t))))) t)
    ≡ₚ List.skipn n (ssort (asc key) (select p t)).
Proof.
  intros Hwf. set (l := ssort (asc key) (select p t)). set (ids := map row_id (List.firstn n l)).
  unfold select at 1, delete_where; cbn [rows]. rewrite bfilter_bfilter.
  rewrite (bfilter_ext _ (fun r => p r && negb (bool_decide (row_id r ∈ ids)))) by (intros; apply andb_comm).
  rewrite <- bfilter_bfilter. fold (select p t). rewrite (bfilter_perm _ _ l) by (symmetry; apply ssort_perm).
  assert (NoDup (row_id <$> l)) as Hd.
  { unfold l. rewrite ssort_perm. apply bfilter_NoDup_fmap, Hwf. }
  rewrite <- (take_drop n l) at 1. rewrite List.filter_app, bfilter_none, bfilter_all; [done| |].
  - intros r Hr. apply negb_true_iff, bool_decide_eq_false. intros (r' & E & Hr')%list_elem_of_fmap.
    rewrite <- (take_drop n l), fmap_app in Hd. apply NoDup_app in Hd as (_ & Hd & _).
    apply (Hd (row_id r)); apply list_elem_of_fmap; eauto.
  - intros r Hr. apply negb_false_iff, bool_decide_eq_true. apply list_elem_of_fmap. eauto.
Qed.

(** ** Primary-key lookups after an update *)

Lemma get_None i t : get i t = None <-> forall r, r ∈ rows t -> row_id r <> i.
Proof.
  unfold get. split.
  - intros Hn r Hr E. destruct (select (fun r => row_id r =? i) t) as [|x l] eqn:Es; [|done].
    rewrite select_nil in Es. specialize (Es r Hr). apply Z.eqb_neq in Es. congruence.
  - intros Hall. replace (select _ t) with (@nil R); [done|]. symmetry. apply select_nil.
    intros r Hr. apply Z.eqb_neq. by apply Hall.
Qed.

Lemma get_Some i t r : table_wf t -> get i t = Some r <-> r ∈ rows t /\ row_id r = i.
Proof. intros Hwf. split; [apply get_in|]. intros [Hr <-]. by apply get_unique. Qed.

Lemma get_update i p f t :
  (forall r, r ∈ rows t -> p r = true -> row_id (f r) = row_id r) ->
  get i (update_where p f t) = (fun r => if p r then f r else r) <$> get i t.
Proof.
  unfold get, select, update_where; cbn [rows]. induction (rows t) as [|r l IH]; intros Hf; [done|].
  cbn [List.filter fmap list_fmap].
  assert (row_id (if p r then f r else r) = row_id r) as -> by (destruct (p r) eqn:E; [apply Hf; [by left|done]|done]).
  destruct (row_id r =? i); [done|]. apply IH. intros r' ?. apply Hf. by right.
Qed.

Lemma get_delete i p t :
  table_wf t -> get i (delete_where p t) = (r ← get i t; if p r then None else Some r).
Proof.
  intros Hwf. pose proof (table_wf_delete p t Hwf) as Hwf'. destruct (get i t) as [r|] eqn:E; cbn [mbind option_bind].
  - apply get_in in E as [Hr Hid]. destruct (p r) eqn:Ep.
    + apply get_None. intros r' [Hr' Hp]%delete_where_in E. assert (r' = r) as -> by (apply (row_id_inj t); [done..|congruence]). congruence.
    + apply get_Some; [done|]. split; [by apply delete_where_in|done].
  - apply get_None. intros r [Hr _]%delete_where_in. by apply (proj1 (get_None i t) E).
Qed.

Lemma get_put i r r0 t :
  table_wf t -> row_id r = i -> get i t = Some r0 -> get i (put r t) = Some r.
Proof.
  intros Hwf <- Hg. apply get_in in Hg as [Hin Hid]. apply get_unique; [by apply table_wf_put|]. by eapply put_self.
Qed.

Lemma get_put_ne i r t : row_id r <> i -> get i (put r t) = get i t.
Proof.
  intros Hne. unfold put. rewrite get_update by (intros r' _ E; lia). destruct (get i t) as [r'|] eqn:E; [|done]. simpl.
  apply get_in in E as [_ E]. destruct (Z.eqb_spec (row_id r') (row_id r)); [congruence|done].
Qed.

Lemma get_insert (mk : Z -> R) t :
  table_wf t -> (forall i, row_id (mk i) = i) -> get (seq t) (insert mk t).1 = Some (mk (seq t)).
Proof.
  intros Hwf Hid. rewrite <- (Hid (seq t)) at 1. apply get_unique; [by apply table_wf_insert|].
  apply insert_in. by right.
Qed.

Lemma get_insert_ne i (mk : Z -> R) t :
  table_wf t -> (forall i, row_id (mk i) = i) -> i <> seq t -> get i (insert mk t).1 = get i t.
Proof.
  intros Hwf Hid Hne. pose proof (table_wf_insert mk t Hid Hwf) as Hwf'. destruct (get i t) as [r|] eqn:E.
  - apply get_Some; [done|]. apply get_in in E as [? ?]. split; [|done]. apply insert_in. by left.
  - apply get_None. intros r [Hr| ->]%insert_in; [by apply (proj1 (get_None i t) E)|]. rewrite Hid. congruence.
Qed.

Lemma table_wf_empty : table_wf empty_table.
Proof. split; constructor. Qed.

End Table.

#[global] Arguments select {R} p t : simpl never.
#[global] Arguments update_where {R} p f t : simpl never.
#[global] Arguments delete_where {R} p t : simpl never.
#[global] Arguments put {R H} r t : simpl never.
#[global] Arguments insert {R} mk t : simpl never.

#[export] Hint Resolve table_wf_put table_wf_delete table_wf_empty unique_delete : pk.
