(* ===== verification/Findings.v ===== *)
(** * Findings and the shared enumerations ([adapter.py])

    [Finding] is the dataclass every analyzer returns.  The [Literal] types are
    inductive; a missing [file] is the empty string, which is how every reader
    of the field treats it ([f.file or ""]). *)
From S2P Require Import Prelude PyStr.

Open Scope list_scope.
Open Scope Z_scope.

Inductive severity := SLow | SMedium | SHigh | SCritical.
Inductive confidence := CLow | CMedium | CHigh.
Inductive priority := PHigh | PNormal | PLow.

(** Scan verdicts and LLM triage verdicts share one column type. *)
Inductive verdict :=
  | VClean | VSuspicious | VMalicious | VBenign | VInconclusive | VError | VSkipped | VUnverified.

#[export] Instance severity_eq_dec : EqDecision severity.
Proof. solve_decision. Defined.
#[export] Instance confidence_eq_dec : EqDecision confidence.
Proof. solve_decision. Defined.
#[export] Instance priority_eq_dec : EqDecision priority.
Proof. solve_decision. Defined.
#[export] Instance verdict_eq_dec : EqDecision verdict.
Proof. solve_decision. Defined.

Definition severity_name (s : severity) : string :=
  match s with SLow => "low" | SMedium => "medium" | SHigh => "high" | SCritical => "critical" end.

Definition severity_of_name (s : string) : option severity :=
  if String.eqb s "low" then Some SLow else if String.eqb s "medium" then Some SMedium
  else if String.eqb s "high" then Some SHigh else if String.eqb s "critical" then Some SCritical else None.

Definition verdict_name (v : verdict) : string :=
  match v with
  | VClean => "clean" | VSuspicious => "suspicious" | VMalicious => "malicious"
  | VBenign => "benign" | VInconclusive => "inconclusive" | VError => "error"
  | VSkipped => "skipped" | VUnverified => "unverified"
  end.

(** [_PRIORITY_ORDER]: a smaller number is claimed earlier. *)
Definition PRIORITY_ORDER (p : priority) : Z :=
  match p with PHigh => 0 | PNormal => 1 | PLow => 2 end.

Record Finding := mkFinding {
  rule_id : string;
  category : string;
  f_severity : severity;
  f_confidence : confidence;
  file : string;
  line : option Z;
  evidence : string;
}.

#[export] Instance Finding_eq_dec : EqDecision Finding.
Proof. solve_decision. Defined.

(** A package-level finding: [file=""], [line=None]. *)
Definition pkg_finding (rule cat : string) (s : severity) (c : confidence) (ev : string) : Finding :=
  mkFinding rule cat s c "" None ev.

Definition sev_in (f : Finding) (l : list severity) : bool := bool_decide (f_severity f ∈ l).
Definition verdict_in (v : verdict) (l : list verdict) : bool := bool_decide (v ∈ l).

Record ArchivePath := mkArchive { arc_path : string; arc_kind : string; arc_sha256 : string }.

Lemma sev_in_true f l : sev_in f l = true <-> f_severity f ∈ l.
Proof. apply bool_decide_eq_true. Qed.

Lemma verdict_in_true v l : verdict_in v l = true <-> v ∈ l.
Proof. apply bool_decide_eq_true. Qed.

Lemma severity_name_roundtrip s : severity_of_name (severity_name s) = Some s.
Proof. by destruct s. Qed.
