(* ===== verification/Tree.v ===== *)
(** * The extracted tree, and what the content analyzers share

    Every analyzer walks the extracted package with [rglob], skips what the
    caller says has not changed, and reads the rest.  A tree is the list of its
    regular files in walk order; extraction writes no links. *)
From S2P Require Import Prelude PyStr Text Findings.
From Stdlib Require Import Ascii String.

Open Scope string_scope.
Open Scope list_scope.
Open Scope Z_scope.

(** One regular file: path parts, size where [stat] succeeds, contents where
    reading succeeds. *)
Record tree_file := mkTreeFile { tf_parts : list string; tf_size : option Z; tf_data : option string }.

(** [p.relative_to(root).as_posix()], which is also its [str]. *)
Definition real_path (f : tree_file) : string := join "/" (tf_parts f).
Definition tf_name (f : tree_file) : string := List.last (tf_parts f) "".

(** ** [pathlib]: names *)

(** The name before and from its last dot. *)
Fixpoint rsplit_dot (s : string) : option (string * string) :=
  match s with
  | EmptyString => None
  | String c s' =>
      match rsplit_dot s' with
      | Some (a, b) => Some (String c a, b)
      | None => if Ascii.eqb c "." then Some (EmptyString, s) else None
      end
  end.

(** [PurePath.suffix], [PurePath.stem]: a leading or trailing dot starts no suffix. *)
Definition name_suffix (name : string) : string :=
  match rsplit_dot name with Some (a, b) => if truthy a && (1 <? len b)%nat then b else "" | None => "" end.
Definition name_stem (name : string) : string :=
  match rsplit_dot name with Some (a, b) => if truthy a && (1 <? len b)%nat then a else name | None => name end.

Definition suffix_lower (f : tree_file) : string := lower (name_suffix (tf_name f)).
(** [Path(s).suffix.lower()]. *)
Definition path_suffix_lower (s : string) : string := lower (name_suffix (path_name s)).

(** ** Walks *)

(** [rglob("*.ext")] and [rglob(name)] over the files. *)
Definition with_ext (ext : string) (tree : list tree_file) : list tree_file := bfilter (fun f => endswith (tf_name f) ext) tree.
Definition named (name : string) (tree : list tree_file) : list tree_file := bfilter (fun f => String.eqb (tf_name f) name) tree.

(** [changed_files is not None and rel not in changed_files]. *)
Definition unchanged_file (changed : option (list string)) (f : tree_file) : bool :=
  match changed with None => false | Some l => negb (str_in (real_path f) l) end.

(** An analyzer that looks at the selected, changed, readable files one by one. *)
Definition each_file (sel : tree_file -> bool) (changed : option (list string)) (scan : tree_file -> string -> list Finding)
    (tree : list tree_file) : list Finding :=
  flat_map (fun f =>
    if negb (sel f) || unchanged_file changed f then []
    else match tf_data f with Some data => scan f data | None => [] end) tree.

(** ** Reading text *)

(** [read_text]: a carriage return, alone or before a line feed, is a line feed. *)
Fixpoint universal_newlines (s : string) : string :=
  match s with
  | EmptyString => EmptyString
  | String c s' =>
      if Ascii.eqb c CR then
        match s' with
        | String d s'' => if Ascii.eqb d LF then String LF (universal_newlines s'') else String LF (universal_newlines s')
        | EmptyString => String LF EmptyString
        end
      else String c (universal_newlines s')
  end.
Definition read_text (data : string) : string := universal_newlines data.

(** [enumerate(lines, 1)]. *)
Definition numbered {A} (l : list A) : list (Z * A) := combine (map Z.of_nat (List.seq 1 (List.length l))) l.

(** [content[:i].count("\n") + 1]. *)
Definition count_char (c : ascii) (s : string) : Z := Z.of_nat (List.length (split c s)) - 1.
Definition line_at (content : string) (i : nat) : Z := count_char LF (str_take i content) + 1.

(** ** What an analyzer may report *)

(** Rule, severity and confidence. *)
Definition signature : Type := string * severity * confidence.
Definition signature_of (g : Finding) : signature := (rule_id g, f_severity g, f_confidence g).
Definition signed_by (cat : string) (sigs : list signature) (g : Finding) : Prop :=
  signature_of g ∈ sigs /\ category g = cat.

(** ** Text around separators *)

(** What follows the first [sep] in [s]. *)
Fixpoint after_sub (sep s : string) : option string :=
  if startswith s sep then Some (str_drop (len sep) s)
  else match s with EmptyString => None | String _ s' => after_sub sep s' end.

(** [a.b] or [b] itself: host suffix tests. *)
Definition host_under (h d : string) : bool := String.eqb h d || endswith h ("." +:+ d).

(** [s.strip(chars)]. *)
Definition strip_chars (chars s : string) : string := strip_where (fun c => has_char c chars) s.
Definition rstrip_chars (chars s : string) : string := rstrip_where (fun c => has_char c chars) s.
Definition lstrip_chars (chars s : string) : string := lstrip_where (fun c => has_char c chars) s.

(** [s.split()]: the words between blanks. *)
Definition words (s : string) : list string :=
  bfilter truthy ((fix go (w : string) (s : string) : list string :=
    match s with
    | EmptyString => [w]
    | String c s' => if is_space c then w :: go "" s' else go (snoc w c) s'
    end) "" s).

(** ** Lemmas *)

Lemma each_file_in sel changed scan tree x : x ∈ each_file sel changed scan tree <->
  exists f data, f ∈ tree /\ sel f = true /\ unchanged_file changed f = false /\ tf_data f = Some data /\ x ∈ scan f data.
Proof.
  unfold each_file. rewrite list_elem_of_In, in_flat_map. setoid_rewrite <- list_elem_of_In. split.
  - intros (f & Hf & H). destruct (sel f) eqn:E1; [|by apply elem_of_nil in H].
    destruct (unchanged_file changed f) eqn:E2; [by apply elem_of_nil in H|].
    destruct (tf_data f) as [d|] eqn:E3; [|by apply elem_of_nil in H]. exists f, d. split_and!; done.
  - intros (f & d & Hf & E1 & E2 & E3 & Hx). exists f. rewrite E1, E2, E3. split; done.
Qed.

Lemma each_file_app sel changed scan t1 t2 :
  each_file sel changed scan (t1 ++ t2) = each_file sel changed scan t1 ++ each_file sel changed scan t2.
Proof. apply flat_map_app. Qed.

(** Sequences of analyses that may raise. *)
Lemma mapM_elem {A B} (h : A -> option B) l ys x : mapM h l = Some ys -> x ∈ l -> exists y, h x = Some y /\ y ∈ ys.
Proof.
  revert ys. induction l as [|a l IH]; intros ys; cbn [mapM]; [by intros _ ?%elem_of_nil|].
  intros (y & Hy & (ys' & Hl & [= <-])%bind_Some)%bind_Some [->|Hx]%elem_of_cons; [exists y; split; [done|by left]|].
  destruct (IH ys' Hl Hx) as (z & Hz & Hin). exists z. split; [done|by right].
Qed.

Lemma elem_concat {B} (ll : list (list B)) y : y ∈ List.concat ll <-> exists ys, ys ∈ ll /\ y ∈ ys.
Proof. rewrite list_elem_of_In, in_concat. setoid_rewrite list_elem_of_In. done. Qed.

Lemma mapM_concat {A B} (h : A -> option (list B)) l yss y : mapM h l = Some yss -> y ∈ List.concat yss ->
  exists x ys, x ∈ l /\ h x = Some ys /\ y ∈ ys.
Proof.
  revert yss. induction l as [|a l IH]; intros yss; cbn [mapM]; [by intros [= <-] ?%elem_of_nil|].
  intros (ys & Hy & (yss' & Hl & [= <-])%bind_Some)%bind_Some [Hin|Hin]%elem_of_app; [exists a, ys; split_and!; [by left|done|done]|].
  destruct (IH yss' Hl Hin) as (x & zs & Hx & Hz & Hi). exists x, zs. split_and!; [by right|done|done].
Qed.

Lemma mapM_forall {A} (P : Finding -> Prop) (h : A -> option (list Finding)) l fss :
  (forall x fs, h x = Some fs -> Forall P fs) -> mapM h l = Some fss -> Forall P (List.concat fss).
Proof.
  intros H Hm. apply Forall_forall. intros g (x & fs & _ & Hx & Hg)%(mapM_concat _ _ _ _ Hm). specialize (H x fs Hx).
  rewrite Forall_forall in H. by apply H.
Qed.

(** Signatures go through the ways analyzers build their lists. *)
Lemma signed_intro cat sigs g : bool_decide (signature_of g ∈ sigs) = true -> category g = cat -> signed_by cat sigs g.
Proof. intros H%bool_decide_eq_true Hc. by split. Qed.

Lemma signed_flat {A} cat sigs (h : A -> list Finding) l : (forall x, x ∈ l -> Forall (signed_by cat sigs) (h x)) ->
  Forall (signed_by cat sigs) (flat_map h l).
Proof.
  intros H. induction l as [|x l IH]; cbn [flat_map]; [constructor|]. apply Forall_app. split; [apply H; set_solver|].
  apply IH. intros y Hy. apply H. set_solver.
Qed.

Lemma signed_map {A} cat sigs (h : A -> Finding) l : (forall x, signed_by cat sigs (h x)) -> Forall (signed_by cat sigs) (map h l).
Proof. intros H. apply Forall_forall. by intros g (x & -> & _)%list_elem_of_fmap. Qed.

Lemma signed_each cat sigs sel changed scan tree : (forall f data, f ∈ tree -> Forall (signed_by cat sigs) (scan f data)) ->
  Forall (signed_by cat sigs) (each_file sel changed scan tree).
Proof.
  intros H. apply Forall_forall. intros g (f & data & Hf & _ & _ & _ & Hg)%each_file_in.
  specialize (H f data Hf). rewrite Forall_forall in H. by apply H.
Qed.

Lemma signed_weaken cat sigs sigs' fs : sigs ⊆ sigs' -> Forall (signed_by cat sigs) fs -> Forall (signed_by cat sigs') fs.
Proof. intros Hs. rewrite !Forall_forall. intros H g Hg. destruct (H g Hg) as [H1 H2]. split; [set_solver|done]. Qed.

(** Invariants of a loop, and what one of its turns establishes for good. *)
Lemma fold_inv {S A} (I : S -> Prop) (step : S -> A -> S) l s :
  (forall s a, a ∈ l -> I s -> I (step s a)) -> I s -> I (fold_left step l s).
Proof.
  revert s. induction l as [|a l IH]; intros s H Hs; [done|]. cbn [fold_left]. apply IH; [intros; apply H; [set_solver|done]|].
  apply H; [set_solver|done].
Qed.

Lemma fold_reaches {S A} (I P : S -> Prop) (step : S -> A -> S) l x s : x ∈ l -> (forall s a, I s -> I (step s a)) ->
  (forall s a, I s -> P s -> P (step s a)) -> (forall s, I s -> P (step s x)) -> I s -> P (fold_left step l s).
Proof.
  intros Hx HI HP Hnew. revert s. induction Hx as [x l|x y l Hx IH]; intros s Hs; cbn [fold_left]; [|by apply IH; auto].
  assert (I (step s x) /\ P (step s x)) as H by (split; auto).
  apply (fold_inv (fun s => I s /\ P s)); [|done]. intros s' a _ []. auto.
Qed.

(** Closes [Forall (signed_by cat sigs)] of a list of literal findings, conditionals,
    maps and concatenations. *)
Ltac sign_one := apply signed_intro; [vm_compute; reflexivity|reflexivity].
Ltac sign_all :=
  repeat match goal with
  | |- Forall _ [] => apply List.Forall_nil
  | |- Forall _ (_ :: _) => apply List.Forall_cons
  | |- Forall _ (_ ++ _) => apply Forall_app; split
  | |- Forall _ (map _ _) => apply signed_map; intros ?
  | |- Forall _ (flat_map _ _) => apply signed_flat; intros ? _
  | |- Forall _ (each_file _ _ _ _) => apply signed_each; intros ? ? _
  | |- Forall _ (if ?b then _ else _) => destruct b
  | |- Forall _ (match ?x with _ => _ end) => destruct x
  | |- Forall _ (let _ := _ in _) => cbv zeta
  | |- signed_by _ _ (let _ := _ in _) => cbv zeta
  | |- signed_by _ _ (if ?b then _ else _) => destruct b
  end; try sign_one.

Lemma rsplit_dot_app s a b : rsplit_dot s = Some (a, b) -> s = a +:+ b.
Proof.
  revert a b. induction s as [|c s IH]; intros a b; cbn [rsplit_dot]; [done|].
  destruct (rsplit_dot s) as [[a' b']|]; [intros [= <- <-]; by rewrite append_cons, <- (IH a' b')|].
  destruct (Ascii.eqb c "."); [|done]. by intros [= <- <-].
Qed.

Lemma suffix_endswith name : name_suffix name <> "" -> exists stem, stem <> "" /\ name = stem +:+ name_suffix name.
Proof.
  unfold name_suffix. destruct (rsplit_dot name) as [[a b]|] eqn:E; [|done]. destruct (truthy a) eqn:Ea; [|done].
  destruct (1 <? len b)%nat; [|done]. intros _. exists a. cbn. split; [by intros ->|by apply rsplit_dot_app].
Qed.

Example suffix_ex : map name_suffix ["a.tar.gz"; ".npmrc"; "x."; "Makefile"; "b.JS"] = [".gz"; ""; ""; ""; ".JS"].
Proof. reflexivity. Qed.
Example after_sub_ex : after_sub "://" "https://a/b" = Some "a/b". Proof. reflexivity. Qed.
Example words_ex : words "  go  run ./x " = ["go"; "run"; "./x"]. Proof. reflexivity. Qed.
