(* ===== verification/Jobs.v ===== *)
(** * Claimable jobs

    [ScanQueue] and [DetonationQueue] (store/models.py) share their claim
    columns and most of their protocol.  A [job X] is one row of either table;
    [X] carries the columns that only one of them has. *)
From S2P Require Import Prelude PyStr Sql Findings.

Open Scope list_scope.
Open Scope Z_scope.

Inductive status := Pending | Claimed | Done | Failed | Expired.

#[export] Instance status_eq_dec : EqDecision status.
Proof. solve_decision. Defined.

Record job (X : Type) := Job {
  id : Z;
  ecosystem : string;
  name : string;
  version : string;
  extra : X;
  jpriority : priority;
  jstatus : status;
  attempts : Z;
  claim_token : option string;
  last_error : option string;
  enqueued_at : timestamp;
  claimed_at : option timestamp;
  finished_at : option timestamp;
}.
Arguments Job {X}.
Arguments id {X}. Arguments ecosystem {X}. Arguments name {X}. Arguments version {X}.
Arguments extra {X}. Arguments jpriority {X}. Arguments jstatus {X}. Arguments attempts {X}.
Arguments claim_token {X}. Arguments last_error {X}. Arguments enqueued_at {X}.
Arguments claimed_at {X}. Arguments finished_at {X}.

#[export] Instance job_entity X : Entity (job X) := {| row_id := id |}.

Definition status_is (s : status) {X} (r : job X) : bool := bool_decide (jstatus r = s).
Definition status_in (l : list status) {X} (r : job X) : bool := bool_decide (jstatus r ∈ l).

Definition older (cutoff : timestamp) (x : option timestamp) : bool :=
  match x with Some v => v <? cutoff | None => false end.

Section Assign.
Context {X : Type}.
Implicit Types (r : job X).

(** Attribute assignments on an ORM row. *)
Definition set_status (s : status) r : job X :=
  Job (id r) (ecosystem r) (name r) (version r) (extra r) (jpriority r) s (attempts r)
    (claim_token r) (last_error r) (enqueued_at r) (claimed_at r) (finished_at r).
Definition set_priority (p : priority) r : job X :=
  Job (id r) (ecosystem r) (name r) (version r) (extra r) p (jstatus r) (attempts r)
    (claim_token r) (last_error r) (enqueued_at r) (claimed_at r) (finished_at r).
Definition set_attempts (n : Z) r : job X :=
  Job (id r) (ecosystem r) (name r) (version r) (extra r) (jpriority r) (jstatus r) n
    (claim_token r) (last_error r) (enqueued_at r) (claimed_at r) (finished_at r).
Definition set_last_error (e : option string) r : job X :=
  Job (id r) (ecosystem r) (name r) (version r) (extra r) (jpriority r) (jstatus r) (attempts r)
    (claim_token r) e (enqueued_at r) (claimed_at r) (finished_at r).
Definition set_claim (tok : option string) (at_ : option timestamp) r : job X :=
  Job (id r) (ecosystem r) (name r) (version r) (extra r) (jpriority r) (jstatus r) (attempts r)
    tok (last_error r) (enqueued_at r) at_ (finished_at r).
Definition set_finished (at_ : option timestamp) r : job X :=
  Job (id r) (ecosystem r) (name r) (version r) (extra r) (jpriority r) (jstatus r) (attempts r)
    (claim_token r) (last_error r) (enqueued_at r) (claimed_at r) at_.

(** [if token is not None and row.claim_token != token: return False]. *)
Definition token_refused (token : option string) r : bool :=
  match token with Some t => negb (bool_decide (claim_token r = Some t)) | None => false end.

(** The body of [mark_done], the same in both queues. *)
Definition job_mark_done (now : timestamp) r (token : option string) (t : table (job X)) : bool * table (job X) :=
  if token_refused token r then (false, t)
  else (true, put (set_finished (Some now) (set_status Done r)) t).

(** The body of [mark_failed]; [err] is the text the caller stores. *)
Definition job_mark_failed (now : timestamp) r (err : string) (token : option string)
    (t : table (job X)) : bool * table (job X) :=
  if token_refused token r then (false, t)
  else (true, put (set_finished (Some now) (set_last_error (Some err) (set_status Failed r))) t).

(** [ScanQueue.status == "claimed", claimed_at IS NOT NULL, claimed_at < cutoff]. *)
Definition stale (timeout now : timestamp) r : bool := status_is Claimed r && older (now - timeout) (claimed_at r).

(** One iteration of the stale-claim sweep. *)
Definition release_stale (max_attempts now : Z) r : job X :=
  if max_attempts <=? attempts r
  then set_finished (Some now) (set_last_error (Some "claim_timeout") (set_status Failed r))
  else set_claim None None (set_status Pending r).

Definition job_sweep (max_attempts timeout now : Z) (t : table (job X)) : Z * table (job X) :=
  (count_where (stale timeout now) t, update_where (stale timeout now) (release_stale max_attempts now) t).

(** The claim protocol's bookkeeping, per row. *)
Definition claim_wf r : Prop :=
  (jstatus r = Claimed -> is_Some (claim_token r) /\ is_Some (claimed_at r)) /\
  (jstatus r = Pending -> claim_token r = None /\ claimed_at r = None).

Lemma token_refused_true tok r : token_refused (Some tok) r = true <-> claim_token r <> Some tok.
Proof. simpl. by rewrite negb_true_iff, bool_decide_eq_false. Qed.

Lemma token_refused_false tok r : token_refused (Some tok) r = false <-> claim_token r = Some tok.
Proof. simpl. by rewrite negb_false_iff, bool_decide_eq_true. Qed.

Lemma release_stale_id m now r : id (release_stale m now r) = id r.
Proof. unfold release_stale. by destruct (m <=? attempts r). Qed.

Lemma release_stale_attempts m now r : attempts (release_stale m now r) = attempts r.
Proof. unfold release_stale. by destruct (m <=? attempts r). Qed.

(** A sweep leaves no stale claim behind. *)
Lemma job_sweep_no_stale m timeout now t r :
  r ∈ rows (job_sweep m timeout now t).2 -> stale timeout now r = false.
Proof.
  simpl. intros (r0 & Hr0 & ->)%update_where_in. destruct (stale timeout now r0) eqn:E; [|done].
  unfold release_stale. by destruct (m <=? attempts r0).
Qed.

(** A row that is not stale is left exactly as it was. *)
Lemma job_sweep_frame m timeout now t r :
  r ∈ rows t -> stale timeout now r = false -> r ∈ rows (job_sweep m timeout now t).2.
Proof. intros Hr Hs. simpl. apply update_where_in. exists r. by rewrite Hs. Qed.

Lemma job_sweep_wf m timeout now t : table_wf t -> table_wf (job_sweep m timeout now t).2.
Proof. apply table_wf_update. intros. apply release_stale_id. Qed.

Lemma job_mark_done_wf now r tok t : table_wf t -> table_wf (job_mark_done now r tok t).2.
Proof. unfold job_mark_done. destruct (token_refused tok r); simpl; auto with pk. Qed.

Lemma job_mark_failed_wf now r e tok t : table_wf t -> table_wf (job_mark_failed now r e tok t).2.
Proof. unfold job_mark_failed. destruct (token_refused tok r); simpl; auto with pk. Qed.

Lemma release_stale_claim_wf m now r : claim_wf r -> claim_wf (release_stale m now r).
Proof. unfold release_stale, claim_wf. destruct (m <=? attempts r); simpl; naive_solver. Qed.

(** No two rows carry the same claim token. *)
Definition tokens_unique (t : table (job X)) : Prop :=
  forall r r' tok, r ∈ rows t -> r' ∈ rows t ->
    claim_token r = Some tok -> claim_token r' = Some tok -> id r = id r'.

(** Steps that draw no token can only keep or clear the token of a row. *)
Lemma tokens_unique_sub (t t' : table (job X)) :
  (forall r', r' ∈ rows t' -> claim_token r' = None \/
     exists r, r ∈ rows t /\ id r = id r' /\ claim_token r = claim_token r') ->
  tokens_unique t -> tokens_unique t'.
Proof.
  intros Hsub Hu r r' tok Hr Hr' E E'.
  destruct (Hsub r Hr) as [?|(r1 & ? & <- & ?)]; [congruence|].
  destruct (Hsub r' Hr') as [?|(r2 & ? & <- & ?)]; [congruence|].
  apply (Hu r1 r2 tok); congruence || done.
Qed.

(** Claiming one row with a token nobody carries. *)
Lemma tokens_unique_claim (p : job X -> bool) (f : job X -> job X) i tok t :
  (forall r, p r = true -> id r = i) -> (forall r, id (f r) = id r /\ claim_token (f r) = Some tok) ->
  (forall r, r ∈ rows t -> claim_token r <> Some tok) ->
  tokens_unique t -> tokens_unique (update_where p f t).
Proof.
  intros Hp Hf Hfresh Hu r1 r2 tk (r & Hin & ->)%update_where_in (r' & Hin' & ->)%update_where_in.
  destruct (Hf r) as [Hi Ht], (Hf r') as [Hi' Ht']. pose proof (Hfresh r Hin). pose proof (Hfresh r' Hin').
  destruct (p r) eqn:E, (p r') eqn:E'; rewrite ?Hi, ?Hi', ?Ht, ?Ht'; intros H1 H2.
  - apply Hp in E, E'. congruence.
  - congruence.
  - congruence.
  - by apply (Hu r r' tk).
Qed.

(** Putting back the row that was read, with the same token, or none. *)
Lemma tokens_unique_put (r r' : job X) t :
  r ∈ rows t -> id r' = id r -> claim_token r' = None \/ claim_token r' = claim_token r ->
  tokens_unique t -> tokens_unique (put r' t).
Proof.
  intros Hr Hid Ht. apply tokens_unique_sub. intros r1 [->|[? _]]%put_in; [|right; eauto].
  destruct Ht; [by left|right; exists r; auto].
Qed.

Lemma release_stale_token m now (r : job X) :
  claim_token (release_stale m now r) = None \/ claim_token (release_stale m now r) = claim_token r.
Proof. unfold release_stale. destruct (m <=? attempts r); simpl; auto. Qed.

Lemma tokens_unique_sweep m timeout now t : tokens_unique t -> tokens_unique (job_sweep m timeout now t).2.
Proof.
  apply tokens_unique_sub. intros r' (r & Hin & ->)%update_where_in.
  destruct (stale timeout now r); [|right; eauto].
  destruct (release_stale_token m now r); [by left|right]. exists r. by rewrite release_stale_id.
Qed.

Lemma tokens_unique_delete p (t : table (job X)) : tokens_unique t -> tokens_unique (delete_where p t).
Proof. apply tokens_unique_sub. intros r [Hin _]%delete_where_in. right; eauto. Qed.

End Assign.

#[export] Hint Resolve job_sweep_wf job_mark_done_wf job_mark_failed_wf release_stale_claim_wf
  tokens_unique_sweep tokens_unique_delete : pk.
