(* ===== verification/ScanQueue.v ===== *)
(** * The scan queue ([pkgward/queue.py])

    [enqueue], [claim_next], [mark_done], [mark_failed], [prune_terminal] and
    [sweep_stale_claims] over the [scan_queue] table, and the system they form
    as a step relation.  Clocks, fresh tokens, the random scheduler, database
    faults and the commits of concurrent sessions are arguments. *)
From S2P Require Import Prelude PyStr Sql Findings Jobs.
From Stdlib Require Import QArith Qminmax Lqa.

Open Scope list_scope.
Open Scope Z_scope.

(** ** Constants and configuration *)

Definition MAX_AUTO_ATTEMPTS : Z := 3.
Definition CLAIM_CAS_RETRIES : nat := 5.
Definition STALE_CLAIM_TIMEOUT_SECONDS : Z := 1800.

(** The environment-tunable constants of the module. *)
Record QueueConfig := mkQueueConfig {
  QUEUE_RETENTION_DAYS : Z;
  ENQUEUE_DEADLOCK_RETRIES : Z;
  SCHED_RESERVED_FRACTION : Q;
  SCHED_MAX_ECO_SHARE : Q;
}.
Definition default_config : QueueConfig := mkQueueConfig 14 3 (4 # 10) (7 # 10).

Abbreviation row := (job unit).
Abbreviation queue := (table row).

Definition key_of (r : row) : string * string * string := (ecosystem r, name r, version r).

(** [_is_deadlock] and [_is_lock_timeout] read the text of the driver error. *)
Definition is_deadlock (msg : string) : bool := contains "deadlock detected" (lower msg).
Definition is_lock_timeout (msg : string) : bool :=
  let s := lower msg in
  contains "canceling statement due to" s || contains "lock timeout" s ||
  contains "could not obtain lock" s.

(** ** Scheduling *)

(** [_eco_weights]; the float arithmetic is exact rational arithmetic here. *)
Definition eco_weights (cfg : QueueConfig) (ecosystems : list string) (counts : list (string * Z)) : list Q :=
  let n := length ecosystems in
  if (n <=? 1)%nat then repeat 1%Q n
  else
    let nq := inject_Z (Z.of_nat n) in
    let reserved := Qmax 0 (Qmin (SCHED_RESERVED_FRACTION cfg) 1) in
    let max_share := Qmax (reserved / nq) (Qmin (SCHED_MAX_ECO_SHARE cfg) 1) in
    let s := foldr Z.add 0 (map (fun e => dget_or e 0 counts) ecosystems) in
    let total := inject_Z (if s =? 0 then 1 else s) in
    let base := (reserved / nq)%Q in
    map (fun e => Qmin (base + (1 - reserved) * inject_Z (dget_or e 0 counts) / total) max_share)
      ecosystems.

(** [_weighted_order]: [choose k l] is the pick of the k-th [random.choices]. *)
Fixpoint weighted_order (choose : nat -> list (string * Q) -> string) (fuel : nat)
    (remaining : list (string * Q)) : list string :=
  match fuel, remaining with
  | S fuel', _ :: _ =>
      let pick := choose fuel' remaining in
      pick :: weighted_order choose fuel' (bfilter (fun ew => negb (String.eqb ew.1 pick)) remaining)
  | _, _ => []
  end.

(** ** [enqueue] *)

Definition new_row (now : timestamp) (eco nm ver : string) (prio : priority) (i : Z) : row :=
  Job i eco nm ver tt prio Pending 0 None None now None None.

Definition bump_priority (prio : priority) (r : row) : row :=
  if PRIORITY_ORDER prio <? PRIORITY_ORDER (jpriority r) then set_priority prio r else r.

Definition reset_row (r : row) : row :=
  set_finished None (set_claim None None (set_last_error None (set_status Pending r))).

(** The [existing is not None] block; [None] falls through to the insert loop. *)
Definition enqueue_existing (prio : priority) (allow_rescan : bool) (r : row) : option row :=
  if allow_rescan then
    if status_in [Pending; Claimed] r then Some (bump_priority prio r)
    else Some (set_priority prio (reset_row r))
  else if status_in [Pending; Claimed; Done] r then
    Some (if negb (status_in [Done] r) then bump_priority prio r else r)
  else if status_is Failed r then
    if MAX_AUTO_ATTEMPTS <=? attempts r then Some r
    else Some (bump_priority prio (reset_row r))
  else None.

Inductive outcome := Returned (r : option row) | Raised (msg : string).

(** The savepoint-retry loop.  Before attempt [k] the commits of other sessions
    ([env k]) land; [faults k] is the [OperationalError] of that attempt. *)
Fixpoint insert_attempts (cfg : QueueConfig) (env : nat -> queue -> queue)
    (faults : nat -> option string) (mk : Z -> row) (n attempt : nat) (t : queue) : outcome * queue :=
  match n with
  | O => (Returned None, t)
  | S n' =>
      let t := env attempt t in
      match faults attempt with
      | None =>
          match insert_unique key_of mk t with
          | Some (t', r) => (Returned (Some r), t')
          | None => (Returned None, t)
          end
      | Some msg =>
          if is_deadlock msg && (Z.of_nat attempt <? ENQUEUE_DEADLOCK_RETRIES cfg)
          then insert_attempts cfg env faults mk n' (S attempt) t
          else if is_deadlock msg || is_lock_timeout msg then (Returned None, t)
          else (Raised msg, t)
      end
  end.

Definition same_key (eco nm ver : string) (r : row) : bool :=
  String.eqb (ecosystem r) eco && String.eqb (name r) nm && String.eqb (version r) ver.

Definition enqueue (cfg : QueueConfig) (env : nat -> queue -> queue) (faults : nat -> option string)
    (now : timestamp) (eco nm ver : string) (prio : priority) (allow_rescan : bool)
    (t : queue) : outcome * queue :=
  let insert_new := insert_attempts cfg env faults (new_row now eco nm ver prio)
                      (Z.to_nat (ENQUEUE_DEADLOCK_RETRIES cfg + 1)) 0 t in
  match first (same_key eco nm ver) t with
  | Some r =>
      match enqueue_existing prio allow_rescan r with
      | Some r' => (Returned (Some r'), put r' t)
      | None => insert_new
      end
  | None => insert_new
  end.

(** ** [claim_next] *)

Definition claimable (prio : priority) (eco : string) (r : row) : bool :=
  status_is Pending r && bool_decide (jpriority r = prio) && String.eqb (ecosystem r) eco.

(** The compare-and-swap [UPDATE ... WHERE id = ? AND status = 'pending']. *)
Definition cas_where (i : Z) (r : row) : bool := (id r =? i) && status_is Pending r.
Definition take (now : timestamp) (token : string) (r : row) : row :=
  set_attempts (attempts r + 1) (set_claim (Some token) (Some now) (set_status Claimed r)).
Definition cas_claim (now : timestamp) (token : string) (i : Z) (t : queue) : Z * queue :=
  (count_where (cas_where i) t, update_where (cas_where i) (take now token) t).

(** The retry loop on one ecosystem.  Between the [SELECT] and the [UPDATE] of
    iteration [k] other sessions commit [env k]. *)
Fixpoint claim_eco (env : nat -> queue -> queue) (now : timestamp) (token : string)
    (prio : priority) (eco : string) (n k : nat) (lost_ids : list Z) (t : queue)
    : option row * queue * nat :=
  match n with
  | O => (None, t, k)
  | S n' =>
      match first_asc enqueued_at
              (fun r => claimable prio eco r && negb (bool_decide (id r ∈ lost_ids))) t with
      | None => (None, t, k)
      | Some r =>
          let t := env k t in
          let '(rowcount, t') := cas_claim now token (id r) t in
          if rowcount =? 1 then (get (id r) t', t', S k)
          else claim_eco env now token prio eco n' (S k) (id r :: lost_ids) t'
      end
  end.

Fixpoint claim_ecos (env : nat -> queue -> queue) (now : timestamp) (token : string)
    (prio : priority) (ecos : list string) (k : nat) (t : queue) : option row * queue * nat :=
  match ecos with
  | [] => (None, t, k)
  | eco :: ecos' =>
      match claim_eco env now token prio eco CLAIM_CAS_RETRIES k [] t with
      | (Some r, t', k') => (Some r, t', k')
      | (None, t', k') => claim_ecos env now token prio ecos' k' t'
      end
  end.

(** [SELECT ecosystem, count( * ) ... GROUP BY ecosystem]. *)
Definition pending_at (prio : priority) (r : row) : bool :=
  status_is Pending r && bool_decide (jpriority r = prio).
Definition pending_counts (prio : priority) (t : queue) : list (string * Z) :=
  let rs := select (pending_at prio) t in
  map (fun e => (e, Z.of_nat (length (bfilter (fun r => String.eqb (ecosystem r) e) rs))))
    (dedup (map ecosystem rs)).

Definition tier_order (cfg : QueueConfig) (choose : nat -> list (string * Q) -> string)
    (counts : list (string * Z)) : list string :=
  let ecosystems := counts.*1 in
  weighted_order choose (length ecosystems)
    (zip ecosystems (eco_weights cfg ecosystems counts)).

Fixpoint claim_tiers (cfg : QueueConfig) (choose : nat -> list (string * Q) -> string)
    (env : nat -> queue -> queue) (now : timestamp) (token : string)
    (prios : list priority) (k : nat) (t : queue) : option (row * string) * queue :=
  match prios with
  | [] => (None, t)
  | prio :: prios' =>
      match pending_counts prio t with
      | [] => claim_tiers cfg choose env now token prios' k t
      | counts =>
          match claim_ecos env now token prio (tier_order cfg choose counts) k t with
          | (Some r, t', _) => (Some (r, token), t')
          | (None, t', k') => claim_tiers cfg choose env now token prios' k' t'
          end
      end
  end.

Definition claim_next (cfg : QueueConfig) (choose : nat -> list (string * Q) -> string)
    (env : nat -> queue -> queue) (now : timestamp) (token : string) (t : queue)
    : option (row * string) * queue :=
  claim_tiers cfg choose env now token [PHigh; PNormal; PLow] 0 t.

(** ** Completion, pruning, sweeping *)

Definition mark_done (now : timestamp) (r : row) (token : option string) (t : queue) : bool * queue :=
  job_mark_done now r token t.

(** [error.replace("\x00", "") if error else error]. *)
Definition mark_failed (now : timestamp) (r : row) (error : string) (token : option string)
    (t : queue) : bool * queue :=
  job_mark_failed now r (remove_char NUL error) token t.

Definition prunable (cutoff : timestamp) (r : row) : bool :=
  status_in [Done; Failed] r && older cutoff (finished_at r).
Definition prune_terminal (cfg : QueueConfig) (older_than_days : option Z) (now : timestamp)
    (t : queue) : Z * queue :=
  let ndays := default (QUEUE_RETENTION_DAYS cfg) older_than_days in
  let cutoff := now - days ndays in
  (count_where (prunable cutoff) t, delete_where (prunable cutoff) t).

Definition sweep_stale_claims (now : timestamp) (t : queue) : Z * queue :=
  job_sweep MAX_AUTO_ATTEMPTS (seconds STALE_CLAIM_TIMEOUT_SECONDS) now t.

(** ** Scheduling: the floor, the cap and the try-list *)

Section Weights.
Variable cfg : QueueConfig.
Implicit Types (counts : list (string * Z)) (es : list string).

Definition reserved_of : Q := Qmax 0 (Qmin (SCHED_RESERVED_FRACTION cfg) 1).
Definition base_of (n : nat) : Q := (reserved_of / inject_Z (Z.of_nat n))%Q.
Definition cap_of (n : nat) : Q := Qmax (base_of n) (Qmin (SCHED_MAX_ECO_SHARE cfg) 1).

Lemma reserved_range : (0 <= reserved_of /\ reserved_of <= 1)%Q.
Proof.
  unfold reserved_of. split; [apply Q.le_max_l|].
  apply Q.max_lub; [lra|apply Q.le_min_r].
Qed.

Lemma sum_nonneg counts es :
  (forall e, e ∈ es -> 0 <= dget_or e 0 counts) ->
  0 <= foldr Z.add 0 (map (fun e => dget_or e 0 counts) es) /\
  forall e, e ∈ es -> dget_or e 0 counts <= foldr Z.add 0 (map (fun e => dget_or e 0 counts) es).
Proof.
  induction es as [|e0 es IH]; intros H; simpl; [set_solver|].
  destruct IH as [IH1 IH2]; [set_solver|].
  pose proof (H e0 ltac:(set_solver)). split; [lia|].
  intros e [->|He]%elem_of_cons; [lia|]. specialize (IH2 e He). lia.
Qed.

(** Every weight lies between the reserved floor and the cap. *)
Lemma eco_weights_between counts es w :
  (forall e, e ∈ es -> 0 <= dget_or e 0 counts) -> (1 < length es)%nat ->
  w ∈ eco_weights cfg es counts -> (base_of (length es) <= w /\ w <= cap_of (length es))%Q.
Proof.
  intros Hc Hn. unfold eco_weights. rewrite (proj2 (Nat.leb_gt _ _)) by done.
  rewrite list_elem_of_In, in_map_iff. intros (e & <- & He%list_elem_of_In).
  set (s := foldr Z.add 0 _). destruct (sum_nonneg counts es Hc) as [Hs _].
  split; [|apply Q.le_min_r]. apply Q.min_glb; [|apply Q.le_max_l].
  change (base_of (length es) <= base_of (length es) + (1 - reserved_of) *
    inject_Z (dget_or e 0%Z counts) / inject_Z (if s =? 0 then 1 else s))%Q.
  assert (0 <= (1 - reserved_of) * inject_Z (dget_or e 0%Z counts) /
    inject_Z (if s =? 0 then 1 else s))%Q as Hp; [|lra].
  apply Qle_shift_div_l.
  - change 0%Q with (inject_Z 0). rewrite <- Zlt_Qlt. destruct (Z.eqb_spec s 0); lia.
  - rewrite Qmult_0_l. apply Qmult_le_0_compat.
    + pose proof reserved_range. lra.
    + change 0%Q with (inject_Z 0). rewrite <- Zle_Qle. auto.
Qed.

End Weights.

Lemma fst_bfilter_ne {B} (p : string) (l : list (string * B)) :
  (bfilter (fun ew => negb (String.eqb ew.1 p)) l).*1 = bfilter (fun e => negb (String.eqb e p)) l.*1.
Proof.
  induction l as [|x l IH]; [done|]. rewrite fmap_cons. simpl.
  destruct (negb (String.eqb x.1 p)); [rewrite fmap_cons|]; by rewrite IH.
Qed.

Lemma perm_pick (p : string) (es : list string) :
  p ∈ es -> NoDup es -> es ≡ₚ p :: bfilter (fun e => negb (String.eqb e p)) es.
Proof.
  induction es as [|e es IH]; simpl; [set_solver|].
  intros Hin [He Hd]%NoDup_cons. destruct (String.eqb_spec e p) as [->|Hne]; simpl.
  - rewrite bfilter_all; [done|]. intros x Hx. destruct (String.eqb_spec x p); [congruence|done].
  - rewrite IH at 1 by set_solver. apply perm_swap.
Qed.

(** The try-list contains every candidate ecosystem exactly once. *)
Lemma weighted_order_perm choose n remaining :
  (forall k l, l <> [] -> choose k l ∈ l.*1) ->
  NoDup remaining.*1 -> (length remaining <= n)%nat ->
  weighted_order choose n remaining ≡ₚ remaining.*1.
Proof.
  intros Hch. revert remaining. induction n as [|n IH]; intros rem Hd Hn.
  { destruct rem; [done|simpl in Hn; lia]. }
  destruct rem as [|ew rem]; [done|].
  pose proof (perm_pick _ _ (Hch n (ew :: rem) ltac:(done)) Hd) as Hp.
  rewrite Hp. simpl weighted_order. apply perm_skip.
  rewrite <- fst_bfilter_ne in Hp |- *. apply IH.
  - rewrite Hp in Hd. by apply NoDup_cons in Hd as [_ ?].
  - apply Permutation_length in Hp. rewrite length_cons, !length_fmap in Hp. simpl in *. lia.
Qed.

(** ** The compare-and-swap *)

Lemma cas_where_true i r : cas_where i r = true <-> id r = i /\ jstatus r = Pending.
Proof. unfold cas_where, status_is. rewrite andb_true_iff, bool_decide_eq_true. bool_to_Z. done. Qed.

Lemma count_pos {p : row -> bool} {t : queue} : count_where p t = 1 -> exists r, r ∈ select p t.
Proof.
  unfold count_where. destruct (select p t) as [|r l] eqn:E; simpl; [lia|].
  intros _. exists r. set_solver.
Qed.

Lemma cas_count t i : table_wf t ->
  count_where (cas_where i) t = 0 \/ count_where (cas_where i) t = 1.
Proof.
  intros Hwf. unfold count_where. destruct (select (cas_where i) t) as [|r [|r' l]] eqn:E; simpl; auto.
  exfalso.
  assert (NoDup (row_id <$> select (cas_where i) t)) as Hd.
  { apply bfilter_NoDup_fmap. apply Hwf. }
  assert (forall x, x ∈ select (cas_where i) t -> id x = i) as Hid.
  { intros x Hx%select_in. destruct Hx as [_ Hx]. by apply cas_where_true in Hx as [? _]. }
  rewrite E in Hd, Hid. rewrite !fmap_cons in Hd. apply NoDup_cons in Hd as [Hd _]. apply Hd.
  simpl. rewrite (Hid r), (Hid r') by set_solver. set_solver.
Qed.

(** A lost race changes nothing. *)
Lemma cas_lost now token i t :
  count_where (cas_where i) t = 0 -> (cas_claim now token i t).2 = t.
Proof.
  intros H0. simpl. destruct t as [rs s]. unfold update_where; simpl. f_equal.
  assert (forall r, r ∈ rs -> cas_where i r = false) as Hn.
  { apply (select_nil (cas_where i) (Table rs s)). apply nil_length_inv.
    unfold count_where in H0. lia. }
  clear H0. induction rs as [|r rs IH]; [done|]. rewrite fmap_cons, Hn by set_solver.
  f_equal. apply IH. set_solver.
Qed.

Lemma take_id now token r : id (take now token r) = id r.
Proof. done. Qed.

Lemma cas_wf now token i t : table_wf t -> table_wf (cas_claim now token i t).2.
Proof. apply table_wf_update. done. Qed.

(** A won race: exactly one pending row was taken, and it is the one read back. *)
Lemma cas_won now token i t :
  table_wf t -> count_where (cas_where i) t = 1 ->
  exists r0, r0 ∈ rows t /\ id r0 = i /\ jstatus r0 = Pending /\
    get i (cas_claim now token i t).2 = Some (take now token r0).
Proof.
  intros Hwf [r0 Hr0]%count_pos. apply select_in in Hr0 as [Hr0 Hc].
  pose proof Hc as [Hid Hp]%cas_where_true. exists r0. repeat split; [done..|].
  assert (get (row_id (take now token r0)) (cas_claim now token i t).2 = Some (take now token r0)) as H.
  { apply get_unique; [by apply cas_wf|]. apply update_where_in. exists r0. by rewrite Hc. }
  change (row_id (take now token r0)) with (id r0) in H. by rewrite Hid in H.
Qed.

Section Interference.
Variable env : nat -> queue -> queue.
Hypothesis env_wf : forall k t, table_wf t -> table_wf (env k t).

(** The table after the first [n] commits of the other sessions, in order. *)
Fixpoint commits (n : nat) (t : queue) : queue :=
  match n with O => t | S n' => env n' (commits n' t) end.

Lemma commits_wf n t : table_wf t -> table_wf (commits n t).
Proof using env_wf. induction n; simpl; auto. Qed.

(** How a claim that started on [t] may end after [k'] commits: empty-handed, with
    nothing written, or with a row that was pending at that instant. *)
Definition claim_ends (now : timestamp) (token : string) (t : queue) (o : option row) (t' : queue) (k' : nat) : Prop :=
  match o with
  | None => t' = commits k' t
  | Some r => exists k r0, k' = S k /\ r0 ∈ rows (commits k' t) /\ jstatus r0 = Pending /\
      r = take now token r0 /\ t' = (cas_claim now token (id r0) (commits k' t)).2
  end.

Lemma claim_eco_ends now token prio eco t n k lost o t' k' :
  table_wf t -> claim_eco env now token prio eco n k lost (commits k t) = (o, t', k') ->
  claim_ends now token t o t' k'.
Proof using env_wf.
  intros Hwf. revert k lost. induction n as [|n IH]; intros k lost; simpl; [by intros [= <- <- <-]|].
  destruct (first_asc _ _ _) as [r1|]; [|by intros [= <- <- <-]].
  pose proof (commits_wf (S k) t Hwf) as Hwf1. simpl in Hwf1.
  destruct (cas_count _ (id r1) Hwf1) as [E|E]; rewrite E; simpl.
  - intros H. apply (IH (S k) (id r1 :: lost)). simpl.
    change (update_where _ _ ?x) with (cas_claim now token (id r1) x).2 in H. by rewrite cas_lost in H.
  - intros [= Hg <- <-].
    destruct (cas_won now token _ _ Hwf1 E) as (r0 & Hr0 & Hid & Hp & Hget).
    simpl in Hget. rewrite Hget in Hg. subst o. exists k, r0. rewrite Hid. auto.
Qed.

Lemma claim_ecos_ends now token prio ecos t k o t' k' :
  table_wf t -> claim_ecos env now token prio ecos k (commits k t) = (o, t', k') ->
  claim_ends now token t o t' k'.
Proof using env_wf.
  intros Hwf. revert k. induction ecos as [|eco ecos IH]; intros k; cbn [claim_ecos]; [by intros [= <- <- <-]|].
  destruct (claim_eco _ _ _ _ _ _ _ _ _) as [[o1 t1] k1] eqn:E. apply claim_eco_ends in E; [|done].
  destruct o1 as [r1|]; [by intros [= <- <- <-]|]. simpl in E. subst t1. apply IH.
Qed.

Lemma claim_tiers_ends cfg choose now token prios t k o t' :
  table_wf t -> claim_tiers cfg choose env now token prios k (commits k t) = (o, t') ->
  exists k', claim_ends now token t (fst <$> o) t' k' /\ forall r tok, o = Some (r, tok) -> tok = token.
Proof using env_wf.
  intros Hwf. revert k. induction prios as [|p prios IH]; intros k; cbn [claim_tiers].
  { intros [= <- <-]. by exists k. }
  destruct (pending_counts p _) as [|c cs]; [by apply IH|].
  destruct (claim_ecos _ _ _ _ _ _ _) as [[o1 t1] k1] eqn:E. apply claim_ecos_ends in E; [|done].
  destruct o1 as [r1|].
  - intros [= <- <-]. exists k1. split; [done|]. by intros r tok [= _ <-].
  - simpl in E. subst t1. apply IH.
Qed.

End Interference.

(** ** Claiming without interference *)

Definition quiet : nat -> queue -> queue := fun _ t => t.

Lemma claimable_true prio eco r :
  claimable prio eco r = true <-> jstatus r = Pending /\ jpriority r = prio /\ ecosystem r = eco.
Proof.
  unfold claimable, status_is. rewrite !andb_true_iff, !bool_decide_eq_true, String.eqb_eq. tauto.
Qed.

Lemma claim_eco_quiet now token prio eco k t :
  table_wf t ->
  claim_eco quiet now token prio eco CLAIM_CAS_RETRIES k [] t =
  match first_asc enqueued_at (fun r => claimable prio eco r && negb (bool_decide (id r ∈ []))) t with
  | None => (None, t, k)
  | Some r => (Some (take now token r), (cas_claim now token (id r) t).2, S k)
  end.
Proof.
  intros Hwf. unfold CLAIM_CAS_RETRIES. generalize 4%nat. intros n. cbn [claim_eco]. unfold quiet at 1.
  destruct (first_asc _ _ t) as [r|] eqn:E; [|done].
  apply first_asc_Some in E as [[Hr Hc]%select_in _]. apply andb_true_iff in Hc as [Hc _].
  apply claimable_true in Hc as (Hp & _).
  assert (r ∈ select (cas_where (id r)) t) as Hs by (apply select_in; by rewrite cas_where_true).
  destruct (cas_count t (id r) Hwf) as [E|E].
  { unfold count_where in E. destruct (select _ t); [set_solver|simpl in E; lia]. }
  destruct (cas_won now token _ _ Hwf E) as (r0 & Hr0 & Hid & _ & Hget).
  unfold cas_claim at 1. rewrite E. simpl in Hget |- *. unfold quiet. rewrite Hget.
  by rewrite (row_id_inj t r0 r Hwf Hr0 Hr Hid).
Qed.

(** What the query of a claim returns: a pending row of the tier and ecosystem,
    the oldest of them. *)
Definition oldest_of (t : queue) (prio : priority) (eco : string) (r : row) : Prop :=
  r ∈ rows t /\ claimable prio eco r = true /\
  forall r', r' ∈ rows t -> claimable prio eco r' = true -> enqueued_at r <= enqueued_at r'.

Lemma first_oldest prio eco t r :
  first_asc enqueued_at (fun r => claimable prio eco r && negb (bool_decide (id r ∈ []))) t = Some r ->
  oldest_of t prio eco r.
Proof.
  intros [[Hr Hc]%select_in Hmin]%first_asc_Some. apply andb_true_iff in Hc as [Hc _].
  split; [done|]. split; [done|]. intros r' Hr' Hc'. apply Hmin, select_in. by rewrite Hc'.
Qed.

Lemma first_none prio eco t :
  first_asc enqueued_at (fun r => claimable prio eco r && negb (bool_decide (id r ∈ []))) t = None ->
  forall r, r ∈ rows t -> claimable prio eco r = false.
Proof.
  intros E%first_asc_None r Hr. apply (select_nil _ t) with (r := r) in E; [|done].
  apply andb_false_iff in E as [E|E]; [done|]. by rewrite bool_decide_false in E by set_solver.
Qed.

Lemma claim_ecos_quiet now token prio ecos k t o t' k' :
  table_wf t -> claim_ecos quiet now token prio ecos k t = (o, t', k') ->
  match o with
  | Some r => exists r0 eco, oldest_of t prio eco r0 /\ r = take now token r0 /\
                t' = (cas_claim now token (id r0) t).2
  | None => t' = t /\ forall eco r, eco ∈ ecos -> r ∈ rows t -> claimable prio eco r = false
  end.
Proof.
  intros Hwf. revert k. induction ecos as [|eco ecos IH]; intros k; cbn [claim_ecos].
  - intros [= <- <- <-]. set_solver.
  - rewrite claim_eco_quiet by done. destruct (first_asc _ _ t) as [r|] eqn:E.
    + intros [= <- <- <-]. apply first_oldest in E. eauto.
    + intros He%IH. destruct o; [done|]. destruct He as [-> He]. split; [done|].
      intros eco' r [->|Hin]%elem_of_cons Hr; [by eapply first_none|eauto].
Qed.

Lemma fst_map_pair {A B} (f : A -> B) (l : list A) : (map (fun e => (e, f e)) l).*1 = l.
Proof. induction l as [|e l IH]; [done|]. cbn [map]. by rewrite fmap_cons, IH. Qed.

Lemma pending_counts_keys prio t : (pending_counts prio t).*1 = dedup (map ecosystem (select (pending_at prio) t)).
Proof. apply fst_map_pair. Qed.

Lemma pending_counts_in prio t r :
  r ∈ rows t -> jstatus r = Pending -> jpriority r = prio -> ecosystem r ∈ (pending_counts prio t).*1.
Proof.
  intros Hr Hs Hp. rewrite pending_counts_keys, dedup_elem, list_elem_of_In, in_map_iff.
  exists r. split; [done|]. apply list_elem_of_In, select_in. split; [done|].
  unfold pending_at, status_is. by rewrite !bool_decide_true.
Qed.

Section Quiet.
Variable cfg : QueueConfig.
Variable choose : nat -> list (string * Q) -> string.
Hypothesis choices_spec : forall k l, l <> [] -> choose k l ∈ l.*1.

Lemma eco_weights_length es counts : length (eco_weights cfg es counts) = length es.
Proof.
  unfold eco_weights. destruct (Nat.leb_spec (length es) 1); [by rewrite repeat_length|].
  by rewrite length_map.
Qed.

Lemma tier_order_perm prio t :
  tier_order cfg choose (pending_counts prio t) ≡ₚ (pending_counts prio t).*1.
Proof using choices_spec.
  unfold tier_order. set (es := (pending_counts prio t).*1).
  assert ((zip es (eco_weights cfg es (pending_counts prio t))).*1 = es) as Hz.
  { apply fst_zip. by rewrite eco_weights_length. }
  etrans; [apply weighted_order_perm|by rewrite Hz]; [done| |].
  - rewrite Hz. unfold es. rewrite pending_counts_keys. apply dedup_NoDup.
  - rewrite length_zip_with_l_eq; [done|by rewrite eco_weights_length].
Qed.

Lemma claim_tiers_quiet now token prios k t o t' :
  table_wf t -> claim_tiers cfg choose quiet now token prios k t = (o, t') ->
  match o with
  | Some (r, tok) => tok = token /\ exists prio r0 eco before after, prios = before ++ prio :: after /\
      oldest_of t prio eco r0 /\ r = take now token r0 /\ t' = (cas_claim now token (id r0) t).2 /\
      forall p r', p ∈ before -> r' ∈ rows t -> pending_at p r' = false
  | None => t' = t /\ forall p r, p ∈ prios -> r ∈ rows t -> pending_at p r = false
  end.
Proof using choices_spec.
  intros Hwf. revert k. induction prios as [|p prios IH]; intros k; cbn [claim_tiers].
  { intros [= <- <-]. set_solver. }
  assert (forall r, (forall eco r, eco ∈ tier_order cfg choose (pending_counts p t) -> r ∈ rows t ->
    claimable p eco r = false) -> r ∈ rows t -> pending_at p r = false) as Hnone.
  { intros r Hc Hr. destruct (pending_at p r) eqn:E; [|done].
    unfold pending_at, status_is in E. apply andb_true_iff in E as [E1%bool_decide_eq_true E2%bool_decide_eq_true].
    specialize (Hc (ecosystem r) r). rewrite tier_order_perm in Hc.
    specialize (Hc (pending_counts_in _ _ _ Hr E1 E2) Hr).
    rewrite (proj2 (claimable_true p (ecosystem r) r)) in Hc; done. }
  assert (pending_counts p t = [] -> forall r, r ∈ rows t -> pending_at p r = false) as Hnil.
  { intros E r Hr. apply Hnone; [|done]. intros eco r' Hin. rewrite tier_order_perm, E in Hin. set_solver. }
  assert (forall k, claim_tiers cfg choose quiet now token prios k t = (o, t') ->
    (forall r, r ∈ rows t -> pending_at p r = false) -> match o with
    | Some (r, tok) => tok = token /\ exists prio r0 eco before after, p :: prios = before ++ prio :: after /\
        oldest_of t prio eco r0 /\ r = take now token r0 /\ t' = (cas_claim now token (id r0) t).2 /\
        forall p r', p ∈ before -> r' ∈ rows t -> pending_at p r' = false
    | None => t' = t /\ forall q r, q ∈ p :: prios -> r ∈ rows t -> pending_at q r = false
    end) as Hrest.
  { intros k1 H1%IH Hp. destruct o as [[r tok]|].
    - destruct H1 as (-> & prio & r0 & eco & before & after & -> & ? & ? & ? & Hb). split; [done|].
      exists prio, r0, eco, (p :: before), after. split_and!; try done.
      intros q r' [->|Hq]%elem_of_cons; eauto.
    - destruct H1 as [-> H1]. split; [done|]. intros q r [->|Hq]%elem_of_cons; eauto. }
  destruct (pending_counts p t) as [|c cs] eqn:Ec; [intros H; by eapply Hrest; auto|].
  rewrite <- Ec in *.
  destruct (claim_ecos _ _ _ _ _ _ _) as [[[r1|] t1] k1] eqn:E; apply claim_ecos_quiet in E; try done.
  - destruct E as (r0 & eco & Ho & -> & ->). intros [= <- <-]. split; [done|].
    exists p, r0, eco, [], prios. split_and!; try done. set_solver.
  - destruct E as [-> E]. intros H. apply (Hrest k1 H). intros r. by apply Hnone.
Qed.

End Quiet.

(** ** Enqueueing *)

Lemma same_key_true eco nm ver r : same_key eco nm ver r = true <-> key_of r = (eco, nm, ver).
Proof.
  unfold same_key, key_of. rewrite !andb_true_iff, !String.eqb_eq. split; [|intros [= -> -> ->]; done].
  intros [[-> ->] ->]. done.
Qed.

(** Which attributes of an existing row an [enqueue] can touch. *)
Definition enq_rel (rescan : bool) (r r' : row) : Prop :=
  r' = r \/
  (id r' = id r /\ key_of r' = key_of r /\ attempts r' = attempts r /\
   ((jstatus r' = jstatus r /\ claim_token r' = claim_token r /\ claimed_at r' = claimed_at r) \/
    (jstatus r' = Pending /\ claim_token r' = None /\ claimed_at r' = None /\
     (rescan = false -> jstatus r = Failed /\ attempts r < MAX_AUTO_ATTEMPTS)))).

Lemma bump_priority_rel rescan p r : enq_rel rescan r (bump_priority p r).
Proof. unfold bump_priority. destruct (_ <? _); [right|left; done]. split_and!; auto. Qed.

Lemma enqueue_existing_rel p rescan r r' : enqueue_existing p rescan r = Some r' -> enq_rel rescan r r'.
Proof.
  unfold enqueue_existing, status_in, status_is. destruct rescan.
  - case_bool_decide; intros [= <-]; [apply bump_priority_rel|]. right. naive_solver.
  - case_bool_decide.
    + intros [= <-]. case_match; [apply bump_priority_rel|by left].
    + case_bool_decide as Hf; [|done]. destruct (Z.leb_spec MAX_AUTO_ATTEMPTS (attempts r)); intros [= <-]; [by left|].
      right. unfold bump_priority. destruct (_ <? _); naive_solver.
Qed.

Lemma enq_rel_id rescan r r' : enq_rel rescan r r' -> id r' = id r /\ key_of r' = key_of r.
Proof. unfold enq_rel. naive_solver. Qed.

Lemma insert_attempts_inv cfg env faults mk n k t (P : queue -> Prop) :
  (forall k t, P t -> P (env k t)) ->
  (forall t t' r, P t -> insert_unique key_of mk t = Some (t', r) -> P t') ->
  P t -> P (insert_attempts cfg env faults mk n k t).2.
Proof.
  intros Henv Hins. revert k t. induction n as [|n IH]; intros k t Ht; simpl; [done|].
  specialize (Henv k t Ht). destruct (faults k) as [msg|]; [|].
  - destruct (is_deadlock msg && _); [by apply IH|].
    by destruct (is_deadlock msg || is_lock_timeout msg).
  - destruct (insert_unique _ _ _) as [[t' r]|] eqn:E; simpl; [eauto|done].
Qed.

Lemma new_row_id now eco nm ver p i : row_id (new_row now eco nm ver p i) = i.
Proof. done. Qed.

(** What can have become of a row after [enqueue]: nothing, the touched row, or a new one. *)
Lemma enqueue_rows cfg faults now eco nm ver p rescan t r' :
  r' ∈ rows (enqueue cfg quiet faults now eco nm ver p rescan t).2 ->
  (exists r, r ∈ rows t /\ enq_rel rescan r r') \/ r' = new_row now eco nm ver p (seq t).
Proof.
  assert (forall n k, r' ∈ rows (insert_attempts cfg quiet faults (new_row now eco nm ver p) n k t).2 ->
    (exists r, r ∈ rows t /\ enq_rel rescan r r') \/ r' = new_row now eco nm ver p (seq t)) as Hins.
  { induction n as [|n IH]; intros k; simpl; [left; exists r'; split; [done|by left]|].
    unfold quiet at 1. destruct (faults k) as [msg|].
    - destruct (is_deadlock msg && _); [apply IH|].
      destruct (is_deadlock msg || is_lock_timeout msg); simpl; left; exists r'; (split; [done|by left]).
    - unfold quiet. destruct (insert_unique _ _ t) as [[t1 r1]|] eqn:E; simpl.
      + apply insert_unique_inv in E as (-> & -> & _). intros [Hr| ->]%insert_in; [|by right].
        left. exists r'. split; [done|by left].
      + left. exists r'. split; [done|by left]. }
  unfold enqueue. destruct (first _ t) as [r|] eqn:E; [|apply Hins].
  destruct (enqueue_existing p rescan r) as [r1|] eqn:E1; [|apply Hins].
  apply enqueue_existing_rel in E1. apply head_in, select_in in E as [Hr _]. cbn [snd].
  intros [->|[Hr' _]]%put_in; left; [by exists r|]. exists r'. split; [done|by left].
Qed.

Lemma enqueue_wf cfg faults now eco nm ver p rescan t :
  table_wf t -> table_wf (enqueue cfg quiet faults now eco nm ver p rescan t).2.
Proof.
  intros Hwf. assert (forall n k, table_wf
    (insert_attempts cfg quiet faults (new_row now eco nm ver p) n k t).2) as Hins.
  { intros n k. apply insert_attempts_inv; [done| |done].
    intros t0 t' r Ht0 (-> & _)%insert_unique_inv. by apply table_wf_insert. }
  unfold enqueue. destruct (first _ t) as [r|]; [|apply Hins].
  destruct (enqueue_existing p rescan r); [simpl; auto with pk|apply Hins].
Qed.

Lemma put_unique t r r' :
  table_wf t -> r ∈ rows t -> id r' = id r -> key_of r' = key_of r ->
  unique key_of t -> unique key_of (put r' t).
Proof.
  intros Hwf Hr Hid Hk. apply unique_update. intros r0 Hr0 E. rewrite Hk.
  apply Z.eqb_eq in E. simpl in E. f_equal. eapply row_id_inj; [exact Hwf|..]; try done. simpl. congruence.
Qed.

Lemma enqueue_unique cfg faults now eco nm ver p rescan t :
  table_wf t -> unique key_of t -> unique key_of (enqueue cfg quiet faults now eco nm ver p rescan t).2.
Proof.
  intros Hwf Hu. assert (forall n k, unique key_of
    (insert_attempts cfg quiet faults (new_row now eco nm ver p) n k t).2) as Hins.
  { intros n k. apply insert_attempts_inv; [done| |done].
    intros t0 t' r Ht0 E. by eapply unique_insert. }
  unfold enqueue. destruct (first _ t) as [r|] eqn:E; [|apply Hins].
  destruct (enqueue_existing p rescan r) as [r1|] eqn:E1; [|apply Hins].
  apply head_in, select_in in E as [Hr _].
  apply enqueue_existing_rel, enq_rel_id in E1 as [Hid Hk]. simpl. by eapply put_unique.
Qed.

(** ** The queue as a transition system

    [qstate] is the table with the set of tokens ever drawn; every operation is
    one atomic step except the claim, whose [UPDATE] is a step of its own (the
    [SELECT] before it only chooses the id).  [rescan] says whether the CLI's
    [allow_rescan=True] enqueues are among the steps. *)
Record qstate := QState { q_table : queue; q_tokens : gset string }.

Inductive qstep (cfg : QueueConfig) (rescan : bool) : qstate -> qstate -> Prop :=
| step_enqueue faults now eco nm ver p b t U :
    (b = true -> rescan = true) ->
    qstep cfg rescan (QState t U) (QState (enqueue cfg quiet faults now eco nm ver p b t).2 U)
| step_claim now tok i t U :
    tok ∉ U ->
    qstep cfg rescan (QState t U) (QState (cas_claim now tok i t).2 ({[tok]} ∪ U))
| step_done now i r tok t U :
    get i t = Some r ->
    qstep cfg rescan (QState t U) (QState (mark_done now r (Some tok) t).2 U)
| step_failed now i r err tok t U :
    get i t = Some r ->
    qstep cfg rescan (QState t U) (QState (mark_failed now r err (Some tok) t).2 U)
| step_sweep now t U :
    qstep cfg rescan (QState t U) (QState (sweep_stale_claims now t).2 U)
| step_prune d now t U :
    qstep cfg rescan (QState t U) (QState (prune_terminal cfg d now t).2 U).

Definition reachable cfg rescan (s : qstate) : Prop :=
  rtc (qstep cfg rescan) (QState empty_table ∅) s.

(** Per-row invariant: claim bookkeeping, tokens drawn, attempts within budget. *)
Definition row_inv (rescan : bool) (U : gset string) (r : row) : Prop :=
  claim_wf r /\ (forall tok, claim_token r = Some tok -> tok ∈ U) /\ 0 <= attempts r /\
  (rescan = false -> attempts r <= MAX_AUTO_ATTEMPTS /\
     (jstatus r = Pending -> attempts r < MAX_AUTO_ATTEMPTS)).

Definition queue_inv (rescan : bool) (s : qstate) : Prop :=
  table_wf (q_table s) /\ unique key_of (q_table s) /\
  (forall r, r ∈ rows (q_table s) -> row_inv rescan (q_tokens s) r) /\
  tokens_unique (q_table s).

(** ** The invariant is preserved by every step *)

Lemma row_inv_enq rescan b U r r' :
  (b = true -> rescan = true) -> enq_rel b r r' -> row_inv rescan U r -> row_inv rescan U r'.
Proof.
  intros Hb [->|(Hid & Hk & Ha & Hs)] (Hcw & Htok & H0 & Hatt); [done|].
  unfold row_inv, claim_wf in *. rewrite Ha.
  destruct Hs as [(-> & -> & ->)|(-> & -> & -> & Hf)]; [done|].
  split_and!; try done. intros Hr. destruct b; [naive_solver|]. naive_solver.
Qed.

Lemma row_inv_new rescan U now eco nm ver p i : row_inv rescan U (new_row now eco nm ver p i).
Proof. unfold row_inv, claim_wf, MAX_AUTO_ATTEMPTS; simpl. split_and!; try done; intros; lia. Qed.

Lemma row_inv_take rescan U now tok r :
  jstatus r = Pending -> row_inv rescan U r -> row_inv rescan ({[tok]} ∪ U) (take now tok r).
Proof.
  intros Hp (Hcw & Htok & H0 & Hatt). unfold row_inv, claim_wf in *; simpl. split_and!; try done.
  - set_solver.
  - lia.
  - intros Hr. destruct (Hatt Hr) as [_ Ha]. specialize (Ha Hp). unfold MAX_AUTO_ATTEMPTS in *. split; [lia|done].
Qed.

Lemma row_inv_tokens rescan U tok r : row_inv rescan U r -> row_inv rescan ({[tok]} ∪ U) r.
Proof. unfold row_inv. set_solver. Qed.

Lemma row_inv_finish rescan U now s e r :
  s = Done \/ s = Failed -> row_inv rescan U r ->
  row_inv rescan U (set_finished (Some now) (set_last_error e (set_status s r))).
Proof. unfold row_inv, claim_wf; simpl. destruct s; naive_solver. Qed.

Lemma row_inv_done rescan U now r :
  row_inv rescan U r -> row_inv rescan U (set_finished (Some now) (set_status Done r)).
Proof. unfold row_inv, claim_wf; simpl. naive_solver. Qed.

Lemma row_inv_release rescan U now r :
  row_inv rescan U r -> row_inv rescan U (release_stale MAX_AUTO_ATTEMPTS now r).
Proof.
  intros Hi. unfold release_stale. destruct (Z.leb_spec MAX_AUTO_ATTEMPTS (attempts r)).
  - apply row_inv_finish; auto.
  - unfold row_inv, claim_wf in *; simpl. naive_solver.
Qed.

(** Replacing the row read by the same row with other bookkeeping. *)
Lemma inv_put rescan t U r r' :
  queue_inv rescan (QState t U) -> r ∈ rows t -> id r' = id r -> key_of r' = key_of r ->
  claim_token r' = claim_token r -> row_inv rescan U r' ->
  queue_inv rescan (QState (put r' t) U).
Proof.
  intros (Hwf & Hu & Hr & Ht) Hin Hid Hk Htok Hi. cbn [q_table q_tokens] in *. split_and!; cbn [q_table q_tokens].
  - auto with pk.
  - by eapply put_unique.
  - intros r1 [->|[? _]]%put_in; auto.
  - eapply tokens_unique_put; eauto.
Qed.

Lemma qstep_inv cfg rescan s s' : qstep cfg rescan s s' -> queue_inv rescan s -> queue_inv rescan s'.
Proof.
  intros Hst Hinv. pose proof Hinv as (Hwf & Hu & Hr & Ht).
  destruct Hst as [faults now eco nm ver p b t U Hb|now tok i t U Hfresh|now i r tok t U Hg
    |now i r err tok t U Hg|now t U|d now t U]; cbn [q_table q_tokens] in *.
  - split_and!; cbn [q_table q_tokens]; [by apply enqueue_wf|by apply enqueue_unique| |].
    + intros r' [(r & Hin & He)| ->]%enqueue_rows; [by eapply row_inv_enq; eauto|apply row_inv_new].
    + eapply tokens_unique_sub; [|exact Ht].
      intros r' [(r & Hin & [->|He])| ->]%enqueue_rows; [right; eauto| |by left].
      destruct He as (Hid & _ & _ & [(_ & Hc & _)|(_ & Hc & _)]); [right|by left]. exists r. done.
  - split_and!; cbn [q_table q_tokens]; [by apply (cas_wf now tok i)| | |].
    + by apply unique_update.
    + intros r' (r & Hin & ->)%update_where_in. destruct (cas_where i r) eqn:E.
      * apply cas_where_true in E as [_ Hp]. by apply row_inv_take; auto.
      * by apply row_inv_tokens; auto.
    + apply tokens_unique_claim with (i := i) (tok := tok); try done.
      * by intros r [? _]%cas_where_true.
      * intros r Hin E. destruct (Hr r Hin) as (_ & Htok & _). auto.
  - apply get_in in Hg as [Hin Hid]. unfold mark_done, job_mark_done.
    destruct (token_refused _ r); cbn [snd]; [done|]. eapply inv_put; try done. by apply row_inv_done; auto.
  - apply get_in in Hg as [Hin Hid]. unfold mark_failed, job_mark_failed.
    destruct (token_refused _ r); cbn [snd]; [done|]. eapply inv_put; try done. apply row_inv_finish; auto.
  - split_and!; cbn [q_table q_tokens]; [by apply job_sweep_wf| | |].
    + apply unique_update; [|done]. intros r _ _. unfold release_stale. by destruct (_ <=? _).
    + intros r' (r & Hin & ->)%update_where_in. destruct (stale _ _ r); [apply row_inv_release|]; auto.
    + by apply tokens_unique_sweep.
  - split_and!; cbn [q_table q_tokens]; [by apply table_wf_delete|by apply unique_delete| |].
    + intros r [Hin _]%delete_where_in. auto.
    + by apply tokens_unique_delete.
Qed.

Lemma queue_inv_init rescan : queue_inv rescan (QState empty_table ∅).
Proof.
  split_and!; cbn [q_table q_tokens]; [apply table_wf_empty|constructor|intros r Hr; set_solver|intros r r' tok Hr; set_solver].
Qed.

(** A token that was drawn but is on no row never comes back. *)
Definition retired (tok : string) (s : qstate) : Prop :=
  tok ∈ q_tokens s /\ forall r, r ∈ rows (q_table s) -> claim_token r <> Some tok.

Lemma qstep_retired cfg rescan tok s s' : qstep cfg rescan s s' -> retired tok s -> retired tok s'.
Proof.
  intros Hst [HU Hr].
  destruct Hst as [faults now eco nm ver p b t U Hb|now tk i t U Hfresh|now i r tk t U Hg
    |now i r err tk t U Hg|now t U|d now t U]; split; cbn [q_table q_tokens] in *; try done.
  - intros r' [(r & Hin & [->|He])| ->]%enqueue_rows; [auto| |done].
    destruct He as (_ & _ & _ & [(_ & -> & _)|(_ & -> & _)]); auto.
  - set_solver.
  - intros r' (r & Hin & ->)%update_where_in. destruct (cas_where i r); [simpl; intros [= ->]; done|auto].
  - apply get_in in Hg as [Hin _]. unfold mark_done, job_mark_done. destruct (token_refused _ r); cbn [snd]; [done|].
    intros r1 [->|[? _]]%put_in; [simpl|]; auto.
  - apply get_in in Hg as [Hin _]. unfold mark_failed, job_mark_failed. destruct (token_refused _ r); cbn [snd]; [done|].
    intros r1 [->|[? _]]%put_in; [simpl|]; auto.
  - intros r' (r & Hin & ->)%update_where_in. destruct (stale _ _ r); [|auto].
    unfold release_stale. destruct (_ <=? _); simpl; auto.
  - intros r [Hin _]%delete_where_in. auto.
Qed.

Lemma steps_retired cfg rescan tok s s' : rtc (qstep cfg rescan) s s' -> retired tok s -> retired tok s'.
Proof. induction 1; eauto using qstep_retired. Qed.

(** ** Helper lemmas of the properties *)

Lemma reachable_inv cfg rescan s : reachable cfg rescan s -> queue_inv rescan s.
Proof.
  unfold reachable. intros Hr. remember (QState empty_table ∅) as s0 eqn:E.
  assert (queue_inv rescan s0) as Hi by (subst; apply queue_inv_init). clear E.
  induction Hr; eauto using qstep_inv.
Qed.

Lemma put_id (t : queue) r : table_wf t -> r ∈ rows t -> put r t = t.
Proof.
  intros Hwf Hr. destruct t as [rs q]. unfold put, update_where; simpl. f_equal.
  assert (forall r', r' ∈ rs -> row_id r' = row_id r -> r' = r) as Hinj.
  { intros r' Hr' E. by eapply (row_id_inj (Table rs q)). }
  clear Hwf Hr. induction rs as [|r0 rs IH]; [done|]. rewrite fmap_cons, IH by set_solver. f_equal.
  destruct (Z.eqb_spec (id r0) (id r)); [|done]. symmetry. apply Hinj; [set_solver|done].
Qed.

Lemma first_key (t : queue) eco nm ver r :
  unique key_of t -> r ∈ rows t -> key_of r = (eco, nm, ver) -> first (same_key eco nm ver) t = Some r.
Proof.
  intros Hu Hr Hk. unfold first. destruct (select _ t) as [|r1 l] eqn:E.
  { pose proof (proj1 (select_nil _ _) E r Hr) as Hn. by rewrite (proj2 (same_key_true _ _ _ r)) in Hn. }
  assert (r1 ∈ select (same_key eco nm ver) t) as H1 by (rewrite E; set_solver).
  apply select_in in H1 as [H1 Hk1%same_key_true]. simpl. f_equal.
  apply list_elem_of_lookup in Hr as [i Hi], H1 as [j Hj].
  assert ((key_of <$> rows t) !! i = Some (eco, nm, ver)) as Hi' by (by rewrite list_lookup_fmap, Hi; simpl; rewrite Hk).
  assert ((key_of <$> rows t) !! j = Some (eco, nm, ver)) as Hj' by (by rewrite list_lookup_fmap, Hj; simpl; rewrite Hk1).
  pose proof (NoDup_lookup _ _ _ _ Hu Hi' Hj'). simplify_eq. done.
Qed.

Lemma bump_priority_order p r : PRIORITY_ORDER (jpriority (bump_priority p r)) =
  Z.min (PRIORITY_ORDER p) (PRIORITY_ORDER (jpriority r)).
Proof. unfold bump_priority. destruct (Z.ltb_spec (PRIORITY_ORDER p) (PRIORITY_ORDER (jpriority r))); simpl; lia. Qed.

Lemma bump_priority_idem p r : bump_priority p (bump_priority p r) = bump_priority p r.
Proof.
  unfold bump_priority at 1. rewrite bump_priority_order.
  destruct (Z.ltb_spec (PRIORITY_ORDER p) (Z.min (PRIORITY_ORDER p) (PRIORITY_ORDER (jpriority r)))); [lia|done].
Qed.

Lemma bump_priority_status p r : jstatus (bump_priority p r) = jstatus r.
Proof. unfold bump_priority. by destruct (_ <? _). Qed.

(** [enqueue_existing] by the status of the row (automated enqueue). *)
Lemma enqueue_existing_auto p r :
  enqueue_existing p false r =
  match jstatus r with
  | Pending | Claimed => Some (bump_priority p r)
  | Done => Some r
  | Failed => Some (if MAX_AUTO_ATTEMPTS <=? attempts r then r else bump_priority p (reset_row r))
  | Expired => None
  end.
Proof.
  unfold enqueue_existing, status_in, status_is. destruct (jstatus r); try reflexivity. simpl.
  by destruct (_ <=? _).
Qed.

Lemma enqueue_existing_idem p r r' :
  enqueue_existing p false r = Some r' -> enqueue_existing p false r' = Some r'.
Proof.
  rewrite !enqueue_existing_auto. destruct (jstatus r) eqn:Hs; intros [= <-];
    rewrite ?bump_priority_status, ?Hs, ?bump_priority_idem; try done.
  destruct (Z.leb_spec MAX_AUTO_ATTEMPTS (attempts r)) as [Ha|Ha].
  - rewrite Hs. by rewrite (proj2 (Z.leb_le _ _) Ha).
  - rewrite bump_priority_status. simpl. by rewrite bump_priority_idem.
Qed.

Lemma enqueue_existing_total p b r : jstatus r <> Expired -> is_Some (enqueue_existing p b r).
Proof.
  intros Hs. unfold enqueue_existing, status_in, status_is. destruct b; [by destruct (bool_decide _)|].
  repeat case_bool_decide; try done; [by destruct (_ <=? _)|]. destruct (jstatus r); set_solver.
Qed.

Lemma insert_attempts_outcome cfg env faults mk n k t :
  match insert_attempts cfg env faults mk n k t with
  | (Raised msg, _) => is_deadlock msg = false /\ is_lock_timeout msg = false
  | (Returned (Some r), t') => r ∈ rows t' /\ exists i, r = mk i
  | (Returned None, _) => True
  end.
Proof.
  revert k t. induction n as [|n IH]; intros k t; simpl; [done|].
  destruct (faults k) as [msg|].
  - destruct (is_deadlock msg && _) eqn:E; [apply IH|].
    destruct (is_deadlock msg || is_lock_timeout msg) eqn:E'; [done|]. by apply orb_false_iff in E'.
  - destruct (insert_unique _ _ _) as [[t' r]|] eqn:E; [|done].
    apply insert_unique_inv in E as (-> & -> & _). split; [apply insert_in; by right|eauto].
Qed.

(** ** Properties *)

(** C3. In every reachable state of the queue (any mix of enqueues, claims by any
    number of workers, completions, failures, sweeps and prunes): ids and
    (ecosystem, name, version) keys are unique, a claimed row has a token and a
    claim time, a pending row has neither, no two rows carry the same token, and
    without manual rescans no row is ever attempted more than
    [MAX_AUTO_ATTEMPTS] times. *)
Theorem queue_invariant cfg rescan s : reachable cfg rescan s -> queue_inv rescan s.
Proof. apply reachable_inv. Qed.

Definition ex_q1 : queue := (enqueue default_config quiet (fun _ => None) 10 "npm" "left-pad" "1.0" PNormal false empty_table).2.
Definition ex_q2 : queue := (cas_claim 20 "tok-a" 1 ex_q1).2.
Definition ex_q3 : queue := (sweep_stale_claims (seconds 3600) ex_q2).2.

Lemma ex_reachable : reachable default_config false (QState ex_q3 {["tok-a"]}).
Proof.
  eapply rtc_l; [apply (step_enqueue _ _ (fun _ => None) 10 "npm" "left-pad" "1.0" PNormal false); done|].
  eapply rtc_l; [apply (step_claim _ _ 20 "tok-a" 1); set_solver|].
  eapply rtc_l; [apply (step_sweep _ _ (seconds 3600))|].
  replace ({["tok-a"]} ∪ ∅ : gset string) with ({["tok-a"]} : gset string) by set_solver. apply rtc_refl.
Qed.

Lemma queue_invariant_witness :
  reachable default_config false (QState ex_q3 {["tok-a"]}) /\ queue_inv false (QState ex_q3 {["tok-a"]}).
Proof. split; [apply ex_reachable | apply (queue_invariant default_config false), ex_reachable]. Defined.

(** C4. Fencing.  Once a drawn token is on no row (the stale-claim sweep handed the
    job to somebody else), no later interleaving brings it back: every
    completion report of the old worker is refused and changes nothing. *)
Theorem stale_worker_fenced cfg rescan tok s s' now i r err :
  retired tok s -> rtc (qstep cfg rescan) s s' -> get i (q_table s') = Some r ->
  mark_done now r (Some tok) (q_table s') = (false, q_table s') /\
  mark_failed now r err (Some tok) (q_table s') = (false, q_table s').
Proof.
  intros Hret Hst [Hin _]%get_in. eapply steps_retired in Hret as [_ Hret]; [|done].
  unfold mark_done, mark_failed, job_mark_done, job_mark_failed.
  by rewrite (proj2 (token_refused_true tok r)) by auto.
Qed.

Definition ex_s3 : qstate := QState ex_q3 {["tok-a"]}.
Definition ex_s4 : qstate := QState (cas_claim 30 "tok-b" 1 ex_q3).2 ({["tok-b"]} ∪ {["tok-a"]}).

Lemma stale_worker_fenced_witness : exists r, get 1 (q_table ex_s4) = Some r /\ jstatus r = Claimed /\
  mark_done 40 r (Some "tok-a") (q_table ex_s4) = (false, q_table ex_s4).
Proof.
  exists (Job 1 "npm" "left-pad" "1.0" tt PNormal Claimed 2 (Some "tok-b") None 10 (Some 30) None).
  split; [vm_compute; reflexivity|]. split; [reflexivity|].
  refine (proj1 (stale_worker_fenced default_config false "tok-a" ex_s3 ex_s4 40 1 _ "e" _ _ _)).
  - split; [set_solver|]. intros r Hr. vm_compute in Hr. apply list_elem_of_singleton in Hr as ->. done.
  - eapply rtc_l; [apply (step_claim _ _ 30 "tok-b" 1); set_solver|apply rtc_refl].
  - vm_compute. reflexivity.
Defined.

(** C8. With no concurrent commit, [claim_next] finds work exactly when there is
    some: it returns [None] and leaves the table alone only if no row is
    pending; otherwise it takes one pending row, the oldest of its ecosystem
    and priority, and no row of a higher priority was pending. *)
Theorem claim_next_complete cfg choose now token t o t' :
  (forall k l, l <> [] -> choose k l ∈ l.*1) -> table_wf t ->
  claim_next cfg choose quiet now token t = (o, t') ->
  match o with
  | None => t' = t /\ forall r, r ∈ rows t -> jstatus r <> Pending
  | Some (r, tok) => tok = token /\ exists r0, oldest_of t (jpriority r0) (ecosystem r0) r0 /\
      r = take now token r0 /\ t' = (cas_claim now token (id r0) t).2 /\
      forall r', r' ∈ rows t -> jstatus r' = Pending ->
        PRIORITY_ORDER (jpriority r0) <= PRIORITY_ORDER (jpriority r')
  end.
Proof.
  intros Hch Hwf H. apply (claim_tiers_quiet _ _ Hch) in H; [|done].
  assert (forall p r, r ∈ rows t -> jstatus r = Pending -> jpriority r = p -> pending_at p r = true) as Hpa.
  { intros p r _ Hs Hp. unfold pending_at, status_is. by rewrite !bool_decide_true. }
  destruct o as [[r tok]|].
  - destruct H as (-> & prio & r0 & eco & before & after & Hl & Ho & -> & -> & Hb). split; [done|].
    pose proof Ho as (Hin & (Hp & Hpr & He)%claimable_true & _).
    exists r0. split_and!; [by rewrite Hpr, He|done..|].
    intros r' Hr' Hs. destruct (Z.le_gt_cases (PRIORITY_ORDER (jpriority r0)) (PRIORITY_ORDER (jpriority r'))); [done|].
    rewrite Hpr in *. assert (jpriority r' ∈ before) as Hin'.
    { clear - Hl H. revert H. generalize (jpriority r') as q. intros q H.
      destruct before as [|b1 [|b2 [|b3 before]]]; simplify_eq/=; [..|by destruct before];
        destruct q; simpl in *; try lia; set_solver. }
    specialize (Hb _ _ Hin' Hr'). by rewrite Hpa in Hb.
  - destruct H as [-> H]. split; [done|]. intros r Hr Hs.
    specialize (H (jpriority r) r). rewrite Hpa in H by done.
    enough (true = false) by discriminate. apply H; [destruct (jpriority r); set_solver|done].
Qed.

Definition first_choice (k : nat) (l : list (string * Q)) : string :=
  match l with ew :: _ => ew.1 | [] => EmptyString end.

Lemma first_choice_spec k (l : list (string * Q)) : l <> [] -> first_choice k l ∈ l.*1.
Proof. destruct l as [|ew l]; [done|]. intros _. simpl. set_solver. Qed.

Definition ex_q5 : queue :=
  (enqueue default_config quiet (fun _ => None) 5 "pypi" "requests" "2.0" PHigh false
    (enqueue default_config quiet (fun _ => None) 1 "npm" "left-pad" "1.0" PNormal false empty_table).2).2.

Lemma claim_next_complete_witness : exists r t',
  claim_next default_config first_choice quiet 9 "tok" ex_q5 = (Some (r, "tok"), t') /\
  name r = "requests" /\
  exists r0, oldest_of ex_q5 (jpriority r0) (ecosystem r0) r0 /\ r = take 9 "tok" r0.
Proof.
  exists (take 9 "tok" (new_row 5 "pypi" "requests" "2.0" PHigh 2)).
  exists (cas_claim 9 "tok" 2 ex_q5).2.
  assert (claim_next default_config first_choice quiet 9 "tok" ex_q5 =
    (Some (take 9 "tok" (new_row 5 "pypi" "requests" "2.0" PHigh 2), "tok"), (cas_claim 9 "tok" 2 ex_q5).2)) as E
    by (vm_compute; reflexivity).
  split; [exact E|]. split; [reflexivity|].
  destruct (claim_next_complete _ _ _ _ _ _ _ first_choice_spec
    (enqueue_wf _ _ _ _ _ _ _ _ _ (enqueue_wf _ _ _ _ _ _ _ _ _ table_wf_empty)) E)
    as (_ & r0 & Ho & Hr & _). exists r0. split; [exact Ho|exact Hr].
Defined.

(** C5. Whatever other sessions commit between each SELECT and its UPDATE, [env k]
    at the k-th of them: a claim that returns nothing wrote nothing, so the table is
    what their commits, in order, made of it; a claim that returns a row made its
    swap on that table, in which the row was pending, and the result is that table
    with this row taken (status, token, claim time, one more attempt) and every other
    row as those sessions left it.  [env] keeps the primary key unique. *)
Theorem claim_next_exclusive cfg choose env now token t o t' :
  (forall k t, table_wf t -> table_wf (env k t)) -> table_wf t ->
  claim_next cfg choose env now token t = (o, t') ->
  exists k, let tb := commits env k t in
  match o with
  | None => t' = tb
  | Some (r, tok) => tok = token /\ (0 < k)%nat /\ r ∈ rows t' /\
      (exists r0, r0 ∈ rows tb /\ jstatus r0 = Pending /\ id r0 = id r /\ key_of r = key_of r0 /\
         jstatus r = Claimed /\ claim_token r = Some token /\ claimed_at r = Some now /\
         attempts r = attempts r0 + 1) /\
      forall r', id r' <> id r -> (r' ∈ rows t' <-> r' ∈ rows tb)
  end.
Proof.
  intros Henv Hwf H. apply (claim_tiers_ends env Henv cfg choose now token _ t 0%nat) in H as (k & H & Htok); [|done].
  exists k. destruct o as [[r tok]|]; [|exact H].
  destruct H as (k0 & r0 & -> & Hr0 & Hp & Hr & ->). simpl in Hr. subst r.
  split; [by eapply Htok|]. split; [lia|].
  pose proof (proj2 (cas_where_true (id r0) r0) (conj eq_refl Hp)) as Hc. split; [|split].
  - apply update_where_in. exists r0. by rewrite Hc.
  - by exists r0.
  - intros r' Hne. split.
    + intros (r1 & Hr1 & ->)%update_where_in. destruct (cas_where (id r0) r1) eqn:E; [|done].
      apply cas_where_true in E as [E _]. by destruct Hne.
    + intros Hr'. apply update_where_in. exists r'. split; [done|].
      destruct (cas_where (id r0) r') eqn:E; [|done]. apply cas_where_true in E as [E _]. by destruct Hne.
Qed.

(** Another worker steals the first candidate between the SELECT and the UPDATE. *)
Definition thief (k : nat) (t : queue) : queue :=
  match k with O => (cas_claim 8 "thief" 1 t).2 | _ => t end.

Definition ex_q6 : queue :=
  (enqueue default_config quiet (fun _ => None) 5 "npm" "b" "1" PNormal false
    (enqueue default_config quiet (fun _ => None) 1 "npm" "a" "1" PNormal false empty_table).2).2.

Lemma thief_wf k t : table_wf t -> table_wf (thief k t).
Proof. destruct k; [apply cas_wf|done]. Qed.

Lemma claim_next_exclusive_witness : exists r t',
  claim_next default_config first_choice thief 9 "tok" ex_q6 = (Some (r, "tok"), t') /\
  name r = "b" /\ r ∈ rows t' /\
  exists k r0, r0 ∈ rows (commits thief k ex_q6) /\ jstatus r0 = Pending /\ id r0 = id r.
Proof.
  exists (take 9 "tok" (new_row 5 "npm" "b" "1" PNormal 2)).
  exists (cas_claim 9 "tok" 2 (thief 0 ex_q6)).2.
  assert (claim_next default_config first_choice thief 9 "tok" ex_q6 =
    (Some (take 9 "tok" (new_row 5 "npm" "b" "1" PNormal 2), "tok"), (cas_claim 9 "tok" 2 (thief 0 ex_q6)).2)) as E
    by (vm_compute; reflexivity).
  split; [exact E|]. split; [reflexivity|].
  destruct (claim_next_exclusive _ _ _ _ _ _ _ _ thief_wf
    (enqueue_wf _ _ _ _ _ _ _ _ _ (enqueue_wf _ _ _ _ _ _ _ _ _ table_wf_empty)) E)
    as (k & _ & _ & Hin & (r0 & Hr0 & Hp & Hid & _) & _).
  split; [exact Hin|]. exists k, r0. split; [exact Hr0|]. split; [exact Hp|exact Hid].
Defined.

(** What an automated enqueue may do to a row that is already there. *)
Definition undisturbed (r r' : row) : Prop :=
  id r' = id r /\ key_of r' = key_of r /\ attempts r' = attempts r /\
  PRIORITY_ORDER (jpriority r') <= PRIORITY_ORDER (jpriority r) /\
  (jstatus r = Claimed \/ jstatus r = Done ->
     jstatus r' = jstatus r /\ claim_token r' = claim_token r /\ claimed_at r' = claimed_at r) /\
  (jstatus r = Failed -> MAX_AUTO_ATTEMPTS <= attempts r -> r' = r).

Lemma undisturbed_refl r : undisturbed r r.
Proof. unfold undisturbed. split_and!; auto with lia. Qed.

Lemma undisturbed_bump p r : jstatus r <> Failed -> undisturbed r (bump_priority p r).
Proof.
  intros Hf. unfold undisturbed. rewrite bump_priority_order.
  unfold bump_priority. destruct (_ <? _); split_and!; try done; lia.
Qed.

Lemma undisturbed_existing p r r' : enqueue_existing p false r = Some r' -> undisturbed r r'.
Proof.
  rewrite enqueue_existing_auto. destruct (jstatus r) eqn:Es; intros [= <-];
    try (apply undisturbed_bump; congruence); try apply undisturbed_refl.
  destruct (Z.leb_spec MAX_AUTO_ATTEMPTS (attempts r)); [apply undisturbed_refl|].
  unfold undisturbed. rewrite bump_priority_order, Es. unfold bump_priority.
  destruct (_ <? _); split_and!; try done; simpl; try lia; naive_solver lia.
Qed.

(** An automated [enqueue] never disturbs a row that is in the table: claimed and
    done rows keep status, token and claim time, a row that used up its attempts is
    untouched, attempts are kept, and a priority is only ever raised. *)
Theorem enqueue_never_disturbs cfg faults now eco nm ver p t r :
  table_wf t -> r ∈ rows t -> exists r',
    r' ∈ rows (enqueue cfg quiet faults now eco nm ver p false t).2 /\ undisturbed r r'.
Proof.
  intros Hwf Hr.
  assert (forall n k, r ∈ rows (insert_attempts cfg quiet faults (new_row now eco nm ver p) n k t).2) as Hins.
  { intros n k. apply insert_attempts_inv with (P := fun t => r ∈ rows t); [done| |done].
    intros t0 t1 r1 H0 (-> & _)%insert_unique_inv. apply insert_in. by left. }
  pose proof (undisturbed_refl r) as Hsame.
  unfold enqueue. destruct (first _ t) as [r0|] eqn:E; [|eauto].
  destruct (enqueue_existing p false r0) as [r1|] eqn:E1; [|eauto].
  apply head_in, select_in in E as [Hr0 _]. cbn [snd].
  pose proof (enq_rel_id _ _ _ (enqueue_existing_rel _ _ _ _ E1)) as [Hid _].
  destruct (decide (id r = id r0)) as [Hrr|Hne].
  - assert (r = r0) as -> by (by eapply (row_id_inj t)).
    exists r1. split; [by eapply put_self|]. by eapply undisturbed_existing.
  - exists r. split; [|done]. apply put_other; [done|]. simpl. congruence.
Qed.

Lemma enqueue_never_disturbs_witness : exists r',
  r' ∈ rows (enqueue default_config quiet (fun _ => None) 50 "npm" "left-pad" "1.0" PHigh false ex_q2).2 /\
  jstatus r' = Claimed /\ claim_token r' = Some "tok-a".
Proof.
  destruct (enqueue_never_disturbs default_config (fun _ => None) 50 "npm" "left-pad" "1.0" PHigh ex_q2
    (take 20 "tok-a" (new_row 10 "npm" "left-pad" "1.0" PNormal 1)))
    as (r' & Hin & _ & _ & _ & _ & Hc & _).
  - apply (cas_wf 20 "tok-a"), enqueue_wf, table_wf_empty.
  - vm_compute. left.
  - exists r'. split; [exact Hin|]. destruct Hc as (H1 & H2 & _); [left; reflexivity|].
    split; [exact H1|exact H2].
Defined.

(** The result of [enqueue], with any faults and any commits of other sessions: a
    returned row has the requested key and is in the table; an exception is only
    ever propagated when it is neither a deadlock nor a lock/statement timeout. *)
Lemma enqueue_result_row cfg env faults now eco nm ver p b t :
  match enqueue cfg env faults now eco nm ver p b t with
  | (Returned (Some r), t') => key_of r = (eco, nm, ver) /\ r ∈ rows t'
  | (Returned None, _) => True
  | (Raised msg, _) => is_deadlock msg = false /\ is_lock_timeout msg = false
  end.
Proof.
  assert (forall n k, match insert_attempts cfg env faults (new_row now eco nm ver p) n k t with
    | (Returned (Some r), t') => key_of r = (eco, nm, ver) /\ r ∈ rows t'
    | (Returned None, _) => True
    | (Raised msg, _) => is_deadlock msg = false /\ is_lock_timeout msg = false end) as Hins.
  { intros n k. pose proof (insert_attempts_outcome cfg env faults (new_row now eco nm ver p) n k t) as H.
    destruct (insert_attempts _ _ _ _ _ _ _) as [[[r|]|msg] t']; try done.
    destruct H as [H [i ->]]. split; [done|exact H]. }
  unfold enqueue. destruct (first _ t) as [r0|] eqn:E; [|apply Hins].
  destruct (enqueue_existing p b r0) as [r1|] eqn:E1; [|apply Hins].
  apply head_in, select_in in E as [Hr0 Hk%same_key_true].
  apply enqueue_existing_rel, enq_rel_id in E1 as [Hid Hk']. split; [congruence|by eapply put_self].
Qed.

(** The scheduler's weights.  With at least two ecosystems every weight is at
    least the reserved floor [reserved / n] and at most the cap, so with a positive
    reserved fraction no ecosystem with pending rows is ever starved of weight. *)
Theorem eco_weights_bounds cfg es counts w :
  (1 < length es)%nat -> (forall e, e ∈ es -> 0 <= dget_or e 0 counts) ->
  w ∈ eco_weights cfg es counts ->
  (base_of cfg (length es) <= w /\ w <= cap_of cfg (length es))%Q /\
  ((0 < SCHED_RESERVED_FRACTION cfg)%Q -> (0 < w)%Q).
Proof.
  intros Hn Hc Hw. pose proof (eco_weights_between cfg counts es w Hc Hn Hw) as [H1 H2].
  split; [done|]. intros Hr. eapply Qlt_le_trans; [|exact H1]. unfold base_of.
  apply Qlt_shift_div_l.
  - change 0%Q with (inject_Z 0). rewrite <- Zlt_Qlt. lia.
  - rewrite Qmult_0_l. unfold reserved_of. eapply Qlt_le_trans; [|apply Q.le_max_r].
    apply Q.min_glb_lt; [done|lra].
Qed.

Lemma eco_weights_bounds_witness :
  Qle (base_of default_config 2) (nth 1 (eco_weights default_config ["npm"; "pypi"] [("npm", 99); ("pypi", 1)]) 0%Q).
Proof.
  refine (proj1 (proj1 (eco_weights_bounds default_config ["npm"; "pypi"] [("npm", 99); ("pypi", 1)] _ _ _ _))).
  - simpl. lia.
  - intros e He. apply elem_of_cons in He as [->|He]; [vm_compute; discriminate|].
    apply list_elem_of_singleton in He as ->. vm_compute. discriminate.
  - vm_compute. right. left.
Defined.
