(* ===== verification/DetQueue.v ===== *)
(** * The detonation queue ([pkgward/detonation_queue.py])

    Sandbox jobs decoupled from the scan, with the two worker-side transitions
    of [detonation_worker.py] that write queue rows ([_mark_failed] and
    [_requeue_or_fail]).  Unlike the scan queue, [attempts] counts detonation
    failures, not claims. *)
From S2P Require Import Prelude PyStr Sql Findings Jobs.

Open Scope list_scope.
Open Scope Z_scope.

(** ** Constants and rows *)

Definition MAX_AUTO_ATTEMPTS : Z := 3.
Definition STALE_CLAIM_TIMEOUT_SECONDS : Z := 900.
Definition CLEAN_TTL_HOURS : Z := 24.
Definition CLEAN_BACKLOG_CAP : Z := 50000.

(** The columns only [DetonationQueue] has. *)
Record DetExtra := mkDet {
  scan_id : Z;
  version_id : Z;
  archive_kind : string;
  static_verdict : verdict;
}.

Abbreviation drow := (job DetExtra).
Abbreviation dqueue := (table drow).

Definition scan_of (r : drow) : Z := scan_id (extra r).

Definition new_job (now : timestamp) (d : DetExtra) (eco nm ver : string) (prio : priority) (i : Z) : drow :=
  Job i eco nm ver d prio Pending 0 None None now None None.

(** ** Operations *)

(** [enqueue]: deduplicated per scan by the unique constraint. *)
Definition enqueue (now : timestamp) (d : DetExtra) (eco nm ver : string) (prio : priority)
    (t : dqueue) : option drow * dqueue :=
  match insert_unique scan_of (new_job now d eco nm ver prio) t with
  | Some (t', r) => (Some r, t')
  | None => (None, t)
  end.

Definition claimable (prio : priority) (eco : string) (r : drow) : bool :=
  status_is Pending r && bool_decide (jpriority r = prio) && String.eqb (ecosystem r) eco.
Definition pending_at (prio : priority) (r : drow) : bool :=
  status_is Pending r && bool_decide (jpriority r = prio).

Definition cas_where (i : Z) (r : drow) : bool := (id r =? i) && status_is Pending r.
Definition take (now : timestamp) (token : string) (r : drow) : drow :=
  set_claim (Some token) (Some now) (set_status Claimed r).
Definition cas_claim (now : timestamp) (token : string) (i : Z) (t : dqueue) : Z * dqueue :=
  (count_where (cas_where i) t, update_where (cas_where i) (take now token) t).

(** high/normal oldest first, low newest first. *)
Definition candidate (prio : priority) (eco : string) (t : dqueue) : option drow :=
  match prio with
  | PLow => first_desc enqueued_at (claimable prio eco) t
  | _ => first_asc enqueued_at (claimable prio eco) t
  end.

(** One pass over the shuffled ecosystems of a tier; [env k] are the commits
    of other sessions between the k-th SELECT and its UPDATE. *)
Fixpoint claim_ecos (env : nat -> dqueue -> dqueue) (now : timestamp) (token : string)
    (prio : priority) (ecos : list string) (k : nat) (t : dqueue) : option drow * dqueue * nat :=
  match ecos with
  | [] => (None, t, k)
  | eco :: ecos' =>
      match candidate prio eco t with
      | Some r =>
          let t := env k t in
          let '(rowcount, t') := cas_claim now token (id r) t in
          if rowcount =? 1 then (get (id r) t', t', S k)
          else claim_ecos env now token prio ecos' (S k) t'
      | None => claim_ecos env now token prio ecos' k t
      end
  end.

Definition tier_ecosystems (prio : priority) (t : dqueue) : list string :=
  dedup (map ecosystem (select (pending_at prio) t)).

Fixpoint claim_tiers (shuffle : list string -> list string) (env : nat -> dqueue -> dqueue)
    (now : timestamp) (token : string) (prios : list priority) (k : nat) (t : dqueue)
    : option (drow * string) * dqueue :=
  match prios with
  | [] => (None, t)
  | prio :: prios' =>
      match tier_ecosystems prio t with
      | [] => claim_tiers shuffle env now token prios' k t
      | ecos =>
          match claim_ecos env now token prio (shuffle ecos) k t with
          | (Some r, t', _) => (Some (r, token), t')
          | (None, t', k') => claim_tiers shuffle env now token prios' k' t'
          end
      end
  end.

Definition claim_next shuffle env now token (t : dqueue) : option (drow * string) * dqueue :=
  claim_tiers shuffle env now token [PHigh; PNormal; PLow] 0 t.

Definition mark_done (now : timestamp) (r : drow) (token : option string) (t : dqueue) : bool * dqueue :=
  job_mark_done now r token t.

(** The error text is stored as it is. *)
Definition mark_failed (now : timestamp) (r : drow) (error : string) (token : option string)
    (t : dqueue) : bool * dqueue :=
  job_mark_failed now r error token t.

Definition sweep_stale_claims (now : timestamp) (t : dqueue) : Z * dqueue :=
  job_sweep MAX_AUTO_ATTEMPTS (seconds STALE_CLAIM_TIMEOUT_SECONDS) now t.

(** ** [expire_stale_clean] *)

Definition pending_low (r : drow) : bool := pending_at PLow r.
Definition expire (now : timestamp) (r : drow) : drow := set_finished (Some now) (set_status Expired r).
Definition id_in (ids : list Z) (r : drow) : bool := bool_decide (id r ∈ ids).

(** The oldest [n] pending low jobs: [ORDER BY enqueued_at ASC LIMIT n]. *)
Definition oldest_low (n : Z) (t : dqueue) : list Z :=
  map id (List.firstn (Z.to_nat n) (ssort (asc enqueued_at) (select pending_low t))).

Definition expire_stale_clean (now : timestamp) (ttl_hours cap : Z) (t : dqueue) : Z * dqueue :=
  let cutoff := now - hours ttl_hours in
  let old := fun r => pending_low r && (enqueued_at r <? cutoff) in
  let n1 := count_where old t in
  let t1 := update_where old (expire now) t in
  let remaining := count_where pending_low t1 in
  if cap <? remaining then
    let ids := oldest_low (remaining - cap) t1 in
    match ids with
    | [] => (n1, t1)
    | _ => (n1 + count_where (id_in ids) t1, update_where (id_in ids) (expire now) t1)
    end
  else (n1, t1).

(** ** Worker-side transitions ([detonation_worker.py]) *)

(** [reason[:4000]] *)
Definition clip (reason : string) : string := str_take 4000 reason.

Definition worker_mark_failed (now : timestamp) (job_id : Z) (token reason : string) (t : dqueue) : dqueue :=
  match get job_id t with
  | Some q => (mark_failed now q (clip reason) (Some token) t).2
  | None => t
  end.

(** [q is None or q.status != "claimed" or q.claim_token != job["token"]]. *)
Definition owns (token : string) (q : drow) : bool :=
  status_is Claimed q && bool_decide (claim_token q = Some token).

Definition after_failure (now : timestamp) (reason : string) (q : drow) : drow :=
  let q := set_attempts (attempts q + 1) q in
  if MAX_AUTO_ATTEMPTS <=? attempts q
  then set_finished (Some now) (set_last_error (Some (clip reason)) (set_status Failed q))
  else set_claim None None (set_status Pending q).

Definition requeue_or_fail (now : timestamp) (job_id : Z) (token reason : string) (t : dqueue) : dqueue :=
  match get job_id t with
  | Some q => if owns token q then put (after_failure now reason q) t else t
  | None => t
  end.

(** ** The queue as a transition system *)

Record dstate := DState { d_table : dqueue; d_tokens : gset string }.

Inductive dstep : dstate -> dstate -> Prop :=
| step_enqueue now d eco nm ver p t U :
    dstep (DState t U) (DState (enqueue now d eco nm ver p t).2 U)
| step_claim now tok i t U :
    tok ∉ U -> dstep (DState t U) (DState (cas_claim now tok i t).2 ({[tok]} ∪ U))
| step_done now i r tok t U :
    get i t = Some r -> dstep (DState t U) (DState (mark_done now r (Some tok) t).2 U)
| step_failed now i tok reason t U :
    dstep (DState t U) (DState (worker_mark_failed now i tok reason t) U)
| step_requeue now i tok reason t U :
    dstep (DState t U) (DState (requeue_or_fail now i tok reason t) U)
| step_sweep now t U :
    dstep (DState t U) (DState (sweep_stale_claims now t).2 U)
| step_expire now ttl cap t U :
    dstep (DState t U) (DState (expire_stale_clean now ttl cap t).2 U).

Definition reachable (s : dstate) : Prop := rtc dstep (DState empty_table ∅) s.

(** A live job has failures left; at most [MAX_AUTO_ATTEMPTS] failures are ever
    counted; only low-priority jobs expire. *)
Definition row_inv (U : gset string) (r : drow) : Prop :=
  claim_wf r /\ (forall tok, claim_token r = Some tok -> tok ∈ U) /\
  0 <= attempts r <= MAX_AUTO_ATTEMPTS /\
  (jstatus r = Pending \/ jstatus r = Claimed -> attempts r < MAX_AUTO_ATTEMPTS) /\
  (jstatus r = Expired -> jpriority r = PLow).

Definition det_inv (s : dstate) : Prop :=
  table_wf (d_table s) /\ unique scan_of (d_table s) /\
  (forall r, r ∈ rows (d_table s) -> row_inv (d_tokens s) r) /\ tokens_unique (d_table s).

Lemma det_cas_where_true i r : cas_where i r = true <-> id r = i /\ jstatus r = Pending.
Proof. unfold cas_where, status_is. rewrite andb_true_iff, bool_decide_eq_true. bool_to_Z. done. Qed.

Lemma pending_low_true r : pending_low r = true <-> jstatus r = Pending /\ jpriority r = PLow.
Proof. unfold pending_low, pending_at, status_is. by rewrite andb_true_iff, !bool_decide_eq_true. Qed.

Lemma owns_true tok q : owns tok q = true <-> jstatus q = Claimed /\ claim_token q = Some tok.
Proof. unfold owns, status_is. by rewrite andb_true_iff, !bool_decide_eq_true. Qed.

Lemma det_row_inv_take U now tok r : jstatus r = Pending -> row_inv U r -> row_inv ({[tok]} ∪ U) (take now tok r).
Proof. unfold row_inv, claim_wf; simpl. intros Hp (H1 & H2 & H3 & H4 & H5). split_and!; try naive_solver; set_solver. Qed.

Lemma det_row_inv_tokens U tok r : row_inv U r -> row_inv ({[tok]} ∪ U) r.
Proof. unfold row_inv. set_solver. Qed.

Lemma det_row_inv_done U now r : row_inv U r -> row_inv U (set_finished (Some now) (set_status Done r)).
Proof. unfold row_inv, claim_wf; simpl. naive_solver. Qed.

Lemma row_inv_failed U now e r :
  row_inv U r -> row_inv U (set_finished (Some now) (set_last_error e (set_status Failed r))).
Proof. unfold row_inv, claim_wf; simpl. naive_solver. Qed.

Lemma row_inv_expire U now r : pending_low r = true -> row_inv U r -> row_inv U (expire now r).
Proof. intros [Hp Hl]%pending_low_true. unfold row_inv, claim_wf; simpl. naive_solver. Qed.

Lemma det_row_inv_release U now r : row_inv U r -> row_inv U (release_stale MAX_AUTO_ATTEMPTS now r).
Proof.
  intros Hi. unfold release_stale. destruct (Z.leb_spec MAX_AUTO_ATTEMPTS (attempts r)).
  - by apply row_inv_failed.
  - unfold row_inv, claim_wf in *; simpl. naive_solver.
Qed.

Lemma row_inv_failure U now reason tok q :
  owns tok q = true -> row_inv U q -> row_inv U (after_failure now reason q).
Proof.
  intros [Hc _]%owns_true (H1 & H2 & H3 & H4 & H5). specialize (H4 (or_intror Hc)).
  unfold after_failure. simpl. destruct (Z.leb_spec MAX_AUTO_ATTEMPTS (attempts q + 1));
    unfold row_inv, claim_wf in *; simpl; split_and!; try naive_solver; try lia; naive_solver lia.
Qed.

Lemma det_row_inv_new U now d eco nm ver p i : row_inv U (new_job now d eco nm ver p i).
Proof. unfold row_inv, claim_wf, MAX_AUTO_ATTEMPTS; simpl. split_and!; try done; intros; lia. Qed.

(** Updating rows in place without changing identity, scan or token. *)
Lemma inv_update (p : drow -> bool) (f : drow -> drow) t U :
  (forall r, p r = true -> id (f r) = id r /\ scan_of (f r) = scan_of r /\
     (claim_token (f r) = None \/ claim_token (f r) = claim_token r)) ->
  (forall r, r ∈ rows t -> p r = true -> row_inv U r -> row_inv U (f r)) ->
  det_inv (DState t U) -> det_inv (DState (update_where p f t) U).
Proof.
  intros Hf Hi (Hwf & Hu & Hr & Ht). split_and!; cbn [d_table d_tokens] in *.
  - apply table_wf_update; [|done]. intros r _ Hp. apply Hf, Hp.
  - apply unique_update; [|done]. intros r _ Hp. apply Hf, Hp.
  - intros r' (r & Hin & ->)%update_where_in. destruct (p r) eqn:E; auto.
  - eapply tokens_unique_sub; [|exact Ht]. intros r' (r & Hin & ->)%update_where_in.
    destruct (p r) eqn:E; [|right; eauto]. destruct (Hf r E) as (H1 & _ & [H2|H2]); [by left|right; eauto].
Qed.

Lemma det_inv_put t U r r' :
  r ∈ rows t -> id r' = id r -> scan_of r' = scan_of r ->
  claim_token r' = None \/ claim_token r' = claim_token r -> row_inv U r' ->
  det_inv (DState t U) -> det_inv (DState (put r' t) U).
Proof.
  intros Hin Hid Hs Htok Hi (Hwf & Hu & Hr & Ht). split_and!; cbn [d_table d_tokens] in *.
  - auto with pk.
  - apply unique_update; [|done]. intros r0 Hr0 E. rewrite Hs.
    apply Z.eqb_eq in E. simpl in E. f_equal. eapply row_id_inj; [exact Hwf|..]; try done. simpl. congruence.
  - intros r1 [->|[? _]]%put_in; auto.
  - by eapply tokens_unique_put.
Qed.

Lemma expire_inv now ttl cap t U :
  det_inv (DState t U) -> det_inv (DState (expire_stale_clean now ttl cap t).2 U).
Proof.
  intros Hinv. unfold expire_stale_clean.
  set (old := fun r : drow => pending_low r && (enqueued_at r <? now - hours ttl)).
  assert (det_inv (DState (update_where old (expire now) t) U)) as H1.
  { apply inv_update; [naive_solver| |done]. intros r _ [Hp _]%andb_true_iff. by apply row_inv_expire. }
  set (t1 := update_where old (expire now) t) in *.
  destruct (cap <? count_where pending_low t1); [|done].
  destruct (oldest_low _ t1) as [|i ids] eqn:Eo; [done|]. rewrite <- Eo. cbn [snd].
  apply inv_update; [naive_solver| |done]. intros r Hr Hids. apply row_inv_expire.
  apply bool_decide_eq_true in Hids. unfold oldest_low in Hids.
  apply list_elem_of_In, in_map_iff in Hids as (r1 & Hid & Hin).
  assert (r1 ∈ select pending_low t1) as Hr1.
  { apply (ssort_in (asc enqueued_at)). eapply firstn_elem. by apply list_elem_of_In. }
  apply select_in in Hr1 as [Hr1 Hp]. destruct H1 as [Hwf _].
  by rewrite <- (row_id_inj t1 r1 r Hwf Hr1 Hr Hid).
Qed.

Lemma dstep_inv s s' : dstep s s' -> det_inv s -> det_inv s'.
Proof.
  intros Hst Hinv. pose proof Hinv as (Hwf & Hu & Hr & Ht).
  destruct Hst as [now d eco nm ver p t U|now tok i t U Hfresh|now i r tok t U Hg|now i tok reason t U
    |now i tok reason t U|now t U|now ttl cap t U]; cbn [d_table d_tokens] in *.
  - unfold enqueue. destruct (insert_unique _ _ t) as [[t' r]|] eqn:E; [|done]. cbn [snd].
    pose proof (unique_insert _ _ _ _ _ E Hu). apply insert_unique_inv in E as (-> & -> & _).
    split_and!; cbn [d_table d_tokens]; [by apply table_wf_insert|done| |].
    + intros r [?| ->]%insert_in; [auto|apply det_row_inv_new].
    + eapply tokens_unique_sub; [|exact Ht]. intros r [?| ->]%insert_in; [right; eauto|by left].
  - split_and!; cbn [d_table d_tokens].
    + by apply table_wf_update.
    + by apply unique_update.
    + intros r' (r & Hin & ->)%update_where_in. destruct (cas_where i r) eqn:E.
      * apply det_cas_where_true in E as [_ Hp]. apply det_row_inv_take; auto.
      * apply det_row_inv_tokens; auto.
    + apply tokens_unique_claim with (i := i) (tok := tok); try done.
      * by intros r [? _]%det_cas_where_true.
      * intros r Hin E. destruct (Hr r Hin) as (_ & Htok & _). auto.
  - apply get_in in Hg as [Hin _]. unfold mark_done, job_mark_done. destruct (token_refused _ r); [done|].
    cbn [snd]. eapply det_inv_put; eauto. by apply det_row_inv_done; auto.
  - unfold worker_mark_failed. destruct (get i t) as [q|] eqn:Hg; [|done]. apply get_in in Hg as [Hin _].
    unfold mark_failed, job_mark_failed. destruct (token_refused _ q); [done|]. cbn [snd].
    eapply det_inv_put; eauto. by apply row_inv_failed; auto.
  - unfold requeue_or_fail. destruct (get i t) as [q|] eqn:Hg; [|done]. apply get_in in Hg as [Hin _].
    destruct (owns tok q) eqn:Ho; [|done].
    eapply (det_inv_put _ _ q); eauto; try (unfold after_failure; simpl; destruct (_ <=? _); simpl; auto; done).
    eapply row_inv_failure; eauto.
  - unfold sweep_stale_claims, job_sweep. cbn [snd]. apply inv_update; [| |done].
    + intros r _. unfold release_stale. destruct (_ <=? _); simpl; auto.
    + intros r _ _. apply det_row_inv_release.
  - by apply expire_inv.
Qed.

Lemma det_inv_init : det_inv (DState empty_table ∅).
Proof. split_and!; simpl; [apply table_wf_empty|constructor|intros r Hr; set_solver|intros r r' tok Hr; set_solver]. Qed.

Lemma det_reachable_inv s : reachable s -> det_inv s.
Proof.
  unfold reachable. intros Hr. remember (DState empty_table ∅) as s0 eqn:E.
  assert (det_inv s0) as Hi by (subst; apply det_inv_init). clear E.
  induction Hr; eauto using dstep_inv.
Qed.

(** ** Bounding the clean backlog *)

Section Expire.
Variables (now ttl cap : Z) (t : dqueue).
Hypothesis Hwf : table_wf t.

Let old (r : drow) : bool := pending_low r && (enqueued_at r <? now - hours ttl).
Let t1 : dqueue := update_where old (expire now) t.
Let kept : Z := count_where pending_low t1.
Let ids : list Z := oldest_low (kept - cap) t1.
Let sorted_low : list drow := ssort (asc enqueued_at) (select pending_low t1).

Lemma expire_table : (expire_stale_clean now ttl cap t).2 =
  if cap <? kept then update_where (id_in ids) (expire now) t1 else t1.
Proof.
  unfold expire_stale_clean. fold old. fold t1. fold kept. fold ids.
  destruct (cap <? kept); [|done]. destruct ids; [|done]. cbn [snd].
  destruct t1 as [rs q]. unfold update_where; simpl. f_equal.
  induction rs as [|r rs IH]; [done|]. by rewrite fmap_cons, <- IH.
Qed.

Lemma t1_wf : table_wf t1.
Proof using Hwf. by apply table_wf_update. Qed.

Lemma expire_not_low r : pending_low (expire now r) = false.
Proof. done. Qed.

Lemma t1_low r : r ∈ rows t1 -> pending_low r = true -> r ∈ rows t /\ now - hours ttl <= enqueued_at r.
Proof.
  intros (r0 & Hr0 & ->)%update_where_in. destruct (old r0) eqn:E; [done|].
  intros Hl. split; [done|]. unfold old in E. rewrite Hl in E. simpl in E. bool_to_Z. done.
Qed.

Lemma ids_low r : r ∈ rows t1 -> id_in ids r = true -> pending_low r = true /\
  r ∈ List.firstn (Z.to_nat (kept - cap)) sorted_low.
Proof using Hwf.
  intros Hr Hi%bool_decide_eq_true. unfold ids, oldest_low in Hi. fold sorted_low in Hi.
  apply list_elem_of_In, in_map_iff in Hi as (r1 & Hid & Hin%list_elem_of_In).
  pose proof (firstn_elem _ _ _ Hin) as Hs. apply ssort_in, select_in in Hs as [Hr1 Hp].
  pose proof (row_id_inj t1 r1 r t1_wf Hr1 Hr Hid). by subst.
Qed.

(** What survives the cap lies behind the victims in the sorted backlog. *)
Lemma survivors r : r ∈ select pending_low (update_where (id_in ids) (expire now) t1) ->
  r ∈ rows t1 /\ pending_low r = true /\ r ∈ List.skipn (Z.to_nat (kept - cap)) sorted_low.
Proof using Hwf.
  intros [(r0 & Hr0 & ->)%update_where_in Hp]%select_in.
  destruct (id_in ids r0) eqn:E; [done|]. split; [done|]. split; [done|].
  assert (r0 ∈ sorted_low) as Hs by (by apply ssort_in, select_in).
  rewrite <- (take_drop (Z.to_nat (kept - cap)) sorted_low) in Hs.
  apply elem_of_app in Hs as [Hs|Hs]; [|done]. exfalso.
  enough (id_in ids r0 = true) by congruence. apply bool_decide_eq_true.
  apply list_elem_of_In, in_map_iff. exists r0. split; [done|by apply list_elem_of_In].
Qed.

Lemma select_update_survivors :
  select pending_low (update_where (id_in ids) (expire now) t1) =
  bfilter (fun r => negb (id_in ids r)) (select pending_low t1).
Proof using Hwf.
  assert (forall rs, (forall r, r ∈ rs -> r ∈ rows t1) ->
    bfilter pending_low ((fun r => if id_in ids r then expire now r else r) <$> rs) =
    bfilter (fun r => negb (id_in ids r)) (bfilter pending_low rs)) as H; [|by apply H].
  induction rs as [|r rs IH]; intros Hin; [done|].
  rewrite fmap_cons. destruct (id_in ids r) eqn:E.
  - destruct (ids_low r (Hin r ltac:(set_solver)) E) as [Hp _]. cbn [List.filter].
    rewrite expire_not_low, Hp. cbn [List.filter]. rewrite E. apply IH. set_solver.
  - cbn [List.filter]. destruct (pending_low r); cbn [List.filter]; rewrite ?E; cbn [negb];
      [f_equal|]; apply IH; set_solver.
Qed.

Lemma backlog_bounded : count_where pending_low (expire_stale_clean now ttl cap t).2 <= Z.max 0 cap.
Proof using Hwf.
  rewrite expire_table. destruct (Z.ltb_spec cap kept) as [Hc|Hc]; [|fold kept; lia].
  unfold count_where. rewrite select_update_survivors.
  assert (length (bfilter (fun r => negb (id_in ids r)) (select pending_low t1)) =
          length (bfilter (fun r => negb (id_in ids r)) sorted_low)) as ->.
  { unfold sorted_low. apply Permutation_length.
    assert (forall l1 l2, l1 ≡ₚ l2 -> bfilter (fun r => negb (id_in ids r)) l1 ≡ₚ
      bfilter (fun r => negb (id_in ids r)) l2) as Hperm.
    { induction 1; simpl; repeat case_match; eauto using perm_swap, perm_skip, perm_trans. }
    apply Hperm. symmetry. apply ssort_perm. }
  rewrite <- (take_drop (Z.to_nat (kept - cap)) sorted_low), List.filter_app, length_app.
  rewrite (bfilter_none _ (List.firstn _ _)).
  - simpl. pose proof (bfilter_length (fun r => negb (id_in ids r)) (List.skipn (Z.to_nat (kept - cap)) sorted_low)) as Hl.
    rewrite length_drop in Hl. unfold sorted_low in Hl at 2. rewrite ssort_length in Hl.
    unfold kept, count_where in *. lia.
  - intros r Hr. apply negb_false_iff, bool_decide_eq_true. unfold ids, oldest_low. fold sorted_low.
    apply list_elem_of_In, in_map_iff. exists r. split; [done|by apply list_elem_of_In].
Qed.

Lemma oldest_expire_first r0 r :
  r0 ∈ rows t -> r ∈ rows t -> pending_low r0 = true -> pending_low r = true ->
  r ∈ rows (expire_stale_clean now ttl cap t).2 -> r0 ∉ rows (expire_stale_clean now ttl cap t).2 ->
  enqueued_at r0 <= enqueued_at r.
Proof using Hwf.
  intros Hr0 Hr Hp0 Hp. rewrite expire_table. intros Hin Hout.
  assert (r ∈ rows t1) as Hr1.
  { destruct (cap <? kept); [|done].
    assert (r ∈ select pending_low (update_where (id_in ids) (expire now) t1)) as Hs by (by apply select_in).
    by apply survivors in Hs as [? _]. }
  destruct (t1_low r Hr1 Hp) as [_ Hge]. destruct (old r0) eqn:Eo.
  { unfold old in Eo. rewrite Hp0 in Eo. simpl in Eo. bool_to_Z. lia. }
  assert (r0 ∈ rows t1) as Hr01 by (apply update_where_in; exists r0; by rewrite Eo).
  destruct (cap <? kept) eqn:Ec; [|done].
  assert (id_in ids r0 = true) as Hid.
  { destruct (id_in ids r0) eqn:E; [done|]. destruct Hout. apply update_where_in. exists r0. by rewrite E. }
  destruct (ids_low r0 Hr01 Hid) as [_ H0].
  assert (r ∈ select pending_low (update_where (id_in ids) (expire now) t1)) as Hs by (by apply select_in).
  apply survivors in Hs as (_ & _ & H1).
  pose proof (ssort_sorted (asc enqueued_at) (asc_total _) (asc_trans _) (select pending_low t1)) as Hso.
  fold sorted_low in Hso. rewrite <- (take_drop (Z.to_nat (kept - cap)) sorted_low) in Hso.
  revert Hso H0 H1. generalize (List.firstn (Z.to_nat (kept - cap)) sorted_low) as l1.
  generalize (List.skipn (Z.to_nat (kept - cap)) sorted_low) as l2. clear.
  intros l2 l1. induction l1 as [|x l1 IH]; [set_solver|]. simpl. intros Hs.
  inversion Hs as [|? ? Hs' Hx]; subst. intros [->|H0]%elem_of_cons H2; [|by apply IH].
  rewrite Forall_forall in Hx. specialize (Hx r ltac:(set_solver)). unfold asc in Hx. lia.
Qed.

End Expire.

(** ** Properties *)

(** In every reachable state of the detonation queue: one job per scan, tokens
    unique, claims well formed, at most [MAX_AUTO_ATTEMPTS] failures counted on any
    job and fewer on any job still pending or claimed, and only low-priority
    (clean) jobs are ever expired. *)
Theorem det_queue_invariant s : reachable s -> det_inv s.
Proof. apply det_reachable_inv. Qed.

Definition ex_extra : DetExtra := mkDet 7 3 "npm_tarball" VSuspicious.
Definition ex_d1 : dqueue := (enqueue 10 ex_extra "npm" "left-pad" "1.0" PHigh empty_table).2.
Definition ex_d2 : dqueue := (cas_claim 20 "tok-a" 1 ex_d1).2.

Lemma ex_det_reachable : reachable (DState ex_d2 ({["tok-a"]} ∪ ∅)).
Proof.
  eapply rtc_l; [apply (step_enqueue 10 ex_extra "npm" "left-pad" "1.0" PHigh)|].
  eapply rtc_l; [apply (step_claim 20 "tok-a" 1); set_solver|]. apply rtc_refl.
Qed.

Lemma det_queue_invariant_witness : rows ex_d2 <> [] /\ det_inv (DState ex_d2 ({["tok-a"]} ∪ ∅)).
Proof. split; [vm_compute; discriminate | apply det_queue_invariant, ex_det_reachable]. Defined.

(** The stale sweep of the detonation queue never fails a job in a reachable
    state: its [claim_timeout] branch is dead, because claims are not counted and
    a job with its failures used up is no longer claimed.  A job whose worker dies
    every time is therefore handed out again without bound. *)
Theorem det_sweep_never_fails s now r r' :
  reachable s -> r ∈ rows (d_table s) -> jstatus r <> Failed ->
  r' ∈ rows (sweep_stale_claims now (d_table s)).2 -> id r' = id r ->
  jstatus r' <> Failed /\ attempts r' = attempts r.
Proof.
  intros Hre Hr Hs Hr' Hid. apply det_reachable_inv in Hre as (Hwf & _ & Hrow & _).
  apply update_where_in in Hr' as (r0 & Hr0 & ->).
  assert (r0 = r) as ->.
  { eapply row_id_inj; [exact Hwf|done..|]. simpl. destruct (stale _ now r0); [|done].
    by rewrite release_stale_id in Hid. }
  destruct (stale _ now r) eqn:E; [|done]. rewrite release_stale_attempts. split; [|done].
  unfold stale, status_is in E. apply andb_true_iff in E as [E%bool_decide_eq_true _].
  destruct (Hrow r Hr0) as (_ & _ & _ & Hlive & _). specialize (Hlive (or_intror E)).
  unfold release_stale. by destruct (Z.leb_spec MAX_AUTO_ATTEMPTS (attempts r)); [lia|].
Qed.

Lemma det_sweep_never_fails_witness : exists r',
  r' ∈ rows (sweep_stale_claims (seconds 5000) ex_d2).2 /\ jstatus r' = Pending /\ jstatus r' <> Failed.
Proof.
  exists (set_claim None None (set_status Pending (take 20 "tok-a" (new_job 10 ex_extra "npm" "left-pad" "1.0" PHigh 1)))).
  split; [vm_compute; left|]. split; [reflexivity|].
  refine (proj1 (det_sweep_never_fails (DState ex_d2 ({["tok-a"]} ∪ ∅)) (seconds 5000)
    (take 20 "tok-a" (new_job 10 ex_extra "npm" "left-pad" "1.0" PHigh 1)) _ ex_det_reachable _ _ _ _)).
  - vm_compute. left.
  - discriminate.
  - vm_compute. left.
  - reflexivity.
Defined.

(** [expire_stale_clean] bounds the best-effort backlog: afterwards at most [cap]
    low jobs are pending, none older than the TTL; every job that was not a pending
    low job is untouched; and among the clean jobs the oldest are given up first. *)
Theorem expire_stale_clean_spec now ttl cap t :
  table_wf t ->
  let t' := (expire_stale_clean now ttl cap t).2 in
  count_where pending_low t' <= Z.max 0 cap /\
  (forall r, r ∈ rows t' -> pending_low r = true -> now - hours ttl <= enqueued_at r) /\
  (forall r, r ∈ rows t -> pending_low r = false -> r ∈ rows t') /\
  (forall r0 r, r0 ∈ rows t -> r ∈ rows t -> pending_low r0 = true -> pending_low r = true ->
     r ∈ rows t' -> r0 ∉ rows t' -> enqueued_at r0 <= enqueued_at r).
Proof.
  intros Hwf t'. split_and!.
  - by apply backlog_bounded.
  - intros r Hr Hp. unfold t' in Hr. rewrite expire_table in Hr. destruct (cap <? _).
    + assert (r ∈ select pending_low (update_where (id_in (oldest_low (count_where pending_low
        (update_where (fun r => pending_low r && (enqueued_at r <? now - hours ttl)) (expire now) t) - cap)
        (update_where (fun r => pending_low r && (enqueued_at r <? now - hours ttl)) (expire now) t)))
        (expire now) (update_where (fun r => pending_low r && (enqueued_at r <? now - hours ttl)) (expire now) t)))
        as Hs by (by apply select_in).
      apply survivors in Hs as (Hr1 & _ & _); [|done]. by eapply t1_low.
    + by eapply t1_low.
  - intros r Hr Hp. unfold t'. rewrite expire_table.
    assert (r ∈ rows (update_where (fun r => pending_low r && (enqueued_at r <? now - hours ttl)) (expire now) t)) as Hr1.
    { apply update_where_in. exists r. by rewrite Hp. }
    destruct (cap <? _); [|done]. apply update_where_in. exists r. split; [done|].
    destruct (id_in _ r) eqn:E; [|done]. apply ids_low in E as [E _]; [congruence|done..].
  - intros r0 r. by apply oldest_expire_first.
Qed.

Definition ex_low (at_ sid : Z) (t : dqueue) : dqueue :=
  (enqueue at_ (mkDet sid sid "sdist" VClean) "pypi" "p" "1" PLow t).2.
Definition ex_backlog : dqueue := ex_low (seconds 30) 3 (ex_low (seconds 10) 2 (ex_low (seconds 20) 1 empty_table)).

Lemma det_enqueue_wf now d eco nm ver p t : table_wf t -> table_wf (enqueue now d eco nm ver p t).2.
Proof.
  intros Hwf. unfold enqueue. destruct (insert_unique _ _ t) as [[t' r]|] eqn:E; [|done].
  apply insert_unique_inv in E as (-> & _). by apply table_wf_insert.
Qed.

Lemma expire_stale_clean_spec_witness :
  map enqueued_at (select pending_low (expire_stale_clean (seconds 40) 24 1 ex_backlog).2) = [seconds 30] /\
  count_where pending_low (expire_stale_clean (seconds 40) 24 1 ex_backlog).2 <= Z.max 0 1.
Proof.
  split; [vm_compute; reflexivity|].
  apply (proj1 (expire_stale_clean_spec (seconds 40) 24 1 ex_backlog
    (det_enqueue_wf _ _ _ _ _ _ _ (det_enqueue_wf _ _ _ _ _ _ _ (det_enqueue_wf _ _ _ _ _ _ _ table_wf_empty))))).
Defined.
