(* ===== verification/Lease.v ===== *)
(** * The lease specification of the two queues

    What the scan queue and the detonation queue promise their workers, without
    their columns: a job is idle, leased under a token, or closed, and a token is
    drawn for one lease only.  [LeaseSystem] is the interface; both queues
    implement it by a forward simulation, and what follows from the
    specification holds for both. *)
From S2P Require Import Prelude PyStr Sql Findings Jobs ScanQueue DetQueue.

Open Scope list_scope.
Open Scope Z_scope.

(** ** The specification *)

Inductive phase := Idle | Leased (tok : string) (since : timestamp) | Closed.

#[export] Instance phase_eq_dec : EqDecision phase.
Proof. solve_decision. Defined.

Record lstate := LState { l_jobs : gmap Z phase; l_used : gset string }.

(** What a client asks for.  The label says everything the effect may depend on. *)
Inductive label :=
| Open                                           (* a job is offered *)
| Lease (i : Z) (tok : string) (now : timestamp) (* a worker asks for job [i] *)
| Close (i : Z) (tok : string)                   (* the holder of [tok] reports the end of job [i] *)
| GiveBack (i : Z) (tok : string)                (* the holder of [tok] could not do job [i] *)
| Break (cutoff : timestamp)                     (* leases older than [cutoff] are ended *)
| Shed                                           (* jobs nobody took are given up *)
| Forget.                                        (* ended jobs are dropped *)

Definition leased_under (tok : string) (p : option phase) : bool :=
  match p with Some (Leased tok' _) => bool_decide (tok' = tok) | _ => false end.

(** The jobs after a request.  A request that finds the job in another phase, or
    under another token, changes nothing. *)
Definition effect (l : label) (m m' : gmap Z phase) : Prop :=
  match l with
  | Open => m' = m \/ exists i, (m !! i = None \/ m !! i = Some Closed) /\ m' = <[i := Idle]> m
  | Lease i tok now => m' = if decide (m !! i = Some Idle) then <[i := Leased tok now]> m else m
  | Close i tok => m' = if leased_under tok (m !! i) then <[i := Closed]> m else m
  | GiveBack i tok =>
      if leased_under tok (m !! i) then m' = <[i := Idle]> m \/ m' = <[i := Closed]> m else m' = m
  | Break cutoff => forall i,
      match m !! i with
      | Some (Leased _ since) =>
          if since <? cutoff then m' !! i = Some Idle \/ m' !! i = Some Closed else m' !! i = m !! i
      | p => m' !! i = p
      end
  | Shed => forall i, m' !! i = m !! i \/ (m !! i = Some Idle /\ m' !! i = Some Closed)
  | Forget => forall i, m' !! i = m !! i \/ (m !! i = Some Closed /\ m' !! i = None)
  end.

(** A token is drawn for one request only. *)
Definition draw (l : label) (U U' : gset string) : Prop :=
  match l with Lease _ tok _ => tok ∉ U /\ U' = {[tok]} ∪ U | _ => U' = U end.

Definition lstep (l : label) (s s' : lstate) : Prop :=
  effect l (l_jobs s) (l_jobs s') /\ draw l (l_used s) (l_used s').

Definition lrun : relation lstate := rtc (fun s s' => exists l, lstep l s s').

Definition l_init : lstate := LState ∅ ∅.

Definition held (i : Z) (tok : string) (s : lstate) : Prop := leased_under tok (l_jobs s !! i) = true.

(** At most one job is leased under a token, and it was drawn. *)
Definition lease_inv (s : lstate) : Prop :=
  (forall i tok, held i tok s -> tok ∈ l_used s) /\
  (forall i j tok, held i tok s -> held j tok s -> i = j).

Definition retired (tok : string) (s : lstate) : Prop :=
  tok ∈ l_used s /\ forall i, ~ held i tok s.

Lemma leased_under_insert tok (i j : Z) p (m : gmap Z phase) :
  leased_under tok (<[i := p]> m !! j) = true ->
  (i = j /\ leased_under tok (Some p) = true) \/ leased_under tok (m !! j) = true.
Proof. destruct (decide (i = j)) as [->|]; [rewrite lookup_insert_eq; auto|rewrite lookup_insert_ne by done; auto]. Qed.

(** The heart of the specification: who is leased after a step was leased before
    it, or has just been given a token never drawn. *)
Lemma lstep_held_back l s s' j tok :
  lstep l s s' -> held j tok s' ->
  held j tok s \/ (tok ∉ l_used s /\ exists now, l = Lease j tok now).
Proof.
  unfold held. destruct s as [m U], s' as [m' U']. intros [He Hd]; simpl in *. intros Hh. destruct l; simpl in *.
  - destruct He as [->|(i & _ & ->)]; [by left|]. apply leased_under_insert in Hh as [[_ ?]|?]; [done|by left].
  - subst m'. destruct (decide _) as [E|]; [|by left]. apply leased_under_insert in Hh as [[-> Ht]|?]; [|by left].
    simpl in Ht. apply bool_decide_eq_true in Ht as ->. right. split; [by destruct Hd|eauto].
  - subst m'. destruct (leased_under _ (m !! i)); [|by left]. apply leased_under_insert in Hh as [[_ ?]|?]; [done|by left].
  - destruct (leased_under _ (m !! i)); [|subst; by left].
    destruct He as [-> | ->]; apply leased_under_insert in Hh as [[_ ?]|?]; done || by left.
  - left. specialize (He j). destruct (m !! j) as [[|tok' since|]|]; [by rewrite He in Hh| |by rewrite He in Hh..].
    destruct (since <? cutoff); [destruct He as [He|He]|]; by rewrite He in Hh.
  - left. destruct (He j) as [E|[_ E]]; by rewrite E in Hh.
  - left. destruct (He j) as [E|[_ E]]; by rewrite E in Hh.
Qed.

Lemma lstep_used l s s' : lstep l s s' -> l_used s ⊆ l_used s'.
Proof. intros [_ Hd]. destruct l; simpl in Hd; set_solver. Qed.

Lemma lstep_lease_used i tok now s s' : lstep (Lease i tok now) s s' -> tok ∈ l_used s'.
Proof. intros [_ [_ ->]]. set_solver. Qed.

Lemma lstep_inv l s s' : lstep l s s' -> lease_inv s -> lease_inv s'.
Proof.
  intros Hst [Hu Hx]. split.
  - intros i tok [Hh|[_ [now ->]]]%(lstep_held_back l s s' i tok Hst); [|by eapply lstep_lease_used].
    apply (lstep_used _ _ _ Hst). by eapply Hu.
  - intros i j tok Hi%(lstep_held_back l s s' i tok Hst) Hj%(lstep_held_back l s s' j tok Hst).
    destruct Hi as [Hi|[Hn [now ->]]], Hj as [Hj|[Hn' [now' E]]]; [eauto|..].
    + destruct Hn'. by eapply Hu.
    + destruct Hn. by eapply Hu.
    + by injection E.
Qed.

Lemma lstep_retired tok l s s' : lstep l s s' -> retired tok s -> retired tok s'.
Proof.
  intros Hst [Hu Hx]. split; [by apply (lstep_used _ _ _ Hst)|].
  intros j [Hh|[Hn _]]%(lstep_held_back l s s' j tok Hst); [by apply (Hx j)|done].
Qed.

(** A lease stands, or its token is retired. *)
Lemma lstep_held i tok l s s' : lstep l s s' -> lease_inv s -> held i tok s -> held i tok s' \/ retired tok s'.
Proof.
  intros Hst [Hu Hx] Hl. pose proof (Hu i tok Hl) as Hin. unfold held at 1.
  destruct (leased_under tok (l_jobs s' !! i)) eqn:E; [by left|right]. split; [by apply (lstep_used _ _ _ Hst)|].
  intros j Hh. pose proof Hh as [Hj|[? _]]%(lstep_held_back l s s' j tok Hst); [|done].
  rewrite (Hx j i tok Hj Hl) in Hh. unfold held in Hh. congruence.
Qed.

Lemma lrun_inv s s' : lrun s s' -> lease_inv s -> lease_inv s'.
Proof. induction 1 as [|s s1 s' [l Hst]]; eauto using lstep_inv. Qed.
Lemma lrun_retired tok s s' : lrun s s' -> retired tok s -> retired tok s'.
Proof. induction 1 as [|s s1 s' [l Hst]]; eauto using lstep_retired. Qed.
Lemma lrun_held i tok s s' : lrun s s' -> lease_inv s -> held i tok s -> held i tok s' \/ retired tok s'.
Proof.
  intros Hr. induction Hr as [s|s s1 s' [l Hst] Hr IH]; intros Hi Hl; [by left|].
  destruct (lstep_held i tok _ _ _ Hst Hi Hl) as [?|?]; [eauto using lstep_inv|right; by eapply lrun_retired].
Qed.
Lemma lease_inv_init : lease_inv l_init.
Proof. split; [intros i tok|intros i j tok]; unfold held; cbn; by rewrite lookup_empty. Qed.

(** ** Abstraction of a queue table *)

Section Abs.
Context {X : Type}.
Implicit Types (r : job X) (t : table (job X)).

Definition phase_of r : phase :=
  match jstatus r with
  | Pending => Idle
  | Claimed => Leased (default "" (claim_token r)) (default 0 (claimed_at r))
  | _ => Closed
  end.

Definition abs_jobs t : gmap Z phase := list_to_map ((fun r => (id r, phase_of r)) <$> rows t).

Lemma abs_lookup t i : table_wf t -> abs_jobs t !! i = phase_of <$> get i t.
Proof.
  intros Hwf. unfold abs_jobs. destruct (get i t) as [r|] eqn:E; cbn [fmap option_fmap option_map].
  - apply get_in in E as [Hr <-]. apply elem_of_list_to_map_1; [|apply list_elem_of_fmap; eauto].
    rewrite <- list_fmap_compose. apply Hwf.
  - apply not_elem_of_list_to_map_1. rewrite <- list_fmap_compose. intros (r & E' & Hr)%list_elem_of_fmap.
    by apply (proj1 (get_None i t) E r Hr).
Qed.

Lemma abs_update p (f : job X -> job X) t i :
  table_wf t -> (forall r, r ∈ rows t -> p r = true -> id (f r) = id r) ->
  abs_jobs (update_where p f t) !! i = (fun r => phase_of (if p r then f r else r)) <$> get i t.
Proof.
  intros Hwf Hf. rewrite abs_lookup by (by apply table_wf_update). rewrite get_update by done.
  by destruct (get i t).
Qed.

Lemma abs_put r0 r t :
  table_wf t -> get (id r0) t = Some r0 -> id r = id r0 -> abs_jobs (put r t) = <[id r0 := phase_of r]> (abs_jobs t).
Proof.
  intros Hwf Hg Hid. apply map_eq. intros i. rewrite abs_lookup by (by apply table_wf_put).
  destruct (decide (i = id r0)) as [->|Hne].
  - by rewrite lookup_insert_eq, (get_put _ _ r0).
  - rewrite lookup_insert_ne by done. rewrite get_put_ne by (simpl; congruence). by rewrite abs_lookup.
Qed.

Lemma abs_insert (mk : Z -> job X) t :
  table_wf t -> (forall i, row_id (mk i) = i) -> (forall i, phase_of (mk i) = Idle) ->
  effect Open (abs_jobs t) (abs_jobs (insert mk t).1).
Proof.
  intros Hwf Hid Hph. right. exists (seq t). split.
  - left. rewrite abs_lookup by done. destruct (get (seq t) t) as [r|] eqn:E; [|done].
    apply get_in in E as [Hr E]. destruct Hwf as [_ Hlt]. rewrite Forall_forall in Hlt. specialize (Hlt r Hr). lia.
  - apply map_eq. intros i. rewrite abs_lookup by (by apply table_wf_insert). destruct (decide (i = seq t)) as [->|Hne].
    + rewrite get_insert by done. cbn. by rewrite Hph, lookup_insert_eq.
    + by rewrite get_insert_ne, lookup_insert_ne, abs_lookup.
Qed.

(** The compare-and-swap leases the job it names if that job is idle. *)
Lemma abs_cas (w : job X -> bool) (take : job X -> job X) tok now i t :
  table_wf t -> (forall r, w r = true <-> id r = i /\ jstatus r = Pending) ->
  (forall r, id (take r) = id r /\ phase_of (take r) = Leased tok now) ->
  effect (Lease i tok now) (abs_jobs t) (abs_jobs (update_where w take t)).
Proof.
  intros Hwf Hw Hk. simpl. apply map_eq. intros j.
  rewrite abs_update by (done || intros r _ _; apply Hk). rewrite (abs_lookup _ i) by done.
  destruct (decide (phase_of <$> get i t = Some Idle)) as [E|E]; [destruct (decide (j = i)) as [->|Hne]|].
  - rewrite lookup_insert_eq. destruct (get i t) as [r|] eqn:Eg; [|done]. simplify_eq/=.
    assert (w r = true) as ->; [|by rewrite (proj2 (Hk r))]. apply get_in in Eg as [_ Eg]. apply Hw. split; [done|].
    unfold phase_of in E. by destruct (jstatus r).
  - rewrite lookup_insert_ne, abs_lookup by done. destruct (get j t) as [r|] eqn:Eg; [|done]. simpl.
    destruct (w r) eqn:Ew; [|done]. apply get_in in Eg as [_ Eg]. apply Hw in Ew as [Ei _]. simpl in Eg. congruence.
  - rewrite abs_lookup by done. destruct (get j t) as [r|] eqn:Eg; [|done]. simpl.
    destruct (w r) eqn:Ew; [|done]. exfalso. apply E. pose proof Eg as [_ Ei]%get_in. apply Hw in Ew as [Ej Ep].
    simpl in Ei. replace i with j by congruence. rewrite Eg. simpl. unfold phase_of. by rewrite Ep.
Qed.

(** A report closes the job it names if the job is leased under its token. *)
Lemma leased_under_phase tok r : claim_wf r ->
  leased_under tok (Some (phase_of r)) = bool_decide (jstatus r = Claimed /\ claim_token r = Some tok).
Proof.
  intros [Hc _]. unfold leased_under, phase_of.
  destruct (jstatus r) eqn:E; try (symmetry; apply bool_decide_false; naive_solver).
  destruct (Hc eq_refl) as [[tok' ->] _]. simpl. apply bool_decide_ext. naive_solver.
Qed.

Lemma finish_phase r : jstatus r ∈ [Done; Failed; Expired] -> phase_of r = Closed.
Proof. unfold phase_of. rewrite !elem_of_cons, elem_of_nil. by intros [->|[->|[->|[]]]]. Qed.

Lemma abs_finish r r' tok t :
  table_wf t -> get (id r) t = Some r -> claim_wf r -> id r' = id r -> phase_of r' = Closed ->
  effect (Close (id r) tok) (abs_jobs t) (abs_jobs (if token_refused (Some tok) r then t else put r' t)).
Proof.
  intros Hwf Hg Hc Hid Hp. unfold effect. rewrite abs_lookup, Hg by done. cbn [fmap option_fmap option_map]. rewrite leased_under_phase by done.
  destruct (token_refused (Some tok) r) eqn:E.
  - apply token_refused_true in E. by rewrite bool_decide_false by naive_solver.
  - apply token_refused_false in E. rewrite (abs_put r), Hp by done.
    destruct (decide (jstatus r = Claimed)) as [Es|Es]; [by rewrite bool_decide_true|].
    rewrite bool_decide_false by naive_solver. apply insert_id. rewrite abs_lookup, Hg by done. simpl. f_equal.
    destruct Hc as [_ Hn]. destruct (jstatus r) eqn:Es'; try done; [destruct (Hn eq_refl); congruence|..];
      apply finish_phase; rewrite Es'; set_solver.
Qed.

Lemma abs_mark_done now r tok t :
  table_wf t -> get (id r) t = Some r -> claim_wf r ->
  effect (Close (id r) tok) (abs_jobs t) (abs_jobs (job_mark_done now r (Some tok) t).2).
Proof.
  intros Hwf Hg Hc. unfold job_mark_done.
  pose proof (abs_finish r (set_finished (Some now) (set_status Done r)) tok t Hwf Hg Hc eq_refl eq_refl) as H.
  by destruct (token_refused (Some tok) r).
Qed.

Lemma abs_mark_failed now r e tok t :
  table_wf t -> get (id r) t = Some r -> claim_wf r ->
  effect (Close (id r) tok) (abs_jobs t) (abs_jobs (job_mark_failed now r e (Some tok) t).2).
Proof.
  intros Hwf Hg Hc. unfold job_mark_failed.
  pose proof (abs_finish r (set_finished (Some now) (set_last_error (Some e) (set_status Failed r))) tok t Hwf Hg Hc eq_refl eq_refl) as H.
  by destruct (token_refused (Some tok) r).
Qed.

(** The stale sweep ends exactly the leases older than its timeout. *)
Lemma abs_sweep m timeout now t :
  table_wf t -> (forall r, r ∈ rows t -> claim_wf r) ->
  effect (Break (now - timeout)) (abs_jobs t) (abs_jobs (job_sweep m timeout now t).2).
Proof.
  intros Hwf Hc i. unfold job_sweep. cbn [snd]. rewrite abs_update by (done || intros; apply release_stale_id).
  rewrite abs_lookup by done. destruct (get i t) as [r|] eqn:Eg; [|done]. apply get_in in Eg as [Hr _]. simpl.
  destruct (Hc r Hr) as [Hcl _]. unfold stale, status_is. unfold phase_of at 1 2 3 4 6. destruct (jstatus r) eqn:Es; simpl.
  2: { destruct (Hcl eq_refl) as [[tok Et] [since Ec]]. rewrite Et, Ec. simpl.
    destruct (since <? now - timeout); [|unfold phase_of; by rewrite Es, Et, Ec].
    unfold release_stale, phase_of. destruct (m <=? attempts r); simpl; auto. }
  all: unfold phase_of; by rewrite Es.
Qed.

End Abs.

(** ** The scan queue implements the specification *)

Definition scan_abs (s : qstate) : lstate := LState (abs_jobs (q_table s)) (q_tokens s).

(** The steps of the queue, each with the request of the specification it stands for. *)
Inductive scan_does (cfg : QueueConfig) (rescan : bool) : label -> qstate -> qstate -> Prop :=
| does_enqueue faults now eco nm ver p b t U :
    (b = true -> rescan = true) ->
    scan_does cfg rescan Open (QState t U) (QState (ScanQueue.enqueue cfg quiet faults now eco nm ver p b t).2 U)
| does_claim now tok i t U :
    tok ∉ U ->
    scan_does cfg rescan (Lease i tok now) (QState t U) (QState (ScanQueue.cas_claim now tok i t).2 ({[tok]} ∪ U))
| does_done now i r tok t U :
    get i t = Some r ->
    scan_does cfg rescan (Close i tok) (QState t U) (QState (ScanQueue.mark_done now r (Some tok) t).2 U)
| does_failed now i r err tok t U :
    get i t = Some r ->
    scan_does cfg rescan (Close i tok) (QState t U) (QState (ScanQueue.mark_failed now r err (Some tok) t).2 U)
| does_sweep now t U :
    scan_does cfg rescan (Break (now - seconds ScanQueue.STALE_CLAIM_TIMEOUT_SECONDS)) (QState t U)
      (QState (ScanQueue.sweep_stale_claims now t).2 U)
| does_prune d now t U :
    scan_does cfg rescan Forget (QState t U) (QState (prune_terminal cfg d now t).2 U).

Lemma scan_does_step cfg rescan s s' : qstep cfg rescan s s' <-> exists l, scan_does cfg rescan l s s'.
Proof. split; [intros []; eexists; by constructor|intros [l []]; by econstructor]. Qed.

(** An [enqueue] that finds the row reopens it only if it was ended. *)
Lemma existing_phase p b (r r' : row) :
  enqueue_existing p b r = Some r' -> id r' = id r /\ (phase_of r' = phase_of r \/ (phase_of r' = Idle /\ phase_of r = Closed)).
Proof.
  intros H. split; [by apply enqueue_existing_rel, enq_rel_id in H as [? _]|]. revert H.
  assert (phase_of (bump_priority p r) = phase_of r) as Hb by (unfold bump_priority; by destruct (_ <? _)).
  assert (phase_of (bump_priority p (reset_row r)) = Idle) as Hz by (unfold bump_priority; by destruct (_ <? _)).
  destruct b; [|rewrite enqueue_existing_auto].
  - unfold enqueue_existing, status_in. case_bool_decide as Hs; intros [= <-]; [by left|right]. split; [done|].
    unfold phase_of. destruct (jstatus r); set_solver.
  - destruct (jstatus r) eqn:Es; intros [= <-]; auto. destruct (_ <=? _); [by left|right]. split; [done|].
    unfold phase_of. by rewrite Es.
Qed.

Lemma scan_insert_sim cfg faults now eco nm ver p t n k :
  table_wf t ->
  effect Open (abs_jobs t) (abs_jobs (insert_attempts cfg quiet faults (new_row now eco nm ver p) n k t).2).
Proof.
  intros Hwf. revert k. induction n as [|n IH]; intros k; cbn [insert_attempts]; [by left|].
  destruct (faults k) as [msg|].
  - destruct (is_deadlock msg && _); [apply IH|]. destruct (is_deadlock msg || is_lock_timeout msg); by left.
  - unfold quiet. destruct (insert_unique key_of _ t) as [[t' r]|] eqn:E; [|by left].
    apply insert_unique_inv in E as (-> & _). by apply abs_insert.
Qed.

Lemma scan_enqueue_sim cfg faults now eco nm ver p rescan t :
  table_wf t ->
  effect Open (abs_jobs t) (abs_jobs (ScanQueue.enqueue cfg quiet faults now eco nm ver p rescan t).2).
Proof.
  intros Hwf. unfold ScanQueue.enqueue. destruct (first _ t) as [r|] eqn:E; [|by apply scan_insert_sim].
  destruct (enqueue_existing p rescan r) as [r1|] eqn:E1; [|by apply scan_insert_sim].
  apply existing_phase in E1 as [Hid Hp]. apply head_in, select_in in E as [Hr _]. cbn [snd].
  assert (get (id r) t = Some r) as Hg by exact (get_unique t r Hwf Hr). rewrite (abs_put r) by done.
  destruct Hp as [-> | [-> Hc]]; [left|right].
  - apply insert_id. by rewrite abs_lookup, Hg.
  - exists (id r). split; [right|done]. by rewrite abs_lookup, Hg, <- Hc.
Qed.

Lemma scan_sim cfg rescan l s s' :
  queue_inv rescan s -> scan_does cfg rescan l s s' -> lstep l (scan_abs s) (scan_abs s').
Proof.
  unfold scan_abs. intros (Hwf & _ & Hr & _) Hst.
  assert (forall r, r ∈ rows (q_table s) -> claim_wf r) as Hc by (intros r H; apply (Hr r H)).
  destruct Hst as [faults now eco nm ver p b t U Hb|now tok i t U Hfresh|now i r tok t U Hg
    |now i r err tok t U Hg|now t U|d now t U]; cbn [q_table q_tokens] in *;
    (split; [|try done]); cbn [l_jobs l_used].
  - by apply scan_enqueue_sim.
  - apply abs_cas; [done|apply cas_where_true|done].
  - pose proof Hg as [Hin <-]%get_in. apply abs_mark_done; auto.
  - pose proof Hg as [Hin <-]%get_in. apply abs_mark_failed; auto.
  - by apply abs_sweep.
  - unfold prune_terminal. cbn [snd]. intros i. rewrite !abs_lookup, get_delete by (done || by apply table_wf_delete).
    destruct (get i t) as [r|]; [|by left]. simpl. destruct (prunable _ r) eqn:E; [right|by left].
    apply andb_true_iff in E as [Hp%bool_decide_eq_true _]. split; [|done]. simpl. f_equal. apply finish_phase. set_solver.
Qed.

(** ** The detonation queue implements it too *)

Definition det_abs (s : dstate) : lstate := LState (abs_jobs (d_table s)) (d_tokens s).

Inductive det_does : label -> dstate -> dstate -> Prop :=
| det_enqueue now d eco nm ver p t U :
    det_does Open (DState t U) (DState (DetQueue.enqueue now d eco nm ver p t).2 U)
| det_claim now tok i t U :
    tok ∉ U -> det_does (Lease i tok now) (DState t U) (DState (DetQueue.cas_claim now tok i t).2 ({[tok]} ∪ U))
| det_done now i r tok t U :
    get i t = Some r -> det_does (Close i tok) (DState t U) (DState (DetQueue.mark_done now r (Some tok) t).2 U)
| det_failed now i tok reason t U :
    det_does (Close i tok) (DState t U) (DState (worker_mark_failed now i tok reason t) U)
| det_requeue now i tok reason t U :
    det_does (GiveBack i tok) (DState t U) (DState (requeue_or_fail now i tok reason t) U)
| det_sweep now t U :
    det_does (Break (now - seconds DetQueue.STALE_CLAIM_TIMEOUT_SECONDS)) (DState t U)
      (DState (DetQueue.sweep_stale_claims now t).2 U)
| det_expire now ttl cap t U :
    det_does Shed (DState t U) (DState (expire_stale_clean now ttl cap t).2 U).

Lemma det_does_step s s' : dstep s s' <-> exists l, det_does l s s'.
Proof. split; [intros []; eexists; by constructor|intros [l []]; by econstructor]. Qed.

(** Expiring waiting jobs sheds them. *)
Lemma expire_sim (p : drow -> bool) now t m :
  table_wf t -> (forall r, r ∈ rows t -> p r = true -> jstatus r = Pending) ->
  effect Shed m (abs_jobs t) -> effect Shed m (abs_jobs (update_where p (expire now) t)).
Proof.
  intros Hwf Hp He i. specialize (He i). rewrite abs_update by done. rewrite abs_lookup in He by done.
  destruct (get i t) as [r|] eqn:Eg; [|exact He]. apply get_in in Eg as [Hr _]. simpl in *. destruct (p r) eqn:Ep; [|exact He].
  right. split; [|done]. destruct He as [<-|[E _]]; [|done]. unfold phase_of. by rewrite (Hp r Hr Ep).
Qed.

Lemma give_back_sim now i tok reason t :
  table_wf t -> (forall r, r ∈ rows t -> claim_wf r) ->
  effect (GiveBack i tok) (abs_jobs t) (abs_jobs (requeue_or_fail now i tok reason t)).
Proof.
  intros Hwf Hc. simpl. unfold requeue_or_fail. rewrite abs_lookup by done. destruct (get i t) as [q|] eqn:Hg; [|done].
  pose proof Hg as [Hin <-]%get_in. simpl fmap. rewrite leased_under_phase by auto.
  destruct (owns tok q) eqn:Ho.
  - rewrite bool_decide_true by (by apply owns_true). change (row_id q) with (id q) in *.
    rewrite (abs_put q) by (done || unfold after_failure; by destruct (_ <=? _)).
    unfold after_failure. destruct (_ <=? _); [by right|by left].
  - rewrite bool_decide_false; [done|]. intros H%owns_true. congruence.
Qed.

Lemma det_sim l s s' : det_inv s -> det_does l s s' -> lstep l (det_abs s) (det_abs s').
Proof.
  unfold det_abs. intros (Hwf & _ & Hr & _) Hst.
  assert (forall r, r ∈ rows (d_table s) -> claim_wf r) as Hc by (intros r H; apply (Hr r H)).
  destruct Hst as [now d eco nm ver p t U|now tok i t U Hfresh|now i r tok t U Hg|now i tok reason t U
    |now i tok reason t U|now t U|now ttl cap t U]; cbn [d_table d_tokens] in *;
    (split; [|try done]); cbn [l_jobs l_used].
  - unfold DetQueue.enqueue. destruct (insert_unique scan_of _ t) as [[t' r]|] eqn:E; [|by left].
    apply insert_unique_inv in E as (-> & _). by apply abs_insert.
  - apply abs_cas; [done|apply det_cas_where_true|done].
  - pose proof Hg as [Hin <-]%get_in. apply abs_mark_done; auto.
  - unfold worker_mark_failed. destruct (get i t) as [q|] eqn:Hg.
    + pose proof Hg as [Hin <-]%get_in. apply abs_mark_failed; auto.
    + simpl. by rewrite abs_lookup, Hg.
  - by apply give_back_sim.
  - by apply abs_sweep.
  - rewrite expire_table by done. set (old := fun r : drow => _). set (t1 := update_where old _ t).
    assert (effect Shed (abs_jobs t) (abs_jobs t1)) as H1.
    { apply expire_sim; [done| |by left]. intros r _ [[Hp _]%pending_low_true _]%andb_true_iff. done. }
    destruct (cap <? _); [|done]. apply expire_sim; [by apply table_wf_update| |done].
    intros r Hin Hid. destruct (ids_low now ttl cap t Hwf r Hin Hid) as [[Hp _]%pending_low_true _]. done.
Qed.

(** ** The interface *)

(** A system of labelled steps, each of which is the step of the specification that
    its label asks for. *)
Class LeaseSystem {S : Type} (step : label -> S -> S -> Prop) := {
  ls_init : S;
  ls_abs : S -> lstate;
  ls_inv : S -> Prop;
  ls_init_ok : ls_inv ls_init /\ ls_abs ls_init = l_init;
  ls_preserved : forall l s s', step l s s' -> ls_inv s -> ls_inv s';
  ls_sim : forall l s s', ls_inv s -> step l s s' -> lstep l (ls_abs s) (ls_abs s');
}.

Lemma scan_does_inv cfg rescan l s s' : scan_does cfg rescan l s s' -> queue_inv rescan s -> queue_inv rescan s'.
Proof. intros H. apply (qstep_inv cfg), scan_does_step. eauto. Qed.

Lemma det_does_inv l s s' : det_does l s s' -> det_inv s -> det_inv s'.
Proof. intros H. apply dstep_inv, det_does_step. eauto. Qed.

#[export] Instance scan_queue_lease cfg rescan : LeaseSystem (scan_does cfg rescan) := {|
  ls_init := QState empty_table ∅; ls_abs := scan_abs; ls_inv := queue_inv rescan;
  ls_init_ok := conj (queue_inv_init rescan) eq_refl;
  ls_preserved := scan_does_inv cfg rescan; ls_sim := scan_sim cfg rescan;
|}.

#[export] Instance det_queue_lease : LeaseSystem det_does := {|
  ls_init := DState empty_table ∅; ls_abs := det_abs; ls_inv := det_inv;
  ls_init_ok := conj det_inv_init eq_refl; ls_preserved := det_does_inv; ls_sim := det_sim;
|}.

Section Clients.
Context {S : Type} (step : label -> S -> S -> Prop) {LS : LeaseSystem step}.

Definition runs : relation S := rtc (fun s s' => exists l, step l s s').

Lemma ls_run s s' : ls_inv s -> runs s s' -> ls_inv s' /\ lrun (ls_abs s) (ls_abs s').
Proof.
  intros Hi Hr. induction Hr as [s|s s1 s' [l Hst] _ IH]; [done|].
  destruct IH as [Hi' Hr']; [by eapply ls_preserved|]. split; [done|].
  eapply rtc_l; [|exact Hr']. exists l. by apply ls_sim.
Qed.

Lemma ls_reached s : runs ls_init s -> ls_inv s /\ lease_inv (ls_abs s).
Proof.
  intros Hr. destruct ls_init_ok as [Hi E]. destruct (ls_run _ _ Hi Hr) as [Hi' Hs]. split; [done|].
  eapply lrun_inv; [exact Hs|]. rewrite E. apply lease_inv_init.
Qed.

(** Once a lease is gone its token is never leased again. *)
Lemma ls_lost s1 s2 s3 i j tok :
  runs ls_init s1 -> runs s1 s2 -> runs s2 s3 ->
  held i tok (ls_abs s1) -> ~ held i tok (ls_abs s2) -> ~ held j tok (ls_abs s3).
Proof.
  intros Hr H12 H23 Hl Hn. destruct (ls_reached _ Hr) as [Hi Hli].
  destruct (ls_run _ _ Hi H12) as [Hi2 Hs2]. destruct (ls_run _ _ Hi2 H23) as [_ Hs3].
  destruct (lrun_held i tok _ _ Hs2 Hli Hl) as [?|Hret]; [done|]. by apply (lrun_retired tok _ _ Hs3 Hret).
Qed.

Lemma ls_one_holder s i j tok : runs ls_init s -> held i tok (ls_abs s) -> held j tok (ls_abs s) -> i = j.
Proof. intros Hr. destruct (ls_reached _ Hr) as [_ [_ Hx]]. apply Hx. Qed.

End Clients.

(** ** Properties *)

(** C6. The scan queue refines the lease specification, request by request.  From a
    reachable state: an enqueue opens one new or ended job or changes nothing; a
    claim of job [i] leases it, under a token never drawn, exactly if it is idle;
    [mark_done] and [mark_failed] with a token close the job they name exactly if it
    is leased under that token; the stale sweep ends every lease older than its
    timeout and touches nothing else; a prune drops ended jobs only.  And these are
    all the steps of the queue. *)
Theorem scan_queue_refines cfg rescan s s' :
  ScanQueue.reachable cfg rescan s ->
  (qstep cfg rescan s s' <-> exists l, scan_does cfg rescan l s s') /\
  forall l, scan_does cfg rescan l s s' ->
    lstep l (LState (abs_jobs (q_table s)) (q_tokens s)) (LState (abs_jobs (q_table s')) (q_tokens s')).
Proof.
  intros Hr. split; [apply scan_does_step|]. intros l. by apply (scan_sim cfg rescan), (reachable_inv cfg).
Qed.

Lemma scan_queue_refines_witness :
  abs_jobs ex_q3 = {[1 := Idle]} /\ abs_jobs (q_table ex_s4) = {[1 := Leased "tok-b" 30]} /\
  lstep (Lease 1 "tok-b" 30) (LState (abs_jobs ex_q3) {["tok-a"]}) (LState (abs_jobs (q_table ex_s4)) (q_tokens ex_s4)).
Proof.
  split; [vm_compute; reflexivity|]. split; [vm_compute; reflexivity|].
  apply (proj2 (scan_queue_refines default_config false ex_s3 ex_s4 ScanQueue.ex_reachable)).
  apply (does_claim default_config false 30 "tok-b" 1). set_solver.
Defined.

(** C7. The detonation queue refines the same specification: from a reachable state
    an enqueue opens one new job or changes nothing, a claim leases an idle job only,
    [mark_done] and the worker's failure report close a job only for the holder of
    its lease, a requeue gives back or closes a job only for the holder, the stale
    sweep ends exactly the leases older than its timeout, and the expiry gives up
    idle jobs only.  And these are all its steps. *)
Theorem det_queue_refines s s' :
  DetQueue.reachable s ->
  (dstep s s' <-> exists l, det_does l s s') /\
  forall l, det_does l s s' ->
    lstep l (LState (abs_jobs (d_table s)) (d_tokens s)) (LState (abs_jobs (d_table s')) (d_tokens s')).
Proof. intros Hr. split; [apply det_does_step|]. intros l. by apply det_sim, det_reachable_inv. Qed.

Definition ex_ds2 : dstate := DState ex_d2 ({["tok-a"]} ∪ ∅).
Definition ex_ds3 : dstate := DState (requeue_or_fail 40 1 "tok-a" "timeout" ex_d2) ({["tok-a"]} ∪ ∅).

Lemma det_queue_refines_witness :
  abs_jobs (d_table ex_ds2) = {[1 := Leased "tok-a" 20]} /\ abs_jobs (d_table ex_ds3) = {[1 := Idle]} /\
  lstep (GiveBack 1 "tok-a") (LState (abs_jobs (d_table ex_ds2)) (d_tokens ex_ds2))
    (LState (abs_jobs (d_table ex_ds3)) (d_tokens ex_ds3)).
Proof.
  split; [vm_compute; reflexivity|]. split; [vm_compute; reflexivity|].
  apply (proj2 (det_queue_refines ex_ds2 ex_ds3 ex_det_reachable)). apply det_requeue.
Defined.

(** Whatever implements the interface, hence both queues: a token leases at most
    one job at a time, and once the job it leased is no longer held under it (swept,
    finished, requeued, given to someone else) no job is ever leased under it again. *)
Theorem lease_safety {S} (step : label -> S -> S -> Prop) {LS : LeaseSystem step} s1 s2 s3 i j tok :
  runs step ls_init s1 -> runs step s1 s2 -> runs step s2 s3 -> held i tok (ls_abs s1) ->
  (held j tok (ls_abs s1) -> j = i) /\ (~ held i tok (ls_abs s2) -> ~ held j tok (ls_abs s3)).
Proof.
  intros Hr H12 H23 Hl. split; [intros Hj; by eapply ls_one_holder|]. intros Hn. by eapply (ls_lost step s1 s2 s3).
Qed.

Definition ex_d3 : dqueue := (sweep_stale_claims (seconds 1800) ex_d2).2.
Definition ex_d4 : dqueue := (DetQueue.cas_claim 30 "tok-b" 1 ex_d3).2.
Definition ex_ds4 : dstate := DState ex_d4 ({["tok-b"]} ∪ ({["tok-a"]} ∪ ∅)).

Lemma ex_det_runs : runs det_does (DState empty_table ∅) ex_ds2.
Proof.
  eapply rtc_l; [eexists; apply (det_enqueue 10 ex_extra "npm" "left-pad" "1.0" PHigh)|].
  eapply rtc_l; [eexists; apply (det_claim 20 "tok-a" 1); set_solver|]. apply rtc_refl.
Qed.

Lemma lease_safety_witness : held 1 "tok-b" (det_abs ex_ds4) /\ ~ held 1 "tok-a" (det_abs ex_ds4).
Proof.
  split; [vm_compute; reflexivity|].
  refine (proj2 (lease_safety det_does ex_ds2 (DState ex_d3 ({["tok-a"]} ∪ ∅)) ex_ds4 1 1 "tok-a" ex_det_runs _ _ _) _).
  - apply rtc_once. eexists. apply det_sweep.
  - apply rtc_once. eexists. apply det_claim. set_solver.
  - vm_compute. reflexivity.
  - vm_compute. discriminate.
Defined.
