(* ===== verification/Intel.v ===== *)
(** * Intel packs ([pkgward/intel/pack.py], [pkgward/intel/__init__.py])

    The detection data the analyzers read, the per-field merge of a baseline and
    an overlay, and the numeric coercion of operator-supplied TOML. *)
From S2P Require Import Prelude PyStr.

Open Scope list_scope.
Open Scope Z_scope.

(** ** Hash seeds: JSON objects, of which the merge reads [sha256] *)

Abbreviation seed := (list (string * string)).
Definition seed_sha (h : seed) : string := dget_or "sha256" EmptyString h.

(** ** The pack *)

Abbreviation strmap := (list (string * list string)).

Record IntelPack := mkPack {
  source : string;
  yara_dirs : list string;
  opengrep_dirs : list string;
  hash_seeds : list seed;
  prompts : list (string * string);
  thresholds : list (string * Z);
  scoring_weights : list (string * Z);
  behavioral_chain_ids : gset string;
  lure_keywords : strmap;
  ioc_whitelist : gset string;
  malware_pattern_strings : strmap;
  gomod_benign_tools : list string;
  npm_benign_tools : list string;
  detonation_rules_data : strmap;
  detonation_noise : strmap;
}.

Definition empty_pack (label : string) : IntelPack :=
  mkPack label [] [] [] [] [] [] ∅ [] ∅ [] [] [] [] [].

(** ** Merging *)

(** [merged[cat] = list(kws)] for the base, then [setdefault(cat, [])] and
    append-if-absent for the overlay. *)
Definition merge_strmap (self overlay : strmap) : strmap :=
  fold_left (fun acc kv => dset kv.1 (append_new (dget_or kv.1 [] acc) kv.2) acc) overlay
    (fold_left (fun acc kv => dset kv.1 kv.2 acc) self []).

(** The [seen_sha] loop over the overlay's seeds. *)
Definition seed_step (st : list string * list seed) (h : seed) : list string * list seed :=
  let sha := seed_sha h in
  if truthy sha && str_in sha st.1 then st
  else (if truthy sha then sha :: st.1 else st.1, st.2 ++ [h]).

Definition merge_seeds (self overlay : list seed) : list seed :=
  (fold_left seed_step overlay (bfilter truthy (map seed_sha self), self)).2.

(** [if v: merged_prompts[k] = v]. *)
Definition merge_prompts (self overlay : list (string * string)) : list (string * string) :=
  fold_left (fun acc kv => if truthy kv.2 then dset kv.1 kv.2 acc else acc) overlay self.

Definition merge (self overlay : IntelPack) : IntelPack :=
  mkPack
    (source self +:+ "+" +:+ source overlay)
    (append_new (yara_dirs self) (yara_dirs overlay))
    (append_new (opengrep_dirs self) (opengrep_dirs overlay))
    (merge_seeds (hash_seeds self) (hash_seeds overlay))
    (merge_prompts (prompts self) (prompts overlay))
    (dupdate (thresholds self) (thresholds overlay))
    (dupdate (scoring_weights self) (scoring_weights overlay))
    (behavioral_chain_ids self ∪ behavioral_chain_ids overlay)
    (merge_strmap (lure_keywords self) (lure_keywords overlay))
    (ioc_whitelist self ∪ ioc_whitelist overlay)
    (merge_strmap (malware_pattern_strings self) (malware_pattern_strings overlay))
    (append_new (gomod_benign_tools self) (gomod_benign_tools overlay))
    (append_new (npm_benign_tools self) (npm_benign_tools overlay))
    (merge_strmap (detonation_rules_data self) (detonation_rules_data overlay))
    (merge_strmap (detonation_noise self) (detonation_noise overlay)).

(** ** Numeric coercion of a TOML table *)

(** The TOML value kinds [_numeric_map] tells apart; a float is given by its
    truncation, which is what [int(v)] keeps. *)
Inductive toml := TBool (b : bool) | TInt (n : Z) | TFloat (trunc : Z) | TOther.

Definition numeric_map (raw : list (string * toml)) : list (string * Z) :=
  fold_left (fun out kv =>
    match kv.2 with
    | TInt n => dset kv.1 n out
    | TFloat n => dset kv.1 n out
    | TBool _ | TOther => out
    end) raw [].

(** ** Loading: baseline, then an overlay if there is one ([intel.load])

    [env_path] is [PKGWARD_INTEL_PATH]; [load_pack] reads a directory and is
    [None] where the path does not exist. *)
Definition load (baseline : IntelPack) (load_pack : string -> option IntelPack)
    (overlay_path : option string) (use_env : bool) (env_path : string) : IntelPack :=
  let overlay_path :=
    match overlay_path with
    | Some p => Some p
    | None => if use_env then nonempty (strip env_path) else None
    end in
  match overlay_path with
  | Some p => match load_pack p with Some overlay => merge baseline overlay | None => baseline end
  | None => baseline
  end.

(** ** Lemmas *)

Definition strmap_has (m : strmap) (k x : string) : Prop := exists l, dget k m = Some l /\ x ∈ l.

Lemma strmap_base (self : strmap) (k : string) :
  NoDup self.*1 -> dget k (fold_left (fun acc kv => dset kv.1 kv.2 acc) self []) = dget k self.
Proof.
  intros Hd. pose proof (dget_dupdate (K := string) (V := list string) [] self k Hd) as H.
  unfold dupdate in H. rewrite H. by destruct (dget k self).
Qed.

Lemma merge_strmap_step (acc : strmap) (kv : string * list string) k x :
  strmap_has (dset kv.1 (append_new (dget_or kv.1 [] acc) kv.2) acc) k x <->
  strmap_has acc k x \/ (k = kv.1 /\ x ∈ kv.2).
Proof.
  unfold strmap_has. setoid_rewrite dget_dset. case_decide as E; subst.
  - split.
    + intros (l & [= <-] & H). apply append_new_elem in H as [H|H]; [|by right].
      unfold dget_or in H. destruct (dget _ acc) as [l|]; simpl in H; [left; by exists l|set_solver].
    + intros [(l & Hl & Hx)|[_ Hx]]; eexists; (split; [done|]); apply append_new_elem;
        [left; unfold dget_or; by rewrite Hl|by right].
  - naive_solver.
Qed.

Lemma merge_strmap_has (self overlay : strmap) k x :
  NoDup self.*1 ->
  strmap_has (merge_strmap self overlay) k x <->
  strmap_has self k x \/ exists kws, (k, kws) ∈ overlay /\ x ∈ kws.
Proof.
  intros Hd. unfold merge_strmap.
  assert (forall acc, strmap_has (fold_left (fun acc kv => dset kv.1 (append_new (dget_or kv.1 [] acc) kv.2) acc) overlay acc) k x
    <-> strmap_has acc k x \/ exists kws, (k, kws) ∈ overlay /\ x ∈ kws) as H.
  { induction overlay as [|[k1 l1] ov IH]; intros acc; cbn [fold_left]; [set_solver|].
    rewrite IH, merge_strmap_step. set_solver. }
  rewrite H. unfold strmap_has at 1. rewrite strmap_base by done. done.
Qed.

Lemma seed_step_cases seen acc h :
  (truthy (seed_sha h) = true /\ seed_sha h ∈ seen /\ seed_step (seen, acc) h = (seen, acc)) \/
  (truthy (seed_sha h) = true /\ seed_sha h ∉ seen /\
   seed_step (seen, acc) h = (seed_sha h :: seen, acc ++ [h])) \/
  (truthy (seed_sha h) = false /\ seed_step (seen, acc) h = (seen, acc ++ [h])).
Proof.
  unfold seed_step; cbn [fst snd]. destruct (truthy (seed_sha h)) eqn:Et; simpl; [|by right; right].
  destruct (str_in (seed_sha h) seen) eqn:Es; [left|right; left].
  - by apply str_in_true in Es.
  - split_and!; [done| |done]. intros H%str_in_true. congruence.
Qed.

Lemma seeds_prefix ov seen acc : acc `prefix_of` (fold_left seed_step ov (seen, acc)).2.
Proof.
  revert seen acc. induction ov as [|h ov IH]; intros seen acc; cbn [fold_left]; [done|].
  destruct (seed_step_cases seen acc h) as [(_ & _ & ->)|[(_ & _ & ->)|(_ & ->)]]; [apply IH|..];
    (etrans; [|apply IH]; by apply prefix_app_r).
Qed.

Lemma seeds_present ov seen acc h :
  h ∈ ov -> truthy (seed_sha h) = true ->
  seed_sha h ∈ seen \/ exists h', h' ∈ (fold_left seed_step ov (seen, acc)).2 /\ seed_sha h' = seed_sha h.
Proof.
  revert seen acc. induction ov as [|h0 ov IH]; intros seen acc Hh Ht; cbn [fold_left]; [set_solver|].
  destruct (seed_step_cases seen acc h0) as [(_ & Hin & ->)|[(_ & _ & ->)|(Hf & ->)]];
    apply elem_of_cons in Hh as [->|Hh]; try congruence; auto.
  - right. exists h0. split; [|done]. pose proof (seeds_prefix ov (seed_sha h0 :: seen) (acc ++ [h0])) as [k ->]. set_solver.
  - destruct (IH (seed_sha h0 :: seen) (acc ++ [h0]) Hh Ht) as [[E|?]%elem_of_cons|?]; [|by left|by right].
    right. exists h0. split; [|done]. pose proof (seeds_prefix ov (seed_sha h0 :: seen) (acc ++ [h0])) as [k ->]. set_solver.
Qed.

Definition digests (l : list seed) : list string := bfilter truthy (map seed_sha l).

Lemma digests_snoc l h : digests (l ++ [h]) = digests l ++ if truthy (seed_sha h) then [seed_sha h] else [].
Proof. unfold digests. rewrite map_app, List.filter_app. done. Qed.

Lemma seeds_nodup ov seen acc :
  NoDup (digests acc) -> (forall s, s ∈ digests acc -> s ∈ seen) ->
  NoDup (digests (fold_left seed_step ov (seen, acc)).2).
Proof.
  revert seen acc. induction ov as [|h0 ov IH]; intros seen acc Hd Hs; cbn [fold_left]; [done|].
  destruct (seed_step_cases seen acc h0) as [(_ & Hin & ->)|[(Ht & Hn & ->)|(Hf & ->)]]; apply IH;
    rewrite ?digests_snoc, ?Ht, ?Hf, ?app_nil_r; auto.
  - apply NoDup_app. split; [done|]. split; [set_solver|apply NoDup_singleton].
  - set_solver.
Qed.

Lemma numeric_map_NoDup raw : NoDup (numeric_map raw).*1.
Proof.
  unfold numeric_map. assert (forall acc : list (string * Z), NoDup acc.*1 ->
    NoDup (fold_left (fun out (kv : string * toml) => match kv.2 with
      | TInt n => dset kv.1 n out | TFloat n => dset kv.1 n out | TBool _ | TOther => out end) raw acc).*1) as H.
  { induction raw as [|kv raw IH]; intros acc Ha; simpl; [done|]. apply IH.
    destruct (kv.2); auto with pk. }
  apply H. constructor.
Qed.

(** ** Properties *)

(** Overlay semantics.  Merging an overlay never loses baseline content: chain ids,
    IOC whitelist, rule directories, hash seeds, keyword/pattern lists of the baseline
    are all in the result, together with the overlay's; thresholds and weights are
    replaced exactly where the overlay sets them. *)
Theorem merge_union_replace self overlay :
  NoDup (lure_keywords self).*1 -> NoDup (malware_pattern_strings self).*1 ->
  NoDup (thresholds overlay).*1 -> NoDup (scoring_weights overlay).*1 ->
  let m := merge self overlay in
  (forall c, c ∈ behavioral_chain_ids m <-> c ∈ behavioral_chain_ids self \/ c ∈ behavioral_chain_ids overlay) /\
  (forall d, d ∈ yara_dirs m <-> d ∈ yara_dirs self \/ d ∈ yara_dirs overlay) /\
  (hash_seeds self `prefix_of` hash_seeds m) /\
  (forall k x, strmap_has (lure_keywords m) k x <->
     strmap_has (lure_keywords self) k x \/ exists kws, (k, kws) ∈ lure_keywords overlay /\ x ∈ kws) /\
  (forall k x, strmap_has (malware_pattern_strings m) k x <->
     strmap_has (malware_pattern_strings self) k x \/
     exists kws, (k, kws) ∈ malware_pattern_strings overlay /\ x ∈ kws) /\
  (forall k, dget k (thresholds m) =
     match dget k (thresholds overlay) with Some v => Some v | None => dget k (thresholds self) end) /\
  (forall k, dget k (scoring_weights m) =
     match dget k (scoring_weights overlay) with Some v => Some v | None => dget k (scoring_weights self) end).
Proof.
  intros Hl Hm Ht Hw m. unfold m, merge; cbn -[dupdate merge_strmap merge_seeds]. split_and!.
  - set_solver.
  - intros d. apply append_new_elem.
  - apply seeds_prefix.
  - intros k x. by apply merge_strmap_has.
  - intros k x. by apply merge_strmap_has.
  - intros k. by apply dget_dupdate.
  - intros k. by apply dget_dupdate.
Qed.

Definition ex_base : IntelPack :=
  mkPack "baseline" ["b/yara"] [] [[("sha256", "aa")]] [] [("malicious_min", 61)] [("high", 25)]
    {["install_net_exec"]} [("crypto", ["wallet"])] ∅ [] [] [] [] [].
Definition ex_over : IntelPack :=
  mkPack "private" ["p/yara"] [] [[("sha256", "aa")]; [("sha256", "bb")]] [] [("malicious_min", 50)] []
    {["chain_x"]} [("crypto", ["seed"; "wallet"])] ∅ [] [] [] [] [].

Lemma merge_union_replace_witness :
  dget "malicious_min" (thresholds (merge ex_base ex_over)) = Some 50 /\
  "install_net_exec" ∈ behavioral_chain_ids (merge ex_base ex_over) /\
  hash_seeds (merge ex_base ex_over) = [[("sha256", "aa")]; [("sha256", "bb")]].
Proof.
  split; [vm_compute; reflexivity|]. split; [|vm_compute; reflexivity].
  refine (proj2 (proj1 (merge_union_replace ex_base ex_over _ _ _ _) "install_net_exec") _);
    [repeat constructor; set_solver..|left; set_solver].
Defined.

(** The seed merge deduplicates by SHA-256: if the baseline has no duplicate
    digests then neither has the merged list, and every digest the overlay ships is
    present. *)
Theorem merge_seeds_dedup self overlay :
  NoDup (digests self) ->
  NoDup (digests (merge_seeds self overlay)) /\
  forall h, h ∈ overlay -> truthy (seed_sha h) = true ->
    exists h', h' ∈ merge_seeds self overlay /\ seed_sha h' = seed_sha h.
Proof.
  intros Hd. split; [by apply seeds_nodup|]. intros h Hh Ht. unfold merge_seeds.
  destruct (seeds_present overlay (digests self) self h Hh Ht) as [Hs|?]; [|done].
  apply bfilter_in in Hs as [Hs _]. apply list_elem_of_In, in_map_iff in Hs as (h' & E & Hin%list_elem_of_In).
  exists h'. split; [|done]. pose proof (seeds_prefix overlay (digests self) self) as [k E1].
  unfold digests in E1. rewrite E1. set_solver.
Qed.

Lemma merge_seeds_dedup_witness :
  NoDup (digests (merge_seeds (hash_seeds ex_base) (hash_seeds ex_over))).
Proof. apply (proj1 (merge_seeds_dedup (hash_seeds ex_base) (hash_seeds ex_over) ltac:(vm_compute; repeat constructor; set_solver))). Defined.
