(* ===== verification/Score.v ===== *)
(** * Scoring and the verdict ([detect/score.py], [detect/rules.py], [detonate/gate.py])

    The capped per-bucket score, the verdict with its watchlist overrides, and
    the detonation gate.  The intel pack is an argument. *)
From S2P Require Import Prelude PyStr Findings Intel.

Open Scope list_scope.
Open Scope Z_scope.

Record ScoreResult := mkScore { score : Z; sr_verdict : verdict; alert_tag : option string }.

Definition DYNAMIC_CHAIN_RULES : list string := ["dyn_install_exfil"; "dyn_reverse_shell"; "dyn_proc_inject"].

Section Score.
Variable pack : IntelPack.
Implicit Types (f : Finding) (fs gs : list Finding).

Definition severity_points (s : severity) : Z := dget_or (severity_name s) 0 (scoring_weights pack).
Definition category_cap : Z := dget_or "category_cap" 30 (thresholds pack).
Definition suspicious_min : Z := dget_or "suspicious_min" 20 (thresholds pack).
Definition malicious_min : Z := dget_or "malicious_min" 61 (thresholds pack).

(** Dynamic findings are bucketed per rule, all others per category. *)
Definition bucket f : string := if String.eqb (category f) "dynamic" then rule_id f else category f.

Definition score_step (per_cat : list (string * Z)) f : list (string * Z) :=
  dset (bucket f)
    (Z.min (dget_or (bucket f) 0 per_cat + severity_points (f_severity f)) category_cap) per_cat.

Definition zsum (l : list Z) : Z := foldr Z.add 0 l.

Definition raw_score fs : Z := zsum (fold_left score_step fs []).*2.

Definition has_any fs (s : severity) : bool := existsb (fun f => bool_decide (f_severity f = s)) fs.
Definition has_behavioral_chain fs : bool :=
  existsb (fun f => bool_decide (rule_id f ∈ behavioral_chain_ids pack)) fs.

Definition is_shadow_finding f : bool := startswith (rule_id f) "opengrep.shadow_".

(** The rule verdict before the watchlist overrides. *)
Definition base_verdict (scoring : list Finding) : verdict :=
  if has_behavioral_chain scoring || has_any scoring SCritical || (malicious_min <=? raw_score scoring)
  then VMalicious
  else if has_any scoring SHigh || (suspicious_min <=? raw_score scoring) then VSuspicious
  else VClean.

Definition watch_suspicious (v : verdict) (scoring : list Finding) : verdict :=
  if bool_decide (v = VClean) && existsb (fun f => sev_in f [SMedium; SHigh; SCritical]) scoring
  then VSuspicious else v.

Definition score_and_verdict fs (watchlist_rank : option Z) : ScoreResult :=
  let scoring := bfilter (fun f => negb (is_shadow_finding f)) fs in
  let sc := raw_score scoring in
  let v := base_verdict scoring in
  match watchlist_rank with
  | None => mkScore sc v None
  | Some rank =>
      let v := watch_suspicious v scoring in
      if (rank <=? 100) && existsb (fun f => sev_in f [SHigh; SCritical]) scoring
      then mkScore sc VMalicious (Some "watchlist_top100")
      else mkScore sc v None
  end.

End Score.

(** [should_detonate]; [chain_rules] is the set bound by the module-level
    [from detect.rules import BEHAVIORAL_CHAIN_RULES]. *)
Definition should_detonate (chain_rules : gset string) (v : verdict) (sc : Z) (fs : list Finding)
    (watchlist_rank : option Z) (is_new_package : bool) : bool :=
  if is_new_package then true
  else if bool_decide (is_Some watchlist_rank) then true
  else
    let has_chain := existsb (fun f => bool_decide (rule_id f ∈ chain_rules)) fs in
    if bool_decide (v = VMalicious) && has_chain then false
    else verdict_in v [VSuspicious; VMalicious].

(** ** The closed form of the score *)

Section Closed.
Variable pack : IntelPack.
Implicit Types (f : Finding) (fs gs : list Finding).

Hypothesis weights_nonneg : forall s, 0 <= severity_points pack s.
Hypothesis cap_nonneg : 0 <= category_cap pack.

Definition points f : Z := severity_points pack (f_severity f).
Definition bucket_sum fs (k : string) : Z :=
  zsum (map points (bfilter (fun f => String.eqb (bucket f) k) fs)).
Definition bucket_score fs (k : string) : Z := Z.min (bucket_sum fs k) (category_cap pack).

Lemma zsum_app l1 l2 : zsum (l1 ++ l2) = zsum l1 + zsum l2.
Proof. unfold zsum. induction l1 as [|x l1 IH]; simpl; lia. Qed.

Lemma zsum_perm l1 l2 : l1 ≡ₚ l2 -> zsum l1 = zsum l2.
Proof. unfold zsum. induction 1; simpl; lia. Qed.

Lemma zsum_le {A} (g h : A -> Z) l : (forall x, x ∈ l -> g x <= h x) -> zsum (map g l) <= zsum (map h l).
Proof.
  induction l as [|x l IH]; intros H; cbn; [lia|].
  pose proof (H x ltac:(set_solver)). pose proof (IH ltac:(set_solver)). unfold zsum in *. lia.
Qed.

Lemma zsum_nonneg {A} (g : A -> Z) l : (forall x, x ∈ l -> 0 <= g x) -> 0 <= zsum (map g l).
Proof.
  induction l as [|x l IH]; intros H; cbn; [lia|].
  pose proof (H x ltac:(set_solver)). pose proof (IH ltac:(set_solver)). unfold zsum in *. lia.
Qed.

Lemma points_nonneg f : 0 <= points f.
Proof. apply weights_nonneg. Qed.

Lemma bucket_sum_nonneg fs k : 0 <= bucket_sum fs k.
Proof. apply zsum_nonneg. intros. apply points_nonneg. Qed.

Lemma bucket_sum_snoc fs f k :
  bucket_sum (fs ++ [f]) k = bucket_sum fs k + if String.eqb (bucket f) k then points f else 0.
Proof.
  unfold bucket_sum. rewrite List.filter_app, map_app, zsum_app. f_equal. simpl.
  destruct (String.eqb (bucket f) k); cbn; lia.
Qed.

Lemma fold_score_get fs (k : string) :
  dget_or k 0 (fold_left (score_step pack) fs []) = bucket_score fs k.
Proof.
  induction fs as [|f fs IH] using rev_ind; [unfold bucket_score; cbn; lia|].
  rewrite fold_left_app. cbn [fold_left]. unfold score_step at 1, dget_or at 1. rewrite dget_dset.
  unfold bucket_score. rewrite bucket_sum_snoc. case_decide as E; simpl.
  - subst k. rewrite IH, String.eqb_refl. unfold bucket_score, points.
    pose proof (weights_nonneg (f_severity f)). lia.
  - fold (dget_or k 0 (fold_left (score_step pack) fs [])). rewrite IH. unfold bucket_score.
    destruct (String.eqb_spec (bucket f) k); [done|]. lia.
Qed.

Lemma dset_fst {V} (k : string) (v : V) (d : list (string * V)) : (dset k v d).*1 = if bool_decide (k ∈ d.*1) then d.*1 else d.*1 ++ [k].
Proof.
  induction d as [|[k' v'] d IH]; csimpl; [done|].
  destruct (decide (k = k')) as [->|Hne]; csimpl.
  - rewrite bool_decide_true by (apply elem_of_cons; by left). done.
  - rewrite IH. destruct (decide (k ∈ d.*1)) as [Hk|Hk].
    + rewrite !bool_decide_true by (rewrite ?elem_of_cons; auto). done.
    + rewrite !bool_decide_false by (rewrite ?elem_of_cons; naive_solver). done.
Qed.

Lemma fold_score_keys fs : (fold_left (score_step pack) fs []).*1 = dedup (map bucket fs).
Proof.
  unfold dedup, append_new. assert (forall d, (fold_left (score_step pack) fs d).*1 =
    fold_left (fun acc x => if bool_decide (x ∈ acc) then acc else acc ++ [x]) (map bucket fs) d.*1) as H.
  { induction fs as [|f fs IH]; intros d; simpl; [done|]. rewrite IH. unfold score_step. by rewrite dset_fst. }
  apply (H []).
Qed.

Lemma values_by_key (d : list (string * Z)) :
  NoDup d.*1 -> d.*2 = map (fun k => dget_or k 0 d) d.*1.
Proof.
  induction d as [|[k v] d IH]; simpl; [done|]. intros [Hn Hd]%NoDup_cons. f_equal.
  - unfold dget_or; simpl. by rewrite decide_True.
  - rewrite (IH Hd) at 1. apply map_ext_in. intros k' Hk'%list_elem_of_In. unfold dget_or; simpl.
    rewrite decide_False; [done|]. set_solver.
Qed.

(** The score is the sum over the buckets of their capped point totals. *)
Lemma raw_score_buckets fs : raw_score pack fs = zsum (map (bucket_score fs) (dedup (map bucket fs))).
Proof.
  unfold raw_score. rewrite values_by_key, fold_score_keys.
  - f_equal. apply map_ext. intros k. apply fold_score_get.
  - rewrite fold_score_keys. apply dedup_NoDup.
Qed.

Lemma bucket_sum_perm fs gs k : fs ≡ₚ gs -> bucket_sum fs k = bucket_sum gs k.
Proof.
  intros H. unfold bucket_sum, zsum. induction H; simpl; repeat case_match; simpl; lia.
Qed.

Lemma bucket_sum_app_le fs gs k : bucket_sum fs k <= bucket_sum (fs ++ gs) k.
Proof.
  induction gs as [|g gs IH] using rev_ind; [by rewrite app_nil_r|].
  rewrite app_assoc, bucket_sum_snoc. pose proof (points_nonneg g). case_match; lia.
Qed.

Lemma zsum_submseteq l1 l2 (g : string -> Z) :
  (forall x, 0 <= g x) -> l1 ⊆+ l2 -> zsum (map g l1) <= zsum (map g l2).
Proof. intros Hg. unfold zsum. induction 1 as [|x l l' _ IH|x y l|x l l' _ IH|l1 l2 l3 _ IH1 _ IH2]; simpl; try lia. specialize (Hg x). lia. Qed.

Lemma raw_score_mono fs gs : fs ⊆+ gs -> raw_score pack fs <= raw_score pack gs.
Proof.
  intros Hsub. rewrite !raw_score_buckets. etrans; [apply (zsum_le _ (bucket_score gs))|apply zsum_submseteq].
  - intros k _. unfold bucket_score. apply submseteq_Permutation in Hsub as [ks Hp].
    rewrite (bucket_sum_perm gs _ k Hp). pose proof (bucket_sum_app_le fs ks k). lia.
  - intros k. unfold bucket_score. pose proof (bucket_sum_nonneg gs k). lia.
  - apply NoDup_submseteq; [apply dedup_NoDup|]. intros k. rewrite !dedup_elem, !list_elem_of_fmap.
    intros (f & -> & Hf). exists f. split; [done|]. by eapply elem_of_submseteq.
Qed.

Lemma raw_score_bounds fs :
  0 <= raw_score pack fs <= category_cap pack * Z.of_nat (length (dedup (map bucket fs))).
Proof.
  rewrite raw_score_buckets. split.
  - apply zsum_nonneg. intros k _. unfold bucket_score. pose proof (bucket_sum_nonneg fs k). lia.
  - generalize (dedup (map bucket fs)). intros l. induction l as [|k l IH]; cbn [map]; [cbn; lia|].
    unfold zsum in *. cbn [foldr length]. unfold bucket_score at 1. lia.
Qed.

End Closed.

(** ** Verdicts *)

Definition verdict_rank (v : verdict) : Z :=
  match v with VMalicious => 2 | VSuspicious => 1 | _ => 0 end.

Definition scored (fs : list Finding) : list Finding := bfilter (fun f => negb (is_shadow_finding f)) fs.

Lemma scored_in fs f : f ∈ scored fs <-> f ∈ fs /\ is_shadow_finding f = false.
Proof. unfold scored. by rewrite bfilter_in, negb_true_iff. Qed.

Lemma scored_submseteq fs gs : fs ⊆+ gs -> scored fs ⊆+ scored gs.
Proof.
  unfold scored. induction 1; simpl; repeat case_match; try done;
    eauto using submseteq_skip, submseteq_cons, submseteq_swap, PreOrder_Transitive.
  by etrans.
Qed.

Lemma has_any_true fs s : has_any fs s = true <-> exists f, f ∈ fs /\ f_severity f = s.
Proof. unfold has_any. rewrite existsb_true. by setoid_rewrite bool_decide_eq_true. Qed.

Lemma has_sev_true fs l : existsb (fun f => sev_in f l) fs = true <-> exists f, f ∈ fs /\ f_severity f ∈ l.
Proof. rewrite existsb_true. by setoid_rewrite sev_in_true. Qed.

Lemma has_chain_true pack fs :
  has_behavioral_chain pack fs = true <-> exists f, f ∈ fs /\ rule_id f ∈ behavioral_chain_ids pack.
Proof. unfold has_behavioral_chain. rewrite existsb_true. by setoid_rewrite bool_decide_eq_true. Qed.

#[export] Hint Rewrite has_any_true has_sev_true has_chain_true : verdicts.

(** The three verdicts of the rule engine, and no other. *)
Lemma verdict_trichotomy pack fs r : sr_verdict (score_and_verdict pack fs r) ∈ [VClean; VSuspicious; VMalicious].
Proof. unfold score_and_verdict, watch_suspicious, base_verdict. repeat case_match; simpl; set_solver. Qed.

(** What makes the rules convict a package, a watchlist rank aside. *)
Definition convicting pack (fs : list Finding) : Prop :=
  (exists f, f ∈ scored fs /\ (rule_id f ∈ behavioral_chain_ids pack \/ f_severity f = SCritical)) \/
  malicious_min pack <= raw_score pack (scored fs).

Definition suspicious_signs pack (fs : list Finding) : Prop :=
  (exists f, f ∈ scored fs /\ f_severity f = SHigh) \/ suspicious_min pack <= raw_score pack (scored fs).

Definition top100_alert (fs : list Finding) (r : option Z) : Prop :=
  exists k f, r = Some k /\ k <= 100 /\ f ∈ scored fs /\ f_severity f ∈ [SHigh; SCritical].

Definition watch_signs (fs : list Finding) (r : option Z) : Prop :=
  is_Some r /\ exists f, f ∈ scored fs /\ f_severity f ∈ [SMedium; SHigh; SCritical].

Lemma base_verdict_cases pack fs :
  (convicting pack fs /\ base_verdict pack (scored fs) = VMalicious) \/
  (~ convicting pack fs /\ suspicious_signs pack fs /\ base_verdict pack (scored fs) = VSuspicious) \/
  (~ convicting pack fs /\ ~ suspicious_signs pack fs /\ base_verdict pack (scored fs) = VClean).
Proof.
  unfold base_verdict, convicting, suspicious_signs.
  destruct (_ || _ || _) eqn:E1; [left; split; [|done]|right].
  { rewrite !orb_true_iff, Z.leb_le, has_any_true, has_chain_true in E1. naive_solver. }
  rewrite !orb_false_iff, Z.leb_gt in E1. destruct E1 as [[E1 E2] E3].
  rewrite <- not_true_iff_false, has_chain_true in E1. rewrite <- not_true_iff_false, has_any_true in E2.
  assert (~ ((exists f, f ∈ scored fs /\ (rule_id f ∈ behavioral_chain_ids pack \/ f_severity f = SCritical)) \/
    malicious_min pack <= raw_score pack (scored fs))) as Hn by (intros [(f & ? & [|])|]; [eauto..|lia]).
  destruct (_ || _) eqn:E4; [left|right]; (split; [done|]); (split; [|done]).
  - rewrite orb_true_iff, Z.leb_le, has_any_true in E4. done.
  - rewrite orb_false_iff, Z.leb_gt, <- not_true_iff_false, has_any_true in E4. intros [?|?]; [tauto|lia].
Qed.

Lemma verdict_cases pack fs r :
  let v := sr_verdict (score_and_verdict pack fs r) in
  (v = VMalicious <-> convicting pack fs \/ top100_alert fs r) /\
  (v = VClean <-> ~ convicting pack fs /\ ~ suspicious_signs pack fs /\ ~ watch_signs fs r).
Proof.
  unfold score_and_verdict. fold (scored fs). unfold top100_alert, watch_signs.
  destruct (base_verdict_cases pack fs) as [(Hc & E)|[(Hc & Hs & E)|(Hc & Hs & E)]]; rewrite E;
    (destruct r as [k|]; [|simpl; split; (split; [naive_solver|]); naive_solver congruence]);
    unfold watch_suspicious; simpl;
    destruct (k <=? 100) eqn:Ek; simpl; bool_to_Z;
    repeat match goal with |- context [existsb (fun f => sev_in f ?l) ?fs] =>
      let E := fresh "E" in destruct (existsb (fun f => sev_in f l) fs) eqn:E;
        [rewrite has_sev_true in E | rewrite <- not_true_iff_false, has_sev_true in E] end; simpl.
  all: split; split; try done; try (intros (_ & _ & Hw); exfalso; apply Hw; split; [by eexists|];
    repeat match goal with H : exists _, _ |- _ => destruct H as (? & ? & ?) end; eexists; split; [done|set_solver]).
  all: naive_solver lia.
Qed.

(** ** Properties *)

(** One critical finding that is not a shadow finding convicts. *)
Lemma critical_convicts pack fs r f : f ∈ fs -> f_severity f = SCritical -> is_shadow_finding f = false ->
  sr_verdict (score_and_verdict pack fs r) = VMalicious.
Proof. intros Hf Hs Hn. apply verdict_cases. left. left. exists f. split; [by apply scored_in|by right]. Qed.

(** C36. What the rule engine decides.  Over the findings that are not shadow findings,
    a package is malicious exactly when a chain rule or a critical finding fired, the
    score reached the malicious threshold, or a top-100 package has a high finding;
    clean exactly when none of that, no high finding, a score under the suspicious
    threshold, and no medium finding on a watched package.  The alert tag marks the
    top-100 case only, and the score never depends on the watchlist. *)
Theorem verdict_spec pack fs r :
  let res := score_and_verdict pack fs r in
  score res = raw_score pack (scored fs) /\
  (sr_verdict res = VMalicious <-> convicting pack fs \/ top100_alert fs r) /\
  (sr_verdict res = VClean <-> ~ convicting pack fs /\ ~ suspicious_signs pack fs /\ ~ watch_signs fs r) /\
  (sr_verdict res ∈ [VClean; VSuspicious; VMalicious]) /\
  (alert_tag res = Some "watchlist_top100" <-> top100_alert fs r) /\
  (alert_tag res = None <-> ~ top100_alert fs r).
Proof.
  intros res. split; [subst res; unfold score_and_verdict; repeat case_match; done|].
  split; [apply verdict_cases|]. split; [apply verdict_cases|]. split; [apply verdict_trichotomy|].
  subst res. unfold score_and_verdict. fold (scored fs).
  assert (forall k, (k <=? 100) && existsb (fun f => sev_in f [SHigh; SCritical]) (scored fs) = true
    <-> top100_alert fs (Some k)) as H.
  { intros k. unfold top100_alert. rewrite andb_true_iff, has_sev_true, Z.leb_le. naive_solver. }
  destruct r as [k|]; [|simpl; split; (split; [try done|]); unfold top100_alert; naive_solver].
  specialize (H k). destruct (_ && _); simpl; naive_solver.
Qed.

(** Closed form of the score.  With non-negative weights the accumulator loop computes
    the sum, over the buckets, of the bucket's points capped at [category_cap]; so it is
    never negative and at most one cap per bucket. *)
Theorem score_closed_form pack fs :
  (forall s, 0 <= severity_points pack s) -> 0 <= category_cap pack ->
  raw_score pack fs = zsum (map (fun k => Z.min (zsum (map (points pack) (bfilter (fun f => String.eqb (bucket f) k) fs)))
                                             (category_cap pack)) (dedup (map bucket fs))) /\
  0 <= raw_score pack fs <= category_cap pack * Z.of_nat (length (dedup (map bucket fs))).
Proof. intros Hw Hc. split; [by apply raw_score_buckets|by apply raw_score_bounds]. Qed.

Definition ex_pack : IntelPack :=
  mkPack "baseline" [] [] [] [] [] [("low", 1); ("medium", 8); ("high", 20); ("critical", 40)]
    {["install_net_exec"]} [] ∅ [] [] [] [] [].
Definition ex_dyn (r : string) (s : severity) : Finding := mkFinding r "dynamic" s CHigh "" None "".
Definition ex_fs : list Finding :=
  [ex_dyn "dyn_cred_read" SHigh; ex_dyn "dyn_dns_exfil" SHigh; ex_dyn "dyn_dns_exfil" SHigh;
   mkFinding "opengrep.shadow_eval" "obfuscation" SCritical CHigh "a.js" None ""].

Lemma ex_pack_nonneg s : 0 <= severity_points ex_pack s.
Proof. destruct s; vm_compute; discriminate. Qed.

Lemma score_closed_form_witness :
  raw_score ex_pack (scored ex_fs) = 50 /\ 0 <= raw_score ex_pack ex_fs <= 30 * 3.
Proof.
  split; [vm_compute; reflexivity|].
  exact (proj2 (score_closed_form ex_pack ex_fs ex_pack_nonneg ltac:(vm_compute; discriminate))).
Defined.

(** Findings only ever incriminate: adding findings, in any order, never lowers the
    score and never softens the verdict. *)
Theorem verdict_monotone pack fs gs r :
  (forall s, 0 <= severity_points pack s) -> 0 <= category_cap pack -> fs ⊆+ gs ->
  score (score_and_verdict pack fs r) <= score (score_and_verdict pack gs r) /\
  verdict_rank (sr_verdict (score_and_verdict pack fs r)) <=
    verdict_rank (sr_verdict (score_and_verdict pack gs r)).
Proof.
  intros Hw Hc Hsub. pose proof (scored_submseteq _ _ Hsub) as Hs.
  pose proof (raw_score_mono pack Hw Hc _ _ Hs) as Hle.
  assert (forall f, f ∈ scored fs -> f ∈ scored gs) as Hin by (intros f Hf; by eapply elem_of_submseteq).
  destruct (verdict_cases pack fs r) as [Hm Hcl], (verdict_cases pack gs r) as [Hm' Hcl'].
  pose proof (verdict_trichotomy pack fs r) as Ht. pose proof (verdict_trichotomy pack gs r) as Ht'.
  split; [unfold score_and_verdict; repeat case_match; done|].
  assert (convicting pack fs -> convicting pack gs) by (unfold convicting; intros [(f & ? & ?)|?]; [left; eauto|right; lia]).
  assert (suspicious_signs pack fs -> suspicious_signs pack gs)
    by (unfold suspicious_signs; intros [(f & ? & ?)|?]; [left; eauto|right; lia]).
  assert (top100_alert fs r -> top100_alert gs r) by (unfold top100_alert; naive_solver).
  assert (watch_signs fs r -> watch_signs gs r) by (unfold watch_signs; naive_solver).
  rewrite !elem_of_cons, elem_of_nil in Ht, Ht'.
  destruct Ht as [E|[E|[E|[]]]], Ht' as [E'|[E'|[E'|[]]]]; rewrite E, E' in *; simpl; try lia; exfalso; intuition congruence.
Qed.

Lemma verdict_monotone_witness :
  sr_verdict (score_and_verdict ex_pack ex_fs None) = VSuspicious /\
  1 <= verdict_rank (sr_verdict (score_and_verdict ex_pack (ex_dyn "x" SLow :: ex_fs) None)).
Proof.
  split; [vm_compute; reflexivity|].
  refine (proj2 (verdict_monotone ex_pack ex_fs (ex_dyn "x" SLow :: ex_fs) None ex_pack_nonneg _ _));
    [vm_compute; discriminate|apply submseteq_cons; done].
Defined.
