(* ===== verification/Json.v ===== *)
(** * JSON values and doubles

    What [json.loads] returns, as far as the program reads it: integers are
    unbounded, floats are IEEE doubles ([SpecFloat]), objects keep their order. *)
From S2P Require Import Prelude PyStr.
From Stdlib Require Export Floats.SpecFloat.

Open Scope list_scope.
Open Scope Z_scope.

Abbreviation double := spec_float.

Inductive json :=
  | JNull | JBool (b : bool) | JInt (n : Z) | JFloat (f : double)
  | JStr (s : string) | JArr (l : list json) | JObj (l : list (string * json)).

(** ** Doubles *)

(** [x >= y] and [x < y]: false when either side is a NaN. *)
Definition float_ge (x y : double) : bool := SFleb y x.
Definition float_lt (x y : double) : bool := SFltb x y.
(** [bool(x)]: only the zeros are false. *)
Definition float_truthy (x : double) : bool := match x with S754_zero _ => false | _ => true end.
Definition f_zero : double := S754_zero false.
Definition f_one : double := S754_finite false 4503599627370496 (-52).
(** The literals [0.80] and [0.7]. *)
Definition f_0_80 : double := S754_finite false 7205759403792794 (-53).
Definition f_0_7 : double := S754_finite false 6305039478318694 (-53).

(** [float(n)]; [None] is [OverflowError]. *)
Definition float_of_int (n : Z) : option double :=
  match binary_normalize 53 1024 n 0 false with
  | S754_infinity _ => None
  | f => Some f
  end.

(** ** Reading values *)

(** Python truth of a decoded value. *)
Definition json_truthy (v : json) : bool :=
  match v with
  | JNull => false
  | JBool b => b
  | JInt n => negb (n =? 0)
  | JFloat f => float_truthy f
  | JStr s => truthy s
  | JArr l => match l with [] => false | _ => true end
  | JObj l => match l with [] => false | _ => true end
  end.

(** [d.get(k, dflt)] on a decoded object: a repeated key keeps its last value. *)
Definition jget (k : string) (o : list (string * json)) (dflt : json) : json :=
  default dflt (dget k (rev o)).

(** Induction that reaches the elements of arrays and objects. *)
Section JsonInd.
Variable P : json -> Prop.
Hypotheses (Hnull : P JNull) (Hbool : forall b, P (JBool b)) (Hint : forall n, P (JInt n))
  (Hfloat : forall f, P (JFloat f)) (Hstr : forall s, P (JStr s))
  (Harr : forall l, Forall P l -> P (JArr l))
  (Hobj : forall l, Forall (fun kv => P kv.2) l -> P (JObj l)).

Fixpoint json_rect' (v : json) : P v :=
  match v with
  | JNull => Hnull | JBool b => Hbool b | JInt n => Hint n | JFloat f => Hfloat f | JStr s => Hstr s
  | JArr l => Harr l ((fix go l : Forall P l := match l with
      | [] => Forall_nil_2 _ | x :: l' => Forall_cons_2 _ _ _ (json_rect' x) (go l') end) l)
  | JObj l => Hobj l ((fix go l : Forall (fun kv => P kv.2) l := match l with
      | [] => Forall_nil_2 _ | kv :: l' => Forall_cons_2 (fun kv => P kv.2) kv l' (json_rect' kv.2) (go l') end) l)
  end.
End JsonInd.

Lemma float_ge_nan y : float_ge S754_nan y = false.
Proof. by destruct y. Qed.

Lemma float_lt_nan y : float_lt S754_nan y = false.
Proof. by destruct y. Qed.

Definition is_nan (x : double) : bool := match x with S754_nan => true | _ => false end.

Lemma SFcompare_swap x y : SFcompare y x = CompOpp <$> SFcompare x y.
Proof.
  assert (forall a b, Pos.compare_cont Eq b a = CompOpp (Pos.compare_cont Eq a b)) as Hp.
  { intros a b. exact (Pos.compare_antisym a b). }
  destruct x as [sx|sx| |sx mx ex], y as [sy|sy| |sy my ey]; try destruct sx; try destruct sy; try done;
    simpl; rewrite (Z.compare_antisym ex ey); destruct (ex ?= ey); simpl; try done; rewrite Hp;
    by destruct (Pos.compare_cont Eq mx my).
Qed.

Lemma SFcompare_nan x y : SFcompare x y = None -> is_nan x = true \/ is_nan y = true.
Proof.
  destruct x as [sx|sx| |sx mx ex], y as [sy|sy| |sy my ey]; try destruct sx; try destruct sy; simpl; auto; try done;
    by destruct (ex ?= ey).
Qed.

(** Doubles that are not NaN are totally ordered. *)
Lemma float_lt_ge x y : is_nan x = false -> is_nan y = false -> float_lt x y = negb (float_ge x y).
Proof.
  intros Hx Hy. unfold float_lt, float_ge, SFltb, SFleb. rewrite (SFcompare_swap x y).
  destruct (SFcompare x y) as [[]|] eqn:E; try done. apply SFcompare_nan in E as [?|?]; congruence.
Qed.

Lemma float_ge_not_nan x y : float_ge x y = true -> is_nan x = false /\ is_nan y = false.
Proof. by destruct x, y. Qed.

Example float_of_int_ex : float_of_int 1 = Some f_one. Proof. reflexivity. Qed.
Example float_ge_ex : float_ge f_one f_0_80 = true /\ float_ge f_0_7 f_0_80 = false. Proof. by vm_compute. Qed.
