(* ===== verification/Triage.v ===== *)
(** * LLM triage ([llm/triage.py])

    The in-process budget, the retry loop around the model call, the check of
    the returned IOCs, and the policy that decides how far the model may move
    a rule verdict.  The model's replies, the clock, the JSON decoder and the
    budget changes of concurrent workers are arguments; money is exact. *)
From S2P Require Import Prelude PyStr Findings Json.
From Stdlib Require Import QArith Lqa Sorted.

Open Scope list_scope.
Open Scope Z_scope.

Record LLMConfig := mkLLMConfig {
  MAX_USD : Q;
  MAX_CALLS_PER_HOUR : Z;
  MAX_RETRIES : Z;
  MAX_RESPONSE_TOKENS : Z;
  MAX_RESPONSE_TOKENS_CEILING : Z;
  EST_PROMPT_USD_PER_1K : Q;
  EST_COMPLETION_USD_PER_1K : Q;
}.
Definition default_llm_config : LLMConfig := mkLLMConfig 20 1000 2 5000 8000 (5 # 10000) (15 # 10000).

(** ** The budget *)

Record budget := mkBudget { spent_usd : Q; call_times : list timestamp }.

(** The reason string of [_check_budget], before formatting. *)
Inductive blocked := MaxUsdReached (spent : Q) | MaxCallsReached (n : Z).

Definition check_budget (cfg : LLMConfig) (now : timestamp) (b : budget) : option blocked * budget :=
  if Qle_bool (MAX_USD cfg) (spent_usd b) then (Some (MaxUsdReached (spent_usd b)), b)
  else
    let b := mkBudget (spent_usd b) (drop_before (now - hours 1) (call_times b)) in
    let n := Z.of_nat (length (call_times b)) in
    if MAX_CALLS_PER_HOUR cfg <=? n then (Some (MaxCallsReached n), b)
    else (None, b).

Definition record_call (now : timestamp) (cost : Q) (b : budget) : budget :=
  mkBudget (spent_usd b + cost)%Q (call_times b ++ [now]).

Definition estimate_cost (cfg : LLMConfig) (prompt_tokens completion_tokens : Z) : Q :=
  (inject_Z prompt_tokens / 1000 * EST_PROMPT_USD_PER_1K cfg +
   inject_Z completion_tokens / 1000 * EST_COMPLETION_USD_PER_1K cfg)%Q.

(** ** IOC validation *)

Record ioc := mkIoc { ioc_type : string; ioc_value : string }.

Definition IOC_TYPES : list string := ["url"; "ip"; "domain"; "hash"; "email"; "path"].

Definition validate_ioc (source : string) (entry : json) : option ioc :=
  match entry with
  | JObj o =>
      match jget "type" o JNull, jget "value" o JNull with
      | JStr t, JStr v => if str_in t IOC_TYPES && contains v source then Some (mkIoc t v) else None
      | _, _ => None
      end
  | _ => None
  end.

Definition validate_iocs (claimed : json) (source : string) : list ioc :=
  match claimed with JArr l => omap (validate_ioc source) l | _ => [] end.

(** ** How far the model may move the rule verdict *)

Definition is_exact_intel_match (f : Finding) : bool :=
  String.eqb (category f) "threat_intel" && contains "(sha256 match" (evidence f).

(** [chain_rules] is the set bound by [from detect.rules import BEHAVIORAL_CHAIN_RULES]. *)
Definition enforce_no_downgrade (chain_rules : gset string) (llm rule : verdict) (findings : list Finding)
    (conf : double) : verdict :=
  if existsb (fun f => String.eqb (rule_id f) "iocs.llm_prompt_injection") findings
     && bool_decide (llm = VBenign) && verdict_in rule [VMalicious; VSuspicious]
  then rule
  else if bool_decide (rule = VMalicious) then
    if existsb is_exact_intel_match findings then VMalicious
    else
      let has_chain := existsb (fun f => bool_decide (rule_id f ∈ chain_rules)) findings in
      if has_chain && verdict_in llm [VBenign; VSuspicious] && float_ge conf f_0_80 then llm
      else if has_chain then VMalicious
      else llm
  else llm.

(** ** One reply *)

(** What the loop reads of one upstream call: an exception, or the text, the
    finish reason and the usage of the first choice. *)
Inductive response :=
  | CallFailed (err : string)
  | Reply (content : string) (finish_reason : option string) (p_tok c_tok : Z) (cost : Q).

Definition attempt_cost (cfg : LLMConfig) (p c : Z) (cost : Q) : Q :=
  if Qle_bool cost 0 then estimate_cost cfg p c else cost.

(** [cleaned.startswith("```")], then the regex that drops the code fences. *)
Definition fence : string := "```".
Definition strip_fences (s : string) : string :=
  if startswith s fence then
    let s1 := str_drop 3 s in
    let s2 := lstrip_where is_space (if startswith (lower s1) "json" then str_drop 4 s1 else s1) in
    if endswith s2 fence then rstrip_where is_space (str_take (len s2 - 3) s2) else s2
  else s.

Definition verdict_of_name (s : string) : option verdict :=
  if String.eqb s "malicious" then Some VMalicious
  else if String.eqb s "suspicious" then Some VSuspicious
  else if String.eqb s "benign" then Some VBenign
  else if String.eqb s "inconclusive" then Some VInconclusive else None.

Definition is_length (finish_reason : option string) : bool := bool_decide (finish_reason = Some "length").

Definition escalate (cfg : LLMConfig) (finish_reason : option string) (cur : Z) : Z :=
  if is_length finish_reason && (cur <? MAX_RESPONSE_TOKENS_CEILING cfg)
  then Z.min (Z.quot (cur * 3) 2) (MAX_RESPONSE_TOKENS_CEILING cfg) else cur.

(** What one reply means for the loop. *)
Inductive judged :=
  | Accept (fields : list (string * json)) (v : verdict)
  | Retry (err : string) (max_tokens : Z)
  | RaiseOut (err : string).

Section Loop.
Variable cfg : LLMConfig.
Variable loads : string -> option json.
(** [str(v)] of a decoded value, and the text of a budget refusal. *)
Variable str_of : json -> string.
Variable render : blocked -> string.

Definition judge (content : string) (fr : option string) (cur : Z) : judged :=
  match loads (strip_fences (strip content)) with
  | None => Retry "invalid JSON from model" (escalate cfg fr cur)
  | Some (JObj fields) =>
      let cand := lower (str_of (jget "verdict" fields (JStr ""))) in
      match verdict_of_name cand with
      | None => Retry ("invalid verdict: " +:+ repr cand) cur
      | Some v =>
          if is_length fr && verdict_in v [VBenign; VSuspicious]
          then Retry "clearing verdict from length-truncated response" (escalate cfg fr cur)
          else Accept fields v
      end
  | Some _ => RaiseOut "AttributeError"
  end.

(** ** The loop *)

(** One request as it was sent: its token limit, the budget it was checked
    against, and what it cost. *)
Record call := mkCall { c_tokens : Z; c_budget : budget; c_cost : Q }.

Record tstate := mkT {
  t_budget : budget;
  total_cost : Q;
  total_prompt : Z;
  total_completion : Z;
  last_err : string;
  current_max_tokens : Z;
  calls : list call;
}.

Inductive loop_end := Parsed (fields : list (string * json)) (v : verdict) | NoVerdict | LoopRaised (err : string).

(** The model's reply to request [k] with the given limit; the clock; the
    budget updates of other workers before and during attempt [k]. *)
Variable ask : nat -> Z -> response.
Variable clock : nat -> timestamp.
Variable env : nat -> budget -> budget.

Fixpoint attempt_loop (n k : nat) (st : tstate) : loop_end * tstate :=
  match n with
  | O => (NoVerdict, st)
  | S n' =>
      let '(block, b) := check_budget cfg (clock (2 * k)) (env (2 * k) (t_budget st)) in
      match block with
      | Some r =>
          (NoVerdict, mkT b (total_cost st) (total_prompt st) (total_completion st)
             ("budget: " +:+ render r) (current_max_tokens st) (calls st))
      | None =>
          let cur := current_max_tokens st in
          let during := env (2 * k + 1) b in
          match ask k cur with
          | CallFailed err =>
              attempt_loop n' (S k)
                (mkT (record_call (clock (2 * k + 1)) 0 during) (total_cost st) (total_prompt st)
                   (total_completion st) ("LLM call failed: " +:+ err) cur
                   (calls st ++ [mkCall cur b 0]))
          | Reply content fr p c cost =>
              let cost := attempt_cost cfg p c cost in
              let st' err cur' :=
                mkT (record_call (clock (2 * k + 1)) cost during) (total_cost st + cost)%Q
                  (total_prompt st + p) (total_completion st + c) err cur' (calls st ++ [mkCall cur b cost]) in
              match judge content fr cur with
              | Accept fields v => (Parsed fields v, st' (last_err st) cur)
              | Retry err cur' => attempt_loop n' (S k) (st' err cur')
              | RaiseOut err => (LoopRaised err, st' (last_err st) cur)
              end
          end
      end
  end.

End Loop.

(** ** [triage] *)

Record LLMTriageResult := mkResult {
  r_verdict : verdict;
  r_confidence : double;
  r_reasoning : string;
  r_missing_evidence : string;
  r_iocs : list ioc;
  r_agrees : option bool;
  r_prompt_tokens : Z;
  r_completion_tokens : Z;
  r_cost_usd : Q;
}.

Inductive triage_out := Triaged (r : LLMTriageResult) | TriageRaised (err : string).

Section Triage.
Variable cfg : LLMConfig.
Variable loads : string -> option json.
(** [str(v)], [float(s)] where the program applies them to decoded values. *)
Variable str_of : json -> string.
Variable float_of_str : string -> option double.
Variable render : blocked -> string.
Variable ask : nat -> Z -> response.
Variable clock : nat -> timestamp.
Variable env : nat -> budget -> budget.
Variable chain_rules : gset string.

(** [float(parsed.get("confidence", 0.0) or 0.0)]; [None] raises. *)
Definition confidence_of (fields : list (string * json)) : option double :=
  let v := jget "confidence" fields (JFloat f_zero) in
  if json_truthy v then
    match v with
    | JBool _ => Some f_one
    | JInt n => float_of_int n
    | JFloat f => Some f
    | JStr s => float_of_str s
    | _ => None
    end
  else Some f_zero.

Definition agrees_of (fields : list (string * json)) : option bool :=
  match jget "agrees_with_rules" fields JNull with
  | JBool b => Some b
  | JInt n => Some (negb (n =? 0))
  | JStr s => Some (String.eqb s "true")
  | _ => None
  end.

Definition text_of (k : string) (n : nat) (fields : list (string * json)) : string :=
  str_take n (str_of (jget k fields (JStr ""))).

Definition skipped (why : string) : LLMTriageResult :=
  mkResult VSkipped f_zero ("budget: " +:+ why) "" [] None 0 0 0.

Definition finish (rule : verdict) (findings : list Finding) (source : string) (e : loop_end) (st : tstate)
    : triage_out :=
  match e with
  | LoopRaised err => TriageRaised err
  | NoVerdict =>
      Triaged (mkResult VError f_zero (str_or (last_err st) "LLM triage failed") "" [] None
        (total_prompt st) (total_completion st) (total_cost st))
  | Parsed fields v =>
      match confidence_of fields with
      | None => TriageRaised "ValueError"
      | Some conf =>
          Triaged (mkResult (enforce_no_downgrade chain_rules v rule findings conf) conf
            (text_of "reasoning" 2000 fields) (text_of "missing_evidence" 600 fields)
            (validate_iocs (jget "iocs" fields (JArr [])) source) (agrees_of fields)
            (total_prompt st) (total_completion st) (total_cost st))
      end
  end.

Definition start (b : budget) : tstate := mkT b 0 0 0 "" (MAX_RESPONSE_TOKENS cfg) [].

Definition triage (now : timestamp) (rule : verdict) (findings : list Finding) (source : string) (b : budget)
    : triage_out * tstate :=
  let '(block, b) := check_budget cfg now b in
  match block with
  | Some r => (Triaged (skipped (render r)), start b)
  | None =>
      let '(e, st) := attempt_loop cfg loads str_of render ask clock env (Z.to_nat (MAX_RETRIES cfg + 1)) 0 (start b) in
      (finish rule findings source e st, st)
  end.

End Triage.

(** ** Lemmas on the budget *)

Lemma check_budget_spent cfg now b : spent_usd (check_budget cfg now b).2 = spent_usd b.
Proof. unfold check_budget. by repeat case_match. Qed.

Definition within_budget (cfg : LLMConfig) (b : budget) : Prop :=
  (spent_usd b < MAX_USD cfg)%Q /\ Z.of_nat (length (call_times b)) < MAX_CALLS_PER_HOUR cfg.

Lemma check_budget_pass cfg now b b' : check_budget cfg now b = (None, b') -> within_budget cfg b'.
Proof.
  unfold check_budget, within_budget. destruct (Qle_bool _ _) eqn:E; [done|].
  destruct (_ <=? _) eqn:E2; [done|]. intros [= <-]; simpl in *. bool_to_Z. split; [|done].
  apply Qnot_le_lt. intros H%Qle_bool_iff. congruence.
Qed.

(** The clock entries that survive a check are the calls of the last hour. *)
Lemma check_budget_window cfg now b b' t :
  check_budget cfg now b = (None, b') ->
  StronglySorted Z.le (call_times b) ->
  t ∈ call_times b' <-> t ∈ call_times b /\ now - hours 1 <= t.
Proof.
  unfold check_budget. destruct (Qle_bool _ _); [done|]. destruct (_ <=? _); [done|].
  intros [= <-]; simpl. induction 1 as [|x l Hl IH Hx]; simpl; [set_solver|].
  destruct (x <? now - hours 1) eqn:E; bool_to_Z.
  - rewrite IH. set_solver by lia.
  - rewrite Forall_forall in Hx. split; [|tauto]. intros Hin. split; [done|].
    apply elem_of_cons in Hin as [->|Hin]; [done|]. specialize (Hx _ Hin). lia.
Qed.

Lemma escalate_bounds cfg fr cur :
  escalate cfg fr cur <= Z.max cur (MAX_RESPONSE_TOKENS_CEILING cfg).
Proof. unfold escalate. destruct (_ && _); lia. Qed.

Lemma escalate_mono cfg fr cur : 0 <= cur -> cur <= escalate cfg fr cur.
Proof.
  unfold escalate. destruct (is_length fr); simpl; [|lia]. destruct (cur <? _) eqn:E; [|lia]. bool_to_Z.
  intros Hc. apply Z.min_glb; [|lia]. rewrite Z.quot_div_nonneg by lia. apply Z.div_le_lower_bound; lia.
Qed.

(** ** Lemmas on the loop *)

Section LoopLemmas.
Variable cfg : LLMConfig.
Variable loads : string -> option json.
Variable str_of : json -> string.
Variable render : blocked -> string.
Variable ask : nat -> Z -> response.
Variable clock : nat -> timestamp.
Variable env : nat -> budget -> budget.

Abbreviation loop := (attempt_loop cfg loads str_of render ask clock env).

Definition qsum (l : list call) : Q := foldr (fun c acc => (c_cost c + acc)%Q) 0%Q l.

Ltac money := unfold qsum, record_call in *; cbn [foldr c_cost t_budget total_cost spent_usd c_budget] in *; lra.

Lemma qsum_app l c : (qsum (l ++ [c]) == qsum l + c_cost c)%Q.
Proof. induction l as [|x l IH]; simpl; [lra|]. rewrite IH. lra. Qed.

(** A request was allowed: the budget it was checked against had room, and its
    token limit is under the ceiling. *)
Definition allowed (cap : Z) (c : call) : Prop :=
  within_budget cfg (c_budget c) /\ c_tokens c <= cap.

Lemma judge_retry content fr cur err cur' :
  judge cfg loads str_of content fr cur = Retry err cur' ->
  cur' <= Z.max cur (MAX_RESPONSE_TOKENS_CEILING cfg).
Proof.
  pose proof (escalate_bounds cfg fr cur). unfold judge. repeat case_match; intros; simplify_eq; lia.
Qed.

(** The trace of the loop: bounded, every request allowed, costs accounted for. *)
Lemma loop_trace n k st e st' :
  loop n k st = (e, st') ->
  exists new, calls st' = calls st ++ new /\ (length new <= n)%nat /\
    Forall (allowed (Z.max (current_max_tokens st) (MAX_RESPONSE_TOKENS_CEILING cfg))) new /\
    (total_cost st' == total_cost st + qsum new)%Q.
Proof.
  revert k st. induction n as [|n IH]; intros k st; cbn [attempt_loop].
  { intros [= <- <-]. exists []. rewrite app_nil_r. split_and!; [done|apply Nat.le_0_l|constructor|money]. }
  destruct (check_budget _ _ _) as [[r|] b] eqn:Hb.
  { intros [= <- <-]; cbn [calls total_cost t_budget]. exists []. rewrite app_nil_r. split_and!; [done|apply Nat.le_0_l|constructor|money]. }
  apply check_budget_pass in Hb.
  assert (forall cost cur' st1, calls st1 = calls st ++ [mkCall (current_max_tokens st) b cost] ->
    (total_cost st1 == total_cost st + cost)%Q -> current_max_tokens st1 = cur' ->
    cur' <= Z.max (current_max_tokens st) (MAX_RESPONSE_TOKENS_CEILING cfg) ->
    loop n (S k) st1 = (e, st') ->
    exists new, calls st' = calls st ++ new /\ (length new <= S n)%nat /\
      Forall (allowed (Z.max (current_max_tokens st) (MAX_RESPONSE_TOKENS_CEILING cfg))) new /\
      (total_cost st' == total_cost st + qsum new)%Q) as Hstep.
  { intros cost cur' st1 Hc1 Hcost Hcur Hle Hl. apply IH in Hl as (new & Hc & Hlen & Hall & Hsum).
    exists (mkCall (current_max_tokens st) b cost :: new). rewrite Hc, Hc1, <- app_assoc.
    split_and!; [done|simpl; lia| |].
    2: { rewrite Hsum, Hcost. money. }
    constructor; [split; [done|simpl; lia]|]. eapply Forall_impl; [exact Hall|].
    intros c [Hw Ht]. split; [done|]. lia. }
  assert (forall cost, exists new, calls st ++ [mkCall (current_max_tokens st) b cost] = calls st ++ new /\ (length new <= S n)%nat /\
    Forall (allowed (Z.max (current_max_tokens st) (MAX_RESPONSE_TOKENS_CEILING cfg))) new /\
    (total_cost st + cost == total_cost st + qsum new)%Q) as Hlast.
  { intros cost. eexists [_]. split_and!; [done|simpl; lia| |money].
    repeat constructor; simpl; try apply Hb; lia. }
  destruct (ask k _) as [err|content fr p c cost].
  - eapply (Hstep 0%Q); [done|cbn [total_cost]; lra|done|simpl; lia].
  - destruct (judge _ _ _ _ _ _) as [fields v|err cur'|err] eqn:Hj.
    + intros [= <- <-]. apply Hlast.
    + eapply (Hstep (attempt_cost cfg p c cost)); [done|done|done|]. by eapply judge_retry.
    + intros [= <- <-]. apply Hlast.
Qed.

(** Without other workers the budget moves by exactly what the requests cost,
    and only the last request can take it over the limit. *)
Lemma loop_spend n k st e st' :
  (forall i b, env i b = b) -> loop n k st = (e, st') ->
  exists new, calls st' = calls st ++ new /\ (spent_usd (t_budget st') == spent_usd (t_budget st) + qsum new)%Q /\
    (new = [] \/ exists c, last new = Some c /\ (spent_usd (t_budget st') == spent_usd (c_budget c) + c_cost c)%Q).
Proof.
  intros Henv. revert k st. induction n as [|n IH]; intros k st; cbn [attempt_loop].
  { intros [= <- <-]. exists []. rewrite app_nil_r. split_and!; [done|money|by left]. }
  rewrite Henv. pose proof (check_budget_spent cfg (clock (2 * k)) (t_budget st)) as Hsp.
  destruct (check_budget _ _ _) as [[r|] b] eqn:Hb; simpl in Hsp.
  { intros [= <- <-]; cbn [calls total_cost t_budget]. exists []. rewrite app_nil_r, Hsp. split_and!; [done|money|by left]. }
  assert (forall cost st1, calls st1 = calls st ++ [mkCall (current_max_tokens st) b cost] ->
    t_budget st1 = record_call (clock (2 * k + 1)) cost b -> loop n (S k) st1 = (e, st') ->
    exists new, calls st' = calls st ++ new /\ (spent_usd (t_budget st') == spent_usd (t_budget st) + qsum new)%Q /\
    (new = [] \/ exists c, last new = Some c /\ (spent_usd (t_budget st') == spent_usd (c_budget c) + c_cost c)%Q)) as Hstep.
  { intros cost st1 Hc1 Hb1 Hl. apply IH in Hl as (new & Hc & Hs & Hlast). rewrite Hb1 in Hs. simpl in Hs.
    exists (mkCall (current_max_tokens st) b cost :: new). rewrite Hc, Hc1, <- app_assoc.
    split_and!; [done|rewrite Hs, <- Hsp; money|]. right.
    destruct Hlast as [->|(c & Hc' & Hs')]; [eexists; split; [done|]; simpl in *; rewrite Hs; money|].
    exists c. split; [|done]. destruct new; done. }
  assert (forall cost, exists new, calls st ++ [mkCall (current_max_tokens st) b cost] = calls st ++ new /\
    (spent_usd b + cost == spent_usd (t_budget st) + qsum new)%Q /\
    (new = [] \/ exists c, last new = Some c /\ (spent_usd b + cost == spent_usd (c_budget c) + c_cost c)%Q)) as Hl.
  { intros cost. eexists [_]. split_and!; [done|rewrite Hsp; money|right; eexists; split; [done|money]]. }
  destruct (ask k _) as [err|content fr p c cost]; [|destruct (judge _ _ _ _ _ _) as [fields v|err cur'|err]].
  - apply (Hstep 0%Q); simpl; by rewrite ?Henv.
  - intros [= <- <-]; cbn [calls t_budget record_call spent_usd]. rewrite Henv. by apply Hl.
  - apply (Hstep (attempt_cost cfg p c cost)); simpl; by rewrite ?Henv.
  - intros [= <- <-]; cbn [calls t_budget record_call spent_usd]. rewrite Henv. by apply Hl.
Qed.

(** A parsed verdict is the judgement of some reply the loop asked for. *)
Lemma loop_parsed n k st fields v st' :
  loop n k st = (Parsed fields v, st') ->
  exists j content fr p c cost cur, (k <= j < k + n)%nat /\ ask j cur = Reply content fr p c cost /\
    judge cfg loads str_of content fr cur = Accept fields v.
Proof.
  revert k st. induction n as [|n IH]; intros k st; cbn [attempt_loop]; [done|].
  destruct (check_budget _ _ _) as [[r|] b] eqn:Hb; [done|].
  destruct (ask k _) as [err|content fr p c cost] eqn:Ha; [|destruct (judge _ _ _ _ _ _) as [f0 v0|err cur'|err] eqn:Hj].
  - intros Hl. apply IH in Hl as (j & ct & fr & p & c & cost & cur & Hj & ?). exists j, ct, fr, p, c, cost, cur. split; [lia|done].
  - intros [= -> -> _]. exists k, content, fr, p, c, cost, (current_max_tokens st). split; [lia|done].
  - intros Hl. apply IH in Hl as (j & ct & fr0 & p0 & c0 & cost0 & cur & Hj' & ?). exists j, ct, fr0, p0, c0, cost0, cur. split; [lia|done].
  - done.
Qed.

End LoopLemmas.

(** ** Lemmas on the policy *)

Definition injected (fs : list Finding) : Prop := exists f, f ∈ fs /\ rule_id f = "iocs.llm_prompt_injection".
Definition exact_intel (fs : list Finding) : Prop :=
  exists f, f ∈ fs /\ category f = "threat_intel" /\ contains "(sha256 match" (evidence f) = true.
Definition chained (chain_rules : gset string) (fs : list Finding) : Prop :=
  exists f, f ∈ fs /\ rule_id f ∈ chain_rules.

Lemma injected_true fs :
  existsb (fun f => String.eqb (rule_id f) "iocs.llm_prompt_injection") fs = true <-> injected fs.
Proof. rewrite existsb_true. by setoid_rewrite String.eqb_eq. Qed.

Lemma exact_intel_true fs : existsb is_exact_intel_match fs = true <-> exact_intel fs.
Proof. rewrite existsb_true. unfold is_exact_intel_match. by setoid_rewrite andb_true_iff; setoid_rewrite String.eqb_eq. Qed.

Lemma chained_true ch fs : existsb (fun f => bool_decide (rule_id f ∈ ch)) fs = true <-> chained ch fs.
Proof. rewrite existsb_true. by setoid_rewrite bool_decide_eq_true. Qed.

(** A confidence that is not a number never reaches the override threshold. *)
Lemma conf_not_nan conf : float_ge conf f_0_80 = true -> conf <> S754_nan.
Proof. intros H ->. by rewrite float_ge_nan in H. Qed.

Definition held (llm rule : verdict) (fs : list Finding) : Prop :=
  injected fs /\ llm = VBenign /\ rule ∈ [VMalicious; VSuspicious].

Lemma held_true llm rule fs :
  existsb (fun f => String.eqb (rule_id f) "iocs.llm_prompt_injection") fs
     && bool_decide (llm = VBenign) && verdict_in rule [VMalicious; VSuspicious] = true <-> held llm rule fs.
Proof. unfold held. rewrite !andb_true_iff, injected_true, bool_decide_eq_true, verdict_in_true. tauto. Qed.

(** The four ways through [_enforce_no_downgrade]. *)
Lemma enforce_cases ch llm rule fs conf :
  let v := enforce_no_downgrade ch llm rule fs conf in
  (v = rule /\ held llm rule fs) \/
  (v = VMalicious /\ rule = VMalicious /\ ~ held llm rule fs /\ (exact_intel fs \/ chained ch fs)) \/
  (v = llm /\ rule = VMalicious /\ ~ held llm rule fs /\ ~ exact_intel fs /\ chained ch fs /\
     llm ∈ [VBenign; VSuspicious] /\ float_ge conf f_0_80 = true) \/
  (v = llm /\ ~ held llm rule fs /\ (rule <> VMalicious \/ ~ exact_intel fs /\ ~ chained ch fs)).
Proof.
  intros v. subst v. unfold enforce_no_downgrade.
  destruct (_ && verdict_in rule _) eqn:Eh; [left; split; [done|by apply held_true]|right].
  rewrite <- not_true_iff_false, held_true in Eh. case_bool_decide as Hr; [|right; right; auto].
  destruct (existsb is_exact_intel_match fs) eqn:Ee; [left; apply exact_intel_true in Ee; auto|].
  rewrite <- not_true_iff_false, exact_intel_true in Ee.
  destruct (existsb _ fs) eqn:Ec; [rewrite chained_true in Ec|rewrite <- not_true_iff_false, chained_true in Ec];
    simpl; [|right; right; auto].
  destruct (verdict_in llm _ && float_ge _ _) eqn:Eo; [|left; auto].
  apply andb_true_iff in Eo as [Hl Hf]. apply verdict_in_true in Hl. right; left. auto 10.
Qed.

Lemma validate_ioc_Some src e i :
  validate_ioc src e = Some i <-> exists o, e = JObj o /\ jget "type" o JNull = JStr (ioc_type i) /\
    jget "value" o JNull = JStr (ioc_value i) /\ ioc_type i ∈ IOC_TYPES /\ contains (ioc_value i) src = true.
Proof.
  unfold validate_ioc. split.
  - intros H. repeat case_match; try done. simplify_eq. exists l. rewrite andb_true_iff, str_in_true in *. simpl. tauto.
  - intros (o & -> & -> & -> & Ht & Hv). apply str_in_true in Ht. rewrite Ht, Hv. by destruct i.
Qed.

(** ** Properties *)


(** The budget guards every paid request.  Triage makes at most [MAX_RETRIES + 1] requests;
    each is preceded, whatever other workers spend in between, by a check that found the
    spending under [MAX_USD] and fewer than [MAX_CALLS_PER_HOUR] calls in the window; its
    token limit never passes the ceiling; and the cost reported is the cost of the requests. *)
Theorem triage_budget_guard cfg loads str_of fos render ask clock env ch now rule fs src b :
  let '(out, st) := triage cfg loads str_of fos render ask clock env ch now rule fs src b in
  (length (calls st) <= Z.to_nat (MAX_RETRIES cfg + 1))%nat /\
  (forall c, c ∈ calls st -> within_budget cfg (c_budget c) /\
     c_tokens c <= Z.max (MAX_RESPONSE_TOKENS cfg) (MAX_RESPONSE_TOKENS_CEILING cfg)) /\
  (total_cost st == qsum (calls st))%Q /\
  ((check_budget cfg now b).1 <> None -> calls st = []).
Proof.
  unfold triage. destruct (check_budget cfg now b) as [[r|] b'] eqn:Hb.
  { cbn [calls start total_cost]. split_and!; [simpl; lia|set_solver|reflexivity|done]. }
  destruct (attempt_loop _ _ _ _ _ _ _ _ _ _) as [e st] eqn:Hl.
  pose proof (loop_trace _ _ _ _ _ _ _ _ _ _ _ _ Hl) as (new & Hc & Hlen & Hall & Hsum).
  cbn [calls start app] in Hc. subst new. rewrite Forall_forall in Hall. split_and!; [done| | |].
  - intros c Hin. by apply Hall in Hin.
  - rewrite Hsum. cbn [total_cost start]. lra.
  - done.
Qed.

(** One worker overdraws by at most one request: started under the limit and left
    alone, triage spends exactly what it reports, and before its last request the spending
    was still under [MAX_USD]. *)
Theorem triage_overdraft cfg loads str_of fos render ask clock env ch now rule fs src b out st :
  (forall i b, env i b = b) ->
  triage cfg loads str_of fos render ask clock env ch now rule fs src b = (out, st) ->
  (spent_usd (t_budget st) == spent_usd b + total_cost st)%Q /\
  (calls st <> [] -> exists c, last (calls st) = Some c /\ (spent_usd (t_budget st) < MAX_USD cfg + c_cost c)%Q).
Proof.
  intros Henv. unfold triage. pose proof (check_budget_spent cfg now b) as Hsp.
  destruct (check_budget cfg now b) as [[r|] b'] eqn:Hb; simpl in Hsp.
  { intros [= <- <-]; cbn [t_budget start total_cost calls]. rewrite Hsp. split; [lra|done]. }
  destruct (attempt_loop _ _ _ _ _ _ _ _ _ _) as [e st1] eqn:Hl. intros [= _ <-].
  pose proof (loop_trace _ _ _ _ _ _ _ _ _ _ _ _ Hl) as (new & Hc & _ & Hall & Hsum).
  apply loop_spend in Hl as (new' & Hc' & Hs & Hlast); [|done].
  cbn [calls start app t_budget total_cost] in *. subst new new'. split; [rewrite Hs, Hsum, Hsp; lra|].
  intros Hne. destruct Hlast as [|(c & Hlc & Hs')]; [done|]. exists c. split; [done|].
  rewrite Forall_forall in Hall. destruct (Hall c) as [[Hw _] _]; [by apply last_Some_elem_of|]. rewrite Hs'. lra.
Qed.

Definition ex_fields : list (string * json) :=
  [("verdict", JStr "Benign"); ("confidence", JFloat f_one); ("agrees_with_rules", JBool false);
   ("iocs", JArr [JObj [("type", JStr "url"); ("value", JStr "http://x")];
                  JObj [("type", JStr "url"); ("value", JStr "http://y")]])].
Definition ex_loads (s : string) : option json := if String.eqb s "{}" then Some (JObj ex_fields) else None.
Definition ex_str (v : json) : string := match v with JStr s => s | _ => "None" end.
(** The first reply is cut off, the second is fenced JSON. *)
Definition ex_ask (k : nat) (limit : Z) : response :=
  match k with O => Reply "{" (Some "length") 1000 2000 0 | _ => Reply "```json {}```" (Some "stop") 10 20 1 end.
Definition ex_triage :=
  triage default_llm_config ex_loads ex_str (fun _ => None) (fun _ => "") ex_ask (fun k => Z.of_nat k)
    (fun _ b => b) ∅ 0 VSuspicious [] "curl http://x" (mkBudget 19 []).

Lemma triage_overdraft_witness :
  exists st, ex_triage.2 = st /\ map c_tokens (calls st) = [5000; 7500] /\
    (spent_usd (t_budget st) == 19 + total_cost st)%Q.
Proof.
  exists ex_triage.2. split; [reflexivity|]. split; [vm_compute; reflexivity|].
  apply (triage_overdraft default_llm_config ex_loads ex_str (fun _ => None) (fun _ => "") ex_ask
    (fun k => Z.of_nat k) (fun _ b => b) ∅ 0 VSuspicious [] "curl http://x" (mkBudget 19 []) ex_triage.1 ex_triage.2);
    [done|vm_compute; reflexivity].
Defined.

(** C12. A verdict that is neither an error nor a skip comes from the model: some reply parsed
    to a JSON object with one of the four verdicts, a clearing verdict not from a truncated
    reply, and the result is the policy applied to it; every IOC kept occurs in the source. *)
Theorem triage_sound cfg loads str_of fos render ask clock env ch now rule fs src b r st :
  triage cfg loads str_of fos render ask clock env ch now rule fs src b = (Triaged r, st) ->
  r_verdict r ∉ [VError; VSkipped] ->
  exists k limit content fr p c cost fields v conf,
    ask k limit = Reply content fr p c cost /\
    loads (strip_fences (strip content)) = Some (JObj fields) /\
    verdict_of_name (lower (str_of (jget "verdict" fields (JStr "")))) = Some v /\
    ~ (fr = Some "length" /\ v ∈ [VBenign; VSuspicious]) /\
    confidence_of fos fields = Some conf /\ r_confidence r = conf /\
    r_verdict r = enforce_no_downgrade ch v rule fs conf /\
    (len (r_reasoning r) <= 2000)%nat /\
    forall i, i ∈ r_iocs r -> ioc_type i ∈ IOC_TYPES /\ contains (ioc_value i) src = true.
Proof.
  unfold triage. destruct (check_budget cfg now b) as [[?|] b']; [intros [= <- _]; simpl; set_solver|].
  destruct (attempt_loop _ _ _ _ _ _ _ _ _ _) as [e st1] eqn:Hl. intros [= Hf <-] Hv.
  destruct e as [fields v| |err]; simpl in Hf; [|simplify_eq; simpl in Hv; set_solver|done].
  destruct (confidence_of fos fields) as [conf|] eqn:Hconf; [|done].
  apply loop_parsed in Hl as (k & content & fr & p & c & cost & limit & _ & Ha & Hj).
  exists k, limit, content, fr, p, c, cost, fields, v, conf. unfold judge in Hj.
  injection Hf as <-.
  destruct (loads _) as [j|] eqn:Hld; [|done]. destruct j as [| | | | | |f0]; try done.
  destruct (verdict_of_name _) as [v0|] eqn:Hvn; [|done].
  destruct (is_length fr && _) eqn:Ht; [done|]. injection Hj as <- <-. simpl.
  split_and!; try done.
  - intros [-> Hin]. unfold is_length in Ht. rewrite bool_decide_true in Ht by done.
    apply verdict_in_true in Hin. by rewrite Hin in Ht.
  - apply str_take_length.
  - intros i. unfold validate_iocs. destruct (jget "iocs" _ _); try (by intros ?%elem_of_nil).
    intros (x & Hx & Hi)%list_elem_of_omap. apply validate_ioc_Some in Hi. naive_solver.
Qed.

Lemma triage_sound_witness :
  exists r st, ex_triage = (Triaged r, st) /\ r_verdict r = VBenign /\ r_iocs r = [mkIoc "url" "http://x"] /\
    (len (r_reasoning r) <= 2000)%nat.
Proof.
  eexists _, _. split; [vm_compute; reflexivity|]. split; [reflexivity|]. split; [reflexivity|].
  edestruct (triage_sound default_llm_config ex_loads ex_str (fun _ => None) (fun _ => "") ex_ask
    (fun k => Z.of_nat k) (fun _ b => b) ∅ 0 VSuspicious [] "curl http://x" (mkBudget 19 []))
    as (k & li & ct & fr & p & c & co & fs & v & conf & _ & _ & _ & _ & _ & _ & _ & Hlen & _);
    [vm_compute; reflexivity|simpl; set_solver|exact Hlen].
Defined.

(** The comment in [_enforce_no_downgrade] holds an injected package "at the rule verdict";
    the code only holds a benign verdict, a suspicious one still softens a malicious rule. *)
Example injection_softened :
  enforce_no_downgrade ∅ VSuspicious VMalicious
    [mkFinding "iocs.llm_prompt_injection" "iocs" SHigh CHigh "a.js" None ""] f_zero = VSuspicious.
Proof. reflexivity. Qed.
