(* ===== verification/Watch.v ===== *)
(** * The watchlist and its automatic entries ([watchlist_auto.py])

    The [watchlist] table, promotion of a confirmed-malicious name with the
    blocklist, the add-rate limiter and the racing insert, and the janitor. *)
From S2P Require Import Prelude PyStr Sql.
From Stdlib Require Import Sorted Ascii.

Open Scope list_scope.
Open Scope Z_scope.

Record watch := mkWatch {
  w_id : Z;
  w_ecosystem : string;
  w_name : string;
  w_rank : Z;
  w_downloads : Z;
  w_refreshed_at : timestamp;
}.
#[export] Instance watch_entity : Entity watch := {| row_id := w_id |}.
Abbreviation wtable := (table watch).

Definition w_key (w : watch) : string * string := (w_ecosystem w, w_name w).

Definition AUTO_MALICIOUS_RANK : Z := 9999999.

(** The environment of the module. *)
Record AutoConfig := mkAuto {
  WATCHLIST_AUTO_MALICIOUS : option string;
  WATCHLIST_AUTO_BLOCKLIST : option string;
  ttl_days : Z;
  max_per_eco : Z;
  max_adds_per_hour : Z;
}.
Definition default_auto : AutoConfig := mkAuto None None 180 5000 100.

Section Watch.
Variable cfg : AutoConfig.

Definition is_enabled : bool :=
  negb (str_in (lower (default "1" (WATCHLIST_AUTO_MALICIOUS cfg))) ["0"; "false"; "off"; "no"]).

(** [out[eco.strip()].add(name.strip().lower())] for each [eco:name] token. *)
Definition blocklist_token (out : list (string * list string)) (token : string) : list (string * list string) :=
  let token := strip token in
  match after_first ":"%char token with
  | None => out
  | Some nm =>
      let eco := strip (before_first ":"%char token) in
      dset eco (append_new (dget_or eco [] out) [lower (strip nm)]) out
  end.
Definition blocklist : list (string * list string) :=
  let raw := strip (default "" (WATCHLIST_AUTO_BLOCKLIST cfg)) in
  if truthy raw then fold_left blocklist_token (split ","%char raw) [] else [].

(** [name.lower() in _blocklist().get(ecosystem, set())]. *)
Definition blocklisted (eco nm : string) : bool := str_in (lower nm) (dget_or eco [] blocklist).

(** [_rate_limited]: one deque of monotonic times per ecosystem. *)
Abbreviation rates := (list (string * list timestamp)).
Definition rate_limited (now : timestamp) (eco : string) (st : rates) : bool * rates :=
  if max_adds_per_hour cfg <=? 0 then (false, st)
  else
    let '(ok, dq) := admit_event (max_adds_per_hour cfg) (hours 1) now (dget_or eco [] st) in
    (negb ok, dset eco dq st).

Definition same_name (eco nm : string) (w : watch) : bool :=
  String.eqb (w_ecosystem w) eco && String.eqb (lower (w_name w)) (lower nm).
Definition is_auto (w : watch) : bool := w_rank w =? AUTO_MALICIOUS_RANK.
Definition refresh (now : timestamp) (w : watch) : watch :=
  mkWatch (w_id w) (w_ecosystem w) (w_name w) (w_rank w) (w_downloads w) now.
Definition new_auto (now : timestamp) (eco nm : string) (i : Z) : watch :=
  mkWatch i eco nm AUTO_MALICIOUS_RANK 0 now.

Inductive added := Added | Refreshed | AlreadyPopularity | Blocklisted | RateLimited.

(** [env] commits what other workers do between the lookup and the insert;
    [mono] is [time.monotonic()]. *)
Definition add_confirmed_malicious (env : wtable -> wtable) (now mono : timestamp) (eco nm : string)
    (st : rates) (t : wtable) : option added * rates * wtable :=
  if negb is_enabled then (None, st, t)
  else if blocklisted eco nm then (Some Blocklisted, st, t)
  else
    match first (same_name eco nm) t with
    | Some w =>
        if is_auto w then (Some Refreshed, st, put (refresh now w) t)
        else (Some AlreadyPopularity, st, t)
    | None =>
        let '(limited, st) := rate_limited mono eco st in
        if limited then (Some RateLimited, st, t)
        else
          match insert_unique w_key (new_auto now eco nm) (env t) with
          | Some (t', _) => (Some Added, st, t')
          | None => (Some AlreadyPopularity, st, env t)
          end
    end.

Definition expired (cutoff : timestamp) (w : watch) : bool := is_auto w && (w_refreshed_at w <? cutoff).
Definition prune_expired (now : timestamp) (t : wtable) : Z * wtable :=
  if ttl_days cfg <=? 0 then (0, t)
  else
    let cutoff := now - days (ttl_days cfg) in
    (count_where (expired cutoff) t, delete_where (expired cutoff) t).

Definition auto_in (eco : string) (w : watch) : bool := String.eqb (w_ecosystem w) eco && is_auto w.

(** One ecosystem of [prune_over_cap]. *)
Definition prune_eco (st : Z * wtable) (eco : string) : Z * wtable :=
  let rows := ssort (asc w_refreshed_at) (select (auto_in eco) st.2) in
  let excess := Z.of_nat (length rows) - max_per_eco cfg in
  if excess <=? 0 then st
  else
    let ids := map w_id (List.firstn (Z.to_nat excess) rows) in
    (st.1 + excess, delete_where (fun w => bool_decide (w_id w ∈ ids)) st.2).

Definition CAPPED_ECOSYSTEMS : list string := ["pypi"; "crates"; "gomod"; "npm"].

Definition prune_over_cap (t : wtable) : Z * wtable :=
  if max_per_eco cfg <=? 0 then (0, t) else fold_left prune_eco CAPPED_ECOSYSTEMS (0, t).

End Watch.

Definition list_auto_entries (eco : option string) (t : wtable) : list (string * string * timestamp) :=
  map (fun w => (w_ecosystem w, w_name w, w_refreshed_at w))
    (ssort (desc w_refreshed_at)
      (select (fun w => is_auto w && (negb (otruthy eco) || String.eqb (w_ecosystem w) (ostr eco))) t)).

Definition is_watchlist_auto_only (eco nm : string) (t : wtable) : bool :=
  exists_row (fun w => same_name eco nm w && is_auto w) t.

Definition remove_auto_entry (eco nm : string) (t : wtable) : bool * wtable :=
  (exists_row (fun w => same_name eco nm w && is_auto w) t,
   delete_where (fun w => same_name eco nm w && is_auto w) t).

(** [pipeline._is_watchlist] and [pipeline._watchlist_top_names]. *)
Definition is_watchlist (nm eco : string) (t : wtable) : option Z :=
  w_rank <$> first (fun w => String.eqb (w_ecosystem w) eco && String.eqb (w_name w) nm) t.

Definition watchlist_top_names (eco : string) (limit : nat) (t : wtable) : list string :=
  map w_name (List.firstn limit (ssort (asc w_rank) (select (fun w => String.eqb (w_ecosystem w) eco) t))).

(** ** Lemmas *)

Lemma same_name_true eco nm w :
  same_name eco nm w = true <-> w_ecosystem w = eco /\ lower (w_name w) = lower nm.
Proof. unfold same_name. by rewrite andb_true_iff, !String.eqb_eq. Qed.

Lemma auto_in_true eco w : auto_in eco w = true <-> w_ecosystem w = eco /\ w_rank w = AUTO_MALICIOUS_RANK.
Proof. unfold auto_in, is_auto. by rewrite andb_true_iff, String.eqb_eq, Z.eqb_eq. Qed.

Section Lemmas.
Variable cfg : AutoConfig.
Implicit Types (t : wtable) (w : watch).

(** A table transformation that leaves every popularity row in place and makes none. *)
Definition keeps_popularity (t t' : wtable) : Prop :=
  forall w, is_auto w = false -> w ∈ rows t' <-> w ∈ rows t.

Lemma keeps_refl t : keeps_popularity t t.
Proof. done. Qed.

Lemma keeps_trans t1 t2 t3 : keeps_popularity t1 t2 -> keeps_popularity t2 t3 -> keeps_popularity t1 t3.
Proof. intros H1 H2 w Hw. rewrite (H2 w Hw). by apply H1. Qed.

Lemma keeps_delete p t : (forall w, w ∈ rows t -> p w = true -> is_auto w = true) -> keeps_popularity t (delete_where p t).
Proof.
  intros Hp w Hw. rewrite delete_where_in. split; [tauto|]. intros Hin. split; [done|].
  destruct (p w) eqn:E; [|done]. specialize (Hp w Hin E). congruence.
Qed.

Lemma keeps_put t w : table_wf t -> w ∈ rows t -> is_auto w = true ->
  forall w', w_id w' = w_id w -> is_auto w' = true -> keeps_popularity t (put w' t).
Proof.
  intros Hwf Hin Ha w' Hid Ha' v Hv. split.
  - intros [->|[? _]]%put_in; [congruence|done].
  - intros Hr. apply put_other; [done|]. intros E.
    assert (v = w) as -> by (apply (row_id_inj t); simpl in *; congruence). congruence.
Qed.

Lemma prune_eco_keeps st eco : table_wf st.2 -> keeps_popularity st.2 (prune_eco cfg st eco).2.
Proof.
  intros Hwf. unfold prune_eco. destruct (_ <=? 0); [done|]. apply keeps_delete.
  intros w Hw Hid%bool_decide_eq_true. apply list_elem_of_fmap in Hid as (w' & Hid & Hin).
  apply firstn_elem, ssort_in, select_in in Hin as [Hr Ha%auto_in_true].
  assert (w = w') as -> by (by apply (row_id_inj st.2)). apply Z.eqb_eq. tauto.
Qed.

Lemma prune_eco_wf st eco : table_wf st.2 -> table_wf (prune_eco cfg st eco).2.
Proof. intros Hwf. unfold prune_eco. destruct (_ <=? 0); [done|]. by apply table_wf_delete. Qed.

Lemma prune_eco_sub st eco w : w ∈ rows (prune_eco cfg st eco).2 -> w ∈ rows st.2.
Proof. unfold prune_eco. destruct (_ <=? 0); [done|]. by intros [? _]%delete_where_in. Qed.

Lemma count_sub p t t' : (forall w, w ∈ rows t' -> w ∈ rows t) -> table_wf t' ->
  count_where p t' <= count_where p t.
Proof.
  intros Hsub Hwf. unfold count_where. apply inj_le. apply submseteq_length, NoDup_submseteq.
  - apply (NoDup_fmap_1 w_id). apply bfilter_NoDup_fmap, Hwf.
  - intros w. rewrite !select_in. naive_solver.
Qed.

Lemma prune_eco_capped st eco :
  0 < max_per_eco cfg -> table_wf st.2 -> count_where (auto_in eco) (prune_eco cfg st eco).2 <= max_per_eco cfg.
Proof.
  intros Hcap Hwf. unfold prune_eco. rewrite ssort_length. destruct (Z.leb_spec (Z.of_nat (length (select (auto_in eco) st.2)) - max_per_eco cfg) 0) as [Hle|Hgt].
  - unfold count_where. lia.
  - unfold count_where; cbn [snd].
    rewrite (delete_first_sorted w_refreshed_at (auto_in eco) _ st.2 Hwf), length_drop, ssort_length. lia.
Qed.

(** The evicted entries are the oldest of their ecosystem. *)
Lemma prune_eco_oldest st eco w0 w : table_wf st.2 ->
  w0 ∈ rows st.2 -> w0 ∉ rows (prune_eco cfg st eco).2 ->
  w ∈ rows (prune_eco cfg st eco).2 -> auto_in eco w = true -> w_refreshed_at w0 <= w_refreshed_at w.
Proof.
  intros Hwf H0 Hout Hin Ha. unfold prune_eco in *. destruct (_ <=? 0); [done|]. cbn [snd] in *.
  set (l := ssort (asc w_refreshed_at) (select (auto_in eco) st.2)) in *. set (n := Z.to_nat _) in *.
  assert (w ∈ List.skipn n l) as Hs.
  { pose proof (delete_first_sorted w_refreshed_at (auto_in eco) n st.2 Hwf) as Hp. fold l in Hp.
    rewrite <- Hp. by apply select_in. }
  assert (w0 ∈ List.firstn n l) as Hf.
  { rewrite delete_where_in in Hout. destruct (bool_decide (w_id w0 ∈ map w_id (List.firstn n l))) eqn:E; [|tauto].
    apply bool_decide_eq_true, list_elem_of_fmap in E as (w1 & E & Hw1).
    pose proof (firstn_elem _ _ _ Hw1) as [Hr _]%ssort_in%select_in.
    assert (w0 = w1) as -> by (by apply (row_id_inj st.2)). done. }
  pose proof (ssort_sorted (asc w_refreshed_at) (asc_total _) (asc_trans _) (select (auto_in eco) st.2)) as Hso.
  fold l in Hso. rewrite <- (take_drop n l) in Hso. revert Hso Hf Hs. clear.
  generalize (List.firstn n l) as l1, (List.skipn n l) as l2. intros l1 l2.
  induction l1 as [|x l1 IH]; [set_solver|]. simpl. intros Hs.
  inversion Hs as [|? ? Hs' Hx]; subst. intros [->|Hf]%elem_of_cons Hw; [|by apply IH].
  rewrite Forall_forall in Hx. specialize (Hx w ltac:(set_solver)). unfold asc in Hx. lia.
Qed.

Lemma fold_prune ecos st : table_wf st.2 -> 0 < max_per_eco cfg ->
  let st' := fold_left (prune_eco cfg) ecos st in
  keeps_popularity st.2 st'.2 /\ table_wf st'.2 /\ (forall w, w ∈ rows st'.2 -> w ∈ rows st.2) /\
  forall eco, eco ∈ ecos -> count_where (auto_in eco) st'.2 <= max_per_eco cfg.
Proof.
  intros Hwf Hcap. revert st Hwf. induction ecos as [|eco ecos IH]; intros st Hwf; cbn [fold_left].
  { split_and!; try done. set_solver. }
  destruct (IH (prune_eco cfg st eco)) as (Hk & Hw & Hsub & Hc); [by apply prune_eco_wf|].
  split_and!; [|done| |].
  - eapply keeps_trans; [by apply prune_eco_keeps|done].
  - intros w Hin. by eapply prune_eco_sub, Hsub.
  - intros e He. apply elem_of_cons in He as [->|He]; [|by apply Hc].
    apply (Z.le_trans _ (count_where (auto_in eco) (prune_eco cfg st eco).2)); [by apply count_sub|by apply prune_eco_capped].
Qed.

End Lemmas.

(** ** The add-rate limiter over a sequence of requests *)

(** The requests of one ecosystem that [_rate_limited] lets through. *)
Fixpoint let_through (cfg : AutoConfig) (eco : string) (st : list (string * list timestamp))
    (times : list timestamp) : list timestamp :=
  match times with
  | [] => []
  | now :: times' =>
      let '(limited, st') := rate_limited cfg now eco st in
      if limited then let_through cfg eco st' times' else now :: let_through cfg eco st' times'
  end.

Lemma let_through_admitted cfg eco st times :
  0 < max_adds_per_hour cfg ->
  let_through cfg eco st times = admitted (max_adds_per_hour cfg) (hours 1) (dget_or eco [] st) times.
Proof.
  intros Hcap. revert st. induction times as [|now times IH]; intros st; cbn [let_through admitted]; [done|].
  unfold rate_limited. destruct (Z.leb_spec (max_adds_per_hour cfg) 0); [lia|].
  destruct (admit_event _ _ _ _) as [[] dq]; simpl; rewrite IH; unfold dget_or; by rewrite dget_dset_eq.
Qed.

(** ** Properties *)

(** Automatic promotion never touches a popularity entry: whatever the name, adding a
    confirmed-malicious package, either pruning pass and the manual removal keep every row
    whose rank is not the sentinel, exactly as it was, and create none. *)
Theorem popularity_untouched cfg env now mono eco nm st t :
  table_wf t -> (forall t0, keeps_popularity t0 (env t0)) ->
  keeps_popularity t (add_confirmed_malicious cfg env now mono eco nm st t).2 /\
  keeps_popularity t (prune_expired cfg now t).2 /\
  keeps_popularity t (prune_over_cap cfg t).2 /\
  keeps_popularity t (remove_auto_entry eco nm t).2.
Proof.
  intros Hwf Henv. split_and!.
  - unfold add_confirmed_malicious. destruct (negb _); [done|]. destruct (blocklisted _ _ _); [done|].
    destruct (first _ t) as [w|] eqn:Ef.
    + apply head_in, select_in in Ef as [Hin _]. destruct (is_auto w) eqn:Ea; [|done]. cbn [snd].
      by apply (keeps_put t w).
    + destruct (rate_limited _ _ _ _) as [[] st']; [done|].
      destruct (insert_unique _ _ _) as [[t' w]|] eqn:Ei; [|apply Henv]. cbn [snd].
      apply insert_unique_inv in Ei as (-> & _ & _). intros v Hv. rewrite insert_in, (Henv t v Hv).
      split; [intros [?| ->]; [done|discriminate]|tauto].
  - unfold prune_expired. destruct (_ <=? 0); [done|]. apply keeps_delete.
    intros w _ [? _]%andb_true_iff. done.
  - unfold prune_over_cap. destruct (Z.leb_spec (max_per_eco cfg) 0); [done|].
    by apply (fold_prune cfg CAPPED_ECOSYSTEMS (0, t)).
  - apply keeps_delete. by intros w _ [_ ?]%andb_true_iff.
Qed.

Definition ex_watch (i : Z) (nm : string) (rank at_ : Z) : watch := mkWatch i "npm" nm rank 0 at_.
Definition ex_wt : wtable := Table [ex_watch 1 "react" 3 5; ex_watch 2 "evil" AUTO_MALICIOUS_RANK 5] 3.
Definition ex_auto : AutoConfig := mkAuto None (Some "npm:Safe-Name, bad") 180 1 100.

Lemma popularity_untouched_witness :
  (add_confirmed_malicious ex_auto id 9 9 "npm" "React" [] ex_wt).1.1 = Some AlreadyPopularity /\
  keeps_popularity ex_wt (prune_over_cap ex_auto ex_wt).2.
Proof.
  split; [vm_compute; reflexivity|].
  apply (popularity_untouched ex_auto id 9 9 "npm" "React" [] ex_wt).
  - split; [repeat constructor; set_solver|repeat constructor; lia].
  - intros t0. apply keeps_refl.
Defined.

(** What a promotion does.  A blocklisted name or a rate-limited request changes nothing;
    an existing automatic entry is only refreshed; an existing popularity entry keeps its
    rank; otherwise exactly one sentinel row with the given name is appended.  After "added"
    and "refreshed" the name counts as automatic, and no two rows ever share a key. *)
Theorem add_confirmed_outcome cfg now mono eco nm st t res st' t' :
  table_wf t -> unique w_key t ->
  add_confirmed_malicious cfg id now mono eco nm st t = (res, st', t') ->
  table_wf t' /\ unique w_key t' /\
  (blocklisted cfg eco nm = true -> t' = t) /\
  match res with
  | Some Added => rows t' = rows t ++ [new_auto now eco nm (seq t)] /\ is_watchlist nm eco t' = Some AUTO_MALICIOUS_RANK
  | Some Refreshed => exists w, w ∈ rows t /\ is_auto w = true /\ t' = put (refresh now w) t
  | _ => t' = t
  end /\
  (res = Some Added \/ res = Some Refreshed -> is_watchlist_auto_only eco nm t' = true).
Proof.
  intros Hwf Hu. unfold add_confirmed_malicious.
  destruct (negb (is_enabled cfg)) eqn:Een; [intros [= <- _ <-]; split_and!; naive_solver|].
  destruct (blocklisted cfg eco nm) eqn:Eb; [intros [= <- _ <-]; split_and!; naive_solver|].
  destruct (first _ t) as [w|] eqn:Ef.
  - pose proof (head_in _ _ Ef) as [Hin Hsame]%select_in.
    destruct (is_auto w) eqn:Ea; intros [= <- _ <-]; split_and!; try naive_solver; try (by apply table_wf_put).
    + apply unique_update; [|done]. intros r Hr Hid%Z.eqb_eq. simpl in Hid.
      rewrite (row_id_inj t r w); [done|done|done|done|exact Hid].
    + intros _. apply existsb_true. exists (refresh now w). split; [by apply (put_self _ _ w)|].
      apply andb_true_iff. split; done.
  - destruct (rate_limited _ _ _ _) as [[] st1]; [intros [= <- _ <-]; split_and!; naive_solver|].
    destruct (insert_unique _ _ _) as [[t1 w]|] eqn:Ei; intros [= <- _ <-]; [|split_and!; naive_solver].
    pose proof (unique_insert _ _ _ _ _ Ei Hu) as Hu'.
    apply insert_unique_inv in Ei as (-> & -> & Hnew). change (id t) with t in *.
    assert (same_name eco nm (new_auto now eco nm (seq t)) = true) as Hs by (by apply same_name_true).
    split_and!; [by apply table_wf_insert|done|done|done| |].
    + unfold is_watchlist, first, select. change (rows (insert (new_auto now eco nm) t).1) with
        (rows t ++ [new_auto now eco nm (seq t)]). rewrite List.filter_app, bfilter_none.
      * simpl. by rewrite !String.eqb_refl.
      * intros w Hw. destruct (_ && _) eqn:E; [|done]. apply andb_true_iff in E as [E1%String.eqb_eq E2%String.eqb_eq].
        destruct (Hnew w Hw). unfold w_key; simpl. congruence.
    + intros _. apply existsb_true. exists (new_auto now eco nm (seq t)). split; [by apply insert_in; right|].
      by rewrite Hs.
Qed.

Lemma add_confirmed_outcome_witness :
  is_watchlist "left-pad2" "npm"
    (add_confirmed_malicious ex_auto id 9 9 "npm" "left-pad2" [] ex_wt).2 = Some AUTO_MALICIOUS_RANK.
Proof.
  pose proof (add_confirmed_outcome ex_auto 9 9 "npm" "left-pad2" [] ex_wt
    (add_confirmed_malicious ex_auto id 9 9 "npm" "left-pad2" [] ex_wt).1.1
    (add_confirmed_malicious ex_auto id 9 9 "npm" "left-pad2" [] ex_wt).1.2
    (add_confirmed_malicious ex_auto id 9 9 "npm" "left-pad2" [] ex_wt).2) as H.
  destruct H as (_ & _ & _ & H & _).
  - split; [repeat constructor; set_solver|repeat constructor; lia].
  - vm_compute; repeat constructor; set_solver.
  - vm_compute; reflexivity.
  - exact (proj2 H).
Defined.

(** The cap pass leaves at most [max_per_eco] automatic entries in each capped ecosystem,
    deletes only automatic entries, and within an ecosystem evicts the least recently
    confirmed ones. *)
Theorem prune_over_cap_spec cfg t :
  table_wf t -> 0 < max_per_eco cfg ->
  (forall eco, eco ∈ CAPPED_ECOSYSTEMS -> count_where (auto_in eco) (prune_over_cap cfg t).2 <= max_per_eco cfg) /\
  (forall w, w ∈ rows (prune_over_cap cfg t).2 -> w ∈ rows t) /\
  keeps_popularity t (prune_over_cap cfg t).2 /\
  forall eco w0 w, auto_in eco w = true -> w0 ∈ rows t -> w0 ∉ rows (prune_eco cfg (0, t) eco).2 ->
    w ∈ rows (prune_eco cfg (0, t) eco).2 -> w_refreshed_at w0 <= w_refreshed_at w.
Proof.
  intros Hwf Hcap. unfold prune_over_cap. destruct (Z.leb_spec (max_per_eco cfg) 0); [lia|].
  destruct (fold_prune cfg CAPPED_ECOSYSTEMS (0, t) Hwf Hcap) as (Hk & _ & Hsub & Hc). split_and!; try done.
  intros eco w0 w Ha H0 Hout Hin. by apply (prune_eco_oldest cfg (0, t) eco).
Qed.

Lemma prune_over_cap_spec_witness :
  count_where (auto_in "npm")
    (prune_over_cap ex_auto (Table [ex_watch 1 "a" AUTO_MALICIOUS_RANK 7; ex_watch 2 "b" AUTO_MALICIOUS_RANK 5] 3)).2 <= 1.
Proof.
  apply (prune_over_cap_spec ex_auto (Table [ex_watch 1 "a" AUTO_MALICIOUS_RANK 7; ex_watch 2 "b" AUTO_MALICIOUS_RANK 5] 3)).
  - split; [repeat constructor; set_solver|repeat constructor; lia].
  - done.
  - set_solver.
Defined.

(** The add-rate ceiling is a true sliding window: of any run of requests in time order,
    no hour, wherever it starts, contains more than [max_adds_per_hour] that got through. *)
Theorem add_rate_bounded cfg eco times t0 :
  0 < max_adds_per_hour cfg -> StronglySorted Z.le times ->
  Z.of_nat (length (bfilter (in_span (hours 1) t0) (let_through cfg eco [] times))) <= max_adds_per_hour cfg.
Proof.
  intros Hcap Hs. rewrite let_through_admitted by done. apply admitted_bounded; [unfold hours, seconds; lia|lia|done].
Qed.

Lemma add_rate_bounded_witness :
  let_through (mkAuto None None 180 1 2) "npm" [] [0; 1; 2; hours 1; hours 1 + 1] = [0; 1; hours 1 + 1] /\
  Z.of_nat (length (bfilter (in_span (hours 1) 1) (let_through (mkAuto None None 180 1 2) "npm" [] [0; 1; 2; hours 1; hours 1 + 1]))) <= 2.
Proof.
  split; [vm_compute; reflexivity|].
  apply (add_rate_bounded (mkAuto None None 180 1 2) "npm" [0; 1; 2; hours 1; hours 1 + 1] 1); [done|].
  vm_compute. repeat constructor; discriminate.
Defined.

(** Promotion compares names case-insensitively, the rank lookup of the scan does not:
    a refreshed entry can be invisible to [_is_watchlist]. *)
Example refreshed_but_unranked :
  (add_confirmed_malicious ex_auto id 9 9 "npm" "Evil" [] ex_wt).1.1 = Some Refreshed /\
  is_watchlist "Evil" "npm" (add_confirmed_malicious ex_auto id 9 9 "npm" "Evil" [] ex_wt).2 = None.
Proof. by vm_compute. Qed.
