(* ===== verification/Scope.v ===== *)
(** * The scope watchlist ([scope_watchlist.py])

    Whole organisations under watch: matching a name against a scope at a
    boundary, extracting the scope of a caught package, the table operations
    and the baseline seed. *)
From S2P Require Import Prelude PyStr Sql.
From Stdlib Require Import Ascii.

Open Scope list_scope.
Open Scope Z_scope.

Record scope_row := mkScope {
  s_id : Z;
  s_ecosystem : string;
  s_scope : string;
  s_source : string;
  s_added_at : timestamp;
  s_refreshed_at : timestamp;
}.
#[export] Instance scope_entity : Entity scope_row := {| row_id := s_id |}.
Abbreviation stable := (table scope_row).
Definition scope_key (r : scope_row) : string * string := (s_ecosystem r, s_scope r).

Definition SUPPORTED : list string := ["npm"; "gomod"; "pypi"].

Definition BASELINE_SCOPES : list (string * list string) :=
  [("npm",
    ["@aws-sdk"; "@aws-amplify"; "@azure"; "@google-cloud"; "@cloudflare";
     "@vercel"; "@netlify"; "@supabase"; "@firebase"; "@datadog"; "@sentry";
     "@elastic"; "@grafana"; "@newrelic";
     "@angular"; "@vue"; "@nestjs"; "@remix-run"; "@sveltejs"; "@nuxt";
     "@astrojs"; "@apollo"; "@prisma";
     "@octokit"; "@actions"; "@npmcli"; "@yarnpkg"; "@nrwl"; "@nx";
     "@changesets"; "@vitejs"; "@swc"; "@typescript-eslint"; "@storybook";
     "@okta"; "@auth0"; "@clerk"; "@stripe"; "@paypal"; "@snyk";
     "@redhat-cloud-services"; "@redhat"; "@microsoft"; "@ibm"]);
   ("gomod",
    ["golang.org/x"; "google.golang.org"; "k8s.io"; "sigs.k8s.io";
     "go.uber.org"; "cloud.google.com/go";
     "github.com/aws"; "github.com/Azure"; "github.com/googleapis";
     "github.com/google"; "github.com/kubernetes"; "github.com/hashicorp";
     "github.com/grafana"; "github.com/prometheus"; "github.com/open-telemetry";
     "github.com/cloudflare"; "github.com/docker"; "github.com/sigstore";
     "github.com/gohugoio"; "github.com/spf13"]);
   ("pypi",
    ["azure"; "google-cloud"; "aws-cdk"; "opentelemetry"; "apache-airflow";
     "snowflake"; "databricks"; "msrest"; "boto3"; "botocore"])].

Definition PROLIFIC_SCOPES : list (string * list string) :=
  [("npm", ["@types"; "@babel"]); ("gomod", []); ("pypi", ["types"])].

Definition PYPI_SEPS : list ascii := ["-"; "_"; "."]%char.

(** [PKGWARD_SCOPE_WATCHLIST] and [PKGWARD_SCOPE_WATCH_PROLIFIC]. *)
Definition is_enabled (env : option string) : bool := negb (String.eqb (default "1" env) "0").
Definition want_prolific (env : option string) : bool := String.eqb (default "0" env) "1".
Definition supported (eco : string) : bool := str_in eco SUPPORTED.

(** ** Matching *)

Definition sep_str (c : ascii) : string := String c EmptyString.

Definition matches (eco scope nm : string) : bool :=
  let s := lower scope in
  let n := lower nm in
  if String.eqb eco "npm" || String.eqb eco "gomod" then String.eqb n s || startswith n (s +:+ "/")
  else if String.eqb eco "pypi" then
    String.eqb n s || existsb (fun sep => startswith n (s +:+ sep_str sep)) PYPI_SEPS
  else false.

(** The first separator, in this order, that leaves more than one character. *)
Fixpoint pypi_scope (seps : list ascii) (low : string) : option string :=
  match seps with
  | [] => None
  | sep :: seps' =>
      let i := find_char sep low in
      if 1 <? i then Some (str_take (Z.to_nat i) low) else pypi_scope seps' low
  end.

Definition scope_of (eco nm : string) : option string :=
  if String.eqb eco "npm" then
    if negb (startswith nm "@") then None
    else
      let slash := find_char "/"%char nm in
      if 1 <? slash then Some (lower (str_take (Z.to_nat slash) nm)) else None
  else if String.eqb eco "gomod" then
    let parts := split "/"%char nm in
    if (2 <=? length parts)%nat then Some (lower (join "/" (List.firstn 2 parts))) else None
  else if String.eqb eco "pypi" then pypi_scope PYPI_SEPS (lower nm)
  else None.

(** ** The table *)

Definition load_scopes (eco : string) (t : stable) : list string :=
  dedup (map (fun r => lower (s_scope r)) (select (fun r => String.eqb (s_ecosystem r) eco) t)).

Definition is_scope_watchlisted (env : option string) (eco nm : string) (scopes : option (list string))
    (t : stable) : bool :=
  if negb (is_enabled env) || negb (supported eco) || negb (truthy nm) then false
  else existsb (fun s => matches eco s nm) (default (load_scopes eco t) scopes).

(** [scope.strip().lower().rstrip("/")], with the leading [@] for npm. *)
Definition normalize_scope (eco scope : string) : string :=
  let scope := rstrip_char "/"%char (lower (strip scope)) in
  if String.eqb eco "npm" && negb (startswith scope "@") then "@" +:+ scope else scope.

Definition find_scope (eco scope : string) (t : stable) : option scope_row :=
  first (fun r => String.eqb (s_ecosystem r) eco && String.eqb (lower (s_scope r)) scope) t.

Inductive scope_status := ScopeAdded | ScopeRefreshed | ScopeUnsupported.

Definition new_scope (now : timestamp) (eco scope source : string) (i : Z) : scope_row :=
  mkScope i eco scope source now now.

Definition add_scope (now : timestamp) (eco scope source : string) (t : stable) : scope_status * stable :=
  if negb (supported eco) then (ScopeUnsupported, t)
  else
    let scope := normalize_scope eco scope in
    match find_scope eco scope t with
    | Some r => (ScopeRefreshed, put (mkScope (s_id r) (s_ecosystem r) (s_scope r) (s_source r) (s_added_at r) now) t)
    | None => (ScopeAdded, (insert (new_scope now eco scope source) t).1)
    end.

Definition remove_scope (eco scope : string) (t : stable) : Z * stable :=
  match find_scope eco (normalize_scope eco scope) t with
  | None => (0, t)
  | Some r => (1, delete_where (fun r' => s_id r' =? s_id r) t)
  end.

Definition AUTO_WATCH_ECOSYSTEMS : list string := ["npm"; "gomod"].

Definition auto_watch_on_malicious (env : option string) (now : timestamp) (eco nm : string) (t : stable)
    : option string * stable :=
  if negb (is_enabled env) || negb (str_in eco AUTO_WATCH_ECOSYSTEMS) then (None, t)
  else
    match scope_of eco nm with
    | None => (None, t)
    | Some sc => if truthy sc then (Some sc, (add_scope now eco sc "auto_malicious" t).2) else (None, t)
    end.

(** The inner loop of [seed_baseline]: the [have] set, the count, the table. *)
Definition seed_one (now : timestamp) (eco : string) (st : list string * Z * stable) (sc : string)
    : list string * Z * stable :=
  let '(have, n, t) := st in
  let s := rstrip_char "/"%char (lower (strip sc)) in
  if str_in s have then st else (s :: have, n + 1, (insert (new_scope now eco s "baseline") t).1).

Definition wanted (prolific : option string) (eco : string) : list string :=
  dget_or eco [] BASELINE_SCOPES ++ if want_prolific prolific then dget_or eco [] PROLIFIC_SCOPES else [].

Definition seed_eco (prolific : option string) (now : timestamp) (st : Z * stable) (eco : string) : Z * stable :=
  let '(_, n, t) := fold_left (seed_one now eco) (wanted prolific eco) (load_scopes eco st.2, st.1, st.2) in (n, t).

Definition seed_baseline (prolific : option string) (now : timestamp) (t : stable) : Z * stable :=
  fold_left (seed_eco prolific now) SUPPORTED (0, t).

(** ** Lemmas *)

Lemma rstrip_where_split p s : exists t, s = rstrip_where p s +:+ t /\ str_forall p t = true.
Proof.
  induction s as [|c s (t & E & Hp)]; simpl; [by exists ""|].
  destruct (rstrip_where p s) as [|d s'].
  - destruct (p c) eqn:Ec; [|exists t; by rewrite E at 1].
    exists (String c s). split; [done|]. simpl. rewrite Ec. rewrite E. done.
  - exists t. by rewrite E at 1.
Qed.

Lemma rstrip_where_none p s : str_forall (fun c => negb (p c)) s = true -> rstrip_where p s = s.
Proof.
  induction s as [|c s IH]; simpl; [done|]. intros [Hc Hs]%andb_true_iff. rewrite IH by done.
  destruct s; [|done]. by rewrite (proj1 (negb_true_iff _) Hc).
Qed.

Definition no_space (s : string) : Prop := str_forall (fun c => negb (is_space c)) s = true.

Lemma strip_no_space s : no_space s -> strip s = s.
Proof.
  intros H. unfold strip, strip_where. replace (lstrip_where is_space s) with s; [by apply rstrip_where_none|].
  destruct s as [|c s]; [done|]. unfold no_space in H. simpl in H. apply andb_true_iff in H as [Hc _].
  simpl. by rewrite (proj1 (negb_true_iff _) Hc).
Qed.

Lemma is_space_lower c : is_space (lower_char c) = is_space c.
Proof. destruct c as [[] [] [] [] [] [] [] []]; reflexivity. Qed.

Lemma no_space_lower s : no_space s -> no_space (lower s).
Proof.
  unfold no_space. induction s as [|c s IH]; simpl; [done|].
  rewrite !andb_true_iff, is_space_lower. naive_solver.
Qed.

Lemma no_space_prefix s t : no_space (s +:+ t) -> no_space s.
Proof. unfold no_space. rewrite str_forall_app. by intros [? _]%andb_true_iff. Qed.

Lemma startswith_app s t : startswith (s +:+ t) s = true.
Proof. apply prefix_app. Qed.

(** A text that begins with a scope and then ends or continues with a slash
    still does once trailing slashes of the scope are dropped. *)
Lemma slash_cover sc t :
  t = "" \/ (exists u, t = "/" +:+ u) ->
  let s := rstrip_char "/"%char sc in
  sc +:+ t = s \/ startswith (sc +:+ t) (s +:+ "/") = true.
Proof.
  intros Ht. cbv zeta. unfold rstrip_char. destruct (rstrip_where_split (Ascii.eqb "/"%char) sc) as (k & E & Hk).
  set (s := rstrip_where _ sc) in *. destruct k as [|c k].
  - rewrite str_app_nil_r in E. rewrite E. destruct Ht as [->|(u & ->)].
    + left. apply str_app_nil_r.
    + right. rewrite <- str_app_assoc. apply startswith_app.
  - right. cbn [str_forall] in Hk. apply andb_true_iff in Hk as [Hc%Ascii.eqb_eq _]. subst c.
    rewrite E, str_app_assoc. change (String "/" k +:+ t) with ("/" +:+ (k +:+ t)).
    rewrite <- str_app_assoc. apply startswith_app.
Qed.

Lemma find_char_split c s i :
  find_char c s = i -> 0 <= i -> exists u, s = str_take (Z.to_nat i) s +:+ String c u.
Proof.
  revert i. induction s as [|d s IH]; simpl; intros i; [lia|].
  destruct (Ascii.eqb_spec c d) as [->|Hne].
  - intros <- _. by exists s.
  - destruct (Z.ltb_spec (find_char c s) 0); [lia|]. intros <- _.
    destruct (IH _ eq_refl) as [u E]; [done|]. exists u.
    replace (Z.to_nat (find_char c s + 1)) with (S (Z.to_nat (find_char c s))) by lia.
    simpl. rewrite append_cons. by rewrite E at 1.
Qed.

Lemma join_firstn2 (a b : string) rest :
  exists t, join "/" (a :: b :: rest) = join "/" [a; b] +:+ t /\ (t = "" \/ exists u, t = "/" +:+ u).
Proof.
  unfold join. destruct rest as [|c rest].
  - exists "". rewrite str_app_nil_r. auto.
  - exists ("/" +:+ String.concat "/" (c :: rest)). split; [|eauto].
    change (String.concat "/" (a :: b :: c :: rest)) with (a +:+ "/" +:+ (b +:+ "/" +:+ String.concat "/" (c :: rest))).
    change (String.concat "/" [a; b]) with (a +:+ "/" +:+ b). by rewrite !str_app_assoc.
Qed.

(** The scope extracted from a name covers the name. *)
Lemma scope_of_prefix eco nm sc :
  eco ∈ AUTO_WATCH_ECOSYSTEMS -> scope_of eco nm = Some sc ->
  exists t, lower nm = sc +:+ t /\ (t = "" \/ exists u, t = "/" +:+ u).
Proof.
  unfold AUTO_WATCH_ECOSYSTEMS, scope_of. intros Heco.
  apply elem_of_cons in Heco as [->|Heco]; [|apply list_elem_of_singleton in Heco as ->].
  - simpl. destruct (negb _); [done|]. destruct (Z.ltb_spec 1 (find_char "/" nm)); [|done]. intros [= <-].
    destruct (find_char_split "/"%char nm _ eq_refl) as [u E]; [lia|].
    exists (lower (String "/" u)). split; [by rewrite <- lower_app, <- E|]. right. by exists (lower u).
  - change (String.eqb "gomod" "npm") with false. change (String.eqb "gomod" "gomod") with true. cbv iota zeta.
    pose proof (join_split "/"%char nm) as Ej. destruct (split "/"%char nm) as [|a [|b rest]]; [done..|].
    change (List.firstn 2 (a :: b :: rest)) with [a; b]. change (2 <=? length (a :: b :: rest))%nat with true.
    cbv iota. intros Hsc. assert (sc = lower (join "/" [a; b])) as -> by congruence. destruct (join_firstn2 a b rest) as (t & E & Ht).
    exists (lower t). split; [rewrite <- lower_app; change (String "/" "") with "/" in Ej; by rewrite <- E, Ej|].
    destruct Ht as [->|(u & ->)]; [by left|right]. by exists (lower u).
Qed.

Lemma scope_of_lower eco nm sc : scope_of eco nm = Some sc -> eco ∈ AUTO_WATCH_ECOSYSTEMS -> exists x, sc = lower x.
Proof.
  unfold scope_of. intros H Heco. destruct (String.eqb eco "npm").
  { cbv zeta in H. destruct (negb _); [done|]. destruct (1 <? _); [|done].
    eexists. by apply Some_inj in H. }
  destruct (String.eqb eco "gomod").
  { cbv zeta in H. destruct (2 <=? _)%nat; [|done]. eexists. by apply Some_inj in H. }
  destruct (String.eqb_spec eco "pypi") as [->|]; [|done].
  unfold AUTO_WATCH_ECOSYSTEMS in Heco. set_solver.
Qed.

Lemma app_inj_len (a b c d : string) : a +:+ b = c +:+ d -> len a = len c -> a = c.
Proof.
  unfold len. revert c. induction a as [|x a IH]; intros [|y c]; simpl; try done.
  rewrite !append_cons. intros [= -> E] [= El]. f_equal. by apply IH.
Qed.

Lemma lower_prefix a b : lower (a +:+ b) = a +:+ b -> lower a = a.
Proof. rewrite lower_app. intros E. eapply app_inj_len; [exact E|apply len_lower]. Qed.

Lemma rstrip_lower c s : lower s = s -> lower (rstrip_char c s) = rstrip_char c s.
Proof.
  intros Hs. unfold rstrip_char. destruct (rstrip_where_split (Ascii.eqb c) s) as (k & E & _).
  apply (lower_prefix _ k). by rewrite <- E.
Qed.

(** The stored form of a seed scope. *)
Definition seed_form (sc : string) : string := rstrip_char "/"%char (lower (strip sc)).

Lemma seed_form_lower sc : lower (seed_form sc) = seed_form sc.
Proof. apply rstrip_lower, lower_idem. Qed.

Lemma normalize_lower eco sc : lower (normalize_scope eco sc) = normalize_scope eco sc.
Proof.
  unfold normalize_scope. fold (seed_form sc). destruct (_ && _); [|apply seed_form_lower].
  rewrite lower_app, seed_form_lower. done.
Qed.

Lemma load_scopes_in eco t s : s ∈ load_scopes eco t <-> exists r, r ∈ rows t /\ s_ecosystem r = eco /\ lower (s_scope r) = s.
Proof.
  unfold load_scopes. rewrite dedup_elem. setoid_rewrite list_elem_of_fmap. setoid_rewrite select_in.
  setoid_rewrite String.eqb_eq. naive_solver.
Qed.

Lemma scope_of_npm nm sc : scope_of "npm" nm = Some sc -> exists w, sc = "@" +:+ w.
Proof.
  unfold scope_of. change (String.eqb "npm" "npm") with true. cbv iota zeta.
  destruct (startswith nm "@") eqn:Ea; [|done]. apply prefix_inv in Ea as [u ->]. cbn [negb].
  destruct (Z.ltb_spec 1 (find_char "/" ("@" +:+ u))); [|done]. intros H0.
  destruct (Z.to_nat (find_char "/" ("@" +:+ u))) as [|n] eqn:En; [lia|].
  exists (lower (str_take n u)). by apply Some_inj in H0.
Qed.

(** Dropping trailing slashes keeps a leading at-sign. *)
Lemma rstrip_at w : startswith (rstrip_char "/"%char ("@" +:+ w)) "@" = true.
Proof.
  unfold rstrip_char. destruct (rstrip_where_split (Ascii.eqb "/"%char) ("@" +:+ w)) as (k & E & Hk).
  destruct (rstrip_where _ _) as [|c s].
  - change ("" +:+ k) with k in E. subst k. cbn [str_forall] in Hk. done.
  - rewrite !append_cons in E. injection E as <- _. by destruct s.
Qed.

(** Extracted scopes keep their form when stored. *)
Lemma normalize_scope_of eco nm sc :
  eco ∈ AUTO_WATCH_ECOSYSTEMS -> no_space nm -> scope_of eco nm = Some sc ->
  normalize_scope eco sc = rstrip_char "/"%char sc.
Proof.
  intros Heco Hns Hsc. destruct (scope_of_prefix eco nm sc Heco Hsc) as (t & E & _).
  destruct (scope_of_lower eco nm sc Hsc Heco) as (x & ->).
  assert (no_space (lower x)) as Hn by (apply (no_space_prefix _ t); rewrite <- E; by apply no_space_lower).
  unfold normalize_scope. rewrite (strip_no_space _ Hn), lower_idem.
  destruct (String.eqb_spec eco "npm") as [->|]; [|done]. destruct (scope_of_npm _ _ Hsc) as (w & Ew).
  by rewrite Ew, rstrip_at.
Qed.

Lemma add_scope_loaded now eco sc src t :
  supported eco = true -> normalize_scope eco sc ∈ load_scopes eco (add_scope now eco sc src t).2.
Proof.
  intros Hs. unfold add_scope. rewrite Hs. cbn [negb]. destruct (find_scope _ _ t) as [r|] eqn:Ef; cbn [snd]; apply load_scopes_in.
  - apply head_in, select_in in Ef as [Hr [He%String.eqb_eq Hl%String.eqb_eq]%andb_true_iff].
    eexists. split; [by eapply put_self|]. done.
  - eexists. split; [apply insert_in; by right|]. simpl. split; [done|apply normalize_lower].
Qed.

(** ** Lemmas on the seed *)

Lemma seed_one_spec now eco have n t sc :
  (forall s, s ∈ have -> s ∈ load_scopes eco t) ->
  let '(have', n', t') := seed_one now eco (have, n, t) sc in
  (forall s, s ∈ have' -> s ∈ load_scopes eco t') /\ seed_form sc ∈ have' /\
  (forall s, s ∈ have -> s ∈ have') /\ (forall r, r ∈ rows t -> r ∈ rows t').
Proof.
  intros Hh. unfold seed_one. fold (seed_form sc). destruct (str_in (seed_form sc) have) eqn:E.
  - apply str_in_true in E. split_and!; auto.
  - assert (forall r, r ∈ rows t -> r ∈ rows (insert (new_scope now eco (seed_form sc) "baseline") t).1) as Hk
      by (intros r Hr; apply insert_in; by left).
    split_and!; [|set_solver|set_solver|done].
    intros s [->|Hs]%elem_of_cons; apply load_scopes_in.
    + eexists. split; [apply insert_in; by right|]. split; [done|apply seed_form_lower].
    + apply Hh, load_scopes_in in Hs as (r & Hr & ? & ?). eauto.
Qed.

Lemma seed_list now eco scs have n t :
  (forall s, s ∈ have -> s ∈ load_scopes eco t) ->
  let '(have', n', t') := fold_left (seed_one now eco) scs (have, n, t) in
  (forall sc, sc ∈ scs -> seed_form sc ∈ load_scopes eco t') /\ (forall r, r ∈ rows t -> r ∈ rows t').
Proof.
  revert have n t. induction scs as [|sc scs IH]; intros have n t Hh; cbn [fold_left]; [set_solver|].
  pose proof (seed_one_spec now eco have n t sc Hh) as H. destruct (seed_one _ _ _ _) as [[h1 n1] t1].
  destruct H as (H1 & H2 & _ & H4). specialize (IH h1 n1 t1 H1).
  destruct (fold_left _ scs _) as [[h2 n2] t2]. destruct IH as [IH1 IH2]. split; [|auto].
  intros s [->|Hs]%elem_of_cons; [|by apply IH1].
  apply H1, load_scopes_in in H2 as (r & Hr & ? & ?). apply load_scopes_in. eauto.
Qed.

Lemma seed_list_noop now eco scs have n t :
  (forall sc, sc ∈ scs -> seed_form sc ∈ have) -> fold_left (seed_one now eco) scs (have, n, t) = (have, n, t).
Proof.
  induction scs as [|sc scs IH]; intros H; cbn [fold_left]; [done|].
  unfold seed_one at 2. fold (seed_form sc). rewrite (proj2 (str_in_true _ have)) by (apply H; set_solver).
  apply IH. intros. apply H. set_solver.
Qed.

Lemma seed_eco_spec p now st eco :
  (forall sc, sc ∈ wanted p eco -> seed_form sc ∈ load_scopes eco (seed_eco p now st eco).2) /\
  (forall r, r ∈ rows st.2 -> r ∈ rows (seed_eco p now st eco).2).
Proof.
  unfold seed_eco. pose proof (seed_list now eco (wanted p eco) (load_scopes eco st.2) st.1 st.2 ltac:(auto)) as H.
  destruct (fold_left _ _ _) as [[h n] t]. exact H.
Qed.

Lemma seeds_complete p now ecos st :
  let t' := (fold_left (seed_eco p now) ecos st).2 in
  (forall r, r ∈ rows st.2 -> r ∈ rows t') /\
  forall eco sc, eco ∈ ecos -> sc ∈ wanted p eco -> seed_form sc ∈ load_scopes eco t'.
Proof.
  revert st. induction ecos as [|eco ecos IH]; intros st; cbn [fold_left]; [set_solver|].
  destruct (seed_eco_spec p now st eco) as [H1 H2]. destruct (IH (seed_eco p now st eco)) as [IH1 IH2].
  split; [auto|]. intros e sc [->|He]%elem_of_cons Hsc; [|by apply IH2].
  apply H1, load_scopes_in in Hsc as (r & Hr & ? & ?). apply load_scopes_in. eauto.
Qed.

Lemma seeds_noop p now ecos st :
  (forall eco sc, eco ∈ ecos -> sc ∈ wanted p eco -> seed_form sc ∈ load_scopes eco st.2) ->
  fold_left (seed_eco p now) ecos st = st.
Proof.
  induction ecos as [|eco ecos IH]; intros H; cbn [fold_left]; [done|].
  unfold seed_eco at 2. rewrite seed_list_noop by (intros; apply H; set_solver). destruct st as [n t]. cbn [fst snd].
  apply IH. intros. apply H; set_solver.
Qed.

(** ** Properties *)

Definition boundaries (eco : string) : list ascii :=
  if String.eqb eco "pypi" then PYPI_SEPS else ["/"%char].

(** Who a watched scope covers.  With the feature on, a name is watched exactly when some
    stored scope of its ecosystem is, up to case, the whole name or a prefix of it that
    ends at a boundary character: never a longer organisation with the same beginning. *)
Theorem scope_boundary env eco nm t :
  is_scope_watchlisted env eco nm None t = true <->
  is_enabled env = true /\ eco ∈ SUPPORTED /\ nm <> "" /\
  exists r, r ∈ rows t /\ s_ecosystem r = eco /\
    (lower nm = lower (s_scope r) \/
     exists sep u, sep ∈ boundaries eco /\ lower nm = lower (s_scope r) +:+ sep_str sep +:+ u).
Proof.
  unfold is_scope_watchlisted. cbn [default]. fold (supported eco).
  destruct (is_enabled env); [|simpl; naive_solver]. destruct (supported eco) eqn:Es; cbn [negb orb].
  2: { unfold supported in Es. split; [done|]. intros (_ & H%str_in_true & _). congruence. }
  apply str_in_true in Es as Hs. unfold truthy. rewrite negb_involutive.
  destruct (String.eqb_spec nm "") as [->|Hne]; [naive_solver|].
  rewrite existsb_true. setoid_rewrite load_scopes_in.
  assert (forall scope, matches eco (lower scope) nm = true <-> (lower nm = lower scope \/
    exists sep u, sep ∈ boundaries eco /\ lower nm = lower scope +:+ sep_str sep +:+ u)) as Hm.
  { intros scope. unfold matches. rewrite lower_idem.
    assert (forall sep, startswith (lower nm) (lower scope +:+ sep_str sep) = true <->
      exists u, lower nm = lower scope +:+ sep_str sep +:+ u) as Hsep.
    { intros sep. split; [intros [u E]%prefix_inv; exists u; by rewrite E, str_app_assoc|].
      intros [u ->]. rewrite <- str_app_assoc. apply startswith_app. }
    unfold SUPPORTED in Hs. rewrite !elem_of_cons, elem_of_nil in Hs.
    destruct Hs as [->|[->|[->|[]]]]; cbn [String.eqb Ascii.eqb Bool.eqb orb boundaries];
      rewrite orb_true_iff, String.eqb_eq.
    - change "/" with (sep_str "/"). rewrite Hsep. setoid_rewrite list_elem_of_singleton. naive_solver.
    - change "/" with (sep_str "/"). rewrite Hsep. setoid_rewrite list_elem_of_singleton. naive_solver.
    - rewrite existsb_true. setoid_rewrite Hsep. naive_solver. }
  split.
  - intros (s & (r & Hr & He & <-) & Hmm). apply Hm in Hmm. eauto 10.
  - intros (_ & _ & _ & r & Hr & He & Hmm). exists (lower (s_scope r)). split; [eauto|]. by apply Hm.
Qed.

(** Sibling defence.  When a confirmed-malicious package makes its organisation watched,
    the watch covers that package: its name, and with it every sibling under the stored
    scope, is watched afterwards. *)
Theorem auto_watch_covers env now eco nm t sc t' :
  no_space nm -> auto_watch_on_malicious env now eco nm t = (Some sc, t') ->
  is_scope_watchlisted env eco nm None t' = true /\ normalize_scope eco sc ∈ load_scopes eco t'.
Proof.
  intros Hns. unfold auto_watch_on_malicious. destruct (negb (is_enabled env)) eqn:Een; [done|].
  destruct (str_in eco AUTO_WATCH_ECOSYSTEMS) eqn:Heco; [|done]. apply str_in_true in Heco. cbn [negb orb].
  destruct (scope_of eco nm) as [sc0|] eqn:Hsc; [|done]. destruct (truthy sc0); [|done]. intros [= -> <-].
  assert (supported eco = true) as Hsup.
  { unfold AUTO_WATCH_ECOSYSTEMS in Heco. apply str_in_true. unfold SUPPORTED. set_solver. }
  pose proof (add_scope_loaded now eco sc "auto_malicious" t Hsup) as Hl. split; [|done].
  unfold is_scope_watchlisted. rewrite Een, Hsup.
  destruct (scope_of_prefix eco nm sc Heco Hsc) as (u & E & Hu).
  assert (truthy nm = true) as ->.
  { destruct nm; [|done]. exfalso. unfold scope_of in Hsc. unfold AUTO_WATCH_ECOSYSTEMS in Heco.
    rewrite elem_of_cons, list_elem_of_singleton in Heco. by destruct Heco as [->| ->]. }
  cbn [negb orb default]. apply existsb_true. eexists. split; [exact Hl|].
  unfold matches. rewrite normalize_lower, (normalize_scope_of eco nm sc Heco Hns Hsc), E.
  assert (String.eqb eco "npm" || String.eqb eco "gomod" = true) as ->.
  { unfold AUTO_WATCH_ECOSYSTEMS in Heco. rewrite elem_of_cons, list_elem_of_singleton in Heco. by destruct Heco as [->| ->]. }
  apply orb_true_iff. rewrite String.eqb_eq. by apply slash_cover.
Qed.

Lemma auto_watch_covers_witness :
  is_scope_watchlisted None "npm" "@Evil/Payload" None
    (auto_watch_on_malicious None 1 "npm" "@Evil/Payload" empty_table).2 = true.
Proof. apply (auto_watch_covers None 1 "npm" "@Evil/Payload" empty_table "@evil"); vm_compute; reflexivity. Defined.

(** Seeding is complete and idempotent: after one run every wanted scope is loaded and no
    earlier row is gone; a second run inserts nothing and leaves the table as it is. *)
Theorem seed_baseline_idempotent p now now' t :
  let t1 := (seed_baseline p now t).2 in
  (forall r, r ∈ rows t -> r ∈ rows t1) /\
  (forall eco sc, eco ∈ SUPPORTED -> sc ∈ wanted p eco -> seed_form sc ∈ load_scopes eco t1) /\
  seed_baseline p now' t1 = (0, t1).
Proof.
  intros t1. destruct (seeds_complete p now SUPPORTED (0, t)) as [H1 H2]. split_and!; [done|done|].
  apply seeds_noop. exact H2.
Qed.

(** Adding a scope and removing it again: the scope is stored in normal form, one row goes,
    and what remains loaded is what was loaded before without that scope. *)
Theorem scope_add_remove now eco scope src t :
  table_wf t -> supported eco = true ->
  (forall r r', r ∈ rows t -> r' ∈ rows t -> s_ecosystem r = s_ecosystem r' ->
     lower (s_scope r) = lower (s_scope r') -> r = r') ->
  let t1 := (add_scope now eco scope src t).2 in
  normalize_scope eco scope ∈ load_scopes eco t1 /\
  (remove_scope eco scope t1).1 = 1 /\
  forall s, s ∈ load_scopes eco (remove_scope eco scope t1).2 <->
            s ∈ load_scopes eco t /\ s <> normalize_scope eco scope.
Proof.
  intros Hwf Hsup Hinj t1. assert (normalize_scope eco scope ∈ load_scopes eco t1) as Hin by (by apply add_scope_loaded).
  split; [done|]. set (sc := normalize_scope eco scope) in *.
  (* every row of [t1] with this key is the one row, and the other rows are those of [t] *)
  assert (exists r, r ∈ rows t1 /\ s_ecosystem r = eco /\ lower (s_scope r) = sc /\
    (forall r', r' ∈ rows t1 -> s_ecosystem r' = eco -> lower (s_scope r') = sc -> r' = r) /\
    (forall r', s_id r' <> s_id r -> r' ∈ rows t1 <-> r' ∈ rows t) /\
    (forall r', r' ∈ rows t -> s_id r' = s_id r -> s_ecosystem r' = eco /\ lower (s_scope r') = sc) /\ table_wf t1)
    as (r & Hr & He & Hl & Huniq & Hother & Hold & Hwf1).
  { unfold t1, add_scope. rewrite Hsup. cbn [negb]. fold sc.
    destruct (find_scope eco sc t) as [r|] eqn:Ef; cbn [snd].
    - pose proof (head_in _ _ Ef) as [Hr [He%String.eqb_eq Hl%String.eqb_eq]%andb_true_iff]%select_in.
      set (r1 := mkScope _ _ _ _ _ _). exists r1. split_and!; try done.
      + by apply (put_self _ _ r).
      + intros r' [->|[Hr' Hne]]%put_in He' Hl'; [done|]. destruct Hne. simpl. by rewrite (Hinj r' r) by congruence.
      + intros r' Hne. split; [intros [->|[? _]]%put_in; [done|done]|]. intros ?. by apply put_other.
      + intros r' Hr' Hid. simpl in Hid. by rewrite (row_id_inj t r' r).
      + by apply table_wf_put.
    - set (r1 := new_scope now eco sc src (seq t)). exists r1.
      assert (forall r', r' ∈ rows t -> s_ecosystem r' = eco -> lower (s_scope r') <> sc) as Hnone.
      { intros r' Hr' He' Hl'. unfold find_scope, first in Ef.
        assert (select (fun r => String.eqb (s_ecosystem r) eco && String.eqb (lower (s_scope r)) sc) t = []) as Hn by (by destruct (select _ t)).
        rewrite select_nil in Hn. specialize (Hn r' Hr'). simpl in Hn. by rewrite He', Hl', !String.eqb_refl in Hn. }
      assert (forall r', r' ∈ rows t -> s_id r' < seq t) as Hlt by (destruct Hwf as [_ Hf]; by apply Forall_forall).
      split_and!; [by apply insert_in; right|done|apply normalize_lower| | | |by apply table_wf_insert].
      + intros r' [Hr'|?]%insert_in He' Hl'; [|done]. by destruct (Hnone r' Hr' He').
      + intros r' Hne. rewrite insert_in. split; [intros [?|E]; [done|]; by rewrite E in Hne|tauto].
      + intros r' Hr' Hid. specialize (Hlt r' Hr'). simpl in Hid. lia. }
  assert (find_scope eco sc t1 = Some r) as Hf.
  { unfold find_scope, first.
    assert (r ∈ select (fun r => String.eqb (s_ecosystem r) eco && String.eqb (lower (s_scope r)) sc) t1) as Hs.
    { apply select_in. by rewrite He, Hl, !String.eqb_refl. }
    destruct (select _ t1) as [|r0 l] eqn:E; [set_solver|]. simpl. f_equal.
    assert (r0 ∈ select (fun r => String.eqb (s_ecosystem r) eco && String.eqb (lower (s_scope r)) sc) t1) as H0
      by (rewrite E; set_solver).
    apply select_in in H0 as [H0 [He0%String.eqb_eq Hl0%String.eqb_eq]%andb_true_iff]. by apply Huniq. }
  unfold remove_scope. fold sc. rewrite Hf. split; [done|]. cbn [snd]. intros s. rewrite !load_scopes_in. split.
  - intros (r' & [Hr' Hid]%delete_where_in & He' & Hs). bool_to_Z. split; [exists r'; by rewrite <- (Hother r' Hid)|].
    intros ->. apply Hid. by rewrite (Huniq r' Hr' He' Hs).
  - intros [(r' & Hr' & He' & Hs) Hne]. exists r'.
    destruct (decide (s_id r' = s_id r)) as [Hid|Hid]; [destruct (Hold r' Hr' Hid); congruence|].
    split; [|done]. apply delete_where_in. split; [by apply Hother|]. by bool_to_Z.
Qed.

Lemma scope_add_remove_witness :
  (remove_scope "npm" "Foo/" (add_scope 1 "npm" " @foo " "manual" empty_table).2).1 = 1 /\
  forall s, s ∈ load_scopes "npm" (remove_scope "npm" "@foo" (add_scope 1 "npm" "@foo" "manual" empty_table).2).2 <->
            s ∈ load_scopes "npm" empty_table /\ s <> "@foo".
Proof.
  split; [vm_compute; reflexivity|].
  apply (scope_add_remove 1 "npm" "@foo" "manual" empty_table); [apply table_wf_empty|reflexivity|set_solver].
Defined.

(** A module path with an empty second segment widens the watch to its whole host. *)
Example host_wide : auto_watch_on_malicious None 1 "gomod" "github.com//x" empty_table
  = (Some "github.com/", (insert (new_scope 1 "gomod" "github.com" "auto_malicious") empty_table).1).
Proof. vm_compute. reflexivity. Qed.
