(* ===== verification/Focus.v ===== *)
(** * Focus packages ([focus.py])

    The operator's personal watchlist: the [focus_list] table, the parser of
    focus files, membership, the central enqueue gate and the authoritative
    sync of a combined file. *)
From S2P Require Import Prelude PyStr Sql Findings Text.
From Stdlib Require Import Ascii String.

Open Scope list_scope.
Open Scope Z_scope.

Record focus_row := mkFocus {
  fo_id : Z;
  fo_ecosystem : string;
  fo_name : string;
  fo_pinned : option string;
  fo_added_at : timestamp;
}.
#[export] Instance focus_entity : Entity focus_row := {| row_id := fo_id |}.
Abbreviation ftable := (table focus_row).

Definition fo_key (r : focus_row) : string * string := (fo_ecosystem r, fo_name r).

Definition CASE_INSENSITIVE : list string := ["gomod"; "npm"].

(** [PKGWARD_FOCUS_EXCLUSIVE]. *)
Definition focus_exclusive (env : option string) : bool := String.eqb (default "0" env) "1".

Definition key (nm eco : string) : string := if str_in eco CASE_INSENSITIVE then lower nm else nm.

Definition in_eco (eco : string) (r : focus_row) : bool := String.eqb (fo_ecosystem r) eco.

Definition load_focus_names (eco : string) (t : ftable) : list string :=
  dedup (map (fun r => key (fo_name r) eco) (select (in_eco eco) t)).
Definition on_focus (nm : string) (names : list string) (eco : string) : bool := str_in (key nm eco) names.

Definition is_focus (eco nm : string) (t : ftable) : bool :=
  exists_row (fun r => in_eco eco r &&
    (if str_in eco CASE_INSENSITIVE then String.eqb (lower (fo_name r)) (lower nm) else String.eqb (fo_name r) nm)) t.

Definition gate_decision (foc wl brand_new exclusive : bool) : option priority :=
  if exclusive then (if foc then Some PHigh else None)
  else if foc || wl then Some PHigh else if brand_new then Some PNormal else None.

(** ** Parsing *)

Record FocusEntry := mkEntry { e_name : string; e_pinned : option string }.

Definition is_op (c : ascii) : bool := has_char c "<>=~!^"%string.
(** [[<>=~!^,\s]]. *)
Definition is_specifier (c : ascii) : bool := is_op c || Ascii.eqb c ","%char || is_space c.

Definition floor_version (expr : string) : option string :=
  let expr := strip (before_first ","%char expr) in
  let ver := strip_where (fun c => is_op c || Ascii.eqb c " "%char || (code c =? 9)) expr in
  if negb (truthy ver) || has_char "*"%char ver then None else Some ver.

(** [raw.split("#", 1)[0].strip()]. *)
Definition code_part (raw : string) : string := strip (before_first "#"%char raw).

Definition parse_line (eco line : string) : FocusEntry :=
  if String.eqb eco "gomod" then
    let '(nm, rest) := span_until is_space line in
    let rest := lstrip_where is_space rest in
    mkEntry nm (if truthy rest then floor_version rest else None)
  else
    let '(nm, rest) := span_until is_specifier line in
    if truthy rest then mkEntry (strip nm) (floor_version rest) else mkEntry line None.

Definition parse_raw (eco raw : string) : option FocusEntry :=
  let line := code_part raw in
  if negb (truthy line) then None
  else let e := parse_line eco line in if truthy (e_name e) then Some e else None.

Definition parse_focus_file (text eco : string) : list FocusEntry := omap (parse_raw eco) (splitlines text).

Definition VALID_ECOSYSTEMS : list string := ["pypi"; "crates"; "gomod"; "npm"].

(** The two [ValueError]s. *)
Inductive focus_error := UnknownSection (eco : string) | ContentBeforeSection.

(** A section header, [[eco]]. *)
Definition header (raw : string) : option string :=
  let s := strip raw in
  if startswith s "[" && endswith s "]"
  then Some (lower (strip (str_take (len s - 2) (str_drop 1 s)))) else None.

Abbreviation buckets := (list (string * list string)).

(** The loop over the lines, with [current]. *)
Fixpoint bucket_lines (lines : list string) (current : option string) (bs : buckets) : focus_error + buckets :=
  match lines with
  | [] => inr bs
  | raw :: lines' =>
      match header raw with
      | Some eco =>
          if str_in eco VALID_ECOSYSTEMS
          then bucket_lines lines' (Some eco) (if dhas eco bs then bs else dset eco [] bs)
          else inl (UnknownSection eco)
      | None =>
          match current with
          | None => if truthy (code_part raw) then inl ContentBeforeSection else bucket_lines lines' None bs
          | Some eco => bucket_lines lines' current (dset eco (dget_or eco [] bs ++ [raw]) bs)
          end
      end
  end.

Definition parse_combined_focus_file (text : string) : focus_error + list (string * list FocusEntry) :=
  match bucket_lines (splitlines text) None [] with
  | inl e => inl e
  | inr bs => inr (map (fun kv => (kv.1, parse_focus_file (join (String LF "") kv.2) kv.1)) bs)
  end.

(** ** The table *)

Definition new_focus (now : timestamp) (eco : string) (e : FocusEntry) (i : Z) : focus_row :=
  mkFocus i eco (e_name e) (e_pinned e) now.

Definition upsert_one (now : timestamp) (eco : string) (t : ftable) (e : FocusEntry) : ftable :=
  match first (fun r => in_eco eco r && String.eqb (fo_name r) (e_name e)) t with
  | Some r => put (mkFocus (fo_id r) (fo_ecosystem r) (fo_name r) (e_pinned e) (fo_added_at r)) t
  | None => (insert (new_focus now eco e) t).1
  end.
Definition upsert_focus (now : timestamp) (eco : string) (es : list FocusEntry) (t : ftable) : Z * ftable :=
  (Z.of_nat (List.length es), fold_left (upsert_one now eco) es t).

Definition clear_focus (eco : option string) (t : ftable) : Z * ftable :=
  let p := fun r => negb (otruthy eco) || in_eco (ostr eco) r in
  (count_where p t, delete_where p t).

Definition sync_focus (now : timestamp) (eco : string) (es : list FocusEntry) (t : ftable) : Z * ftable :=
  upsert_focus now eco es (clear_focus (Some eco) t).2.

Definition apply_focus_file (now : timestamp) (text : string) (t : ftable)
    : (focus_error + list (string * list FocusEntry)) * ftable :=
  match parse_combined_focus_file text with
  | inl e => (inl e, t)
  | inr sections => (inr sections, fold_left (fun t kv => (sync_focus now kv.1 kv.2 t).2) sections t)
  end.

(** ** Lemmas *)

Lemma select_update (q p : focus_row -> bool) f t :
  (forall r, r ∈ rows t -> q (if p r then f r else r) = q r) ->
  select q (update_where p f t) = map (fun r => if p r then f r else r) (select q t).
Proof.
  unfold select, update_where. simpl. induction (rows t) as [|r l IH]; intros Hq; [done|].
  rewrite fmap_cons. cbn [List.filter]. rewrite Hq by set_solver. rewrite IH by set_solver. by destruct (q r).
Qed.

Lemma head_map {A B} (f : A -> B) (l : list A) : head (map f l) = f <$> head l.
Proof. by destruct l. Qed.

Lemma head_app {A} (l l' : list A) : head (l ++ l') = match head l with Some x => Some x | None => head l' end.
Proof. by destruct l. Qed.

(** Membership in the preloaded set answers as the per-item query does. *)
Lemma is_focus_spec eco nm t : is_focus eco nm t = on_focus nm (load_focus_names eco t) eco.
Proof.
  apply Bool.eq_true_iff_eq. unfold is_focus, exists_row, on_focus, load_focus_names, key.
  rewrite existsb_true, str_in_true, dedup_elem, list_elem_of_In, in_map_iff. split.
  - intros (r & Hr & [He Hn]%andb_true_iff). exists r. rewrite <- list_elem_of_In, select_in. split; [|done].
    destruct (str_in eco _); by apply String.eqb_eq in Hn.
  - intros (r & Hk & Hr%list_elem_of_In). apply select_in in Hr as [Hr He]. exists r. split; [done|]. rewrite He. simpl.
    by destruct (str_in eco _); apply String.eqb_eq.
Qed.

(** The pin of a name: [None] when it is not on the list. *)
Definition named (eco nm : string) (r : focus_row) : bool := in_eco eco r && String.eqb (fo_name r) nm.
Definition pin_of (t : ftable) (eco nm : string) : option (option string) := fo_pinned <$> first (named eco nm) t.

(** The pin of the last entry with a name. *)
Definition last_pin (nm : string) (es : list FocusEntry) : option (option string) :=
  e_pinned <$> head (rev (bfilter (fun e => String.eqb (e_name e) nm) es)).

Lemma named_true eco nm r : named eco nm r = true <-> fo_ecosystem r = eco /\ fo_name r = nm.
Proof. unfold named, in_eco. by rewrite andb_true_iff, !String.eqb_eq. Qed.

Lemma last_pin_snoc nm es e : last_pin nm (es ++ [e]) = if String.eqb (e_name e) nm then Some (e_pinned e) else last_pin nm es.
Proof. unfold last_pin. rewrite List.filter_app. simpl. destruct (String.eqb _ _); [by rewrite rev_app_distr|by rewrite app_nil_r]. Qed.

Lemma upsert_one_wf now eco e t : table_wf t -> table_wf (upsert_one now eco t e).
Proof.
  intros Hwf. unfold upsert_one. destruct (first _ t) as [r|]; [by apply table_wf_put|by apply table_wf_insert].
Qed.

Lemma upsert_one_pin now eco e t eco' nm : table_wf t ->
  pin_of (upsert_one now eco t e) eco' nm =
  if bool_decide (eco = eco' /\ e_name e = nm) then Some (e_pinned e) else pin_of t eco' nm.
Proof.
  intros Hwf. unfold upsert_one, pin_of. change (fun r => in_eco eco r && String.eqb (fo_name r) (e_name e)) with (named eco (e_name e)).
  destruct (first (named eco (e_name e)) t) as [r|] eqn:E.
  - pose proof E as [Hr Hn]%head_in%select_in. pose proof Hn as [<- Hnm]%named_true.
    set (r' := mkFocus _ _ _ _ _). unfold first, put. rewrite (select_update (named eco' nm)).
    2: { intros r0 Hr0. destruct (Z.eqb_spec (row_id r0) (row_id r')) as [Ei|]; [|done].
         by rewrite (row_id_inj t r0 r Hwf Hr0 Hr Ei). }
    rewrite head_map. case_bool_decide as Hk.
    + destruct Hk as [<- <-]. unfold first in E. rewrite E. simpl. by rewrite Z.eqb_refl.
    + destruct (head (select (named eco' nm) t)) as [r0|] eqn:E0; [|done]. simpl.
      destruct (Z.eqb_spec (fo_id r0) (fo_id r)) as [Ei|]; [|done].
      apply head_in, select_in in E0 as [Hr0 Hn0%named_true].
      rewrite (row_id_inj t r0 r Hwf Hr0 Hr Ei) in Hn0. destruct Hk. by rewrite <- Hnm.
  - unfold first, select. simpl. rewrite List.filter_app, head_app. fold (select (named eco' nm) t).
    case_bool_decide as Hk.
    + destruct Hk as [<- <-]. unfold first in E. rewrite E. simpl. unfold named, in_eco. simpl. by rewrite !String.eqb_refl.
    + destruct (head (select (named eco' nm) t)); [done|]. simpl.
      destruct (named eco' nm _) eqn:Hn; [|done]. apply named_true in Hn. by destruct Hk.
Qed.

(** A query that sees no row of an ecosystem. *)
Definition blind (eco : string) (q : focus_row -> bool) : Prop := forall r, q r = true -> fo_ecosystem r <> eco.

Lemma blind_false eco q r : blind eco q -> fo_ecosystem r = eco -> q r = false.
Proof. intros Hq Hr. destruct (q r) eqn:E; [|done]. by destruct (Hq r E). Qed.

Lemma upsert_one_other now eco e t q : table_wf t -> blind eco q -> select q (upsert_one now eco t e) = select q t.
Proof.
  intros Hwf Hq. unfold upsert_one. destruct (first _ t) as [r0|] eqn:E.
  - apply head_in, select_in in E as [Hr0 [He _]%andb_true_iff]. apply String.eqb_eq in He.
    unfold put. set (r' := mkFocus _ _ _ _ _). rewrite select_update.
    + transitivity (map id (select q t)); [|apply map_id]. apply map_ext_in. intros r [Hr Hqr]%list_elem_of_In%select_in.
      destruct (Z.eqb_spec (row_id r) (row_id r')) as [Ei|]; [|done].
      rewrite (row_id_inj t r r0 Hwf Hr Hr0 Ei) in Hqr. by destruct (Hq r0 Hqr).
    + intros r Hr. destruct (Z.eqb_spec (row_id r) (row_id r')) as [Ei|]; [|done].
      rewrite (row_id_inj t r r0 Hwf Hr Hr0 Ei). rewrite !(blind_false eco) by done. done.
  - unfold select. simpl. rewrite List.filter_app. simpl. rewrite (blind_false eco) by done. apply app_nil_r.
Qed.

Lemma upsert_spec now eco es t : table_wf t ->
  table_wf (upsert_focus now eco es t).2 /\
  (forall nm, pin_of (upsert_focus now eco es t).2 eco nm =
     match last_pin nm es with Some p => Some p | None => pin_of t eco nm end) /\
  (forall q, blind eco q -> select q (upsert_focus now eco es t).2 = select q t).
Proof.
  unfold upsert_focus. cbn [snd]. intros Hwf. induction es as [|e es IH] using rev_ind; [done|].
  rewrite fold_left_app. cbn [fold_left]. destruct IH as (Hw & Hp & Ho). split; [by apply upsert_one_wf|]. split.
  - intros nm. rewrite upsert_one_pin, last_pin_snoc, Hp by done.
    destruct (String.eqb_spec (e_name e) nm); case_bool_decide; naive_solver.
  - intros q Hq. rewrite upsert_one_other by done. by apply Ho.
Qed.

Lemma sync_spec now eco es t : table_wf t -> truthy eco = true ->
  table_wf (sync_focus now eco es t).2 /\
  (forall nm, pin_of (sync_focus now eco es t).2 eco nm = last_pin nm es) /\
  (forall q, blind eco q -> select q (sync_focus now eco es t).2 = select q t).
Proof.
  intros Hwf He. unfold sync_focus, clear_focus, otruthy. cbn [snd]. change (ostr (Some eco)) with eco. rewrite He. cbn [negb orb].
  change (fun r => in_eco eco r) with (in_eco eco). destruct (upsert_spec now eco es (delete_where (in_eco eco) t)) as (Hw & Hp & Ho); [by apply table_wf_delete|].
  split; [done|]. split.
  - intros nm. rewrite Hp. destruct (last_pin nm es); [done|].
    unfold pin_of, first. rewrite (proj2 (select_nil _ _)); [done|]. intros r [_ Hr]%delete_where_in.
    unfold named. by rewrite Hr.
  - intros q Hq. rewrite Ho by done. unfold select, delete_where. cbn [rows]. rewrite bfilter_bfilter. apply bfilter_ext.
    intros r _. unfold in_eco. destruct (String.eqb_spec (fo_ecosystem r) eco); [|done]. simpl. symmetry. by apply (blind_false eco).
Qed.

Lemma blind_named eco eco' nm : eco' <> eco -> blind eco (named eco' nm).
Proof. intros Hne r [-> _]%named_true. done. Qed.

Lemma apply_sections now secs t : table_wf t -> Forall (fun kv : string * list FocusEntry => truthy kv.1 = true) secs -> NoDup secs.*1 ->
  let t' := fold_left (fun t kv => (sync_focus now kv.1 kv.2 t).2) secs t in
  forall eco,
    match dget eco secs with
    | Some es => forall nm, pin_of t' eco nm = last_pin nm es
    | None => select (in_eco eco) t' = select (in_eco eco) t
    end.
Proof.
  intros Hwf Hs Hnd t' eco. subst t'. revert t Hwf Hnd. induction Hs as [|[k es] secs Hk Hs IH]; intros t Hwf Hnd; cbn [fold_left fst snd]; [done|].
  cbn [fst] in Hk. destruct (sync_spec now k es t Hwf Hk) as (Hw & Hp & Ho).
  rewrite fmap_cons in Hnd. apply NoDup_cons in Hnd as [Hnk Hnd]. cbn [fst] in Hnk. specialize (IH _ Hw Hnd).
  cbn [dget]. destruct (decide (eco = k)) as [->|Hne].
  - rewrite (proj2 (dget_None k secs) Hnk) in IH. intros nm. rewrite <- Hp. unfold pin_of, first.
    assert (forall t, select (named k nm) t = bfilter (fun r => String.eqb (fo_name r) nm) (select (in_eco k) t)) as Hsel.
    { intros t0. unfold select. by rewrite bfilter_bfilter. }
    by rewrite !Hsel, IH.
  - destruct (dget eco secs); [done|]. rewrite IH. apply Ho. intros r Hr%String.eqb_eq. congruence.
Qed.

Lemma bucket_lines_ok lines cur bs bs' :
  (forall eco, cur = Some eco -> eco ∈ VALID_ECOSYSTEMS) -> NoDup bs.*1 -> (forall k, k ∈ bs.*1 -> k ∈ VALID_ECOSYSTEMS) ->
  bucket_lines lines cur bs = inr bs' -> NoDup bs'.*1 /\ forall k, k ∈ bs'.*1 -> k ∈ VALID_ECOSYSTEMS.
Proof.
  revert cur bs. induction lines as [|raw lines IH]; intros cur bs Hc Hnd Hk; cbn [bucket_lines]; [by intros [= ->]|].
  destruct (header raw) as [eco|].
  - destruct (str_in eco VALID_ECOSYSTEMS) eqn:E; [|done]. apply str_in_true in E.
    apply IH; [by intros ? [= <-]|..]; destruct (dhas eco bs); try done; [by apply dset_NoDup|].
    intros k [->|?]%dset_keys; auto.
  - destruct cur as [eco|].
    + apply IH; [done|by apply dset_NoDup|]. intros k [->|?]%dset_keys; auto.
    + destruct (truthy (code_part raw)); [done|]. by apply IH.
Qed.

Lemma fmap_fst_map {A B C} (f : A * B -> C) (l : list (A * B)) : (map (fun kv => (kv.1, f kv)) l).*1 = l.*1.
Proof. induction l as [|kv l IH]; [done|]. cbn. by f_equal. Qed.

Lemma combined_sections text secs : parse_combined_focus_file text = inr secs ->
  NoDup secs.*1 /\ (forall k, k ∈ secs.*1 -> k ∈ VALID_ECOSYSTEMS).
Proof.
  unfold parse_combined_focus_file. destruct (bucket_lines _ _ _) as [e|bs] eqn:E; [done|]. intros [= <-].
  rewrite fmap_fst_map. eapply bucket_lines_ok; [..|exact E]; [done|constructor|set_solver].
Qed.

Lemma valid_truthy k : k ∈ VALID_ECOSYSTEMS -> truthy k = true.
Proof. unfold VALID_ECOSYSTEMS. rewrite !elem_of_cons, elem_of_nil. by intros [->|[->|[->|[->|[]]]]]. Qed.

(** *** Rendering an entry *)

(** [name==version] as a dependency file has it, [name version] for a Go module. *)
Definition render (eco : string) (e : FocusEntry) : string :=
  match e_pinned e with
  | None => e_name e
  | Some v => e_name e +:+ (if String.eqb eco "gomod" then " " else "==") +:+ v
  end.

(** Characters that mean nothing to the parser. *)
Definition plain_char (c : ascii) : bool :=
  negb (is_specifier c) && negb (Ascii.eqb c "#"%char) && negb (Ascii.eqb c "*"%char).
Definition plain (s : string) : bool := truthy s && str_forall plain_char s.
Definition plain_entry (e : FocusEntry) : bool :=
  plain (e_name e) && match e_pinned e with Some v => plain v | None => true end.

Lemma plain_no_break c : plain_char c = true -> is_break c = false.
Proof.
  unfold plain_char, is_specifier, is_break, is_space. rewrite !andb_true_iff, !negb_true_iff, !orb_false_iff.
  intros [[[_ H] _] _]. rewrite !andb_false_iff, !Z.leb_gt in *. lia.
Qed.

Lemma before_first_app c s t : has_char c s = false ->
  before_first c (s +:+ t) = s +:+ before_first c t.
Proof.
  unfold before_first. induction s as [|d s IH]; [done|]. cbn [has_char]. rewrite orb_false_iff. intros [Hd Hs].
  rewrite append_cons. cbn [split]. rewrite Hd. specialize (IH Hs).
  destruct (split c (s +:+ t)) as [|w ws] eqn:E; [by apply split_nonempty in E|]. rewrite append_cons. by f_equal.
Qed.

Lemma before_first_none c s : has_char c s = false -> before_first c s = s.
Proof. intros H. rewrite <- (str_app_nil_r s) at 1. rewrite before_first_app by done. apply str_app_nil_r. Qed.

Lemma str_forall_not_char c s : str_forall (fun d => negb (Ascii.eqb d c)) s = true -> has_char c s = false.
Proof.
  induction s as [|d s IH]; simpl; [done|]. rewrite andb_true_iff, negb_true_iff. intros [Hd Hs].
  rewrite IH by done. by rewrite Ascii.eqb_sym, Hd.
Qed.

Lemma strip_where_id p s : str_forall (fun c => negb (p c)) s = true -> strip_where p s = s.
Proof.
  unfold strip_where. destruct s as [|c s]; [done|]. intros H. pose proof H as H'. simpl in H. apply andb_true_iff in H as [Hc%negb_true_iff _].
  cbn [lstrip_where]. rewrite Hc. revert H'. generalize (String c s). clear. induction s as [|c s IH]; [done|].
  simpl. rewrite andb_true_iff, negb_true_iff. intros [Hc Hs]. rewrite IH by done. destruct s; [by rewrite Hc|done].
Qed.

Lemma rstrip_where_app p a t : t <> "" -> rstrip_where p t = t -> rstrip_where p (a +:+ t) = a +:+ t.
Proof.
  intros Hne Ht. induction a as [|c a IH]; [done|]. rewrite append_cons. cbn [rstrip_where]. rewrite IH.
  destruct (a +:+ t) eqn:E; [|done]. destruct a, t; done.
Qed.

Lemma strip_where_mid p s m t : s <> "" -> t <> "" ->
  str_forall (fun c => negb (p c)) s = true -> str_forall (fun c => negb (p c)) t = true ->
  strip_where p (s +:+ m +:+ t) = s +:+ m +:+ t.
Proof.
  intros Hs Ht Fs Ft. unfold strip_where. assert (lstrip_where p (s +:+ m +:+ t) = s +:+ m +:+ t) as ->.
  { destruct s as [|c s]; [done|]. simpl in Fs. apply andb_true_iff in Fs as [Hc%negb_true_iff _].
    rewrite append_cons. cbn [lstrip_where]. by rewrite Hc. }
  rewrite <- str_app_assoc. apply rstrip_where_app; [done|].
  pose proof (strip_where_id p t Ft) as H. unfold strip_where in H. destruct t as [|c t]; [done|].
  simpl in Ft. apply andb_true_iff in Ft as [Hc%negb_true_iff _]. cbn [lstrip_where] in H. by rewrite Hc in H.
Qed.

Section Plain.
Variable s : string.
Hypothesis Hs : plain s = true.

Lemma plain_ne : s <> "".
Proof using Hs. intros ->. done. Qed.

Lemma plain_without (p : ascii -> bool) : (forall c, p c = true -> plain_char c = false) ->
  str_forall (fun c => negb (p c)) s = true.
Proof using Hs.
  intros H. unfold plain in Hs. apply andb_true_iff in Hs as [_ H']. revert H'. apply str_forall_impl.
  intros c Hc. destruct (p c) eqn:E; [|done]. by rewrite (H c E) in Hc.
Qed.

Lemma plain_char_no (c : ascii) : plain_char c = false -> has_char c s = false.
Proof using Hs.
  intros H. apply str_forall_not_char, plain_without. intros d Hd%Ascii.eqb_eq. by subst.
Qed.

Lemma plain_spec_free : str_forall (fun c => negb (is_specifier c)) s = true.
Proof using Hs. apply plain_without. intros c H. unfold plain_char. by rewrite H. Qed.

Lemma plain_space_free : str_forall (fun c => negb (is_space c)) s = true.
Proof using Hs. apply plain_without. intros c H. unfold plain_char, is_specifier. by rewrite H, !orb_true_r. Qed.

Lemma plain_strip : strip s = s.
Proof using Hs. apply strip_where_id, plain_space_free. Qed.

Lemma plain_truthy : truthy s = true.
Proof using Hs. unfold plain in Hs. by apply andb_true_iff in Hs as [? _]. Qed.

Definition is_trim (c : ascii) : bool := is_op c || Ascii.eqb c " "%char || (code c =? 9).

Lemma trim_not_plain c : is_trim c = true -> plain_char c = false.
Proof.
  unfold is_trim, plain_char, is_specifier. rewrite !orb_true_iff. intros [[H|H%Ascii.eqb_eq]|H].
  - by rewrite H.
  - by subst.
  - assert (is_space c = true) as ->; [|by rewrite !orb_true_r]. unfold is_space. apply Z.eqb_eq in H. by rewrite H.
Qed.

(** A version after operators that are trimmed. *)
Lemma plain_floor (ops : string) : str_forall is_op ops = true -> floor_version (ops +:+ s) = Some s.
Proof using Hs.
  intros Ho. assert (forall c, is_op c = true -> is_space c = false /\ c <> ","%char) as Hop.
  { intros c Hc. split; [|by intros ->]. destruct (is_space c) eqn:E; [|done]. exfalso. revert Hc E. clear.
    unfold is_op. destruct c as [[] [] [] [] [] [] [] []]; vm_compute; congruence. }
  unfold floor_version. rewrite before_first_none.
  2: { rewrite has_char_app, plain_char_no by done. rewrite orb_false_r. apply str_forall_not_char.
       revert Ho. apply str_forall_impl. intros c Hc%Hop. destruct (Ascii.eqb_spec c ","%char); naive_solver. }
  assert (strip (ops +:+ s) = ops +:+ s) as ->.
  { apply strip_where_id. induction ops as [|c o IH]; [apply plain_space_free|]. simpl in Ho.
    apply andb_true_iff in Ho as [Hc Ho]. rewrite append_cons. cbn [str_forall]. rewrite (proj1 (Hop c Hc)). by apply IH. }
  change (fun c => is_op c || Ascii.eqb c " "%char || (code c =? 9)) with is_trim.
  assert (strip_where is_trim (ops +:+ s) = s) as ->.
  { transitivity (strip_where is_trim s); [|apply strip_where_id, plain_without, trim_not_plain].
    unfold strip_where. f_equal. induction ops as [|c o IH]; [done|]. simpl in Ho. apply andb_true_iff in Ho as [Hc Ho].
    rewrite append_cons. cbn [lstrip_where]. unfold is_trim at 1. rewrite Hc. by apply IH. }
  by rewrite plain_truthy, plain_char_no.
Qed.

End Plain.

Lemma parse_render eco e : plain_entry e = true -> parse_raw eco (render eco e) = Some e.
Proof.
  destruct e as [nm [v|]]; unfold plain_entry, render, parse_raw, code_part; cbn [e_name e_pinned].
  - intros [Hn Hv]%andb_true_iff. set (sep := if String.eqb eco "gomod" then " " else "==").
    assert (has_char "#"%char sep = false) as Hsep by (unfold sep; by destruct (String.eqb eco "gomod")).
    rewrite before_first_none by (rewrite !has_char_app, Hsep, !plain_char_no; done).
    unfold strip. rewrite strip_where_mid; try (by apply plain_ne); try (by apply plain_space_free).
    assert (truthy (nm +:+ sep +:+ v) = true) as Htr by (destruct nm; [by apply plain_ne in Hn|done]). rewrite Htr. cbn [negb].
    unfold parse_line, sep. destruct (String.eqb eco "gomod").
    + rewrite span_until_app by (by apply plain_space_free).
      change (span_until is_space (" " +:+ v)) with ("", " " +:+ v). cbn [fst snd].
      change (lstrip_where is_space (" " +:+ v)) with (lstrip_where is_space v).
      assert (lstrip_where is_space v = v) as ->.
      { pose proof (plain_space_free v Hv) as H. destruct v as [|c v]; [done|]. simpl in H.
        apply andb_true_iff in H as [Hc%negb_true_iff _]. cbn [lstrip_where]. by rewrite Hc. }
      rewrite (plain_truthy v Hv), str_app_nil_r. cbn [e_name]. rewrite (plain_truthy nm Hn). 
      pose proof (plain_floor v Hv "" eq_refl) as Hf. change ("" +:+ v) with v in Hf. by rewrite Hf.
    + rewrite span_until_app by (by apply plain_spec_free).
      change (span_until is_specifier ("==" +:+ v)) with ("", "==" +:+ v). cbn [fst snd].
      change (truthy ("==" +:+ v)) with true. cbn iota. rewrite str_app_nil_r, (plain_strip nm Hn), (plain_floor v Hv "==") by done.
      cbn [e_name]. by rewrite (plain_truthy nm Hn).
  - rewrite andb_true_r. intros Hn. rewrite before_first_none by (by apply plain_char_no).
    rewrite (plain_strip nm Hn), (plain_truthy nm Hn). cbn [negb]. unfold parse_line.
    destruct (String.eqb eco "gomod"); rewrite <- (str_app_nil_r nm).
    + rewrite span_until_app by (by apply plain_space_free). cbn. rewrite !str_app_nil_r. by rewrite (plain_truthy nm Hn).
    + rewrite span_until_app by (by apply plain_spec_free). cbn. rewrite !str_app_nil_r. by rewrite (plain_truthy nm Hn).
Qed.

Lemma render_no_break eco e : plain_entry e = true -> no_break (render eco e) = true /\ truthy (render eco e) = true.
Proof.
  assert (forall s, plain s = true -> no_break s = true) as Hb.
  { intros s [_ H]%andb_true_iff. revert H. apply str_forall_impl. intros c Hc. by rewrite plain_no_break. }
  destruct e as [nm [v|]]; unfold plain_entry, render; cbn [e_name e_pinned].
  - intros [Hn Hv]%andb_true_iff. split; [|destruct nm; [by apply plain_ne in Hn|done]].
    unfold no_break. rewrite !str_forall_app. fold (no_break nm). fold (no_break v). rewrite (Hb nm Hn), (Hb v Hv).
    by destruct (String.eqb eco "gomod").
  - rewrite andb_true_r. intros Hn. split; [by apply Hb|by apply plain_truthy].
Qed.

(** ** Properties *)

(** C19. Applying a combined focus file is authoritative and all-or-nothing: a file that
    is refused changes nothing; otherwise, for every ecosystem with a section, the
    list afterwards holds exactly the names of that section, each with the pin of its
    last line, and an ecosystem without a section keeps its rows as they were. *)
Theorem focus_sync_authoritative now text t :
  table_wf t ->
  match apply_focus_file now text t with
  | (inl _, t') => t' = t
  | (inr sections, t') => forall eco,
      match dget eco sections with
      | Some es => forall nm, pin_of t' eco nm = last_pin nm es
      | None => select (in_eco eco) t' = select (in_eco eco) t
      end
  end.
Proof.
  intros Hwf. unfold apply_focus_file. destruct (parse_combined_focus_file text) as [e|secs] eqn:E; [done|].
  apply combined_sections in E as [Hnd Hv]. apply apply_sections; [done| |done].
  apply Forall_forall. intros kv Hkv. apply valid_truthy, Hv, list_elem_of_fmap. eauto.
Qed.

Definition ex_focus : ftable := (upsert_focus 1 "npm" [mkEntry "old" None; mkEntry "axios" None] empty_table).2.
Definition ex_text : string := join (String LF "") ["[npm]"; "axios==1.0 # prod"; "axios==1.1"; "[pypi]"]%string.

Lemma focus_sync_authoritative_witness :
  pin_of (apply_focus_file 2 ex_text ex_focus).2 "npm" "axios" = Some (Some "1.1"%string) /\
  pin_of (apply_focus_file 2 ex_text ex_focus).2 "npm" "old" = None.
Proof.
  assert (table_wf ex_focus) as Hwf by (apply upsert_spec, table_wf_empty).
  pose proof (focus_sync_authoritative 2 ex_text ex_focus Hwf) as H.
  split; [exact (H "npm"%string "axios"%string)|exact (H "npm"%string "old"%string)].
Defined.

(** Dependency-file lines parse back: a focus file of plain entries, one
    [name==version] ([name version] for Go) or bare [name] per line, is parsed to
    exactly those entries in order, in every ecosystem. *)
Theorem focus_file_roundtrip eco es :
  forallb plain_entry es = true ->
  parse_focus_file (join (String LF "") (map (render eco) es)) eco = es.
Proof.
  intros Hes. rewrite forallb_true in Hes. unfold parse_focus_file. rewrite splitlines_join.
  - assert (omap (parse_raw eco) (map (render eco) es) = es) as Ho.
    { induction es as [|e es IH]; [done|]. cbn. rewrite parse_render by (apply Hes; set_solver). f_equal. apply IH. set_solver. }
    destruct es as [|e es]; [done|]. destruct (truthy _) eqn:E; [done|]. exfalso.
    assert (List.last (map (render eco) (e :: es)) "" ∈ map (render eco) (e :: es)) as Hl.
    { apply list_elem_of_In. rewrite (app_removelast_last (l := map (render eco) (e :: es)) "") at 2 by done.
      apply in_or_app. right. by left. }
    apply list_elem_of_In, in_map_iff in Hl as (e' & He & Hin%list_elem_of_In). rewrite <- He in E.
    destruct (render_no_break eco e' (Hes e' Hin)) as [_ Ht]. congruence.
  - apply Forall_forall. intros l (e & <- & He%list_elem_of_In)%list_elem_of_In%in_map_iff. by apply render_no_break, Hes.
Qed.

Lemma focus_file_roundtrip_witness :
  parse_focus_file (join (String LF "") (map (render "crates") [mkEntry "serde" (Some "1.0.219"%string); mkEntry "rand" None])) "crates" =
  [mkEntry "serde" (Some "1.0.219"%string); mkEntry "rand" None].
Proof. apply focus_file_roundtrip. vm_compute. reflexivity. Defined.
