(* ===== verification/ThreatIntel.v ===== *)
(** * Threat intelligence ([analyze/threat_intel.py], [threat_intel_auto.py])

    Matching a file against the fingerprints of known-malicious files, in three
    tiers, and the life of automatically seeded fingerprints.  ppdeep and tlsh
    are arguments. *)
From S2P Require Import Prelude PyStr Sql Findings Intel Score Json Triage.
From Stdlib Require Import Ascii.

Open Scope list_scope.
Open Scope Z_scope.

(** ** [fnmatch.fnmatch] and SQL [LIKE] *)

Inductive glob := GStar | GAny | GLit (c : ascii) | GSet (neg : bool) (items : list (ascii * ascii)).

Fixpoint set_items (s : list ascii) : list (ascii * ascii) :=
  match s with
  | [] => []
  | c :: tl =>
      match tl with
      | d :: e :: s' => if Ascii.eqb d "-" then (c, e) :: set_items s' else (c, c) :: set_items tl
      | _ => (c, c) :: set_items tl
      end
  end.

(** Splits a set body at its closing bracket, which is not the first character. *)
Fixpoint set_body (acc s : list ascii) : option (list ascii * list ascii) :=
  match s with
  | [] => None
  | c :: s' =>
      if Ascii.eqb c "]" && negb (bool_decide (acc = [])) then Some (rev acc, s') else set_body (c :: acc) s'
  end.

Fixpoint parse_glob (fuel : nat) (p : list ascii) : list glob :=
  match fuel, p with
  | S fuel', c :: p' =>
      if Ascii.eqb c "*" then GStar :: parse_glob fuel' p'
      else if Ascii.eqb c "?" then GAny :: parse_glob fuel' p'
      else if Ascii.eqb c "[" then
        let '(neg, q) := match p' with d :: q => if Ascii.eqb d "!" then (true, q) else (false, p') | [] => (false, p') end in
        match set_body [] q with
        | Some (body, rest) => GSet neg (set_items body) :: parse_glob fuel' rest
        | None => GLit c :: parse_glob fuel' p'
        end
      else GLit c :: parse_glob fuel' p'
  | _, _ => []
  end.

Definition in_items (c : ascii) (items : list (ascii * ascii)) : bool :=
  existsb (fun r => (code r.1 <=? code c) && (code c <=? code r.2)) items.

Fixpoint glob_match (toks : list glob) : list ascii -> bool :=
  match toks with
  | [] => fun s => match s with [] => true | _ => false end
  | GStar :: toks' => fix star s := glob_match toks' s || match s with [] => false | _ :: s' => star s' end
  | GAny :: toks' => fun s => match s with _ :: s' => glob_match toks' s' | [] => false end
  | GLit c :: toks' => fun s => match s with d :: s' => Ascii.eqb c d && glob_match toks' s' | [] => false end
  | GSet neg items :: toks' =>
      fun s => match s with d :: s' => xorb neg (in_items d items) && glob_match toks' s' | [] => false end
  end.

Definition fnmatch (nm pat : string) : bool :=
  let p := String.list_ascii_of_string pat in glob_match (parse_glob (length p) p) (String.list_ascii_of_string nm).

(** [LIKE]: a percent sign is any text, an underscore any character. *)
Definition parse_like (p : string) : list glob :=
  map (fun c => if Ascii.eqb c "%" then GStar else if Ascii.eqb c "_" then GAny else GLit c) (String.list_ascii_of_string p).
Definition sql_like (s pat : string) : bool := glob_match (parse_like pat) (String.list_ascii_of_string s).

(** ** Fingerprints *)

Record ThreatIntelHash := mkIntelHash {
  ti_id : Z;
  ti_sha256 : string;
  ti_ssdeep : option string;
  ti_tlsh : option string;
  ti_campaign : string;
  ti_label : string;
  ti_file_pattern : option string;
  ti_description : option string;
  ti_source : option string;
  ti_added_at : timestamp;
}.
#[export] Instance intel_entity : Entity ThreatIntelHash := {| row_id := ti_id |}.
Abbreviation itable := (table ThreatIntelHash).

Definition SSDEEP_THRESHOLD : Z := 70.
Definition TLSH_THRESHOLD : Z := 120.
Definition PROMOTED_SSDEEP_THRESHOLD : Z := 88.
Definition PROMOTED_TLSH_THRESHOLD : Z := 40.
Definition CAMPAIGN_TLSH_THRESHOLD : list (string * Z) := [("github_contents_exfil", 60)].
Definition LABEL_SEVERITY : list (string * severity) :=
  [("malicious", SCritical); ("suspicious", SHigh); ("pua", SMedium)].

Definition is_auto (e : ThreatIntelHash) : bool := String.eqb (ostr (ti_source e)) "auto".
Definition is_promoted (e : ThreatIntelHash) : bool := String.eqb (ostr (ti_source e)) "promoted".

Definition pattern_ok (e : ThreatIntelHash) (nm : string) : bool :=
  if negb (otruthy (ti_file_pattern e)) || negb (truthy nm) then true else fnmatch nm (ostr (ti_file_pattern e)).

Inductive tier := TSha256 | TSsdeep | TTlsh.
#[export] Instance tier_eq_dec : EqDecision tier.
Proof. solve_decision. Defined.

Definition tier_name (t : tier) : string := match t with TSha256 => "sha256" | TSsdeep => "ssdeep" | TTlsh => "tlsh" end.

Record ThreatMatch := mkMatch {
  m_tier : tier;
  m_score : Z;
  m_campaign : string;
  m_label : string;
  m_description : string;
  m_intel_sha256 : string;
}.

Definition match_of (t : tier) (score : Z) (e : ThreatIntelHash) : ThreatMatch :=
  mkMatch t score (ti_campaign e) (ti_label e) (ostr (ti_description e)) (ti_sha256 e).

(** The optional native libraries: [None] where the capability is missing. *)
Record Caps := mkCaps {
  ppdeep_compare : option (string -> string -> Z);
  tlsh_diff : option (string -> string -> Z);
}.

Section Check.
Variable caps : Caps.
Variable intel : list ThreatIntelHash.

Definition sha_tier (sha256 : string) : option ThreatMatch :=
  match_of TSha256 100 <$> head (bfilter (fun e => String.eqb (ti_sha256 e) sha256) intel).

Definition ssdeep_hit (compare : string -> string -> Z) (hash nm : string) (e : ThreatIntelHash) : bool :=
  negb (is_auto e) && otruthy (ti_ssdeep e) && pattern_ok e nm &&
  ((if is_promoted e then PROMOTED_SSDEEP_THRESHOLD else SSDEEP_THRESHOLD) <=? compare hash (ostr (ti_ssdeep e))).

Definition ssdeep_tier (hash nm : string) : option ThreatMatch :=
  match ppdeep_compare caps with
  | Some compare =>
      if truthy hash then
        (fun e => match_of TSsdeep (compare hash (ostr (ti_ssdeep e))) e) <$>
          head (bfilter (ssdeep_hit compare hash nm) intel)
      else None
  | None => None
  end.

Definition tlsh_hit (diff : string -> string -> Z) (hash nm : string) (e : ThreatIntelHash) : bool :=
  negb (is_auto e) && otruthy (ti_tlsh e) && negb (String.eqb (ostr (ti_tlsh e)) "TNULL") && pattern_ok e nm &&
  (diff hash (ostr (ti_tlsh e)) <=?
     dget_or (ti_campaign e) (if is_promoted e then PROMOTED_TLSH_THRESHOLD else TLSH_THRESHOLD) CAMPAIGN_TLSH_THRESHOLD).

Definition tlsh_tier (hash nm : string) : option ThreatMatch :=
  match tlsh_diff caps with
  | Some diff =>
      if truthy hash && negb (String.eqb hash "TNULL") then
        (fun e => match_of TTlsh (diff hash (ostr (ti_tlsh e))) e) <$> head (bfilter (tlsh_hit diff hash nm) intel)
      else None
  | None => None
  end.

Definition check_file (sha256 ssdeep_hash tlsh_hash filename : string) : option ThreatMatch :=
  let nm := if truthy filename then after_last "/"%char filename else "" in
  match sha_tier sha256 with
  | Some m => Some m
  | None =>
      match ssdeep_tier ssdeep_hash nm with
      | Some m => Some m
      | None => tlsh_tier tlsh_hash nm
      end
  end.

(** [str(float)] of an integral value. *)
Definition show_float (n : Z) : string := show n +:+ ".0".

Definition match_evidence (m : ThreatMatch) : string :=
  "Known malicious file (" +:+ tier_name (m_tier m) +:+ " match, score=" +:+ show_float (m_score m) +:+
  ", campaign=" +:+ m_campaign m +:+ "): " +:+ m_description m.

Definition match_finding (path : string) (m : ThreatMatch) : Finding :=
  mkFinding ("intel." +:+ m_campaign m) "threat_intel"
    (dget_or (lower (str_or (m_label m) "malicious")) SCritical LABEL_SEVERITY) CHigh path None (match_evidence m).

(** One scanned file: its path and its three fingerprints. *)
Record hashes := mkHashes { h_sha256 : string; h_ssdeep : string; h_tlsh : string }.

Definition check_files_batch (files : list (string * hashes)) : list Finding :=
  omap (fun pf => match_finding pf.1 <$> check_file (h_sha256 pf.2) (h_ssdeep pf.2) (h_tlsh pf.2) pf.1) files.

End Check.

(** ** Seeding, promotion, removal ([threat_intel_auto.py]) *)

Definition SKIP_BASENAMES : list string :=
  ["package.json"; "package-lock.json"; "readme"; "readme.md"; "license";
   "licence"; "license.md"; "notice"; "changelog.md"; "tsconfig.json";
   ".npmignore"; ".gitignore"; "yarn.lock"; "pnpm-lock.yaml"].

Definition BINARY_EXTS : list string :=
  ["so"; "dll"; "exe"; "dylib"; "bin"; "o"; "a"; "node"; "wasm"; "pyc"; "pyd";
   "class"; "jar"; "zip"; "gz"; "tgz"; "whl"; "png"; "jpg"; "jpeg"; "gif"; "ico";
   "woff"; "woff2"; "ttf"; "pdf"; "mp4"; "mp3"; "wasm"].

(** The rows that [promote] and [remove] address by campaign or package name. *)
Definition campaign_selected (campaign : string) (e : ThreatIntelHash) : bool :=
  if startswith campaign "auto:" then String.eqb (ti_campaign e) campaign
  else sql_like (ti_campaign e) ("auto:%:" +:+ campaign).

Definition set_source (s : string) (e : ThreatIntelHash) : ThreatIntelHash :=
  mkIntelHash (ti_id e) (ti_sha256 e) (ti_ssdeep e) (ti_tlsh e) (ti_campaign e) (ti_label e)
    (ti_file_pattern e) (ti_description e) (Some s) (ti_added_at e).

Definition promote (campaign : string) (t : itable) : Z * itable :=
  let p e := is_auto e && campaign_selected campaign e in
  (count_where p t, update_where p (set_source "promoted") t).

Definition remove (campaign : string) (t : itable) : Z * itable :=
  let p e := (is_auto e || is_promoted e) && campaign_selected campaign e in
  (count_where p t, delete_where p t).

Definition is_enabled : bool := false.

(** One file hash of the scan, as the seeding loop reads it. *)
Record seed_file := mkSeedFile {
  sf_path : string; sf_sha256 : string; sf_ssdeep : option string; sf_tlsh : option string;
  sf_opaque : bool; (* entropy is recorded and at least [_BINARY_ENTROPY] *)
}.

Definition seed_ext (base : string) : string :=
  if has_char "."%char base then lower (after_last "."%char base) else "".

Definition seedable (bad_basenames : list string) (fh : seed_file) : bool :=
  let base := after_last "/"%char (sf_path fh) in
  let ext := seed_ext base in
  negb (str_in (lower base) SKIP_BASENAMES) && str_in base bad_basenames && truthy (sf_sha256 fh) &&
  truthy ext && negb (str_in ext BINARY_EXTS) && negb (sf_opaque fh).

Definition seed_row (now : timestamp) (eco nm : string) (fh : seed_file) (i : Z) : ThreatIntelHash :=
  let base := after_last "/"%char (sf_path fh) in
  let ext := seed_ext base in
  mkIntelHash i (sf_sha256 fh) (nonempty (ostr (sf_ssdeep fh))) (nonempty (ostr (sf_tlsh fh)))
    (str_take 128 ("auto:" +:+ eco +:+ ":" +:+ nm)) "malicious"
    (if truthy ext then Some ("*." +:+ ext) else None)
    (Some (str_take 500 ("auto-seeded from confirmed-malicious " +:+ eco +:+ " " +:+ nm +:+ " (" +:+ base +:+ ")")))
    (Some "auto") now.

Fixpoint seed_loop (max_per_scan : Z) (now : timestamp) (eco nm : string) (bad : list string)
    (fhs : list seed_file) (st : Z * itable) : Z * itable :=
  match fhs with
  | [] => st
  | fh :: fhs' =>
      if max_per_scan <=? st.1 then st
      else if seedable bad fh && negb (exists_row (fun e => String.eqb (ti_sha256 e) (sf_sha256 fh)) st.2)
      then seed_loop max_per_scan now eco nm bad fhs' (st.1 + 1, (insert (seed_row now eco nm fh) st.2).1)
      else seed_loop max_per_scan now eco nm bad fhs' st
  end.

(** [blocked] is the watchlist blocklist test on the name; [bad_files] are the
    files of the scan's high and critical findings. *)
Definition seed_enabled (max_per_scan : Z) (now : timestamp) (eco nm : string) (blocked : bool)
    (bad_files : list string) (fhs : list seed_file) (t : itable) : Z * itable :=
  if blocked then (0, t)
  else
    let bad := bfilter (fun b => negb (str_in b SKIP_BASENAMES)) (dedup (map (after_last "/"%char) (bfilter truthy bad_files))) in
    match bad with
    | [] => (0, t)
    | _ => seed_loop max_per_scan now eco nm bad fhs (0, t)
    end.

Definition seed_from_scan (max_per_scan : Z) (now : timestamp) (eco nm : string) (blocked : bool)
    (bad_files : list string) (fhs : list seed_file) (t : itable) : Z * itable :=
  if negb is_enabled then (0, t) else seed_enabled max_per_scan now eco nm blocked bad_files fhs t.

(** [candidates]: campaigns awaiting review, most fingerprints first. *)
Definition candidates (t : itable) : list (string * Z) :=
  let rs := select is_auto t in
  ssort (desc snd) (map (fun c => (c, Z.of_nat (length (bfilter (fun e => String.eqb (ti_campaign e) c) rs))))
    (dedup (map ti_campaign rs))).

Definition stats (t : itable) : list (string * Z) :=
  [("auto", count_where is_auto t); ("promoted", count_where is_promoted t); ("total", Z.of_nat (length (rows t)))].

(** ** Lemmas *)

Example fnmatch_ex : fnmatch "a.min.js" "*.js" = true /\ fnmatch "x7" "x[0-9]" = true /\ fnmatch "x7" "x[!0-9]" = false.
Proof. by vm_compute. Qed.

Section Lemmas.
Variable caps : Caps.
Variable intel : list ThreatIntelHash.

Lemma sha_tier_Some sha m : sha_tier intel sha = Some m -> m_tier m = TSha256 /\ exists e, e ∈ intel /\ ti_sha256 e = sha.
Proof.
  unfold sha_tier. intros H.
  destruct (head _) as [e|] eqn:E; [|done]. injection H as <-. split; [done|].
  exists e. apply head_in, bfilter_in in E as [? ?%String.eqb_eq]. done.
Qed.

Lemma sha_tier_None sha : sha_tier intel sha = None -> forall e, e ∈ intel -> ti_sha256 e <> sha.
Proof.
  unfold sha_tier. destruct (bfilter _ intel) as [|x l] eqn:E; [|done]. intros _ e He Hs.
  assert (e ∈ bfilter (fun e => String.eqb (ti_sha256 e) sha) intel) as Hin by (apply bfilter_in; by rewrite Hs, String.eqb_refl).
  rewrite E in Hin. set_solver.
Qed.

(** What a fuzzy tier may rest on. *)
Definition fuzzy_evidence (hash_ss hash_tl nm : string) (m : ThreatMatch) (e : ThreatIntelHash) : Prop :=
  e ∈ intel /\ is_auto e = false /\ pattern_ok e nm = true /\ m_intel_sha256 m = ti_sha256 e /\
  ((m_tier m = TSsdeep /\ exists compare, ppdeep_compare caps = Some compare /\ m_score m = compare hash_ss (ostr (ti_ssdeep e)) /\
      (if is_promoted e then PROMOTED_SSDEEP_THRESHOLD else SSDEEP_THRESHOLD) <= m_score m) \/
   (m_tier m = TTlsh /\ exists diff, tlsh_diff caps = Some diff /\ m_score m = diff hash_tl (ostr (ti_tlsh e)) /\
      m_score m <= dget_or (ti_campaign e) (if is_promoted e then PROMOTED_TLSH_THRESHOLD else TLSH_THRESHOLD) CAMPAIGN_TLSH_THRESHOLD)).

Lemma ssdeep_tier_Some ss tl nm m : ssdeep_tier caps intel ss nm = Some m -> exists e, fuzzy_evidence ss tl nm m e.
Proof.
  unfold ssdeep_tier. destruct (ppdeep_compare caps) as [compare|] eqn:Ec; [|done]. destruct (truthy ss); [|done].
  destruct (head _) as [e|] eqn:E; [|done]. intros [= <-]. exists e.
  apply head_in, bfilter_in in E as [Hin H]. unfold ssdeep_hit in H.
  rewrite !andb_true_iff, negb_true_iff, Z.leb_le in H. unfold fuzzy_evidence; simpl. split_and!; try tauto.
  left. split; [done|]. exists compare. tauto.
Qed.

Lemma tlsh_tier_Some ss tl nm m : tlsh_tier caps intel tl nm = Some m -> exists e, fuzzy_evidence ss tl nm m e.
Proof.
  unfold tlsh_tier. destruct (tlsh_diff caps) as [diff|] eqn:Ec; [|done]. destruct (_ && _); [|done].
  destruct (head _) as [e|] eqn:E; [|done]. intros [= <-]. exists e.
  apply head_in, bfilter_in in E as [Hin H]. unfold tlsh_hit in H.
  rewrite !andb_true_iff, !negb_true_iff, Z.leb_le in H. unfold fuzzy_evidence; simpl. split_and!; try tauto.
  right. split; [done|]. exists diff. tauto.
Qed.

End Lemmas.

Definition base_name (filename : string) : string := if truthy filename then after_last "/"%char filename else "".

Lemma sha_evidence m : m_tier m = TSha256 -> contains "(sha256 match" (match_evidence m) = true.
Proof.
  intros E. unfold match_evidence. rewrite E.
  change ("Known malicious file (" +:+ tier_name TSha256 +:+ " match, score=" +:+ show_float (m_score m) +:+
    ", campaign=" +:+ m_campaign m +:+ "): " +:+ m_description m)
    with ("Known malicious file " +:+ "(sha256 match" +:+ (", score=" +:+ show_float (m_score m) +:+
    ", campaign=" +:+ m_campaign m +:+ "): " +:+ m_description m)).
  apply contains_mid.
Qed.

(** ** Properties *)

(** The three tiers.  A file is an exact match precisely when some fingerprint has its
    SHA-256; only otherwise may a fuzzy tier answer, and then on a fingerprint that is not
    an unreviewed automatic seed, whose file pattern admits the name, at the threshold of its
    kind (tighter when promoted).  So an automatic seed alone never matches approximately. *)
Theorem check_file_tiers caps intel sha ss tl fn :
  ((exists e, e ∈ intel /\ ti_sha256 e = sha) <->
   (exists m, check_file caps intel sha ss tl fn = Some m /\ m_tier m = TSha256)) /\
  (forall m, check_file caps intel sha ss tl fn = Some m -> m_tier m <> TSha256 ->
     (forall e, e ∈ intel -> ti_sha256 e <> sha) /\ exists e, fuzzy_evidence caps intel ss tl (base_name fn) m e) /\
  ((forall e, e ∈ intel -> is_auto e = true) ->
   forall m, check_file caps intel sha ss tl fn = Some m -> m_tier m = TSha256).
Proof.
  assert (forall m, check_file caps intel sha ss tl fn = Some m -> m_tier m <> TSha256 ->
     (forall e, e ∈ intel -> ti_sha256 e <> sha) /\ exists e, fuzzy_evidence caps intel ss tl (base_name fn) m e) as Hf.
  { intros m. unfold check_file. fold (base_name fn). destruct (sha_tier intel sha) as [m0|] eqn:Es.
    - intros [= <-]. apply sha_tier_Some in Es. tauto.
    - destruct (ssdeep_tier _ _ _ _) as [m1|] eqn:E1; intros H _.
      + injection H as <-. split; [by apply sha_tier_None|by eapply ssdeep_tier_Some].
      + split; [by apply sha_tier_None|by eapply tlsh_tier_Some]. }
  split_and!; [|done|].
  - split.
    + intros (e & He & Hs). unfold check_file. destruct (sha_tier intel sha) as [m|] eqn:E.
      * exists m. split; [done|]. apply sha_tier_Some in E. tauto.
      * by destruct (sha_tier_None intel sha E e He).
    + intros (m & Hm & Ht). unfold check_file in Hm. destruct (sha_tier intel sha) as [m0|] eqn:E.
      * injection Hm as <-. apply sha_tier_Some in E. tauto.
      * destruct (ssdeep_tier _ _ _ _) as [m1|] eqn:E1.
        -- injection Hm as <-. apply (ssdeep_tier_Some _ _ _ tl) in E1 as (e & _ & _ & _ & _ & [[? _]|[? _]]); congruence.
        -- apply (tlsh_tier_Some _ _ ss) in Hm as (e & _ & _ & _ & _ & [[? _]|[? _]]); congruence.
  - intros Hall m Hm. destruct (decide (m_tier m = TSha256)) as [|Hne]; [done|].
    destruct (Hf m Hm Hne) as (_ & e & Hin & Ha & _). rewrite (Hall e Hin) in Ha. done.
Qed.

(** A byte-identical known-malicious file convicts, and nothing talks the verdict down.  If
    some scanned file has the SHA-256 of a fingerprint whose first entry is labelled malicious,
    the rule verdict over any findings that include the batch's is malicious, and so is the
    verdict after triage, whatever the model answered and however confident it was. *)
Theorem known_file_convicts caps intel pack ch files fs path h e rank llm conf :
  (path, h) ∈ files ->
  head (bfilter (fun e => String.eqb (ti_sha256 e) (h_sha256 h)) intel) = Some e ->
  lower (str_or (ti_label e) "malicious") = "malicious" ->
  (forall f, f ∈ check_files_batch caps intel files -> f ∈ fs) ->
  sr_verdict (score_and_verdict pack fs rank) = VMalicious /\
  enforce_no_downgrade ch llm (sr_verdict (score_and_verdict pack fs rank)) fs conf = VMalicious.
Proof.
  intros Hp He Hl Hin. set (m := match_of TSha256 100 e).
  assert (match_finding path m ∈ fs) as Hf.
  { apply Hin. unfold check_files_batch. apply list_elem_of_omap. exists (path, h). split; [done|].
    unfold check_file, sha_tier. simpl. by rewrite He. }
  assert (is_shadow_finding (match_finding path m) = false) as Hs by done.
  assert (f_severity (match_finding path m) = SCritical) as Hc by (simpl; by rewrite Hl).
  assert (sr_verdict (score_and_verdict pack fs rank) = VMalicious) as Hv.
  { apply verdict_cases. left. left. exists (match_finding path m). split; [by apply scored_in|by right]. }
  split; [done|]. rewrite Hv.
  assert (exact_intel fs) as Hx.
  { exists (match_finding path m). split; [done|]. split; [done|].
    change (evidence (match_finding path m)) with (match_evidence m). by rewrite sha_evidence. }
  destruct (enforce_cases ch llm VMalicious fs conf) as [(E & _)|[(E & _)|[(E & _ & _ & Hn & _)|(E & _ & [Hn|[Hn _]])]]];
    congruence || done.
Qed.

Definition ex_entry : ThreatIntelHash :=
  mkIntelHash 1 "abc" None None "meoo" "malicious" None (Some "implant") (Some "baseline") 0.
Definition ex_nocaps : Caps := mkCaps None None.
Definition ex_empty_pack : IntelPack := empty_pack "baseline".

Lemma known_file_convicts_witness :
  enforce_no_downgrade ∅ VBenign
    (sr_verdict (score_and_verdict ex_empty_pack (check_files_batch ex_nocaps [ex_entry] [("a.js", mkHashes "abc" "" "")]) None))
    (check_files_batch ex_nocaps [ex_entry] [("a.js", mkHashes "abc" "" "")]) f_one = VMalicious.
Proof.
  apply (known_file_convicts ex_nocaps [ex_entry] ex_empty_pack ∅ [("a.js", mkHashes "abc" "" "")]
    (check_files_batch ex_nocaps [ex_entry] [("a.js", mkHashes "abc" "" "")]) "a.js" (mkHashes "abc" "" "") ex_entry None VBenign f_one);
    [set_solver|reflexivity|reflexivity|done].
Defined.

(** Seeds are contained.  Automatic seeding is off: a scan inserts no fingerprint.  Promotion
    turns only automatic fingerprints into promoted ones and changes nothing else of them;
    removal deletes only automatic or promoted ones; a curated fingerprint survives both. *)
Theorem seeds_contained n now eco nm bl bad fhs c t :
  seed_from_scan n now eco nm bl bad fhs t = (0, t) /\
  (forall e, e ∈ rows t -> is_auto e = false -> e ∈ rows (promote c t).2 /\
     (is_promoted e = false -> e ∈ rows (remove c t).2)) /\
  (forall e, e ∈ rows (promote c t).2 -> e ∈ rows t \/
     exists e0, e0 ∈ rows t /\ is_auto e0 = true /\ campaign_selected c e0 = true /\ e = set_source "promoted" e0) /\
  (forall e, e ∈ rows (remove c t).2 <-> e ∈ rows t /\ ((is_auto e || is_promoted e) && campaign_selected c e = false)).
Proof.
  split_and!; [done| | |].
  - intros e He Ha. split.
    + unfold promote; cbn [snd]. apply update_where_in. exists e. by rewrite Ha.
    + intros Hp. unfold remove; cbn [snd]. apply delete_where_in. by rewrite Ha, Hp.
  - intros e. unfold promote; cbn [snd]. intros (e0 & He0 & ->)%update_where_in.
    destruct (is_auto e0) eqn:Ha; simpl; [|by left]. destruct (campaign_selected c e0) eqn:Hc; [|by left].
    right. exists e0. done.
  - intros e. unfold remove; cbn [snd]. by rewrite delete_where_in.
Qed.

(** [LIKE] reads an underscore of the package name as a wildcard: promoting one package
    also promotes another. *)
Example promote_wildcard :
  campaign_selected "left_pad" (mkIntelHash 1 "x" None None "auto:npm:left-pad" "malicious" None None (Some "auto") 0) = true.
Proof. by vm_compute. Qed.
