(* ===== verification/DepIntel.v ===== *)
(** * Dependency intelligence ([known_bad_deps.py], [analyze/dep_intel.py])

    The confirmed-bad name set and its cache, the normal form of names and
    requirement strings, and the findings for dependencies on bad packages. *)
From S2P Require Import Prelude PyStr Sql Findings Watch.
From Stdlib Require Import Ascii.

Open Scope list_scope.
Open Scope Z_scope.

(** ** Names *)

Definition is_alnum (c : ascii) : bool :=
  is_digit c || is_upper c || ((97 <=? code c) && (code c <=? 122)).
Definition is_name_sep (c : ascii) : bool := Ascii.eqb c "-" || Ascii.eqb c "_" || Ascii.eqb c ".".

(** [re.sub("[-_.]+", "-", n)]: a run of separators becomes one dash. *)
Fixpoint collapse (in_run : bool) (s : string) : string :=
  match s with
  | EmptyString => EmptyString
  | String c s' =>
      if is_name_sep c then if in_run then collapse true s' else String "-" (collapse true s')
      else String c (collapse false s')
  end.

Definition normalize (eco nm : string) : string :=
  let n := lower (strip nm) in
  if String.eqb eco "pypi" then strip_where (Ascii.eqb "-"%char) (collapse false n) else n.

Fixpoint take_while (p : ascii -> bool) (s : string) : string :=
  match s with
  | EmptyString => EmptyString
  | String c s' => if p c then String c (take_while p s') else EmptyString
  end.

(** The leading distribution name of a PEP 508 requirement. *)
Definition pep508_name (entry : string) : option string :=
  let s := lstrip_where is_space entry in
  match s with
  | String c _ => if is_alnum c then Some (take_while (fun c => is_alnum c || is_name_sep c) s) else None
  | EmptyString => None
  end.

Definition extract_dep_name (eco entry : string) : option string :=
  if negb (truthy entry) then None
  else if String.eqb eco "pypi" then pep508_name entry
  else Some (strip entry).

(** ** The confirmed-bad set *)

Definition query_known_bad (cfg : AutoConfig) (eco : string) (t : wtable) : list string :=
  let blocked := dget_or eco [] (blocklist cfg) in
  dedup (map (fun e => normalize eco e.1.2)
    (bfilter (fun e => negb (str_in (lower e.1.2) blocked)) (list_auto_entries (Some eco) t))).

Abbreviation cache := (list (string * (timestamp * list string))).

(** [query] is the database read, [None] where it raises. *)
Definition load_known_bad (ttl now : timestamp) (query : option (list string)) (eco : string) (c : cache)
    : list string * cache :=
  let miss :=
    match query with
    | None => ([], c)
    | Some names => (names, dset eco (now, names) c)
    end in
  match dget eco c with
  | Some (ts, names) => if now - ts <? ttl then (names, c) else miss
  | None => miss
  end.

(** ** Matching declared dependencies *)

Definition bad_dep (eco : string) (known_bad : list string) (entry : string) : option string :=
  match extract_dep_name eco entry with
  | None => None
  | Some nm =>
      if negb (truthy nm) then None
      else let norm := normalize eco nm in if str_in norm known_bad then Some norm else None
  end.

Definition match_known_bad (eco : string) (requires_dist known_bad : list string) : list (string * string) :=
  fold_left (fun hits entry =>
    match bad_dep eco known_bad entry with Some norm => dset entry norm hits | None => hits end)
    requires_dist [].

Definition prev_names (eco : string) (prev : list string) : list string :=
  map (fun e => normalize eco (ostr (extract_dep_name eco e))) prev.

Definition newly_added (eco : string) (prev : list string) (norm : string) : bool :=
  match prev with [] => false | _ => negb (str_in norm (prev_names eco prev)) end.

Definition dep_finding (eco : string) (prev : list string) (hit : string * string) : Finding :=
  let '(orig, norm) := hit in
  let '(sev, note) := if newly_added eco prev norm then (SCritical, "newly added in this version")
                      else (SHigh, "present in this version") in
  pkg_finding "dep_intel.depends_on_known_malicious" "dep_intel" sev CHigh
    ("declares a dependency on confirmed-malicious " +:+ eco +:+ " package " +:+ repr orig +:+ " (" +:+ note +:+
     ") — supply-chain propagation signal").

Definition check_known_bad_deps (eco : string) (requires_dist prev known_bad : list string) : list Finding :=
  match known_bad with
  | [] => []
  | _ => map (dep_finding eco prev)
           (ssort (fun a b => String.leb a.1 b.1) (match_known_bad eco requires_dist known_bad))
  end.

(** ** Lemmas *)

Lemma match_known_bad_in eco reqs known orig norm :
  (orig, norm) ∈ match_known_bad eco reqs known <-> orig ∈ reqs /\ bad_dep eco known orig = Some norm.
Proof.
  unfold match_known_bad.
  set (step := fun hits entry => match bad_dep eco known entry with Some norm => dset entry norm hits | None => hits end).
  assert (forall hits : list (string * string), NoDup hits.*1 ->
    (forall o n, (o, n) ∈ hits -> bad_dep eco known o = Some n) ->
    NoDup (fold_left step reqs hits).*1 /\
    ((orig, norm) ∈ fold_left step reqs hits <-> (orig, norm) ∈ hits \/ (orig ∈ reqs /\ bad_dep eco known orig = Some norm))) as H.
  2: { destruct (H [] ltac:(constructor) ltac:(set_solver)) as [_ H']. rewrite H'. set_solver. }
  induction reqs as [|e reqs IH]; intros hits Hd Hb; cbn [fold_left]; [split; [done|set_solver]|].
  unfold step at 2 4. destruct (bad_dep eco known e) as [n|] eqn:E.
  - assert (NoDup (dset e n hits).*1) as Hd' by auto with pk.
    assert (forall o m, (o, m) ∈ dset e n hits <-> (o, m) ∈ hits \/ (o = e /\ m = n)) as Hin.
    { intros o m. split.
      - intros Hom. apply (dget_in_NoDup _ _ _ Hd') in Hom. rewrite dget_dset in Hom. case_decide; simplify_eq; [by right|].
        left. by apply dget_Some_in.
      - intros Hom. apply dget_Some_in. rewrite dget_dset. case_decide as Ee.
        + subst o. destruct Hom as [Hom|[_ ->]]; [|done]. apply Hb in Hom. congruence.
        + destruct Hom as [Hom|[? _]]; [|congruence]. by apply dget_in_NoDup. }
    destruct (IH (dset e n hits) Hd') as [IH1 IH2].
    { intros o m [?|[-> ->]]%Hin; auto. }
    split; [done|]. rewrite IH2, Hin, elem_of_cons. naive_solver congruence.
  - destruct (IH hits Hd Hb) as [IH1 IH2]. split; [done|]. rewrite IH2, elem_of_cons. naive_solver congruence.
Qed.

(** ** Properties *)

(** Which dependencies are reported.  The findings are exactly one kind, one for each distinct
    declared requirement whose normalised name is confirmed bad; the severity is critical
    precisely when an earlier release declared dependencies and none of them had that name. *)
Theorem dep_findings_exact eco reqs prev known f :
  f ∈ check_known_bad_deps eco reqs prev known <->
  exists entry nm, entry ∈ reqs /\ extract_dep_name eco entry = Some nm /\ nm <> "" /\
    normalize eco nm ∈ known /\ f = dep_finding eco prev (entry, normalize eco nm) /\
    (f_severity f = SCritical <-> prev <> [] /\ normalize eco nm ∉ prev_names eco prev) /\
    (f_severity f = SCritical \/ f_severity f = SHigh).
Proof.
  assert (forall entry norm, (f_severity (dep_finding eco prev (entry, norm)) = SCritical <->
      prev <> [] /\ norm ∉ prev_names eco prev) /\
    (f_severity (dep_finding eco prev (entry, norm)) = SCritical \/ f_severity (dep_finding eco prev (entry, norm)) = SHigh)) as Hsev.
  { intros entry norm. unfold dep_finding, newly_added. destruct prev as [|p prev0]; simpl; [naive_solver|].
    destruct (str_in norm _) eqn:E; simpl; [apply str_in_true in E; naive_solver|].
    split; [|by left]. split; [|done]. intros _. split; [done|]. intros H%str_in_true. simpl in *. congruence. }
  split.
  - unfold check_known_bad_deps. destruct known as [|k known0] eqn:Ek; [set_solver|]. rewrite <- Ek.
    intros ([orig norm] & -> & Hin)%list_elem_of_fmap. apply ssort_in, match_known_bad_in in Hin as [Ho Hb].
    unfold bad_dep in Hb. destruct (extract_dep_name eco orig) as [nm|] eqn:Ee; [|done].
    destruct (truthy nm) eqn:Et; [|done]. cbn [negb] in Hb. destruct (str_in _ known) eqn:Es; [|done]. injection Hb as <-.
    exists orig, nm. destruct (Hsev orig (normalize eco nm)) as [H1 H2].
    split_and!; try done; [by intros ->|by apply str_in_true].
  - intros (entry & nm & He & Hn & Hne & Hk & -> & _). unfold check_known_bad_deps.
    destruct known as [|k known0] eqn:Ek; [set_solver|]. rewrite <- Ek in *.
    apply list_elem_of_fmap. exists (entry, normalize eco nm). split; [done|].
    apply ssort_in, match_known_bad_in. split; [done|]. unfold bad_dep. rewrite Hn.
    assert (truthy nm = true) as -> by (destruct nm; done). by rewrite (proj2 (str_in_true _ _) Hk).
Qed.

Example spelling_ex : check_known_bad_deps "pypi" ["Evil_Pkg>=1.0; python_version<'3'"] ["requests"] ["evil-pkg"] <> [].
Proof. by vm_compute. Qed.

Definition cache_ok (q : string -> timestamp -> option (list string)) (now : timestamp) (c : cache) : Prop :=
  forall eco ts names, dget eco c = Some (ts, names) -> q eco ts = Some names /\ ts <= now.

(** The cached set is fresh.  If every cached set was read from the database at the time
    recorded with it, then what a lookup returns was read within the last [ttl], or the
    read failed and the empty set is returned without being cached; and the cache keeps
    this property. *)
Theorem known_bad_fresh q ttl now eco c :
  0 < ttl -> cache_ok q now c ->
  let '(names, c') := load_known_bad ttl now (q eco now) eco c in
  cache_ok q now c' /\
  ((exists ts, now - ttl < ts <= now /\ q eco ts = Some names) \/ (q eco now = None /\ names = [] /\ c' = c)).
Proof.
  intros Httl Hc. unfold load_known_bad.
  assert (let '(names, c') := match q eco now with None => ([], c) | Some names => (names, dset eco (now, names) c) end in
    cache_ok q now c' /\
    ((exists ts, now - ttl < ts <= now /\ q eco ts = Some names) \/ (q eco now = None /\ names = [] /\ c' = c))) as Hmiss.
  { destruct (q eco now) as [names|] eqn:Eq; [|by split; [|right]]. split.
    - intros e ts n. rewrite dget_dset. case_decide; [intros [= <- <-]; subst e; split; [done|lia]|apply Hc].
    - left. exists now. split; [lia|done]. }
  destruct (dget eco c) as [[ts names]|] eqn:E; [|done]. destruct (Z.ltb_spec (now - ts) ttl); [|done].
  destruct (Hc _ _ _ E). split; [done|]. left. exists ts. split; [lia|done].
Qed.

Lemma known_bad_fresh_witness :
  let q := fun _ ts => if ts <? 5 then Some ["evil"] else None in
  (load_known_bad 300 2 (q "npm" 2) "npm" []).1 = ["evil"] /\
  cache_ok q 10 (load_known_bad 300 10 (q "npm" 10) "npm" (load_known_bad 300 2 (q "npm" 2) "npm" []).2).2.
Proof.
  set (q := fun (_ : string) ts => if ts <? 5 then Some ["evil"] else None). split; [reflexivity|].
  refine (proj1 (known_bad_fresh q 300 10 "npm" (load_known_bad 300 2 (q "npm" 2) "npm" []).2 _ _)); [done|].
  intros eco ts names. simpl. case_decide; [|done]. intros [= <- <-]. split; [done|lia].
Defined.
