(* ===== verification/Anomaly.v ===== *)
(** * Version-update anomalies ([ecosystems/version_anomaly.py], [npm/ingest/anomaly.py])

    The metadata diff of a package's newest version against its predecessor:
    the shared core of the crates and PyPI gates, and the richer npm gate that
    reads lifecycle hooks from the packument.  The float factor of the size
    ratio is an exact rational. *)
From S2P Require Import Prelude PyStr Sql Findings Json Text Watch DepIntel.
From stdpp Require Import sorting.
From Stdlib Require Import Ascii String QArith Sorted.

Open Scope list_scope.
Open Scope Z_scope.

(** Newest first on an ISO timestamp: a stable sort by the string, reversed. *)
Definition newest_first {A} (at_ : A -> string) (l : list A) : list A :=
  ssort (fun x y => String.leb (at_ y) (at_ x)) l.

(** [n >= m * factor]. *)
Definition at_least (factor : Q) (n m : Z) : bool := Qle_bool (inject_Z m * factor) (inject_Z n).

(** ** The shared core *)

Module Core.

Record VersionMeta := mkMeta {
  version : string;
  published_at : string;
  size : option Z;
  publisher : option string;
  runs_bundled_hook : bool;
}.

Record DiffConfig := mkDiffConfig { SIZE_JUMP_FACTOR : Q; SIZE_JUMP_MIN_BYTES : Z; SIZE_JUMP_ABS_BYTES : Z; SIZE_JUMP_ABS_MIN_BASE : Z }.
Definition default_diff : DiffConfig := mkDiffConfig 3 262144 51200 262144.

Record AnomalyResult := mkResult { r_version : string; r_flags : list string }.
Definition high_priority (a : AnomalyResult) : bool := str_in "install_hook_bundled_exec" (r_flags a).

Definition nonzero (x : option Z) : option Z := match x with Some n => if n =? 0 then None else Some n | None => None end.

Definition size_jump (cfg : DiffConfig) (new prev : VersionMeta) : bool :=
  match nonzero (size new), nonzero (size prev) with
  | Some n, Some p =>
      let delta := n - p in
      (at_least (SIZE_JUMP_FACTOR cfg) n p && (SIZE_JUMP_MIN_BYTES cfg <=? delta)) ||
      ((0 <? SIZE_JUMP_ABS_BYTES cfg) && (SIZE_JUMP_ABS_BYTES cfg <=? delta) && (SIZE_JUMP_ABS_MIN_BASE cfg <=? p))
  | _, _ => false
  end.

Definition publisher_changed (new prev : VersionMeta) : bool :=
  otruthy (publisher new) && otruthy (publisher prev) && negb (bool_decide (publisher new = publisher prev)).

Definition flag (b : bool) (s : string) : list string := if b then [s] else [].

Definition diff_flags (cfg : DiffConfig) (new prev : VersionMeta) : list string :=
  flag (runs_bundled_hook new && negb (runs_bundled_hook prev)) "install_hook_bundled_exec" ++
  flag (size_jump cfg new prev) "size_jump" ++
  flag (publisher_changed new prev) "publisher_change".

Definition detect_anomaly (cfg : DiffConfig) (metas : list VersionMeta) : option AnomalyResult :=
  match newest_first published_at metas with
  | new :: prev :: _ =>
      match diff_flags cfg new prev with
      | [] => None
      | fs => Some (mkResult (version new) fs)
      end
  | _ => None
  end.

Definition priority_of (a : AnomalyResult) : priority := if high_priority a then PHigh else PNormal.

(** The candidates in the order [list(set)] gives, the metadata of each ([None]:
    the fetch failed or answered nothing), the hits in completion order. *)
Definition check_one (cfg : DiffConfig) (fetch : string -> option (list VersionMeta)) (nm : string)
    : option (string * string * priority) :=
  match fetch nm with
  | None | Some [] => None
  | Some metas =>
      match detect_anomaly cfg metas with
      | Some a => Some (nm, r_version a, priority_of a)
      | None => None
      end
  end.
Definition check_candidates (cfg : DiffConfig) (fetch : string -> option (list VersionMeta)) (completion : list string -> list string)
    (max_checks : nat) (names : list string) : list (string * string * priority) :=
  omap (check_one cfg fetch) (completion (List.firstn max_checks names)).

End Core.

(** ** The npm gate *)

Module Npm.

Definition INSTALL_HOOKS : list string := ["preinstall"; "install"; "postinstall"; "prepare"].

Record HookConfig := mkHookConfig { SIZE_JUMP_FACTOR : Q; SIZE_JUMP_MIN_BYTES : Z; ESTABLISHED_MIN_VERSIONS : Z }.
Definition default_hooks : HookConfig := mkHookConfig 3 262144 5.

Definition BENIGN_HOOK_LEADS : list string :=
  ["node"; "npm"; "npx"; "yarn"; "pnpm"; "tsc"; "tsx"; "ts-node"; "node-gyp";
   "node-gyp-build"; "prebuild-install"; "prebuildify"; "is-ci"; "cross-env";
   "shx"; "rimraf"; "mkdirp"; "cpy"; "copyfiles"; "echo"; "true"; "exit"; "cd";
   "test"; "husky"; "patch-package"; "electron-builder"; "gulp"; "webpack";
   "rollup"; "vite"; "esbuild"; "babel"; "nest"; "ng"; "prisma"; "next"].
Definition SHELL_INTERPS : list string := ["sh"; "bash"; "dash"; "zsh"; "ksh"; "ash"; "env"].

Record Anomaly := mkAnomaly { a_version : string; a_flags : list string; a_priority : priority }.

Definition anomaly_priority (cfg : HookConfig) (flags : list string) (n_versions : Z) : priority :=
  let established := ESTABLISHED_MIN_VERSIONS cfg <=? n_versions in
  let hook_change := str_in "install_hook_added" flags || str_in "install_hook_changed" flags in
  if str_in "install_hook_bundled_exec" flags then PHigh
  else if str_in "size_jump" flags && established then PHigh
  else if str_in "publisher_change" flags && (str_in "size_jump" flags || hook_change) then PHigh
  else PNormal.

Abbreviation obj := (list (string * json)).

(** [d.items()] of a decoded object: each key once, where it first stood. *)
Definition jitems (o : obj) : obj := fold_left (fun d kv => dset kv.1 kv.2 d) o [].

Definition as_obj (v : json) : option obj := match v with JObj o => Some o | _ => None end.
Definition as_str (v : json) : option string := match v with JStr s => Some s | _ => None end.

Definition install_hooks (manifest : obj) : list (string * string) :=
  match as_obj (jget "scripts" manifest JNull) with
  | None => []
  | Some scripts =>
      omap (fun h => match jget h scripts JNull with
                     | JStr cmd => if truthy (strip cmd) then Some (h, cmd) else None
                     | _ => None
                     end) INSTALL_HOOKS
  end.

(** [re.split("&&|\|\||;|\|", cmd)]. *)
Fixpoint segments (s : string) : list string :=
  match s with
  | EmptyString => [EmptyString]
  | String c s' =>
      match s' with
      | String d s'' =>
          if (Ascii.eqb c "&" && Ascii.eqb d "&") || (Ascii.eqb c "|" && Ascii.eqb d "|") then EmptyString :: segments s''
          else if Ascii.eqb c ";" || Ascii.eqb c "|" then EmptyString :: segments s'
          else glue c (segments s')
      | EmptyString => if Ascii.eqb c ";" || Ascii.eqb c "|" then [EmptyString; EmptyString] else [String c EmptyString]
      end
  end.

Definition base_of (tok : string) : string := lower (path_name tok).

(** The token a command line really runs: past a shell interpreter and its options. *)
Definition lead_of (toks : list string) : option string :=
  match toks with
  | [] => None
  | t :: rest =>
      if str_in (base_of t) SHELL_INTERPS && negb (bool_decide (rest = []))
      then Some (default t (head (List.filter (fun x => negb (startswith x "-")) rest)))
      else Some t
  end.

Definition segment_runs_path (seg : string) : bool :=
  let seg := strip seg in
  truthy seg &&
  match shlex_split seg with
  | None => false
  | Some toks =>
      match lead_of toks with
      | None => false
      | Some lead => (has_char "/"%char lead || startswith lead ".") && negb (str_in (base_of lead) BENIGN_HOOK_LEADS)
      end
  end.

Definition hook_runs_bundled_path (scripts : json) : bool :=
  match as_obj scripts with
  | None => false
  | Some o => existsb (fun h => match jget h o JNull with JStr cmd => existsb segment_runs_path (segments cmd) | _ => false end) INSTALL_HOOKS
  end.

Definition publisher (manifest : obj) : json :=
  match as_obj (jget "_npmUser" manifest JNull) with Some u => jget "name" u JNull | None => JNull end.

Definition declared_deps (manifest : obj) : list string :=
  dedup (flat_map (fun k => match as_obj (jget k manifest JNull) with Some d => d.*1 | None => [] end)
    ["dependencies"; "optionalDependencies"; "peerDependencies"]).

Definition versions_newest_first (packument : obj) : list (string * obj) :=
  match as_obj (jget "versions" packument JNull), as_obj (jget "time" packument JNull) with
  | Some versions, Some times =>
      map (fun x => (x.1.1, x.2))
        (newest_first (fun x => x.1.2)
          (omap (fun vm => match as_obj vm.2, as_str (jget vm.1 times JNull) with
                           | Some m, Some t => Some (vm.1, t, m)
                           | _, _ => None
                           end) (jitems versions)))
  | _, _ => []
  end.

Definition new_known_bad_dep_edge (packument : obj) (known_bad : list string) : option (string * string) :=
  match known_bad, versions_newest_first packument with
  | [], _ | _, [] => None
  | _, (new_v, new_m) :: older =>
      let prev_deps := match older with [] => [] | (_, m) :: _ => map (normalize "npm") (declared_deps m) end in
      (fun d => (new_v, d)) <$>
      head (List.filter (fun d => str_in (normalize "npm" d) known_bad && negb (str_in (normalize "npm" d) prev_deps))
        (py_sorted (declared_deps new_m)))
  end.

(** [isinstance(x, int)] also holds of booleans. *)
Definition dist_int (manifest : obj) (k : string) : option Z :=
  match as_obj (jget "dist" manifest JNull) with
  | Some dist => match jget k dist JNull with JInt n => Some n | JBool b => Some (Z.b2z b) | _ => None end
  | None => None
  end.

(** [==] on decoded values: numbers compare by value across types. *)
Definition num_float_eq (n : Z) (f : double) : bool :=
  match f with
  | S754_zero _ => n =? 0
  | S754_finite s m e =>
      let v := if s then - Zpos m else Zpos m in
      if 0 <=? e then n =? v * 2 ^ e else n * 2 ^ (- e) =? v
  | _ => false
  end.
Definition json_num (v : json) : option Z := match v with JInt n => Some n | JBool b => Some (Z.b2z b) | _ => None end.
Fixpoint json_eq (x y : json) : bool :=
  match x, y with
  | JNull, JNull => true
  | JStr a, JStr b => String.eqb a b
  | JFloat f, JFloat g => SFeqb f g
  | JFloat f, _ => match json_num y with Some n => num_float_eq n f | None => false end
  | _, JFloat g => match json_num x with Some n => num_float_eq n g | None => false end
  | JArr l, JArr l' =>
      (fix go l l' := match l, l' with
        | [], [] => true
        | a :: l, b :: l' => json_eq a b && go l l'
        | _, _ => false
        end) l l'
  | JObj o, JObj o' =>
      (List.length (jitems o) =? List.length (jitems o'))%nat &&
      (fix go (d : obj) := match d with
        | [] => true
        | (k, v) :: d' =>
            (str_in k d'.*1 || match dget k (rev o') with Some w => json_eq v w | None => false end) && go d'
        end) o
  | _, _ => match json_num x, json_num y with Some n, Some m => n =? m | _, _ => false end
  end.

Definition hook_flag (new_hooks prev_hooks : list (string * string)) : list string :=
  if existsb (fun kv => negb (bool_decide (dget kv.1 prev_hooks = Some kv.2))) new_hooks
  then [if bool_decide (prev_hooks = []) then "install_hook_added" else "install_hook_changed"]%string else [].

Definition truthy_int (x : option Z) : option Z := Core.nonzero x.

Definition size_flag (cfg : HookConfig) (ns ps : option Z) : bool :=
  match truthy_int ns, truthy_int ps with
  | Some n, Some p => at_least (SIZE_JUMP_FACTOR cfg) n p && (SIZE_JUMP_MIN_BYTES cfg <=? n - p)
  | _, _ => false
  end.
Definition count_flag (nf pf : option Z) : bool :=
  match truthy_int nf, truthy_int pf with Some n, Some p => p <? n | _, _ => false end.

Definition update_flags (cfg : HookConfig) (new_m prev_m : obj) : list string :=
  let new_hooks := install_hooks new_m in
  hook_flag new_hooks (install_hooks prev_m) ++
  Core.flag (negb (bool_decide (new_hooks = [])) && hook_runs_bundled_path (jget "scripts" new_m JNull) &&
             negb (hook_runs_bundled_path (jget "scripts" prev_m JNull))) "install_hook_bundled_exec" ++
  Core.flag (size_flag cfg (dist_int new_m "unpackedSize") (dist_int prev_m "unpackedSize")) "size_jump" ++
  Core.flag (count_flag (dist_int new_m "fileCount") (dist_int prev_m "fileCount")) "file_count_jump" ++
  Core.flag (json_truthy (publisher new_m) && json_truthy (publisher prev_m) && negb (json_eq (publisher new_m) (publisher prev_m))) "publisher_change".

Definition n_versions (packument : obj) : Z :=
  match as_obj (jget "versions" packument JNull) with Some v => Z.of_nat (List.length (jitems v)) | None => 0 end.

Definition detect_update_anomaly (cfg : HookConfig) (packument : obj) : option Anomaly :=
  match versions_newest_first packument with
  | (new_v, new_m) :: (_, prev_m) :: _ =>
      let flags := update_flags cfg new_m prev_m in
      if bool_decide (flags = []) || bool_decide (flags = ["file_count_jump"%string]) then None
      else Some (mkAnomaly new_v flags (anomaly_priority cfg flags (n_versions packument)))
  | _ => None
  end.

End Npm.

(** ** Lemmas *)

Section Newest.
Context {A : Type} (at_ : A -> string).
Let leb (x y : A) := String.leb (at_ y) (at_ x).

Lemma newest_sorted l : StronglySorted (fun x y => leb x y = true) (newest_first at_ l).
Proof.
  apply (ssort_sorted leb).
  - intros x y. destruct (String.leb_total (at_ x) (at_ y)); [by right|by left].
  - intros x y z Hxy Hyz. by apply (string_leb_trans (at_ z) (at_ y)).
Qed.

Lemma newest_perm l : newest_first at_ l ≡ₚ l.
Proof. apply (ssort_perm leb). Qed.

(** With distinct times the order of the input does not matter. *)
Lemma newest_unique l l' : l ≡ₚ l' -> (forall x y, x ∈ l -> y ∈ l -> at_ x = at_ y -> x = y) -> newest_first at_ l = newest_first at_ l'.
Proof.
  intros Hp Hd. apply (StronglySorted_unique_strong (fun x y => leb x y = true)); try apply newest_sorted.
  - intros x y Hx Hy H1 H2. apply Hd; [by rewrite newest_perm in Hx|by rewrite newest_perm, <- Hp in Hy|].
    by apply String.leb_antisym.
  - by rewrite !newest_perm.
Qed.

(** The first of the sorted list is newest, and the second the newest of the rest. *)
Lemma newest_two l x y r : newest_first at_ l = x :: y :: r ->
  x ∈ l /\ y ∈ l /\ (forall z, z ∈ l -> String.leb (at_ z) (at_ x) = true) /\
  (forall z, z ∈ r -> String.leb (at_ z) (at_ y) = true) /\ l ≡ₚ x :: y :: r.
Proof.
  intros E. pose proof (newest_perm l) as Hp. pose proof (newest_sorted l) as Hs. rewrite E in Hp, Hs.
  inversion Hs as [|? ? Hs2 Hx]; subst. inversion Hs2 as [|? ? _ Hy]; subst. rewrite Forall_forall in Hx, Hy.
  split_and!; [rewrite <- Hp; set_solver| rewrite <- Hp; set_solver| |exact Hy|by symmetry].
  intros z Hz. rewrite <- Hp in Hz. apply elem_of_cons in Hz as [->|Hz]; [|by apply Hx].
  by destruct (String.leb_total (at_ x) (at_ x)).
Qed.

End Newest.

Lemma diff_flags_elem cfg new prev f : f ∈ Core.diff_flags cfg new prev <->
  (f = "install_hook_bundled_exec"%string /\ Core.runs_bundled_hook new = true /\ Core.runs_bundled_hook prev = false) \/
  (f = "size_jump"%string /\ Core.size_jump cfg new prev = true) \/
  (f = "publisher_change"%string /\ Core.publisher_changed new prev = true).
Proof.
  unfold Core.diff_flags, Core.flag. rewrite !elem_of_app.
  destruct (Core.runs_bundled_hook new), (Core.runs_bundled_hook prev), (Core.size_jump cfg new prev),
    (Core.publisher_changed new prev); cbn [andb negb]; rewrite ?list_elem_of_singleton, ?elem_of_nil; naive_solver.
Qed.

Lemma strip_char_nonblank s : lstrip_where is_space s <> "" -> truthy (strip s) = true.
Proof.
  unfold strip, strip_where. pose proof (lstrip_where_head is_space s) as Hc. destruct (lstrip_where is_space s) as [|c t]; [done|].
  intros _. specialize (Hc c t eq_refl). cbn [rstrip_where]. destruct (rstrip_where is_space t); [by rewrite Hc|done].
Qed.

Lemma strip_blank s : truthy (strip s) = false <-> str_forall is_space s = true.
Proof.
  split.
  - intros H. apply lstrip_where_nil. destruct (decide (lstrip_where is_space s = "")) as [?|Hne]; [done|].
    apply strip_char_nonblank in Hne. congruence.
  - intros H%lstrip_where_nil. unfold strip, strip_where. by rewrite H.
Qed.

Lemma segments_forall p s seg : str_forall p s = true -> seg ∈ Npm.segments s -> str_forall p seg = true.
Proof.
  revert seg. assert (forall n s seg, (String.length s <= n)%nat -> str_forall p s = true -> seg ∈ Npm.segments s -> str_forall p seg = true) as H.
  2: { intros seg. by apply (H (String.length s)). }
  clear s. induction n as [|n IH]; intros s seg Hn.
  { destruct s; [|simpl in Hn; lia]. intros _ Hs. apply list_elem_of_singleton in Hs. by subst. }
  destruct s as [|c s]; [intros _ Hs; apply list_elem_of_singleton in Hs; by subst|].
  cbn [String.length] in Hn. intros Hf. pose proof Hf as Hf0. cbn [str_forall] in Hf. apply andb_true_iff in Hf as [Hc Hf].
  cbn [Npm.segments]. destruct s as [|d s].
  { destruct (_ || _); rewrite ?elem_of_cons, ?elem_of_nil; [by intros [->|[->|[]]]|]. by intros [->|[]]. }
  pose proof Hf as Hf1. cbn [str_forall] in Hf1. apply andb_true_iff in Hf1 as [Hd Hf1]. cbn [String.length] in Hn.
  destruct ((_ && _) || (_ && _)).
  { rewrite elem_of_cons. intros [->|Hin]; [done|]. apply (IH s); [lia|done..]. }
  destruct (_ || _).
  { rewrite elem_of_cons. intros [->|Hin]; [done|]. apply (IH (String d s)); [cbn; lia|done..]. }
  assert (forall x, x ∈ Npm.segments (String d s) -> str_forall p x = true) as Hall by (intros x; apply IH; [cbn; lia|done]).
  unfold glue. destruct (Npm.segments (String d s)) as [|w ws].
  - intros ->%list_elem_of_singleton. cbn. by rewrite Hc.
  - rewrite elem_of_cons. intros [->|Hin]; [cbn; rewrite Hc; apply Hall; set_solver|apply Hall; set_solver].
Qed.

(** A hook that runs a bundled path is a hook. *)
Lemma bundled_is_hook m : Npm.hook_runs_bundled_path (jget "scripts" m JNull) = true -> Npm.install_hooks m <> [].
Proof.
  unfold Npm.hook_runs_bundled_path, Npm.install_hooks. destruct (Npm.as_obj _) as [o|]; [|done].
  intros (h & Hh & H)%existsb_true Hnil. destruct (jget h o JNull) as [| | | |cmd| |] eqn:E; try done.
  apply existsb_true in H as (seg & Hseg & Hr).
  assert ((h, cmd) ∈ omap (fun h => match jget h o JNull with JStr cmd => if truthy (strip cmd) then Some (h, cmd) else None | _ => None end) Npm.INSTALL_HOOKS) as Hin.
  { apply list_elem_of_omap. exists h. split; [done|]. rewrite E. destruct (truthy (strip cmd)) eqn:Et; [done|]. exfalso.
    apply strip_blank in Et. pose proof (segments_forall _ _ _ Et Hseg) as Hb%strip_blank.
    unfold Npm.segment_runs_path in Hr. by rewrite Hb in Hr. }
  rewrite Hnil in Hin. by apply elem_of_nil in Hin.
Qed.

Lemma high_dropper cfg flags n : "install_hook_bundled_exec"%string ∈ flags -> Npm.anomaly_priority cfg flags n = PHigh.
Proof. intros H%str_in_true. unfold Npm.anomaly_priority. by rewrite H. Qed.

(** ** Properties *)

(** The metadata diff always compares the newest publication with its predecessor:
    with distinct publication times the answer does not depend on the order in which
    the registry lists the versions, and what it flags are the newest version's own
    changes. *)
Theorem anomaly_newest_pair cfg metas metas' :
  metas ≡ₚ metas' ->
  (forall x y, x ∈ metas -> y ∈ metas -> Core.published_at x = Core.published_at y -> x = y) ->
  Core.detect_anomaly cfg metas = Core.detect_anomaly cfg metas' /\
  forall a, Core.detect_anomaly cfg metas = Some a ->
    exists new prev, new ∈ metas /\ prev ∈ metas /\
      (forall m, m ∈ metas -> m <> new -> String.leb (Core.published_at m) (Core.published_at prev) = true) /\
      String.leb (Core.published_at prev) (Core.published_at new) = true /\
      Core.r_version a = Core.version new /\
      forall f, f ∈ Core.r_flags a <->
        (f = "install_hook_bundled_exec"%string /\ Core.runs_bundled_hook new = true /\ Core.runs_bundled_hook prev = false) \/
        (f = "size_jump"%string /\ Core.size_jump cfg new prev = true) \/
        (f = "publisher_change"%string /\ Core.publisher_changed new prev = true).
Proof.
  intros Hp Hd. unfold Core.detect_anomaly. rewrite <- (newest_unique _ _ _ Hp Hd). split; [done|]. intros a.
  destruct (newest_first Core.published_at metas) as [|new [|prev r]] eqn:E; try done.
  destruct (newest_two _ _ _ _ _ E) as (Hn & Hpv & Hmax & Hsec & Hperm).
  destruct (Core.diff_flags cfg new prev) as [|f fs] eqn:Ef; [done|]. intros [= <-]. exists new, prev. split_and!; try done.
  - intros m Hm Hne. rewrite Hperm, !elem_of_cons in Hm. destruct Hm as [?|[->|Hm]]; [done| |by apply Hsec].
    by destruct (String.leb_total (Core.published_at prev) (Core.published_at prev)).
  - by apply Hmax.
  - intros g. cbn [Core.r_flags]. rewrite <- Ef. apply diff_flags_elem.
Qed.

Definition ex_metas : list Core.VersionMeta :=
  [Core.mkMeta "0.45.2" "2026-01-01T00:00:00Z" (Some 38431) (Some "asteroid"%string) false;
   Core.mkMeta "0.45.3" "2026-01-02T00:00:00Z" (Some 1015053) (Some "asteroid"%string) false].

Lemma anomaly_newest_pair_witness :
  Core.detect_anomaly Core.default_diff (rev ex_metas) = Some (Core.mkResult "0.45.3" ["size_jump"]) /\
  Core.detect_anomaly Core.default_diff ex_metas = Core.detect_anomaly Core.default_diff (rev ex_metas).
Proof.
  split; [vm_compute; reflexivity|]. apply (anomaly_newest_pair Core.default_diff ex_metas (rev ex_metas)).
  - apply Permutation_rev.
  - intros x y Hx Hy. unfold ex_metas in Hx, Hy. rewrite !elem_of_cons, elem_of_nil in Hx, Hy.
    destruct Hx as [->|[->|[]]], Hy as [->|[->|[]]]; cbn; congruence.
Defined.

(** The dropper signature is never demoted: if the newest version of a package has
    an install hook that runs a bundled path and its predecessor has none, the npm
    gate reports that version, with that flag and at high priority, whatever else changed. *)
Theorem dropper_hook_flagged cfg packument v m pv pm older :
  Npm.versions_newest_first packument = (v, m) :: (pv, pm) :: older ->
  Npm.hook_runs_bundled_path (jget "scripts" m JNull) = true ->
  Npm.hook_runs_bundled_path (jget "scripts" pm JNull) = false ->
  exists flags, Npm.detect_update_anomaly cfg packument = Some (Npm.mkAnomaly v flags PHigh) /\
    "install_hook_bundled_exec"%string ∈ flags.
Proof.
  intros E Hn Hp. unfold Npm.detect_update_anomaly. rewrite E. set (flags := Npm.update_flags cfg m pm). exists flags.
  assert ("install_hook_bundled_exec"%string ∈ flags) as Hin.
  { unfold flags, Npm.update_flags. rewrite Hn, Hp, (bool_decide_eq_false_2 _ (bundled_is_hook m Hn)). cbn [negb andb Core.flag].
    rewrite !elem_of_app. right. left. by left. }
  split; [|done]. rewrite high_dropper by done. rewrite !bool_decide_false; [done|..].
  - intros Ef. rewrite Ef in Hin. by apply list_elem_of_singleton in Hin.
  - intros Ef. rewrite Ef in Hin. by apply elem_of_nil in Hin.
Qed.

Definition ex_manifest (hook : option string) (sz : Z) : list (string * json) :=
  ("dist"%string, JObj [("unpackedSize"%string, JInt sz)]) ::
  match hook with Some h => [("scripts"%string, JObj [("preinstall"%string, JStr h)])] | None => [] end.
Definition ex_packument (hook : string) : list (string * json) :=
  [("time"%string, JObj [("0.45.2"%string, JStr "2026-01-01"); ("0.45.3"%string, JStr "2026-01-02")]);
   ("versions"%string, JObj [("0.45.2"%string, JObj (ex_manifest None 38431)); ("0.45.3"%string, JObj (ex_manifest (Some hook) 38431))])].
Definition ex_dropper : string := "sh -c ./tools/setup".

Lemma dropper_hook_flagged_witness : exists flags,
  Npm.detect_update_anomaly Npm.default_hooks (ex_packument ex_dropper) = Some (Npm.mkAnomaly "0.45.3" flags PHigh) /\
  "install_hook_bundled_exec"%string ∈ flags.
Proof.
  apply (dropper_hook_flagged Npm.default_hooks (ex_packument ex_dropper) "0.45.3" (ex_manifest (Some ex_dropper) 38431)
    "0.45.2" (ex_manifest None 38431) []); vm_compute; reflexivity.
Defined.

(** A leading assignment, as in [env X=1 ./tools/setup], is taken for the program. *)
Example env_assignment_hides :
  Npm.hook_runs_bundled_path (JObj [("preinstall"%string, JStr "./tools/setup")]) = true /\
  Npm.hook_runs_bundled_path (JObj [("preinstall"%string, JStr "env X=1 ./tools/setup")]) = false /\
  Npm.hook_runs_bundled_path (JObj [("preinstall"%string, JStr "X=1 ./tools/setup")]) = false.
Proof. vm_compute. done. Qed.
