(* ===== verification/Metadata.v ===== *)
(** * Metadata analyzers ([analyze/metadata.py], [analyze/lure_names.py],
      [analyze/version_diff.py])

    Edit distance and typosquatting, the release-to-release comparisons, and
    the name and version heuristics, composed by [analyze_metadata]. *)
From S2P Require Import Prelude PyStr Findings Intel.
From Stdlib Require Import Ascii.

Open Scope list_scope.
Open Scope Z_scope.

Definition meta_finding (rule : string) (s : severity) (c : confidence) (ev : string) : Finding :=
  pkg_finding ("metadata." +:+ rule) "metadata" s c ev.

(** ** Edit distance *)

Section Levenshtein.
Open Scope nat_scope.

(** The inner loop: [bs] and [prev] are what is left of [b] and of the previous
    row, [left] is [cur[j-1]]. *)
Fixpoint row_loop (ca : ascii) (bs : list ascii) (prev : list nat) (left : nat) : list nat :=
  match bs, prev with
  | cb :: bs', p0 :: prev' =>
      let cost := if Ascii.eqb ca cb then 0 else 1 in
      let c := Nat.min (Nat.min (hd 0 prev' + 1) (left + 1)) (p0 + cost) in
      c :: row_loop ca bs' prev' c
  | _, _ => []
  end.

(** The outer loop, [for i, ca in enumerate(a, 1)]. *)
Fixpoint rows_loop (i : nat) (a b : list ascii) (prev : list nat) : list nat :=
  match a with
  | [] => prev
  | ca :: a' => rows_loop (S i) a' b (i :: row_loop ca b prev i)
  end.

Definition lev_chars (a b : list ascii) : nat := List.last (rows_loop 1 a b (seq 0 (S (length b)))) 0.

Definition levenshtein (a b : string) : nat :=
  if String.eqb a b then 0
  else if negb (truthy a) then len b
  else if negb (truthy b) then len a
  else lev_chars (String.list_ascii_of_string a) (String.list_ascii_of_string b).

End Levenshtein.

(** ** Typosquatting *)

Definition remove_chars (s : string) : string := remove_char "." (remove_char "_" (remove_char "-" s)).
Definition normalize_pkg_name (nm : string) : string := remove_chars (lower nm).

Definition WRAPPER_PREFIXES : list string := ["python-"; "py-"; "python3-"; "py3-"; "lib"].
Definition WRAPPER_SUFFIXES : list string :=
  ["-python"; "-py"; "-python3"; "-py3"; "-lib"; "-sdk"; "-api"; "-client"].

Section Typosquat.
Variable top_list : list string.

(** [top_norms = {normalize(t): t for t in top_list}]. *)
Definition top_norms : list (string * string) :=
  fold_left (fun d t => dset (normalize_pkg_name t) t d) top_list [].

Definition near_top (max_distance : nat) (name_l top : string) : bool :=
  let d := levenshtein name_l (lower top) in (0 <? d)%nat && (d <=? max_distance)%nat.

Definition candidate_finding (nm name_l top : string) : Finding :=
  meta_finding "typosquat_candidate" SHigh CMedium
    ("name " +:+ repr nm +:+ " within " +:+ show (Z.of_nat (levenshtein name_l (lower top))) +:+
     " edit(s) of top package " +:+ repr top).

Definition is_top_lower (s : string) : bool := str_in s (map lower top_list).

Definition prefix_hit (name_l prefix : string) : option string :=
  if startswith name_l prefix then
    let stripped := str_drop (len prefix) name_l in
    if truthy stripped && is_top_lower stripped then Some stripped else None
  else None.

Definition suffix_hit (name_l suffix : string) : option string :=
  if endswith name_l suffix then
    let stripped := str_take (len name_l - len suffix) name_l in
    if truthy stripped && is_top_lower stripped then Some stripped else None
  else None.

Fixpoint first_hit (hit : string -> option string) (l : list string) : option (string * string) :=
  match l with
  | [] => None
  | x :: l' => match hit x with Some s => Some (x, s) | None => first_hit hit l' end
  end.

Definition separator_hit (name_l name_norm : string) : option string :=
  match dget name_norm top_norms with
  | Some t => if negb (String.eqb (lower t) name_l) then Some t else None
  | None => None
  end.

Definition wrapper_finding (kind nm : string) (h : string * string) : Finding :=
  meta_finding ("typosquat_" +:+ kind) SMedium CMedium
    (repr nm +:+ " wraps popular package " +:+ repr h.2 +:+ " with " +:+ kind +:+ " " +:+ repr h.1).

Definition typosquat_distance (max_distance : nat) (nm : string) : list Finding :=
  let name_l := lower nm in
  let name_norm := normalize_pkg_name name_l in
  if existsb (fun top => String.eqb (lower top) name_l) top_list then []
  else
    match head (bfilter (near_top max_distance name_l) top_list) with
    | Some top => [candidate_finding nm name_l top]
    | None =>
        match separator_hit name_l name_norm with
        | Some t =>
            [meta_finding "typosquat_separator" SHigh CHigh
               (repr nm +:+ " matches " +:+ repr t +:+ " after normalizing separators")]
        | None =>
            match first_hit (prefix_hit name_l) WRAPPER_PREFIXES with
            | Some h => [wrapper_finding "prefix" nm h]
            | None =>
                match first_hit (suffix_hit name_l) WRAPPER_SUFFIXES with
                | Some h => [wrapper_finding "suffix" nm h]
                | None => []
                end
            end
        end
    end.

End Typosquat.

(** ** Archive comparison *)

Definition any_suffix (sfx : list string) (s : string) : bool := existsb (endswith s) sfx.
Definition CODE_SUFFIXES : list string := [".py"; ".so"; ".pyd"; ".pyz"].

Definition strip_wheel_meta (files : list string) : list string :=
  bfilter (fun f => negb (any_suffix [".dist-info"; ".data"] (before_first "/" f))) files.

Definition code_basenames (files : list string) : list string :=
  dedup (map (after_last "/"%char) (bfilter (any_suffix CODE_SUFFIXES) (strip_wheel_meta files))).

Definition file_list_mismatch (sdist_files wheel_files : list string) : list Finding :=
  match sdist_files, wheel_files with
  | [], _ | _, [] => []
  | _, _ =>
      let sd := code_basenames sdist_files in
      let wheel_only := bfilter (fun f => negb (str_in f sd) && negb (str_in f ["_version.py"; "setup.py"]))
                          (code_basenames wheel_files) in
      match wheel_only with
      | [] => []
      | _ => [meta_finding "sdist_wheel_mismatch" SLow CLow
                ("wheel contains files absent from sdist: " +:+ repr_list (List.firstn 5 (py_sorted wheel_only)))]
      end
  end.

(** ** Version numbers *)

Definition lstrip_v (s : string) : string := lstrip_char "v" s.

Definition version_parts (version : string) : list string :=
  split "." (before_first "+" (before_first "-" (lstrip_v (strip version)))).

Definition all_nines (p : string) : bool := truthy p && str_forall (Ascii.eqb "9"%char) p.

Definition dependency_confusion_version (version : string) : bool :=
  let parts := version_parts version in
  if (length parts <? 2)%nat || negb (forallb isdigit parts) then false
  else if forallb all_nines parts then true
  else
    let nums := map int_of parts in
    let first := hd 0 nums in
    if forallb (fun n => n =? first) nums && (9 <=? first) then true
    else (99 <=? first) && (first <? 1900).

Definition dep_confusion_finding (version : string) : option Finding :=
  if negb (truthy version) || negb (dependency_confusion_version version) then None
  else Some (meta_finding "dependency_confusion_version" SLow CMedium
    ("version " +:+ repr version +:+ " fits dependency-confusion version inflation " +:+
     "(absurd/patterned semver to win a resolution race)")).

(** ** Release history *)

Definition rapid_release (isoformat : timestamp -> string) (now : timestamp) (prev : option timestamp)
    : option Finding :=
  match prev with
  | None => None
  | Some p =>
      if now - p <? hours 24
      then Some (meta_finding "rapid_release" SMedium CMedium
             ("new release < 24h after previous (prev=" +:+ isoformat p +:+ ")"))
      else None
  end.

Definition set_minus (a b : list string) : list string := bfilter (fun x => negb (str_in x b)) a.

Definition maintainer_change (now_list prev_list : list string) : option Finding :=
  match prev_list, now_list with
  | [], _ | _, [] => None
  | _, _ =>
      let now_set := dedup (map lower now_list) in
      let prev_set := dedup (map lower prev_list) in
      let added := set_minus now_set prev_set in
      let removed := set_minus prev_set now_set in
      match added ++ removed with
      | [] => None
      | _ => Some (meta_finding "maintainer_change" SMedium CHigh
               ("maintainers changed (+" +:+ repr_list (py_sorted added) +:+ ", -" +:+
                repr_list (py_sorted removed) +:+ ")"))
      end
  end.

(** ** Impersonated forges *)

Definition LEGIT_FORGE_HOSTS : list string :=
  ["github.com"; "gitlab.com"; "bitbucket.org"; "gitea.com"; "codeberg.org";
   "gitee.com"; "git.sr.ht"; "code.gitea.io"; "code.forgejo.org";
   "git.kernel.org"; "android.googlesource.com"].

(** [_EPHEMERAL_HOST] on a host without slashes. *)
Definition ephemeral_host (host : string) : bool := any_suffix [".workers.dev"; ".pages.dev"] host.

Fixpoint take_digits (s : string) : string * string :=
  match s with
  | String c s' => if is_digit c then let '(d, r) := take_digits s' in (String c d, r) else (EmptyString, s)
  | EmptyString => (EmptyString, EmptyString)
  end.

(** [^(?:gh|git|github|gitlab|hub|go)\.\d{3,}\.] *)
Definition numeric_forge (host : string) : bool :=
  existsb (fun p =>
    startswith host (p +:+ ".") &&
    (let '(d, r) := take_digits (str_drop (len p + 1) host) in (3 <=? len d)%nat && startswith r "."))
    ["gh"; "git"; "github"; "gitlab"; "hub"; "go"].

Definition impersonation_reason (host : string) : option string :=
  if ephemeral_host host && existsb (fun k => contains k host) ["github"; "gitlab"; "gh"; "git"]
  then Some "code-forge name on a Cloudflare ephemeral host (workers.dev/pages.dev)"
  else if numeric_forge host then Some "git-prefix on a numeric throwaway domain"
  else None.

Definition gomod_impersonating_host (nm : string) : option Finding :=
  if negb (has_char "/" nm) then None
  else
    let host := strip (lower (before_first "/" nm)) in
    if negb (truthy host) || negb (has_char "." host) || str_in host LEGIT_FORGE_HOSTS then None
    else if any_suffix [".github.com"; ".gitlab.com"; ".bitbucket.org"; ".googlesource.com"] host then None
    else
      match impersonation_reason host with
      | None => None
      | Some reason =>
          Some (meta_finding "gomod_impersonating_forge_host" SHigh CHigh
            ("Go module host '" +:+ host +:+ "' impersonates a code forge (" +:+ reason +:+ ") — " +:+
             "namespace-hijack / dependency-confusion republishing a module under attacker infra"))
      end.

(** ** Lure names ([lure_names.py]) *)

(** [findall] of the alternation of the (non-empty) keywords on lowercased text:
    leftmost, first keyword of the list, not overlapping. *)
Fixpoint find_keywords (kws : list string) (skip : nat) (s : string) : list string :=
  match s with
  | EmptyString => []
  | String _ s' =>
      match skip with
      | S k => find_keywords kws k s'
      | O =>
          match head (bfilter (fun kw => startswith s (lower kw)) kws) with
          | Some kw => lower kw :: find_keywords kws (len kw - 1) s'
          | None => find_keywords kws 0 s'
          end
      end
  end.

Definition score_name (lures : strmap) (nm : string) : list (string * list string) :=
  bfilter (fun ch => negb (bool_decide (ch.2 = [])))
    (map (fun ck => (ck.1, find_keywords ck.2 0 (lower nm))) (bfilter (fun ck => negb (bool_decide (ck.2 = []))) lures)).

Definition analyze_lure_name (lures : strmap) (nm : string) : list Finding :=
  let hits := score_name lures nm in
  let n := length hits in
  if (n <? 2)%nat then []
  else
    let cats := py_sorted hits.*1 in
    let kws := flat_map (fun c => dget_or c [] hits) cats in
    let ev := "name " +:+ repr nm +:+ " matches " +:+ show (Z.of_nat n) +:+ " lure categories: " +:+
              join ", " cats +:+ " (keywords: " +:+ join ", " kws +:+ ")" in
    if (3 <=? n)%nat then [meta_finding "lure_name_combo" SHigh CMedium ev]
    else [meta_finding "lure_name" SMedium CMedium ev].

(** ** Composition *)

Record MetadataContext := mkCtx {
  ctx_name : string;
  ctx_version : string;
  previous_release_at : option timestamp;
  maintainers_now : list string;
  maintainers_prev : list string;
  watchlist_top_names : list string;
  sdist_files : list string;
  wheel_files : list string;
}.

Definition opt_list {A} (x : option A) : list A := match x with Some a => [a] | None => [] end.

Definition analyze_metadata (isoformat : timestamp -> string) (lures : strmap) (now : timestamp)
    (ctx : MetadataContext) : list Finding :=
  opt_list (rapid_release isoformat now (previous_release_at ctx)) ++
  opt_list (maintainer_change (maintainers_now ctx) (maintainers_prev ctx)) ++
  typosquat_distance (watchlist_top_names ctx) 1 (ctx_name ctx) ++
  file_list_mismatch (sdist_files ctx) (wheel_files ctx) ++
  analyze_lure_name lures (ctx_name ctx) ++
  opt_list (dep_confusion_finding (ctx_version ctx)) ++
  opt_list (gomod_impersonating_host (ctx_name ctx)).

(** ** Version diff ([version_diff.py]) *)

Record PreviousVersion := mkPrev {
  pv_version : string;
  pv_verdict : verdict;
  pv_score : Z;
  pv_rule_ids : list string;
  pv_finding_count : Z;
  pv_author : option string;
  pv_author_email : option string;
  pv_upload_time : option timestamp;
  pv_requires_dist : list string;
}.

(** What the diff reads of the current metadata. *)
Record CurrentMeta := mkMeta {
  cm_author : option string; cm_author_email : option string; cm_requires_dist : list string;
}.

Definition diff_finding (rule : string) (s : severity) (c : confidence) (ev : string) : Finding :=
  pkg_finding ("version_diff." +:+ rule) "version_diff" s c ev.

(** [a or b] on optional strings. *)
Definition first_truthy (a b : option string) : option string := if otruthy a then a else b.

Definition new_rules (current : list Finding) (prev : PreviousVersion) : list string :=
  set_minus (dedup (map rule_id current)) (pv_rule_ids prev).

Definition new_critical_rules (current : list Finding) (prev : PreviousVersion) : list string :=
  bfilter (fun r => existsb (fun f => String.eqb (rule_id f) r && bool_decide (f_severity f = SCritical)) current)
    (new_rules current prev).

Definition rules_diff (current : list Finding) (prev : PreviousVersion) : list Finding :=
  if bool_decide (pv_verdict prev = VClean) then
    match new_critical_rules current prev, new_rules current prev with
    | (_ :: _) as crit, _ =>
        [diff_finding "clean_to_critical" SCritical CHigh
           ("previous version " +:+ pv_version prev +:+ " was clean, new version introduces critical rules: " +:+
            repr_list (py_sorted crit))]
    | [], (_ :: _) as fresh =>
        [diff_finding "new_rules_fired" SMedium CMedium
           ("previous version " +:+ pv_version prev +:+ " (verdict=" +:+ verdict_name (pv_verdict prev) +:+
            ") did not trigger: " +:+ repr_list (List.firstn 10 (py_sorted fresh)))]
    | [], [] => []
    end
  else [].

Definition author_diff (cur : CurrentMeta) (prev : PreviousVersion) : list Finding :=
  let cur_author := ostr (first_truthy (cm_author_email cur) (cm_author cur)) in
  let prev_author := ostr (first_truthy (pv_author_email prev) (pv_author prev)) in
  if truthy cur_author && truthy prev_author && negb (String.eqb (lower cur_author) (lower prev_author))
  then [diff_finding "author_changed" SHigh CHigh
          ("author changed: " +:+ repr prev_author +:+ " -> " +:+ repr cur_author +:+ " (possible account takeover)")]
  else [].

Definition deps_diff (cur : CurrentMeta) (prev : PreviousVersion) : list Finding :=
  let prev_deps := dedup (pv_requires_dist prev) in
  let new_deps := set_minus (dedup (cm_requires_dist cur)) prev_deps in
  let n := length new_deps in
  let m := length prev_deps in
  if (m <? 2 * n)%nat && (3 <=? n)%nat
  then [diff_finding "dependency_spike" SMedium CMedium
          ("added " +:+ show (Z.of_nat n) +:+ " new dependencies vs " +:+ show (Z.of_nat m) +:+ " previous: " +:+
           repr_list (List.firstn 8 (py_sorted new_deps)))]
  else [].

Definition analyze_version_diff (current : list Finding) (cur : CurrentMeta) (prev : PreviousVersion) : list Finding :=
  rules_diff current prev ++ author_diff cur prev ++ deps_diff cur prev.

(** ** The edit distance is the least cost of an edit script *)

Section LevSpec.
Open Scope nat_scope.
Implicit Types (s t a b : list ascii).

(** [align n s t]: some sequence of keeps, substitutions, insertions and
    deletions of cost [n] turns [s] into [t]. *)
Inductive align : nat -> list ascii -> list ascii -> Prop :=
  | al_nil : align 0 [] []
  | al_keep n x s t : align n s t -> align n (x :: s) (x :: t)
  | al_subst n x y s t : align n s t -> align (S n) (x :: s) (y :: t)
  | al_del n x s t : align n s t -> align (S n) (x :: s) t
  | al_ins n y s t : align n s t -> align (S n) s (y :: t).

Definition cost (x y : ascii) : nat := if Ascii.eqb x y then 0 else 1.

(** The recursive distance, on reversed prefixes. *)
Fixpoint lv s : list ascii -> nat :=
  match s with
  | [] => fun t => length t
  | x :: s' =>
      fix go t := match t with
                  | [] => length s
                  | y :: t' => Nat.min (Nat.min (lv s' t + 1) (go t' + 1)) (lv s' t' + cost x y)
                  end
  end.

Lemma lv_cons x s y t :
  lv (x :: s) (y :: t) = Nat.min (Nat.min (lv s (y :: t) + 1) (lv (x :: s) t + 1)) (lv s t + cost x y).
Proof. reflexivity. Qed.

Lemma lv_nil_r s : lv s [] = length s.
Proof. by destruct s. Qed.

Lemma lv_refl s : lv s s = 0.
Proof.
  induction s as [|x s IH]; [done|]. rewrite lv_cons, IH. unfold cost. rewrite Ascii.eqb_refl. lia.
Qed.

Lemma align_lv s t : align (lv s t) s t.
Proof.
  revert t. induction s as [|x s IHs].
  - induction t as [|y t IHt]; [constructor|]. by constructor.
  - induction t as [|y t IHt].
    + rewrite lv_nil_r. specialize (IHs []). rewrite lv_nil_r in IHs. by constructor.
    + rewrite lv_cons. destruct (Nat.min_spec (Nat.min (lv s (y :: t) + 1) (lv (x :: s) t + 1)) (lv s t + cost x y)) as [[_ ->]|[_ ->]].
      * destruct (Nat.min_spec (lv s (y :: t) + 1) (lv (x :: s) t + 1)) as [[_ ->]|[_ ->]]; rewrite Nat.add_1_r; by constructor.
      * unfold cost. destruct (Ascii.eqb_spec x y) as [->|]; [rewrite Nat.add_0_r|rewrite Nat.add_1_r]; by constructor.
Qed.

Lemma lv_del x s t : lv (x :: s) t <= S (lv s t).
Proof. destruct t as [|y t]; [by rewrite !lv_nil_r|]. rewrite lv_cons. lia. Qed.

Lemma lv_ins y s t : lv s (y :: t) <= S (lv s t).
Proof. destruct s as [|x s]; [done|]. rewrite lv_cons. lia. Qed.

Lemma lv_min n s t : align n s t -> lv s t <= n.
Proof.
  induction 1 as [|n x s t _ IH|n x y s t _ IH|n x s t _ IH|n y s t _ IH]; [done|..].
  - rewrite lv_cons. unfold cost. rewrite Ascii.eqb_refl. lia.
  - rewrite lv_cons. unfold cost. destruct (Ascii.eqb x y); lia.
  - pose proof (lv_del x s t). lia.
  - pose proof (lv_ins y s t). lia.
Qed.

Lemma align_app n m s t s' t' : align n s t -> align m s' t' -> align (n + m) (s ++ s') (t ++ t').
Proof. intros H1 H2. induction H1; simpl; try by constructor. done. Qed.

Lemma align_rev n s t : align n s t -> align n (rev s) (rev t).
Proof.
  induction 1 as [|n x s t _ IH|n x y s t _ IH|n x s t _ IH|n y s t _ IH]; simpl; [constructor|..].
  - replace n with (n + 0) by lia. apply align_app; [done|repeat constructor].
  - replace (S n) with (n + 1) by lia. apply align_app; [done|repeat constructor].
  - replace (S n) with (n + 1) by lia. rewrite <- (app_nil_r (rev t)). apply align_app; [done|repeat constructor].
  - replace (S n) with (n + 1) by lia. rewrite <- (app_nil_r (rev s)). apply align_app; [done|repeat constructor].
Qed.

(** The row of the table for the prefix [s]: its entries from the prefix [t] on. *)
Fixpoint lev_row s t (bs : list ascii) : list nat :=
  lv s t :: match bs with [] => [] | c :: bs' => lev_row s (c :: t) bs' end.

Lemma lev_row_hd s t bs : hd 0 (lev_row s t bs) = lv s t.
Proof. by destruct bs. Qed.

Lemma row_loop_spec ca s t bs :
  row_loop ca bs (lev_row s t bs) (lv (ca :: s) t) =
  match bs with [] => [] | c :: bs' => lev_row (ca :: s) (c :: t) bs' end.
Proof.
  revert t. induction bs as [|cb bs IH]; intros t; [done|].
  cbn [lev_row row_loop]. rewrite lev_row_hd. fold (cost ca cb). rewrite <- lv_cons, IH. by destruct bs.
Qed.

Lemma rows_loop_spec a s b : rows_loop (S (length s)) a b (lev_row s [] b) = lev_row (rev a ++ s) [] b.
Proof.
  revert s. induction a as [|ca a IH]; intros s; [done|]. cbn [rows_loop rev].
  replace (S (length s)) with (lv (ca :: s) []) at 2 3 by done. rewrite row_loop_spec.
  replace (lv (ca :: s) [] :: match b with [] => [] | c :: bs' => lev_row (ca :: s) [c] bs' end)
    with (lev_row (ca :: s) [] b) by (by destruct b).
  etrans; [exact (IH (ca :: s))|]. by rewrite <- app_assoc.
Qed.

Lemma lev_row_last s t b d : List.last (lev_row s t b) d = lv s (rev b ++ t).
Proof.
  revert t. induction b as [|c b IH]; intros t; [done|].
  cbn [lev_row rev]. rewrite <- app_assoc. cbn [app]. rewrite <- IH. by destruct b.
Qed.

Lemma seq_row b n : seq (length n) (S (length b)) = lev_row [] n b.
Proof.
  revert n. induction b as [|c b IH]; intros n; [done|]. cbn [lev_row length]. rewrite <- (IH (c :: n)). done.
Qed.

Lemma lev_chars_lv a b : lev_chars a b = lv (rev a) (rev b).
Proof.
  unfold lev_chars. change (seq 0 (S (length b))) with (seq (length (@nil ascii)) (S (length b))). rewrite seq_row.
  change 1 with (S (length (@nil ascii))). rewrite rows_loop_spec, lev_row_last. by rewrite !app_nil_r.
Qed.

Lemma chars_inj (x y : string) : String.list_ascii_of_string x = String.list_ascii_of_string y -> x = y.
Proof.
  intros E. rewrite <- (String.string_of_list_ascii_of_string x), <- (String.string_of_list_ascii_of_string y). by rewrite E.
Qed.

Lemma chars_length x : length (String.list_ascii_of_string x) = len x.
Proof. unfold len. induction x; simpl; congruence. Qed.

Lemma levenshtein_lv x y :
  levenshtein x y = lv (rev (String.list_ascii_of_string x)) (rev (String.list_ascii_of_string y)).
Proof.
  unfold levenshtein. destruct (String.eqb_spec x y) as [->|Hne]; [by rewrite lv_refl|].
  destruct (truthy x) eqn:Ex; cbn [negb].
  - destruct (truthy y) eqn:Ey; cbn [negb]; [apply lev_chars_lv|].
    assert (y = "") as -> by (destruct y; done). simpl. by rewrite lv_nil_r, length_rev, chars_length.
  - assert (x = "") as -> by (destruct x; done). simpl. by rewrite length_rev, chars_length.
Qed.

Lemma align_lev s t : align (lv (rev s) (rev t)) s t.
Proof. rewrite <- (rev_involutive s) at 2. rewrite <- (rev_involutive t) at 2. apply align_rev, align_lv. Qed.

Lemma align_0 s t : align 0 s t -> s = t.
Proof. remember 0 as n eqn:En. induction 1; try done. f_equal. auto. Qed.

(** The length of an edit script bounds the length difference. *)
Lemma align_length n s t : align n s t -> length s <= length t + n /\ length t <= length s + n.
Proof. induction 1; simpl in *; lia. Qed.

End LevSpec.

(** ** Properties *)

(** C40. The table-filling [_levenshtein] is the edit distance: there is an edit script of that
    cost between the two names, none is cheaper, and it is zero only on equal names. *)
Theorem levenshtein_edit_distance (a b : string) :
  align (levenshtein a b) (String.list_ascii_of_string a) (String.list_ascii_of_string b) /\
  (forall n, align n (String.list_ascii_of_string a) (String.list_ascii_of_string b) -> (levenshtein a b <= n)%nat) /\
  (levenshtein a b = 0%nat <-> a = b).
Proof.
  rewrite levenshtein_lv. set (s := String.list_ascii_of_string a). set (t := String.list_ascii_of_string b).
  assert (forall n, align n s t -> (lv (rev s) (rev t) <= n)%nat) as Hmin by (intros n H; by apply lv_min, align_rev).
  pose proof (align_lev s t) as Ha.
  split_and!; [done|done|]. split.
  - intros E. rewrite E in Ha. by apply chars_inj, align_0.
  - intros E. assert (s = t) as -> by (unfold s, t; by rewrite E). apply lv_refl.
Qed.

Lemma lev_one a b : a <> b -> levenshtein a b = 1%nat <-> align 1 (String.list_ascii_of_string a) (String.list_ascii_of_string b).
Proof.
  intros Hne. rewrite levenshtein_lv. pose proof (align_lev (String.list_ascii_of_string a) (String.list_ascii_of_string b)) as Ha.
  split; [intros E; by rewrite E in Ha|]. intros H%align_rev%lv_min.
  destruct (lv _ _) as [|n]; [|lia]. by apply align_0, chars_inj in Ha.
Qed.

Lemma near_top_true name_l top :
  near_top 1 name_l top = true <-> levenshtein name_l (lower top) = 1%nat.
Proof. unfold near_top. rewrite andb_true_iff, Nat.ltb_lt, Nat.leb_le. lia. Qed.

(** Typosquatting.  At most one finding; none for a name that is itself a top package, up to
    case; and the near-miss finding is raised exactly when some other top package is one
    insertion, deletion or substitution away. *)
Theorem typosquat_spec top nm :
  let fs := typosquat_distance top 1 nm in
  let popular := exists t, t ∈ top /\ lower t = lower nm in
  (length fs <= 1)%nat /\
  (popular -> fs = []) /\
  ((exists f, f ∈ fs /\ rule_id f = "metadata.typosquat_candidate") <->
   ~ popular /\ exists t, t ∈ top /\
     align 1 (String.list_ascii_of_string (lower nm)) (String.list_ascii_of_string (lower t))).
Proof.
  intros fs popular.
  assert (existsb (fun t => String.eqb (lower t) (lower nm)) top = true <-> popular) as Hpop.
  { rewrite existsb_true. by setoid_rewrite String.eqb_eq. }
  subst fs. unfold typosquat_distance. cbv zeta.
  destruct (existsb _ top) eqn:Ep.
  { assert popular as Hp by (by apply Hpop). split_and!; [simpl; lia|done|]. split; [set_solver|tauto]. }
  assert (~ popular) as Hn by (intros H%Hpop; congruence).
  assert (forall t, t ∈ top -> lower nm <> lower t) as Hne by (intros t Ht E; apply Hn; exists t; auto).
  destruct (head (bfilter (near_top 1 (lower nm)) top)) as [t|] eqn:Eh.
  { apply head_in, bfilter_in in Eh as [Ht Hd%near_top_true]. split_and!; [simpl; lia|tauto|].
    split; intros _.
    - split; [done|]. exists t. split; [done|]. apply lev_one; auto.
    - eexists. split; [by apply list_elem_of_singleton|done]. }
  assert (forall t, t ∈ top -> ~ align 1 (String.list_ascii_of_string (lower nm)) (String.list_ascii_of_string (lower t))) as Hno.
  { intros t Ht Ha. assert (t ∈ bfilter (near_top 1 (lower nm)) top) as Hin
      by (apply bfilter_in; split; [done|]; apply near_top_true, lev_one; auto).
    destruct (bfilter _ top); [set_solver|done]. }
  split_and!; [repeat case_match; simpl; lia|tauto|]. split; [|naive_solver].
  intros (f & Hf & Hr). exfalso. repeat case_match; try (by apply elem_of_nil in Hf);
    apply list_elem_of_singleton in Hf; subst f; simpl in Hr; discriminate.
Qed.

(** The rule diff against the previous release.  Nothing is reported unless that release was
    clean; then a critical finding is raised exactly when a critical rule fires that did not
    fire before, and otherwise a medium one exactly when any new rule fires. *)
Theorem rules_diff_spec current prev :
  let fresh f := f ∈ current /\ rule_id f ∉ pv_rule_ids prev in
  (pv_verdict prev <> VClean -> rules_diff current prev = []) /\
  ((exists g, g ∈ rules_diff current prev /\ f_severity g = SCritical) <->
   pv_verdict prev = VClean /\ exists f, fresh f /\ f_severity f = SCritical) /\
  ((exists g, g ∈ rules_diff current prev /\ f_severity g = SMedium) <->
   pv_verdict prev = VClean /\ (exists f, fresh f) /\ ~ exists f, fresh f /\ f_severity f = SCritical).
Proof.
  intros fresh.
  assert (forall r, r ∈ new_rules current prev <-> exists f, fresh f /\ rule_id f = r) as Hnew.
  { intros r. unfold new_rules, set_minus. rewrite bfilter_in, dedup_elem, list_elem_of_fmap, negb_true_iff.
    unfold fresh. split.
    - intros [(f & -> & Hf) Hs]. exists f. split; [|done]. split; [done|]. intros H%str_in_true. congruence.
    - intros (f & [Hf Hn] & <-). split; [eauto|]. apply not_true_iff_false. by rewrite str_in_true. }
  assert (forall r, r ∈ new_critical_rules current prev <-> exists f, fresh f /\ f_severity f = SCritical /\ rule_id f = r) as Hcrit.
  { intros r. unfold new_critical_rules. rewrite bfilter_in, existsb_true, Hnew. split.
    - intros [(f0 & [_ Hn] & E) (f & Hf & [Hr%String.eqb_eq Hc%bool_decide_eq_true]%andb_true_iff)].
      exists f. unfold fresh. split_and!; congruence.
    - intros (f & [Hf Hn] & Hc & Hr). split; [exists f; split; [split|]; done|]. exists f. split; [done|].
      apply andb_true_iff. rewrite String.eqb_eq, bool_decide_eq_true. done. }
  assert (forall l : list string, (l = [] <-> forall x, x ∉ l)) as Hnil.
  { intros [|x l]; [set_solver|]. split; [done|]. intros H. destruct (H x). set_solver. }
  unfold rules_diff. case_bool_decide as Hv; [|split_and!; [done|set_solver|set_solver]].
  destruct (new_critical_rules current prev) as [|c cs] eqn:Ec;
    [destruct (new_rules current prev) as [|r rs] eqn:Er|]; (split; [done|]).
  - assert (forall f, ~ fresh f) as Hno by (intros f Hf; destruct (proj1 (elem_of_nil (rule_id f))); apply Hnew; eauto).
    set_solver.
  - assert (~ exists f, fresh f /\ f_severity f = SCritical) as Hno.
    { intros (f & Hf & Hc). destruct (proj1 (elem_of_nil (rule_id f))). apply Hcrit; eauto. }
    destruct (proj1 (Hnew r) ltac:(set_solver)) as (f & Hf & _).
    split; split.
    + intros (g & ->%list_elem_of_singleton & ?). done.
    + tauto.
    + intros _. eauto.
    + intros _. eexists. split; [by apply list_elem_of_singleton|done].
  - destruct (proj1 (Hcrit c) ltac:(set_solver)) as (f & Hf & Hc & _). split; split.
    + intros _. eauto.
    + intros _. eexists. split; [by apply list_elem_of_singleton|done].
    + intros (g & ->%list_elem_of_singleton & ?). done.
    + intros (_ & _ & Hno). destruct Hno. eauto.
Qed.

(** The docstring of [_dependency_confusion_version] says there is no branch for a high major
    version; the code has one. *)
Example high_major_fires : dependency_confusion_version "99.9.1" = true /\ dependency_confusion_version "2024.1.1" = false.
Proof. by vm_compute. Qed.
