(* ===== verification/Store.v ===== *)
(** * The scan store ([store/models.py])

    The mapped classes the pipeline writes, and the database as the record of
    its tables.  JSON columns hold decoded values; [JNull] is SQL [NULL]. *)
From S2P Require Import Prelude PyStr Sql Findings Json Jobs Triage Watch Scope ThreatIntel DetQueue.
From Stdlib Require Import QArith.

Open Scope list_scope.
Open Scope Z_scope.

Record Package := mkPackage { p_id : Z; p_ecosystem : string; p_name : string; p_first_seen : timestamp }.
#[export] Instance package_entity : Entity Package := {| row_id := p_id |}.

Record VersionMeta := mkVersionMeta {
  vm_author : json;
  vm_author_email : json;
  vm_upload_user : json;
  vm_home_page : json;
  vm_summary : json;
  vm_requires_python : json;
  vm_keywords : json;
  vm_license_text : json;
  vm_project_urls : json;
  vm_requires_dist : json;
  vm_classifiers : json;
  vm_upload_time : option timestamp;
  vm_maintainers : json;
  vm_downloads_last_30d : option Z;
  vm_metadata_json : json;
  vm_fetched_at : option timestamp;
}.

Record Version := mkVersion {
  v_id : Z;
  v_ecosystem : string;
  v_package_id : Z;
  v_version : string;
  v_first_seen : timestamp;
  v_meta : VersionMeta;
}.
#[export] Instance version_entity : Entity Version := {| row_id := v_id |}.

Definition no_meta : VersionMeta :=
  mkVersionMeta JNull JNull JNull JNull JNull JNull JNull JNull JNull JNull JNull None JNull None JNull None.

(** The LLM columns of a scan. *)
Record LlmColumns := mkLlm {
  llm_verdict : verdict;
  llm_confidence : double;
  llm_reasoning : string;
  llm_agrees : option bool;
  llm_prompt_tokens : Z;
  llm_completion_tokens : Z;
  llm_iocs : list ioc;
  llm_cost_usd : Q;
}.

Record Scan := mkScan {
  sc_id : Z;
  sc_version_id : Z;
  sc_started_at : timestamp;
  sc_finished_at : option timestamp;
  sc_verdict : verdict;
  sc_score : Z;
  sc_alert_tag : option string;
  sc_llm : option LlmColumns;
}.
#[export] Instance scan_entity : Entity Scan := {| row_id := sc_id |}.

Record FindingRow := mkFindingRow { fr_id : Z; fr_scan_id : Z; fr_finding : Finding }.
#[export] Instance finding_row_entity : Entity FindingRow := {| row_id := fr_id |}.

Record FileInfo := mkFileInfo { fi_sha256 : string; fi_entropy : double; fi_ssdeep : string; fi_tlsh : string }.

Record FileHash := mkFileHash {
  fh_id : Z;
  fh_scan_id : Z;
  fh_archive_kind : string;
  fh_file_path : string;
  fh_sha256 : string;
  fh_ssdeep : option string;
  fh_tlsh : option string;
  fh_entropy : option double;
}.
#[export] Instance file_hash_entity : Entity FileHash := {| row_id := fh_id |}.

Record Detonation := mkDetonation { dt_id : Z; dt_scan_id : Z; dt_ecosystem : string; dt_status : string; dt_finished_at : timestamp }.
#[export] Instance detonation_entity : Entity Detonation := {| row_id := dt_id |}.

Record TraceEvent := mkTrace {
  te_id : Z;
  te_detonation_id : Z;
  te_phase : json;
  te_category : json;
  te_operation : json;
  te_pid : json;
  te_binary : json;
  te_detail : json;
  te_matched_rule : json;
}.
#[export] Instance trace_entity : Entity TraceEvent := {| row_id := te_id |}.

(** [rule_hit] has its rule id as primary key. *)
Abbreviation rulehits := (list (string * Z)).

Record db := mkDb {
  packages : table Package;
  versions : table Version;
  scans : table Scan;
  findings : table FindingRow;
  file_hashes : table FileHash;
  rule_hits : rulehits;
  watchlist : wtable;
  scopes : stable;
  intel_hashes : itable;
  scan_queue : table (job unit);
  detonation_queue : table (job DetExtra);
  detonations : table Detonation;
  trace_events : table TraceEvent;
}.

Definition set_packages x d := mkDb x (versions d) (scans d) (findings d) (file_hashes d) (rule_hits d)
  (watchlist d) (scopes d) (intel_hashes d) (scan_queue d) (detonation_queue d) (detonations d) (trace_events d).
Definition set_versions x d := mkDb (packages d) x (scans d) (findings d) (file_hashes d) (rule_hits d)
  (watchlist d) (scopes d) (intel_hashes d) (scan_queue d) (detonation_queue d) (detonations d) (trace_events d).
Definition set_scans x d := mkDb (packages d) (versions d) x (findings d) (file_hashes d) (rule_hits d)
  (watchlist d) (scopes d) (intel_hashes d) (scan_queue d) (detonation_queue d) (detonations d) (trace_events d).
Definition set_findings x d := mkDb (packages d) (versions d) (scans d) x (file_hashes d) (rule_hits d)
  (watchlist d) (scopes d) (intel_hashes d) (scan_queue d) (detonation_queue d) (detonations d) (trace_events d).
Definition set_file_hashes x d := mkDb (packages d) (versions d) (scans d) (findings d) x (rule_hits d)
  (watchlist d) (scopes d) (intel_hashes d) (scan_queue d) (detonation_queue d) (detonations d) (trace_events d).
Definition set_rule_hits x d := mkDb (packages d) (versions d) (scans d) (findings d) (file_hashes d) x
  (watchlist d) (scopes d) (intel_hashes d) (scan_queue d) (detonation_queue d) (detonations d) (trace_events d).
Definition set_watchlist x d := mkDb (packages d) (versions d) (scans d) (findings d) (file_hashes d) (rule_hits d)
  x (scopes d) (intel_hashes d) (scan_queue d) (detonation_queue d) (detonations d) (trace_events d).
Definition set_scopes x d := mkDb (packages d) (versions d) (scans d) (findings d) (file_hashes d) (rule_hits d)
  (watchlist d) x (intel_hashes d) (scan_queue d) (detonation_queue d) (detonations d) (trace_events d).
Definition set_intel x d := mkDb (packages d) (versions d) (scans d) (findings d) (file_hashes d) (rule_hits d)
  (watchlist d) (scopes d) x (scan_queue d) (detonation_queue d) (detonations d) (trace_events d).
Definition set_scan_queue x d := mkDb (packages d) (versions d) (scans d) (findings d) (file_hashes d) (rule_hits d)
  (watchlist d) (scopes d) (intel_hashes d) x (detonation_queue d) (detonations d) (trace_events d).
Definition set_det_queue x d := mkDb (packages d) (versions d) (scans d) (findings d) (file_hashes d) (rule_hits d)
  (watchlist d) (scopes d) (intel_hashes d) (scan_queue d) x (detonations d) (trace_events d).
Definition set_detonations x d := mkDb (packages d) (versions d) (scans d) (findings d) (file_hashes d) (rule_hits d)
  (watchlist d) (scopes d) (intel_hashes d) (scan_queue d) (detonation_queue d) x (trace_events d).
Definition set_trace_events x d := mkDb (packages d) (versions d) (scans d) (findings d) (file_hashes d) (rule_hits d)
  (watchlist d) (scopes d) (intel_hashes d) (scan_queue d) (detonation_queue d) (detonations d) x.

Definition empty_db : db :=
  mkDb empty_table empty_table empty_table empty_table empty_table [] empty_table empty_table empty_table empty_table empty_table empty_table empty_table.

(** Findings of a scan, as the analyzers' values. *)
Definition findings_of (scan_id : Z) (d : db) : list Finding :=
  map fr_finding (select (fun r => fr_scan_id r =? scan_id) (findings d)).

(** [session.add] of one row per element. *)
Definition insert_all {R A} `{Entity R} (mk : A -> Z -> R) (xs : list A) (t : table R) : table R :=
  fold_left (fun t x => (insert (mk x) t).1) xs t.

Lemma insert_all_rows {R A} `{Entity R} (mk : A -> Z -> R) xs t r :
  r ∈ rows (insert_all mk xs t) -> r ∈ rows t \/ exists x i, x ∈ xs /\ r = mk x i.
Proof.
  unfold insert_all. revert t. induction xs as [|x xs IH]; intros t; cbn [fold_left]; [by left|].
  intros [[?| ->]%insert_in|(y & i & Hy & ->)]%IH; [by left| |]; right; do 2 eexists; (split; [|done]); set_solver.
Qed.

Lemma insert_all_keep {R A} `{Entity R} (mk : A -> Z -> R) xs t r :
  r ∈ rows t -> r ∈ rows (insert_all mk xs t).
Proof.
  unfold insert_all. revert t. induction xs as [|x xs IH]; intros t Hr; cbn [fold_left]; [done|].
  apply IH. apply insert_in. by left.
Qed.

Lemma insert_all_has {R A} `{Entity R} (mk : A -> Z -> R) xs t x :
  x ∈ xs -> exists i, mk x i ∈ rows (insert_all mk xs t).
Proof.
  unfold insert_all. revert t. induction xs as [|y xs IH]; intros t Hx; [set_solver|]. cbn [fold_left].
  apply elem_of_cons in Hx as [->|Hx]; [|by apply IH]. exists (seq t).
  apply (insert_all_keep mk xs). apply insert_in. by right.
Qed.

Lemma insert_all_wf {R A} `{Entity R} (mk : A -> Z -> R) xs t :
  (forall x i, row_id (mk x i) = i) -> table_wf t -> table_wf (insert_all mk xs t).
Proof.
  intros Hid. unfold insert_all. revert t. induction xs as [|x xs IH]; intros t Hwf; cbn [fold_left]; [done|].
  by apply IH, table_wf_insert.
Qed.

(** The rows of a fresh key after a bulk insert are exactly the inserted ones, in order. *)
Lemma insert_all_select {R A} `{Entity R} (mk : A -> Z -> R) (p : R -> bool) (g : R -> A) xs t :
  (forall x i, p (mk x i) = true) -> (forall x i, g (mk x i) = x) ->
  map g (select p (insert_all mk xs t)) = map g (select p t) ++ xs.
Proof.
  intros Hp Hg. unfold insert_all. revert t. induction xs as [|x xs IH]; intros t; cbn [fold_left]; [by rewrite app_nil_r|].
  rewrite IH. unfold select at 1. change (rows (insert (mk x) t).1) with (rows t ++ [mk x (seq t)]).
  rewrite List.filter_app. simpl. rewrite Hp, map_app. simpl. rewrite Hg, <- app_assoc. done.
Qed.
