(* ===== verification/MaintWatch.v ===== *)
(** * The maintainer watch ([maintainer_watch.py])

    Bounded force-scan watches on the clean siblings of a convicted account:
    registration, the active check against scan history, and the janitor. *)
From S2P Require Import Prelude PyStr Sql Findings Store.

Open Scope list_scope.
Open Scope Z_scope.

Record mw_row := mkMw {
  mw_id : Z;
  mw_ecosystem : string;
  mw_name : string;
  mw_maintainer : option string;
  mw_added_at : timestamp;
}.
#[export] Instance mw_entity : Entity mw_row := {| row_id := mw_id |}.
Abbreviation mtable := (table mw_row).

Definition mw_key (w : mw_row) : string * string := (mw_ecosystem w, mw_name w).

Definition MW_SUPPORTED : list string := ["pypi"; "npm"].

(** The environment of the module. *)
Record MwConfig := mkMwConfig {
  MAINTAINER_WATCH : option string;
  mw_releases : Z;
  mw_ttl_days : Z;
  mw_max_per_eco : Z;
}.
Definition default_mw : MwConfig := mkMwConfig None 3 180 10000.

Section MaintWatch.
Variable cfg : MwConfig.
Implicit Types (t : mtable) (d : db) (w : mw_row).

Definition mw_enabled : bool :=
  negb (str_in (lower (default "1" (MAINTAINER_WATCH cfg))) ["0"; "false"; "off"; "no"]).

(** The scans of a package: the rows of [Scan JOIN Version JOIN Package]. *)
Definition scan_versions (eco nm : string) (p : Scan -> bool) d : list string :=
  flat_map (fun sc =>
    flat_map (fun v =>
      flat_map (fun pk =>
        if (v_package_id v =? p_id pk) && String.eqb (p_ecosystem pk) eco && String.eqb (lower (p_name pk)) (lower nm)
        then [v_version v] else [])
        (rows (packages d)))
      (select (fun v => sc_version_id sc =? v_id v) (versions d)))
    (select p (scans d)).

Definition finished_since (since : timestamp) (sc : Scan) : bool :=
  match sc_finished_at sc with Some f => since <=? f | None => false end.

(** [count(distinct(Version.version))]. *)
Definition scans_since (eco nm : string) (since : timestamp) d : Z :=
  Z.of_nat (length (dedup (scan_versions eco nm (finished_since since) d))).

Definition same_watch (eco nm : string) w : bool :=
  String.eqb (mw_ecosystem w) eco && String.eqb (lower (mw_name w)) (lower nm).

Inductive watch_status := WatchAdded | WatchRefreshed | WatchUnsupported.

Definition restart (now : timestamp) (maintainer : option string) w : mw_row :=
  mkMw (mw_id w) (mw_ecosystem w) (mw_name w) (if otruthy maintainer then maintainer else mw_maintainer w) now.

(** [env] commits what other sessions do between the lookup and the insert. *)
Definition add_watch (env : mtable -> mtable) (now : timestamp) (eco nm : string) (maintainer : option string) t
    : watch_status * mtable :=
  if negb (str_in eco MW_SUPPORTED) then (WatchUnsupported, t)
  else
    match first (same_watch eco nm) t with
    | Some w => (WatchRefreshed, put (restart now maintainer w) t)
    | None =>
        match insert_unique mw_key (fun i => mkMw i eco nm maintainer now) (env t) with
        | Some (t', _) => (WatchAdded, t')
        | None => (WatchRefreshed, env t)
        end
    end.

Definition load_watch_names (eco : string) t : list string :=
  dedup (map (fun w => lower (mw_name w)) (select (fun w => String.eqb (mw_ecosystem w) eco) t)).

Definition past_ttl (now : timestamp) w : bool := (0 <? mw_ttl_days cfg) && (mw_added_at w <? now - days (mw_ttl_days cfg)).
Definition exhausted (nm : string) d w : bool :=
  (0 <? mw_releases cfg) && (mw_releases cfg <=? scans_since (mw_ecosystem w) nm (mw_added_at w) d).

Definition is_maintainer_watched (now : timestamp) (eco nm : string) (names : option (list string)) d t : bool :=
  if negb mw_enabled || negb (str_in eco MW_SUPPORTED) || negb (truthy nm) then false
  else if negb (str_in (lower nm) (default (load_watch_names eco t) names)) then false
  else
    match first (same_watch eco nm) t with
    | None => false
    | Some w => if past_ttl now w then false else negb (exhausted nm d w)
    end.

(** The janitor: dead watches first, then, per ecosystem, the oldest over the cap. *)
Definition dead (now : timestamp) d w : bool := past_ttl now w || exhausted (mw_name w) d w.

Definition cap_eco (st : Z * mtable) (eco : string) : Z * mtable :=
  let ws := ssort (asc mw_added_at) (select (fun w => String.eqb (mw_ecosystem w) eco) st.2) in
  let excess := Z.of_nat (length ws) - mw_max_per_eco cfg in
  if 0 <? excess then
    let ids := map mw_id (List.firstn (Z.to_nat excess) ws) in
    (st.1 + excess, delete_where (fun w => bool_decide (mw_id w ∈ ids)) st.2)
  else st.

Definition mw_prune (now : timestamp) d t : Z * mtable :=
  let st := (count_where (dead now d) t, delete_where (dead now d) t) in
  if 0 <? mw_max_per_eco cfg then fold_left cap_eco MW_SUPPORTED st else st.

Definition remove_watch (eco nm : string) t : Z * mtable :=
  (count_where (same_watch eco nm) t, delete_where (same_watch eco nm) t).

Definition list_watches (eco : option string) t : list (string * string * option string * timestamp) :=
  map (fun w => (mw_ecosystem w, mw_name w, mw_maintainer w, mw_added_at w))
    (ssort (desc mw_added_at) (select (fun w => negb (otruthy eco) || String.eqb (mw_ecosystem w) (ostr eco)) t)).

(** ** Lemmas *)

Lemma same_watch_true eco nm w : same_watch eco nm w = true <-> mw_ecosystem w = eco /\ lower (mw_name w) = lower nm.
Proof. unfold same_watch. by rewrite andb_true_iff, !String.eqb_eq. Qed.

(** The history is looked up under the lower-cased name. *)
Lemma scans_since_lower eco nm nm' since d : lower nm = lower nm' -> scans_since eco nm since d = scans_since eco nm' since d.
Proof. intros E. unfold scans_since, scan_versions. by rewrite E. Qed.

Lemma exhausted_name eco nm d w : same_watch eco nm w = true -> exhausted nm d w = exhausted (mw_name w) d w.
Proof. intros [_ E]%same_watch_true. unfold exhausted. by rewrite (scans_since_lower _ nm (mw_name w)). Qed.

Lemma load_watch_names_in eco nm t :
  str_in (lower nm) (load_watch_names eco t) = true <-> exists w, w ∈ rows t /\ same_watch eco nm w = true.
Proof.
  unfold load_watch_names. rewrite str_in_true, dedup_elem, list_elem_of_In, in_map_iff. split.
  - intros (w & E & [Hw He%String.eqb_eq]%list_elem_of_In%select_in). exists w. rewrite same_watch_true. auto.
  - intros (w & Hw & [He E]%same_watch_true). exists w. split; [done|]. apply list_elem_of_In, select_in.
    split; [done|by apply String.eqb_eq].
Qed.

Definition watch_guard (eco nm : string) : bool := mw_enabled && str_in eco MW_SUPPORTED && truthy nm.

Lemma watched_eq now eco nm d t :
  is_maintainer_watched now eco nm None d t =
  watch_guard eco nm && match first (same_watch eco nm) t with Some w => negb (dead now d w) | None => false end.
Proof.
  unfold is_maintainer_watched, watch_guard. destruct mw_enabled, (str_in eco _), (truthy nm); try done. cbn [negb orb andb default].
  change (default (load_watch_names eco t) None) with (load_watch_names eco t).
  destruct (first (same_watch eco nm) t) as [w|] eqn:E.
  - pose proof E as [Hw Hs]%head_in%select_in. rewrite (proj2 (load_watch_names_in eco nm t)) by eauto. cbn [negb].
    unfold dead. rewrite (exhausted_name _ _ _ _ Hs). by destruct (past_ttl now w).
  - by destruct (str_in _ _).
Qed.

Lemma cap_eco_wf st eco : table_wf st.2 -> table_wf (cap_eco st eco).2.
Proof. intros Hwf. unfold cap_eco. destruct (0 <? _); [by apply table_wf_delete|done]. Qed.

Lemma cap_eco_sub st eco w : w ∈ rows (cap_eco st eco).2 -> w ∈ rows st.2.
Proof. unfold cap_eco. destruct (0 <? _); [by intros [? _]%delete_where_in|done]. Qed.

Definition eco_count (eco : string) t : Z := count_where (fun w => String.eqb (mw_ecosystem w) eco) t.

Lemma cap_eco_bound st eco : table_wf st.2 -> 0 < mw_max_per_eco cfg -> eco_count eco (cap_eco st eco).2 <= mw_max_per_eco cfg.
Proof.
  intros Hwf Hcap. unfold cap_eco, eco_count, count_where. rewrite ssort_length.
  set (p := fun w => String.eqb (mw_ecosystem w) eco). destruct (Z.ltb_spec 0 (Z.of_nat (length (select p st.2)) - mw_max_per_eco cfg)).
  - cbn [snd]. rewrite (delete_first_sorted mw_added_at p _ st.2 Hwf), length_drop, ssort_length. lia.
  - lia.
Qed.

Lemma eco_count_sub eco t t' : (forall w, w ∈ rows t' -> w ∈ rows t) -> table_wf t' -> eco_count eco t' <= eco_count eco t.
Proof.
  intros Hsub Hwf. unfold eco_count, count_where. apply inj_le. apply submseteq_length, NoDup_submseteq.
  - apply (NoDup_fmap_1 mw_id). apply bfilter_NoDup_fmap, Hwf.
  - intros w. rewrite !select_in. naive_solver.
Qed.

Lemma cap_fold ecos st : table_wf st.2 -> 0 < mw_max_per_eco cfg ->
  let st' := fold_left cap_eco ecos st in
  table_wf st'.2 /\ (forall w, w ∈ rows st'.2 -> w ∈ rows st.2) /\
  forall eco, eco ∈ ecos -> eco_count eco st'.2 <= mw_max_per_eco cfg.
Proof.
  intros Hwf Hcap. revert st Hwf. induction ecos as [|eco ecos IH]; intros st Hwf; cbn [fold_left].
  { split_and!; try done. set_solver. }
  destruct (IH (cap_eco st eco)) as (Hw & Hsub & Hc); [by apply cap_eco_wf|]. split_and!; [done| |].
  - intros w Hin. by eapply cap_eco_sub, Hsub.
  - intros e He. apply elem_of_cons in He as [->|He]; [|by apply Hc].
    apply (Z.le_trans _ (eco_count eco (cap_eco st eco).2)); [by apply eco_count_sub|by apply cap_eco_bound].
Qed.

Lemma cap_fold_noop ecos st : (forall eco, eco ∈ ecos -> eco_count eco st.2 <= mw_max_per_eco cfg) -> fold_left cap_eco ecos st = st.
Proof.
  induction ecos as [|eco ecos IH]; intros Hc; [done|]. cbn [fold_left].
  assert (cap_eco st eco = st) as ->; [|by apply IH; set_solver].
  unfold cap_eco. rewrite ssort_length. specialize (Hc eco ltac:(set_solver)). unfold eco_count, count_where in Hc.
  destruct (Z.ltb_spec 0 (Z.of_nat (length (select (fun w => String.eqb (mw_ecosystem w) eco) st.2)) - mw_max_per_eco cfg)); [lia|done].
Qed.

(** One watch per name, up to case. *)
Definition watches_unique t : Prop :=
  forall w w', w ∈ rows t -> w' ∈ rows t -> mw_ecosystem w = mw_ecosystem w' -> lower (mw_name w) = lower (mw_name w') -> w = w'.

Lemma first_delete eco nm (p : mw_row -> bool) t : watches_unique t ->
  first (same_watch eco nm) (delete_where p t) =
  match first (same_watch eco nm) t with Some w => if p w then None else Some w | None => None end.
Proof.
  intros Hu. unfold first. destruct (head (select (same_watch eco nm) t)) as [w|] eqn:E.
  - apply head_in, select_in in E as [Hw Hs]. apply same_watch_true in Hs as [He En].
    assert (forall w', w' ∈ select (same_watch eco nm) (delete_where p t) <-> w' = w /\ p w = false) as Hiff.
    { intros w'. rewrite select_in, delete_where_in, same_watch_true. split.
      - intros ((Hw' & Hp) & He' & En'). assert (w' = w) as -> by (apply Hu; congruence). split; done.
      - intros [-> Hp]. auto. }
    destruct (select _ (delete_where p t)) as [|x l]; simpl.
    + destruct (p w) eqn:Ep; [done|]. pose proof (proj2 (Hiff w) (conj eq_refl eq_refl)) as Hin. by apply elem_of_nil in Hin.
    + destruct (proj1 (Hiff x) ltac:(set_solver)) as [-> ->]. done.
  - rewrite (proj2 (select_nil _ (delete_where p t))); [done|]. intros w' [Hw' _]%delete_where_in.
    assert (select (same_watch eco nm) t = []) as Hn by (by destruct (select _ t)). rewrite select_nil in Hn. auto.
Qed.

End MaintWatch.

(** ** Properties *)

(** The watch is bounded and its janitor invisible: a package is force-scanned
    exactly while its watch is within the TTL and fewer than the configured number
    of distinct versions were scanned since it was (re)armed; the janitor leaves at
    most the cap per ecosystem, and while no ecosystem is over the cap it changes no
    answer (with one watch per name up to case). *)
Theorem maintainer_watch_bounded cfg now d t :
  table_wf t -> watches_unique t ->
  (forall eco nm, is_maintainer_watched cfg now eco nm None d t = true <->
     mw_enabled cfg = true /\ eco ∈ MW_SUPPORTED /\ nm <> ""%string /\
     exists w, w ∈ rows t /\ mw_ecosystem w = eco /\ lower (mw_name w) = lower nm /\
       (0 < mw_ttl_days cfg -> now - days (mw_ttl_days cfg) <= mw_added_at w) /\
       (0 < mw_releases cfg -> scans_since eco nm (mw_added_at w) d < mw_releases cfg)) /\
  (0 < mw_max_per_eco cfg -> forall eco, eco ∈ MW_SUPPORTED -> eco_count eco (mw_prune cfg now d t).2 <= mw_max_per_eco cfg) /\
  ((forall eco, eco ∈ MW_SUPPORTED -> eco_count eco (delete_where (dead cfg now d) t) <= mw_max_per_eco cfg) ->
   forall eco nm, is_maintainer_watched cfg now eco nm None d (mw_prune cfg now d t).2 = is_maintainer_watched cfg now eco nm None d t).
Proof.
  intros Hwf Hu. split_and!.
  - intros eco nm. rewrite watched_eq. unfold watch_guard. rewrite !andb_true_iff, str_in_true. unfold truthy. rewrite negb_true_iff, String.eqb_neq.
    split.
    + intros [[[H1 H2] H3] H]. split_and!; try done. destruct (first _ t) as [w|] eqn:E; [|done].
      apply head_in, select_in in E as [Hw Hs]. exists w. pose proof Hs as [He En]%same_watch_true. split_and!; try done.
      all: apply negb_true_iff in H; unfold dead in H; rewrite <- (exhausted_name cfg _ _ _ _ Hs) in H; unfold past_ttl, exhausted in H;
        rewrite He in H; intros; bool_to_Z; lia.
    + intros (H1 & H2 & H3 & w & Hw & He & En & Ht & Hx). split_and!; try done.
      destruct (first (same_watch eco nm) t) as [w'|] eqn:E.
      * apply head_in, select_in in E as [Hw' Hs]. pose proof Hs as [He' En']%same_watch_true.
        assert (w' = w) as -> by (apply Hu; congruence). apply negb_true_iff. unfold dead.
        rewrite <- (exhausted_name cfg _ _ _ _ Hs). unfold past_ttl, exhausted. rewrite He'. bool_to_Z.
        destruct (decide (0 < mw_ttl_days cfg)), (decide (0 < mw_releases cfg)); split; lia.
      * assert (select (same_watch eco nm) t = []) as Hn by (unfold first in E; by destruct (select _ t)).
        rewrite select_nil in Hn. specialize (Hn w Hw). rewrite (proj2 (same_watch_true _ _ _)) in Hn; done.
  - intros Hcap. unfold mw_prune. rewrite (proj2 (Z.ltb_lt _ _)) by done. apply cap_fold; [by apply table_wf_delete|done].
  - intros Hc eco nm. assert ((mw_prune cfg now d t).2 = delete_where (dead cfg now d) t) as ->.
    { unfold mw_prune. destruct (0 <? _); [by rewrite cap_fold_noop|done]. }
    rewrite !watched_eq, first_delete by done. destruct (first _ t) as [w|]; [|done].
    destruct (dead cfg now d w) eqn:E; by rewrite ?E.
Qed.

Definition ex_mw : mtable := (add_watch id 5 "npm" "Left-Pad" (Some "mallory"%string) empty_table).2.
Definition ex_mw_scan : Scan := mkScan 1 1 6 (Some 7) VClean 0 None None.
Definition ex_mw_db : db :=
  set_scans (Table [ex_mw_scan] 2)
    (set_versions (Table [mkVersion 1 "npm" 1 "1.0" 0 no_meta] 2)
      (set_packages (Table [mkPackage 1 "npm" "left-pad" 0] 2) empty_db)).

Lemma maintainer_watch_bounded_witness :
  table_wf ex_mw /\ watches_unique ex_mw /\
  scans_since "npm" "LEFT-PAD" 5 ex_mw_db = 1 /\
  is_maintainer_watched default_mw 8 "npm" "LEFT-PAD" None ex_mw_db ex_mw = true.
Proof.
  assert (table_wf ex_mw) as Hwf by (apply (table_wf_insert _ empty_table); [done|apply table_wf_empty]).
  assert (watches_unique ex_mw) as Hu.
  { intros w w' Hw Hw' _ _. apply list_elem_of_singleton in Hw, Hw'. by subst. }
  split; [exact Hwf|]. split; [exact Hu|]. split; [vm_compute; reflexivity|].
  apply (proj1 (maintainer_watch_bounded default_mw 8 ex_mw_db ex_mw Hwf Hu)). split; [reflexivity|].
  split; [by right; left|]. split; [discriminate|].
  exists (mkMw 1 "npm" "Left-Pad" (Some "mallory"%string) 5). split; [by left|]. split; [reflexivity|]. split; [reflexivity|].
  split; intros _; vm_compute; congruence.
Defined.
