(* ===== verification/Ingest.v ===== *)
(** * The ingest side's database and gates

    What the discovery pollers of all registries share: the tables they read
    and write beside the scan store, the feed cursor, the brand-new probe, the
    watch checks, and the enqueue transaction over a batch. *)
From S2P Require Import Prelude PyStr Sql Findings Jobs ScanQueue Watch Scope Store Focus MaintWatch.

Open Scope list_scope.
Open Scope Z_scope.

Record ingest_db := mkIngest {
  i_store : db;
  i_focus : ftable;
  i_maint : mtable;
  i_cursors : list (string * Z);
}.

Definition set_store d i := mkIngest d (i_focus i) (i_maint i) (i_cursors i).
Definition set_cursors c i := mkIngest (i_store i) (i_focus i) (i_maint i) c.
Definition i_queue (i : ingest_db) : queue := scan_queue (i_store i).
Definition set_queue q i := set_store (set_scan_queue q (i_store i)) i.

(** [s.get(ScanCursor, eco)] and the upsert of [set_last_*]. *)
Definition get_cursor (eco : string) (i : ingest_db) : option Z := dget eco (i_cursors i).
Definition set_cursor (eco : string) (n : Z) (i : ingest_db) : ingest_db := set_cursors (dset eco n (i_cursors i)) i.

(** What the gates read from the environment. *)
Record GateConfig := mkGate {
  g_queue : QueueConfig;
  g_scope_env : option string;
  g_maint : MwConfig;
}.
Definition default_gate : GateConfig := mkGate default_config None default_mw.

(** [is_watchlist] of the npm and Go ingest modules: case-insensitive. *)
Definition is_watchlist_ci (eco nm : string) (i : ingest_db) : option Z :=
  w_rank <$> first (same_name eco nm) (watchlist (i_store i)).

(** The package was scanned before, or is queued under any version. *)
Definition known (eco nm : string) (i : ingest_db) : bool :=
  exists_row (fun p => String.eqb (p_ecosystem p) eco && String.eqb (lower (p_name p)) (lower nm)) (packages (i_store i)) ||
  exists_row (fun r => String.eqb (ecosystem r) eco && String.eqb (lower (name r)) (lower nm)) (i_queue i).

Definition scope_watched (g : GateConfig) (eco nm : string) (scopes_ : list string) (i : ingest_db) : bool :=
  is_scope_watchlisted (g_scope_env g) eco nm (Some scopes_) (scopes (i_store i)).
Definition maint_watched (g : GateConfig) (now : timestamp) (eco nm : string) (names : list string) (i : ingest_db) : bool :=
  is_maintainer_watched (g_maint g) now eco nm (Some names) (i_store i) (i_maint i).

(** One [session_scope] that enqueues a batch in order: the rows the calls
    returned, or the exception that rolled the session back. [faults j] are the
    database errors of the j-th call. *)
Fixpoint enqueue_batch (cfg : QueueConfig) (faults : nat -> nat -> option string) (now : timestamp) (eco : string)
    (j : nat) (items : list (string * string * priority)) (q : queue) : option (list (option row) * queue) :=
  match items with
  | [] => Some ([], q)
  | (nm, ver, prio) :: items' =>
      match enqueue cfg quiet (faults j) now eco nm ver prio false q with
      | (Raised _, _) => None
      | (Returned r, q') =>
          match enqueue_batch cfg faults now eco (S j) items' q' with
          | Some (rs, q'') => Some (r :: rs, q'')
          | None => None
          end
      end
  end.

(** [row is not None and row.status == "pending"]. *)
Definition pending_row (r : option row) : bool := match r with Some r => status_is Pending r | None => false end.
Definition count_true (l : list bool) : Z := Z.of_nat (length (bfilter (fun b => b) l)).

(** [dict.pop(k, None)]. *)
Definition dpop {V} (k : string) (d : list (string * V)) : list (string * V) := bfilter (fun kv => negb (String.eqb kv.1 k)) d.

(** ** Lemmas *)

Lemma NoDup_bfilter {A} (p : A -> bool) l : NoDup l -> NoDup (bfilter p l).
Proof. intros H. rewrite <- (list_fmap_id (bfilter p l)). apply bfilter_NoDup_fmap. by rewrite list_fmap_id. Qed.

Lemma dget_dpop {V} k k' (d : list (string * V)) : dget k' (dpop k d) = if String.eqb k' k then None else dget k' d.
Proof.
  unfold dpop. induction d as [|[k0 v] d IH]; [by destruct (String.eqb k' k)|]. cbn [List.filter fst dget].
  destruct (String.eqb_spec k0 k) as [->|Hne]; cbn [negb dget]; rewrite IH.
  - destruct (String.eqb_spec k' k) as [->|Hne']; [done|]. by rewrite decide_False.
  - destruct (String.eqb_spec k' k) as [E|E], (decide (k' = k0)); congruence || done.
Qed.

Lemma get_set_cursor eco n i : get_cursor eco (set_cursor eco n i) = Some n.
Proof. apply dget_dset_eq. Qed.

(** A gate is told the same by the preloaded set and by the table. *)
Lemma get_cursor_queue eco q i : get_cursor eco (set_queue q i) = get_cursor eco i.
Proof. done. Qed.

(** A key is queued under some row. *)
Definition queued (k : string * string * string) (q : queue) : Prop := exists r, r ∈ rows q /\ key_of r = k.

Lemma enqueue_keeps cfg faults now eco nm ver p q k : table_wf q -> queued k q ->
  table_wf (enqueue cfg quiet faults now eco nm ver p false q).2 /\ queued k (enqueue cfg quiet faults now eco nm ver p false q).2.
Proof.
  intros Hwf Hq. split; [by apply enqueue_wf|].
  assert (forall n j, queued k (insert_attempts cfg quiet faults (new_row now eco nm ver p) n j q).2) as Hins.
  { intros n j. apply insert_attempts_inv with (P := queued k); [done| |done].
    intros t t' r (r0 & Hr0 & Hk) (-> & _)%insert_unique_inv. exists r0. split; [|done]. apply insert_in. by left. }
  unfold enqueue. destruct (first _ q) as [r0|] eqn:E; [|apply Hins].
  destruct (enqueue_existing p false r0) as [r1|] eqn:E1; [|apply Hins]. cbn [snd].
  apply enqueue_existing_rel, enq_rel_id in E1 as [Hid Hkey]. apply head_in, select_in in E as [Hr0 _].
  destruct Hq as (r & Hr & Hk). destruct (decide (id r = id r0)) as [Hrr|Hne].
  - assert (r = r0) as -> by (by eapply (row_id_inj q)). exists r1. split; [by eapply put_self|congruence].
  - exists r. split; [|done]. apply put_other; [done|]. simpl. congruence.
Qed.

(** An enqueue queues nothing but its own key. *)
Lemma enqueue_only cfg faults now eco nm ver p q k : table_wf q ->
  queued k (enqueue cfg quiet faults now eco nm ver p false q).2 -> queued k q \/ k = (eco, nm, ver).
Proof.
  intros Hwf. set (P := fun t : queue => forall r, r ∈ rows t -> queued (key_of r) q \/ key_of r = (eco, nm, ver)).
  assert (P q) as H0 by (intros r Hr; left; by exists r).
  assert (forall n j, P (insert_attempts cfg quiet faults (new_row now eco nm ver p) n j q).2) as Hins.
  { intros n j. apply insert_attempts_inv with (P := P); [done| |done].
    intros t t' r0 Ht (-> & _)%insert_unique_inv r [Hr|Hr]%insert_in; [by apply Ht|right; by rewrite Hr]. }
  assert (P (enqueue cfg quiet faults now eco nm ver p false q).2) as HP.
  { unfold enqueue. destruct (first _ q) as [r0|] eqn:E; [|apply Hins].
    destruct (enqueue_existing p false r0) as [r1|] eqn:E1; [|apply Hins]. cbn [snd].
    apply enqueue_existing_rel, enq_rel_id in E1 as [Hid Hkey]. apply head_in, select_in in E as [Hr0 _].
    intros r [-> |[Hr _]]%put_in; [|by apply H0]. left. exists r0. split; [done|congruence]. }
  intros (r & Hr & <-). by apply HP.
Qed.

Lemma batch_keeps cfg faults now eco items j q rs q' k : table_wf q -> queued k q ->
  enqueue_batch cfg faults now eco j items q = Some (rs, q') -> table_wf q' /\ queued k q'.
Proof.
  revert j q rs. induction items as [|[[nm ver] p] items IH]; intros j q rs Hwf Hk; cbn [enqueue_batch]; [by intros [= _ <-]|].
  pose proof (enqueue_keeps cfg (faults j) now eco nm ver p q k Hwf Hk) as [Hwf' Hk'].
  destruct (enqueue cfg quiet (faults j) now eco nm ver p false q) as [[r|msg] t]; [|done].
  destruct (enqueue_batch cfg faults now eco (S j) items t) as [[rs' q'']|] eqn:E; [|done]. intros [= _ <-]. by eapply IH.
Qed.

(** Every call of a batch that returned a row left its key queued. *)
Lemma batch_queued cfg faults now eco items j q rs q' : table_wf q ->
  enqueue_batch cfg faults now eco j items q = Some (rs, q') ->
  length rs = length items /\
  forall n nm ver p r, items !! n = Some (nm, ver, p) -> rs !! n = Some (Some r) -> queued (eco, nm, ver) q'.
Proof.
  revert j q rs. induction items as [|[[nm ver] p] items IH]; intros j q rs Hwf; cbn [enqueue_batch]; [by intros [= <- _]|].
  pose proof (enqueue_wf cfg (faults j) now eco nm ver p false q Hwf) as Hwf'.
  pose proof (enqueue_result_row cfg quiet (faults j) now eco nm ver p false q) as Hres.
  destruct (enqueue cfg quiet (faults j) now eco nm ver p false q) as [[r|msg] t]; [|done]. cbn [snd] in Hwf'.
  destruct (enqueue_batch cfg faults now eco (S j) items t) as [[rs' q'']|] eqn:E; [|done]. intros [= <- <-].
  destruct (IH _ _ _ Hwf' E) as [Hlen Hq]. split; [cbn; congruence|]. intros [|n] nm' ver' p' r' Hi Hr; cbn in Hi, Hr; [|by eapply Hq].
  simplify_eq. destruct Hres as [Hk Hr']. eapply batch_keeps; [exact Hwf'| |exact E]. by exists r'.
Qed.

(** Without database errors an enqueue leaves its key queued, whatever was there. *)
Lemma enqueue_queues cfg faults now eco nm ver p q : 0 <= ENQUEUE_DEADLOCK_RETRIES cfg -> (forall a, faults a = None) ->
  table_wf q -> queued (eco, nm, ver) (enqueue cfg quiet faults now eco nm ver p false q).2.
Proof.
  intros Hr Hf Hwf. destruct (first (same_key eco nm ver) q) as [r0|] eqn:E.
  - apply enqueue_keeps; [done|]. apply head_in, select_in in E as [Hr0 Hk%same_key_true]. by exists r0.
  - unfold enqueue. rewrite E. replace (Z.to_nat (ENQUEUE_DEADLOCK_RETRIES cfg + 1)) with (S (Z.to_nat (ENQUEUE_DEADLOCK_RETRIES cfg))) by lia.
    cbn [insert_attempts]. rewrite Hf. unfold quiet. unfold insert_unique. destruct (exists_row _ q) eqn:Ex.
    + apply existsb_true in Ex as (r & Hin & Hk%bool_decide_eq_true). by exists r.
    + cbn [snd]. eexists. split; [apply insert_in; by right|done].
Qed.

(** The enqueue is abandoned: after as many deadlocks as are retried one more, or a lock timeout. *)
Definition gave_up (cfg : QueueConfig) (faults : nat -> option string) : Prop :=
  exists a msg, faults a = Some msg /\ (forall b, (b < a)%nat -> exists m, faults b = Some m /\ is_deadlock m = true) /\
    ((is_deadlock msg = true /\ Z.of_nat a = ENQUEUE_DEADLOCK_RETRIES cfg) \/ is_lock_timeout msg = true).

Lemma insert_queues cfg faults mk n k (q : queue) o q' :
  (Z.of_nat k + Z.of_nat n = ENQUEUE_DEADLOCK_RETRIES cfg + 1) -> (0 < n)%nat ->
  (forall b, (b < k)%nat -> exists m, faults b = Some m /\ is_deadlock m = true) ->
  insert_attempts cfg quiet faults mk n k q = (Returned o, q') ->
  queued (key_of (mk (seq q))) q' \/ gave_up cfg faults.
Proof.
  revert k. induction n as [|n IH]; intros k Hn Hpos Hk; [lia|]. cbn [insert_attempts]. unfold quiet at 1 2 3 4 5.
  destruct (faults k) as [msg|] eqn:Ef.
  - destruct (is_deadlock msg) eqn:Ed; cbn [andb orb].
    + destruct (Z.ltb_spec (Z.of_nat k) (ENQUEUE_DEADLOCK_RETRIES cfg)) as [Hlt|Hge].
      * apply IH; [lia|lia|]. intros b Hb. destruct (decide (b = k)) as [->|]; [eauto|apply Hk; lia].
      * intros _. right. exists k, msg. split_and!; try done. left. split; [done|lia].
    + destruct (is_lock_timeout msg) eqn:El; [|done]. intros _. right. exists k, msg. split_and!; auto.
  - unfold insert_unique. destruct (exists_row _ _) eqn:Ex; intros [= _ <-]; left.
    + apply existsb_true in Ex as (r & Hin & Hkey%bool_decide_eq_true). by exists r.
    + eexists. split; [apply insert_in; by right|done].
Qed.

Lemma enqueue_queues_or cfg faults now eco nm ver p q o q' : 0 <= ENQUEUE_DEADLOCK_RETRIES cfg ->
  table_wf q -> enqueue cfg quiet faults now eco nm ver p false q = (Returned o, q') ->
  queued (eco, nm, ver) q' \/ gave_up cfg faults.
Proof.
  intros Hr Hwf E. destruct (first (same_key eco nm ver) q) as [r0|] eqn:E0.
  - left. replace q' with (enqueue cfg quiet faults now eco nm ver p false q).2 by by rewrite E.
    apply enqueue_keeps; [done|]. apply head_in, select_in in E0 as [Hr0 Hk%same_key_true]. by exists r0.
  - unfold enqueue in E. rewrite E0 in E. apply (insert_queues cfg faults (new_row now eco nm ver p)) in E; [done|lia|lia|lia].
Qed.

Lemma batch_all_queued cfg faults now eco items j q rs q' :
  0 <= ENQUEUE_DEADLOCK_RETRIES cfg -> table_wf q ->
  enqueue_batch cfg faults now eco j items q = Some (rs, q') ->
  table_wf q' /\ (forall k, queued k q -> queued k q') /\
  forall i nm ver p, items !! i = Some (nm, ver, p) -> queued (eco, nm, ver) q' \/ gave_up cfg (faults (j + i)%nat).
Proof.
  intros Hr. revert j q rs. induction items as [|[[nm ver] p] items IH]; intros j q rs Hwf; cbn [enqueue_batch].
  { intros [= _ <-]. split_and!; [done|done|]. by intros i nm ver p ?%list_elem_of_lookup_2%elem_of_nil. }
  pose proof (enqueue_wf cfg (faults j) now eco nm ver p false q Hwf) as Hw.
  assert (forall k, queued k q -> queued k (enqueue cfg quiet (faults j) now eco nm ver p false q).2) as Hk0
    by (intros k Hk; by apply enqueue_keeps).
  destruct (enqueue cfg quiet (faults j) now eco nm ver p false q) as [[r|msg] t] eqn:Eq; [|done]. cbn [snd] in *.
  pose proof (enqueue_queues_or _ _ _ _ _ _ _ _ _ _ Hr Hwf Eq) as Hq.
  destruct (enqueue_batch cfg faults now eco (S j) items t) as [[rs' q'']|] eqn:E'; [|done]. intros [= _ <-].
  destruct (IH _ _ _ Hw E') as (Hwf' & Hk & Hall). split_and!; [done|auto|].
  intros [|i] nm' ver' p'; cbn [lookup list_lookup].
  - intros [= -> -> ->]. rewrite Nat.add_0_r. destruct Hq as [Hq|?]; [left; auto|by right].
  - intros Hi. apply Hall in Hi. by rewrite Nat.add_succ_r.
Qed.
