(* ===== verification/NpmCursor.v ===== *)
(** * The npm discovery poller ([npm/ingest/cursor.py])

    One poll of the registry's change feed: paging, the ingest gate, the anomaly
    gate with its carry-over, version resolution, the enqueue transactions, and
    the forward-only cursor with its hold-back and bounded retries.  The
    registry, the order in which concurrent requests complete and the order of
    Python sets are arguments; [world k] are the commits of other sessions before
    the poll's k-th session. *)
From S2P Require Import Prelude PyStr Sql Findings Json Jobs ScanQueue Watch Scope DepIntel Store Text Focus MaintWatch Anomaly Ingest.
From Stdlib Require Import Ascii String.

Open Scope list_scope.
Open Scope Z_scope.

Definition ECOSYSTEM : string := "npm".
Definition DEFAULT_LIMIT : nat := 1000.
Definition MAX_PAGES_PER_POLL : nat := 5.
Definition RESOLVE_ATTEMPTS_CAP : nat := 50000.

Record NpmConfig := mkNpm {
  n_gate : GateConfig;
  n_anomaly : Anomaly.Npm.HookConfig;
  NPM_ANOMALY_GATE : bool;
  NPM_ANOMALY_MAX_CHECKS : nat;
  ANOMALY_CARRYOVER_MAX : nat;
  NPM_RESOLVE_MAX_ATTEMPTS : Z;
}.
Definition default_npm : NpmConfig := mkNpm default_gate Anomaly.Npm.default_hooks true 200 5000 5.

(** [_seq_to_int]; a value that is neither an integer nor a string reads as 0. *)
Definition seq_to_int (seq : json) : Z :=
  match seq with
  | JInt n => n
  | JBool b => Z.b2z b
  | JStr s => default 0 (py_int (before_first "-"%char s))
  | _ => 0
  end.

(** A row of the change feed, and a page; a failed fetch is a page without rows. *)
Record change := mkChange { c_name : string; c_seq : json; c_deleted : bool }.
Record page := mkPage { results : list change; last_seq : option json }.

Definition INSTALL_HOOKS : list string := ["preinstall"; "install"; "postinstall"].
Definition has_install_hook (scripts : json) : bool :=
  match scripts with JObj o => existsb (fun h => dhas h o) INSTALL_HOOKS | _ => false end.

(** [_is_suspicious_version]: dependency-confusion version inflation. *)
Definition version_core (version : string) : list string :=
  split "."%char (before_first "+"%char (before_first "-"%char (lstrip_char "v"%char (strip version)))).
Definition is_suspicious_version (version : string) : bool :=
  let parts := version_core version in
  if (List.length parts <? 2)%nat || negb (forallb isdigit parts) then false
  else
    let nums := map int_of parts in
    forallb (str_forall (Ascii.eqb "9"%char)) parts ||
    ((List.length (dedup nums) =? 1)%nat && (9 <=? hd 0 nums)) ||
    (99 <=? hd 0 nums).

(** [_resolve_latest] on the manifest the registry answers; [str_of] is [str()]. *)
Definition resolve_latest (str_of : json -> string) (manifest : option (list (string * json))) : option (string * bool) :=
  match manifest with
  | None => None
  | Some data =>
      let v := jget "version" data JNull in
      if json_truthy v then Some (str_of v, has_install_hook (jget "scripts" data JNull)) else None
  end.

(** ** The gate *)

Record gate_state := mkGS {
  gated : list (string * priority);
  gated_seq : list (string * Z);
  anomaly_out : list string;
  skipped : Z;
}.

Section Gate.
Variables (cfg : NpmConfig) (exclusive : bool) (now : timestamp) (i : ingest_db).
Variables (focus_names watch_scopes maint_names : list string).

Definition on_watchlist (nm : string) : bool :=
  bool_decide (is_Some (is_watchlist_ci ECOSYSTEM nm i)) ||
  scope_watched (n_gate cfg) ECOSYSTEM nm watch_scopes i ||
  maint_watched (n_gate cfg) now ECOSYSTEM nm maint_names i.

Definition admit_change (nm : string) (seq : Z) (p : priority) (st : gate_state) : gate_state :=
  mkGS (dset nm p (gated st)) (dset nm seq (gated_seq st)) (anomaly_out st) (skipped st).
Definition skip_change (cand : bool) (nm : string) (st : gate_state) : gate_state :=
  mkGS (gated st) (gated_seq st) (if cand then append_new (anomaly_out st) [nm] else anomaly_out st) (skipped st + 1).

Definition gate_row (st : gate_state) (c : change) : gate_state :=
  let nm := c_name c in
  if negb (truthy nm) || startswith nm "_design/" || c_deleted c then st
  else if dhas nm (gated st) then st
  else
    let seq := seq_to_int (c_seq c) in
    let foc := on_focus nm focus_names ECOSYSTEM in
    if exclusive then (if foc then admit_change nm seq PHigh st else skip_change false nm st)
    else
      let wl := on_watchlist nm in
      let brand_new := negb foc && negb wl && negb (known ECOSYSTEM nm i) in
      match gate_decision foc wl brand_new exclusive with
      | Some p => admit_change nm seq p st
      | None => skip_change (NPM_ANOMALY_GATE cfg && negb brand_new) nm st
      end.

End Gate.

Definition gate_page (cfg : NpmConfig) (exclusive : bool) (now : timestamp) (i : ingest_db) (rs : list change) (st : gate_state) : gate_state :=
  fold_left (gate_row cfg exclusive now i (load_focus_names ECOSYSTEM (i_focus i))
    (load_scopes ECOSYSTEM (scopes (i_store i))) (load_watch_names ECOSYSTEM (i_maint i))) rs st.

(** ** The anomaly gate *)

(** [deque.extend] on a bounded deque: the oldest entries fall out. *)
Definition deque_extend {A} (maxlen : nat) (dq xs : list A) : list A :=
  let l := dq ++ xs in List.skipn (List.length l - maxlen) l.

(** The names checked in this poll, and the carry-over afterwards. *)
Definition plan_checks (cfg : NpmConfig) (carried candidates : list string) : list string * list string :=
  let fresh := bfilter (fun n => negb (str_in n carried)) candidates in
  let carry_quota := (NPM_ANOMALY_MAX_CHECKS cfg / 2)%nat in
  let take_carried := List.firstn carry_quota carried in
  let fresh_quota := (NPM_ANOMALY_MAX_CHECKS cfg - List.length take_carried)%nat in
  let take_fresh := List.firstn fresh_quota fresh in
  let deferred := List.skipn (List.length take_carried) carried ++ List.skipn (List.length take_fresh) fresh in
  (take_carried ++ take_fresh, deque_extend (ANOMALY_CARRYOVER_MAX cfg) [] deferred).

Definition check_anomaly (cfg : NpmConfig) (known_bad : list string) (packument : string -> option (list (string * json)))
    (nm : string) : option (string * string * priority) :=
  match packument nm with
  | None | Some [] => None
  | Some pk =>
      let a := Anomaly.Npm.detect_update_anomaly (n_anomaly cfg) pk in
      match (match known_bad with [] => None | _ => Anomaly.Npm.new_known_bad_dep_edge pk known_bad end) with
      | Some (v, _) => Some (nm, v, PHigh)
      | None =>
          match a with
          | Some a => Some (nm, Anomaly.Npm.a_version a, Anomaly.Npm.a_priority a)
          | None => None
          end
      end
  end.

(** ** One poll *)

(** The state the module keeps between polls. *)
Record proc := mkProc { resolve_attempts : list (string * Z); anomaly_carryover : list string }.

(** The outside of one poll. *)
Record outside := mkOutside {
  fetch_changes : nat -> Z -> page;
  current_update_seq : option Z;
  latest : string -> option (string * bool);
  packument : string -> option (list (string * json));
  known_bad : list string;
  completion : list string -> list string;
  set_order : list string -> list string;
  faults : nat -> nat -> nat -> option string;
  world : nat -> ingest_db -> ingest_db;
  clock : timestamp;
}.

Record paged := mkPaged { pg_state : gate_state; pg_max_seq : Z; pg_session : nat }.

(** The page loop: [n] pages are left, [k] is the next session. *)
Fixpoint page_loop (cfg : NpmConfig) (exclusive : bool) (o : outside) (i : ingest_db) (n k : nat) (since max_seq : Z) (st : gate_state) : paged * ingest_db :=
  match n with
  | O => (mkPaged st max_seq k, i)
  | S n' =>
      let pg := fetch_changes o k since in
      match results pg with
      | [] => (mkPaged st max_seq k, i)
      | rs =>
          let last := seq_to_int (default (JInt since) (last_seq pg)) in
          let max_seq := Z.max max_seq last in
          let i := world o k i in
          let st := gate_page cfg exclusive (clock o) i rs st in
          if (List.length rs <? DEFAULT_LIMIT)%nat then (mkPaged st max_seq (S k), i)
          else page_loop cfg exclusive o i n' (S k) last max_seq st
      end
  end.

(** The priority a resolved package is queued at. *)
Definition resolved_priority (p : priority) (version : string) (has_hook : bool) : priority :=
  if bool_decide (p = PNormal) && (has_hook || is_suspicious_version version) then PHigh else p.

Definition resolve_one (o : outside) (st : gate_state) (nm : string) : option (string * string * priority) :=
  match latest o nm with
  | Some (v, hook) => Some (nm, v, resolved_priority (dget_or nm PNormal (gated st)) v hook)
  | None => None
  end.

(** One iteration over the unresolved names. *)
Definition note_unresolved (cfg : NpmConfig) (gs : list (string * Z)) (acc : list (string * Z) * list Z * list string) (nm : string)
    : list (string * Z) * list Z * list string :=
  let '(attempts, blockers, given_up) := acc in
  let n := dget_or nm 0 attempts + 1 in
  let attempts := dset nm n attempts in
  if NPM_RESOLVE_MAX_ATTEMPTS cfg <=? n then (attempts, blockers, given_up ++ [nm])
  else match dget nm gs with
       | Some q => (attempts, blockers ++ [q], given_up)
       | None => (attempts, blockers, given_up)
       end.

Definition drop_stranded (gs : list (string * Z)) (attempts : list (string * Z)) : list (string * Z) :=
  if (RESOLVE_ATTEMPTS_CAP <? List.length attempts)%nat then bfilter (fun kv => dhas kv.1 gs) attempts else attempts.

Definition list_min (x : Z) (l : list Z) : Z := fold_left Z.min l x.

(** [min(min(blocker_seqs) - 1, max_seq) if blocker_seqs else max_seq]. *)
Definition safe_seq (blockers : list Z) (max_seq : Z) : Z :=
  match blockers with [] => max_seq | b :: bs => Z.min (list_min b bs - 1) max_seq end.

Definition pop_all (names : list string) (d : list (string * Z)) : list (string * Z) := fold_left (fun d n => dpop n d) names d.

Inductive poll_result := Polled (enqueued : Z) | PollRaised.

(** The tail of the poll, once the pages are read. *)
Definition finish_poll (cfg : NpmConfig) (o : outside) (cursor : Z) (pg : paged) (i : ingest_db) (p : proc) : poll_result * proc * ingest_db :=
  let st := pg_state pg in
  let candidates := bfilter (fun n => negb (dhas n (gated st))) (anomaly_out st) in
  let '(checks, carry) :=
    if NPM_ANOMALY_GATE cfg && negb (bool_decide (anomaly_out st = []))
    then plan_checks cfg (anomaly_carryover p) (set_order o candidates) else ([], anomaly_carryover p) in
  let anomalies := omap (check_anomaly cfg (known_bad o) (packument o)) (completion o checks) in
  let names := (gated st).*1 in
  let resolved := omap (resolve_one o st) (completion o names) in
  let p := mkProc (resolve_attempts p) carry in
  let k := pg_session pg in
  let i := world o k i in
  match enqueue_batch (g_queue (n_gate cfg)) (faults o 0) (clock o) ECOSYSTEM 0 resolved (i_queue i) with
  | None => (PollRaised, p, i)
  | Some (rows1, q1) =>
      let i := world o (S k) (set_queue q1 i) in
      match enqueue_batch (g_queue (n_gate cfg)) (faults o 1) (clock o) ECOSYSTEM 0 anomalies (i_queue i) with
      | None => (PollRaised, p, i)
      | Some (_, q2) =>
          let i := set_queue q2 i in
          let resolved_names := map (fun x => x.1.1) resolved in
          let unresolved := bfilter (fun n => negb (str_in n resolved_names)) names in
          let '(attempts, blockers, given_up) := fold_left (note_unresolved cfg (gated_seq st)) unresolved (resolve_attempts p, [], []) in
          let attempts := drop_stranded (gated_seq st) (pop_all (resolved_names ++ given_up) attempts) in
          let safe := safe_seq blockers (pg_max_seq pg) in
          let i := world o (S (S k)) i in
          let i := if cursor <? safe then set_cursor ECOSYSTEM safe i else i in
          (Polled (count_true (map pending_row rows1)), mkProc attempts carry, i)
      end
  end.

Definition no_gate : gate_state := mkGS [] [] [] 0.

Definition poll_changes_once (cfg : NpmConfig) (exclusive : bool) (o : outside) (p : proc) (i : ingest_db) : poll_result * proc * ingest_db :=
  let i := world o 0 i in
  match get_cursor ECOSYSTEM i with
  | None =>
      match current_update_seq o with
      | None => (Polled 0, p, i)
      | Some c => (Polled 0, p, set_cursor ECOSYSTEM c (world o 1 i))
      end
  | Some cursor =>
      let '(pg, i) := page_loop cfg exclusive o i MAX_PAGES_PER_POLL 1 cursor cursor no_gate in
      finish_poll cfg o cursor pg i p
  end.

(** ** Lemmas *)

(** The gate keeps its two dictionaries in step, and every recorded row lies ahead of [c]. *)
Definition gate_inv (c : Z) (st : gate_state) : Prop :=
  NoDup (gated st).*1 /\ (forall nm, nm ∈ (gated st).*1 <-> nm ∈ (gated_seq st).*1) /\
  forall nm q, dget nm (gated_seq st) = Some q -> c < q.

Lemma admit_inv c nm seq p st : c < seq -> gate_inv c st -> gate_inv c (admit_change nm seq p st).
Proof.
  intros Hc (Hnd & Hk & Hq). split_and!; cbn.
  - by apply dset_NoDup.
  - intros m. rewrite !dset_keys. naive_solver.
  - intros m q. rewrite dget_dset. case_decide; [intros [= <-]; lia|apply Hq].
Qed.

Lemma gate_row_inv cfg ex now i f w m c st ch : c < seq_to_int (c_seq ch) -> gate_inv c st -> gate_inv c (gate_row cfg ex now i f w m st ch).
Proof.
  intros Hc Hi. unfold gate_row. destruct (_ || _); [done|]. destruct (dhas _ _); [done|].
  destruct ex; [destruct (on_focus _ _ _); [by apply admit_inv|done]|].
  destruct (gate_decision _ _ _ _); [by apply admit_inv|done].
Qed.

Lemma gate_page_inv cfg ex now i c rs st : (forall ch, ch ∈ rs -> c < seq_to_int (c_seq ch)) -> gate_inv c st -> gate_inv c (gate_page cfg ex now i rs st).
Proof.
  unfold gate_page. revert st. induction rs as [|ch rs IH]; intros st Hc Hi; [done|]. cbn [fold_left]. apply IH; [set_solver|].
  apply gate_row_inv; [set_solver|done].
Qed.

(** What the theorems ask of the outside of a poll. *)
Record sane (o : outside) : Prop := {
  sane_completion l : completion o l ≡ₚ l;
  sane_cursor k i : get_cursor ECOSYSTEM (world o k i) = get_cursor ECOSYSTEM i;
  sane_wf k i : table_wf (i_queue i) -> table_wf (i_queue (world o k i));
  sane_queued k i key : queued key (i_queue i) -> queued key (i_queue (world o k i));
}.

Lemma page_loop_inv cfg ex o c i n k since max_seq st : sane o ->
  (forall k s ch, ch ∈ results (fetch_changes o k s) -> c < seq_to_int (c_seq ch)) ->
  gate_inv c st -> table_wf (i_queue i) ->
  let r := page_loop cfg ex o i n k since max_seq st in
  gate_inv c (pg_state r.1) /\ table_wf (i_queue r.2) /\ get_cursor ECOSYSTEM r.2 = get_cursor ECOSYSTEM i /\ max_seq <= pg_max_seq r.1.
Proof.
  intros Ho Hf. revert i k since max_seq st. induction n as [|n IH]; intros i k since max_seq st Hi Hwf; cbn [page_loop]; [done|].
  destruct (results (fetch_changes o k since)) as [|ch rs] eqn:E; [done|]. rewrite <- E.
  assert (gate_inv c (gate_page cfg ex (clock o) (world o k i) (results (fetch_changes o k since)) st)) as Hi' by (apply gate_page_inv; eauto).
  pose proof (sane_wf o Ho k i Hwf) as Hwf'. destruct (_ <? _)%nat.
  - cbn [fst snd pg_state pg_max_seq]. rewrite sane_cursor by done. split_and!; try done. lia.
  - destruct (IH (world o k i) (S k) (seq_to_int (default (JInt since) (last_seq (fetch_changes o k since))))
      (Z.max max_seq (seq_to_int (default (JInt since) (last_seq (fetch_changes o k since))))) _ Hi' Hwf') as (H1 & H2 & H3 & H4).
    split_and!; try done; [|lia]. rewrite H3. by apply sane_cursor.
Qed.

Section Unresolved.
Variables (cfg : NpmConfig) (gs : list (string * Z)).

Definition tries (att : list (string * Z)) (nm : string) : Z := dget_or nm 0 att + 1.

Definition gives_up (att : list (string * Z)) (nm : string) : bool := NPM_RESOLVE_MAX_ATTEMPTS cfg <=? tries att nm.
Definition blocker_of (att : list (string * Z)) (nm : string) : list Z :=
  if gives_up att nm then [] else option_list (dget nm gs).
Definition count_all (att : list (string * Z)) (us : list string) : list (string * Z) :=
  fold_left (fun d n => dset n (dget_or n 0 d + 1) d) us att.

Lemma tries_ne att u nm n : nm <> u -> tries (dset u n att) nm = tries att nm.
Proof. intros Hne. unfold tries, dget_or. by rewrite dget_dset_ne. Qed.

Lemma note_fold us att bl gu : NoDup us ->
  fold_left (note_unresolved cfg gs) us (att, bl, gu) =
  (count_all att us, bl ++ flat_map (blocker_of att) us, gu ++ bfilter (gives_up att) us).
Proof.
  revert att bl gu. induction us as [|u us IH]; intros att bl gu Hnd; cbn [fold_left flat_map List.filter]; [by rewrite !app_nil_r|].
  apply NoDup_cons in Hnd as [Hu Hnd].
  assert (flat_map (blocker_of (dset u (tries att u) att)) us = flat_map (blocker_of att) us /\
    bfilter (gives_up (dset u (tries att u) att)) us = bfilter (gives_up att) us) as [Hb Hg].
  { assert (forall nm, nm ∈ us -> gives_up (dset u (tries att u) att) nm = gives_up att nm) as Hg.
    { intros nm Hnm. unfold gives_up. rewrite tries_ne; [done|]. by intros ->. }
    split; [|by apply bfilter_ext]. rewrite !flat_map_concat_map. f_equal. apply map_ext_in. intros nm Hnm%list_elem_of_In.
    unfold blocker_of. by rewrite Hg. }
  unfold note_unresolved at 2. fold (tries att u). fold (gives_up att u). unfold blocker_of at 1.
  destruct (gives_up att u); [|destruct (dget u gs)]; rewrite IH, Hb, Hg by done; cbn [option_list app]; by rewrite <- ?app_assoc.
Qed.

Lemma count_all_get us att nm : NoDup us -> dget nm (count_all att us) = if bool_decide (nm ∈ us) then Some (tries att nm) else dget nm att.
Proof.
  revert att. induction us as [|u us IH]; intros att Hnd; [done|]. apply NoDup_cons in Hnd as [Hu Hnd]. cbn [count_all fold_left].
  fold (count_all (dset u (dget_or u 0 att + 1) att) us). rewrite IH by done. fold (tries att u). case_bool_decide as H.
  - rewrite bool_decide_true by set_solver. rewrite tries_ne; [done|]. by intros ->.
  - rewrite dget_dset. case_decide; [subst; by rewrite bool_decide_true by set_solver|by rewrite bool_decide_false by set_solver].
Qed.

End Unresolved.

Lemma dget_pop_all names nm (d : list (string * Z)) : dget nm (pop_all names d) = if str_in nm names then None else dget nm d.
Proof.
  unfold pop_all. revert d. induction names as [|n names IH]; intros d; [done|]. cbn [fold_left]. rewrite IH, dget_dpop.
  unfold str_in. case_bool_decide as H.
  - by rewrite bool_decide_true by set_solver.
  - destruct (String.eqb_spec nm n) as [->|Hne]; [by rewrite bool_decide_true by set_solver|].
    by rewrite bool_decide_false by set_solver.
Qed.

Lemma dget_bfilter_key {V} (f : string -> bool) nm (d : list (string * V)) : f nm = true -> dget nm (bfilter (fun kv => f kv.1) d) = dget nm d.
Proof.
  intros Hf. induction d as [|[k v] d IH]; [done|]. cbn [List.filter fst dget]. destruct (decide (nm = k)) as [<-|Hne].
  - rewrite Hf. cbn [dget]. by rewrite decide_True.
  - destruct (f k); [cbn [dget]; by rewrite decide_False|done].
Qed.

Lemma drop_stranded_get gs att nm : dhas nm gs = true -> dget nm (drop_stranded gs att) = dget nm att.
Proof. intros H. unfold drop_stranded. destruct (_ <? _)%nat; [|done]. by apply (dget_bfilter_key (fun k => dhas k gs)). Qed.

Lemma list_min_le x l : list_min x l <= x /\ forall y, y ∈ l -> list_min x l <= y.
Proof.
  unfold list_min. revert x. induction l as [|y l IH]; intros x; [split; [cbn; lia|set_solver]|]. cbn [fold_left].
  destruct (IH (Z.min x y)) as [H1 H2]. split; [lia|]. intros z [->|Hz]%elem_of_cons; [lia|by apply H2].
Qed.

Lemma safe_seq_lt bl m q : q ∈ bl -> safe_seq bl m < q.
Proof.
  destruct bl as [|b bl]; [set_solver|]. cbn [safe_seq]. destruct (list_min_le b bl) as [H1 H2].
  intros [->|Hq]%elem_of_cons; [lia|]. specialize (H2 q Hq). lia.
Qed.

Lemma safe_seq_le bl m : safe_seq bl m <= m.
Proof. destruct bl; cbn [safe_seq]; lia. Qed.

Lemma resolve_one_name o st nm v p nm' : resolve_one o st nm = Some (nm', v, p) -> nm' = nm /\ exists hook, latest o nm = Some (v, hook).
Proof. unfold resolve_one. destruct (latest o nm) as [[v0 hook]|]; [|done]. intros [= <- <- <-]. eauto. Qed.

Lemma resolved_names_elem o st names nm : sane o ->
  nm ∈ map (fun x => x.1.1) (omap (resolve_one o st) (completion o names)) <-> nm ∈ names /\ is_Some (latest o nm).
Proof.
  intros Ho. rewrite list_elem_of_In, in_map_iff. split.
  - intros ([[n v] p] & <- & (n' & Hn & Hr)%list_elem_of_In%list_elem_of_omap). apply resolve_one_name in Hr as [-> (hook & Hl)].
    rewrite sane_completion in Hn by done. cbn. split; [done|]. by rewrite Hl.
  - intros [Hn [[v hook] Hl]]. eexists (nm, v, _). split; [done|]. apply list_elem_of_In, list_elem_of_omap. exists nm.
    rewrite sane_completion by done. split; [done|]. unfold resolve_one. by rewrite Hl.
Qed.

Lemma resolved_item o st names nm v hook : sane o -> nm ∈ names -> latest o nm = Some (v, hook) ->
  exists p, (nm, v, p) ∈ omap (resolve_one o st) (completion o names).
Proof.
  intros Ho Hn Hl. eexists. apply list_elem_of_omap. exists nm. rewrite sane_completion by done. split; [done|].
  unfold resolve_one. by rewrite Hl.
Qed.

(** The packages a poll enqueues, in order. *)
Definition batch_of (o : outside) (st : gate_state) : list (string * string * priority) :=
  omap (resolve_one o st) (completion o (gated st).*1).

(** What a poll makes of one gated name. *)
Definition settled (cfg : NpmConfig) (o : outside) (st : gate_state) (p p' : proc) (i' : ingest_db) (nm : string) (q cursor' : Z) : Prop :=
  match latest o nm with
  | Some (v, _) => queued (ECOSYSTEM, nm, v) (i_queue i') \/
      exists j pr, batch_of o st !! j = Some (nm, v, pr) /\ gave_up (g_queue (n_gate cfg)) (faults o 0 j)
  | None =>
      let n := tries (resolve_attempts p) nm in
      if NPM_RESOLVE_MAX_ATTEMPTS cfg <=? n then dget nm (resolve_attempts p') = None
      else cursor' < q /\ dget nm (resolve_attempts p') = Some n
  end.

Lemma finish_settles cfg o cursor pg i p n p' i' :
  sane o -> 0 <= ENQUEUE_DEADLOCK_RETRIES (g_queue (n_gate cfg)) ->
  gate_inv cursor (pg_state pg) -> table_wf (i_queue i) -> get_cursor ECOSYSTEM i = Some cursor ->
  finish_poll cfg o cursor pg i p = (Polled n, p', i') ->
  exists cursor', get_cursor ECOSYSTEM i' = Some cursor' /\ cursor <= cursor' /\ cursor' <= Z.max cursor (pg_max_seq pg) /\
    forall nm q, dget nm (gated_seq (pg_state pg)) = Some q -> settled cfg o (pg_state pg) p p' i' nm q cursor'.
Proof.
  intros Ho Hret (Hnd & Hk & Hq) Hwf Hc. unfold finish_poll.
  destruct (if _ && _ then _ else _) as [checks carry]. cbn [resolve_attempts].
  set (st := pg_state pg) in *. set (resolved := omap (resolve_one o st) _). set (k := pg_session pg).
  destruct (enqueue_batch _ (faults o 0) _ _ 0 resolved _) as [[rows1 q1]|] eqn:E1; [|done].
  set (anomalies := omap _ _). destruct (enqueue_batch _ (faults o 1) _ _ 0 anomalies _) as [[rows2 q2]|] eqn:E2; [|done].
  set (names1 := map _ resolved). set (us := bfilter _ (gated st).*1).
  assert (NoDup us) as Hus by (apply NoDup_bfilter, Hnd).
  rewrite (note_fold cfg (gated_seq st) us _ [] [] Hus). cbn [app]. intros [= _ <- <-].
  set (bl := flat_map _ us). set (att0 := resolve_attempts p) in *.
  destruct (batch_all_queued _ _ _ _ _ _ _ _ _ Hret (sane_wf o Ho k i Hwf) E1) as (Hwf1 & _ & Hall).
  set (i3 := world o (S (S k)) _).
  assert (forall key, queued key q1 -> queued key (i_queue (if cursor <? safe_seq bl (pg_max_seq pg) then set_cursor ECOSYSTEM (safe_seq bl (pg_max_seq pg)) i3 else i3))) as Hkeep.
  { intros key Hkey. assert (queued key (i_queue i3)) as H3; [|by destruct (_ <? _)]. apply sane_queued; [done|].
    change (queued key q2).
    eapply batch_keeps; [|apply (sane_queued o Ho (S k) (set_queue q1 (world o k i))); exact Hkey|exact E2].
    by apply (sane_wf o Ho (S k) (set_queue q1 (world o k i))). }
  exists (if cursor <? safe_seq bl (pg_max_seq pg) then safe_seq bl (pg_max_seq pg) else cursor).
  pose proof (safe_seq_le bl (pg_max_seq pg)) as Hsafe. split_and!.
  - destruct (_ <? _); [apply get_set_cursor|]. unfold i3. rewrite sane_cursor, get_cursor_queue, sane_cursor, get_cursor_queue, sane_cursor by done. done.
  - destruct (Z.ltb_spec cursor (safe_seq bl (pg_max_seq pg))); lia.
  - destruct (Z.ltb_spec cursor (safe_seq bl (pg_max_seq pg))); lia.
  - intros nm q Hnm. unfold settled. cbn [resolve_attempts]. fold att0.
    assert (nm ∈ (gated st).*1) as Hin by (apply Hk; apply dget_Some_in in Hnm; apply list_elem_of_fmap; by exists (nm, q)).
    destruct (latest o nm) as [[v hook]|] eqn:El.
    { destruct (resolved_item o st (gated st).*1 nm v hook Ho Hin El) as [pr Hitem].
      apply list_elem_of_lookup in Hitem as [j Hj]. destruct (Hall j nm v pr Hj) as [?|?]; [left; by apply Hkeep|right; eauto]. }
    assert (nm ∉ names1) as Hnr by (unfold names1, resolved; rewrite resolved_names_elem, El by done; intros [_ [? ?]]; done).
    assert (nm ∈ us) as Hu by (apply bfilter_in; split; [done|]; apply negb_true_iff; destruct (str_in nm names1) eqn:E; [apply str_in_true in E; done|done]).
    assert (dhas nm (gated_seq st) = true) as Hgs by (unfold dhas; rewrite Hnm; by apply bool_decide_true).
    rewrite drop_stranded_get, dget_pop_all by done. fold (gives_up cfg att0 nm).
    assert (str_in nm (names1 ++ bfilter (gives_up cfg att0) us) = gives_up cfg att0 nm) as ->.
    { apply Bool.eq_true_iff_eq. rewrite str_in_true, elem_of_app, bfilter_in. naive_solver. }
    destruct (gives_up cfg att0 nm) eqn:Eg; [done|]. rewrite count_all_get, bool_decide_true by done. split; [|done].
    assert (q ∈ bl) as Hbl.
    { unfold bl. apply list_elem_of_In, in_flat_map. exists nm. split; [by apply list_elem_of_In|]. unfold blocker_of. rewrite Eg, Hnm. by left. }
    pose proof (safe_seq_lt bl (pg_max_seq pg) q Hbl). specialize (Hq nm q Hnm).
    destruct (Z.ltb_spec cursor (safe_seq bl (pg_max_seq pg))); lia.
Qed.

Lemma skipn_firstn_length {A} n (l : list A) : List.skipn (List.length (List.firstn n l)) l = List.skipn n l.
Proof. rewrite length_take. destruct (decide (n <= List.length l)%nat); [by rewrite Nat.min_l|]. rewrite Nat.min_r, !drop_ge by lia. done. Qed.

(** The pages one poll reads, from the stored cursor. *)
Definition pages_of (cfg : NpmConfig) (exclusive : bool) (o : outside) (i : ingest_db) (cursor : Z) : paged :=
  (page_loop cfg exclusive o (world o 0 i) MAX_PAGES_PER_POLL 1 cursor cursor no_gate).1.

(** ** Properties *)

Lemma finish_raised cfg o cursor pg i p p' i' :
  sane o -> finish_poll cfg o cursor pg i p = (PollRaised, p', i') -> get_cursor ECOSYSTEM i' = get_cursor ECOSYSTEM i.
Proof.
  intros Ho. unfold finish_poll. destruct (if _ && _ then _ else _) as [checks carry].
  destruct (enqueue_batch _ (faults o 0) _ _ 0 _ _) as [[rows1 q1]|].
  - destruct (enqueue_batch _ (faults o 1) _ _ 0 _ _) as [[rows2 q2]|]; [by destruct (fold_left _ _ _) as [[]]|].
    intros [= _ <-]. by rewrite sane_cursor, get_cursor_queue, sane_cursor.
  - intros [= _ <-]. by apply sane_cursor.
Qed.

(** C18. No gated package is lost silently behind the forward-only cursor.  Take a poll of a feed
    whose rows lie ahead of the cursor, whatever the registry answers and in whatever order, and
    whichever database errors the enqueues meet; meanwhile other sessions leave the cursor alone,
    keep row ids unique and remove nothing that is queued ([sane]).  If the poll raises, the cursor stays.
    Otherwise the cursor has not moved back nor past the last page, and every gated name either
    was resolved and is queued under that version; or was resolved and its enqueue gave up, after
    one deadlock more than are retried or on a lock timeout, which is logged; or has used up its
    attempts and its counter is reset; or its counter went up by one and the cursor is held
    before its row, so the next poll sees it again. *)
Theorem npm_no_silent_drop cfg exclusive o p i res p' i' cursor :
  sane o -> 0 <= ENQUEUE_DEADLOCK_RETRIES (g_queue (n_gate cfg)) ->
  (forall k s ch, ch ∈ results (fetch_changes o k s) -> cursor < seq_to_int (c_seq ch)) ->
  table_wf (i_queue i) -> get_cursor ECOSYSTEM i = Some cursor ->
  poll_changes_once cfg exclusive o p i = (res, p', i') ->
  let pg := pages_of cfg exclusive o i cursor in
  match res with
  | PollRaised => get_cursor ECOSYSTEM i' = Some cursor
  | Polled _ =>
      exists cursor', get_cursor ECOSYSTEM i' = Some cursor' /\ cursor <= cursor' <= Z.max cursor (pg_max_seq pg) /\
        forall nm q, dget nm (gated_seq (pg_state pg)) = Some q ->
          match latest o nm with
          | Some (v, _) => queued (ECOSYSTEM, nm, v) (i_queue i') \/
              exists j pr, batch_of o (pg_state pg) !! j = Some (nm, v, pr) /\ gave_up (g_queue (n_gate cfg)) (faults o 0 j)
          | None =>
              let tried := dget_or nm 0 (resolve_attempts p) + 1 in
              if NPM_RESOLVE_MAX_ATTEMPTS cfg <=? tried then dget nm (resolve_attempts p') = None
              else cursor' < q /\ dget nm (resolve_attempts p') = Some tried
          end
  end.
Proof.
  intros Ho Hret Hfeed Hwf Hc. unfold poll_changes_once, pages_of. rewrite (sane_cursor o Ho), Hc.
  pose proof (sane_wf o Ho 0 i Hwf) as Hwf0.
  assert (gate_inv cursor no_gate) as Hg0 by (split_and!; [constructor|done|done]).
  destruct (page_loop_inv cfg exclusive o cursor (world o 0 i) MAX_PAGES_PER_POLL 1 cursor cursor no_gate Ho Hfeed Hg0 Hwf0) as (H1 & H2 & H3 & _).
  destruct (page_loop _ _ _ _ _ _ _ _ _) as [pg i1]. cbn [fst snd] in *. rewrite sane_cursor, Hc in H3 by done. intros E.
  destruct res as [n|]; [|apply finish_raised in E; [congruence|done]].
  destruct (finish_settles _ _ _ _ _ _ _ _ _ Ho Hret H1 H2 H3 E) as (c' & Hc' & Hle & Hmax & Hs).
  exists c'. split; [done|]. split; [lia|]. exact Hs.
Qed.

Definition ex_feed (since : Z) : page :=
  mkPage (if since <? 110 then [mkChange "ghost" (JInt 105) false; mkChange "left-pad" (JStr "107-abc") false] else []) (Some (JInt 110)).
Definition ex_outside (flt : option string) : outside :=
  mkOutside (fun _ => ex_feed) None (fun n => if String.eqb n "left-pad" then Some ("99.99.99"%string, false) else None)
    (fun _ => None) [] (fun l => l) (fun l => l) (fun _ _ _ => flt) (fun _ i => i) 1.
Definition ex_ingest : ingest_db := mkIngest empty_db empty_table empty_table [("npm"%string, 100)].
Definition ex_poll (flt : option string) := poll_changes_once default_npm false (ex_outside flt) (mkProc [] []) ex_ingest.

Lemma ex_outside_sane flt : sane (ex_outside flt).
Proof. by constructor. Qed.

Lemma npm_no_silent_drop_witness :
  get_cursor ECOSYSTEM (ex_poll None).2 = Some 104 /\ queued ("npm", "left-pad", "99.99.99")%string (i_queue (ex_poll None).2).
Proof.
  split; [vm_compute; reflexivity|].
  assert (ex_poll None = (Polled 1, (ex_poll None).1.2, (ex_poll None).2)) as E by (vm_compute; reflexivity).
  destruct (npm_no_silent_drop default_npm false (ex_outside None) (mkProc [] []) ex_ingest (Polled 1) (ex_poll None).1.2 (ex_poll None).2 100
    (ex_outside_sane None)) as (c' & _ & _ & H); try done.
  - intros k s ch. cbn. destruct (s <? 110); rewrite ?elem_of_cons, ?elem_of_nil; [|done]. intros [->|[->|[]]]; vm_compute; reflexivity.
  - split; [constructor|constructor].
  - specialize (H "left-pad"%string 107). destruct H as [H|(j & pr & _ & (a & msg & Hf & _))]; [vm_compute; reflexivity|exact H|discriminate].
Defined.

(** The anomaly gate drops nothing it can hold: a poll checks at most the cap, at
    least half of it (as far as it reaches) on the oldest carried names, and what is
    neither checked now nor carried over is, when the backlog exceeds the bounded
    deque, exactly the oldest of the deferred names; without overflow every candidate
    is either checked or carried to the next poll, and none twice. *)
Theorem anomaly_carryover_complete cfg carried candidates checks carry :
  plan_checks cfg carried candidates = (checks, carry) ->
  let fresh := bfilter (fun n => negb (str_in n carried)) candidates in
  let deferred := List.skipn (NPM_ANOMALY_MAX_CHECKS cfg / 2) carried ++
                  List.skipn (NPM_ANOMALY_MAX_CHECKS cfg - List.length (List.firstn (NPM_ANOMALY_MAX_CHECKS cfg / 2) carried)) fresh in
  (List.length checks <= NPM_ANOMALY_MAX_CHECKS cfg)%nat /\
  List.firstn (NPM_ANOMALY_MAX_CHECKS cfg / 2) carried `prefix_of` checks /\
  carry `suffix_of` deferred /\ List.length carry = Nat.min (List.length deferred) (ANOMALY_CARRYOVER_MAX cfg) /\
  checks ++ deferred ≡ₚ carried ++ fresh /\
  (NoDup carried -> NoDup candidates -> NoDup (carried ++ fresh)).
Proof.
  unfold plan_checks, deque_extend. set (fresh := bfilter _ candidates). set (m := NPM_ANOMALY_MAX_CHECKS cfg).
  set (tc := List.firstn (m / 2) carried). set (fq := (m - List.length tc)%nat). cbn [app]. intros [= <- <-]. cbv zeta.
  assert (List.skipn (List.length tc) carried = List.skipn (m / 2) carried) as -> by apply skipn_firstn_length.
  rewrite !skipn_firstn_length.
  set (deferred := List.skipn (m / 2) carried ++ List.skipn fq fresh).
  assert (List.length tc <= m)%nat as Htc.
  { unfold tc. rewrite length_take. pose proof (Nat.Div0.div_le_mono m (m * 2) 2 ltac:(lia)). rewrite Nat.div_mul in H by lia. lia. }
  split_and!.
  - rewrite length_app, length_take. unfold fq. lia.
  - by apply prefix_app_r.
  - exists (List.firstn (List.length deferred - ANOMALY_CARRYOVER_MAX cfg) deferred). symmetry. apply take_drop.
  - rewrite length_drop. lia.
  - unfold deferred. rewrite <- (take_drop (m / 2) carried) at 2. rewrite <- (take_drop fq fresh) at 3. fold tc. solve_Permutation.
  - intros Hc Hd. apply NoDup_app. split; [done|]. split; [|by apply NoDup_bfilter]. intros x Hx Hf.
    apply bfilter_in in Hf as [_ Hf]. by rewrite (proj2 (str_in_true x carried) Hx) in Hf.
Qed.

Lemma anomaly_carryover_complete_witness :
  let cfg := mkNpm default_gate Anomaly.Npm.default_hooks true 2 3 5 in
  plan_checks cfg ["a"; "b"] ["b"; "c"; "d"; "e"]%string = (["a"; "c"]%string, ["b"; "d"; "e"]%string) /\
  ["a"; "c"]%string ++ ["b"; "d"; "e"]%string ≡ₚ ["a"; "b"]%string ++ ["c"; "d"; "e"]%string.
Proof.
  set (cfg := mkNpm _ _ _ _ _ _). cbv zeta. split; [vm_compute; reflexivity|].
  exact (proj1 (proj2 (proj2 (proj2 (proj2 (anomaly_carryover_complete cfg ["a"; "b"] ["b"; "c"; "d"; "e"]%string _ _ eq_refl)))))).
Defined.

(** A resolved package whose enqueue gives up on a deadlock is not held back: the
    cursor passes its row although it was never queued. *)
Example npm_deadlock_drops :
  get_cursor ECOSYSTEM (poll_changes_once default_npm false
    (mkOutside (fun _ _ => mkPage [mkChange "left-pad" (JInt 107) false] (Some (JInt 110))) None
       (fun _ => Some ("1.0.0"%string, false)) (fun _ => None) [] (fun l => l) (fun l => l)
       (fun _ _ _ => Some "deadlock detected"%string) (fun _ i => i) 1) (mkProc [] []) ex_ingest).2 = Some 110 /\
  rows (i_queue (poll_changes_once default_npm false
    (mkOutside (fun _ _ => mkPage [mkChange "left-pad" (JInt 107) false] (Some (JInt 110))) None
       (fun _ => Some ("1.0.0"%string, false)) (fun _ => None) [] (fun l => l) (fun l => l)
       (fun _ _ _ => Some "deadlock detected"%string) (fun _ i => i) 1) (mkProc [] []) ex_ingest).2) = [].
Proof. vm_compute. done. Qed.
