(* ===== verification/GoCursor.v ===== *)
(** * The Go module poller ([gomod/ingest/cursor.py])

    The timestamp cursor over the module index: one poll with its gate, the
    hold-back of brand-new modules that could not be queued and the guard
    against a full page of one timestamp; and the backfill, which has neither.
    The index, the datetime conversions and the database errors are arguments. *)
From S2P Require Import Prelude PyStr Sql Findings Jobs ScanQueue Watch Scope Store Text Focus MaintWatch Ingest.
From stdpp Require Import pretty.
From Stdlib Require Import Ascii String.

Open Scope list_scope.
Open Scope Z_scope.

Definition ECOSYSTEM : string := "gomod".
Definition DEFAULT_LIMIT : nat := 2000.

(** [\d{14}-[0-9a-f]{12}(\+incompatible)?$]; the dollar also matches before a final line feed. *)
Definition is_hex_lower (c : ascii) : bool := is_digit c || ((97 <=? code c) && (code c <=? 102)).
Definition drop_suffix (sfx s : string) : string := if endswith s sfx then str_take (len s - len sfx) s else s.
Definition pseudo_tail (s : string) : bool :=
  let s := drop_suffix "+incompatible" s in
  let t := str_drop (len s - 27) s in
  (27 <=? len s)%nat && str_forall is_digit (str_take 14 t) &&
  String.eqb (str_take 1 (str_drop 14 t)) "-" && str_forall is_hex_lower (str_drop 15 t).
Definition is_pseudo_version (version : string) : bool :=
  pseudo_tail version || pseudo_tail (drop_suffix (String LF "") version).

(** An entry of the index; absent fields are empty. *)
Record entry := mkGoEntry { Path : string; Version_ : string; Timestamp : string }.
Definition complete (e : entry) : bool := truthy (Path e) && truthy (Version_ e) && truthy (Timestamp e).

(** The outside of a poll: [fetch k since] is the k-th page ([] also when the
    request failed), [faults k j] the errors of the j-th enqueue of page [k]. *)
Record outside := mkGoOutside {
  fetch_page : nat -> string -> list entry;
  ts_to_cursor : string -> option Z;
  cursor_to_since : Z -> string;
  page_faults : nat -> nat -> nat -> option string;
  clock : timestamp;
}.

Record poll_state := mkPoll {
  enqueued : Z;
  enqueued_new : Z;
  skipped_pseudo : Z;
  skipped_gate : Z;
  max_cursor : Z;
  held_cursor : option Z;
}.
Definition set_max n st := mkPoll (enqueued st) (enqueued_new st) (skipped_pseudo st) (skipped_gate st) n (held_cursor st).
Definition set_held h st := mkPoll (enqueued st) (enqueued_new st) (skipped_pseudo st) (skipped_gate st) (max_cursor st) h.
Definition note_pseudo st := mkPoll (enqueued st) (enqueued_new st) (skipped_pseudo st + 1) (skipped_gate st) (max_cursor st) (held_cursor st).
Definition note_skip st := mkPoll (enqueued st) (enqueued_new st) (skipped_pseudo st) (skipped_gate st + 1) (max_cursor st) (held_cursor st).
Definition note_enq (isnew : bool) st :=
  mkPoll (enqueued st + 1) (enqueued_new st + Z.b2z isnew) (skipped_pseudo st) (skipped_gate st) (max_cursor st) (held_cursor st).

(** [held_cursor is None or entry_cursor < held_cursor]. *)
Definition hold (c : Z) (h : option Z) : option Z :=
  match h with None => Some c | Some h => if c <? h then Some c else Some h end.

Section Gate.
Variables (g : GateConfig) (o : outside) (scan_pseudo exclusive : bool) (k : nat).
Variables (focus_names watch_scopes : list string).

Definition on_watchlist (nm : string) (i : ingest_db) : bool :=
  bool_decide (is_Some (is_watchlist_ci ECOSYSTEM nm i)) || scope_watched g ECOSYSTEM nm watch_scopes i.

(** What the gate decides on an entry with a readable timestamp. *)
Inductive gate_class := SkipPseudo | SkipGate | Watched | BrandNew.
Definition classify (e : entry) (i : ingest_db) : gate_class :=
  if negb scan_pseudo && is_pseudo_version (Version_ e) then SkipPseudo
  else
    let foc := on_focus (Path e) focus_names ECOSYSTEM in
    if exclusive then (if foc then Watched else SkipGate)
    else if foc || on_watchlist (Path e) i then Watched
    else if known ECOSYSTEM (Path e) i then SkipGate else BrandNew.

(** One entry; [j] counts the enqueue calls of the page. [None]: the call raised. *)
Definition go_entry (e : entry) (acc : nat * poll_state * ingest_db) : option (nat * poll_state * ingest_db) :=
  let '(j, st, i) := acc in
  if negb (complete e) then Some acc
  else
    match ts_to_cursor o (Timestamp e) with
    | None => Some acc
    | Some c =>
        let st := if max_cursor st <? c then set_max c st else st in
        let call p := enqueue (g_queue g) quiet (page_faults o k j) (clock o) ECOSYSTEM (Path e) (Version_ e) p false (i_queue i) in
        match classify e i with
        | SkipPseudo => Some (j, note_pseudo st, i)
        | SkipGate => Some (j, note_skip st, i)
        | Watched =>
            match call PHigh with
            | (Raised _, _) => None
            | (Returned r, q) => Some (S j, if r then note_enq false st else st, set_queue q i)
            end
        | BrandNew =>
            match call PNormal with
            | (Raised _, _) => None
            | (Returned r, q) => Some (S j, if r then note_enq true st else set_held (hold c (held_cursor st)) st, set_queue q i)
            end
        end
    end.

Fixpoint go_entries (es : list entry) (acc : nat * poll_state * ingest_db) : option (nat * poll_state * ingest_db) :=
  match es with
  | [] => Some acc
  | e :: es' => match go_entry e acc with Some acc' => go_entries es' acc' | None => None end
  end.

End Gate.

Definition go_page (g : GateConfig) (o : outside) (scan_pseudo exclusive : bool) (k : nat) (es : list entry)
    (st : poll_state) (i : ingest_db) : option (poll_state * ingest_db) :=
  match go_entries g o scan_pseudo exclusive k (load_focus_names ECOSYSTEM (i_focus i)) (load_scopes ECOSYSTEM (scopes (i_store i))) es (0%nat, st, i) with
  | Some (_, st', i') => Some (st', i')
  | None => None
  end.

(** The [while True] loop over pages, with fuel. A page that raises is rolled back. *)
Inductive loop_end := Finished (st : poll_state) | LoopRaised | OutOfFuel.
Fixpoint page_loop (g : GateConfig) (o : outside) (scan_pseudo exclusive : bool) (fuel k : nat) (since : string)
    (st : poll_state) (i : ingest_db) : loop_end * ingest_db :=
  match fuel with
  | O => (OutOfFuel, i)
  | S fuel' =>
      match fetch_page o k since with
      | [] => (Finished st, i)
      | es =>
          match go_page g o scan_pseudo exclusive k es st i with
          | None => (LoopRaised, i)
          | Some (st, i) =>
              if (List.length es <? DEFAULT_LIMIT)%nat then (Finished st, i)
              else
                let next := cursor_to_since o (max_cursor st) in
                if String.eqb next since then
                  let st := set_max (max_cursor st + 1) st in
                  page_loop g o scan_pseudo exclusive fuel' (S k) (cursor_to_since o (max_cursor st)) st i
                else page_loop g o scan_pseudo exclusive fuel' (S k) next st i
          end
      end
  end.

(** [get_last_cursor]: bootstraps to the present. *)
Definition get_last_cursor (now_us : Z) (i : ingest_db) : Z * ingest_db :=
  match get_cursor ECOSYSTEM i with
  | Some c => (c, i)
  | None => (now_us, set_cursor ECOSYSTEM now_us i)
  end.

Definition final_cursor (st : poll_state) : Z :=
  match held_cursor st with Some h => Z.min (max_cursor st) (h - 1) | None => max_cursor st end.

Definition start_state (cursor : Z) : poll_state := mkPoll 0 0 0 0 cursor None.

Inductive poll_result := Polled (enq : Z) | PollRaised | Diverged.

Definition poll_index_once (g : GateConfig) (o : outside) (scan_pseudo exclusive : bool) (now_us : Z) (fuel : nat) (i : ingest_db)
    : poll_result * ingest_db :=
  let '(cursor, i) := get_last_cursor now_us i in
  match page_loop g o scan_pseudo exclusive fuel 0 (cursor_to_since o cursor) (start_state cursor) i with
  | (Finished st, i) =>
      (Polled (enqueued st), if cursor <? final_cursor st then set_cursor ECOSYSTEM (final_cursor st) i else i)
  | (LoopRaised, i) => (PollRaised, i)
  | (OutOfFuel, i) => (Diverged, i)
  end.

(** ** The backfill, [pull_since_beginning] *)

Section Backfill.
Variables (g : GateConfig) (o : outside) (scan_pseudo : bool) (k : nat) (watch_scopes : list string).

(** An unreadable timestamp raises here. *)
Definition fill_entry (e : entry) (acc : nat * Z * Z * ingest_db) : option (nat * Z * Z * ingest_db) :=
  let '(j, total, mx, i) := acc in
  if negb (complete e) then Some acc
  else
    match ts_to_cursor o (Timestamp e) with
    | None => None
    | Some c =>
        let mx := Z.max mx c in
        let call p := enqueue (g_queue g) quiet (page_faults o k j) (clock o) ECOSYSTEM (Path e) (Version_ e) p false (i_queue i) in
        if negb scan_pseudo && is_pseudo_version (Version_ e) then Some (j, total, mx, i)
        else if negb (on_watchlist g watch_scopes (Path e) i) && known ECOSYSTEM (Path e) i then Some (j, total, mx, i)
        else
          match call (if on_watchlist g watch_scopes (Path e) i then PHigh else PNormal) with
          | (Raised _, _) => None
          | (Returned r, q) => Some (S j, if r then total + 1 else total, mx, set_queue q i)
          end
    end.

Fixpoint fill_entries (es : list entry) (acc : nat * Z * Z * ingest_db) : option (nat * Z * Z * ingest_db) :=
  match es with
  | [] => Some acc
  | e :: es' => match fill_entry e acc with Some acc' => fill_entries es' acc' | None => None end
  end.

End Backfill.

(** [inl] is the end state of the drain: total, largest cursor, database. *)
Inductive fill_end := Filled (total mx : Z) (i : ingest_db) | FillRaised (i : ingest_db) | FillDiverged.
Fixpoint fill_loop (g : GateConfig) (o : outside) (scan_pseudo : bool) (fuel k : nat) (since : string) (total mx : Z) (i : ingest_db) : fill_end :=
  match fuel with
  | O => FillDiverged
  | S fuel' =>
      match fetch_page o k since with
      | [] => Filled total mx i
      | es =>
          match fill_entries g o scan_pseudo k (load_scopes ECOSYSTEM (scopes (i_store i))) es (0%nat, total, mx, i) with
          | None => FillRaised i
          | Some (_, total, mx, i) =>
              if (List.length es <? DEFAULT_LIMIT)%nat then Filled total mx i
              else fill_loop g o scan_pseudo fuel' (S k) (cursor_to_since o mx) total mx i
          end
      end
  end.

Definition pull_since_beginning (g : GateConfig) (o : outside) (scan_pseudo : bool) (start_cursor : Z) (fuel : nat) (i : ingest_db) : poll_result * ingest_db :=
  match fill_loop g o scan_pseudo fuel 0 (cursor_to_since o start_cursor) 0 start_cursor i with
  | Filled total mx i => (Polled total, if start_cursor <? mx then set_cursor ECOSYSTEM mx i else i)
  | FillRaised i => (PollRaised, i)
  | FillDiverged => (Diverged, i)
  end.

(** ** Lemmas *)

Lemma known_mono eco nm q i : (forall key, queued key (i_queue i) -> queued key q) -> known eco nm i = true -> known eco nm (set_queue q i) = true.
Proof.
  intros Hq. unfold known, i_queue. cbn [i_store set_queue set_store packages set_scan_queue scan_queue]. rewrite !orb_true_iff.
  intros [?|H]; [by left|right]. unfold exists_row in *. rewrite existsb_true in *. destruct H as (r & Hr & [He Hn]%andb_true_iff).
  destruct (Hq (key_of r)) as (r' & Hr' & [= E1 E2 _]); [by exists r|]. exists r'. split; [done|]. by rewrite E1, E2, He, Hn.
Qed.

Lemma queued_known eco nm ver q i : queued (eco, nm, ver) q -> known eco nm (set_queue q i) = true.
Proof.
  intros (r & Hr & [= E1 E2 _]). unfold known. rewrite orb_true_iff. right. unfold exists_row. rewrite existsb_true. exists r.
  split; [done|]. by rewrite E1, E2, !String.eqb_refl.
Qed.

Lemma hold_le c h : exists h', hold c h = Some h' /\ h' <= c /\ forall x, h = Some x -> h' <= x.
Proof.
  unfold hold. destruct h as [h|]; [|exists c; split_and!; [done|lia|done]].
  destruct (Z.ltb_spec c h); eexists; (split; [done|]); split; [lia| |lia|]; intros x [= <-]; lia.
Qed.

Section Poll.
Variables (g : GateConfig) (o : outside) (scan_pseudo : bool) (i0 : ingest_db).

Let focus_names := load_focus_names ECOSYSTEM (i_focus i0).
Let watch_scopes := load_scopes ECOSYSTEM (scopes (i_store i0)).

(** A readable entry that reaches the brand-new probe. *)
Definition eligible (e : entry) (c : Z) : Prop :=
  complete e = true /\ ts_to_cursor o (Timestamp e) = Some c /\ (scan_pseudo = false -> is_pseudo_version (Version_ e) = false) /\
  on_focus (Path e) focus_names ECOSYSTEM = false /\ on_watchlist g watch_scopes (Path e) i0 = false.

(** The database during a poll: only the queue changes. *)
Definition only_queue (i : ingest_db) : Prop := exists q, i = set_queue q i0 /\ table_wf q.

(** Every eligible entry seen so far is known, or the held cursor lies at or before it. *)
Definition covered (st : poll_state) (i : ingest_db) (e : entry) : Prop :=
  forall c, eligible e c -> known ECOSYSTEM (Path e) i = true \/ exists h, held_cursor st = Some h /\ h <= c.

Definition keeps (st st' : poll_state) (i i' : ingest_db) : Prop :=
  (forall nm, known ECOSYSTEM nm i = true -> known ECOSYSTEM nm i' = true) /\
  (forall h, held_cursor st = Some h -> exists h', held_cursor st' = Some h' /\ h' <= h) /\
  max_cursor st <= max_cursor st'.

Lemma go_keeps_refl st i : keeps st st i i.
Proof. split_and!; [done|intros h Hh; exists h; split; [done|lia]|lia]. Qed.

Lemma go_keeps_trans st1 st2 st3 i1 i2 i3 : keeps st1 st2 i1 i2 -> keeps st2 st3 i2 i3 -> keeps st1 st3 i1 i3.
Proof.
  intros (H1 & H2 & H3) (H4 & H5 & H6). split_and!; [auto| |lia]. intros h Hh. destruct (H2 h Hh) as (h' & Hh' & Hle).
  destruct (H5 h' Hh') as (h2 & Hh2 & Hle2). exists h2. split; [done|lia].
Qed.

Lemma covered_keeps st st' i i' e : keeps st st' i i' -> covered st i e -> covered st' i' e.
Proof.
  intros (H1 & H2 & _) Hc c He. destruct (Hc c He) as [Hk|(h & Hh & Hle)]; [left; auto|right].
  destruct (H2 h Hh) as (h' & Hh' & Hle'). exists h'. split; [done|lia].
Qed.

Lemma only_queue_gate i nm : only_queue i -> on_watchlist g watch_scopes nm i = on_watchlist g watch_scopes nm i0.
Proof. intros (q & -> & _). done. Qed.

(** A call of [enqueue]: the queue stays well formed, keys stay, a returned row is queued. *)
Lemma call_spec k j e p i r q : only_queue i ->
  enqueue (g_queue g) quiet (page_faults o k j) (clock o) ECOSYSTEM (Path e) (Version_ e) p false (i_queue i) = (Returned r, q) ->
  only_queue (set_queue q i) /\ (forall nm, known ECOSYSTEM nm i = true -> known ECOSYSTEM nm (set_queue q i) = true) /\
  (is_Some r -> known ECOSYSTEM (Path e) (set_queue q i) = true).
Proof.
  intros (q0 & -> & Hwf) E. change (i_queue (set_queue q0 i0)) with q0 in E.
  pose proof (enqueue_wf (g_queue g) (page_faults o k j) (clock o) ECOSYSTEM (Path e) (Version_ e) p false q0 Hwf) as Hwf'. rewrite E in Hwf'.
  split_and!; [by exists q| |].
  - intros nm. apply known_mono. change (i_queue (set_queue q0 i0)) with q0. intros key Hk.
    pose proof (enqueue_keeps (g_queue g) (page_faults o k j) (clock o) ECOSYSTEM (Path e) (Version_ e) p q0 key Hwf Hk) as [_ H].
    by rewrite E in H.
  - intros [r' ->]. pose proof (enqueue_result_row (g_queue g) quiet (page_faults o k j) (clock o) ECOSYSTEM (Path e) (Version_ e) p false q0) as H.
    rewrite E in H. destruct H as [Hk Hr]. apply (queued_known _ _ (Version_ e)). by exists r'.
Qed.

Lemma go_entry_spec k e j st i j' st' i' : only_queue i ->
  go_entry g o scan_pseudo false k focus_names watch_scopes e (j, st, i) = Some (j', st', i') ->
  only_queue i' /\ keeps st st' i i' /\ covered st' i' e.
Proof.
  intros Hi. unfold go_entry. destruct (complete e) eqn:Ec; cbn [negb].
  2: { intros [= _ <- <-]. split_and!; [done|apply go_keeps_refl|]. intros c (H & _). congruence. }
  destruct (ts_to_cursor o (Timestamp e)) as [c|] eqn:Et.
  2: { intros [= _ <- <-]. split_and!; [done|apply go_keeps_refl|]. intros c (_ & H & _). congruence. }
  set (st1 := if max_cursor st <? c then set_max c st else st).
  assert (keeps st st1 i i) as Hk1.
  { unfold st1. destruct (Z.ltb_spec (max_cursor st) c); [|apply go_keeps_refl].
    split_and!; [done|intros h Hh; exists h; split; [done|lia]|cbn; lia]. }
  unfold classify. destruct (negb scan_pseudo && is_pseudo_version (Version_ e)) eqn:Ep.
  { intros [= _ <- <-]. split_and!; [done|exact Hk1|]. intros c' (_ & _ & H & _). apply andb_true_iff in Ep as [E1%negb_true_iff E2].
    rewrite H in E2 by done. done. }
  destruct (on_focus _ _ _ || _) eqn:Ew.
  - destruct (enqueue _ _ _ _ _ _ _ _ _ _) as [[r|msg] q] eqn:E; [|done]. intros [= _ <- <-].
    destruct (call_spec _ _ _ _ _ _ _ Hi E) as (Hq & Hkn & _). split_and!; [done| |].
    + eapply go_keeps_trans; [exact Hk1|]. destruct r; (split_and!; [exact Hkn|intros h Hh; exists h; split; [done|lia]|cbn; lia]).
    + intros c' (_ & _ & _ & Hf & Hwl). rewrite <- (only_queue_gate i) in Hwl by done. by rewrite Hf, Hwl in Ew.
  - destruct (known ECOSYSTEM (Path e) i) eqn:Ekn.
    { intros [= _ <- <-]. split_and!; [done|exact Hk1|]. intros c' _. by left. }
    destruct (enqueue _ _ _ _ _ _ _ _ _ _) as [[r|msg] q] eqn:E; [|done]. intros [= _ <- <-].
    destruct (call_spec _ _ _ _ _ _ _ Hi E) as (Hq & Hkn & Hr). split_and!; [done| |].
    + eapply go_keeps_trans; [exact Hk1|]. destruct r.
      * split_and!; [exact Hkn|intros h Hh; exists h; split; [done|lia]|cbn; lia].
      * destruct (hold_le c (held_cursor st1)) as (h' & Eh & _ & Hle).
        split_and!; [exact Hkn| |cbn; lia]. intros h Hh. exists h'. cbn. split; [done|auto].
    + intros c' (_ & Ht & _). destruct r as [r|]; [left; by apply Hr|right]. assert (c' = c) as -> by congruence.
      destruct (hold_le c (held_cursor st1)) as (h' & Eh & Hle & _). by exists h'.
Qed.

Lemma go_entries_spec k es j st i j' st' i' : only_queue i ->
  go_entries g o scan_pseudo false k focus_names watch_scopes es (j, st, i) = Some (j', st', i') ->
  only_queue i' /\ keeps st st' i i' /\ forall e, e ∈ es -> covered st' i' e.
Proof.
  revert j st i. induction es as [|e es IH]; intros j st i Hi; cbn [go_entries].
  { intros [= _ <- <-]. split_and!; [done|apply go_keeps_refl|set_solver]. }
  destruct (go_entry _ _ _ _ _ _ _ e (j, st, i)) as [[[j1 st1] i1]|] eqn:E; [|done]. intros E'.
  destruct (go_entry_spec _ _ _ _ _ _ _ _ Hi E) as (H1 & H2 & H3). destruct (IH _ _ _ H1 E') as (H4 & H5 & H6).
  split_and!; [done|by eapply go_keeps_trans|]. intros e' [->|He]%elem_of_cons; [by eapply covered_keeps|auto].
Qed.

(** The entries of the pages the loop reads, in order. *)
Fixpoint entries_seen (fuel k : nat) (since : string) (st : poll_state) (i : ingest_db) : list entry :=
  match fuel with
  | O => []
  | S fuel' =>
      match fetch_page o k since with
      | [] => []
      | es =>
          match go_page g o scan_pseudo false k es st i with
          | None => es
          | Some (st, i) =>
              if (List.length es <? DEFAULT_LIMIT)%nat then es
              else
                let st := if String.eqb (cursor_to_since o (max_cursor st)) since then set_max (max_cursor st + 1) st else st in
                es ++ entries_seen fuel' (S k) (cursor_to_since o (max_cursor st)) st i
          end
      end
  end.

Lemma go_page_spec k es st i st' i' : only_queue i -> go_page g o scan_pseudo false k es st i = Some (st', i') ->
  only_queue i' /\ keeps st st' i i' /\ forall e, e ∈ es -> covered st' i' e.
Proof.
  intros Hi. unfold go_page. assert (load_focus_names ECOSYSTEM (i_focus i) = focus_names /\ load_scopes ECOSYSTEM (scopes (i_store i)) = watch_scopes) as [-> ->]
    by (by destruct Hi as (q & -> & _)).
  destruct (go_entries _ _ _ _ _ _ _ es (0%nat, st, i)) as [[[j st1] i1]|] eqn:E; [|done]. intros [= <- <-]. by eapply go_entries_spec.
Qed.

Lemma page_loop_spec fuel k since st i st' i' : only_queue i ->
  page_loop g o scan_pseudo false fuel k since st i = (Finished st', i') ->
  only_queue i' /\ keeps st st' i i' /\ forall e, e ∈ entries_seen fuel k since st i -> covered st' i' e.
Proof.
  revert k since st i. induction fuel as [|fuel IH]; intros k since st i Hi; cbn [page_loop entries_seen]; [done|].
  destruct (fetch_page o k since) as [|e es] eqn:Ef; [intros [= <- <-]; split_and!; [done|apply go_keeps_refl|set_solver]|].
  destruct (go_page _ _ _ _ _ _ _ _) as [[st1 i1]|] eqn:E; [|done]. destruct (go_page_spec _ _ _ _ _ _ Hi E) as (H1 & H2 & H3).
  destruct (_ <? _)%nat; [intros [= <- <-]; done|].
  set (st2 := if String.eqb (cursor_to_since o (max_cursor st1)) since then set_max (max_cursor st1 + 1) st1 else st1).
  assert (keeps st1 st2 i1 i1) as Hk.
  { unfold st2. destruct (String.eqb _ _); [|apply go_keeps_refl]. split_and!; [done|intros h Hh; exists h; split; [done|lia]|cbn; lia]. }
  assert ((if String.eqb (cursor_to_since o (max_cursor st1)) since
    then page_loop g o scan_pseudo false fuel (S k) (cursor_to_since o (max_cursor (set_max (max_cursor st1 + 1) st1))) (set_max (max_cursor st1 + 1) st1) i1
    else page_loop g o scan_pseudo false fuel (S k) (cursor_to_since o (max_cursor st1)) st1 i1) =
    page_loop g o scan_pseudo false fuel (S k) (cursor_to_since o (max_cursor st2)) st2 i1) as -> by (unfold st2; by destruct (String.eqb _ _)).
  intros E2. destruct (IH _ _ _ _ H1 E2) as (H4 & H5 & H6). split_and!; [done|eapply go_keeps_trans; [exact H2|eapply go_keeps_trans; [exact Hk|exact H5]]|].
  intros e' [He|He]%elem_of_app; [|by apply H6]. eapply covered_keeps; [exact H5|]. eapply covered_keeps; [exact Hk|]. by apply H3.
Qed.

End Poll.

(** *** Termination *)

Lemma go_entry_max g o sp ex k f w e j st i j' st' i' : go_entry g o sp ex k f w e (j, st, i) = Some (j', st', i') ->
  max_cursor st <= max_cursor st'.
Proof.
  unfold go_entry. destruct (complete e); cbn [negb]; [|intros [= _ <- _]; lia]. destruct (ts_to_cursor o (Timestamp e)) as [c|]; [|intros [= _ <- _]; lia].
  set (st1 := if max_cursor st <? c then set_max c st else st).
  assert (max_cursor st <= max_cursor st1) as H by (unfold st1; destruct (Z.ltb_spec (max_cursor st) c); cbn; lia).
  destruct (classify _ _ _ _ _ _ _); try (intros [= _ <- _]; exact H);
    (destruct (enqueue _ _ _ _ _ _ _ _ _ _) as [[r|] q]; [|done]); intros [= _ <- _]; destruct r; exact H.
Qed.

Lemma go_entries_max g o sp ex k f w es j st i j' st' i' : go_entries g o sp ex k f w es (j, st, i) = Some (j', st', i') ->
  max_cursor st <= max_cursor st'.
Proof.
  revert j st i. induction es as [|e es IH]; intros j st i; cbn [go_entries]; [intros [= _ <- _]; lia|].
  destruct (go_entry _ _ _ _ _ _ _ e (j, st, i)) as [[[j1 st1] i1]|] eqn:E; [|done]. intros E'.
  apply go_entry_max in E. apply IH in E'. lia.
Qed.

Lemma page_loop_terminates g o sp ex B fuel k st i :
  (forall c c', cursor_to_since o c = cursor_to_since o c' -> c = c') ->
  (forall k c, B < c -> (List.length (fetch_page o k (cursor_to_since o c)) < DEFAULT_LIMIT)%nat) ->
  (Z.to_nat (B + 1 - max_cursor st) < fuel)%nat ->
  (page_loop g o sp ex fuel k (cursor_to_since o (max_cursor st)) st i).1 <> OutOfFuel.
Proof.
  intros Hinj Hshort. revert k st i. induction fuel as [|fuel IH]; intros k st i Hfuel; [lia|]. cbn [page_loop].
  destruct (fetch_page o k (cursor_to_since o (max_cursor st))) as [|e es] eqn:Ef; [done|].
  destruct (go_page _ _ _ _ _ _ _ _) as [[st1 i1]|] eqn:E; [|done].
  assert (max_cursor st <= max_cursor st1) as Hm.
  { unfold go_page in E. destruct (go_entries _ _ _ _ _ _ _ _ _) as [[[j' st'] i']|] eqn:E1; [|done]. simplify_eq. by apply go_entries_max in E1. }
  destruct (_ <? _)%nat eqn:El; [done|]. apply Nat.ltb_ge in El.
  assert (max_cursor st <= B) as HB.
  { destruct (decide (max_cursor st <= B)) as [?|Hgt]; [done|]. specialize (Hshort k (max_cursor st) ltac:(lia)). rewrite Ef in Hshort. lia. }
  destruct (String.eqb_spec (cursor_to_since o (max_cursor st1)) (cursor_to_since o (max_cursor st))) as [Es|Es].
  - apply Hinj in Es. apply IH. cbn [max_cursor set_max]. lia.
  - apply IH. assert (max_cursor st1 <> max_cursor st) by congruence. lia.
Qed.

(** ** Properties *)

(** The Go poller loses no brand-new module either.  After a poll that completes
    (outside exclusive mode), for every index entry it read that is well formed, not a
    skipped pseudo-version and neither on focus nor watched: its module is known to the
    store afterwards, or the stored cursor lies strictly before the entry's time, or
    the cursor has not moved at all; and the cursor never moves back. *)
Theorem go_no_silent_drop g o scan_pseudo now_us fuel i cursor n i' :
  table_wf (i_queue i) -> get_cursor ECOSYSTEM i = Some cursor ->
  poll_index_once g o scan_pseudo false now_us fuel i = (Polled n, i') ->
  exists cursor', get_cursor ECOSYSTEM i' = Some cursor' /\ cursor <= cursor' /\
    forall e c, e ∈ entries_seen g o scan_pseudo fuel 0 (cursor_to_since o cursor) (start_state cursor) i ->
      complete e = true -> ts_to_cursor o (Timestamp e) = Some c ->
      (scan_pseudo = false -> is_pseudo_version (Version_ e) = false) ->
      on_focus (Path e) (load_focus_names ECOSYSTEM (i_focus i)) ECOSYSTEM = false ->
      on_watchlist g (load_scopes ECOSYSTEM (scopes (i_store i))) (Path e) i = false ->
      known ECOSYSTEM (Path e) i' = true \/ cursor' < c \/ cursor' = cursor.
Proof.
  intros Hwf Hc. unfold poll_index_once, get_last_cursor. rewrite Hc.
  destruct (page_loop _ _ _ _ _ _ _ _ _) as [[st| |] i1] eqn:E; try done. intros [= _ <-].
  assert (only_queue i i) as Hi by (exists (i_queue i); split; [by destruct i as [[] ? ? ?]|done]).
  destruct (page_loop_spec g o scan_pseudo i _ _ _ _ _ _ _ Hi E) as ((q & -> & _) & (_ & _ & Hmax) & Hcov).
  exists (if cursor <? final_cursor st then final_cursor st else cursor). split_and!.
  - destruct (_ <? _); [apply get_set_cursor|]. by rewrite get_cursor_queue.
  - destruct (Z.ltb_spec cursor (final_cursor st)); lia.
  - intros e c He H1 H2 H3 H4 H5. destruct (Hcov e He c) as [Hk|(h & Hh & Hle)]; [done|left|right].
    + destruct (_ <? _); exact Hk.
    + destruct (Z.ltb_spec cursor (final_cursor st)); [left|by right]. unfold final_cursor in *. rewrite Hh in *. lia.
Qed.

(** A poll of the module index terminates: if the index has no full page beyond a
    time [B] and distinct cursors are formatted distinctly, the loop ends within
    [B - cursor + 2] pages, also when a full page carries a single timestamp. *)
Theorem go_poll_terminates g o scan_pseudo exclusive now_us B i :
  (forall c c', cursor_to_since o c = cursor_to_since o c' -> c = c') ->
  (forall k c, B < c -> (List.length (fetch_page o k (cursor_to_since o c)) < DEFAULT_LIMIT)%nat) ->
  forall fuel, (Z.to_nat (B + 1 - default now_us (get_cursor ECOSYSTEM i)) < fuel)%nat ->
  (poll_index_once g o scan_pseudo exclusive now_us fuel i).1 <> Diverged.
Proof.
  intros Hinj Hshort fuel Hfuel. unfold poll_index_once, get_last_cursor.
  assert (forall c i, (Z.to_nat (B + 1 - c) < fuel)%nat ->
    (page_loop g o scan_pseudo exclusive fuel 0 (cursor_to_since o c) (start_state c) i).1 <> OutOfFuel) as H.
  { intros c i1 Hc. by apply (page_loop_terminates g o scan_pseudo exclusive B fuel 0 (start_state c)). }
  destruct (get_cursor ECOSYSTEM i) as [c|]; cbn [default from_option] in Hfuel.
  - specialize (H c i Hfuel). by destruct (page_loop _ _ _ _ _ _ _ _ _) as [[st| |] i2].
  - specialize (H now_us (set_cursor ECOSYSTEM now_us i) Hfuel). by destruct (page_loop _ _ _ _ _ _ _ _ _) as [[st| |] i2].
Qed.

(** An index of short pages, timestamps in decimal. *)
Definition ex_outside (pages : string -> list entry) (flt : option string) : outside :=
  mkGoOutside (fun _ => pages) (fun s => if isdigit s then Some (int_of s) else None) show (fun _ _ _ => flt) 1.
Definition ex_ingest : ingest_db := mkIngest empty_db empty_table empty_table [("gomod"%string, 100)].
Definition ex_entry (path ts : string) : entry := mkGoEntry path "v1.0.0" ts.
Definition ex_go : outside := ex_outside (fun s => if String.eqb s "100" then [ex_entry "example.com/a" "105"] else []) (Some "deadlock detected"%string).

Lemma go_no_silent_drop_witness : exists cursor',
  get_cursor ECOSYSTEM (poll_index_once default_gate ex_go false false 0 3 ex_ingest).2 = Some cursor' /\ cursor' < 105.
Proof.
  assert (poll_index_once default_gate ex_go false false 0 3 ex_ingest =
    (Polled 0, (poll_index_once default_gate ex_go false false 0 3 ex_ingest).2)) as E by (vm_compute; reflexivity).
  destruct (go_no_silent_drop default_gate ex_go false 0 3 ex_ingest 100 0 _ (conj (NoDup_nil_2) (Forall_nil_2 _)) eq_refl E) as (c & Hc & _ & H).
  exists c. split; [exact Hc|]. destruct (H (ex_entry "example.com/a" "105") 105) as [Hk|[Hlt|Heq]]; try (vm_compute; reflexivity).
  - vm_compute. left.
  - exfalso. vm_compute in Hk. discriminate.
  - exact Hlt.
  - rewrite Heq. reflexivity.
Defined.

Lemma go_poll_terminates_witness : (poll_index_once default_gate ex_go false false 0 10 ex_ingest).1 <> Diverged.
Proof.
  apply (go_poll_terminates default_gate ex_go false false 0 105).
  - intros c c' H. exact (inj pretty c c' H).
  - intros k c _. cbn. destruct (String.eqb _ _); vm_compute; lia.
  - vm_compute. lia.
Defined.

(** Only brand-new modules are held back: a watched module whose enqueue gives up on
    a deadlock is passed over. *)
Example go_watched_drops :
  let i := mkIngest (set_watchlist (Table [mkWatch 1 "gomod" "example.com/a" 1 0 0] 2) empty_db) empty_table empty_table [("gomod"%string, 100)] in
  get_cursor ECOSYSTEM (poll_index_once default_gate ex_go false false 0 3 i).2 = Some 105 /\
  rows (i_queue (poll_index_once default_gate ex_go false false 0 3 i).2) = [].
Proof. vm_compute. done. Qed.

(** An entry with an unreadable timestamp is passed over by the next readable one. *)
Example go_bad_timestamp_passed :
  let o := ex_outside (fun s => if String.eqb s "100" then [ex_entry "example.com/a" "x"; ex_entry "example.com/b" "105"] else []) None in
  get_cursor ECOSYSTEM (poll_index_once default_gate o false false 0 3 ex_ingest).2 = Some 105 /\
  known ECOSYSTEM "example.com/a" (poll_index_once default_gate o false false 0 3 ex_ingest).2 = false.
Proof. vm_compute. done. Qed.

(** The backfill has no guard against a full page of one timestamp: it reads the
    same page for ever. *)
Lemma backfill_wedges g i : forall fuel,
  (pull_since_beginning g (ex_outside (fun _ => repeat (mkGoEntry "example.com/a" "v0.0.0-20260101000000-0123456789ab" "7") DEFAULT_LIMIT) None)
    false 7 fuel i).1 = Diverged.
Proof.
  intros fuel. unfold pull_since_beginning. set (e := mkGoEntry _ _ _). set (o := ex_outside _ _).
  assert (forall fuel k total, fill_loop g o false fuel k (cursor_to_since o 7) total 7 i = FillDiverged) as ->; [|done].
  clear fuel. induction fuel as [|fuel IH]; intros k total; [done|]. cbn [fill_loop].
  change (fetch_page o k (cursor_to_since o 7)) with (repeat e DEFAULT_LIMIT).
  assert (forall n, fill_entries g o false k (load_scopes ECOSYSTEM (scopes (i_store i))) (repeat e n) (0%nat, total, 7, i) = Some (0%nat, total, 7, i)) as Hfill.
  { induction n as [|n IHn]; [done|]. cbn [repeat fill_entries]. exact IHn. }
  specialize (Hfill DEFAULT_LIMIT). destruct (repeat e DEFAULT_LIMIT) as [|e' es] eqn:Er; [discriminate|].
  rewrite Hfill, <- Er, repeat_length, Nat.ltb_irrefl. apply IH.
Qed.
