(* ===== verification/PypiCursor.v ===== *)
(** * The PyPI feeds: the changelog cursor and the RSS poll

    [src/pkgward/ecosystems/pypi/ingest/cursor.py] and [feeds.py].  XML-RPC and
    HTTP answers, the version grammar of the [packaging] library and the
    completion order of concurrent requests are arguments. *)
From S2P Require Import Prelude PyStr Text Sql Findings Jobs ScanQueue Watch Scope Store Focus MaintWatch Ingest Anomaly.
From Stdlib Require Import Ascii String.

Open Scope list_scope.
Open Scope Z_scope.

Definition ECOSYSTEM : string := "pypi".
Definition DEFAULT_MAX_ITEMS : nat := 2000.

(** An event of the changelog: name, version, timestamp, action, serial. *)
Record event := mkEvent { e_name : string; e_version : option string; e_action : option string; e_serial : Z }.

(** The outside of a pull: [None] when the call raised. *)
Record outside := mkPypiOutside {
  changelog_last_serial : option Z;
  changelog_since_serial : Z -> option (list event);
  faults : nat -> nat -> option string;
  clock : timestamp;
}.

(** [get_last_serial]: bootstraps to the registry's present, or returns 0. *)
Definition get_last_serial (o : outside) (i : ingest_db) : Z * ingest_db :=
  match get_cursor ECOSYSTEM i with
  | Some n => (n, i)
  | None => match changelog_last_serial o with Some n => (n, set_cursor ECOSYSTEM n i) | None => (0, i) end
  end.

Definition action_of (e : event) : string := lower (ostr (e_action e)).
Definition creates (e : event) : bool := String.eqb (action_of e) "create".
(** The events that may be queued: they name a version and remove nothing. *)
Definition releases (e : event) : bool := otruthy (e_version e) && negb (contains "remove" (action_of e)).

Section Gate.
Variables (g : GateConfig) (exclusive : bool) (now : timestamp).
Variables (focus_names watch_scopes maint_names : list string).

Definition on_watchlist (nm : string) (i : ingest_db) : bool :=
  negb exclusive &&
  (bool_decide (is_Some (is_watchlist nm ECOSYSTEM (watchlist (i_store i)))) ||
   scope_watched g ECOSYSTEM nm watch_scopes i || maint_watched g now ECOSYSTEM nm maint_names i).

Definition is_brand_new (nm : string) (created : list string) (i : ingest_db) : bool :=
  negb exclusive && negb (on_watchlist nm i) && str_in nm created.

Definition gate (nm : string) (created : list string) (i : ingest_db) : option priority :=
  gate_decision (on_focus nm focus_names ECOSYSTEM) (on_watchlist nm i) (is_brand_new nm created i) exclusive.
End Gate.

(** The state of the loop over the events; [p_calls] counts the enqueue calls. *)
Record pull := mkPull {
  p_created : list string;
  p_calls : nat;
  p_enqueued : Z;
  p_new : Z;
  p_skipped : Z;
  p_max : Z;
}.

Definition note_event (e : event) (st : pull) : pull :=
  mkPull (if creates e then e_name e :: p_created st else p_created st) (p_calls st) (p_enqueued st) (p_new st) (p_skipped st)
    (Z.max (p_max st) (e_serial e)).
Definition note_skip (st : pull) : pull :=
  mkPull (p_created st) (p_calls st) (p_enqueued st) (p_new st) (p_skipped st + 1) (p_max st).
Definition note_call (row brand_new : bool) (st : pull) : pull :=
  mkPull (p_created st) (S (p_calls st)) (p_enqueued st + Z.b2z row) (p_new st + Z.b2z (row && brand_new)) (p_skipped st) (p_max st).

Section Pull.
Variables (g : GateConfig) (o : outside) (exclusive : bool).
Variables (focus_names watch_scopes maint_names : list string).

(** One event; [None]: the enqueue raised. *)
Definition pull_event (e : event) (acc : pull * ingest_db) : option (pull * ingest_db) :=
  let '(st, i) := acc in
  let st := note_event e st in
  if negb (releases e) then Some (st, i)
  else
    match gate g exclusive (clock o) focus_names watch_scopes maint_names (e_name e) (p_created st) i with
    | None => Some (note_skip st, i)
    | Some p =>
        match enqueue (g_queue g) quiet (faults o (p_calls st)) (clock o) ECOSYSTEM (e_name e) (ostr (e_version e)) p false (i_queue i) with
        | (Raised _, _) => None
        | (Returned r, q) =>
            Some (note_call (if r then true else false) (is_brand_new g exclusive (clock o) watch_scopes maint_names (e_name e) (p_created st) i) st, set_queue q i)
        end
    end.

Fixpoint pull_events (es : list event) (acc : pull * ingest_db) : option (pull * ingest_db) :=
  match es with
  | [] => Some acc
  | e :: es' => match pull_event e acc with Some acc' => pull_events es' acc' | None => None end
  end.
End Pull.

Inductive poll_result := Polled (n : Z) | PollRaised.

Definition take_items (max_items : option nat) (es : list event) : list event :=
  match max_items with Some n => List.firstn n es | None => es end.

Definition pull_since (g : GateConfig) (o : outside) (exclusive : bool) (max_items : option nat) (i : ingest_db) : poll_result * ingest_db :=
  let '(serial, i) := get_last_serial o i in
  match changelog_since_serial o serial with
  | None => (Polled 0, i)
  | Some [] => (Polled 0, i)
  | Some es =>
      match pull_events g o exclusive (load_focus_names ECOSYSTEM (i_focus i)) (load_scopes ECOSYSTEM (scopes (i_store i)))
              (load_watch_names ECOSYSTEM (i_maint i)) (take_items max_items es) (mkPull [] 0 0 0 0 serial, i) with
      | None => (PollRaised, i)
      | Some (st, i) => (Polled (p_enqueued st), if serial <? p_max st then set_cursor ECOSYSTEM (p_max st) i else i)
      end
  end.

(** ** The backfill ([PyPIAdapter.backfill]) *)

Section Backfill.
Variables (g : GateConfig) (exclusive : bool).
(** What the registry answers to the k-th pull. *)
Variable log : nat -> outside.

Fixpoint pypi_pulls (left k : nat) (total : Z) (i : ingest_db) : option Z * ingest_db :=
  match left with
  | O => (Some total, i)
  | S left' =>
      match pull_since g (log k) exclusive (Some 5000%nat) i with
      | (PollRaised, i) => (None, i)
      | (Polled n, i) => if n =? 0 then (Some total, i) else pypi_pulls left' (S k) (total + n) i
      end
  end.
Definition max_iter (days_ : Z) : nat := Z.to_nat (Z.max 1 (days_ * 24 * 60)).
Definition pypi_backfill (days_ : Z) (i : ingest_db) : option Z * ingest_db := pypi_pulls (max_iter days_) 0 0 i.
End Backfill.

(** ** The RSS poll *)

(** [<title>([^<]+)</title>]. *)
Definition find_titles (s : string) : list string := find_groups "<title>" (Ascii.eqb "<"%char) "</title>" s.

(** The part before the last [c], [str.rpartition(c)[0]]. *)
Definition before_last (c : ascii) (s : string) : string := str_take (len s - len (after_last c s) - 1) s.

Definition is_channel_title (s : string) : bool := startswith (lower s) "pypi" || startswith (lower s) "python package".

Section Feed.
(** [packaging.version.Version] accepts the string. *)
Variable valid_version : string -> bool.

Definition parse_title (raw : string) : option (string * string) :=
  let title := strip raw in
  if negb (has_char " " title) then None
  else
    let name := strip (before_last " " title) in
    let version := strip (after_last " " title) in
    if negb (truthy name) || negb (truthy version) then None
    else if is_channel_title name then None
    else if valid_version version then Some (name, version) else None.

Definition parse_feed (xml : string) : list (string * string) := omap parse_title (find_titles xml).
End Feed.

Definition ADDED : string := " added to PyPI".
Definition parse_new_title (raw : string) : option string :=
  let title := strip raw in
  if is_channel_title title then None
  else if endswith title ADDED then nonempty (strip (str_take (len title - len ADDED) title)) else None.
Definition parse_new_package_names (xml : string) : list string := omap parse_new_title (find_titles xml).

(** A file of a release as the JSON interface lists it, and [_fetch_pypi_metas]. *)
Record release_file := mkReleaseFile { f_size : option Z; f_upload_time : option string }.
Definition max_size (l : list Z) : option Z := match l with [] => None | x :: l => Some (fold_left Z.max l x) end.
Definition str_max (x y : string) : string := if String.leb x y then y else x.
Definition latest_upload (files : list release_file) : string :=
  match map (fun f => ostr (f_upload_time f)) files with [] => "" | x :: l => fold_left str_max l x end.
Definition release_meta (r : string * list release_file) : option Core.VersionMeta :=
  match r.2 with
  | [] => None
  | files =>
      let t := latest_upload files in
      if truthy t then Some (Core.mkMeta r.1 t (max_size (omap f_size files)) None false) else None
  end.
Definition pypi_metas (releases : option (list (string * list release_file))) : option (list Core.VersionMeta) :=
  match releases with Some rs => Some (omap release_meta rs) | None => None end.

Record FeedConfig := mkFeedConfig { fd_gate : GateConfig; fd_anomaly : Core.DiffConfig; PYPI_ANOMALY_GATE : bool; PYPI_ANOMALY_MAX_CHECKS : nat }.

(** [rss]: the two documents, [None] when a request failed; [releases_of n]: the
    JSON answer for a package; [rss_faults k j]: the errors of the j-th enqueue of
    session [k]; [world]: what other sessions do before session [k]. *)
Record rss_outside := mkRss {
  rss : option (string * string);
  valid_version : string -> bool;
  releases_of : string -> option (list (string * list release_file));
  set_order : list string -> list string;
  completion : list string -> list string;
  rss_faults : nat -> nat -> nat -> option string;
  rss_world : nat -> ingest_db -> ingest_db;
  rss_clock : timestamp;
}.

Record feed_state := mkFeed { fs_calls : nat; fs_enqueued : Z; fs_new : Z; fs_skipped : Z; fs_candidates : list string }.

Section FeedGate.
Variables (cfg : FeedConfig) (o : rss_outside) (exclusive : bool) (focus_names new_names : list string).

Definition feed_watched (nm : string) (i : ingest_db) : bool :=
  negb exclusive && bool_decide (is_Some (is_watchlist nm ECOSYSTEM (watchlist (i_store i)))).
Definition feed_brand_new (nm : string) (i : ingest_db) : bool :=
  negb exclusive && negb (feed_watched nm i) && str_in nm new_names.

Definition feed_item (it : string * string) (acc : feed_state * ingest_db) : option (feed_state * ingest_db) :=
  let '(st, i) := acc in
  match gate_decision (on_focus it.1 focus_names ECOSYSTEM) (feed_watched it.1 i) (feed_brand_new it.1 i) exclusive with
  | None =>
      Some (mkFeed (fs_calls st) (fs_enqueued st) (fs_new st) (fs_skipped st + 1)
        (if PYPI_ANOMALY_GATE cfg && negb exclusive then append_new (fs_candidates st) [it.1] else fs_candidates st), i)
  | Some p =>
      match enqueue (g_queue (fd_gate cfg)) quiet (rss_faults o 0 (fs_calls st)) (rss_clock o) ECOSYSTEM it.1 it.2 p false (i_queue i) with
      | (Raised _, _) => None
      | (Returned r, q) =>
          let row := if r then true else false in
          Some (mkFeed (S (fs_calls st)) (fs_enqueued st + Z.b2z row) (fs_new st + Z.b2z (row && feed_brand_new it.1 i)) (fs_skipped st) (fs_candidates st),
            set_queue q i)
      end
  end.

Fixpoint feed_items (its : list (string * string)) (acc : feed_state * ingest_db) : option (feed_state * ingest_db) :=
  match its with
  | [] => Some acc
  | it :: its' => match feed_item it acc with Some acc' => feed_items its' acc' | None => None end
  end.
End FeedGate.

Inductive feed_result := FeedPolled (items : list (string * string)) | FeedRaised.

Definition poll_feeds_once (cfg : FeedConfig) (o : rss_outside) (exclusive : bool) (i : ingest_db) : feed_result * ingest_db :=
  match rss o with
  | None => (FeedPolled [], i)
  | Some (updates, packages) =>
      let new_names := parse_new_package_names packages in
      let items := dedup (parse_feed (valid_version o) updates) in
      let i := rss_world o 0 i in
      match feed_items cfg o exclusive (load_focus_names ECOSYSTEM (i_focus i)) new_names items (mkFeed 0 0 0 0 [], i) with
      | None => (FeedRaised, i)
      | Some (st, i) =>
          let hits :=
            if PYPI_ANOMALY_GATE cfg && negb (bool_decide (fs_candidates st = [])) then
              Core.check_candidates (fd_anomaly cfg) (fun n => pypi_metas (releases_of o n)) (completion o) (PYPI_ANOMALY_MAX_CHECKS cfg) (set_order o (fs_candidates st))
            else [] in
          let i := rss_world o 1 i in
          match enqueue_batch (g_queue (fd_gate cfg)) (rss_faults o 1) (rss_clock o) ECOSYSTEM 0 hits (i_queue i) with
          | None => (FeedRaised, i)
          | Some (_, q) => (FeedPolled items, set_queue q i)
          end
      end
  end.

(** ** Lemmas *)

(** The packages a batch created before or at its last event. *)
Definition created_in (es : list event) : list string := map e_name (bfilter creates es).

Section PullSpec.
Context (g : GateConfig) (o : outside) (exclusive : bool) (F S_ M : list string).
Notation gate_ := (gate g exclusive (clock o) F S_ M).

(** The gate reads the created set as a set, and nothing of the queue. *)
Lemma gate_created nm cs cs' i : (forall x, x ∈ cs <-> x ∈ cs') -> gate_ nm cs i = gate_ nm cs' i.
Proof.
  intros H. unfold gate. f_equal. unfold is_brand_new. f_equal. unfold str_in. apply bool_decide_ext. apply H.
Qed.

Lemma gate_queue nm cs q i : gate_ nm cs (set_queue q i) = gate_ nm cs i.
Proof. done. Qed.

(** What the loop over [es] did, starting after the events [pre]. *)
Definition pulled (pre es : list event) (st st' : pull) (i i' : ingest_db) : Prop :=
  (exists q, i' = set_queue q i /\ table_wf q) /\
  (forall k, queued k (i_queue i) -> queued k (i_queue i')) /\
  (forall x, x ∈ p_created st' <-> x ∈ created_in (pre ++ es)) /\
  p_max st' = fold_left Z.max (map e_serial es) (p_max st) /\
  forall es1 e es2 p, es = es1 ++ e :: es2 -> releases e = true -> gate_ (e_name e) (created_in (pre ++ es1 ++ [e])) i = Some p ->
    queued (ECOSYSTEM, e_name e, ostr (e_version e)) (i_queue i').

Lemma created_note e st pre : (forall x, x ∈ p_created st <-> x ∈ created_in pre) ->
  forall x, x ∈ p_created (note_event e st) <-> x ∈ created_in (pre ++ [e]).
Proof.
  intros H x. unfold created_in, note_event in *. cbn [p_created]. rewrite List.filter_app, map_app. cbn [List.filter].
  destruct (creates e); cbn [map]; rewrite elem_of_app, <- H; set_solver.
Qed.

Hypothesis (Hretry : 0 <= ENQUEUE_DEADLOCK_RETRIES (g_queue g)) (Hfaults : forall j a, faults o j a = None).

Lemma pull_event_spec e pre st i st' i' : table_wf (i_queue i) -> (forall x, x ∈ p_created st <-> x ∈ created_in pre) ->
  pull_event g o exclusive F S_ M e (st, i) = Some (st', i') -> pulled pre [e] st st' i i'.
Proof.
  intros Hwf Hcr. unfold pull_event. pose proof (created_note e st pre Hcr) as Hcr'.
  set (st1 := note_event e st) in *.
  assert (forall st2, p_created st2 = p_created st1 -> p_max st2 = p_max st1 ->
    (releases e = true -> gate_ (e_name e) (p_created st1) i = None) -> pulled pre [e] st st2 i i) as Hskip.
  { intros st2 Hc Hm Hno. split_and!.
    - exists (i_queue i). split; [by destruct i as [[] ? ? ?]|done].
    - done.
    - intros x. rewrite Hc. apply Hcr'.
    - by rewrite Hm.
    - intros [|? [|? ?]] e' es2 p; [|done|done]. intros [= <- _] Hr Hg. cbn [app] in Hg.
      rewrite <- (gate_created _ (p_created st1)) in Hg by done. rewrite Hno in Hg; done. }
  destruct (releases e) eqn:Hrel; cbn [negb]; [|intros [= <- <-]; by apply Hskip].
  destruct (gate_ (e_name e) (p_created st1) i) as [p|] eqn:Hg; [|intros [= <- <-]; by apply Hskip].
  pose proof (enqueue_queues (g_queue g) (faults o (p_calls st1)) (clock o) ECOSYSTEM (e_name e) (ostr (e_version e)) p (i_queue i) Hretry (Hfaults _) Hwf) as Hq.
  pose proof (enqueue_wf (g_queue g) (faults o (p_calls st1)) (clock o) ECOSYSTEM (e_name e) (ostr (e_version e)) p false (i_queue i) Hwf) as Hw.
  pose proof (fun k H => proj2 (enqueue_keeps (g_queue g) (faults o (p_calls st1)) (clock o) ECOSYSTEM (e_name e) (ostr (e_version e)) p (i_queue i) k Hwf H)) as Hk.
  destruct (enqueue _ _ _ _ _ _ _ _ _ _) as [[r|msg] q]; [|done]. cbn [snd] in *. intros [= <- <-]. split_and!; [by exists q|done|done|done|].
  intros [|? [|? ?]] e' es2 p'; [|done|done]. by intros [= <- _] _ _.
Qed.

Lemma pulled_trans pre es es' st st1 st2 i i1 i2 : pulled pre es st st1 i i1 -> pulled (pre ++ es) es' st1 st2 i1 i2 -> pulled pre (es ++ es') st st2 i i2.
Proof.
  intros ((q & -> & Hq) & Hk & Hc & Hm & Ha) ((q' & -> & Hq') & Hk' & Hc' & Hm' & Ha'). split_and!.
  - by exists q'.
  - intros k Hkq. by apply Hk', Hk.
  - intros x. by rewrite Hc', app_assoc.
  - by rewrite Hm', Hm, map_app, fold_left_app.
  - intros es1 e es2 p E Hr Hg. apply app_eq_app in E as (l & [[-> E]|[-> E]]).
    + destruct l as [|e' l]; cbn [app] in E.
      * apply (Ha' [] e es2 p); [done|done|]. rewrite gate_queue, app_nil_r, <- app_assoc. exact Hg.
      * injection E as <- E. apply Hk'. by apply (Ha es1 e l p).
    + apply (Ha' l e es2 p); [done|done|]. rewrite gate_queue, <- app_assoc. by rewrite <- app_assoc in Hg.
Qed.

Lemma pull_events_spec es pre st i st' i' : table_wf (i_queue i) -> (forall x, x ∈ p_created st <-> x ∈ created_in pre) ->
  pull_events g o exclusive F S_ M es (st, i) = Some (st', i') -> pulled pre es st st' i i'.
Proof.
  revert pre st i. induction es as [|e es IH]; intros pre st i Hwf Hcr; cbn [pull_events].
  - intros [= <- <-]. split_and!; [|done|by rewrite app_nil_r|done|by intros [|]].
    exists (i_queue i). split; [by destruct i as [[] ? ? ?]|done].
  - destruct (pull_event _ _ _ _ _ _ _ _) as [[st1 i1]|] eqn:E; [|done]. intros H.
    pose proof (pull_event_spec _ _ _ _ _ _ Hwf Hcr E) as Hp. apply (pulled_trans pre [e] es st st1 st' i i1 i' Hp).
    destruct Hp as ((q & -> & Hq) & _ & Hc & _). by apply IH.
Qed.

End PullSpec.

Lemma fold_max_le l x : x <= fold_left Z.max l x /\ forall y, y ∈ l -> y <= fold_left Z.max l x.
Proof.
  revert x. induction l as [|z l IH]; intros x; cbn [fold_left]; [split; [lia|set_solver]|].
  destruct (IH (Z.max x z)) as [H1 H2]. split; [lia|]. intros y [->|Hy]%elem_of_cons; [lia|by apply H2].
Qed.

(** ** Properties *)

(** A pull of the PyPI changelog misses nothing its gate admits and never goes
    back: without database errors, every event of the batch that names a version, removes
    nothing and passes the gate (a focus or watched package, or one whose creation stands
    in the batch before it) is queued afterwards, nothing queued is lost, and the stored
    serial becomes the largest of the batch and the old one. *)
Theorem pypi_pull_complete g o exclusive max_items i serial es n i'
    (Hretry : 0 <= ENQUEUE_DEADLOCK_RETRIES (g_queue g)) (Hfaults : forall j a, faults o j a = None)
    (Hwf : table_wf (i_queue i)) (Hcur : get_cursor ECOSYSTEM i = Some serial)
    (Hlog : changelog_since_serial o serial = Some es) (Hrun : pull_since g o exclusive max_items i = (Polled n, i')) :
  let taken := take_items max_items es in
  (forall es1 e es2 p, taken = es1 ++ e :: es2 -> releases e = true ->
    gate g exclusive (clock o) (load_focus_names ECOSYSTEM (i_focus i)) (load_scopes ECOSYSTEM (scopes (i_store i)))
      (load_watch_names ECOSYSTEM (i_maint i)) (e_name e) (created_in (es1 ++ [e])) i = Some p ->
    queued (ECOSYSTEM, e_name e, ostr (e_version e)) (i_queue i')) /\
  (forall k, queued k (i_queue i) -> queued k (i_queue i')) /\
  get_cursor ECOSYSTEM i' = Some (fold_left Z.max (map e_serial taken) serial).
Proof.
  intros taken. unfold pull_since, get_last_serial in Hrun. rewrite Hcur, Hlog in Hrun. destruct es as [|e0 es].
  { injection Hrun as <- <-. unfold taken, take_items. assert (match max_items with Some n => List.firstn n [] | None => [] end = @nil event) as ->
      by (destruct max_items as [[|?]|]; done). split_and!; [by intros [|]|done|done]. }
  fold taken in Hrun. destruct (pull_events _ _ _ _ _ _ _ _) as [[st i1]|] eqn:E; [|done]. injection Hrun as <- <-.
  apply (pull_events_spec _ _ _ _ _ _ Hretry Hfaults taken [] _ _ _ _ Hwf) in E as ((q & -> & Hq) & Hk & _ & Hm & Ha); [|done].
  cbn [p_max] in Hm. assert (forall j : ingest_db, i_queue (if serial <? p_max st then set_cursor ECOSYSTEM (p_max st) j else j) = i_queue j) as Hj
    by (intros j; by destruct (_ <? _)).
  rewrite !Hj. split_and!; [|done|].
  - intros es1 e es2 p Et Hr Hg. by apply (Ha es1 e es2 p).
  - rewrite <- Hm. pose proof (fold_max_le (map e_serial taken) serial) as [Hle _]. rewrite <- Hm in Hle.
    destruct (Z.ltb_spec serial (p_max st)); [apply get_set_cursor|]. rewrite get_cursor_queue, Hcur. f_equal. lia.
Qed.

(** ** Concrete runs *)

Definition ex_log (since : Z) : list event :=
  bfilter (fun e => since <? e_serial e)
    [mkEvent "evil" None (Some "create"%string) 101; mkEvent "evil" (Some "1.0"%string) (Some "new release"%string) 102;
     mkEvent "evil" (Some "1.0"%string) (Some "remove release"%string) 103].
Definition ex_outside (last : option Z) (flt : option string) : outside := mkPypiOutside last (fun since => Some (ex_log since)) (fun _ _ => flt) 1.
Definition ex_ingest : ingest_db := mkIngest empty_db empty_table empty_table [("pypi"%string, 100)].
Definition ex_pull (max_items : option nat) (i : ingest_db) := pull_since default_gate (ex_outside None None) false max_items i.

Lemma pypi_pull_complete_witness :
  queued ("pypi", "evil", "1.0")%string (i_queue (ex_pull None ex_ingest).2) /\ get_cursor ECOSYSTEM (ex_pull None ex_ingest).2 = Some 103.
Proof.
  destruct (pypi_pull_complete default_gate (ex_outside None None) false None ex_ingest 100 (ex_log 100) 1 (ex_pull None ex_ingest).2) as (Hq & _ & Hc);
    [by vm_compute|done|split; constructor|reflexivity|reflexivity|vm_compute; reflexivity|].
  split; [|exact Hc].
  apply (Hq [mkEvent "evil" None (Some "create"%string) 101] (mkEvent "evil" (Some "1.0"%string) (Some "new release"%string) 102)
    [mkEvent "evil" (Some "1.0"%string) (Some "remove release"%string) 103] PNormal); vm_compute; reflexivity.
Defined.

(** The set of created packages does not outlive the batch: when the creation is
    the last event taken, the release that follows is skipped and passed. *)
Example create_release_split :
  let i1 := (ex_pull (Some 1%nat) ex_ingest).2 in
  let i2 := (ex_pull (Some 1%nat) i1).2 in
  get_cursor ECOSYSTEM i2 = Some 102 /\ rows (i_queue i2) = [].
Proof. vm_compute. done. Qed.

(** When the bootstrap query fails, the pull still goes on, from serial 0: the
    whole history is asked for and its serial is stored. *)
Example bootstrap_failure_replays :
  let i := mkIngest empty_db empty_table empty_table [] in
  get_cursor ECOSYSTEM (ex_pull (Some 2%nat) i).2 = Some 102 /\ (ex_pull (Some 2%nat) i).1 = Polled 1.
Proof. vm_compute. done. Qed.

(** An event whose enqueue gives up is passed by the cursor. *)
Example pypi_deadlock_drops :
  let i := (pull_since default_gate (ex_outside None (Some "deadlock detected"%string)) false None ex_ingest).2 in
  get_cursor ECOSYSTEM i = Some 103 /\ rows (i_queue i) = [].
Proof. vm_compute. done. Qed.

(** The filter against the channel's own title hides every package whose name
    begins with [pypi]. *)
Example pypi_prefix_hidden :
  parse_feed (fun _ => true) "<title>PyPI recent updates</title><item><title>left-pad 1.0</title></item><item><title>pypi-stats 2.0</title></item>"
    = [("left-pad", "1.0")]%string /\
  parse_new_package_names "<title>pypi-stats added to PyPI</title><title>evil added to PyPI</title>" = ["evil"%string].
Proof. vm_compute. done. Qed.
