(* ===== verification/MaintPivot.v ===== *)
(** * The maintainer pivot

    [src/pkgward/maintainer_pivot.py]: a confirmed conviction force-scans the
    other packages of the same account.  Web pages and JSON documents, the
    clocks and the database errors are arguments; what other sessions commit
    happens between the three transactions. *)
From S2P Require Import Prelude PyStr Text Sql Findings Jobs ScanQueue Intel Score Json Triage Watch Scope Store Focus MaintWatch Anomaly Ingest.
From Stdlib Require Import Ascii String.
From stdpp Require Import gmap strings.

Open Scope list_scope.
Open Scope Z_scope.

Definition SUPPORTED : list string := ["pypi"; "npm"].
Definition NON_PRIMARY : list string := ["iocs"; "dep_intel"; "metadata"; "version_diff"].
(** 0.95. *)
Definition HIGH_FIDELITY_CONF : double := SpecFloat.S754_finite false 8556839292003942 (-53).

(** What the module reads from the environment; times in microseconds. *)
Record PivotConfig := mkPivot {
  MAINTAINER_PIVOT : option string;
  PIVOT_SHADOW : option string;
  pv_max_pkgs : Z;
  pv_corr_days : Z;
  pv_dedup_ttl : Z;
  TRIGGER_ALLOW : option string;
  TRIGGER_DENY : option string;
  pv_auto : AutoConfig;
  pv_watch : MwConfig;
  pv_queue : QueueConfig;
  pv_chain_ids : gset string;
}.
Definition default_pivot : PivotConfig := mkPivot None None 100 30 (seconds 3600) None None default_auto default_mw default_config ∅.

Definition off_value (v : option string) : bool := str_in (lower (default "1" v)) ["0"; "false"; "off"; "no"].

(** [_trigger_rule_set]. *)
Definition trigger_rule_set (v : option string) : list string :=
  let raw := strip (default "" v) in
  if truthy raw then omap (fun t => nonempty (strip t)) (PyStr.split ","%char raw) else [].

Section Trigger.
Variable cfg : PivotConfig.

Definition is_enabled : bool := negb (off_value (MAINTAINER_PIVOT cfg)).
Definition is_shadow : bool := negb (off_value (PIVOT_SHADOW cfg)).
Definition trigger_allow : list string := trigger_rule_set (TRIGGER_ALLOW cfg).
Definition trigger_deny : list string := trigger_rule_set (TRIGGER_DENY cfg).

(** ** The trigger gate *)

Definition severe (f : Finding) : bool := bool_decide (f_severity f = SHigh) || bool_decide (f_severity f = SCritical).
Definition rule_allowed (f : Finding) : bool :=
  negb (str_in (rule_id f) trigger_deny) && (bool_decide (trigger_allow = []) || str_in (rule_id f) trigger_allow).

Definition eligible (f : Finding) : bool :=
  negb (is_shadow_finding f) && severe f && negb (str_in (category f) NON_PRIMARY) && rule_allowed f.
Definition trigger_eligible_findings (fs : list Finding) : list Finding := bfilter eligible fs.

Inductive trigger := Chain (rule : string) | ThreatIntel (rule : string) | LlmConf (conf : double) | Correlation (n : Z).

Definition finding_trigger (f : Finding) : option trigger :=
  if is_shadow_finding f || negb (severe f) || negb (rule_allowed f) then None
  else if bool_decide (rule_id f ∈ pv_chain_ids cfg) then Some (Chain (rule_id f))
  else if String.eqb (category f) "threat_intel" then Some (ThreatIntel (rule_id f)) else None.

(** [getattr(tri, "confidence", None) or 0.0]. *)
Definition llm_trigger (tri : option LLMTriageResult) : option trigger :=
  match tri with
  | None => None
  | Some t =>
      let conf := if float_truthy (r_confidence t) then r_confidence t else f_zero in
      if bool_decide (r_verdict t = VMalicious) && float_ge conf HIGH_FIDELITY_CONF then Some (LlmConf conf) else None
  end.

Definition high_fidelity (fs : list Finding) (tri : option LLMTriageResult) : option trigger :=
  match head (omap finding_trigger fs) with Some t => Some t | None => llm_trigger tri end.

(** ** One sweep per account and period *)

Definition dedup_key (eco maintainer : string) : string := eco +:+ ":" +:+ lower maintainer.

Definition recently_swept (now : Z) (k : string) (recent : list (string * Z)) : bool :=
  if pv_dedup_ttl cfg <=? 0 then false
  else match dget k recent with Some ts => now - ts <? pv_dedup_ttl cfg | None => false end.

Definition mark_swept (now : Z) (k : string) (recent : list (string * Z)) : list (string * Z) :=
  let recent := dset k now recent in
  if (0 <? pv_dedup_ttl cfg) && (4096 <? Z.of_nat (List.length recent)) then
    bfilter (fun kv => negb (kv.2 <? now - pv_dedup_ttl cfg)) recent
  else recent.
End Trigger.

(** ** The account's catalog *)

Definition link_stop (c : ascii) : bool := Ascii.eqb c "/"%char || Ascii.eqb c DQ.
Definition href (kind : string) : string := "href=" +:+ String DQ ("/" +:+ kind +:+ "/").
Definition link_end : string := String "/"%char (String DQ "").
Definition parse_pypi_maintainers (html : string) : list string := dedup (find_groups (href "user") link_stop link_end html).
Definition parse_pypi_user_projects (html : string) : list string := dedup (find_groups (href "project") link_stop link_end html).

(** Iterating a decoded value; [None] raises. *)
Definition iter_json (v : json) : option (list json) :=
  match v with
  | JArr l => Some l
  | JObj o => Some (map (fun kv => JStr kv.1) (Anomaly.Npm.jitems o))
  | JStr s => Some (map (fun c => JStr (String c "")) (list_ascii_of_string s))
  | _ => None
  end.
Definition iter_or_empty (v : json) : option (list json) := if json_truthy v then iter_json v else Some [].

Definition add_maintainer (acc : list json) (m : json) : list json :=
  match m with
  | JObj o => let nm := jget "name" o JNull in if json_truthy nm && negb (existsb (Anomaly.Npm.json_eq nm) acc) then acc ++ [nm] else acc
  | _ => acc
  end.
Definition parse_npm_maintainers (packument : list (string * json)) : option (list json) :=
  match iter_or_empty (jget "maintainers" packument JNull) with Some l => Some (fold_left add_maintainer l []) | None => None end.

(** The outside of a sweep.  [get_text]: the page, empty when it could not be read,
    [None] when the address was refused with an exception; [get_json] likewise.
    [mono k]: the k-th reading of the monotonic clock for the dedup map; [late k]:
    the version budget is over at the k-th look-up; [world k]: what other sessions
    commit before transaction [k]. *)
Record outside := mkPivotOutside {
  get_text : string -> option string;
  get_json : string -> option (option json);
  str_of : json -> string;
  mono : nat -> Z;
  late : nat -> bool;
  corr_ok : bool;
  watch_ok : bool;
  faults : nat -> nat -> option string;
  world : nat -> ingest_db -> ingest_db;
  clock : timestamp;
}.

Section Catalog.
Variable o : outside.

Definition add_search (out : list (string * string)) (obj : json) : list (string * string) :=
  match obj with
  | JObj ob =>
      match jget "package" ob JNull with
      | JObj pkg =>
          let nm := jget "name" pkg JNull in
          let ver := jget "version" pkg JNull in
          if json_truthy nm then dset (str_of o nm) (if json_truthy ver then str_of o ver else "") out else out
      | _ => out
      end
  | _ => out
  end.
Definition parse_npm_search (search : list (string * json)) : option (list (string * string)) :=
  match iter_or_empty (jget "objects" search JNull) with Some l => Some (fold_left add_search l []) | None => None end.

Definition pypi_projects (catalog : option (list string)) (user : string) : option (list string) :=
  match catalog, get_text o ("https://pypi.org/user/" +:+ user +:+ "/") with
  | Some c, Some html => Some (append_new c (parse_pypi_user_projects html))
  | _, _ => None
  end.
Definition pypi_resolve (nm : string) : option (list json * list (string * string)) :=
  match get_text o ("https://pypi.org/project/" +:+ nm +:+ "/") with
  | None => None
  | Some html =>
      let maintainers := parse_pypi_maintainers html in
      match fold_left pypi_projects (List.firstn 3 maintainers) (Some []) with
      | Some c => Some (map JStr maintainers, map (fun n => (n, ""%string)) c)
      | None => None
      end
  end.

Definition npm_search (catalog : option (list (string * string))) (user : json) : option (list (string * string)) :=
  match catalog, get_json o ("https://registry.npmjs.org/-/v1/search?text=maintainer:" +:+ str_of o user +:+ "&size=250") with
  | Some c, Some (Some (JObj res)) => match parse_npm_search res with Some found => Some (dupdate c found) | None => None end
  | Some c, Some _ => Some c
  | _, _ => None
  end.
Definition npm_resolve (nm : string) : option (list json * list (string * string)) :=
  match get_json o ("https://registry.npmjs.org/" +:+ nm) with
  | None => None
  | Some doc =>
      match (match doc with Some (JObj p) => parse_npm_maintainers p | _ => Some [] end) with
      | None => None
      | Some maintainers =>
          match fold_left npm_search (List.firstn 3 maintainers) (Some []) with
          | Some c => Some (maintainers, c)
          | None => None
          end
      end
  end.
Definition resolve (eco nm : string) : option (list json * list (string * string)) :=
  if String.eqb eco "pypi" then pypi_resolve nm else npm_resolve nm.

(** [_pypi_latest_version(name) or ""]; the outer [None] raises. *)
Definition pypi_latest_version (nm : string) : option string :=
  match get_json o ("https://pypi.org/pypi/" +:+ nm +:+ "/json") with
  | None => None
  | Some (Some (JObj data)) =>
      let info := jget "info" data JNull in
      if negb (json_truthy info) then Some ""%string
      else match info with
      | JObj i => let v := jget "version" i JNull in Some (if json_truthy v then str_of o v else ""%string)
      | _ => None
      end
  | Some _ => Some ""%string
  end.
End Catalog.

(** ** The sweep *)

(** [_double_confirmed_names]: recent scans both sides called malicious. *)
Definition double_malicious (since : timestamp) (sc : Scan) : bool :=
  bool_decide (sc_verdict sc = VMalicious) &&
  match sc_llm sc with Some l => bool_decide (llm_verdict l = VMalicious) | None => false end && finished_since since sc.

(** The packages of the scans that satisfy [p]. *)
Definition scan_packages (p : Scan -> bool) (d : db) : list Package :=
  flat_map (fun sc =>
    flat_map (fun v => select (fun pk => v_package_id v =? p_id pk) (packages d))
      (select (fun v => sc_version_id sc =? v_id v) (versions d)))
    (select p (scans d)).

Definition double_confirmed_names (cfg : PivotConfig) (now : timestamp) (eco : string) (names : list string) (d : db) : list string :=
  let lowered := map lower names in
  dedup (map (fun pk => lower (p_name pk))
    (bfilter (fun pk => String.eqb (p_ecosystem pk) eco && str_in (lower (p_name pk)) lowered)
      (scan_packages (double_malicious (now - days (pv_corr_days cfg))) d))).

(** [_enqueue_catalog]; [k] counts the look-ups, [j] the enqueue calls, and the
    exception of a look-up rolls everything back ([None]). *)
Fixpoint enqueue_catalog (cfg : PivotConfig) (o : outside) (eco exclude : string) (k j : nat) (catalog : list (string * string)) (q : queue) : option (Z * queue) :=
  match catalog with
  | [] => Some (0, q)
  | (nm, ver) :: rest =>
      if String.eqb (lower nm) (lower exclude) then enqueue_catalog cfg o eco exclude k j rest q
      else if negb (truthy ver) && late o k then Some (0, q)
      else
        let lookup := negb (truthy ver) && String.eqb eco "pypi" in
        let k := if truthy ver then k else S k in
        match (if lookup then pypi_latest_version o nm else Some ver) with
        | None => None
        | Some ver =>
            if negb (truthy ver) then enqueue_catalog cfg o eco exclude k j rest q
            else
              let '(r, q') := enqueue (pv_queue cfg) quiet (faults o j) (clock o) eco nm ver PHigh false q in
              match enqueue_catalog cfg o eco exclude k (S j) rest q' with
              | Some (n, q'') => Some (n + match r with Returned _ => 1 | Raised _ => 0 end, q'')
              | None => None
              end
        end
  end.

(** [_register_clean_watches]: one transaction; add_watch always answers. *)
Definition register_watch (cfg : PivotConfig) (now : timestamp) (eco maintainer : string) (acc : Z * mtable) (sib : string) : Z * mtable :=
  if blocklisted (pv_auto cfg) eco sib then acc
  else (acc.1 + 1, (add_watch (fun t => t) now eco sib (Some maintainer) acc.2).2).
Definition register_clean_watches (cfg : PivotConfig) (now : timestamp) (eco maintainer : string) (siblings : list string) (t : mtable) : Z * mtable :=
  if negb (mw_enabled (pv_watch cfg)) then (0, t) else fold_left (register_watch cfg now eco maintainer) siblings (0, t).

Definition set_maint (t : mtable) (i : ingest_db) : ingest_db := mkIngest (i_store i) (i_focus i) t (i_cursors i).

Inductive outcome :=
  | Disabled | UnsupportedEcosystem | BlocklistedName | NoPrimaryEvidence | ResolveFailed | NoMaintainer
  | Deduped (maintainer : string) | CatalogTooLarge (maintainer : string) (size : Z)
  | NoCorrelation (maintainer : string) (corr size : Z)
  | Shadow (maintainer : string) (size : Z) (why : trigger) (would_watch : Z)
  | Swept (maintainer : string) (size enqueued watched : Z) (why : trigger)
  | SweepRaised.

Definition pivot_trigger (hi : option trigger) (corr : Z) : option trigger :=
  match hi with Some t => Some t | None => if 2 <=? corr then Some (Correlation corr) else None end.

(** The active part, once triggered. *)
Definition run_sweep (cfg : PivotConfig) (o : outside) (eco nm maintainer : string) (size : Z) (why : trigger) (catalog : list (string * string))
    (siblings : list string) (i : ingest_db) : outcome * ingest_db :=
  let i := world o 1 i in
  match enqueue_catalog cfg o eco nm 0 0 catalog (i_queue i) with
  | None => (SweepRaised, i)
  | Some (enqueued, q) =>
      let i := world o 2 (set_queue q i) in
      let '(watched, t) := register_clean_watches cfg (clock o) eco maintainer siblings (i_maint i) in
      if watch_ok o then (Swept maintainer size enqueued watched why, set_maint t i) else (Swept maintainer size enqueued 0 why, i)
  end.

Definition sweep_on_malicious (cfg : PivotConfig) (o : outside) (eco nm : string) (fs : list Finding) (tri : option LLMTriageResult) (manual : bool)
    (recent : list (string * Z)) (i : ingest_db) : outcome * list (string * Z) * ingest_db :=
  if negb (is_enabled cfg) then (Disabled, recent, i)
  else if negb (str_in eco SUPPORTED) then (UnsupportedEcosystem, recent, i)
  else if blocklisted (pv_auto cfg) eco nm then (BlocklistedName, recent, i)
  else
    let hi := high_fidelity cfg fs tri in
    if negb manual && bool_decide (trigger_eligible_findings cfg fs = []) && bool_decide (hi = None) then (NoPrimaryEvidence, recent, i)
    else match resolve o eco nm with
    | None => (ResolveFailed, recent, i)
    | Some ([], _) => (NoMaintainer, recent, i)
    | Some (JStr maintainer :: _, catalog) =>
        let key := dedup_key eco maintainer in
        if recently_swept cfg (mono o 0) key recent then (Deduped maintainer, recent, i)
        else
          let names := dedup (nm :: catalog.*1) in
          let size := Z.of_nat (List.length names) in
          if pv_max_pkgs cfg <? size then (CatalogTooLarge maintainer size, mark_swept cfg (mono o 1) key recent, i)
          else
            let i := world o 0 i in
            let malicious := if corr_ok o then double_confirmed_names cfg (clock o) eco names (i_store i) else [] in
            let corr := Z.of_nat (List.length malicious) in
            match pivot_trigger hi corr with
            | None => (NoCorrelation maintainer corr size, recent, i)
            | Some why =>
                let recent := mark_swept cfg (mono o 1) key recent in
                let siblings := bfilter (fun c => negb (str_in (lower c) (lower nm :: malicious))) (catalog.*1) in
                if is_shadow cfg then (Shadow maintainer size why (Z.of_nat (List.length siblings)), recent, i)
                else
                  let '(res, i) := run_sweep cfg o eco nm maintainer size why catalog siblings i in (res, recent, i)
            end
    | Some (_ :: _, _) => (SweepRaised, recent, i)
    end.

(** ** Lemmas *)

(** What a pass over the catalog queues. *)
Definition catalog_key (eco exclude : string) (catalog : list (string * string)) (k : string * string * string) : Prop :=
  exists nm ver, k = (eco, nm, ver) /\ nm ∈ catalog.*1 /\ lower nm <> lower exclude.

Lemma enqueue_catalog_spec cfg o eco exclude catalog k j q n q' : table_wf q ->
  enqueue_catalog cfg o eco exclude k j catalog q = Some (n, q') ->
  table_wf q' /\ (forall key, queued key q -> queued key q') /\
  (forall key, queued key q' -> queued key q \/ catalog_key eco exclude catalog key) /\ 0 <= n <= Z.of_nat (List.length catalog).
Proof.
  revert k j q n. induction catalog as [|[nm ver] rest IH]; intros k j q n Hwf; cbn [enqueue_catalog].
  { intros [= <- <-]. split_and!; try done; auto. }
  assert (forall key, catalog_key eco exclude rest key -> catalog_key eco exclude ((nm, ver) :: rest) key) as Hmono.
  { intros key (n0 & v0 & -> & Hin & Hne). exists n0, v0. split_and!; [done|by apply elem_of_cons; right|done]. }
  assert (forall k j n, enqueue_catalog cfg o eco exclude k j rest q = Some (n, q') ->
    table_wf q' /\ (forall key, queued key q -> queued key q') /\
    (forall key, queued key q' -> queued key q \/ catalog_key eco exclude ((nm, ver) :: rest) key) /\ 0 <= n <= Z.of_nat (List.length ((nm, ver) :: rest))) as Hskip.
  { intros k' j' n' E. destruct (IH _ _ _ _ Hwf E) as (H1 & H2 & H3 & H4). split_and!; [done|done|naive_solver|lia|cbn [List.length]; lia]. }
  destruct (String.eqb_spec (lower nm) (lower exclude)) as [|Hne]; [by apply Hskip|].
  destruct (negb (truthy ver) && late o k); [intros [= <- <-]; split_and!; auto; cbn [List.length]; lia|].
  destruct (if negb (truthy ver) && String.eqb eco "pypi" then _ else _) as [ver'|]; [|done].
  destruct (negb (truthy ver')); [by apply Hskip|].
  pose proof (enqueue_wf (pv_queue cfg) (faults o j) (clock o) eco nm ver' PHigh false q Hwf) as Hw.
  pose proof (fun key H => proj2 (enqueue_keeps (pv_queue cfg) (faults o j) (clock o) eco nm ver' PHigh q key Hwf H)) as Hk.
  pose proof (fun key => enqueue_only (pv_queue cfg) (faults o j) (clock o) eco nm ver' PHigh q key Hwf) as Ho.
  destruct (enqueue _ _ _ _ _ _ _ _ _ q) as [r q1]. cbn [snd] in *.
  destruct (enqueue_catalog cfg o eco exclude _ (S j) rest q1) as [[n1 q2]|] eqn:E; [|done]. intros [= <- <-].
  destruct (IH _ _ _ _ Hw E) as (H1 & H2 & H3 & H4). split_and!.
  - done.
  - intros key Hq. by apply H2, Hk.
  - intros key [Hq|Hq]%H3; [|right; by apply Hmono]. apply Ho in Hq as [Hq| ->]; [by left|right].
    exists nm, ver'. split_and!; [done|cbn; by constructor|done].
  - destruct r; lia.
  - destruct r; cbn [List.length]; lia.
Qed.

(** Where the watches of a table come from. *)
Definition watches_from (eco : string) (ok : string -> Prop) (t t' : mtable) : Prop :=
  forall w, w ∈ rows t' -> (exists w0, w0 ∈ rows t /\ mw_key w = mw_key w0) \/ (mw_ecosystem w = eco /\ ok (mw_name w)).

Lemma add_watch_from now eco nm m t (ok : string -> Prop) : ok nm -> watches_from eco ok t (add_watch (fun t => t) now eco nm m t).2.
Proof.
  intros Hok. unfold add_watch. destruct (negb _); [intros w Hw; left; by exists w|].
  destruct (first (same_watch eco nm) t) as [w0|] eqn:E; cbn [snd].
  - apply head_in, select_in in E as [Hin _]. intros w [-> |[Hw _]]%put_in; left; [by exists w0|by exists w].
  - destruct (insert_unique _ _ _) as [[t' r]|] eqn:Ei; cbn [snd]; [|intros w Hw; left; by exists w].
    apply insert_unique_inv in Ei as (-> & _). intros w [Hw| ->]%insert_in; [left; by exists w|by right].
Qed.

Lemma watches_from_trans eco ok t t1 t2 : watches_from eco ok t t1 -> watches_from eco ok t1 t2 -> watches_from eco ok t t2.
Proof.
  intros H1 H2 w [(w1 & Hw1 & Hk)|H]%H2; [|by right]. destruct (H1 _ Hw1) as [(w0 & Hw0 & Hk0)|[He Hok]].
  - left. exists w0. split; [done|congruence].
  - right. unfold mw_key in Hk. injection Hk as -> ->. done.
Qed.

Lemma register_from cfg now eco m siblings t :
  watches_from eco (fun n => n ∈ siblings /\ blocklisted (pv_auto cfg) eco n = false) t (register_clean_watches cfg now eco m siblings t).2.
Proof.
  unfold register_clean_watches. destruct (negb _); [intros w Hw; left; by exists w|].
  assert (forall l acc, (forall x, x ∈ l -> x ∈ siblings) ->
    watches_from eco (fun n => n ∈ siblings /\ blocklisted (pv_auto cfg) eco n = false) acc.2 (fold_left (register_watch cfg now eco m) l acc).2) as H; [|by apply (H siblings (0, t))].
  induction l as [|sib l IH]; intros acc Hl; cbn [fold_left]; [intros w Hw; left; by exists w|].
  eapply watches_from_trans; [|apply IH; intros x Hx; apply Hl; by right].
  unfold register_watch. destruct (blocklisted (pv_auto cfg) eco sib) eqn:Eb; [intros w Hw; left; by exists w|].
  apply add_watch_from. split; [apply Hl; by left|done].
Qed.

Lemma set_maint_same i : i = set_maint (i_maint i) i.
Proof. by destruct i. Qed.

Lemma mark_swept_get cfg now k recent : dget k (mark_swept cfg now k recent) = Some now \/ pv_dedup_ttl cfg <= 0.
Proof.
  unfold mark_swept. destruct (Z.ltb_spec 0 (pv_dedup_ttl cfg)) as [Ht|]; [left|by right]. cbn [andb].
  destruct (4096 <? _); [|apply dget_dset_eq].
  assert (forall d : list (string * Z), dget k d = Some now -> dget k (bfilter (fun kv => negb (kv.2 <? now - pv_dedup_ttl cfg)) d) = Some now) as H
    by (induction d as [|[k' v] d IH]; cbn [dget List.filter snd]; [done|];
        destruct (decide (k = k')) as [->|Hne];
        [intros [= ->]; rewrite (proj2 (Z.ltb_ge now (now - pv_dedup_ttl cfg))) by lia; cbn [negb dget]; by rewrite decide_True
        |intros Hd; destruct (negb _); cbn [dget]; [rewrite decide_False by done|]; by apply IH]).
  apply H, dget_dset_eq.
Qed.

(** The outcomes that count as a sweep of an account. *)
Definition settled_for (out : outcome) (m : string) : Prop :=
  (exists n, out = CatalogTooLarge m n) \/ (exists n t w, out = Shadow m n t w) \/ (exists n e w t, out = Swept m n e w t).

(** ** Properties *)

(** C17. The pivot only ever force-scans, and only on strong evidence.  If a call sweeps,
    then the module was active, the registry supported and the name not blocklisted; on
    the automatic path there was primary or high-fidelity evidence; the trigger is a
    high-fidelity conviction or at least two packages of the account that both the rules
    and the model recently called malicious; the catalog was within the cap and the
    account not swept recently.  What it changed: rows queued at most for the other
    packages of the catalog, watches added at most on catalog packages that are neither
    the trigger, nor known malicious, nor blocklisted, and nothing else - in particular
    not the watchlist. *)
Theorem pivot_sweep_justified cfg o eco nm fs tri manual recent i m size enq watched why recent' i'
    (Hwf : table_wf (i_queue i)) (Hworld : forall k j, table_wf (i_queue j) -> table_wf (i_queue (world o k j)))
    (Hrun : sweep_on_malicious cfg o eco nm fs tri manual recent i = (Swept m size enq watched why, recent', i')) :
  (is_enabled cfg = true /\ is_shadow cfg = false /\ str_in eco SUPPORTED = true /\ blocklisted (pv_auto cfg) eco nm = false) /\
  (manual = true \/ trigger_eligible_findings cfg fs <> [] \/ high_fidelity cfg fs tri <> None) /\
  exists ms catalog, resolve o eco nm = Some (JStr m :: ms, catalog) /\ recently_swept cfg (mono o 0) (dedup_key eco m) recent = false /\
    size = Z.of_nat (List.length (dedup (nm :: catalog.*1))) /\ size <= pv_max_pkgs cfg /\
    let dc := double_confirmed_names cfg (clock o) eco (dedup (nm :: catalog.*1)) (i_store (world o 0 i)) in
    (high_fidelity cfg fs tri = Some why \/ (why = Correlation (Z.of_nat (List.length dc)) /\ (2 <= List.length dc)%nat)) /\
    let i1 := world o 1 (world o 0 i) in
    exists q, let i2 := world o 2 (set_queue q i1) in
      (forall k, queued k (i_queue i1) -> queued k q) /\
      (forall k, queued k q -> queued k (i_queue i1) \/ catalog_key eco nm catalog k) /\
      i' = set_maint (i_maint i') i2 /\
      watches_from eco (fun n => n ∈ catalog.*1 /\ lower n <> lower nm /\ (corr_ok o = true -> lower n ∉ dc) /\ blocklisted (pv_auto cfg) eco n = false)
        (i_maint i2) (i_maint i').
Proof.
  unfold sweep_on_malicious in Hrun. destruct (is_enabled cfg) eqn:He; [|done]. destruct (str_in eco SUPPORTED) eqn:Hs; [|done].
  destruct (blocklisted (pv_auto cfg) eco nm) eqn:Hb; [done|]. cbn [negb] in Hrun.
  destruct (negb manual && bool_decide (trigger_eligible_findings cfg fs = []) && bool_decide (high_fidelity cfg fs tri = None)) eqn:Hev; [done|].
  destruct (resolve o eco nm) as [[[|[| | | |m'| |] ms] catalog]|] eqn:Hres; try done.
  destruct (recently_swept cfg (mono o 0) (dedup_key eco m') recent) eqn:Hrec; [done|].
  destruct (Z.ltb_spec (pv_max_pkgs cfg) (Z.of_nat (List.length (dedup (nm :: catalog.*1))))) as [|Hcap]; [done|].
  set (names := dedup (nm :: catalog.*1)) in *. set (dc := double_confirmed_names cfg (clock o) eco names (i_store (world o 0 i))) in *.
  destruct (pivot_trigger _ _) as [why'|] eqn:Ht; [|done]. destruct (is_shadow cfg) eqn:Hsh; [done|].
  unfold run_sweep in Hrun. destruct (enqueue_catalog _ _ _ _ _ _ _ _) as [[n q]|] eqn:Eq; [|done].
  set (sib := bfilter _ _) in *. set (i2 := world o 2 (set_queue q (world o 1 (world o 0 i)))) in *.
  pose proof (register_from cfg (clock o) eco m' sib (i_maint i2)) as Hreg.
  destruct (register_clean_watches _ _ _ _ _ _) as [w t]. cbn [snd] in Hreg.
  apply enqueue_catalog_spec in Eq as (_ & Hkeep & Honly & _); [|by apply Hworld, Hworld].
  assert (m' = m /\ size = Z.of_nat (List.length names) /\ why' = why /\ (i' = i2 \/ i' = set_maint t i2)) as (-> & -> & -> & Hi')
    by (destruct (watch_ok o); simplify_eq; auto).
  split_and!; [done..| |].
  { destruct manual; [by left|right]. cbn [negb andb] in Hev. apply andb_false_iff in Hev as [Hev%bool_decide_eq_false|Hev%bool_decide_eq_false]; auto. }
  exists ms, catalog. split; [done|]. split; [done|]. split; [done|]. split; [exact Hcap|]. fold names dc. cbv zeta. split.
  { unfold pivot_trigger in Ht. destruct (high_fidelity cfg fs tri) as [t0|]; [by left; injection Ht as ->|right].
    destruct (Z.leb_spec 2 (Z.of_nat (List.length (if corr_ok o then dc else [])))); [|done]. destruct (corr_ok o); [|cbn in *; lia].
    injection Ht as <-. split; [done|lia]. }
  exists q. split_and!; [done|done| |].
  { destruct Hi' as [->| ->]; [apply set_maint_same|done]. }
  destruct Hi' as [->| ->]; [intros x Hx; left; by exists x|]. intros x Hx. destruct (Hreg x Hx) as [?|[Hxe [Hin Hbl]]]; [by left|right].
  unfold sib in Hin. apply bfilter_in in Hin as [Hin Hno]. split; [done|]. apply negb_true_iff, bool_decide_eq_false in Hno.
  rewrite not_elem_of_cons in Hno. destruct Hno as [Hne Hno]. split_and!; [done|done|intros Hok; by rewrite Hok in Hno|done].
Qed.

(** An account is swept at most once per period, and everything short of an active
    sweep is inert.  A call that does not sweep leaves the database as other sessions
    made it; and after a sweep, a shadow sweep or an oversized catalog, every later call
    within the period that resolves to the same account - under any spelling, on any
    package, on any evidence, even the operator's - changes neither the database nor the
    map of recent sweeps. *)
Theorem pivot_once_per_period cfg o eco nm fs tri manual recent i out recent' i'
    (Hrun : sweep_on_malicious cfg o eco nm fs tri manual recent i = (out, recent', i')) :
  ((forall m n e w t, out <> Swept m n e w t) -> i' = i \/ i' = world o 0 i \/ i' = world o 1 (world o 0 i)) /\
  (forall m o2 nm2 fs2 tri2 manual2 i2 m2 ms2 catalog2,
    settled_for out m -> 0 < pv_dedup_ttl cfg -> mono o2 0 - mono o 1 < pv_dedup_ttl cfg ->
    resolve o2 eco nm2 = Some (JStr m2 :: ms2, catalog2) -> lower m2 = lower m ->
    (sweep_on_malicious cfg o2 eco nm2 fs2 tri2 manual2 recent' i2).2 = i2 /\
    (sweep_on_malicious cfg o2 eco nm2 fs2 tri2 manual2 recent' i2).1.2 = recent').
Proof.
  assert (((forall m n e w t, out <> Swept m n e w t) -> i' = i \/ i' = world o 0 i \/ i' = world o 1 (world o 0 i)) /\
    forall m, settled_for out m -> recent' = mark_swept cfg (mono o 1) (dedup_key eco m) recent) as [Hinert Hmark].
  { unfold sweep_on_malicious, run_sweep in Hrun. unfold settled_for. clear -Hrun.
    repeat (case_match; simplify_eq); (split; [try naive_solver|intros; naive_solver]). }
  split; [done|]. intros m o2 nm2 fs2 tri2 manual2 i2 m2 ms2 catalog2 Hset Httl Hin Hres Hm.
  specialize (Hmark m Hset). clear Hrun Hinert Hset.
  assert (recently_swept cfg (mono o2 0) (dedup_key eco m2) recent' = true) as Hrec.
  { unfold recently_swept. destruct (Z.leb_spec (pv_dedup_ttl cfg) 0); [lia|].
    assert (dedup_key eco m2 = dedup_key eco m) as -> by (unfold dedup_key; by rewrite Hm). rewrite Hmark.
    destruct (mark_swept_get cfg (mono o 1) (dedup_key eco m) recent) as [->|]; lia. }
  unfold sweep_on_malicious. rewrite Hres, Hrec. by repeat case_match.
Qed.

(** ** Concrete runs *)

Definition ex_pivot (shadow : option string) : PivotConfig :=
  mkPivot None shadow 100 30 (seconds 3600) None None default_auto default_mw default_config ∅.
Definition ex_npm (url : string) : option (option json) :=
  if String.eqb url "https://registry.npmjs.org/evil" then Some (Some (JObj [("maintainers", JArr [JObj [("name", JStr "Mallory")]])]%string))
  else Some (Some (JObj [("objects", JArr [
    JObj [("package", JObj [("name", JStr "left-pad"); ("version", JStr "1.3.0")])];
    JObj [("package", JObj [("name", JStr "evil"); ("version", JStr "6.6.6")])]])]%string)).
Definition ex_out : outside :=
  mkPivotOutside (fun _ => Some ""%string) ex_npm (fun v => match v with JStr s => s | _ => ""%string end) (fun _ => seconds 100)
    (fun _ => false) true true (fun _ _ => None) (fun _ i => i) 1.
Definition ex_intel : Finding := mkFinding "threat_intel_sha256_match" "threat_intel" SCritical CHigh "package/index.js" None "".
Definition ex_soft : Finding := mkFinding "secret_read" "secret_access" SHigh CHigh "package/index.js" None "".
Definition ex_ingest : ingest_db := mkIngest empty_db empty_table empty_table [].
Definition ex_sweep (shadow : option string) (fs : list Finding) (recent : list (string * Z)) :=
  sweep_on_malicious (ex_pivot shadow) ex_out "npm" "evil" fs None false recent ex_ingest.

Lemma ex_swept : (ex_sweep (Some "0"%string) [ex_intel] []).1 = (Swept "Mallory" 2 1 1 (ThreatIntel "threat_intel_sha256_match"), [("npm:mallory"%string, seconds 100)]).
Proof. vm_compute. reflexivity. Qed.

Lemma pivot_sweep_justified_witness :
  let i' := (ex_sweep (Some "0"%string) [ex_intel] []).2 in
  map key_of (rows (i_queue i')) = [("npm", "left-pad", "1.3.0")]%string /\ map mw_name (rows (i_maint i')) = ["left-pad"]%string /\
  str_in "npm" SUPPORTED = true.
Proof.
  cbv zeta. split; [vm_compute; reflexivity|]. split; [vm_compute; reflexivity|].
  destruct (pivot_sweep_justified (ex_pivot (Some "0"%string)) ex_out "npm" "evil" [ex_intel] None false [] ex_ingest "Mallory" 2 1 1
    (ThreatIntel "threat_intel_sha256_match") [("npm:mallory"%string, seconds 100)] (ex_sweep (Some "0"%string) [ex_intel] []).2) as ((_ & _ & H & _) & _).
  - split; constructor.
  - done.
  - vm_compute. reflexivity.
  - exact H.
Defined.

Lemma pivot_once_per_period_witness :
  (ex_sweep (Some "0"%string) [ex_intel] [("npm:mallory"%string, seconds 100)]).1.1 = Deduped "Mallory" /\
  (ex_sweep (Some "0"%string) [ex_intel] [("npm:mallory"%string, seconds 100)]).2 = ex_ingest.
Proof.
  split; [vm_compute; reflexivity|].
  destruct (pivot_once_per_period (ex_pivot (Some "0"%string)) ex_out "npm" "evil" [ex_intel] None false [] ex_ingest
    (Swept "Mallory" 2 1 1 (ThreatIntel "threat_intel_sha256_match")) [("npm:mallory"%string, seconds 100)] (ex_sweep (Some "0"%string) [ex_intel] []).2) as [_ H];
    [vm_compute; reflexivity|].
  refine (proj1 (H "Mallory"%string ex_out "evil"%string [ex_intel] None false ex_ingest "Mallory"%string []
    [("left-pad", "1.3.0"); ("evil", "6.6.6")]%string _ _ _ _ _)); [right; right; by eexists _, _, _, _|done|done|vm_compute; reflexivity|done].
Defined.

(** By default the sweep is only logged, and one soft conviction triggers nothing. *)
Example shadow_by_default :
  (ex_sweep None [ex_intel] []).1.1 = Shadow "Mallory" 2 (ThreatIntel "threat_intel_sha256_match") 1 /\ (ex_sweep None [ex_intel] []).2 = ex_ingest /\
  (ex_sweep (Some "0"%string) [ex_soft] []).1.1 = NoCorrelation "Mallory" 0 2.
Proof. vm_compute. done. Qed.

(** A maintainer list with something other than text in it raises out of the sweep. *)
Example odd_maintainer_raises :
  (sweep_on_malicious (ex_pivot None)
    (mkPivotOutside (get_text ex_out) (fun _ => Some (Some (JObj [("maintainers", JArr [JObj [("name", JInt 7)]])]%string))) (str_of ex_out)
      (mono ex_out) (late ex_out) true true (faults ex_out) (world ex_out) 1) "npm" "evil" [ex_intel] None false [] ex_ingest).1.1 = SweepRaised.
Proof. vm_compute. done. Qed.
