(* ===== verification/WatchRefresh.v ===== *)
(** * The weekly rebuild of the popularity watchlist

    [refresh_watchlist] of the four registries
    ([src/pkgward/ecosystems/*/ingest/watchlist.py]): the ranked list each
    makes of its sources, and the transaction that brings the table to it.
    PyPI and npm merge into the rows they find, crates and Go delete and
    insert.  Pages and documents fetched are arguments; a popularity score is an
    exact rational. *)
From S2P Require Import Prelude PyStr Text Sql Watch.
From Stdlib Require Import Ascii String QArith.

Open Scope list_scope.
Open Scope Z_scope.

(** What a list wants in the table: rank, name, downloads. *)
Record item := mkItem { i_rank : Z; i_name : string; i_downloads : Z }.

(** [enumerate(l, start=1)]. *)
Definition enumerate1 {A} (l : list A) : list (Z * A) := zip (map Z.of_nat (List.seq 1 (List.length l))) l.

(** ** The transactions *)

(** A row of the popularity list, as opposed to an automatic entry. *)
Definition popular (eco : string) (w : watch) : bool := String.eqb (w_ecosystem w) eco && negb (is_auto w).

Definition new_watch (now : timestamp) (eco : string) (it : item) (i : Z) : watch :=
  mkWatch i eco (i_name it) (i_rank it) (i_downloads it) now.
Definition update_watch (now : timestamp) (it : item) (w : watch) : watch :=
  mkWatch (w_id w) (w_ecosystem w) (w_name w) (i_rank it) (i_downloads it) now.

(** The flush of the added rows; [None]: the unique key is violated. *)
Fixpoint insert_all (now : timestamp) (eco : string) (its : list item) (t : wtable) : option wtable :=
  match its with
  | [] => Some t
  | it :: its' => match insert_unique w_key (new_watch now eco it) t with Some (t', _) => insert_all now eco its' t' | None => None end
  end.

(** crates and Go: [delete(Watchlist).where(...)], then an [add] per item. *)
Definition rebuild_table (now : timestamp) (eco : string) (its : list item) (t : wtable) : option wtable :=
  insert_all now eco its (delete_where (popular eco) t).

Section Merge.
(** How the loop looks a row up: by name (PyPI) or lower-cased name (npm). *)
Variable key : string -> string.

(** The dictionary of the rows found. *)
Definition existing (eco : string) (t : wtable) : list (string * watch) :=
  fold_left (fun d w => dset (key (w_name w)) w d) (select (popular eco) t) [].

Definition update_item (now : timestamp) (ex : list (string * watch)) (t : wtable) (it : item) : wtable :=
  match dget (key (i_name it)) ex with Some w => put (update_watch now it w) t | None => t end.
Definition stale_ids (ex : list (string * watch)) (its : list item) : list Z :=
  map (fun kw => w_id kw.2) (bfilter (fun kw => negb (str_in kw.1 (map (fun it => key (i_name it)) its))) ex).

(** The unit of work writes the new rows, then the changed ones, then deletes. *)
Definition merge_table (now : timestamp) (eco : string) (its : list item) (t : wtable) : option wtable :=
  let ex := existing eco t in
  let news := bfilter (fun it => negb (dhas (key (i_name it)) ex)) its in
  match insert_all now eco news t with
  | None => None
  | Some t1 => Some (delete_where (fun w => bool_decide (w_id w ∈ stale_ids ex its)) (fold_left (update_item now ex) its t1))
  end.
End Merge.

(** The end of a refresh: rows written, or the rolled back [IntegrityError]. *)
Inductive refresh_result := Written (n : Z) | IntegrityFailed.
Definition commit (n : Z) (t : wtable) (t' : option wtable) : refresh_result * wtable :=
  match t' with Some t' => (Written n, t') | None => (IntegrityFailed, t) end.

(** ** PyPI *)

Record top_entry := mkTop { project : option string; te_name : option string; download_count : option Z; te_downloads : option Z }.
Definition number (x : option Z) : Z := default 0 x.
Definition entry_name (e : top_entry) : string := str_or (ostr (project e)) (ostr (te_name e)).
Definition entry_downloads (e : top_entry) : Z := if number (download_count e) =? 0 then number (te_downloads e) else number (download_count e).
(** Entries without a name use up their rank. *)
Definition top_item (ie : Z * top_entry) : option item :=
  if truthy (entry_name ie.2) then Some (mkItem ie.1 (entry_name ie.2) (entry_downloads ie.2)) else None.
Definition pypi_items (top_n : nat) (rows_ : list top_entry) : list item := omap top_item (enumerate1 (List.firstn top_n rows_)).

(** [None]: the snapshot could not be fetched. *)
Definition pypi_refresh (now : timestamp) (top_n : nat) (snapshot : option (list top_entry)) (t : wtable) : refresh_result * wtable :=
  match snapshot with
  | None => (Written 0, t)
  | Some rows_ =>
      let its := pypi_items top_n rows_ in
      commit (Z.of_nat (List.length its)) t (merge_table (fun n => n) now "pypi" its t)
  end.

(** ** crates *)

Definition TOP_N : nat := Z.to_nat 10000.

(** The pages until one fails, is empty, or the list is long enough; [fuel] is
    [TOP_N], since every page that goes on has an item. *)
Fixpoint crates_pages (page_of : Z -> option (list (string * Z))) (fuel : nat) (page : Z) (acc : list (string * Z)) : list (string * Z) :=
  match fuel with
  | O => acc
  | S fuel' =>
      if (List.length acc <? TOP_N)%nat then
        match page_of page with
        | None | Some [] => acc
        | Some batch => crates_pages page_of fuel' (page + 1) (acc ++ batch)
        end
      else acc
  end.
Definition named_items (l : list (string * Z)) : list item := map (fun ie => mkItem ie.1 ie.2.1 ie.2.2) (enumerate1 l).

Definition crates_refresh (now : timestamp) (page_of : Z -> option (list (string * Z))) (t : wtable) : refresh_result * wtable :=
  match crates_pages page_of TOP_N 1 [] with
  | [] => (Written 0, t)
  | all_crates =>
      let top := List.firstn TOP_N all_crates in
      commit (Z.of_nat (List.length top)) t (rebuild_table now "crates" (named_items top) t)
  end.

(** ** npm *)

(** [candidates[name] = pop] when it beats the best so far. *)
Definition add_candidate (d : list (string * Q)) (np : string * Q) : list (string * Q) :=
  if negb (truthy np.1) then d
  else if Qle_bool np.2 (default (-1)%Q (dget np.1 d)) then d else dset np.1 np.2 d.
(** One answer per seed word, [None] when the search failed. *)
Definition search_popular (answers : list (option (list (string * Q)))) : list string :=
  let candidates := fold_left (fun d a => match a with Some objs => fold_left add_candidate objs d | None => d end) answers [] in
  map fst (ssort (fun a b => Qle_bool b.2 a.2) candidates).

(** [\[([^\]]+)\]\(https?://[^)]+\)] at the head: the text and the List.length. *)
Definition md_link (s : string) : option (string * nat) :=
  match s with
  | String c s' =>
      if Ascii.eqb c "["%char then
        let '(text, rest) := span_until (Ascii.eqb "]"%char) s' in
        let http := if startswith rest "](https://" then Some 10%nat else if startswith rest "](http://" then Some 9%nat else None in
        match http with
        | Some n =>
            let '(url, close) := span_until (Ascii.eqb ")"%char) (str_drop n rest) in
            if truthy text && truthy url && truthy close then Some (text, (1 + len text + n + len url + 1)%nat) else None
        | None => None
        end
      else None
  | EmptyString => None
  end.
Fixpoint md_links (skip : nat) (s : string) : list string :=
  match s with
  | EmptyString => []
  | String _ s' =>
      match skip with
      | S k => md_links k s'
      | O => match md_link s with Some (text, n) => text :: md_links (n - 1) s' | None => md_links O s' end
      end
  end.

(** [^(?:@A B*/)?A B*$]. *)
Definition npm_first (c : ascii) : bool := ((97 <=? code c) && (code c <=? 122)) || is_digit c || has_char c "-~"%string.
Definition npm_rest (c : ascii) : bool := npm_first c || has_char c "._"%string.
Definition npm_word (s : string) : bool := match s with String c s' => npm_first c && str_forall npm_rest s' | EmptyString => false end.
Definition npm_name (s : string) : bool :=
  match s with
  | String "@" s' => match after_first "/"%char s' with Some nm => npm_word (before_first "/"%char s') && npm_word nm | None => false end
  | _ => npm_word s
  end.

Fixpoint awesome_names (seen : list string) (texts : list string) : list string :=
  match texts with
  | [] => []
  | text :: texts' =>
      let cand := strip text in
      if str_in (lower cand) seen then awesome_names seen texts'
      else if npm_name cand then cand :: awesome_names (lower cand :: seen) texts'
      else awesome_names seen texts'
  end.
Definition fetch_awesome (readme : option string) : list string :=
  match readme with Some s => awesome_names [] (md_links O s) | None => [] end.

(** The first [top_n] names of the sources in order, once each up to case. *)
Fixpoint take_ordered (top_n : nat) (seen : list string) (names : list string) : list string :=
  match names with
  | [] => []
  | n :: names' =>
      if str_in (lower n) seen then take_ordered top_n seen names'
      else n :: (if (top_n <=? S (List.length seen))%nat then [] else take_ordered top_n (lower n :: seen) names')
  end.

Section Npm.
(** [CRITICAL_INFRA]: name and weight. *)
Variable critical : list (string * Z).

Definition downloads_map : list (string * Z) := fold_left (fun d nw => dset (lower nw.1) nw.2 d) critical [].
Definition npm_final (top_n : nat) (answers : list (option (list (string * Q)))) (readme : option string) : list string :=
  take_ordered top_n [] (map fst critical ++ search_popular answers ++ fetch_awesome readme).
Definition npm_items (final : list string) : list item :=
  map (fun ie => mkItem ie.1 ie.2 (dget_or (lower ie.2) 0 downloads_map)) (enumerate1 final).

Definition npm_refresh (now : timestamp) (top_n : nat) (answers : list (option (list (string * Q)))) (readme : option string)
    (t : wtable) : refresh_result * wtable :=
  match npm_final top_n answers readme with
  | [] => (Written 0, t)
  | final => commit (Z.of_nat (List.length final)) t (merge_table lower now "npm" (npm_items final) t)
  end.
End Npm.

(** ** Go *)

(** An answer of the GitHub search: rate limited (403), beyond the last result
    (422), any other failure, or repositories with their stars. *)
Inductive gh_response := Forbidden | Unprocessable | SearchFailed | Found (items : list (string * Z)).

(** [d[k] = v] unless [k] is there. *)
Definition add_absent (d : list (string * Z)) (k : string) (v : Z) : list (string * Z) := if dhas k d then d else dset k v d.
Definition add_repo (d : list (string * Z)) (repo : string * Z) : list (string * Z) :=
  if truthy repo.1 then add_absent d ("github.com/" +:+ repo.1)%string repo.2 else d.

(** One star bucket; [respond page attempt] is the answer to the attempt of that
    page.  [None]: out of fuel. *)
Fixpoint bucket_pages (respond : Z -> nat -> gh_response) (fuel : nat) (page : Z) (attempt : nat) (modules : list (string * Z)) : option (list (string * Z)) :=
  match fuel with
  | O => None
  | S fuel' =>
      if page <=? 10 then
        match respond page attempt with
        | Forbidden => bucket_pages respond fuel' page (S attempt) modules
        | Unprocessable | SearchFailed | Found [] => Some modules
        | Found items =>
            let modules := fold_left add_repo items modules in
            if (List.length items <? 100)%nat then Some modules else bucket_pages respond fuel' (page + 1) O modules
        end
      else Some modules
  end.

Definition STAR_BUCKETS : list (Z * option Z) :=
  [(10000, None); (5000, Some 9999); (2000, Some 4999); (1000, Some 1999); (500, Some 999); (200, Some 499); (100, Some 199); (50, Some 99)].

Fixpoint fetch_buckets (respond : Z * option Z -> Z -> nat -> gh_response) (fuel : nat) (buckets : list (Z * option Z)) (modules : list (string * Z)) : option (list (string * Z)) :=
  match buckets with
  | [] => Some modules
  | b :: buckets' =>
      if (TOP_N <=? List.length modules)%nat then Some modules
      else match bucket_pages (respond b) fuel 1 O modules with
        | Some modules => fetch_buckets respond fuel buckets' modules
        | None => None
        end
  end.
Definition fetch_github_top_go_repos (respond : Z * option Z -> Z -> nat -> gh_response) (fuel : nat) : option (list (string * Z)) :=
  fetch_buckets respond fuel STAR_BUCKETS [].

(** [https?://github\.com/([^/\s\)]+/[^/\s\)#]+)] at the head. *)
Definition owner_stop (c : ascii) : bool := Ascii.eqb c "/"%char || is_space c || Ascii.eqb c ")"%char.
Definition repo_stop (c : ascii) : bool := owner_stop c || Ascii.eqb c "#"%char.
Definition gh_repo (s : string) : option (string * nat) :=
  let http := if startswith s "https://github.com/" then Some 19%nat else if startswith s "http://github.com/" then Some 18%nat else None in
  match http with
  | None => None
  | Some n =>
      let '(owner, rest) := span_until owner_stop (str_drop n s) in
      let '(repo, _) := span_until repo_stop (str_drop 1 rest) in
      if truthy owner && startswith rest "/" && truthy repo
      then Some ((owner +:+ "/" +:+ repo)%string, (n + len owner + 1 + len repo)%nat) else None
  end.
Fixpoint gh_repos (skip : nat) (s : string) : list string :=
  match s with
  | EmptyString => []
  | String _ s' =>
      match skip with
      | S k => gh_repos k s'
      | O => match gh_repo s with Some (r, n) => r :: gh_repos (n - 1) s' | None => gh_repos O s' end
      end
  end.
Definition awesome_module (m : string) : option string :=
  match PyStr.split "/"%char (rstrip_char "."%char (rstrip_char "/"%char m)) with
  | [owner; repo] => Some ("github.com/" +:+ owner +:+ "/" +:+ repo)%string
  | _ => None
  end.
Definition fetch_awesome_go_modules (readme : option string) : list string :=
  match readme with Some s => dedup (omap awesome_module (gh_repos O s)) | None => [] end.

Definition add_starred (d : list (string * Z)) (ms : string * Z) : list (string * Z) :=
  match dget ms.1 d with
  | Some v => if v <? ms.2 then dset ms.1 ms.2 d else d
  | None => dset ms.1 ms.2 d
  end.
Definition go_ranked (critical gh : list (string * Z)) (awesome : list string) : list (string * Z) :=
  let combined := fold_left (fun d mw => dset mw.1 mw.2 d) critical [] in
  let combined := fold_left add_starred gh combined in
  let combined := fold_left (fun d m => add_absent d m 0) awesome combined in
  List.firstn TOP_N (ssort (asc (fun ms => - ms.2)) combined).

(** [None]: the collection of repositories did not come back within the fuel. *)
Definition go_refresh (critical : list (string * Z)) (respond : Z * option Z -> Z -> nat -> gh_response) (fuel : nat)
    (now : timestamp) (readme : option string) (t : wtable) : option (refresh_result * wtable) :=
  match fetch_github_top_go_repos respond fuel with
  | None => None
  | Some gh =>
      match go_ranked critical gh (fetch_awesome_go_modules readme) with
      | [] => Some (Written 0, t)
      | ranked => Some (commit (Z.of_nat (List.length ranked)) t (rebuild_table now "gomod" (named_items ranked) t))
      end
  end.

(** ** Lemmas *)

Lemma insert_all_news now eco its t t' : insert_all now eco its t = Some t' ->
  seq t' = seq t + Z.of_nat (List.length its) /\
  exists ws, rows t' = rows t ++ ws /\ Forall2 (fun w it => exists i, w = new_watch now eco it i /\ seq t <= i) ws its.
Proof.
  revert t. induction its as [|it its IH]; intros t; cbn [insert_all]; [intros [= <-]; split; [cbn; lia|]; exists []; by rewrite app_nil_r|].
  destruct (insert_unique _ _ t) as [[t1 w]|] eqn:E; [|done]. unfold insert_unique in E. destruct (exists_row _ t); [done|]. injection E as <- <-.
  intros (Hs & ws & Hr & Hf)%IH. cbn [insert rows seq] in *. split; [cbn [List.length]; lia|].
  exists (new_watch now eco it (seq t) :: ws). split; [by rewrite Hr, <- app_assoc|]. constructor; [exists (seq t); split; [done|lia]|].
  eapply Forall2_impl; [exact Hf|]. intros w' it' (i & -> & Hi). exists i. split; [done|lia].
Qed.

(** The flush succeeds exactly when the names are new and distinct. *)
Lemma insert_all_ok now eco its t :
  is_Some (insert_all now eco its t) <->
  NoDup (map i_name its) /\ forall it w, it ∈ its -> w ∈ rows t -> w_key w <> (eco, i_name it).
Proof.
  revert t. induction its as [|it its IH]; intros t; cbn [insert_all map].
  { split; [|by eexists]. intros _. split; [constructor|]. intros it w H. by apply elem_of_nil in H. }
  unfold insert_unique. destruct (exists_row _ t) eqn:Ex.
  - split; [by intros [? ?]|]. intros [_ H]. exfalso. apply existsb_true in Ex as (w & Hw & Hk%bool_decide_eq_true). by apply (H it w); [set_solver|..].
  - unfold insert. cbv beta iota. rewrite IH, NoDup_cons. cbn [rows].
    assert (forall w, w ∈ rows t -> w_key w <> (eco, i_name it)) as Hnew.
    { intros w Hw Hk. pose proof (proj1 (existsb_false _ _) Ex w Hw) as Hb. cbn beta in Hb. apply bool_decide_eq_false in Hb. done. }
    split.
    + intros [Hd H]. split; [split; [|done]|].
      * rewrite list_elem_of_fmap. intros (it' & E & Hin). apply (H it' (new_watch now eco it (seq t))); [done|set_solver|unfold w_key; cbn; congruence].
      * intros it' w [->|Hin]%elem_of_cons Hw; [by apply Hnew|]. apply H; [done|set_solver].
    + intros [[Hni Hd] H]. split; [done|]. intros it' w Hin [Hw|Hw%list_elem_of_singleton]%elem_of_app; [apply H; [set_solver|done]|]. subst w.
      unfold w_key. cbn. intros [= E]. apply Hni. rewrite E. apply list_elem_of_fmap. by exists it'.
Qed.

Lemma is_auto_rank w : is_auto w = true <-> w_rank w = AUTO_MALICIOUS_RANK.
Proof. apply Z.eqb_eq. Qed.

Lemma popular_true eco w : popular eco w = true <-> w_ecosystem w = eco /\ w_rank w <> AUTO_MALICIOUS_RANK.
Proof. unfold popular, is_auto. rewrite andb_true_iff, negb_true_iff, String.eqb_eq, Z.eqb_neq. done. Qed.

(** What a listed row shows of its item. *)
Definition shown (w : watch) : item := mkItem (w_rank w) (w_name w) (w_downloads w).
Definition rankable (its : list item) : Prop := forall it, it ∈ its -> i_rank it <> AUTO_MALICIOUS_RANK.

Lemma new_watch_popular now eco it i : i_rank it <> AUTO_MALICIOUS_RANK -> popular eco (new_watch now eco it i) = true.
Proof. intros H. by apply popular_true. Qed.

Lemma new_rows_shown now eco its ws n : rankable its -> Forall2 (fun w it => exists i, w = new_watch now eco it i /\ n <= i) ws its ->
  map shown ws = its /\ bfilter (popular eco) ws = ws /\ bfilter (fun w => negb (popular eco w)) ws = [].
Proof.
  intros Hr H. induction H as [|w it ws its (i & -> & _) _ IH]; [done|]. cbn [map List.filter].
  rewrite new_watch_popular by (apply Hr; set_solver). cbn [negb]. destruct IH as (H1 & H2 & H3); [intros x Hx; apply Hr; set_solver|].
  rewrite H1, H2, H3. destruct it. done.
Qed.

(** The ranks of a list that stays below the automatic rank. *)
Lemma enumerate1_rank {A} (l : list A) ia : ia ∈ enumerate1 l -> 1 <= ia.1 <= Z.of_nat (List.length l).
Proof.
  unfold enumerate1. destruct ia as [n a]. intros H. apply elem_of_zip_l in H. apply list_elem_of_fmap in H as (k & -> & Hk).
  rewrite list_elem_of_In in Hk. apply in_seq in Hk. cbn. lia.
Qed.

Lemma named_items_rankable l : Z.of_nat (List.length l) < AUTO_MALICIOUS_RANK -> rankable (named_items l).
Proof.
  intros Hl it Hit. unfold named_items in Hit. apply list_elem_of_fmap in Hit as (ia & -> & Hia). apply enumerate1_rank in Hia. cbn. unfold AUTO_MALICIOUS_RANK in *. lia.
Qed.

Lemma pypi_items_rankable top_n l : Z.of_nat top_n < AUTO_MALICIOUS_RANK -> rankable (pypi_items top_n l).
Proof.
  intros Hl it Hit. unfold pypi_items in Hit. apply list_elem_of_omap in Hit as (ia & Hia & Ht). apply enumerate1_rank in Hia.
  pose proof (firstn_le_length top_n l). unfold top_item in Ht. destruct (truthy _); [|done]. injection Ht as <-. cbn. lia.
Qed.

(** *** The dictionary of the rows found *)

Section Existing.
Context (key : string -> string).

Lemma existing_onto ws d k w : dget k (fold_left (fun d w => dset (key (w_name w)) w d) ws d) = Some w ->
  (w ∈ ws /\ key (w_name w) = k) \/ dget k d = Some w.
Proof.
  revert d. induction ws as [|w0 ws IH]; intros d; cbn [fold_left]; [by right|].
  intros [[Hw Hk]|H]%IH; [left; split; [set_solver|done]|]. rewrite dget_dset in H. case_decide as E; [|by right].
  injection H as ->. left. split; [set_solver|done].
Qed.

Lemma existing_some eco t k w : dget k (existing key eco t) = Some w -> w ∈ rows t /\ popular eco w = true /\ key (w_name w) = k.
Proof. intros [[Hw Hk]|H]%existing_onto; [|done]. apply select_in in Hw as [? ?]. done. Qed.

Lemma existing_kept ws d k : is_Some (dget k d) -> is_Some (dget k (fold_left (fun d w => dset (key (w_name w)) w d) ws d)).
Proof. revert d. induction ws as [|w ws IH]; intros d H; cbn [fold_left]; [done|]. apply IH. rewrite dget_dset. by case_decide. Qed.

Lemma existing_has eco t w : w ∈ rows t -> popular eco w = true -> is_Some (dget (key (w_name w)) (existing key eco t)).
Proof.
  intros Hr Hp. assert (w ∈ select (popular eco) t) as Hw by (by apply select_in). unfold existing. revert Hw. generalize (select (popular eco) t) ([] : list (string * watch)).
  intros ws. induction ws as [|w0 ws IH]; intros d Hw; [by apply elem_of_nil in Hw|]. cbn [fold_left]. apply elem_of_cons in Hw as [->|Hw]; [|by apply IH].
  apply existing_kept. rewrite dget_dset. by rewrite decide_True.
Qed.

Lemma existing_NoDup eco t : NoDup (existing key eco t).*1.
Proof.
  unfold existing. assert (forall ws (d : list (string * watch)), NoDup d.*1 -> NoDup (fold_left (fun d w => dset (key (w_name w)) w d) ws d).*1) as H.
  { induction ws as [|w ws IH]; intros d Hd; cbn [fold_left]; [done|]. by apply IH, dset_NoDup. }
  apply H. constructor.
Qed.

(** The attribute assignments of the loop. *)
Lemma updates_in now ex its t w :
  (forall k w0, dget k ex = Some w0 -> w_id w0 ∈ map w_id (rows t)) ->
  (forall k k' w0 w1, dget k ex = Some w0 -> dget k' ex = Some w1 -> w_id w0 = w_id w1 -> k = k') ->
  NoDup (map (fun it => key (i_name it)) its) ->
  w ∈ rows (fold_left (update_item key now ex) its t) <->
  (exists it w0, it ∈ its /\ dget (key (i_name it)) ex = Some w0 /\ w = update_watch now it w0) \/
  (w ∈ rows t /\ forall it w0, it ∈ its -> dget (key (i_name it)) ex = Some w0 -> w_id w0 <> w_id w).
Proof.
  intros Hids Hinj. revert t Hids. induction its as [|it its IH]; intros t Hids Hnd; cbn [fold_left].
  { split; [intros H; right; split; [done|]; intros it w0 Hit; by apply elem_of_nil in Hit|].
    intros [(it & w0 & Hit & _)|[H _]]; [by apply elem_of_nil in Hit|done]. }
  cbn [map] in Hnd. apply NoDup_cons in Hnd as [Hni Hnd]. destruct (dget (key (i_name it)) ex) as [w0|] eqn:E; unfold update_item at 2; rewrite E.
  - assert (forall r, r ∈ rows (put (update_watch now it w0) t) <-> r = update_watch now it w0 \/ (r ∈ rows t /\ w_id r <> w_id w0)) as Hput.
    { intros r. split; [intros [->|[H1 H2]]%put_in; auto|]. intros [->|[H1 H2]]; [|by apply put_other].
      pose proof (Hids _ _ E) as Hin. apply list_elem_of_fmap in Hin as (r0 & Hid & Hr0). by eapply put_self. }
    rewrite IH; [|intros k w1 Hk; destruct (decide (w_id w1 = w_id w0)) as [Heq|Hne];
      [apply list_elem_of_fmap; exists (update_watch now it w0); split; [done|]; apply Hput; by left
      |pose proof (Hids _ _ Hk) as Hin; apply list_elem_of_fmap in Hin as (r0 & Hid & Hr0); apply list_elem_of_fmap; exists r0; split; [done|]; apply Hput; right; split; [done|congruence]]|done].
    rewrite Hput. assert (forall it' w1, it' ∈ its -> dget (key (i_name it')) ex = Some w1 -> w_id w1 <> w_id w0) as Hsep.
    { intros it' w1 Hit' Hw1 Heq. apply Hni. rewrite (Hinj _ _ _ _ E Hw1 (eq_sym Heq)). apply list_elem_of_fmap. by exists it'. }
    split.
    + intros [(it' & w1 & Hit' & H)|[[->|[Hw Hne]] Hall]]; [left; exists it', w1; set_solver|left; exists it, w0; set_solver|].
      right. split; [done|]. intros it' w1 [->|Hit']%elem_of_cons Hd; [rewrite E in Hd; injection Hd as ->; by apply not_eq_sym|by eapply Hall].
    + intros [(it' & w1 & [->|Hit']%elem_of_cons & Hd & ->)|[Hw Hall]].
      * rewrite E in Hd. injection Hd as ->. right. split; [by left|]. intros it' w2 Hit' Hd'. cbn. by eapply Hsep.
      * left. by exists it', w1.
      * right. split; [right; split; [done|]; apply not_eq_sym, (Hall it); [apply elem_of_cons; by left|done]|]. intros it' w1 Hit' Hd. apply (Hall it'); [apply elem_of_cons; by auto|done].
  - rewrite IH by done. split.
    + intros [(it' & w1 & Hit' & H)|[Hw Hall]]; [left; exists it', w1; set_solver|]. right. split; [done|]. intros it' w1 [->|Hit']%elem_of_cons Hd; [congruence|by eapply Hall].
    + intros [(it' & w1 & [->|Hit']%elem_of_cons & Hd & ->)|[Hw Hall]]; [congruence|left; by exists it', w1|right; split; [done|]; intros it' w1 Hit' Hd; apply (Hall it'); [apply elem_of_cons; by auto|done]].
Qed.
End Existing.

(** *** The outcome of the merge *)

Section MergeSpec.
Context (key : string -> string) (now : timestamp) (eco : string) (its : list item) (t : wtable).
Hypothesis Hwf : table_wf t.
(** No two rows of the list share a lookup key: the unique constraint for PyPI. *)
Hypothesis Hkey : forall w w', w ∈ rows t -> w' ∈ rows t -> popular eco w = true -> popular eco w' = true -> key (w_name w) = key (w_name w') -> w = w'.
Hypothesis Hnames : NoDup (map (fun it => key (i_name it)) its).
Hypothesis Hranks : rankable its.

Notation ex := (existing key eco t).

Lemma ex_of w : w ∈ rows t -> popular eco w = true -> dget (key (w_name w)) ex = Some w.
Proof.
  intros Hw Hp. destruct (existing_has key eco t w Hw Hp) as [w' Hd]. rewrite Hd. f_equal.
  apply existing_some in Hd as (Hw' & Hp' & Hk). by apply Hkey.
Qed.

Lemma ex_ids_inj k k' w0 w1 : dget k ex = Some w0 -> dget k' ex = Some w1 -> w_id w0 = w_id w1 -> k = k'.
Proof.
  intros (H0 & _ & <-)%existing_some (H1 & _ & <-)%existing_some E. by rewrite (row_id_inj t w0 w1 Hwf H0 H1 E).
Qed.

Lemma stale_spec i : i ∈ stale_ids key ex its <-> exists w, w ∈ rows t /\ popular eco w = true /\ w_id w = i /\ forall it, it ∈ its -> key (i_name it) <> key (w_name w).
Proof.
  unfold stale_ids. rewrite list_elem_of_fmap. split.
  - intros ([k w] & -> & [Hin Hk]%bfilter_in). cbn [fst snd] in *. apply (dget_in_NoDup _ _ _ (existing_NoDup key eco t)) in Hin. apply existing_some in Hin as (Hw & Hp & <-).
    exists w. split_and!; [done..|]. intros it Hit E. apply negb_true_iff in Hk. unfold str_in in Hk. apply bool_decide_eq_false in Hk. apply Hk, list_elem_of_fmap. by exists it.
  - intros (w & Hw & Hp & <- & Hno). exists (key (w_name w), w). split; [done|]. apply bfilter_in. split; [by apply dget_Some_in, ex_of|].
    cbn [fst]. apply negb_true_iff. unfold str_in. apply bool_decide_eq_false. intros Hin. apply list_elem_of_fmap in Hin as (it & E & Hit). by apply (Hno it Hit).
Qed.

Notation news := (bfilter (fun it => negb (dhas (key (i_name it)) ex)) its).

Lemma news_spec it : it ∈ news <-> it ∈ its /\ dget (key (i_name it)) ex = None.
Proof. rewrite bfilter_in, negb_true_iff. unfold dhas. rewrite bool_decide_eq_false, <- eq_None_not_Some. done. Qed.

Lemma news_names : NoDup (map i_name news).
Proof.
  apply bfilter_NoDup_fmap. apply (NoDup_fmap_1 key). change (NoDup (map key (map i_name its))). rewrite map_map. exact Hnames.
Qed.

(** The rows the flush adds. *)
Lemma flushed t1 ws : rows t1 = rows t ++ ws -> Forall2 (fun w it => exists i, w = new_watch now eco it i /\ seq t <= i) ws news ->
  forall w, w ∈ ws <-> exists it i, it ∈ news /\ w = new_watch now eco it i /\ w ∈ ws.
Proof.
  intros _ Hf w. split; [|by intros (? & ? & _ & _ & H)]. intros Hw. apply list_elem_of_lookup in Hw as [n Hn].
  destruct (Forall2_lookup_l _ _ _ _ _ Hf Hn) as (it & Hit & i & -> & _). exists it, i. split; [by eapply list_elem_of_lookup_2|].
  split; [done|]. by eapply list_elem_of_lookup_2.
Qed.

Lemma fresh_ids ws w w0 : Forall2 (fun w it => exists i, w = new_watch now eco it i /\ seq t <= i) ws news -> w ∈ ws -> w0 ∈ rows t -> w_id w0 <> w_id w.
Proof.
  intros Hf Hw H0. apply list_elem_of_lookup in Hw as [n Hn]. destruct (Forall2_lookup_l _ _ _ _ _ Hf Hn) as (it & _ & i & -> & Hi).
  destruct Hwf as [_ Hlt]. rewrite Forall_forall in Hlt. specialize (Hlt _ H0). unfold row_id in Hlt. cbn in *. lia.
Qed.

Lemma merge_rows t' : merge_table key now eco its t = Some t' ->
  forall w, w ∈ rows t' <->
    (exists it w0, it ∈ its /\ dget (key (i_name it)) ex = Some w0 /\ w = update_watch now it w0) \/
    (w ∈ rows t /\ popular eco w = false) \/
    (exists it i, it ∈ news /\ w = new_watch now eco it i /\ w ∈ rows t').
Proof.
  unfold merge_table. destruct (insert_all now eco news t) as [t1|] eqn:Ei; [|done]. intros [= <-]. apply insert_all_news in Ei as (_ & ws & Hr & Hf).
  assert (forall w, w ∈ rows (fold_left (update_item key now ex) its t1) <->
    (exists it w0, it ∈ its /\ dget (key (i_name it)) ex = Some w0 /\ w = update_watch now it w0) \/
    (w ∈ rows t1 /\ forall it w0, it ∈ its -> dget (key (i_name it)) ex = Some w0 -> w_id w0 <> w_id w)) as Hup.
  { intros w. apply updates_in; [|exact ex_ids_inj|done]. intros k w0 (H0 & _)%existing_some. apply list_elem_of_fmap. exists w0. rewrite Hr. set_solver. }
  assert (forall w, w ∈ rows (delete_where (fun w => bool_decide (w_id w ∈ stale_ids key ex its)) (fold_left (update_item key now ex) its t1)) <->
    w ∈ rows (fold_left (update_item key now ex) its t1) /\ w_id w ∉ stale_ids key ex its) as Hdel.
  { intros w. unfold delete_where. cbn [rows]. rewrite bfilter_in, negb_true_iff, bool_decide_eq_false. done. }
  assert (forall w, w ∈ ws -> w ∈ rows (delete_where (fun w => bool_decide (w_id w ∈ stale_ids key ex its)) (fold_left (update_item key now ex) its t1))) as Hnew.
  { intros w Hw. apply Hdel. split.
    - apply Hup. right. split; [rewrite Hr; set_solver|]. intros it w0 _ (H0 & _)%existing_some. by eapply fresh_ids.
    - intros (w0 & H0 & _ & Hid & _)%stale_spec. by apply (fresh_ids ws w w0). }
  intros w. split.
  - intros [Hw Hns]%Hdel. apply Hup in Hw as [Hw|[Hw Hall]]; [by left|right]. rewrite Hr in Hw. apply elem_of_app in Hw as [Hw|Hw].
    + left. split; [done|]. destruct (popular eco w) eqn:Ep; [|done]. exfalso. apply Hns, stale_spec. exists w. split_and!; [done..|].
      intros it Hit E. by apply (Hall it w Hit); [rewrite E; apply ex_of|].
    + right. apply (flushed t1 ws Hr Hf) in Hw as (it & i & Hit & -> & Hw). exists it, i. split; [done|]. split; [done|]. by apply Hnew.
  - intros [(it & w0 & Hit & Hd & ->)|[[Hw Hp]|(it & i & _ & _ & Hw)]]; [| |done].
    + apply Hdel. split; [apply Hup; left; eauto|]. intros (w1 & H1 & Hp1 & Hid & Hno)%stale_spec. apply existing_some in Hd as (H0 & Hp0 & Hk).
      cbn in Hid. rewrite (row_id_inj t w1 w0 Hwf H1 H0 Hid) in Hno. by apply (Hno it).
    + apply Hdel. split.
      * apply Hup. right. split; [rewrite Hr; set_solver|]. intros it w0 _ (H0 & Hp0 & _)%existing_some Hid.
        rewrite (row_id_inj t w0 w Hwf H0 Hw Hid) in Hp0. congruence.
      * intros (w1 & H1 & Hp1 & Hid & _)%stale_spec. rewrite (row_id_inj t w1 w Hwf H1 Hw Hid) in Hp1. congruence.
Qed.

Lemma merge_new t' it : merge_table key now eco its t = Some t' -> it ∈ news -> exists i, new_watch now eco it i ∈ rows t'.
Proof.
  intros Hm Hit. pose proof Hm as Hm'. unfold merge_table in Hm. destruct (insert_all now eco news t) as [t1|] eqn:Ei; [|done]. injection Hm as Et'.
  apply insert_all_news in Ei as (_ & ws & Hr & Hf). apply list_elem_of_lookup in Hit as [n Hn].
  destruct (Forall2_lookup_r _ _ _ _ _ Hf Hn) as (w & Hw & i & -> & Hi). exists i. apply list_elem_of_lookup_2 in Hw. rewrite <- Et'.
  unfold delete_where. cbn [rows]. apply bfilter_in. split.
  - apply updates_in; [|exact ex_ids_inj|done|]; [intros k w0 (H0 & _)%existing_some; apply list_elem_of_fmap; exists w0; rewrite Hr; set_solver|].
    right. split; [rewrite Hr; set_solver|]. intros it' w0 _ (H0 & _)%existing_some. by eapply fresh_ids.
  - apply negb_true_iff, bool_decide_eq_false. intros (w0 & H0 & _ & Hid & _)%stale_spec. by apply (fresh_ids ws (new_watch now eco it i) w0).
Qed.

End MergeSpec.

Lemma update_popular now eco it w : i_rank it <> AUTO_MALICIOUS_RANK -> popular eco w = true -> popular eco (update_watch now it w) = true.
Proof. intros Hr [He _]%popular_true. by apply popular_true. Qed.

(** *** The GitHub pages *)

(** Whatever the answers: some attempt at every page is not refused. *)
Lemma bucket_ends respond k fuel page attempt modules :
  (forall p a, (a <= k)%nat -> respond p a <> Forbidden \/ exists a', (a < a' <= k)%nat /\ respond p a' <> Forbidden) ->
  (attempt <= k)%nat -> (Z.to_nat (11 - page) * S k + (S k - attempt) <= fuel)%nat -> exists m, bucket_pages respond fuel page attempt modules = Some m.
Proof.
  intros Hr. revert page attempt modules. induction fuel as [|fuel IH]; intros page attempt modules Ha Hf; [nia|]. cbn [bucket_pages].
  destruct (Z.leb_spec page 10) as [Hp|_]; [|by eexists].
  destruct (respond page attempt) as [| | |items] eqn:E; [|by eexists..|].
  - destruct (Hr page attempt Ha) as [H|(a' & Ha' & _)]; [done|]. apply IH; nia.
  - destruct items as [|it items]; [by eexists|]. destruct (_ <? _)%nat; [by eexists|]. apply IH; [lia|].
    assert (Z.to_nat (11 - page) = S (Z.to_nat (11 - (page + 1)))) as En by lia. rewrite En in Hf. nia.
Qed.

Lemma buckets_end respond k fuel bs modules :
  (forall b p a, (a <= k)%nat -> respond b p a <> Forbidden \/ exists a', (a < a' <= k)%nat /\ respond b p a' <> Forbidden) ->
  (11 * S k <= fuel)%nat -> exists m, fetch_buckets respond fuel bs modules = Some m.
Proof.
  intros Hr Hf. revert modules. induction bs as [|b bs IH]; intros modules; cbn [fetch_buckets]; [by eexists|].
  destruct (_ <=? _)%nat; [by eexists|]. destruct (bucket_ends (respond b) k fuel 1 O modules (Hr b)) as [m ->]; [lia|change (Z.to_nat (11 - 1)) with 10%nat; lia|]. apply IH.
Qed.

Lemma forbidden_spins respond fuel page attempt modules : (forall a, respond page a = Forbidden) -> page <= 10 -> bucket_pages respond fuel page attempt modules = None.
Proof.
  intros Hr Hp. revert attempt. induction fuel as [|fuel IH]; intros attempt; [done|]. cbn [bucket_pages]. rewrite (proj2 (Z.leb_le _ _)) by lia. rewrite Hr. apply IH.
Qed.

(** ** Properties *)

(** A merging refresh makes the popularity list exactly what was asked: when the
    listed names are distinct under the lookup key, it either commits, and then the
    ecosystem's popularity rows are the listed names with their ranks, download counts and
    the present time, every other row untouched; or it fails as a whole, and then an
    automatic entry already holds one of the names. *)
Theorem merge_refresh_spec key now eco its t (Hwf : table_wf t)
  (Hkey : forall w w', w ∈ rows t -> w' ∈ rows t -> popular eco w = true -> popular eco w' = true -> key (w_name w) = key (w_name w') -> w = w')
  (Hnames : NoDup (map (fun it => key (i_name it)) its)) (Hranks : rankable its) :
  match merge_table key now eco its t with
  | Some t' =>
      (forall it, it ∈ its -> exists w, w ∈ rows t' /\ popular eco w = true /\ key (w_name w) = key (i_name it) /\
         w_rank w = i_rank it /\ w_downloads w = i_downloads it /\ w_refreshed_at w = now) /\
      (forall w, w ∈ rows t' -> popular eco w = true -> exists it, it ∈ its /\ key (w_name w) = key (i_name it) /\
         w_rank w = i_rank it /\ w_downloads w = i_downloads it) /\
      (forall w, popular eco w = false -> w ∈ rows t' <-> w ∈ rows t)
  | None => exists it w, it ∈ its /\ w ∈ rows t /\ is_auto w = true /\ w_key w = (eco, i_name it)
  end.
Proof.
  pose proof (merge_rows key now eco its t Hwf Hkey Hnames Hranks) as Hrows. pose proof (merge_new key now eco its t Hwf Hkey Hnames Hranks) as Hnew.
  destruct (merge_table key now eco its t) as [t'|] eqn:E.
  - specialize (Hrows t' eq_refl). split_and!.
    + intros it Hit. destruct (dget (key (i_name it)) (existing key eco t)) as [w0|] eqn:Ed.
      * exists (update_watch now it w0). pose proof (existing_some _ _ _ _ _ Ed) as (_ & Hp & Hk).
        split; [apply Hrows; left; eauto|]. split; [apply update_popular; [by apply Hranks|done]|done].
      * destruct (Hnew t' it eq_refl) as [i Hi]; [by apply news_spec|]. exists (new_watch now eco it i). split; [done|]. split; [by apply new_watch_popular, Hranks|done].
    + intros w Hw Hp. apply Hrows in Hw as [(it & w0 & Hit & Hd & ->)|[[_ Hn]|(it & i & Hit & -> & _)]]; [|congruence|].
      * exists it. apply existing_some in Hd as (_ & _ & Hk). done.
      * exists it. apply news_spec in Hit as [Hit _]. done.
    + intros w Hn. rewrite Hrows. split; [|by auto]. intros [(it & w0 & Hit & Hd & ->)|[[Hw _]|(it & i & Hit & -> & _)]]; [|done|].
      * apply existing_some in Hd as (_ & Hp & _). apply (update_popular now eco it w0 (Hranks it Hit)) in Hp. congruence.
      * apply news_spec in Hit as [Hit _]. rewrite new_watch_popular in Hn; [done|by apply Hranks].
  - unfold merge_table in E. destruct (insert_all now eco _ t) as [t1|] eqn:Ei; [done|].
    assert (~ is_Some (insert_all now eco (bfilter (fun it => negb (dhas (key (i_name it)) (existing key eco t))) its) t)) as Hno by (rewrite Ei; by intros [? ?]).
    rewrite insert_all_ok in Hno.
    destruct (decide (Exists (fun it => Exists (fun w => w_key w = (eco, i_name it)) (rows t)) (bfilter (fun it => negb (dhas (key (i_name it)) (existing key eco t))) its))) as [Hex|Hex].
    + apply Exists_exists in Hex as (it & Hit & Hex). apply Exists_exists in Hex as (w & Hw & Hk). apply news_spec in Hit as [Hit Hd]. exists it, w. split; [done|]. split; [done|]. split; [|done].
      destruct (popular eco w) eqn:Ep.
      * apply (ex_of key eco t Hkey w Hw) in Ep. unfold w_key in Hk. injection Hk as _ Hn. rewrite Hn in Ep. congruence.
      * unfold popular in Ep. unfold w_key in Hk. injection Hk as He _. rewrite He, String.eqb_refl in Ep. cbn in Ep. by apply negb_false_iff in Ep.
    + exfalso. apply Hno. split; [by apply news_names|]. intros it w Hit Hw Hk. apply Hex, Exists_exists. exists it. split; [done|]. apply Exists_exists. eauto.
Qed.

(** A rebuilding refresh commits exactly when the names of the list are distinct and
    none is held by an automatic entry; it then leaves the list, row for item and in order,
    and every other row as it was. *)
Theorem rebuild_refresh_spec now eco its t (Hranks : rankable its) :
  (is_Some (rebuild_table now eco its t) <->
    NoDup (map i_name its) /\ forall it w, it ∈ its -> w ∈ rows t -> is_auto w = true -> w_key w <> (eco, i_name it)) /\
  forall t', rebuild_table now eco its t = Some t' ->
    map shown (select (popular eco) t') = its /\
    bfilter (fun w => negb (popular eco w)) (rows t') = bfilter (fun w => negb (popular eco w)) (rows t).
Proof.
  unfold rebuild_table. split.
  - rewrite insert_all_ok. unfold delete_where. cbn [rows]. split; intros [Hd H]; (split; [done|]).
    + intros it w Hit Hw Ha. apply (H it); [done|]. apply bfilter_in. split; [done|]. unfold popular. rewrite Ha. cbn. by rewrite andb_false_r.
    + intros it w Hit [Hw Hp]%bfilter_in Hk. apply (H it w Hit Hw); [|done]. apply negb_true_iff in Hp. unfold popular in Hp.
      unfold w_key in Hk. injection Hk as He _. rewrite He, String.eqb_refl in Hp. cbn in Hp. by apply negb_false_iff in Hp.
  - intros t' (_ & ws & Hr & Hf)%insert_all_news. unfold delete_where in Hr. cbn [rows] in Hr. unfold select. rewrite Hr, !List.filter_app.
    destruct (new_rows_shown now eco its ws _ Hranks Hf) as (H1 & H2 & H3). rewrite H2, H3, app_nil_r, !bfilter_bfilter.
    assert (bfilter (fun x => negb (popular eco x) && popular eco x) (rows t) = []) as E by (apply bfilter_none; intros x _; by destruct (popular eco x)).
    split.
    + by rewrite E.
    + apply bfilter_ext. intros x _. by destruct (popular eco x).
Qed.

(** The GitHub collection comes back when every page is answered by something else
    than a rate limit within a bounded number of attempts. *)
Theorem go_fetch_ends respond k
  (Hanswers : forall b p a, (a <= k)%nat -> respond b p a <> Forbidden \/ exists a', (a < a' <= k)%nat /\ respond b p a' <> Forbidden) :
  exists modules, fetch_github_top_go_repos respond (11 * S k) = Some modules.
Proof. by apply (buckets_end respond k). Qed.

(** ... and never does otherwise: a page that is always refused is asked for again
    without end, however much fuel there is. *)
Theorem go_fetch_spins respond (Hforbidden : forall b p a, respond b p a = Forbidden) fuel : fetch_github_top_go_repos respond fuel = None.
Proof.
  unfold fetch_github_top_go_repos, STAR_BUCKETS. cbn [fetch_buckets]. destruct (TOP_N <=? List.length (@nil (string * Z)))%nat eqn:E.
  { exfalso. apply Nat.leb_le in E. cbn [List.length] in E. unfold TOP_N in E. lia. }
  rewrite forbidden_spins; [done|by intros a|lia].
Qed.

(** The rows of a refreshed list have distinct names. *)
Lemma take_ordered_names top_n seen names : NoDup (map lower (take_ordered top_n seen names)) /\ forall n, n ∈ take_ordered top_n seen names -> lower n ∉ seen.
Proof.
  revert seen. induction names as [|n names IH]; intros seen; cbn [take_ordered]; [split; [constructor|intros n H; by apply elem_of_nil in H]|].
  unfold str_in. case_bool_decide as Hs; [apply IH|].
  destruct (_ <=? _)%nat.
  - split; [cbn; apply NoDup_singleton|]. intros m ->%list_elem_of_singleton. done.
  - destruct (IH (lower n :: seen)) as [Hd Hn]. split.
    + cbn [map]. apply NoDup_cons. split; [|done]. intros Hin. apply list_elem_of_fmap in Hin as (m & E & Hm). apply (Hn m Hm). rewrite <- E. set_solver.
    + intros m [->|Hm]%elem_of_cons; [done|]. specialize (Hn m Hm). set_solver.
Qed.

Lemma enumerate1_snd {A} (l : list A) : map snd (enumerate1 l) = l.
Proof. unfold enumerate1. apply snd_zip. rewrite length_map, length_seq. lia. Qed.

(** npm's list satisfies the conditions of the merge. *)
Lemma npm_items_names critical top_n answers readme :
  NoDup (map (fun it => lower (i_name it)) (npm_items critical (npm_final critical top_n answers readme))).
Proof.
  unfold npm_items. rewrite map_map. cbn [i_name].
  rewrite <- (map_map snd lower), enumerate1_snd. apply take_ordered_names.
Qed.

(** ** Concrete runs *)

Definition ex_top : list top_entry := [mkTop (Some "requests"%string) None (Some 900) None; mkTop None (Some "numpy"%string) None (Some 800)].
Definition ex_table : wtable := Table [mkWatch 1 "pypi" "numpy" 1 500 0; mkWatch 2 "pypi" "oldpkg" 2 400 0; mkWatch 3 "pypi" "evil" AUTO_MALICIOUS_RANK 0 0] 4.

Lemma ex_table_wf : table_wf ex_table.
Proof. split; [apply (bool_decide_unpack _); by vm_compute|repeat constructor]. Qed.

Lemma merge_refresh_spec_witness :
  exists t', merge_table (fun n => n) 7 "pypi" (pypi_items 10 ex_top) ex_table = Some t' /\
    mkWatch 3 "pypi" "evil" AUTO_MALICIOUS_RANK 0 0 ∈ rows t' /\ exists w, w ∈ rows t' /\ w_name w = "requests"%string /\ w_rank w = 1.
Proof.
  pose proof (merge_refresh_spec (fun n => n) 7 "pypi" (pypi_items 10 ex_top) ex_table ex_table_wf) as H.
  assert (merge_table (fun n => n) 7 "pypi" (pypi_items 10 ex_top) ex_table = Some (Table [mkWatch 1 "pypi" "numpy" 2 800 7; mkWatch 3 "pypi" "evil" AUTO_MALICIOUS_RANK 0 0; mkWatch 4 "pypi" "requests" 1 900 7] 5)) as E by by vm_compute.
  rewrite E in H. eexists. split; [exact E|]. destruct H as (H1 & _ & H3).
  - intros w w' Hw Hw' _ _. unfold ex_table in Hw, Hw'. cbn [rows] in Hw, Hw'. rewrite !elem_of_cons, elem_of_nil in Hw, Hw'.
    destruct Hw as [->|[->|[->|[]]]], Hw' as [->|[->|[->|[]]]]; done.
  - apply (bool_decide_unpack _). by vm_compute.
  - apply pypi_items_rankable. unfold AUTO_MALICIOUS_RANK. lia.
  - split; [by apply H3; [|right; right; left]|]. destruct (H1 (mkItem 1 "requests" 900)) as (w & Hw & _ & Hk & Hr & _); [left|]. by exists w.
Defined.

Lemma rebuild_refresh_spec_witness :
  is_Some (rebuild_table 7 "crates" (named_items [("serde"%string, 10)]) (Table [mkWatch 1 "crates" "rand" 1 5 0; mkWatch 2 "crates" "evil" AUTO_MALICIOUS_RANK 0 0] 3)).
Proof.
  apply (rebuild_refresh_spec 7 "crates" (named_items [("serde"%string, 10)])).
  - apply named_items_rankable. unfold AUTO_MALICIOUS_RANK. cbn. lia.
  - split; [apply NoDup_singleton|]. intros it w Hit Hw _. apply list_elem_of_singleton in Hit as ->.
    cbn [rows] in Hw. rewrite !elem_of_cons, elem_of_nil in Hw. destruct Hw as [->|[->|[]]]; done.
Defined.

Lemma go_fetch_ends_witness : exists modules, fetch_github_top_go_repos (fun b p a => if (a <? 2)%nat then Forbidden else Found []) 33 = Some modules.
Proof.
  apply (go_fetch_ends (fun b p a => if (a <? 2)%nat then Forbidden else Found []) 2).
  intros b p a Ha. destruct (Nat.ltb_spec a 2); [right; exists 2%nat; split; [lia|done]|by left].
Defined.

(** A name that entered the table as an automatic entry and is popular later
    breaks the unique key: every refresh fails as a whole until the automatic
    entry is gone, in all four registries. *)
Definition ex_auto (eco : string) : wtable := Table [mkWatch 1 eco "left-pad" AUTO_MALICIOUS_RANK 0 0; mkWatch 2 eco "stale" 1 5 0] 3.
Example auto_entry_blocks_refresh :
  pypi_refresh 7 10 (Some [mkTop (Some "left-pad"%string) None (Some 9) None]) (ex_auto "pypi") = (IntegrityFailed, ex_auto "pypi") /\
  npm_refresh [("left-pad"%string, 9)] 7 10 [] None (ex_auto "npm") = (IntegrityFailed, ex_auto "npm") /\
  crates_refresh 7 (fun p => if p =? 1 then Some [("left-pad"%string, 9)] else Some []) (ex_auto "crates") = (IntegrityFailed, ex_auto "crates") /\
  go_refresh [("left-pad"%string, 9)] (fun _ _ _ => Found []) 11 7 None (ex_auto "gomod") = Some (IntegrityFailed, ex_auto "gomod").
Proof. by vm_compute. Qed.

Example md_links_ex : md_links O "* [chalk](https://github.com/x) and [bad] [my lib](http://y)" = ["chalk"; "my lib"]%string. Proof. by vm_compute. Qed.
Example npm_names_ex : map npm_name ["@babel/core"; "left-pad"; "my lib"; "Foo"; "@x"]%string = [true; true; false; false; false]. Proof. by vm_compute. Qed.
Example gh_repos_ex : fetch_awesome_go_modules (Some "see https://github.com/a/b#readme, [x](https://github.com/c/d/tree) http://github.com/a/b."%string)
  = ["github.com/a/b"; "github.com/c/d"]%string. Proof. by vm_compute. Qed.
