(* ===== verification/Releases.v ===== *)
(** * Latest releases of the watched and the focus packages

    [poll_watchlist_releases], [seed_missing_watchlist], [seed_watchlist_queue]
    and [poll_focus_releases] of the registries
    ([src/pkgward/ecosystems/*/ingest/watchlist.py] and [focus.py]): resolve
    the newest version of every name and enqueue it at high priority.  The
    answers of the registries, the completion order of concurrent requests and
    the database errors are arguments. *)
From S2P Require Import Prelude PyStr Text Sql Findings Jobs ScanQueue Watch Store Focus MaintWatch Ingest GoCursor.
From Stdlib Require Import Ascii String.

Open Scope list_scope.
Open Scope Z_scope.

(** A resolved package: the name it is listed under, the one to enqueue, the version. *)
Record release := mkRelease { original : string; canonical : string; rel_version : string }.
Definition plain (nv : string * string) : release := mkRelease nv.1 nv.1 nv.2.

(** [[l[i:i + n] for i in range(0, len(l), n)]]. *)
Fixpoint chunks_from {A} (fuel n : nat) (l : list A) : list (list A) :=
  match fuel, l with
  | S fuel', _ :: _ => List.firstn n l :: chunks_from fuel' n (List.skipn n l)
  | _, _ => []
  end.
Definition chunks {A} (n : nat) (l : list A) : list (list A) := chunks_from (List.length l) n l.
Definition CHUNK : nat := 100.

(** The watchlist row of an ecosystem under a name. *)
Definition named (eco nm : string) (w : watch) : bool := bool_decide (w_key w = (eco, nm)).
Definition rename_watch (nm : string) (w : watch) : watch :=
  mkWatch (w_id w) (w_ecosystem w) nm (w_rank w) (w_downloads w) (w_refreshed_at w).
Definition rename_watchlist_to_canonical (eco orig canon : string) (t : wtable) : bool * wtable :=
  if String.eqb orig canon then (false, t)
  else if exists_row (named eco canon) t then (true, delete_where (named eco orig) t)
  else (true, update_where (named eco orig) (rename_watch canon) t).

Definition set_watches (t : wtable) (i : ingest_db) : ingest_db := set_store (set_watchlist t (i_store i)) i.
Definition watches (i : ingest_db) : wtable := watchlist (i_store i).

Section Sessions.
Variables (cfg : QueueConfig) (now : timestamp) (eco : string).

(** One session over a chunk: rename, enqueue, count the pending rows.  The
    count stays what it was when the session rolls back ([None]). *)
Fixpoint enqueue_chunk (faults : nat -> nat -> option string) (j : nat) (rs : list release) (enq : Z) (i : ingest_db) : Z * option ingest_db :=
  match rs with
  | [] => (enq, Some i)
  | r :: rs' =>
      let i := set_watches (rename_watchlist_to_canonical eco (original r) (canonical r) (watches i)).2 i in
      match enqueue cfg quiet (faults j) now eco (canonical r) (rel_version r) PHigh false (i_queue i) with
      | (Raised _, _) => (enq, None)
      | (Returned row, q) => enqueue_chunk faults (S j) rs' (enq + Z.b2z (pending_row row)) (set_queue q i)
      end
  end.

(** Up to [n] sessions for one chunk; after the last failure it is given up. *)
Fixpoint try_chunk (faults : nat -> nat -> nat -> option string) (a n : nat) (rs : list release) (enq : Z) (i : ingest_db) : Z * ingest_db :=
  match n with
  | O => (enq, i)
  | S n' =>
      match enqueue_chunk (faults a) 0 rs enq i with
      | (enq, Some i) => (enq, i)
      | (enq, None) => try_chunk faults (S a) n' rs enq i
      end
  end.

(** The chunks in order, each in its own sessions. *)
Fixpoint enqueue_chunks (faults : nat -> nat -> nat -> nat -> option string) (attempts k : nat) (cs : list (list release)) (enq : Z) (i : ingest_db) : Z * ingest_db :=
  match cs with
  | [] => (enq, i)
  | c :: cs' => let '(enq, i) := try_chunk (faults k) 0 attempts c enq i in enqueue_chunks faults attempts (S k) cs' enq i
  end.

(** A failing chunk ends the poll; the chunks before it are committed. *)
Fixpoint enqueue_chunks_strict (faults : nat -> nat -> nat -> option string) (k : nat) (cs : list (list release)) (enq : Z) (i : ingest_db) : option Z * ingest_db :=
  match cs with
  | [] => (Some enq, i)
  | c :: cs' =>
      match enqueue_chunk (faults k) 0 c enq i with
      | (enq, Some i) => enqueue_chunks_strict faults (S k) cs' enq i
      | (_, None) => (None, i)
      end
  end.

(** One by one, an exception of one swallowed; [counted]: what counts. *)
Fixpoint enqueue_each (counted : option row -> bool) (faults : nat -> nat -> option string) (j : nat) (rs : list (string * string)) (enq : Z) (i : ingest_db) : Z * ingest_db :=
  match rs with
  | [] => (enq, i)
  | (nm, ver) :: rs' =>
      match enqueue cfg quiet (faults j) now eco nm ver PHigh false (i_queue i) with
      | (Raised _, q) => enqueue_each counted faults (S j) rs' enq (set_queue q i)
      | (Returned r, q) => enqueue_each counted faults (S j) rs' (enq + Z.b2z (counted r)) (set_queue q i)
      end
  end.

End Sessions.

(** The names of an ecosystem's rows: by rank, and as the table has them. *)
Definition names_by_rank (eco : string) (t : wtable) : list string :=
  map w_name (ssort (asc w_rank) (select (fun w => String.eqb (w_ecosystem w) eco) t)).
Definition watch_names (eco : string) (t : wtable) : list string := map w_name (select (fun w => String.eqb (w_ecosystem w) eco) t).
Definition queue_names (eco : string) (q : queue) : list string := map name (select (fun r => String.eqb (ecosystem r) eco) q).
Definition focus_names (eco : string) (i : ingest_db) : list string :=
  map fo_name (select (fun r => String.eqb (fo_ecosystem r) eco) (i_focus i)).

(** What the outside contributes to a poll: [latest n] is the newest version of
    [n], if it could be resolved. *)
Record outside := mkOut {
  latest : string -> option string;
  completion : list release -> list release;
  faults : nat -> nat -> nat -> nat -> option string;
  clock : timestamp;
}.

Definition resolve_all (o : outside) (names : list string) : list release :=
  omap (fun n => match latest o n with Some v => if truthy v then Some (plain (n, v)) else None | None => None end) names.

Section Polls.
Variables (cfg : QueueConfig) (o : outside).

(** ** npm *)

Definition npm_enqueue_latest (names : list string) (i : ingest_db) : Z * ingest_db :=
  match names with
  | [] => (0, i)
  | _ => enqueue_chunks cfg (clock o) "npm" (faults o) 1 0 (chunks CHUNK (completion o (resolve_all o names))) 0 i
  end.
Definition npm_poll_watchlist (i : ingest_db) : Z * ingest_db := npm_enqueue_latest (names_by_rank "npm" (watches i)) i.
Definition missing (eco : string) (i : ingest_db) : list string :=
  bfilter (fun n => negb (str_in n (queue_names eco (i_queue i)))) (watch_names eco (watches i)).
Definition npm_seed_missing (i : ingest_db) : Z * ingest_db := npm_enqueue_latest (missing "npm" i) i.
Definition returned (r : option row) : bool := true.
Definition pair_of (r : release) : string * string := (canonical r, rel_version r).
Definition npm_poll_focus (i : ingest_db) : Z * ingest_db :=
  match focus_names "npm" i with
  | [] => (0, i)
  | names => enqueue_each cfg (clock o) "npm" returned (faults o 0 0) 0 (map pair_of (completion o (resolve_all o names))) 0 i
  end.

(** ** PyPI *)

Definition pypi_poll_watchlist (limit : option nat) (i : ingest_db) : Z * ingest_db :=
  let names := names_by_rank "pypi" (watches i) in
  let names := match limit with Some n => List.firstn n names | None => names end in
  enqueue_chunks cfg (clock o) "pypi" (faults o) 5 0 (chunks CHUNK (completion o (resolve_all o names))) 0 i.
Definition pypi_poll_focus (i : ingest_db) : option Z * ingest_db :=
  match focus_names "pypi" i with
  | [] => (Some 0, i)
  | names => enqueue_chunks_strict cfg (clock o) "pypi" (fun k => faults o k 0) 0 (chunks CHUNK (completion o (resolve_all o names))) 0 i
  end.

(** ** crates: one request after the other *)

Definition crates_poll_watchlist (i : ingest_db) : Z * ingest_db :=
  enqueue_each cfg (clock o) "crates" returned (faults o 0 0) 0 (map pair_of (resolve_all o (names_by_rank "crates" (watches i)))) 0 i.
Definition crates_seed_missing (i : ingest_db) : Z * ingest_db :=
  enqueue_each cfg (clock o) "crates" pending_row (faults o 0 0) 0 (map pair_of (resolve_all o (missing "crates" i))) 0 i.
Definition crates_poll_focus (i : ingest_db) : Z * ingest_db :=
  enqueue_each cfg (clock o) "crates" returned (faults o 0 0) 0 (map pair_of (resolve_all o (focus_names "crates" i))) 0 i.

End Polls.

(** ** Go *)

(** What the module proxy answers: a status with its JSON [Version] ([None] when
    the body is no JSON) and its text, or a network error. *)
Inductive proxy_answer := Answer (status : Z) (json_version : option (option string)) (text : string) | NetworkError (err : string).
Inductive probe_result := ProbeOk (version : option string) | ProbeFail (body : string) | ProbeErr (err : string).

Fixpoint case_encode (path : string) : string :=
  match path with
  | EmptyString => EmptyString
  | String c s => if is_upper c then String "!"%char (String (lower_char c) (case_encode s)) else String c (case_encode s)
  end.

Fixpoint replace_char (a b : ascii) (s : string) : string :=
  match s with EmptyString => EmptyString | String c s' => String (if Ascii.eqb c a then b else c) (replace_char a b s') end.

Section Go.
(** [http p]: the answer for the case-encoded path [p]. *)
Variable http : string -> proxy_answer.

Definition probe (path : string) : probe_result :=
  match http (case_encode path) with
  | Answer 200 (Some v) _ => ProbeOk v
  | Answer 200 None _ => ProbeErr "JSONDecodeError"
  | Answer _ _ text => ProbeFail (replace_char LF " "%char (str_take 200 text))
  | NetworkError e => ProbeErr (str_take 200 e)
  end.

Definition VN_SUFFIXES : list string := ["/v2"; "/v3"; "/v4"; "/v5"].

(** A path, a version and a reason, each of which may be missing. *)
Record resolved := mkResolved { res_path : option string; res_version : option string; res_reason : option string }.

Fixpoint probe_suffixes (mod_path body : string) (sfxs : list string) : resolved :=
  match sfxs with
  | [] => mkResolved (Some mod_path) None (Some body)
  | v :: sfxs' =>
      let path := (mod_path +:+ v)%string in
      match probe path with
      | ProbeOk (Some ver) => if truthy ver then mkResolved (Some path) (Some ver) None else probe_suffixes mod_path body sfxs'
      | _ => probe_suffixes mod_path body sfxs'
      end
  end.

Definition resolve_latest_canonical (mod_path : string) : resolved :=
  match probe mod_path with
  | ProbeOk (Some ver) => if truthy ver then mkResolved (Some mod_path) (Some ver) None else probe_suffixes mod_path "" VN_SUFFIXES
  | ProbeOk None => probe_suffixes mod_path "" VN_SUFFIXES
  | ProbeErr e => mkResolved None None (Some e)
  | ProbeFail body => probe_suffixes mod_path body VN_SUFFIXES
  end.

Definition UNSCANNABLE : string := "unscannable".
Definition sentinel_row (now : timestamp) (mod_path reason : string) (i : Z) : row :=
  Job i ECOSYSTEM mod_path UNSCANNABLE tt PNormal Failed MAX_AUTO_ATTEMPTS None
    (Some ("proxy_unscannable:" +:+ str_take 240 reason)%string) now None (Some now).
Definition record_unscannable (now : timestamp) (mod_path reason : string) (q : queue) : bool * queue :=
  match first (same_key ECOSYSTEM mod_path UNSCANNABLE) q with
  | Some _ => (false, q)
  | None => match insert_unique key_of (sentinel_row now mod_path reason) q with Some (q', _) => (true, q') | None => (false, q) end
  end.

Record go_outside := mkGoSeed {
  scan_pseudo : bool;
  go_completion : list (string * resolved) -> list (string * resolved);
  go_faults : nat -> nat -> nat -> nat -> option string;
  sentinel_fault : bool;
  go_clock : timestamp;
}.

Definition success_of (r : string * resolved) : option release :=
  match res_path r.2, res_version r.2 with
  | Some c, Some v => Some (mkRelease r.1 c v)
  | _, _ => None
  end.
Definition unscannable_of (r : string * resolved) : option (string * string) :=
  match res_path r.2, res_version r.2 with Some _, None => Some (r.1, str_or (ostr (res_reason r.2)) "unknown") | _, _ => None end.
Definition is_transient (r : string * resolved) : bool := match res_path r.2 with None => true | Some _ => false end.

Definition drop_pseudo (o : go_outside) (rs : list release) : list release :=
  if scan_pseudo o then rs else bfilter (fun r => negb (is_pseudo_version (rel_version r))) rs.

Definition record_all (now : timestamp) (us : list (string * string)) (q : queue) : queue :=
  fold_left (fun q u => (record_unscannable now u.1 u.2 q).2) us q.

(** The common part of the two seeds: [attempts] sessions per chunk. *)
Definition go_seed_names (cfg : QueueConfig) (o : go_outside) (attempts : nat) (names : list string) (i : ingest_db) : Z * ingest_db :=
  let results := go_completion o (map (fun n => (n, resolve_latest_canonical n)) names) in
  let successes := drop_pseudo o (omap success_of results) in
  let unscannable := omap unscannable_of results in
  let '(enq, i) := enqueue_chunks cfg (go_clock o) ECOSYSTEM (go_faults o) attempts 0 (chunks CHUNK successes) 0 i in
  (enq, if sentinel_fault o then i else set_queue (record_all (go_clock o) unscannable (i_queue i)) i).

Definition go_seed_queue (cfg : QueueConfig) (o : go_outside) (i : ingest_db) : Z * ingest_db :=
  match names_by_rank ECOSYSTEM (watches i) with [] => (0, i) | names => go_seed_names cfg o 5 names i end.

(** Up to case, unlike npm and crates. *)
Definition go_missing (i : ingest_db) : list string :=
  bfilter (fun n => negb (str_in (lower n) (map lower (queue_names ECOSYSTEM (i_queue i))))) (watch_names ECOSYSTEM (watches i)).
Definition go_seed_missing (cfg : QueueConfig) (o : go_outside) (i : ingest_db) : Z * ingest_db :=
  match go_missing i with [] => (0, i) | names => go_seed_names cfg o 1 names i end.

Definition go_focus_release (r : string * resolved) : option release :=
  match res_path r.2, res_version r.2 with Some c, Some v => if truthy c && truthy v then Some (plain (c, v)) else None | _, _ => None end.
Definition go_poll_focus (cfg : QueueConfig) (o : go_outside) (i : ingest_db) : option Z * ingest_db :=
  match focus_names ECOSYSTEM i with
  | [] => (Some 0, i)
  | names =>
      let results := go_completion o (map (fun n => (n, resolve_latest_canonical n)) names) in
      enqueue_chunks_strict cfg (go_clock o) ECOSYSTEM (fun k => go_faults o k 0) 0 (chunks CHUNK (omap go_focus_release results)) 0 i
  end.
End Go.

(** ** Lemmas *)

Lemma enqueue_returns cfg f now eco nm ver p q msg q' : 0 <= ENQUEUE_DEADLOCK_RETRIES cfg -> (forall a, f a = None) ->
  enqueue cfg quiet f now eco nm ver p false q <> (Raised msg, q').
Proof.
  intros Hr Hf. assert (forall mk, insert_attempts cfg quiet f mk (Z.to_nat (ENQUEUE_DEADLOCK_RETRIES cfg + 1)) 0 q <> (Raised msg, q')) as Hins.
  { intros mk. replace (Z.to_nat (ENQUEUE_DEADLOCK_RETRIES cfg + 1)) with (S (Z.to_nat (ENQUEUE_DEADLOCK_RETRIES cfg))) by lia.
    cbn [insert_attempts]. rewrite Hf. unfold quiet. destruct (insert_unique _ _ _) as [[t' r]|]; done. }
  unfold enqueue. destruct (first _ q) as [r0|]; [|apply Hins]. destruct (enqueue_existing _ _ _); [done|apply Hins].
Qed.

Section Keeps.
Context (cfg : QueueConfig) (now : timestamp) (eco : string).

(** Nothing queued is lost and ids stay sound. *)
Definition grows (i i' : ingest_db) : Prop := table_wf (i_queue i) -> table_wf (i_queue i') /\ forall k, queued k (i_queue i) -> queued k (i_queue i').

Lemma grows_refl i : grows i i.
Proof. by intros H. Qed.
Lemma grows_trans i1 i2 i3 : grows i1 i2 -> grows i2 i3 -> grows i1 i3.
Proof. intros H1 H2 Hwf. destruct (H1 Hwf) as [Hwf2 K1]. destruct (H2 Hwf2) as [Hwf3 K2]. split; [done|eauto]. Qed.

Lemma enqueue_grows f nm ver p i : grows i (set_queue (enqueue cfg quiet f now eco nm ver p false (i_queue i)).2 i).
Proof. intros Hwf. split; [by apply enqueue_wf|]. intros k Hk. by apply enqueue_keeps. Qed.

Lemma enqueue_chunk_grows f j rs enq i enq' i' : enqueue_chunk cfg now eco f j rs enq i = (enq', Some i') -> grows i i'.
Proof.
  revert j enq i. induction rs as [|r rs IH]; intros j enq i; cbn [enqueue_chunk]; [intros [= _ <-]; apply grows_refl|].
  set (i1 := set_watches _ i). pose proof (enqueue_grows (f j) (canonical r) (rel_version r) PHigh i1) as H.
  destruct (enqueue _ _ _ _ _ _ _ _ _ _) as [[row|msg] q]; [|done]. intros Hrun. apply IH in Hrun. eapply grows_trans; [|exact Hrun]. exact H.
Qed.

(** A chunk without database errors commits, and then all of it is queued. *)
Lemma enqueue_chunk_all f j rs enq i : 0 <= ENQUEUE_DEADLOCK_RETRIES cfg -> (forall j a, f j a = None) -> table_wf (i_queue i) ->
  exists enq' i', enqueue_chunk cfg now eco f j rs enq i = (enq', Some i') /\ forall r, r ∈ rs -> queued (eco, canonical r, rel_version r) (i_queue i').
Proof.
  intros Hr Hf. revert j enq i. induction rs as [|r rs IH]; intros j enq i Hwf; cbn [enqueue_chunk]; [exists enq, i; split; [done|]; intros r H; by apply elem_of_nil in H|].
  set (i1 := set_watches _ i). pose proof (enqueue_grows (f j) (canonical r) (rel_version r) PHigh i1 Hwf) as [Hwf' _].
  pose proof (enqueue_queues cfg (f j) now eco (canonical r) (rel_version r) PHigh (i_queue i1) Hr (Hf j) Hwf) as Hq.
  pose proof (enqueue_returns cfg (f j) now eco (canonical r) (rel_version r) PHigh (i_queue i1)) as Hret.
  destruct (enqueue cfg quiet (f j) now eco (canonical r) (rel_version r) PHigh false (i_queue i1)) as [[row|msg] q].
  - destruct (IH (S j) (enq + Z.b2z (pending_row row)) (set_queue q i1) Hwf') as (enq' & i' & Hrun & Hall). exists enq', i'. split; [done|].
    intros r' [->|Hin]%elem_of_cons; [|by apply Hall]. apply enqueue_chunk_grows in Hrun. by apply (Hrun Hwf').
  - exfalso. by apply (Hret msg q Hr (Hf j)).
Qed.
Lemma try_chunk_grows f a n rs enq i enq' i' : try_chunk cfg now eco f a n rs enq i = (enq', i') -> grows i i'.
Proof.
  revert a enq. induction n as [|n IH]; intros a enq; cbn [try_chunk]; [intros [= _ <-]; apply grows_refl|].
  destruct (enqueue_chunk _ _ _ _ _ _ _ _) as [e [i1|]] eqn:E; [intros [= _ <-]; by eapply enqueue_chunk_grows|apply IH].
Qed.

Lemma enqueue_chunks_grows f n k cs enq i enq' i' : enqueue_chunks cfg now eco f n k cs enq i = (enq', i') -> grows i i'.
Proof.
  revert k enq i. induction cs as [|c cs IH]; intros k enq i; cbn [enqueue_chunks]; [intros [= _ <-]; apply grows_refl|].
  destruct (try_chunk _ _ _ _ _ _ _ _ _) as [e i1] eqn:E. intros H. eapply grows_trans; [by eapply try_chunk_grows|by eapply IH].
Qed.

Lemma try_chunk_all f a n rs enq i enq' i' : 0 <= ENQUEUE_DEADLOCK_RETRIES cfg -> (forall a j b, f a j b = None) -> table_wf (i_queue i) -> (0 < n)%nat ->
  try_chunk cfg now eco f a n rs enq i = (enq', i') -> forall r, r ∈ rs -> queued (eco, canonical r, rel_version r) (i_queue i').
Proof.
  intros Hr Hf Hwf Hn. destruct n as [|n]; [lia|]. cbn [try_chunk].
  destruct (enqueue_chunk_all (f a) 0 rs enq i Hr (Hf a) Hwf) as (e & i1 & -> & Hall). by intros [= _ <-].
Qed.

(** The chunks whose sessions see no error are queued, whatever happens to the others. *)
Lemma enqueue_chunks_all f n k0 cs enq i enq' i' : 0 <= ENQUEUE_DEADLOCK_RETRIES cfg -> table_wf (i_queue i) -> (0 < n)%nat ->
  enqueue_chunks cfg now eco f n k0 cs enq i = (enq', i') ->
  forall k c r, cs !! k = Some c -> r ∈ c -> (forall a j b, f (k0 + k)%nat a j b = None) -> queued (eco, canonical r, rel_version r) (i_queue i').
Proof.
  intros Hr Hwf Hn. revert k0 enq i Hwf. induction cs as [|c0 cs IH]; intros k0 enq i Hwf; cbn [enqueue_chunks]; [done|].
  destruct (try_chunk _ _ _ _ _ _ _ _ _) as [e i1] eqn:E. intros Hrun [|k] c r Hc Hin Hf; cbn in Hc.
  - injection Hc as ->. rewrite Nat.add_0_r in Hf. pose proof (try_chunk_all _ _ _ _ _ _ _ _ Hr Hf Hwf Hn E r Hin) as Hq.
    apply enqueue_chunks_grows in Hrun. apply try_chunk_grows in E. by apply (Hrun (proj1 (E Hwf))).
  - apply try_chunk_grows in E. eapply (IH _ _ _ (proj1 (E Hwf)) Hrun k c r Hc Hin). intros a j b. rewrite <- (Hf a j b). f_equal. lia.
Qed.

Lemma enqueue_each_grows counted f j rs enq i enq' i' : enqueue_each cfg now eco counted f j rs enq i = (enq', i') -> grows i i'.
Proof.
  revert j enq i. induction rs as [|[nm ver] rs IH]; intros j enq i; cbn [enqueue_each]; [intros [= _ <-]; apply grows_refl|].
  pose proof (enqueue_grows (f j) nm ver PHigh i) as H. destruct (enqueue _ _ _ _ _ _ _ _ _ _) as [[row|msg] q]; intros Hrun; (eapply grows_trans; [exact H|by eapply IH]).
Qed.

Lemma enqueue_each_all counted f j rs enq i enq' i' : 0 <= ENQUEUE_DEADLOCK_RETRIES cfg -> table_wf (i_queue i) ->
  enqueue_each cfg now eco counted f j rs enq i = (enq', i') ->
  forall n nm ver, rs !! n = Some (nm, ver) -> (forall b, f (j + n)%nat b = None) -> queued (eco, nm, ver) (i_queue i').
Proof.
  intros Hr. revert j enq i. induction rs as [|[nm0 ver0] rs IH]; intros j enq i Hwf; cbn [enqueue_each]; [done|].
  pose proof (enqueue_grows (f j) nm0 ver0 PHigh i Hwf) as [Hwf1 _].
  intros Hrun [|n] nm ver Hn Hf; cbn in Hn.
  - injection Hn as -> ->. rewrite Nat.add_0_r in Hf. pose proof (enqueue_queues cfg (f j) now eco nm ver PHigh (i_queue i) Hr Hf Hwf) as Hq.
    destruct (enqueue _ _ _ _ _ _ _ _ _ _) as [[row|msg] q]; apply enqueue_each_grows in Hrun; by apply (Hrun Hwf1).
  - destruct (enqueue _ _ _ _ _ _ _ _ _ _) as [[row|msg] q]; (eapply (IH _ _ _ Hwf1 Hrun n nm ver Hn); intros b; rewrite <- (Hf b); f_equal; lia).
Qed.
End Keeps.

(** *** Chunks *)

Lemma chunks_from_lookup {A} fuel n (l : list A) m x : (0 < n)%nat -> (List.length l <= fuel)%nat -> l !! m = Some x ->
  exists c, chunks_from fuel n l !! (m / n)%nat = Some c /\ x ∈ c.
Proof.
  intros Hn. revert l m. induction fuel as [|fuel IH]; intros l m Hl Hm.
  { destruct l; [done|cbn in Hl; lia]. }
  destruct l as [|y l]; [done|]. cbn [chunks_from]. destruct (decide (m < n)%nat) as [Hlt|Hge].
  - rewrite Nat.div_small by done. eexists. split; [done|]. rewrite <- (firstn_skipn n (y :: l)) in Hm. apply list_elem_of_lookup. exists m.
    rewrite <- Hm. symmetry. apply lookup_app_l. rewrite length_firstn. apply lookup_lt_Some in Hm. rewrite firstn_skipn in Hm. lia.
  - replace m with ((m - n) + 1 * n)%nat by lia. rewrite Nat.div_add by lia. rewrite Nat.add_1_r. cbn [lookup list_lookup].
    apply IH; [rewrite length_skipn; cbn in *; lia|]. rewrite lookup_drop. rewrite <- Hm. f_equal. lia.
Qed.

Lemma chunks_lookup {A} n (l : list A) m x : (0 < n)%nat -> l !! m = Some x -> exists c, chunks n l !! (m / n)%nat = Some c /\ x ∈ c.
Proof. intros Hn. by apply chunks_from_lookup. Qed.

Lemma chunks_from_elem {A} fuel n (l : list A) c x : c ∈ chunks_from fuel n l -> x ∈ c -> x ∈ l.
Proof.
  revert l. induction fuel as [|fuel IH]; intros l; cbn [chunks_from]; [intros H; by apply elem_of_nil in H|].
  destruct l as [|y l]; [intros H; by apply elem_of_nil in H|]. intros [->|Hc]%elem_of_cons Hx; [by eapply firstn_elem|].
  rewrite <- (firstn_skipn n (y :: l)). apply elem_of_app. right. by eapply IH.
Qed.

Lemma concat_chunks {A} n (l : list A) : (0 < n)%nat -> List.concat (chunks n l) = l.
Proof.
  intros Hn. unfold chunks. enough (forall fuel (l : list A), (List.length l <= fuel)%nat -> List.concat (chunks_from fuel n l) = l) as H by by apply H.
  clear l. induction fuel as [|fuel IH]; intros l Hl; [by destruct l; [|cbn in Hl; lia]|].
  destruct l as [|y l]; [done|]. cbn [chunks_from List.concat]. rewrite IH; [apply firstn_skipn|]. rewrite length_skipn. cbn in *. lia.
Qed.

(** *** Names the queue knows *)

Definition go_known (q : queue) (n : string) : Prop := lower n ∈ map lower (queue_names ECOSYSTEM q).

Lemma go_known_queued q n v : queued (ECOSYSTEM, n, v) q -> go_known q n.
Proof.
  intros (r & Hr & Hk). unfold key_of in Hk. injection Hk as He Hn _. unfold go_known, queue_names. apply list_elem_of_fmap. exists n. split; [done|].
  apply list_elem_of_fmap. exists r. split; [done|]. apply select_in. split; [done|]. by apply String.eqb_eq.
Qed.

Lemma go_known_inv q n : go_known q n -> exists n' v, lower n' = lower n /\ queued (ECOSYSTEM, n', v) q.
Proof.
  unfold go_known, queue_names. intros H. apply list_elem_of_fmap in H as (n' & E & H). apply list_elem_of_fmap in H as (r & -> & H).
  apply select_in in H as [Hr He%String.eqb_eq]. exists (name r), (version r). split; [done|]. exists r. split; [done|]. unfold key_of. by rewrite He.
Qed.

Lemma go_known_mono q q' n : (forall k, queued k q -> queued k q') -> go_known q n -> go_known q' n.
Proof.
  intros Hk (n' & v & E & Hq)%go_known_inv. apply Hk, go_known_queued in Hq. unfold go_known in *. by rewrite <- E.
Qed.

Lemma watch_names_elem eco n t : n ∈ watch_names eco t <-> exists w, w ∈ rows t /\ w_key w = (eco, n).
Proof.
  unfold watch_names. rewrite list_elem_of_fmap. split.
  - intros (w & -> & Hw). apply select_in in Hw as [Hw He%String.eqb_eq]. exists w. split; [done|]. unfold w_key. by rewrite He.
  - intros (w & Hw & Hk). unfold w_key in Hk. injection Hk as He Hn. exists w. split; [done|]. apply select_in. split; [done|]. by apply String.eqb_eq.
Qed.

(** A rename takes the listed name away and adds no other than the canonical one. *)
Lemma rename_names eco o c t n : n ∈ watch_names eco (rename_watchlist_to_canonical eco o c t).2 ->
  n = c \/ (n ∈ watch_names eco t /\ n <> o).
Proof.
  unfold rename_watchlist_to_canonical. destruct (String.eqb_spec o c) as [->|Hne].
  { cbn [snd]. intros H. destruct (decide (n = c)) as [->|]; [by left|by right]. }
  destruct (exists_row _ t); cbn [snd]; rewrite !watch_names_elem; intros (w & Hw & Hk).
  - right. unfold delete_where in Hw. cbn [rows] in Hw. apply bfilter_in in Hw as [Hw Hn%negb_true_iff]. split; [by exists w|].
    intros ->. unfold named in Hn. apply bool_decide_eq_false in Hn. done.
  - apply update_where_in in Hw as (w0 & H0 & ->). unfold named in Hk. case_bool_decide as E.
    + left. unfold rename_watch, w_key in Hk. cbn in Hk. by injection Hk.
    + right. split; [by exists w0|]. intros ->. done.
Qed.

Section GoSeed.
Context (cfg : QueueConfig) (now : timestamp) (U : list string).
Hypothesis Hretry : 0 <= ENQUEUE_DEADLOCK_RETRIES cfg.

(** Every listed name is still to be enqueued, unscannable, or known. *)
Definition settled (rest : list release) (i : ingest_db) : Prop :=
  forall n, n ∈ watch_names ECOSYSTEM (watches i) -> n ∈ map original rest \/ n ∈ U \/ go_known (i_queue i) n.

Lemma enqueue_chunk_settles f j rs rest enq i enq' i' : (forall j a, f j a = None) -> table_wf (i_queue i) -> settled (rs ++ rest) i ->
  enqueue_chunk cfg now ECOSYSTEM f j rs enq i = (enq', Some i') -> settled rest i'.
Proof.
  intros Hf. revert j enq i. induction rs as [|r rs IH]; intros j enq i Hwf Hs; cbn [enqueue_chunk]; [by intros [= _ <-]|].
  set (i1 := set_watches _ i). pose proof (enqueue_grows cfg now ECOSYSTEM (f j) (canonical r) (rel_version r) PHigh i1 Hwf) as [Hwf' Hk].
  pose proof (enqueue_queues cfg (f j) now ECOSYSTEM (canonical r) (rel_version r) PHigh (i_queue i1) Hretry (Hf j) Hwf) as Hq.
  destruct (enqueue cfg quiet (f j) now ECOSYSTEM (canonical r) (rel_version r) PHigh false (i_queue i1)) as [[row|msg] q]; [|done].
  cbn [snd] in *. apply IH; [exact Hwf'|]. intros n Hn. change (watches (set_queue q i1)) with (watches i1) in Hn.
  apply rename_names in Hn as [->|[Hn Hno]]; [right; right; by eapply go_known_queued|].
  destruct (Hs n Hn) as [Hin|[Hu|Hkn]]; [|by auto|right; right; by eapply go_known_mono].
  cbn [app map] in Hin. apply elem_of_cons in Hin as [->|Hin]; [done|by left].
Qed.

Lemma enqueue_chunks_settle f k cs enq i enq' i' n : (0 < n)%nat -> (forall k a j b, f k a j b = None) -> table_wf (i_queue i) -> settled (List.concat cs) i ->
  enqueue_chunks cfg now ECOSYSTEM f n k cs enq i = (enq', i') -> settled [] i' /\ table_wf (i_queue i').
Proof.
  intros Hn Hf. revert k enq i. induction cs as [|c cs IH]; intros k enq i Hwf Hs; cbn [enqueue_chunks]; [by intros [= _ <-]|].
  destruct n as [|n]; [lia|]. cbn [try_chunk]. destruct (enqueue_chunk_all cfg now ECOSYSTEM (f k 0%nat) 0 c enq i Hretry (Hf k 0%nat) Hwf) as (e & i1 & E & _). rewrite E.
  apply IH.
  - apply (enqueue_chunk_grows _ _ _ _ _ _ _ _ _ _ E Hwf).
  - eapply (enqueue_chunk_settles (f k 0%nat) 0 c (List.concat cs)); [apply Hf|exact Hwf|exact Hs|exact E].
Qed.

Lemma record_unscannable_spec nm reason q :
  (forall k, queued k q -> queued k (record_unscannable now nm reason q).2) /\ queued (ECOSYSTEM, nm, UNSCANNABLE) (record_unscannable now nm reason q).2.
Proof.
  unfold record_unscannable. destruct (first _ q) as [r|] eqn:E.
  - split; [done|]. apply head_in, select_in in E as [Hr Hk%same_key_true]. by exists r.
  - unfold insert_unique. destruct (exists_row _ q) eqn:Ex.
    + split; [done|]. apply existsb_true in Ex as (r & Hr & Hk%bool_decide_eq_true). by exists r.
    + cbn [snd]. split; [intros k (r & Hr & Hk); exists r; split; [apply insert_in; by left|done]|]. eexists. split; [apply insert_in; by right|done].
Qed.

Lemma record_all_spec us q : (forall k, queued k q -> queued k (record_all now us q)) /\ forall u, u ∈ us -> queued (ECOSYSTEM, u.1, UNSCANNABLE) (record_all now us q).
Proof.
  unfold record_all. revert q. induction us as [|u us IH]; intros q; cbn [fold_left]; [split; [done|]; intros u H; by apply elem_of_nil in H|].
  destruct (record_unscannable_spec u.1 u.2 q) as [Hk Hq]. destruct (IH (record_unscannable now u.1 u.2 q).2) as [IH1 IH2]. split; [eauto|].
  intros u' [->|Hin]%elem_of_cons; [by apply IH1|by apply IH2].
Qed.
End GoSeed.

Lemma go_missing_none i : go_missing i = [] <-> forall n, n ∈ watch_names ECOSYSTEM (watches i) -> go_known (i_queue i) n.
Proof.
  unfold go_missing, go_known. split.
  - intros E n Hn. destruct (str_in (lower n) (map lower (queue_names ECOSYSTEM (i_queue i)))) eqn:Es; [by apply str_in_true|].
    exfalso. assert (n ∈ @nil string) as Hx by (rewrite <- E; apply bfilter_in; split; [done|by rewrite Es]). by apply elem_of_nil in Hx.
  - intros H. apply bfilter_none. intros n Hn. apply negb_false_iff, str_in_true. by apply H.
Qed.

(** ** Properties *)

(** A poll of the newest releases loses a package only with its own chunk of a
    hundred: whatever database errors the sessions meet, nothing that was queued is lost,
    and the n-th resolved release is queued unless a session of chunk n/100 saw an error. *)
Theorem release_poll_isolated cfg now eco f attempts rs enq i enq' i' (Hretry : 0 <= ENQUEUE_DEADLOCK_RETRIES cfg)
  (Hwf : table_wf (i_queue i)) (Hatt : (0 < attempts)%nat)
  (Hrun : enqueue_chunks cfg now eco f attempts 0 (chunks CHUNK rs) enq i = (enq', i')) :
  (forall k, queued k (i_queue i) -> queued k (i_queue i')) /\
  forall n r, rs !! n = Some r -> (forall a j b, f (n / CHUNK)%nat a j b = None) -> queued (eco, canonical r, rel_version r) (i_queue i').
Proof.
  split; [apply (enqueue_chunks_grows _ _ _ _ _ _ _ _ _ _ _ Hrun Hwf)|]. intros n r Hn Hf.
  destruct (chunks_lookup CHUNK rs n r ltac:(unfold CHUNK; lia) Hn) as (c & Hc & Hin).
  by apply (enqueue_chunks_all _ _ _ _ _ _ _ _ _ _ _ Hretry Hwf Hatt Hrun (n / CHUNK) c r Hc Hin).
Qed.

(** The Go gap healing converges: when no probe met a network error, no resolved
    version is dropped as a pseudo-version and no session failed, one run leaves no
    watched module without a queue row, under its listed, its canonical or its
    unscannable entry, so the next boot has nothing to probe. *)
Theorem go_seed_converges http cfg o i (Hretry : 0 <= ENQUEUE_DEADLOCK_RETRIES cfg) (Hwf : table_wf (i_queue i))
  (Hperm : forall l, go_completion o l ≡ₚ l) (Hfaults : forall k a j b, go_faults o k a j b = None) (Hsent : sentinel_fault o = false)
  (Hnet : forall n, n ∈ go_missing i -> res_path (resolve_latest_canonical http n) <> None)
  (Hpseudo : scan_pseudo o = true \/ forall n v, n ∈ go_missing i -> res_version (resolve_latest_canonical http n) = Some v -> is_pseudo_version v = false) :
  go_missing (go_seed_missing http cfg o i).2 = [].
Proof.
  unfold go_seed_missing. destruct (go_missing i) as [|n0 ns] eqn:Em; [done|]. rewrite <- Em in *. clear Em n0 ns. unfold go_seed_names.
  set (results := go_completion o _). set (succ := drop_pseudo o _). set (us := omap _ results). rewrite Hsent.
  destruct (enqueue_chunks _ _ _ _ _ _ _ _ _) as [enq i1] eqn:E. cbn [snd].
  assert (settled (map fst us) (List.concat (chunks CHUNK succ)) i) as Hs.
  { rewrite concat_chunks by (unfold CHUNK; lia). intros n Hn. destruct (decide (n ∈ go_missing i)) as [Hm|Hm]; cycle 1.
    { right. right. unfold go_known. apply str_in_true. destruct (str_in _ _) eqn:Es; [done|]. exfalso. apply Hm. unfold go_missing. apply bfilter_in. by rewrite Es. }
    assert ((n, resolve_latest_canonical http n) ∈ results) as Hr by (unfold results; rewrite Hperm; apply list_elem_of_fmap; by exists n).
    specialize (Hnet n Hm). destruct (res_path (resolve_latest_canonical http n)) as [c|] eqn:Ec; [|done].
    destruct (res_version (resolve_latest_canonical http n)) as [v|] eqn:Ev.
    - left. apply list_elem_of_fmap. exists (mkRelease n c v). split; [done|]. unfold succ, drop_pseudo.
      assert (mkRelease n c v ∈ omap success_of results) as Hin by (apply list_elem_of_omap; eexists; split; [exact Hr|unfold success_of; cbn [fst snd]; by rewrite Ec, Ev]).
      destruct Hpseudo as [->|Hp]; [done|]. destruct (scan_pseudo o); [done|]. apply bfilter_in. split; [done|]. cbn. by rewrite (Hp n v Hm Ev).
    - right. left. apply list_elem_of_fmap. exists (n, str_or (ostr (res_reason (resolve_latest_canonical http n))) "unknown"). split; [done|].
      apply list_elem_of_omap. eexists. split; [exact Hr|]. unfold unscannable_of. cbn [fst snd]. by rewrite Ec, Ev. }
  destruct (enqueue_chunks_settle cfg (go_clock o) (map fst us) Hretry (go_faults o) 0 _ _ _ _ _ 1 ltac:(lia) Hfaults Hwf Hs E) as [Hs1 _].
  destruct (record_all_spec (go_clock o) us (i_queue i1)) as [Hk Hu]. apply go_missing_none. intros n Hn.
  change (watches (set_queue _ i1)) with (watches i1) in Hn. change (i_queue (set_queue ?q i1)) with q.
  destruct (Hs1 n Hn) as [Hx|[Hx|Hx]]; [by apply elem_of_nil in Hx| |by eapply go_known_mono].
  apply list_elem_of_fmap in Hx as (u & -> & Hin). by eapply go_known_queued, Hu.
Qed.

Lemma probe_refused http p st js tx : http (case_encode p) = Answer st js tx -> st <> 200 -> probe http p = ProbeFail (replace_char LF " "%char (str_take 200 tx)).
Proof. intros E Hne. unfold probe. rewrite E. destruct st as [|q|q]; try done. do 8 (destruct q as [q|q|]; try done). Qed.

(** The docstring has a permanent entry recorded on a 404 only; any answer that is not
    200, on the path and its variants, is taken for permanent. *)
Theorem refused_is_permanent http path (Hrefused : forall p, exists status json text, http p = Answer status json text /\ status <> 200) :
  exists reason, resolve_latest_canonical http path = mkResolved (Some path) None (Some reason).
Proof.
  assert (forall p, exists body, probe http p = ProbeFail body) as Hp.
  { intros p. destruct (Hrefused (case_encode p)) as (st & js & tx & E & Hne). exists (replace_char LF " "%char (str_take 200 tx)). by eapply probe_refused. }
  unfold resolve_latest_canonical. destruct (Hp path) as [body ->]. exists body. unfold VN_SUFFIXES. cbn [probe_suffixes].
  repeat match goal with |- context [probe http ?p] => let b := fresh in destruct (Hp p) as [b ->] end. done.
Qed.

(** ** Concrete runs *)

Definition ex_i (ws : list watch) : ingest_db := set_watches (Table ws (Z.of_nat (List.length ws) + 1)) (mkIngest empty_db empty_table empty_table []).
Definition ex_watch (i : Z) (eco nm : string) : watch := mkWatch i eco nm i 0 0.
Definition no_faults : nat -> nat -> nat -> nat -> option string := fun _ _ _ _ => None.

(** The proxy of the examples: one module is at v2, one is gone, one answers 429. *)
Definition ex_http (p : string) : proxy_answer :=
  if String.eqb p "github.com/a/b" then Answer 404 None "not found"
  else if String.eqb p "github.com/a/b/v2" then Answer 200 (Some (Some "v2.1.0"%string)) ""
  else if contains "busy" p then Answer 429 None "rate limited"
  else Answer 404 None "gone".
Definition ex_go (sentinel : bool) : go_outside := mkGoSeed false (fun l => l) no_faults sentinel 5.
Definition ex_go_table : ingest_db := ex_i [ex_watch 1 "gomod" "github.com/a/b"; ex_watch 2 "gomod" "github.com/c/gone"; ex_watch 3 "gomod" "github.com/d/busy"].

Example go_seed_ex :
  let i := (go_seed_missing ex_http default_config (ex_go false) ex_go_table).2 in
  (go_seed_missing ex_http default_config (ex_go false) ex_go_table).1 = 1 /\
  map key_of (rows (i_queue i)) = [("gomod", "github.com/a/b/v2", "v2.1.0"); ("gomod", "github.com/c/gone", "unscannable"); ("gomod", "github.com/d/busy", "unscannable")]%string /\
  watch_names "gomod" (watches i) = ["github.com/a/b/v2"; "github.com/c/gone"; "github.com/d/busy"]%string.
Proof. by vm_compute. Qed.

Lemma go_seed_converges_witness : go_missing (go_seed_missing ex_http default_config (ex_go false) ex_go_table).2 = [].
Proof.
  apply go_seed_converges; [done|split; constructor|done|done|done| |right].
  - intros n Hn. assert (go_missing ex_go_table = ["github.com/a/b"; "github.com/c/gone"; "github.com/d/busy"]%string) as E by by vm_compute.
    rewrite E, !elem_of_cons, elem_of_nil in Hn. destruct Hn as [->|[->|[->|[]]]]; by vm_compute.
  - intros n v Hn. assert (go_missing ex_go_table = ["github.com/a/b"; "github.com/c/gone"; "github.com/d/busy"]%string) as E by by vm_compute.
    rewrite E, !elem_of_cons, elem_of_nil in Hn. destruct Hn as [->|[->|[->|[]]]]; vm_compute; [by intros [= <-]|done|done].
Defined.

Definition ex_releases : list release := [mkRelease "left-pad" "left-pad" "1.3.0"].
Lemma release_poll_isolated_witness :
  queued ("npm", "left-pad", "1.3.0")%string (i_queue (enqueue_chunks default_config 5 "npm" no_faults 1 0 (chunks CHUNK ex_releases) 0 (ex_i [])).2).
Proof.
  destruct (release_poll_isolated default_config 5 "npm" no_faults 1 ex_releases 0 (ex_i []) 1 (enqueue_chunks default_config 5 "npm" no_faults 1 0 (chunks CHUNK ex_releases) 0 (ex_i [])).2) as [_ H];
    [done|split; constructor|lia|by vm_compute|]. by apply (H 0%nat (mkRelease "left-pad" "left-pad" "1.3.0")).
Defined.

(** One database error that is no deadlock rolls back npm's whole chunk, and it is
    not tried again; the count returned still holds the rows rolled back. *)
Definition ex_out : outside := mkOut (fun _ => Some "1.0"%string) (fun l => l) (fun _ _ j _ => if (j =? 1)%nat then Some "disk full"%string else None) 5.
Example npm_chunk_lost :
  let r := npm_poll_watchlist default_config ex_out (ex_i [ex_watch 1 "npm" "a"; ex_watch 2 "npm" "b"; ex_watch 3 "npm" "c"]) in
  r.1 = 1 /\ rows (i_queue r.2) = [].
Proof. by vm_compute. Qed.

(** PyPI's five sessions per chunk add to one count: a chunk that is committed
    in the third session is counted three times up to its bad row. *)
Definition ex_out3 : outside := mkOut (fun _ => Some "1.0"%string) (fun l => l) (fun _ a j _ => if (a <? 2)%nat && (j =? 1)%nat then Some "disk full"%string else None) 5.
Example pypi_count_inflated :
  let r := pypi_poll_watchlist default_config ex_out3 None (ex_i [ex_watch 1 "pypi" "a"; ex_watch 2 "pypi" "b"]) in
  r.1 = 4 /\ List.length (rows (i_queue r.2)) = 2%nat.
Proof. by vm_compute. Qed.

(** The npm seed compares names with their case, so a module queued under
    another case is probed again on every boot; Go's comparison does not. *)
Example case_of_seed :
  missing "npm" (set_queue (Table [new_row 1 "npm" "jquery" "1.0" PHigh 1] 2) (ex_i [ex_watch 1 "npm" "jQuery"])) = ["jQuery"%string] /\
  go_missing (set_queue (Table [new_row 1 "gomod" "github.com/x/y" "1.0" PHigh 1] 2) (ex_i [ex_watch 1 "gomod" "github.com/X/y"])) = [].
Proof. by vm_compute. Qed.
