(* ===== verification/CratesFeeds.v ===== *)
(** * The crates.io feeds and their reconciliation backstop

    [src/pkgward/ecosystems/crates/ingest/feeds.py].  The parsed documents of
    the two feeds, the answers of the API, the order of sets and of concurrent
    requests and the database errors are arguments; nothing else writes between
    the sessions of a poll. *)
From S2P Require Import Prelude PyStr Text Sql Findings Jobs ScanQueue Watch Store Focus MaintWatch Ingest Anomaly.
From Stdlib Require Import Ascii String.

Open Scope list_scope.
Open Scope Z_scope.

Definition ECOSYSTEM : string := "crates".
Definition NEW_CRATE_PREFIX : string := "New crate created: ".
Definition UPDATE_PREFIX : string := "New crate version published: ".

(** ** Parsing *)

(** [s.rsplit(" ", 1)] when it has two parts. *)
Definition rsplit_space (s : string) : option (string * string) :=
  if has_char " "%char s then
    let ver := after_last " "%char s in Some (str_take (len s - len ver - 1) s, ver)
  else None.

Definition parse_title (title : string) : option (string * string) :=
  if startswith title UPDATE_PREFIX then
    match rsplit_space (str_drop (len UPDATE_PREFIX) title) with
    | Some (nm, ver) => Some (strip nm, strip (lstrip_char "v"%char ver))
    | None => None
    end
  else if startswith title NEW_CRATE_PREFIX then
    let nm := strip (str_drop (len NEW_CRATE_PREFIX) title) in
    if truthy nm then Some (nm, "latest"%string) else None
  else None.

(** The segment two after the first [crates]. *)
Fixpoint after_crates (parts : list string) : option string :=
  match parts with
  | [] => None
  | p :: parts' => if String.eqb p "crates" then parts' !! 1%nat else after_crates parts'
  end.
Definition version_from_link (link : string) : option string := after_crates (PyStr.split "/"%char (rstrip_char "/"%char link)).

(** An [item] element: the texts of its title and its link, if it has them. *)
Record rss_item := mkRss { r_title : option string; r_link : option string }.

Definition parse_item (it : rss_item) : option (string * string) :=
  let title := strip (ostr (r_title it)) in
  if negb (truthy title) then None
  else match parse_title title with
    | None => None
    | Some (nm, ver) =>
        if String.eqb ver "latest" then
          let link_ver := ostr (version_from_link (strip (ostr (r_link it)))) in
          Some (nm, if truthy link_ver then link_ver else ver)
        else Some (nm, ver)
    end.
(** [None]: the document could not be fetched or parsed. *)
Definition parse_rss_items (doc : option (list rss_item)) : list (string * string) :=
  match doc with Some its => omap parse_item its | None => [] end.

(** ** The metadata of the anomaly gate *)

(** A version of the API: [published_by] holds a login and a name. *)
Record crate_version := mkCrateVersion {
  num : string;
  created_at : string;
  crate_size : option Z;
  published_by : option (option string * option string);
}.
Definition crate_meta (v : crate_version) : Core.VersionMeta :=
  Core.mkMeta (num v) (created_at v) (crate_size v)
    (match published_by v with Some (login, nm) => if otruthy login then login else nm | None => None end) false.
(** [None]: any status but 200. *)
Definition fetch_crate_metas (versions : option (list crate_version)) : option (list Core.VersionMeta) :=
  match versions with Some vs => Some (map crate_meta vs) | None => None end.

(** ** The poll *)

Definition is_latest (v : string) : bool := String.eqb v "latest".

Definition dedup_item (known_ : list string) (resolved : string -> option string) (nv : string * string) : option (string * string) :=
  if negb (is_latest nv.2) then Some nv
  else if str_in nv.1 known_ then None
  else match resolved nv.1 with Some v => Some (nv.1, v) | None => Some nv end.
Definition dedup_new_items (new_items : list (string * string)) (known_ : list string) (resolved : string -> option string) : list (string * string) :=
  omap (dedup_item known_ resolved) new_items.

Record FeedConfig := mkCratesConfig {
  cf_queue : QueueConfig;
  cf_anomaly : Core.DiffConfig;
  CRATES_ANOMALY_GATE : bool;
  CRATES_ANOMALY_MAX_CHECKS : nat;
  RECONCILE_PAGES : nat;
}.

(** [resolve_latest n]: the newest version of a crate, if the API tells;
    [enqueue_faults k j]: the errors of the j-th enqueue of loop [k]. *)
Record outside := mkCratesOutside {
  new_feed : option (list rss_item);
  update_feed : option (list rss_item);
  resolve_latest : string -> option string;
  versions_of : string -> option (list crate_version);
  set_order : list string -> list string;
  completion : list string -> list string;
  enqueue_faults : nat -> nat -> nat -> option string;
  clock : timestamp;
}.

(** The names the queue has, of a set asked for. *)
Definition known_names (names : list string) (q : queue) : list string :=
  map name (select (fun r => String.eqb (ecosystem r) ECOSYSTEM && str_in (name r) names) q).

(** The counters and the candidates of a loop. *)
Record tally := mkTally { t_enqueued : Z; t_skipped : Z; t_candidates : list string }.

Section Loop.
Variables (cfg : FeedConfig) (o : outside).
(** The priority of an item, if its gate admits it; whether a skipped item is an
    anomaly candidate; what an enqueue counts. *)
Variables (gate : string -> option priority) (candidate : bool) (counted : option row -> bool) (k : nat).

(** An exception of one enqueue is swallowed. *)
Fixpoint feed_loop (j : nat) (its : list (string * string)) (t : tally) (q : queue) : tally * queue :=
  match its with
  | [] => (t, q)
  | (nm, ver) :: its' =>
      match gate nm with
      | None => feed_loop (S j) its' (mkTally (t_enqueued t) (t_skipped t + 1) (if candidate then append_new (t_candidates t) [nm] else t_candidates t)) q
      | Some p =>
          match enqueue (cf_queue cfg) quiet (enqueue_faults o k j) (clock o) ECOSYSTEM nm ver p false q with
          | (Raised _, q) => feed_loop (S j) its' t q
          | (Returned r, q) => feed_loop (S j) its' (mkTally (t_enqueued t + Z.b2z (counted r)) (t_skipped t) (t_candidates t)) q
          end
      end
  end.

End Loop.

Section Hits.
Variables (cfg : FeedConfig) (o : outside).
Fixpoint hit_loop (j : nat) (hits : list (string * string * priority)) (n : Z) (q : queue) : Z * queue :=
  match hits with
  | [] => (n, q)
  | (nm, ver, p) :: hits' =>
      match enqueue (cf_queue cfg) quiet (enqueue_faults o 2 j) (clock o) ECOSYSTEM nm ver p false q with
      | (Raised _, q) => hit_loop (S j) hits' n q
      | (Returned r, q) => hit_loop (S j) hits' (n + Z.b2z (if r then true else false)) q
      end
  end.
End Hits.

Definition any_row (r : option row) : bool := true.
Definition some_row (r : option row) : bool := if r then true else false.

Definition new_gate (focus_names : list string) (exclusive : bool) (nm : string) : option priority :=
  gate_decision (on_focus nm focus_names ECOSYSTEM) false true exclusive.
Definition update_gate (focus_names : list string) (exclusive : bool) (t : wtable) (nm : string) : option priority :=
  gate_decision (on_focus nm focus_names ECOSYSTEM) (negb exclusive && bool_decide (is_Some (is_watchlist nm ECOSYSTEM t))) false exclusive.

(** The new items once their placeholders are dealt with. *)
Definition latest_names (new_items : list (string * string)) : list string := map fst (bfilter (fun nv => is_latest nv.2) new_items).
Definition concrete_items (o : outside) (q : queue) : list (string * string) :=
  let new_items := parse_rss_items (new_feed o) in
  let names := latest_names new_items in
  match names with
  | [] => new_items
  | _ =>
      let known_ := known_names names q in
      dedup_new_items new_items known_ (fun n => if str_in n names && negb (str_in n known_) then resolve_latest o n else None)
  end.

Definition poll_feeds_once (cfg : FeedConfig) (o : outside) (exclusive : bool) (i : ingest_db) : Z * ingest_db :=
  let new_items := concrete_items o (i_queue i) in
  let focus_names := load_focus_names ECOSYSTEM (i_focus i) in
  let '(tn, q) := feed_loop cfg o (new_gate focus_names exclusive) false any_row 0 0 new_items (mkTally 0 0 []) (i_queue i) in
  let '(tu, q) := feed_loop cfg o (update_gate focus_names exclusive (watchlist (i_store i))) (CRATES_ANOMALY_GATE cfg && negb exclusive) any_row 1 0
                    (parse_rss_items (update_feed o)) (mkTally 0 0 []) q in
  let hits :=
    if CRATES_ANOMALY_GATE cfg && negb (bool_decide (t_candidates tu = [])) then
      Core.check_candidates (cf_anomaly cfg) (fun n => fetch_crate_metas (versions_of o n)) (completion o) (CRATES_ANOMALY_MAX_CHECKS cfg) (set_order o (t_candidates tu))
    else [] in
  let '(na, q) := hit_loop cfg o 0 hits 0 q in
  (t_enqueued tn + t_enqueued tu + na, set_queue q i).

(** ** The backstop *)

(** A crate of the API: name, newest and maximal version. *)
Record api_crate := mkApiCrate { a_name : option string; a_newest : option string; a_max : option string }.
Definition api_item (c : api_crate) : option (string * string) :=
  let ver := str_or (ostr (a_newest c)) (ostr (a_max c)) in
  if otruthy (a_name c) && truthy ver then Some (ostr (a_name c), ver) else None.

(** [n] pages from [page]; a failing or empty page ([None], [[]]) ends the loop. *)
Fixpoint fetch_new_crates (page_of : Z -> option (list api_crate)) (n : nat) (page : Z) : list (string * string) :=
  match n with
  | O => []
  | S n' =>
      match page_of page with
      | None | Some [] => []
      | Some cs => omap api_item cs ++ fetch_new_crates page_of n' (page + 1)
      end
  end.

Definition reconcile_new_crates (cfg : FeedConfig) (o : outside) (page_of : Z -> option (list api_crate)) (exclusive : bool) (i : ingest_db) : Z * ingest_db :=
  match fetch_new_crates page_of (RECONCILE_PAGES cfg) 1 with
  | [] => (0, i)
  | items =>
      let focus_names := load_focus_names ECOSYSTEM (i_focus i) in
      let known_ := known_names (map fst items) (i_queue i) in
      let '(t, q) := feed_loop cfg o (new_gate focus_names exclusive) false some_row 3 0
                       (bfilter (fun nv => negb (str_in nv.1 known_)) items) (mkTally 0 0 []) (i_queue i) in
      (t_enqueued t, set_queue q i)
  end.

(** ** Lemmas *)

Section LoopSpec.
Context (cfg : FeedConfig) (o : outside) (gate : string -> option priority) (candidate : bool) (counted : option row -> bool) (k : nat).

Lemma feed_loop_keeps j its t q t' q' : table_wf q -> feed_loop cfg o gate candidate counted k j its t q = (t', q') ->
  table_wf q' /\ forall key, queued key q -> queued key q'.
Proof.
  revert j t q. induction its as [|[nm ver] its IH]; intros j t q Hwf; cbn [feed_loop]; [by intros [= _ <-]|].
  destruct (gate nm) as [p|]; [|by apply IH].
  pose proof (enqueue_wf (cf_queue cfg) (enqueue_faults o k j) (clock o) ECOSYSTEM nm ver p false q Hwf) as Hw.
  pose proof (fun key H => proj2 (enqueue_keeps (cf_queue cfg) (enqueue_faults o k j) (clock o) ECOSYSTEM nm ver p q key Hwf H)) as Hk.
  destruct (enqueue _ _ _ _ _ _ _ _ _ _) as [[r|msg] q1]; intros H; apply IH in H as [Hw' Hk']; auto.
Qed.

(** An admitted item whose own enqueue meets no error is queued. *)
Lemma feed_loop_queues j its t q t' q' : 0 <= ENQUEUE_DEADLOCK_RETRIES (cf_queue cfg) -> table_wf q ->
  feed_loop cfg o gate candidate counted k j its t q = (t', q') ->
  forall n nm ver p, its !! n = Some (nm, ver) -> gate nm = Some p -> (forall a, enqueue_faults o k (j + n)%nat a = None) -> queued (ECOSYSTEM, nm, ver) q'.
Proof.
  intros Hr. revert j t q. induction its as [|[nm0 ver0] its IH]; intros j t q Hwf; cbn [feed_loop]; [done|].
  intros Hrun [|n] nm ver p Hn Hg Hf; cbn in Hn.
  - injection Hn as -> ->. rewrite Hg in Hrun. rewrite Nat.add_0_r in Hf.
    pose proof (enqueue_queues (cf_queue cfg) (enqueue_faults o k j) (clock o) ECOSYSTEM nm ver p q Hr Hf Hwf) as Hq.
    pose proof (enqueue_wf (cf_queue cfg) (enqueue_faults o k j) (clock o) ECOSYSTEM nm ver p false q Hwf) as Hw.
    destruct (enqueue _ _ _ _ _ _ _ _ _ _) as [[r|msg] q1]; apply feed_loop_keeps in Hrun as [_ Hk]; auto.
  - assert (forall a, enqueue_faults o k (S j + n)%nat a = None) as Hf' by (intros a; rewrite <- (Hf a); f_equal; lia).
    destruct (gate nm0) as [p0|]; [|by eapply IH].
    pose proof (enqueue_wf (cf_queue cfg) (enqueue_faults o k j) (clock o) ECOSYSTEM nm0 ver0 p0 false q Hwf) as Hw.
    destruct (enqueue _ _ _ _ _ _ _ _ _ _) as [[r|msg] q1]; by eapply IH.
Qed.
End LoopSpec.

Lemma hit_loop_keeps cfg o j hits n q n' q' : table_wf q -> hit_loop cfg o j hits n q = (n', q') -> table_wf q' /\ forall key, queued key q -> queued key q'.
Proof.
  revert j n q. induction hits as [|[[nm ver] p] hits IH]; intros j n q Hwf; cbn [hit_loop]; [by intros [= _ <-]|].
  pose proof (enqueue_wf (cf_queue cfg) (enqueue_faults o 2 j) (clock o) ECOSYSTEM nm ver p false q Hwf) as Hw.
  pose proof (fun key H => proj2 (enqueue_keeps (cf_queue cfg) (enqueue_faults o 2 j) (clock o) ECOSYSTEM nm ver p q key Hwf H)) as Hk.
  destruct (enqueue _ _ _ _ _ _ _ _ _ _) as [[r|msg] q1]; intros H; apply IH in H as [Hw' Hk']; auto.
Qed.

Lemma known_names_elem names q n : n ∈ known_names names q <-> n ∈ names /\ exists ver, queued (ECOSYSTEM, n, ver) q.
Proof.
  unfold known_names. rewrite list_elem_of_fmap. split.
  - intros (r & -> & H). apply select_in in H as [Hr [He%String.eqb_eq Hn%str_in_true]%andb_true_iff]. split; [done|]. exists (version r), r. split; [done|]. unfold key_of. by rewrite He.
  - intros [Hn (ver & r & Hr & Hk)]. unfold key_of in Hk. injection Hk as He <- _. exists r. split; [done|]. apply select_in. split; [done|].
    rewrite He, String.eqb_refl. by apply str_in_true.
Qed.

(** No crate is lost on the way to its concrete version. *)
Lemma concrete_covers o q nm ver : (nm, ver) ∈ parse_rss_items (new_feed o) ->
  (exists v, (nm, v) ∈ concrete_items o q) \/ exists v, queued (ECOSYSTEM, nm, v) q.
Proof.
  intros Hin. unfold concrete_items. set (items := parse_rss_items (new_feed o)) in *.
  destruct (latest_names items) as [|n0 ns] eqn:El; [left; by exists ver|]. rewrite <- El. clear El n0 ns.
  destruct (is_latest ver) eqn:Ev.
  - assert (nm ∈ latest_names items) as Hl by (unfold latest_names; apply list_elem_of_fmap; exists (nm, ver); split; [done|]; by apply bfilter_in).
    destruct (str_in nm (known_names (latest_names items) q)) eqn:Ek; [right; apply str_in_true, known_names_elem in Ek; by destruct Ek|]. left.
    unfold dedup_new_items. destruct (resolve_latest o nm) as [v|] eqn:Er; [exists v|exists ver]; apply list_elem_of_omap; exists (nm, ver); (split; [done|]);
      unfold dedup_item; cbn [fst snd]; rewrite Ev, Ek; cbn [negb]; by rewrite (proj2 (str_in_true _ _) Hl), Er.
  - left. exists ver. unfold dedup_new_items. apply list_elem_of_omap. exists (nm, ver). split; [done|]. unfold dedup_item. cbn [fst snd]. by rewrite Ev.
Qed.

(** ** Properties *)

(** A poll of the crates.io feeds covers what it shows: when the focus list is not
    exclusive and no enqueue meets a database error, every crate of the feed of new crates
    is queued under some version afterwards, every update that concerns a focus or a
    watched crate is queued under its version, and nothing that was queued is lost. *)
Theorem crates_poll_covers cfg o i (Hretry : 0 <= ENQUEUE_DEADLOCK_RETRIES (cf_queue cfg)) (Hwf : table_wf (i_queue i))
  (Hfaults : forall k j a, enqueue_faults o k j a = None) :
  let i' := (poll_feeds_once cfg o false i).2 in
  (forall nm ver, (nm, ver) ∈ parse_rss_items (new_feed o) -> exists v, queued (ECOSYSTEM, nm, v) (i_queue i')) /\
  (forall nm ver p, (nm, ver) ∈ parse_rss_items (update_feed o) ->
     update_gate (load_focus_names ECOSYSTEM (i_focus i)) false (watchlist (i_store i)) nm = Some p -> queued (ECOSYSTEM, nm, ver) (i_queue i')) /\
  (forall key, queued key (i_queue i) -> queued key (i_queue i')).
Proof.
  cbn zeta. unfold poll_feeds_once. set (F := load_focus_names ECOSYSTEM (i_focus i)).
  destruct (feed_loop cfg o (new_gate F false) _ _ _ _ _ _ _) as [tn q1] eqn:E1. destruct (feed_loop cfg o (update_gate F _ _) _ _ _ _ _ _ _) as [tu q2] eqn:E2.
  destruct (hit_loop _ _ _ _ _ _) as [na q3] eqn:E3. cbn [snd]. change (i_queue (set_queue q3 i)) with q3.
  destruct (feed_loop_keeps _ _ _ _ _ _ _ _ _ _ _ _ Hwf E1) as [Hwf1 K1]. destruct (feed_loop_keeps _ _ _ _ _ _ _ _ _ _ _ _ Hwf1 E2) as [Hwf2 K2].
  destruct (hit_loop_keeps _ _ _ _ _ _ _ _ Hwf2 E3) as [_ K3]. split_and!; [| |by auto].
  - intros nm ver Hin. destruct (concrete_covers o (i_queue i) nm ver Hin) as [[v Hv]|[v Hq]]; exists v; [|by auto].
    apply list_elem_of_lookup in Hv as [n Hn]. apply K3, K2.
    assert (is_Some (new_gate F false nm)) as [p Hp] by (unfold new_gate, gate_decision; by destruct (on_focus _ _ _)).
    by eapply (feed_loop_queues _ _ _ _ _ _ _ _ _ _ _ _ Hretry Hwf E1 n nm v p Hn Hp).
  - intros nm ver p Hin Hg. apply list_elem_of_lookup in Hin as [n Hn]. apply K3.
    by eapply (feed_loop_queues _ _ _ _ _ _ _ _ _ _ _ _ Hretry Hwf1 E2 n nm ver p Hn Hg).
Qed.

(** The backstop only adds: after a reconciliation every crate the API listed as
    new is queued under some version unless its own enqueue met an error, and nothing that
    was queued is lost. *)
Theorem reconcile_covers cfg o page_of i (Hretry : 0 <= ENQUEUE_DEADLOCK_RETRIES (cf_queue cfg)) (Hwf : table_wf (i_queue i))
  (Hfaults : forall j a, enqueue_faults o 3 j a = None) :
  let i' := (reconcile_new_crates cfg o page_of false i).2 in
  (forall nm ver, (nm, ver) ∈ fetch_new_crates page_of (RECONCILE_PAGES cfg) 1 -> exists v, queued (ECOSYSTEM, nm, v) (i_queue i')) /\
  (forall key, queued key (i_queue i) -> queued key (i_queue i')).
Proof.
  cbn zeta. unfold reconcile_new_crates. destruct (fetch_new_crates _ _ _) as [|it its] eqn:Ei; [split; [intros nm ver H; by apply elem_of_nil in H|done]|].
  rewrite <- Ei. clear Ei it its. set (items := fetch_new_crates _ _ _).
  destruct (feed_loop _ _ _ _ _ _ _ _ _ _) as [t q] eqn:E. cbn [snd]. change (i_queue (set_queue q i)) with q.
  destruct (feed_loop_keeps _ _ _ _ _ _ _ _ _ _ _ _ Hwf E) as [_ K]. split; [|done]. intros nm ver Hin.
  destruct (str_in nm (known_names (map fst items) (i_queue i))) eqn:Ek.
  - apply str_in_true, known_names_elem in Ek as [_ [v Hv]]. exists v. by apply K.
  - exists ver. assert ((nm, ver) ∈ bfilter (fun nv => negb (str_in nv.1 (known_names (map fst items) (i_queue i)))) items) as Hb by (apply bfilter_in; cbn [fst]; by rewrite Ek).
    apply list_elem_of_lookup in Hb as [n Hn].
    assert (is_Some (new_gate (load_focus_names ECOSYSTEM (i_focus i)) false nm)) as [p Hp] by (unfold new_gate, gate_decision; by destruct (on_focus _ _ _)).
    by eapply (feed_loop_queues _ _ _ _ _ _ _ _ _ _ _ _ Hretry Hwf E n nm ver p Hn Hp).
Qed.

(** ** Concrete runs *)

Definition default_crates : FeedConfig := mkCratesConfig default_config Core.default_diff true 80 3.
Definition ex_new : list rss_item :=
  [mkRss (Some "New crate created: evil"%string) (Some "https://crates.io/crates/evil"%string); mkRss (Some "New crate created: known"%string) None; mkRss None None].
Definition ex_updates : list rss_item :=
  [mkRss (Some "New crate version published: serde v1.0.1"%string) None; mkRss (Some "New crate version published: other v2.0.0"%string) None].
Definition ex_outside : outside :=
  mkCratesOutside (Some ex_new) (Some ex_updates) (fun n => if String.eqb n "evil" then Some "0.1.0"%string else None) (fun _ => None) (fun l => l) (fun l => l) (fun _ _ _ => None) 5.
Definition ex_ingest : ingest_db :=
  mkIngest (set_watchlist (Table [mkWatch 1 "crates" "serde" 1 9 0] 2) (set_scan_queue (Table [new_row 1 "crates" "known" "0.0.1" PNormal 1] 2) empty_db)) empty_table empty_table [].

Example crates_poll_ex :
  let r := poll_feeds_once default_crates ex_outside false ex_ingest in
  r.1 = 2 /\ map (fun w => (name w, version w, jpriority w)) (rows (i_queue r.2)) = [("known", "0.0.1", PNormal); ("evil", "0.1.0", PNormal); ("serde", "1.0.1", PHigh)]%string.
Proof. by vm_compute. Qed.

Lemma ex_ingest_wf : table_wf (i_queue ex_ingest).
Proof. split; [apply NoDup_singleton|repeat constructor]. Qed.

Lemma crates_poll_covers_witness : exists v, queued (ECOSYSTEM, "evil"%string, v) (i_queue (poll_feeds_once default_crates ex_outside false ex_ingest).2).
Proof.
  apply (crates_poll_covers default_crates ex_outside ex_ingest ltac:(done) ex_ingest_wf ltac:(done)) with (ver := "latest"%string).
  apply (bool_decide_unpack _). by vm_compute.
Defined.

Definition ex_page (p : Z) : option (list api_crate) := if p =? 1 then Some [mkApiCrate (Some "fresh"%string) None (Some "3.0"%string)] else None.
Lemma reconcile_covers_witness : exists v, queued (ECOSYSTEM, "fresh"%string, v) (i_queue (reconcile_new_crates default_crates ex_outside ex_page false ex_ingest).2).
Proof.
  apply (reconcile_covers default_crates ex_outside ex_page ex_ingest ltac:(done) ex_ingest_wf ltac:(done)) with (ver := "3.0"%string).
  apply (bool_decide_unpack _). by vm_compute.
Defined.

Example parse_title_ex :
  map parse_title ["New crate version published: a-b v1.2.3"; "New crate created: a-b"; "New crate created: "; "Other"]%string
    = [Some ("a-b", "1.2.3"); Some ("a-b", "latest"); None; None]%string /\
  map version_from_link ["https://crates.io/crates/a/1.0/"; "https://crates.io/crates/a"]%string = [Some "1.0"; None]%string.
Proof. by vm_compute. Qed.
