(* ===== verification/Codecs.v ===== *)
(** * The text codecs of the decode engine

    The decoders of [src/pkgward/analyze/decode_engine.py] on byte strings (a
    byte is an [ascii]), written from what CPython's [binascii], [base64],
    [bytes.fromhex] and [urllib.parse] do in the modes the source calls them
    in: base64 is the lenient mode, which skips foreign bytes.  The encoders
    are the reference the round trips are stated against. *)
From S2P Require Import Prelude PyStr Text.
From Stdlib Require Import Ascii String.

Open Scope string_scope.
Open Scope Z_scope.

(** ** Bytes *)

Definition is_alpha (c : ascii) : bool := is_upper c || ((97 <=? code c) && (code c <=? 122)).
(** The whitespace of [bytes.strip] and of [\s] in a bytes pattern. *)
Definition b_space (c : ascii) : bool := ((9 <=? code c) && (code c <=? 13)) || (code c =? 32).
Definition PAD : ascii := "="%char.
Definition PCT : ascii := "%"%char.

Fixpoint rep (n : nat) (c : ascii) : string := match n with O => "" | S n' => String c (rep n' c) end.
Fixpoint smap (f : ascii -> ascii) (s : string) : string := match s with "" => "" | String c s' => String (f c) (smap f s') end.
Fixpoint count (p : ascii -> bool) (s : string) : Z := match s with "" => 0 | String c s' => Z.b2z (p c) + count p s' end.

Definition hexval (c : ascii) : option Z :=
  if is_digit c then Some (code c - 48)
  else if (97 <=? code c) && (code c <=? 102) then Some (code c - 87)
  else if (65 <=? code c) && (code c <=? 70) then Some (code c - 55) else None.
Definition is_hex (c : ascii) : bool := match hexval c with Some _ => true | None => false end.

(** Big-endian digits of a number, and the number of a list of digits. *)
Fixpoint digits (base : Z) (k : nat) (n : Z) : list Z :=
  match k with O => [] | S k' => (digits base k' (n / base) ++ [n mod base])%list end.
Definition undigits (base : Z) (l : list Z) : Z := fold_left (fun acc d => acc * base + d) l 0.

Definition str_of (l : list Z) : string := string_of_list_ascii (map chr l).

(** ** base64: [binascii.a2b_base64] in its lenient mode *)

Definition b64_val (c : ascii) : option Z :=
  if is_upper c then Some (code c - 65)
  else if is_alpha c then Some (code c - 71)
  else if is_digit c then Some (code c + 4)
  else if Ascii.eqb c "+" then Some 62 else if Ascii.eqb c "/" then Some 63 else None.

(** [quad_pos], [leftchar], [pads]. *)
Fixpoint a2b_base64 (quad_pos leftchar pads : Z) (s : string) : option string :=
  match s with
  | "" => if quad_pos =? 0 then Some "" else None
  | String c s' =>
      if Ascii.eqb c PAD then
        if 2 <=? quad_pos then
          if 4 <=? quad_pos + (pads + 1) then Some "" else a2b_base64 quad_pos leftchar (pads + 1) s'
        else a2b_base64 quad_pos leftchar pads s'
      else match b64_val c with
        | None => a2b_base64 quad_pos leftchar pads s'
        | Some v =>
            if quad_pos =? 0 then a2b_base64 1 v 0 s'
            else if quad_pos =? 1 then String (chr (Z.lor (Z.shiftl leftchar 2) (Z.shiftr v 4))) <$> a2b_base64 2 (Z.land v 0x0f) 0 s'
            else if quad_pos =? 2 then String (chr (Z.lor (Z.shiftl leftchar 4) (Z.shiftr v 2))) <$> a2b_base64 3 (Z.land v 0x03) 0 s'
            else String (chr (Z.lor (Z.shiftl leftchar 6) v)) <$> a2b_base64 0 0 0 s'
        end
  end.

(** [(-len(blob)) % m] pad characters. *)
Definition padded (m : Z) (blob : string) : string := blob +:+ rep (Z.to_nat ((- Z.of_nat (len blob)) mod m)) PAD.

Definition _b64 (blob : string) : option string := a2b_base64 0 0 0 (padded 4 blob).

Definition urlsafe_char (c : ascii) : ascii := if Ascii.eqb c "-" then "+"%char else if Ascii.eqb c "_" then "/"%char else c.
Definition _b64url (blob : string) : option string :=
  if negb (has_char "-" blob) && negb (has_char "_" blob) then None
  else a2b_base64 0 0 0 (smap urlsafe_char (padded 4 blob)).

(** ** base32: [base64.b32decode] *)

Definition b32_val (c : ascii) : option Z :=
  if is_upper c then Some (code c - 65)
  else if (50 <=? code c) && (code c <=? 55) then Some (code c - 24) else None.

Definition leftover (padchars : nat) : option nat :=
  match padchars with 1%nat => Some 4%nat | 3%nat => Some 3%nat | 4%nat => Some 2%nat | 6%nat => Some 1%nat | _ => None end.

(** The quanta of eight digits; [q] holds the digits of the current one.  The
    last, partial one is completed with [padchars] zero digits and cut. *)
Fixpoint b32_quanta (padchars : nat) (q : list Z) (s : string) : option string :=
  match s with
  | "" =>
      match q with
      | [] => if decide (padchars = 0%nat) then Some "" else None
      | _ => n ← leftover padchars; Some (str_of (List.firstn n (digits 256 5 (Z.shiftl (undigits 32 q) (5 * Z.of_nat padchars)))))
      end
  | String c s' =>
      match b32_val c with
      | None => None
      | Some v =>
          let q' := (q ++ [v])%list in
          if decide (List.length q' = 8%nat) then
            match b32_quanta padchars [] s' with
            | Some r => Some (str_of (digits 256 5 (undigits 32 q')) +:+ r)
            | None => None
            end
          else b32_quanta padchars q' s'
      end
  end.

Definition _b32 (blob : string) : option string :=
  let s := padded 8 blob in
  let body := rstrip_char PAD s in
  b32_quanta (len s - len body) [] body.

(** ** Hexadecimal and escapes *)

(** [bytes.fromhex]: whitespace between the pairs is skipped. *)
Fixpoint fromhex (s : string) : option string :=
  match s with
  | "" => Some ""
  | String c s' =>
      if b_space c then fromhex s'
      else match s' with
        | String d s'' =>
            match hexval c, hexval d with Some a, Some b => String (chr (a * 16 + b)) <$> fromhex s'' | _, _ => None end
        | "" => None
        end
  end.

Definition _hex (blob : string) : option string := fromhex (if Nat.odd (len blob) then str_take (len blob - 1) blob else blob).

(** [re.findall(rb"\\x([0-9a-fA-F]{2})", blob)], each read as a byte. *)
Fixpoint xesc_all (s : string) : string :=
  match s with
  | "" => ""
  | String b s1 =>
      match s1 with
      | String x (String c (String d s4)) =>
          if Ascii.eqb b BS && Ascii.eqb x "x" then
            match hexval c, hexval d with Some a, Some e => String (chr (a * 16 + e)) (xesc_all s4) | _, _ => xesc_all s1 end
          else xesc_all s1
      | _ => xesc_all s1
      end
  end.
Definition _xesc (blob : string) : option string := Some (xesc_all blob).

(** [re.findall(rb"\d{1,3}", blob)]: [k] digits of value [acc] are pending. *)
Fixpoint charcodes (k : nat) (acc : Z) (s : string) : list Z :=
  let pending := match k with O => [] | S _ => [acc] end in
  match s with
  | "" => pending
  | String c s' =>
      if is_digit c then
        if decide (k = 3%nat) then acc :: charcodes 1 (code c - 48) s' else charcodes (S k) (acc * 10 + (code c - 48)) s'
      else (pending ++ charcodes 0 0 s')%list
  end.
Definition _charcode (blob : string) : option string :=
  let vals := charcodes 0 0 blob in
  if forallb (fun v => (0 <=? v) && (v <=? 255)) vals then Some (str_of vals) else None.

(** ** Ascii85: [base64.a85decode] *)

Definition a85_digit (c : ascii) : bool := (33 <=? code c) && (code c <=? 117).
Definition a85_ignored (c : ascii) : bool := (code c =? 32) || (code c =? 9) || (code c =? 10) || (code c =? 13) || (code c =? 11).

(** The bytes of the groups and the number of digits left in [curr]. *)
Fixpoint a85_groups (curr : list Z) (s : string) : option (string * nat) :=
  match s with
  | "" => Some ("", List.length curr)
  | String c s' =>
      if a85_digit c then
        let curr' := (curr ++ [code c - 33])%list in
        if decide (List.length curr' = 5%nat) then
          if undigits 85 curr' <? 2 ^ 32 then
            match a85_groups [] s' with
            | Some (r, n) => Some (str_of (digits 256 4 (undigits 85 curr')) +:+ r, n)
            | None => None
            end
          else None
        else a85_groups curr' s'
      else if Ascii.eqb c "z" then
        match curr with
        | [] => match a85_groups [] s' with Some (r, n) => Some (rep 4 NUL +:+ r, n) | None => None end
        | _ => None
        end
      else if a85_ignored c then a85_groups curr s'
      else None
  end.

Definition a85decode (b : string) : option string :=
  match a85_groups [] (b +:+ rep 4 "u") with
  | Some (r, n) => Some (str_take (len r - (4 - n)) r)
  | None => None
  end.

Definition A85_START : string := "<~".
Definition A85_END : string := "~>".
Definition _a85 (blob : string) : option string :=
  if startswith blob A85_START then
    if endswith blob A85_END then a85decode (str_take (len blob - 2 - 2) (str_drop 2 blob)) else None
  else a85decode blob.

(** ** Percent encoding: [urllib.parse.unquote_to_bytes] *)

(** One item after a [%]. *)
Definition unquote_item (item : string) : string :=
  match item with
  | String c (String d rest) => match hexval c, hexval d with Some a, Some b => String (chr (a * 16 + b)) rest | _, _ => String PCT item end
  | _ => String PCT item
  end.
Definition unquote_to_bytes (s : string) : string :=
  match split PCT s with [] => "" | w :: items => w +:+ String.concat "" (map unquote_item items) end.

Definition MIN_OUT_LEN : nat := 4.
Definition is_ascii (s : string) : bool := str_forall (fun c => code c <? 128) s.

Definition _uri_decode (blob : string) : option string :=
  if negb (is_ascii blob) then None
  else if count (Ascii.eqb PCT) blob <? 10 then None
  else let out := unquote_to_bytes blob in
    if String.eqb out blob then None
    else if (MIN_OUT_LEN <=? len out)%nat then Some out else None.

(** ** Rotation and reversal *)

Definition rot_char (shift : Z) (c : ascii) : ascii :=
  let b := code c in
  if is_upper c then chr (65 + (b - 65 + shift) mod 26)
  else if is_alpha c then chr (97 + (b - 97 + shift) mod 26) else c.
Definition rotate (shift : Z) (s : string) : string := smap (rot_char shift) s.

(** ** Reference encoders *)

Definition b64_char (n : Z) : ascii :=
  chr (if n <? 26 then 65 + n else if n <? 52 then 71 + n else if n <? 62 then n - 4 else if n =? 62 then 43 else 47).

Fixpoint b64encode (s : string) : string :=
  match s with
  | "" => ""
  | String a s1 =>
      let a' := code a in
      match s1 with
      | "" => String (b64_char (a' / 4)) (String (b64_char (a' mod 4 * 16)) "==")
      | String b s2 =>
          let b' := code b in
          match s2 with
          | "" => String (b64_char (a' / 4)) (String (b64_char (a' mod 4 * 16 + b' / 16)) (String (b64_char (b' mod 16 * 4)) "="))
          | String c s3 =>
              let c' := code c in
              String (b64_char (a' / 4)) (String (b64_char (a' mod 4 * 16 + b' / 16))
                (String (b64_char (b' mod 16 * 4 + c' / 64)) (String (b64_char (c' mod 64)) (b64encode s3))))
          end
      end
  end.

Definition b64url_char (c : ascii) : ascii := if Ascii.eqb c "+" then "-"%char else if Ascii.eqb c "/" then "_"%char else c.
Definition urlsafe_b64encode (s : string) : string := smap b64url_char (b64encode s).

Definition hex_pair (c : ascii) : string := String (hex_digit (code c / 16)) (String (hex_digit (code c mod 16)) "").
Fixpoint each (f : ascii -> string) (s : string) : string := match s with "" => "" | String c s' => f c +:+ each f s' end.
Definition hexlify (s : string) : string := each hex_pair s.
Definition xesc_encode (s : string) : string := each (fun c => String BS (String "x" (hex_pair c))) s.
Definition quote_all (s : string) : string := each (fun c => String PCT (hex_pair c)) s.

Definition charcode_encode (s : string) : string := join "," (map (fun c => show (code c)) (list_ascii_of_string s)).

Definition b32_char (n : Z) : ascii := chr (if n <? 26 then 65 + n else 24 + n).
(** The pad characters of a last quantum of [k] bytes. *)
Definition b32_pads (k : nat) : nat := match k with 1%nat => 6%nat | 2%nat => 4%nat | 3%nat => 3%nat | 4%nat => 1%nat | _ => 0%nat end.
Definition b32_quantum (q : list Z) : string := string_of_list_ascii (map b32_char (digits 32 8 (undigits 256 q))).
Definition zeros (k : nat) : list Z := repeat 0 k.

(** [acc]: the bytes of the quantum under way. *)
Fixpoint b32_onto (acc : list Z) (s : string) : string :=
  match s with
  | "" =>
      match acc with
      | [] => ""
      | _ => let p := b32_pads (List.length acc) in
             str_take (8 - p) (b32_quantum (acc ++ zeros (5 - List.length acc))) +:+ rep p PAD
      end
  | String c s' =>
      let acc' := (acc ++ [code c])%list in
      if decide (List.length acc' = 5%nat) then b32_quantum acc' +:+ b32_onto [] s' else b32_onto acc' s'
  end.
Definition b32encode : string -> string := b32_onto [].

Definition a85_char (n : Z) : ascii := chr (33 + n).
Definition a85_group (q : list Z) : string := string_of_list_ascii (map a85_char (digits 85 5 (undigits 256 q))).
Fixpoint a85_onto (acc : list Z) (s : string) : string :=
  match s with
  | "" => match acc with [] => "" | _ => str_take (S (List.length acc)) (a85_group (acc ++ zeros (4 - List.length acc))) end
  | String c s' =>
      let acc' := (acc ++ [code c])%list in
      if decide (List.length acc' = 4%nat) then
        (if undigits 256 acc' =? 0 then "z" else a85_group acc') +:+ a85_onto [] s'
      else a85_onto acc' s'
  end.
Definition a85encode (adobe : bool) (s : string) : string := if adobe then A85_START +:+ a85_onto [] s +:+ A85_END else a85_onto [] s.

Example b64_ex : b64encode "hello" = "aGVsbG8=" /\ _b64 "aGVsbG8" = Some "hello". Proof. by vm_compute. Qed.
Example b32_ex : b32encode "hello!" = "NBSWY3DPEE======" /\ _b32 "NBSWY3DPEE" = Some "hello!". Proof. by vm_compute. Qed.
Example a85_ex : a85encode true "hello!" = "<~BOu!rD]o~>" /\ _a85 "BOu!rD]o" = Some "hello!". Proof. by vm_compute. Qed.
Example hex_ex : hexlify "hi~" = "68697e" /\ _hex "68 69 7E1" = Some "hi~". Proof. by vm_compute. Qed.
Example charcode_ex : charcode_encode "hello" = "104,101,108,108,111" /\ _charcode "1234,5" = Some (str_of [123; 4; 5]). Proof. by vm_compute. Qed.

(** ** Lemmas: bytes and digits *)

Lemma code_range c : 0 <= code c < 256.
Proof. unfold code. pose proof (N_ascii_bounded c). lia. Qed.

(** A decidable fact about every byte, or every pair of bytes, by computation. *)
Definition all_bytes : list Z := map Z.of_nat (seq 0 256).
Lemma all_bytes_in n : 0 <= n < 256 -> n ∈ all_bytes.
Proof. intros H. unfold all_bytes. apply list_elem_of_fmap. exists (Z.to_nat n). rewrite elem_of_seq. lia. Qed.
Lemma byte_fact (p : Z -> bool) : forallb p all_bytes = true -> forall n, 0 <= n < 256 -> p n = true.
Proof. intros H n Hn. rewrite forallb_true in H. apply H, all_bytes_in, Hn. Qed.
Lemma bytes2_fact (p : Z -> Z -> bool) : forallb (fun a => forallb (p a) all_bytes) all_bytes = true ->
  forall a b, 0 <= a < 256 -> 0 <= b < 256 -> p a b = true.
Proof. intros H a b Ha Hb. apply byte_fact; [|done]. revert a Ha. apply (byte_fact _ H). Qed.

Lemma digits_length base k n : List.length (digits base k n) = k.
Proof. revert n. induction k as [|k IH]; intros n; cbn [digits]; [done|]. rewrite length_app, IH. cbn. lia. Qed.

Lemma digits_range base k n : 0 < base -> Forall (fun d => 0 <= d < base) (digits base k n).
Proof.
  intros H. revert n. induction k as [|k IH]; intros n; cbn [digits]; [constructor|].
  apply Forall_app. split; [apply IH|]. constructor; [|done]. by apply Z.mod_pos_bound.
Qed.

Lemma undigits_snoc base l d : undigits base (l ++ [d])%list = undigits base l * base + d.
Proof. unfold undigits. by rewrite fold_left_app. Qed.

Lemma undigits_app base l m : undigits base (l ++ m)%list = undigits base l * base ^ Z.of_nat (List.length m) + undigits base m.
Proof.
  induction m as [|d m IH] using rev_ind.
  - rewrite app_nil_r. cbn [List.length]. change (undigits base []) with 0. rewrite Z.pow_0_r. lia.
  - rewrite app_assoc, !undigits_snoc, IH, length_app. cbn [List.length].
    rewrite Nat2Z.inj_add, Z.pow_add_r by lia. change (base ^ Z.of_nat 1) with (base ^ 1). rewrite Z.pow_1_r. ring.
Qed.

Lemma undigits_range base l : 0 < base -> Forall (fun d => 0 <= d < base) l -> 0 <= undigits base l < base ^ Z.of_nat (List.length l).
Proof.
  intros Hb. induction l as [|d l IH] using rev_ind; intros H; [by cbn|].
  apply Forall_app in H as [Hl Hd%Forall_inv]. specialize (IH Hl).
  rewrite undigits_snoc, length_app. cbn [List.length]. rewrite Nat2Z.inj_add, Z.pow_add_r by lia. change (base ^ Z.of_nat 1) with (base ^ 1). rewrite Z.pow_1_r. nia.
Qed.

Lemma undigits_digits base k n : 0 < base -> undigits base (digits base k n) = n mod base ^ Z.of_nat k.
Proof.
  intros H. revert n. induction k as [|k IH]; intros n; cbn [digits]; [by rewrite Z.mod_1_r|].
  rewrite undigits_snoc, IH. rewrite Nat2Z.inj_succ, Z.pow_succ_r by lia.
  rewrite (Z.rem_mul_r n base) by lia. ring.
Qed.

Lemma digits_undigits base l : 0 < base -> Forall (fun d => 0 <= d < base) l -> digits base (List.length l) (undigits base l) = l.
Proof.
  intros Hb. induction l as [|d l IH] using rev_ind; intros H; [done|].
  apply Forall_app in H as [Hl Hd%Forall_inv]. rewrite length_app, undigits_snoc. cbn [List.length]. rewrite Nat.add_1_r. cbn [digits].
  rewrite Z.div_add_l, Z.div_small, Z.add_0_r, IH by (done || lia). f_equal. f_equal.
  rewrite Z.add_comm, Z.mod_add by lia. by apply Z.mod_small.
Qed.

Lemma digits_app base j k n : 0 < base -> digits base (j + k) n = (digits base j (n / base ^ Z.of_nat k) ++ digits base k n)%list.
Proof.
  intros Hb. revert n. induction k as [|k IH]; intros n.
  - rewrite Nat.add_0_r. cbn [digits]. by rewrite app_nil_r, Z.pow_0_r, Z.div_1_r.
  - rewrite Nat.add_succ_r. cbn [digits]. rewrite IH, <- app_assoc. f_equal. f_equal.
    rewrite Nat2Z.inj_succ, Z.pow_succ_r, Z.div_div by (try apply Z.pow_pos_nonneg; lia). done.
Qed.

Lemma firstn_digits base j k n : 0 < base -> List.firstn j (digits base (j + k) n) = digits base j (n / base ^ Z.of_nat k).
Proof. intros Hb. rewrite digits_app by done. rewrite <- (digits_length base j (n / base ^ Z.of_nat k)) at 1. by rewrite firstn_app, Nat.sub_diag, firstn_all, firstn_O, app_nil_r. Qed.

Lemma undigits_zeros base k : undigits base (zeros k) = 0.
Proof. unfold zeros. induction k as [|k IH] using nat_rect; [done|]. cbn [repeat]. unfold undigits in *. cbn [fold_left]. by rewrite Z.mul_0_l, Z.add_0_l. Qed.

(** The bytes of a string. *)
Definition codes (s : string) : list Z := map code (list_ascii_of_string s).

Lemma codes_range s : Forall (fun d => 0 <= d < 256) (codes s).
Proof. unfold codes. apply Forall_fmap, Forall_forall. intros c _. apply code_range. Qed.

Lemma str_of_codes s : str_of (codes s) = s.
Proof. unfold str_of, codes. rewrite map_map. induction s as [|c s IH]; [done|]. cbn. by rewrite chr_code, IH. Qed.

Lemma str_of_app a b : str_of (a ++ b)%list = str_of a +:+ str_of b.
Proof. unfold str_of. induction a as [|x a IH]; [done|]. cbn. by rewrite IH. Qed.

Lemma len_str_of l : len (str_of l) = List.length l.
Proof. unfold len, str_of. induction l as [|x l IH]; [done|]. cbn. by rewrite IH. Qed.

Lemma len_rep n c : len (rep n c) = n.
Proof. unfold len. induction n as [|n IH]; [done|]. cbn. by rewrite IH. Qed.

Lemma len_smap f s : len (smap f s) = len s.
Proof. unfold len. induction s as [|c s IH]; [done|]. cbn. by rewrite IH. Qed.

Lemma padded_none m k s : 0 < m -> Z.of_nat (len s) = m * k -> padded m s = s.
Proof.
  intros Hm H. unfold padded. rewrite H. replace (- (m * k)) with (0 + (- k) * m) by ring. rewrite Z.mod_add by lia.
  apply str_app_nil_r.
Qed.

(** ** base64 *)

Lemma b64_digit n : 0 <= n < 64 ->
  Ascii.eqb (b64_char n) PAD = false /\ b64_val (b64_char n) = Some n /\
  urlsafe_char (b64url_char (b64_char n)) = b64_char n.
Proof.
  intros H. assert (forallb (fun n => (64 <=? n) || negb (Ascii.eqb (b64_char n) PAD) && bool_decide (b64_val (b64_char n) = Some n)
    && Ascii.eqb (urlsafe_char (b64url_char (b64_char n))) (b64_char n)) all_bytes = true) as E by by vm_compute.
  assert (0 <= n < 256) as Hn by lia. apply (byte_fact _ E) in Hn. apply orb_true_iff in Hn as [?%Z.leb_le|Hn]; [lia|].
  apply andb_true_iff in Hn as [[H1%negb_true_iff H2%bool_decide_eq_true]%andb_true_iff H3%Ascii.eqb_eq]. done.
Qed.

(** What the three joints of a quantum put together. *)
Lemma b64_joints a b : 0 <= a < 256 -> 0 <= b < 256 ->
  Z.lor (Z.shiftl (a / 4) 2) (Z.shiftr (a mod 4 * 16 + b / 16) 4) = a /\
  Z.lor (Z.shiftl (a / 16) 4) (Z.shiftr (a mod 16 * 4 + b / 64) 2) = a /\
  Z.lor (Z.shiftl (a / 64) 6) (a mod 64) = a /\
  Z.land (a mod 4 * 16 + b / 16) 0x0f = b / 16 /\ Z.land (a mod 16 * 4 + b / 64) 0x03 = b / 64.
Proof.
  intros Ha Hb. assert (forallb (fun a => forallb (fun b =>
      (Z.lor (Z.shiftl (a / 4) 2) (Z.shiftr (a mod 4 * 16 + b / 16) 4) =? a) &&
      (Z.lor (Z.shiftl (a / 16) 4) (Z.shiftr (a mod 16 * 4 + b / 64) 2) =? a) &&
      (Z.lor (Z.shiftl (a / 64) 6) (a mod 64) =? a) && (Z.land (a mod 4 * 16 + b / 16) 0x0f =? b / 16) &&
      (Z.land (a mod 16 * 4 + b / 64) 0x03 =? b / 64)) all_bytes) all_bytes = true) as E by by vm_compute.
  pose proof (bytes2_fact _ E a b Ha Hb) as H. cbn beta in H. rewrite !andb_true_iff, !Z.eqb_eq in H. tauto.
Qed.

(** Induction by quanta of three bytes. *)
Lemma string_ind3 (P : string -> Prop) :
  P "" -> (forall a, P (String a "")) -> (forall a b, P (String a (String b ""))) ->
  (forall a b c s, P s -> P (String a (String b (String c s)))) -> forall s, P s.
Proof.
  intros H0 H1 H2 H3. cut (forall s, P s /\ (forall a, P (String a s)) /\ (forall a b, P (String a (String b s)))); [intros H s; apply H|].
  induction s as [|c s (IH0 & IH1 & IH2)]; [done|]. split_and!; [done..|]. intros a b. by apply H3.
Qed.

Lemma a2b_digit q left pads n s : 0 <= n < 64 ->
  a2b_base64 q left pads (String (b64_char n) s) =
  if q =? 0 then a2b_base64 1 n 0 s
  else if q =? 1 then String (chr (Z.lor (Z.shiftl left 2) (Z.shiftr n 4))) <$> a2b_base64 2 (Z.land n 0x0f) 0 s
  else if q =? 2 then String (chr (Z.lor (Z.shiftl left 4) (Z.shiftr n 2))) <$> a2b_base64 3 (Z.land n 0x03) 0 s
  else String (chr (Z.lor (Z.shiftl left 6) n)) <$> a2b_base64 0 0 0 s.
Proof. intros H. destruct (b64_digit n H) as (E1 & E2 & _). cbn [a2b_base64]. by rewrite E1, E2. Qed.

Lemma a2b_b64encode s : a2b_base64 0 0 0 (b64encode s) = Some s.
Proof.
  induction s as [|a|a b|a b c s IH] using string_ind3; [done|..]; cbn [b64encode];
    pose proof (code_range a) as Ha; try pose proof (code_range b) as Hb; try pose proof (code_range c) as Hc;
    rewrite a2b_digit by (Z.div_mod_to_equations; lia); cbn [Z.eqb].
  - rewrite a2b_digit by (Z.div_mod_to_equations; lia). cbn -[Z.lor Z.shiftl Z.shiftr chr].
    pose proof (b64_joints (code a) 0 Ha ltac:(lia)) as (J & _). rewrite Z.add_0_r in J. by rewrite J, chr_code.
  - rewrite !a2b_digit by (Z.div_mod_to_equations; lia). cbn [Z.eqb Pos.eqb].
    destruct (b64_joints (code a) (code b) Ha Hb) as (-> & _ & _ & -> & _).
    pose proof (b64_joints (code b) 0 Hb ltac:(lia)) as (_ & J & _). rewrite Z.add_0_r in J. rewrite J, !chr_code. done.
  - rewrite !a2b_digit by (Z.div_mod_to_equations; lia). cbn [Z.eqb Pos.eqb].
    destruct (b64_joints (code a) (code b) Ha Hb) as (-> & _ & _ & -> & _).
    destruct (b64_joints (code b) (code c) Hb Hc) as (_ & -> & _ & _ & ->).
    destruct (b64_joints (code c) 0 Hc ltac:(lia)) as (_ & _ & -> & _). by rewrite IH, !chr_code.
Qed.

Lemma len_b64encode s : exists k, Z.of_nat (len (b64encode s)) = 4 * k.
Proof.
  induction s as [|a|a b|a b c s [k IH]] using string_ind3; [by exists 0|by exists 1|by exists 1|]. exists (k + 1).
  cbn [b64encode]. unfold len in *. cbn [String.length]. lia.
Qed.

Lemma urlsafe_b64 s : smap urlsafe_char (smap b64url_char (b64encode s)) = b64encode s.
Proof.
  induction s as [|a|a b|a b c s IH] using string_ind3; [done|..]; cbn [b64encode smap];
    pose proof (code_range a); try pose proof (code_range b); try pose proof (code_range c).
  all: repeat match goal with |- context [urlsafe_char (b64url_char (b64_char ?n))] =>
    rewrite (proj2 (proj2 (b64_digit n ltac:(Z.div_mod_to_equations; lia)))) end; by rewrite ?IH.
Qed.

Lemma b64_roundtrip s : _b64 (b64encode s) = Some s.
Proof. destruct (len_b64encode s) as [k H]. unfold _b64. rewrite (padded_none 4 k) by (done || lia). apply a2b_b64encode. Qed.

Lemma b64url_roundtrip s : has_char "-" (urlsafe_b64encode s) || has_char "_" (urlsafe_b64encode s) = true ->
  _b64url (urlsafe_b64encode s) = Some s.
Proof.
  intros H. unfold _b64url. rewrite <- negb_orb, H. cbn [negb]. destruct (len_b64encode s) as [k Hk].
  rewrite (padded_none 4 k) by (done || (unfold urlsafe_b64encode; rewrite len_smap; lia)).
  unfold urlsafe_b64encode. rewrite urlsafe_b64. apply a2b_b64encode.
Qed.

(** ** Hexadecimal, escapes, percent encoding, character codes *)

Lemma len_each f n s : (forall c, len (f c) = n) -> len (each f s) = (n * len s)%nat.
Proof. intros H. induction s as [|c s IH]; [by rewrite Nat.mul_0_r|]. cbn [each]. rewrite len_app, H, IH. unfold len. cbn [String.length]. lia. Qed.

Lemma hex_pair_spec c : exists h l, hex_pair c = String h (String l "") /\
  hexval h = Some (code c / 16) /\ hexval l = Some (code c mod 16) /\ b_space h = false /\ Ascii.eqb PCT h = false /\ Ascii.eqb PCT l = false /\
  (code h <? 128) = true /\ (code l <? 128) = true.
Proof. exists (hex_digit (code c / 16)), (hex_digit (code c mod 16)). split; [done|]. by destruct c as [[] [] [] [] [] [] [] []]. Qed.

Lemma chr_nibbles c : chr (code c / 16 * 16 + code c mod 16) = c.
Proof. rewrite Z.mul_comm, <- Z.div_mod by lia. apply chr_code. Qed.

Lemma hex_roundtrip s : _hex (hexlify s) = Some s.
Proof.
  unfold _hex, hexlify. rewrite (len_each _ 2) by done. rewrite Nat.odd_mul. cbn [Nat.odd andb].
  change (if Nat.odd 2 && Nat.odd (len s) then str_take (2 * len s - 1) (each hex_pair s) else each hex_pair s) with (each hex_pair s).
  induction s as [|c s IH]; [done|]. cbn [each]. destruct (hex_pair_spec c) as (h & l & -> & Hh & Hl & Hs & _).
  rewrite !append_cons. cbn [fromhex]. rewrite Hs, Hh, Hl. change ("" +:+ each hex_pair s) with (each hex_pair s). by rewrite IH, chr_nibbles.
Qed.

Lemma xesc_roundtrip s : _xesc (xesc_encode s) = Some s.
Proof.
  unfold _xesc, xesc_encode. f_equal. induction s as [|c s IH]; [done|]. cbn [each]. destruct (hex_pair_spec c) as (h & l & -> & Hh & Hl & _).
  rewrite !append_cons. cbn [xesc_all]. rewrite Hh, Hl, chr_nibbles, !Ascii.eqb_refl. cbn [andb].
  change ("" +:+ ?x) with x. by rewrite IH.
Qed.

Lemma split_word c w t : has_char c w = false -> split c (w +:+ String c t) = w :: split c t.
Proof.
  induction w as [|d w IH]; rewrite ?append_cons; cbn [has_char split].
  - intros _. change ("" +:+ String c t) with (String c t). cbn [split]. by rewrite Ascii.eqb_refl.
  - intros [-> H]%orb_false_iff. by rewrite (IH H).
Qed.
Lemma split_last c w : has_char c w = false -> split c w = [w].
Proof. induction w as [|d w IH]; cbn [has_char split]; [done|]. intros [-> H]%orb_false_iff. by rewrite (IH H). Qed.

Lemma split_quoted s : forall w, has_char PCT w = false -> split PCT (w +:+ quote_all s) = w :: map hex_pair (list_ascii_of_string s).
Proof.
  induction s as [|c s IH]; intros w Hw.
  - change (quote_all "") with "". rewrite str_app_nil_r. by apply split_last.
  - change (quote_all (String c s)) with (String PCT (hex_pair c +:+ quote_all s)). rewrite split_word by done.
    cbn [list_ascii_of_string map]. f_equal. apply IH.
    destruct (hex_pair_spec c) as (h & l & -> & _ & _ & _ & Hh & Hl & _). cbn [has_char]. by rewrite Hh, Hl.
Qed.

Lemma unquote_pair c : unquote_item (hex_pair c) = String c "".
Proof. destruct (hex_pair_spec c) as (h & l & -> & Hh & Hl & _). cbn [unquote_item]. by rewrite Hh, Hl, chr_nibbles. Qed.

Lemma unquote_quoted s : unquote_to_bytes (quote_all s) = s.
Proof.
  unfold unquote_to_bytes. pose proof (split_quoted s "" eq_refl) as E. change ("" +:+ ?x) with x in E. rewrite E.
  change ("" +:+ ?x) with x. rewrite map_map, (map_ext _ (fun c => String c "") unquote_pair). clear E.
  induction s as [|c s IH]; [done|]. destruct s as [|d s]; [done|].
  change (String c (String.concat "" (map (fun c => String c "") (list_ascii_of_string (String d s)))) = String c (String d s)). by rewrite IH.
Qed.

Lemma count_app p s t : count p (s +:+ t) = count p s + count p t.
Proof. induction s as [|c s IH]; [done|]. rewrite append_cons. cbn [count]. rewrite IH. lia. Qed.

Lemma quoted_shape s : is_ascii (quote_all s) = true /\ count (Ascii.eqb PCT) (quote_all s) = Z.of_nat (len s).
Proof.
  unfold quote_all, is_ascii. induction s as [|c s [IH1 IH2]]; [done|]. cbn [each]. destruct (hex_pair_spec c) as (h & l & -> & _ & _ & _ & Hh & Hl & Ah & Al).
  rewrite !append_cons. cbn [str_forall count]. change ("" +:+ ?x) with x. rewrite IH1, IH2, Hh, Hl, Ah, Al, Ascii.eqb_refl. cbn. unfold len. cbn [String.length]. split; [done|lia].
Qed.

Lemma uri_roundtrip s : (10 <= len s)%nat -> _uri_decode (quote_all s) = Some s.
Proof.
  intros H. unfold _uri_decode. destruct (quoted_shape s) as [-> ->]. cbn [negb]. rewrite (proj2 (Z.ltb_ge _ _)) by lia. rewrite unquote_quoted.
  destruct (String.eqb_spec s (quote_all s)) as [E|_].
  - apply (f_equal len) in E. unfold quote_all in E. rewrite (len_each _ 3) in E by done. lia.
  - rewrite (proj2 (Nat.leb_le _ _)); [done|unfold MIN_OUT_LEN; lia].
Qed.

(** A number of one to three digits, up to the next byte that is no digit. *)
Definition no_digit_first (t : string) : bool := match t with "" => true | String c _ => negb (is_digit c) end.

Lemma charcodes_end k acc t : k <> 0%nat -> no_digit_first t = true -> charcodes k acc t = acc :: charcodes 0 0 t.
Proof. destruct k as [|k]; [done|]. intros _. destruct t as [|c t]; [done|]. cbn [no_digit_first charcodes]. intros H%negb_true_iff. by rewrite H. Qed.

Lemma charcodes_onto w k acc t : str_forall is_digit w = true -> (k + len w <= 3)%nat -> (k + len w <> 0)%nat -> no_digit_first t = true ->
  charcodes k acc (w +:+ t) = int_onto acc w :: charcodes 0 0 t.
Proof.
  revert k acc. induction w as [|c w IH]; intros k acc Hd Hk Hk0 Ht; unfold len in *; cbn [String.length] in *.
  - change ("" +:+ t) with t. apply charcodes_end; [lia|done].
  - cbn [str_forall] in Hd. apply andb_true_iff in Hd as [Hc Hd]. rewrite append_cons. cbn [charcodes]. rewrite Hc.
    destruct (decide (k = 3%nat)) as [->|_]; [lia|]. cbn [int_onto]. apply IH; [done|lia|lia|done].
Qed.

Lemma show_byte c : str_forall is_digit (show (code c)) = true /\ (len (show (code c)) <= 3)%nat /\ (len (show (code c)) <> 0)%nat /\ int_onto 0 (show (code c)) = code c.
Proof.
  assert (forallb (fun n => str_forall is_digit (show n) && (len (show n) <=? 3)%nat && negb (len (show n) =? 0)%nat && (int_onto 0 (show n) =? n)) all_bytes = true) as E by by vm_compute.
  pose proof (byte_fact _ E (code c) (code_range c)) as H. cbn beta in H.
  rewrite !andb_true_iff, negb_true_iff, Nat.leb_le, Nat.eqb_neq, Z.eqb_eq in H. tauto.
Qed.

Lemma charcode_roundtrip s : _charcode (charcode_encode s) = Some s.
Proof.
  assert (charcodes 0 0 (charcode_encode s) = codes s) as E.
  { unfold charcode_encode, codes, join. induction s as [|c s IH]; [done|]. cbn [list_ascii_of_string map String.concat].
    destruct (show_byte c) as (Hd & H3 & H0 & Hi). destruct s as [|d s].
    - cbn [list_ascii_of_string map]. rewrite <- (str_app_nil_r (show _)). by rewrite charcodes_onto, Hi.
    - cbn [list_ascii_of_string map] in *. rewrite charcodes_onto, Hi by done. f_equal. exact IH. }
  unfold _charcode. rewrite E, str_of_codes. rewrite (proj2 (forallb_true _ _)); [done|].
  intros n Hn. pose proof (codes_range s) as H. rewrite Forall_forall in H. specialize (H n Hn). bool_to_Z. lia.
Qed.

(** ** Rotation *)

Lemma rotate_inverse k s : 1 <= k <= 25 -> rotate (26 - k) (rotate k s) = s.
Proof.
  intros Hk. unfold rotate. induction s as [|c s IH]; [done|]. cbn [smap]. rewrite IH. f_equal.
  assert (forallb (fun k => forallb (fun n => Ascii.eqb (rot_char (26 - k) (rot_char k (chr n))) (chr n)) all_bytes) (map Z.of_nat (seq 0 26)) = true) as E by by vm_compute.
  rewrite forallb_true in E. specialize (E k). cbn beta in E. rewrite <- (chr_code c). apply Ascii.eqb_eq. apply (byte_fact _ (E ltac:(apply list_elem_of_fmap; exists (Z.to_nat k); rewrite elem_of_seq; lia))), code_range.
Qed.

(** ** base32 *)

Lemma list_string_app a b : string_of_list_ascii (a ++ b)%list = string_of_list_ascii a +:+ string_of_list_ascii b.
Proof. induction a as [|x a IH]; [done|]. cbn. by rewrite IH. Qed.

Definition word (f : Z -> ascii) (ds : list Z) : string := string_of_list_ascii (map f ds).
Lemma word_app f a b : word f (a ++ b)%list = word f a +:+ word f b.
Proof. unfold word. by rewrite map_app, list_string_app. Qed.
Lemma len_word f ds : len (word f ds) = List.length ds.
Proof. unfold word, len. induction ds as [|d ds IH]; [done|]. cbn. by rewrite IH. Qed.
Lemma take_word f n ds : str_take n (word f ds) = word f (List.firstn n ds).
Proof. revert n. induction ds as [|d ds IH]; intros [|n]; [done..|]. unfold word in *. cbn. by rewrite IH. Qed.
Lemma word_forall f (p : ascii -> bool) ds : (forall d, d ∈ ds -> p (f d) = true) -> str_forall p (word f ds) = true.
Proof. unfold word. induction ds as [|d ds IH]; intros H; [done|]. cbn. rewrite H by set_solver. apply IH. set_solver. Qed.

Lemma b32_digit n : 0 <= n < 32 -> b32_val (b32_char n) = Some n /\ Ascii.eqb PAD (b32_char n) = false.
Proof.
  intros H. assert (forallb (fun n => (32 <=? n) || bool_decide (b32_val (b32_char n) = Some n) && negb (Ascii.eqb PAD (b32_char n))) all_bytes = true) as E by by vm_compute.
  pose proof (byte_fact _ E n ltac:(lia)) as Hn. apply orb_true_iff in Hn as [?%Z.leb_le|Hn]; [lia|].
  by apply andb_true_iff in Hn as [?%bool_decide_eq_true ?%negb_true_iff].
Qed.

(** Digits that do not complete the quantum are kept; a quantum they complete is read. *)
Lemma b32_keep p ds q t : Forall (fun d => 0 <= d < 32) ds -> (List.length q + List.length ds < 8)%nat ->
  b32_quanta p q (word b32_char ds +:+ t) = b32_quanta p (q ++ ds)%list t.
Proof.
  revert q. induction ds as [|d ds IH]; intros q Hds Hl; [by rewrite app_nil_r|]. apply Forall_cons in Hds as [Hd Hds].
  change (word b32_char (d :: ds) +:+ t) with (String (b32_char d) (word b32_char ds +:+ t)). cbn [b32_quanta List.length] in *.
  rewrite (proj1 (b32_digit d Hd)). destruct (decide _) as [E|_]; [rewrite length_app in E; cbn in E; lia|].
  rewrite IH; [by rewrite <- app_assoc|done|rewrite length_app; cbn; lia].
Qed.

Lemma b32_full p ds t : Forall (fun d => 0 <= d < 32) ds -> List.length ds = 8%nat ->
  b32_quanta p [] (word b32_char ds +:+ t) =
  match b32_quanta p [] t with Some r => Some (str_of (digits 256 5 (undigits 32 ds)) +:+ r) | None => None end.
Proof.
  intros Hds Hl. destruct (exists_last (l := ds)) as (ds' & d & ->); [by destruct ds|].
  apply Forall_app in Hds as [Hds Hd%Forall_inv]. rewrite length_app in Hl. cbn in Hl.
  rewrite word_app, str_app_assoc, b32_keep by (done || (cbn; lia)). cbn [app].
  change (word b32_char [d] +:+ t) with (String (b32_char d) t). cbn [b32_quanta].
  rewrite (proj1 (b32_digit d Hd)), decide_True by (rewrite length_app; cbn; lia). done.
Qed.

(** A quantum of five bytes survives the change of base. *)
Lemma quantum_bytes q : Forall (fun d => 0 <= d < 256) q -> List.length q = 5%nat ->
  digits 256 5 (undigits 32 (digits 32 8 (undigits 256 q))) = q.
Proof.
  intros Hq Hl. rewrite undigits_digits by lia. change (32 ^ Z.of_nat 8) with (256 ^ Z.of_nat 5).
  pose proof (undigits_range 256 q ltac:(lia) Hq) as Hr. rewrite Hl in Hr. rewrite Z.mod_small by done.
  rewrite <- Hl. by apply digits_undigits.
Qed.

Lemma codes_snoc_ok acc c : Forall (fun d => 0 <= d < 256) acc -> Forall (fun d => 0 <= d < 256) (acc ++ [code c])%list.
Proof. intros H. apply Forall_app. split; [done|]. constructor; [apply code_range|done]. Qed.

(** A last quantum of one to four bytes, its pads dropped. *)
Lemma b32_partial q : Forall (fun d => 0 <= d < 256) q -> (0 < List.length q < 5)%nat ->
  let p := b32_pads (List.length q) in let n := undigits 256 (q ++ zeros (5 - List.length q)) in
  leftover p = Some (List.length q) /\ (p < 8)%nat /\
  List.firstn (List.length q) (digits 256 5 (Z.shiftl (undigits 32 (List.firstn (8 - p) (digits 32 8 n))) (5 * Z.of_nat p))) = q.
Proof.
  intros Hq Hl p n. pose proof (undigits_range 256 q ltac:(lia) Hq) as Hr.
  assert (n = undigits 256 q * 256 ^ Z.of_nat (5 - List.length q)) as En.
  { unfold n. rewrite undigits_app, undigits_zeros. unfold zeros. rewrite repeat_length. lia. }
  assert (leftover p = Some (List.length q) /\ (p < 8)%nat /\ n / 32 ^ Z.of_nat p * 32 ^ Z.of_nat p = n /\ 0 <= n / 32 ^ Z.of_nat p < 32 ^ Z.of_nat (8 - p)) as (H1 & H2 & H3 & H4).
  { rewrite En. unfold p. clearbody p n. clear En. assert (List.length q = 1 \/ List.length q = 2 \/ List.length q = 3 \/ List.length q = 4)%nat as [E|[E|[E|E]]] by lia;
      rewrite E in *; cbn [b32_pads leftover Nat.sub]; cbn -[Z.div Z.mul undigits] in Hr |- *; (split; [done|]; split; [lia|]; Z.div_mod_to_equations; lia). }
  split; [done|]. split; [done|].
  replace 8%nat with (8 - p + p)%nat at 2 by lia. rewrite firstn_digits, undigits_digits, Z.mod_small by (done || lia).
  rewrite Z.shiftl_mul_pow2, Z.pow_mul_r by lia. change (2 ^ 5) with 32. rewrite H3, En.
  replace 5%nat with (List.length q + (5 - List.length q))%nat at 1 by lia. rewrite firstn_digits by lia.
  rewrite Z.div_mul by (apply Z.pow_nonzero; lia). by apply digits_undigits.
Qed.

(** What the encoder writes: digits the decoder reads back, then pads, in whole quanta. *)
Definition b32_text (acc : list Z) (s : string) (text : string) : Prop :=
  exists body n, text = body +:+ rep n PAD /\ str_forall (fun c => negb (Ascii.eqb PAD c)) body = true /\
    (exists k, (len body + n = 8 * k)%nat) /\ b32_quanta n [] body = Some (str_of acc +:+ s).

Lemma no_pad_word ds : Forall (fun d => 0 <= d < 32) ds -> str_forall (fun c => negb (Ascii.eqb PAD c)) (word b32_char ds) = true.
Proof. intros H. apply word_forall. intros d Hd. rewrite Forall_forall in H. by rewrite (proj2 (b32_digit d (H d Hd))). Qed.

Lemma str_of_snoc_app acc c s : str_of (acc ++ [code c])%list +:+ s = str_of acc +:+ String c s.
Proof. rewrite str_of_app, str_app_assoc. f_equal. change (str_of [code c] +:+ s) with (String (chr (code c)) s). by rewrite chr_code. Qed.

Lemma b32_onto_text s acc : Forall (fun d => 0 <= d < 256) acc -> (List.length acc < 5)%nat -> b32_text acc s (b32_onto acc s).
Proof.
  revert acc. induction s as [|c s IH]; intros acc Hacc Hl.
  - destruct acc as [|a acc]; [exists "", 0%nat; split_and!; [done|done|by exists 0%nat|done]|]. set (q := a :: acc) in *.
    change (b32_onto q "") with (str_take (8 - b32_pads (List.length q)) (b32_quantum (q ++ zeros (5 - List.length q))) +:+ rep (b32_pads (List.length q)) PAD).
    destruct (b32_partial q Hacc ltac:(unfold q; cbn in *; lia)) as (H1 & H2 & H3).
    unfold b32_quantum. fold (word b32_char (digits 32 8 (undigits 256 (q ++ zeros (5 - List.length q))))).
    rewrite take_word. set (ds := List.firstn (8 - _) _) in *.
    assert (Forall (fun d => 0 <= d < 32) ds) as Hds by (apply Forall_take, digits_range; lia).
    assert (List.length ds = 8 - b32_pads (List.length q))%nat as Hld by (unfold ds; rewrite length_firstn, digits_length; lia).
    exists (word b32_char ds), (b32_pads (List.length q)). split_and!; [done|by apply no_pad_word|exists 1%nat; rewrite len_word; lia|].
    rewrite <- (str_app_nil_r (word _ _)). rewrite b32_keep; [|done|cbn [List.length]; rewrite Hld; destruct (List.length q) as [|[|[|[|[|]]]]] eqn:El; cbn; try lia; unfold q in El; cbn in El; lia].
    rewrite app_nil_l. rewrite str_app_nil_r. cbn [b32_quanta]. rewrite H1. clearbody ds. destruct ds as [|d ds'].
    { cbn [List.length] in Hld. lia. } cbn [mbind option_bind]. by rewrite H3.
  - cbn [b32_onto]. pose proof (codes_snoc_ok acc c Hacc) as Hacc'. destruct (decide _) as [E|E].
    + destruct (IH [] ltac:(constructor) ltac:(cbn; lia)) as (body & n & Et & Hno & [k Hk] & Hq).
      set (ds := digits 32 8 (undigits 256 (acc ++ [code c]))). assert (Forall (fun d => 0 <= d < 32) ds) as Hds by (apply digits_range; lia).
      exists (word b32_char ds +:+ body), n. rewrite Et. split_and!.
      * unfold b32_quantum. fold ds. fold (word b32_char ds). by rewrite str_app_assoc.
      * by rewrite str_forall_app, no_pad_word.
      * exists (S k). rewrite len_app, len_word. unfold ds. rewrite digits_length. lia.
      * rewrite b32_full by (done || apply digits_length). rewrite Hq. unfold ds. rewrite quantum_bytes by done.
        f_equal. by rewrite str_of_snoc_app.
    + destruct (IH _ Hacc' ltac:(rewrite length_app in *; cbn in *; lia)) as (body & n & Et & Hno & Hk & Hq).
      exists body, n. by rewrite str_of_snoc_app in Hq.
Qed.

Lemma rstrip_where_all p s : str_forall p s = true -> rstrip_where p s = "".
Proof. induction s as [|c s IH]; [done|]. cbn [str_forall rstrip_where]. intros [Hc Hs]%andb_true_iff. by rewrite (IH Hs), Hc. Qed.

Lemma rstrip_where_suffix p a b : str_forall (fun c => negb (p c)) a = true -> str_forall p b = true -> rstrip_where p (a +:+ b) = a.
Proof.
  intros Ha Hb. induction a as [|c a IH]; [by apply rstrip_where_all|]. cbn [str_forall] in Ha. apply andb_true_iff in Ha as [Hc%negb_true_iff Ha].
  rewrite append_cons. cbn [rstrip_where]. rewrite (IH Ha). destruct a; by rewrite ?Hc.
Qed.

Lemma rep_forall p n c : p c = true -> str_forall p (rep n c) = true.
Proof. intros H. induction n as [|n IH]; [done|]. cbn. by rewrite H, IH. Qed.

Lemma b32_roundtrip s : _b32 (b32encode s) = Some s.
Proof.
  unfold b32encode. destruct (b32_onto_text s [] ltac:(constructor) ltac:(cbn; lia)) as (body & n & -> & Hno & [k Hk] & Hq).
  unfold _b32. rewrite (padded_none 8 (Z.of_nat k)) by (done || (rewrite len_app, len_rep; lia)).
  unfold rstrip_char. rewrite rstrip_where_suffix by (done || by apply rep_forall). rewrite len_app, len_rep.
  by replace (len body + n - len body)%nat with n by lia.
Qed.

(** ** Ascii85 *)

Lemma a85_char_spec n : 0 <= n < 85 -> a85_digit (a85_char n) = true /\ code (a85_char n) = 33 + n /\ Ascii.eqb "~" (a85_char n) = false.
Proof.
  intros H. assert (forallb (fun n => (85 <=? n) || a85_digit (a85_char n) && (code (a85_char n) =? 33 + n) && negb (Ascii.eqb "~" (a85_char n))) all_bytes = true) as E by by vm_compute.
  pose proof (byte_fact _ E n ltac:(lia)) as Hn. apply orb_true_iff in Hn as [?%Z.leb_le|Hn]; [lia|].
  by apply andb_true_iff in Hn as [[? ?%Z.eqb_eq]%andb_true_iff ?%negb_true_iff].
Qed.

Lemma a85_keep ds q t : Forall (fun d => 0 <= d < 85) ds -> (List.length q + List.length ds < 5)%nat ->
  a85_groups q (word a85_char ds +:+ t) = a85_groups (q ++ ds)%list t.
Proof.
  revert q. induction ds as [|d ds IH]; intros q Hds Hl; [by rewrite app_nil_r|]. apply Forall_cons in Hds as [Hd Hds].
  change (word a85_char (d :: ds) +:+ t) with (String (a85_char d) (word a85_char ds +:+ t)). cbn [a85_groups List.length] in *.
  destruct (a85_char_spec d Hd) as (-> & -> & _). replace (33 + d - 33) with d by lia.
  destruct (decide _) as [E|_]; [rewrite length_app in E; cbn in E; lia|].
  rewrite IH; [by rewrite <- app_assoc|done|rewrite length_app; cbn; lia].
Qed.

Lemma a85_full ds t : Forall (fun d => 0 <= d < 85) ds -> List.length ds = 5%nat -> undigits 85 ds < 2 ^ 32 ->
  a85_groups [] (word a85_char ds +:+ t) =
  match a85_groups [] t with Some (r, n) => Some (str_of (digits 256 4 (undigits 85 ds)) +:+ r, n) | None => None end.
Proof.
  intros Hds Hl Hv. destruct (exists_last (l := ds)) as (ds' & d & ->); [by destruct ds|].
  apply Forall_app in Hds as [Hds Hd%Forall_inv]. rewrite length_app in Hl. cbn in Hl.
  rewrite word_app, str_app_assoc, a85_keep by (done || (cbn; lia)). cbn [app].
  change (word a85_char [d] +:+ t) with (String (a85_char d) t). cbn [a85_groups].
  destruct (a85_char_spec d Hd) as (-> & -> & _). replace (33 + d - 33) with d by lia.
  rewrite decide_True by (rewrite length_app; cbn; lia). by rewrite (proj2 (Z.ltb_lt _ _) Hv).
Qed.

Lemma group_bytes q : Forall (fun d => 0 <= d < 256) q -> List.length q = 4%nat ->
  undigits 85 (digits 85 5 (undigits 256 q)) < 2 ^ 32 /\ digits 256 4 (undigits 85 (digits 85 5 (undigits 256 q))) = q.
Proof.
  intros Hq Hl. rewrite undigits_digits by lia.
  pose proof (undigits_range 256 q ltac:(lia) Hq) as Hr. rewrite Hl in Hr. change (256 ^ Z.of_nat 4) with (2 ^ 32) in Hr.
  rewrite Z.mod_small by (change (85 ^ Z.of_nat 5) with 4437053125; lia). split; [lia|]. rewrite <- Hl. by apply digits_undigits.
Qed.

Definition us : list Z := repeat 84 4.

(** A last group of one to three bytes: the four [u]s complete it, and the
    bytes they spoil are the ones cut. *)
Lemma a85_partial q : Forall (fun d => 0 <= d < 256) q -> (0 < List.length q < 4)%nat ->
  let ds := (List.firstn (S (List.length q)) (digits 85 5 (undigits 256 (q ++ zeros (4 - List.length q)))) ++ repeat 84 (4 - List.length q))%list in
  Forall (fun d => 0 <= d < 85) ds /\ List.length ds = 5%nat /\ undigits 85 ds < 2 ^ 32 /\
  exists junk, digits 256 4 (undigits 85 ds) = (q ++ junk)%list /\ (List.length junk = 4 - List.length q)%nat.
Proof.
  intros Hq Hl ds. pose proof (undigits_range 256 q ltac:(lia) Hq) as Hr.
  set (l := List.length q) in *. set (v := undigits 256 q) in *.
  assert (undigits 256 (q ++ zeros (4 - l)) = v * 256 ^ Z.of_nat (4 - l)) as En.
  { rewrite undigits_app, undigits_zeros. unfold zeros. rewrite repeat_length. unfold v. lia. }
  assert (Forall (fun d => 0 <= d < 85) ds) as Hds.
  { apply Forall_app. split; [apply Forall_take, digits_range; lia|]. apply Forall_forall. intros x Hx. rewrite list_elem_of_In in Hx. apply repeat_spec in Hx. lia. }
  assert (undigits 85 ds = v * 256 ^ Z.of_nat (4 - l) / 85 ^ Z.of_nat (4 - l) * 85 ^ Z.of_nat (4 - l) + 85 ^ Z.of_nat (4 - l) - 1) as Ev.
  { unfold ds. rewrite undigits_app, En, repeat_length. replace 5%nat with (S l + (4 - l))%nat by lia.
    rewrite firstn_digits, undigits_digits by lia. clearbody v l ds. clear En Hq Hds.
    assert (l = 1 \/ l = 2 \/ l = 3)%nat as [->|[->| ->]] by lia; cbn -[Z.div Z.mul Z.modulo] in Hr |- *; rewrite Z.mod_small by (Z.div_mod_to_equations; lia); change (undigits 85 [84]) with 84; change (undigits 85 [84; 84]) with 7224; change (undigits 85 [84; 84; 84]) with 614124; lia. }
  assert (undigits 85 ds < 2 ^ 32 /\ undigits 85 ds / 256 ^ Z.of_nat (4 - l) = v) as [H1 H2].
  { rewrite Ev. clearbody v l ds. clear En Hq Hds Ev. assert (l = 1 \/ l = 2 \/ l = 3)%nat as [->|[->| ->]] by lia; cbn -[Z.div Z.mul] in Hr |- *; (split; Z.div_mod_to_equations; lia). }
  split_and!; [done| |done|].
  { unfold ds. rewrite length_app, length_firstn, digits_length, repeat_length. lia. }
  exists (digits 256 (4 - l) (undigits 85 ds)). split; [|apply digits_length].
  replace 4%nat with (l + (4 - l))%nat at 1 by lia. rewrite digits_app, H2 by lia. f_equal. by apply digits_undigits.
Qed.

(** What the encoder writes, read back with the four [u]s after it. *)
Definition a85_text (acc : list Z) (s text : string) : Prop :=
  has_char "~" text = false /\
  exists junk n, a85_groups [] (text +:+ rep 4 "u") = Some ((str_of acc +:+ s) +:+ junk, n) /\ (len junk = 4 - n)%nat.

Lemma no_tilde_word ds : Forall (fun d => 0 <= d < 85) ds -> has_char "~" (word a85_char ds) = false.
Proof. induction 1 as [|d ds Hd _ IH]; [done|]. unfold word in *. cbn [map string_of_list_ascii has_char]. by rewrite (proj2 (proj2 (a85_char_spec d Hd))), IH. Qed.

Lemma a85_onto_text s acc : Forall (fun d => 0 <= d < 256) acc -> (List.length acc < 4)%nat -> a85_text acc s (a85_onto acc s).
Proof.
  revert acc. induction s as [|c s IH]; intros acc Hacc Hl.
  - destruct acc as [|a acc]; [split; [done|]; exists "", 4%nat; done|]. set (q := a :: acc) in *.
    change (a85_onto q "") with (str_take (S (List.length q)) (word a85_char (digits 85 5 (undigits 256 (q ++ zeros (4 - List.length q)))))).
    rewrite take_word. destruct (a85_partial q Hacc ltac:(unfold q; cbn in *; lia)) as (Hds & Hld & Hv & junk & Hj & Hlj).
    set (ds := List.firstn _ _) in *. split; [apply no_tilde_word; apply Forall_app in Hds; tauto|].
    exists (str_of junk), (List.length q). rewrite len_str_of. split; [|done].
    assert (word a85_char ds +:+ rep 4 "u" = word a85_char (ds ++ repeat 84 (4 - List.length q)) +:+ word a85_char (repeat 84 (List.length q)) +:+ "") as ->.
    { rewrite str_app_nil_r, <- word_app, <- app_assoc, <- repeat_app, word_app. f_equal. by replace (4 - List.length q + List.length q)%nat with 4%nat by lia. }
    rewrite a85_full by done. rewrite a85_keep; [|apply Forall_forall; intros x Hx; rewrite list_elem_of_In in Hx; apply repeat_spec in Hx; lia|rewrite repeat_length; cbn in *; lia].
    cbn [a85_groups app]. by rewrite repeat_length, Hj, str_of_app, !str_app_nil_r.
  - cbn [a85_onto]. pose proof (codes_snoc_ok acc c Hacc) as Hacc'. destruct (decide _) as [E|E].
    + destruct (IH [] ltac:(constructor) ltac:(cbn; lia)) as (Ht & junk & n & Hq & Hj).
      destruct (group_bytes _ Hacc' E) as [Hv Hb]. set (q := (acc ++ [code c])%list) in *.
      assert (Forall (fun d => 0 <= d < 85) (digits 85 5 (undigits 256 q))) as Hds by (apply digits_range; lia).
      assert (forall r, str_of q +:+ r = str_of acc +:+ String c r) as Hsn by (intros r; apply str_of_snoc_app).
      split.
      * rewrite has_char_app, Ht, orb_false_r. destruct (undigits 256 q =? 0); [done|]. by apply no_tilde_word.
      * exists junk, n. split; [|done]. change (str_of [] +:+ s) with s in Hq. rewrite str_app_assoc. rewrite str_app_assoc, append_cons, <- Hsn.
        destruct (Z.eqb_spec (undigits 256 q) 0) as [E0|_].
        -- change ("z" +:+ ?x) with (String "z" x). cbn [a85_groups]. change (a85_digit "z") with false. cbn iota. rewrite Hq.
           cbn iota. change (Ascii.eqb "z" "z") with true. cbn iota. rewrite <- (digits_undigits 256 q) by (done || lia). rewrite E0, E. done.
        -- unfold a85_group. fold (word a85_char (digits 85 5 (undigits 256 q))). rewrite a85_full by (done || apply digits_length). rewrite Hq, Hb. done.
    + destruct (IH _ Hacc' ltac:(rewrite length_app in *; cbn in *; lia)) as (Ht & junk & n & Hq & Hj).
      split; [done|]. exists junk, n. by rewrite str_of_snoc_app in Hq.
Qed.

Lemma str_take_app a b : str_take (len a) (a +:+ b) = a.
Proof. unfold len. induction a as [|c a IH]; [by destruct b|]. rewrite append_cons. cbn. by rewrite IH. Qed.

Lemma a85decode_encode s : a85decode (a85_onto [] s) = Some s.
Proof.
  destruct (a85_onto_text s [] ltac:(constructor) ltac:(cbn; lia)) as (_ & junk & n & Hq & Hj).
  unfold a85decode. rewrite Hq. change (str_of [] +:+ s) with s. rewrite len_app. replace (len s + len junk - (4 - n))%nat with (len s) by lia. by rewrite str_take_app.
Qed.

Lemma endswith_self a b : endswith (a +:+ b) b = true.
Proof.
  unfold endswith. rewrite len_app. rewrite (proj2 (Nat.leb_le _ _)) by lia. replace (len a + len b - len b)%nat with (len a) by lia.
  rewrite str_drop_app. apply String.eqb_refl.
Qed.

Lemma a85_roundtrip adobe s : _a85 (a85encode adobe s) = Some s.
Proof.
  destruct (a85_onto_text s [] ltac:(constructor) ltac:(cbn; lia)) as (Ht & _). unfold _a85, a85encode. destruct adobe.
  - unfold startswith. rewrite prefix_app. rewrite <- str_app_assoc, endswith_self, str_app_assoc.
    change 2%nat with (len A85_START) at 3. rewrite str_drop_app, !len_app. change (len A85_START) with 2%nat. change (len A85_END) with 2%nat.
    replace (2 + (len (a85_onto [] s) + 2) - 2 - 2)%nat with (len (a85_onto [] s)) by lia. rewrite str_take_app. apply a85decode_encode.
  - destruct (startswith _ _) eqn:E; [|apply a85decode_encode]. apply prefix_inv in E as [t E]. by rewrite E in Ht.
Qed.

(** ** The codecs of the engine and their reference encoders *)

Inductive codec := B64 | B64URL | B32 | HEX | XESC | CHARCODE | A85 (adobe : bool) | URI.

Definition encode_with (c : codec) (s : string) : string :=
  match c with
  | B64 => b64encode s | B64URL => urlsafe_b64encode s | B32 => b32encode s | HEX => hexlify s
  | XESC => xesc_encode s | CHARCODE => charcode_encode s | A85 adobe => a85encode adobe s | URI => quote_all s
  end.
Definition decode_with (c : codec) : string -> option string :=
  match c with
  | B64 => _b64 | B64URL => _b64url | B32 => _b32 | HEX => _hex | XESC => _xesc | CHARCODE => _charcode | A85 _ => _a85 | URI => _uri_decode
  end.
(** Two decoders are gated: the URL-safe one wants one of its two own digits,
    the percent one ten escapes. *)
Definition encodable (c : codec) (s : string) : bool :=
  match c with
  | B64URL => has_char "-" (urlsafe_b64encode s) || has_char "_" (urlsafe_b64encode s)
  | URI => (10 <=? len s)%nat
  | _ => true
  end.

(** Every text codec reads back what its reference encoder writes. *)
Lemma decode_encode c s : encodable c s = true -> decode_with c (encode_with c s) = Some s.
Proof.
  destruct c as [| | | | | |adobe|]; cbn [encodable decode_with encode_with]; intros H.
  - apply b64_roundtrip.
  - by apply b64url_roundtrip.
  - apply b32_roundtrip.
  - apply hex_roundtrip.
  - apply xesc_roundtrip.
  - apply charcode_roundtrip.
  - apply a85_roundtrip.
  - apply uri_roundtrip. by apply Nat.leb_le.
Qed.

(** ** No text decoder expands its input more than four times *)

Definition at_most (n : nat) (o : option string) : Prop := forall out, o = Some out -> (len out <= n)%nat.

Lemma at_most_le n m o : at_most n o -> (n <= m)%nat -> at_most m o.
Proof. intros H Hle out Ho. specialize (H out Ho). lia. Qed.

Lemma at_most_cons n c o : at_most n o -> at_most (S n) (String c <$> o).
Proof. intros H out (x & Hx & ->)%fmap_Some. apply H in Hx. unfold len in *. cbn. lia. Qed.

Lemma at_most_app n a o : at_most n o -> at_most (len a + n) (match o with Some r => Some (a +:+ r) | None => None end).
Proof. intros H. destruct o as [r|]; [|done]. intros out [= <-]. rewrite len_app. specialize (H r eq_refl). lia. Qed.

Lemma len_cons c s : len (String c s) = S (len s).
Proof. done. Qed.

(** The bytes that are not pads. *)
Definition data_chars (s : string) : nat := Z.to_nat (count (fun c => negb (Ascii.eqb c PAD)) s).

Lemma count_range p s : 0 <= count p s <= Z.of_nat (len s).
Proof. induction s as [|c s IH]; [done|]. cbn [count]. rewrite len_cons. destruct (p c); cbn [Z.b2z]; lia. Qed.

Lemma a2b_bound s q left pads : at_most (data_chars s) (a2b_base64 q left pads s).
Proof.
  revert q left pads. induction s as [|c s IH]; intros q left pads; cbn [a2b_base64].
  { destruct (q =? 0); [|done]. by intros out [= <-]. }
  unfold data_chars in *. cbn [count]. pose proof (count_range (fun c => negb (Ascii.eqb c PAD)) s) as Hc.
  destruct (Ascii.eqb c PAD) eqn:Ec; cbn [negb Z.b2z].
  - rewrite Z.add_0_l. destruct (2 <=? q); [|apply IH]. destruct (_ <=? _); [|apply IH]. intros out [= <-]. cbn. lia.
  - rewrite Z2Nat.inj_add by lia. destruct (b64_val c) as [v|]; [|eapply at_most_le; [apply IH|lia]].
    destruct (q =? 0); [eapply at_most_le; [apply IH|lia]|].
    destruct (q =? 1); [apply at_most_cons, IH|]. destruct (q =? 2); apply at_most_cons, IH.
Qed.

Lemma data_chars_padded m s : (data_chars (padded m s) <= len s)%nat.
Proof.
  unfold data_chars, padded. rewrite count_app. assert (forall n, count (fun c => negb (Ascii.eqb c PAD)) (rep n PAD) = 0) as -> by (induction n as [|n IH]; [done|]; cbn; lia).
  pose proof (count_range (fun c => negb (Ascii.eqb c PAD)) s). lia.
Qed.

Lemma data_chars_urlsafe s : data_chars (smap urlsafe_char s) = data_chars s.
Proof.
  unfold data_chars. f_equal. induction s as [|c s IH]; [done|]. cbn [smap count]. rewrite IH. do 2 f_equal. by destruct c as [[] [] [] [] [] [] [] []].
Qed.

Lemma b32_bound p s q : at_most (4 * (List.length q + len s)) (b32_quanta p q s).
Proof.
  revert q. induction s as [|c s IH]; intros q; cbn [b32_quanta].
  - destruct q as [|d q]; [case_decide; [by intros out [= <-]|done]|].
    intros out. destruct (leftover p) as [n|] eqn:E; [|done]. cbn [mbind option_bind]. intros [= <-]. rewrite len_str_of. etransitivity; [apply firstn_le_length|].
    assert (n <= 4)%nat by (destruct p as [|[|[|[|[|[|[|]]]]]]]; cbn in E; simplify_eq; lia). cbn [List.length]. lia.
  - destruct (b32_val c) as [v|]; [|done]. rewrite len_cons. case_decide as E; rewrite length_app in E; cbn [List.length] in E.
    + eapply at_most_le; [apply at_most_app, IH|]. rewrite len_str_of, digits_length. cbn [List.length]. lia.
    + eapply at_most_le; [apply IH|]. rewrite length_app. cbn [List.length]. lia.
Qed.

Lemma fromhex_bound s : at_most (len s) (fromhex s).
Proof.
  cut (at_most (len s) (fromhex s) /\ forall c, at_most (S (len s)) (fromhex (String c s))); [tauto|].
  induction s as [|d s [IH1 IH2]].
  - split; [by intros out [= <-]|]. intros c. cbn. destruct (b_space c); [|done]. intros out [= <-]. cbn. lia.
  - split; [exact (IH2 d)|]. intros c. rewrite len_cons.
    change (fromhex (String c (String d s))) with (if b_space c then fromhex (String d s) else
      match hexval c, hexval d with Some a, Some b => String (chr (a * 16 + b)) <$> fromhex s | _, _ => None end).
    destruct (b_space c); [eapply at_most_le; [apply IH2|lia]|]. destruct (hexval c), (hexval d); try done.
    eapply at_most_le; [apply at_most_cons, IH1|lia].
Qed.

Lemma xesc_bound n s : (len s <= n)%nat -> (len (xesc_all s) <= len s)%nat.
Proof.
  revert s. induction n as [|n IH]; intros [|b s1] Hn; try done; rewrite len_cons in *; [lia|]. cbn [xesc_all].
  destruct s1 as [|x [|c [|d s4]]]; try (etransitivity; [apply IH; lia|lia]).
  destruct (_ && _); [|etransitivity; [apply IH; lia|lia]].
  destruct (hexval c), (hexval d); try (etransitivity; [apply IH; lia|lia]).
  rewrite !len_cons in *. pose proof (IH s4 ltac:(lia)). lia.
Qed.

Lemma charcodes_bound s k acc : (List.length (charcodes k acc s) <= len s + Nat.min k 1)%nat.
Proof.
  revert k acc. induction s as [|c s IH]; intros k acc; cbn [charcodes]; [destruct k; cbn; lia|]. rewrite len_cons.
  destruct (is_digit c).
  - case_decide as E; cbn [List.length]; [specialize (IH 1%nat (code c - 48)); lia|]. specialize (IH (S k) (acc * 10 + (code c - 48))). lia.
  - rewrite length_app. specialize (IH 0%nat 0). destruct k; cbn [List.length]; lia.
Qed.

(** A digit is worth one byte of the result, a [z] four. *)
Definition a85_weight (s : string) : Z := count a85_digit s + 4 * count (Ascii.eqb "z") s.

Lemma a85_weight_le s : a85_weight s <= 4 * Z.of_nat (len s).
Proof.
  unfold a85_weight. induction s as [|c s IH]; [done|]. cbn [count]. rewrite len_cons.
  assert (Z.b2z (a85_digit c) + 4 * Z.b2z (Ascii.eqb "z" c) <= 4) by (by destruct c as [[] [] [] [] [] [] [] []]). lia.
Qed.

Lemma a85_bound s curr r n : (List.length curr < 5)%nat -> a85_groups curr s = Some (r, n) ->
  Z.of_nat (len r) + Z.of_nat n <= a85_weight s + Z.of_nat (List.length curr) /\ (n < 5)%nat.
Proof.
  unfold a85_weight. revert curr r n. induction s as [|c s IH]; intros curr r n Hc; cbn [a85_groups count]; [intros [= <- <-]; cbn; lia|].
  destruct (a85_digit c) eqn:Ed.
  - assert (0 <= Z.b2z (Ascii.eqb "z" c)) by (by destruct (Ascii.eqb _ c)). case_decide as E; rewrite length_app in E; cbn [List.length] in E.
    + destruct (_ <? _); [|done]. destruct (a85_groups [] s) as [[r' n']|] eqn:Er; [|done]. intros [= <- <-].
      apply IH in Er; [|cbn; lia]. rewrite len_app, len_str_of. cbn [List.length Z.b2z] in *. lia.
    + intros H'. apply IH in H'; rewrite length_app in *; cbn [List.length Z.b2z] in *; lia.
  - rewrite (Ascii.eqb_sym "z" c). destruct (Ascii.eqb c "z").
    + destruct curr; [|done]. destruct (a85_groups [] s) as [[r' n']|] eqn:Er; [|done]. intros [= <- <-].
      apply IH in Er; [|cbn; lia]. rewrite len_app. pose proof (len_rep 4 NUL) as Hz. cbn [rep] in Hz. rewrite Hz. cbn [List.length Z.b2z] in *. lia.
    + destruct (a85_ignored c); [|done]. intros H'. apply IH in H'; [cbn [Z.b2z]; lia|done].
Qed.

Lemma len_take n s : (len (str_take n s) <= len s)%nat.
Proof. rewrite <- (str_take_drop n s) at 2. rewrite len_app. lia. Qed.
Lemma len_take_le n s : (len (str_take n s) <= n)%nat.
Proof. apply str_take_length. Qed.
Lemma len_drop n s : (len (str_drop n s) <= len s)%nat.
Proof. rewrite <- (str_take_drop n s) at 2. rewrite len_app. lia. Qed.

Lemma a85decode_bound b : at_most (4 * len b) (a85decode b).
Proof.
  unfold a85decode. destruct (a85_groups [] (b +:+ rep 4 "u")) as [[r n]|] eqn:E; [|done]. intros out [= <-].
  apply a85_bound in E; [|cbn; lia]. pose proof (str_take_length (len r - (4 - n)) r). pose proof (a85_weight_le b).
  unfold a85_weight in *. rewrite !count_app in E. change (count a85_digit (rep 4 "u")) with 4 in E. change (count (Ascii.eqb "z") (rep 4 "u")) with 0 in E.
  cbn [List.length] in E. lia.
Qed.

Lemma unquote_bound s : (len (unquote_to_bytes s) <= len s)%nat.
Proof.
  unfold unquote_to_bytes. pose proof (join_split PCT s) as Hj. destruct (split PCT s) as [|w ws]; [cbn; lia|].
  rewrite <- Hj. assert (forall x, len (unquote_item x) <= S (len x))%nat as Hi.
  { intros [|c [|d x]]; [cbn; lia..|]. cbn [unquote_item]. destruct (hexval c), (hexval d); rewrite !len_cons; lia. }
  clear Hj. unfold join. revert w. induction ws as [|x ws IH]; intros w; [by rewrite str_app_nil_r|].
  change (String.concat (String PCT "") (w :: x :: ws)) with (w +:+ String PCT (String.concat (String PCT "") (x :: ws))).
  assert (String.concat "" (map unquote_item (x :: ws)) = unquote_item x +:+ String.concat "" (map unquote_item ws)) as ->.
  { cbn [map]. destruct (map unquote_item ws) eqn:E; [by rewrite str_app_nil_r|done]. }
  rewrite !len_app, len_cons. specialize (IH x). rewrite len_app in IH. specialize (Hi x). lia.
Qed.

Lemma charcode_bound s : at_most (len s) (_charcode s).
Proof. unfold _charcode. destruct (forallb _ _); [|done]. intros out [= <-]. rewrite len_str_of. pose proof (charcodes_bound s 0 0). lia. Qed.

Lemma uri_bound s : at_most (len s) (_uri_decode s).
Proof.
  unfold _uri_decode. destruct (negb _); [done|]. destruct (_ <? _); [done|]. destruct (String.eqb _ _); [done|]. destruct (_ <=? _)%nat; [|done].
  intros out [= <-]. apply unquote_bound.
Qed.

(** The decoders' outputs are at most four times their input; only Ascii85,
    with its [z] for four zero bytes, comes near. *)
Lemma decode_bound c s : at_most (4 * len s) (decode_with c s).
Proof.
  destruct c; cbn [decode_with].
  - eapply at_most_le; [apply a2b_bound|]. pose proof (data_chars_padded 4 s). lia.
  - unfold _b64url. destruct (_ && _); [done|]. eapply at_most_le; [apply a2b_bound|]. rewrite data_chars_urlsafe. pose proof (data_chars_padded 4 s). lia.
  - intros out H. unfold _b32 in H. apply b32_bound in H. cbn [List.length] in H. etransitivity; [exact H|].
    unfold padded. unfold rstrip_char.
    assert (forall a n, len (rstrip_where (Ascii.eqb PAD) (a +:+ rep n PAD)) <= len a)%nat as Hr.
    { intros a n. induction a as [|c a IH]; [by change ("" +:+ ?x) with x; rewrite rstrip_where_all by (by apply rep_forall)|].
      rewrite append_cons. cbn [rstrip_where]. destruct (rstrip_where _ _); [destruct (Ascii.eqb _ _); cbn; lia|]. rewrite !len_cons in *. lia. }
    specialize (Hr s (Z.to_nat ((- Z.of_nat (len s)) mod 8))). lia.
  - unfold _hex. eapply at_most_le; [apply fromhex_bound|]. destruct (Nat.odd _); [pose proof (len_take (len s - 1) s)|]; lia.
  - intros out [= <-]. pose proof (xesc_bound (len s) s). lia.
  - eapply at_most_le; [apply charcode_bound|lia].
  - unfold _a85. destruct (startswith _ _); [|apply a85decode_bound]. destruct (endswith _ _); [|done].
    eapply at_most_le; [apply a85decode_bound|]. pose proof (len_take (len s - 2 - 2) (str_drop 2 s)). pose proof (len_drop 2 s). lia.
  - eapply at_most_le; [apply uri_bound|lia].
Qed.
