(* ===== verification/DecodeEngine.v ===== *)
(** * The decode engine: candidates, classification and the recovery loop

    [src/pkgward/analyze/decode_engine.py].  Regular expressions are written as
    matchers that give the length of the match at the head of a string; the
    float thresholds are the rational comparisons they amount to on windows of
    at most 8192 bytes.  The compressed formats ([zlib], [bz2], [lzma]) and
    [hash] are arguments. *)
From stdpp Require Import gmap.
From S2P Require Import Prelude PyStr Text Codecs.
From Stdlib Require Import Ascii String.

Open Scope string_scope.
Open Scope Z_scope.

(** ** Budgets *)

(** [env]: the environment variable, if set. *)
Definition _int_env (env : option string) (dflt : Z) : Z :=
  match env with Some v => default dflt (py_int v) | None => dflt end.

Record Budgets := mkBudgets { MAX_DEPTH : Z; MAX_TOTAL_BYTES : Z; MAX_LAYER_BYTES : Z; MAX_NODES : Z; MAX_BLOBS : Z }.
Definition budgets_of (environ : string -> option string) : Budgets :=
  mkBudgets (_int_env (environ "PKGWARD_DECODE_MAX_DEPTH") 6)
    (_int_env (environ "PKGWARD_DECODE_MAX_TOTAL_MB") 64 * 1024 * 1024)
    (_int_env (environ "PKGWARD_DECODE_MAX_LAYER_MB") 32 * 1024 * 1024)
    (_int_env (environ "PKGWARD_DECODE_MAX_NODES") 2000)
    (_int_env (environ "PKGWARD_DECODE_MAX_BLOBS") 400).

Definition MIN_BLOB_LEN : nat := 16.
Definition SUB_BLOB_CAP : Z := 8.
Definition SCAN_WINDOW : nat := Z.to_nat 8192.
Definition window (b : string) : string := str_take SCAN_WINDOW b.

(** ** The patterns *)

(** The number of leading bytes of a class. *)
Fixpoint span (p : ascii -> bool) (s : string) : nat :=
  match s with "" => O | String c s' => if p c then S (span p s') else O end.

Definition alnum (c : ascii) : bool := is_alpha c || is_digit c.
Definition b64_class (c : ascii) : bool := alnum c || has_char c "+/".
Definition b64url_class (c : ascii) : bool := alnum c || has_char c "_-".
Definition b32_class (c : ascii) : bool := is_upper c || ((50 <=? code c) && (code c <=? 55)).

(** [[class]{lo,}={0,hi}]. *)
Definition run_cand (cls : ascii -> bool) (hi : nat) (s : string) : option nat :=
  let n := span cls s in
  if (16 <=? n)%nat then Some (n + Nat.min hi (span (Ascii.eqb PAD) (str_drop n s)))%nat else None.
Definition B64_CAND : string -> option nat := run_cand b64_class 2.
Definition B64URL_CAND : string -> option nat := run_cand b64url_class 2.
Definition B32_CAND : string -> option nat := run_cand b32_class 6.

Definition HEX_CAND (s : string) : option nat :=
  let k := (span is_hex s / 2)%nat in if (12 <=? k)%nat then Some (2 * k)%nat else None.

Fixpoint xesc_units (s : string) : nat :=
  match s with
  | String b (String x (String c (String d s'))) => if Ascii.eqb b BS && Ascii.eqb x "x" && is_hex c && is_hex d then S (xesc_units s') else O
  | _ => O
  end.
Definition XESC_CAND (s : string) : option nat := let k := xesc_units s in if (4 <=? k)%nat then Some (4 * k)%nat else None.

Fixpoint pct_units (s : string) : nat :=
  match s with
  | String b (String c (String d s')) => if Ascii.eqb b PCT && is_hex c && is_hex d then S (pct_units s') else O
  | _ => O
  end.
Definition URI_CAND (s : string) : option nat := let k := pct_units s in if (10 <=? k)%nat then Some (3 * k)%nat else None.

(** The items [\d{1,3}\s*,\s*] at the head: for each its digits and its length. *)
Fixpoint charcode_items (fuel : nat) (s : string) : list (nat * nat) :=
  match fuel with
  | O => []
  | S fuel' =>
      let r := span is_digit s in
      if (1 <=? r)%nat && (r <=? 3)%nat then
        let w := span b_space (str_drop r s) in
        match str_drop (r + w) s with
        | String c s' =>
            if Ascii.eqb c "," then let w' := span b_space s' in (r, r + w + 1 + w')%nat :: charcode_items fuel' (str_drop w' s')
            else []
        | "" => []
        end
      else []
  end.
Definition total_len (its : list (nat * nat)) : nat := list_sum (map snd its).

(** When no digit follows the last comma, the last item gives its own digits back. *)
Definition CHARCODE_CAND (s : string) : option nat :=
  let its := charcode_items (len s) s in
  let k := List.length its in
  if (7 <=? k)%nat then
    let r := span is_digit (str_drop (total_len its) s) in
    if (1 <=? r)%nat then Some (total_len its + Nat.min r 3)%nat
    else if (7 <=? k - 1)%nat then Some (total_len (removelast its) + fst (List.last its (0, 0)))%nat else None
  else None.

Definition a85_class (c : ascii) : bool := ((33 <=? code c) && (code c <=? 117)) || b_space c.
Definition A85_CAND (s : string) : option nat :=
  if startswith s A85_START then
    let n := span a85_class (str_drop 2 s) in
    if (16 <=? n)%nat && startswith (str_drop (2 + n) s) A85_END then Some (2 + n + 2)%nat else None
  else None.

Definition url_class (c : ascii) : bool := negb (b_space c) && negb (has_char c (String SQ (String DQ "<>()"))).
Definition URL_RE (s : string) : option nat :=
  let at_ (p : string) := let n := span url_class (str_drop (len p) s) in if startswith s p && (4 <=? n)%nat then Some (len p + n)%nat else None in
  match at_ "http://" with Some n => Some n | None => at_ "https://" end.

(** [rx.finditer(s)]: [skip] bytes belong to the match before. *)
Fixpoint finditer_from (rx : string -> option nat) (skip : nat) (s : string) : list string :=
  match s with
  | "" => []
  | String _ s' =>
      match skip with
      | S k => finditer_from rx k s'
      | O => match rx s with Some n => str_take n s :: finditer_from rx (n - 1) s' | None => finditer_from rx O s' end
      end
  end.
Definition finditer (rx : string -> option nat) (s : string) : list string := finditer_from rx O s.

(** [bool(rx.search(s))]. *)
Fixpoint search (rx : string -> option nat) (s : string) : bool :=
  match rx s with Some _ => true | None => match s with "" => false | String _ s' => search rx s' end end.

(** [rx.fullmatch(s)] for a run and for hexadecimal pairs. *)
Definition run_full (cls : ascii -> bool) (hi : nat) (s : string) : bool :=
  let n := span cls s in
  (16 <=? n)%nat && str_forall (Ascii.eqb PAD) (str_drop n s) && (len s - n <=? hi)%nat.
Definition hex_full (s : string) : bool := str_forall is_hex s && Nat.even (len s) && (24 <=? len s)%nat.

(** ** Classification *)

Definition CODE_TOKENS : list string :=
  ["eval("; "exec("; "os.system"; "subprocess"; "__import__"; "compile("; "child_process"; "require("; "function("; "powershell";
   "/bin/sh"; "/bin/bash"; "cmd.exe"; "wscript"; "socket"; ".connect("; "base64"; "marshal"; "createdecipher"; "atob("; "fromcharcode"; "shellexec"].
Definition EXE_MAGIC : list string :=
  ["MZ"; str_of [0x7f] +:+ "ELF"; str_of [0xfe; 0xed; 0xfa; 0xce]; str_of [0xfe; 0xed; 0xfa; 0xcf];
   str_of [0xce; 0xfa; 0xed; 0xfe]; str_of [0xcf; 0xfa; 0xed; 0xfe]; "#!/"].
Definition _is_executable (b : string) : bool := existsb (startswith b) EXE_MAGIC.

Definition _has_code_token (b : string) : bool := let low := lower (window b) in existsb (fun t => contains t low) CODE_TOKENS.

Definition printable (c : ascii) : bool := ((0x20 <=? code c) && (code c <=? 0x7e)) || (code c =? 9) || (code c =? 10) || (code c =? 13).
(** [_printable_ratio(b) >= 0.85]. *)
Definition mostly_printable (b : string) : bool :=
  let w := window b in truthy w && (17 * Z.of_nat (len w) <=? 20 * count printable w).

Definition b_strip (s : string) : string := strip_where b_space s.
Definition token_shaped (s : string) : bool := run_full b64_class 2 s || hex_full s || run_full b32_class 6 s.
Definition _looks_like_blob (b : string) : bool := let s := b_strip b in (MIN_BLOB_LEN <=? len s)%nat && token_shaped s.

Definition _has_nested_candidate (b : string) : bool :=
  let w := window b in search B64_CAND w || search HEX_CAND w || search XESC_CAND w || search CHARCODE_CAND w.

Definition _looks_like_rotated_code (b : string) : bool :=
  let w := window b in
  let n := Z.of_nat (len w) in
  let cnt k := count (fun c => code c =? k) w in
  let opens := cnt 40 + cnt 123 in
  let closes := cnt 41 + cnt 125 in
  let semis := cnt 59 in
  if n <? 64 then false
  else if 5 * count is_alpha w <? 2 * n then false
  else if (opens <? 3) || (closes <? 3) then false
  else if Z.min opens closes * 3 <? Z.max opens closes then false
  else if semis <? 2 then false
  else n <=? 20 * (opens + closes + semis + cnt 61 + cnt 44).

(** The magic numbers of the compressed formats. *)
Definition applies_gzip (b : string) : bool := startswith b (str_of [0x1f; 0x8b; 0x08]).
Definition applies_zlib (b : string) : bool :=
  match b with String b0 (String b1 (String _ _)) => (code b0 =? 0x78) && ((code b0 * 256 + code b1) mod 31 =? 0) | _ => false end.
Definition applies_bz2 (b : string) : bool := startswith b "BZh".
Definition applies_xz (b : string) : bool := startswith b (str_of [0xfd; 55; 122; 88; 90; 0]).
Definition _sniff_compression (b : string) : bool := applies_gzip b || applies_zlib b || applies_bz2 b || applies_xz b.

Inductive class := TERMINAL | RECURSE | DROP.
#[export] Instance class_eq_dec : EqDecision class. Proof. solve_decision. Defined.

Definition _classify (out : string) : class :=
  if _is_executable out then TERMINAL
  else if mostly_printable out then
    if search URL_RE (window out) || _has_code_token out then TERMINAL
    else if _has_nested_candidate out then RECURSE
    else if _looks_like_rotated_code out then RECURSE
    else DROP
  else if _sniff_compression out || _looks_like_blob out then RECURSE
  else DROP.

(** ** Candidates *)

Definition CANDIDATE_PATTERNS : list (string -> option nat) := [B64_CAND; B64URL_CAND; HEX_CAND; XESC_CAND; CHARCODE_CAND; A85_CAND; URI_CAND].

Fixpoint take_candidates (cap n : Z) (seen matches : list string) : list string :=
  match matches with
  | [] => []
  | blob :: matches' =>
      if cap <=? n then []
      else if (len blob <? MIN_BLOB_LEN)%nat || str_in blob seen then take_candidates cap n seen matches'
      else blob :: take_candidates cap (n + 1) (blob :: seen) matches'
  end.
Definition _candidates (data : string) (cap : Z) : list string :=
  take_candidates cap 0 [] (List.concat (map (fun rx => finditer rx data) CANDIDATE_PATTERNS)).

(** ** Rotation and reversal *)

Definition rot_shifts : list Z := map Z.of_nat (seq 1 25).
Definition _rot_n (blob : string) : option string :=
  if (len blob <? 32)%nat then None
  else let w := window blob in
    if 10 * count is_alpha w <? 3 * Z.of_nat (len w) then None
    else head (List.filter _has_code_token (map (fun shift => rotate shift blob) rot_shifts)).

Definition _reverse (blob : string) : option string :=
  let s := b_strip blob in
  if (len s <? MIN_BLOB_LEN)%nat then None else if token_shaped s then Some (str_rev s) else None.

(** ** The recovery loop *)

(** The standard library's decompressors: [None] is one of the exceptions the
    source catches; [zlib] also gives the input it did not consume. *)
Record decompressors := mkDecompressors {
  zlib_decompress : Z -> Z -> string -> option (string * string);
  bz2_decompress : Z -> string -> option string;
  lzma_decompress : Z -> string -> option string;
}.

(** What the documentation promises of [max_length]: no output is longer.
    [zlib] reads 0 as no limit. *)
Record respects_max_length (ext : decompressors) : Prop := {
  zlib_bounded : forall wbits m data out tail, 0 < m -> zlib_decompress ext wbits m data = Some (out, tail) -> Z.of_nat (len out) <= m;
  bz2_bounded : forall m data out, 0 <= m -> bz2_decompress ext m data = Some out -> Z.of_nat (len out) <= m;
  lzma_bounded : forall m data out, 0 <= m -> lzma_decompress ext m data = Some out -> Z.of_nat (len out) <= m;
}.

Record Decoded := mkDecoded { data : string; chain : list string }.
Definition depth (d : Decoded) : nat := List.length (chain d).

Definition node_ : Type := string * list string.

(** The variables of [recover]; the top of [stack] is its head. *)
Record state := mkState { results : list Decoded; total : Z; nodes : Z; seen : gset Z; stack : list node_ }.

(** A decoder's answer; [None] is an exception nothing catches. *)
Definition attempt : Type := option (option string).

Section Engine.
Variables (bud : Budgets) (ext : decompressors) (hash : string -> Z).

Definition _inflate (blob : string) (wbits : Z) : attempt :=
  if MAX_LAYER_BYTES bud <? 0 then None
  else match zlib_decompress ext wbits (MAX_LAYER_BYTES bud) blob with
    | None => Some None
    | Some (out, unconsumed_tail) => if truthy unconsumed_tail then Some None else Some (nonempty out)
    end.
Definition _gzip_zlib (blob : string) : attempt := _inflate blob 47.
Definition _bz2 (blob : string) : attempt := Some (match bz2_decompress ext (MAX_LAYER_BYTES bud) blob with Some out => nonempty out | None => None end).
Definition _xz (blob : string) : attempt := Some (match lzma_decompress ext (MAX_LAYER_BYTES bud) blob with Some out => nonempty out | None => None end).

Definition COMPRESSORS : list (string * (string -> bool) * (string -> attempt)) :=
  [("gzip", applies_gzip, _gzip_zlib); ("zlib", applies_zlib, _gzip_zlib); ("bz2", applies_bz2, _bz2); ("xz", applies_xz, _xz)].
Definition TEXT_DECODERS : list (string * (string -> option string)) :=
  [("b64", _b64); ("b64url", _b64url); ("b32", _b32); ("hex", _hex); ("xesc", _xesc); ("charcode", _charcode); ("a85", _a85);
   ("uri", _uri_decode); ("rot", _rot_n)].

Definition text_decoder (d : string * (string -> option string)) : string * (string -> attempt) := (d.1, fun b => Some (d.2 b)).
Definition _decoders_for (blob : string) : list (string * (string -> attempt)) :=
  map (fun c => (c.1.1, c.2)) (List.filter (fun c => c.1.2 blob) COMPRESSORS) ++ map text_decoder (TEXT_DECODERS ++ [("reverse", _reverse)]).

(** [budget.charge(n)], and the two ends of a recovered layer. *)
Definition charge (n : Z) (st : state) : state := mkState (results st) (total st + n) (nodes st) (seen st) (stack st).
Definition report (d : Decoded) (st : state) : state := mkState (results st ++ [d]) (total st) (nodes st) (seen st) (stack st).
Definition push (items : list node_) (st : state) : state := mkState (results st) (total st) (nodes st) (seen st) (rev_append items (stack st)).

Definition file_layer (out : string) (new_chain : list string) (st : state) : state :=
  match _classify out with
  | TERMINAL => report (mkDecoded out new_chain) st
  | RECURSE => push ((out, new_chain) :: map (fun sub => (sub, new_chain)) (List.filter (fun sub => negb (String.eqb sub out)) (_candidates out SUB_BLOB_CAP))) st
  | DROP => st
  end.

(** An output the loop goes on with. *)
Definition is_new_layer (cur out : string) (st : state) : bool :=
  negb ((len out <? MIN_OUT_LEN)%nat || String.eqb out cur) && negb (bool_decide (hash out ∈ seen st)).

(** The [for] over the decoders; [None]: an exception. *)
Fixpoint try_decoders (cur : string) (chain_ : list string) (ds : list (string * (string -> attempt))) (st : state) : option state :=
  match ds with
  | [] => Some st
  | (name, fn) :: ds' =>
      match fn cur with
      | None => None
      | Some None => try_decoders cur chain_ ds' st
      | Some (Some out) =>
          if is_new_layer cur out st then
            let st := charge (Z.of_nat (len out)) st in
            if total st <=? MAX_TOTAL_BYTES bud then try_decoders cur chain_ ds' (file_layer out (chain_ ++ [name])%list st) else Some st
          else try_decoders cur chain_ ds' st
      end
  end.

Definition pop (stk : list node_) (st : state) : state := mkState (results st) (total st) (nodes st) (seen st) stk.
Definition count_node (st : state) : state := mkState (results st) (total st) (nodes st + 1) (seen st) (stack st).
Definition mark (fp : Z) (st : state) : state := mkState (results st) (total st) (nodes st) (seen st ∪ {[fp]}) (stack st).

Inductive outcome := Finished (st : state) | Crashed | OutOfFuel.

Fixpoint recover_loop (fuel : nat) (st : state) : outcome :=
  match fuel with
  | O => OutOfFuel
  | S fuel' =>
      match stack st with
      | [] => Finished st
      | (cur, chain_) :: stk =>
          let st := count_node st in
          if nodes st <=? MAX_NODES bud then
            let st := pop stk st in
            if MAX_DEPTH bud <=? Z.of_nat (List.length chain_) then recover_loop fuel' st
            else if bool_decide (hash cur ∈ seen st) then recover_loop fuel' st
            else match try_decoders cur chain_ (_decoders_for cur) (mark (hash cur) st) with
              | Some st => recover_loop fuel' st
              | None => Crashed
              end
          else Finished st
      end
  end.

Definition initial (d : string) : state :=
  mkState [] 0 0 ∅ (rev (map (fun blob => (blob, [])) (_candidates d (MAX_BLOBS bud)))).
(** Every turn counts a node, so the node budget is fuel enough. *)
Definition fuel_of : nat := S (S (Z.to_nat (MAX_NODES bud))).
Definition recover_run (d : string) : outcome := recover_loop fuel_of (initial d).
(** The value of [recover]; [None]: it raised. *)
Definition recover (d : string) : option (list Decoded) :=
  match recover_run d with Finished st => Some (results st) | _ => None end.

End Engine.

(** ** What a layer is derived from *)

Section Spec.
Context (bud : Budgets) (ext : decompressors) (hash : string -> Z).

(** One decoder step the engine may take at [cur]. *)
Definition decodes (cur name out : string) : Prop :=
  exists fn, (name, fn) ∈ _decoders_for bud ext cur /\ fn cur = Some (Some out) /\ (MIN_OUT_LEN <= len out)%nat /\ out <> cur.

(** The nodes and the layers of a text: a node is a candidate of the text, a
    layer that is worth another pass, or a candidate inside such a layer. *)
Inductive reach (d : string) : string -> list string -> Prop :=
  | reach_candidate blob : blob ∈ _candidates d (MAX_BLOBS bud) -> reach d blob []
  | reach_layer out ch : layer d out ch -> _classify out = RECURSE -> reach d out ch
  | reach_sub out ch sub : layer d out ch -> _classify out = RECURSE -> sub ∈ _candidates out SUB_BLOB_CAP -> reach d sub ch
with layer (d : string) : string -> list string -> Prop :=
  | layer_step cur ch name out : reach d cur ch -> decodes cur name out -> layer d out (ch ++ [name])%list.

Lemma layer_chain d out ch : layer d out ch -> 1 <= Z.of_nat (List.length ch).
Proof. destruct 1. rewrite length_app. cbn [List.length]. lia. Qed.

Definition sum_len (ds : list Decoded) : Z := fold_right (fun d acc => Z.of_nat (len (data d)) + acc) 0 ds.

Lemma sum_len_snoc ds d : sum_len (ds ++ [d]) = sum_len ds + Z.of_nat (len (data d)).
Proof. unfold sum_len. induction ds as [|x ds IH]; cbn; [lia|]. cbn in IH. lia. Qed.

(** The soundness invariant of the loop. *)
Record sound (d : string) (st : state) : Prop := {
  stack_reached : forall b ch, (b, ch) ∈ stack st -> reach d b ch;
  results_found : forall r, r ∈ results st -> layer d (data r) (chain r) /\ _classify (data r) = TERMINAL /\ Z.of_nat (depth r) <= MAX_DEPTH bud;
  results_charged : sum_len (results st) <= total st;
  results_within : sum_len (results st) <= Z.max 0 (MAX_TOTAL_BYTES bud);
}.

Lemma push_stack items st b ch : (b, ch) ∈ stack (push items st) <-> (b, ch) ∈ items \/ (b, ch) ∈ stack st.
Proof. unfold push. cbn [stack]. rewrite rev_append_rev, elem_of_app, list_elem_of_In, <- in_rev, <- list_elem_of_In. done. Qed.

Lemma file_layer_sound d out ch st : sound d st -> sum_len (results st) + Z.of_nat (len out) <= total st -> total st <= MAX_TOTAL_BYTES bud ->
  layer d out ch -> Z.of_nat (List.length ch) <= MAX_DEPTH bud -> sound d (file_layer out ch st).
Proof.
  intros [H1 H2 H3 H4] Hsum Htot Hl Hd. unfold file_layer. destruct (_classify out) eqn:Ec; [| |done]; split; cbn [report push results total stack]; try done.
  - intros r [Hr|Hr%list_elem_of_singleton]%elem_of_app; [by apply H2|]. by subst r.
  - rewrite sum_len_snoc. cbn [data]. lia.
  - rewrite sum_len_snoc. cbn [data]. lia.
  - intros b c. intros [[Hb|Hb]%elem_of_cons|Hb]%push_stack.
    + injection Hb as -> ->. by apply reach_layer.
    + apply list_elem_of_fmap in Hb as (sub & [= -> ->] & Hs). apply bfilter_in in Hs as [Hs _]. by eapply reach_sub.
    + by apply H1.
Qed.

Lemma charge_sound d n st : 0 <= n -> sound d st -> sound d (charge n st).
Proof. intros Hn [H1 H2 H3 H4]. split; cbn [charge results total stack]; try done. lia. Qed.

Lemma is_new_layer_true cur out st : is_new_layer hash cur out st = true -> (MIN_OUT_LEN <= len out)%nat /\ out <> cur /\ hash out ∉ seen st.
Proof. unfold is_new_layer. rewrite andb_true_iff, !negb_true_iff, orb_false_iff, Nat.ltb_ge, String.eqb_neq, bool_decide_eq_false. tauto. Qed.

Lemma try_decoders_sound d cur ch ds st st' : reach d cur ch -> Z.of_nat (List.length ch) < MAX_DEPTH bud ->
  (forall nf, nf ∈ ds -> nf ∈ _decoders_for bud ext cur) -> sound d st -> try_decoders bud hash cur ch ds st = Some st' -> sound d st'.
Proof.
  intros Hr Hd. revert st. induction ds as [|[name fn] ds IH]; intros st Hds Hs; cbn [try_decoders]; [by intros [= <-]|].
  assert (forall nf, nf ∈ ds -> nf ∈ _decoders_for bud ext cur) as Hds' by (intros; apply Hds; set_solver).
  destruct (fn cur) as [[out|]|] eqn:E; [|by apply IH|done].
  destruct (is_new_layer hash cur out st) eqn:Hn; [|by apply IH]. apply is_new_layer_true in Hn as (Hl & Hne & _).
  destruct (Z.leb_spec (total (charge (Z.of_nat (len out)) st)) (MAX_TOTAL_BYTES bud)) as [Hle|_]; [|intros [= <-]; apply charge_sound; [lia|done]].
  apply IH; [done|]. apply file_layer_sound; [apply charge_sound; [lia|done]|destruct Hs as [_ _ H3 _]; cbn [charge results total]; lia|done| |rewrite length_app; cbn [List.length]; lia].
  apply (layer_step d cur); [done|]. exists fn. split; [apply Hds; set_solver|done].
Qed.

Lemma pop_sound d item stk st : stack st = item :: stk -> sound d st -> sound d (pop stk (count_node st)).
Proof. intros E [H1 H2 H3 H4]. split; cbn; try done. intros b c Hb. apply H1. rewrite E. set_solver. Qed.

Lemma recover_loop_sound d fuel st st' : sound d st -> recover_loop bud ext hash fuel st = Finished st' -> sound d st'.
Proof.
  revert st. induction fuel as [|fuel IH]; intros st Hs; cbn [recover_loop]; [done|].
  destruct (stack st) as [|[cur ch] stk] eqn:Est; [by intros [= <-]|].
  assert (reach d cur ch) as Hr by (destruct Hs as [H1 _ _ _]; apply H1; rewrite Est; set_solver).
  pose proof (pop_sound d _ _ _ Est Hs) as Hp.
  destruct (_ <=? MAX_NODES bud); [|intros [= <-]; by destruct Hs].
  destruct (Z.leb_spec (MAX_DEPTH bud) (Z.of_nat (List.length ch))) as [_|Hd]; [by apply IH|].
  destruct (bool_decide _); [by apply IH|].
  destruct (try_decoders _ _ _ _ _ _) as [st1|] eqn:Et; [|done].
  apply IH. eapply try_decoders_sound; [exact Hr|done|done| |exact Et]. by destruct Hp.
Qed.

Lemma initial_sound d : sound d (initial bud d).
Proof.
  split; cbn [initial stack results total]; [|intros r Hr; by apply elem_of_nil in Hr|done|cbn; lia].
  intros b ch Hb. rewrite list_elem_of_In, <- in_rev, <- list_elem_of_In in Hb. apply list_elem_of_fmap in Hb as (x & [= -> ->] & Hx).
  by apply reach_candidate.
Qed.

(** ** The loop ends and does not raise *)

Lemma text_decoder_answers (fn : string -> option string) (b : string) : (text_decoder ("", fn)).2 b = Some (fn b).
Proof. done. Qed.

Lemma decoders_answer (cur name : string) fn : 0 <= MAX_LAYER_BYTES bud -> (name, fn) ∈ _decoders_for bud ext cur -> fn cur <> None.
Proof.
  intros Hm [H|H]%elem_of_app; apply list_elem_of_fmap in H as (x & E & Hx); injection E as -> ->; [|done].
  apply bfilter_in in Hx as [Hx _]. assert (_inflate bud ext cur 47 <> None) as Hi.
  { unfold _inflate. rewrite (proj2 (Z.ltb_ge _ _)) by lia. destruct (zlib_decompress _ _ _ _) as [[o t]|]; [|done]. by destruct (truthy t). }
  unfold COMPRESSORS in Hx. rewrite !elem_of_cons, elem_of_nil in Hx.
  destruct Hx as [->|[->|[->|[->|[]]]]]; cbn [fst snd]; [exact Hi|exact Hi|done|done].
Qed.

Lemma try_decoders_answers cur ch ds st : (forall nf, nf ∈ ds -> nf.2 cur <> None) -> try_decoders bud hash cur ch ds st <> None.
Proof.
  revert st. induction ds as [|[name fn] ds IH]; intros st H; cbn [try_decoders]; [done|].
  assert (forall nf, nf ∈ ds -> nf.2 cur <> None) as H' by (intros; apply H; set_solver).
  pose proof (H (name, fn) ltac:(set_solver)) as Hf. cbn [snd] in Hf. destruct (fn cur) as [[out|]|]; [|by apply IH|done].
  destruct (is_new_layer _ _ _ _); [|by apply IH]. destruct (_ <=? _); [by apply IH|done].
Qed.

Definition same_loop (st st' : state) : Prop := nodes st' = nodes st /\ seen st' = seen st.

Lemma file_layer_same out ch st : same_loop st (file_layer out ch st).
Proof. unfold file_layer. by destruct (_classify out). Qed.

Lemma try_decoders_same cur ch ds st st' : try_decoders bud hash cur ch ds st = Some st' -> same_loop st st' /\ total st <= total st'.
Proof.
  revert st. induction ds as [|[name fn] ds IH]; intros st; cbn [try_decoders]; [intros [= <-]; split; [done|lia]|].
  destruct (fn cur) as [[out|]|]; [|apply IH|done]. destruct (is_new_layer _ _ _ _); [|apply IH].
  destruct (_ <=? _).
  - intros H. apply IH in H as [[H1 H2] H3]. destruct (file_layer_same out (ch ++ [name])%list (charge (Z.of_nat (len out)) st)) as [E1 E2].
    split; [split; [by rewrite H1, E1|by rewrite H2, E2]|]. unfold file_layer in H3. destruct (_classify out); cbn [charge report push total] in H3; lia.
  - intros [= <-]. split; [done|]. cbn [charge total]. lia.
Qed.

Lemma loop_finishes fuel st : 0 <= MAX_LAYER_BYTES bud -> (Z.to_nat (MAX_NODES bud - nodes st) < fuel)%nat -> 0 <= nodes st ->
  exists st', recover_loop bud ext hash fuel st = Finished st'.
Proof.
  intros Hm. revert st. induction fuel as [|fuel IH]; intros st Hf Hn; [lia|]. cbn [recover_loop].
  destruct (stack st) as [|[cur ch] stk]; [by eexists|]. destruct (Z.leb_spec (nodes (count_node st)) (MAX_NODES bud)) as [Hle|_]; [|by eexists].
  assert (forall st1, nodes st1 = nodes st + 1 -> exists st', recover_loop bud ext hash fuel st1 = Finished st') as Hgo.
  { intros st1 E. cbn [count_node nodes] in Hle. apply IH; rewrite E; lia. }
  destruct (_ <=? _); [by apply Hgo|]. destruct (bool_decide _); [by apply Hgo|].
  destruct (try_decoders _ _ _ _ _ _) as [st1|] eqn:Et.
  - apply try_decoders_same in Et as [[E _] _]. by apply Hgo.
  - exfalso. revert Et. apply try_decoders_answers. intros [name fn]. apply decoders_answer, Hm.
Qed.

Lemma loop_nodes fuel st st' : recover_loop bud ext hash fuel st = Finished st' -> nodes st <= Z.max 0 (MAX_NODES bud) -> Z.of_nat (size (seen st)) <= nodes st ->
  nodes st' <= Z.max 0 (MAX_NODES bud) + 1 /\ Z.of_nat (size (seen st')) <= Z.max 0 (MAX_NODES bud) /\ total st <= total st'.
Proof.
  revert st. induction fuel as [|fuel IH]; intros st; cbn [recover_loop]; [done|].
  destruct (stack st) as [|[cur ch] stk]; [intros [= <-]; lia|].
  destruct (Z.leb_spec (nodes (count_node st)) (MAX_NODES bud)) as [Hle|Hgt]; cbn [count_node nodes] in *; [|intros [= <-] ? ?; cbn [count_node nodes seen total]; lia].
  destruct (_ <=? _); [intros H ? ?; apply IH in H; cbn [pop count_node nodes seen total] in *; lia|].
  destruct (bool_decide _); [intros H ? ?; apply IH in H; cbn [pop count_node nodes seen total] in *; lia|].
  destruct (try_decoders _ _ _ _ _ _) as [st1|] eqn:Et; [|done]. apply try_decoders_same in Et as [[E1 E2] E3].
  cbn [mark pop count_node nodes seen total] in *. intros H Hn Hs.
  assert (size (seen st ∪ {[hash cur]}) <= size (seen st) + 1)%nat as Hsz.
  { rewrite size_union_alt. pose proof (subseteq_size ({[hash cur]} ∖ seen st) {[hash cur]} ltac:(set_solver)) as Hd. rewrite size_singleton in Hd. lia. }
  rewrite <- E2 in Hsz. apply IH in H; lia.
Qed.

(** ** What one decoder may produce *)

Lemma rotate_length k s : len (rotate k s) = len s.
Proof. apply len_smap. Qed.

Lemma strip_length p s : (len (strip_where p s) <= len s)%nat.
Proof.
  unfold strip_where. assert (forall s, len (rstrip_where p s) <= len s)%nat as Hr.
  { induction s0 as [|c s0 IH]; [done|]. cbn [rstrip_where]. destruct (rstrip_where p s0); [destruct (p c); rewrite ?len_cons; cbn; lia|]. rewrite !len_cons in *. lia. }
  etransitivity; [apply Hr|]. induction s as [|c s IH]; [done|]. cbn [lstrip_where]. destruct (p c); [rewrite len_cons; lia|done].
Qed.

Lemma str_rev_length s : len (str_rev s) = len s.
Proof. unfold str_rev. enough (forall s a, len (str_rev_onto a s) = len a + len s)%nat as -> by done. induction s0 as [|c s0 IH]; intros a; cbn [str_rev_onto]; [cbn; lia|]. rewrite IH, !len_cons. lia. Qed.

Lemma text_bound name f blob : (name, f) ∈ (TEXT_DECODERS ++ [("reverse", _reverse)])%list -> at_most (4 * len blob) (f blob).
Proof.
  unfold TEXT_DECODERS. cbn [app]. rewrite !elem_of_cons, elem_of_nil.
  intros [E|[E|[E|[E|[E|[E|[E|[E|[E|[E|[]]]]]]]]]]]; injection E as -> ->.
  - apply (decode_bound B64).
  - apply (decode_bound B64URL).
  - apply (decode_bound B32).
  - apply (decode_bound HEX).
  - apply (decode_bound XESC).
  - apply (decode_bound CHARCODE).
  - apply (decode_bound (A85 false)).
  - apply (decode_bound URI).
  - unfold _rot_n. destruct (_ <? _)%nat; [done|]. destruct (_ <? _); [done|]. intros out H. apply head_in in H. apply bfilter_in in H as [H _].
    apply list_elem_of_fmap in H as (k & -> & _). rewrite rotate_length. lia.
  - unfold _reverse. destruct (_ <? _)%nat; [done|]. destruct (token_shaped _); [|done]. intros out [= <-]. rewrite str_rev_length. pose proof (strip_length b_space blob). unfold b_strip. lia.
Qed.

Lemma nonempty_some out x : nonempty out = Some x -> x = out.
Proof. unfold nonempty. destruct (truthy out); [|done]. by intros [= ->]. Qed.

Lemma compressor_bound (c : string * (string -> bool) * (string -> attempt)) blob out : respects_max_length ext -> 0 < MAX_LAYER_BYTES bud ->
  c ∈ COMPRESSORS bud ext -> c.2 blob = Some (Some out) -> Z.of_nat (len out) <= MAX_LAYER_BYTES bud.
Proof.
  intros [Hz Hb Hx] Hm Hc. assert (_inflate bud ext blob 47 = Some (Some out) -> Z.of_nat (len out) <= MAX_LAYER_BYTES bud) as Hi.
  { unfold _inflate. rewrite (proj2 (Z.ltb_ge _ _)) by lia. destruct (zlib_decompress _ _ _ _) as [[o t]|] eqn:E; [|done].
    destruct (truthy t); [done|]. intros [= Hn]. apply nonempty_some in Hn as ->. by eapply Hz. }
  unfold COMPRESSORS in Hc. rewrite !elem_of_cons, elem_of_nil in Hc. destruct Hc as [->|[->|[->|[->|[]]]]]; cbn [snd]; [exact Hi|exact Hi|..].
  - unfold _bz2. destruct (bz2_decompress _ _ _) eqn:E; intros [= Hn]; apply nonempty_some in Hn as ->. eapply Hb; [lia|done].
  - unfold _xz. destruct (lzma_decompress _ _ _) eqn:E; intros [= Hn]; apply nonempty_some in Hn as ->. eapply Hx; [lia|done].
Qed.

Lemma step_bound cur name out : respects_max_length ext -> 0 < MAX_LAYER_BYTES bud -> decodes cur name out ->
  Z.of_nat (len out) <= Z.max (MAX_LAYER_BYTES bud) (4 * Z.of_nat (len cur)).
Proof.
  intros He Hm (fn & [H|H]%elem_of_app & Hf & _); apply list_elem_of_fmap in H as (x & E & Hx); injection E as -> ->.
  - apply bfilter_in in Hx as [Hx _]. pose proof (compressor_bound _ _ _ He Hm Hx Hf). lia.
  - destruct x as [n f]. cbn [snd] in Hf. injection Hf as Hf. apply (text_bound n f cur Hx) in Hf. lia.
Qed.

(** ** What a finished run has looked at *)

Definition visited (b : string) (st : state) : Prop := hash b ∈ seen st.
(** Looked at, or waiting at a depth that will be looked at. *)
Definition pending (b : string) (st : state) : Prop :=
  visited b st \/ exists ch, (b, ch) ∈ stack st /\ Z.of_nat (List.length ch) < MAX_DEPTH bud.
Definition reported (out : string) (st : state) : Prop := exists r, r ∈ results st /\ data r = out.

(** What became of the layers of a node examined at depth [n]. *)
Definition handled (b : string) (n : nat) (st : state) : Prop := forall name out, decodes b name out ->
  visited out st \/
  ((_classify out = TERMINAL -> reported out st) /\
   (_classify out = RECURSE -> Z.of_nat (S n) < MAX_DEPTH bud ->
      pending out st /\ forall sub, sub ∈ _candidates out SUB_BLOB_CAP -> pending sub st)).

(** Each fingerprint was left by a node that was examined.  Another text with that
    fingerprint was not examined itself. *)
Definition examined (d : string) (fp : Z) (st : state) : Prop :=
  exists b ch, hash b = fp /\ reach d b ch /\ Z.of_nat (List.length ch) < MAX_DEPTH bud /\ handled b (List.length ch) st.
Definition covered (d : string) (st : state) : Prop := forall fp, fp ∈ seen st -> examined d fp st.

(** A node of the text other than [x] has the fingerprint of [x]. *)
Definition masked (d x : string) : Prop := exists b ch, reach d b ch /\ b <> x /\ hash b = hash x.

(** Nothing that was reported, seen or pending is lost. *)
Record keeps (st st' : state) : Prop := {
  keeps_results : forall r, r ∈ results st -> r ∈ results st';
  keeps_seen : seen st ⊆ seen st';
  keeps_pending : forall b, pending b st -> pending b st';
}.

Lemma state_keeps_refl st : keeps st st.
Proof. by split. Qed.
Lemma state_keeps_trans st1 st2 st3 : keeps st1 st2 -> keeps st2 st3 -> keeps st1 st3.
Proof. intros [] []. split; [eauto|set_solver|eauto]. Qed.

Lemma keeps_stack st st' : (forall r, r ∈ results st -> r ∈ results st') -> seen st ⊆ seen st' -> (forall x, x ∈ stack st -> x ∈ stack st') -> keeps st st'.
Proof. intros H1 H2 H3. split; [done..|]. intros b [Hb|(ch & Hb & Hl)]; [left; by apply H2|right; eauto]. Qed.

Lemma handled_keeps b n st st' : keeps st st' -> handled b n st -> handled b n st'.
Proof.
  intros [H1 H2 H3] Hh name out Hd. destruct (Hh name out Hd) as [Hv|[Ht Hr]]; [left; by apply H2|right]. split.
  - intros Hc. destruct (Ht Hc) as (r & Hr' & <-). exists r. eauto.
  - intros Hc Hn. destruct (Hr Hc Hn) as [Hp Hs]. eauto.
Qed.

Lemma file_layer_keeps out ch st : keeps st (file_layer out ch st).
Proof.
  apply keeps_stack; unfold file_layer; destruct (_classify out); cbn [report push results seen]; try done; [set_solver|].
  intros [b c] Hb. apply push_stack. by right.
Qed.

Lemma charge_keeps n st : keeps st (charge n st).
Proof. by apply keeps_stack. Qed.

(** A filed layer is reported, or waits with its candidates. *)
Lemma file_layer_files out ch st :
  (_classify out = TERMINAL -> reported out (file_layer out ch st)) /\
  (_classify out = RECURSE -> Z.of_nat (List.length ch) < MAX_DEPTH bud ->
     pending out (file_layer out ch st) /\ forall sub, sub ∈ _candidates out SUB_BLOB_CAP -> pending sub (file_layer out ch st)).
Proof.
  unfold file_layer. split; intros Hc; rewrite Hc.
  - exists (mkDecoded out ch). cbn [report results]. set_solver.
  - intros Hl. assert (pending out (push ((out, ch) :: map (fun sub => (sub, ch)) (List.filter (fun sub => negb (String.eqb sub out)) (_candidates out SUB_BLOB_CAP))) st)) as Ho
      by (right; exists ch; split; [apply push_stack; set_solver|done]).
    split; [done|]. intros sub Hs. destruct (String.eqb_spec sub out) as [->|Hne]; [done|].
    right. exists ch. split; [|done]. apply push_stack. left. apply elem_of_cons. right. apply list_elem_of_fmap. exists sub. split; [done|].
    apply bfilter_in. split; [done|]. by rewrite (proj2 (String.eqb_neq _ _)).
Qed.

(** The loop over the decoders, when the byte budget holds to its end. *)
Lemma try_decoders_covers cur ch ds st st' : try_decoders bud hash cur ch ds st = Some st' -> total st' <= MAX_TOTAL_BYTES bud ->
  keeps st st' /\ forall name fn out, (name, fn) ∈ ds -> fn cur = Some (Some out) -> (MIN_OUT_LEN <= len out)%nat -> out <> cur ->
    visited out st' \/
    ((_classify out = TERMINAL -> reported out st') /\
     (_classify out = RECURSE -> Z.of_nat (S (List.length ch)) < MAX_DEPTH bud -> pending out st' /\ forall sub, sub ∈ _candidates out SUB_BLOB_CAP -> pending sub st')).
Proof.
  revert st. induction ds as [|[name fn] ds IH]; intros st; cbn [try_decoders].
  { intros [= <-] _. split; [apply state_keeps_refl|]. intros ? ? ? H. by apply elem_of_nil in H. }
  intros H Hle.
  assert (forall st1 out0, try_decoders bud hash cur ch ds st1 = Some st' -> keeps st st1 -> fn cur = Some out0 ->
    (forall out, out0 = Some out -> (MIN_OUT_LEN <= len out)%nat -> out <> cur ->
      visited out st1 \/ ((_classify out = TERMINAL -> reported out st1) /\
       (_classify out = RECURSE -> Z.of_nat (S (List.length ch)) < MAX_DEPTH bud -> pending out st1 /\ forall sub, sub ∈ _candidates out SUB_BLOB_CAP -> pending sub st1))) ->
    keeps st st' /\ forall name' fn' out, (name', fn') ∈ (name, fn) :: ds -> fn' cur = Some (Some out) -> (MIN_OUT_LEN <= len out)%nat -> out <> cur ->
      visited out st' \/ ((_classify out = TERMINAL -> reported out st') /\
       (_classify out = RECURSE -> Z.of_nat (S (List.length ch)) < MAX_DEPTH bud -> pending out st' /\ forall sub, sub ∈ _candidates out SUB_BLOB_CAP -> pending sub st'))) as Hgo.
  { intros st1 out0 Hrun Hk Hf H1. destruct (IH st1 Hrun Hle) as [Hk' Hrest]. split; [by eapply state_keeps_trans|].
    intros name' fn' out [[= -> ->]|Hin]%elem_of_cons Ho Hl Hne; [|by eapply Hrest]. rewrite Hf in Ho. injection Ho as ->.
    destruct Hk' as [K1 K2 K3]. destruct (H1 out eq_refl Hl Hne) as [Hv|[Ht Hr]]; [left; by apply K2|right]. split.
    - intros Hc. destruct (Ht Hc) as (r & Hr' & <-). exists r. eauto.
    - intros Hc Hd. destruct (Hr Hc Hd). eauto. }
  destruct (fn cur) as [[out|]|] eqn:Ef; [|by apply (Hgo st None)|done].
  destruct (is_new_layer hash cur out st) eqn:En.
  - destruct (Z.leb_spec (total (charge (Z.of_nat (len out)) st)) (MAX_TOTAL_BYTES bud)) as [_|Hgt]; [|injection H as <-; lia].
    apply (Hgo _ (Some out) H); [eapply state_keeps_trans; [apply charge_keeps|apply file_layer_keeps]|done|].
    intros out' [= <-] _ _. right. pose proof (file_layer_files out (ch ++ [name])%list (charge (Z.of_nat (len out)) st)) as [Ht Hr].
    split; [exact Ht|]. intros Hc Hd. apply Hr; [done|]. rewrite length_app. cbn [List.length]. lia.
  - apply (Hgo st (Some out) H); [apply state_keeps_refl|done|]. intros out' [= <-] Hl Hne. left. unfold visited.
    unfold is_new_layer in En. apply andb_false_iff in En as [En%negb_false_iff|En%negb_false_iff]; [|by apply bool_decide_eq_true in En].
    apply orb_true_iff in En as [En%Nat.ltb_lt|En%String.eqb_eq]; [lia|done].
Qed.

(** Taking the top node off: it is looked at, or was, or lies too deep. *)
Lemma pop_keeps cur ch stk st st' : stack st = (cur, ch) :: stk -> stack st' = stk -> results st' = results st -> seen st ⊆ seen st' ->
  (visited cur st' \/ MAX_DEPTH bud <= Z.of_nat (List.length ch)) -> keeps st st'.
Proof.
  intros E1 E2 E3 E4 Hc. split; [by rewrite E3|done|]. intros b [Hb|(c & Hb & Hl)]; [left; by apply E4|].
  rewrite E1 in Hb. apply elem_of_cons in Hb as [[= -> ->]|Hb]; [destruct Hc as [Hc|Hc]; [by left|lia]|]. right. exists c. by rewrite E2.
Qed.

Lemma examined_keeps d fp st st' : keeps st st' -> examined d fp st -> examined d fp st'.
Proof. intros Hk (b & ch & H1 & H2 & H3 & H4). exists b, ch. split_and!; [done..|]. by eapply handled_keeps. Qed.

Lemma examined_itself d b st : ~ masked d b -> examined d (hash b) st -> exists ch, reach d b ch /\ handled b (List.length ch) st.
Proof. intros Hm (b' & ch & Hh & Hr & _ & Hd). destruct (decide (b' = b)) as [->|Hne]; [by exists ch|]. destruct Hm. by exists b', ch. Qed.

Lemma loop_covers d fuel st st' : sound d st -> recover_loop bud ext hash fuel st = Finished st' -> total st' <= MAX_TOTAL_BYTES bud ->
  nodes st <= Z.max 0 (MAX_NODES bud) -> Z.of_nat (size (seen st)) <= nodes st ->
  covered d st -> keeps st st' /\ covered d st'.
Proof.
  revert st. induction fuel as [|fuel IH]; intros st Hso Hrun Hle Hn Hsz Hcov; cbn [recover_loop] in Hrun; [done|].
  destruct (stack st) as [|[cur ch] stk] eqn:Est; [injection Hrun as <-; split; [apply state_keeps_refl|done]|].
  assert (reach d cur ch) as Hreach by (apply (stack_reached d st Hso); rewrite Est; set_solver).
  pose proof (pop_sound d _ _ _ Est Hso) as Hpop.
  destruct (Z.leb_spec (nodes (count_node st)) (MAX_NODES bud)) as [Hnode|_]; cbn [count_node nodes] in *; cycle 1.
  { injection Hrun as <-. assert (keeps st (count_node st)) as Hk by (by apply keeps_stack). split; [done|].
    intros fp Hfp. eapply examined_keeps; [exact Hk|by apply Hcov]. }
  set (st1 := pop stk (count_node st)) in *.
  assert (visited cur st1 \/ MAX_DEPTH bud <= Z.of_nat (List.length ch) -> recover_loop bud ext hash fuel st1 = Finished st' -> keeps st st' /\ covered d st') as Hskip.
  { intros Hc Hr. assert (keeps st st1) as Hk by (by apply (pop_keeps cur ch stk)).
    destruct (IH st1 Hpop Hr Hle) as [Hk' Hc']; [cbn; lia|cbn; lia| |split; [by eapply state_keeps_trans|done]].
    intros fp Hfp. eapply examined_keeps; [exact Hk|by apply Hcov]. }
  destruct (Z.leb_spec (MAX_DEPTH bud) (Z.of_nat (List.length ch))) as [Hd|Hd]; [apply Hskip; [by right|done]|].
  destruct (bool_decide_reflect (hash cur ∈ seen st1)) as [Hs|Hs]; [apply Hskip; [by left|done]|]. clear Hskip.
  destruct (try_decoders _ _ _ _ _ _) as [st2|] eqn:Et; [|done].
  pose proof (try_decoders_same _ _ _ _ _ Et) as [[E1 E2] _].
  assert (size (seen st2) <= size (seen st) + 1)%nat as Hsz2.
  { rewrite E2. cbn [mark st1 pop count_node seen]. rewrite size_union_alt. pose proof (subseteq_size ({[hash cur]} ∖ seen st) {[hash cur]} ltac:(set_solver)) as Hx. rewrite size_singleton in Hx. lia. }
  assert (nodes st2 = nodes st + 1) as En by (by rewrite E1).
  pose proof (loop_nodes _ _ _ Hrun ltac:(lia) ltac:(lia)) as (_ & _ & Hmono).
  destruct (try_decoders_covers _ _ _ _ _ Et ltac:(lia)) as [Hk Hdone].
  assert (keeps st st2) as Hk2.
  { eapply state_keeps_trans; [|exact Hk]. apply (pop_keeps cur ch stk); [done..|cbn; set_solver|left; unfold visited; cbn; set_solver]. }
  assert (sound d st2) as Hso2 by (eapply try_decoders_sound; [exact Hreach|exact Hd|done| |exact Et]; by destruct Hpop).
  destruct (IH st2 Hso2 Hrun Hle ltac:(lia) ltac:(lia)) as [Hk' Hc']; [|split; [by eapply state_keeps_trans|done]].
  intros fp Hb. rewrite E2 in Hb. cbn [mark st1 pop count_node seen] in Hb. apply elem_of_union in Hb as [Hb|Hb%elem_of_singleton].
  - eapply examined_keeps; [exact Hk2|by apply Hcov].
  - subst fp. exists cur, ch. split_and!; [done..|]. intros name out (fn & Hin & Hf & Hl & Hne). by eapply Hdone.
Qed.

(** A run that emptied its stack within its byte budget. *)
Lemma run_covers d st : 0 < MAX_DEPTH bud -> recover_run bud ext hash d = Finished st -> stack st = [] -> total st <= MAX_TOTAL_BYTES bud ->
  (forall blob, blob ∈ _candidates d (MAX_BLOBS bud) -> visited blob st) /\ covered d st.
Proof.
  intros Hd Hrun Hst Htot. destruct (loop_covers d _ _ _ (initial_sound d) Hrun Htot) as [[_ _ Hk] Hc]; cbn [initial nodes seen]; [lia|by rewrite size_empty|by intros fp ?%elem_of_empty|].
  split; [|done]. intros blob Hb. destruct (Hk blob) as [Hv|(ch & Hs & _)]; [|done|rewrite Hst in Hs; by apply elem_of_nil in Hs].
  right. exists []. split; [|cbn; lia]. cbn [initial stack]. rewrite list_elem_of_In, <- in_rev, <- list_elem_of_In. apply list_elem_of_fmap. by exists blob.
Qed.

Lemma covered_end st b n out name : stack st = [] -> handled b n st -> decodes b name out ->
  visited out st \/ ((_classify out = TERMINAL -> reported out st) /\
    (_classify out = RECURSE -> Z.of_nat (S n) < MAX_DEPTH bud -> visited out st /\ forall sub, sub ∈ _candidates out SUB_BLOB_CAP -> visited sub st)).
Proof.
  intros Hst Hh Hd. assert (forall x, pending x st -> visited x st) as Hp by (intros x [Hx|(ch & Hx & _)]; [done|rewrite Hst in Hx; by apply elem_of_nil in Hx]).
  destruct (Hh name out Hd) as [Hv|[Ht Hr]]; [by left|right]. split; [done|]. intros Hc Hn. destruct (Hr Hc Hn). eauto.
Qed.

End Spec.

(** ** Properties *)

(** C35. The engine always comes back within its budgets: with a layer cap that is not
    negative, [recover] ends without raising after at most one node more than the node
    budget, has looked at no more nodes than that budget, and the layers it returns take
    no more bytes than the byte budget. *)
Theorem recover_terminates bud ext hash d (Hcap : 0 <= MAX_LAYER_BYTES bud) :
  exists st, recover_run bud ext hash d = Finished st /\ recover bud ext hash d = Some (results st) /\
    nodes st <= Z.max 0 (MAX_NODES bud) + 1 /\ Z.of_nat (size (seen st)) <= Z.max 0 (MAX_NODES bud) /\
    sum_len (results st) <= Z.max 0 (MAX_TOTAL_BYTES bud).
Proof.
  destruct (loop_finishes bud ext hash (fuel_of bud) (initial bud d) Hcap) as [st Hrun]; [unfold fuel_of; cbn [initial nodes]; lia|cbn [initial nodes]; lia|].
  exists st. split; [exact Hrun|]. split; [unfold recover, recover_run; by rewrite Hrun|].
  destruct (loop_nodes _ _ _ _ _ _ Hrun) as (H1 & H2 & _); [cbn [initial nodes]; lia|cbn [initial nodes seen]; by rewrite size_empty|].
  split; [done|]. split; [done|]. apply (results_within bud ext d), (recover_loop_sound bud ext hash d _ _ _ (initial_sound bud ext d) Hrun).
Qed.

(** C33. Nothing is made up: every layer [recover] returns carries a chain, no longer than
    the depth budget, that starts at a candidate of the text, takes one decoder per step and
    goes on only from layers classified as worth another pass, and it ends in a layer
    that shows an executable, a URL or a code token. *)
Theorem recover_sound bud ext hash d ds (Hrun : recover bud ext hash d = Some ds) :
  forall r, r ∈ ds -> layer bud ext d (data r) (chain r) /\ _classify (data r) = TERMINAL /\ 1 <= Z.of_nat (depth r) <= MAX_DEPTH bud.
Proof.
  intros r Hr. unfold recover in Hrun. destruct (recover_run bud ext hash d) as [st| |] eqn:E; try done. injection Hrun as <-.
  destruct (recover_loop_sound bud ext hash d _ _ _ (initial_sound bud ext d) E) as [_ H _ _]. destruct (H r Hr) as (Hl & Hc & Hd).
  split; [done|]. split; [done|]. split; [|done]. by apply layer_chain in Hl.
Qed.

(** C34. A payload behind one layer of encoding is recovered.  The run emptied its stack
    within the byte budget; the payload shows an executable, a URL or a code token, is long enough
    for a layer, and stands as a candidate of the text encoded in full by any of the codecs; and no
    other node of the text has the fingerprint (a machine hash, so collisions exist) of the
    encoded or the plain payload.  Then the payload is among the results, unless it also stands
    in the open: as a candidate of the text itself or of a layer the engine went on from. *)
Theorem first_layer_recovered bud ext hash d c p st (Hdepth : 0 < MAX_DEPTH bud)
  (Hrun : recover_run bud ext hash d = Finished st) (Hend : stack st = []) (Htot : total st <= MAX_TOTAL_BYTES bud)
  (Henc : encodable c p = true) (Hcand : encode_with c p ∈ _candidates d (MAX_BLOBS bud))
  (Hterm : _classify p = TERMINAL) (Hlen : (MIN_OUT_LEN <= len p)%nat) (Hne : p <> encode_with c p)
  (Hmask : ~ masked bud ext hash d (encode_with c p)) (Hmask' : ~ masked bud ext hash d p) :
  (exists r, r ∈ results st /\ data r = p) \/ p ∈ _candidates d (MAX_BLOBS bud) \/
  exists out ch, layer bud ext d out ch /\ _classify out = RECURSE /\ p ∈ _candidates out SUB_BLOB_CAP.
Proof.
  destruct (run_covers bud ext hash d st Hdepth Hrun Hend Htot) as [Hc Hcov].
  destruct (examined_itself _ _ _ _ _ _ Hmask (Hcov _ (Hc _ Hcand))) as (ch & _ & Hh).
  assert (exists name, decodes bud ext (encode_with c p) name p) as [name Hd].
  { pose proof (decode_encode c p Henc) as E. unfold decodes, _decoders_for.
    exists match c with B64 => "b64" | B64URL => "b64url" | B32 => "b32" | HEX => "hex" | XESC => "xesc" | CHARCODE => "charcode" | A85 _ => "a85" | URI => "uri" end.
    exists (fun b => Some (decode_with c b)). split; [|by rewrite E].
    apply elem_of_app. right. unfold TEXT_DECODERS, text_decoder. cbn [app map fst snd]. destruct c; cbn [decode_with]; rewrite !elem_of_cons; tauto. }
  destruct (covered_end _ _ _ _ _ _ _ _ Hend Hh Hd) as [Hv|[Ht _]]; [right|left; by apply Ht].
  destruct (examined_itself _ _ _ _ _ _ Hmask' (Hcov _ Hv)) as (ch' & Hr & _). inversion Hr; subst; [by left|congruence|right; eauto].
Qed.

(** What a finished run leaves out: when the stack was emptied within the byte budget,
    every candidate of the text was looked at, or a text with its fingerprint was; and every
    fingerprint the run keeps is that of a node of which each
    decoder's layer was itself looked at, or reported if it is a payload, or, if it is
    worth another pass and the node did not stand on the last level, looked at with its
    candidates.  So only layers below the level a node was first met at are missed, and
    nodes with the fingerprint of another. *)
Theorem recover_covers bud ext hash d st (Hdepth : 0 < MAX_DEPTH bud)
  (Hrun : recover_run bud ext hash d = Finished st) (Hend : stack st = []) (Htot : total st <= MAX_TOTAL_BYTES bud) :
  (forall blob, blob ∈ _candidates d (MAX_BLOBS bud) -> hash blob ∈ seen st) /\
  forall fp, fp ∈ seen st -> exists b ch, hash b = fp /\ reach bud ext d b ch /\ Z.of_nat (List.length ch) < MAX_DEPTH bud /\ forall name out, decodes bud ext b name out ->
    hash out ∈ seen st \/
    ((_classify out = TERMINAL -> exists r, r ∈ results st /\ data r = out) /\
     (_classify out = RECURSE -> Z.of_nat (S (List.length ch)) < MAX_DEPTH bud ->
        hash out ∈ seen st /\ forall sub, sub ∈ _candidates out SUB_BLOB_CAP -> hash sub ∈ seen st)).
Proof.
  destruct (run_covers bud ext hash d st Hdepth Hrun Hend Htot) as [Hc Hcov]. split; [exact Hc|].
  intros fp Hfp. destruct (Hcov fp Hfp) as (b & ch & H1 & H2 & H3 & Hh). exists b, ch. split_and!; [done..|]. intros name out Hd. exact (covered_end _ _ _ _ _ _ _ _ Hend Hh Hd).
Qed.

(** A decompression bomb stays small: with decompressors that respect their length
    limit and a positive layer cap, one decoder's output is no longer than the cap or four
    times its input, whichever is larger. *)
Theorem decoder_output_bounded bud ext cur name out (Hext : respects_max_length ext) (Hcap : 0 < MAX_LAYER_BYTES bud)
  (Hstep : decodes bud ext cur name out) : Z.of_nat (len out) <= Z.max (MAX_LAYER_BYTES bud) (4 * Z.of_nat (len cur)).
Proof. by eapply step_bound. Qed.

(** ** Concrete runs *)

Definition default_budgets : Budgets := budgets_of (fun _ => None).
(** No compressed data; a gzip member whose content is repeated [a]s, cut at the limit. *)
Definition no_ext : decompressors := mkDecompressors (fun _ _ _ => None) (fun _ _ => None) (fun _ _ => None).
Definition bomb_ext : decompressors :=
  mkDecompressors (fun _ m b => if applies_gzip b then Some (if m <=? 0 then rep 100 "a" else str_take (Z.to_nat m) (rep 100 "a"), "") else None)
    (fun _ _ => None) (fun _ _ => None).

(** A fingerprint without collisions. *)
Definition polynomial (s : string) : Z := undigits 256 (1 :: codes s).

Lemma codes_inj a b : codes a = codes b -> a = b.
Proof. intros E. by rewrite <- (str_of_codes a), <- (str_of_codes b), E. Qed.

Lemma polynomial_inj a b : polynomial a = polynomial b -> a = b.
Proof.
  assert (forall s, polynomial s = 256 ^ Z.of_nat (List.length (codes s)) + undigits 256 (codes s)) as Hp.
  { intros s. unfold polynomial. change (1 :: codes s) with ([1] ++ codes s)%list. rewrite undigits_app. change (undigits 256 [1]) with 1. lia. }
  rewrite !Hp. intros E. apply codes_inj. pose proof (undigits_range 256 _ ltac:(lia) (codes_range a)) as Ha. pose proof (undigits_range 256 _ ltac:(lia) (codes_range b)) as Hb.
  assert (List.length (codes a) = List.length (codes b)) as El.
  { destruct (Nat.lt_trichotomy (List.length (codes a)) (List.length (codes b))) as [Hlt|[He|Hlt]]; [|done|]; exfalso.
    - pose proof (Z.pow_le_mono_r 256 (Z.of_nat (S (List.length (codes a)))) (Z.of_nat (List.length (codes b))) ltac:(lia) ltac:(lia)) as H. rewrite Nat2Z.inj_succ, Z.pow_succ_r in H by lia. lia.
    - pose proof (Z.pow_le_mono_r 256 (Z.of_nat (S (List.length (codes b)))) (Z.of_nat (List.length (codes a))) ltac:(lia) ltac:(lia)) as H. rewrite Nat2Z.inj_succ, Z.pow_succ_r in H by lia. lia. }
  rewrite <- (digits_undigits 256 (codes a)), <- (digits_undigits 256 (codes b)) by (apply codes_range || lia). rewrite El in *. f_equal. lia.
Qed.

Definition ex_payload : string := "eval(compile(x,y,z))".
Definition ex_text : string := "var s = " +:+ hexlify ex_payload +:+ ";".
Definition ex_run (d : string) : state := match recover_run default_budgets no_ext polynomial d with Finished st => st | _ => initial default_budgets "" end.

Lemma recover_terminates_witness : exists st, recover_run default_budgets no_ext polynomial ex_text = Finished st /\ Z.of_nat (size (seen st)) <= 2000.
Proof.
  destruct (recover_terminates default_budgets no_ext polynomial ex_text) as (st & H & _ & _ & Hs & _); [by vm_compute|].
  exists st. split; [exact H|]. etransitivity; [exact Hs|]. by vm_compute.
Defined.

Lemma recover_sound_witness : layer default_budgets no_ext ex_text ex_payload ["hex"] /\ _classify ex_payload = TERMINAL.
Proof.
  destruct (recover_sound default_budgets no_ext polynomial ex_text [mkDecoded ex_payload ["hex"]]) with (r := mkDecoded ex_payload ["hex"]) as (H1 & H2 & _);
    [by vm_compute|set_solver|by split].
Defined.

Lemma polynomial_masks_nothing bud ext d x : ~ masked bud ext polynomial d x.
Proof. intros (b & ch & _ & Hne & He). by apply Hne, polynomial_inj. Qed.

Lemma first_layer_recovered_witness : (exists r, r ∈ results (ex_run ex_text) /\ data r = ex_payload) \/ ex_payload ∈ _candidates ex_text 400 \/
  exists out ch, layer default_budgets no_ext ex_text out ch /\ _classify out = RECURSE /\ ex_payload ∈ _candidates out SUB_BLOB_CAP.
Proof.
  apply (first_layer_recovered default_budgets no_ext polynomial ex_text HEX ex_payload (ex_run ex_text)); [by vm_compute..| | | | | |];
    [apply (bool_decide_unpack _); by vm_compute|by vm_compute|vm_compute; lia|by vm_compute|apply polynomial_masks_nothing..].
Defined.

Lemma recover_covers_witness : polynomial (hexlify ex_payload) ∈ seen (ex_run ex_text).
Proof.
  apply (recover_covers default_budgets no_ext polynomial ex_text); [by vm_compute..|].
  apply (bool_decide_unpack _). by vm_compute.
Defined.

(** A fingerprint shared with the text before it hides a payload. *)
Example collision_hides : map data (results (match recover_run default_budgets no_ext (fun _ => 0) (hexlify "nothing to see in here at all" +:+ " " +:+ ex_text) with
  Finished st => st | _ => initial default_budgets "" end)) = [] /\ map data (results (ex_run (hexlify "nothing to see in here at all" +:+ " " +:+ ex_text))) = [ex_payload].
Proof. by vm_compute. Qed.

Lemma bomb_respects : respects_max_length bomb_ext.
Proof.
  split; [|done|done]. cbn [bomb_ext zlib_decompress]. intros _ m b out tail Hm. destruct (applies_gzip b); [|done].
  rewrite (proj2 (Z.leb_gt _ _)) by lia. intros [= <- <-]. etransitivity; [apply inj_le, len_take_le|]. lia.
Qed.

Definition ex_gzip : string := str_of [0x1f; 0x8b; 0x08] +:+ "....".
Definition small_cap : Budgets := mkBudgets 6 1000 30 2000 400.
Lemma decoder_output_bounded_witness : Z.of_nat (len (rep 30 "a")) <= 30.
Proof.
  apply (decoder_output_bounded small_cap bomb_ext ex_gzip "gzip" (rep 30 "a") bomb_respects); [done|].
  exists (_gzip_zlib small_cap bomb_ext). split.
  { apply elem_of_app. left. apply list_elem_of_fmap. exists ("gzip", applies_gzip, _gzip_zlib small_cap bomb_ext).
    split; [reflexivity|]. apply bfilter_in. split; [left|by vm_compute]. }
  split; [by vm_compute|]. split; [vm_compute; lia|by vm_compute].
Defined.

(** Two layers, hexadecimal over base64, and a rotated script under base64. *)
Definition chains (d : string) : option (list (list string)) := map chain <$> recover default_budgets no_ext polynomial d.
Example two_layers : recover default_budgets no_ext polynomial ("x('" +:+ hexlify (b64encode "eval(compile(x))+1") +:+ "')") =
  Some [mkDecoded "eval(compile(x))+1" ["hex"; "b64"]].
Proof. by vm_compute. Qed.

(** The comment on [_reverse] says that reversing twice is caught by the set of
    seen nodes.  It is not when the token ends in a pad: the candidate found in
    the reversed text has lost it, so its reversal is a new node, and a single
    layer of base64 is also reported under a chain of three steps. *)
Example reversed_twice : chains (b64encode ex_payload) = Some [["b64"]; ["reverse"; "reverse"; "b64"]].
Proof. by vm_compute. Qed.

(** That detour is taken first and marks the layers below it as seen at a
    greater depth.  Five plain layers of base64 are then lost, though the depth
    budget is six and the other budgets are hardly used. *)
Example five_layers_lost :
  chains (Nat.iter 4 b64encode ex_payload) = Some [["reverse"; "reverse"; "b64"; "b64"; "b64"; "b64"]] /\
  chains (Nat.iter 5 b64encode ex_payload) = Some [] /\ nodes (ex_run (Nat.iter 5 b64encode ex_payload)) = 18.
Proof. vm_compute. done. Qed.

(** The layer cap has no use at 0, which [zlib] reads as no limit, and a
    negative one raises out of [recover], which only catches [zlib.error]. *)
Example zero_cap_unbounded : _gzip_zlib (mkBudgets 6 1000 0 2000 400) bomb_ext ex_gzip = Some (Some (rep 100 "a")).
Proof. by vm_compute. Qed.
Example negative_cap_raises : recover (mkBudgets 6 1000 (-1) 2000 400) bomb_ext polynomial (b64encode (ex_gzip +:+ rep 20 "a")) = None.
Proof. by vm_compute. Qed.
