(* ===== verification/Iocs.v ===== *)
(** * Indicators of compromise ([src/pkgward/analyze/iocs.py])

    The scan of one file, [_scan_file], as the passes of the source in order over
    its findings and the set of keys already seen, and the walk [analyze_iocs].
    The decode engine is the model of DecodeEngine; its decompressors, its hash
    and the whitelist of the intel pack are arguments.  Messages keep their
    non-ASCII punctuation as UTF-8 bytes. *)
From stdpp Require Import gmap.
From S2P Require Import Prelude PyStr Text Codecs DecodeEngine Regex RegexSyntax Findings Tree.
From Stdlib Require Import Ascii String.

Open Scope string_scope.
Open Scope list_scope.
Open Scope Z_scope.

Definition CATEGORY : string := "iocs".

(** ** Patterns *)

Definition QUOTES : string := "['\" +:+ Q +:+ "]".

Definition _DECODED_EXEC_SINK : regex := compile bicase
  ("eval\s*\(|new\s+Function\s*\(|Function\s*\(\s*" +:+ QUOTES +:+ "|child_process|" +:+
   "\.exec(?:File|Sync)?\s*\(|\bspawn(?:Sync)?\s*\(|execSync|os\.system|" +:+
   "subprocess\.(?:Popen|call|run|check_output)").
Definition _FILE_EXEC_SINK : regex := compile bicase
  ("exec\.Command(?:Context)?\s*\(|syscall\.(?:Exec|ForkExec|StartProcess)\s*\(|" +:+
   "\bos/exec\b|child_process|\.exec(?:File|Sync)?\s*\(|\bspawn(?:Sync)?\s*\(|" +:+
   "execSync|os\.system|subprocess\.(?:Popen|call|run|check_output)|" +:+
   "CreateProcess|ShellExecute|WinExec").
Definition _URL_RE : regex := compile bplain ("https?://([^\s'\" +:+ Q +:+ "<>()]+)").
Definition _OCTET : string := "(?:25[0-5]|2[0-4][0-9]|1[0-9]{2}|[1-9]?[0-9])".
Definition _IPV4_RE : regex := compile bplain ("\b" +:+ _OCTET +:+ "(?:\." +:+ _OCTET +:+ "){3}\b").
Definition _ONION_RE : regex := compile bplain "\b[a-z2-7]{16,56}\.onion\b".
Definition _B64_RE : regex := compile bplain (QUOTES +:+ "([A-Za-z0-9+/]{160,}={0,2})" +:+ QUOTES).
Definition _PRIVATE_OR_LOCAL : regex := compile bplain
  ("^(?:127\.|10\.|192\.168\.|172\.(?:1[6-9]|2\d|3[01])\.|0\.|169\.254\.|255\.|" +:+ "169\.254\.|224\.|240\.|0\.)").
Definition _DOC_RANGE_RE : regex := compile bplain "^(?:192\.0\.2\.|198\.51\.100\.|203\.0\.113\.)".
Definition _PLACEHOLDER_IPS : list string := ["1.2.3.4"; "4.3.2.1"].
Definition _METADATA_IPS : list string := ["169.254.169.254"; "169.254.170.2"].
Definition _BENIGN_PUBLIC_IPS : list string :=
  ["8.8.8.8"; "8.8.4.4"; "1.1.1.1"; "1.0.0.1"; "9.9.9.9"; "149.112.112.112"; "208.67.222.222"; "208.67.220.220"; "4.2.2.1"; "4.2.2.2"].
Definition _PORT_AFTER_RE : regex := compile bplain "^:(\d{1,5})\b".
Definition _WEBRTC_URI_PREFIX_RE : regex := compile bicase "(?:turns?|stun):$".
Definition _WEBRTC_CONTEXT_RE : regex := compile bicase
  ("iceServers|RTCPeerConnection|RTCIceServer|createDataChannel|urls?\s*:\s*" +:+ QUOTES +:+ "turns?:").
Definition _WEBRTC_WINDOW : nat := 400.
Definition _TEMPLATE_URL_RE : regex := compile bplain
  "[{%$]|^\.{2,}$|^:$|^test(?:server|host|ing|bed|\.(?:com|org|net|local|example|invalid))?$".
Definition _JUNK_SUFFIX_RE : regex := compile bplain ("[`),;'\" +:+ Q +:+ "\]>]+$").
Definition _PLACEHOLDER_HOSTS : list string :=
  ["host"; "hostname"; "your-host"; "your_host"; "yourhost"; "server"; "ip"; "ipaddress"; "ip-address"; "address";
   "domain"; "yourdomain"; "example"; "host1"; "host2"; "myhost"].
Definition _PLACEHOLDER_DOMAINS : list string := ["example.com"; "example.org"; "example.net"; "example.edu"].

(** ** Benign addresses *)

(** [url.split("/", 1)[0].split(":", 1)[0].lower()]. *)
Definition host_part (url : string) : string := lower (before_first ":" (before_first "/" url)).

Definition _domain_of (url : string) : string :=
  let parts := split "." (host_part url) in
  if (2 <? List.length parts)%nat then join "." (skipn (List.length parts - 2) parts) else host_part url.

Section Benign.
(** [_benign_domains()]. *)
Variable benign : gset string.

Definition is_benign (h : string) : bool := bool_decide (h ∈ benign).

Definition _is_benign_url (url : string) : bool :=
  let cleaned := sub _JUNK_SUFFIX_RE "" url in
  let host := host_part cleaned in
  if is_benign host then true
  else if str_in host _PLACEHOLDER_HOSTS then true
  else if startswith host "localhost" || endswith host ".localhost" then true
  else if found _TEMPLATE_URL_RE host then true
  else if existsb (endswith host) [".test"; ".invalid"; ".localdomain"] then true
  else if contains "{" url || contains "${" url || contains "{{" url then true
  else
    let base := _domain_of cleaned in
    if str_in base _PLACEHOLDER_DOMAINS then true else is_benign base.

End Benign.

(** ** Kinds of file *)

Definition _TEXT_SUFFIXES : list string :=
  [".py"; ".cfg"; ".toml"; ".ini"; ".txt"; ".md"; ".rst"; ".json"; ".yml"; ".yaml";
   ".js"; ".ts"; ".mjs"; ".cjs"; ".jsx"; ".tsx"; ".rs"; ".go"; ".sh"; ".ps1"; ".bat"].
Definition _DOC_BASENAMES : list string :=
  ["readme"; "notice"; "license"; "licence"; "copying"; "copyright"; "changelog"; "changes"; "history"; "authors";
   "contributors"; "credits"; "thanks"; "security"; "support"; "code_of_conduct"; "code-of-conduct"; "governance";
   "maintainers"; "contributing"].
Definition _DOC_SUFFIXES : list string := [".md"; ".rst"].

Definition _is_doc_file (name : string) : bool :=
  let low := lower name in
  if existsb (endswith low) _DOC_SUFFIXES then true else existsb (startswith low) _DOC_BASENAMES.

Definition _TEST_BASENAME_RES : list regex :=
  [compile plain ".*_test\.go$"; compile plain "(^test_.*|.*_test)\.py$"; compile plain "^conftest\.py$";
   compile plain ".*\.(test|spec)\.[cm]?[jt]sx?$"].
Definition _TEST_DIR_PARTS : list string :=
  ["test"; "tests"; "testdata"; "testing"; "__tests__"; "__test__"; "fixtures"; "fixture"; "spec"; "specs"; "e2e"].

(** [parts]: the parts of the absolute path, the extraction directory included. *)
Definition _is_test_file (parts : list string) : bool :=
  let name := lower (List.last parts "") in
  if existsb (fun rx => found_at_start rx name) _TEST_BASENAME_RES then true
  else existsb (fun p => str_in (lower p) _TEST_DIR_PARTS) parts.

(** ** Out-of-band callbacks and abuse-prone hosting *)

Definition _OAST_DOMAINS : list string :=
  ["oastify.com"; "interact.sh"; "oast.fun"; "oast.site"; "oast.pro"; "oast.live"; "oast.online"; "oast.me";
   "burpcollaborator.net"; "dnslog.cn"; "requestcatcher.com"; "canarytokens.com"; "canarytokens.org"].
Definition _ABUSE_HOSTING : list string :=
  ["workers.dev"; "pages.dev"; "trycloudflare.com"; "r2.dev"; "ngrok.io"; "ngrok-free.app"; "ngrok.app"; "ngrok.dev";
   "deno.dev"; "val.run"; "glitch.me"; "repl.co"; "replit.dev"; "surge.sh"; "serveo.net"; "loca.lt"; "telebit.io"; "webhook.cool"].

(** [re.escape] of text without blanks. *)
Definition re_escape (s : string) : string :=
  each (fun c => if has_char c "()[]{}?*+-|^$\.&~#" then String BS (String c "") else String c "") s.
Definition _OAST_LITERAL_RE : regex := compile bicase ("\b(?:" +:+ join "|" (map re_escape _OAST_DOMAINS) +:+ ")\b").

(** The host of a full URL, as both tests below compute it. *)
Definition url_host (url : string) : string :=
  let u := lower url in
  let host := before_first "?" (before_first "/" (default u (after_sub "://" u))) in
  let host := before_first ":" (List.last (split "@" (before_first "#" host)) "") in
  rstrip_char "." (strip host).
Definition _is_oast_url (url : string) : bool := existsb (host_under (url_host url)) _OAST_DOMAINS.
Definition _is_abuse_hosting_url (url : string) : bool := existsb (host_under (url_host url)) _ABUSE_HOSTING.

(** ** One-layer decoding *)

Definition _B64_CAND_RE : regex := compile bplain "[A-Za-z0-9+/]{16,}={0,2}".
Definition _HEXSTR_RE : regex := compile bplain "(?:[0-9a-fA-F]{2}){12,}".
Definition _XESC_RE : regex := compile bplain "(?:\\x[0-9a-fA-F]{2}){4,}".
Definition _DECODE_BLOB_CAP : nat := 400.

(** [ok / len(b) >= 0.85]. *)
Definition _mostly_printable (b : string) : bool :=
  if (len b <? 6)%nat then false else 17 * Z.of_nat (len b) <=? 20 * count printable b.

(** The first [_DECODE_BLOB_CAP] candidates, decoded. *)
Definition decode_pass (rx : regex) (dec : string -> option string) (data : string) : list string :=
  bfilter _mostly_printable (omap (fun m => dec (group0 data m)) (firstn _DECODE_BLOB_CAP (finditer rx data))).
Definition _decode_blobs (data : string) : list string :=
  decode_pass _B64_CAND_RE _b64 data ++ decode_pass _XESC_RE _xesc data ++ decode_pass _HEXSTR_RE _hex data.

(** ** Text that addresses the triage model *)

Definition _LLM_SCHEMA_MIMIC_RES : list regex := [compile bicase "agrees_with_rules"].
Definition _LLM_OVERRIDE_RES : list regex :=
  let q := "[\" +:+ Q +:+ "']" in
  let which := "(?:previous|prior|above|preceding|earlier|system)" in
  [compile bicase (q +:+ "verdict" +:+ q +:+ "\s*:\s*" +:+ q +:+ "(?:benign|safe)");
   compile bicase ("ignore\s+(?:all\s+|the\s+|any\s+)*" +:+ which +:+ "\s+(?:instruction|prompt|message|rule)");
   compile bicase ("disregard\s+(?:all\s+|the\s+|any\s+)*" +:+ which +:+ "\b");
   compile bicase ("(?:mark|classify|label|treat|rate|consider|report)\s+(?:this|it|the\s+\w+)\s+(?:package\s+|code\s+|file\s+)?(?:as\s+)?" +:+
     "(?:safe|benign|clean|trusted|not\s+malicious|non-malicious|a\s+false\s+positive)")].

(** The first pattern of the list that is found, and what it matched. *)
Fixpoint first_found (rxs : list regex) (data : string) : option string :=
  match rxs with
  | [] => None
  | rx :: rxs' => match search rx data with Some m => Some (group0 data m) | None => first_found rxs' data end
  end.


Example iocs_patterns_compile : forallb compiled
  ([_DECODED_EXEC_SINK; _FILE_EXEC_SINK; _URL_RE; _IPV4_RE; _ONION_RE; _B64_RE; _PRIVATE_OR_LOCAL; _DOC_RANGE_RE; _PORT_AFTER_RE;
    _WEBRTC_URI_PREFIX_RE; _WEBRTC_CONTEXT_RE; _TEMPLATE_URL_RE; _JUNK_SUFFIX_RE; _OAST_LITERAL_RE; _B64_CAND_RE; _HEXSTR_RE; _XESC_RE] ++
   _TEST_BASENAME_RES ++ _LLM_SCHEMA_MIMIC_RES ++ _LLM_OVERRIDE_RES) = true.
Proof. by vm_compute. Qed.

(** ** The scan of one file *)

(** The tuples of [seen]. *)
Inductive key :=
  | KUrl (u : string) | KMeta (ip : string) | KIpPort (ip : string) (port : Z) | KIp (ip : string) | KOnion (h : string)
  | KEncUrl (u : string) | KEncIp (ip : string) | KDecExe (chain head : string) | KDecCode (chain : string).
#[export] Instance key_eq_dec : EqDecision key.
Proof. solve_decision. Defined.

Record st := mkSt { out : list Finding; seen : list key }.
Definition push_finding (f : Finding) (s : st) : st := mkSt (out s ++ [f]) (seen s).
Definition mark_key (k : key) (s : st) : st := mkSt (out s) (k :: seen s).
Definition is_seen (k : key) (s : st) : bool := bool_decide (k ∈ seen s).
(** [if k in seen: continue; seen.add(k); out.append(f)]. *)
Definition once (k : key) (f : Finding) (s : st) : st := if is_seen k s then s else push_finding f (mark_key k s).

Section Scan.
Variables (benign : gset string) (bud : Budgets) (ext : decompressors) (hash : string -> Z).
(** The parts of the extraction directory, and [_DECODE_RECOVER_MAX_BYTES]. *)
Variables (root : list string) (RECOVER_MAX_BYTES : Z).

Section File.
Variables (name : string) (is_doc is_test : bool) (data : string).

Definition ioc (rule : string) (sev : severity) (conf : confidence) (ev : string) : Finding :=
  mkFinding rule CATEGORY sev conf name None ev.

(** The two passes over the patterns that address the model. *)
Definition llm_findings : list Finding :=
  (match first_found _LLM_SCHEMA_MIMIC_RES data with
   | Some t => [ioc "iocs.llm_prompt_injection" SHigh CHigh ("LLM triage output-schema mimicry in source: " +:+ str_take 160 t)]
   | None => []
   end) ++
  (match first_found _LLM_OVERRIDE_RES data with
   | Some t => [ioc "iocs.llm_injection_phrase" SMedium CLow
       ("LLM instruction-override phrase in source (informational; also appears in defensive injection-guard lists): " +:+ str_take 160 t)]
   | None => []
   end).

Definition url_step (s : st) (m : mtch) : st :=
  let url_body := group_or data 1 m in
  let full_url := group0 data m in
  let k := KUrl full_url in
  if is_seen k s then s
  else
    let s := mark_key k s in
    if is_doc || _is_benign_url benign url_body then s
    else if _is_oast_url full_url then push_finding (ioc "iocs.oast_callback" SHigh CHigh (str_take 200 full_url)) s
    else if _is_abuse_hosting_url full_url then
      push_finding (ioc "iocs.abuse_hosting_callback" SMedium CHigh
        ("callback to abuse-prone hosting/tunnel host: " +:+ str_take 160 full_url)) s
    else if is_test then s
    else push_finding (ioc "iocs.url_suspicious" SLow CLow (str_take 200 full_url)) s.

(** The text around the literal says it is a TURN or STUN server. *)
Definition webrtc_context (m : mtch) : bool :=
  found _WEBRTC_URI_PREFIX_RE (slice data (m_start m - 8) (m_start m)) ||
  found _WEBRTC_CONTEXT_RE (slice data (m_start m - _WEBRTC_WINDOW) (m_end m + _WEBRTC_WINDOW)).

(** The port that follows an address, if it makes the pair a beacon. *)
Definition beacon_port (ip : string) (m : mtch) : option Z :=
  let after := slice data (m_end m) (m_end m + 7) in
  match match_ _PORT_AFTER_RE after with
  | Some pm =>
      if str_in ip _BENIGN_PUBLIC_IPS then None
      else
        let port := int_of (group_or after 1 pm) in
        if (1 <=? port) && (port <=? 65535) then Some port else None
  | None => None
  end.

Definition ip_step (s : st) (m : mtch) : st :=
  if is_doc then s
  else
    let ip := group0 data m in
    if str_in ip _METADATA_IPS then
      once (KMeta ip) (ioc "iocs.cloud_metadata_endpoint" SMedium CHigh
        ("cloud metadata endpoint " +:+ ip +:+ " (SSRF / credential theft)")) s
    else if found_at_start _PRIVATE_OR_LOCAL ip then s
    else if found_at_start _DOC_RANGE_RE ip then s
    else if str_in ip _PLACEHOLDER_IPS then s
    else
      match beacon_port ip m with
      | Some port =>
          if webrtc_context m then s
          else
            once (KIpPort ip port) (ioc "iocs.hardcoded_wan_ip_port" (if is_test then SLow else SHigh) CMedium
              (ip +:+ ":" +:+ show port +:+ " — hardcoded routable IP + port (C2-beacon shape)" +:+
               (if is_test then " [test fixture]" else ""))) s
      | None =>
          if is_test then s else once (KIp ip) (ioc "iocs.ipv4" SLow CLow ip) s
      end.

Definition onion_step (s : st) (m : mtch) : st :=
  once (KOnion (group0 data m)) (ioc "iocs.onion" SHigh CHigh (group0 data m)) s.
Definition b64_step (s : st) (m : mtch) : st :=
  push_finding (ioc "iocs.base64_blob" SMedium CLow (str_take 64 (group_or data 1 m) +:+ "...")) s.

(** A URL inside decoded bytes [dec]; [how] introduces it. *)
Definition enc_url_step (how dec : string) (s : st) (m : mtch) : st :=
  let url_body := group_or dec 1 m in
  let full := group0 dec m in
  if negb (has_char "." (before_first "/" url_body)) || _is_benign_url benign url_body || _is_oast_url full then s
  else once (KEncUrl full) (ioc "iocs.encoded_url" SMedium CMedium (how +:+ str_take 160 full)) s.

Definition enc_ip_step (dec : string) (s : st) (m : mtch) : st :=
  let ip := group0 dec m in
  let add why := once (KEncIp ip) (ioc "iocs.encoded_ip" SHigh CMedium ("decoded: " +:+ ip +:+ " (" +:+ why +:+ ")")) s in
  if str_in ip _METADATA_IPS then add "cloud metadata endpoint (SSRF / credential theft)"
  else if found_at_start _PRIVATE_OR_LOCAL ip || found_at_start _DOC_RANGE_RE ip || str_in ip _PLACEHOLDER_IPS || str_in ip _BENIGN_PUBLIC_IPS
  then s else add "routable IP".

Definition blob_step (s : st) (dec : string) : st :=
  fold_left (enc_ip_step dec) (finditer _IPV4_RE dec)
    (fold_left (enc_url_step "decoded: " dec) (finditer _URL_RE dec) s).

(** A layer the decode engine recovered. *)
Definition _chain_has_real_decode (chain : list string) : bool := existsb (fun c => negb (String.eqb c "reverse")) chain.

Definition executable_finding (chain : string) (d : string) : Finding :=
  let kind := if startswith d "#!/" then "shebang script" else "native executable" in
  let mk sev conf ev := ioc "iocs.decoded_executable" sev conf ev in
  match found _FILE_EXEC_SINK data, is_test with
  | true, false => mk SCritical CHigh ("source decodes a hidden " +:+ kind +:+ " via [" +:+ chain +:+ "] with an execution sink — dropper shape")
  | true, true => mk SHigh CMedium ("test file decodes a hidden " +:+ kind +:+ " via [" +:+ chain +:+ "] with an execution sink [test fixture]")
  | false, true => mk SLow CLow ("embedded " +:+ kind +:+ " via [" +:+ chain +:+ "], no execution sink in file [test fixture]")
  | false, false => mk SMedium CMedium ("embedded " +:+ kind +:+ " via [" +:+ chain +:+ "], no execution sink in file")
  end.

Definition layer_step (s : st) (d : Decoded) : st :=
  let chain_text := join "->" (chain d) in
  if _is_executable (DecodeEngine.data d) && _chain_has_real_decode (chain d) then
    once (KDecExe chain_text (str_take 4 (DecodeEngine.data d))) (executable_finding chain_text (DecodeEngine.data d)) s
  else
    let s := fold_left (enc_url_step ("decoded [" +:+ chain_text +:+ "]: ") (DecodeEngine.data d)) (finditer _URL_RE (DecodeEngine.data d)) s in
    if _chain_has_real_decode (chain d) && found _DECODED_EXEC_SINK (DecodeEngine.data d) then
      once (KDecCode chain_text) (ioc "iocs.decoded_code" SHigh CMedium
        ("execution sink recovered through decode chain [" +:+ chain_text +:+ "]")) s
    else s.

(** [decode_engine.recover(data)]; an exception counts as no layers. *)
Definition layers : list Decoded :=
  if Z.of_nat (len data) <=? RECOVER_MAX_BYTES then default [] (recover bud ext hash data) else [].

Definition decode_passes (s : st) : st := fold_left layer_step layers (fold_left blob_step (_decode_blobs data) s).

(** The bare literal, where no full URL has fired. *)
Definition oast_fallback (s : st) : st :=
  if negb is_doc && negb (existsb (fun f => String.eqb (rule_id f) "iocs.oast_callback") (out s)) then
    match search _OAST_LITERAL_RE data with
    | Some m => push_finding (ioc "iocs.oast_callback" SHigh CHigh
        ("OOB-interaction callback domain in source (string-built): " +:+ str_take 80 (group0 data m))) s
    | None => s
    end
  else s.

Definition scan_bytes : list Finding :=
  let s := mkSt llm_findings [] in
  let s := fold_left url_step (finditer _URL_RE data) s in
  let s := fold_left ip_step (finditer _IPV4_RE data) s in
  let s := fold_left onion_step (finditer _ONION_RE data) s in
  let s := fold_left b64_step (finditer _B64_RE data) s in
  let s := if is_doc then s else decode_passes s in
  out (oast_fallback s).

End File.

Definition _scan_file (f : tree_file) (data : string) : list Finding :=
  scan_bytes (tf_name f) (_is_doc_file (tf_name f)) (_is_test_file (root ++ tf_parts f)) data.

Definition scanned_text (f : tree_file) : bool := str_in (suffix_lower f) _TEXT_SUFFIXES.
Definition analyze_iocs (changed : option (list string)) (tree : list tree_file) : list Finding :=
  each_file scanned_text changed _scan_file tree.

End Scan.

(** ** What the scan reports *)

Section Reports.
Context (benign : gset string) (name : string) (is_doc is_test : bool) (data : string).
Notation ioc := (ioc name).

(** The finding a key of [seen] stands for. *)
Definition stands_for (k : key) (f : Finding) : Prop :=
  match k with
  | KUrl _ => True
  | KMeta ip => f = ioc "iocs.cloud_metadata_endpoint" SMedium CHigh ("cloud metadata endpoint " +:+ ip +:+ " (SSRF / credential theft)")
  | KIpPort ip port => rule_id f = "iocs.hardcoded_wan_ip_port" /\ f_severity f = (if is_test then SLow else SHigh) /\
      exists tail, evidence f = ip +:+ ":" +:+ show port +:+ tail
  | KIp ip => f = ioc "iocs.ipv4" SLow CLow ip
  | KOnion h => f = ioc "iocs.onion" SHigh CHigh h
  | KEncUrl u => exists how, f = ioc "iocs.encoded_url" SMedium CMedium (how +:+ str_take 160 u)
  | KEncIp ip => exists why, f = ioc "iocs.encoded_ip" SHigh CMedium ("decoded: " +:+ ip +:+ " (" +:+ why +:+ ")")
  | KDecExe chain head => exists d, str_take 4 d = head /\ f = executable_finding name is_test data chain d
  | KDecCode chain => f = ioc "iocs.decoded_code" SHigh CMedium ("execution sink recovered through decode chain [" +:+ chain +:+ "]")
  end.

Definition told (k : key) (s : st) : Prop := exists f, f ∈ out s /\ stands_for k f.
(** Every key that is skipped has its finding, the keys of plain URLs apart. *)
Definition honest (s : st) : Prop := forall k, k ∈ seen s -> (exists u, k = KUrl u) \/ told k s.

Definition grows (s s' : st) : Prop := exists l, out s' = out s ++ l.
Lemma told_grows k s s' : grows s s' -> told k s -> told k s'.
Proof. intros [l Hl] (f & Hf & H). exists f. split; [rewrite Hl; set_solver|done]. Qed.

Lemma longer_refl s : grows s s.
Proof. exists []. by rewrite app_nil_r. Qed.
Lemma longer_trans s1 s2 s3 : grows s1 s2 -> grows s2 s3 -> grows s1 s3.
Proof. intros [l1 H1] [l2 H2]. exists (l1 ++ l2). by rewrite H2, H1, app_assoc. Qed.
Lemma push_grows f s : grows s (push_finding f s).
Proof. by exists [f]. Qed.
Lemma once_grows k f s : grows s (once k f s).
Proof. unfold once. destruct (is_seen k s); [apply longer_refl|by exists [f]]. Qed.

Lemma honest_push f s : honest s -> honest (push_finding f s).
Proof. intros H k Hk. destruct (H k Hk) as [?|Ht]; [by left|right]. eapply told_grows; [apply push_grows|done]. Qed.

Lemma honest_url u s : honest s -> honest (mark_key (KUrl u) s).
Proof. intros H k [->|Hk]%elem_of_cons; [left; eauto|]. destruct (H k Hk); [by left|by right]. Qed.

Lemma once_honest k f s : stands_for k f -> honest s -> honest (once k f s).
Proof.
  intros Hf H. unfold once. destruct (is_seen k s); [done|]. intros k' [->|Hk]%elem_of_cons.
  - right. exists f. split; [cbn; set_solver|done].
  - destruct (H k' Hk) as [?|(g & Hg & Hs)]; [by left|right]. exists g. split; [cbn; set_solver|done].
Qed.

Lemma once_told k f s : (forall u, k <> KUrl u) -> stands_for k f -> honest s -> told k (once k f s).
Proof.
  intros Hk Hf H. unfold once. destruct (is_seen k s) eqn:E.
  - apply bool_decide_eq_true in E. destruct (H k E) as [[u ->]|?]; [by destruct (Hk u)|done].
  - exists f. split; [cbn; set_solver|done].
Qed.

(** One turn of a pass: nothing is taken back, and the keys stay honest. *)
Definition fair (step : st -> st) : Prop := forall s, honest s -> honest (step s) /\ grows s (step s).

Lemma fair_id : fair (fun s => s).
Proof. intros s H. split; [done|apply longer_refl]. Qed.
Lemma fair_push f : fair (push_finding f).
Proof. intros s H. split; [by apply honest_push|apply push_grows]. Qed.
Lemma fair_once k f : stands_for k f -> fair (once k f).
Proof. intros Hf s H. split; [by apply once_honest|apply once_grows]. Qed.
Lemma fair_comp f g : fair f -> fair g -> fair (fun s => g (f s)).
Proof. intros Hf Hg s H. destruct (Hf s H) as [H1 H2]. destruct (Hg _ H1) as [H3 H4]. split; [done|by eapply longer_trans]. Qed.
Lemma fair_if (b : bool) f g : fair f -> fair g -> fair (fun s => if b then f s else g s).
Proof. by destruct b. Qed.
Lemma fair_fold {A} (step : st -> A -> st) l : (forall a, fair (fun s => step s a)) -> fair (fold_left step l).
Proof.
  intros H s Hs. apply (fold_inv (fun s' => honest s' /\ grows s s')); [|split; [done|apply longer_refl]].
  intros s' a _ [H1 H2]. destruct (H a s' H1) as [H3 H4]. split; [done|by eapply longer_trans].
Qed.

Lemma fair_url m : fair (fun s => url_step benign name is_doc is_test data s m).
Proof.
  intros s H. unfold url_step. destruct (is_seen _ s); [by apply fair_id|].
  set (s1 := mark_key _ s). assert (honest s1 /\ grows s s1) as [H1 H2] by (split; [by apply honest_url|by exists []; rewrite app_nil_r]).
  repeat case_match; (split; [try apply honest_push; done|eapply longer_trans; [exact H2|try apply longer_refl; apply push_grows]]).
Qed.

Lemma fair_ip m : fair (fun s => ip_step name is_doc is_test data s m).
Proof.
  unfold ip_step. apply fair_if; [apply fair_id|]. apply fair_if; [by apply fair_once|].
  do 3 (apply fair_if; [apply fair_id|]). destruct (beacon_port _ _ _) as [port|].
  - apply fair_if; [apply fair_id|]. apply fair_once. split_and!; [done|done|]. eexists. cbn [evidence Iocs.ioc]. reflexivity.
  - apply fair_if; [apply fair_id|]. by apply fair_once.
Qed.

Lemma fair_enc_url how dec m : fair (fun s => enc_url_step benign name how dec s m).
Proof. unfold enc_url_step. apply fair_if; [apply fair_id|]. apply fair_once. by exists how. Qed.

Lemma fair_enc_ip dec m : fair (fun s => enc_ip_step name dec s m).
Proof. unfold enc_ip_step. apply fair_if; [apply fair_once; by eexists|]. apply fair_if; [apply fair_id|]. apply fair_once. by eexists. Qed.

Lemma fair_blob dec : fair (fun s => blob_step benign name s dec).
Proof.
  unfold blob_step. apply (fair_comp (fold_left (enc_url_step benign name _ _) _) (fold_left (enc_ip_step name _) _)); apply fair_fold; intros; [apply fair_enc_url|apply fair_enc_ip].
Qed.

Lemma fair_layer d : fair (fun s => layer_step benign name is_test data s d).
Proof.
  unfold layer_step. apply fair_if; [apply fair_once; by eexists|].
  refine (fair_comp (fold_left (enc_url_step benign name _ _) (finditer _URL_RE _)) (fun s => if (_ : bool) then once _ _ s else s) _ _).
  - apply fair_fold. intros. apply fair_enc_url.
  - apply fair_if; [by apply fair_once|apply fair_id].
Qed.

Context (bud : Budgets) (ext : decompressors) (hash : string -> Z) (RECOVER_MAX_BYTES : Z).

Lemma fair_decode : fair (decode_passes benign bud ext hash RECOVER_MAX_BYTES name is_test data).
Proof. apply (fair_comp (fold_left (blob_step benign name) _) (fold_left (layer_step benign name is_test data) _)); apply fair_fold; intros; [apply fair_blob|apply fair_layer]. Qed.

Lemma fair_fallback : fair (oast_fallback name is_doc data).
Proof. intros s H. unfold oast_fallback. repeat case_match; solve [by apply fair_push|by apply fair_id]. Qed.

(** The state when the decoding passes begin. *)
Definition raw_state : st :=
  fold_left (b64_step name data) (finditer _B64_RE data)
    (fold_left (onion_step name data) (finditer _ONION_RE data)
      (fold_left (ip_step name is_doc is_test data) (finditer _IPV4_RE data)
        (fold_left (url_step benign name is_doc is_test data) (finditer _URL_RE data) (mkSt (llm_findings name data) [])))).

Lemma raw_honest : honest raw_state.
Proof.
  assert (honest (mkSt (llm_findings name data) [])) as H0 by (intros k Hk; by apply elem_of_nil in Hk).
  unfold raw_state. apply fair_fold; [intros; apply fair_push|]. apply fair_fold; [intros; by apply fair_once|].
  apply fair_fold; [intros; apply fair_ip|]. apply fair_fold; [intros; apply fair_url|done].
Qed.

Lemma scan_bytes_eq : scan_bytes benign bud ext hash RECOVER_MAX_BYTES name is_doc is_test data =
  out (oast_fallback name is_doc data (if is_doc then raw_state else decode_passes benign bud ext hash RECOVER_MAX_BYTES name is_test data raw_state)).
Proof. reflexivity. Qed.

(** What a fair step reaches in a pass survives to its end. *)
Lemma fold_told {A} (step : st -> A -> st) l x k s : (forall a, fair (fun s => step s a)) -> x ∈ l ->
  (forall s, honest s -> told k (step s x)) -> honest s -> told k (fold_left step l s).
Proof.
  intros Hf Hx Hk Hs. apply (fold_reaches honest (told k) step l x); [done|intros; by apply Hf| |done|done].
  intros s' a Hs' Ht. eapply told_grows; [by apply Hf|done].
Qed.

Lemma told_in_scan k : is_doc = false -> told k (decode_passes benign bud ext hash RECOVER_MAX_BYTES name is_test data raw_state) ->
  exists f, f ∈ scan_bytes benign bud ext hash RECOVER_MAX_BYTES name is_doc is_test data /\ stands_for k f.
Proof.
  intros Hdoc H. rewrite scan_bytes_eq. replace (if is_doc then _ else _) with (decode_passes benign bud ext hash RECOVER_MAX_BYTES name is_test data raw_state) by by rewrite Hdoc.
  eapply told_grows; [|exact H]. apply fair_fallback, fair_decode, raw_honest.
Qed.

Lemma blob_told dec k : dec ∈ _decode_blobs data -> (forall s, honest s -> told k (blob_step benign name s dec)) ->
  told k (decode_passes benign bud ext hash RECOVER_MAX_BYTES name is_test data raw_state).
Proof.
  intros Hd Hk. unfold decode_passes. eapply told_grows; [apply fair_fold; [intros; apply fair_layer|]|].
  - apply fair_fold; [intros; apply fair_blob|apply raw_honest].
  - eapply fold_told; [intros; apply fair_blob|exact Hd|exact Hk|apply raw_honest].
Qed.

Lemma layer_told d k : d ∈ layers bud ext hash RECOVER_MAX_BYTES data -> (forall s, honest s -> told k (layer_step benign name is_test data s d)) ->
  told k (decode_passes benign bud ext hash RECOVER_MAX_BYTES name is_test data raw_state).
Proof.
  intros Hd Hk. unfold decode_passes. eapply fold_told; [intros; apply fair_layer|exact Hd|exact Hk|].
  apply fair_fold; [intros; apply fair_blob|apply raw_honest].
Qed.

End Reports.

(** ** Base64 text as the candidate pattern sees it *)

Definition B64_ITEMS : list item := [Rng 65 90; Rng 97 122; Rng 48 57; Rng 43 43; Rng 47 47].
Lemma b64_cand_body : _B64_CAND_RE = mkRegex bplain (token_body B64_ITEMS 16).
Proof. reflexivity. Qed.

(** A character base64 text may hold. *)
Definition b64_text (c : ascii) : bool := b64_class c || Ascii.eqb c PAD.

Lemma b64_text_code c : b64_text c = in_set bplain false B64_ITEMS (code c) || (code c =? PADC).
Proof.
  rewrite <- (chr_code c) at 1. pose proof (code_range c) as Hc. revert Hc. generalize (code c) as n. intros n Hn.
  apply eqb_prop. revert n Hn. by apply byte_fact; vm_compute.
Qed.

Lemma b64_class_char n : 0 <= n < 64 -> in_set bplain false B64_ITEMS (code (b64_char n)) = true.
Proof.
  intros Hn. assert (forallb (fun n => (64 <=? n) || in_set bplain false B64_ITEMS (code (b64_char n))) all_bytes = true) as E by by vm_compute.
  assert (0 <= n < 256) as Hn' by lia. apply (byte_fact _ E) in Hn'. apply orb_true_iff in Hn' as [?%Z.leb_le|?]; [lia|done].
Qed.

Lemma b64_shape p : exists w k, codes_of (b64encode p) = w ++ repeat PADC k /\ (k <= 2)%nat /\
  Forall (fun x => in_set bplain false B64_ITEMS x = true) w.
Proof.
  induction p as [|a|a b|a b c p (w & k & IH & Hk & Hw)] using string_ind3.
  - exists [], O. by split_and!; [|lia|].
  - eexists [_; _], 2%nat. split_and!; [reflexivity|lia|].
    pose proof (code_range a). repeat constructor; apply b64_class_char; Z.div_mod_to_equations; lia.
  - eexists [_; _; _], 1%nat. split_and!; [reflexivity|lia|].
    pose proof (code_range a). pose proof (code_range b). repeat constructor; apply b64_class_char; Z.div_mod_to_equations; lia.
  - pose proof (code_range a). pose proof (code_range b). pose proof (code_range c).
    cbn [b64encode]. unfold codes_of in *. cbn [list_ascii_of_string map]. rewrite IH. eexists (_ :: _ :: _ :: _ :: w), k.
    split_and!; [reflexivity|done|]. repeat constructor; [..|done]; apply b64_class_char; Z.div_mod_to_equations; lia.
Qed.

Lemma slice_mid a b c : slice (a +:+ b +:+ c) (len a) (len a + len b) = b.
Proof.
  unfold slice. rewrite str_drop_app. replace (len a + len b - len a)%nat with (len b) by lia.
  induction b as [|x b IH]; [by destruct c|]. rewrite append_cons. unfold len in *. cbn [String.length str_take]. by rewrite IH.
Qed.

(** A delimited base64 text of at least 18 characters is one of the decoded
    blobs, if there are not too many candidates and it decodes to text. *)
Lemma b64_blob_decoded pre c p d post :
  let data := pre +:+ String c (b64encode p +:+ String d post) in
  b64_text c = false -> b64_text d = false -> (18 <= len (b64encode p))%nat ->
  (List.length (finditer _B64_CAND_RE data) <= _DECODE_BLOB_CAP)%nat -> _mostly_printable p = true ->
  p ∈ _decode_blobs data.
Proof.
  intros data Hc Hd Hlen Hcap Hp. destruct (b64_shape p) as (w & k & Hs & Hk & Hw).
  assert (data = (pre +:+ String c "") +:+ b64encode p +:+ String d post) as Hdata by (unfold data; by rewrite str_app_assoc).
  assert (codes_of data = codes_of (pre +:+ String c "") ++ (w ++ repeat PADC k) ++ codes_of (String d post)) as Hcodes.
  { by rewrite Hdata, !codes_app, Hs. }
  rewrite b64_text_code in Hc, Hd. apply orb_false_iff in Hc as [Hc1 Hc2%Z.eqb_neq], Hd as [Hd1 Hd2%Z.eqb_neq].
  assert (16 <= List.length w)%nat as Hwl.
  { apply (f_equal (@List.length Z)) in Hs. rewrite codes_length, length_app, repeat_length in Hs. lia. }
  pose proof (token_reported bplain B64_ITEMS 16 ltac:(done) (codes_of (pre +:+ String c "")) w (codes_of (String d post)) k
    Hw Hwl ltac:(lia) Hk ltac:(rewrite codes_app; change (codes_of (String c EmptyString)) with [code c]; rewrite last_snoc; done) ltac:(done) data Hcodes) as Hm.
  rewrite <- Hs, !codes_length in Hm.
  unfold _decode_blobs, decode_pass. apply elem_of_app. left. apply bfilter_in. split; [|done].
  apply list_elem_of_omap. eexists. split.
  - rewrite firstn_all2 by done. rewrite b64_cand_body. exact Hm.
  - unfold group0. cbn [m_start m_end]. rewrite Hdata, slice_mid. apply b64_roundtrip.
Qed.

(** ** Properties *)

(** C31. What one layer of base64 conceals is found, within the limits of the decoding pass.  The file is not
    documentation; its base64 text has at least 18 characters, stands between characters
    foreign to it, decodes to mostly printable bytes, and the file holds at most 400 candidates.  Then every URL in
    the decoded bytes with a dotted host that is neither benign nor an out-of-band callback is reported, and so is every
    address that is a cloud metadata endpoint, or is not private, reserved for documentation, a placeholder or a
    well-known public resolver.  An out-of-band callback concealed this way is left to the raw pass,
    which does not see it ([hidden_callback_silent]). *)
Theorem concealed_indicator_reported benign bud ext hash maxb name is_test pre c p d post
  (data := pre +:+ String c (b64encode p +:+ String d post))
  (Hc : b64_text c = false) (Hd : b64_text d = false) (Hlen : (18 <= len (b64encode p))%nat)
  (Hcap : (List.length (finditer _B64_CAND_RE data) <= _DECODE_BLOB_CAP)%nat) (Hp : _mostly_printable p = true) :
  let fs := scan_bytes benign bud ext hash maxb name false is_test data in
  (forall m, m ∈ finditer _URL_RE p -> has_char "." (before_first "/" (group_or p 1 m)) = true ->
     _is_benign_url benign (group_or p 1 m) = false -> _is_oast_url (group0 p m) = false ->
     exists f how, f ∈ fs /\ rule_id f = "iocs.encoded_url" /\ evidence f = how +:+ str_take 160 (group0 p m)) /\
  (forall m, m ∈ finditer _IPV4_RE p ->
     str_in (group0 p m) _METADATA_IPS = true \/
       found_at_start _PRIVATE_OR_LOCAL (group0 p m) || found_at_start _DOC_RANGE_RE (group0 p m) ||
       str_in (group0 p m) _PLACEHOLDER_IPS || str_in (group0 p m) _BENIGN_PUBLIC_IPS = false ->
     exists f why, f ∈ fs /\ rule_id f = "iocs.encoded_ip" /\ f_severity f = SHigh /\
       evidence f = "decoded: " +:+ group0 p m +:+ " (" +:+ why +:+ ")").
Proof.
  pose proof (b64_blob_decoded pre c p d post Hc Hd Hlen Hcap Hp) as Hb. split.
  - intros m Hm H1 H2 H3.
    destruct (told_in_scan benign name false is_test data bud ext hash maxb (KEncUrl (group0 p m))) as (f & Hf & how & ->); [done| |by exists (ioc name "iocs.encoded_url" SMedium CMedium (how +:+ str_take 160 (group0 p m))), how].
    eapply blob_told; [exact Hb|]. intros s Hs. unfold blob_step.
    eapply told_grows; [apply (fair_fold name is_test data); [intros; apply fair_enc_ip|apply (fair_fold name is_test data); [intros; apply fair_enc_url|done]]|].
    apply fold_told with (x := m); [intros; apply fair_enc_url|done| |done]. intros s' Hs'. unfold enc_url_step. rewrite H1, H2, H3.
    cbn [negb orb]. apply once_told; [done|by eexists|done].
  - intros m Hm Hor.
    destruct (told_in_scan benign name false is_test data bud ext hash maxb (KEncIp (group0 p m))) as (f & Hf & why & ->); [done| |by eexists _, why].
    eapply blob_told; [exact Hb|]. intros s Hs. unfold blob_step.
    apply fold_told with (x := m); [intros; apply fair_enc_ip|done| |apply (fair_fold name is_test data); [intros; apply fair_enc_url|done]].
    intros s' Hs'. unfold enc_ip_step. destruct (str_in (group0 p m) _METADATA_IPS); [apply once_told; [done|by eexists|done]|].
    destruct Hor as [?|Hor]; [done|]. rewrite Hor. apply once_told; [done|by eexists|done].
Qed.

(** ** Where findings come from *)

Section Emitted.
Context (benign : gset string) (name : string) (is_doc is_test : bool) (data : string).
Context (bud : Budgets) (ext : decompressors) (hash : string -> Z) (RECOVER_MAX_BYTES : Z).
Notation ioc := (ioc name).
Notation found_layers := (layers bud ext hash RECOVER_MAX_BYTES data).

(** A layer that is a hidden executable. *)
Definition hidden_executable (d : Decoded) : bool := _is_executable (DecodeEngine.data d) && _chain_has_real_decode (chain d).
(** A URL of the text that calls back out of band. *)
Definition callback_url (m : mtch) : bool :=
  negb (_is_benign_url benign (group_or data 1 m)) && _is_oast_url (group0 data m).

(** Everything the scan can report. *)
Inductive emitted : Finding -> Prop :=
  | E_mimic t : emitted (ioc "iocs.llm_prompt_injection" SHigh CHigh t)
  | E_phrase t : emitted (ioc "iocs.llm_injection_phrase" SMedium CLow t)
  | E_callback m t : is_doc = false -> m ∈ finditer _URL_RE data -> callback_url m = true -> emitted (ioc "iocs.oast_callback" SHigh CHigh t)
  | E_literal t : is_doc = false -> found _OAST_LITERAL_RE data = true -> emitted (ioc "iocs.oast_callback" SHigh CHigh t)
  | E_abuse t : is_doc = false -> emitted (ioc "iocs.abuse_hosting_callback" SMedium CHigh t)
  | E_url t : is_doc = false -> is_test = false -> emitted (ioc "iocs.url_suspicious" SLow CLow t)
  | E_meta t : is_doc = false -> emitted (ioc "iocs.cloud_metadata_endpoint" SMedium CHigh t)
  | E_port t : is_doc = false -> emitted (ioc "iocs.hardcoded_wan_ip_port" (if is_test then SLow else SHigh) CMedium t)
  | E_ip t : is_doc = false -> is_test = false -> emitted (ioc "iocs.ipv4" SLow CLow t)
  | E_onion t : emitted (ioc "iocs.onion" SHigh CHigh t)
  | E_b64 t : emitted (ioc "iocs.base64_blob" SMedium CLow t)
  | E_enc_url t : is_doc = false -> emitted (ioc "iocs.encoded_url" SMedium CMedium t)
  | E_enc_ip t : is_doc = false -> emitted (ioc "iocs.encoded_ip" SHigh CMedium t)
  | E_exe ch d : is_doc = false -> d ∈ found_layers -> hidden_executable d = true -> emitted (executable_finding name is_test data ch (DecodeEngine.data d))
  | E_code t : is_doc = false -> emitted (ioc "iocs.decoded_code" SHigh CMedium t).
Hint Constructors emitted : core.

(** A turn that reports only that. *)
Definition lawful (step : st -> st) : Prop := forall s, Forall emitted (out s) -> Forall emitted (out (step s)).
Lemma lawful_push f : emitted f -> lawful (push_finding f).
Proof. intros Hf s H. apply Forall_app. split; [done|by constructor]. Qed.
Lemma lawful_once k f : emitted f -> lawful (once k f).
Proof. intros Hf s H. unfold once. destruct (is_seen k s); [done|]. by apply lawful_push. Qed.
Lemma lawful_fold {A} (step : st -> A -> st) l : (forall a, a ∈ l -> lawful (fun s => step s a)) -> lawful (fold_left step l).
Proof. intros H s Hs. apply fold_inv; [|done]. intros s' a Ha. by apply H. Qed.

Lemma lawful_url m : m ∈ finditer _URL_RE data -> lawful (fun s => url_step benign name is_doc is_test data s m).
Proof.
  intros Hm s Hs. unfold url_step. destruct (is_seen _ s); [done|]. set (s1 := mark_key _ s). assert (Forall emitted (out s1)) as H1 by done. clearbody s1.
  destruct is_doc eqn:Ed; [done|]. destruct (_is_benign_url benign (group_or data 1 m)) eqn:Eb; [done|]. cbn [orb].
  destruct (_is_oast_url (group0 data m)) eqn:Eo.
  - apply lawful_push; [|done]. apply (E_callback m); [done..|]. unfold callback_url. by rewrite Eb, Eo.
  - destruct (_is_abuse_hosting_url _); [by apply lawful_push; auto|]. destruct is_test eqn:Et; [done|]. apply lawful_push; auto.
Qed.

Lemma lawful_ip m : lawful (fun s => ip_step name is_doc is_test data s m).
Proof.
  intros s Hs. unfold ip_step. destruct is_doc eqn:Ed; [done|]. destruct (str_in _ _METADATA_IPS); [apply lawful_once; auto|].
  destruct (found_at_start _PRIVATE_OR_LOCAL _); [done|]. destruct (found_at_start _DOC_RANGE_RE _); [done|]. destruct (str_in _ _PLACEHOLDER_IPS); [done|].
  destruct (beacon_port _ _ _).
  - destruct (webrtc_context _ _); [done|]. apply lawful_once; auto.
  - destruct is_test eqn:Et; [done|]. apply lawful_once; auto.
Qed.

Lemma lawful_enc_url how dec m : is_doc = false -> lawful (fun s => enc_url_step benign name how dec s m).
Proof. intros Hd s Hs. unfold enc_url_step. case_match; [done|]. apply lawful_once; auto. Qed.
Lemma lawful_enc_ip dec m : is_doc = false -> lawful (fun s => enc_ip_step name dec s m).
Proof. intros Hd s Hs. unfold enc_ip_step. repeat case_match; try done; apply lawful_once; auto. Qed.
Lemma lawful_blob dec : is_doc = false -> lawful (fun s => blob_step benign name s dec).
Proof.
  intros Hd s Hs. unfold blob_step. apply lawful_fold; [intros; by apply lawful_enc_ip|]. apply lawful_fold; [intros; by apply lawful_enc_url|done].
Qed.
Lemma lawful_layer d : is_doc = false -> d ∈ found_layers -> lawful (fun s => layer_step benign name is_test data s d).
Proof.
  intros Hd Hl s Hs. unfold layer_step. destruct (_is_executable _ && _) eqn:Ex; [apply lawful_once; auto|].
  assert (Forall emitted (out (fold_left (enc_url_step benign name ("decoded [" +:+ join "->" (chain d) +:+ "]: ") (DecodeEngine.data d))
    (finditer _URL_RE (DecodeEngine.data d)) s))) as H1 by (apply lawful_fold; [intros; by apply lawful_enc_url|done]).
  case_match; [|done]. apply lawful_once; auto.
Qed.
Lemma lawful_decode : is_doc = false -> lawful (decode_passes benign bud ext hash RECOVER_MAX_BYTES name is_test data).
Proof.
  intros Hd s Hs. unfold decode_passes. apply lawful_fold; [intros; by apply lawful_layer|]. apply lawful_fold; [intros; by apply lawful_blob|done].
Qed.
Lemma lawful_fallback : lawful (oast_fallback name is_doc data).
Proof.
  intros s Hs. unfold oast_fallback. destruct is_doc eqn:Ed; [done|]. cbn [negb andb]. case_match; [|done].
  destruct (search _OAST_LITERAL_RE data) eqn:E; [|done]. apply lawful_push; [|done]. apply E_literal; [done|]. unfold found. by rewrite E.
Qed.

Lemma scan_emitted : Forall emitted (scan_bytes benign bud ext hash RECOVER_MAX_BYTES name is_doc is_test data).
Proof.
  rewrite scan_bytes_eq. apply lawful_fallback.
  assert (Forall emitted (out (raw_state benign name is_doc is_test data))) as H.
  { unfold raw_state. apply lawful_fold; [intros; apply lawful_push; auto|]. apply lawful_fold; [intros; apply lawful_once; auto|].
    apply lawful_fold; [intros; apply lawful_ip|]. apply lawful_fold; [intros; by apply lawful_url|].
    cbn [out]. unfold llm_findings. apply Forall_app. split; case_match; repeat constructor. }
  destruct is_doc eqn:Ed; [done|]. by apply lawful_decode.
Qed.

(** The severity of an embedded executable. *)
Definition executable_grade : severity * confidence :=
  match found _FILE_EXEC_SINK data, is_test with
  | true, false => (SCritical, CHigh) | true, true => (SHigh, CMedium) | false, true => (SLow, CLow) | false, false => (SMedium, CMedium)
  end.

Lemma executable_finding_grade ch d : let f := executable_finding name is_test data ch d in
  rule_id f = "iocs.decoded_executable" /\ (f_severity f, f_confidence f) = executable_grade /\ category f = CATEGORY /\ file f = name /\ line f = None.
Proof. unfold executable_finding, executable_grade. by destruct (found _FILE_EXEC_SINK data), is_test. Qed.

Lemma executable_told d : is_doc = false -> d ∈ found_layers -> hidden_executable d = true ->
  exists f, f ∈ scan_bytes benign bud ext hash RECOVER_MAX_BYTES name is_doc is_test data /\ rule_id f = "iocs.decoded_executable".
Proof.
  intros Hd Hl Hx. destruct (told_in_scan benign name is_doc is_test data bud ext hash RECOVER_MAX_BYTES
    (KDecExe (join "->" (chain d)) (str_take 4 (DecodeEngine.data d)))) as (f & Hf & d' & _ & ->); [done| |].
  - eapply layer_told; [exact Hl|]. intros s Hs. unfold layer_step. unfold hidden_executable in Hx. rewrite Hx. apply once_told; [done| |done].
    by eexists.
  - eexists. split; [exact Hf|]. apply executable_finding_grade.
Qed.

Lemma literal_told : is_doc = false -> found _OAST_LITERAL_RE data = true ->
  exists f, f ∈ scan_bytes benign bud ext hash RECOVER_MAX_BYTES name is_doc is_test data /\ rule_id f = "iocs.oast_callback".
Proof.
  intros Hd Hl. rewrite scan_bytes_eq. unfold oast_fallback. set (s := if is_doc then _ else _). destruct (existsb _ (out s)) eqn:Ex.
  - apply existsb_exists in Ex as (f & Hf & He%String.eqb_eq). rewrite andb_false_r. exists f. split; [by apply list_elem_of_In|done].
  - rewrite Hd. cbn [negb andb]. unfold found in Hl. destruct (search _OAST_LITERAL_RE data) as [m|]; [|done].
    eexists. split; [apply elem_of_app; right; by apply list_elem_of_singleton|done].
Qed.
End Emitted.

(** Hidden executables are reported exactly, and graded by what the file can do with
    them.  In a file that is not documentation there is a finding for an embedded executable
    if and only if the decode engine recovered a layer that starts like one under a chain
    with a real decoding step; the finding is critical when the file also has an execution sink
    and is no test file, high in a test file with a sink, medium without a sink and low in a test file without one. *)
Theorem hidden_executable_graded benign bud ext hash maxb name is_test data :
  let fs := scan_bytes benign bud ext hash maxb name false is_test data in
  ((exists f, f ∈ fs /\ rule_id f = "iocs.decoded_executable") <->
   (exists d, d ∈ layers bud ext hash maxb data /\ hidden_executable d = true)) /\
  (forall f, f ∈ fs -> rule_id f = "iocs.decoded_executable" ->
     (f_severity f, f_confidence f) =
       match found _FILE_EXEC_SINK data, is_test with
       | true, false => (SCritical, CHigh) | true, true => (SHigh, CMedium)
       | false, true => (SLow, CLow) | false, false => (SMedium, CMedium)
       end).
Proof.
  pose proof (scan_emitted benign name false is_test data bud ext hash maxb) as He. rewrite Forall_forall in He. split; [split|].
  - intros (f & Hf & Hr). destruct (He f Hf); try discriminate Hr. eauto.
  - intros (d & Hd & Hx). eapply executable_told; [done|exact Hd|done].
  - intros f Hf Hr. destruct (He f Hf) as [| | | | | | | | | | | | |ch d _ _ _|]; try discriminate Hr. apply executable_finding_grade.
Qed.

(** The file named in a package that mentions an out-of-band service is reported, however
    the callback is put together. *)
Theorem oob_domain_reported benign bud ext hash maxb name is_test data (Hl : found _OAST_LITERAL_RE data = true) :
  exists f, f ∈ scan_bytes benign bud ext hash maxb name false is_test data /\ rule_id f = "iocs.oast_callback".
Proof. by apply literal_told. Qed.

(** Which findings the walk can report: rule, severity and confidence. *)
Definition IOC_SIGNATURES : list (string * severity * confidence) :=
  [("iocs.llm_prompt_injection", SHigh, CHigh); ("iocs.llm_injection_phrase", SMedium, CLow); ("iocs.oast_callback", SHigh, CHigh);
   ("iocs.abuse_hosting_callback", SMedium, CHigh); ("iocs.url_suspicious", SLow, CLow); ("iocs.cloud_metadata_endpoint", SMedium, CHigh);
   ("iocs.hardcoded_wan_ip_port", SHigh, CMedium); ("iocs.hardcoded_wan_ip_port", SLow, CMedium); ("iocs.ipv4", SLow, CLow);
   ("iocs.onion", SHigh, CHigh); ("iocs.base64_blob", SMedium, CLow); ("iocs.encoded_url", SMedium, CMedium);
   ("iocs.encoded_ip", SHigh, CMedium); ("iocs.decoded_executable", SCritical, CHigh); ("iocs.decoded_executable", SHigh, CMedium);
   ("iocs.decoded_executable", SMedium, CMedium); ("iocs.decoded_executable", SLow, CLow); ("iocs.decoded_code", SHigh, CMedium)].

Lemma emitted_signature name is_doc is_test benign data bud ext hash maxb f :
  emitted benign name is_doc is_test data bud ext hash maxb f ->
  (rule_id f, f_severity f, f_confidence f) ∈ IOC_SIGNATURES /\ category f = CATEGORY /\ file f = name /\ line f = None.
Proof.
  intros H. destruct H; try (split_and!; [|done..]; unfold IOC_SIGNATURES; set_solver).
  - split_and!; [|done..]. destruct is_test; unfold IOC_SIGNATURES; set_solver.
  - destruct (executable_finding_grade name is_test data ch (DecodeEngine.data d)) as (Hr & Hg & Hc & Hn & Hl). rewrite Hr, Hc, Hn, Hl.
    split_and!; [|done..]. rewrite (surjective_pairing (executable_grade _ _)) in Hg. injection Hg as -> ->. unfold executable_grade. destruct (found _FILE_EXEC_SINK data), is_test; unfold IOC_SIGNATURES; set_solver.
Qed.

Lemma iocs_signature benign bud ext hash root maxb changed tree f : f ∈ analyze_iocs benign bud ext hash root maxb changed tree ->
  (rule_id f, f_severity f, f_confidence f) ∈ IOC_SIGNATURES /\ category f = CATEGORY.
Proof.
  intros (tf & data & _ & _ & _ & _ & Hf)%each_file_in. unfold _scan_file in Hf.
  pose proof (scan_emitted benign (tf_name tf) (_is_doc_file (tf_name tf)) (_is_test_file (root ++ tf_parts tf)) data bud ext hash maxb) as He.
  rewrite Forall_forall in He. by apply He, emitted_signature in Hf as (? & ? & _).
Qed.

(** ** Concrete files *)

Definition no_list : gset string := {["github.com"]}.
Definition ex_scan (name : string) (is_test : bool) (data : string) : list Finding :=
  scan_bytes no_list default_budgets no_ext polynomial 2097152 name (_is_doc_file name) is_test data.
Definition rules_of (fs : list Finding) : list (string * severity) := map (fun f => (rule_id f, f_severity f)) fs.

Definition ex_hidden : string := "get http://c2.bad.ru/x 45.9.8.7".
Lemma concealed_indicator_reported_witness :
  (exists f how, f ∈ ex_scan "a.js" false ("s='" +:+ b64encode ex_hidden +:+ "';") /\ rule_id f = "iocs.encoded_url" /\ evidence f = how +:+ "http://c2.bad.ru/x") /\
  (exists f, f ∈ ex_scan "a.js" false ("s='" +:+ b64encode ex_hidden +:+ "';") /\ rule_id f = "iocs.encoded_ip" /\ f_severity f = SHigh).
Proof.
  destruct (concealed_indicator_reported no_list default_budgets no_ext polynomial 2097152 "a.js" false "s=" "'" ex_hidden "'" ";") as [Hu Hi];
    [by vm_compute|by vm_compute|vm_compute; lia|vm_compute; lia|by vm_compute|]. split.
  - destruct (Hu (mkMatch 4 22 [(1%nat, (11%nat, 22%nat))])) as (f & how & H1 & H2 & H3);
      [apply (bool_decide_unpack _); by vm_compute|by vm_compute..|]. exists f, how. split_and!; [exact H1|exact H2|exact H3].
  - destruct (Hi (mkMatch 23 31 [])) as (f & why & H1 & H2 & H3 & _); [apply (bool_decide_unpack _); by vm_compute|right; by vm_compute|].
    exists f. split_and!; [exact H1|exact H2|exact H3].
Defined.

(** The comment on the decoding pass leaves out-of-band hosts to the raw pass, which sees the opaque
    text only: a callback in base64 is not reported at all. *)
Example hidden_callback_silent :
  ex_scan "a.js" false "s='http://abcd.oastify.com/x?y';" <> [] /\ ex_scan "a.js" false ("s='" +:+ b64encode "http://abcd.oastify.com/x?y" +:+ "';") = [] /\
  ex_scan "a.js" false ("s='" +:+ b64encode "http://abcd.bad-host.com/x?y" +:+ "';") <> [].
Proof. split_and!; by vm_compute. Qed.

#[export] Instance Decoded_eq_dec : EqDecision Decoded.
Proof. solve_decision. Defined.

Definition elf64 : string := str_of [127] +:+ "ELF" +:+ str_of [2; 1; 1; 0; 0; 0; 0; 0; 0; 0; 0; 0; 0; 0; 0; 0].
Lemma hidden_executable_graded_witness :
  exists f, f ∈ ex_scan "a.go" false ("b := '" +:+ b64encode elf64 +:+ "'; exec.Command(b)") /\ rule_id f = "iocs.decoded_executable" /\ f_severity f = SCritical.
Proof.
  destruct (hidden_executable_graded no_list default_budgets no_ext polynomial 2097152 "a.go" false ("b := '" +:+ b64encode elf64 +:+ "'; exec.Command(b)")) as [[_ H1] H2].
  destruct H1 as (f & Hf & Hr).
  { exists (mkDecoded elf64 ["b64"]). split; [apply (bool_decide_unpack _); by vm_compute|by vm_compute]. }
  exists f. split_and!; [exact Hf|exact Hr|]. specialize (H2 f Hf Hr). vm_compute in H2. by injection H2.
Defined.

(** What ordinary files give. *)
Example beacon_ex : rules_of (ex_scan "a.js" false "connect('45.9.8.7:8080'); x('turn:45.9.8.8:3478')") = [("iocs.hardcoded_wan_ip_port", SHigh)].
Proof. by vm_compute. Qed.
Example callbacks_ex : rules_of (ex_scan "a.js" false "get('http://' + d + '.oastify.com'); get('https://x.workers.dev/a')") =
  [("iocs.abuse_hosting_callback", SMedium); ("iocs.oast_callback", SHigh)].
Proof. by vm_compute. Qed.

(** The benign test takes the text before the first colon for the host, so a user
    part in front of an at sign decides: a callback to any host can be dressed as
    one to a whitelisted host.  [_is_oast_url] does look behind the at sign, but only after. *)
Example userinfo_hides_host :
  _is_benign_url no_list "github.com:x@evil.workers.dev/c2" = true /\ url_host "https://github.com:x@evil.workers.dev/c2" = "evil.workers.dev" /\
  ex_scan "a.js" false "get('https://github.com:x@evil.workers.dev/c2')" = [].
Proof. by vm_compute. Qed.

(** Any host that begins with [localhost] is benign, the prefix mistake the
    comment on [_TEMPLATE_URL_RE] reports as fixed for [test]. *)
Example localhost_prefix_benign : ex_scan "a.js" false "get('https://localhost.evil.ru/c2')" = [].
Proof. by vm_compute. Qed.
