(* ===== verification/PyAst.v ===== *)
(** * Python syntax trees ([ast])

    The nodes the analyzers look at, with their fields in the order of
    [_fields]; any other node is [Other] with its children.  The markers [Load],
    [Store] and the operators, which no analyzer tests for, are left out.
    [walk] is [ast.walk], breadth first; [call_name] is the helper that
    ecosystems/pypi/installer.py and analyze/imports.py both define. *)
From S2P Require Import Prelude PyStr Text.
From Stdlib Require Import Ascii String.

Open Scope string_scope.
Open Scope list_scope.
Open Scope Z_scope.

Inductive const := CStr (s : string) | CBool (b : bool) | COther.
Record alias := mkAlias { al_name : string; al_asname : option string }.

Inductive node :=
  | Name (id : string)
  | Attribute (value : node) (attr : string)
  | Call (func : node) (args keywords : list node) (lineno : Z)
  | Keyword (arg : option string) (value : node)
  | Constant (c : const)
  | Seq (elts : list node) (* List and Tuple *)
  | Assign (targets : list node) (value : node)
  | AnnAssign (target annotation : node) (value : option node)
  | AugAssign (target value : node)
  | Import (names : list alias)
  | ImportFrom (module : option string) (names : list alias)
  | Deferred (children : list node) (* FunctionDef, AsyncFunctionDef, ClassDef, Lambda *)
  | Other (children : list node).

(** A module: its statements. *)
Record module_ := mkModule { body : list node }.

(** [iter_child_nodes]. *)
Definition children (n : node) : list node :=
  match n with
  | Name _ | Constant _ | Import _ | ImportFrom _ _ => []
  | Attribute v _ => [v]
  | Call f args kws _ => f :: args ++ kws
  | Keyword _ v => [v]
  | Seq l => l
  | Assign ts v => ts ++ [v]
  | AnnAssign t a v => t :: a :: match v with Some v => [v] | None => [] end
  | AugAssign t v => [t; v]
  | Deferred l | Other l => l
  end.

Fixpoint size (n : node) : nat :=
  let sizes := fix sizes l := match l with [] => O | x :: l' => (size x + sizes l')%nat end in
  S (match n with
     | Name _ | Constant _ | Import _ | ImportFrom _ _ => O
     | Attribute v _ => size v
     | Call f args kws _ => size f + (sizes args + sizes kws)
     | Keyword _ v => size v
     | Seq l => sizes l
     | Assign ts v => sizes ts + size v
     | AnnAssign t a v => size t + (size a + match v with Some v => size v | None => O end)
     | AugAssign t v => size t + size v
     | Deferred l | Other l => sizes l
     end)%nat.
Definition sizes (l : list node) : nat := list_sum (map size l).

(** [ast.walk]: a queue, first in first out. *)
Fixpoint walk_from (fuel : nat) (todo : list node) : list node :=
  match fuel, todo with
  | S fuel', n :: todo' => n :: walk_from fuel' (todo' ++ children n)
  | _, _ => []
  end.
Definition walk (n : node) : list node := walk_from (size n) [n].
(** Walking a module: the module node itself matches no test. *)
Definition walk_module (t : module_) : list node := walk_from (sizes (body t)) (body t).
(** [for stmt in tree.body: for node in ast.walk(stmt)]. *)
Definition walk_stmts (t : module_) : list node := flat_map walk (body t).

(** The dotted name of the called function, from its last part backwards. *)
Fixpoint dotted (func : node) : list string :=
  match func with
  | Attribute v attr => dotted v ++ [attr]
  | Name id => [id]
  | _ => []
  end.
Definition call_name (func : node) : string := join "." (dotted func).
Definition call_tail (func : node) : string := List.last (split "." (call_name func)) "".

(** ** The walk meets every node *)

Definition child (x y : node) : Prop := x ∈ children y.
(** [x] is [y] or lies below it. *)
Definition below (x y : node) : Prop := rtc child x y.

Lemma sizes_app l1 l2 : sizes (l1 ++ l2) = (sizes l1 + sizes l2)%nat.
Proof. unfold sizes. by rewrite map_app, list_sum_app. Qed.

Lemma sizes_cons x l : sizes (x :: l) = (size x + sizes l)%nat.
Proof. done. Qed.

Lemma sizes_fix l : (fix sizes l := match l with [] => O | x :: l' => (size x + sizes l')%nat end) l = sizes l.
Proof. induction l as [|x l IH]; [done|]. unfold sizes in *. cbn. by rewrite IH. Qed.

Lemma size_children n : size n = S (sizes (children n)).
Proof.
  assert (sizes [] = O) as H0 by done.
  destruct n as [| | | | | | |t a [v|]| | | | |]; cbn [size children]; rewrite ?sizes_fix, ?sizes_cons, ?sizes_app, ?sizes_cons; lia.
Qed.

Lemma walk_from_in fuel todo x : (sizes todo <= fuel)%nat -> x ∈ walk_from fuel todo <-> exists y, y ∈ todo /\ below x y.
Proof.
  revert todo. induction fuel as [|fuel IH]; intros todo Hf.
  - assert (todo = []) as ->.
    { destruct todo as [|n todo]; [done|]. rewrite sizes_cons, size_children in Hf. lia. }
    split; [by intros ?%elem_of_nil|]. intros (y & Hy & _). by apply elem_of_nil in Hy.
  - destruct todo as [|n todo]; [split; [by intros ?%elem_of_nil|intros (y & Hy & _); by apply elem_of_nil in Hy]|]. cbn [walk_from].
    assert (sizes (todo ++ children n) <= fuel)%nat as Hle.
    { rewrite sizes_app. rewrite sizes_cons, size_children in Hf. lia. }
    rewrite elem_of_cons, (IH _ Hle). split.
    + intros [->|(y & [Hy|Hy]%elem_of_app & Hb)]; [exists n; split; [set_solver|apply rtc_refl]|exists y; split; [set_solver|done]|].
      exists n. split; [set_solver|]. eapply rtc_r; [exact Hb|done].
    + intros (y & [->|Hy]%elem_of_cons & Hb); [|right; exists y; split; [set_solver|done]].
      apply rtc_inv_r in Hb as [->|(z & Hb & Hz)]; [by left|right]. exists z. split; [apply elem_of_app; by right|done].
Qed.

Lemma walk_in x n : x ∈ walk n <-> below x n.
Proof.
  unfold walk. rewrite walk_from_in; [|rewrite sizes_cons; change (sizes []) with O; lia]. split; [by intros (y & ->%list_elem_of_singleton & ?)|].
  intros H. exists n. split; [set_solver|done].
Qed.

Lemma walk_module_in x t : x ∈ walk_module t <-> exists s, s ∈ body t /\ below x s.
Proof. unfold walk_module. by rewrite walk_from_in by lia. Qed.

Lemma walk_stmts_in x t : x ∈ walk_stmts t <-> exists s, s ∈ body t /\ below x s.
Proof. unfold walk_stmts. rewrite list_elem_of_In, in_flat_map. setoid_rewrite <- list_elem_of_In. by setoid_rewrite walk_in. Qed.
