(* ===== verification/SecretAccess.v ===== *)
(** * Credential-store sweeps ([src/pkgward/analyze/secret_access.py])

    A source file that reaches into three distinct credential stores is a
    credential implant, unless the references stand inside an array of regex
    literals (a denylist). *)
From S2P Require Import Prelude PyStr Text Regex RegexSyntax Findings Tree Intel Score.
From Stdlib Require Import Ascii String.

Open Scope string_scope.
Open Scope list_scope.
Open Scope Z_scope.

Definition CATEGORY : string := "malware".
Definition _CODE_EXTENSIONS : list string := [".js"; ".mjs"; ".cjs"; ".jsx"; ".ts"; ".tsx"; ".py"; ".go"; ".rs"; ".sh"].
(** [PKGWARD_SECRET_SWEEP_MAX_MB] unset. *)
Definition MAX_FILE_SIZE : Z := 4 * 1024 * 1024.

Definition _STORES : list (string * regex) :=
  [("etc_shadow", compile bplain "/etc/shadow");
   ("proc_environ", compile bplain "/proc/(?:\d+|self|[0-9a-z]+)/environ");
   ("k8s_sa_token", compile bplain "/var/run/secrets/kubernetes\.io|serviceaccount/(?:token|namespace)");
   ("ssh_keys", compile bplain "\.ssh/(?:id_(?:rsa|ed25519|ecdsa|dsa)|identity|authorized_keys|known_hosts|config)\b");
   ("aws_creds", compile bplain "\.aws/credentials");
   ("gcloud_creds", compile bplain ("application_default_credentials|gcloud/[^\" +:+ Q +:+ "'\s]*credential"));
   ("kube_config", compile bplain "\.kube/config");
   ("docker_config", compile bplain "\.docker/config\.json");
   ("npmrc", compile bplain "(?:^|[^\w])\.npmrc\b");
   ("pypirc", compile bplain "\.pypirc\b");
   ("git_creds", compile bplain "\.git-credentials\b|(?:^|[^\w])\.netrc\b");
   ("gpg", compile bplain "\.gnupg\b");
   ("browser_creds", compile bplain "Login Data|cookies\.sqlite|key4\.db|logins\.json");
   ("crypto_wallet", compile bplain "wallet\.dat|\.electrum\b|MetaMask|Exodus|keystore");
   ("env_harvest", compile bplain ("Object\.(?:keys|entries|values)\s*\(\s*process\.env" +:+
      "|for\s*\([^)]*\bin\b[^)]*process\.env" +:+ "|os\.environ\.(?:items|keys|values)\s*\(\)" +:+ "|dict\s*\(\s*os\.environ"))].

Definition _SWEEP_THRESHOLD : nat := 3.

Definition _REGEX_LITERAL_ARRAY : regex := compile bplain "(?:/(?:\\.|[^/\n\\]){1,200}/[gimsuyd]*\s*,\s*){3,}".

Definition _regex_array_spans (data : string) : list (nat * nat) :=
  map (fun m => (m_start m, m_end m)) (finditer _REGEX_LITERAL_ARRAY data).

Definition outside_spans (spans : list (nat * nat)) (m : mtch) : bool :=
  negb (existsb (fun se => (se.1 <=? m_start m)%nat && (m_start m <? se.2)%nat) spans).
Definition store_hit (data : string) (spans : list (nat * nat)) (lr : string * regex) : bool :=
  existsb (outside_spans spans) (finditer lr.2 data).
Definition _store_hits_outside_denylist (data : string) (spans : list (nat * nat)) : list string :=
  py_sorted (map fst (bfilter (store_hit data spans) _STORES)).

Definition code_file (f : tree_file) : bool := str_in (suffix_lower f) _CODE_EXTENSIONS.
(** Oversized, or [stat] failed. *)
Definition sized (f : tree_file) : bool := match tf_size f with Some n => n <=? MAX_FILE_SIZE | None => false end.
Definition hits_of (data : string) : list string := _store_hits_outside_denylist data (_regex_array_spans data).

Definition scan_stores (f : tree_file) (data : string) : list Finding :=
  let hits := hits_of data in
  (if str_in "etc_shadow" hits then
    [mkFinding "malware.etc_shadow_read" CATEGORY SHigh CHigh (real_path f) None "source references /etc/shadow (password-hash theft)"] else []) ++
  (if (_SWEEP_THRESHOLD <=? List.length hits)%nat then
    [mkFinding "malware.credential_store_sweep" CATEGORY SCritical CHigh (real_path f) None
      ("single file reaches into " +:+ show (Z.of_nat (List.length hits)) +:+ " distinct credential stores: " +:+ join ", " hits)] else []).

Definition analyze_secret_access (changed : option (list string)) (tree : list tree_file) : list Finding :=
  each_file (fun f => code_file f && sized f) changed scan_stores tree.

(** ** What is reported *)

Definition SIGNATURES : list signature :=
  [("malware.etc_shadow_read", SHigh, CHigh); ("malware.credential_store_sweep", SCritical, CHigh)].

Lemma secret_signed changed tree : Forall (signed_by CATEGORY SIGNATURES) (analyze_secret_access changed tree).
Proof. unfold analyze_secret_access, scan_stores. sign_all. Qed.

Lemma stores_compiled : forallb (fun lr => compiled lr.2) _STORES && compiled _REGEX_LITERAL_ARRAY = true.
Proof. by vm_compute. Qed.
Lemma stores_wide lr : lr ∈ _STORES -> (0 < min_width (r_body lr.2))%nat.
Proof.
  assert (forallb (fun lr => (0 <? min_width (r_body lr.2))%nat) _STORES = true) as H by (by vm_compute).
  intros Hl. by apply Nat.ltb_lt, (proj1 (forallb_true _ _) H lr).
Qed.

Lemma hits_elem data label : label ∈ hits_of data <->
  exists rx m, (label, rx) ∈ _STORES /\ m ∈ finditer rx data /\ outside_spans (_regex_array_spans data) m = true.
Proof.
  unfold hits_of, _store_hits_outside_denylist. rewrite py_sorted_elem, list_elem_of_fmap. split.
  - intros ([l rx] & -> & [H1 (m & Hm & Ho)%existsb_true]%bfilter_in). by exists rx, m.
  - intros (rx & m & H1 & H2 & H3). exists (label, rx). split; [done|]. apply bfilter_in. split; [done|]. apply existsb_true. by exists m.
Qed.

Lemma hits_length data (L : list string) : NoDup L -> (forall l, l ∈ L -> l ∈ hits_of data) -> (List.length L <= List.length (hits_of data))%nat.
Proof. intros HL H. by apply submseteq_length, NoDup_submseteq. Qed.

(** A store's pattern occurs in the text; it occurs outside every array of regex literals. *)
Definition mentioned (data label : string) : Prop :=
  exists rx i j, (label, rx) ∈ _STORES /\ occurs rx (codes_of data) i j.
Definition read_outside (data label : string) : Prop :=
  exists rx i j, (label, rx) ∈ _STORES /\ occurs rx (codes_of data) i j /\
    forall s, s ∈ _regex_array_spans data -> ~ (s.1 <= i < s.2)%nat.

Lemma hits_sound data label : label ∈ hits_of data -> read_outside data label.
Proof.
  intros (rx & m & H1 & H2 & H3)%hits_elem. exists rx, (m_start m), (m_end m). split_and!; [done|by apply finditer_occurs|].
  intros s Hs Hin. apply negb_true_iff in H3. pose proof (proj1 (existsb_false _ _) H3 s Hs) as H. cbn beta in H. apply andb_false_iff in H as [H%Nat.leb_gt|H%Nat.ltb_ge]; lia.
Qed.

Lemma no_spans data : found _REGEX_LITERAL_ARRAY data = false -> _regex_array_spans data = [].
Proof.
  intros H. unfold _regex_array_spans. destruct (finditer _REGEX_LITERAL_ARRAY data) as [|m l] eqn:E; [done|exfalso].
  assert (m ∈ finditer _REGEX_LITERAL_ARRAY data) as Hm by (rewrite E; set_solver). apply finditer_occurs in Hm.
  assert (found _REGEX_LITERAL_ARRAY data = true) by (apply found_true; by eexists _, _). congruence.
Qed.

Lemma hits_complete data label : found _REGEX_LITERAL_ARRAY data = false -> mentioned data label -> label ∈ hits_of data.
Proof.
  intros Hn (rx & i & j & Hl & Ho). apply hits_elem. assert (found rx data = true) as Hf by (apply found_true; by eexists _, _).
  destruct (found_finditer rx data (stores_wide (label, rx) Hl) Hf) as [m Hm]. exists rx, m. split_and!; [done|done|]. by rewrite no_spans.
Qed.

Lemma hits_NoDup data : NoDup (hits_of data).
Proof.
  unfold hits_of, _store_hits_outside_denylist, py_sorted. rewrite ssort_perm. apply bfilter_NoDup_fmap.
  assert (bool_decide (NoDup _STORES.*1) = true) as H by (by vm_compute). by apply bool_decide_eq_true in H.
Qed.

Lemma sweep_reported changed tree f data : f ∈ tree -> code_file f = true -> sized f = true -> unchanged_file changed f = false ->
  tf_data f = Some data -> (_SWEEP_THRESHOLD <= List.length (hits_of data))%nat ->
  exists g, g ∈ analyze_secret_access changed tree /\ rule_id g = "malware.credential_store_sweep" /\ f_severity g = SCritical.
Proof.
  intros Hf Hc Hz Hu Hd Hl. eexists. split; [|split].
  - apply each_file_in. exists f, data. rewrite Hc, Hz. split_and!; try done. unfold scan_stores. apply Nat.leb_le in Hl. rewrite Hl.
    apply elem_of_app. right. by apply list_elem_of_singleton.
  - done.
  - done.
Qed.

(** ** Properties *)

(** A sweep convicts, and only a sweep is reported.  A readable code file of at most
    4 MB in which three distinct stores occur and no array of regex literals does makes the
    package malicious; and whenever a sweep is reported, some readable code file of the
    tree has three distinct stores, each with an occurrence outside every such array. *)
Theorem sweep_convicts pack changed tree fs r
  (Hfs : forall x, x ∈ analyze_secret_access changed tree -> x ∈ fs) :
  (forall f data L, f ∈ tree -> code_file f = true -> sized f = true -> unchanged_file changed f = false -> tf_data f = Some data ->
     NoDup L -> (3 <= List.length L)%nat -> (forall l, l ∈ L -> mentioned data l) -> found _REGEX_LITERAL_ARRAY data = false ->
     sr_verdict (score_and_verdict pack fs r) = VMalicious) /\
  (forall g, g ∈ analyze_secret_access changed tree -> rule_id g = "malware.credential_store_sweep" ->
     exists f data L, f ∈ tree /\ tf_data f = Some data /\ file g = real_path f /\ NoDup L /\ (3 <= List.length L)%nat /\
       forall l, l ∈ L -> read_outside data l).
Proof.
  split.
  - intros f data L Hf Hc Hz Hu Hd HL Hlen Hm Ha.
    destruct (sweep_reported changed tree f data Hf Hc Hz Hu Hd) as (g & Hg & Hr & Hs).
    { etransitivity; [exact Hlen|]. apply hits_length; [done|]. intros l Hl. by apply hits_complete, Hm. }
    apply (critical_convicts pack fs r g); [by apply Hfs|done|]. unfold is_shadow_finding. by rewrite Hr.
  - intros g (f & data & Hf & _ & _ & Hd & Hg)%each_file_in Hr. exists f, data, (hits_of data). unfold scan_stores in Hg.
    apply elem_of_app in Hg as [Hg|Hg]; case_match eqn:E; try (by apply elem_of_nil in Hg); apply list_elem_of_singleton in Hg as ->; [done|].
    split_and!; [done|done|done|apply hits_NoDup|by apply Nat.leb_le|apply hits_sound].
Qed.

(** ** Concrete files *)

Definition ex_file (data : string) : tree_file := mkTreeFile ["package"; "index.js"] (Some (Z.of_nat (len data))) (Some data).
Definition ex_hits (data : string) : list string := map rule_id (analyze_secret_access None [ex_file data]).

Definition stealer : string := "f('/etc/shadow'); f('.npmrc'); f('/root/.aws/credentials')".
Lemma sweep_convicts_witness : sr_verdict (score_and_verdict ex_pack (analyze_secret_access None [ex_file stealer]) None) = VMalicious.
Proof.
  apply (proj1 (sweep_convicts ex_pack None [ex_file stealer] (analyze_secret_access None [ex_file stealer]) None (fun x H => H))
    (ex_file stealer) stealer ["etc_shadow"; "npmrc"; "aws_creds"]);
    [set_solver|by vm_compute|by vm_compute|done|done|repeat constructor; set_solver|cbn; lia| |by vm_compute].
  assert (forallb (fun l => str_in l (hits_of stealer)) ["etc_shadow"; "npmrc"; "aws_creds"] = true) as H by (by vm_compute).
  intros l Hl. rewrite forallb_true in H. specialize (H l Hl). apply str_in_true, hits_sound in H as (rx & i & j & ? & ? & _). by exists rx, i, j.
Defined.

(** A denylist of regex literals is left alone. *)
Example denylist_ex : ex_hits "[/^\.npmrc$/, /^Login Data$/, /^wallet\.dat$/, /^\/etc\/shadow$/, 0]" = [].
Proof. by vm_compute. Qed.

(** Real reads hide as well: the strings around them close a slash too many. *)
Definition decoy : string := "f('/a/,/b/,/', read('.npmrc'), read('Login Data'), read('wallet.dat'), '/,')".
Example decoy_disarms : ex_hits decoy = [] /\
  ex_hits "f(read('.npmrc'), read('Login Data'), read('wallet.dat'))" = ["malware.credential_store_sweep"].
Proof. by vm_compute. Qed.
