(* ===== verification/GoDirectives.v ===== *)
(** * Go source directives ([src/pkgward/ecosystems/gomod/go_directives.py])

    [go:generate] lines, the bodies of [init] functions, cgo, [unsafe], encoded
    payloads, [replace] directives, and the cap on weak co-occurrence findings.
    An analysis that raises is [None]. *)
From S2P Require Import Prelude PyStr Text Regex RegexSyntax Findings Tree Intel Score.
From Stdlib Require Import Ascii String.

Open Scope string_scope.
Open Scope list_scope.
Open Scope Z_scope.

Definition CATEGORY : string := "installer".
Definition go (rule : string) (sev : severity) (conf : confidence) (rel : string) (ln : option Z) (ev : string) : Finding :=
  mkFinding rule CATEGORY sev conf rel ln ev.

(** ** Patterns *)

Definition _GO_GENERATE : regex := compile multiline "^//go:generate\s+(.+)$".
Definition _GENERATE_EXEC_COMMANDS : regex := compile icase
  ("\b(?:curl|wget|bash|powershell|python|ruby|perl|" +:+ "ncat|socat|chmod|chown)\b|" +:+ "\brm\s+-rf\b|/bin/|/usr/bin/").
Definition _GENERATE_SHELL_WRAP : regex := compile icase "^(?:ba)?sh\s+-c\s+".
Definition _GENERATE_SHORT_EXEC : regex := compile icase "(?:^|\s|[|;&])(?:sh|cmd|nc)\s".
Definition _INIT_FUNC : regex := compile multiline "^func\s+init\s*\(\s*\)\s*\{".
Definition _NET_IMPORTS : regex := compile plain (Q +:+ "(?:net/http|net|net/smtp|net/rpc|golang\.org/x/net)" +:+ Q).
Definition _EXEC_IMPORTS : regex := compile plain (Q +:+ "os/exec" +:+ Q).
Definition _EXEC_USAGE : regex := compile plain "exec\.(?:Command|CommandContext|LookPath)\b".
Definition _GO_TOOLCHAIN_EXEC : regex := compile plain ("exec\.Command\w*\([^,]+,\s*" +:+ Q +:+ "(?:env|version)" +:+ Q).
Definition _NON_GO_EXEC : regex := compile plain
  (Q +:+ "(?:/bin/)?(?:sh|bash|dash|zsh|ksh|ash)" +:+ Q +:+
   "|" +:+ Q +:+ "(?:curl|wget|nc|ncat|socat|python[0-9.]*|perl|ruby|powershell|pwsh|cmd|osascript)" +:+ Q +:+
   "|" +:+ Q +:+ "-c" +:+ Q +:+ "|/bin/sh|exec\.Command\w*\(\s*" +:+ Q +:+ "[^" +:+ Q +:+ "]*[;&|]").
Definition _NET_USAGE : regex := compile plain
  ("(?:http\.(?:Get|Post|Head|Do|NewRequest|DefaultClient)|" +:+ "net\.(?:Dial|DialTimeout|Listen|ListenPacket|ResolveIPAddr)|" +:+
   "smtp\.(?:SendMail|Dial)|" +:+ "rpc\.(?:Dial|DialHTTP))").
Definition _ENV_GETENV : regex := compile plain ("os\.Getenv\s*\(\s*\" +:+ Q +:+ "([^\" +:+ Q +:+ "]+)\" +:+ Q).
Definition _SENSITIVE_ENV_VARS : list string :=
  ["HOME"; "USERPROFILE"; "SSH_AUTH_SOCK"; "SSH_PRIVATE_KEY"; "AWS_SECRET_ACCESS_KEY"; "AWS_ACCESS_KEY_ID"; "AWS_SESSION_TOKEN";
   "GH_TOKEN"; "GITHUB_TOKEN"; "GITLAB_TOKEN"; "DOCKER_PASSWORD"; "NPM_TOKEN"; "CARGO_REGISTRY_TOKEN"; "DATABASE_URL"; "SECRET_KEY";
   "PRIVATE_KEY"; "GOOGLE_APPLICATION_CREDENTIALS"; "AZURE_CLIENT_SECRET"].
Definition _CGO_IMPORT : regex := compile multiline ("^import\s+" +:+ Q +:+ "C" +:+ Q).
Definition _CGO_COMMENT_BLOCK : regex := compile dotall ("/\*.*?\*/\s*\nimport\s+\" +:+ Q +:+ "C\" +:+ Q).
Definition _CGO_DANGEROUS : regex := compile plain
  ("(?:system\s*\(|popen\s*\(|exec[lv]p?\s*\(|" +:+ "socket\s*\(|connect\s*\(|getenv\s*\()").
Definition _UNSAFE_IMPORT : regex := compile plain (Q +:+ "unsafe" +:+ Q).
Definition _REPLACE_DIRECTIVE : regex := compile multiline "^\s*replace\s+(\S+)\s+=>\s+(\S+)".
Definition _ENCODED_PAYLOAD : regex := compile plain "(?:[A-Za-z0-9+/]{200,}={0,2}|(?:\\x[0-9a-fA-F]{2}){50,})".

Definition patterns : list regex :=
  [_GO_GENERATE; _GENERATE_EXEC_COMMANDS; _GENERATE_SHELL_WRAP; _GENERATE_SHORT_EXEC; _INIT_FUNC; _NET_IMPORTS; _EXEC_IMPORTS;
   _EXEC_USAGE; _GO_TOOLCHAIN_EXEC; _NON_GO_EXEC; _NET_USAGE; _ENV_GETENV; _CGO_IMPORT; _CGO_COMMENT_BLOCK; _CGO_DANGEROUS;
   _UNSAFE_IMPORT; _REPLACE_DIRECTIVE; _ENCODED_PAYLOAD].

Section Directives.
(** [intel.current().gomod_benign_tools]. *)
Variable benign : list string.

(** ** [go:generate] *)

(** [x.split()[0] if x else ...]: an [IndexError] where [x] is blank but not empty. *)
Definition first_word (x : string) : option string :=
  if truthy x then head (words x) else Some "".

Definition _is_generate_dangerous (cmd : string) : option bool :=
  if found _GENERATE_EXEC_COMMANDS cmd then Some true
  else match match_ _GENERATE_SHELL_WRAP cmd with
  | Some m =>
      let inner := strip_chars ("'" +:+ Q) (strip (str_drop (m_end m) cmd)) in
      inner_tool ← first_word inner;
      Some (if str_in inner_tool benign then false else found _GENERATE_EXEC_COMMANDS inner)
  | None => Some (found _GENERATE_SHORT_EXEC cmd)
  end.

Definition generate_finding (rel content : string) (m : mtch) : option (list Finding) :=
  let cmd := strip (group_or content 1 m) in
  let line_num := Some (line_at content (m_start m)) in
  dangerous ← _is_generate_dangerous cmd;
  if (dangerous : bool) then
    Some [go "gomod.go_generate_exec" SCritical CHigh rel line_num ("go:generate runs suspicious command: " +:+ str_take 120 cmd)]
  else
    tool ← first_word cmd;
    Some (if str_in tool benign then []
          else [go "gomod.go_generate" SLow CMedium rel line_num ("go:generate with unrecognized tool: " +:+ str_take 120 cmd)]).

(** ** [init] bodies *)

(** The characters the brace loop walks over: until the depth is zero or the text ends. *)
Fixpoint brace_walk (depth : nat) (s : string) : nat :=
  match s with
  | EmptyString => 0
  | String c s' =>
      if Ascii.eqb c "{" then S (brace_walk (S depth) s')
      else if Ascii.eqb c "}" then match depth with S (S d) => S (brace_walk (S d) s') | _ => 1%nat end
      else S (brace_walk depth s')
  end.
(** [content[m.end():pos - 1]]. *)
Definition body_of (s : string) : string := str_take (Nat.pred (brace_walk 1 s)) s.
Definition _extract_init_bodies (content : string) : list string :=
  map (fun m => body_of (str_drop (m_end m) content)) (finditer _INIT_FUNC content).

Definition init_findings (rel content : string) : list Finding :=
  match _extract_init_bodies content with
  | [] => []
  | bodies =>
      let body := join (String LF "") bodies in
      let only_go_toolchain := found _GO_TOOLCHAIN_EXEC body && negb (found _NON_GO_EXEC body) && negb (found _NET_USAGE body) in
      let sensitive := bfilter (fun v => str_in v _SENSITIVE_ENV_VARS) (findall _ENV_GETENV body) in
      (if found _EXEC_USAGE body && negb only_go_toolchain then
         [go "gomod.init_exec_chain" SCritical CHigh rel None "init() calls os/exec — auto-executes on import"] else []) ++
      (if found _NET_USAGE body then
         [go "gomod.init_net_chain" SHigh CHigh rel None "init() makes network calls — auto-executes on import"] else []) ++
      (if (3 <=? List.length sensitive)%nat then
         [go "gomod.init_env_harvest" SHigh CHigh rel None ("init() harvests env vars: " +:+ join ", " (firstn 5 sensitive))] else []) ++
      (if found _EXEC_IMPORTS content && negb (found _EXEC_USAGE body) then
         [go "gomod.init_exec_coexist" SLow CMedium rel None "init() + os/exec import in same file (exec not directly in init body)"] else []) ++
      (if found _NET_IMPORTS content && negb (found _NET_USAGE body) then
         [go "gomod.init_net_coexist" SLow CMedium rel None "init() + network import in same file (net calls not directly in init body)"] else [])
  end.

Definition cgo_findings (rel content : string) : list Finding :=
  if found _CGO_IMPORT content then
    if match search _CGO_COMMENT_BLOCK content with Some m => found _CGO_DANGEROUS (group0 content m) | None => false end then
      [go "gomod.cgo_exec_chain" SHigh CHigh rel None "CGO with dangerous C function calls (exec/socket/system)"]
    else [go "gomod.cgo_import" SMedium CMedium rel None "CGO import — compiles C code at build time"]
  else [].

Definition code_findings (rel content : string) : list Finding :=
  init_findings rel content ++ cgo_findings rel content ++
  (if found _UNSAFE_IMPORT content then [go "gomod.unsafe_import" SLow CMedium rel None "unsafe package import"] else []) ++
  (if found _ENCODED_PAYLOAD content then [go "gomod.encoded_payload" SMedium CMedium rel None "large encoded payload in Go source"] else []).

Definition is_test (f : tree_file) : bool := endswith (tf_name f) "_test.go".
Definition _analyze_go_file (f : tree_file) : option (list Finding) :=
  match tf_data f with
  | None => Some []
  | Some data =>
      let content := read_text data in
      gens ← mapM (generate_finding (real_path f) content) (finditer _GO_GENERATE content);
      Some (List.concat gens ++ if is_test f then [] else code_findings (real_path f) content)
  end.

(** ** [go.mod] *)

Definition replace_finding (rel content : string) (m : mtch) : Finding :=
  let target := group_or content 2 m in
  let line_num := Some (line_at content (m_start m)) in
  let arrow := group_or content 1 m +:+ " => " +:+ target in
  if startswith target "." || startswith target "/" then
    go "gomod.replace_local_path" SLow CHigh rel line_num ("replace directive points to local path (inert for dependents): " +:+ arrow)
  else go "gomod.replace_directive" SMedium CHigh rel line_num ("replace directive: " +:+ arrow).
Definition _analyze_go_mod (f : tree_file) : list Finding :=
  match tf_data f with
  | None => []
  | Some data => let content := read_text data in map (replace_finding (real_path f) content) (finditer _REPLACE_DIRECTIVE content)
  end.

End Directives.

(** ** The cap *)

Definition _NOISY_COEXIST : list string := ["gomod.init_net_coexist"; "gomod.init_exec_coexist"; "gomod.unsafe_import"].
Definition _NOISY_KEEP : Z := 3.
Definition noisy (f : Finding) : bool := str_in (rule_id f) _NOISY_COEXIST.

(** One turn of the loop over the findings: [(counts, out)]. *)
Definition cap_step (st : list (string * Z) * list Finding) (f : Finding) : list (string * Z) * list Finding :=
  let '(counts, out) := st in
  if noisy f then
    let n := dget_or (rule_id f) 0 counts + 1 in
    (dset (rule_id f) n counts, if n <=? _NOISY_KEEP then out ++ [f] else out)
  else (counts, out ++ [f]).
Definition aggregate (rn : string * Z) : list Finding :=
  if _NOISY_KEEP <? rn.2 then
    [go rn.1 SLow CLow "" None (show rn.2 +:+ " files match this weak co-occurrence pattern (showing " +:+ show _NOISY_KEEP +:+
      "); a high count indicates a large legitimate codebase, not a targeted backdoor")]
  else [].
Definition _cap_noisy (findings : list Finding) : list Finding :=
  let '(counts, out) := fold_left cap_step findings ([], []) in out ++ flat_map aggregate counts.

Definition analyze_go_directives (benign : list string) (changed : option (list string)) (tree : list tree_file) : option (list Finding) :=
  let selected l := bfilter (fun f => negb (unchanged_file changed f)) l in
  gofiles ← mapM (_analyze_go_file benign) (selected (with_ext ".go" tree));
  Some (_cap_noisy (List.concat gofiles ++ flat_map _analyze_go_mod (selected (named "go.mod" tree)))).

Lemma go_patterns_compiled : forallb compiled patterns = true.
Proof. by vm_compute. Qed.

(** ** The cap, exactly *)

Section Cap.
Context (rid : string).

Definition of_rule (f : Finding) : bool := String.eqb (rule_id f) rid.

Lemma of_rule_true f : of_rule f = true <-> rule_id f = rid.
Proof. apply String.eqb_eq. Qed.

(** What the loop has counted and kept. *)
Lemma cap_loop fs : let '(counts, out) := fold_left cap_step fs ([], []) in
  NoDup counts.*1 /\ (forall k, k ∈ counts.*1 -> k ∈ _NOISY_COEXIST) /\
  bfilter (fun f => negb (noisy f)) out = bfilter (fun f => negb (noisy f)) fs /\
  (rid ∈ _NOISY_COEXIST -> dget_or rid 0 counts = Z.of_nat (List.length (bfilter of_rule fs)) /\
    bfilter of_rule out = firstn 3 (bfilter of_rule fs)).
Proof.
  induction fs as [|f fs IH] using rev_ind; [cbn; split_and!; [constructor|set_solver|done|done]|].
  rewrite fold_left_app. cbn [fold_left]. destruct (fold_left cap_step fs ([], [])) as [counts out].
  destruct IH as (H1 & H2 & H3 & H4). unfold cap_step. destruct (noisy f) eqn:En.
  - split_and!.
    + by apply dset_NoDup.
    + intros k [->|Hk]%dset_keys; [by apply str_in_true in En|by apply H2].
    + case_match; rewrite ?List.filter_app; cbn [List.filter]; rewrite En; cbn [negb]; by rewrite ?H3, ?app_nil_r.
    + intros Hr. destruct (H4 Hr) as [H5 H6]. rewrite List.filter_app. cbn [List.filter]. destruct (of_rule f) eqn:Eo.
      * apply of_rule_true in Eo. rewrite Eo, H5. unfold dget_or at 1. rewrite dget_dset_eq. cbn [default].
        rewrite length_app. cbn [List.length]. split; [cbn; lia|]. rewrite take_app. unfold _NOISY_KEEP.
        destruct (Z.leb_spec (Z.of_nat (List.length (bfilter of_rule fs)) + 1) 3).
        -- rewrite List.filter_app. cbn [List.filter]. replace (of_rule f) with true by (symmetry; by apply of_rule_true). rewrite H6. f_equal.
           replace (3 - List.length (bfilter of_rule fs))%nat with (S (2 - List.length (bfilter of_rule fs))) by lia. cbn [firstn]. by rewrite firstn_nil.
        -- rewrite H6. replace (3 - List.length (bfilter of_rule fs))%nat with 0%nat by lia. by rewrite app_nil_r.
      * rewrite app_nil_r. assert (rule_id f <> rid) as Hne by (intros H; apply of_rule_true in H; congruence).
        unfold dget_or at 1. rewrite dget_dset_ne by done. split; [exact H5|]. rewrite <- H6.
        case_match; [|done]. rewrite List.filter_app. cbn [List.filter]. by rewrite Eo, app_nil_r.
  - split_and!; [done|done| |].
    + by rewrite !List.filter_app, H3.
    + intros Hr. destruct (H4 Hr) as [H5 H6]. rewrite !List.filter_app. cbn [List.filter].
      assert (of_rule f = false) as ->; [|by rewrite !app_nil_r].
      apply not_true_iff_false. intros H%of_rule_true. unfold noisy in En. rewrite H in En. apply not_true_iff_false in En. apply En. by apply str_in_true.
Qed.

Lemma aggregates_noisy counts : (forall k, k ∈ counts.*1 -> k ∈ _NOISY_COEXIST) ->
  bfilter (fun f => negb (noisy f)) (flat_map aggregate counts) = [].
Proof.
  intros H. apply bfilter_none. intros f (rn & Hrn & Hf)%elem_flat_map. apply negb_false_iff, str_in_true.
  unfold aggregate in Hf. case_match; [|by apply elem_of_nil in Hf]. apply list_elem_of_singleton in Hf as ->. apply H. by apply list_elem_of_fmap; exists rn.
Qed.

Lemma aggregates_of counts : NoDup counts.*1 -> bfilter of_rule (flat_map aggregate counts) = aggregate (rid, dget_or rid 0 counts).
Proof.
  induction counts as [|[k n] counts IH]; [done|]. cbn [fmap list_fmap fst]. intros [Hk Hn]%NoDup_cons. cbn [flat_map]. rewrite List.filter_app, (IH Hn).
  unfold dget_or. cbn [dget]. destruct (decide (k = rid)) as [->|Hne].
  - rewrite decide_True by done. assert (dget rid counts = None) as -> by by apply dget_None. cbn [default].
    unfold aggregate. cbn [fst snd]. change (_NOISY_KEEP <? 0) with false. cbn iota. rewrite app_nil_r. unfold id. case_match; [|done]. cbn [List.filter]. unfold of_rule. cbn [rule_id go]. by rewrite String.eqb_refl.
  - rewrite decide_False by congruence. replace (bfilter of_rule (aggregate (k, n))) with (@nil Finding); [done|]. unfold aggregate. cbn [fst snd].
    case_match; [|done]. cbn [List.filter]. replace (of_rule _) with false; [done|]. symmetry. by apply String.eqb_neq.
Qed.

(** What is not weak is kept. *)
Lemma cap_keeps fs f : f ∈ fs -> noisy f = false -> f ∈ _cap_noisy fs.
Proof.
  intros Hf Hn. pose proof (cap_loop fs) as H. unfold _cap_noisy. destruct (fold_left cap_step fs ([], [])) as [counts out]. destruct H as (_ & _ & H & _).
  assert (f ∈ bfilter (fun f => negb (noisy f)) out) as [? _]%bfilter_in by (rewrite H; apply bfilter_in; by rewrite Hn).
  apply elem_of_app. by left.
Qed.

(** The cap loses nothing but surplus weak findings.  Everything else goes through
    untouched and in order; of each weak rule the first three findings stay, and a rule with
    more leaves one note that says how many there were, so never more than four remain. *)
Theorem cap_exact fs :
  bfilter (fun f => negb (noisy f)) (_cap_noisy fs) = bfilter (fun f => negb (noisy f)) fs /\
  (rid ∈ _NOISY_COEXIST ->
    bfilter of_rule (_cap_noisy fs) = firstn 3 (bfilter of_rule fs) ++ aggregate (rid, Z.of_nat (List.length (bfilter of_rule fs))) /\
    (List.length (bfilter of_rule (_cap_noisy fs)) <= 4)%nat).
Proof.
  pose proof (cap_loop fs) as H. unfold _cap_noisy. destruct (fold_left cap_step fs ([], [])) as [counts out]. destruct H as (H1 & H2 & H3 & H4). split.
  - by rewrite List.filter_app, aggregates_noisy, app_nil_r.
  - intros Hr. destruct (H4 Hr) as [H5 H6]. rewrite List.filter_app, aggregates_of, H5, H6 by done. split; [done|].
    rewrite length_app, length_take. unfold aggregate. case_match; cbn [List.length]; lia.
Qed.

End Cap.

(** ** Bodies *)

(** Braces that match. *)
Inductive balanced : string -> Prop :=
| bal_nil : balanced ""
| bal_char c s : c <> "{"%char -> c <> "}"%char -> balanced s -> balanced (String c s)
| bal_block s t : balanced s -> balanced t -> balanced ("{" +:+ s +:+ "}" +:+ t).

Lemma brace_walk_balanced b : balanced b -> forall d t, brace_walk (S d) (b +:+ t) = (len b + brace_walk (S d) t)%nat.
Proof.
  induction 1 as [|c s H1 H2 H IH|s t H IHs Ht IHt]; intros d u; [done| |].
  - rewrite append_cons. cbn [brace_walk]. apply Ascii.eqb_neq in H1 as ->. apply Ascii.eqb_neq in H2 as ->. cbn. by rewrite IH.
  - rewrite !str_app_assoc, !len_app. change ("{" +:+ s +:+ "}" +:+ t +:+ u) with (String "{" (s +:+ String "}" (t +:+ u))).
    cbn [brace_walk]. rewrite Ascii.eqb_refl, IHs. cbn [brace_walk]. change (Ascii.eqb "}" "{") with false. cbn iota. rewrite Ascii.eqb_refl, IHt.
    change (len "{") with 1%nat. change (len "}") with 1%nat. lia.
Qed.

(** The body of a function whose braces match is what stands between them. *)
Lemma body_exact b t : balanced b -> body_of (b +:+ "}" +:+ t) = b.
Proof.
  intros H. unfold body_of. rewrite brace_walk_balanced by done. change (brace_walk 1 ("}" +:+ t)) with 1%nat.
  replace (Nat.pred (len b + 1)) with (len b) by lia. clear H. induction b as [|c b IH]; [by destruct t|]. cbn [append str_take String.length len]. f_equal. exact IH.
Qed.

Lemma bodies_exact content bs :
  Forall2 (fun m b => balanced b /\ exists t, str_drop (m_end m) content = b +:+ "}" +:+ t) (finditer _INIT_FUNC content) bs ->
  _extract_init_bodies content = bs.
Proof.
  unfold _extract_init_bodies. induction 1 as [|m b ms bs [Hb (t & Ht)] _ IH]; [done|]. cbn [map]. by rewrite Ht, body_exact, IH.
Qed.

(** ** What is reported *)

Definition SIGNATURES : list signature :=
  [("gomod.go_generate_exec", SCritical, CHigh); ("gomod.go_generate", SLow, CMedium); ("gomod.init_exec_chain", SCritical, CHigh);
   ("gomod.init_net_chain", SHigh, CHigh); ("gomod.init_env_harvest", SHigh, CHigh); ("gomod.init_exec_coexist", SLow, CMedium);
   ("gomod.init_net_coexist", SLow, CMedium); ("gomod.cgo_exec_chain", SHigh, CHigh); ("gomod.cgo_import", SMedium, CMedium);
   ("gomod.unsafe_import", SLow, CMedium); ("gomod.encoded_payload", SMedium, CMedium); ("gomod.replace_local_path", SLow, CHigh);
   ("gomod.replace_directive", SMedium, CHigh); ("gomod.init_exec_coexist", SLow, CLow); ("gomod.init_net_coexist", SLow, CLow);
   ("gomod.unsafe_import", SLow, CLow)].
Notation signed := (signed_by CATEGORY SIGNATURES).

Lemma generate_signed benign rel content m fs : generate_finding benign rel content m = Some fs -> Forall signed fs.
Proof.
  unfold generate_finding. intros (d & _ & H)%bind_Some. destruct d; [injection H as <-; sign_all|].
  apply bind_Some in H as (t & _ & [= <-]). sign_all.
Qed.

Lemma code_signed rel content : Forall signed (code_findings rel content).
Proof. unfold code_findings, init_findings, cgo_findings. sign_all. Qed.

Lemma go_file_signed benign f fs : _analyze_go_file benign f = Some fs -> Forall signed fs.
Proof.
  unfold _analyze_go_file. destruct (tf_data f) as [data|]; [|by intros [= <-]]. intros (gens & Hg & [= <-])%bind_Some.
  apply Forall_app. split; [eapply mapM_forall; [|exact Hg]; intros; by eapply generate_signed|]. destruct (is_test f); [constructor|apply code_signed].
Qed.

Lemma go_mod_signed f : Forall signed (_analyze_go_mod f).
Proof. unfold _analyze_go_mod, replace_finding. sign_all. Qed.

Lemma cap_signed fs : Forall signed fs -> Forall signed (_cap_noisy fs).
Proof.
  intros H. unfold _cap_noisy. pose proof (cap_loop "" fs) as Hl. destruct (fold_left cap_step fs ([], [])) as [counts out] eqn:E. destruct Hl as (_ & Hk & _).
  apply Forall_app. split.
  - assert (Forall signed (fold_left cap_step fs ([], [])).2) as Hs; [|by rewrite E in Hs].
    apply (fold_inv (fun st => Forall signed st.2)); [|constructor]. intros [c o] f Hf Ho. rewrite Forall_forall in H. specialize (H f Hf). cbn in Ho |- *.
    repeat case_match; cbn [snd]; try done; apply Forall_app; by (split; [|constructor]).
  - apply signed_flat. intros [k n] Hkn. assert (k ∈ _NOISY_COEXIST) as Hin by (apply Hk, list_elem_of_fmap; by exists (k, n)).
    unfold aggregate. cbn [fst snd]. case_match; [|constructor]. constructor; [|constructor].
    revert Hin. unfold _NOISY_COEXIST. rewrite !elem_of_cons. intros [->|[->|[->|?%elem_of_nil]]]; try done; sign_one.
Qed.

Lemma go_signed benign changed tree fs : analyze_go_directives benign changed tree = Some fs -> Forall signed fs.
Proof.
  unfold analyze_go_directives. intros (gs & Hg & [= <-])%bind_Some. apply cap_signed, Forall_app.
  split; [eapply mapM_forall; [|exact Hg]; intros; by eapply go_file_signed|]. apply signed_flat. intros. apply go_mod_signed.
Qed.

(** ** Properties *)

(** [sh -c] around nothing but quotes and blanks raises. *)
Lemma dangerous_raises benign cmd : _is_generate_dangerous benign cmd = None <->
  found _GENERATE_EXEC_COMMANDS cmd = false /\ exists m, match_ _GENERATE_SHELL_WRAP cmd = Some m /\
    let inner := strip_chars ("'" +:+ Q) (strip (str_drop (m_end m) cmd)) in inner <> "" /\ words inner = [].
Proof.
  unfold _is_generate_dangerous, first_word. destruct (found _GENERATE_EXEC_COMMANDS cmd); [split; [done|by intros []]|].
  destruct (match_ _GENERATE_SHELL_WRAP cmd) as [m|]; [|split; [done|by intros (_ & m & ? & _)]]. cbn zeta.
  set (inner := strip_chars _ _). unfold truthy. destruct (String.eqb inner "") eqn:E; cbn [negb].
  - split; [done|]. intros (_ & m' & [= <-] & H & _). by apply String.eqb_eq in E.
  - apply String.eqb_neq in E. destruct (words inner) as [|w ws] eqn:Ew; cbn [head mbind option_bind]; split; try done.
    + intros _. split; [done|]. by exists m.
    + intros (_ & m' & [= <-] & _ & H). unfold inner in Ew. congruence.
Qed.

Lemma words_nil s : words s = [] -> str_forall is_space s = true.
Proof.
  unfold words. match goal with |- bfilter _ (?g _ _) = _ -> _ => set (walk := g) end.
  assert (forall s w, bfilter truthy (walk w s) = [] -> w = "" /\ str_forall is_space s = true) as H; [|by intros [_ Hs]%H].
  clear s. induction s as [|c s IH]; intros w; cbn.
  - destruct (truthy w) eqn:E; [done|]. intros _. apply negb_false_iff, String.eqb_eq in E. done.
  - destruct (is_space c); cbn.
    + destruct (truthy w) eqn:E; [done|]. intros [_ Hs]%IH. apply negb_false_iff, String.eqb_eq in E. done.
    + intros [Hw _]%IH. by destruct w.
Qed.

Lemma strip_word x : first_word (strip x) <> None.
Proof.
  unfold first_word, truthy. destruct (String.eqb (strip x) "") eqn:E; [done|]. apply String.eqb_neq in E. cbn [negb].
  destruct (words (strip x)) as [|w ws] eqn:Ew; [exfalso|done]. apply words_nil in Ew.
  unfold strip, strip_where in *. destruct (lstrip_where is_space x) as [|c t] eqn:Ex; [done|]. apply lstrip_where_head in Ex.
  cbn [rstrip_where] in Ew. destruct (rstrip_where is_space t); [rewrite Ex in Ew|]; cbn [str_forall] in Ew; rewrite Ex in Ew; done.
Qed.

Definition go_file (f : tree_file) : bool := endswith (tf_name f) ".go".
Lemma selected_go changed tree f : f ∈ bfilter (fun f => negb (unchanged_file changed f)) (with_ext ".go" tree) <->
  f ∈ tree /\ go_file f = true /\ unchanged_file changed f = false.
Proof. unfold with_ext. rewrite !bfilter_in, negb_true_iff. tauto. Qed.

(** What crashes the analysis.  It raises exactly when some changed, readable Go file has a
    [go:generate] line whose command is a shell wrapper around a blank quoted script; every
    other tree is analysed to the end. *)
Theorem analysis_raises benign changed tree :
  analyze_go_directives benign changed tree = None <->
  exists f data m, f ∈ tree /\ go_file f = true /\ unchanged_file changed f = false /\ tf_data f = Some data /\
    m ∈ finditer _GO_GENERATE (read_text data) /\
    let cmd := strip (group_or (read_text data) 1 m) in
    found _GENERATE_EXEC_COMMANDS cmd = false /\ exists w, match_ _GENERATE_SHELL_WRAP cmd = Some w /\
      let inner := strip_chars ("'" +:+ Q) (strip (str_drop (m_end w) cmd)) in inner <> "" /\ words inner = [].
Proof.
  setoid_rewrite <- dangerous_raises. unfold analyze_go_directives.
  transitivity (mapM (_analyze_go_file benign) (bfilter (fun f => negb (unchanged_file changed f)) (with_ext ".go" tree)) = None).
  { destruct (mapM _ _); cbn; by split. }
  rewrite mapM_None, Exists_exists. split.
  - intros (f & (H1 & H2 & H3)%selected_go & H). unfold _analyze_go_file in H. destruct (tf_data f) as [data|] eqn:Ed; [|done].
    destruct (mapM (generate_finding _ _ _) _) eqn:Em; [done|]. apply mapM_None, Exists_exists in Em as (m & Hm & Hg).
    exists f, data, m. split_and!; try done. cbn zeta. unfold generate_finding in Hg. apply bind_None in Hg as [Hg|(d & Hd & Hg)]; [done|exfalso].
    destruct d; [done|]. apply bind_None in Hg as [Hg|(t & _ & Hg)]; [by apply strip_word in Hg|done].
  - intros (f & data & m & H1 & H2 & H3 & Hd & Hm & Hb). exists f. split; [by apply selected_go|].
    unfold _analyze_go_file. rewrite Hd.
    assert (mapM (generate_finding benign (real_path f) (read_text data)) (finditer _GO_GENERATE (read_text data)) = None) as ->; [|done].
    apply mapM_None, Exists_exists. exists m. split; [done|]. unfold generate_finding. cbn zeta in Hb. by rewrite Hb.
Qed.

(** What stands in the findings of a Go file stands in the result, unless it is weak. *)
Lemma go_finding_kept benign changed tree gs f data g : analyze_go_directives benign changed tree = Some gs ->
  f ∈ tree -> go_file f = true -> is_test f = false -> unchanged_file changed f = false -> tf_data f = Some data ->
  g ∈ code_findings (real_path f) (read_text data) -> noisy g = false -> g ∈ gs.
Proof.
  intros (fss & Hm & [= <-])%bind_Some Hf Hgo Ht Hu Hd Hg Hn.
  destruct (mapM_elem _ _ _ f Hm) as (fs & Hfs & Hin); [by apply selected_go|].
  apply (cap_keeps ""); [|done]. apply elem_of_app. left. apply elem_concat. exists fs. split; [done|].
  unfold _analyze_go_file in Hfs. rewrite Hd in Hfs. apply bind_Some in Hfs as (gens & _ & [= <-]). rewrite Ht. apply elem_of_app. by right.
Qed.

(** Code that an [init] runs convicts.  In a Go file that is no test, whose [init]
    functions have matching braces, a call of [os/exec] in one of them that is no toolchain
    query makes the package malicious; the cap cannot hide it. *)
Theorem init_exec_convicts pack benign changed tree gs fs r f data bs
  (Ha : analyze_go_directives benign changed tree = Some gs) (Hfs : forall x, x ∈ gs -> x ∈ fs)
  (Hf : f ∈ tree) (Hgo : go_file f = true) (Ht : is_test f = false) (Hu : unchanged_file changed f = false) (Hd : tf_data f = Some data)
  (Hb : Forall2 (fun m b => balanced b /\ exists t, str_drop (m_end m) (read_text data) = b +:+ "}" +:+ t) (finditer _INIT_FUNC (read_text data)) bs)
  (He : found _EXEC_USAGE (join (String LF "") bs) = true) (Hn : found _GO_TOOLCHAIN_EXEC (join (String LF "") bs) = false) :
  sr_verdict (score_and_verdict pack fs r) = VMalicious.
Proof.
  apply bodies_exact in Hb. apply (critical_convicts pack fs r (go "gomod.init_exec_chain" SCritical CHigh (real_path f) None "init() calls os/exec — auto-executes on import"));
    [|done|by vm_compute].
  apply Hfs. eapply go_finding_kept; try done. unfold code_findings, init_findings. rewrite Hb.
  destruct bs as [|b bs]; [exfalso; revert He; by vm_compute|]. rewrite He, Hn. cbn [andb negb]. apply elem_of_app. left. by left.
Qed.

(** ** Concrete modules *)

Definition NL : string := String LF "".
Definition ex_go (parts : list string) (data : string) : tree_file := mkTreeFile parts (Some (Z.of_nat (len data))) (Some data).
Definition ex_rules (data : string) : option (list (string * severity)) :=
  map (fun g => (rule_id g, f_severity g)) <$> analyze_go_directives ["mockgen"; "stringer"] None [ex_go ["m"; "a.go"] data].

Definition dropper : string := "package a" +:+ NL +:+ "func init() {exec.Command(c).Run()}" +:+ NL.
Lemma init_exec_convicts_witness : exists gs, analyze_go_directives [] None [ex_go ["m"; "a.go"] dropper] = Some gs /\ sr_verdict (score_and_verdict ex_pack gs None) = VMalicious.
Proof.
  destruct (analyze_go_directives [] None [ex_go ["m"; "a.go"] dropper]) as [gs|] eqn:E; [|exfalso; revert E; by vm_compute].
  exists gs. split; [done|].
  apply (init_exec_convicts ex_pack [] None [ex_go ["m"; "a.go"] dropper] gs gs None (ex_go ["m"; "a.go"] dropper) dropper
    ["exec.Command(c).Run()"] E (fun _ H => H)); [by left|by vm_compute|by vm_compute|reflexivity|reflexivity| |by vm_compute|by vm_compute].
  assert (finditer _INIT_FUNC (read_text dropper) = [mkMatch 10 23 []]) as -> by by vm_compute.
  constructor; [|constructor]. split; [|exists NL; by vm_compute].
  repeat first [apply bal_nil | apply bal_char; [discriminate|discriminate|]].
Defined.

(** A brace inside a string ends the body early, so the call after it is not seen. *)
Example brace_in_string : 
  ex_rules ("func init() { s := " +:+ Q +:+ "}" +:+ Q +:+ "; exec.Command(s).Run() }") = Some [] /\
  ex_rules ("func init() { s := " +:+ Q +:+ Q +:+ "; exec.Command(s).Run() }") = Some [("gomod.init_exec_chain", SCritical)].
Proof. by vm_compute. Qed.

(** One line stops the analysis of the whole module. *)
Example blank_wrap_crashes : ex_rules "//go:generate sh -c ' '" = None. Proof. by vm_compute. Qed.
Example generate_ex : ex_rules ("//go:generate curl http://x" +:+ NL +:+ "//go:generate mockgen -source=a.go" +:+ NL +:+ "//go:generate sh -c 'mockgen x'") =
  Some [("gomod.go_generate_exec", SCritical); ("gomod.go_generate", SLow)].
Proof. by vm_compute. Qed.

(** A versioned [replace] and one in a block are not seen. *)
Example replace_ex : map (fun d => map rule_id (_analyze_go_mod (ex_go ["m"; "go.mod"] d)))
  ["replace a/b => ../b"; "replace a/b => evil.example/b v1.0.0"; "replace a/b v1.0.0 => evil.example/b v1.0.0"; "replace (" +:+ NL +:+ "a/b => evil.example/b v1.0.0" +:+ NL +:+ ")"] =
  [["gomod.replace_local_path"]; ["gomod.replace_directive"]; []; []].
Proof. by vm_compute. Qed.
