(* ===== verification/Binary.v ===== *)
(** * Executable images ([src/pkgward/analyze/binary.py])

    Native binaries and run-time packers, by magic bytes; [looks_like_compiled_binary],
    by which the source-text analyzers decide not to read a file as text. *)
From S2P Require Import Prelude PyStr Text Findings Tree Intel Score.
From Stdlib Require Import Ascii String.

Open Scope string_scope.
Open Scope list_scope.
Open Scope Z_scope.

Definition CATEGORY : string := "binary".
Definition bin (rule : string) (sev : severity) (rel ev : string) : Finding := mkFinding rule CATEGORY sev CHigh rel None ev.
Definition UNPACKED_SUFFIX : string := ".upx_unpacked".

Inductive packer := UPX | COMMERCIAL | OTHER.
#[export] Instance packer_eq_dec : EqDecision packer.
Proof. solve_decision. Defined.

Definition _PACKER_SIGNATURES : list (string * string * packer) :=
  [("$Info: This file is packed with the UPX", "UPX", UPX); ("UPX!", "UPX", UPX);
   ("Themida", "Themida", COMMERCIAL); (".themida", "Themida", COMMERCIAL); ("WinLicense", "WinLicense", COMMERCIAL);
   ("VMProtect", "VMProtect", COMMERCIAL); (".vmp0", "VMProtect", COMMERCIAL); (".vmp1", "VMProtect", COMMERCIAL);
   (".enigma1", "Enigma", COMMERCIAL); (".enigma2", "Enigma", COMMERCIAL);
   ("ASPack", "ASPack", OTHER); (".aspack", "ASPack", OTHER); (".MPRESS1", "MPRESS", OTHER); (".MPRESS2", "MPRESS", OTHER);
   ("PECompact2", "PECompact", OTHER); ("FSG!", "FSG", OTHER); (".petite", "Petite", OTHER); (".MEW", "MEW", OTHER)].
Definition _PACKER_SCAN_BYTES : Z := Z.shiftl 1 20.

Definition _detect_packer (blob : string) : option (string * packer) :=
  (fun s => (s.1.2, s.2)) <$> List.find (fun s => contains s.1.1 blob) _PACKER_SIGNATURES.

Definition bytes (l : list Z) : string := string_of_list_ascii (map chr l).
Definition _MAGIC_BYTES : list (string * string) :=
  [(bytes [127] +:+ "ELF", "ELF"); ("MZ", "PE/COFF"); (bytes [254; 237; 250; 206], "Mach-O (32-bit)");
   (bytes [254; 237; 250; 207], "Mach-O (64-bit)"); (bytes [206; 250; 237; 254], "Mach-O (32-bit, swapped)");
   (bytes [207; 250; 237; 254], "Mach-O (64-bit, swapped)"); (bytes [202; 254; 186; 190], "Mach-O (universal)");
   (bytes [208; 207; 17; 224], "OLE2 (MS Office/MSI)")].
Definition _OK_EXTENSIONS : list string := [".so"; ".dll"; ".pyd"; ".dylib"; ".exe"; ".msi"; ".whl"; ".egg"].
Definition WASM : string := bytes [0; 97; 115; 109].
Definition _EXEC_IMAGE_MAGICS : list string :=
  [bytes [127] +:+ "ELF"; "MZ"; bytes [254; 237; 250; 206]; bytes [254; 237; 250; 207]; bytes [206; 250; 237; 254];
   bytes [207; 250; 237; 254]; bytes [202; 254; 186; 190]; WASM].

Definition has_image_magic (data : string) : bool := existsb (fun m => startswith (str_take 8 data) m) _EXEC_IMAGE_MAGICS.
Definition looks_like_compiled_binary (f : tree_file) : bool :=
  match tf_data f with Some data => has_image_magic data | None => false end.

Definition _OK_DIRS : list string := ["__pycache__"; ".git"; "node_modules"].
Definition _DISGUISE_EXTENSIONS : list string := [".py"; ".txt"; ".json"; ".cfg"; ".ini"; ".yml"; ".yaml"].

Section Artifacts.
(** The parts of the extraction directory, and the tree. *)
Variables (root : list string) (tree : list tree_file).

(** [p.with_name(name).exists()]: as a file, or as a directory with a file in it. *)
Definition sibling_exists (f : tree_file) (name : string) : bool :=
  let parts := removelast (tf_parts f) ++ [name] in
  existsb (fun g => bool_decide (parts `prefix_of` tf_parts g)) tree.

Definition packed_finding (f : tree_file) (label : string) (np : string * packer) : Finding :=
  let '(name, kind) := np in
  let unpacked := sibling_exists f (tf_name f +:+ UNPACKED_SUFFIX) in
  let '(sev, note) :=
    match kind with
    | COMMERCIAL => (SCritical, "commercial protector — no static unpacker, ~zero legit use")
    | UPX => if unpacked then (SMedium, "UPX — unpacked and re-analyzed (payload drives the verdict)")
             else (SHigh, "UPX — could not unpack (anti-unpack/unavailable)")
    | OTHER => (SHigh, "packed; no static unpacker")
    end in
  bin "binary.packed_executable" sev (real_path f)
    (label +:+ " executable packed with " +:+ name +:+ " (" +:+ tf_name f +:+ ") — " +:+ note).

Definition artifact_finding (f : tree_file) (label : string) : Finding :=
  let ext := suffix_lower f in
  if str_in ext _DISGUISE_EXTENSIONS then
    bin "binary.hidden_executable" SHigh (real_path f) (label +:+ " binary disguised as " +:+ ext +:+ " (" +:+ tf_name f +:+ ")")
  else if String.eqb ext "" then
    bin "binary.compiled_artifact" SLow (real_path f) (label +:+ " binary, no extension (" +:+ tf_name f +:+ ")")
  else bin "binary.compiled_artifact" SMedium (real_path f) (label +:+ " binary (" +:+ tf_name f +:+ ")").

Definition excluded (f : tree_file) : bool :=
  endswith (tf_name f) UNPACKED_SUFFIX || existsb (fun part => str_in part _OK_DIRS) (root ++ tf_parts f) || str_in (suffix_lower f) _OK_EXTENSIONS.

Definition magic_of (data : string) : option (string * string) := List.find (fun ml => startswith (str_take 8 data) ml.1) _MAGIC_BYTES.
Definition scan_artifact (f : tree_file) (data : string) : list Finding :=
  if (len (str_take 8 data) <? 2)%nat then []
  else match magic_of data with
  | None => []
  | Some (_, label) =>
      match _detect_packer (str_take (Z.to_nat _PACKER_SCAN_BYTES) data) with Some np => [packed_finding f label np] | None => [] end ++
      [artifact_finding f label]
  end.
Definition analyze_binary_artifacts (changed : option (list string)) : list Finding :=
  each_file (fun f => negb (excluded f)) changed scan_artifact tree.

End Artifacts.

(** ** What is reported *)

Definition SIGNATURES : list signature :=
  [("binary.packed_executable", SCritical, CHigh); ("binary.packed_executable", SHigh, CHigh); ("binary.packed_executable", SMedium, CHigh);
   ("binary.hidden_executable", SHigh, CHigh); ("binary.compiled_artifact", SLow, CHigh); ("binary.compiled_artifact", SMedium, CHigh)].

Lemma packed_signed tree f label np : signed_by CATEGORY SIGNATURES (packed_finding tree f label np).
Proof. destruct np as [name []]; cbn; try sign_one. destruct (sibling_exists _ _ _); sign_one. Qed.

Lemma binary_signed root tree changed : Forall (signed_by CATEGORY SIGNATURES) (analyze_binary_artifacts root tree changed).
Proof. unfold analyze_binary_artifacts, scan_artifact, artifact_finding. sign_all; apply packed_signed. Qed.

(** A text analyzer's reason to skip a file is this analyzer's reason to report it,
    WebAssembly apart. *)
Lemma startswith_take p s : startswith (str_take 8 s) p = true -> (len p <= len (str_take 8 s))%nat.
Proof. intros (t & ->)%prefix_inv. rewrite len_app. lia. Qed.

Lemma image_magic data : has_image_magic data = true -> startswith (str_take 8 data) WASM = false ->
  (2 <= len (str_take 8 data))%nat /\ exists ml, magic_of data = Some ml.
Proof.
  intros (m & Hm & Hp)%existsb_true Hw.
  assert (m <> WASM) as Hne by congruence.
  assert (exists label, (m, label) ∈ _MAGIC_BYTES /\ (2 <= len m)%nat) as (label & Hl & Hlen).
  { revert Hm. unfold _EXEC_IMAGE_MAGICS. rewrite !elem_of_cons. unfold _MAGIC_BYTES.
    intros [->|[->|[->|[->|[->|[->|[->|[->|H%elem_of_nil]]]]]]]]; try done; eexists; (split; [rewrite !elem_of_cons; eauto 9|vm_compute; lia]). }
  split; [apply startswith_take in Hp; lia|]. unfold magic_of. destruct (List.find _ _) as [ml|] eqn:E; [by exists ml|exfalso].
  apply list_elem_of_In in Hl. pose proof (find_none _ _ E _ Hl) as Hf. cbn [fst] in Hf. congruence.
Qed.

(** ** Properties *)

(** What the source-text analyzers leave to this one is not lost.  A changed, readable
    file that looks like a compiled binary, other than WebAssembly, and that the walk does
    not exclude, yields an artifact finding; and one whose first megabyte holds the mark of a
    commercial protector, and of no other packer, makes the package malicious. *)
Theorem skipped_text_is_flagged pack root tree changed fs r f data
  (Hfs : forall x, x ∈ analyze_binary_artifacts root tree changed -> x ∈ fs)
  (Hf : f ∈ tree) (He : excluded root f = false) (Hu : unchanged_file changed f = false) (Hd : tf_data f = Some data)
  (Hb : looks_like_compiled_binary f = true) (Hw : startswith (str_take 8 data) WASM = false) :
  (exists g, g ∈ fs /\ file g = real_path f /\ rule_id g ∈ ["binary.hidden_executable"; "binary.compiled_artifact"]) /\
  (forall name, _detect_packer (str_take (Z.to_nat _PACKER_SCAN_BYTES) data) = Some (name, COMMERCIAL) ->
     sr_verdict (score_and_verdict pack fs r) = VMalicious).
Proof.
  unfold looks_like_compiled_binary in Hb. rewrite Hd in Hb. destruct (image_magic data Hb Hw) as (Hlen & [magic label] & Hm).
  assert (forall x, x ∈ scan_artifact tree f data -> x ∈ fs) as Hin.
  { intros x Hx. apply Hfs, each_file_in. exists f, data. by rewrite He. }
  unfold scan_artifact in Hin. apply Nat.ltb_ge in Hlen. rewrite Hlen, Hm in Hin. split.
  - exists (artifact_finding f label). split; [apply Hin, elem_of_app; right; by left|].
    unfold artifact_finding. cbv zeta. destruct (str_in _ _); [|destruct (String.eqb _ _)];
      (split; [reflexivity|cbn [rule_id bin]; rewrite !elem_of_cons; auto]).
  - intros name Hp. rewrite Hp in Hin. apply (critical_convicts pack fs r (packed_finding tree f label (name, COMMERCIAL))); [|reflexivity|reflexivity].
    apply Hin. by left.
Qed.

(** ** Concrete files *)

Definition ex_bin (parts : list string) (data : string) : tree_file := mkTreeFile parts (Some (Z.of_nat (len data))) (Some data).
Definition ex_scan (tree : list tree_file) : list (string * severity) :=
  map (fun g => (rule_id g, f_severity g)) (analyze_binary_artifacts ["tmp"; "x"] tree None).

Definition ex_packed : tree_file := ex_bin ["package"; "tool.js"] "MZ....VMProtect".
Lemma skipped_text_is_flagged_witness :
  sr_verdict (score_and_verdict ex_pack (analyze_binary_artifacts ["tmp"; "x"] [ex_packed] None) None) = VMalicious.
Proof.
  apply (skipped_text_is_flagged ex_pack ["tmp"; "x"] [ex_packed] None (analyze_binary_artifacts ["tmp"; "x"] [ex_packed] None) None ex_packed "MZ....VMProtect"
    (fun x H => H)) with (name := "VMProtect"); [by left|by vm_compute|reflexivity|reflexivity|by vm_compute|by vm_compute|by vm_compute].
Defined.

(** WebAssembly under a source name is skipped as text and not reported as a binary. *)
Definition wasm_js : tree_file := ex_bin ["package"; "tool.js"] (WASM +:+ bytes [1; 0; 0; 0]).
Example wasm_lost : looks_like_compiled_binary wasm_js = true /\ ex_scan [wasm_js] = [].
Proof. by vm_compute. Qed.

(** Source text that begins with [MZ] counts as a compiled binary. *)
Example mz_source : looks_like_compiled_binary (ex_bin ["package"; "install.js"] "MZ=0;eval(atob(x))") = true.
Proof. by vm_compute. Qed.

(** A packed executable under its own extension is never looked at. *)
Example packed_exe_unseen : ex_scan [ex_bin ["package"; "setup.exe"] "MZ....VMProtect"] = [] /\
  ex_scan [ex_bin ["package"; "setup.dat"] "MZ....VMProtect"] = [("binary.packed_executable", SCritical); ("binary.compiled_artifact", SMedium)].
Proof. by vm_compute. Qed.
