(* ===== verification/BuildRs.v ===== *)
(** * Rust build scripts ([src/pkgward/ecosystems/crates/build_rs.py])

    [build.rs] runs at compile time: network and process use, bulk environment reads,
    writes outside [OUT_DIR], embedded executables and encoded payloads. *)
From S2P Require Import Prelude PyStr Text Regex RegexSyntax Findings Tree Intel Score.
From Stdlib Require Import Ascii String.

Open Scope string_scope.
Open Scope list_scope.
Open Scope Z_scope.

Definition CATEGORY : string := "installer".
Definition rs (rule : string) (sev : severity) (conf : confidence) (rel ev : string) : Finding := mkFinding rule CATEGORY sev conf rel None ev.

Definition _NETWORK_PATTERNS : regex := compile icase
  ("(?:reqwest|ureq|hyper|curl|std::net::TcpStream|" +:+ "std::net::UdpSocket|attohttpc|minreq|isahc)").
Definition _EXEC_PATTERNS : regex := compile plain
  ("(?:std::process::Command|Command::new|" +:+ "std::os::unix::process|exec::Command)").
Definition _SENSITIVE_ENV_VARS : list string :=
  ["HOME"; "USERPROFILE"; "SSH_AUTH_SOCK"; "SSH_PRIVATE_KEY"; "AWS_SECRET_ACCESS_KEY"; "AWS_ACCESS_KEY_ID"; "AWS_SESSION_TOKEN";
   "GH_TOKEN"; "GITHUB_TOKEN"; "GITLAB_TOKEN"; "DOCKER_PASSWORD"; "NPM_TOKEN"; "CARGO_REGISTRY_TOKEN"; "DATABASE_URL"; "SECRET_KEY"; "PRIVATE_KEY"].
Definition _ENV_READ : regex := compile plain ("(?:std::env::var|env::var|env!)\s*\(\s*" +:+ Q +:+ "([^" +:+ Q +:+ "]+)" +:+ Q).
Definition _OUTDIR_ESCAPE : regex := compile plain
  ("(?:fs::write|File::create|OpenOptions)\s*\(\s*" +:+ Q +:+ "(/[^" +:+ Q +:+ "]+|(?:\$HOME|~)[^" +:+ Q +:+ "]*)" +:+ Q).
Definition _INCLUDE_BYTES : regex := compile plain ("include_bytes!\s*\(\s*" +:+ Q +:+ "([^" +:+ Q +:+ "]+)" +:+ Q).
Definition _SUSPICIOUS_EXTENSIONS : list string := [".exe"; ".dll"; ".so"; ".sh"; ".ps1"; ".bat"; ".cmd"; ".bin"].
Definition _ENCODED_PAYLOAD : regex := compile plain "(?:[A-Za-z0-9+/]{200,}={0,2}|(?:\\x[0-9a-fA-F]{2}){50,})".

Definition first_match (rx : regex) (content : string) : string :=
  match search rx content with Some m => group0 content m | None => "" end.

Definition scan_build_rs (f : tree_file) (data : string) : list Finding :=
  let content := read_text data in
  let rel_path := real_path f in
  let has_network := found _NETWORK_PATTERNS content in
  let has_exec := found _EXEC_PATTERNS content in
  let sensitive_reads := bfilter (fun v => str_in v _SENSITIVE_ENV_VARS) (findall _ENV_READ content) in
  (if has_network && has_exec then
     [rs "crates.build_rs_net_exec_chain" SCritical CHigh rel_path "build.rs contains both network calls and command execution"] else []) ++
  (if has_network then
     [rs "crates.build_rs_network" SHigh CHigh rel_path ("network library in build.rs: " +:+ first_match _NETWORK_PATTERNS content)] else []) ++
  (if has_exec then
     [rs "crates.build_rs_exec" SMedium CMedium rel_path ("command execution in build.rs: " +:+ first_match _EXEC_PATTERNS content)] else []) ++
  (if (3 <=? List.length sensitive_reads)%nat then
     [rs "crates.build_rs_env_harvest" SHigh CHigh rel_path ("bulk env reads: " +:+ join ", " (firstn 5 sensitive_reads))] else []) ++
  map (fun m => rs "crates.build_rs_outdir_escape" SHigh CMedium rel_path ("write outside OUT_DIR: " +:+ group_or content 1 m))
    (finditer _OUTDIR_ESCAPE content) ++
  map (fun included => rs "crates.build_rs_suspicious_include" SHigh CMedium rel_path ("include_bytes! of suspicious file: " +:+ included))
    (bfilter (fun included => str_in (path_suffix_lower included) _SUSPICIOUS_EXTENSIONS) (findall _INCLUDE_BYTES content)) ++
  (if found _ENCODED_PAYLOAD content then
     [rs "crates.build_rs_encoded_payload" SMedium CMedium rel_path "large encoded payload in build.rs"] else []).

(** Every [build.rs] of the crate, at any depth; there is no change filter. *)
Definition build_rs_file (f : tree_file) : bool := String.eqb (tf_name f) "build.rs".
Definition analyze_build_rs (tree : list tree_file) : list Finding := each_file build_rs_file None scan_build_rs tree.

(** ** What is reported *)

Definition SIGNATURES : list signature :=
  [("crates.build_rs_net_exec_chain", SCritical, CHigh); ("crates.build_rs_network", SHigh, CHigh); ("crates.build_rs_exec", SMedium, CMedium);
   ("crates.build_rs_env_harvest", SHigh, CHigh); ("crates.build_rs_outdir_escape", SHigh, CMedium);
   ("crates.build_rs_suspicious_include", SHigh, CMedium); ("crates.build_rs_encoded_payload", SMedium, CMedium)].

Lemma build_rs_signed tree : Forall (signed_by CATEGORY SIGNATURES) (analyze_build_rs tree).
Proof. unfold analyze_build_rs, scan_build_rs. sign_all. Qed.

Lemma rs_patterns_compiled : forallb compiled
  [_NETWORK_PATTERNS; _EXEC_PATTERNS; _ENV_READ; _OUTDIR_ESCAPE; _INCLUDE_BYTES; _ENCODED_PAYLOAD] = true.
Proof. by vm_compute. Qed.

(** ** Properties *)

(** A build script that fetches and runs convicts.  Any readable [build.rs] of the crate
    in whose text the network patterns and the process patterns both occur, wherever,
    makes the package malicious; and the chain is reported of such scripts only. *)
Theorem build_chain_convicts pack tree fs r (Hfs : forall x, x ∈ analyze_build_rs tree -> x ∈ fs) :
  (forall f data i j i' j', f ∈ tree -> build_rs_file f = true -> tf_data f = Some data ->
    occurs _NETWORK_PATTERNS (codes_of (read_text data)) i j -> occurs _EXEC_PATTERNS (codes_of (read_text data)) i' j' ->
    sr_verdict (score_and_verdict pack fs r) = VMalicious) /\
  (forall g, g ∈ analyze_build_rs tree -> f_severity g = SCritical ->
    exists f data, f ∈ tree /\ build_rs_file f = true /\ tf_data f = Some data /\ file g = real_path f /\
      found _NETWORK_PATTERNS (read_text data) = true /\ found _EXEC_PATTERNS (read_text data) = true).
Proof.
  split.
  - intros f data i j i' j' Hf Hb Hd Hn He.
    assert (found _NETWORK_PATTERNS (read_text data) = true) as Hn' by (apply found_true; by exists i, j).
    assert (found _EXEC_PATTERNS (read_text data) = true) as He' by (apply found_true; by exists i', j').
    apply (critical_convicts pack fs r (rs "crates.build_rs_net_exec_chain" SCritical CHigh (real_path f) "build.rs contains both network calls and command execution"));
      [|reflexivity|reflexivity].
    apply Hfs, each_file_in. exists f, data. split_and!; try done. unfold scan_build_rs. cbv zeta. rewrite Hn', He'. by left.
  - intros g (f & data & Hf & Hb & _ & Hd & Hg)%each_file_in Hs. exists f, data. unfold scan_build_rs in Hg. cbv zeta in Hg.
    rewrite !elem_of_app in Hg. destruct Hg as [Hg|[Hg|[Hg|[Hg|[Hg|[Hg|Hg]]]]]];
      try (apply list_elem_of_fmap in Hg as (? & -> & _); done); case_match eqn:E; try (by apply elem_of_nil in Hg);
      apply list_elem_of_singleton in Hg as ->; try done. by apply andb_true_iff in E as [-> ->].
Qed.

(** ** Concrete scripts *)

Definition ex_rs (data : string) : tree_file := mkTreeFile ["c-1.0"; "build.rs"] (Some (Z.of_nat (len data))) (Some data).
Definition ex_script : string := "use std::process::Command; fn main() { ureq::get(U); }".
Lemma build_chain_convicts_witness : sr_verdict (score_and_verdict ex_pack (analyze_build_rs [ex_rs ex_script]) None) = VMalicious.
Proof.
  assert (found _NETWORK_PATTERNS (read_text ex_script) = true) as (i & j & Hn)%found_true by by vm_compute.
  assert (found _EXEC_PATTERNS (read_text ex_script) = true) as (i' & j' & He)%found_true by by vm_compute.
  apply (proj1 (build_chain_convicts ex_pack [ex_rs ex_script] (analyze_build_rs [ex_rs ex_script]) None (fun x H => H))
    (ex_rs ex_script) ex_script i j i' j'); [by left|reflexivity|reflexivity|exact Hn|exact He].
Defined.

(** One variable read three times counts as three reads. *)
Definition home : string := "env::var(" +:+ Q +:+ "HOME" +:+ Q +:+ ");".
Example env_repeat : map rule_id (analyze_build_rs [ex_rs (home +:+ home +:+ home)]) = ["crates.build_rs_env_harvest"].
Proof. by vm_compute. Qed.

(** [OpenOptions] is never called with a path, so that branch of the write pattern is dead;
    a path in a variable is not seen. *)
Example write_ex : map rule_id (analyze_build_rs [ex_rs ("fs::write(" +:+ Q +:+ "/etc/cron.d/x" +:+ Q +:+ ", p); OpenOptions::new().open(" +:+ Q +:+ "/etc/x" +:+ Q +:+ ");")]) =
  ["crates.build_rs_outdir_escape"].
Proof. by vm_compute. Qed.
