(* ===== verification/UrlDeps.v ===== *)
(** * URL dependencies of npm packages ([src/pkgward/ecosystems/npm/url_deps.py])

    Every dependency given as a URL is reported; those on suspicious hosts are fetched, within
    bounds and past an address check, and the fetched archive is analysed.  Name
    resolution, the HTTP responses, extraction and the analyzers are arguments. *)
From S2P Require Import Prelude PyStr Text Regex RegexSyntax Findings Tree Json NpmInstall.
From Stdlib Require Import Ascii String.

Open Scope string_scope.
Open Scope list_scope.
Open Scope Z_scope.

Definition CATEGORY : string := "installer".
Definition _DEP_KEYS : list string := ["dependencies"; "devDependencies"; "optionalDependencies"; "peerDependencies"].
Definition _URL_SPEC_RE : regex := compile icase "^https?://".
Definition _SUSPICIOUS_SUFFIXES : list string :=
  ["storage.googleapis.com"; "s3.amazonaws.com"; "amazonaws.com"; "blob.core.windows.net"; "r2.dev"; "r2.cloudflarestorage.com";
   "workers.dev"; "pages.dev"; "trycloudflare.com"; "ngrok.io"; "ngrok-free.app"; "ngrok.app"; "ngrok.dev"; "deno.dev"; "val.run"; "glitch.me";
   "repl.co"; "replit.dev"; "surge.sh"; "serveo.net"; "loca.lt"; "telebit.io"; "transfer.sh"; "anonfiles.com"; "gofile.io"; "file.io"; "0x0.st";
   "termbin.com"; "pastebin.com"; "paste.ee"; "ghostbin.com"; "rentry.co"; "gist.githubusercontent.com"; "raw.githubusercontent.com"].
(** The environment variables that override them are unset. *)
Definition MAX_FETCH_BYTES : Z := 20 * 1024 * 1024.
Definition MAX_DEPS : nat := 3.

Definition _host_suspicious (host : string) : bool := existsb (host_under (rstrip_char "." (lower host))) _SUSPICIOUS_SUFFIXES.

(** ** The manifest *)

Definition deps_of (v : json) : list (string * string) :=
  match v with
  | JObj o => omap (fun kv => match kv.2 with
      | JStr spec => if found_at_start _URL_SPEC_RE (strip spec) then Some (kv.1, strip spec) else None
      | _ => None end) (dict_of o)
  | _ => []
  end.
Definition _extract_url_deps (manifest : list (string * json)) : list (string * string) :=
  flat_map (fun key => deps_of (jget key manifest JNull)) _DEP_KEYS.

(** ** [urlparse(url).hostname] *)

Section Hosts.
(** Whether what stands in brackets is an address. *)
Variable bracketed_host_ok : string -> bool.

Fixpoint until (stop : ascii -> bool) (s : string) : string :=
  match s with EmptyString => "" | String c s' => if stop c then "" else String c (until stop s') end.
Definition netloc_of (url : string) : string :=
  until (fun c => has_char c "/?#") (default "" (after_sub "://" (remove_char (chr 9) (remove_char CR (remove_char LF url))))).
(** [None]: a [ValueError]. *)
Definition hostname (url : string) : option string :=
  let netloc := netloc_of url in
  let hostinfo := after_last "@" netloc in
  match has_char "[" netloc, has_char "]" netloc with
  | false, false => Some (lower (until (fun c => Ascii.eqb c ":") hostinfo))
  | true, true =>
      let inner s := before_first "]" (ostr (after_first "[" s)) in
      if bracketed_host_ok (inner netloc) then
        Some (lower (if has_char "[" hostinfo then inner hostinfo else until (fun c => Ascii.eqb c ":") hostinfo))
      else None
  | _, _ => None
  end.

End Hosts.

(** ** Addresses *)

(** What [ipaddress] says of an address. *)
Record address := mkAddress {
  is_private : bool; is_loopback : bool; is_link_local : bool; is_reserved : bool; is_multicast : bool; is_unspecified : bool }.
Definition forbidden (a : address) : bool :=
  is_private a || is_loopback a || is_link_local a || is_reserved a || is_multicast a || is_unspecified a.
(** The answer of [getaddrinfo]: an error, or addresses, of which some may not parse. *)
Definition answer : Type := option (list (option address)).
Definition _ssrf_safe (a : answer) : bool :=
  match a with
  | None | Some [] => false
  | Some infos => forallb (fun i => match i with Some x => negb (forbidden x) | None => false end) infos
  end.

(** ** Fetching *)

(** A response: the request failed, or a status and the chunks of the body. *)
Definition response : Type := option (Z * list string).
(** The reading loop; [None] where the cap is exceeded. *)
Fixpoint read_chunks (buf : string) (chunks : list string) : option string :=
  match chunks with
  | [] => Some buf
  | c :: cs => let buf' := buf +:+ c in if MAX_FETCH_BYTES <? Z.of_nat (len buf') then None else read_chunks buf' cs
  end.
Definition _bounded_get (r : response) : option string :=
  '(status, chunks) ← r;
  if status =? 200 then read_chunks "" chunks else Some "".

Section Analyse.
(** [safe_extract] of an archive of the given name ([None]: it raised), and the four
    analyzers over the tree ([None]: it raised). *)
Variables (safe_extract : string -> string -> option (list tree_file)) (analyzers : list (list tree_file -> option (list Finding))).

Definition of_dep (dep_name : string) (f : Finding) : Finding :=
  mkFinding (rule_id f) (category f) (f_severity f) (f_confidence f) ("[fetched-dep:" +:+ dep_name +:+ "] " +:+ file f) (line f) (evidence f).
Definition _analyze_stage_bytes (dep_name data : string) : list Finding :=
  match safe_extract (if String.eqb (str_take 2 data) "PK" then "stage.zip" else "stage.tgz") data with
  | None => []
  | Some tree => map (of_dep dep_name) (flat_map (fun fn => default [] (fn tree)) analyzers)
  end.
Definition _fetch_and_analyze (dep_name : string) (r : response) : list Finding :=
  match _bounded_get r with
  | None => []
  | Some data => if truthy data then _analyze_stage_bytes dep_name data else []
  end.

(** ** The loop *)

(** [PKGWARD_FETCH_URL_DEPS]; what a host resolves to when it is checked; what a URL answers. *)
Variables (fetch_enabled : bool) (bracketed_host_ok : string -> bool) (resolves : string -> answer) (get : string -> response).

Definition url_finding (name url : string) (suspicious : bool) : Finding :=
  mkFinding "installer.npm_url_dependency" CATEGORY (if suspicious then SHigh else SMedium) CHigh "package.json" None
    ("dependency " +:+ repr name +:+ " is a direct URL" +:+ (if suspicious then " on a suspicious file host" else "") +:+
     " (not a registry range): " +:+ str_take 200 url).

(** URLs seen, findings, URLs fetched. *)
Record url_state := mkUrl { seen : list string; found_so_far : list Finding; fetched : list string }.
Definition url_step (st : url_state) (dep : string * string) : option url_state :=
  let '(name, url) := dep in
  if str_in url (seen st) then Some st
  else
    host ← hostname bracketed_host_ok url;
    let suspicious := _host_suspicious host in
    let st := mkUrl (url :: seen st) (found_so_far st ++ [url_finding name url suspicious]) (fetched st) in
    Some (if suspicious && fetch_enabled && (List.length (fetched st) <? MAX_DEPS)%nat && _ssrf_safe (resolves host) then
            mkUrl (seen st) (found_so_far st ++ _fetch_and_analyze name (get url)) (fetched st ++ [url])
          else st).
Definition url_loop (deps : list (string * string)) : option url_state := foldM url_step (mkUrl [] [] []) deps.

Variable loads : string -> option json.
Definition manifest_deps (m : tree_file) : list (string * string) :=
  match (tf_data m ≫= fun d => loads (read_text d)) with Some (JObj o) => _extract_url_deps o | _ => [] end.
Definition analyze_url_dependencies (tree : list tree_file) : option (list Finding) :=
  found_so_far <$> url_loop (flat_map manifest_deps (_root_package_json_paths tree)).

End Analyse.

(** ** What is reported *)

Lemma pattern_compiled : compiled _URL_SPEC_RE = true.
Proof. by vm_compute. Qed.

Lemma read_chunks_bound buf cs b : Z.of_nat (len buf) <= MAX_FETCH_BYTES -> read_chunks buf cs = Some b -> Z.of_nat (len b) <= MAX_FETCH_BYTES.
Proof.
  revert buf. induction cs as [|c cs IH]; intros buf Hb; cbn [read_chunks]; [by intros [= <-]|]. cbv zeta.
  destruct (Z.ltb_spec MAX_FETCH_BYTES (Z.of_nat (len (buf +:+ c)))); [done|]. by apply IH.
Qed.

Lemma bounded_get_bound r b : _bounded_get r = Some b -> Z.of_nat (len b) <= MAX_FETCH_BYTES.
Proof.
  unfold _bounded_get. intros ([status chunks] & _ & H)%bind_Some. destruct (status =? 200); [|injection H as <-; vm_compute; discriminate].
  eapply read_chunks_bound; [|exact H]. vm_compute. discriminate.
Qed.

Section Loop.
Context (ex : string -> string -> option (list tree_file)) (an : list (list tree_file -> option (list Finding))) (enabled : bool)
  (ok : string -> bool) (resolves : string -> answer) (get : string -> response).
Notation step := (url_step ex an enabled ok resolves get).

(** A URL that may be fetched. *)
Definition fetchable (url : string) : Prop :=
  enabled = true /\ exists host, hostname ok url = Some host /\ _host_suspicious host = true /\ _ssrf_safe (resolves host) = true.

Definition guarded (st : url_state) : Prop :=
  (List.length (fetched st) <= MAX_DEPS)%nat /\ NoDup (fetched st) /\ (forall u, u ∈ fetched st -> u ∈ seen st /\ fetchable u).
Definition flagged (url : string) (st : url_state) : Prop :=
  exists g name host, g ∈ found_so_far st /\ hostname ok url = Some host /\ g = url_finding name url (_host_suspicious host).

Lemma step_guarded st dep st' : step st dep = Some st' -> guarded st -> guarded st'.
Proof.
  destruct dep as [name url]. unfold url_step. destruct (str_in url (seen st)) eqn:Es; [by intros [= <-]|].
  intros (host & Hh & [= <-])%bind_Some (H1 & H2 & H3). cbn [seen found_so_far fetched].
  destruct (_host_suspicious host && enabled && _ && _) eqn:E; cbn [seen fetched]; [|split_and!; [done|done|]; intros u Hu; cbn [seen fetched] in *; destruct (H3 u Hu); split; [by right|done]].
  rewrite !andb_true_iff in E. destruct E as [[[Hs He] Hn%Nat.ltb_lt] Hsafe]. split_and!; cbn [seen fetched].
  - rewrite length_app. cbn [List.length]. lia.
  - apply NoDup_app. split_and!; [done| |repeat constructor; by intros ?%elem_of_nil]. intros u Hu ->%list_elem_of_singleton.
    destruct (H3 url Hu) as [Hin _]. apply str_in_true in Hin. congruence.
  - intros u [Hu|Hu]%elem_of_app; [destruct (H3 u Hu); split; [by right|done]|]. apply list_elem_of_singleton in Hu as ->. split; [by left|].
    split; [done|]. by exists host.
Qed.

Lemma step_seen st dep st' : step st dep = Some st' ->
  (forall u, u ∈ seen st -> flagged u st) -> forall u, u ∈ seen st' -> flagged u st'.
Proof.
  destruct dep as [name url]. unfold url_step. destruct (str_in url (seen st)); [by intros [= <-]|]. intros (host & Hh & [= <-])%bind_Some H u Hu.
  assert (u ∈ url :: seen st) as [->|Hin]%elem_of_cons by (revert Hu; by case_match).
  - exists (url_finding name url (_host_suspicious host)), name, host. split_and!; [|done|done].
    case_match; cbn [found_so_far]; rewrite !elem_of_app; [left; right; by left|right; by left].
  - destruct (H u Hin) as (g & n & h & Hg & Hhh & He). exists g, n, h. split_and!; [|done|done]. case_match; cbn [found_so_far]; rewrite !elem_of_app; auto.
Qed.

Lemma step_sees st dep st' : step st dep = Some st' -> dep.2 ∈ seen st' /\ forall u, u ∈ seen st -> u ∈ seen st'.
Proof.
  destruct dep as [name url]. unfold url_step. destruct (str_in url (seen st)) eqn:E; [intros [= <-]; split; [by apply str_in_true|done]|].
  intros (host & Hh & [= <-])%bind_Some. case_match; cbn [seen]; (split; [by left|intros u Hu; by right]).
Qed.

(** The loop raises on the first URL whose host cannot be taken, and on nothing else. *)
Lemma loop_raises deps : url_loop ex an enabled ok resolves get deps = None <-> exists dep, dep ∈ deps /\ hostname ok dep.2 = None.
Proof.
  unfold url_loop. assert (forall st, (forall u, u ∈ seen st -> hostname ok u <> None) ->
    (foldM step st deps = None <-> exists dep, dep ∈ deps /\ hostname ok dep.2 = None)) as H; [|apply H; by intros u ?%elem_of_nil].
  induction deps as [|[name url] deps IH]; intros st Hst; cbn [foldM]; [split; [done|by intros (? & ?%elem_of_nil & _)]|].
  destruct (step st (name, url)) as [st'|] eqn:E; cbn [mbind option_bind].
  - assert (hostname ok url <> None) as Hu.
    { unfold url_step in E. destruct (str_in url (seen st)) eqn:Ei; [apply Hst; by apply str_in_true|]. intros Hn. by rewrite Hn in E. }
    rewrite (IH st'); [setoid_rewrite elem_of_cons; split; [intros (d & ? & ?); exists d; tauto|intros (d & [->|?] & ?); [done|by exists d]]|].
    intros u Hin. unfold url_step in E. destruct (str_in url (seen st)); [injection E as <-; by apply Hst|].
    apply bind_Some in E as (host & Hh & [= <-]). assert (u ∈ url :: seen st) as [->|?]%elem_of_cons by (revert Hin; by case_match); [done|by apply Hst].
  - split; [intros _|done]. exists (name, url). split; [by left|]. unfold url_step in E. destruct (str_in url (seen st)); [done|]. by apply bind_None in E as [?|(? & _ & ?)].
Qed.


End Loop.

Definition SIGNATURES : list signature := [("installer.npm_url_dependency", SHigh, CHigh); ("installer.npm_url_dependency", SMedium, CHigh)].

(** ** Concrete dependencies *)

Definition public : address := mkAddress false false false false false false.
Definition metadata_service : address := mkAddress true false true false false false.
Definition ex_resolves (h : string) : answer := if startswith h "internal" then Some [Some public; Some metadata_service] else Some [Some public].
Definition ex_loop (deps : list (string * string)) : option url_state :=
  url_loop (fun _ _ => Some []) [] true (fun _ => false) ex_resolves (fun _ => Some (200, ["x"])) deps.
Definition ex_deps : list (string * string) :=
  [("a", "https://b.s3.amazonaws.com/a.tgz"); ("b", "https://internal.workers.dev/b.tgz"); ("c", "https://u@x.r2.dev:8443/c.tgz");
   ("a", "https://b.s3.amazonaws.com/a.tgz"); ("d", "https://registry.npmjs.org/d.tgz"); ("e", "https://file.io./e"); ("f", "https://gofile.io/f")].


(** One URL that does not parse stops the loop, so no dependency of the package is reported. *)
Example bad_url_hides_all : ex_loop (ex_deps ++ [("z", "https://[")]) = None. Proof. by vm_compute. Qed.
