(* ===== verification/PypiInstall.v ===== *)
(** * PyPI install scripts ([src/pkgward/ecosystems/pypi/installer.py])

    The calls of the install-time [setup.py].  [ast.parse] is an argument: a tree, a
    [SyntaxError], or another exception ([RecursionError] and [MemoryError] on deep nesting,
    [ValueError] on null bytes), which the code does not catch. *)
From S2P Require Import Prelude PyStr Text Findings Tree PyAst Intel Score.
From Stdlib Require Import Ascii String.

Open Scope string_scope.
Open Scope list_scope.
Open Scope Z_scope.

Definition CATEGORY : string := "installer".

(** The outcome of [ast.parse]. *)
Inductive parsed := Parsed (t : module_) | SyntaxError | Raises.

Definition _NET_READ_FUNCS : list string := ["urlopen"; "urlretrieve"; "get"; "post"; "request"].
Definition _EXEC_FUNCS : list string := ["exec"; "compile"; "eval"].
Definition _SUBPROCESS_FUNCS : list string := ["Popen"; "run"; "call"; "check_call"; "check_output"; "getoutput"; "getstatusoutput"].

(** A call, as far as the findings show it: the dotted name and the line. *)
Definition hit : Type := string * Z.
Definition hits_where (p : node -> list node -> bool) (t : module_) : list hit :=
  omap (fun n => match n with Call f args _ ln => if p f args then Some (call_name f, ln) else None | _ => None end) (walk_stmts t).

Definition _has_net_read : module_ -> list hit := hits_where (fun f _ => str_in (call_tail f) _NET_READ_FUNCS).
Definition eats_call (args : list node) : bool := existsb (fun a => match a with Call _ _ _ _ | Attribute _ _ => true | _ => false end) args.
Definition _exec_eats_call : module_ -> list hit := hits_where (fun f args => str_in (call_tail f) _EXEC_FUNCS && eats_call args).

(** Bare names bound to [subprocess] functions, and names of the module. *)
Definition asname_of (a : alias) : string := str_or (ostr (al_asname a)) (al_name a).
Definition name_aliases (t : module_) : list string :=
  flat_map (fun n => match n with
    | ImportFrom (Some m) names => if String.eqb m "subprocess" then map asname_of (bfilter (fun a => str_in (al_name a) _SUBPROCESS_FUNCS) names) else []
    | _ => [] end) (walk_module t).
Definition mod_aliases (t : module_) : list string :=
  "subprocess" :: flat_map (fun n => match n with
    | Import names => map asname_of (bfilter (fun a => String.eqb (al_name a) "subprocess") names)
    | _ => [] end) (walk_module t).
Definition is_subprocess (t : module_) (f : node) : bool :=
  let full := call_name f in
  let parts := split "." full in
  let tail := List.last parts "" in
  truthy full &&
  match parts with
  | p0 :: _ :: _ => str_in p0 (mod_aliases t) && str_in tail _SUBPROCESS_FUNCS
  | [_] => String.eqb tail "Popen" || str_in tail (name_aliases t)
  | [] => false
  end.
Definition _subprocess_calls (t : module_) : list hit := hits_where (fun f _ => is_subprocess t f) t.
Definition _os_system_calls : module_ -> list hit := hits_where (fun f _ => str_in (call_name f) ["os.system"; "os.popen"]).

Definition setup_findings (name : string) (t : module_) : list Finding :=
  match _has_net_read t, _exec_eats_call t with
  | _ :: _, n :: _ =>
      [mkFinding "installer.urlopen_exec_chain" CATEGORY SCritical CHigh name (Some n.2) "network-read result passed to exec/compile/eval at install time"]
  | _, _ => []
  end ++
  map (fun n => mkFinding "installer.subprocess_at_install" CATEGORY SHigh CMedium name (Some n.2) ("subprocess call at install time: " +:+ n.1)) (_subprocess_calls t) ++
  map (fun n => mkFinding "installer.os_system_at_install" CATEGORY SHigh CHigh name (Some n.2) ("os.system/os.popen at install time: " +:+ n.1)) (_os_system_calls t).

Section Pypi.
Variable ast_parse : string -> parsed.

Definition _analyze_setup_py (f : tree_file) : option (list Finding) :=
  match tf_data f with
  | None => Some []
  | Some data =>
      match ast_parse (read_text data) with Parsed t => Some (setup_findings (tf_name f) t) | SyntaxError => Some [] | Raises => None end
  end.

Variable tree : list tree_file.
Definition file_at (parts : list string) : option tree_file := List.find (fun f => bool_decide (tf_parts f = parts)) tree.
Definition _install_setup_py_paths : list tree_file :=
  option_list (file_at ["setup.py"]) ++
  omap (fun d => file_at [d; "setup.py"]) (dedup (omap (fun f => match tf_parts f with d :: _ :: _ => Some d | _ => None end) tree)).
Definition analyze_install_scripts : option (list Finding) := @List.concat _ <$> mapM _analyze_setup_py _install_setup_py_paths.

End Pypi.

(** ** What is reported *)

Definition SIGNATURES : list signature :=
  [("installer.urlopen_exec_chain", SCritical, CHigh); ("installer.subprocess_at_install", SHigh, CMedium); ("installer.os_system_at_install", SHigh, CHigh)].

Lemma setup_signed name t : Forall (signed_by CATEGORY SIGNATURES) (setup_findings name t).
Proof. unfold setup_findings. sign_all. Qed.

Lemma pypi_signed ast_parse tree fs : analyze_install_scripts ast_parse tree = Some fs -> Forall (signed_by CATEGORY SIGNATURES) fs.
Proof.
  intros (fss & Hm & ->)%fmap_Some. eapply mapM_forall; [|exact Hm]. intros f fs. unfold _analyze_setup_py.
  destruct (tf_data f); [|intros [= <-]; constructor]. destruct (ast_parse _); intros [= <-]; [apply setup_signed|constructor].
Qed.

Lemma hits_in p t h : h ∈ hits_where p t <-> exists f args kws ln, Call f args kws ln ∈ walk_stmts t /\ p f args = true /\ h = (call_name f, ln).
Proof.
  unfold hits_where. rewrite list_elem_of_omap. split.
  - intros (n & Hn & H). destruct n; try done. destruct (p _ _) eqn:E; [|done]. injection H as <-. eauto 8.
  - intros (f & args & kws & ln & Hn & Hp & ->). exists (Call f args kws ln). by rewrite Hp.
Qed.

(** A script with a network read and an [exec] of a call convicts, whether or not the one
    feeds the other. *)
Lemma setup_chain_convicts pack ast_parse tree gs fs r f data t (Ha : analyze_install_scripts ast_parse tree = Some gs)
  (Hfs : forall x, x ∈ gs -> x ∈ fs) (Hf : f ∈ _install_setup_py_paths tree) (Hd : tf_data f = Some data) (Hp : ast_parse (read_text data) = Parsed t)
  (Hn : _has_net_read t <> []) (He : _exec_eats_call t <> []) : sr_verdict (score_and_verdict pack fs r) = VMalicious.
Proof.
  apply fmap_Some in Ha as (fss & Hm & ->). destruct (mapM_elem _ _ _ f Hm Hf) as (ff & Hff & Hin). unfold _analyze_setup_py in Hff. rewrite Hd, Hp in Hff.
  injection Hff as <-. destruct (_has_net_read t) as [|a l] eqn:En; [done|]. destruct (_exec_eats_call t) as [|b l'] eqn:Ee; [done|].
  apply (critical_convicts pack fs r (mkFinding "installer.urlopen_exec_chain" CATEGORY SCritical CHigh (tf_name f) (Some b.2) "network-read result passed to exec/compile/eval at install time"));
    [|reflexivity|reflexivity].
  apply Hfs, elem_concat. eexists. split; [exact Hin|]. unfold setup_findings. rewrite En, Ee. by left.
Qed.

(** ** Concrete scripts *)

Definition ex_setup (stmts : list node) : option (list (string * severity)) :=
  map (fun g => (rule_id g, f_severity g)) <$>
  analyze_install_scripts (fun _ => Parsed (mkModule stmts)) [mkTreeFile ["p-1.0"; "setup.py"] (Some 1) (Some "x")].

(** A dictionary lookup and a compiled pattern are a chain too. *)
Example benign_chain : ex_setup [Call (Attribute (Name "cfg") "get") [Constant (CStr "k")] [] 1; Call (Attribute (Name "re") "compile") [Attribute (Name "mod") "PATTERN"] [] 2] =
  Some [("installer.urlopen_exec_chain", SCritical)].
Proof. by vm_compute. Qed.

Example alias_ex : ex_setup [Import [mkAlias "subprocess" (Some "sp")]; Call (Attribute (Name "sp") "run") [] [] 2; Call (Name "run") [] [] 3; Call (Attribute (Name "os") "system") [] [] 4] =
  Some [("installer.subprocess_at_install", SHigh); ("installer.os_system_at_install", SHigh)].
Proof. by vm_compute. Qed.
