(* ===== verification/Imports.v ===== *)
(** * What a module does when it is imported ([src/pkgward/analyze/imports.py])

    Network, process and [exec] calls at the top level of [__init__.py] and of
    single-file modules, and the two chains over them. *)
From S2P Require Import Prelude PyStr Text Findings Tree PyAst PypiInstall Intel Score.
From Stdlib Require Import Ascii String.

Open Scope string_scope.
Open Scope list_scope.
Open Scope Z_scope.

Definition CATEGORY : string := "imports".
Definition _NET_NAMES : list string := ["urlopen"; "urlretrieve"].
Definition _EXEC_NAMES : list string := ["exec"; "compile"; "eval"].

Definition _is_subprocess_call (func : node) : bool :=
  match func with
  | Attribute (Name id) attr =>
      (String.eqb id "subprocess" && str_in attr ["Popen"; "run"; "call"; "check_call"; "check_output"]) ||
      (String.eqb id "os" && str_in attr ["system"; "popen"])
  | _ => false
  end.

Fixpoint _iter_strs (n : node) : list string :=
  match n with
  | Constant (CStr s) => [s]
  | Seq elts => flat_map _iter_strs elts
  | _ => []
  end.
Definition keyword_reason (kw : node) : list string :=
  match kw with
  | Keyword (Some a) (Constant (CBool true)) =>
      if String.eqb a "start_new_session" then ["start_new_session=True"] else if String.eqb a "shell" then ["shell=True"] else []
  | _ => []
  end.
Definition first_where (p : string -> bool) (label : string) (l : list string) : list string :=
  match List.find p l with Some s => [label +:+ repr s] | None => [] end.
Definition _subprocess_suspicion (args keywords : list node) : list string :=
  flat_map keyword_reason keywords ++
  first_where (contains "/tmp/") "/tmp path: " (flat_map _iter_strs args) ++
  first_where (fun s => contains "python" (lower s)) "python re-invoke: " (match args with a :: _ => _iter_strs a | [] => [] end).

(** ** [marshal] *)

Definition marshal_mods (t : module_) : list string :=
  flat_map (fun n => match n with
    | Import names => map asname_of (bfilter (fun a => String.eqb (al_name a) "marshal") names)
    | _ => [] end) (walk_module t).
Definition marshal_funcs (t : module_) : list string :=
  flat_map (fun n => match n with
    | ImportFrom (Some m) names => if String.eqb m "marshal" then map asname_of (bfilter (fun a => str_in (al_name a) ["load"; "loads"]) names) else []
    | _ => [] end) (walk_module t).
Definition _is_marshal_load (mods funcs : list string) (func : node) : bool :=
  match func with
  | Attribute v attr => str_in attr ["load"; "loads"] && match v with Name id => str_in id mods | _ => false end
  | Name id => str_in id funcs
  | _ => false
  end.

(** ** The walk *)

(** Definitions are yielded but not entered. *)
Fixpoint _walk_top_level (n : node) : list node :=
  let all := fix all l := match l with [] => [] | x :: l' => _walk_top_level x ++ all l' end in
  n :: match n with
       | Name _ | Constant _ | Import _ | ImportFrom _ _ | Deferred _ => []
       | Attribute v _ => _walk_top_level v
       | Call f args kws _ => _walk_top_level f ++ all args ++ all kws
       | Keyword _ v => _walk_top_level v
       | Seq l => all l
       | Assign ts v => all ts ++ _walk_top_level v
       | AnnAssign t a v => _walk_top_level t ++ _walk_top_level a ++ match v with Some v => _walk_top_level v | None => [] end
       | AugAssign t v => _walk_top_level t ++ _walk_top_level v
       | Other l => all l
       end.
Definition top_nodes (t : module_) : list node := flat_map _walk_top_level (body t).

(** ** One module *)

Definition imp (rule : string) (sev : severity) (conf : confidence) (name : string) (ln : Z) (ev : string) : Finding :=
  mkFinding rule CATEGORY sev conf name (Some ln) ev.
Definition call_findings (name : string) (func : node) (args keywords : list node) (lineno : Z) : list Finding :=
  let full := call_name func in
  let tail := call_tail func in
  (if str_in tail _NET_NAMES then
     [imp "imports.network_at_import" SHigh CMedium name lineno ("network call at module import: " +:+ full)]
   else if str_in tail _EXEC_NAMES && String.eqb tail full then
     [imp "imports.exec_at_import" SHigh CHigh name lineno ("exec/eval/compile at module import: " +:+ full)]
   else []) ++
  (if _is_subprocess_call func then
     [imp "imports.subprocess_at_import" SMedium CLow name lineno ("subprocess/os call at module import: " +:+ full)] ++
     match _subprocess_suspicion args keywords with
     | [] => []
     | reasons => [imp "imports.subprocess_at_import_suspicious" SHigh CHigh name lineno
                     ("suspicious subprocess at import (" +:+ full +:+ "): " +:+ join "; " reasons)]
     end
   else []).

Record scan_state := mkScan { out : list Finding; marshal_load_line : option Z; exec_eval_line : option Z }.
Definition first_line (o : option Z) (b : bool) (ln : Z) : option Z := match o with Some _ => o | None => if b then Some ln else None end.
Definition visit (mods funcs : list string) (name : string) (st : scan_state) (n : node) : scan_state :=
  match n with
  | Call func args keywords lineno =>
      let full := call_name func in
      let tail := call_tail func in
      mkScan (out st ++ call_findings name func args keywords lineno)
        (first_line (marshal_load_line st) (negb (bool_decide (mods ++ funcs = [])) && _is_marshal_load mods funcs func) lineno)
        (first_line (exec_eval_line st) (str_in tail ["exec"; "eval"] && String.eqb tail full) lineno)
  | _ => st
  end.
Definition rule_is (rule : string) (f : Finding) : bool := String.eqb (rule_id f) rule.
Definition module_findings (name : string) (t : module_) : list Finding :=
  let st := fold_left (visit (marshal_mods t) (marshal_funcs t) name) (top_nodes t) (mkScan [] None None) in
  let out := out st ++
    match marshal_load_line st, exec_eval_line st with
    | Some l, Some e => [imp "imports.marshalled_bytecode_loader" SCritical CHigh name l
        ("compiled-bytecode loader: marshal.load() feeds exec/eval at import (load L" +:+ show l +:+ ", exec L" +:+ show e +:+ ")")]
    | _, _ => []
    end in
  out ++
  match bfilter (rule_is "imports.subprocess_at_import_suspicious") out with
  | sp :: _ =>
      if existsb (rule_is "imports.network_at_import") out then
        [mkFinding "imports.network_subprocess_chain" CATEGORY SCritical CHigh name (line sp)
          "behavioral chain: network_at_import + subprocess_at_import_suspicious in same module"]
      else []
  | [] => []
  end.

Section Imports.
Variable ast_parse : string -> parsed.

Definition _analyze_module (f : tree_file) : option (list Finding) :=
  match tf_data f with
  | None => Some []
  | Some data =>
      match ast_parse (read_text data) with Parsed t => Some (module_findings (tf_name f) t) | SyntaxError => Some [] | Raises => None end
  end.
(** [__init__.py] anywhere, then the modules at the top. *)
Definition top_module (f : tree_file) : bool :=
  (List.length (tf_parts f) =? 1)%nat && endswith (tf_name f) ".py" && negb (String.eqb (tf_name f) "setup.py").
Definition imported (changed : option (list string)) (tree : list tree_file) : list tree_file :=
  bfilter (fun f => negb (unchanged_file changed f)) (named "__init__.py" tree ++ bfilter top_module tree).
Definition analyze_imports (changed : option (list string)) (tree : list tree_file) : option (list Finding) :=
  @List.concat _ <$> mapM _analyze_module (imported changed tree).

End Imports.

(** ** What the walk meets *)

Definition deferred (n : node) : bool := match n with Deferred _ => true | _ => false end.
(** [x] is evaluated with [y]: a child of a node that is no definition. *)
Definition entered (x y : node) : Prop := child x y /\ deferred y = false.
Definition runs_with (x y : node) : Prop := rtc entered x y.

Lemma walk_top_eq n : _walk_top_level n = n :: (if deferred n then [] else flat_map _walk_top_level (children n)).
Proof.
  assert (forall l, (fix all l := match l with [] => [] | x :: l' => _walk_top_level x ++ all l' end) l = flat_map _walk_top_level l) as H.
  { induction l as [|x l IH]; [done|]. cbn [flat_map]. by rewrite <- IH. }
  destruct n as [| | | | | | |t a [v|]| | | |l|l]; cbn [_walk_top_level deferred children flat_map]; rewrite ?H, ?flat_map_app; cbn [flat_map]; by rewrite ?app_nil_r.
Qed.

Lemma size_child x n : child x n -> (size x < size n)%nat.
Proof.
  intros H. rewrite (size_children n). apply Nat.lt_succ_r. unfold child in H.
  induction H as [y l|y z l _ IH]; rewrite sizes_cons; lia.
Qed.

Lemma walk_top_in x n : x ∈ _walk_top_level n <-> runs_with x n.
Proof.
  remember (size n) as k eqn:Hk. revert n Hk x. induction (lt_wf k) as [k _ IH]. intros n -> x. rewrite walk_top_eq, elem_of_cons. split.
  - intros [->|H]; [apply rtc_refl|]. destruct (deferred n) eqn:Ed; [by apply elem_of_nil in H|].
    apply list_elem_of_In, in_flat_map in H as (y & Hy & Hx). rewrite <- list_elem_of_In in *. 
    apply (IH _ (size_child _ _ Hy) y eq_refl) in Hx. eapply rtc_r; [exact Hx|by split].
  - intros H. apply rtc_inv_r in H as [->|(y & Hx & Hy & Hd)]; [by left|right]. rewrite Hd. apply list_elem_of_In, in_flat_map. exists y.
    rewrite <- !list_elem_of_In. split; [exact Hy|]. by apply (IH _ (size_child _ _ Hy) y eq_refl).
Qed.

(** A call the module makes when it is imported. *)
Definition called_at_import (t : module_) (func : node) (args keywords : list node) (ln : Z) : Prop :=
  exists s, s ∈ body t /\ runs_with (Call func args keywords ln) s.

Lemma top_nodes_in t func args kws ln : Call func args kws ln ∈ top_nodes t <-> called_at_import t func args kws ln.
Proof.
  unfold top_nodes, called_at_import. rewrite list_elem_of_In, in_flat_map. setoid_rewrite <- list_elem_of_In. by setoid_rewrite walk_top_in.
Qed.

(** ** What the loop gathers *)

Section Loop.
Context (mods funcs : list string) (name : string).
Notation run := (fold_left (visit mods funcs name)).

Lemma visit_keeps n st f : f ∈ out st -> f ∈ out (visit mods funcs name st n).
Proof. destruct n; try done. cbn [visit out]. intros. apply elem_of_app. by left. Qed.

Lemma loop_findings l func args kws ln f st : Call func args kws ln ∈ l -> f ∈ call_findings name func args kws ln -> f ∈ out (run l st).
Proof.
  intros Hl Hf. apply (fold_reaches (fun _ => True) (fun s => f ∈ out s) _ l (Call func args kws ln)); try done.
  - intros s a _ Hs. by apply visit_keeps.
  - intros s _. cbn [visit out]. apply elem_of_app. by right.
Qed.

Lemma loop_marshal l func args kws ln st : Call func args kws ln ∈ l -> _is_marshal_load mods funcs func = true -> mods ++ funcs <> [] ->
  is_Some (marshal_load_line (run l st)).
Proof.
  intros Hl Hm Hne. apply (fold_reaches (fun _ => True) (fun s => is_Some (marshal_load_line s)) _ l (Call func args kws ln)); try done.
  - intros s a _ Hs. destruct a; try done. cbn. destruct (marshal_load_line s); [done|by destruct Hs].
  - intros s _. cbn [visit marshal_load_line]. rewrite Hm, bool_decide_eq_false_2 by done. cbn. by destruct (marshal_load_line s).
Qed.

Lemma loop_exec l func args kws ln st : Call func args kws ln ∈ l -> str_in (call_tail func) ["exec"; "eval"] && String.eqb (call_tail func) (call_name func) = true ->
  is_Some (exec_eval_line (run l st)).
Proof.
  intros Hl Hm. apply (fold_reaches (fun _ => True) (fun s => is_Some (exec_eval_line s)) _ l (Call func args kws ln)); try done.
  - intros s a _ Hs. destruct a; try done. cbn. destruct (exec_eval_line s); [done|by destruct Hs].
  - intros s _. cbn [visit exec_eval_line]. rewrite Hm. cbn. by destruct (exec_eval_line s).
Qed.

End Loop.

(** ** What is reported *)

Definition SIGNATURES : list signature :=
  [("imports.network_at_import", SHigh, CMedium); ("imports.exec_at_import", SHigh, CHigh); ("imports.subprocess_at_import", SMedium, CLow);
   ("imports.subprocess_at_import_suspicious", SHigh, CHigh); ("imports.marshalled_bytecode_loader", SCritical, CHigh);
   ("imports.network_subprocess_chain", SCritical, CHigh)].

Lemma call_signed name func args kws ln : Forall (signed_by CATEGORY SIGNATURES) (call_findings name func args kws ln).
Proof. unfold call_findings. sign_all. Qed.

Lemma module_signed name t : Forall (signed_by CATEGORY SIGNATURES) (module_findings name t).
Proof.
  unfold module_findings. set (st := fold_left _ _ _).
  assert (Forall (signed_by CATEGORY SIGNATURES) (out st)) as H.
  { apply (fold_inv (fun s => Forall (signed_by CATEGORY SIGNATURES) (out s))); [|constructor]. intros s n _ Hs. destruct n; try done.
    cbn [visit out]. apply Forall_app. split; [done|apply call_signed]. }
  apply Forall_app. split; [apply Forall_app; split; [done|]|]; repeat case_match; sign_all.
Qed.

Lemma imports_signed ast_parse changed tree fs : analyze_imports ast_parse changed tree = Some fs -> Forall (signed_by CATEGORY SIGNATURES) fs.
Proof.
  intros (fss & Hm & ->)%fmap_Some. eapply mapM_forall; [|exact Hm]. intros f fs. unfold _analyze_module.
  destruct (tf_data f); [|intros [= <-]; constructor]. destruct (ast_parse _); intros [= <-]; [apply module_signed|constructor].
Qed.

(** A call whose function is one of the network readers. *)
Definition network_call (t : module_) : Prop := exists func args kws ln, called_at_import t func args kws ln /\ str_in (call_tail func) _NET_NAMES = true.
Definition suspicious_subprocess (t : module_) : Prop := exists func args kws ln, called_at_import t func args kws ln /\
  _is_subprocess_call func = true /\ _subprocess_suspicion args kws <> [].
Definition marshal_load (t : module_) : Prop := exists func args kws ln, called_at_import t func args kws ln /\
  _is_marshal_load (marshal_mods t) (marshal_funcs t) func = true /\ marshal_mods t ++ marshal_funcs t <> [].
Definition bare_exec (t : module_) : Prop := exists func args kws ln, called_at_import t func args kws ln /\
  str_in (call_tail func) ["exec"; "eval"] = true /\ call_tail func = call_name func.

Lemma loader_reported name t : marshal_load t -> bare_exec t -> exists f, f ∈ module_findings name t /\ rule_id f = "imports.marshalled_bytecode_loader" /\ f_severity f = SCritical.
Proof.
  intros (f1 & a1 & k1 & l1 & Hc1%top_nodes_in & Hm & Hne) (f2 & a2 & k2 & l2 & Hc2%top_nodes_in & He & Ht%String.eqb_eq).
  unfold module_findings. set (st := fold_left _ _ _).
  destruct (loop_marshal (marshal_mods t) (marshal_funcs t) name _ f1 a1 k1 l1 (mkScan [] None None) Hc1 Hm Hne) as [x Hx].
  destruct (loop_exec (marshal_mods t) (marshal_funcs t) name _ f2 a2 k2 l2 (mkScan [] None None) Hc2) as [y Hy]; [by rewrite He, Ht|].
  unfold st. rewrite Hx, Hy. eexists. split; [|split]; [rewrite !elem_of_app; left; right; by left|done|done].
Qed.

Lemma chain_reported name t : network_call t -> suspicious_subprocess t -> exists f, f ∈ module_findings name t /\ rule_id f = "imports.network_subprocess_chain" /\ f_severity f = SCritical.
Proof.
  intros (f1 & a1 & k1 & l1 & Hc1%top_nodes_in & Hn) (f2 & a2 & k2 & l2 & Hc2%top_nodes_in & Hs & Hne).
  unfold module_findings. set (st := fold_left _ _ _). set (all := out st ++ _).
  assert (exists g, g ∈ all /\ rule_is "imports.network_at_import" g = true) as Hnet.
  { exists (imp "imports.network_at_import" SHigh CMedium name l1 ("network call at module import: " +:+ call_name f1)). split; [|done].
    apply elem_of_app. left. apply (loop_findings _ _ _ _ f1 a1 k1 l1); [done|]. unfold call_findings. cbv zeta. rewrite Hn. apply elem_of_app. left. by left. }
  assert (exists g, g ∈ all /\ rule_is "imports.subprocess_at_import_suspicious" g = true) as (g & Hg & Hr).
  { destruct (_subprocess_suspicion a2 k2) as [|r rs] eqn:Er; [done|].
    exists (imp "imports.subprocess_at_import_suspicious" SHigh CHigh name l2 ("suspicious subprocess at import (" +:+ call_name f2 +:+ "): " +:+ join "; " (r :: rs))).
    split; [|done]. apply elem_of_app. left. apply (loop_findings _ _ _ _ f2 a2 k2 l2); [done|]. unfold call_findings. cbv zeta. rewrite Hs, Er. apply elem_of_app. right.
    right. by left. }
  apply existsb_true in Hnet. destruct (bfilter (rule_is "imports.subprocess_at_import_suspicious") all) as [|sp l] eqn:Ef.
  - assert (g ∈ bfilter (rule_is "imports.subprocess_at_import_suspicious") all) as Hin by by apply bfilter_in. rewrite Ef in Hin. by apply elem_of_nil in Hin.
  - rewrite Hnet. eexists. split; [|split]; [apply elem_of_app; right; by left|done|done].
Qed.

(** ** Properties *)

(** What a module does on import convicts.  In a changed [__init__.py] anywhere, or a
    single-file module at the top, that parses: a network call together with a suspicious
    process call, or a [marshal] load, under any alias, together with a bare [exec] or
    [eval], make the package malicious, provided both are evaluated with a top-level
    statement and not inside a definition. *)
Theorem import_chains_convict pack ast_parse changed tree gs fs r f data t
  (Ha : analyze_imports ast_parse changed tree = Some gs) (Hfs : forall x, x ∈ gs -> x ∈ fs)
  (Hf : f ∈ tree) (Hi : tf_name f = "__init__.py" \/ top_module f = true) (Hu : unchanged_file changed f = false)
  (Hd : tf_data f = Some data) (Hp : ast_parse (read_text data) = Parsed t)
  (Hc : (network_call t /\ suspicious_subprocess t) \/ (marshal_load t /\ bare_exec t)) :
  sr_verdict (score_and_verdict pack fs r) = VMalicious.
Proof.
  assert (exists g, g ∈ module_findings (tf_name f) t /\ is_shadow_finding g = false /\ f_severity g = SCritical) as (g & Hg & Hns & Hs).
  { destruct Hc as [[H1 H2]|[H1 H2]]; [destruct (chain_reported (tf_name f) t H1 H2) as (g & Hg & Hr & Hs)|destruct (loader_reported (tf_name f) t H1 H2) as (g & Hg & Hr & Hs)];
      exists g; (split_and!; [done| |done]); unfold is_shadow_finding; by rewrite Hr. }
  apply (critical_convicts pack fs r g); [|done|done]. apply Hfs. apply fmap_Some in Ha as (fss & Hm & ->).
  destruct (mapM_elem _ _ _ f Hm) as (ff & Hff & Hin).
  - apply bfilter_in. rewrite Hu. split; [|done]. apply elem_of_app. unfold named. rewrite !bfilter_in, String.eqb_eq. tauto.
  - apply elem_concat. exists ff. split; [done|]. unfold _analyze_module in Hff. rewrite Hd, Hp in Hff. by injection Hff as <-.
Qed.

(** ** Concrete modules *)

Definition ex_py (parts : list string) : tree_file := mkTreeFile parts (Some 1) (Some "x").
Definition ex_imports (stmts : list node) : option (list (string * severity)) :=
  map (fun g => (rule_id g, f_severity g)) <$> analyze_imports (fun _ => Parsed (mkModule stmts)) None [ex_py ["p"; "__init__.py"]].

(** [import marshal as m], and [exec(m.loads(x))]. *)
Definition ex_loader : list node :=
  [Import [mkAlias "marshal" (Some "m")]; Other [Call (Name "exec") [Call (Attribute (Name "m") "loads") [Name "x"] [] 2] [] 2]].
Lemma import_chains_convict_witness : exists gs,
  analyze_imports (fun _ => Parsed (mkModule ex_loader)) None [ex_py ["p"; "__init__.py"]] = Some gs /\ sr_verdict (score_and_verdict ex_pack gs None) = VMalicious.
Proof.
  destruct (analyze_imports (fun _ => Parsed (mkModule ex_loader)) None [ex_py ["p"; "__init__.py"]]) as [gs|] eqn:E; [|exfalso; revert E; by vm_compute].
  exists gs. split; [done|].
  apply (import_chains_convict ex_pack (fun _ => Parsed (mkModule ex_loader)) None [ex_py ["p"; "__init__.py"]] gs gs None (ex_py ["p"; "__init__.py"]) "x" (mkModule ex_loader) E (fun _ H => H));
    [by left|by left|reflexivity|reflexivity|reflexivity|right; split].
  - exists (Attribute (Name "m") "loads"), [Name "x"], [], 2. split_and!; [apply top_nodes_in; vm_compute; right; right; right; right; by left|by vm_compute|by vm_compute].
  - exists (Name "exec"), [Call (Attribute (Name "m") "loads") [Name "x"] [] 2], [], 2. split_and!; [apply top_nodes_in; vm_compute; right; right; by left|by vm_compute|by vm_compute].
Defined.

(** The body of a class, a decorator and a default argument run on import, but they
    are not entered. *)
Example class_body_missed : ex_imports [Import [mkAlias "marshal" None]; Deferred ex_loader] = Some [] /\
  ex_imports ex_loader = Some [("imports.exec_at_import", SHigh); ("imports.marshalled_bytecode_loader", SCritical)].
Proof. by vm_compute. Qed.

(** A top-level [__init__.py] is analysed twice. *)
Example analysed_twice : option_map (map rule_id) (analyze_imports (fun _ => Parsed (mkModule [Call (Name "exec") [] [] 1])) None [ex_py ["__init__.py"]]) =
  Some ["imports.exec_at_import"; "imports.exec_at_import"].
Proof. by vm_compute. Qed.

(** One file whose parse fails with anything but a [SyntaxError] ends the analysis. *)
Example parse_crash : analyze_imports (fun _ => Raises) None [ex_py ["a.py"]] = None /\ analyze_imports (fun _ => SyntaxError) None [ex_py ["a.py"]] = Some [].
Proof. by vm_compute. Qed.
