(* ===== verification/Entropy.v ===== *)
(** * Entropy ([src/pkgward/analyze/entropy.py])

    Near-random files, and files whose entropy jumped since the previous version.  The
    Shannon entropy of a file, a float that depends on the platform's [log2], is an
    argument; what is decided by it is computed on doubles. *)
From S2P Require Import Prelude PyStr Text Findings Json Store Tree Binary.
From Stdlib Require Import Ascii String SpecFloat.

Open Scope string_scope.
Open Scope list_scope.
Open Scope Z_scope.

Definition CATEGORY : string := "entropy".
Definition ent (rule : string) (sev : severity) (conf : confidence) (rel ev : string) : Finding := mkFinding rule CATEGORY sev conf rel None ev.

Definition HIGH_ENTROPY_THRESHOLD : double := S754_finite false 6755399441055744 (-50).
Definition OBFUSCATED_THRESHOLD : double := S754_finite false 8106479329266893 (-50).
Definition ENTROPY_JUMP_THRESHOLD : double := S754_finite false 6755399441055744 (-52).
Definition MIN_FILE_SIZE : Z := 256.
(** [PKGWARD_HASH_FULL_MAX_MB] unset. *)
Definition MAX_FILE_SIZE : Z := 20 * 1024 * 1024.

Definition _INSTALL_FILES : list string := ["setup.py"; "install.py"; "post_install.py"; "conftest.py"; "__init__.py"].
Definition _SKIP_EXTENSIONS : list string :=
  [".png"; ".jpg"; ".jpeg"; ".gif"; ".ico"; ".bmp"; ".webp"; ".woff"; ".woff2"; ".ttf"; ".eot"; ".zip"; ".gz"; ".bz2"; ".xz"; ".tar"; ".whl";
   ".pyc"; ".pyo"; ".so"; ".dll"; ".pyd"; ".pfx"; ".p12"; ".cer"; ".der"; ".crt"; ".jks"].

(** ** [f"{x:.2f}"] *)

(** [n / 2^k], rounded half to even. *)
Definition div_even (n k : Z) : Z :=
  let d := Z.shiftl 1 k in
  let q := n / d in
  let r := 2 * (n mod d) in
  if r <? d then q else if d <? r then q + 1 else if Z.even q then q else q + 1.
Definition two_digits (n : Z) : string := (if n <? 10 then "0" else "") +:+ show n.
Definition hundredths (n : Z) : string := show (n / 100) +:+ "." +:+ two_digits (n mod 100).
Definition fmt2 (x : double) : string :=
  match x with
  | S754_zero s => (if s then "-" else "") +:+ "0.00"
  | S754_infinity s => if s then "-inf" else "inf"
  | S754_nan => "nan"
  | S754_finite s m e => (if s then "-" else "") +:+ hundredths (if 0 <=? e then Z.shiftl (Zpos m) e * 100 else div_even (Zpos m * 100) (- e))
  end.

(** [x - y] on doubles. *)
Definition float_sub (x y : double) : double := SFsub 53 1024 x y.

(** ** Files *)

Section Entropy.
Variable _shannon_entropy : string -> double.

Definition examined (f : tree_file) : bool :=
  negb (str_in (suffix_lower f) _SKIP_EXTENSIONS) &&
  match tf_size f with Some n => negb ((n <? MIN_FILE_SIZE) || (MAX_FILE_SIZE <? n)) | None => false end.
Definition is_install (name : string) : bool := str_in (lower name) _INSTALL_FILES.

Definition scan_entropy (f : tree_file) (data : string) : list Finding :=
  if looks_like_compiled_binary f then []
  else
    let e := _shannon_entropy data in
    if float_ge e OBFUSCATED_THRESHOLD then
      [ent "entropy.obfuscated_payload" (if is_install (tf_name f) then SHigh else SMedium) CMedium (real_path f)
        ("entropy " +:+ fmt2 e +:+ " bits/byte (threshold 7.2)")]
    else if float_ge e HIGH_ENTROPY_THRESHOLD && str_in (suffix_lower f) [".py"; ".js"; ".sh"] then
      [ent "entropy.high_entropy_script" SLow CLow (real_path f) ("entropy " +:+ fmt2 e +:+ " bits/byte in script file")]
    else [].
Definition analyze_entropy (changed : option (list string)) (tree : list tree_file) : list Finding := each_file examined changed scan_entropy tree.

End Entropy.

(** ** Jumps between versions *)

(** [x <= 0]. *)
Definition not_positive (x : double) : bool := float_ge f_zero x.
Definition jump (cur prev : FileInfo) : option double :=
  if not_positive (fi_entropy prev) || not_positive (fi_entropy cur) then None
  else if String.eqb (fi_sha256 cur) (fi_sha256 prev) then None
  else
    let delta := float_sub (fi_entropy cur) (fi_entropy prev) in
    if float_ge delta ENTROPY_JUMP_THRESHOLD then Some delta else None.
Definition jump_finding (norm_to_real : list (string * string)) (norm_path : string) (cur prev : FileInfo) : list Finding :=
  match jump cur prev with
  | None => []
  | Some delta =>
      [ent "entropy.suspicious_jump" (if is_install (path_name norm_path) then SHigh else SMedium) CMedium (dget_or norm_path norm_path norm_to_real)
        ("entropy jumped " +:+ fmt2 (fi_entropy prev) +:+ " -> " +:+ fmt2 (fi_entropy cur) +:+ " (+" +:+ fmt2 delta +:+ ")")]
  end.
Definition analyze_entropy_delta (current_info prev_info : list (string * FileInfo)) (norm_to_real : list (string * string)) : list Finding :=
  match prev_info with
  | [] => []
  | _ => flat_map (fun kv => match dget kv.1 prev_info with Some prev => jump_finding norm_to_real kv.1 kv.2 prev | None => [] end) current_info
  end.

(** ** What is reported *)

Definition SIGNATURES : list signature :=
  [("entropy.obfuscated_payload", SHigh, CMedium); ("entropy.obfuscated_payload", SMedium, CMedium); ("entropy.high_entropy_script", SLow, CLow);
   ("entropy.suspicious_jump", SHigh, CMedium); ("entropy.suspicious_jump", SMedium, CMedium)].

Lemma ent_signed rule (b : bool) conf rel ev : (rule, SHigh, conf) ∈ SIGNATURES -> (rule, SMedium, conf) ∈ SIGNATURES ->
  signed_by CATEGORY SIGNATURES (ent rule (if b then SHigh else SMedium) conf rel ev).
Proof. intros. by split; destruct b. Qed.

Lemma entropy_signed h changed tree : Forall (signed_by CATEGORY SIGNATURES) (analyze_entropy h changed tree).
Proof.
  apply signed_each. intros f data _. unfold scan_entropy. destruct (looks_like_compiled_binary f); [constructor|]. cbv zeta.
  destruct (float_ge _ _); [|case_match; [|constructor]]; (constructor; [|constructor]); [apply ent_signed; unfold SIGNATURES; set_solver|sign_one].
Qed.

Lemma delta_signed cur prev real : Forall (signed_by CATEGORY SIGNATURES) (analyze_entropy_delta cur prev real).
Proof.
  unfold analyze_entropy_delta. destruct prev as [|x l]; [constructor|]. apply signed_flat. intros kv _. case_match; [|constructor].
  unfold jump_finding. case_match; [|constructor]. constructor; [apply ent_signed; unfold SIGNATURES; set_solver|constructor].
Qed.

(** An entropy of zero on either side, which stands for an unknown one, and an
    unchanged file never count as a jump. *)
Lemma jump_needs cur prev d : jump cur prev = Some d -> float_lt f_zero (fi_entropy prev) = true /\ float_lt f_zero (fi_entropy cur) = true /\
  fi_sha256 cur <> fi_sha256 prev \/ is_nan (fi_entropy prev) = true \/ is_nan (fi_entropy cur) = true.
Proof.
  unfold jump, not_positive. destruct (float_ge f_zero (fi_entropy prev)) eqn:E1, (float_ge f_zero (fi_entropy cur)) eqn:E2; try done. cbn [orb].
  destruct (String.eqb_spec (fi_sha256 cur) (fi_sha256 prev)); [done|]. intros _.
  destruct (is_nan (fi_entropy prev)) eqn:N1; [by auto|]. destruct (is_nan (fi_entropy cur)) eqn:N2; [by auto|]. left.
  rewrite !float_lt_ge, E1, E2 by done. done.
Qed.

Example fmt2_ex : map fmt2 [OBFUSCATED_THRESHOLD; S754_finite false 4503599627370496 (-55); S754_finite true 4616189618054758 (-50); f_zero] = ["7.20"; "0.12"; "-4.10"; "0.00"].
Proof. reflexivity. Qed.
