(* ===== verification/Notify.v ===== *)
(** * Discord alerts ([src/pkgward/notify/discord.py])

    What an alert says, the clamp to Discord's limits, the shared send throttle, and the
    posting loop.  A Python string is its UTF-8 bytes here; [ulen] and [utake] count and
    cut code points. *)
From S2P Require Import Prelude PyStr Text Regex RegexSyntax Findings Json Tree Entropy Triage.
From Stdlib Require Import Ascii String SpecFloat Sorted.

Open Scope string_scope.
Open Scope list_scope.
Open Scope Z_scope.

(** ** Code points *)

Definition continuation (c : ascii) : bool := (128 <=? code c) && (code c <=? 191).
Fixpoint ulen (s : string) : nat := match s with EmptyString => 0 | String c s' => if continuation c then ulen s' else S (ulen s') end.
(** [s[:n]]. *)
Fixpoint utake (n : nat) (s : string) : string :=
  match s with
  | EmptyString => ""
  | String c s' => if continuation c then String c (utake n s') else match n with O => "" | S n' => String c (utake n' s') end
  end.

(** ** Defanging *)

Definition _SCHEME : regex := compile plain "https?://".
Definition _DOTTED_QUAD : regex := compile plain "(\d{1,3})\.(\d{1,3})\.(\d{1,3})\.(\d{1,3})".
(** The dots before a listed top-level domain; the look-behind is [after_alnum]. *)
Definition _TLD_DOT : regex := compile plain "\.(?=com|net|org|io|ai|dev|xyz|ru|cn|tk|ml|ga|cf|info|biz|top|cc|pw)".

(** [re.sub(p, repl, text)] with a function of the match. *)
Fixpoint sub_from (repl : mtch -> string) (s : string) (from : nat) (ms : list mtch) : string :=
  match ms with
  | [] => str_drop from s
  | m :: ms' => slice s from (m_start m) +:+ repl m +:+ sub_from repl s (m_end m) ms'
  end.
Definition sub_with (rx : regex) (repl : string -> mtch -> string) (keep : string -> mtch -> bool) (s : string) : string :=
  sub_from (repl s) s 0 (bfilter (keep s) (finditer rx s)).

Definition is_alnum (c : ascii) : bool := let n := code c in ((48 <=? n) && (n <=? 57)) || ((65 <=? n) && (n <=? 90)) || ((97 <=? n) && (n <=? 122)).
Definition after_alnum (s : string) (m : mtch) : bool :=
  match m_start m with O => false | S i => match String.get i s with Some c => is_alnum c | None => false end end.
(** [x.replace("://", "[://]")] on a scheme. *)
Definition defang_scheme (s : string) (m : mtch) : string := str_take (m_end m - m_start m - 3) (group0 s m) +:+ "[://]".
Definition defang_quad (s : string) (m : mtch) : string :=
  group_or s 1 m +:+ "[.]" +:+ group_or s 2 m +:+ "[.]" +:+ group_or s 3 m +:+ "[.]" +:+ group_or s 4 m.
Definition always (s : string) (m : mtch) : bool := true.
Definition _defang (text : string) : string :=
  sub_with _TLD_DOT (fun _ _ => "[.]") after_alnum (sub_with _DOTTED_QUAD defang_quad always (sub_with _SCHEME defang_scheme always text)).

(** ** Embeds *)

Record field := mkField { fd_name : string; fd_value : string; fd_inline : bool }.
(** [footer] is the footer's text. *)
Record embed := mkEmbed { title : string; description : string; color : Z; fields : list field; footer : string }.

(** [x or y] on code-point slices. *)
Definition clamp_field (f : field) : field :=
  mkField (utake 256 (str_or (fd_name f) "·")) (str_or (utake 1024 (str_or (fd_value f) "—")) "—") (fd_inline f).
Fixpoint clamp_fields (budget : Z) (fs : list field) : list field :=
  match fs with
  | [] => []
  | f :: fs' =>
      let g := clamp_field f in
      let cost := Z.of_nat (ulen (fd_name g)) + Z.of_nat (ulen (fd_value g)) in
      if budget - cost <? 0 then [] else g :: clamp_fields (budget - cost) fs'
  end.
Definition _sanitize_embed (e : embed) : embed :=
  let title := utake 256 (title e) in
  let description := utake 4096 (description e) in
  let budget := 6000 - Z.of_nat (ulen title) - Z.of_nat (ulen description) in
  mkEmbed title description (color e) (clamp_fields budget (firstn 25 (fields e))) (utake 2048 (footer e)).

(** ** Top rule hits *)

Definition _SEVERITY_RANK (s : severity) : Z := match s with SCritical => 0 | SHigh => 1 | SMedium => 2 | SLow => 3 end.
Definition _CONFIDENCE_RANK (c : confidence) : Z := match c with CHigh => 0 | CMedium => 1 | CLow => 2 end.
Definition rank_lt (f g : Finding) : bool :=
  (_SEVERITY_RANK (f_severity f) <? _SEVERITY_RANK (f_severity g)) ||
  ((_SEVERITY_RANK (f_severity f) =? _SEVERITY_RANK (f_severity g)) && (_CONFIDENCE_RANK (f_confidence f) <? _CONFIDENCE_RANK (f_confidence g))).

(** The hits of one rule with one evidence: the strongest, how many, and where. *)
Record hits := mkHits { best : Finding; count : Z; files : list string }.
Definition location (f : Finding) : string :=
  match line f with Some n => if truthy (file f) then file f +:+ ":" +:+ show n else file f | None => file f end.
Definition add_hit (g : hits) (f : Finding) : hits :=
  let loc := location f in
  mkHits (if rank_lt f (best g) then f else best g) (count g + 1) (if truthy loc && negb (str_in loc (files g)) then files g ++ [loc] else files g).
Definition group_step (groups : list ((string * string) * hits)) (f : Finding) : list ((string * string) * hits) :=
  let key := (rule_id f, evidence f) in dset key (add_hit (dget_or key (mkHits f 0 []) groups) f) groups.
Definition groups_of (fs : list Finding) : list hits := (fold_left group_step fs []).*2.
Definition ordered_groups (fs : list Finding) : list hits := ssort (fun a b => negb (rank_lt (best b) (best a))) (groups_of fs).

Definition conf_name (c : confidence) : string := match c with CLow => "low" | CMedium => "medium" | CHigh => "high" end.
Definition hit_line (evidence_cap : nat) (g : hits) : string :=
  let f := best g in
  let ev := if truthy (evidence f) then _defang (utake evidence_cap (evidence f)) else "" in
  "**" +:+ rule_id f +:+ "** [" +:+ severity_name (f_severity f) +:+ "/" +:+ conf_name (f_confidence f) +:+ "]" +:+
  (if 1 <? count g then " ×" +:+ show (count g) else "") +:+
  match files g with
  | [] => ""
  | x :: l => " `" +:+ x +:+ "`" +:+ match l with [] => "" | _ => " (+" +:+ show (Z.of_nat (List.length l)) +:+ " more files)" end
  end +:+
  (if truthy ev then String LF ev else "").
Definition _render_top_findings (limit evidence_cap : nat) (fs : list Finding) : string :=
  let ordered := ordered_groups fs in
  join (String LF "") (map (hit_line evidence_cap) (firstn limit ordered) ++
    if (limit <? List.length ordered)%nat then ["… +" +:+ show (Z.of_nat (List.length ordered - limit)) +:+ " more distinct hits"] else []).

(** ** Fields *)

(** [f"{n:,}"]. *)
Fixpoint thousands (fuel : nat) (n : Z) : string :=
  match fuel with
  | O => ""
  | S fuel' =>
      if n <? 1000 then show n
      else thousands fuel' (n / 1000) +:+ "," +:+ (let r := n mod 1000 in (if r <? 100 then "0" else "") +:+ (if r <? 10 then "0" else "") +:+ show r)
  end.
(** [enrich.downloads.format_field]. *)
Definition _downloads_field (weekly : option Z) : string :=
  match weekly with
  | None => "n/a"
  | Some n => if n <=? 0 then "0 (no install base)" else "~" +:+ thousands (Z.to_nat (Z.log2 n) + 1) n
  end.

Definition GREY : Z := 9807270.
Definition RED : Z := 15548997.
Definition ORANGE : Z := 15105570.
Definition YELLOW : Z := 16705372.
Definition _severity_color (v : verdict) (confidence : double) : Z :=
  if bool_decide (v = VMalicious) then if float_ge confidence f_0_7 then RED else ORANGE else YELLOW.

Definition maintainer_name (v : json) : option string :=
  match v with
  | JObj o =>
      let nm := match jget "name" o JNull with JStr s => s | _ => "" end in
      let em := match jget "email" o JNull with JStr s => s | _ => "" end in
      nonempty (str_or nm em)
  | JStr s => nonempty s
  | _ => None
  end.
(** Entries that are neither strings nor objects of strings are not modelled. *)
Definition _fmt_maintainers (m : json) : string :=
  match m with JStr s => s | JArr l => join ", " (omap maintainer_name (firstn 6 l)) | _ => "" end.

Record publisher := mkPublisher { pb_author : string; pb_email : string; pb_uploader : string; pb_maintainers : json }.
Definition _publisher_field (p : option publisher) : option field :=
  match p with
  | None => None
  | Some p =>
      let author := strip (pb_author p) in
      let email := strip (pb_email p) in
      let uploader := strip (pb_uploader p) in
      let names := _fmt_maintainers (pb_maintainers p) in
      let lines :=
        (if truthy author || truthy email then
           ["Author: " +:+ (if truthy author then _defang author else "") +:+ (if truthy email then " <" +:+ _defang email +:+ ">" else "")] else []) ++
        (if truthy uploader then ["Published by: `" +:+ _defang uploader +:+ "`"] else []) ++
        (if truthy names then ["Maintainers: " +:+ _defang names] else []) in
      match lines with [] => None | _ => Some (mkField "Publisher" (utake 1024 (join (String LF "") lines)) false) end
  end.

Definition registry_url (eco name ver : string) : string :=
  if String.eqb eco "pypi" then "https://pypi.org/project/" +:+ name +:+ "/" +:+ ver +:+ "/"
  else if String.eqb eco "crates" then "https://crates.io/crates/" +:+ name +:+ "/" +:+ ver
  else if String.eqb eco "gomod" then "https://pkg.go.dev/" +:+ name +:+ "@" +:+ ver
  else if String.eqb eco "npm" then "https://www.npmjs.com/package/" +:+ name +:+ "/v/" +:+ ver
  else "https://example.com/" +:+ eco +:+ "/" +:+ name +:+ "/" +:+ ver.

Definition upper (s : string) : string := string_of_list_ascii (map (fun c => chr (upper_code (code c))) (list_ascii_of_string s)).
Definition inline (n v : string) : field := mkField n v true.
Definition block (n v : string) : field := mkField n v false.
Definition hits_field (limit cap : nat) (fs : list Finding) : list field :=
  match fs with [] => [] | _ => [block "Top Rule Hits" (utake 1024 (_render_top_findings limit cap fs))] end.
Definition registry_field (eco name ver : string) : field := block "Registry" ("`" +:+ _defang (registry_url eco name ver) +:+ "`").

(** [send_dynamic_alert]. *)
Definition dynamic_embed (node_label name ver eco static_verdict new_verdict : string) (new_score n_findings : Z) (fs : list Finding)
    (downloads_weekly : option Z) (p : option publisher) : embed :=
  mkEmbed "⚠️ Malicious Package Detected (detonation)"
    ("Detonation flipped **" +:+ name +:+ "** " +:+ ver +:+ " to **" +:+ new_verdict +:+ "** (static verdict: " +:+ static_verdict +:+ ")") RED
    ([inline "Package" ("`" +:+ name +:+ "==" +:+ ver +:+ "`"); inline "Ecosystem" eco;
      inline "Verdict" ("**" +:+ upper new_verdict +:+ "** (score: " +:+ show new_score +:+ ")"); inline "Static verdict" static_verdict;
      inline "Findings" (show n_findings); inline "Downloads/week" (_downloads_field downloads_weekly)] ++
     hits_field 8 240 fs ++ option_list (_publisher_field p) ++ [registry_field eco name ver])
    ("pkgward | " +:+ node_label +:+ " | dynamic detonation").

(** [send_review_alert]. *)
Definition review_embed (node_label model name ver eco rule_verdict : string) (rule_score n_findings : Z) (t : LLMTriageResult)
    (fs : list Finding) (p : option publisher) : embed :=
  mkEmbed "🔍 Needs Review (LLM inconclusive)"
    ("**" +:+ name +:+ "** " +:+ ver +:+ " — the LLM could not decide; a human should look. See Missing Evidence.") YELLOW
    ([inline "Package" ("`" +:+ name +:+ "==" +:+ ver +:+ "`"); inline "Ecosystem" eco;
      inline "Rule Verdict" (rule_verdict +:+ " (score: " +:+ show rule_score +:+ ")"); inline "LLM Verdict" "INCONCLUSIVE";
      inline "Findings" (show n_findings); inline "Model" model] ++
     (if truthy (r_missing_evidence t) then [block "Missing Evidence" (_defang (utake 1024 (r_missing_evidence t)))] else []) ++
     (if truthy (r_reasoning t) then [block "LLM Reasoning" (_defang (utake 1024 (r_reasoning t)))] else []) ++
     hits_field 6 200 fs ++ option_list (_publisher_field p) ++ [registry_field eco name ver])
    ("pkgward | " +:+ node_label +:+ " | needs review").

(** [f"{x:.0%}"]. *)
Definition percent (x : double) : string :=
  match SFmul 53 1024 x (S754_finite false 7036874417766400 (-46)) with
  | S754_finite s m e => (if s then "-" else "") +:+ show (if 0 <=? e then Z.shiftl (Zpos m) e else div_even (Zpos m) (- e)) +:+ "%"
  | S754_zero s => (if s then "-" else "") +:+ "0%"
  | S754_infinity s => if s then "-inf%" else "inf%"
  | S754_nan => "nan%"
  end.
Definition ioc_line (i : ioc) : string := "`" +:+ ioc_type i +:+ "`: `" +:+ _defang (ioc_value i) +:+ "`".

(** [_build_embed]; [model] and [stats], the latency and cost of the footer, are given as text. *)
Definition _build_embed (node_label model stats name ver eco rule_verdict : string) (rule_score n_findings : Z) (t : LLMTriageResult)
    (fs : list Finding) (downloads_weekly : option Z) (p : option publisher) : embed :=
  let unverified := negb (verdict_in (r_verdict t) [VMalicious; VSuspicious; VBenign]) in
  let v := verdict_name (r_verdict t) in
  mkEmbed (if unverified then "⚠️ Suspect Package (LLM unverified)" else "⚠️ Malicious Package Detected")
    (if unverified then
       "Rules flagged **" +:+ name +:+ "** " +:+ ver +:+ " as **" +:+ rule_verdict +:+ "** — LLM could not verify (" +:+ v +:+ "). Review manually."
     else if bool_decide (r_agrees t = Some false) then
       "Rules flagged **" +:+ name +:+ "** " +:+ ver +:+ " as **" +:+ v +:+ "** (LLM disagrees)"
     else "LLM triage confirmed **" +:+ name +:+ "** " +:+ ver +:+ " as **" +:+ v +:+ "**")
    (if unverified then GREY else _severity_color (r_verdict t) (r_confidence t))
    ([inline "Package" ("`" +:+ name +:+ "==" +:+ ver +:+ "`"); inline "Ecosystem" eco;
      inline "LLM Verdict" ("**" +:+ upper v +:+ "** (" +:+ percent (r_confidence t) +:+ ")");
      inline "Rule Verdict" (rule_verdict +:+ " (score: " +:+ show rule_score +:+ ")");
      inline "Findings" (show n_findings); inline "Model" model; inline "Downloads/week" (_downloads_field downloads_weekly);
      block "LLM Reasoning" (if truthy (r_reasoning t) then _defang (utake 1000 (r_reasoning t)) else "No reasoning provided")] ++
     match r_iocs t with
     | [] => []
     | l => [block ("IOCs (" +:+ show (Z.of_nat (List.length l)) +:+ ")") (join (String LF "") (map ioc_line (firstn 15 l)))]
     end ++
     hits_field 8 240 fs ++ option_list (_publisher_field p) ++ [registry_field eco name ver])
    ("pkgward | " +:+ node_label +:+ " | " +:+ stats).

(** ** Sending *)

(** Times in microseconds. *)
Definition MIN_INTERVAL : Z := 2500000.
(** The locked part of [_throttle]: the slot reserved at [now], and the wait. *)
Definition reserve (last_send now : Z) : Z := Z.max now (last_send + MIN_INTERVAL).
(** The slots of the senders in the order in which they take the lock. *)
Fixpoint slots (last_send : Z) (nows : list Z) : list Z :=
  match nows with [] => [] | now :: nows' => let target := reserve last_send now in target :: slots target nows' end.

Definition _ALERT_MAX_ATTEMPTS : nat := 4.
Inductive reply := Status (code : Z) | Error.
(** What the loop does after an attempt. *)
Inductive next := Done (sent : bool) | Retry.
Definition after (attempt : nat) (r : reply) : next :=
  let more := (S attempt <? _ALERT_MAX_ATTEMPTS)%nat in
  match r with
  | Status s =>
      if s =? 204 then Done true
      else if s =? 429 then if more then Retry else Done false
      else if (500 <=? s) && (s <? 600) && more then Retry
      else Done false
  | Error => if more then Retry else Done false
  end.
(** [_post_embed] from [attempt] on: the result, and the number of requests. *)
Fixpoint post_loop (fuel attempt : nat) (replies : nat -> reply) : bool * nat :=
  match fuel with
  | O => (false, O)
  | S fuel' => match after attempt (replies attempt) with
               | Done b => (b, 1%nat)
               | Retry => let '(b, n) := post_loop fuel' (S attempt) replies in (b, S n)
               end
  end.
Definition _post_embed (webhook : option string) (replies : nat -> reply) : bool * nat :=
  if otruthy webhook then post_loop _ALERT_MAX_ATTEMPTS 0 replies else (false, O).

(** ** Limits *)

Lemma ulen_utake n s : (ulen (utake n s) <= n)%nat.
Proof.
  revert n. induction s as [|c s IH]; intros n; cbn [utake ulen]; [lia|]. destruct (continuation c) eqn:E; [cbn [ulen]; rewrite E; apply IH|].
  destruct n as [|n]; cbn [ulen]; [lia|]. rewrite E. specialize (IH n). lia.
Qed.

Lemma utake_nonempty n s : s <> "" -> (0 < n)%nat -> utake n s <> "".
Proof. intros Hs Hn. destruct s as [|c s]; [done|]. cbn [utake]. destruct (continuation c), n; try done; lia. Qed.

Definition field_cost (f : field) : Z := Z.of_nat (ulen (fd_name f)) + Z.of_nat (ulen (fd_value f)).
Definition total_cost (fs : list field) : Z := foldr (fun f n => field_cost f + n) 0 fs.

(** A field Discord accepts. *)
Definition field_ok (f : field) : Prop :=
  (ulen (fd_name f) <= 256)%nat /\ (ulen (fd_value f) <= 1024)%nat /\ fd_name f <> "" /\ fd_value f <> "".

Lemma str_or_nonempty x y : y <> "" -> str_or x y <> "".
Proof. intros Hy. unfold str_or, truthy. destruct (String.eqb_spec x ""); [done|]. done. Qed.

Lemma clamp_ok f : field_ok (clamp_field f).
Proof.
  unfold clamp_field, field_ok. cbn [fd_name fd_value]. split_and!; [apply ulen_utake| | |by apply str_or_nonempty].
  - unfold str_or at 1. destruct (truthy _); [apply ulen_utake|vm_compute; lia].
  - apply utake_nonempty; [by apply str_or_nonempty|lia].
Qed.

Lemma clamp_fields_ok budget fs : Forall field_ok (clamp_fields budget fs).
Proof.
  revert budget. induction fs as [|f fs IH]; intros budget; cbn [clamp_fields]; [constructor|]. cbv zeta. case_match; [constructor|]. constructor; [apply clamp_ok|apply IH].
Qed.

Lemma clamp_fields_cost budget fs : 0 <= budget -> total_cost (clamp_fields budget fs) <= budget.
Proof.
  revert budget. induction fs as [|f fs IH]; intros budget Hb; cbn [clamp_fields]; [cbn; lia|]. cbv zeta.
  destruct (Z.ltb_spec (budget - (Z.of_nat (ulen (fd_name (clamp_field f))) + Z.of_nat (ulen (fd_value (clamp_field f))))) 0) as [|Hc]; [cbn; lia|].
  cbn [total_cost foldr]. specialize (IH _ Hc). unfold total_cost, field_cost in *. lia.
Qed.

Lemma clamp_fields_prefix budget fs : clamp_fields budget fs `prefix_of` map clamp_field fs.
Proof.
  revert budget. induction fs as [|f fs IH]; intros budget; cbn [clamp_fields map]; [done|]. cbv zeta. case_match; [apply prefix_nil|]. apply prefix_cons, IH.
Qed.

(** C32. Every alert is within Discord's limits.  Whatever the findings, the model and the
    package say, the posted embed has at most 25 fields, each with a name and a value that are
    not empty and not too long, a title, description and footer within their limits, and
    at most 6000 characters of title, description and fields together; and the fields
    are the first ones of the alert, none rearranged. *)
Theorem alert_within_limits (e : embed) : let s := _sanitize_embed e in
  (List.length (fields s) <= 25)%nat /\
  (forall f, f ∈ fields s -> (ulen (fd_name f) <= 256)%nat /\ (ulen (fd_value f) <= 1024)%nat /\ fd_name f <> "" /\ fd_value f <> "") /\
  (ulen (title s) <= 256)%nat /\ (ulen (description s) <= 4096)%nat /\ (ulen (footer s) <= 2048)%nat /\
  Z.of_nat (ulen (title s)) + Z.of_nat (ulen (description s)) + total_cost (fields s) <= 6000 /\
  fields s `prefix_of` map clamp_field (fields e).
Proof.
  cbn zeta. unfold _sanitize_embed. cbn [fields title description footer].
  pose proof (ulen_utake 256 (title e)) as H1. pose proof (ulen_utake 4096 (description e)) as H2. pose proof (ulen_utake 2048 (footer e)) as H3.
  set (budget := 6000 - _ - _). assert (0 <= budget) as Hb by (unfold budget; lia).
  pose proof (clamp_fields_prefix budget (firstn 25 (fields e))) as Hp.
  assert (map clamp_field (firstn 25 (fields e)) `prefix_of` map clamp_field (fields e)) as Hq.
  { exists (map clamp_field (skipn 25 (fields e))). rewrite <- map_app. by rewrite firstn_skipn. }
  split_and!; try done.
  - apply prefix_length in Hp. rewrite length_map, length_firstn in Hp. lia.
  - intros f Hf. pose proof (clamp_fields_ok budget (firstn 25 (fields e))) as H. rewrite Forall_forall in H. by apply H.
  - pose proof (clamp_fields_cost budget (firstn 25 (fields e)) Hb) as H. unfold budget in *. lia.
  - by etransitivity.
Qed.

(** The footer counts towards Discord's total, but not towards the budget. *)
Definition wide (n : nat) : string := string_of_list_ascii (repeat "a"%char n).
Definition ex_wide : embed := mkEmbed "t" "d" 0 (repeat (mkField "n" (wide 1024) false) 6) (wide 2048).
Example footer_over_budget : let s := _sanitize_embed ex_wide in
  6000 < Z.of_nat (ulen (title s)) + Z.of_nat (ulen (description s)) + total_cost (fields s) + Z.of_nat (ulen (footer s)).
Proof. by vm_compute. Qed.

(** ** The throttle *)

Lemma slots_lower last nows t : t ∈ slots last nows -> last + MIN_INTERVAL <= t.
Proof.
  revert last. induction nows as [|now nows IH]; intros last; cbn [slots]; [by intros ?%elem_of_nil|]. cbv zeta. unfold reserve, MIN_INTERVAL in *.
  intros [->|Ht]%elem_of_cons; [lia|]. apply IH in Ht. lia.
Qed.

(** Slots stand at least [MIN_INTERVAL] apart, in the order of the lock. *)
Lemma slots_apart last nows : StronglySorted (fun a b => a + MIN_INTERVAL <= b) (slots last nows).
Proof.
  revert last. induction nows as [|now nows IH]; intros last; cbn [slots]; [constructor|]. cbv zeta. constructor; [apply IH|].
  apply Forall_forall. intros t Ht. by apply slots_lower in Ht.
Qed.

Lemma apart_count (l : list Z) a b : StronglySorted (fun x y => x + MIN_INTERVAL <= y) l -> a < b ->
  Z.of_nat (List.length (bfilter (fun t => (a <=? t) && (t <? b)) l)) <= (b - a - 1) / MIN_INTERVAL + 1.
Proof.
  intros Hs. revert a. induction Hs as [|x l Hs IH Hx]; intros a Hab; cbn [List.filter List.length]; [unfold MIN_INTERVAL; assert (0 <= (b - a - 1) / 2500000) by (apply Z.div_pos; lia); lia|].
  destruct (Z.leb_spec a x), (Z.ltb_spec x b); cbn [andb]; try (by apply IH).
  cbn [List.length]. destruct (Z.lt_ge_cases (x + MIN_INTERVAL) b) as [Hlt|Hge].
  - assert (bfilter (fun t => (a <=? t) && (t <? b)) l = bfilter (fun t => (x + MIN_INTERVAL <=? t) && (t <? b)) l) as ->.
    { apply bfilter_ext. intros t Ht. rewrite Forall_forall in Hx. specialize (Hx t Ht). cbn beta in Hx.
      rewrite (proj2 (Z.leb_le _ _) Hx). replace (a <=? t) with true; [done|]. symmetry. apply Z.leb_le. unfold MIN_INTERVAL in *. lia. }
    specialize (IH (x + MIN_INTERVAL) Hlt). assert ((b - (x + MIN_INTERVAL) - 1) / MIN_INTERVAL + 1 <= (b - a - 1) / MIN_INTERVAL).
    { replace ((b - (x + MIN_INTERVAL) - 1) / MIN_INTERVAL + 1) with ((b - x - 1) / MIN_INTERVAL).
      - apply Z.div_le_mono; unfold MIN_INTERVAL; lia.
      - replace (b - x - 1) with (b - (x + MIN_INTERVAL) - 1 + 1 * MIN_INTERVAL) by lia. rewrite Z.div_add by (unfold MIN_INTERVAL; lia). lia. }
    lia.
  - rewrite bfilter_none; [cbn; unfold MIN_INTERVAL; assert (0 <= (b - a - 1) / 2500000) by (apply Z.div_pos; lia); lia|].
    intros t Ht. rewrite Forall_forall in Hx. specialize (Hx t Ht). cbn beta in Hx. apply andb_false_iff. right. apply Z.ltb_ge. lia.
Qed.

(** The throttle keeps to the rate.  In whatever order the senders take the lock, the
    reserved slots increase by at least two and a half seconds, none lies before its sender's time, and any
    minute contains at most 24 of them, where Discord allows 30. *)
Theorem throttle_rate last nows a :
  StronglySorted (fun s t => s + 2500000 <= t) (slots last nows) /\
  Forall2 (fun now t => now <= t) nows (slots last nows) /\
  Z.of_nat (List.length (bfilter (fun t => (a <=? t) && (t <? a + 60000000)) (slots last nows))) <= 24.
Proof.
  split_and!; [apply slots_apart| |].
  - revert last. induction nows as [|now nows IH]; intros last; cbn [slots]; [constructor|]. constructor; [unfold reserve; lia|apply IH].
  - etransitivity; [apply apart_count; [apply slots_apart|lia]|]. replace (a + 60000000 - a - 1) with 59999999 by lia. vm_compute. discriminate.
Qed.

(** ** Retries *)

Definition transient (r : reply) : bool :=
  match r with Error => true | Status s => negb (s =? 204) && ((s =? 429) || ((500 <=? s) && (s <? 600))) end.

Lemma post_loop_spec fuel attempt replies : (fuel + attempt = _ALERT_MAX_ATTEMPTS)%nat ->
  let r := post_loop fuel attempt replies in
  (r.2 <= fuel)%nat /\
  (r.1 = true <-> exists i, (attempt <= i < _ALERT_MAX_ATTEMPTS)%nat /\ replies i = Status 204 /\ forall j, (attempt <= j < i)%nat -> transient (replies j) = true).
Proof.
  revert attempt. induction fuel as [|fuel IH]; intros attempt Hf; cbn zeta; cbn [post_loop].
  { split; [done|]. split; [done|]. intros (i & Hi & _). lia. }
  assert (forall b, after attempt (replies attempt) = Done b -> (b = true <-> replies attempt = Status 204) /\
    (b = false -> transient (replies attempt) = false \/ S attempt = _ALERT_MAX_ATTEMPTS)) as Hdone.
  { intros b. unfold after. cbv zeta. destruct (Nat.ltb_spec (S attempt) _ALERT_MAX_ATTEMPTS) as [Hm|Hm]; unfold transient; destruct (replies attempt) as [s|]; try done.
    - destruct (Z.eqb_spec s 204) as [->|Hne]; [by intros [= <-]|]. destruct (s =? 429); [done|]. destruct ((500 <=? s) && (s <? 600)); cbn; [done|].
      intros [= <-]. split; [split; [done|by intros [= ?]]|by left].
    - destruct (Z.eqb_spec s 204) as [->|Hne]; [by intros [= <-]|]. rewrite andb_false_r. destruct (s =? 429); intros [= <-]; (split; [split; [done|by intros [= ?]]|right; lia]).
    - intros [= <-]. split; [split; [done|discriminate]|right; lia]. }
  assert (after attempt (replies attempt) = Retry -> transient (replies attempt) = true /\ replies attempt <> Status 204) as Hretry.
  { unfold after. cbv zeta. destruct (S attempt <? _ALERT_MAX_ATTEMPTS)%nat; unfold transient; destruct (replies attempt) as [s|]; try done.
    - destruct (Z.eqb_spec s 204) as [->|Hne]; [done|]. destruct (s =? 429); cbn; [intros _; split; [done|congruence]|].
      destruct ((500 <=? s) && (s <? 600)); cbn; [intros _; split; [done|congruence]|done].
    - destruct (s =? 204); [done|]. rewrite andb_false_r. by destruct (s =? 429). }
  destruct (after attempt (replies attempt)) as [b|] eqn:Ea.
  - cbn [fst snd]. split; [lia|]. destruct (Hdone b eq_refl) as [H1 H2]. split.
    + intros ->. exists attempt. split_and!; [lia|unfold _ALERT_MAX_ATTEMPTS in *; lia|by apply H1|lia].
    + intros (i & Hi & Hr & Ht). destruct (decide (i = attempt)) as [->|Hne]; [by apply H1|]. destruct b; [done|].
      destruct (H2 eq_refl) as [H|H]; [specialize (Ht attempt ltac:(lia)); congruence|lia].
  - destruct (Hretry eq_refl) as [Ht Hns]. specialize (IH (S attempt) ltac:(lia)). cbn zeta in IH.
    destruct (post_loop fuel (S attempt) replies) as [b n]. cbn [fst snd] in *. destruct IH as [H1 H2]. split; [lia|]. rewrite H2. split.
    + intros (i & Hi & Hr & Hj). exists i. split_and!; [lia|lia|done|]. intros j Hj'. destruct (decide (j = attempt)) as [->|]; [done|]. apply Hj. lia.
    + intros (i & Hi & Hr & Hj). exists i. destruct (decide (i = attempt)) as [->|]; [done|]. split_and!; [lia|lia|done|]. intros j Hj'. apply Hj. lia.
Qed.

(** A transient failure does not lose an alert.  With a webhook set, at most four requests
    are made, and the alert counts as sent exactly when one of the four is answered by 204 and
    every earlier answer was a timeout, a 429 or a server error; without one nothing is sent. *)
Theorem alert_retried url replies (Hurl : url <> "") :
  _post_embed None replies = (false, 0%nat) /\
  let r := _post_embed (Some url) replies in
  (r.2 <= 4)%nat /\
  (r.1 = true <-> exists i, (i < 4)%nat /\ replies i = Status 204 /\ forall j, (j < i)%nat -> transient (replies j) = true).
Proof.
  split; [done|]. cbn zeta. unfold _post_embed, otruthy, ostr, truthy. cbn [default]. unfold id.
  destruct (String.eqb_spec url ""); [done|]. cbn [negb]. destruct (post_loop_spec _ALERT_MAX_ATTEMPTS 0 replies eq_refl) as [H1 H2].
  split; [done|]. rewrite H2. unfold _ALERT_MAX_ATTEMPTS. split; intros (i & Hi & Hr & Ht).
  - exists i. split; [lia|]. split; [done|]. intros j Hj. apply Ht. lia.
  - exists i. split; [lia|]. split; [done|]. intros j Hj. apply Ht. lia.
Qed.
Lemma alert_retried_witness : _post_embed (Some "https://w") (fun n => match n with 0%nat => Error | 1%nat => Status 503 | _ => Status 204 end) = (true, 3%nat) /\
  (snd (_post_embed (Some "https://w") (fun n => match n with 0%nat => Error | 1%nat => Status 503 | _ => Status 204 end)) <= 4)%nat.
Proof.
  split; [reflexivity|]. exact (proj1 (proj2 (alert_retried "https://w" (fun n => match n with 0%nat => Error | 1%nat => Status 503 | _ => Status 204 end) ltac:(discriminate)))).
Defined.

(** ** Hits *)

(** Each finding is counted in exactly one group. *)
Definition total_count (d : list ((string * string) * hits)) : Z := foldr (fun kg n => count kg.2 + n) 0 d.
Lemma step_count d f : total_count (group_step d f) = total_count d + 1.
Proof.
  unfold group_step, dget_or. cbv zeta. generalize (rule_id f, evidence f). intros k. induction d as [|[k' g] d IH]; [done|].
  cbn [dget dset]. destruct (decide (k = k')) as [->|Hne]; unfold total_count in *; cbn in *; [lia|]. rewrite IH. lia.
Qed.
Lemma groups_count fs : total_count (fold_left group_step fs []) = Z.of_nat (List.length fs).
Proof.
  induction fs as [|f fs IH] using rev_ind; [done|]. rewrite fold_left_app, length_app. cbn [fold_left List.length]. rewrite step_count, IH. lia.
Qed.

Example hits_ex : let f fl := mkFinding "iocs.url" "iocs" SHigh CHigh fl None "https://evil.com/a" in
  _render_top_findings 8 240 [f "a.js"; mkFinding "x.y" "x" SCritical CLow "" None "e"; f "b.js"; f "a.js"] =
  "**x.y** [critical/low]" +:+ String LF "e" +:+ String LF "**iocs.url** [high/high] ×3 `a.js` (+1 more files)" +:+ String LF "https[://]evil[.]com/a".
Proof. by vm_compute. Qed.

Example defang_ex : map _defang ["http://10.0.0.1:8080/a.com"; "evil.ru"; "a.community"; "v1.2"; ".com"] =
  ["http[://]10[.]0[.]0[.]1:8080/a[.]com"; "evil[.]ru"; "a[.]community"; "v1.2"; ".com"].
Proof. by vm_compute. Qed.
Example numbers_ex : map _downloads_field [None; Some 0; Some 999; Some 1234567; Some 1000] = ["n/a"; "0 (no install base)"; "~999"; "~1,234,567"; "~1,000"].
Proof. by vm_compute. Qed.
