(* ===== verification/Scanners.v ===== *)
(** * External scanners ([analyze/yara_scan.py], [opengrep_scan.py], [unpack.py], [webcrack_deobf.py])

    What the program does around the programs and libraries it runs: which rule files and
    which files of the package it gives them, what it makes of their answers, and what
    unpacking changes in the tree.  YARA, opengrep, UPX and webcrack themselves are
    arguments. *)
From stdpp Require Import gmap.
From S2P Require Import Prelude PyStr Text Regex RegexSyntax Findings Json Tree Score Binary NpmInstall.
From Stdlib Require Import Ascii String.

Open Scope string_scope.
Open Scope list_scope.
Open Scope Z_scope.

(** ** YARA *)

Module Yara.

Definition CATEGORY : string := "yara".

(** A rule file of an intel directory: the name of that directory, its own name without the extension, its path. *)
Record rule_file := mkRule { rf_parent : string; rf_stem : string; rf_path : string }.

Definition namespace (f : rule_file) : string :=
  if String.eqb (rf_parent f) "yara" then rf_stem f else rf_parent f +:+ "__" +:+ rf_stem f.
Definition filepaths (files : list rule_file) : list (string * string) :=
  fold_left (fun d f => dset (namespace f) (rf_path f) d) files [].

Section Rules.
(** Whether a file compiles alone, and what the good ones compile to together. *)
Context {rules : Type} (compiles : string -> bool) (compile_all : list (string * string) -> option rules).

(** [_get_rules] past the cache. *)
Definition load_rules (files : list rule_file) : option rules :=
  match bfilter (fun nf => compiles nf.2) (filepaths files) with
  | [] => None
  | good => compile_all good
  end.

(** [_compiled_rules] and [_compiled_from]. *)
Definition cache : Type := option rules * list string.
Definition _get_rules (yara_present : bool) (dirs : list string) (files : list rule_file) (c : cache) : option rules * cache :=
  if bool_decide (is_Some c.1) && bool_decide (dirs = c.2) then (c.1, c)
  else if negb yara_present then (None, c)
  else match load_rules files with Some r => (Some r, (Some r, dirs)) | None => (None, c) end.
End Rules.

Definition _SKIP_EXTENSIONS : list string :=
  [".png"; ".jpg"; ".jpeg"; ".gif"; ".ico"; ".bmp"; ".webp"; ".woff"; ".woff2"; ".ttf"; ".eot";
   ".zip"; ".gz"; ".bz2"; ".xz"; ".tar"; ".whl"; ".pyc"; ".pyo"].
Definition _MAX_FILE_SIZE : Z := 5 * 1024 * 1024.

(** A value of a rule's metadata; a match. *)
Inductive meta_value := MStr (s : string) | MInt (n : Z) | MBool (b : bool).
Definition meta_text (v : meta_value) : string :=
  match v with MStr s => s | MInt n => show n | MBool b => if b then "True" else "False" end.
Record ymatch := mkYMatch { ym_rule : string; ym_meta : list (string * meta_value); ym_strings : list string }.

Definition severity_of (v : meta_value) : severity :=
  match v with
  | MStr "low" => SLow | MStr "medium" => SMedium | MStr "high" => SHigh | MStr "critical" => SCritical
  | _ => SMedium
  end.
Definition confidence_of (v : meta_value) : confidence :=
  match v with MStr "low" => CLow | MStr "medium" => CMedium | MStr "high" => CHigh | _ => CMedium end.

Definition match_finding (rel : string) (m : ymatch) : Finding :=
  let matched := firstn 3 (ym_strings m) in
  let desc := meta_text (dget_or "description" (MStr (ym_rule m)) (ym_meta m)) in
  mkFinding ("yara." +:+ ym_rule m) CATEGORY
    (severity_of (dget_or "severity" (MStr "medium") (ym_meta m))) (confidence_of (dget_or "confidence" (MStr "medium") (ym_meta m)))
    rel None (match matched with [] => desc | _ => desc +:+ " [" +:+ join ", " matched +:+ "]" end).

Definition scanned (f : tree_file) : bool :=
  negb (str_in (suffix_lower f) _SKIP_EXTENSIONS) && match tf_size f with Some n => n <=? _MAX_FILE_SIZE | None => false end.

Section Scan.
(** [rules.match(data=..., externals={"filename": ...})]; [None]: it raised. *)
Context {rules : Type} (rules_match : rules -> string -> string -> option (list ymatch)).

Definition analyze_yara (r : option rules) (changed : option (list string)) (tree : list tree_file) : list Finding :=
  match r with
  | None => []
  | Some r => each_file scanned changed (fun f data => map (match_finding (real_path f)) (default [] (rules_match r data (real_path f)))) tree
  end.
End Scan.

End Yara.

(** ** opengrep *)

Module Opengrep.

Definition CATEGORY : string := "opengrep".
Definition _MIGRATED_INSTALL_ECOSYSTEMS : list string := ["pypi"; "crates"].

(** The environment variables the module reads. *)
Record switches := mkSwitches { OPENGREP_ENABLED : option string; OPENGREP_SHADOW : option string; OPENGREP_TIMEOUT_SEC : option string }.

Section Switches.
Variable env : switches.
Definition _enabled : bool := negb (String.eqb (default "1" (OPENGREP_ENABLED env)) "0").
Definition _shadow_mode : bool := negb (String.eqb (default "1" (OPENGREP_SHADOW env)) "0").
Definition _timeout_sec : Z := match py_int (default "60" (OPENGREP_TIMEOUT_SEC env)) with Some n => Z.max 1 n | None => 60 end.
Definition replaces_install_analyzer_for (ecosystem : string) : bool :=
  if negb _enabled then false else if _shadow_mode then false else str_in ecosystem _MIGRATED_INSTALL_ECOSYSTEMS.
End Switches.

(** The probe of the binary: not a file, or the exit code of [--version], if it ran. *)
Inductive probe := NotFound | Probed (returncode : option Z).
Definition probe_ok (p : probe) : bool := match p with Probed (Some rc) => rc =? 0 | _ => false end.
(** [_binary_ok] and [_binary_checked_for]. *)
Definition _check_binary (bin_path : string) (p : probe) (c : option bool * string) : bool * (option bool * string) :=
  match c.1 with
  | Some ok => if String.eqb c.2 bin_path then (ok, c) else (probe_ok p, (Some (probe_ok p), bin_path))
  | None => (probe_ok p, (Some (probe_ok p), bin_path))
  end.

Section Results.
(** [str] of a value that is no string; the working directory and the extraction directory, resolved. *)
Variables (str_of : json -> string) (cwd root : list string).
Definition py_str (v : json) : string := match v with JStr s => s | _ => str_of v end.

Definition upper (s : string) : string := string_of_list_ascii (map (fun c => chr (upper_code (code c))) (list_ascii_of_string s)).
Definition severity_named (s : string) : option severity :=
  if String.eqb s "low" then Some SLow else if String.eqb s "medium" then Some SMedium
  else if String.eqb s "high" then Some SHigh else if String.eqb s "critical" then Some SCritical else None.
Definition confidence_named (s : string) : option confidence :=
  if String.eqb s "low" then Some CLow else if String.eqb s "medium" then Some CMedium else if String.eqb s "high" then Some CHigh else None.
Definition _TOP_SEV_MAP : list (string * severity) := [("ERROR", SHigh); ("WARNING", SMedium); ("INFO", SLow)].

Definition _normalize_severity (meta : list (string * json)) (top_level : json) : severity :=
  match severity_named (lower (py_str (jget "severity" meta (JStr "")))) with
  | Some s => s
  | None => dget_or (upper (py_str top_level)) SMedium _TOP_SEV_MAP
  end.
Definition _normalize_confidence (meta : list (string * json)) : confidence :=
  default CMedium (confidence_named (lower (py_str (jget "confidence" meta (JStr ""))))).

(** [d.get(k) or {}] of a dictionary; [None]: what is there has no [get]. *)
Definition sub_object (k : string) (o : list (string * json)) : option (list (string * json)) :=
  let v := jget k o JNull in
  if json_truthy v then match v with JObj o' => Some o' | _ => None end else Some [].

(** [Path(raw).resolve().relative_to(root).as_posix()], or the name alone. *)
Definition relative_path (raw : string) : string :=
  match resolve cwd raw ≫= fun p => relative_to p root with
  | Some [] => "."
  | Some parts => join "/" parts
  | None => path_name raw
  end.

Definition line_number (v : json) : option Z := match v with JInt n => Some n | JBool b => Some (if b then 1 else 0) | _ => None end.
Definition short_id (check_id : string) : string := if has_char "." check_id then List.last (split "." check_id) "" else check_id.

(** One result; [None] inside: it is passed over, [None] outside: an exception, which
    passes over it as well. *)
Definition _result_to_finding (shadow : bool) (item : json) : option (option Finding) :=
  match item with
  | JObj item =>
      let check_id := strip (py_str (jget "check_id" item (JStr ""))) in
      if negb (truthy check_id) then Some None
      else
        let rel := relative_path (py_str (jget "path" item (JStr ""))) in
        start ← sub_object "start" item;
        extra ← sub_object "extra" item;
        metadata ← sub_object "metadata" extra;
        let category := jget "category" metadata JNull in
        Some (Some (mkFinding ("opengrep." +:+ (if shadow then "shadow_" else "") +:+ short_id check_id)
          (if json_truthy category then py_str category else CATEGORY)
          (_normalize_severity metadata (jget "severity" extra (JStr ""))) (_normalize_confidence metadata)
          rel (line_number (jget "line" start JNull)) (str_or (strip (py_str (jget "message" extra (JStr "")))) (short_id check_id))))
  | _ => None
  end.

(** [payload.get("results", []) or []] as a sequence of items; [None]: an exception. *)
Definition results_of (payload : json) : option (list json) :=
  match payload with
  | JObj o =>
      let v := jget "results" o JNull in
      if json_truthy v then match v with JArr l => Some l | JObj kvs => Some (map (fun kv => JStr kv.1) kvs) | JStr _ => Some [] | _ => None end
      else Some []
  | _ => None
  end.

(** How the run of the program ends. *)
Inductive run := TimedOut | RunFailed | Undecodable | Exited (returncode : Z) (stdout : string).

Variable loads : string -> option json.
Definition kept (changed : option (list string)) (f : Finding) : bool := match changed with None => true | Some l => str_in (file f) l end.
Definition findings_of (shadow : bool) (changed : option (list string)) (items : list json) : list Finding :=
  bfilter (kept changed) (omap (fun it => default None (_result_to_finding shadow it)) items).

(** [None]: an exception leaves the function. *)
Definition analyze_opengrep (env : switches) (rule_dirs : list string) (binary_ok : bool) (r : run) (changed : option (list string)) : option (list Finding) :=
  if negb (_enabled env) || bool_decide (rule_dirs = []) || negb binary_ok then Some []
  else match r with
  | TimedOut | RunFailed => Some []
  | Undecodable => None
  | Exited rc out =>
      if negb (rc =? 0) then Some []
      else match (if truthy out then loads out else Some (JObj [])) with
      | None => Some []
      | Some payload => findings_of (_shadow_mode env) changed <$> results_of payload
      end
  end.
End Results.

End Opengrep.

(** ** UPX *)

Module Unpack.

Definition MAX_UNPACKED_MB : Z := 100.
Definition MAX_UNPACK_FILES : nat := 25.
Definition TMP_SUFFIX : string := ".upxtmp".

(** [Path] compares by parts. *)
Fixpoint parts_leb (a b : list string) : bool :=
  match a, b with
  | [], _ => true
  | _ :: _, [] => false
  | x :: a', y :: b' => if String.eqb x y then parts_leb a' b' else String.leb x y
  end.

Definition put_file (parts : list string) (data : string) (tree : list tree_file) : list tree_file :=
  let new := mkTreeFile parts (Some (Z.of_nat (len data))) (Some data) in
  if existsb (fun f => bool_decide (tf_parts f = parts)) tree
  then map (fun f => if bool_decide (tf_parts f = parts) then new else f) tree else tree ++ [new].
Definition drop_file (parts : list string) (tree : list tree_file) : list tree_file :=
  bfilter (fun f => negb (bool_decide (tf_parts f = parts))) tree.
Definition exists_at (parts : list string) (tree : list tree_file) : bool :=
  existsb (fun g => bool_decide (parts `prefix_of` tf_parts g)) tree.
(** [p.with_name(p.name + suffix)]. *)
Definition sibling (parts : list string) (suffix : string) : list string := removelast parts ++ [List.last parts "" +:+ suffix].

(** The run of [upx -d] over a copy: the content it leaves, if any. *)
Inductive upx_run := UpxTimeout | UpxRaised (error : string) | UpxExit (returncode : Z) (kept : option string).

Record state := mkState { u_tree : list tree_file; u_results : list (string * string); u_attempts : nat; u_raised : bool }.

(** A native image with the mark of UPX in its first megabyte. *)
Definition upx_packed (data : string) : bool :=
  let head := str_take (Z.to_nat _PACKER_SCAN_BYTES) data in
  existsb (fun ml => startswith head ml.1) _MAGIC_BYTES && bool_decide (snd <$> _detect_packer head = Some UPX).

Section Unpack.
Variable upx : string -> upx_run.

(** One attempt on the file [parts] with content [data].  Where a directory stands in the place of the
    temporary file, the copy lands inside it and removing it raises, from the handler too. *)
Definition attempt (parts : list string) (data : string) (st : state) : state :=
  let tmp := sibling parts TMP_SUFFIX in
  let finish tree status := mkState tree (u_results st ++ [(join "/" parts, status)]) (S (u_attempts st)) false in
  if dir_exists (u_tree st) tmp then mkState (put_file (tmp ++ [List.last parts ""]) data (u_tree st)) (u_results st) (S (u_attempts st)) true
  else
    let rest := drop_file tmp (u_tree st) in
    match upx data with
    | UpxTimeout => finish rest "timeout"
    | UpxRaised e => finish rest ("error:" +:+ e)
    | UpxExit rc (Some d) =>
        if (rc =? 0) && (Z.of_nat (len d) <=? MAX_UNPACKED_MB * 1024 * 1024)
        then finish (put_file (sibling parts UNPACKED_SUFFIX) d rest) "unpacked" else finish rest "unpack_failed"
    | UpxExit _ None => finish rest "unpack_failed"
    end.

(** One turn of the loop.  A name that is too long makes [dest.exists()] raise. *)
Definition unpack_step (st : state) (parts : list string) : state :=
  if u_raised st || (MAX_UNPACK_FILES <=? u_attempts st)%nat then st
  else match file_at (u_tree st) parts with
  | Some (mkTreeFile _ _ (Some data)) =>
      let dest := sibling parts UNPACKED_SUFFIX in
      if endswith (List.last parts "") UNPACKED_SUFFIX || negb (upx_packed data) then st
      else if (255 <? len (List.last dest ""))%nat then mkState (u_tree st) (u_results st) (u_attempts st) true
      else if exists_at dest (u_tree st) then st
      else attempt parts data st
  | _ => st
  end.

Definition unpack_packed_executables (upx_available : bool) (tree : list tree_file) : state :=
  let st := mkState tree [] 0 false in
  if negb upx_available then st else fold_left unpack_step (ssort parts_leb (map tf_parts tree)) st.
End Unpack.

End Unpack.

(** ** webcrack *)

Module Webcrack.

Definition _TOTAL_TIMEOUT : Z := 240.
Definition _MAX_FILES : nat := 25.
Definition _MAX_FILE_BYTES : Z := 8 * 1024 * 1024.
Definition _OUT_DIR : string := ".webcrack".
Definition _JS_EXT : list string := [".js"; ".cjs"; ".mjs"].
Definition _OBFUSCATED : regex := compile bplain
  ("_0x[0-9a-fA-F]{4,}|__webpack_require__|webpackJsonp|webpackChunk|" +:+
   "\beval\s*\(\s*function\b|String\.fromCharCode\s*\(|" +:+ "(?:\\x[0-9a-fA-F]{2}){6,}").
Definition _SNIFF_BYTES : nat := Z.to_nat 200000.
Definition _SUPPORTED_NODE_MAJORS : list Z := [22; 24].

(** The major version of node, from what it prints. *)
Definition node_major (node_ver : option string) : option Z :=
  match node_ver with
  | Some v => let v := lstrip_char "v" v in if truthy v && str_forall is_digit (str_take 1 v) then py_int (before_first "." v) else None
  | None => None
  end.
Definition _runtime_ok (binary : bool) (node_ver wc_ver : option string) : bool :=
  binary && otruthy wc_ver && match node_major node_ver with Some n => existsb (Z.eqb n) _SUPPORTED_NODE_MAJORS | None => false end.

Definition _looks_obfuscated (data : string) : bool :=
  let head := str_take _SNIFF_BYTES data in
  found _OBFUSCATED head || existsb (fun line => (2000 <? len line)%nat) (split LF head).

(** The run over one file: an exception, or the files it leaves below its directory. *)
Inductive webcrack_run := CrackRaised | CrackDone (outs : list (list string)).

Section Deobfuscate.
(** The parts of the extraction directory; whether the deadline has passed when the walk
    reaches the n-th file; the runs. *)
Variables (root : list string) (late : nat -> bool) (webcrack : tree_file -> webcrack_run).

Definition eligible (f : tree_file) : bool :=
  str_in (suffix_lower f) _JS_EXT && negb (str_in _OUT_DIR (root ++ tf_parts f)) &&
  match tf_size f with Some n => (0 <? n) && (n <=? _MAX_FILE_BYTES) | None => false end &&
  match tf_data f with Some data => _looks_obfuscated data | None => false end.

Definition js_outputs (f : tree_file) (outs : list (list string)) : list string :=
  map (fun q => join "/" (_OUT_DIR :: tf_parts f ++ q)) (bfilter (fun q => str_in (lower (name_suffix (List.last q ""))) _JS_EXT) outs).

(** [produced] and [n]; the loop ends at the first entry past a limit. *)
Fixpoint crack_loop (i : nat) (files : list tree_file) (produced : list string) (n : nat) : list string * nat :=
  match files with
  | [] => (produced, n)
  | f :: files' =>
      if (_MAX_FILES <=? n)%nat || late i then (produced, n)
      else if negb (eligible f) then crack_loop (S i) files' produced n
      else match webcrack f with
      | CrackRaised => crack_loop (S i) files' produced (S n)
      | CrackDone outs => crack_loop (S i) files' (append_new produced (js_outputs f outs)) (S n)
      end
  end.
Definition deobfuscate_npm (enabled runtime_ok : bool) (tree : list tree_file) : list string :=
  if negb enabled || negb runtime_ok then []
  else (crack_loop 0 (ssort (fun f g => Unpack.parts_leb (tf_parts f) (tf_parts g)) tree) [] 0).1.
End Deobfuscate.

End Webcrack.

(** ** What opengrep and YARA can report *)

Lemma yara_prefixed {rules} (rm : rules -> string -> string -> option (list Yara.ymatch)) r changed tree g :
  g ∈ Yara.analyze_yara rm r changed tree -> startswith (rule_id g) "yara." = true /\ category g = Yara.CATEGORY.
Proof.
  unfold Yara.analyze_yara. destruct r as [r|]; [|by intros ?%elem_of_nil].
  intros (f & data & _ & _ & _ & _ & (m & -> & _)%list_elem_of_fmap)%each_file_in. split; [apply prefix_app|done].
Qed.

Section Prefixes.
Context (str_of : json -> string) (cwd root : list string) (loads : string -> option json).

Lemma result_prefixed shadow it g : Opengrep._result_to_finding str_of cwd root shadow it = Some (Some g) ->
  startswith (rule_id g) (if shadow then "opengrep.shadow_" else "opengrep.") = true.
Proof.
  unfold Opengrep._result_to_finding. destruct it as [| | | | | |item]; try done. destruct (negb (truthy _)); [done|]. cbv zeta.
  intros (start & _ & (extra & _ & (metadata & _ & [= <-])%bind_Some)%bind_Some)%bind_Some. cbn [rule_id]. destruct shadow; [|apply prefix_app].
  rewrite <- str_app_assoc. apply prefix_app.
Qed.

Lemma opengrep_in env dirs ok r changed gs g : Opengrep.analyze_opengrep str_of cwd root loads env dirs ok r changed = Some gs -> g ∈ gs ->
  exists it, Opengrep._result_to_finding str_of cwd root (Opengrep._shadow_mode env) it = Some (Some g).
Proof.
  unfold Opengrep.analyze_opengrep. intros H Hg.
  assert (Some (@nil Finding) = Some gs -> False) as Hnil by (intros [= <-]; by apply elem_of_nil in Hg).
  destruct (_ || _ || _); [by apply Hnil in H|]. destruct r as [| | |rc out]; try done; try by apply Hnil in H.
  destruct (negb (rc =? 0)); [by apply Hnil in H|]. match type of H with match ?x with _ => _ end = _ => destruct x as [payload|] end; [|by apply Hnil in H].
  apply fmap_Some in H as (items & _ & ->). apply bfilter_in in Hg as [Hg _]. apply list_elem_of_omap in Hg as (it & _ & Hit).
  exists it. by destruct (Opengrep._result_to_finding _ _ _ _ it) as [[?|]|]; simplify_eq/=.
Qed.

(** When the analysis raises: only on a run that succeeds with output that is no text, or
    decodes to a value whose results cannot be gone through. *)
Lemma opengrep_raises env dirs ok r changed : Opengrep.analyze_opengrep str_of cwd root loads env dirs ok r changed = None <->
  Opengrep._enabled env = true /\ dirs <> [] /\ ok = true /\
  (r = Opengrep.Undecodable \/ exists out v, r = Opengrep.Exited 0 out /\ out <> "" /\ loads out = Some v /\ Opengrep.results_of v = None).
Proof.
  unfold Opengrep.analyze_opengrep. destruct (Opengrep._enabled env), dirs as [|d dirs], ok; cbn [negb orb]; rewrite ?bool_decide_true, ?bool_decide_false by done; cbn [orb];
    try (split; [done|by intros (? & ? & ? & _)]).
  destruct r as [| | |rc out].
  1, 2: split; [done|intros (_ & _ & _ & [?|(? & ? & ? & _)]); done].
  - split; [by intros _; split_and!; [| | |left]|done].
  - destruct (Z.eqb_spec rc 0) as [->|Hne]; cbn [negb]; [|split; [done|intros (_ & _ & _ & [?|(? & ? & [= ? ?] & _)]); done]].
    unfold truthy. destruct (String.eqb_spec out "") as [->|Ho]; cbn [negb].
    { split; [done|intros (_ & _ & _ & [?|(? & ? & [= <-] & ? & _)]); done]. }
    destruct (loads out) as [v|] eqn:El.
    + rewrite fmap_None. split.
      * intros Hv. split_and!; try done. right. by exists out, v.
      * by intros (_ & _ & _ & [?|(? & ? & [= <-] & _ & ? & ?)]); simplify_eq.
    + split; [done|intros (_ & _ & _ & [?|(? & ? & [= <-] & _ & ? & _)]); simplify_eq].
Qed.

(** In shadow mode nothing that opengrep reports is scored. *)
Lemma shadow_unscored env dirs ok r changed gs : Opengrep._shadow_mode env = true ->
  Opengrep.analyze_opengrep str_of cwd root loads env dirs ok r changed = Some gs -> scored gs = [].
Proof.
  intros Hs H. apply bfilter_none. intros g Hg. destruct (opengrep_in _ _ _ _ _ _ _ H Hg) as [it Hit]. rewrite Hs in Hit.
  apply result_prefixed in Hit. apply negb_false_iff, Hit.
Qed.

Lemma opengrep_prefixed env dirs ok r changed gs g : Opengrep.analyze_opengrep str_of cwd root loads env dirs ok r changed = Some gs -> g ∈ gs ->
  startswith (rule_id g) "opengrep." = true.
Proof.
  intros H Hg. destruct (opengrep_in _ _ _ _ _ _ _ H Hg) as [it Hit]. apply result_prefixed in Hit.
  destruct (Opengrep._shadow_mode env); [|done]. apply prefix_inv in Hit as [t ->]. reflexivity.
Qed.
End Prefixes.

(** The replacement of the install analyzers is off unless the operator switches shadow mode off. *)
Lemma replaces_only_live env eco : Opengrep.replaces_install_analyzer_for env eco = true <->
  Opengrep._enabled env = true /\ Opengrep._shadow_mode env = false /\ eco ∈ ["pypi"; "crates"].
Proof. unfold Opengrep.replaces_install_analyzer_for. destruct (Opengrep._enabled env), (Opengrep._shadow_mode env); cbn [negb]; rewrite ?str_in_true; naive_solver. Qed.

(** ** What unpacking leaves of the tree *)

Section Frame.
Import Unpack.

Lemma put_file_in parts data tree f : f ∈ put_file parts data tree ->
  f ∈ tree \/ f = mkTreeFile parts (Some (Z.of_nat (len data))) (Some data).
Proof.
  unfold put_file. destruct (existsb _ tree).
  - intros (g & -> & Hg)%list_elem_of_fmap. case_bool_decide; auto.
  - intros [?| ->%list_elem_of_singleton]%elem_of_app; auto.
Qed.
Lemma put_file_keeps parts data tree f : f ∈ tree -> tf_parts f <> parts -> f ∈ put_file parts data tree.
Proof.
  intros Hf Hp. unfold put_file. destruct (existsb _ tree); [|apply elem_of_app; by left].
  apply list_elem_of_fmap. exists f. by rewrite bool_decide_false.
Qed.
Lemma put_file_new parts data tree : mkTreeFile parts (Some (Z.of_nat (len data))) (Some data) ∈ put_file parts data tree.
Proof.
  unfold put_file. destruct (existsb _ tree) eqn:E; [|apply elem_of_app; right; by left].
  apply existsb_true in E as (g & Hg & Hp%bool_decide_eq_true). apply list_elem_of_fmap. exists g. by rewrite bool_decide_true.
Qed.
Lemma drop_file_in parts tree f : f ∈ drop_file parts tree <-> f ∈ tree /\ tf_parts f <> parts.
Proof. unfold drop_file. by rewrite bfilter_in, negb_true_iff, bool_decide_eq_false. Qed.

(** Some part of the path has the suffix of a temporary file. *)
Definition temporary (parts : list string) : bool := existsb (fun p => endswith p TMP_SUFFIX) parts.

Lemma str_app_endswith a b : endswith (a +:+ b) b = true.
Proof. unfold endswith. rewrite len_app. replace (len a + len b - len b)%nat with (len a) by lia. rewrite str_drop_app, String.eqb_refl. apply andb_true_iff. split; [apply Nat.leb_le; lia|done]. Qed.

Lemma sibling_temporary parts rest : temporary (sibling parts TMP_SUFFIX ++ rest) = true.
Proof. apply existsb_true. exists (List.last parts "" +:+ TMP_SUFFIX). split; [set_solver|]. apply str_app_endswith. Qed.

Context (upx : string -> upx_run).

(** A packed executable of the package. *)
Definition packed_in (tree : list tree_file) (g : tree_file) (data : string) : Prop :=
  g ∈ tree /\ tf_data g = Some data /\ upx_packed data = true.

(** Recovered from a packed executable of the package: what [upx -d] left of it when it exited
    with 0, next to it, below the cap. *)
Definition recovered (tree : list tree_file) (f : tree_file) : Prop :=
  exists g data payload, packed_in tree g data /\ upx data = UpxExit 0 (Some payload) /\
    tf_parts f = removelast (tf_parts g) ++ [tf_name g +:+ UNPACKED_SUFFIX] /\ tf_data f = Some payload /\
    Z.of_nat (len payload) <= 100 * 1024 * 1024.

(** The copy of a packed executable, left in a directory that stands in the place of the temporary file. *)
Definition misplaced (tree : list tree_file) (f : tree_file) : Prop :=
  exists g data, packed_in tree g data /\ tf_data f = Some data /\ tf_parts f = sibling (tf_parts g) TMP_SUFFIX ++ [tf_name g].

Record framed (tree : list tree_file) (st : state) : Prop := {
  fr_kept : forall f, f ∈ tree -> temporary (tf_parts f) = false -> f ∈ u_tree st;
  fr_from : forall f, f ∈ u_tree st -> f ∈ tree \/ recovered tree f \/ (u_raised st = true /\ misplaced tree f);
  fr_count : (u_attempts st <= MAX_UNPACK_FILES)%nat;
}.

Context (tree : list tree_file).

Lemma not_temporary parts f : temporary (tf_parts f) = false -> tf_parts f <> sibling parts TMP_SUFFIX.
Proof. intros H E. rewrite E, <- (app_nil_r (sibling _ _)), sibling_temporary in H. done. Qed.

Lemma attempt_framed st g data : framed tree st -> u_raised st = false -> (u_attempts st < MAX_UNPACK_FILES)%nat ->
  g ∈ tree -> tf_data g = Some data -> upx_packed data = true -> exists_at (sibling (tf_parts g) UNPACKED_SUFFIX) (u_tree st) = false ->
  framed tree (attempt upx (tf_parts g) data st).
Proof.
  intros [Hk Hf Hc] Hr Ha Hg Hd Hp Hx. unfold attempt. set (tmp := sibling _ TMP_SUFFIX). destruct (dir_exists (u_tree st) tmp).
  - constructor; cbn [u_tree u_raised u_attempts]; [| |lia].
    + intros f Hin Ht. apply put_file_keeps; [by apply Hk|]. intros E. rewrite E in Ht. subst tmp. by rewrite sibling_temporary in Ht.
    + intros f [Hin| ->]%put_file_in; [destruct (Hf f Hin) as [?|[?|[? ?]]]; auto|]. right. right. split; [done|]. exists g, data. by split_and!.
  - assert (forall f, f ∈ tree -> temporary (tf_parts f) = false -> f ∈ drop_file tmp (u_tree st)) as Hk'.
    { intros f Hin Ht. apply drop_file_in. split; [by apply Hk|by apply not_temporary]. }
    assert (forall f, f ∈ drop_file tmp (u_tree st) -> f ∈ tree \/ recovered tree f) as Hf'.
    { intros f [Hin _]%drop_file_in. destruct (Hf f Hin) as [?|[?|[? _]]]; auto. congruence. }
    assert (forall status, framed tree (mkState (drop_file tmp (u_tree st)) (u_results st ++ [(join "/" (tf_parts g), status)]) (S (u_attempts st)) false)) as Hdone.
    { intros status. constructor; cbn [u_tree u_raised u_attempts]; [done| |lia]. intros f Hin. destruct (Hf' f Hin); auto. }
    destruct (upx data) as [|e|rc [d|]] eqn:Eu; try apply Hdone. destruct ((rc =? 0) && _) eqn:E; [|apply Hdone].
    apply andb_true_iff in E as [->%Z.eqb_eq E%Z.leb_le]. constructor; cbn [u_tree u_raised u_attempts]; [| |lia].
    + intros f Hin Ht. apply put_file_keeps; [by apply Hk'|]. intros Eq. unfold exists_at in Hx. assert (f ∈ u_tree st) as Hin' by (by apply Hk).
      eapply (proj1 (existsb_false _ _)) in Hx; [|exact Hin']. apply bool_decide_eq_false in Hx. by rewrite Eq in Hx.
    + intros f [Hin| ->]%put_file_in; [destruct (Hf' f Hin); auto|]. right. left. exists g, data, d. split_and!; try done.
Qed.

Lemma step_framed st parts : framed tree st -> framed tree (unpack_step upx st parts).
Proof.
  intros H. unfold unpack_step. destruct (u_raised st) eqn:Er; [done|]. cbn [orb]. destruct (Nat.leb_spec MAX_UNPACK_FILES (u_attempts st)) as [?|Ha]; [done|].
  destruct (file_at (u_tree st) parts) as [[gp gz [data|]]|] eqn:Ef; [|done|done]. apply file_at_Some in Ef as [Hg Hparts]. cbn [tf_parts] in Hparts. subst gp.
  destruct (endswith (List.last parts "") UNPACKED_SUFFIX) eqn:Es; [done|]. cbn [orb]. destruct (upx_packed data) eqn:Ep; [|done]. cbn [negb].
  destruct (255 <? _)%nat.
  { destruct H as [Hk Hf Hc]. constructor; cbn [u_tree u_raised u_attempts]; [done| |done]. intros f Hin. destruct (Hf f Hin) as [?|[?|[? _]]]; auto. congruence. }
  destruct (exists_at _ _) eqn:Ex; [done|]. destruct (fr_from _ _ H _ Hg) as [Hin|[(g & d0 & p0 & _ & _ & Hp & _)|[? _]]]; [|exfalso|congruence].
  - exact (attempt_framed st (mkTreeFile parts gz (Some data)) data H Er Ha Hin eq_refl Ep Ex).
  - cbn [tf_parts] in Hp. rewrite Hp, last_last, str_app_endswith in Es. done.
Qed.
End Frame.

(** C21. Unpacking only adds what it recovered.  Whatever UPX does to the copies, and wherever the
    pass ends, every file of the package whose path has no part with the suffix of a temporary
    file is still there, unchanged; every other file of the tree afterwards was there before, or
    lies next to a packed executable of the package and is what [upx -d] left of that executable
    when it exited with 0, at most 100 MB, or, where the pass raised, is the copy of a packed
    executable that landed in a directory of the temporary file's name; and at most 25
    executables are tried. *)
Theorem unpacking_framed upx available tree : let st := Unpack.unpack_packed_executables upx available tree in
  (forall f, f ∈ tree -> temporary (tf_parts f) = false -> f ∈ Unpack.u_tree st) /\
  (forall f, f ∈ Unpack.u_tree st -> f ∈ tree \/ recovered upx tree f \/ (Unpack.u_raised st = true /\ misplaced tree f)) /\
  (Unpack.u_attempts st <= 25)%nat.
Proof.
  cbv zeta. assert (framed upx tree (Unpack.unpack_packed_executables upx available tree)) as [? ? ?]; [|done].
  unfold Unpack.unpack_packed_executables. assert (framed upx tree (Unpack.mkState tree [] 0 false)) as H0.
  { constructor; cbn [Unpack.u_tree Unpack.u_attempts]; [done|by auto|lia]. }
  destruct available; [|exact H0]. apply (fold_inv (framed upx tree)); [|exact H0]. intros st p _. apply step_framed.
Qed.

(** The status [too_large] of the code is never given: the temporary file is removed
    before its existence is tested, so a bomb is logged as a failure of UPX. *)
Definition status_known (rs : string * string) : Prop :=
  rs.2 ∈ ["unpacked"; "unpack_failed"; "timeout"] \/ exists e, rs.2 = "error:" +:+ e.
Lemma statuses upx available tree : Forall status_known (Unpack.u_results (Unpack.unpack_packed_executables upx available tree)).
Proof.
  unfold Unpack.unpack_packed_executables. destruct available; [|constructor].
  apply (fold_inv (fun st => Forall status_known (Unpack.u_results st))); [|constructor]. intros st p _ H. unfold Unpack.unpack_step.
  destruct (_ || _); [done|]. destruct (file_at _ _) as [[gp gz [data|]]|]; try done. destruct (_ || _); [done|].
  destruct (255 <? _)%nat; [done|]. destruct (Unpack.exists_at _ _); [done|]. unfold Unpack.attempt. destruct (dir_exists _ _); [done|].
  destruct (upx data) as [|e|rc [d|]]; [| |destruct (_ && _)|]; cbn [Unpack.u_results]; apply Forall_app; (split; [done|constructor; [|constructor]]);
    unfold status_known; cbn [snd]; try (left; set_solver). right. by exists e.
Qed.

(** ** What webcrack adds *)

Lemma crack_bounded root late wc i files produced n : (n <= 25)%nat ->
  Forall (fun p => startswith p ".webcrack" = true) produced ->
  let r := Webcrack.crack_loop root late wc i files produced n in
  (r.2 <= 25)%nat /\ Forall (fun p => startswith p ".webcrack" = true) r.1.
Proof.
  revert i produced n. induction files as [|f files IH]; intros i produced n Hn Hp; [done|]. cbn [Webcrack.crack_loop].
  destruct (Nat.leb_spec Webcrack._MAX_FILES n) as [?|Hlt]; [done|]. cbn [orb]. destruct (late i); [done|].
  destruct (negb (Webcrack.eligible root f)); [by apply IH|]. unfold Webcrack._MAX_FILES in Hlt.
  destruct (wc f) as [|outs]; apply IH; try lia; [done|]. apply Forall_forall. intros p [Hin|Hin]%append_new_elem; [rewrite Forall_forall in Hp; auto|].
  apply list_elem_of_fmap in Hin as (q & -> & _). unfold Webcrack._OUT_DIR. cbn [app join String.concat].
  destruct (tf_parts f ++ q); [done|apply (prefix_app ".webcrack")].
Qed.

(** ** Concrete runs *)

(** The overlay's file of a name replaces the baseline's: every intel directory of rules is
    called [yara], so the prefix that should keep the two apart is never put. *)
Example overlay_shadows_baseline :
  Yara.filepaths [Yara.mkRule "yara" "python_malware" "/baseline/yara/python_malware.yar"; Yara.mkRule "yara" "python_malware" "/overlay/yara/python_malware.yar"] =
  [("python_malware", "/overlay/yara/python_malware.yar")].
Proof. by vm_compute. Qed.

Definition ELF : string := bytes [127] +:+ "ELF".
Definition packed : string := ELF +:+ "....UPX!....".
Definition ex_upx (data : string) : Unpack.upx_run := Unpack.UpxExit 0 (Some (ELF +:+ "payload")).
Definition ex_file (parts : list string) (data : string) : tree_file := mkTreeFile parts (Some (Z.of_nat (len data))) (Some data).
Definition ex_unpack (tree : list tree_file) : list string * list (string * string) * bool :=
  let st := Unpack.unpack_packed_executables ex_upx true tree in (map real_path (Unpack.u_tree st), Unpack.u_results st, Unpack.u_raised st).

Example unpack_ex : ex_unpack [ex_file ["p"; "setup"] packed; ex_file ["p"; "a.js"] "x"] =
  (["p/setup"; "p/a.js"; "p/setup.upx_unpacked"], [("p/setup", "unpacked")], false).
Proof. by vm_compute. Qed.

(** UPX fails on the second executable: nothing is put next to it. *)
Lemma unpacking_framed_witness :
  let upx data := if contains "bad" data then Unpack.UpxExit 2 (Some data) else ex_upx data in
  let tree := [ex_file ["p"; "setup"] packed; ex_file ["p"; "tool"] (packed +:+ "bad")] in
  let st := Unpack.unpack_packed_executables upx true tree in
  Unpack.u_results st = [("p/setup", "unpacked"); ("p/tool", "unpack_failed")] /\
  recovered upx tree (ex_file ["p"; "setup.upx_unpacked"] (ELF +:+ "payload")).
Proof.
  intros upx tree st. split; [vm_compute; reflexivity|].
  destruct (proj1 (proj2 (unpacking_framed upx true tree)) (ex_file ["p"; "setup.upx_unpacked"] (ELF +:+ "payload"))) as [H|[H|[H _]]].
  - apply list_elem_of_lookup. exists 2%nat. vm_compute. reflexivity.
  - apply list_elem_of_lookup in H as [[|[|i]] H]; vm_compute in H; discriminate.
  - exact H.
  - vm_compute in H. discriminate.
Defined.

(** A file of the package that stands in the place of the recovered payload stops the unpacking, lowers
    the finding from high to medium, and is no artifact itself. *)
Example decoy_lowers :
  let decoy := [ex_file ["p"; "setup"] packed; ex_file ["p"; "setup.upx_unpacked"] "MZ"] in
  (ex_unpack decoy).1.2 = [] /\
  map (fun g => (rule_id g, f_severity g)) (analyze_binary_artifacts ["tmp"] decoy None) =
    [("binary.packed_executable", SMedium); ("binary.compiled_artifact", SLow)] /\
  map f_severity (analyze_binary_artifacts ["tmp"] (firstn 1 decoy) None) = [SHigh; SLow].
Proof. by vm_compute. Qed.

(** A file of the package with the suffix of the temporary file is overwritten and gone. *)
Example temporary_name_lost : ex_unpack [ex_file ["p"; "setup"] packed; ex_file ["p"; "setup.upxtmp"] "os.system('x')"] =
  (["p/setup"; "p/setup.upx_unpacked"], [("p/setup", "unpacked")], false).
Proof. by vm_compute. Qed.

(** A directory with that suffix, or a long name, ends the pass for the files after it. *)
Example directory_ends_pass : ex_unpack [ex_file ["p"; "a"] packed; ex_file ["p"; "a.upxtmp"; "x"] ""; ex_file ["p"; "b"] packed] =
  (["p/a"; "p/a.upxtmp/x"; "p/b"; "p/a.upxtmp/a"], [], true).
Proof. by vm_compute. Qed.
Example long_name_ends_pass : (ex_unpack [ex_file ["p"; join "" (repeat "a" 250)] packed; ex_file ["p"; "b"] packed]).2 = true.
Proof. by vm_compute. Qed.

Example node_majors : map (fun v => Webcrack._runtime_ok true (Some v) (Some "2.15")) ["v22.1.0"; "v23.0.0"; "24.0"; "none"] = [true; false; true; false].
Proof. by vm_compute. Qed.
