(* ===== verification/Vault.v ===== *)
(** * The sample vault: ZipCrypto, the zip container and the vault directory

    [src/pkgward/vault.py].  A flagged archive is stored in one encrypted,
    stored zip entry and read back by the detonation worker.  Bytes are
    integers in [0, 256); the keys of the cipher are kept at 32 bits.  The
    reader is the standard library's [zipfile] on the archives the writer
    makes: one stored, encrypted entry, no zip64 records, names in ASCII. *)
From S2P Require Import Prelude PyStr.
From Stdlib Require Import Ascii String.

Open Scope list_scope.
Open Scope Z_scope.

Definition is_byte (b : Z) : bool := (0 <=? b) && (b <? 256).
Definition bytes_of (s : string) : list Z := map code (list_ascii_of_string s).
Definition string_of (l : list Z) : string := string_of_list_ascii (map chr l).

(** ** ZipCrypto *)

Definition VAULT_PASSWORD : list Z := bytes_of "infected".

Definition crc_bit (c : Z) : Z := if Z.odd c then Z.lxor 0xEDB88320 (Z.shiftr c 1) else Z.shiftr c 1.
Definition CRC_TABLE : list Z := map (fun i => Nat.iter 8 crc_bit (Z.of_nat i)) (seq 0 256).

Definition crc32_byte (crc b : Z) : Z :=
  Z.lxor (Z.shiftr crc 8) (nth (Z.to_nat (Z.land (Z.lxor crc b) 0xFF)) CRC_TABLE 0).

Record keys := mkKeys { k0 : Z; k1 : Z; k2 : Z }.
Definition initial_keys : keys := mkKeys 0x12345678 0x23456789 0x34567890.

Definition update (b : Z) (k : keys) : keys :=
  let a := crc32_byte (k0 k) b in
  let m := Z.land (k1 k + Z.land a 0xFF) 0xFFFFFFFF in
  let m := Z.land (m * 134775813 + 1) 0xFFFFFFFF in
  mkKeys a m (crc32_byte (k2 k) (Z.land (Z.shiftr m 24) 0xFF)).

Definition encrypter (password : list Z) : keys := fold_left (fun k b => update b k) password initial_keys.

Definition stream_byte (k : keys) : Z :=
  let t := Z.land (Z.lor (k2 k) 2) 0xFFFF in Z.land (Z.shiftr (t * Z.lxor t 1) 8) 0xFF.

Fixpoint encrypt (k : keys) (data : list Z) : list Z :=
  match data with [] => [] | p :: data' => Z.lxor p (stream_byte k) :: encrypt (update p k) data' end.

(** The reader's side of the cipher, which does not cut its factor to 16 bits. *)
Definition zf_stream_byte (k : keys) : Z :=
  let t := Z.lor (k2 k) 2 in Z.land (Z.shiftr (t * Z.lxor t 1) 8) 0xFF.
Fixpoint zf_decrypt (k : keys) (data : list Z) : list Z :=
  match data with
  | [] => []
  | c :: data' => let p := Z.lxor c (zf_stream_byte k) in p :: zf_decrypt (update p k) data'
  end.

(** [zlib.crc32]. *)
Definition crc32 (data : list Z) : Z := Z.lxor (fold_left crc32_byte data 0xFFFFFFFF) 0xFFFFFFFF.

(** [header[11] = ...] on the twelve random bytes. *)
Definition encryption_header (urandom : list Z) (crc : Z) : list Z := <[11%nat := Z.land (Z.shiftr crc 24) 0xFF]> urandom.
Definition encrypt_entry (urandom data password : list Z) (crc : Z) : list Z :=
  encrypt (encrypter password) (encryption_header urandom crc ++ data).

(** ** The zip container *)

(** [struct.pack] and [struct.unpack] of little-endian unsigned fields, by their widths. *)
Fixpoint le (w : nat) (n : Z) : list Z := match w with O => [] | S w' => n mod 256 :: le w' (n / 256) end.
Fixpoint of_le (l : list Z) : Z := match l with [] => 0 | b :: l' => b + 256 * of_le l' end.

Fixpoint pack (fmt : list nat) (vs : list Z) : option (list Z) :=
  match fmt, vs with
  | [], [] => Some []
  | w :: fmt', v :: vs' =>
      if (0 <=? v) && (v <? 256 ^ Z.of_nat w) then (fun bs => le w v ++ bs) <$> pack fmt' vs' else None
  | _, _ => None
  end.

Fixpoint unpack (fmt : list nat) (bs : list Z) : option (list Z * list Z) :=
  match fmt with
  | [] => Some ([], bs)
  | w :: fmt' =>
      if (List.length bs <? w)%nat then None
      else '(vs, rest) ← unpack fmt' (List.skipn w bs); Some (of_le (List.firstn w bs) :: vs, rest)
  end.

Definition LOCAL : list nat := [4; 2; 2; 2; 2; 2; 4; 4; 4; 2; 2]%nat.
Definition CENTRAL : list nat := [4; 2; 2; 2; 2; 2; 2; 4; 4; 4; 2; 2; 2; 2; 2; 4; 4]%nat.
Definition EOCD : list nat := [4; 2; 2; 2; 2; 4; 4; 2]%nat.

Record localtime := mkTime { tm_year : Z; tm_mon : Z; tm_mday : Z; tm_hour : Z; tm_min : Z; tm_sec : Z }.
Definition dos_time (t : localtime) : Z :=
  Z.lor (Z.lor (Z.shiftl (tm_hour t) 11) (Z.shiftl (tm_min t) 5)) (tm_sec t / 2).
Definition dos_date (t : localtime) : Z :=
  Z.lor (Z.lor (Z.shiftl (tm_year t - 1980) 9) (Z.shiftl (tm_mon t) 5)) (tm_mday t).

(** The bytes [write_encrypted_zip] writes; [None]: [struct.error], before the file is opened. *)
Definition encrypted_zip (urandom : list Z) (t : localtime) (arcname : string) (data password : list Z) : option (list Z) :=
  let crc := Z.land (crc32 data) 0xFFFFFFFF in
  let blob := encrypt_entry urandom data password crc in
  let comp_size := Z.of_nat (List.length blob) in
  let uncomp_size := Z.of_nat (List.length data) in
  let name := bytes_of arcname in
  let n := Z.of_nat (List.length name) in
  local ← pack LOCAL [0x04034B50; 20; 1; 0; dos_time t; dos_date t; crc; comp_size; uncomp_size; n; 0];
  central ← pack CENTRAL [0x02014B50; 20; 20; 1; 0; dos_time t; dos_date t; crc; comp_size; uncomp_size; n; 0; 0; 0; 0; 0; 0];
  let cd_offset := Z.of_nat (List.length (local ++ name) + List.length blob) in
  eocd ← pack EOCD [0x06054B50; 0; 0; 1; 1; Z.of_nat (List.length (central ++ name)); cd_offset; 0];
  Some ((local ++ name) ++ blob ++ (central ++ name) ++ eocd).

(** *** The reader, [zipfile.ZipFile(f)], [namelist()[0]] and [read(inner, pwd=...)] *)

(** A zip64 locator in front of the end record. *)
Definition has_zip64 (f : list Z) (at_ : nat) : bool :=
  (20 <=? at_)%nat && bool_decide (List.firstn 4 (List.skipn (at_ - 20) f) = [80; 75; 6; 7]).

(** The end record at the end of the file: its offset, the size and offset of the directory. *)
Definition end_record (f : list Z) : option (nat * Z * Z) :=
  if (List.length f <? 22)%nat then None
  else
    let at_ := (List.length f - 22)%nat in
    match unpack EOCD (List.skipn at_ f) with
    | Some ([sig; _; _; _; _; size_cd; offset_cd; comment], _) =>
        if (sig =? 0x06054B50) && (comment =? 0) && negb (has_zip64 f at_) then Some (at_, size_cd, offset_cd) else None
    | _ => None
    end.

Record zip_info := mkInfo { z_name : list Z; z_flags : Z; z_method : Z; z_crc : Z; z_compress : Z; z_size : Z; z_offset : Z }.

Definition first_entry (f : list Z) : option zip_info :=
  '(at_, size_cd, offset_cd) ← end_record f;
  let start := Z.of_nat at_ - size_cd in
  let concat := start - offset_cd in
  if (start <? 0) || (size_cd <? 46) then None
  else
    match unpack CENTRAL (List.skipn (Z.to_nat start) f) with
    | Some ([sig; _; _; flags; method; _; _; crc; csize; usize; n; _; _; _; _; _; off], rest) =>
        if sig =? 0x02014B50 then Some (mkInfo (List.firstn (Z.to_nat n) rest) flags method crc csize usize (off + concat)) else None
    | _ => None
    end.

(** Decrypts and checks an entry: the password byte, then the checksum. *)
Definition read_entry (pwd : list Z) (e : zip_info) (body : list Z) : option (list Z) :=
  let k := encrypter pwd in
  let plain := zf_decrypt k (List.firstn (Z.to_nat (z_compress e)) body) in
  let data := List.firstn (Z.to_nat (z_size e)) (List.skipn 12 plain) in
  if negb (Z.odd (z_flags e)) || negb (z_method e =? 0) then None
  else if (List.length plain <? 12)%nat || negb (nth 11 plain 0 =? Z.land (Z.shiftr (z_crc e) 24) 0xFF) then None
  else if negb (Z.of_nat (List.length data) =? z_size e) || negb (crc32 data =? z_crc e) then None
  else Some data.

Definition zip_read (f pwd : list Z) : option (list Z * string) :=
  e ← first_entry f;
  match unpack LOCAL (List.skipn (Z.to_nat (z_offset e)) f) with
  | Some ([sig; _; _; _; _; _; _; _; _; n; extra], rest) =>
      if negb (sig =? 0x04034B50) || negb (bool_decide (List.firstn (Z.to_nat n) rest = z_name e)) then None
      else data ← read_entry pwd e (List.skipn (Z.to_nat n + Z.to_nat extra) rest); Some (data, string_of (z_name e))
  | _ => None
  end.

(** ** The vault directory *)

Definition is_alnum (c : ascii) : bool := is_digit c || is_upper c || ((97 <=? code c) && (code c <=? 122)).
Definition safe_char (c : ascii) : ascii := if is_alnum c || has_char c "._-" then c else "_"%char.
Fixpoint str_map (g : ascii -> ascii) (s : string) : string :=
  match s with EmptyString => EmptyString | String c s' => String (g c) (str_map g s') end.

Definition safe_stem (ecosystem nm version : string) : string :=
  str_map safe_char (ecosystem +:+ "__" +:+ nm +:+ "__" +:+ version).

(** What the vault takes from outside of one call: the hash, the clock, the
    twelve random bytes, the directory's creation and the outcome of each file
    write. *)
Inductive write_outcome := WriteOk | OpenFails | ShortWrite (n : nat).
Record outside := mkVaultOutside {
  sha256_hex : list Z -> string;
  urandom : list Z;
  local_time : localtime;
  captured_at : string;
  mkdir_ok : bool;
  disk : nat -> write_outcome;
}.

(** The directory: file names to contents. *)
Notation vault_fs := (list (string * list Z)).

(** Writing a file: [false] when it raised. *)
Definition write_file (w : write_outcome) (p : string) (content : list Z) (fs : vault_fs) : bool * vault_fs :=
  match w with
  | WriteOk => (true, dset p content fs)
  | OpenFails => (false, fs)
  | ShortWrite n => (false, dset p (List.firstn n content) fs)
  end.

Record sample := mkSample {
  s_ecosystem : string; s_name : string; s_version : string;
  s_inner : string; s_data : option (list Z); s_kind : string;
  s_verdict : string; s_score : Z; s_rules : list string; s_url : option string;
}.

Definition DQ : string := String (chr 34) "".
Definition quoted (s : string) : string := DQ +:+ s +:+ DQ.
Definition LF : string := String (chr 10) "".

Definition manifest_toml (o : outside) (s : sample) (sha : string) : string :=
  join LF ([
    "ecosystem = " +:+ quoted (s_ecosystem s);
    "name = " +:+ quoted (s_name s);
    "version = " +:+ quoted (s_version s);
    "label = " +:+ quoted "bad";
    "expected_verdict = " +:+ quoted (s_verdict s);
    "expect_rules = [" +:+ join ", " (map quoted (sorted_set (s_rules s))) +:+ "]";
    "sha256 = " +:+ quoted sha;
    "archive_kind = " +:+ quoted (s_kind s);
    "score = " +:+ show (s_score s);
    "captured_at = " +:+ quoted (captured_at o);
    "provenance = " +:+ quoted "frozen_sample"]%string ++
    match s_url s with Some u => if truthy u then ["registry_url = " +:+ quoted u]%string else [] | None => [] end) +:+ LF.

Definition vault_stem (o : outside) (s : sample) (data : list Z) : string :=
  safe_stem (s_ecosystem s) (s_name s) (s_version s) +:+ "__" +:+ str_take 12 (sha256_hex o data).

(** [archive_to_vault]; [enabled]: the environment names a vault directory. *)
Definition archive_to_vault (enabled : bool) (o : outside) (s : sample) (fs : vault_fs) : option string * vault_fs :=
  if negb enabled then (None, fs)
  else match s_data s with
  | None => (None, fs)
  | Some data =>
      let stem := vault_stem o s data in
      let zip_path := stem +:+ ".zip" in
      if negb (mkdir_ok o) then (None, fs)
      else if dhas zip_path fs then (Some zip_path, fs)
      else match encrypted_zip (urandom o) (local_time o) (s_inner s) data VAULT_PASSWORD with
      | None => (None, fs)
      | Some content =>
          let '(ok, fs) := write_file (disk o 0) zip_path content fs in
          if negb ok then (None, fs)
          else
            let '(ok, fs) := write_file (disk o 1) (stem +:+ ".manifest.toml") (bytes_of (manifest_toml o s (sha256_hex o data))) fs in
            (if ok then Some zip_path else None, fs)
      end
  end.

(** [glob(f"{stem}__*.zip")]: the stem has no magic characters. *)
Definition glob_zip (stem p : string) : bool :=
  startswith p (stem +:+ "__") && endswith p ".zip" && (len stem + 6 <=? len p)%nat.

Definition readable (fs : vault_fs) (p : string) : option (list Z * string) :=
  match dget p fs with Some f => zip_read f VAULT_PASSWORD | None => None end.

Definition read_archive (enabled : bool) (ecosystem nm version : string) (fs : vault_fs) : option (list Z * string) :=
  if negb enabled then None
  else head (omap (readable fs) (py_sorted (bfilter (glob_zip (safe_stem ecosystem nm version)) fs.*1))).

(** ** The cipher: lemmas *)

Lemma land_mod (a : Z) (n : nat) : Z.land a (Z.ones (Z.of_nat n)) = a mod 2 ^ Z.of_nat n.
Proof. apply Z.land_ones. lia. Qed.

Lemma stream_bytes_agree k : zf_stream_byte k = stream_byte k.
Proof.
  unfold zf_stream_byte, stream_byte. set (x := Z.lor (k2 k) 2).
  change 0xFF with (Z.ones (Z.of_nat 8)). change 0xFFFF with (Z.ones (Z.of_nat 16)).
  assert (forall y, Z.land (Z.shiftr y 8) (Z.ones (Z.of_nat 8)) = (y mod 65536) / 256) as E.
  { intros y. rewrite land_mod, Z.shiftr_div_pow2 by lia. change (2 ^ 8) with 256. change (2 ^ Z.of_nat 8) with 256.
    change 65536 with (256 * 256). rewrite Z.rem_mul_r by lia. rewrite (Z.mul_comm 256), Z.div_add by lia.
    rewrite (Z.div_small (y mod 256)) by (apply Z.mod_pos_bound; lia). lia. }
  rewrite !E. f_equal.
  assert (Z.lxor (Z.land x (Z.ones (Z.of_nat 16))) 1 = Z.lxor x 1 mod 65536) as ->.
  { change 65536 with (2 ^ Z.of_nat 16). rewrite <- land_mod. change 1 with (Z.land 1 (Z.ones (Z.of_nat 16))) at 1.
    apply Z.bits_inj. intros i. rewrite !Z.lxor_spec, !Z.land_spec, Z.lxor_spec.
    by destruct (Z.testbit x i), (Z.testbit 1 i), (Z.testbit (Z.ones (Z.of_nat 16)) i). }
  rewrite land_mod. change (2 ^ Z.of_nat 16) with 65536. by rewrite <- Z.mul_mod by lia.
Qed.

Lemma decrypt_encrypt data k : zf_decrypt k (encrypt k data) = data.
Proof.
  revert k. induction data as [|p data IH]; intros k; [done|]. cbn [encrypt zf_decrypt]. rewrite stream_bytes_agree.
  by rewrite Z.lxor_assoc, Z.lxor_nilpotent, Z.lxor_0_r, IH.
Qed.

Lemma encrypt_length data k : List.length (encrypt k data) = List.length data.
Proof. revert k. induction data as [|p data IH]; intros k; cbn [encrypt List.length]; [done|]. by rewrite IH. Qed.

Lemma testbit_high n a i : 0 <= a < 2 ^ n -> n <= i -> Z.testbit a i = false.
Proof.
  intros Ha Hi. destruct (decide (n < 0)); [rewrite Z.pow_neg_r in Ha by done; lia|].
  rewrite <- (Z.mod_small a (2 ^ n)) by lia. apply Z.mod_pow2_bits_high. lia.
Qed.

Lemma bits_range n x : 0 <= n -> 0 <= x -> (forall i, n <= i -> Z.testbit x i = false) -> 0 <= x < 2 ^ n.
Proof.
  intros Hn Hx H. split; [done|]. assert (x = x mod 2 ^ n) as ->; [|apply Z.mod_pos_bound; lia].
  rewrite <- Z.land_ones by done. apply Z.bits_inj. intros i. rewrite Z.land_spec.
  destruct (decide (i < 0)); [by rewrite !Z.testbit_neg_r by lia|].
  rewrite Z.testbit_ones_nonneg by lia. destruct (Z.ltb_spec i n); [by rewrite andb_true_r|by rewrite andb_false_r, H].
Qed.

Lemma lxor_range n a b : 0 <= n -> 0 <= a < 2 ^ n -> 0 <= b < 2 ^ n -> 0 <= Z.lxor a b < 2 ^ n.
Proof.
  intros Hn Ha Hb. apply bits_range; [done|apply Z.lxor_nonneg; lia|]. intros i Hi.
  by rewrite Z.lxor_spec, !(testbit_high n) by done.
Qed.

Lemma lor_range n a b : 0 <= n -> 0 <= a < 2 ^ n -> 0 <= b < 2 ^ n -> 0 <= Z.lor a b < 2 ^ n.
Proof.
  intros Hn Ha Hb. apply bits_range; [done|apply Z.lor_nonneg; lia|]. intros i Hi.
  by rewrite Z.lor_spec, !(testbit_high n) by done.
Qed.

Lemma land_FF_byte x : is_byte (Z.land x 0xFF) = true.
Proof.
  unfold is_byte. change 0xFF with (Z.ones (Z.of_nat 8)). rewrite land_mod. change (2 ^ Z.of_nat 8) with 256.
  pose proof (Z.mod_pos_bound x 256). lia.
Qed.

Lemma encrypt_bytes data k : forallb is_byte data = true -> forallb is_byte (encrypt k data) = true.
Proof.
  revert k. induction data as [|p data IH]; intros k H; [done|]. cbn [encrypt forallb] in *. apply andb_true_iff in H as [Hp H].
  rewrite (IH _ H), andb_true_r. pose proof (land_FF_byte (Z.shiftr (Z.land (Z.lor (k2 k) 2) 0xFFFF * Z.lxor (Z.land (Z.lor (k2 k) 2) 0xFFFF) 1) 8)) as Hs.
  unfold is_byte in *. change 256 with (2 ^ 8) in *. pose proof (lxor_range 8 p (stream_byte k)) as L. unfold stream_byte in *. lia.
Qed.

Definition is_word (n : Z) : bool := (0 <=? n) && (n <? 2 ^ 32).

Lemma table_words : forallb is_word CRC_TABLE = true.
Proof. vm_compute. reflexivity. Qed.

Lemma crc32_byte_range crc b : 0 <= crc < 2 ^ 32 -> 0 <= crc32_byte crc b < 2 ^ 32.
Proof.
  intros H. unfold crc32_byte. apply lxor_range; [lia| |].
  - rewrite Z.shiftr_div_pow2 by lia. split; [apply Z.div_pos; lia|]. apply Z.div_lt_upper_bound; lia.
  - destruct (nth_in_or_default (Z.to_nat (Z.land (Z.lxor crc b) 0xFF)) CRC_TABLE 0) as [Hin| ->]; [|lia].
    pose proof table_words as Ht. rewrite List.forallb_forall in Ht. specialize (Ht _ Hin). unfold is_word in Ht. lia.
Qed.

Lemma crc32_range data : 0 <= crc32 data < 2 ^ 32.
Proof.
  unfold crc32. apply lxor_range; [lia| |lia]. assert (forall c, 0 <= c < 2 ^ 32 -> 0 <= fold_left crc32_byte data c < 2 ^ 32) as H; [|apply H; lia].
  induction data as [|b data IH]; intros c Hc; [done|]. by apply IH, crc32_byte_range.
Qed.

(** The keys stay 32-bit words. *)
Lemma update_words b k : is_word (k0 k) && is_word (k1 k) && is_word (k2 k) = true ->
  is_word (k0 (update b k)) && is_word (k1 (update b k)) && is_word (k2 (update b k)) = true.
Proof.
  unfold is_word, update. cbn [k0 k1 k2]. change 0xFFFFFFFF with (Z.ones (Z.of_nat 32)). rewrite !land_mod. change (2 ^ Z.of_nat 32) with (2 ^ 32).
  intros H. pose proof (crc32_byte_range (k0 k) b).
  match goal with |- context [crc32_byte (k2 k) ?x] => pose proof (crc32_byte_range (k2 k) x) end.
  match goal with |- context [?x mod 2 ^ 32] => pose proof (Z.mod_pos_bound x (2 ^ 32)) end. lia.
Qed.

Lemma encrypter_words pwd : is_word (k0 (encrypter pwd)) && is_word (k1 (encrypter pwd)) && is_word (k2 (encrypter pwd)) = true.
Proof.
  unfold encrypter. assert (forall k, is_word (k0 k) && is_word (k1 k) && is_word (k2 k) = true ->
    let k := fold_left (fun k b => update b k) pwd k in is_word (k0 k) && is_word (k1 k) && is_word (k2 k) = true) as H; [|by apply H].
  induction pwd as [|b pwd IH]; intros k Hk; [done|]. by apply IH, update_words.
Qed.

(** ** The container: lemmas *)

Lemma le_length w n : List.length (le w n) = w.
Proof. revert n. induction w as [|w IH]; intros n; cbn [le List.length]; [done|]. by rewrite IH. Qed.

Lemma of_le_le w n : 0 <= n < 256 ^ Z.of_nat w -> of_le (le w n) = n.
Proof.
  revert n. induction w as [|w IH]; intros n H; cbn [le of_le].
  - change (256 ^ Z.of_nat 0) with 1 in H. lia.
  - rewrite Nat2Z.inj_succ, Z.pow_succ_r in H by lia. rewrite IH; [pose proof (Z.div_mod n 256); lia|].
    split; [apply Z.div_pos; lia|apply Z.div_lt_upper_bound; lia].
Qed.

Lemma firstn_app_le {A} n (l l' : list A) : List.length l = n -> List.firstn n (l ++ l') = l.
Proof. intros <-. by rewrite List.firstn_app, Nat.sub_diag, List.firstn_all, List.firstn_O, app_nil_r. Qed.
Lemma skipn_app_le {A} n (l l' : list A) : List.length l = n -> List.skipn n (l ++ l') = l'.
Proof. intros <-. by rewrite List.skipn_app, Nat.sub_diag, List.skipn_all. Qed.

Lemma unpack_pack fmt vs bs rest : pack fmt vs = Some bs -> unpack fmt (bs ++ rest) = Some (vs, rest).
Proof.
  revert vs bs. induction fmt as [|w fmt IH]; intros [|v vs] bs; cbn [pack unpack]; try done.
  { by intros [= <-]. }
  destruct ((0 <=? v) && (v <? 256 ^ Z.of_nat w)) eqn:Hv; [|done]. intros (bs' & Hb & ->)%fmap_Some.
  rewrite <- app_assoc. destruct (Nat.ltb_spec (List.length (le w v ++ bs' ++ rest)) w) as [Hlt|_].
  { rewrite List.length_app, le_length in Hlt. lia. }
  rewrite skipn_app_le, firstn_app_le by apply le_length. rewrite (IH _ _ Hb). cbn. rewrite of_le_le by lia. done.
Qed.

Definition fits (wv : nat * Z) : bool := (0 <=? wv.2) && (wv.2 <? 256 ^ Z.of_nat wv.1).

Lemma pack_total fmt vs : List.length fmt = List.length vs -> forallb fits (combine fmt vs) = true ->
  pack fmt vs = Some (List.concat (zip_with le fmt vs)).
Proof.
  revert vs. induction fmt as [|w fmt IH]; intros [|v vs] Hl H; try done. cbn [combine forallb pack zip_with List.concat] in *.
  apply andb_true_iff in H as [Hv H]. unfold fits in Hv. cbn [fst snd] in Hv. rewrite Hv, (IH vs); [done|by injection Hl|done].
Qed.

Lemma pack_length fmt vs bs : pack fmt vs = Some bs -> List.length bs = list_sum fmt.
Proof.
  revert vs bs. induction fmt as [|w fmt IH]; intros [|v vs] bs; cbn [pack list_sum fold_right]; try done; [by intros [= <-]|].
  destruct (_ && _); [|done]. intros (bs' & Hb & ->)%fmap_Some. rewrite List.length_app, le_length. f_equal. by eapply IH.
Qed.

(** A file that unpacks at an offset. *)
Lemma unpack_at fmt vs bs pre rest : pack fmt vs = Some bs -> unpack fmt (List.skipn (List.length pre) (pre ++ bs ++ rest)) = Some (vs, rest).
Proof. intros H. rewrite skipn_app_le by done. by apply unpack_pack. Qed.

(** Characters that a name may have: printable ASCII. *)
Definition printable (s : string) : bool := str_forall (fun c => (32 <=? code c) && (code c <? 127)) s.

Lemma bytes_of_string s : string_of (bytes_of s) = s.
Proof.
  unfold string_of, bytes_of. rewrite map_map. rewrite (map_ext _ (fun c => c)) by apply chr_code. rewrite map_id.
  apply string_of_list_ascii_of_string.
Qed.

Lemma bytes_of_length s : List.length (bytes_of s) = len s.
Proof. unfold bytes_of. rewrite length_map. by induction s as [|c s IH]; cbn; [|rewrite IH]. Qed.

Lemma printable_bytes s b : printable s = true -> In b (bytes_of s) -> 32 <= b.
Proof.
  unfold printable, bytes_of. induction s as [|c s IH]; cbn [str_forall list_ascii_of_string map In]; [done|].
  intros [Hc H]%andb_true_iff [<-|Hb]; [lia|by apply IH].
Qed.

(** No zip64 locator is read in front of the end record of a written archive:
    the third byte of a locator would be a byte of the directory entry that is
    zero, a byte of a short name's length, or a character of the name. *)
Lemma no_locator pre central name at_ :
  List.length central = 46%nat -> List.skipn 28 central = le 2 (Z.of_nat (List.length name)) ++ repeat 0 16 ->
  (forall b, In b name -> 32 <= b) ->
  forall rest, at_ = List.length (pre ++ central ++ name) -> has_zip64 ((pre ++ central ++ name) ++ rest) at_ = false.
Proof.
  intros Hc Hz Hn rest ->. set (n := List.length name) in *. unfold has_zip64. rewrite !List.length_app, Hc. fold n.
  destruct (Nat.leb_spec 20 (List.length pre + (46 + n))) as [_|]; [|lia]. cbn [andb].
  apply bool_decide_false. intros E.
  assert (nth 2 (List.firstn 4 (List.skipn (List.length pre + (46 + n) - 20) ((pre ++ central ++ name) ++ rest))) 0 = 6) as H by by rewrite E.
  clear E. rewrite nth_firstn in H. change (2 <? 4)%nat with true in H. cbn match in H. rewrite nth_skipn in H.
  rewrite app_nth1 in H by (rewrite !List.length_app, Hc; fold n; lia).
  rewrite app_nth2 in H by lia.
  replace (List.length pre + (46 + n) - 20 + 2 - List.length pre)%nat with (28 + n)%nat in H by lia.
  rewrite <- (List.firstn_skipn 28 central), Hz in H. rewrite <- !app_assoc in H.
  rewrite app_nth2 in H by (rewrite List.length_firstn, Hc; lia).
  rewrite List.length_firstn, Hc in H. replace (28 + n - Nat.min 28 46)%nat with n in H by lia.
  clearbody n. destruct n as [|[|n']]; [vm_compute in H; lia|vm_compute in H; lia|].
  rewrite app_nth2 in H by (rewrite le_length; lia). rewrite le_length in H.
  destruct (nth_in_or_default (S (S n') - 2) (repeat 0 16 ++ name) 0) as [Hin|Hd]; [|rewrite Hd in H; lia].
  rewrite H in Hin. apply in_app_or in Hin as [Hin%repeat_spec|Hin%Hn]; lia.
Qed.

Lemma pack_fits fmt vs bs : pack fmt vs = Some bs -> forallb fits (combine fmt vs) = true /\ List.length fmt = List.length vs.
Proof.
  revert vs bs. induction fmt as [|w fmt IH]; intros [|v vs] bs; cbn [pack combine forallb List.length]; try done.
  unfold fits at 1. cbn [fst snd]. destruct (_ && _); [|done]. intros (bs' & Hb & _)%fmap_Some.
  destruct (IH _ _ Hb) as [-> ->]. done.
Qed.

Lemma pack_concat fmt vs bs : pack fmt vs = Some bs -> bs = List.concat (zip_with le fmt vs).
Proof. intros H. destruct (pack_fits _ _ _ H) as [Hf Hl]. rewrite pack_total in H by done. by injection H. Qed.

(** The clock reads a time the MS-DOS fields can hold. *)
Definition dos_range (t : localtime) : bool :=
  (1980 <=? tm_year t) && (tm_year t <? 2108) && (1 <=? tm_mon t) && (tm_mon t <=? 12) && (1 <=? tm_mday t) && (tm_mday t <=? 31) &&
  (0 <=? tm_hour t) && (tm_hour t <? 24) && (0 <=? tm_min t) && (tm_min t <? 60) && (0 <=? tm_sec t) && (tm_sec t <=? 61).

Lemma dos_fields t : dos_range t = true -> 0 <= dos_time t < 65536 /\ 0 <= dos_date t < 65536.
Proof.
  intros H. unfold dos_range in H. change 65536 with (2 ^ 16).
  assert (forall x n, 0 <= n -> Z.shiftl x n = x * 2 ^ n) as Hs by (intros; by apply Z.shiftl_mul_pow2).
  pose proof (Z.div_pos (tm_sec t) 2). pose proof (Z.div_lt_upper_bound (tm_sec t) 2 31).
  unfold dos_time, dos_date. rewrite !Hs by lia.
  split; (apply lor_range; [lia|apply lor_range; lia|lia]).
Qed.

Lemma crc_masked data : Z.land (crc32 data) 0xFFFFFFFF = crc32 data.
Proof. change 0xFFFFFFFF with (Z.ones 32). rewrite Z.land_ones by lia. apply Z.mod_small, crc32_range. Qed.

Lemma entry_length rnd data pwd crc : List.length (encrypt_entry rnd data pwd crc) = (List.length rnd + List.length data)%nat.
Proof. unfold encrypt_entry, encryption_header. by rewrite encrypt_length, List.length_app, length_insert. Qed.

(** Decrypting what [encrypt_entry] made gives the data back. *)
Lemma read_entry_back rnd data pwd e rest :
  List.length rnd = 12%nat -> z_flags e = 1 -> z_method e = 0 -> z_crc e = crc32 data ->
  z_compress e = Z.of_nat (12 + List.length data) -> z_size e = Z.of_nat (List.length data) ->
  read_entry pwd e (encrypt_entry rnd data pwd (crc32 data) ++ rest) = Some data.
Proof.
  intros Hr Hf Hm Hc Hcs Hs. unfold read_entry. rewrite Hf, Hm, Hc, Hcs, Hs, !Nat2Z.id. cbn [Z.odd negb orb Z.eqb].
  rewrite firstn_app_le by (rewrite entry_length; lia). unfold encrypt_entry at 1 2 3 4 5. rewrite decrypt_encrypt.
  assert (List.length (encryption_header rnd (crc32 data)) = 12%nat) as Hh by (unfold encryption_header; by rewrite length_insert).
  rewrite skipn_app_le by done. rewrite List.firstn_all, Z.eqb_refl, Z.eqb_refl, List.length_app, Hh.
  destruct (Nat.ltb_spec (12 + List.length data) 12) as [|_]; [lia|].
  replace (nth 11 (encryption_header rnd (crc32 data) ++ data) 0) with (Z.land (Z.shiftr (crc32 data) 24) 0xFF); [by rewrite Z.eqb_refl|].
  rewrite app_nth1 by lia. unfold encryption_header. do 12 (destruct rnd as [|? rnd]; [done|]). done.
Qed.

Section Written.
Context (rnd data pwd : list Z) (nm : string) (time date : Z) (local central eocd : list Z).
Let name := bytes_of nm.
Let blob := encrypt_entry rnd data pwd (crc32 data).
Let n := Z.of_nat (List.length name).
Let csize := Z.of_nat (List.length blob).
Let usize := Z.of_nat (List.length data).
Let front := (local ++ name) ++ blob.
Let archive := (local ++ name) ++ blob ++ (central ++ name) ++ eocd.
Context (Hr : List.length rnd = 12%nat) (Hnm : printable nm = true).
Context (El : pack LOCAL [0x04034B50; 20; 1; 0; time; date; crc32 data; csize; usize; n; 0] = Some local).
Context (Ec : pack CENTRAL [0x02014B50; 20; 20; 1; 0; time; date; crc32 data; csize; usize; n; 0; 0; 0; 0; 0; 0] = Some central).
Context (Ee : pack EOCD [0x06054B50; 0; 0; 1; 1; Z.of_nat (List.length (central ++ name)); Z.of_nat (List.length front); 0] = Some eocd).

Lemma written_lengths : List.length local = 30%nat /\ List.length central = 46%nat /\ List.length eocd = 22%nat /\ csize = Z.of_nat (12 + List.length data).
Proof.
  split_and!; [exact (pack_length _ _ _ El)|exact (pack_length _ _ _ Ec)|exact (pack_length _ _ _ Ee)|].
  unfold csize, blob. rewrite entry_length. lia.
Qed.

Lemma written_split : archive = (front ++ central ++ name) ++ eocd.
Proof. unfold archive, front. by rewrite <- !app_assoc. Qed.

Lemma written_end : end_record archive = Some (List.length (front ++ central ++ name), Z.of_nat (List.length (central ++ name)), Z.of_nat (List.length front)).
Proof.
  destruct written_lengths as (_ & Lc & Le & _).
  assert (has_zip64 archive (List.length (front ++ central ++ name)) = false) as Hz.
  { rewrite written_split. eapply no_locator; [done| |by intros; eapply printable_bytes|done]. rewrite (pack_concat _ _ _ Ec). reflexivity. }
  unfold end_record. assert (List.length archive = List.length (front ++ central ++ name) + 22)%nat as -> by (rewrite written_split, List.length_app; lia).
  destruct (Nat.ltb_spec (List.length (front ++ central ++ name) + 22) 22) as [|_]; [lia|]. rewrite Nat.add_sub, Hz.
  replace archive with ((front ++ central ++ name) ++ eocd ++ []) by by rewrite app_nil_r, written_split.
  by rewrite (unpack_at _ _ _ _ _ Ee).
Qed.

Lemma written_entry : first_entry archive = Some (mkInfo name 1 0 (crc32 data) csize usize 0).
Proof.
  destruct written_lengths as (_ & Lc & _). unfold first_entry. rewrite written_end. cbn [mbind option_bind].
  replace (Z.of_nat (List.length (front ++ central ++ name)) - Z.of_nat (List.length (central ++ name))) with (Z.of_nat (List.length front))
    by (rewrite !List.length_app; lia).
  destruct (Z.ltb_spec (Z.of_nat (List.length front)) 0) as [|_]; [lia|].
  destruct (Z.ltb_spec (Z.of_nat (List.length (central ++ name))) 46) as [Hlt|_]; [rewrite List.length_app in Hlt; lia|]. cbn [orb]. rewrite Nat2Z.id.
  replace archive with (front ++ central ++ name ++ eocd) by (rewrite written_split; by rewrite <- !app_assoc).
  rewrite (unpack_at _ _ _ _ _ Ec). cbn [Z.eqb Pos.eqb]. unfold n. rewrite Nat2Z.id, firstn_app_le, Z.sub_diag by done. done.
Qed.

Lemma written_read : zip_read archive pwd = Some (data, nm).
Proof.
  destruct written_lengths as (_ & _ & _ & Lb). unfold zip_read. rewrite written_entry. cbn [mbind option_bind z_offset Z.to_nat List.skipn].
  replace archive with (local ++ name ++ blob ++ (central ++ name) ++ eocd) by (unfold archive; by rewrite <- !app_assoc).
  change (Z.to_nat 0) with O. rewrite List.skipn_O, (unpack_pack _ _ _ _ El). cbn [Z.eqb Pos.eqb negb orb z_name]. unfold n. rewrite Nat2Z.id, firstn_app_le, bool_decide_true by done. cbn [negb].
  rewrite Nat.add_0_r, skipn_app_le by done. unfold blob. rewrite read_entry_back by done. cbn [mbind option_bind]. unfold name. by rewrite bytes_of_string.
Qed.

End Written.

Lemma zip_roundtrip rnd t nm data pwd f : List.length rnd = 12%nat -> printable nm = true ->
  encrypted_zip rnd t nm data pwd = Some f -> zip_read f pwd = Some (data, nm).
Proof.
  intros Hr Hnm. unfold encrypted_zip. rewrite crc_masked.
  destruct (pack LOCAL _) as [local|] eqn:El; [|done]. cbn [mbind option_bind].
  destruct (pack CENTRAL _) as [central|] eqn:Ec; [|done]. cbn [mbind option_bind]. rewrite <- List.length_app.
  destruct (pack EOCD _) as [eocd|] eqn:Ee; [|done]. cbn [mbind option_bind]. intros [= <-]. by eapply written_read.
Qed.

Ltac solve_fits fmt :=
  cbn [forallb combine fmt]; unfold fits; cbn [fst snd];
  change (256 ^ Z.of_nat 4) with 4294967296; change (256 ^ Z.of_nat 2) with 65536;
  rewrite ?andb_true_iff, ?Z.leb_le, ?Z.ltb_lt; lia.

(** The writer succeeds on every archive whose sizes and name fit the container's fields. *)
Lemma encrypted_zip_total rnd t nm data pwd : List.length rnd = 12%nat -> dos_range t = true ->
  Z.of_nat (len nm) < 65536 -> Z.of_nat (List.length data) + 65600 < 2 ^ 32 -> is_Some (encrypted_zip rnd t nm data pwd).
Proof.
  intros Hr Ht Hn Hd. unfold encrypted_zip. rewrite crc_masked.
  destruct (dos_fields t Ht). pose proof (crc32_range data). pose proof (entry_length rnd data pwd (crc32 data)) as Lb.
  pose proof (bytes_of_length nm) as Ln.
  assert (forall fmt vs, List.length fmt = List.length vs -> forallb fits (combine fmt vs) = true -> exists bs, pack fmt vs = Some bs /\ List.length bs = list_sum fmt) as Hp.
  { intros fmt vs Hl Hf. eexists. split; [by apply pack_total|]. eapply pack_length. by apply pack_total. }
  change (2 ^ 32) with 4294967296 in *.
  edestruct (Hp LOCAL) as (local & -> & Ll); [reflexivity|solve_fits LOCAL|].
  edestruct (Hp CENTRAL) as (central & -> & Lc); [reflexivity|solve_fits CENTRAL|]. cbn [mbind option_bind].
  change (list_sum LOCAL) with 30%nat in Ll. change (list_sum CENTRAL) with 46%nat in Lc.
  edestruct (Hp EOCD) as (eocd & -> & _); [reflexivity| |by eexists].
  rewrite !List.length_app, Lb, Ln, Ll, Lc, Hr. solve_fits EOCD.
Qed.


(** ** The vault: lemmas *)

Lemma endswith_app s t p : (len p <= len t)%nat -> endswith (s +:+ t) p = endswith t p.
Proof.
  intros H. unfold endswith. rewrite len_app. rewrite !(proj2 (Nat.leb_le _ _)) by lia. cbn [andb]. f_equal.
  replace (len s + len t - len p)%nat with (len s + (len t - len p))%nat by lia. generalize (len t - len p)%nat. intros n.
  by induction s as [|c s IH].
Qed.

Lemma dset_keys_fresh {V} k v (d : list (string * V)) : k ∉ d.*1 -> (dset k v d).*1 = d.*1 ++ [k].
Proof.
  induction d as [|[k' v'] d IH]; cbn; [done|]. rewrite not_elem_of_cons. intros [Hne Hk]. rewrite decide_False by done.
  cbn. by rewrite IH.
Qed.

Lemma bfilter_dset_keys {V} (p : string -> bool) k v (d : list (string * V)) : p k = false -> bfilter p (dset k v d).*1 = bfilter p d.*1.
Proof.
  intros Hp. induction d as [|[k' v'] d IH]; cbn; [by rewrite Hp|].
  destruct (decide (k = k')) as [->|_]; cbn; [done|]. by rewrite IH.
Qed.

Lemma vault_path_matches o s data : glob_zip (safe_stem (s_ecosystem s) (s_name s) (s_version s)) (vault_stem o s data +:+ ".zip") = true.
Proof.
  unfold glob_zip, vault_stem. set (stem := safe_stem _ _ _). set (h := str_take 12 _).
  rewrite endswith_app by (cbn; lia). change (endswith ".zip" ".zip") with true.
  rewrite !len_app. unfold startswith. rewrite !str_app_assoc, <- (str_app_assoc stem), prefix_app. cbn [andb].
  apply Nat.leb_le. change (len "__") with 2%nat. change (len ".zip") with 4%nat. lia.
Qed.

Lemma manifest_not_zip stem s : glob_zip stem (s +:+ ".manifest.toml") = false.
Proof. unfold glob_zip. rewrite endswith_app by (cbn; lia). change (endswith ".manifest.toml" ".zip") with false. by rewrite andb_false_r. Qed.

(** No readable file of the package's pattern comes before [p] in the vault. *)
Definition unshadowed (ecosystem nm version p : string) (fs : vault_fs) : Prop :=
  forall q, q ∈ fs.*1 -> glob_zip (safe_stem ecosystem nm version) q = true -> String.leb q p = true -> readable fs q = None.

(** The directory after a sample is written. *)
Lemma read_after_write o s data fs f : let p := vault_stem o s data +:+ ".zip" in
  p ∉ fs.*1 -> unshadowed (s_ecosystem s) (s_name s) (s_version s) p fs ->
  zip_read f VAULT_PASSWORD = Some (data, s_inner s) ->
  forall m, read_archive true (s_ecosystem s) (s_name s) (s_version s) (dset (vault_stem o s data +:+ ".manifest.toml") m (dset p f fs)) = Some (data, s_inner s).
Proof.
  intros p Hnew Hfree Hf m. pose proof (vault_path_matches o s data) as Hp. fold p in Hp. unfold read_archive. cbn [negb].
  rewrite bfilter_dset_keys by apply manifest_not_zip. rewrite dset_keys_fresh by done.
  set (mf := vault_stem o s data +:+ ".manifest.toml").
  assert (forall q, glob_zip (safe_stem (s_ecosystem s) (s_name s) (s_version s)) q = true ->
    readable (dset mf m (dset p f fs)) q = readable (dset p f fs) q) as Hmf.
  { intros q Hq. unfold readable. rewrite dget_dset_ne; [done|]. intros E. rewrite <- E in Hq. unfold mf in Hq. by rewrite manifest_not_zip in Hq. }
  apply first_of_sorted with p.
  - apply bfilter_in. split; [set_solver|done].
  - rewrite Hmf by done. unfold readable. by rewrite dget_dset_eq, Hf.
  - intros q [Hq Hg]%bfilter_in Hne Hle. rewrite Hmf by done. unfold readable. rewrite dget_dset_ne by done.
    apply Hfree; [|done..]. apply elem_of_app in Hq as [?|Hq]; [done|]. by apply list_elem_of_singleton in Hq.
Qed.

(** The disk and the machine are in order. *)
Record healthy (o : outside) : Prop := {
  h_rnd : List.length (urandom o) = 12%nat;
  h_dir : mkdir_ok o = true;
  h_zip : disk o 0 = WriteOk;
  h_man : disk o 1 = WriteOk;
  h_time : dos_range (local_time o) = true;
}.

(** What a healthy machine stores. *)
Lemma archive_stored o s data fs :
  let p := vault_stem o s data +:+ ".zip" in
  let m := vault_stem o s data +:+ ".manifest.toml" in
  healthy o -> s_data s = Some data -> printable (s_inner s) = true -> Z.of_nat (len (s_inner s)) < 65536 ->
  Z.of_nat (List.length data) + 65600 < 2 ^ 32 -> p ∉ fs.*1 ->
  exists f, m <> p /\
    archive_to_vault true o s fs = (Some p, dset m (bytes_of (manifest_toml o s (sha256_hex o data))) (dset p f fs)) /\
    zip_read f VAULT_PASSWORD = Some (data, s_inner s).
Proof.
  intros p m [Hr Hd Hz Hm Ht] Hs Hp Hl Hsz Hnew.
  destruct (encrypted_zip_total (urandom o) (local_time o) (s_inner s) data VAULT_PASSWORD Hr Ht Hl Hsz) as [f Hf].
  apply dget_None in Hnew.
  assert (m <> p) as Hne.
  { intros E. pose proof (vault_path_matches o s data) as Hg. fold p in Hg. rewrite <- E in Hg. unfold m in Hg. by rewrite manifest_not_zip in Hg. }
  exists f. split_and!; [done| |by eapply zip_roundtrip].
  unfold archive_to_vault. fold p m. rewrite Hs, Hd, Hf, Hz, Hm. unfold dhas. fold p. rewrite Hnew. done.
Qed.

(** And reads back. *)
Lemma archive_read_back o s data fs :
  let p := vault_stem o s data +:+ ".zip" in
  let m := vault_stem o s data +:+ ".manifest.toml" in
  healthy o -> s_data s = Some data -> printable (s_inner s) = true -> Z.of_nat (len (s_inner s)) < 65536 ->
  Z.of_nat (List.length data) + 65600 < 2 ^ 32 -> p ∉ fs.*1 -> unshadowed (s_ecosystem s) (s_name s) (s_version s) p fs ->
  read_archive true (s_ecosystem s) (s_name s) (s_version s) (archive_to_vault true o s fs).2 = Some (data, s_inner s).
Proof.
  intros p m Hh Hs Hp Hl Hsz Hnew Hfree. destruct (archive_stored o s data fs Hh Hs Hp Hl Hsz Hnew) as (f & _ & -> & Hf).
  cbn [snd]. by apply read_after_write.
Qed.

(** ** Properties *)

(** C16. The vault gives back what it was given.  On a healthy machine (directory and disk
    writable, twelve random bytes, a clock in the range of the zip format), archiving a sample
    that fits the container (up to four gigabytes, a printable name) and is not there yet stores
    it under its own file name with its manifest and touches no other file; that file decrypts,
    with the password byte and the checksum verified, to exactly the original bytes under the
    original name, whatever else the vault holds; archiving the sample again changes nothing.
    Reading by package name answers with those bytes if no readable file of the package's
    pattern [<stem>__*.zip] sorts before it (another version of the archive, or another package
    whose name has the same stem, can). *)
Theorem vault_roundtrip o s data fs :
  let p := vault_stem o s data +:+ ".zip" in
  let m := vault_stem o s data +:+ ".manifest.toml" in
  healthy o -> s_data s = Some data -> printable (s_inner s) = true -> Z.of_nat (len (s_inner s)) < 65536 ->
  Z.of_nat (List.length data) + 65600 < 2 ^ 32 -> p ∉ fs.*1 ->
  exists fs' f,
    archive_to_vault true o s fs = (Some p, fs') /\
    dget p fs' = Some f /\ zip_read f VAULT_PASSWORD = Some (data, s_inner s) /\
    dget m fs' = Some (bytes_of (manifest_toml o s (sha256_hex o data))) /\
    (forall q, q <> p -> q <> m -> dget q fs' = dget q fs) /\
    (forall o', (forall x, sha256_hex o' x = sha256_hex o x) -> mkdir_ok o' = true -> archive_to_vault true o' s fs' = (Some p, fs')) /\
    (unshadowed (s_ecosystem s) (s_name s) (s_version s) p fs ->
       read_archive true (s_ecosystem s) (s_name s) (s_version s) fs' = Some (data, s_inner s)).
Proof.
  intros p m Hh Hs Hp Hl Hsz Hnew. destruct (archive_stored o s data fs Hh Hs Hp Hl Hsz Hnew) as (f & Hne & Ha & Hf). fold p m in Hne, Ha.
  exists (dset m (bytes_of (manifest_toml o s (sha256_hex o data))) (dset p f fs)), f. split_and!; [done| |done|apply dget_dset_eq| | |].
  - by rewrite dget_dset_ne, dget_dset_eq.
  - intros q Hqp Hqm. by rewrite !dget_dset_ne by congruence.
  - intros o' Hsha Hd'. unfold archive_to_vault, vault_stem. rewrite Hs, Hd', Hsha. unfold dhas. cbn [negb].
    fold (vault_stem o s data) p. rewrite dget_dset_ne, dget_dset_eq by done. done.
  - intros Hfree. pose proof (archive_read_back o s data fs Hh Hs Hp Hl Hsz Hnew Hfree) as Hb. by rewrite Ha in Hb.
Qed.

(** ** Concrete runs *)

Definition ex_out : outside :=
  mkVaultOutside (fun _ => "0123456789abcdef") [1; 2; 3; 4; 5; 6; 7; 8; 9; 10; 11; 12] (mkTime 2026 6 7 12 30 59)
    "2026-06-07T12:30:59Z" true (fun _ => WriteOk).
Definition ex_sample (nm : string) (ver : string) (data : list Z) : sample :=
  mkSample "npm" nm ver "pkg-1.0.0.tgz" (Some data) "tarball" "malicious" 90 ["b"; "a"; "b"] None.

Example crc32_check : crc32 (bytes_of "123456789") = 0xCBF43926.
Proof. vm_compute. reflexivity. Qed.

(** The vault already holds another version of the package's archive, which sorts later. *)
Lemma vault_roundtrip_witness :
  let s := ex_sample "@scope/pkg" "1.0.0" [31; 139; 0; 255] in
  let fs := [("npm___scope_pkg__1.0.0__ffff.zip"%string, [80; 75])] in
  exists fs', archive_to_vault true ex_out s fs = (Some "npm___scope_pkg__1.0.0__0123456789ab.zip"%string, fs') /\
    read_archive true "npm" "@scope/pkg" "1.0.0" fs' = Some ([31; 139; 0; 255], "pkg-1.0.0.tgz"%string).
Proof.
  destruct (vault_roundtrip ex_out (ex_sample "@scope/pkg" "1.0.0" [31; 139; 0; 255]) [31; 139; 0; 255]
    [("npm___scope_pkg__1.0.0__ffff.zip"%string, [80; 75])]) as (fs' & f & Ha & _ & _ & _ & _ & _ & Hr).
  - by split.
  - reflexivity.
  - reflexivity.
  - reflexivity.
  - reflexivity.
  - intros Hq. apply list_elem_of_singleton in Hq. discriminate.
  - exists fs'. split; [exact Ha|]. apply Hr. intros q Hq _ Hle. apply list_elem_of_singleton in Hq as ->. discriminate.
Defined.

(** The stem replaces every unusual character by the same one and the pattern
    has an open end, so another package's sample can answer. *)
Example vault_confuses_packages :
  let fs := (archive_to_vault true ex_out (ex_sample "@evil_x" "1" [1]) []).2 in
  let fs2 := (archive_to_vault true ex_out (ex_sample "x__1" "2" [2]) []).2 in
  read_archive true "npm" "@evil/x" "1" fs = Some ([1], "pkg-1.0.0.tgz"%string) /\
  read_archive true "npm" "x" "1" fs2 = Some ([2], "pkg-1.0.0.tgz"%string).
Proof. split; vm_compute; reflexivity. Qed.

(** A write that was cut short leaves a file that is taken for the sample from then on. *)
Example partial_write_sticks :
  let s := ex_sample "pkg" "1" [1; 2; 3] in
  let o := mkVaultOutside (sha256_hex ex_out) (urandom ex_out) (local_time ex_out) (captured_at ex_out) true (fun _ => ShortWrite 40) in
  let '(r1, fs1) := archive_to_vault true o s [] in
  let '(r2, fs2) := archive_to_vault true ex_out s fs1 in
  r1 = None /\ r2 = Some "npm__pkg__1__0123456789ab.zip"%string /\ fs2 = fs1 /\ read_archive true "npm" "pkg" "1" fs2 = None.
Proof. vm_compute. repeat split; reflexivity. Qed.
