(* ===== verification/Extract.v ===== *)
(** * Archive extraction

    [src/pkgward/util/extract.py].  The file tree under and above the output
    directory is a finite map from absolute paths to nodes; extraction never
    makes a link, so no path below a fresh output directory goes through one
    and [resolve] is the lexical normalisation.  Beside the tree the state keeps
    the trace of the system calls that changed it.  [tarfile] and [zipfile] are
    arguments: the members in archive order, and what reading each one yields. *)
From S2P Require Import Prelude PyStr Text.
From stdpp Require Import gmap strings.
From Stdlib Require Import Ascii String.

Open Scope list_scope.
Open Scope Z_scope.

Definition DEFAULT_MAX_BYTES : Z := 500 * 1024 * 1024.
Definition DEFAULT_MAX_FILES : Z := 25000.

Notation path := (list string).
Inductive node := Dir | File (content : list Z).
Notation tree := (gmap path node).

Inductive call := MkDir (p : path) | Write (p : path) (content : list Z).
Record state := mkState { fs : tree; calls : list call }.

Inductive ExtractionError := TooManyFiles (n : Z) | TooLarge (total : Z) | NoDisk (free : Z) | UnknownType | OsError | ReadError.

(** [Path.resolve()] of an absolute path: [..] climbs. *)
Definition resolve_step (acc : path) (c : string) : path :=
  if String.eqb c ".." then removelast acc else acc ++ [c].
Definition resolve (p : path) : path := fold_left resolve_step p [].

Definition has_nul (p : path) : bool := existsb (has_char NUL) p.

(** [_is_within]; resolving a name with a NUL raises [ValueError]. *)
Definition is_within (base target : path) : bool :=
  negb (has_nul target) && bool_decide (resolve base `prefix_of` resolve target).

(** [_safe_path]: the parts below [out_dir]. *)
Definition safe_path (out : path) (member_name : string) : option path :=
  if startswith member_name "/" || startswith member_name "\" then None
  else
    let parts := path_parts member_name in
    let normalized := if existsb (String.eqb "..") parts then bfilter (fun p => negb (String.eqb p "..")) parts else parts in
    if is_within out (out ++ normalized) then Some normalized else None.

Section Extract.
(** Whether the system accepts a path for a new file or directory (length, permissions, space). *)
Variable accepts : path -> bool.
Variable out : path.

(** [mkdir(parents=True, exist_ok=True)] below [done], which exists. *)
Fixpoint mkdirs (done rest : path) (st : state) : bool * state :=
  match rest with
  | [] => (true, st)
  | c :: rest' =>
      let p := done ++ [c] in
      match fs st !! p with
      | Some Dir => mkdirs p rest' st
      | Some (File _) => (false, st)
      | None => if accepts p then mkdirs p rest' (mkState (<[p := Dir]> (fs st)) (calls st ++ [MkDir p])) else (false, st)
      end
  end.

(** [open(dest, "wb")] and the copy of what the member yields. *)
Definition write_file (p : path) (content : list Z) (st : state) : bool * state :=
  match fs st !! p with
  | Some Dir => (false, st)
  | _ => if accepts p then (true, mkState (<[p := File content]> (fs st)) (calls st ++ [Write p content])) else (false, st)
  end.

(** What reading a member yields: the bytes, and whether it ended without an error. *)
Record body := mkBody { b_bytes : list Z; b_ok : bool }.

Definition put_file (rel : path) (b : body) (st : state) : option ExtractionError * state :=
  let '(ok, st) := write_file (out ++ rel) (b_bytes b) st in
  (if negb ok then Some OsError else if b_ok b then None else Some ReadError, st).

(** A directory member. *)
Definition make_dir (rel : path) (st : state) : option ExtractionError * state :=
  let '(ok, st) := mkdirs out rel st in (if ok then None else Some OsError, st).

(** A file member: [dest.parent.mkdir(...)], then the file unless nothing can be read. *)
Definition write_member (rel : path) (b : option body) (st : state) : option ExtractionError * state :=
  let '(ok, st) := mkdirs out (removelast rel) st in
  if negb ok then (Some OsError, st)
  else match b with Some b => put_file rel b st | None => (None, st) end.

Inductive tar_kind := Regular | Directory | SymLink | HardLink | Device | Fifo.
Record tar_member := mkTar { t_name : string; t_kind : tar_kind; t_size : Z; t_body : option body }.

Definition tar_skipped (k : tar_kind) : bool := match k with SymLink | HardLink | Device | Fifo => true | _ => false end.

Fixpoint tar_loop (max_total_bytes : Z) (ms : list tar_member) (total : Z) (st : state) : option ExtractionError * state :=
  match ms with
  | [] => (None, st)
  | m :: ms' =>
      if tar_skipped (t_kind m) then tar_loop max_total_bytes ms' total st
      else match safe_path out (t_name m) with
      | None => tar_loop max_total_bytes ms' total st
      | Some rel =>
          let go total '(e, st) := match e with None => tar_loop max_total_bytes ms' total st | Some e => (Some e, st) end in
          match t_kind m with
          | Directory => go total (make_dir rel st)
          | _ =>
              let total := total + t_size m in
              if max_total_bytes <? total then (Some (TooLarge total), st) else go total (write_member rel (t_body m) st)
          end
      end
  end.

Record zip_member := mkZip { z_name : string; z_size : Z; z_body : body }.
Definition zip_is_dir (m : zip_member) : bool := endswith (z_name m) "/".

Fixpoint zip_loop (max_total_bytes : Z) (ms : list zip_member) (total : Z) (st : state) : option ExtractionError * state :=
  match ms with
  | [] => (None, st)
  | m :: ms' =>
      match safe_path out (z_name m) with
      | None => zip_loop max_total_bytes ms' total st
      | Some rel =>
          let go total '(e, st) := match e with None => zip_loop max_total_bytes ms' total st | Some e => (Some e, st) end in
          if zip_is_dir m then go total (make_dir rel st)
          else
            let total := total + z_size m in
            if max_total_bytes <? total then (Some (TooLarge total), st) else go total (write_member rel (Some (z_body m)) st)
      end
  end.

Definition extract_tar (max_files max_total_bytes : Z) (ms : list tar_member) (st : state) : option ExtractionError * state :=
  let n := Z.of_nat (List.length ms) in
  if max_files <? n then (Some (TooManyFiles n), st) else tar_loop max_total_bytes ms 0 st.
Definition extract_zip (max_files max_total_bytes : Z) (ms : list zip_member) (st : state) : option ExtractionError * state :=
  let n := Z.of_nat (List.length ms) in
  if max_files <? n then (Some (TooManyFiles n), st) else zip_loop max_total_bytes ms 0 st.

(** What opening the archive as a tar or a zip file gives; [None]: it raised. *)
Record archive := mkArchive { a_name : string; as_tar : option (list tar_member); as_zip : option (list zip_member) }.

Definition TAR_SUFFIXES : list string := [".tar.gz"; ".tgz"; ".tar.bz2"; ".tar"; ".crate"].
Definition ZIP_SUFFIXES : list string := [".whl"; ".zip"; ".egg"].

(** [safe_extract] once [out_dir] exists; [free]: [None] when the disk query failed. *)
Definition safe_extract (max_files max_total_bytes : Z) (free : option Z) (a : archive) (st : state) : option ExtractionError * state :=
  match (match free with Some n => if n <? max_total_bytes + 64 * 1024 * 1024 then Some (NoDisk n) else None | None => None end) with
  | Some e => (Some e, st)
  | None =>
      let name := lower (a_name a) in
      if existsb (endswith name) TAR_SUFFIXES then
        match as_tar a with Some ms => extract_tar max_files max_total_bytes ms st | None => (Some ReadError, st) end
      else if existsb (endswith name) ZIP_SUFFIXES then
        match as_zip a with Some ms => extract_zip max_files max_total_bytes ms st | None => (Some ReadError, st) end
      else (Some UnknownType, st)
  end.
End Extract.

(** ** What extraction does to the tree: lemmas *)

Definition apply_call (t : tree) (c : call) : tree :=
  match c with MkDir p => <[p := Dir]> t | Write p content => <[p := File content]> t end.
Definition call_path (c : call) : path := match c with MkDir p | Write p _ => p end.
Definition call_size (c : call) : Z := match c with MkDir _ => 0 | Write _ content => Z.of_nat (List.length content) end.
Definition is_write (c : call) : bool := match c with MkDir _ => false | Write _ _ => true end.
Definition bytes_written (cs : list call) : Z := fold_right (fun c n => call_size c + n) 0 cs.
Definition files_written (cs : list call) : nat := List.length (bfilter is_write cs).

(** A part of a path that the system takes literally. *)
Definition literal_part (c : string) : bool :=
  truthy c && negb (String.eqb c ".") && negb (String.eqb c "..") && negb (has_char "/" c) && negb (has_char NUL c).
Definition inside (out p : path) : Prop := exists q, p = out ++ q /\ Forall (fun c => literal_part c = true) q.

(** Between the two states the trace grew by calls inside the output directory,
    at most [k] file writes, of at most [n] bytes in all provided [S]. *)
Definition grown (out : path) (S : Prop) (n : Z) (k : nat) (st st' : state) : Prop :=
  exists cs, calls st' = calls st ++ cs /\ fs st' = fold_left apply_call cs (fs st) /\
    Forall (fun c => inside out (call_path c)) cs /\ (S -> bytes_written cs <= n) /\ (files_written cs <= k)%nat.

Lemma bytes_app cs cs' : bytes_written (cs ++ cs') = bytes_written cs + bytes_written cs'.
Proof. unfold bytes_written. induction cs as [|c cs IH]; cbn; [done|]. rewrite IH. lia. Qed.
Lemma files_app cs cs' : files_written (cs ++ cs') = (files_written cs + files_written cs')%nat.
Proof. unfold files_written. by rewrite List.filter_app, List.length_app. Qed.

Lemma grown_refl out (S : Prop) n k st : (S -> 0 <= n) -> grown out S n k st st.
Proof. intros Hn. exists []. rewrite app_nil_r. split_and!; [done..|cbn; lia]. Qed.

Lemma grown_trans out S n k n' k' st st' st'' : grown out S n k st st' -> grown out S n' k' st' st'' -> grown out S (n + n') (k + k') st st''.
Proof.
  intros (cs & Hc & Hf & Hi & Hb & Hk) (cs' & Hc' & Hf' & Hi' & Hb' & Hk'). exists (cs ++ cs').
  rewrite Hc', Hc, app_assoc, bytes_app, files_app, fold_left_app, <- Hf. split_and!; [done|done|by apply Forall_app|intros HS; specialize (Hb HS); specialize (Hb' HS); lia|lia].
Qed.

Lemma grown_weaken out (S S' : Prop) n n' k k' st st' : grown out S n k st st' -> (S' -> S /\ n <= n') -> (k <= k')%nat -> grown out S' n' k' st st'.
Proof.
  intros (cs & Hc & Hf & Hi & Hb & Hk) HS Hle. exists cs. split_and!; [done..|intros [Hs Hn]%HS; specialize (Hb Hs); lia|lia].
Qed.

#[export] Instance grown_proper out : Proper (iff ==> eq ==> eq ==> eq ==> eq ==> iff) (grown out).
Proof. intros S S' HS n ? <- k ? <- st ? <- st' ? <-. unfold grown. by setoid_rewrite HS. Qed.

Lemma grown_one out S n c st : inside out (call_path c) -> (S -> call_size c <= n) ->
  grown out S n (if is_write c then 1 else 0) st (mkState (apply_call (fs st) c) (calls st ++ [c])).
Proof.
  intros Hi Hn. exists [c]. split_and!; [done..|by constructor| |].
  - unfold bytes_written. cbn. intros HS. specialize (Hn HS). lia.
  - unfold files_written. cbn. by destruct (is_write c).
Qed.

Lemma inside_app out p c : inside out p -> literal_part c = true -> inside out (p ++ [c]).
Proof. intros (q & -> & Hq) Hc. exists (q ++ [c]). rewrite app_assoc. split; [done|]. apply Forall_app. split; [done|by constructor]. Qed.

Lemma inside_base out : inside out out.
Proof. exists []. by rewrite app_nil_r. Qed.

Section Grow.
Context (accepts : path -> bool) (out : path) (S : Prop).

Lemma mkdirs_grown rest base st : inside out base -> Forall (fun c => literal_part c = true) rest ->
  grown out S 0 0 st (mkdirs accepts base rest st).2.
Proof.
  revert base st. induction rest as [|c rest IH]; intros base st Hb Hr; [by apply grown_refl|]. cbn [mkdirs].
  apply Forall_cons in Hr as [Hc Hr].
  destruct (fs st !! (base ++ [c])) as [[|f]|]; [|by apply grown_refl|].
  - apply IH; [by apply inside_app|done].
  - destruct (accepts (base ++ [c])); [|by apply grown_refl].
    eapply (grown_weaken _ S S (0 + 0) 0 (0 + 0)); [|done|done]. eapply grown_trans; [|apply IH; [by apply inside_app|done]].
    apply (grown_one out S 0 (MkDir (base ++ [c]))); [by apply inside_app|done].
Qed.

Lemma put_file_grown rel b st n : Forall (fun c => literal_part c = true) rel -> (S -> 0 <= Z.of_nat (List.length (b_bytes b)) <= n) ->
  grown out S n 1 st (put_file accepts out rel b st).2.
Proof.
  intros Hr Hb. unfold put_file, write_file.
  assert (grown out S n 1 st (mkState (<[out ++ rel:=File (b_bytes b)]> (fs st)) (calls st ++ [Write (out ++ rel) (b_bytes b)]))) as Hw.
  { apply (grown_one out S n (Write (out ++ rel) (b_bytes b))); [by exists rel|]. intros HS. by apply Hb. }
  destruct (fs st !! (out ++ rel)) as [[|f]|], (accepts (out ++ rel)); cbn [snd]; try done; apply grown_refl; intros HS; specialize (Hb HS); lia.
Qed.

End Grow.

(** The parts of a member's name that extraction keeps. *)
Definition kept_parts (member_name : string) : path := bfilter (fun p => negb (String.eqb p "..")) (path_parts member_name).

Lemma kept_parts_eq nm :
  (if existsb (String.eqb "..") (path_parts nm) then kept_parts nm else path_parts nm) = kept_parts nm.
Proof.
  destruct (existsb _ _) eqn:E; [done|]. unfold kept_parts. symmetry. apply bfilter_all. intros x Hx.
  rewrite existsb_false in E. apply E in Hx. by rewrite String.eqb_sym, Hx.
Qed.

Lemma kept_parts_literal nm : has_nul (kept_parts nm) = false -> Forall (fun c => literal_part c = true) (kept_parts nm).
Proof.
  unfold has_nul. rewrite existsb_false. intros Hn. apply Forall_forall. intros c Hc. specialize (Hn c Hc).
  unfold kept_parts in Hc. apply bfilter_in in Hc as [Hc Hd]. unfold path_parts in Hc. apply bfilter_in in Hc as [Hs [Ht Hdot]%andb_true_iff].
  unfold literal_part. rewrite Ht, Hdot, Hd, Hn. by rewrite (split_no_sep _ _ _ Hs).
Qed.

Lemma has_nul_app p q : has_nul (p ++ q) = has_nul p || has_nul q.
Proof. unfold has_nul. apply existsb_app. Qed.

Lemma safe_path_literal out nm rel : safe_path out nm = Some rel -> rel = kept_parts nm /\ Forall (fun c => literal_part c = true) rel.
Proof.
  unfold safe_path. fold (kept_parts nm). rewrite kept_parts_eq. destruct (_ || _); [done|].
  destruct (is_within out _) eqn:E; [|done]. intros [= <-]. split; [done|]. apply kept_parts_literal.
  unfold is_within in E. apply andb_true_iff in E as [E _]. rewrite has_nul_app in E. by destruct (has_nul out), (has_nul _).
Qed.

(** The check of [_is_within] refuses nothing but NUL once [..] is gone. *)
Lemma resolve_plain p acc : Forall (fun c => c <> ".."%string) p -> fold_left resolve_step p acc = acc ++ p.
Proof.
  revert acc. induction p as [|c p IH]; intros acc Hp; cbn [fold_left]; [by rewrite app_nil_r|]. apply Forall_cons in Hp as [Hc Hp].
  unfold resolve_step at 2. destruct (String.eqb_spec c ".."); [done|]. by rewrite IH, <- app_assoc.
Qed.

Lemma safe_path_spec out nm : has_nul out = false ->
  safe_path out nm = if startswith nm "/" || startswith nm "\" || has_nul (kept_parts nm) then None else Some (kept_parts nm).
Proof.
  intros Ho. unfold safe_path. fold (kept_parts nm). rewrite kept_parts_eq. destruct (_ || startswith nm "\"); [done|]. cbn [orb].
  unfold is_within. rewrite has_nul_app, Ho. cbn [orb]. destruct (has_nul (kept_parts nm)); [done|]. cbn [negb andb].
  rewrite bool_decide_true; [done|]. unfold resolve. rewrite fold_left_app, (resolve_plain (kept_parts nm)); [by exists (kept_parts nm)|].
  apply Forall_forall. intros c [_ Hc]%bfilter_in ->. done.
Qed.

(** Reading a member yields at most its declared size. *)
Definition body_fits (size : Z) (b : body) : bool := Z.of_nat (List.length (b_bytes b)) <=? size.
Definition tar_fits (m : tar_member) : bool := (0 <=? t_size m) && match t_body m with Some b => body_fits (t_size m) b | None => true end.
Definition zip_fits (m : zip_member) : bool := body_fits (z_size m) (z_body m).

Lemma zip_fits_spec m : zip_fits m = true -> 0 <= z_size m /\ Z.of_nat (List.length (b_bytes (z_body m))) <= z_size m.
Proof. unfold zip_fits, body_fits. rewrite Z.leb_le. lia. Qed.

Lemma make_dir_grown accepts out (S : Prop) n rel st : Forall (fun c => literal_part c = true) rel -> (S -> 0 <= n) -> grown out S n 0 st (make_dir accepts out rel st).2.
Proof.
  intros Hr Hn. unfold make_dir. pose proof (mkdirs_grown accepts out S rel out st (inside_base out) Hr) as H.
  destruct (mkdirs _ _ _ _) as [ok st']. eapply grown_weaken; [exact H| |done]. intros HS. split; [done|by apply Hn].
Qed.

Lemma removelast_Forall {A} (P : A -> Prop) l : Forall P l -> Forall P (removelast l).
Proof. induction l as [|x l IH]; [done|]. intros [Hx Hl]%Forall_cons. destruct l as [|y l]; [constructor|]. constructor; [done|by apply IH]. Qed.

Lemma write_member_grown accepts out (S : Prop) n rel b st : Forall (fun c => literal_part c = true) rel ->
  (S -> 0 <= n /\ match b with Some b => body_fits n b = true | None => True end) ->
  grown out S n 1 st (write_member accepts out rel b st).2.
Proof.
  intros Hr Hb. unfold write_member. pose proof (mkdirs_grown accepts out S (removelast rel) out st (inside_base out) (removelast_Forall _ _ Hr)) as H.
  destruct (mkdirs accepts out (removelast rel) st) as [[] st']; cbn [negb snd] in *.
  - destruct b as [b|]; [|eapply grown_weaken; [done|intros HS; split; [done|by apply Hb]|lia]].
    change 1%nat with (0 + 1)%nat. replace n with (0 + n) by lia. eapply grown_trans; [done|]. apply put_file_grown; [done|].
    intros [? Hf]%Hb. unfold body_fits in Hf. lia.
  - eapply grown_weaken; [done|intros HS; split; [done|by apply Hb]|lia].
Qed.

(** One member, then the rest unless it failed. *)
Lemma grown_go out (S S' : Prop) n m k k' st (r : option ExtractionError * state) f :
  grown out S n k st r.2 -> (forall st, grown out S' m k' st (f st).2) -> (S -> S' /\ 0 <= m) ->
  grown out S (n + m) (k + k') st (let '(e, st) := r in match e with None => f st | Some e => (Some e, st) end).2.
Proof.
  intros Hr Hf HS. destruct r as [[e|] st1]; cbn [snd] in *.
  - eapply grown_weaken; [done| |lia]. intros Hs. destruct (HS Hs). split; [done|lia].
  - eapply grown_trans; [done|]. eapply grown_weaken; [apply Hf| |done]. intros Hs. split; [by apply HS|lia].
Qed.

Lemma grown_dir out (S S' : Prop) m k st (r : option ExtractionError * state) f :
  grown out S 0 0 st r.2 -> (forall st, grown out S' m k st (f st).2) -> (S -> S' /\ 0 <= m) ->
  grown out S m (Datatypes.S k) st (let '(e, st) := r in match e with None => f st | Some e => (Some e, st) end).2.
Proof.
  intros Hr Hf HS. eapply (grown_weaken out S S (0 + m) m (0 + k)); [by eapply grown_go| |lia]. intros Hs. split; [done|lia].
Qed.

Section Loops.
Context (accepts : path -> bool) (out : path) (cap : Z).

(** The loops keep within the rest of the byte budget. *)
Lemma zip_loop_grown ms total st :
  grown out (forallb zip_fits ms = true /\ total <= cap) (cap - total) (List.length ms) st (zip_loop accepts out cap ms total st).2.
Proof.
  revert total st. induction ms as [|m ms IH]; intros total st; cbn [zip_loop List.length forallb]; [apply grown_refl; lia|].
  rewrite andb_true_iff. destruct (safe_path out (z_name m)) as [rel|] eqn:E.
  2: { eapply grown_weaken; [apply IH|naive_solver|lia]. }
  apply safe_path_literal in E as [_ Hrel]. destruct (zip_is_dir m).
  - eapply (grown_dir out _ _ _ (List.length ms)); [by apply make_dir_grown|intros; apply IH|naive_solver lia].
  - destruct (Z.ltb_spec cap (total + z_size m)) as [Hlt|Hle]; [apply grown_refl; lia|].
    replace (cap - total) with (z_size m + (cap - (total + z_size m))) by lia.
    eapply (grown_go out _ _ _ _ 1 (List.length ms)); [apply write_member_grown; [done|]|intros; apply IH|naive_solver lia].
    intros [[Hm _] _]. split; [by apply zip_fits_spec|done].
Qed.

Lemma tar_loop_grown ms total st :
  grown out (forallb tar_fits ms = true /\ total <= cap) (cap - total) (List.length ms) st (tar_loop accepts out cap ms total st).2.
Proof.
  revert total st. induction ms as [|m ms IH]; intros total st; cbn [tar_loop List.length forallb]; [apply grown_refl; lia|].
  rewrite andb_true_iff.
  assert (forall st, grown out ((tar_fits m = true /\ forallb tar_fits ms = true) /\ total <= cap) (cap - total) (S (List.length ms)) st (tar_loop accepts out cap ms total st).2) as Hskip
    by (intros; eapply grown_weaken; [apply IH|naive_solver|lia]).
  destruct (tar_skipped (t_kind m)); [apply Hskip|]. destruct (safe_path out (t_name m)) as [rel|] eqn:E; [|apply Hskip].
  apply safe_path_literal in E as [_ Hrel].
  assert (forall st, grown out ((tar_fits m = true /\ forallb tar_fits ms = true) /\ total <= cap) (cap - total) (S (List.length ms)) st
    (if cap <? total + t_size m then (Some (TooLarge (total + t_size m)), st)
     else let '(e, st) := write_member accepts out rel (t_body m) st in
          match e with None => tar_loop accepts out cap ms (total + t_size m) st | Some e => (Some e, st) end).2) as Hfile.
  { intros st'. destruct (Z.ltb_spec cap (total + t_size m)) as [Hlt|Hle]; [apply grown_refl; lia|].
    replace (cap - total) with (t_size m + (cap - (total + t_size m))) by lia.
    eapply (grown_go out _ _ _ _ 1 (List.length ms)); [apply write_member_grown; [done|]|intros; apply IH|naive_solver lia].
    intros [[[H0 Hm]%andb_true_iff _] _]. split; [lia|]. by destruct (t_body m). }
  destruct (t_kind m); try apply Hfile.
  eapply (grown_dir out _ _ _ (List.length ms)); [by apply make_dir_grown|intros; apply IH|naive_solver lia].
Qed.

End Loops.

(** ** What a successful extraction leaves: lemmas *)

(** The file a member asks for: its place below the output directory and what reading it yields. *)
Definition tar_file (out : path) (m : tar_member) : option (path * body) :=
  match t_kind m, safe_path out (t_name m), t_body m with Regular, Some rel, Some b => Some (rel, b) | _, _, _ => None end.
Definition zip_file (out : path) (m : zip_member) : option (path * body) :=
  if zip_is_dir m then None else match safe_path out (z_name m) with Some rel => Some (rel, z_body m) | None => None end.
Definition archive_files (out : path) (a : archive) : list (path * body) :=
  if existsb (endswith (lower (a_name a))) TAR_SUFFIXES then match as_tar a with Some ms => omap (tar_file out) ms | None => [] end
  else match as_zip a with Some ms => omap (zip_file out) ms | None => [] end.

(** The tree after the files [l] were written in this order: the last one of a
    name is there in full, what was there before and not named is unchanged. *)
Definition wrote (out : path) (l : list (path * body)) (st st' : state) : Prop :=
  (forall p n, fs st !! p = Some n -> (forall rel, rel ∈ l.*1 -> p <> out ++ rel) -> fs st' !! p = Some n) /\
  (forall pre rel b post, l = pre ++ (rel, b) :: post -> rel ∉ post.*1 -> fs st' !! (out ++ rel) = Some (File (b_bytes b)) /\ b_ok b = true).

Lemma wrote_nil out st st' : (forall p n, fs st !! p = Some n -> fs st' !! p = Some n) -> wrote out [] st st'.
Proof. intros H. split; [by intros; apply H|]. intros [|? pre]; done. Qed.

Lemma wrote_app out l l' st st1 st' : wrote out l st st1 -> wrote out l' st1 st' -> wrote out (l ++ l') st st'.
Proof.
  intros [Hk Hw] [Hk' Hw']. split.
  - intros p n Hp Hn. apply Hk'; [apply Hk; [done|]|]; intros rel Hrel; apply Hn; rewrite fmap_app, elem_of_app; auto.
  - intros pre rel b post E Hpost. apply app_eq_app in E as (k & [[-> E]|[-> ->]]).
    + destruct k as [|[rel' b'] k]; cbn [app] in E; [by eapply (Hw' [])|]. injection E as <- <- E. subst post.
      rewrite fmap_app, not_elem_of_app in Hpost. destruct (Hw pre rel b k) as [Hf Hb]; [done|by apply Hpost|].
      split; [|done]. apply Hk'; [done|]. intros rel' Hrel' ->%app_inv_head. by apply Hpost.
    + by eapply (Hw' k).
Qed.

Section Wrote.
Context (accepts : path -> bool) (out : path).

Lemma mkdirs_keeps rest base st p n : fs st !! p = Some n -> fs (mkdirs accepts base rest st).2 !! p = Some n.
Proof.
  revert base st. induction rest as [|c rest IH]; intros base st Hp; [done|]. cbn [mkdirs].
  destruct (fs st !! (base ++ [c])) as [[|f]|] eqn:E; [by apply IH|done|]. destruct (accepts _); [|done].
  apply IH. cbn [fs]. rewrite lookup_insert_ne; congruence.
Qed.

Lemma make_dir_wrote rel st st' : make_dir accepts out rel st = (None, st') -> wrote out [] st st'.
Proof.
  unfold make_dir. intros E. apply wrote_nil. intros p n Hp. pose proof (mkdirs_keeps rel out st p n Hp) as H.
  destruct (mkdirs _ _ _ _) as [[] s]; [|done]. by injection E as <-.
Qed.

Lemma put_file_wrote rel b st st' : put_file accepts out rel b st = (None, st') -> wrote out [(rel, b)] st st'.
Proof.
  unfold put_file, write_file. intros E.
  assert (st' = mkState (<[out ++ rel:=File (b_bytes b)]> (fs st)) (calls st ++ [Write (out ++ rel) (b_bytes b)]) /\ b_ok b = true) as [-> Hb].
  { destruct (fs st !! (out ++ rel)) as [[|f]|], (accepts (out ++ rel)), (b_ok b); cbn in E; try done; by injection E as <-. }
  split; cbn [fs].
  - intros p n Hp Hne. rewrite lookup_insert_ne; [done|]. intros E'. symmetry in E'. revert E'. apply Hne. cbn. by constructor.
  - intros [|x pre] rel' b' post E' _; [|destruct pre; done]. injection E' as <- <- <-. by rewrite lookup_insert_eq.
Qed.

Lemma write_member_wrote rel b st st' : write_member accepts out rel b st = (None, st') ->
  wrote out (match b with Some b => [(rel, b)] | None => [] end) st st'.
Proof.
  unfold write_member. pose proof (mkdirs_keeps (removelast rel) out st) as Hk.
  destruct (mkdirs _ _ _ _) as [[] s]; cbn [negb snd] in *; [|done]. destruct b as [b|].
  - intros H%put_file_wrote. by apply (wrote_app out [] _ st s); [apply wrote_nil|].
  - intros [= <-]. by apply wrote_nil.
Qed.

Lemma zip_loop_wrote cap ms total st st' : zip_loop accepts out cap ms total st = (None, st') -> wrote out (omap (zip_file out) ms) st st'.
Proof.
  revert total st. induction ms as [|m ms IH]; intros total st; cbn [zip_loop omap list_omap]; [intros [= <-]; by apply wrote_nil|].
  unfold zip_file at 1. destruct (safe_path out (z_name m)) as [rel|]; [|by destruct (zip_is_dir m); apply IH].
  destruct (zip_is_dir m).
  - destruct (make_dir _ _ _ _) as [[e|] s] eqn:E; [done|]. intros H%IH. apply make_dir_wrote in E. by apply (wrote_app out [] _ st s).
  - destruct (_ <? _); [done|]. destruct (write_member _ _ _ _ _) as [[e|] s] eqn:E; [done|]. intros H%IH.
    apply write_member_wrote in E. by apply (wrote_app out [(rel, z_body m)] _ st s).
Qed.

Lemma tar_loop_wrote cap ms total st st' : tar_loop accepts out cap ms total st = (None, st') -> wrote out (omap (tar_file out) ms) st st'.
Proof.
  revert total st. induction ms as [|m ms IH]; intros total st; cbn [tar_loop omap list_omap]; [intros [= <-]; by apply wrote_nil|].
  unfold tar_file at 1. destruct (safe_path out (t_name m)) as [rel|]; [|by destruct (t_kind m); apply IH].
  destruct (t_kind m); cbn [tar_skipped]; try apply IH.
  - destruct (_ <? _); [done|]. destruct (write_member _ _ _ _ _) as [[e|] s] eqn:E; [done|]. intros H%IH.
    apply write_member_wrote in E. destruct (t_body m) as [b|]; [by apply (wrote_app out [(rel, b)] _ st s)|by apply (wrote_app out [] _ st s)].
  - destruct (make_dir _ _ _ _) as [[e|] s] eqn:E; [done|]. intros H%IH. apply make_dir_wrote in E. by apply (wrote_app out [] _ st s).
Qed.

End Wrote.

(** ** Properties *)

Definition archive_fits (a : archive) : Prop :=
  (forall ms, as_tar a = Some ms -> forallb tar_fits ms = true) /\ (forall ms, as_zip a = Some ms -> forallb zip_fits ms = true).

Lemma extract_grown accepts out max_files cap free a st : 0 <= max_files ->
  grown out (archive_fits a /\ 0 <= cap) cap (Z.to_nat max_files) st (safe_extract accepts out max_files cap free a st).2.
Proof.
  intros Hf. unfold safe_extract. destruct (match free with Some _ => _ | None => _ end); [apply grown_refl; lia|].
  assert (forall n k st', grown out (n = true /\ 0 <= cap) (cap - 0) k st st' -> (k <= Z.to_nat max_files)%nat -> (archive_fits a -> n = true) ->
    grown out (archive_fits a /\ 0 <= cap) cap (Z.to_nat max_files) st st') as Hw.
  { intros n k st' H Hk Hn. eapply grown_weaken; [exact H| |done]. intros [Ha Hc]. split; [by split; [apply Hn|]|lia]. }
  destruct (existsb _ TAR_SUFFIXES).
  - destruct (as_tar a) as [ms|] eqn:Ems; [|apply grown_refl; lia]. unfold extract_tar.
    destruct (Z.ltb_spec max_files (Z.of_nat (List.length ms))); [apply grown_refl; lia|].
    eapply Hw; [apply tar_loop_grown|lia|]. intros [Ht _]. by apply Ht.
  - destruct (existsb _ ZIP_SUFFIXES); [|apply grown_refl; lia].
    destruct (as_zip a) as [ms|] eqn:Ems; [|apply grown_refl; lia]. unfold extract_zip.
    destruct (Z.ltb_spec max_files (Z.of_nat (List.length ms))); [apply grown_refl; lia|].
    eapply Hw; [apply zip_loop_grown|lia|]. intros [_ Hz]. by apply Hz.
Qed.

Lemma apply_call_other t c p : p <> call_path c -> apply_call t c !! p = t !! p.
Proof. destruct c; cbn; intros; by apply lookup_insert_ne. Qed.

(** C13. Extraction cannot leave its directory or its budget, whatever the archive
    holds and however it ends.  Every directory and file it makes lies below the output
    directory under literal path parts (no [..], no separator, no NUL), every other path
    of the file system is untouched, no more files are written than the member limit, and
    no more bytes than the size limit as long as reading a member yields at most its
    declared size. *)
Theorem extract_contained accepts out max_files cap free a st (Hf : 0 <= max_files) :
  let st' := (safe_extract accepts out max_files cap free a st).2 in
  exists cs, calls st' = calls st ++ cs /\ fs st' = fold_left apply_call cs (fs st) /\
    Forall (fun c => inside out (call_path c)) cs /\
    (forall p, ~ inside out p -> fs st' !! p = fs st !! p) /\
    Z.of_nat (files_written cs) <= max_files /\
    (archive_fits a -> 0 <= cap -> bytes_written cs <= cap).
Proof.
  intros st'. destruct (extract_grown accepts out max_files cap free a st Hf) as (cs & Hc & Hfs & Hi & Hb & Hk).
  exists cs. split_and!; [done..| |lia|by intros; apply Hb].
  intros p Hp. unfold st'. rewrite Hfs. clear -Hi Hp. generalize (fs st). intros t. revert t.
  induction Hi as [|c cs Hc Hi IH]; intros t; [done|]. cbn [fold_left]. rewrite IH. apply apply_call_other. by intros ->.
Qed.

(** A successful extraction is complete.  When no exception is raised, every regular
    member whose name is kept is in the tree, read to its end, with the content of the
    last member of that name; and a name is kept, as its parts without [..], unless it
    starts with a slash or a backslash or holds a NUL. *)
Theorem extract_complete accepts out max_files cap free a st st'
    (Hout : has_nul out = false) (He : safe_extract accepts out max_files cap free a st = (None, st')) :
  (forall pre rel b post, archive_files out a = pre ++ (rel, b) :: post -> rel ∉ post.*1 ->
    fs st' !! (out ++ rel) = Some (File (b_bytes b)) /\ b_ok b = true) /\
  (forall nm, safe_path out nm =
    if startswith nm "/" || startswith nm "\" || has_nul (kept_parts nm) then None else Some (kept_parts nm)).
Proof.
  split; [|intros nm; by apply safe_path_spec]. assert (wrote out (archive_files out a) st st') as [_ Hw]; [|done].
  unfold safe_extract in He. destruct (match free with Some _ => _ | None => _ end); [done|]. unfold archive_files.
  destruct (existsb _ TAR_SUFFIXES).
  - destruct (as_tar a) as [ms|]; [|done]. unfold extract_tar in He. destruct (_ <? _); [done|]. by eapply tar_loop_wrote.
  - destruct (existsb _ ZIP_SUFFIXES); [|done]. destruct (as_zip a) as [ms|]; [|done]. unfold extract_zip in He.
    destruct (_ <? _); [done|]. by eapply zip_loop_wrote.
Qed.

(** ** Concrete runs *)

Definition ex_base : path := ["tmp"; "x"].
Definition ex_state : state := mkState (<[ex_base := Dir]> (<[["tmp"] := Dir]> (<[["etc"] := Dir]> ∅))) [].
Definition ex_file (nm : string) (content : list Z) : tar_member := mkTar nm Regular (Z.of_nat (List.length content)) (Some (mkBody content true)).
Definition ex_tar (ms : list tar_member) : archive := mkArchive "pkg-1.0.TGZ" (Some ms) None.
Definition ex_extract (ms : list tar_member) := safe_extract (fun _ => true) ex_base DEFAULT_MAX_FILES DEFAULT_MAX_BYTES None (ex_tar ms) ex_state.
Definition ex_members : list tar_member := [ex_file "../../etc/passwd" [1; 2]; ex_file "pkg/a.js" [3]; ex_file "pkg/./a.js" [4; 5]].

Lemma extract_contained_witness :
  fs (ex_extract ex_members).2 !! ["etc"; "passwd"] = None /\
  fs (ex_extract ex_members).2 !! ["tmp"; "x"; "etc"; "passwd"] = Some (File [1; 2]).
Proof.
  split; [|vm_compute; reflexivity].
  destruct (extract_contained (fun _ => true) ex_base DEFAULT_MAX_FILES DEFAULT_MAX_BYTES None (ex_tar ex_members) ex_state) as (cs & _ & _ & _ & Ho & _).
  { unfold DEFAULT_MAX_FILES. lia. }
  unfold ex_extract. rewrite Ho; [vm_compute; reflexivity|]. intros (q & Hq & _). done.
Defined.

Lemma extract_complete_witness :
  (ex_extract ex_members).1 = None /\ fs (ex_extract ex_members).2 !! ["tmp"; "x"; "pkg"; "a.js"] = Some (File [4; 5]).
Proof.
  split; [vm_compute; reflexivity|].
  assert (ex_extract ex_members = (None, (ex_extract ex_members).2)) as E by (vm_compute; reflexivity).
  destruct (extract_complete (fun _ => true) ex_base DEFAULT_MAX_FILES DEFAULT_MAX_BYTES None (ex_tar ex_members) ex_state (ex_extract ex_members).2) as [H _];
    [reflexivity|exact E|].
  destruct (H [(["etc"; "passwd"], mkBody [1; 2] true); (["pkg"; "a.js"], mkBody [3] true)] ["pkg"; "a.js"]%string (mkBody [4; 5] true) []) as [H' _];
    [vm_compute; reflexivity|by apply not_elem_of_nil|exact H'].
Defined.

(** A member with an absolute name is skipped without a word, though installers
    strip the slash and install it. *)
Example absolute_name_skipped :
  let '(e, st) := ex_extract [ex_file "/package/evil.js" [6]; ex_file "package/index.js" [7]] in
  e = None /\ calls st = [MkDir ["tmp"; "x"; "package"]; Write ["tmp"; "x"; "package"; "index.js"] [7]].
Proof. vm_compute. split; reflexivity. Qed.

(** A member whose name is only dots is the output directory itself: opening it
    raises, and nothing after it is extracted. *)
Example dots_member_aborts :
  let '(e, st) := ex_extract [ex_file ".." []; ex_file "package/index.js" [7]] in e = Some OsError /\ calls st = [].
Proof. vm_compute. split; reflexivity. Qed.
