(* ===== verification/Reuse.v ===== *)
(** * Finding reuse ([finding_reuse.py])

    Carrying the findings of the previous scan of a confirmed-malicious package
    forward to files that have not changed. *)
From S2P Require Import Prelude PyStr Sql Findings Store.
From Stdlib Require Import Ascii.

Open Scope list_scope.
Open Scope Z_scope.

(** [_norm_path]: drop the npm [package/] prefix. *)
Definition norm_path (p : string) : string :=
  if startswith p "package/" then str_drop (len "package/") p else p.

(** [Scan JOIN Version JOIN Package] restricted to one package. *)
Definition scan_of_package (eco nm : string) (d : db) (s : Scan) : bool :=
  existsb (fun v => (v_id v =? sc_version_id s) &&
    existsb (fun p => (p_id p =? v_package_id v) && String.eqb (p_ecosystem p) eco && String.eqb (p_name p) nm)
      (rows (packages d))) (rows (versions d)).

Definition reusable_scan (eco nm : string) (current_scan_id cutoff : Z) (d : db) (s : Scan) : bool :=
  scan_of_package eco nm d s && negb (sc_id s =? current_scan_id) &&
  match sc_finished_at s with Some at_ => cutoff <=? at_ | None => false end.

Definition prior_scan (eco nm : string) (current_scan_id cutoff : Z) (d : db) : option Scan :=
  first_desc (fun s => default 0 (sc_finished_at s)) (reusable_scan eco nm current_scan_id cutoff d) (scans d).

(** [{h.file_path: h.sha256}] of one scan. *)
Definition hashes_of (scan_id : Z) (d : db) : list (string * string) :=
  fold_left (fun acc h => dset (fh_file_path h) (fh_sha256 h) acc)
    (select (fun h => fh_scan_id h =? scan_id) (file_hashes d)) [].

Section Carry.
Variables (prior current : list (string * string)).

Definition same_sha (ps : string * string) : bool := bool_decide (dget ps.1 prior = Some ps.2).
Definition unchanged_paths : list string := (bfilter same_sha current).*1.
Definition changed_paths : list string := (bfilter (fun ps => negb (same_sha ps)) current).*1.

Definition base (p : string) : string := after_last "/"%char p.

(** A basename that belongs to an unchanged file and to no changed one. *)
Definition safe_basename (b : string) : bool :=
  str_in b (map base unchanged_paths) && negb (str_in b (map base changed_paths)).

Definition carriable (f : Finding) : bool :=
  truthy (file f) &&
  (str_in (norm_path (file f)) unchanged_paths || safe_basename (base (norm_path (file f)))).

Definition reuse_key (f : Finding) : string * string := (rule_id f, norm_path (file f)).

Fixpoint carry_loop (seen : list (string * string)) (fs : list Finding) : list Finding :=
  match fs with
  | [] => []
  | f :: fs' =>
      if carriable f && negb (bool_decide (reuse_key f ∈ seen)) then f :: carry_loop (reuse_key f :: seen) fs'
      else carry_loop seen fs'
  end.

End Carry.

Definition carry_forward_findings (window_days now : Z) (eco nm : string) (current_scan_id : Z)
    (current_hashes : list (string * string)) (existing : list Finding) (d : db) : list Finding :=
  match current_hashes with
  | [] => []
  | _ =>
      match prior_scan eco nm current_scan_id (now - days window_days) d with
      | None => []
      | Some s =>
          let prior := hashes_of (sc_id s) d in
          match unchanged_paths prior current_hashes with
          | [] => []
          | _ => carry_loop prior current_hashes (map reuse_key existing) (findings_of (sc_id s) d)
          end
      end
  end.

(** ** Lemmas *)

Lemma same_sha_true prior ps : same_sha prior ps = true <-> dget ps.1 prior = Some ps.2.
Proof. apply bool_decide_eq_true. Qed.

Lemma unchanged_in prior cur p : p ∈ unchanged_paths prior cur <-> exists sha, (p, sha) ∈ cur /\ dget p prior = Some sha.
Proof.
  unfold unchanged_paths. rewrite list_elem_of_fmap. split.
  - intros ([q sha] & -> & [Hin Hs%same_sha_true]%bfilter_in). eauto.
  - intros (sha & Hin & Hs). exists (p, sha). split; [done|]. apply bfilter_in. split; [done|]. by apply same_sha_true.
Qed.

Lemma changed_in prior cur p : p ∈ changed_paths prior cur <-> exists sha, (p, sha) ∈ cur /\ dget p prior <> Some sha.
Proof.
  unfold changed_paths. rewrite list_elem_of_fmap. split.
  - intros ([q sha] & -> & [Hin Hs%negb_true_iff]%bfilter_in). exists sha. split; [done|].
    intros E. apply not_true_iff_false in Hs. by apply Hs, same_sha_true.
  - intros (sha & Hin & Hs). exists (p, sha). split; [done|]. apply bfilter_in. split; [done|].
    apply negb_true_iff, not_true_iff_false. by rewrite same_sha_true.
Qed.

Lemma safe_basename_true prior cur b : safe_basename prior cur b = true <->
  (exists p, p ∈ unchanged_paths prior cur /\ base p = b) /\ (forall p, p ∈ changed_paths prior cur -> base p <> b).
Proof.
  unfold safe_basename. rewrite andb_true_iff, negb_true_iff, str_in_true, <- not_true_iff_false, str_in_true.
  rewrite !list_elem_of_fmap. naive_solver.
Qed.

Lemma carry_loop_spec prior cur seen fs :
  (forall f, f ∈ carry_loop prior cur seen fs -> f ∈ fs /\ carriable prior cur f = true /\ reuse_key f ∉ seen) /\
  NoDup (map reuse_key (carry_loop prior cur seen fs)) /\
  (forall f, f ∈ fs -> carriable prior cur f = true ->
     reuse_key f ∈ seen \/ exists g, g ∈ carry_loop prior cur seen fs /\ reuse_key g = reuse_key f).
Proof.
  revert seen. induction fs as [|f fs IH]; intros seen; cbn [carry_loop]; [split_and!; [set_solver|constructor|set_solver]|].
  destruct (carriable prior cur f) eqn:Ec; cbn [andb].
  - case_bool_decide as Hs; cbn [negb].
    + destruct (IH seen) as (H1 & H2 & H3). split_and!; [|done|].
      * intros g Hg. apply H1 in Hg as (? & ? & ?). split_and!; try done. by right.
      * intros g [->|Hg]%elem_of_cons Hc; [by left|by apply H3].
    + destruct (IH (reuse_key f :: seen)) as (H1 & H2 & H3). split_and!.
      * intros g [->|Hg]%elem_of_cons; [split_and!; [by left|done|done]|].
        apply H1 in Hg as (? & ? & Hn). rewrite not_elem_of_cons in Hn. split_and!; [by right|done|tauto].
      * cbn [map]. apply NoDup_cons. split; [|done]. intros (g & E & Hg)%list_elem_of_fmap.
        apply H1 in Hg as (_ & _ & Hn). rewrite not_elem_of_cons in Hn. rewrite E in Hn. tauto.
      * intros g [->|Hg]%elem_of_cons Hc; [right; exists f; split; [by left|done]|].
        destruct (H3 g Hg Hc) as [[E|?]%elem_of_cons|(h & Hh & E)]; [|by left|].
        -- right. exists f. split; [by left|done].
        -- right. exists h. split; [by right|done].
  - destruct (IH seen) as (H1 & H2 & H3). split_and!; [|done|].
    + intros g Hg. apply H1 in Hg as (? & ? & ?). split_and!; try done. by right.
    + intros g [->|Hg]%elem_of_cons Hc; [congruence|by apply H3].
Qed.

(** ** Properties *)

(** Findings are only carried to unchanged content.  Each carried finding belongs to the most
    recent finished scan of the same package inside the window; its file has the same SHA-256
    in that scan and now, or shares its basename with such a file and with no changed file;
    none repeats a finding already present; and every finding of that scan on an unchanged
    path is represented. *)
Theorem carry_forward_spec win now eco nm cur_id cur existing d :
  let out := carry_forward_findings win now eco nm cur_id cur existing d in
  (forall f, f ∈ out ->
     exists s, prior_scan eco nm cur_id (now - days win) d = Some s /\ sc_id s <> cur_id /\ f ∈ findings_of (sc_id s) d /\
       (exists p sha, (p, sha) ∈ cur /\ dget p (hashes_of (sc_id s) d) = Some sha /\
          (p = norm_path (file f) \/
           (base p = base (norm_path (file f)) /\
            forall q qsha, (q, qsha) ∈ cur -> base q = base p -> dget q (hashes_of (sc_id s) d) = Some qsha))) /\
       reuse_key f ∉ map reuse_key existing) /\
  NoDup (map reuse_key out) /\
  (forall s f sha, prior_scan eco nm cur_id (now - days win) d = Some s -> f ∈ findings_of (sc_id s) d ->
     file f <> "" -> (norm_path (file f), sha) ∈ cur -> dget (norm_path (file f)) (hashes_of (sc_id s) d) = Some sha ->
     exists g, (g ∈ existing \/ g ∈ out) /\ reuse_key g = reuse_key f).
Proof.
  intros out. subst out. unfold carry_forward_findings.
  destruct cur as [|c0 cur0] eqn:Ecur; [split_and!; [set_solver|constructor|set_solver]|]. rewrite <- Ecur. clear c0 cur0 Ecur.
  destruct (prior_scan eco nm cur_id (now - days win) d) as [s|] eqn:Es; [|split_and!; [set_solver|constructor|done]].
  set (prior := hashes_of (sc_id s) d).
  assert (sc_id s <> cur_id) as Hid.
  { apply first_desc_Some in Es as [Hs _]. apply select_in in Hs as [_ Hs]. unfold reusable_scan in Hs.
    rewrite !andb_true_iff, negb_true_iff, Z.eqb_neq in Hs. tauto. }
  destruct (unchanged_paths prior cur) as [|u us] eqn:Eu.
  { split_and!; [set_solver|constructor|]. intros s' f sha [= <-] _ _ Hin Hg. exfalso.
    assert (norm_path (file f) ∈ unchanged_paths prior cur) as Hp by (apply unchanged_in; eauto).
    rewrite Eu in Hp. set_solver. }
  clear u us Eu. destruct (carry_loop_spec prior cur (map reuse_key existing) (findings_of (sc_id s) d)) as (H1 & H2 & H3).
  split_and!; [|done|].
  - intros f Hf. exists s. apply H1 in Hf as (Hin & Hc & Hn). split_and!; try done.
    unfold carriable in Hc. apply andb_true_iff in Hc as [_ [Hp%str_in_true%unchanged_in|Hb%safe_basename_true]%orb_true_iff].
    + destruct Hp as (sha & ? & ?). exists (norm_path (file f)), sha. auto.
    + destruct Hb as [(p & (sha & Hp & Hsha)%unchanged_in & Hbase) Hch]. exists p, sha. split_and!; try done. right.
      split; [done|]. intros q qsha Hq Hbq. destruct (decide (dget q prior = Some qsha)) as [|Hne]; [done|].
      destruct (Hch q); [apply changed_in; eauto|congruence].
  - intros s' f sha [= <-] Hf Hne Hin Hg.
    destruct (H3 f Hf) as [(g & -> & Hg')%list_elem_of_fmap|(g & Hg' & E)]; [|eauto..].
    unfold carriable. rewrite andb_true_iff, orb_true_iff. split; [by destruct (file f)|].
    left. apply str_in_true, unchanged_in. eauto.
Qed.
