(* ===== verification/Pipeline.v ===== *)
(** * Pipeline building blocks ([pipeline.py], up to [_persist_findings])

    NUL stripping, the package and version rows, the previous release, file
    hashing and change detection, the composition of the static analyzers, and
    the evidence bar of the automatic watchlist. *)
From S2P Require Import Prelude PyStr Sql Findings Json Intel Score Triage Jobs Watch Store Metadata Tree.
From Stdlib Require Import Ascii.

Open Scope list_scope.
Open Scope Z_scope.

(** ** [_strip_nul] *)

Definition strip_nul_str (s : string) : string := if has_char NUL s then remove_char NUL s else s.

Fixpoint strip_nul (v : json) : json :=
  match v with
  | JStr s => JStr (strip_nul_str s)
  | JObj l => JObj (map (fun kv => (kv.1, strip_nul kv.2)) l)
  | JArr l => JArr (map strip_nul l)
  | _ => v
  end.

(** ** Decisions *)

Definition DETONATION_ECOSYSTEMS : list string := ["pypi"; "crates"; "gomod"; "npm"].
Definition PREFERRED_ARCHIVE : list (string * string) :=
  [("pypi", "sdist"); ("crates", "crate"); ("gomod", "gomod_zip"); ("npm", "npm_tarball")].
Definition NON_PRIMARY_PROMOTE_CATEGORIES : list string := ["iocs"; "dep_intel"; "metadata"; "version_diff"].

Definition strong_categories (fs : list Finding) : list string :=
  dedup (map category (bfilter (fun f => negb (is_shadow_finding f) && sev_in f [SHigh; SCritical]) fs)).

(** [_auto_watchlist_qualifies]; [floor] is [MALICIOUS_CONF_FLOOR]. *)
Definition auto_watchlist_qualifies (floor : double) (rule : verdict) (tri : option LLMTriageResult)
    (fs : list Finding) : bool * string :=
  match tri with
  | None => (false, "llm_not_malicious")
  | Some t =>
      if negb (bool_decide (r_verdict t = VMalicious)) then (false, "llm_not_malicious")
      else
        let cats := strong_categories fs in
        let has_primary := existsb (fun c => negb (str_in c NON_PRIMARY_PROMOTE_CATEGORIES)) cats in
        if negb has_primary && (length cats <? 2)%nat then (false, "thin_evidence_single_soft_category")
        else
          let conf := if float_truthy (r_confidence t) then r_confidence t else f_zero in
          if float_lt conf floor then (false, "llm_confidence_below_floor")
          else if bool_decide (rule = VMalicious) || float_ge conf f_0_80 then (true, "ok")
          else (false, "weak_corroboration")
  end.

Definition detonation_priority (v : verdict) (watchlist_rank : option Z) : priority :=
  if verdict_in v [VSuspicious; VMalicious] || bool_decide (is_Some watchlist_rank) then PHigh else PLow.

(** ** Package and version rows *)

Definition same_package (eco nm : string) (p : Package) : bool :=
  String.eqb (p_ecosystem p) eco && String.eqb (p_name p) nm.
Definition same_version (eco : string) (pkg : Z) (ver : string) (v : Version) : bool :=
  String.eqb (v_ecosystem v) eco && (v_package_id v =? pkg) && String.eqb (v_version v) ver.

Definition package_key (p : Package) : string * string := (p_ecosystem p, p_name p).
Definition version_key (v : Version) : string * Z * string := (v_ecosystem v, v_package_id v, v_version v).

(** [_upsert_package_and_version] without a racing insert. *)
Definition upsert_package (now : timestamp) (eco nm : string) (d : db) : Package * db :=
  match first (same_package eco nm) (packages d) with
  | Some p => (p, d)
  | None => let '(t, p) := insert (fun i => mkPackage i eco nm now) (packages d) in (p, set_packages t d)
  end.
Definition upsert_version (now : timestamp) (eco ver : string) (p : Package) (d : db) : Version * db :=
  match first (same_version eco (p_id p) ver) (versions d) with
  | Some v => (v, d)
  | None =>
      let '(t, v) := insert (fun i => mkVersion i eco (p_id p) ver now no_meta) (versions d) in (v, set_versions t d)
  end.
Definition upsert_package_and_version (now : timestamp) (eco nm ver : string) (d : db) : Version * db :=
  let '(p, d) := upsert_package now eco nm d in upsert_version now eco ver p d.

(** [a or b or None] on decoded values. *)
Definition json_or (a b : json) : json := if json_truthy a then a else b.
Definition json_or_none (a : json) : json := json_or a JNull.

(** [_apply_metadata]: the new metadata columns; [downloads] is the watchlist
    row's count where one is read, [str_of] is [str], [parse_iso] is
    [datetime.fromisoformat]. *)
Section Apply.
Variable str_of : json -> string.
Variable parse_iso : string -> option timestamp.

Definition clip_or (keep : json) (n : nat) (v : json) : json :=
  if json_truthy v then JStr (str_take n (str_of v)) else keep.

(** [s.replace("Z", "+00:00")]. *)
Fixpoint replace_z (s : string) : string :=
  match s with
  | EmptyString => EmptyString
  | String c s' => if Ascii.eqb c "Z" then "+00:00" +:+ replace_z s' else String c (replace_z s')
  end.

Definition apply_metadata (now : timestamp) (md : list (string * json)) (downloads : option (option Z))
    (m : VersionMeta) : VersionMeta :=
  match md with
  | [] => m
  | _ =>
      let g k := jget k md JNull in
      mkVersionMeta
        (json_or (g "author") (json_or_none (g "maintainer")))
        (json_or (g "author_email") (json_or_none (g "maintainer_email")))
        (clip_or (vm_upload_user m) 128 (g "upload_user"))
        (json_or_none (g "home_page"))
        (clip_or (vm_summary m) 1024 (g "summary"))
        (json_or_none (g "requires_python"))
        (json_or_none (g "keywords"))
        (clip_or (vm_license_text m) 256 (g "license"))
        (match g "project_urls" with JObj o => JObj o | _ => vm_project_urls m end)
        (match g "requires_dist" with JArr l => JArr l | _ => vm_requires_dist m end)
        (match g "classifiers" with JArr l => JArr l | _ => vm_classifiers m end)
        (if json_truthy (g "upload_time")
         then match parse_iso (replace_z (str_of (g "upload_time"))) with Some t => Some t | None => vm_upload_time m end
         else vm_upload_time m)
        (match g "maintainers" with
         | JArr (x :: l) => JArr (x :: l)
         | _ => if json_truthy (g "maintainer") then JArr [g "maintainer"] else vm_maintainers m
         end)
        (match downloads with Some n => n | None => vm_downloads_last_30d m end)
        (JObj (bfilter (fun kv => negb (str_in kv.1 ["description"; "description_content_type"])) md))
        (Some now)
  end.

End Apply.

(** ** The previous release *)

Definition json_str (v : json) : option string := match v with JStr s => Some s | _ => None end.
Definition json_strs (v : json) : list string := match v with JArr l => omap json_str l | _ => [] end.

Definition latest_other_version (eco : string) (pkg : Z) (other : Version -> bool) (d : db) : option Version :=
  first_desc v_first_seen (fun v => String.eqb (v_ecosystem v) eco && (v_package_id v =? pkg) && other v) (versions d).
Definition latest_scan (v : Version) (d : db) : option Scan :=
  first_desc sc_started_at (fun s => sc_version_id s =? v_id v) (scans d).

Definition get_previous_version (eco : string) (pkg exclude_version_id : Z) (d : db) : option PreviousVersion :=
  match latest_other_version eco pkg (fun v => negb (v_id v =? exclude_version_id)) d with
  | None => None
  | Some v =>
      match latest_scan v d with
      | None => None
      | Some s =>
          let rules := map rule_id (findings_of (sc_id s) d) in
          Some (mkPrev (v_version v) (sc_verdict s) (sc_score s) (dedup rules) (Z.of_nat (length rules))
            (json_str (vm_author (v_meta v))) (json_str (vm_author_email (v_meta v))) (vm_upload_time (v_meta v))
            (json_strs (vm_requires_dist (v_meta v))))
      end
  end.

(** ** Rule hit counters *)

Definition hit_counts (fs : list Finding) : list (string * Z) :=
  fold_left (fun acc f => dset (rule_id f) (dget_or (rule_id f) 0 acc + 1) acc) fs [].

Definition bump_rulehits (fs : list Finding) (d : db) : db :=
  set_rule_hits
    (fold_left (fun acc rc => dset rc.1 (dget_or rc.1 0 acc + rc.2) acc) (hit_counts fs) (rule_hits d)) d.

(** ** File hashing and change detection *)

Definition STRIPPED_KINDS : list string := ["sdist"; "crate"; "gomod_zip"; "npm_tarball"].

Definition normalized_path (kind : string) (f : tree_file) : string :=
  if str_in kind STRIPPED_KINDS && (1 <? length (tf_parts f))%nat then join "/" (tl (tf_parts f)) else real_path f.

Section Hashing.
(** The hash functions; [ssdeep] and [tlsh] are absent where the library is. *)
Variable sha256 : string -> string.
Variable entropy : string -> double.
Variable ssdeep tlsh : option (string -> string).
Variable HASH_FULL_MAX_BYTES : Z.

Definition fuzzy (h : option (string -> string)) (lite : bool) (data : string) : string :=
  match h with
  | Some f => if negb lite && (64 <=? len data)%nat then f data else ""
  | None => ""
  end.

Definition file_info (lite : bool) (f : tree_file) : option FileInfo :=
  match tf_size f, tf_data f with
  | Some size, Some data =>
      Some (if HASH_FULL_MAX_BYTES <? size then mkFileInfo (sha256 data) f_zero "" ""
            else mkFileInfo (sha256 data) (if (64 <=? len data)%nat then entropy data else f_zero)
                   (fuzzy ssdeep lite data) (fuzzy tlsh lite data))
  | _, _ => None
  end.

Definition compute_file_hashes (kind : string) (lite : bool) (tree : list tree_file)
    : list (string * FileInfo) * list (string * string) :=
  fold_left (fun acc f =>
    match file_info lite f with
    | None => acc
    | Some i => (dset (normalized_path kind f) i acc.1, dset (normalized_path kind f) (real_path f) acc.2)
    end) tree ([], []).

End Hashing.

(** [_get_prev_scan_hashes]: by archive kind, then by path. *)
Definition get_prev_scan_hashes (eco nm current_version : string) (d : db) : list (string * list (string * FileInfo)) :=
  match first (same_package eco nm) (packages d) with
  | None => []
  | Some p =>
      match latest_other_version eco (p_id p) (fun v => negb (String.eqb (v_version v) current_version)) d with
      | None => []
      | Some v =>
          match latest_scan v d with
          | None => []
          | Some s =>
              fold_left (fun acc h =>
                let i := mkFileInfo (fh_sha256 h) (default f_zero (fh_entropy h)) (ostr (fh_ssdeep h)) "" in
                dset (fh_archive_kind h) (dset (fh_file_path h) i (dget_or (fh_archive_kind h) [] acc)) acc)
                (select (fun h => fh_scan_id h =? sc_id s) (file_hashes d)) []
          end
      end
  end.

Definition changed_entry (prev : list (string * FileInfo)) (pi : string * FileInfo) : bool :=
  match dget pi.1 prev with None => true | Some p => negb (String.eqb (fi_sha256 p) (fi_sha256 pi.2)) end.

(** Every normalised path has a real path, so [norm_to_real[p]] does not fail. *)
Definition find_changed_files (current prev : list (string * FileInfo)) (norm_to_real : list (string * string))
    : list string :=
  dedup (map (fun pi => dget_or pi.1 "" norm_to_real) (bfilter (changed_entry prev) current)).

(** [_giant_lite] over the sizes of the files in walk order; a failing [stat]
    counts the file but not its size. *)
Fixpoint giant_walk (max_files max_bytes count total : Z) (sizes : list (option Z)) : bool :=
  match sizes with
  | [] => false
  | s :: sizes' =>
      let count := count + 1 in
      let total := total + default 0 s in
      if (max_files <? count) || (max_bytes <? total) then true
      else giant_walk max_files max_bytes count total sizes'
  end.
Definition giant_lite (fastpath : bool) (max_files max_bytes : Z) (sizes : list (option Z)) : bool :=
  fastpath && giant_walk max_files max_bytes 0 0 sizes.

(** ** The static analyzers *)

Record Analyzers := mkAnalyzers {
  an_imports : list Finding;
  an_malware_patterns : list Finding;
  an_iocs : list Finding;
  an_secret_access : list Finding;
  an_entropy : list Finding;
  an_obfuscation : list Finding;
  an_entropy_delta : list Finding;
  an_binary : list Finding;
  an_yara : list Finding;
  an_opengrep : list Finding;
  an_install : list Finding;
  an_url_deps : option (list Finding); (* [None] where it raises *)
}.

Definition run_analyzers (a : Analyzers) (eco : string) (lite : bool) : list Finding :=
  (if String.eqb eco "pypi" then an_imports a ++ an_malware_patterns a else []) ++
  an_iocs a ++ an_secret_access a ++
  (if lite then [] else an_entropy a ++ an_obfuscation a) ++
  an_entropy_delta a ++ an_binary a ++ an_yara a ++ an_opengrep a.

Definition GOMOD_NON_GO_SUPPRESS : list string :=
  ["yara.cross_ecosystem_python_in_go"; "yara.pyarmor_suspicious_deps"; "yara.pyarmor_obfuscation"].

(** [has_go]: a [go.mod] or any [.go] file in the tree. *)
Definition filter_gomod_non_go (has_go : bool) (fs : list Finding) : list Finding :=
  if has_go then fs else bfilter (fun f => negb (str_in (rule_id f) GOMOD_NON_GO_SUPPRESS)) fs.

Definition run_static_analyzers (a : Analyzers) (eco arc_kind install_kind : string)
    (replaces_install has_go lite : bool) : list Finding :=
  let fs :=
    (if String.eqb arc_kind install_kind && negb replaces_install then an_install a else []) ++
    (if String.eqb eco "npm" && String.eqb arc_kind install_kind then default [] (an_url_deps a) else []) ++
    run_analyzers a eco lite in
  if String.eqb eco "gomod" then filter_gomod_non_go has_go fs else fs.

(** ** Persisting *)

Definition stored_finding (f : Finding) : Finding :=
  mkFinding (rule_id f) (category f) (f_severity f) (f_confidence f) (strip_nul_str (file f)) (line f)
    (strip_nul_str (evidence f)).

Definition persist_findings (scan_id : Z) (fs : list Finding) (d : db) : db :=
  set_findings (insert_all (fun f i => mkFindingRow i scan_id f) (map stored_finding fs) (findings d)) d.

Definition hash_row (scan_id : Z) (x : string * (string * FileInfo)) (i : Z) : FileHash :=
  mkFileHash i scan_id x.1 (strip_nul_str x.2.1) (fi_sha256 x.2.2) (nonempty (fi_ssdeep x.2.2))
    (nonempty (fi_tlsh x.2.2)) (Some (fi_entropy x.2.2)).

Definition persist_file_hashes (scan_id : Z) (hashes_by_kind : list (string * list (string * FileInfo))) (d : db) : db :=
  set_file_hashes
    (insert_all (hash_row scan_id) (flat_map (fun ki => map (fun pi => (ki.1, pi)) ki.2) hashes_by_kind)
      (file_hashes d)) d.

(** ** Lemmas *)

Fixpoint nul_free (v : json) : bool :=
  match v with
  | JStr s => negb (has_char NUL s)
  | JObj l => forallb (fun kv => nul_free kv.2) l
  | JArr l => forallb nul_free l
  | _ => true
  end.

Lemma strip_nul_str_free s : has_char NUL (strip_nul_str s) = false.
Proof. unfold strip_nul_str. destruct (has_char NUL s) eqn:E; [apply remove_char_absent|done]. Qed.

Lemma strip_nul_str_id s : has_char NUL s = false -> strip_nul_str s = s.
Proof. unfold strip_nul_str. by intros ->. Qed.

Lemma strip_nul_free v : nul_free (strip_nul v) = true.
Proof.
  induction v as [| | | |s|l IH|l IH] using json_rect'; simpl; try done.
  - by rewrite strip_nul_str_free.
  - induction IH; simpl; [done|]. by apply andb_true_iff.
  - induction IH; simpl; [done|]. by apply andb_true_iff.
Qed.

Lemma strip_nul_id v : nul_free v = true -> strip_nul v = v.
Proof.
  induction v as [| | | |s|l IH|l IH] using json_rect'; simpl; try done.
  - intros H%negb_true_iff. by rewrite strip_nul_str_id.
  - intros H. f_equal. induction IH; simpl in *; [done|]. apply andb_true_iff in H as [? ?]. f_equal; auto.
  - intros H. f_equal. induction IH as [|[k x] l]; simpl in *; [done|]. apply andb_true_iff in H as [? ?].
    f_equal; [f_equal|]; auto.
Qed.

Section HashLemmas.
Variable sha256 : string -> string.
Variable entropy : string -> double.
Variable ssdeep tlsh : option (string -> string).
Variable maxb : Z.
Variables (kind : string) (lite : bool).

Abbreviation info := (file_info sha256 entropy ssdeep tlsh maxb lite).
Abbreviation norm := (normalized_path kind).

Lemma keys_of_map {X Y} (k : X -> string) (v : X -> Y) (l : list X) : (map (fun x => (k x, v x)) l).*1 = map k l.
Proof. induction l as [|x l IH]; [done|]. cbn [map]. rewrite fmap_cons. by f_equal. Qed.

(** The files that could be read. *)
Definition hashed (tree : list tree_file) : list tree_file :=
  bfilter (fun f => bool_decide (is_Some (info f))) tree.

Lemma hashes_spec tree :
  NoDup (map norm (hashed tree)) ->
  let r := compute_file_hashes sha256 entropy ssdeep tlsh maxb kind lite tree in
  r.1 = omap (fun f => (fun i => (norm f, i)) <$> info f) (hashed tree) /\
  r.2 = map (fun f => (norm f, real_path f)) (hashed tree).
Proof.
  unfold compute_file_hashes. intros Hd.
  assert (forall (d1 : list (string * FileInfo)) d2, d1.*1 = d2.*1 ->
    (forall f, f ∈ hashed tree -> norm f ∉ d2.*1) ->
    let r := fold_left (fun acc f => match info f with
      | None => acc
      | Some i => (dset (norm f) i acc.1, dset (norm f) (real_path f) acc.2) end) tree (d1, d2) in
    r.1 = d1 ++ omap (fun f => (fun i => (norm f, i)) <$> info f) (hashed tree) /\
    r.2 = d2 ++ map (fun f => (norm f, real_path f)) (hashed tree)) as H.
  2: { apply (H [] []); [done|set_solver]. }
  assert (forall V (k : string) (v : V) d, k ∉ d.*1 -> dset k v d = d ++ [(k, v)]) as Hnew.
  { intros V k v d. induction d as [|[k' v'] d IH]; [done|]. rewrite fmap_cons, not_elem_of_cons. simpl.
    intros [? ?]. case_decide; [congruence|]. f_equal. auto. }
  unfold hashed in *. induction tree as [|f tree IH]; intros d1 d2 Hk Hfresh; cbn [fold_left].
  { simpl. by rewrite !app_nil_r. }
  cbn [List.filter] in Hd, Hfresh |- *. destruct (info f) as [i|] eqn:Ei.
  - rewrite (bool_decide_true (is_Some (Some i))) in Hd, Hfresh |- * by eauto. cbn [map] in Hd. apply NoDup_cons in Hd as [Hn Hd].
    assert (norm f ∉ d2.*1) as Hf by (apply Hfresh; set_solver).
    cbn [fst snd]. rewrite (Hnew _ _ i d1) by by rewrite Hk. rewrite (Hnew _ _ (real_path f) d2) by done.
    destruct (IH Hd (d1 ++ [(norm f, i)]) (d2 ++ [(norm f, real_path f)])) as [H1 H2].
    + by rewrite !fmap_app, Hk.
    + intros g Hg. rewrite fmap_app, not_elem_of_app. split; [apply Hfresh; by right|].
      simpl. rewrite list_elem_of_singleton. intros E. apply Hn. rewrite <- E. apply list_elem_of_fmap. eauto.
    + rewrite H1, H2, <- !app_assoc. simpl. rewrite Ei. done.
  - rewrite (bool_decide_false (is_Some None)) in Hd, Hfresh |- * by (by intros [? ?]). by apply IH.
Qed.

End HashLemmas.

(** ** Properties *)

(** NUL stripping of decoded values.  After [_strip_nul] no string in value position contains a
    NUL at any depth; a value without any is returned unchanged, so stripping twice is
    stripping once. *)
Theorem strip_nul_clean v :
  nul_free (strip_nul v) = true /\ (nul_free v = true -> strip_nul v = v) /\ strip_nul (strip_nul v) = strip_nul v.
Proof. split_and!; [apply strip_nul_free|apply strip_nul_id|apply strip_nul_id, strip_nul_free]. Qed.

(** The keys of objects are left as they are, although a JSONB write rejects them as well. *)
Example nul_key_kept : strip_nul (JObj [(String NUL "k", JStr (String NUL "v"))]) = JObj [(String NUL "k", JStr "v")].
Proof. reflexivity. Qed.

(** Change detection is exact where normalised paths are distinct: the files handed to the
    analyzers are precisely those that the previous scan did not have or had with another
    SHA-256. *)
Theorem changed_files_exact sha256 entropy ssdeep tlsh maxb kind lite tree prev f i :
  let r := compute_file_hashes sha256 entropy ssdeep tlsh maxb kind lite tree in
  let files := hashed sha256 entropy ssdeep tlsh maxb lite tree in
  NoDup (map (normalized_path kind) files) -> NoDup (map real_path files) ->
  f ∈ tree -> file_info sha256 entropy ssdeep tlsh maxb lite f = Some i ->
  real_path f ∈ find_changed_files r.1 prev r.2 <->
  (forall p, dget (normalized_path kind f) prev = Some p -> fi_sha256 p <> fi_sha256 i).
Proof.
  intros r files Hn Hreal Hf Hi. destruct (hashes_spec sha256 entropy ssdeep tlsh maxb kind lite tree Hn) as [H1 H2].
  fold r files in H1, H2.
  assert (forall g, g ∈ files -> dget_or (normalized_path kind g) "" r.2 = real_path g) as Hr2.
  { intros g Hg. unfold dget_or. rewrite (dget_in_NoDup _ (real_path g)); [done| |].
    - rewrite H2. rewrite keys_of_map. unfold files. done.
    - rewrite H2. apply list_elem_of_fmap. eauto. }
  assert (f ∈ files) as Hff by (apply bfilter_in; split; [done|]; by rewrite Hi, bool_decide_true).
  assert (changed_entry prev (normalized_path kind f, i) = true <->
    (forall p, dget (normalized_path kind f) prev = Some p -> fi_sha256 p <> fi_sha256 i)) as Hce.
  { unfold changed_entry; simpl. destruct (dget _ prev) as [p|]; [|naive_solver].
    rewrite negb_true_iff, String.eqb_neq. naive_solver. }
  rewrite <- Hce. unfold find_changed_files. rewrite dedup_elem, list_elem_of_fmap. split.
  - intros ([k j] & E & [Hin Hc]%bfilter_in). rewrite H1 in Hin. apply list_elem_of_omap in Hin as (g & Hg & Ej).
    destruct (file_info _ _ _ _ _ _ g) as [j'|] eqn:Eg; [|done]. injection Ej as <- <-. cbn [fst] in E.
    rewrite (Hr2 g Hg) in E. assert (f = g) as <-; [|congruence].
    apply list_elem_of_lookup in Hff as [a Ha], Hg as [b Hb].
    assert (a = b) as ->; [|congruence]. eapply (NoDup_lookup (map real_path files)); [done| |];
      rewrite list_lookup_fmap; [by rewrite Ha|by rewrite Hb, E].
  - intros Hc. exists (normalized_path kind f, i). split; [symmetry; by apply Hr2|]. apply bfilter_in. split; [|done].
    rewrite H1. apply list_elem_of_omap. exists f. split; [done|]. by rewrite Hi.
Qed.

Definition ex_tree : list tree_file :=
  [mkTreeFile ["pkg-1"; "setup.py"] (Some 3) (Some "new"); mkTreeFile ["pkg-1"; "a.py"] (Some 3) (Some "old")].
Definition ex_prev : list (string * FileInfo) := [("a.py", mkFileInfo "old" f_zero "" "")].

Lemma changed_files_exact_witness :
  let r := compute_file_hashes (fun s => s) (fun _ => f_zero) None None 1000 "sdist" false ex_tree in
  "pkg-1/setup.py" ∈ find_changed_files r.1 ex_prev r.2.
Proof.
  apply (changed_files_exact (fun s => s) (fun _ => f_zero) None None 1000 "sdist" false ex_tree ex_prev
    (mkTreeFile ["pkg-1"; "setup.py"] (Some 3) (Some "new")) (mkFileInfo "new" f_zero "" ""));
    [vm_compute; repeat constructor; set_solver..|set_solver|reflexivity|].
  intros p. vm_compute. done.
Defined.

(** Two top-level directories with the same inner path share one normalised entry: a changed
    file of the first is hidden by an unchanged file of the second. *)
Example shadowed_change :
  let tree := [mkTreeFile ["evil"; "a.py"] (Some 3) (Some "new"); mkTreeFile ["pkg-1"; "a.py"] (Some 3) (Some "old")] in
  let r := compute_file_hashes (fun s => s) (fun _ => f_zero) None None 1000 "sdist" false tree in
  find_changed_files r.1 ex_prev r.2 = [].
Proof. by vm_compute. Qed.

(** The evidence bar of automatic promotion.  A package qualifies exactly when the model says
    malicious, the strong findings (high or critical, not shadow) include a category outside
    the soft ones or cover two categories, the confidence is not below the floor, and either
    the rules convicted or the confidence is at least 0.80. *)
Theorem promotion_bar floor rule tri fs :
  (auto_watchlist_qualifies floor rule tri fs).1 = true <->
  exists t, tri = Some t /\ r_verdict t = VMalicious /\
    ((exists f, f ∈ scored fs /\ f_severity f ∈ [SHigh; SCritical] /\ category f ∉ NON_PRIMARY_PROMOTE_CATEGORIES) \/
     (exists f g, f ∈ scored fs /\ g ∈ scored fs /\ f_severity f ∈ [SHigh; SCritical] /\
        f_severity g ∈ [SHigh; SCritical] /\ category f <> category g)) /\
    let conf := if float_truthy (r_confidence t) then r_confidence t else f_zero in
    float_lt conf floor = false /\ (rule = VMalicious \/ float_ge conf f_0_80 = true).
Proof.
  assert (forall c, c ∈ strong_categories fs <-> exists f, f ∈ scored fs /\ f_severity f ∈ [SHigh; SCritical] /\ category f = c) as Hcat.
  { intros c. unfold strong_categories. rewrite dedup_elem, list_elem_of_fmap. split.
    - intros (f & -> & [Hf [Hs Hv%sev_in_true]%andb_true_iff]%bfilter_in). exists f. split_and!; try done.
      apply bfilter_in. done.
    - intros (f & [Hf Hs]%bfilter_in & Hv & <-). exists f. split; [done|]. apply bfilter_in. split; [done|].
      apply andb_true_iff. by rewrite sev_in_true. }
  set (cats := strong_categories fs) in *.
  assert (existsb (fun c => negb (str_in c NON_PRIMARY_PROMOTE_CATEGORIES)) cats = true <->
    exists f, f ∈ scored fs /\ f_severity f ∈ [SHigh; SCritical] /\ category f ∉ NON_PRIMARY_PROMOTE_CATEGORIES) as Hprim.
  { rewrite existsb_true. setoid_rewrite Hcat. setoid_rewrite negb_true_iff.
    assert (forall c l, str_in c l = false <-> c ∉ l) as Hsi by (intros; by rewrite <- not_true_iff_false, str_in_true).
    setoid_rewrite Hsi. naive_solver. }
  assert ((2 <= length cats)%nat <-> exists f g, f ∈ scored fs /\ g ∈ scored fs /\ f_severity f ∈ [SHigh; SCritical] /\
        f_severity g ∈ [SHigh; SCritical] /\ category f <> category g) as Htwo.
  { assert (NoDup cats) as Hd by apply dedup_NoDup. split.
    - intros Hlen. destruct cats as [|c1 [|c2 cs]]; simpl in Hlen; [lia..|].
      apply NoDup_cons in Hd as [Hne _].
      destruct (proj1 (Hcat c1) ltac:(set_solver)) as (f & ? & ? & <-).
      destruct (proj1 (Hcat c2) ltac:(set_solver)) as (g & ? & ? & <-).
      exists f, g. split_and!; try done. intros E. apply Hne. rewrite E. set_solver.
    - intros (f & g & Hf & Hg & Sf & Sg & Hne).
      assert (category f ∈ cats) as Hcf by (apply Hcat; eauto). assert (category g ∈ cats) as Hcg by (apply Hcat; eauto).
      destruct cats as [|c1 [|c2 cs]]; simpl; [set_solver| |lia].
      apply list_elem_of_singleton in Hcf, Hcg. congruence. }
  unfold auto_watchlist_qualifies. fold cats. destruct tri as [t|]; [|naive_solver].
  case_bool_decide as Hm; cbn [negb]; [|naive_solver].
  setoid_rewrite <- Hprim. setoid_rewrite <- Htwo. clear Hprim Htwo Hcat.
  set (c := if float_truthy (r_confidence t) then r_confidence t else f_zero).
  transitivity ((existsb (fun c => negb (str_in c NON_PRIMARY_PROMOTE_CATEGORIES)) cats = true \/ (2 <= length cats)%nat) /\
    float_lt c floor = false /\ (rule = VMalicious \/ float_ge c f_0_80 = true)); [|naive_solver].
  destruct (existsb _ cats), (Nat.ltb_spec (length cats) 2), (float_lt c floor), (decide (rule = VMalicious)),
    (float_ge c f_0_80); cbn [negb andb orb]; rewrite ?bool_decide_true, ?bool_decide_false by done; cbn [orb fst];
    intuition (try done; try lia).
Qed.
