(* ===== verification/Finalize.v ===== *)
(** * Finalisation of a scan ([pipeline._persist_and_finalize])

    The function runs a sequence of transactions with external calls between
    them.  A run is the list of its observable effects in order; a process that
    dies leaves a prefix of it.  Between two transactions other workers may
    commit anything ([interfere]). *)
From S2P Require Import Prelude PyStr Sql Findings Jobs ScanQueue DetQueue Intel Score Json Triage Watch Scope.
From S2P Require Import ThreatIntel DepIntel Metadata Store Reuse Pipeline.
From Stdlib Require Import QArith.

Open Scope list_scope.
Open Scope Z_scope.

(** ** Settings and arguments *)

(** Module constants, environment switches and the loaded intel pack. *)
Record Settings := mkSettings {
  st_pack : IntelPack;
  st_chain : gset string; (* [BEHAVIORAL_CHAIN_RULES] *)
  st_caps : Caps;
  st_auto : AutoConfig;
  st_scope_env : option string;
  st_known_bad : bool;
  st_known_bad_ttl : timestamp;
  st_reuse_days : Z;
  st_conf_floor : double; (* [MALICIOUS_CONF_FLOOR] *)
  st_seed_max : Z;
  st_binary_entropy : double;
  st_det_client : bool;
  st_det_env : option string; (* [DETONATION_ENABLED] *)
  st_llm : bool;
  st_discord : bool;
  st_vault : bool;
}.

(** The external calls whose exceptions are caught and logged: [true] where
    the call raises. *)
Record Caught := mkCaught { c_carry : bool; c_watch : bool; c_scope : bool; c_seed : bool; c_vault : bool; c_sweep : bool }.
Definition no_raise : Caught := mkCaught false false false false false false.

Record Input := mkInput {
  in_queue_id : Z;
  in_token : option string;
  in_eco : string;
  in_name : string;
  in_version : string;
  in_started_at : timestamp;
  in_metadata : list (string * json);
  in_archives : list ArchivePath;
  in_findings : list Finding;
  in_hashes : list (string * list (string * FileInfo));
  in_fetch_error : option (string * string); (* [fetch_error_type], [str(fetch_error)] *)
  in_sdist_files : list string;
  in_wheel_files : list string;
}.

(** The database and the per-process caches. *)
Record world := mkWorld { w_db : db; w_cache : cache; w_rates : list (string * list timestamp) }.
Definition set_db (d : db) (w : world) : world := mkWorld d (w_cache w) (w_rates w).

Inductive effect :=
  | Committed (d : db)
  | LlmCalled
  | Vaulted (kind : string)
  | Alerted (tri : LLMTriageResult) (* [discord.send_alert] is called; its result is not looked at *)
  | ReviewAsked (* [discord.send_review_alert] is called *)
  | Swept.

Definition detonation_cluster_enabled (client : bool) (env : option string) : bool :=
  client || negb (String.eqb (default "0" env) "0").

Section Finalize.
Variable st : Settings.
Variable str_of : json -> string.
Variable parse_iso : string -> option timestamp.
Variable isoformat : timestamp -> string.

(** ** Transaction 1: findings, verdict, persistence *)

Definition strip_metadata (md : list (string * json)) : list (string * json) :=
  map (fun kv => (kv.1, strip_nul kv.2)) md.

Definition current_meta (md : list (string * json)) : CurrentMeta :=
  mkMeta (json_str (jget "author" md JNull)) (json_str (jget "author_email" md JNull))
    (json_strs (jget "requires_dist" md JNull)).

Definition metadata_context (inp : Input) (md : list (string * json)) (prev : option PreviousVersion) (d : db)
    : MetadataContext :=
  mkCtx (in_name inp) (in_version inp)
    (p ← prev; pv_upload_time p)
    (match json_str (json_or (jget "maintainer" md JNull) (jget "author" md JNull)) with
     | Some a => if truthy a then [a] else []
     | None => []
     end)
    (match prev with Some p => if otruthy (pv_author p) then [ostr (pv_author p)] else [] | None => [] end)
    (Watch.watchlist_top_names (in_eco inp) 5000 (watchlist d))
    (in_sdist_files inp) (in_wheel_files inp).

Definition known_bad_findings (now : timestamp) (eco : string) (md : list (string * json))
    (prev : option PreviousVersion) (d : db) (c : cache) : list Finding * cache :=
  if negb (st_known_bad st) then ([], c)
  else
    let '(bad, c) := load_known_bad (st_known_bad_ttl st) now (Some (query_known_bad (st_auto st) eco (watchlist d))) eco c in
    (check_known_bad_deps eco (json_strs (jget "requires_dist" md JNull))
       (match prev with Some p => pv_requires_dist p | None => [] end) bad, c).

Definition intel_batch (infos : list (string * FileInfo)) : list (string * hashes) :=
  map (fun pi => (pi.1, mkHashes (fi_sha256 pi.2) (fi_ssdeep pi.2) (fi_tlsh pi.2))) infos.

Definition intel_findings (hs : list (string * list (string * FileInfo))) (d : db) : list Finding :=
  flat_map (fun ki => check_files_batch (st_caps st) (rows (intel_hashes d)) (intel_batch ki.2)) hs.

Definition current_hashes (hs : list (string * list (string * FileInfo))) : list (string * string) :=
  fold_left (fun acc ki => fold_left (fun acc pi => dset pi.1 (fi_sha256 pi.2) acc) ki.2 acc) hs [].

Definition carried_findings (raises : bool) (now : timestamp) (inp : Input) (sid : Z) (existing : list Finding)
    (d : db) : list Finding :=
  if raises then []
  else if is_watchlist_auto_only (in_eco inp) (in_name inp) (watchlist d)
  then carry_forward_findings (st_reuse_days st) now (in_eco inp) (in_name inp) sid (current_hashes (in_hashes inp)) existing d
  else [].

(** The [all_findings.extend] calls, in order. *)
Definition collect (caught : Caught) (now : timestamp) (inp : Input) (md : list (string * json))
    (prev : option PreviousVersion) (sid : Z) (d : db) (c : cache) : list Finding * cache :=
  let fs := in_findings inp in
  let fs := fs ++ analyze_metadata isoformat (lure_keywords (st_pack st)) now (metadata_context inp md prev d) in
  let fs := fs ++ match prev with Some p => analyze_version_diff fs (current_meta md) p | None => [] end in
  let '(deps, c) := known_bad_findings now (in_eco inp) md prev d c in
  let fs := fs ++ deps in
  let fs := fs ++ intel_findings (in_hashes inp) d in
  (fs ++ carried_findings (c_carry caught) now inp sid fs d, c).

Definition open_scan (inp : Input) (v : Version) (d : db) : Scan * db :=
  let '(t, sc) := insert (fun i => mkScan i (v_id v) (in_started_at inp) None VClean 0 None None) (scans d) in
  (sc, set_scans t d).

Definition scored_scan (now : timestamp) (r : ScoreResult) (sc : Scan) : Scan :=
  mkScan (sc_id sc) (sc_version_id sc) (sc_started_at sc) (Some now) (sr_verdict r) (score r) (alert_tag r) (sc_llm sc).

Definition put_scan (sc : Scan) (d : db) : db := set_scans (put sc (scans d)) d.

(** The watchlist row's download count, read only for a ranked package. *)
Definition downloads_of (rank : option Z) (v : Version) (d : db) : option (option Z) :=
  match rank with
  | None => None
  | Some _ =>
      p ← get (v_package_id v) (packages d);
      w ← first (fun w => String.eqb (w_ecosystem w) (p_ecosystem p) && String.eqb (w_name w) (p_name p)) (watchlist d);
      Some (Some (w_downloads w))
  end.

Definition save_metadata (now : timestamp) (md : list (string * json)) (rank : option Z) (v : Version) (d : db) : db :=
  let m := apply_metadata str_of parse_iso now md (downloads_of rank v d) (v_meta v) in
  set_versions (put (mkVersion (v_id v) (v_ecosystem v) (v_package_id v) (v_version v) (v_first_seen v) m) (versions d)) d.

Definition enqueue_detonation (now : timestamp) (inp : Input) (sid vid : Z) (r : ScoreResult) (fs : list Finding)
    (rank : option Z) (is_first : bool) (d : db) : db :=
  if str_in (in_eco inp) DETONATION_ECOSYSTEMS && detonation_cluster_enabled (st_det_client st) (st_det_env st) &&
     should_detonate (st_chain st) (sr_verdict r) (score r) fs rank is_first
  then set_det_queue (DetQueue.enqueue now
         (mkDet sid vid (dget_or (in_eco inp) "sdist" PREFERRED_ARCHIVE) (sr_verdict r))
         (in_eco inp) (in_name inp) (in_version inp) (detonation_priority (sr_verdict r) rank) (detonation_queue d)).2 d
  else d.

Definition complete (now : timestamp) (token : option string) (row : job unit) (d : db) : db :=
  set_scan_queue (ScanQueue.mark_done now row token (scan_queue d)).2 d.

Definition triaged_verdict (v : verdict) : bool := verdict_in v [VMalicious; VSuspicious].

(** The fetch-error branch. *)
Definition finalize_unfetched (now : timestamp) (inp : Input) (kind err : string) (row : job unit) (sc : Scan) (d : db) : db :=
  let rank := is_watchlist (in_name inp) (in_eco inp) (watchlist d) in
  let d := put_scan (scored_scan now (score_and_verdict (st_pack st) (in_findings inp) rank) sc) d in
  let d := persist_findings (sc_id sc) (in_findings inp) d in
  if String.eqb kind "no_files"
  then set_scan_queue (ScanQueue.mark_failed now row err (in_token inp) (scan_queue d)).2 d
  else complete now (in_token inp) row d.

(** What the rest of the function needs once transaction 1 is closed. *)
Record scanned := mkScanned { s_scan_id : Z; s_result : ScoreResult; s_findings : list Finding }.

Definition finalize_scan (caught : Caught) (now : timestamp) (inp : Input) (md : list (string * json)) (row : job unit)
    (v : Version) (sc : Scan) (d : db) (c : cache) : scanned * db * cache :=
  let sid := sc_id sc in
  let prev := get_previous_version (in_eco inp) (v_package_id v) (v_id v) d in
  let '(fs, c) := collect caught now inp md prev sid d c in
  let rank := is_watchlist (in_name inp) (in_eco inp) (watchlist d) in
  let r := score_and_verdict (st_pack st) fs rank in
  let d := put_scan (scored_scan now r sc) d in
  let d := save_metadata now md rank v d in
  let d := persist_findings sid fs d in
  let d := persist_file_hashes sid (in_hashes inp) d in
  let d := enqueue_detonation now inp sid (v_id v) r fs rank (negb (bool_decide (is_Some prev))) d in
  let d := if triaged_verdict (sr_verdict r) then d else complete now (in_token inp) row d in
  (mkScanned sid r fs, d, c).

(** ** Transaction 2: the LLM's answer *)

(** The verdict the answer puts in place of the rule verdict, if any. *)
Definition override (rule : verdict) (t : LLMTriageResult) : option verdict :=
  if bool_decide (r_verdict t = VMalicious) && float_lt (r_confidence t) (st_conf_floor st) &&
     negb (bool_decide (rule = VMalicious)) then None
  else if verdict_in (r_verdict t) [VMalicious; VSuspicious; VBenign] then Some (r_verdict t)
  else if bool_decide (r_verdict t = VInconclusive) && negb (bool_decide (rule = VMalicious)) then Some VInconclusive
  else None.

Definition strip_ioc (i : ioc) : ioc := mkIoc (strip_nul_str (ioc_type i)) (strip_nul_str (ioc_value i)).

Definition NL : string := String (Ascii.ascii_of_nat 10) EmptyString.

Definition llm_columns (t : LLMTriageResult) : LlmColumns :=
  mkLlm (r_verdict t) (r_confidence t)
    (strip_nul_str (r_reasoning t +:+
       (if truthy (r_missing_evidence t) then NL +:+ NL +:+ "MISSING EVIDENCE: " +:+ r_missing_evidence t else "")))
    (r_agrees t) (r_prompt_tokens t) (r_completion_tokens t) (map strip_ioc (r_iocs t)) (r_cost_usd t).

Definition adjudicated_scan (rule : verdict) (tri : option LLMTriageResult) (sc : Scan) : Scan :=
  match tri with
  | None => sc
  | Some t =>
      mkScan (sc_id sc) (sc_version_id sc) (sc_started_at sc) (sc_finished_at sc)
        (default (sc_verdict sc) (override rule t)) (sc_score sc) (sc_alert_tag sc) (Some (llm_columns t))
  end.

(** [final_verdict]: unchanged when the scan row is gone. *)
Definition final_verdict (rule : verdict) (tri : option LLMTriageResult) (found : bool) : verdict :=
  match tri with
  | Some t => if found then default rule (override rule t) else rule
  | None => rule
  end.

(** The state of adjudication the scan is tagged with, where it has no tag. *)
Definition review_tag (final : verdict) (tri : option LLMTriageResult) : option string :=
  if bool_decide (final = VInconclusive) then Some "needs_review"
  else
    match tri with
    | Some t => if verdict_in (r_verdict t) [VBenign; VSuspicious; VMalicious] then None else Some "llm_unverified"
    | None => Some "llm_unverified"
    end.

Definition tag_scan (final : verdict) (tri : option LLMTriageResult) (sc : Scan) : Scan :=
  if otruthy (sc_alert_tag sc) then sc
  else
    match review_tag final tri with
    | Some tag =>
        mkScan (sc_id sc) (sc_version_id sc) (sc_started_at sc) (sc_finished_at sc) (sc_verdict sc) (sc_score sc)
          (Some tag) (sc_llm sc)
    | None => sc
    end.

Definition seed_file_of (h : FileHash) : seed_file :=
  mkSeedFile (fh_file_path h) (fh_sha256 h) (fh_ssdeep h) (fh_tlsh h)
    (match fh_entropy h with Some e => float_ge e (st_binary_entropy st) | None => false end).

(** The three promotions of a confirmed package: name, scope, fingerprints. *)
Definition promote_package (caught : Caught) (watch_race : wtable -> wtable) (now mono : timestamp) (inp : Input)
    (sid : Z) (w : world) : world :=
  let eco := in_eco inp in
  let nm := in_name inp in
  let w :=
    if c_watch caught then w
    else
      let '(_, rates, t) := add_confirmed_malicious (st_auto st) watch_race now mono eco nm (w_rates w) (watchlist (w_db w)) in
      mkWorld (set_watchlist t (w_db w)) (w_cache w) rates in
  let w :=
    if c_scope caught then w
    else set_db (set_scopes (auto_watch_on_malicious (st_scope_env st) now eco nm (scopes (w_db w))).2 (w_db w)) w in
  if c_seed caught then w
  else
    let d := w_db w in
    let bad := map file (bfilter (fun f => sev_in f [SHigh; SCritical]) (findings_of sid d)) in
    set_db (set_intel (seed_from_scan (st_seed_max st) now eco nm (blocklisted (st_auto st) eco nm) bad
      (map seed_file_of (select (fun h => fh_scan_id h =? sid) (file_hashes d))) (intel_hashes d)).2 d) w.

Definition adjudicate (caught : Caught) (watch_race : wtable -> wtable) (now mono : timestamp) (inp : Input)
    (s : scanned) (tri : option LLMTriageResult) (w : world) : verdict * bool * world :=
  let rule := sr_verdict (s_result s) in
  let scan := get (s_scan_id s) (scans (w_db w)) in
  let final := final_verdict rule tri (bool_decide (is_Some scan)) in
  let promote := (auto_watchlist_qualifies (st_conf_floor st) rule tri (s_findings s)).1 in
  let w :=
    match scan with
    | Some sc => set_db (put_scan (tag_scan final tri (adjudicated_scan rule tri sc)) (w_db w)) w
    | None => w
    end in
  let w := if promote then promote_package caught watch_race now mono inp (s_scan_id s) w else w in
  (final, promote, w).

(** ** The run *)

Definition UNVERIFIED : LLMTriageResult :=
  mkResult VUnverified f_zero "LLM triage unavailable (disabled or skipped)" "" [] None 0 0 0%Q.

(** [llm_cleared], [vault_keep], [llm_confident_mal], [should_alert]. *)
Definition llm_says (vs : list verdict) (tri : option LLMTriageResult) : bool :=
  match tri with Some t => verdict_in (r_verdict t) vs | None => false end.
Definition llm_cleared (tri : option LLMTriageResult) : bool := llm_says [VBenign; VSuspicious] tri.
Definition llm_mal (tri : option LLMTriageResult) : bool := llm_says [VMalicious] tri.
Definition vault_keep (rule : verdict) (tri : option LLMTriageResult) : bool :=
  llm_mal tri || (bool_decide (rule = VMalicious) && (bool_decide (tri = None) && st_llm st)).
Definition llm_confident_mal (tri : option LLMTriageResult) : bool :=
  match tri with
  | Some t => llm_mal tri && float_ge (r_confidence t) (st_conf_floor st)
  | None => false
  end.
Definition should_alert (rule : verdict) (tri : option LLMTriageResult) : bool :=
  (bool_decide (rule = VMalicious) && negb (llm_cleared tri)) || llm_confident_mal tri.

Definition vault_arc (eco : string) (archives : list ArchivePath) : option ArchivePath :=
  match head (bfilter (fun a => String.eqb (arc_kind a) (dget_or eco "sdist" PREFERRED_ARCHIVE)) archives) with
  | Some a => Some a
  | None => head archives
  end.

Definition vault_effects (caught : Caught) (inp : Input) (rule : verdict) (tri : option LLMTriageResult) : list effect :=
  if vault_keep rule tri && st_vault st && negb (c_vault caught)
  then match vault_arc (in_eco inp) (in_archives inp) with Some a => [Vaulted (arc_kind a)] | None => [] end
  else [].

(** Which notification is sent: the call, not its delivery, which is best-effort. *)
Definition notify_effects (rule final : verdict) (tri : option LLMTriageResult) : list effect :=
  if should_alert rule tri && st_discord st then [Alerted (default UNVERIFIED tri)]
  else if bool_decide (final = VInconclusive) && st_discord st then [ReviewAsked]
  else [].

Record outcome := mkOutcome {
  o_effects : list effect;
  o_scanned : option scanned;
  o_tri : option LLMTriageResult;
  o_final : option verdict;
  o_promoted : bool;
  o_world : world;
}.

Section Run.
(** The triage call on the rule verdict and the findings ([Triage.triage] with
    its budget and HTTP client); what others commit between transactions, and
    between the watchlist lookup and insert; the clocks. *)
Variable triage_call : verdict -> list Finding -> triage_out.
Variable interfere : nat -> db -> db.
Variable watch_race : wtable -> wtable.
Variable clock : nat -> timestamp.
Variable mono : timestamp.
Variable caught : Caught.

(** The LLM is asked only with an extracted tree, which exists when there is an archive. *)
Definition ask_llm (inp : Input) (s : scanned) : list effect * option LLMTriageResult :=
  match in_archives inp with
  | _ :: _ =>
      if st_llm st
      then ([LlmCalled],
            match triage_call (sr_verdict (s_result s)) (s_findings s) with Triaged t => Some t | TriageRaised _ => None end)
      else ([], None)
  | [] => ([], None)
  end.

Definition finish_row (now : timestamp) (inp : Input) (d : db) : db :=
  match get (in_queue_id inp) (scan_queue d) with
  | Some row => complete now (in_token inp) row d
  | None => d
  end.

Definition run_unfetched (inp : Input) (kind err : string) (row : job unit) (sc : Scan) (d : db) (w : world) : outcome :=
  let bumped := bump_rulehits (in_findings inp) (w_db w) in
  let d := set_rule_hits (rule_hits bumped) (finalize_unfetched (clock 0) inp kind err row sc d) in
  mkOutcome [Committed bumped; Committed d] None None None false (set_db d w).

Definition run_triage (inp : Input) (s : scanned) (w : world) : outcome :=
  let rule := sr_verdict (s_result s) in
  let '(calls, tri) := ask_llm inp s in
  let '(final, promote, w2) := adjudicate caught watch_race (clock 1) mono inp s tri (set_db (interfere 0 (w_db w)) w) in
  let d3 := finish_row (clock 2) inp (interfere 1 (w_db w2)) in
  let d4 := bump_rulehits (s_findings s) (interfere 2 d3) in
  mkOutcome
    (Committed (w_db w) :: calls ++ [Committed (w_db w2)] ++ vault_effects caught inp rule tri ++
     notify_effects rule final tri ++ [Committed d3] ++ (if promote && negb (c_sweep caught) then [Swept] else []) ++
     [Committed d4])
    (Some s) tri (Some final) promote (set_db d4 w2).

Definition persist_and_finalize (inp : Input) (w : world) : outcome :=
  match get (in_queue_id inp) (scan_queue (w_db w)) with
  | None => mkOutcome [] None None None false w
  | Some row =>
      let now := clock 0 in
      let md := strip_metadata (in_metadata inp) in
      let '(v, d) := upsert_package_and_version now (in_eco inp) (in_name inp) (in_version inp) (w_db w) in
      let '(sc, d) := open_scan inp v d in
      match in_fetch_error inp with
      | Some (kind, err) => run_unfetched inp kind err row sc d w
      | None =>
          let '(s, d, c) := finalize_scan caught now inp md row v sc d (w_cache w) in
          let w1 := mkWorld d c (w_rates w) in
          if triaged_verdict (sr_verdict (s_result s)) then run_triage inp s w1
          else
            let d4 := bump_rulehits (s_findings s) (interfere 2 d) in
            mkOutcome [Committed d; Committed d4] (Some s) None (Some (sr_verdict (s_result s))) false (set_db d4 w1)
      end
  end.

End Run.
End Finalize.

(** ** Lemmas *)

Lemma upsert_frame now eco nm ver d :
  let d' := (upsert_package_and_version now eco nm ver d).2 in
  scans d' = scans d /\ findings d' = findings d /\ scan_queue d' = scan_queue d /\
  detonation_queue d' = detonation_queue d /\ rule_hits d' = rule_hits d /\ watchlist d' = watchlist d.
Proof.
  unfold upsert_package_and_version, upsert_package, upsert_version.
  cbv beta iota zeta delta [insert].
  destruct (first _ (packages d)); destruct (first _ (versions _)); done.
Qed.

Lemma token_ok now (row : job unit) tok (q : queue) :
  token_refused tok row = false -> (ScanQueue.mark_done now row tok q).2 = put (set_finished (Some now) (set_status Done row)) q.
Proof. unfold ScanQueue.mark_done, job_mark_done. by intros ->. Qed.

Section FinalizeFacts.
Variable st : Settings.
Variable str_of : json -> string.
Variable parse_iso : string -> option timestamp.
Variable isoformat : timestamp -> string.

(** What [finalize_scan] leaves in the tables that matter downstream. *)
Lemma finalize_scan_spec caught now inp md row v sc d c :
  let '(s, d', c') := finalize_scan st str_of parse_iso isoformat caught now inp md row v sc d c in
  let r := s_result s in
  s_scan_id s = sc_id sc /\
  r = score_and_verdict (st_pack st) (s_findings s) (is_watchlist (in_name inp) (in_eco inp) (watchlist d)) /\
  (exists more, s_findings s = in_findings inp ++ more) /\
  scans d' = put (scored_scan now r sc) (scans d) /\
  findings d' = findings (persist_findings (sc_id sc) (s_findings s) d) /\
  scan_queue d' = scan_queue (if triaged_verdict (sr_verdict r) then d else complete now (in_token inp) row d) /\
  rule_hits d' = rule_hits d.
Proof.
  unfold finalize_scan. destruct (collect _ _ _ _ _ _ _ _ _ _) as [fs c'] eqn:Ec.
  cbv beta iota zeta. cbn [s_result s_findings s_scan_id].
  assert (exists more, fs = in_findings inp ++ more) as Hmore.
  { unfold collect in Ec. destruct (known_bad_findings _ _ _ _ _ _ _) as [deps c1]. injection Ec as <- _.
    rewrite <- !app_assoc. eauto. }
  unfold enqueue_detonation, complete. by destruct (triaged_verdict _), (str_in _ _ && _ && _).
Qed.

(** A new scan has no findings yet: [findings.scan_id] is a foreign key. *)
Definition scans_fresh (d : db) : Prop :=
  table_wf (scans d) /\ forall r, r ∈ rows (findings d) -> fr_scan_id r < seq (scans d).

Definition blank_scan (inp : Input) (d0 : db) (vid : Z) : Scan :=
  mkScan (seq (scans d0)) vid (in_started_at inp) None VClean 0 None None.

(** The state after transaction 1. *)
Record scanned_ok (now : timestamp) (inp : Input) (row : job unit) (d0 : db) (s : scanned) (d1 : db) : Prop := {
  so_id : s_scan_id s = seq (scans d0);
  so_result : s_result s = score_and_verdict (st_pack st) (s_findings s) (is_watchlist (in_name inp) (in_eco inp) (watchlist d0));
  so_more : exists more, s_findings s = in_findings inp ++ more;
  so_scans : exists vid, scans d1 = put (scored_scan now (s_result s) (blank_scan inp d0 vid))
    (insert (fun i => mkScan i vid (in_started_at inp) None VClean 0 None None) (scans d0)).1;
  so_findings : findings d1 = findings (persist_findings (seq (scans d0)) (s_findings s) d0);
  so_queue : scan_queue d1 = scan_queue (if triaged_verdict (sr_verdict (s_result s)) then d0 else complete now (in_token inp) row d0);
}.

Lemma so_scan now inp row d0 s d1 : scans_fresh d0 -> scanned_ok now inp row d0 s d1 ->
  exists vid, get (seq (scans d0)) (scans d1) = Some (scored_scan now (s_result s) (blank_scan inp d0 vid)) /\ table_wf (scans d1).
Proof.
  intros [Hwf _] []. destruct so_scans0 as [vid ->]. exists vid. split.
  - apply (get_put _ _ (blank_scan inp d0 vid)); [by apply table_wf_insert|done|]. by apply (get_insert (fun i => mkScan i vid _ _ _ _ _ _)).
  - by apply table_wf_put, table_wf_insert.
Qed.

Lemma so_stored now inp row d0 s d1 : scans_fresh d0 -> scanned_ok now inp row d0 s d1 ->
  findings_of (seq (scans d0)) d1 = map stored_finding (s_findings s).
Proof.
  intros [_ Hfk] []. unfold findings_of. rewrite so_findings0. cbn [findings set_findings persist_findings].
  rewrite (insert_all_select _ _ fr_finding); [|intros; apply Z.eqb_refl|done].
  replace (select _ (findings d0)) with (@nil FindingRow); [done|]. symmetry. apply select_nil.
  intros r Hr%Hfk. apply Z.eqb_neq. lia.
Qed.

End FinalizeFacts.

(** ** Facts about a run *)

Section RunFacts.
Variable st : Settings.
Variable str_of : json -> string.
Variable parse_iso : string -> option timestamp.
Variable isoformat : timestamp -> string.
Variable triage_call : verdict -> list Finding -> triage_out.
Variable interfere : nat -> db -> db.
Variable watch_race : wtable -> wtable.
Variable clock : nat -> timestamp.
Variable mono : timestamp.
Variable caught : Caught.

Abbreviation run := (persist_and_finalize st str_of parse_iso isoformat triage_call interfere watch_race clock mono caught).
Abbreviation triage_run := (run_triage st triage_call interfere watch_race clock mono caught).

Lemma run_cases inp w row :
  get (in_queue_id inp) (scan_queue (w_db w)) = Some row -> in_fetch_error inp = None ->
  exists s d1 c, scanned_ok st (clock 0) inp row (w_db w) s d1 /\
    run inp w =
      if triaged_verdict (sr_verdict (s_result s)) then triage_run inp s (mkWorld d1 c (w_rates w))
      else let d4 := bump_rulehits (s_findings s) (interfere 2 d1) in
           mkOutcome [Committed d1; Committed d4] (Some s) None (Some (sr_verdict (s_result s))) false
             (mkWorld d4 c (w_rates w)).
Proof.
  intros Hrow Hf. unfold persist_and_finalize. rewrite Hrow, Hf. cbv zeta.
  pose proof (upsert_frame (clock 0) (in_eco inp) (in_name inp) (in_version inp) (w_db w)) as Hu. cbv zeta in Hu.
  destruct (upsert_package_and_version _ _ _ _ _) as [v d]. cbn [snd] in Hu. destruct Hu as (E1 & E2 & E3 & E4 & E5 & E6).
  unfold open_scan. cbv beta iota zeta delta [insert].
  match goal with |- context [finalize_scan ?a ?b ?c ?d ?e ?f ?g ?h ?i ?j ?k ?l ?m] =>
    pose proof (finalize_scan_spec a b c d e f g h i j k l m) as Hs;
    destruct (finalize_scan a b c d e f g h i j k l m) as [[s d1] c1] end.
  cbv zeta in Hs. cbn [findings scans scan_queue watchlist set_scans persist_findings set_findings] in Hs.
  destruct Hs as (H1 & H2 & H3 & H4 & H5 & H6 & H7). cbn [sc_id] in *.
  exists s, d1, c1. split; [|done]. rewrite ?E1, ?E2, ?E6 in *. split; try done.
  - eexists. exact H4.
  - rewrite H6. unfold complete. destruct (triaged_verdict _); cbn [scan_queue set_scan_queue set_scans]; by rewrite E3.
Qed.

(** What transaction 2 changes: the scan row, and the three promotion tables. *)
Lemma adjudicate_frame inp s tri w :
  let '(final, promote, w2) := adjudicate st caught watch_race (clock 1) mono inp s tri w in
  let rule := sr_verdict (s_result s) in
  let scan := get (s_scan_id s) (scans (w_db w)) in
  final = final_verdict st rule tri (bool_decide (is_Some scan)) /\
  promote = (auto_watchlist_qualifies (st_conf_floor st) rule tri (s_findings s)).1 /\
  scan_queue (w_db w2) = scan_queue (w_db w) /\ findings (w_db w2) = findings (w_db w) /\
  scans (w_db w2) = match scan with
    | Some sc => put (tag_scan final tri (adjudicated_scan st rule tri sc)) (scans (w_db w))
    | None => scans (w_db w)
    end.
Proof.
  unfold adjudicate. cbv beta iota zeta. split_and!; try done; destruct (get _ _);
    destruct (auto_watchlist_qualifies _ _ _ _).1; unfold promote_package; try done;
    destruct (c_watch caught); try destruct (add_confirmed_malicious _ _ _ _ _ _ _ _) as [[? ?] ?];
    destruct (c_scope caught), (c_seed caught); done.
Qed.

End RunFacts.

(** Where the first list ends is passed before anything of the second is reached. *)
Lemma prefix_passed {A} (p l1 l2 : list A) x y :
  p `prefix_of` l1 ++ l2 -> x ∈ p -> x ∉ l1 -> y ∈ l1 -> y ∈ p.
Proof.
  revert p. induction l1 as [|z l1 IH]; intros p Hp Hx Hn Hy; [set_solver|].
  destruct p as [|z' p]; [set_solver|]. pose proof (prefix_cons_inv_1 _ _ _ _ Hp) as ->.
  apply prefix_cons_inv_2 in Hp. apply not_elem_of_cons in Hn as [Hne Hn].
  apply elem_of_cons in Hx as [?|Hx]; [done|]. apply elem_of_cons in Hy as [->|Hy]; [by left|right]. by apply IH.
Qed.

Lemma vault_effects_in st caught inp rule tri e : e ∈ vault_effects st caught inp rule tri -> exists k, e = Vaulted k.
Proof.
  unfold vault_effects. repeat case_match; rewrite ?list_elem_of_singleton, ?elem_of_nil; try done. eauto.
Qed.

Lemma notify_effects_in st rule final tri d : Committed d ∉ notify_effects st rule final tri.
Proof. unfold notify_effects. repeat case_match; rewrite ?list_elem_of_singleton, ?elem_of_nil; intros ?; done. Qed.

Lemma ask_llm_in st call inp s e : e ∈ (ask_llm st call inp s).1 -> e = LlmCalled.
Proof. unfold ask_llm. repeat case_match; simpl; rewrite ?list_elem_of_singleton, ?elem_of_nil; done. Qed.

Lemma alert_decision st rule tri :
  triaged_verdict rule = true -> is_nan (st_conf_floor st) = false ->
  (forall t, tri = Some t -> is_nan (r_confidence t) = false) ->
  should_alert st rule tri = bool_decide (final_verdict st rule tri true = VMalicious).
Proof.
  intros Hr Hfl Hc. unfold should_alert, final_verdict, llm_confident_mal, llm_cleared, llm_mal, llm_says, override.
  destruct tri as [t|]; [|by destruct rule].
  rewrite (float_lt_ge _ _ (Hc t eq_refl) Hfl).
  destruct rule; try done; destruct (r_verdict t); try done; by destruct (float_ge _ _).
Qed.

Lemma inconclusive_quiet st rule tri :
  triaged_verdict rule = true -> final_verdict st rule tri true = VInconclusive -> should_alert st rule tri = false.
Proof.
  unfold should_alert, final_verdict, llm_confident_mal, llm_cleared, llm_mal, llm_says, override.
  destruct tri as [t|]; destruct rule; try done; destruct (r_verdict t); try done; cbn; by destruct (float_lt _ _).
Qed.

Lemma untriaged_clean st now inp row d0 s d1 :
  scanned_ok st now inp row d0 s d1 -> triaged_verdict (sr_verdict (s_result s)) = false -> sr_verdict (s_result s) = VClean.
Proof.
  intros Hok Ht. rewrite (so_result _ _ _ _ _ _ _ Hok) in *.
  match goal with |- sr_verdict (score_and_verdict ?a ?b ?c) = _ => pose proof (verdict_trichotomy a b c) as Hv end.
  rewrite !elem_of_cons, elem_of_nil in Hv. destruct Hv as [?|[E|[E|?]]]; [done|by rewrite E in Ht..|done].
Qed.

Lemma qualified_verdict st rule tri fs :
  is_nan (st_conf_floor st) = false -> (auto_watchlist_qualifies (st_conf_floor st) rule tri fs).1 = true ->
  exists t, tri = Some t /\ override st rule t = Some VMalicious /\ should_alert st rule tri = true.
Proof.
  intros Hfl. unfold auto_watchlist_qualifies. destruct tri as [t|]; [|done].
  destruct (decide (r_verdict t = VMalicious)) as [Hm|Hm]; [rewrite bool_decide_true by done|by rewrite bool_decide_false by done].
  cbn [negb]. destruct (_ && _); [done|]. cbv zeta. set (conf := if float_truthy _ then _ else _).
  destruct (float_lt conf _) eqn:El; [done|]. intros H. exists t. split; [done|].
  unfold should_alert, llm_cleared, llm_confident_mal, llm_mal, llm_says, override. rewrite Hm.
  destruct (decide (rule = VMalicious)) as [->|Hr].
  { rewrite bool_decide_true, andb_false_r by done. done. }
  rewrite (bool_decide_false (rule = VMalicious)) in * by done. cbn [orb] in H.
  destruct (float_ge conf f_0_80) eqn:Eg; [|done]. unfold conf in *.
  destruct (float_truthy (r_confidence t)); [|by vm_compute in Eg].
  destruct (float_ge_not_nan _ _ Eg) as [Hn _]. rewrite (float_lt_ge _ _ Hn Hfl), negb_false_iff in El.
  rewrite (float_lt_ge _ _ Hn Hfl), El. done.
Qed.

(** What a triage-bound run sends, in terms of its adjudicated verdict. *)
Lemma notify_spec st rule final tri :
  (forall t, Alerted t ∈ notify_effects st rule final tri -> should_alert st rule tri && st_discord st = true) /\
  (should_alert st rule tri && st_discord st = true -> Alerted (default UNVERIFIED tri) ∈ notify_effects st rule final tri) /\
  (ReviewAsked ∈ notify_effects st rule final tri <->
    should_alert st rule tri && st_discord st = false /\ final = VInconclusive /\ st_discord st = true).
Proof.
  unfold notify_effects. destruct (should_alert st rule tri && st_discord st).
  - split_and!; [done|set_solver|]. rewrite list_elem_of_singleton. naive_solver.
  - destruct (decide (final = VInconclusive)); [rewrite bool_decide_true by done|rewrite bool_decide_false by done];
      destruct (st_discord st); cbn [andb]; (split_and!; [intros t; rewrite ?list_elem_of_singleton, ?elem_of_nil; done|done|]);
      rewrite ?list_elem_of_singleton, ?elem_of_nil; naive_solver.
Qed.

(** Other workers leave the queue row, the scan and its findings alone. *)
Definition quiet (qid sid : Z) (interfere : nat -> db -> db) : Prop :=
  forall k d,
    (table_wf (scans d) -> table_wf (scans (interfere k d))) /\
    (table_wf (scan_queue d) -> table_wf (scan_queue (interfere k d))) /\
    get qid (scan_queue (interfere k d)) = get qid (scan_queue d) /\
    get sid (scans (interfere k d)) = get sid (scans d) /\
    findings_of sid (interfere k d) = findings_of sid d.

Lemma complete_spec now inp d row :
  table_wf (scan_queue d) -> get (in_queue_id inp) (scan_queue d) = Some row ->
  exists r, get (in_queue_id inp) (scan_queue (complete now (in_token inp) row d)) = Some r /\
    if token_refused (in_token inp) row then r = row else jstatus r = Done /\ claim_token r = claim_token row.
Proof.
  intros Hwf Hg. unfold complete, ScanQueue.mark_done, job_mark_done. cbn [scan_queue set_scan_queue].
  destruct (token_refused (in_token inp) row); [by eauto|].
  exists (set_finished (Some now) (set_status Done row)). split; [|done].
  eapply get_put; [done| |done]. by apply get_in in Hg as [_ ?].
Qed.

Lemma finish_row_spec now inp d row :
  table_wf (scan_queue d) -> get (in_queue_id inp) (scan_queue d) = Some row ->
  let d' := finish_row now inp d in
  scans d' = scans d /\ findings d' = findings d /\
  exists r, get (in_queue_id inp) (scan_queue d') = Some r /\
    if token_refused (in_token inp) row then r = row else jstatus r = Done /\ claim_token r = claim_token row.
Proof.
  intros Hwf Hg d'. unfold d', finish_row. rewrite Hg. split; [done|]. split; [done|]. by apply complete_spec.
Qed.

Lemma tag_scan_id f tri sc : sc_id (tag_scan f tri sc) = sc_id sc.
Proof. unfold tag_scan. by repeat case_match. Qed.
Lemma tag_scan_verdict f tri sc : sc_verdict (tag_scan f tri sc) = sc_verdict sc.
Proof. unfold tag_scan. by repeat case_match. Qed.
Lemma tag_scan_score f tri sc : sc_score (tag_scan f tri sc) = sc_score sc.
Proof. unfold tag_scan. by repeat case_match. Qed.
Lemma adjudicated_scan_id st v tri sc : sc_id (adjudicated_scan st v tri sc) = sc_id sc.
Proof. by destruct tri. Qed.

Lemma unfetched_frame st now inp kind err row sc d :
  let d' := finalize_unfetched st now inp kind err row sc d in
  exists rank,
    scans d' = put (scored_scan now (score_and_verdict (st_pack st) (in_findings inp) rank) sc) (scans d) /\
    findings d' = insert_all (fun f i => mkFindingRow i (sc_id sc) f) (map stored_finding (in_findings inp)) (findings d) /\
    detonation_queue d' = detonation_queue d /\
    scan_queue d' = if String.eqb kind "no_files" then (ScanQueue.mark_failed now row err (in_token inp) (scan_queue d)).2
                    else scan_queue (complete now (in_token inp) row d).
Proof.
  intros d'. unfold d', finalize_unfetched. exists (is_watchlist (in_name inp) (in_eco inp) (watchlist d)).
  by destruct (String.eqb kind "no_files").
Qed.

(** The queue row over a run that has nothing fetched. *)
Lemma run_unfetched_queue st str_of parse_iso isoformat triage_call interfere watch_race clock mono caught inp w row kind err :
  get (in_queue_id inp) (scan_queue (w_db w)) = Some row -> in_fetch_error inp = Some (kind, err) ->
  exists d bumped,
    persist_and_finalize st str_of parse_iso isoformat triage_call interfere watch_race clock mono caught inp w =
      mkOutcome [Committed bumped; Committed d] None None None false (set_db d w) /\
    scan_queue bumped = scan_queue (w_db w) /\
    scan_queue d = if String.eqb kind "no_files" then (ScanQueue.mark_failed (clock 0%nat) row err (in_token inp) (scan_queue (w_db w))).2
                   else scan_queue (complete (clock 0%nat) (in_token inp) row (w_db w)).
Proof.
  intros Hrow Hf. unfold persist_and_finalize. rewrite Hrow, Hf. cbv zeta.
  pose proof (upsert_frame (clock 0%nat) (in_eco inp) (in_name inp) (in_version inp) (w_db w)) as Hu. cbv zeta in Hu.
  destruct (upsert_package_and_version _ _ _ _ _) as [v d]. cbn [snd] in Hu. destruct Hu as (_ & _ & E3 & _).
  unfold open_scan. cbv beta iota zeta delta [insert]. unfold run_unfetched. eexists _, _. split; [done|]. split; [done|].
  match goal with |- context [finalize_unfetched ?a ?b ?c ?d ?e ?f ?g ?h] =>
    destruct (unfetched_frame a b c d e f g h) as (rank & _ & _ & _ & F4) end.
  cbn [scan_queue set_rule_hits]. rewrite F4. cbn [scan_queue set_scans]. rewrite E3. destruct (String.eqb kind "no_files"); [done|].
  unfold complete. cbn [scan_queue set_scan_queue set_scans]. by rewrite E3.
Qed.

(** ** Properties *)

Section Properties.
Variable st : Settings.
Variable str_of : json -> string.
Variable parse_iso : string -> option timestamp.
Variable isoformat : timestamp -> string.
Variable triage_call : verdict -> list Finding -> triage_out.
Variable interfere : nat -> db -> db.
Variable watch_race : wtable -> wtable.
Variable clock : nat -> timestamp.
Variable mono : timestamp.
Variable caught : Caught.

(** C1. Fail-open, at every crash point.  With Discord configured and no other session
    touching the claimed queue row, wherever the run is cut off: if the row can be seen
    completed, then [send_alert] has already been called for the package; or the rules did not
    convict it; or the model answered benign or suspicious; or nothing was fetched because the
    archive failed its integrity check (such a run convicts the package and marks the row done
    without any alert).  Whether Discord accepted the message is not looked at. *)
Theorem alert_before_done inp w row :
  get (in_queue_id inp) (scan_queue (w_db w)) = Some row -> jstatus row <> Done ->
  (forall k d, get (in_queue_id inp) (scan_queue (interfere k d)) = get (in_queue_id inp) (scan_queue d)) ->
  st_discord st = true ->
  let o := persist_and_finalize st str_of parse_iso isoformat triage_call interfere watch_race clock mono caught inp w in
  forall p d r, p `prefix_of` o_effects o -> Committed d ∈ p ->
    get (in_queue_id inp) (scan_queue d) = Some r -> jstatus r = Done ->
  (exists t, Alerted t ∈ p) \/
  (exists s, o_scanned o = Some s /\ sr_verdict (s_result s) <> VMalicious) \/
  (exists t, o_tri o = Some t /\ r_verdict t ∈ [VBenign; VSuspicious]) \/
  (exists kind err, in_fetch_error inp = Some (kind, err) /\ kind <> "no_files").
Proof.
  intros Hrow Hst Hquiet Hd o. unfold o. clear o.
  destruct (in_fetch_error inp) as [[kind err]|] eqn:Hf.
  { intros p d r Hp Hin Hget Hdone. right. right. right. exists kind, err. split; [done|]. intros ->.
    eapply elem_of_prefix in Hin; [|exact Hp]. revert Hin.
    destruct (run_unfetched_queue st str_of parse_iso isoformat triage_call interfere watch_race clock mono caught inp w row _ err Hrow Hf)
      as (d0 & bumped & -> & Hb & Hd0). cbn [o_effects]. rewrite !elem_of_cons, elem_of_nil.
    intros [[= ->]|[[= ->]|[]]]; [rewrite Hb in Hget; congruence|]. rewrite Hd0 in Hget. cbn [String.eqb Ascii.eqb Bool.eqb] in Hget.
    unfold ScanQueue.mark_failed, job_mark_failed in Hget. destruct (token_refused (in_token inp) row); cbn [snd] in Hget; [congruence|].
    unfold put in Hget. rewrite get_update, Hrow in Hget by (intros ? _ ->%Z.eqb_eq; done).
    cbn [fmap option_fmap option_map] in Hget. rewrite Z.eqb_refl in Hget. by injection Hget as <-. }
  destruct (run_cases st str_of parse_iso isoformat triage_call interfere watch_race clock mono caught inp w row Hrow Hf)
    as (s & d1 & c & Hok & ->).
  destruct (decide (sr_verdict (s_result s) = VMalicious)) as [Hm|Hm].
  2: { intros p d r _ _ _ _. right. left. exists s. split; [|done].
    destruct (triaged_verdict _); [|done]. unfold run_triage. destruct (ask_llm _ _ _ _). by destruct (adjudicate _ _ _ _ _ _ _ _ _) as [[]]. }
  destruct (triaged_verdict (sr_verdict (s_result s))) eqn:Et; [|by rewrite Hm in Et].
  unfold run_triage. destruct (ask_llm st triage_call inp s) as [calls tri] eqn:Ea.
  match goal with |- context [adjudicate _ _ _ _ _ _ _ _ ?w1] =>
    pose proof (adjudicate_frame st watch_race clock mono caught inp s tri w1) as Hadj;
    destruct (adjudicate _ _ _ _ _ _ _ _ w1) as [[final promote] w2] end.
  destruct Hadj as (-> & -> & Hq & _ & _). cbn [o_scanned o_tri o_effects w_db set_db] in *.
  intros p d r Hp Hin Hget Hdone.
  destruct (decide (llm_cleared tri = true)) as [Hclear|Hclear].
  { right. right. left. unfold llm_cleared, llm_says in Hclear. destruct tri as [t|]; [|done]. exists t. split; [done|].
    by apply bool_decide_eq_true in Hclear. }
  left. apply not_true_is_false in Hclear.
  assert (notify_effects st (sr_verdict (s_result s)) (final_verdict st (sr_verdict (s_result s)) tri
    (bool_decide (is_Some (get (s_scan_id s) (scans (interfere 0 d1)))))) tri = [Alerted (default UNVERIFIED tri)]) as Hn.
  { unfold notify_effects, should_alert. rewrite Hm, Hd, bool_decide_true by done.
    by rewrite Hclear. }
  rewrite Hn in Hp. clear Hn.
  set (pre := Committed d1 :: calls ++ [Committed (w_db w2)] ++ vault_effects st caught inp (sr_verdict (s_result s)) tri ++ [Alerted (default UNVERIFIED tri)]).
  exists (default UNVERIFIED tri).
  apply (prefix_passed p pre ([Committed (finish_row (clock 2) inp (interfere 1 (w_db w2)))] ++
    (if (auto_watchlist_qualifies (st_conf_floor st) (sr_verdict (s_result s)) tri (s_findings s)).1 && negb (c_sweep caught) then [Swept] else []) ++
    [Committed (bump_rulehits (s_findings s) (interfere 2 (finish_row (clock 2) inp (interfere 1 (w_db w2)))))]) (Committed d)).
  - unfold pre. simpl. rewrite <- !app_assoc in *. simpl. rewrite <- !app_assoc. done.
  - done.
  - assert (scan_queue d1 = scan_queue (w_db w)) as Hq1.
    { rewrite (so_queue _ _ _ _ _ _ _ Hok). by rewrite Et. }
    unfold pre. rewrite elem_of_cons, !elem_of_app, !list_elem_of_singleton.
    intros [[= ->]|[Hc|[[= ->]|[Hv|?]]]]; [| | | |done].
    + rewrite Hq1, Hrow in Hget. congruence.
    + pose proof (ask_llm_in st triage_call inp s) as Hi. rewrite Ea in Hi. by apply Hi in Hc.
    + rewrite Hq, Hquiet, Hq1, Hrow in Hget. congruence.
    + by apply vault_effects_in in Hv as [k Hk].
  - unfold pre. rewrite elem_of_cons, !elem_of_app, !list_elem_of_singleton. tauto.
Qed.

(** C9. Who is alerted, and who is asked to look.  With alerting on, for numeric confidences, a
    fetched package raises the alarm exactly when its adjudicated verdict is malicious, and asks
    for a human review exactly when it is inconclusive; every other run is silent. *)
Theorem alert_iff_malicious inp w row :
  get (in_queue_id inp) (scan_queue (w_db w)) = Some row -> in_fetch_error inp = None -> scans_fresh (w_db w) ->
  (forall d i, is_Some (get i (scans d)) -> is_Some (get i (scans (interfere 0 d)))) ->
  is_nan (st_conf_floor st) = false ->
  (forall v fs t, triage_call v fs = Triaged t -> is_nan (r_confidence t) = false) ->
  st_discord st = true ->
  let o := persist_and_finalize st str_of parse_iso isoformat triage_call interfere watch_race clock mono caught inp w in
  ((exists t, Alerted t ∈ o_effects o) <-> o_final o = Some VMalicious) /\
  (ReviewAsked ∈ o_effects o <-> o_final o = Some VInconclusive).
Proof.
  intros Hrow Hf Hfresh Hkeep Hfl Hconf Hd o. unfold o. clear o.
  destruct (run_cases st str_of parse_iso isoformat triage_call interfere watch_race clock mono caught inp w row Hrow Hf)
    as (s & d1 & c & Hok & ->).
  destruct (so_scan _ _ _ _ _ _ _ Hfresh Hok) as (vid & Hget & _).
  destruct (triaged_verdict (sr_verdict (s_result s))) eqn:Et; cbn [o_final o_effects].
  2: { rewrite (untriaged_clean _ _ _ _ _ _ _ Hok Et). split; (split; [|done]).
    - intros [t Ht]. rewrite !elem_of_cons, elem_of_nil in Ht. naive_solver.
    - rewrite !elem_of_cons, elem_of_nil. naive_solver. }
  unfold run_triage. destruct (ask_llm st triage_call inp s) as [calls tri] eqn:Ea.
  match goal with |- context [adjudicate _ _ _ _ _ _ _ _ ?w1] =>
    pose proof (adjudicate_frame st watch_race clock mono caught inp s tri w1) as Hadj;
    destruct (adjudicate _ _ _ _ _ _ _ _ w1) as [[final promote] w2] end.
  destruct Hadj as (Ef & _). cbn [o_final o_effects w_db set_db] in *.
  assert (final = final_verdict st (sr_verdict (s_result s)) tri true) as ->.
  { rewrite Ef, bool_decide_true; [done|]. apply Hkeep. rewrite (so_id _ _ _ _ _ _ _ Hok), Hget. by eexists. }
  pose proof (alert_decision st (sr_verdict (s_result s)) tri Et Hfl) as Hdec.
  specialize (Hdec ltac:(intros t ->; unfold ask_llm in Ea; repeat case_match; simplify_eq; eauto)).
  destruct (notify_spec st (sr_verdict (s_result s)) (final_verdict st (sr_verdict (s_result s)) tri true) tri) as (H1 & H2 & H3).
  rewrite Hd, andb_true_r, Hdec in *.
  assert (forall e, (forall d, e <> Committed d) -> e <> LlmCalled -> (forall k, e <> Vaulted k) -> e <> Swept ->
    forall d3 d4 (b : bool) l, e ∈ Committed d1 :: calls ++ [Committed (w_db w2)] ++ vault_effects st caught inp (sr_verdict (s_result s)) tri ++
      l ++ [Committed d3] ++ (if b then [Swept] else []) ++ [Committed d4] <-> e ∈ l) as Hin.
  { intros e Hc Hl Hv Hs d3 d4 b l. rewrite elem_of_cons, !elem_of_app, !list_elem_of_singleton. split; [|tauto].
    pose proof (ask_llm_in st triage_call inp s e) as Hi. rewrite Ea in Hi.
    pose proof (vault_effects_in st caught inp (sr_verdict (s_result s)) tri e) as Hve.
    intros [E|[E|[E|[E|[E|[E|[E|E]]]]]]]; try done; [by apply Hc in E|by apply Hi, Hl in E|by apply Hc in E| |by apply Hc in E| |by apply Hc in E].
    - apply Hve in E as [k E]. by apply Hv in E.
    - destruct b; [apply list_elem_of_singleton in E; by apply Hs in E|by apply elem_of_nil in E]. }
  rewrite (Hin ReviewAsked) by done. split.
  - split.
    + intros [t Ht]. rewrite (Hin (Alerted t)) in Ht by done. apply H1, bool_decide_eq_true in Ht. by f_equal.
    + intros [= E]. exists (default UNVERIFIED tri). apply Hin; [done..|]. apply H2. by apply bool_decide_eq_true.
  - rewrite H3. split; [intros (_ & -> & _); done|]. intros [= E]. split_and!; [|done|done].
    rewrite E. done.
Qed.

(** Promotion never outruns conviction.  When a package is promoted to the automatic watchlist
    its adjudicated verdict is malicious and, with alerting on, the alert is sent, even for a
    confidence that is not a number. *)
Theorem promotion_alerts inp w row :
  get (in_queue_id inp) (scan_queue (w_db w)) = Some row -> in_fetch_error inp = None -> scans_fresh (w_db w) ->
  (forall d i, is_Some (get i (scans d)) -> is_Some (get i (scans (interfere 0 d)))) ->
  is_nan (st_conf_floor st) = false -> st_discord st = true ->
  let o := persist_and_finalize st str_of parse_iso isoformat triage_call interfere watch_race clock mono caught inp w in
  o_promoted o = true -> o_final o = Some VMalicious /\ exists t, o_tri o = Some t /\ Alerted t ∈ o_effects o.
Proof.
  intros Hrow Hf Hfresh Hkeep Hfl Hd o. unfold o. clear o.
  destruct (run_cases st str_of parse_iso isoformat triage_call interfere watch_race clock mono caught inp w row Hrow Hf)
    as (s & d1 & c & Hok & ->).
  destruct (so_scan _ _ _ _ _ _ _ Hfresh Hok) as (vid & Hget & _).
  destruct (triaged_verdict (sr_verdict (s_result s))) eqn:Et; [|done].
  unfold run_triage. destruct (ask_llm st triage_call inp s) as [calls tri] eqn:Ea.
  match goal with |- context [adjudicate _ _ _ _ _ _ _ _ ?w1] =>
    pose proof (adjudicate_frame st watch_race clock mono caught inp s tri w1) as Hadj;
    destruct (adjudicate _ _ _ _ _ _ _ _ w1) as [[final promote] w2] end.
  destruct Hadj as (Ef & Ep & _). cbn [o_final o_effects o_promoted o_tri w_db set_db] in *. intros ->.
  destruct (qualified_verdict st _ tri (s_findings s) Hfl (eq_sym Ep)) as (t & -> & Hov & Hsa).
  rewrite bool_decide_true in Ef by (apply Hkeep; rewrite (so_id _ _ _ _ _ _ _ Hok), Hget; by eexists).
  cbn [final_verdict] in Ef. rewrite Hov in Ef. split; [by rewrite Ef|]. exists t. split; [done|].
  rewrite elem_of_cons, !elem_of_app. right. right. right. right. left.
  apply (proj1 (proj2 (notify_spec st (sr_verdict (s_result s)) final (Some t)))). by rewrite Hsa, Hd.
Qed.

(** C10. What a complete run records.  If no one else touches this scan's rows, the scan ends with
    the adjudicated verdict and the score of exactly the findings stored under it, which include
    those of the analyzers, in order; and the queue row is done, unless the caller's claim was
    taken over in the meantime, in which case the row is left as it was. *)
Theorem scan_recorded inp w row :
  get (in_queue_id inp) (scan_queue (w_db w)) = Some row -> in_fetch_error inp = None -> scans_fresh (w_db w) ->
  table_wf (scan_queue (w_db w)) -> quiet (in_queue_id inp) (seq (scans (w_db w))) interfere ->
  let o := persist_and_finalize st str_of parse_iso isoformat triage_call interfere watch_race clock mono caught inp w in
  let d := w_db (o_world o) in
  exists s sc r rank,
    o_scanned o = Some s /\ s_result s = score_and_verdict (st_pack st) (s_findings s) rank /\
    (exists more, s_findings s = in_findings inp ++ more) /\
    get (seq (scans (w_db w))) (scans d) = Some sc /\ o_final o = Some (sc_verdict sc) /\ sc_score sc = score (s_result s) /\
    findings_of (seq (scans (w_db w))) d = map stored_finding (s_findings s) /\
    get (in_queue_id inp) (scan_queue d) = Some r /\
    (if token_refused (in_token inp) row then r = row else jstatus r = Done /\ claim_token r = claim_token row).
Proof.
  intros Hrow Hf Hfresh Hwq Hquiet o. unfold o. clear o.
  destruct (run_cases st str_of parse_iso isoformat triage_call interfere watch_race clock mono caught inp w row Hrow Hf)
    as (s & d1 & c & Hok & ->).
  destruct (so_scan _ _ _ _ _ _ _ Hfresh Hok) as (vid & Hget & Hwf).
  pose proof (so_stored _ _ _ _ _ _ _ Hfresh Hok) as Hst.
  pose proof (so_queue _ _ _ _ _ _ _ Hok) as Hq. pose proof (so_result _ _ _ _ _ _ _ Hok) as Hr.
  exists s. destruct (triaged_verdict (sr_verdict (s_result s))) eqn:Et; cbv beta iota zeta.
  - unfold run_triage. destruct (ask_llm st triage_call inp s) as [calls tri] eqn:Ea.
    match goal with |- context [adjudicate _ _ _ _ _ _ _ _ ?w1] =>
      pose proof (adjudicate_frame st watch_race clock mono caught inp s tri w1) as Hadj;
      destruct (adjudicate _ _ _ _ _ _ _ _ w1) as [[final promote] w2] end.
    cbn [w_db set_db] in Hadj. rewrite (so_id _ _ _ _ _ _ _ Hok) in Hadj.
    destruct (Hquiet 0%nat d1) as (Q1 & Q2 & Q3 & Q4 & Q5). rewrite Q4, Hget in Hadj. destruct Hadj as (Ef & _ & Eq & Efi & Es).
    rewrite bool_decide_true in Ef by by eexists.
    assert (table_wf (scans (w_db w2))) as Hwf2 by (rewrite Es; apply table_wf_put; auto).
    assert (findings_of (seq (scans (w_db w))) (w_db w2) = map stored_finding (s_findings s)) as Hst2
      by (unfold findings_of; rewrite Efi; unfold findings_of in Q5; by rewrite Q5).
    assert (get (in_queue_id inp) (scan_queue (w_db w2)) = Some row) as Hrow2 by by rewrite Eq, Q3, Hq, Hrow.
    destruct (Hquiet 1%nat (w_db w2)) as (R1 & R2 & R3 & R4 & R5).
    destruct (finish_row_spec (clock 2) inp (interfere 1 (w_db w2)) row) as (F1 & F2 & r & F3 & F4);
      [rewrite Eq in R2; apply R2, Q2; by rewrite Hq|by rewrite R3|].
    destruct (Hquiet 2%nat (finish_row (clock 2) inp (interfere 1 (w_db w2)))) as (S1 & S2 & S3 & S4 & S5).
    cbn [o_scanned o_final o_world w_db set_db bump_rulehits set_rule_hits scans scan_queue].
    eexists _, r, _. split_and!; [done|exact Hr|by eapply so_more| | | | |by rewrite S3|done].
    + rewrite S4, F1, R4, Es. eapply get_put; [by apply Q1| |by rewrite Q4]. by rewrite tag_scan_id, adjudicated_scan_id.
    + f_equal. rewrite Ef, tag_scan_verdict. by destruct tri.
    + rewrite tag_scan_score. by destruct tri.
    + unfold findings_of in *. cbn [findings set_rule_hits bump_rulehits]. by rewrite S5, F2, R5.
  - destruct (Hquiet 2%nat d1) as (Q1 & Q2 & Q3 & Q4 & Q5).
    destruct (complete_spec (clock 0) inp (w_db w) row Hwq Hrow) as (r & F3 & F4).
    cbn [o_scanned o_final o_world w_db set_db bump_rulehits set_rule_hits scans scan_queue].
    eexists _, r, _. split_and!; [done|exact Hr|by eapply so_more|by rewrite Q4|done|done| |by rewrite Q3, Hq|done].
    unfold findings_of in *. cbn [findings set_rule_hits bump_rulehits]. by rewrite Q5.
Qed.

(** A package that could not be fetched.  Its scan records the rule verdict over the fetch
    finding alone; the model is not asked, nothing is alerted, vaulted or queued for detonation,
    whatever the verdict; the queue row fails with the error when the release has no files and is
    done otherwise, unless the claim was taken over. *)
Theorem unfetched_outcome inp w row kind err :
  get (in_queue_id inp) (scan_queue (w_db w)) = Some row -> in_fetch_error inp = Some (kind, err) ->
  scans_fresh (w_db w) -> table_wf (scan_queue (w_db w)) ->
  let o := persist_and_finalize st str_of parse_iso isoformat triage_call interfere watch_race clock mono caught inp w in
  let d := w_db (o_world o) in
  let sid := seq (scans (w_db w)) in
  (forall e, e ∈ o_effects o -> exists d', e = Committed d') /\
  detonation_queue d = detonation_queue (w_db w) /\
  findings_of sid d = map stored_finding (in_findings inp) /\
  (exists sc rank, get sid (scans d) = Some sc /\
     sc_verdict sc = sr_verdict (score_and_verdict (st_pack st) (in_findings inp) rank)) /\
  (exists r, get (in_queue_id inp) (scan_queue d) = Some r /\
     (if token_refused (in_token inp) row then r = row
      else if String.eqb kind "no_files" then jstatus r = Failed /\ last_error r <> None else jstatus r = Done)).
Proof.
  intros Hrow Hf [Hwf Hfk] Hwq o. unfold o, persist_and_finalize. rewrite Hrow, Hf. clear o. cbv zeta.
  pose proof (upsert_frame (clock 0) (in_eco inp) (in_name inp) (in_version inp) (w_db w)) as Hu. cbv zeta in Hu.
  destruct (upsert_package_and_version _ _ _ _ _) as [v d]. cbn [snd] in Hu. destruct Hu as (E1 & E2 & E3 & E4 & _ & _).
  unfold open_scan. cbv beta iota zeta delta [insert].
  destruct (unfetched_frame st (clock 0) inp kind err row
    (mkScan (seq (scans d)) (v_id v) (in_started_at inp) None VClean 0 None None)
    (set_scans (Table (rows (scans d) ++ [mkScan (seq (scans d)) (v_id v) (in_started_at inp) None VClean 0 None None]) (seq (scans d) + 1)) d))
    as (rank & F1 & F2 & F3 & F4).
  unfold run_unfetched. cbn [o_effects o_world w_db set_db scans scan_queue detonation_queue set_rule_hits].
  cbn [scans findings scan_queue detonation_queue set_scans] in *. rewrite E1 in *. split_and!.
  - intros e. rewrite !elem_of_cons, elem_of_nil. naive_solver.
  - by rewrite F3, E4.
  - unfold findings_of. cbn [findings set_rule_hits]. rewrite F2, E2. rewrite (insert_all_select _ _ fr_finding); [|intros; apply Z.eqb_refl|done].
    replace (select _ (findings (w_db w))) with (@nil FindingRow); [done|]. symmetry. apply select_nil.
    intros r Hr%Hfk. apply Z.eqb_neq. cbn [sc_id]. lia.
  - eexists (scored_scan (clock 0) (score_and_verdict _ _ _) (mkScan _ (v_id v) _ _ _ _ _ _)), rank. rewrite F1. split; [|done].
    eapply (get_put _ _ (mkScan (seq (scans (w_db w))) (v_id v) (in_started_at inp) None VClean 0 None None));
      [exact (table_wf_insert (fun i => mkScan i (v_id v) (in_started_at inp) None VClean 0 None None) _ (fun _ => eq_refl) Hwf)|done|].
    exact (get_insert (fun i => mkScan i (v_id v) (in_started_at inp) None VClean 0 None None) _ Hwf ltac:(done)).
  - apply get_in in Hrow as Hr. destruct Hr as [_ Hid]. rewrite F4. clear F1 F2 F3 F4.
    unfold complete, ScanQueue.mark_done, ScanQueue.mark_failed, job_mark_done, job_mark_failed.
    destruct (String.eqb kind "no_files"), (token_refused (in_token inp) row); cbn [scan_queue set_scan_queue set_scans snd];
      rewrite E3; try (exists row; done); eexists; (split; [eapply get_put; [done|exact Hid|exact Hrow]|]); done.
Qed.

End Properties.

(** ** A concrete run *)

Definition ex_settings : Settings :=
  mkSettings ex_empty_pack ∅ ex_nocaps default_auto None true 300 7 f_0_7 10 f_one false (Some "1") true true true.

Definition ex_row : job unit := Job 1 "npm" "evil" "1.0" tt PNormal Claimed 1 (Some "tok") None 0 (Some 5) None.
Definition ex_world : world := mkWorld (set_scan_queue (Table [ex_row] 2) empty_db) [] [].

Definition ex_finding (s : severity) : Finding := mkFinding "secret_access.npmrc" "secret_access" s CHigh "a.js" None "reads .npmrc".
Definition ex_input (s : severity) (err : option (string * string)) : Input :=
  mkInput 1 (Some "tok") "npm" "evil" "1.0" 3 [] [mkArchive "/tmp/evil.tgz" "npm_tarball" "abc"] [ex_finding s] [] err [] [].

Definition ex_says (v : verdict) (conf : double) (_ : verdict) (_ : list Finding) : triage_out :=
  Triaged (mkResult v conf "because" "" [] None 10 10 0%Q).

Definition ex_run (call : verdict -> list Finding -> triage_out) (inp : Input) : outcome :=
  persist_and_finalize ex_settings (fun _ => "") (fun _ => None) (fun _ => "") call (fun _ d => d) (fun t => t)
    (fun k => Z.of_nat k) 0 no_raise inp ex_world.

Lemma ex_fresh : scans_fresh (w_db ex_world).
Proof. split; [apply table_wf_empty|]. intros r Hr. by apply elem_of_nil in Hr. Qed.

Lemma ex_quiet qid sid : quiet qid sid (fun _ d => d).
Proof. by intros k d. Qed.

Lemma alert_before_done_witness :
  let o := ex_run (fun _ _ => TriageRaised "ConnectTimeout") (ex_input SCritical None) in
  exists t, Alerted t ∈ o_effects o.
Proof.
  destruct (alert_before_done ex_settings (fun _ => "") (fun _ => None) (fun _ => "") (fun _ _ => TriageRaised "ConnectTimeout")
    (fun _ d => d) (fun t => t) (fun k => Z.of_nat k) 0 no_raise (ex_input SCritical None) ex_world ex_row
    eq_refl (fun E => eq_ind Claimed (fun s => match s with Claimed => True | _ => False end) I _ E) (fun _ _ => eq_refl) eq_refl
    (o_effects (ex_run (fun _ _ => TriageRaised "ConnectTimeout") (ex_input SCritical None)))
    (w_db (o_world (ex_run (fun _ _ => TriageRaised "ConnectTimeout") (ex_input SCritical None))))
    (set_finished (Some 2) (set_status Done ex_row)))
    as [H|[(s & Hs & Hn)|[(t & Ht & Hv)|(k & e & Hf & _)]]].
  - reflexivity.
  - apply list_elem_of_lookup. exists 6%nat. vm_compute. reflexivity.
  - vm_compute. reflexivity.
  - reflexivity.
  - exact H.
  - exfalso. apply Hn. vm_compute in Hs. injection Hs as <-. reflexivity.
  - vm_compute in Ht. discriminate.
  - discriminate.
Defined.

Lemma ex_says_numeric v conf r fs t : is_nan conf = false -> ex_says v conf r fs = Triaged t -> is_nan (r_confidence t) = false.
Proof. by intros H [= <-]. Qed.

Lemma alert_iff_malicious_witness :
  let o := ex_run (ex_says VInconclusive f_0_7) (ex_input SHigh None) in
  ReviewAsked ∈ o_effects o /\ ~ exists t, Alerted t ∈ o_effects o.
Proof.
  destruct (alert_iff_malicious ex_settings (fun _ => "") (fun _ => None) (fun _ => "") (ex_says VInconclusive f_0_7)
    (fun _ d => d) (fun t => t) (fun k => Z.of_nat k) 0 no_raise (ex_input SHigh None) ex_world ex_row
    eq_refl eq_refl ex_fresh (fun d i H => H) eq_refl (fun v fs t => ex_says_numeric VInconclusive f_0_7 v fs t eq_refl) eq_refl)
    as [Ha Hr].
  match type of Hr with _ <-> ?x = _ => assert (x = Some VInconclusive) as E by (vm_compute; reflexivity) end.
  rewrite E in *. unfold ex_run. split; [exact (proj2 Hr eq_refl)|]. intros H. discriminate (proj1 Ha H).
Defined.

Lemma promotion_alerts_witness :
  let o := ex_run (ex_says VMalicious f_one) (ex_input SHigh None) in
  o_promoted o = true /\ exists t, o_tri o = Some t /\ Alerted t ∈ o_effects o.
Proof.
  unfold ex_run. match goal with |- o_promoted ?x = true /\ _ => assert (o_promoted x = true) as Hp by (vm_compute; reflexivity) end.
  split; [exact Hp|].
  exact (proj2 (promotion_alerts ex_settings (fun _ => "") (fun _ => None) (fun _ => "") (ex_says VMalicious f_one)
    (fun _ d => d) (fun t => t) (fun k => Z.of_nat k) 0 no_raise (ex_input SHigh None) ex_world ex_row
    eq_refl eq_refl ex_fresh (fun d i H => H) eq_refl eq_refl Hp)).
Defined.

Lemma ex_queue_wf : table_wf (scan_queue (w_db ex_world)).
Proof.
  split; [apply NoDup_singleton|by repeat constructor].
Qed.

Lemma scan_recorded_witness :
  let d := w_db (o_world (ex_run (ex_says VSuspicious f_0_7) (ex_input SCritical None))) in
  exists r, get 1 (scan_queue d) = Some r /\ jstatus r = Done.
Proof.
  unfold ex_run.
  destruct (scan_recorded ex_settings (fun _ => "") (fun _ => None) (fun _ => "") (ex_says VSuspicious f_0_7)
    (fun _ d => d) (fun t => t) (fun k => Z.of_nat k) 0 no_raise (ex_input SCritical None) ex_world ex_row
    eq_refl eq_refl ex_fresh ex_queue_wf (ex_quiet _ _))
    as (s & sc & r & rank & _ & _ & _ & _ & _ & _ & _ & Hg & [Hd _]).
  exists r. split; [exact Hg|exact Hd].
Defined.

Lemma unfetched_outcome_witness :
  let o := ex_run (ex_says VMalicious f_one) (ex_input SCritical (Some ("sha256_mismatch", "got abc"))) in
  exists r, get 1 (scan_queue (w_db (o_world o))) = Some r /\ jstatus r = Done.
Proof.
  unfold ex_run.
  destruct (unfetched_outcome ex_settings (fun _ => "") (fun _ => None) (fun _ => "") (ex_says VMalicious f_one)
    (fun _ d => d) (fun t => t) (fun k => Z.of_nat k) 0 no_raise (ex_input SCritical (Some ("sha256_mismatch", "got abc"))) ex_world ex_row
    "sha256_mismatch" "got abc" eq_refl eq_refl ex_fresh ex_queue_wf) as (_ & _ & _ & _ & r & Hg & Hd).
  exists r. split; [exact Hg|exact Hd].
Defined.

(** A confidence that is not a number passes the floor test but not the alert test: the stored
    verdict becomes malicious and nobody is told. *)
Example nan_convicts_silently :
  let o := ex_run (ex_says VMalicious S754_nan) (ex_input SHigh None) in
  o_final o = Some VMalicious /\ o_effects o = bfilter (fun e => match e with Alerted _ | ReviewAsked => false | _ => true end) (o_effects o) /\
  map sc_verdict (rows (scans (w_db (o_world o)))) = [VMalicious].
Proof. vm_compute. split_and!; reflexivity. Qed.

(** An archive whose digest does not match is recorded malicious without an alert. *)
Example mismatch_is_silent :
  let o := ex_run (ex_says VMalicious f_one) (ex_input SCritical (Some ("sha256_mismatch", "got abc"))) in
  map sc_verdict (rows (scans (w_db (o_world o)))) = [VMalicious] /\ length (o_effects o) = 2%nat.
Proof. vm_compute. split; reflexivity. Qed.
