(* ===== verification/Process.v ===== *)
(** * One queue item ([pipeline.process_one]) and its worker ([workers.py])

    Claim check, fetch, per-archive analysis, hand-over to the persist thread,
    failure handling and cleanup.  The events of a run are those of
    [Finalize.persist_and_finalize], the commits of the failure handlers, and
    the removal of the extracted tree. *)
From S2P Require Import Prelude PyStr Sql Findings Jobs ScanQueue Intel Score Json Triage Watch DepIntel Store Pipeline Finalize.

Open Scope list_scope.
Open Scope Z_scope.

(** Calls that may raise: [inr err] is the exception's text. *)
Abbreviation result A := (A + string)%type.
Definition rbind {A B} (m : result A) (k : A -> result B) : result B :=
  match m with inl a => k a | inr e => inr e end.

(** ** The claim *)

(** [_load_claimed]. *)
Definition load_claimed (queue_id : Z) (token : option string) (d : db) : option (job unit) :=
  match get queue_id (scan_queue d) with
  | None => None
  | Some row =>
      if negb (status_is Claimed row) then None
      else if token_refused token row then None
      else Some row
  end.

(** [_mark_queue_failed]; [workers._fail_row] also spares a failed row. *)
Definition fail_unless (spared : list status) (now : timestamp) (queue_id : Z) (err : string) (token : option string)
    (d : db) : db :=
  match get queue_id (scan_queue d) with
  | None => d
  | Some row =>
      if status_in spared row then d
      else set_scan_queue (ScanQueue.mark_failed now row err token (scan_queue d)).2 d
  end.

(** A session that raises is rolled back. *)
Definition session_scope (fault : option string) (d : db) : result db :=
  match fault with Some err => inr err | None => inl d end.
Definition mark_queue_failed (fault : option string) (now : timestamp) (queue_id : Z) (err : string)
    (token : option string) (d : db) : result db :=
  session_scope fault (fail_unless [Done] now queue_id err token d).
Definition fail_row (fault : option string) (now : timestamp) (queue_id : Z) (err : string)
    (token : option string) (d : db) : result db :=
  session_scope fault (fail_unless [Done; Failed] now queue_id err token d).

(** ** Analysis of the fetched archives *)

(** What [_extract_and_hash] returns for one archive, and what the npm
    deobfuscation pass adds ([[]] also where it raises). *)
Record extraction := mkExtraction {
  x_info : list (string * FileInfo);
  x_norm_to_real : list (string * string);
  x_members : list string;
  x_lite : bool;
  x_webcrack : list string;
}.

Record analysis := mkAnalysis {
  a_findings : list Finding;
  a_hashes : list (string * list (string * FileInfo));
  a_sdist_files : list string;
  a_wheel_files : list string;
}.

(** [install_archive_kind] and [replaces_install] of the ecosystem's adapter. *)
Record Adapter := mkAdapter { ad_install_kind : string; ad_replaces_install : bool }.

Section Analysis.
Variable adapter : Adapter.
Variable eco : string.
(** Extraction and the static analyzers. *)
Variable extract : ArchivePath -> result extraction.
Variable static : ArchivePath -> option (list string) -> result (Analyzers * bool).

(** The [changed] set handed to the analyzers; [None] is "analyze everything". *)
Definition changed_files (x : extraction) (prev : list (string * FileInfo)) : option (list string) :=
  match prev with
  | [] => None
  | _ => Some (find_changed_files (x_info x) prev (x_norm_to_real x))
  end.

Definition with_webcrack (x : extraction) (changed : option (list string)) : option (list string) :=
  if String.eqb eco "npm" && negb (x_lite x)
  then (fun ch => match x_webcrack x with [] => ch | wc => dedup (ch ++ wc) end) <$> changed
  else changed.

Definition record_archive (arc : ArchivePath) (x : extraction) (a : analysis) : analysis :=
  mkAnalysis (a_findings a) (a_hashes a ++ [(arc_kind arc, x_info x)])
    (if String.eqb (arc_kind arc) "sdist" then x_members x else a_sdist_files a)
    (if String.eqb (arc_kind arc) "sdist" then a_wheel_files a else x_members x).

Definition add_findings (fs : list Finding) (a : analysis) : analysis :=
  mkAnalysis (a_findings a ++ fs) (a_hashes a) (a_sdist_files a) (a_wheel_files a).

(** One iteration of the loop over the archives. *)
Definition analyze_archive (prev_by_kind : list (string * list (string * FileInfo))) (arc : ArchivePath) (a : analysis)
    : result analysis :=
  rbind (extract arc) (fun x =>
    let a := record_archive arc x a in
    match changed_files x (dget_or (arc_kind arc) [] prev_by_kind) with
    | Some [] => inl a
    | changed =>
        rbind (static arc (with_webcrack x changed)) (fun '(an, has_go) =>
          inl (add_findings (run_static_analyzers an eco (arc_kind arc) (ad_install_kind adapter)
                               (ad_replaces_install adapter) has_go (x_lite x)) a))
    end).

Fixpoint analyze_archives prev_by_kind (arcs : list ArchivePath) (a : analysis) : result analysis :=
  match arcs with
  | [] => inl a
  | arc :: arcs' => rbind (analyze_archive prev_by_kind arc a) (analyze_archives prev_by_kind arcs')
  end.

End Analysis.

(** ** [process_one] *)

Inductive fetched :=
  | FetchOk (archives : list ArchivePath) (metadata : list (string * json))
  | NoFilesError (msg : string)
  | IntegrityError (msg : string)
  | FetchRaised (err : string).

Definition fetch_finding (kind msg : string) : Finding :=
  if String.eqb kind "sha256_mismatch" then mkFinding "fetch.sha256_mismatch" "fetch" SCritical CHigh "" None msg
  else mkFinding "fetch.no_release_files" "fetch" SMedium CHigh "" None msg.

(** Where the worker's timeout strikes, if it does: before the [try]; before the
    persist thread is started; while it runs; in the failure handler or the
    clean-up, whose threads run on. *)
Inductive cancelled := NotCancelled | BeforeTry | BeforePersist | DuringPersist | Late.

#[export] Instance cancelled_eq_dec : EqDecision cancelled.
Proof. solve_decision. Defined.

(** The exceptions of a run outside the fetch and the analysis: reading the claimed
    row, creating the extraction directory, the persist thread (with the number of
    its effects that happened), the failure handler of [process_one], the one of
    the worker. *)
Record Faults := mkFaults {
  f_load : option string;
  f_staging : option string;
  f_persist : option (nat * string);
  f_handler : option string;
  f_fail_row : option string;
}.
Definition no_faults : Faults := mkFaults None None None None None.

Inductive event := Step (e : effect) | Cleaned.

Definition last_commit (d : db) (es : list effect) : db :=
  fold_left (fun d e => match e with Committed d' => d' | _ => d end) es d.

Section Process.
Variable finalize : Input -> world -> outcome.
Variable adapter_of : string -> option Adapter.
Variable extract : ArchivePath -> result extraction.
Variable static : ArchivePath -> option (list string) -> result (Analyzers * bool).
Variable interfere : nat -> db -> db.
Variable now : timestamp.

(** Phases 1 and 2: what is handed to the persist thread, or the error. *)
Definition gather (row : job unit) (token : option string) (adapter : Adapter) (f : fetched) (d : db) : result Input :=
  let mk archives md fs hs err sd wh :=
    mkInput (id row) token (ecosystem row) (name row) (version row) now md archives fs hs err sd wh in
  match f with
  | FetchRaised e => inr e
  | NoFilesError msg => inl (mk [] [] [fetch_finding "no_files" msg] [] (Some ("no_files", msg)) [] [])
  | IntegrityError msg => inl (mk [] [] [fetch_finding "sha256_mismatch" msg] [] (Some ("sha256_mismatch", msg)) [] [])
  | FetchOk archives md =>
      match analyze_archives adapter (ecosystem row) extract static
              (get_prev_scan_hashes (ecosystem row) (name row) (version row) d) archives (mkAnalysis [] [] [] []) with
      | inl a => inl (mk archives md (a_findings a) (a_hashes a) None (a_sdist_files a) (a_wheel_files a))
      | inr err => inr err
      end
  end.

(** The failure handler of the coroutine: an exception of its own is only logged. *)
Definition handle_failure (row : job unit) (token : option string) (err : string) (fault : option string) (d : db)
    : list event * db :=
  let d := interfere 3 d in
  match mark_queue_failed fault now (id row) (str_take 4000 err) token d with
  | inl d' => ([Step (Committed d')], d')
  | inr _ => ([], d)
  end.

(** The persist thread and what the coroutine does after it; a coroutine cancelled
    meanwhile does not run its handler. *)
Definition persist_thread (row : job unit) (token : option string) (inp : Input) (F : Faults)
    (cancel : cancelled) (w : world) : list event * world :=
  let o := finalize inp w in
  match f_persist F with
  | None => (map Step (o_effects o) ++ [Cleaned], o_world o)
  | Some (k, err) =>
      let es := List.firstn k (o_effects o) in
      let d := last_commit (w_db w) es in
      if bool_decide (cancel = DuringPersist) then (map Step es ++ [Cleaned], set_db d w)
      else
        let '(hs, d') := handle_failure row token err (f_handler F) d in
        (map Step es ++ Cleaned :: hs, set_db d' w)
  end.

(** The body of the [try]. *)
Definition process_claimed (row : job unit) (token : option string) (adapter : Adapter) (f : fetched)
    (F : Faults) (cancel : cancelled) (w : world) : list event * world :=
  match gather row token adapter f (w_db w) with
  | inr err =>
      let '(hs, d) := handle_failure row token err (f_handler F) (w_db w) in
      (hs ++ [Cleaned], set_db d w)
  | inl inp => persist_thread row token inp F cancel w
  end.

(** The whole coroutine, with the exception that leaves it. *)
Definition process_one (queue_id : Z) (token : option string) (f : fetched) (F : Faults)
    (cancel : cancelled) (w : world) : list event * world * option string :=
  match f_load F with
  | Some err => ([], w, Some err)
  | None =>
      match load_claimed queue_id token (w_db w) with
      | None => ([], w, None)
      | Some row =>
          if bool_decide (cancel = BeforeTry) then ([], w, None)
          else
            match adapter_of (ecosystem row) with
            | None =>
                let d := interfere 3 (w_db w) in
                match mark_queue_failed (f_handler F) now queue_id ("no_adapter_for_ecosystem:" +:+ ecosystem row) token d with
                | inl d' => ([Step (Committed d')], set_db d' w, None)
                | inr err => ([], set_db d w, Some err)
                end
            | Some adapter =>
                match f_staging F with
                | Some err => ([], w, Some err)
                | None =>
                    if bool_decide (cancel = BeforePersist) then ([Cleaned], w, None)
                    else
                      let '(es, w') := process_claimed row token adapter f F cancel w in
                      (es, w', None)
                end
            end
      end
  end.

(** What [workers._worker_loop] reports for one claim: an exception of the
    coroutine, or its own timeout. *)
Definition worker_error (cancel : cancelled) (escaped : option string) : option string :=
  match escaped with
  | Some err => Some (str_take 4000 err)
  | None => if bool_decide (cancel = NotCancelled) then None else Some "timeout_after_900s"
  end.

(** [workers._worker_loop] around one claim; an exception of its failure handler is
    only logged.  The handler's commit is placed after the persist thread's; where
    it lands earlier it is interference to that thread. *)
Definition worker_item (queue_id : Z) (token : option string) (f : fetched) (F : Faults)
    (cancel : cancelled) (w : world) : list event * world :=
  let '(es, w, escaped) := process_one queue_id token f F cancel w in
  match worker_error cancel escaped with
  | None => (es, w)
  | Some err =>
      let d := interfere 4 (w_db w) in
      match fail_row (f_fail_row F) now queue_id err token d with
      | inl d' => (es ++ [Step (Committed d')], set_db d' w)
      | inr _ => (es, set_db d w)
      end
  end.

End Process.

(** ** Lemmas *)

(** The claimed row was done or failed under its claim, or is exactly as it was claimed. *)
Definition row_ended (row : job unit) (d : db) : Prop :=
  table_wf (scan_queue d) /\
  exists r, get (id row) (scan_queue d) = Some r /\ claim_token r = claim_token row /\ jstatus r ∈ [Done; Failed].
Definition row_untouched (row : job unit) (d : db) : Prop :=
  table_wf (scan_queue d) /\ get (id row) (scan_queue d) = Some row.
Definition row_kept (row : job unit) (d : db) : Prop := row_ended row d \/ row_untouched row d.
(** Other workers do not touch the row. *)
Definition row_quiet (qid : Z) (interfere : nat -> db -> db) : Prop :=
  forall k d, (table_wf (scan_queue d) -> table_wf (scan_queue (interfere k d))) /\
    get qid (scan_queue (interfere k d)) = get qid (scan_queue d).

Lemma ended_kept row d : row_ended row d -> row_kept row d.
Proof. by left. Qed.

Lemma kept_row row d : row_kept row d ->
  table_wf (scan_queue d) /\ exists r, get (id row) (scan_queue d) = Some r /\ claim_token r = claim_token row.
Proof. intros [(Hwf & r & ? & ? & _)|[Hwf ?]]; eauto. Qed.

Lemma quiet_ended qid interfere row k d : row_quiet qid interfere -> id row = qid -> row_ended row d -> row_ended row (interfere k d).
Proof. intros Hq <- (Hwf & r & Hg & Ht). destruct (Hq k d) as [H1 H2]. split; [auto|]. rewrite H2. eauto. Qed.
Lemma quiet_kept qid interfere row k d : row_quiet qid interfere -> id row = qid -> row_kept row d -> row_kept row (interfere k d).
Proof.
  intros Hq E [H|[Hwf Hg]]; [left; by eapply quiet_ended|right]. destruct (Hq k d) as [H1 H2]. subst qid.
  split; [auto|]. by rewrite H2.
Qed.

Lemma ended_queue row d d' : scan_queue d' = scan_queue d -> row_ended row d -> row_ended row d'.
Proof. unfold row_ended. by intros ->. Qed.
Lemma kept_queue row d d' : scan_queue d' = scan_queue d -> row_kept row d -> row_kept row d'.
Proof. unfold row_kept, row_untouched. intros E [?|?]; [left; by eapply ended_queue|right]. by rewrite E. Qed.

Lemma token_same (r row : job unit) tok : claim_token r = claim_token row -> token_refused tok r = token_refused tok row.
Proof. unfold token_refused. by intros ->. Qed.

Lemma put_ended (row r0 r' : job unit) q d :
  table_wf q -> get (id row) q = Some r0 -> scan_queue d = put r' q -> id r' = id row ->
  claim_token r' = claim_token row -> jstatus r' ∈ [Done; Failed] -> row_ended row d.
Proof.
  intros Hwf Hg Hd Hid Ht Hs. unfold row_ended. rewrite Hd. split; [by apply table_wf_put|].
  exists r'. split; [|done]. by eapply get_put.
Qed.

(** Failing the row ends it, whatever happened to it before, as long as the claim stands. *)
Lemma fail_unless_ended spared now qid err tok row d :
  (forall s, s ∈ spared -> s ∈ [Done; Failed]) -> id row = qid -> token_refused tok row = false ->
  row_kept row d -> row_ended row (fail_unless spared now qid err tok d).
Proof.
  intros Hsp <- Htok (Hwf & r & Hg & Ht)%kept_row. unfold fail_unless. rewrite Hg.
  destruct (status_in spared r) eqn:Es.
  { apply bool_decide_eq_true in Es. split; [done|]. eauto 6. }
  unfold ScanQueue.mark_failed, job_mark_failed. rewrite (token_same r row) by done. rewrite Htok. cbn [snd].
  eapply put_ended; [exact Hwf|exact Hg|reflexivity| | |]; [|done|set_solver]. apply get_in in Hg. apply Hg.
Qed.

Lemma last_commit_kept (P : db -> Prop) d es :
  P d -> (forall d', Committed d' ∈ es -> P d') -> P (last_commit d es).
Proof.
  unfold last_commit. revert d. induction es as [|e es IH]; intros d Hd Hes; [done|]. cbn [fold_left].
  apply IH; [|intros d' ?; apply Hes; by right]. destruct e; try done. apply Hes. by left.
Qed.

Lemma prefix_in {A} k (l : list A) x : x ∈ List.firstn k l -> x ∈ l.
Proof. revert k. induction l as [|y l IH]; intros [|k]; simpl; [done..|set_solver|]. rewrite !elem_of_cons. naive_solver. Qed.

(** A failure handler that does not raise ends the row. *)
Lemma handled_row interfere now tok err fault row d :
  token_refused tok row = false -> row_quiet (id row) interfere -> row_kept row d ->
  let d' := (handle_failure interfere now row tok err fault d).2 in
  row_kept row d' /\ (fault = None -> row_ended row d').
Proof.
  intros Htok Hq Hk. assert (row_kept row (interfere 3%nat d)) as Hk3 by by eapply quiet_kept.
  unfold handle_failure, mark_queue_failed, session_scope. destruct fault as [e|]; [done|]. cbn [snd].
  assert (row_ended row (fail_unless [Done] now (id row) (str_take 4000 err) tok (interfere 3%nat d))) as He
    by (apply fail_unless_ended; [set_solver|done..]). split; [by left|done].
Qed.

Section RunRow.
Variable st : Settings.
Variable str_of : json -> string.
Variable parse_iso : string -> option timestamp.
Variable isoformat : timestamp -> string.
Variable triage_call : verdict -> list Finding -> triage_out.
Variable interfere : nat -> db -> db.
Variable watch_race : wtable -> wtable.
Variable clock : nat -> timestamp.
Variable mono : timestamp.
Variable caught : Caught.

Abbreviation run := (persist_and_finalize st str_of parse_iso isoformat triage_call interfere watch_race clock mono caught).

Lemma complete_ended now inp row d :
  id row = in_queue_id inp -> token_refused (in_token inp) row = false -> row_kept row d ->
  forall r, get (id row) (scan_queue d) = Some r -> row_ended row (complete now (in_token inp) r d).
Proof.
  intros Hid Htok (Hwf & r0 & Hg & Ht)%kept_row r Hr. rewrite Hr in Hg. injection Hg as ->. unfold complete.
  rewrite (token_ok now r0) by (by rewrite (token_same r0 row)).
  eapply put_ended; [exact Hwf|exact Hr|reflexivity| | |]; [|done|set_solver]. apply get_in in Hr. apply Hr.
Qed.

Lemma triage_row inp s w row :
  id row = in_queue_id inp -> token_refused (in_token inp) row = false -> row_quiet (id row) interfere ->
  row_kept row (w_db w) ->
  let o := run_triage st triage_call interfere watch_race clock mono caught inp s w in
  (forall d, Committed d ∈ o_effects o -> row_kept row d) /\ row_ended row (w_db (o_world o)).
Proof.
  intros Hid Htok Hq H0 o. unfold o, run_triage. clear o. destruct (ask_llm st triage_call inp s) as [calls tri] eqn:Ea.
  match goal with |- context [adjudicate _ _ _ _ _ _ _ _ ?w1] =>
    pose proof (adjudicate_frame st watch_race clock mono caught inp s tri w1) as Hadj;
    destruct (adjudicate _ _ _ _ _ _ _ _ w1) as [[final promote] w2] end.
  destruct Hadj as (_ & _ & Hq2 & _). cbn [o_effects o_world w_db set_db] in *.
  assert (row_kept row (w_db w2)) as H2 by (eapply kept_queue; [exact Hq2|]; by eapply quiet_kept).
  assert (row_ended row (finish_row (clock 2) inp (interfere 1 (w_db w2)))) as H3.
  { assert (row_kept row (interfere 1 (w_db w2))) as H1 by by eapply quiet_kept.
    unfold finish_row. rewrite <- Hid. pose proof H1 as (Hwf & r & Hg & Ht)%kept_row. rewrite Hg.
    by eapply complete_ended. }
  assert (row_ended row (bump_rulehits (s_findings s) (interfere 2 (finish_row (clock 2) inp (interfere 1 (w_db w2)))))) as H4.
  { eapply ended_queue; [reflexivity|]. by eapply quiet_ended. }
  split; [|done]. intros d. rewrite elem_of_cons, !elem_of_app, !list_elem_of_singleton.
  pose proof (ask_llm_in st triage_call inp s (Committed d)) as Hi. rewrite Ea in Hi.
  intros [[= ->]|[E|[[= ->]|[E|[E|[[= ->]|[E|[= ->]]]]]]]]; try done; try by apply ended_kept.
  - by apply Hi in E.
  - by apply vault_effects_in in E as [? ?].
  - by apply notify_effects_in in E.
  - destruct (_ && _); [by apply list_elem_of_singleton in E|by apply elem_of_nil in E].
Qed.

(** Every commit of a run keeps the row, and the whole run ends it. *)
Lemma run_row inp w row :
  id row = in_queue_id inp -> get (id row) (scan_queue (w_db w)) = Some row -> table_wf (scan_queue (w_db w)) ->
  token_refused (in_token inp) row = false -> row_quiet (id row) interfere ->
  (forall d, Committed d ∈ o_effects (run inp w) -> row_kept row d) /\ row_ended row (w_db (o_world (run inp w))).
Proof.
  intros Hid Hrow Hwf Htok Hq. assert (row_kept row (w_db w)) as H0 by (by right).
  assert (get (in_queue_id inp) (scan_queue (w_db w)) = Some row) as Hrow' by by rewrite <- Hid.
  destruct (in_fetch_error inp) as [[kind err]|] eqn:Hf.
  - destruct (run_unfetched_queue st str_of parse_iso isoformat triage_call interfere watch_race clock mono caught inp w row kind err Hrow' Hf)
      as (d & bumped & -> & Hb & Hd). cbn [o_effects o_world w_db set_db].
    assert (row_ended row d) as He.
    { destruct (String.eqb kind "no_files").
      - unfold ScanQueue.mark_failed, job_mark_failed in Hd. rewrite Htok in Hd. cbn [snd] in Hd.
        eapply put_ended; [exact Hwf|exact Hrow|exact Hd|done|done|set_solver].
      - eapply ended_queue; [exact Hd|]. by eapply complete_ended. }
    split; [|done]. intros d'. rewrite !elem_of_cons, elem_of_nil.
    intros [[= ->]|[[= ->]|[]]]; [by eapply kept_queue|by apply ended_kept].
  - destruct (run_cases st str_of parse_iso isoformat triage_call interfere watch_race clock mono caught inp w row Hrow' Hf)
      as (s & d1 & c & Hok & ->). pose proof (so_queue _ _ _ _ _ _ _ Hok) as Hq1.
    destruct (triaged_verdict (sr_verdict (s_result s))); cbv beta iota zeta.
    + by apply triage_row, (kept_queue row (w_db w)).
    + assert (row_ended row d1) as He by (eapply ended_queue; [exact Hq1|]; by eapply complete_ended).
      cbn [o_effects o_world w_db]. assert (row_ended row (bump_rulehits (s_findings s) (interfere 2 d1))) as He2.
      { eapply ended_queue; [reflexivity|]. by eapply quiet_ended. }
      split; [|done]. intros d'. rewrite !elem_of_cons, elem_of_nil.
      intros [[= ->]|[[= ->]|[]]]; by apply ended_kept.
Qed.

Lemma thread_row now inp F cancel w row :
  id row = in_queue_id inp -> get (id row) (scan_queue (w_db w)) = Some row -> table_wf (scan_queue (w_db w)) ->
  token_refused (in_token inp) row = false -> row_quiet (id row) interfere ->
  let w' := (persist_thread run interfere now row (in_token inp) inp F cancel w).2 in
  row_kept row (w_db w') /\ (cancel <> DuringPersist -> f_handler F = None -> row_ended row (w_db w')).
Proof.
  intros Hid Hg Hwf Htok Hq. destruct (run_row inp w row) as [Hc He]; try done.
  assert (row_kept row (w_db w)) as Hk by (by right). unfold persist_thread. cbv zeta.
  destruct (f_persist F) as [[k err]|]; [|split; [by apply ended_kept|done]].
  assert (row_kept row (last_commit (w_db w) (List.firstn k (o_effects (run inp w))))) as Hlast.
  { apply last_commit_kept; [done|]. intros d Hd%prefix_in. by apply Hc. }
  case_bool_decide as Hcan; [done|].
  pose proof (handled_row interfere now (in_token inp) err (f_handler F) row _ Htok Hq Hlast) as Hh.
  destruct (handle_failure _ _ _ _ _ _ _) as [hs d']. destruct Hh as [? Hn]. split; [done|]. intros _. exact Hn.
Qed.

End RunRow.

(** ** Properties *)

Lemma load_claimed_Some qid tok d row : load_claimed qid tok d = Some row ->
  get qid (scan_queue d) = Some row /\ id row = qid /\ jstatus row = Claimed /\ token_refused tok row = false.
Proof.
  unfold load_claimed. destruct (get qid (scan_queue d)) as [r|] eqn:Eg; [|done].
  destruct (status_is Claimed r) eqn:Es; [|done]. cbn [negb]. destruct (token_refused tok r) eqn:Et; [done|].
  intros [= <-]. apply get_in in Eg as Hi. split_and!; [done|apply Hi|by apply bool_decide_eq_true in Es|done].
Qed.

Lemma gather_inp extract static now row tok ad f d inp :
  gather extract static now row tok ad f d = inl inp -> in_queue_id inp = id row /\ in_token inp = tok.
Proof.
  unfold gather. destruct f; try (intros [= <-]; done); try done.
  destruct (analyze_archives _ _ _ _ _ _ _); [|done]. by intros [= <-].
Qed.

(** The coroutine keeps the row, and ends it when nothing went wrong outside its [try],
    it was not cancelled there and its failure handler did not raise. *)
Lemma process_one_row st str_of parse_iso isoformat triage_call interfere watch_race clock mono caught
    adapter_of extract static now qid tok f F cancel w row :
  load_claimed qid tok (w_db w) = Some row -> table_wf (scan_queue (w_db w)) -> row_quiet qid interfere ->
  let '(_, w', escaped) := process_one
    (persist_and_finalize st str_of parse_iso isoformat triage_call interfere watch_race clock mono caught)
    adapter_of extract static interfere now qid tok f F cancel w in
  row_kept row (w_db w') /\ (worker_error cancel escaped = None -> f_handler F = None -> row_ended row (w_db w')).
Proof.
  intros Hl Hwf Hq. pose proof (load_claimed_Some _ _ _ _ Hl) as (Hg & Hid & _ & Htok).
  assert (row_kept row (w_db w)) as Hk by (right; split; [done|by rewrite Hid]). unfold process_one, worker_error.
  destruct (f_load F) as [e|]; [done|]. rewrite Hl.
  case_bool_decide as Hbt; [split; [done|]; subst cancel; by rewrite bool_decide_false|].
  destruct (adapter_of (ecosystem row)) as [ad|].
  2: { assert (row_kept row (interfere 3%nat (w_db w))) as Hk3 by by eapply quiet_kept.
    unfold mark_queue_failed, session_scope. destruct (f_handler F) as [e|]; [done|].
    assert (row_ended row (fail_unless [Done] now qid ("no_adapter_for_ecosystem:" +:+ ecosystem row) tok (interfere 3%nat (w_db w)))) as He
      by (apply fail_unless_ended; [set_solver|done..]). split; [by left|done]. }
  destruct (f_staging F) as [e|]; [done|].
  case_bool_decide as Hbp; [split; [done|]; subst cancel; by rewrite bool_decide_false|]. unfold process_claimed.
  destruct (gather extract static now row tok ad f (w_db w)) as [inp|err] eqn:Egi.
  - apply gather_inp in Egi as [Hi <-]. subst qid.
    pose proof (thread_row st str_of parse_iso isoformat triage_call interfere watch_race clock mono caught now inp F cancel w row
      (eq_sym Hi) Hg Hwf Htok Hq) as Ht. cbv zeta in Ht.
    destruct (persist_thread _ _ _ _ _ _ _ _ _) as [es w']. destruct Ht as [H1 H2]. split; [done|].
    intros Hn. apply H2. intros ->. by rewrite bool_decide_false in Hn.
  - subst qid. pose proof (handled_row interfere now tok err (f_handler F) row (w_db w) Htok Hq Hk) as Hh. cbv zeta in Hh.
    destruct (handle_failure _ _ _ _ _ _ _) as [hs d']. destruct Hh as [H1 H2]. split; [done|]. intros _. exact H2.
Qed.

(** A row left as it was claimed is taken back by the stale-claim sweep. *)
Lemma untouched_swept row d later :
  row_untouched row d -> jstatus row = Claimed -> older (later - seconds ScanQueue.STALE_CLAIM_TIMEOUT_SECONDS) (claimed_at row) = true ->
  exists r, get (id row) (sweep_stale_claims later (scan_queue d)).2 = Some r /\ jstatus r ∈ [Pending; Failed].
Proof.
  intros [Hwf Hg] Hs Ho. unfold sweep_stale_claims, job_sweep. cbn [snd].
  rewrite get_update, Hg by (intros; apply release_stale_id). cbn [fmap option_fmap option_map].
  assert (stale (seconds ScanQueue.STALE_CLAIM_TIMEOUT_SECONDS) later row = true) as ->.
  { unfold stale, status_is. by rewrite Hs, Ho. }
  eexists. split; [reflexivity|]. unfold release_stale. destruct (_ <=? _); simpl; set_solver.
Qed.

Lemma kept_or_swept (P : Prop) qid row d :
  P -> id row = qid -> jstatus row = Claimed -> row_kept row d ->
  row_ended row d \/
  (P /\ row_untouched row d /\
   forall later, older (later - seconds ScanQueue.STALE_CLAIM_TIMEOUT_SECONDS) (claimed_at row) = true ->
     exists r, get qid (sweep_stale_claims later (scan_queue d)).2 = Some r /\ jstatus r ∈ [Pending; Failed]).
Proof. intros HP <- Hc [?|Hu]; [by left|right]. split_and!; try done. intros later. by apply untouched_swept. Qed.

(** C2. No claim is leaked.  Take a claimed row that no one else touches, and a run in
    which the fetch, the analyzers, the reading of the row, the extraction directory and
    the persist thread may raise anywhere and the worker's timeout may strike anywhere.
    When the worker moves on, the row is done or failed under its claim; or one of the two
    failure handlers itself raised, which is only logged, and the row is exactly as it
    was claimed, so that the stale-claim sweep hands it out again or fails it once the
    claim is older than its timeout. *)
Theorem claim_released st str_of parse_iso isoformat triage_call interfere watch_race clock mono caught
    adapter_of extract static now qid tok f F cancel w row :
  load_claimed qid tok (w_db w) = Some row -> table_wf (scan_queue (w_db w)) -> row_quiet qid interfere ->
  let d' := w_db (worker_item
    (persist_and_finalize st str_of parse_iso isoformat triage_call interfere watch_race clock mono caught)
    adapter_of extract static interfere now qid tok f F cancel w).2 in
  row_ended row d' \/
  ((is_Some (f_handler F) \/ is_Some (f_fail_row F)) /\ row_untouched row d' /\
   forall later, older (later - seconds ScanQueue.STALE_CLAIM_TIMEOUT_SECONDS) (claimed_at row) = true ->
     exists r, get qid (sweep_stale_claims later (scan_queue d')).2 = Some r /\ jstatus r ∈ [Pending; Failed]).
Proof.
  intros Hl Hwf Hq. pose proof (load_claimed_Some _ _ _ _ Hl) as (Hg & Hid & Hc & Htok).
  pose proof (process_one_row st str_of parse_iso isoformat triage_call interfere watch_race clock mono caught
    adapter_of extract static now qid tok f F cancel w row Hl Hwf Hq) as Hp. unfold worker_item.
  destruct (process_one _ _ _ _ _ _ _ _ _ _ _ _) as [[es w'] escaped]. destruct Hp as [Hk He].
  destruct (worker_error cancel escaped) as [err|].
  - assert (row_kept row (interfere 4%nat (w_db w'))) as Hk4 by by eapply quiet_kept.
    unfold fail_row, session_scope. destruct (f_fail_row F) as [e|]; [by apply kept_or_swept; eauto|].
    left. apply fail_unless_ended; [set_solver|done..].
  - destruct (f_handler F) as [e|]; [by apply kept_or_swept; eauto|]. left. by apply He.
Qed.

Definition cleanups (es : list event) : nat := length (bfilter (fun e => match e with Cleaned => true | _ => false end) es).

Lemma cleanups_steps es : cleanups (map Step es) = 0%nat.
Proof. unfold cleanups. induction es; done. Qed.
Lemma cleanups_app l1 l2 : cleanups (l1 ++ l2) = (cleanups l1 + cleanups l2)%nat.
Proof. unfold cleanups. by rewrite List.filter_app, List.length_app. Qed.

(** The extracted tree is removed exactly once, and only when it is no longer needed.  An item
    that is not claimed under the caller's token has no effect at all, and before the [try]
    nothing happens but an exception.  Otherwise, whichever way fetch, analysis, persist thread
    and cancellation go, there is one removal, and what follows it is at most the commit of a
    failure handler: the model is never asked, and no sample is vaulted, after the tree is gone. *)
Theorem cleanup_once finalize adapter_of extract static interfere now qid tok f F cancel w :
  let '(es, w', _) := process_one finalize adapter_of extract static interfere now qid tok f F cancel w in
  match load_claimed qid tok (w_db w) with
  | None => es = [] /\ w' = w
  | Some row =>
      match f_load F, adapter_of (ecosystem row), f_staging F with
      | None, Some _, None =>
          cancel <> BeforeTry ->
          cleanups es = 1%nat /\
          forall before after e, es = before ++ Cleaned :: after -> e ∈ after -> exists d, e = Step (Committed d)
      | _, _, _ => cleanups es = 0%nat
      end
  end.
Proof.
  assert (forall es1 es2 before after, map Step es1 ++ Cleaned :: es2 = before ++ Cleaned :: after ->
    cleanups es2 = 0%nat -> after = es2) as Hsplit.
  { induction es1 as [|e1 es1 IH]; intros es2 before after E H0; destruct before as [|b before]; simplify_eq/=; try done; [|eauto].
    exfalso. rewrite cleanups_app in H0. unfold cleanups in H0 at 2. simpl in H0. lia. }
  assert (forall es1 es2, cleanups es2 = 0%nat -> (forall e, e ∈ es2 -> exists d, e = Step (Committed d)) ->
    cleanups (map Step es1 ++ Cleaned :: es2) = 1%nat /\
    forall before after e, map Step es1 ++ Cleaned :: es2 = before ++ Cleaned :: after -> e ∈ after ->
      exists d, e = Step (Committed d)) as Hmk.
  { intros es1 es2 H0 Hes. split.
    - rewrite cleanups_app, cleanups_steps. unfold cleanups in *. simpl. lia.
    - intros before after e E He. apply Hes. by rewrite <- (Hsplit _ _ _ _ E H0). }
  assert (forall e : event, e ∈ [] -> exists d, e = Step (Committed d)) as Hnil by (by intros e ?%elem_of_nil).
  assert (forall row err fault d, exists es, (handle_failure interfere now row tok err fault d).1 = map Step es /\
    forall e : event, e ∈ map Step es -> exists d, e = Step (Committed d)) as Hh.
  { intros row err fault d. unfold handle_failure. destruct (mark_queue_failed _ _ _ _ _ _) as [d'|].
    - exists [Committed d']. split; [done|]. intros e ->%list_elem_of_singleton. eauto.
    - by exists []. }
  unfold process_one. destruct (f_load F); [by destruct (load_claimed qid tok (w_db w))|].
  destruct (load_claimed qid tok (w_db w)) as [row|]; [|done].
  case_bool_decide as Hbt; [by destruct (adapter_of _), (f_staging F)|].
  destruct (adapter_of (ecosystem row)) as [ad|]; [|by destruct (mark_queue_failed _ _ _ _ _ _)].
  destruct (f_staging F); [done|]. case_bool_decide; [intros _; by apply (Hmk [] [])|]. unfold process_claimed.
  destruct (gather extract static now row tok ad f (w_db w)) as [inp|err].
  - unfold persist_thread. destruct (f_persist F) as [[k err]|]; [case_bool_decide|]; try by (intros _; apply Hmk).
    destruct (Hh row err (f_handler F) (last_commit (w_db w) (List.firstn k (o_effects (finalize inp w))))) as (es & E & Hes).
    destruct (handle_failure _ _ _ _ _ _ _) as [hs d']. simpl in E. subst hs. intros _. apply Hmk; [apply cleanups_steps|done].
  - destruct (Hh row err (f_handler F) (w_db w)) as (es & E & Hes).
    destruct (handle_failure _ _ _ _ _ _ _) as [hs d']. simpl in E. subst hs. intros _. by apply Hmk.
Qed.

(** An archive may be skipped: there is a previous scan of its kind and every file is in it,
    with the same SHA-256. *)
Definition unchanged (x : extraction) (prev : list (string * FileInfo)) : Prop :=
  prev <> [] /\ forall p i, (p, i) ∈ x_info x -> exists q, dget p prev = Some q /\ fi_sha256 q = fi_sha256 i.

Lemma dedup_nil {A} `{EqDecision A} (l : list A) : dedup l = [] -> l = [].
Proof. intros E. destruct l as [|a l]; [done|]. assert (a ∈ dedup (a :: l)) as H by (apply dedup_elem; by left). rewrite E in H. set_solver. Qed.

Lemma changed_files_skip x prev : changed_files x prev = Some [] -> unchanged x prev.
Proof.
  unfold changed_files, unchanged. destruct prev as [|h prev]; [done|]. set (pv := h :: prev). intros [= E].
  split; [done|]. intros p i Hin. unfold find_changed_files in E. apply dedup_nil, map_eq_nil in E.
  destruct (changed_entry pv (p, i)) eqn:Ec.
  - assert ((p, i) ∈ bfilter (changed_entry pv) (x_info x)) as H by by apply bfilter_in. rewrite E in H. by apply elem_of_nil in H.
  - unfold changed_entry in Ec. cbn [fst snd] in Ec. destruct (dget p pv) as [q|]; [|done]. exists q. split; [done|].
    by apply negb_false_iff, String.eqb_eq in Ec.
Qed.

(** What one archive leaves in the result. *)
Definition archive_done ad eco (extract : ArchivePath -> result extraction)
    (static : ArchivePath -> option (list string) -> result (Analyzers * bool)) prev_by_kind (arc : ArchivePath) (a : analysis) : Prop :=
  exists x, extract arc = inl x /\ (arc_kind arc, x_info x) ∈ a_hashes a /\
    (unchanged x (dget_or (arc_kind arc) [] prev_by_kind) \/
     exists changed an has_go, static arc changed = inl (an, has_go) /\
       (dget_or (arc_kind arc) [] prev_by_kind = [] -> changed = None) /\
       forall f, f ∈ run_static_analyzers an eco (arc_kind arc) (ad_install_kind ad) (ad_replaces_install ad) has_go (x_lite x) ->
         f ∈ a_findings a).

Lemma archive_done_mono ad eco ex stc pv arc a a' :
  (forall h, h ∈ a_hashes a -> h ∈ a_hashes a') -> (forall f, f ∈ a_findings a -> f ∈ a_findings a') ->
  archive_done ad eco ex stc pv arc a -> archive_done ad eco ex stc pv arc a'.
Proof.
  intros Hh Hf (x & Hx & Hin & H). exists x. split; [done|]. split; [by apply Hh|].
  destruct H as [?|(ch & an & hg & ? & ? & Hfs)]; [by left|right]. exists ch, an, hg. split_and!; try done. intros f ?. by apply Hf, Hfs.
Qed.

Lemma analyze_archive_done ad eco ex stc pv arc a a' :
  analyze_archive ad eco ex stc pv arc a = inl a' ->
  archive_done ad eco ex stc pv arc a' /\
  (forall h, h ∈ a_hashes a -> h ∈ a_hashes a') /\ (forall f, f ∈ a_findings a -> f ∈ a_findings a').
Proof.
  unfold analyze_archive. destruct (ex arc) as [x|] eqn:Ex; [|done]. cbn [rbind].
  set (prev := dget_or (arc_kind arc) [] pv).
  destruct (changed_files x prev) as [[|p ps]|] eqn:Ec.
  - intros [= <-]. cbn [a_hashes a_findings record_archive]. split_and!; [|set_solver|done].
    exists x. split; [done|]. split; [cbn [a_hashes record_archive]; set_solver|]. left. by apply changed_files_skip.
  - destruct (stc arc _) as [[an hg]|] eqn:Es; [|done]. cbn [rbind]. intros [= <-].
    cbn [a_hashes a_findings record_archive add_findings]. split_and!; [|set_solver..].
    exists x. split; [done|]. cbn [a_hashes a_findings record_archive add_findings]. split; [set_solver|]. right.
    eexists _, an, hg. split; [exact Es|]. split; [|set_solver]. fold prev. intros E. by rewrite E in Ec.
  - destruct (stc arc _) as [[an hg]|] eqn:Es; [|done]. cbn [rbind]. intros [= <-].
    cbn [a_hashes a_findings record_archive add_findings]. split_and!; [|set_solver..].
    exists x. split; [done|]. cbn [a_hashes a_findings record_archive add_findings]. split; [set_solver|]. right.
    eexists _, an, hg. split; [exact Es|]. split; [|set_solver]. intros _. unfold with_webcrack. by destruct (_ && _).
Qed.

(** Nothing is skipped without a reason.  When the analysis of the fetched archives succeeds,
    every archive has its file hashes recorded, and either all its files are byte-identical to
    the previous scan of the same kind, or the analyzers ran on it and their findings are in the
    result; where there is no previous scan they ran on every file. *)
Theorem analysis_complete ad eco extract static prev_by_kind arcs a0 a arc :
  analyze_archives ad eco extract static prev_by_kind arcs a0 = inl a -> arc ∈ arcs ->
  archive_done ad eco extract static prev_by_kind arc a.
Proof.
  assert (forall arcs a0, analyze_archives ad eco extract static prev_by_kind arcs a0 = inl a ->
    (forall h, h ∈ a_hashes a0 -> h ∈ a_hashes a) /\ (forall f, f ∈ a_findings a0 -> f ∈ a_findings a) /\
    forall arc, arc ∈ arcs -> archive_done ad eco extract static prev_by_kind arc a) as H; [|intros Ha; by apply (H _ _ Ha)].
  clear. induction arcs as [|arc arcs IH]; intros a0; cbn [analyze_archives].
  { intros [= ->]. split_and!; [done..|]. by intros arc ?%elem_of_nil. }
  destruct (analyze_archive ad eco extract static prev_by_kind arc a0) as [a1|] eqn:E1; [|done]. cbn [rbind].
  intros (I1 & I2 & I3)%IH. apply analyze_archive_done in E1 as (D & M1 & M2).
  split_and!; [auto..|]. intros arc' [->|?]%elem_of_cons; [|auto]. by eapply archive_done_mono.
Qed.

(** ** Concrete runs *)

Definition ex_finalize : Input -> world -> outcome :=
  persist_and_finalize ex_settings (fun _ => "") (fun _ => None) (fun _ => "") (ex_says VMalicious f_one) (fun _ d => d)
    (fun t => t) (fun k => Z.of_nat k) 0 no_raise.
Definition ex_adapter : Adapter := mkAdapter "npm_tarball" false.
Definition ex_arc : ArchivePath := mkArchive "/tmp/evil.tgz" "npm_tarball" "abc".
Definition ex_extraction : extraction := mkExtraction [("index.js", mkFileInfo "s1" f_zero "" "")] [("index.js", "package/index.js")] ["package/index.js"] false [].
Definition ex_analyzers : Analyzers := mkAnalyzers [] [] [] [ex_finding SCritical] [] [] [] [] [] [] [] None.

Definition ex_item (F : Faults) (cancel : cancelled) : list event * world :=
  worker_item ex_finalize (fun _ => Some ex_adapter) (fun _ => inl ex_extraction)
    (fun _ _ => inl (ex_analyzers, false)) (fun _ d => d) 9 1 (Some "tok") (FetchOk [ex_arc] []) F cancel ex_world.

(** The persist thread dies after the alert, before the row is finished. *)
Definition dies_after_alert : Faults := mkFaults None None (Some (5%nat, "boom")) None None.

Lemma claim_released_witness :
  exists r, get 1 (scan_queue (w_db (ex_item dies_after_alert NotCancelled).2)) = Some r /\ jstatus r ∈ [Done; Failed].
Proof.
  destruct (claim_released ex_settings (fun _ => "") (fun _ => None) (fun _ => "") (ex_says VMalicious f_one) (fun _ d => d)
    (fun t => t) (fun k => Z.of_nat k) 0 no_raise (fun _ => Some ex_adapter) (fun _ => inl ex_extraction)
    (fun _ _ => inl (ex_analyzers, false)) 9 1 (Some "tok") (FetchOk [ex_arc] []) dies_after_alert NotCancelled ex_world ex_row)
    as [(_ & r & Hg & _ & Hs)|[[[e He]|[e He]] _]]; [reflexivity|apply ex_queue_wf|by intros k d| |discriminate..].
  exists r. split; [exact Hg|exact Hs].
Defined.

Example failed_after_alert :
  let '(es, w) := ex_item dies_after_alert NotCancelled in
  jstatus <$> get 1 (scan_queue (w_db w)) = Some Failed /\ length es = 7%nat.
Proof. vm_compute. done. Qed.

(** The persist thread dies and the failure handler's session raises too: the worker only
    logs it, and the row stays claimed. *)
Example handler_raises_leaks :
  jstatus <$> get 1 (scan_queue (w_db (ex_item (mkFaults None None (Some (5%nat, "boom")) (Some "gone") None) NotCancelled).2))
    = Some Claimed.
Proof. vm_compute. done. Qed.

(** An exception before the [try] reaches the worker's generic handler. *)
Example worker_reports_load_fault :
  (fun r => (jstatus r, last_error r)) <$> get 1 (scan_queue (w_db (ex_item (mkFaults (Some "db gone") None None None None) NotCancelled).2))
    = Some (Failed, Some "db gone").
Proof. vm_compute. done. Qed.

Lemma analysis_complete_witness :
  exists a, analyze_archives ex_adapter "npm" (fun _ => inl ex_extraction) (fun _ _ => inl (ex_analyzers, false)) [] [ex_arc]
      (mkAnalysis [] [] [] []) = inl a /\
    archive_done ex_adapter "npm" (fun _ => inl ex_extraction) (fun _ _ => inl (ex_analyzers, false)) [] ex_arc a.
Proof.
  eexists. split; [vm_compute; reflexivity|].
  apply (analysis_complete ex_adapter "npm" (fun _ => inl ex_extraction) (fun _ _ => inl (ex_analyzers, false)) [] [ex_arc]
    (mkAnalysis [] [] [] [])); [vm_compute; reflexivity|by left].
Defined.
