(* ===== verification/Fetch.v ===== *)
(** * Fetching archives ([ecosystems/*/fetch/download.py])

    The four downloaders over a server that answers each request as it likes: the requests
    they make, the directories they create, the digests they compare, the metadata they
    keep, and what the pipeline makes of their errors.  Hash functions, [json.loads] and the
    placement of temporary directories are arguments; the semaphores, which only delay, are left out. *)
From stdpp Require Import base list.
From S2P Require Import Prelude PyStr Text Findings Json Intel Score Codecs Jobs Store Pipeline Finalize Process.
From Stdlib Require Import Ascii String Sorting.Sorted.

Open Scope string_scope.
Open Scope list_scope.
Open Scope Z_scope.

(** ** Effects *)

(** What a downloader has done: the addresses it asked for, the seconds it slept, the
    temporary directories it made and did not remove. *)
Record io := mkIo { asked : list string; slept : list Z; dirs : list string }.
Definition io0 : io := mkIo [] [] [].

Inductive exception := NoFiles (msg : string) | Integrity (msg : string) | Other (err : string).

Definition net (A : Type) : Type := io -> (A + exception) * io.
#[export] Instance net_ret : MRet net := fun A a s => (inl a, s).
#[export] Instance net_bind : MBind net := fun A B k m s =>
  match m s with (inl a, s') => k a s' | (inr e, s') => (inr e, s') end.
Definition raise {A} (e : exception) : net A := fun s => (inr e, s).
Definition of_option {A} (err : string) (o : option A) : net A := match o with Some a => mret a | None => raise (Other err) end.
Definition sleep (seconds : Z) : net unit := fun s => (inl tt, mkIo (asked s) (slept s ++ [seconds]) (dirs s)).

(** What the server does with a request: the connection fails, or there is an answer with a
    status, the [Retry-After] header and a body (after redirects, where the client follows them). *)
Inductive reply := Unreachable (err : string) | Answer (status : Z) (retry_after body : string).
Record response := mkResponse { r_status : Z; r_retry_after : string; r_body : string }.

(** [ArchivePath]s and metadata. *)
Record FetchResult := mkFetch { archives : list ArchivePath; metadata : json }.

(** A digest by name, as [hashlib.new(name, data).digest()]: unknown, of fixed length, or of
    a length the caller must give. *)
Inductive algorithm := Unsupported | Fixed (h : string -> string) | Extendable.

(** ** Values of decoded documents *)

Definition json_or (x y : json) : json := if json_truthy x then x else y.
Definition JEmpty : json := JStr "".

Section Downloads.
Variables (server : list string -> string -> reply) (loads : string -> option json) (str_of : json -> string).
Variables (hash_named : string -> algorithm) (sha1 sha256 : string -> string).
(** [tempfile.mkdtemp(prefix=..., dir=WORK_ROOT)] among the directories there are; [None]: it raises. *)
Variable mkdtemp_at : list string -> string -> option string.

Definition hexdigest (h : string -> string) (content : string) : string := hexlify (h content).
Definition text (v : json) : string := match v with JStr s => s | _ => str_of v end.

Definition client_get (url : string) : net response := fun s =>
  let s' := mkIo (asked s ++ [url]) (slept s) (dirs s) in
  match server (asked s) url with
  | Unreachable err => (inr (Other err), s')
  | Answer st ra body => (inl (mkResponse st ra body), s')
  end.
Definition is_success (r : response) : bool := (200 <=? r_status r) && (r_status r <? 300).
Definition raise_for_status (r : response) : net unit := if is_success r then mret tt else raise (Other "HTTPStatusError").
Definition json_of (r : response) : net json := of_option "JSONDecodeError" (loads (r_body r)).
(** The receiver of [.get]. *)
Definition as_dict (v : json) : net (list (string * json)) := match v with JObj o => mret o | _ => raise (Other "AttributeError") end.
(** The items of a [for] loop. *)
Definition as_items (v : json) : net (list json) :=
  match v with
  | JArr l => mret l
  | JObj o => mret (map (fun kv => JStr kv.1) o)
  | JStr s => mret (map (fun c => JStr (String c "")) (list_ascii_of_string s))
  | _ => raise (Other "TypeError")
  end.
Definition as_str (v : json) : net string := match v with JStr s => mret s | _ => raise (Other "TypeError") end.

Definition mkdtemp (prefix : string) : net string := fun s =>
  match mkdtemp_at (dirs s) prefix with
  | Some d => (inl d, mkIo (asked s) (slept s) (dirs s ++ [d]))
  | None => (inr (Other "FileNotFoundError"), s)
  end.
Definition rmtree (work : string) (s : io) : io := mkIo (asked s) (slept s) (bfilter (fun d => negb (String.eqb d work)) (dirs s)).
Definition dest_of (work filename : string) : string := work +:+ "/" +:+ filename.

(** ** PyPI *)

Definition JSON_URL (name version : string) : string := "https://pypi.org/pypi/" +:+ name +:+ "/" +:+ version +:+ "/json".

Definition _get_json (name version : string) : net json :=
  r ← client_get (JSON_URL name version); _ ← raise_for_status r; json_of r.
Definition _download_url (url : json) : net string :=
  u ← as_str url; r ← client_get u; _ ← raise_for_status r; mret (r_body r).

Fixpoint _pick_url (urls : list json) (packagetype : string) : net (option (list (string * json))) :=
  match urls with
  | [] => mret None
  | u :: urls' =>
      o ← as_dict u;
      match jget "packagetype" o JNull with
      | JStr t => if String.eqb t packagetype then mret (Some o) else _pick_url urls' packagetype
      | _ => _pick_url urls' packagetype
      end
  end.

(** [entry[k]]. *)
Definition item (k : string) (o : list (string * json)) : net json := of_option "KeyError" (dget k (rev o)).

(** An entry, its kind, its file name and its address. *)
Record target := mkTarget { tg_entry : list (string * json); tg_kind : string; tg_file : string; tg_url : json }.
Definition target_of (entry : option (list (string * json))) (kind : string) : net (list target) :=
  match entry with
  | None => mret []
  | Some e => fn ← item "filename" e; fn ← as_str fn; url ← item "url" e; mret [mkTarget e kind fn url]
  end.

(** [asyncio.gather] in the order of completion: the first exception is raised, while the other
    request, already under way, goes on. *)
Fixpoint gather {A} (tasks : list (net A)) : net (list A) :=
  match tasks with
  | [] => mret []
  | t :: ts => fun s =>
      let (r, s1) := t s in let (rs, s2) := gather ts s1 in
      match r, rs with
      | inr e, _ => (inr e, s2)
      | _, inr e => (inr e, s2)
      | inl a, inl l => (inl (a :: l), s2)
      end
  end.

(** The digest an entry publishes. *)
Definition expected_sha256 (entry : list (string * json)) : net json :=
  d ← as_dict (json_or (jget "digests" entry JNull) (JObj [])); mret (jget "sha256" d JNull).

Definition verify_target (label work : string) (files : list (string * string)) (t : target) : net ArchivePath :=
  let data := default "" (dget (tg_file t) files) in
  let actual := hexdigest sha256 data in
  let arc := mkArchive (dest_of work (tg_file t)) (tg_kind t) actual in
  expected ← expected_sha256 (tg_entry t);
  if json_truthy expected then
    match expected with
    | JStr e =>
        if String.eqb (lower e) (lower actual) then mret arc
        else raise (Integrity ("sha256_mismatch " +:+ label +:+ " " +:+ tg_kind t +:+ " expected=" +:+ e +:+ " actual=" +:+ actual))
    | _ => raise (Other "AttributeError")
    end
  else mret arc.

(** Whether the second download ends first. *)
Variable second_first : bool.

Definition pypi_body (name version work : string) : net FetchResult :=
  meta ← _get_json name version;
  m ← as_dict meta;
  urls ← (let u := jget "urls" m JNull in if json_truthy u then as_items u else mret []);
  sdist ← _pick_url urls "sdist";
  wheel ← _pick_url urls "bdist_wheel";
  t1 ← target_of sdist "sdist";
  t2 ← target_of wheel "wheel";
  let targets := t1 ++ t2 in
  if bool_decide (targets = []) then raise (NoFiles ("no_urls_for " +:+ name +:+ " " +:+ version))
  else
    let order := if second_first then rev targets else targets in
    contents ← gather (map (fun t => _download_url (tg_url t)) order);
    let files := fold_left (fun d tc => dset (tg_file tc.1) tc.2 d) (combine order contents) [] in
    arcs ← mapM (verify_target (name +:+ " " +:+ version) work files) targets;
    mret (mkFetch arcs (json_or (jget "info" m JNull) (JObj []))).

(** [except BaseException: shutil.rmtree(work); raise]. *)
Definition removing {A} (work : string) (m : net A) : net A := fun s =>
  match m s with
  | (inr e, s') => (inr e, rmtree work s')
  | r => r
  end.

Definition download_all (name version : string) : net FetchResult :=
  work ← mkdtemp (name +:+ "-" +:+ version +:+ "-"); removing work (pypi_body name version work).

(** ** npm *)

Definition REGISTRY_BASE : string := "https://registry.npmjs.org".

Definition throttled (r : response) : bool := (r_status r =? 429) || (r_status r =? 503).
Fixpoint retry_loop (left : nat) (url : string) (delay : Z) : net response :=
  resp ← client_get url;
  if negb (throttled resp) then mret resp
  else match left with
  | O => mret resp
  | S left' =>
      _ ← sleep (Z.min (if isdigit (r_retry_after resp) then int_of (r_retry_after resp) else delay) 30);
      retry_loop left' url (Z.min (delay * 2) 30)
  end.
Definition get_with_retry (url : string) (max_retries : nat) : net response := retry_loop max_retries url 1.

(** [urllib.parse.quote(s, safe="")]: the bytes outside the unreserved set become [%XX]. *)
Definition is_lower (c : ascii) : bool := (97 <=? code c) && (code c <=? 122).
Definition unreserved (c : ascii) : bool := is_upper c || is_lower c || is_digit c || has_char c "_.-~".
Definition upper_hex (s : string) : string := smap (fun c => if is_lower c then chr (code c - 32) else c) s.
Definition quote (s : string) : string := each (fun c => if unreserved c then String c "" else String PCT (upper_hex (hex_pair c))) s.

Definition _encode_name (name : string) : string :=
  match name with
  | String c rest =>
      let pkg := ostr (after_first "/" rest) in
      if Ascii.eqb c "@" && truthy pkg then "@" +:+ quote (before_first "/" rest) +:+ "%2f" +:+ quote pkg else quote name
  | EmptyString => quote name
  end.
Definition _short_name (name : string) : string := if has_char "/" name then after_last "/" name else name.

(** ["-" in integrity] for a value that is true. *)
Definition has_dash (v : json) : option bool :=
  match v with
  | JStr s => Some (has_char "-" s)
  | JArr l => Some (existsb (fun x => match x with JStr s => String.eqb s "-" | _ => false end) l)
  | JObj o => Some (existsb (fun kv => String.eqb kv.1 "-") o)
  | _ => None
  end.

Definition b64decode (s : string) : option string := if is_ascii s then a2b_base64 0 0 0 s else None.

Definition check_sri (content integrity label : string) : net unit :=
  let algo := before_first "-" integrity in
  match b64decode (ostr (after_first "-" integrity)) with
  | None => raise (Integrity ("malformed integrity for " +:+ label +:+ ": " +:+ repr integrity))
  | Some expected =>
      match hash_named algo with
      | Unsupported => raise (Integrity ("unsupported integrity algo for " +:+ label +:+ ": " +:+ algo))
      | Extendable => raise (Other "TypeError")
      | Fixed h => if String.eqb (h content) expected then mret tt else raise (Integrity (algo +:+ " integrity mismatch for " +:+ label))
      end
  end.
Definition check_shasum (content : string) (dist : list (string * json)) (label : string) : net unit :=
  let shasum := jget "shasum" dist JNull in
  if json_truthy shasum then
    match shasum with
    | JStr x =>
        let actual := hexdigest sha1 content in
        if String.eqb actual (lower x) then mret tt
        else raise (Integrity ("shasum mismatch for " +:+ label +:+ ": expected " +:+ x +:+ ", got " +:+ actual))
    | _ => raise (Other "AttributeError")
    end
  else raise (Integrity ("no integrity/shasum to verify " +:+ label)).
Definition _verify_integrity (content : string) (dist : list (string * json)) (label : string) : net unit :=
  let integrity := jget "integrity" dist JNull in
  if json_truthy integrity then
    match has_dash integrity, integrity with
    | None, _ => raise (Other "TypeError")
    | Some true, JStr i => check_sri content i label
    | Some true, _ => raise (Other "AttributeError")
    | Some false, _ => check_shasum content dist label
    end
  else check_shasum content dist label.

Definition _get_manifest (name version : string) : net json :=
  resp ← get_with_retry (REGISTRY_BASE +:+ "/" +:+ _encode_name name +:+ "/" +:+ version) 4;
  if r_status resp =? 404 then raise (NoFiles ("npm package/version not found: " +:+ name +:+ "@" +:+ version))
  else _ ← raise_for_status resp; json_of resp.

Definition JNone (v : json) : json := json_or v JNull.
Definition author_fields (author : json) : json * json :=
  match author with
  | JObj o => (json_or (jget "name" o JNull) JEmpty, JNone (jget "email" o JNull))
  | JStr _ => (author, JNull)
  | _ => (JEmpty, JNull)
  end.
Definition _normalize_metadata (manifest : list (string * json)) : list (string * json) :=
  let get k := jget k manifest JNull in
  let (author_name, author_email) := author_fields (get "author") in
  let license := match get "license" with JObj o => json_or (jget "type" o JNull) JEmpty | v => v end in
  let keywords := match get "keywords" with JArr l => JStr (join ", " (map text l)) | v => v end in
  let home_page := match get "repository" with
    | JObj o => json_or (jget "url" o JNull) (json_or (get "homepage") JEmpty)
    | JStr s => json_or (get "homepage") (JStr s)
    | _ => json_or (get "homepage") JEmpty
    end in
  let requires_dist := match get "dependencies" with JObj o => JArr (map JStr (sorted_set (map fst o))) | _ => JNull end in
  let upload_user := match get "_npmUser" with JObj o => jget "name" o JNull | _ => JNull end in
  let maintainers := match get "maintainers" with
    | JArr l => JNone (JArr (bfilter json_truthy (map (fun m => match m with JObj o => jget "name" o JNull | _ => m end) l)))
    | _ => JNull
    end in
  [("summary", json_or (get "description") JEmpty); ("home_page", home_page); ("keywords", json_or keywords JEmpty);
   ("license", json_or license JEmpty); ("author", JNone author_name); ("author_email", author_email); ("upload_user", upload_user);
   ("maintainers", maintainers); ("requires_dist", requires_dist); ("_raw_npm", JObj manifest)].

Definition download_tarball (name version : string) : net FetchResult :=
  doc ← _get_manifest name version;
  manifest ← as_dict doc;
  let resolved := text (json_or (jget "version" manifest JNull) (JStr version)) in
  dist ← as_dict (json_or (jget "dist" manifest JNull) (JObj []));
  let tarball_url := jget "tarball" dist JNull in
  if negb (json_truthy tarball_url) then raise (NoFiles ("no tarball url for " +:+ name +:+ "@" +:+ resolved))
  else
    work ← mkdtemp (_short_name name +:+ "-" +:+ resolved +:+ "-");
    url ← as_str tarball_url;
    resp ← client_get url;
    if r_status resp =? 404 then raise (NoFiles ("tarball not found: " +:+ name +:+ "@" +:+ resolved))
    else
      _ ← raise_for_status resp;
      _ ← _verify_integrity (r_body resp) dist (name +:+ "@" +:+ resolved);
      mret (mkFetch [mkArchive (dest_of work (_short_name name +:+ "-" +:+ resolved +:+ ".tgz")) "npm_tarball" (hexdigest sha256 (r_body resp))]
                    (JObj (_normalize_metadata manifest))).

(** ** crates.io *)

Definition CDN_BASE : string := "https://static.crates.io/crates".
Definition API_BASE : string := "https://crates.io/api/v1/crates".
Definition _build_download_url (name version : string) : string := CDN_BASE +:+ "/" +:+ name +:+ "/" +:+ name +:+ "-" +:+ version +:+ ".crate".
Definition _build_api_url (name version : string) : string := API_BASE +:+ "/" +:+ name +:+ "/" +:+ version.

(** [data.get(k, {}).get(k', "")] of the answer at [url]. *)
Definition api_field (url k k' : string) : net json :=
  resp ← client_get url;
  _ ← sleep 1;
  _ ← raise_for_status resp;
  data ← json_of resp;
  d ← as_dict data;
  o ← as_dict (jget k d (JObj []));
  mret (jget k' o JEmpty).
Definition _get_expected_checksum (name version : string) : net json :=
  cksum ← api_field (_build_api_url name version) "version" "checksum";
  if json_truthy cksum then mret cksum else raise (NoFiles ("no checksum for " +:+ name +:+ "==" +:+ version)).
Definition _resolve_latest (name : string) : net string :=
  ver ← api_field (API_BASE +:+ "/" +:+ name) "crate" "newest_version";
  if json_truthy ver then mret (text ver) else raise (NoFiles ("cannot resolve latest version for " +:+ name)).

(** [", ".join(v)]. *)
Definition join_items (v : json) : net string :=
  l ← as_items v; ss ← mapM as_str l; mret (join ", " ss).

Fixpoint published_by (version : string) (versions : list json) : net json :=
  match versions with
  | [] => mret JNull
  | v :: versions' =>
      o ← as_dict v;
      match jget "num" o JNull with
      | JStr n => if String.eqb n version then mret (JNone (jget "published_by" o JNull)) else published_by version versions'
      | _ => published_by version versions'
      end
  end.

Definition crate_metadata (version : string) (resp : response) : net (list (string * json)) :=
  if negb (r_status resp =? 200) then mret []
  else
    doc ← json_of resp;
    d ← as_dict doc;
    let crate_data := jget "crate" d (JObj []) in
    versions ← as_items (jget "versions" d (JArr []));
    by_ ← published_by version versions;
    let uploader := match by_ with JObj o => json_or (jget "login" o JNull) (jget "name" o JNull) | _ => JNull end in
    c ← as_dict crate_data;
    keywords ← join_items (jget "keywords" c (JArr []));
    mret [("summary", jget "description" c JEmpty); ("home_page", json_or (jget "repository" c JNull) (jget "homepage" c JEmpty));
          ("keywords", JStr keywords); ("license", jget "license" c JEmpty); ("author", uploader); ("upload_user", uploader); ("_raw_crate", crate_data)].

Definition check_sha256 (label : string) (expected : json) (actual : string) : net unit :=
  if match expected with JStr e => String.eqb actual e | _ => false end then mret tt
  else raise (Integrity ("SHA256 mismatch for " +:+ label +:+ ".crate: expected " +:+ text expected +:+ ", got " +:+ actual)).

Definition download_crate (name version0 : string) : net FetchResult :=
  version ← (if String.eqb version0 "latest" then _resolve_latest name else mret version0);
  work ← mkdtemp (name +:+ "-" +:+ version +:+ "-");
  expected_sha ← _get_expected_checksum name version;
  resp ← client_get (_build_download_url name version);
  if r_status resp =? 404 then raise (NoFiles ("crate not found: " +:+ name +:+ "==" +:+ version))
  else
    _ ← raise_for_status resp;
    let actual_sha := hexdigest sha256 (r_body resp) in
    _ ← check_sha256 (name +:+ "-" +:+ version) expected_sha actual_sha;
    crate_resp ← client_get (API_BASE +:+ "/" +:+ name);
    _ ← sleep 1;
    md ← crate_metadata version crate_resp;
    mret (mkFetch [mkArchive (dest_of work (name +:+ "-" +:+ version +:+ ".crate")) "crate" actual_sha] (JObj md)).

(** ** Go modules *)

Definition PROXY_BASE : string := "https://proxy.golang.org".
Definition case_encode (path : string) : string := each (fun c => if is_upper c then String "!" (String (lower_char c) "") else String c "") path.
Definition _build_zip_url (module_path version : string) : string := PROXY_BASE +:+ "/" +:+ case_encode module_path +:+ "/@v/" +:+ version +:+ ".zip".
Definition _build_info_url (module_path version : string) : string := PROXY_BASE +:+ "/" +:+ case_encode module_path +:+ "/@v/" +:+ version +:+ ".info".
Definition _FORGE_HOSTS : list string := ["github.com"; "gitlab.com"; "bitbucket.org"; "codeberg.org"; "gitea.com"; "sr.ht"; "git.sr.ht"].
Definition _publisher_from_path (module_path : string) : option string :=
  match split "/" module_path with
  | [] => None
  | host :: rest =>
      if negb (has_char "." host) then None
      else match rest with
      | owner :: _ => if str_in host _FORGE_HOSTS && truthy owner then Some (host +:+ "/" +:+ owner) else Some host
      | [] => Some host
      end
  end.

Definition go_metadata (name : string) : list (string * json) :=
  [("home_page", JStr ("https://pkg.go.dev/" +:+ name)); ("summary", JEmpty);
   ("author", match _publisher_from_path name with Some p => JStr p | None => JNull end)].
(** The second request; an exception leaves the metadata as it is without the answer. *)
Definition go_info (name version : string) : net (list (string * json)) := fun s =>
  match client_get (_build_info_url name version) s with
  | (inl resp, s') =>
      match (if r_status resp =? 200 then loads (r_body resp) else None) with
      | Some info => (inl (go_metadata name ++ [("_raw_info", info)]), s')
      | None => (inl (go_metadata name), s')
      end
  | (inr _, s') => (inl (go_metadata name), s')
  end.

(** [name.replace("/", "_")]. *)
Definition safe_name (name : string) : string := smap (fun c => if Ascii.eqb c "/" then "_"%char else c) name.

Definition download_module (name version : string) : net FetchResult :=
  work ← mkdtemp (safe_name name +:+ "-" +:+ version +:+ "-");
  resp ← client_get (_build_zip_url name version);
  if r_status resp =? 404 then raise (NoFiles ("module not found: " +:+ name +:+ "@" +:+ version))
  else if r_status resp =? 410 then raise (NoFiles ("module gone (yanked): " +:+ name +:+ "@" +:+ version))
  else
    _ ← raise_for_status resp;
    md ← go_info name version;
    mret (mkFetch [mkArchive (dest_of work (safe_name name +:+ "-" +:+ version +:+ ".zip")) "gomod_zip" (hexdigest sha256 (r_body resp))] (JObj md)).

(** The adapters' [fetch]. *)
Definition fetch (eco name version : string) : option (net FetchResult) :=
  if String.eqb eco "pypi" then Some (download_all name version)
  else if String.eqb eco "npm" then Some (download_tarball name version)
  else if String.eqb eco "crates" then Some (download_crate name version)
  else if String.eqb eco "gomod" then Some (download_module name version)
  else None.

End Downloads.

(** ** Work directories and rates *)

(** [sweep_orphans] over the entries of the work root with their modification times ([None]:
    [stat] raises): what is left, and the number of those removed. *)
Definition sweep_orphans (now max_age_seconds : Z) (entries : list (string * option Z)) : list (string * option Z) * nat :=
  let old e := match e.2 with Some t => max_age_seconds <? now - t | None => false end in
  (bfilter (fun e => negb (old e)) entries, List.length (bfilter old entries)).

(** [_RateLimiter.acquire] at [now], in microseconds: when it returns, and the next slot. *)
Definition acquire (interval next now : Z) : Z * Z :=
  if interval =? 0 then (now, next) else let granted := Z.max now next in (granted, granted + interval).
Fixpoint grants (interval next : Z) (nows : list Z) : list Z :=
  match nows with [] => [] | now :: nows' => let (g, next') := acquire interval next now in g :: grants interval next' nows' end.

(** ** What the pipeline makes of the result *)

(** [None]: metadata that is no object, on which the pipeline fails later. *)
Definition fetched_of (r : FetchResult + exception) : option fetched :=
  match r with
  | inl (mkFetch arcs md) => match json_or md (JObj []) with JObj o => Some (FetchOk arcs o) | _ => None end
  | inr (NoFiles msg) => Some (NoFilesError msg)
  | inr (Integrity msg) => Some (IntegrityError msg)
  | inr (Other err) => Some (FetchRaised err)
  end.

(** ** Reasoning about downloads *)

Lemma net_bind_inl {A B} (m : net A) (k : A -> net B) s b s' :
  (m ≫= k) s = (inl b, s') <-> exists a s1, m s = (inl a, s1) /\ k a s1 = (inl b, s').
Proof. unfold mbind, net_bind. destruct (m s) as [[a|e] s1]; split; [intros H; by exists a, s1|intros (? & ? & ? & ?); by simplify_eq|done|intros (? & ? & ? & ?); by simplify_eq]. Qed.

(** The requests of an operation come after those made before. *)
Definition grows {A} (m : net A) : Prop := forall s, asked s `prefix_of` asked (m s).2.

Create HintDb grows.
Lemma grows_ret {A} (a : A) : grows (mret a).
Proof. by intros s. Qed.
Lemma grows_raise {A} e : grows (@raise A e).
Proof. by intros s. Qed.
Lemma grows_of_option {A} err (o : option A) : grows (of_option err o).
Proof. intros st. by destruct o. Qed.
Lemma grows_bind {A B} (m : net A) (k : A -> net B) : grows m -> (forall a, grows (k a)) -> grows (m ≫= k).
Proof.
  intros Hm Hk s. unfold mbind, net_bind. specialize (Hm s). destruct (m s) as [[a|e] s1]; [|exact Hm].
  etransitivity; [exact Hm|apply Hk].
Qed.
Lemma grows_sleep n : grows (sleep n).
Proof. by intros s. Qed.
Lemma grows_mapM {A B} (f : A -> net B) l : (forall a, grows (f a)) -> grows (mapM f l).
Proof. intros Hf. induction l as [|a l IH]; cbn [mapM]; [apply grows_ret|]. apply grows_bind; [done|]. intros b. apply grows_bind; [exact IH|]. intros. apply grows_ret. Qed.
Lemma grows_gather {A} (l : list (net A)) : Forall grows l -> grows (gather l).
Proof.
  induction 1 as [|t ts Ht _ IH]; intros s; cbn [gather]; [done|]. specialize (Ht s). destruct (t s) as [r s1]. specialize (IH s1).
  destruct (gather ts s1) as [rs s2]. cbn [snd] in *. destruct r, rs; cbn [snd]; by etransitivity.
Qed.
#[local] Hint Resolve grows_ret grows_raise grows_of_option grows_sleep : grows.
Ltac grows := repeat first [done | progress auto with grows | apply grows_bind; [|intros ?] | case_match].

Section Fetched.
Context (server : list string -> string -> reply) (loads : string -> option json) (str_of : json -> string).
Context (hash_named : string -> algorithm) (sha1 sha256 : string -> string) (mkdtemp_at : list string -> string -> option string) (second_first : bool).

Lemma grows_get url : grows (client_get server url).
Proof. intros s. unfold client_get. destruct (server (asked s) url); cbn [snd asked]; by eexists. Qed.
Lemma grows_mkdtemp p : grows (mkdtemp mkdtemp_at p).
Proof. intros s. unfold mkdtemp. by destruct (mkdtemp_at (dirs s) p). Qed.
Lemma grows_as_dict v : grows (as_dict v).
Proof. intros st. by destruct v. Qed.
Lemma grows_as_items v : grows (as_items v).
Proof. intros st. by destruct v. Qed.
Lemma grows_as_str v : grows (as_str v).
Proof. intros st. by destruct v. Qed.
#[local] Hint Resolve grows_get grows_mkdtemp grows_as_dict grows_as_items grows_as_str : grows.

(** [body] was the content of a successful answer to a request for [url]. *)
Definition served (s : io) (url body : string) : Prop :=
  exists before ra st, (before ++ [url]) `prefix_of` asked s /\ server before url = Answer st ra body /\ 200 <= st < 300.

Lemma served_mono s s' url body : served s url body -> asked s `prefix_of` asked s' -> served s' url body.
Proof. intros (b & ra & st & Hp & H) Hs. exists b, ra, st. split; [by etransitivity|done]. Qed.

Lemma get_served url s r s' : client_get server url s = (inl r, s') -> is_success r = true -> served s' url (r_body r).
Proof.
  unfold client_get, is_success. intros H Hs. destruct (server (asked s) url) as [|st ra body] eqn:E; [done|]. injection H as <- <-.
  apply andb_true_iff in Hs as [H1%Z.leb_le H2%Z.ltb_lt]. exists (asked s), ra, st. by split_and!.
Qed.
Lemma raise_for_status_ok r s s' u : raise_for_status r s = (inl u, s') <-> is_success r = true /\ s' = s.
Proof. unfold raise_for_status, mret, net_ret, raise. destruct u, (is_success r); naive_solver. Qed.

(** Where the integrity field is a subresource digest. *)
Definition sri_matches (dist : list (string * json)) (content : string) : Prop :=
  exists i h, jget "integrity" dist JNull = JStr i /\ has_char "-" i = true /\
    hash_named (before_first "-" i) = Fixed h /\ b64decode (ostr (after_first "-" i)) = Some (h content).
Definition no_sri (dist : list (string * json)) : Prop :=
  json_truthy (jget "integrity" dist JNull) = false \/ has_dash (jget "integrity" dist JNull) = Some false.
Definition shasum_matches (dist : list (string * json)) (content : string) : Prop :=
  exists x, jget "shasum" dist JNull = JStr x /\ x <> "" /\ lower x = hexdigest sha1 content.

Lemma check_shasum_ok content dist label s s' u : check_shasum sha1 content dist label s = (inl u, s') <-> s' = s /\ shasum_matches dist content.
Proof.
  unfold check_shasum, shasum_matches, mret, net_ret, raise. destruct u. destruct (json_truthy _) eqn:Et.
  - destruct (jget "shasum" dist JNull) as [| | | |x| |]; try (split; [done|by intros (? & ? & ? & _)]).
    cbn [json_truthy] in Et. unfold truthy in Et. apply negb_true_iff, String.eqb_neq in Et. destruct (String.eqb_spec (hexdigest sha1 content) (lower x)) as [E|E].
    + split; [intros [= <-]; split; [done|by exists x]|by intros [-> _]].
    + split; [done|]. intros (-> & y & [= <-] & _ & Hy). congruence.
  - split; [done|]. intros (-> & x & Hx & Hne & _). rewrite Hx in Et. cbn [json_truthy] in Et. unfold truthy in Et. apply negb_false_iff, String.eqb_eq in Et. done.
Qed.
Lemma check_sri_ok content i label s s' u : check_sri hash_named content i label s = (inl u, s') <->
  s' = s /\ exists h, hash_named (before_first "-" i) = Fixed h /\ b64decode (ostr (after_first "-" i)) = Some (h content).
Proof.
  unfold check_sri, mret, net_ret, raise. destruct u. cbv zeta. destruct (b64decode _) as [e|]; [|split; [done|by intros (_ & ? & _ & ?)]].
  destruct (hash_named _) as [|h|]; [split; [done|by intros (_ & ? & ? & _)]| |split; [done|by intros (_ & ? & ? & _)]].
  destruct (String.eqb_spec (h content) e) as [<-|E]; [split; [intros [= <-]; split; [done|by exists h]|by intros [-> _]]|].
  split; [done|]. intros (_ & ? & [= <-] & [= ->]). done.
Qed.

(** What the integrity check of npm accepts. *)
Lemma verify_integrity_ok content dist label s s' u : _verify_integrity hash_named sha1 content dist label s = (inl u, s') <->
  s' = s /\ (sri_matches dist content \/ (no_sri dist /\ shasum_matches dist content)).
Proof.
  unfold _verify_integrity, sri_matches, no_sri. destruct (json_truthy (jget "integrity" dist JNull)) eqn:Et; cbn [negb].
  2: { rewrite check_shasum_ok. split; [naive_solver|]. intros [-> [(i & h & E & Hd & _)|[_ H]]]; [|done].
       rewrite E in Et. destruct i; [done|]. done. }
  destruct (jget "integrity" dist JNull) as [| | | |i| |] eqn:Ei; try done; cbn [has_dash] in *.
  all: try (split; [done|intros (_ & [(? & ? & ? & _)|[[?|?] _]]); done]).
  - destruct (has_char "-" i) eqn:Ed.
    + rewrite check_sri_ok. split; [intros [-> (h & H)]; split; [done|]; left; by exists i, h|]. intros (-> & [(j & h & [= <-] & _ & H)|[[?|?] _]]); try done. split; [done|by exists h].
    + rewrite check_shasum_ok. split; [naive_solver|]. intros (-> & [(j & h & [= <-] & ? & _)|[_ H]]); [congruence|done].
  - destruct (existsb _ l); [split; [done|intros (_ & [(? & ? & ? & _)|[[?|?] _]]); done]|]. rewrite check_shasum_ok. naive_solver.
  - destruct (existsb _ l); [split; [done|intros (_ & [(? & ? & ? & _)|[[?|?] _]]); done]|]. rewrite check_shasum_ok. naive_solver.
Qed.

(** The digest a PyPI entry publishes is right, or it publishes none. *)
Definition digest_agrees (e : list (string * json)) (content : string) : Prop :=
  exists d, json_or (jget "digests" e JNull) (JObj []) = JObj d /\
    (json_truthy (jget "sha256" d JNull) = false \/ exists x, jget "sha256" d JNull = JStr x /\ lower x = lower (hexdigest sha256 content)).

Lemma verify_target_ok label work files t s a s' : verify_target sha256 label work files t s = (inl a, s') ->
  let data := default "" (dget (tg_file t) files) in
  s' = s /\ a = mkArchive (dest_of work (tg_file t)) (tg_kind t) (hexdigest sha256 data) /\ digest_agrees (tg_entry t) data.
Proof.
  unfold verify_target, expected_sha256, digest_agrees. cbv zeta. intros (x & s1 & (d & s2 & Hd & Hx)%net_bind_inl & H)%net_bind_inl.
  unfold as_dict in Hd. destruct (json_or _ _) as [| | | | | |o] eqn:Eo; try done. injection Hd as <- <-. injection Hx as <- <-.
  destruct (json_truthy (jget "sha256" o JNull)) eqn:Et; [|injection H as <- <-; split_and!; [done..|]; exists o; auto].
  destruct (jget "sha256" o JNull) as [| | | |e| |] eqn:Ee; try done. destruct (String.eqb_spec (lower e) (lower (hexdigest sha256 (default "" (dget (tg_file t) files))))) as [El|El]; [|done].
  injection H as <- <-. split_and!; [done..|]. exists o. split; [done|]. right. by exists e.
Qed.

Lemma mapM_pure {A B} (f : A -> net B) (P : A -> B -> Prop) : (forall a s b s', f a s = (inl b, s') -> s' = s /\ P a b) ->
  forall l s bs s', mapM f l s = (inl bs, s') -> s' = s /\ Forall2 P l bs.
Proof.
  intros Hf. induction l as [|a l IH]; intros s bs s' H; cbn [mapM] in H; [by injection H as <- <-|].
  apply net_bind_inl in H as (b & s1 & [-> Hb]%Hf & (bs1 & s2 & [-> Hbs]%IH & [= <- <-])%net_bind_inl). split; [done|by constructor].
Qed.

Lemma pick_url_in urls p s o s' : _pick_url urls p s = (inl (Some o), s') -> JObj o ∈ urls.
Proof.
  induction urls as [|u urls IH]; intros H; cbn [_pick_url] in H; [done|]. apply net_bind_inl in H as (o1 & s1 & Hd & H).
  unfold as_dict in Hd. destruct u as [| | | | | |uo]; try done. injection Hd as <- <-.
  assert (_pick_url urls p s = (inl (Some o), s') -> JObj o ∈ JObj uo :: urls) as Hn by (intros ?; right; auto).
  destruct (jget "packagetype" uo JNull) as [| | | |t| |]; auto. destruct (String.eqb t p); [injection H as <- <-; by left|auto].
Qed.
Lemma pick_url_state urls p s r s' : _pick_url urls p s = (inl r, s') -> s' = s.
Proof.
  induction urls as [|u urls IH]; intros H; cbn [_pick_url] in H; [by injection H|]. apply net_bind_inl in H as (o1 & s1 & Hd & H).
  unfold as_dict in Hd. destruct u as [| | | | | |uo]; try done. injection Hd as <- <-.
  destruct (jget "packagetype" uo JNull) as [| | | |t| |]; auto. destruct (String.eqb t p); [by injection H|auto].
Qed.
Lemma target_of_ok entry kind s ts s' : target_of entry kind s = (inl ts, s') -> s' = s /\ Forall (fun t => entry = Some (tg_entry t)) ts.
Proof.
  unfold target_of. destruct entry as [e|]; [|intros [= <- <-]; split; [done|constructor]].
  intros (v & s1 & H1 & (fn & s2 & H2 & (url & s3 & H3 & [= <- <-])%net_bind_inl)%net_bind_inl)%net_bind_inl.
  unfold item, of_option in H1, H3. destruct (dget _ _); [|done]. injection H1 as -> <-. destruct (dget _ _); [|done]. injection H3 as -> <-.
  destruct v; try done. injection H2 as -> <-. split; [done|]. by repeat constructor.
Qed.

Lemma download_served url s c s' : _download_url server url s = (inl c, s') -> exists u, served s' u c.
Proof.
  unfold _download_url. intros (u & s1 & _ & (r & s2 & Hg & (t & s3 & [Hs ->]%raise_for_status_ok & [= <- <-])%net_bind_inl)%net_bind_inl)%net_bind_inl.
  exists u. by eapply get_served.
Qed.
Lemma gather_served l s cs s' : gather (map (fun t => _download_url server (tg_url t)) l) s = (inl cs, s') ->
  List.length l = List.length cs /\ Forall (fun c => exists u, served s' u c) cs.
Proof.
  revert s cs. induction l as [|t l IH]; intros s cs H; cbn [map gather] in H; [injection H as <- <-; by split|].
  destruct (_download_url server (tg_url t) s) as [r s1] eqn:E1. destruct (gather _ s1) as [rs s2] eqn:E2.
  destruct r as [c|]; [|done]. destruct rs as [cs'|]; [|done]. injection H as <- <-. destruct (IH _ _ E2) as [Hl Hf]. split; [cbn; congruence|].
  constructor; [|done]. apply download_served in E1 as [u Hu]. exists u. apply (served_mono _ _ _ _ Hu).
  assert (grows (gather (map (fun t => _download_url server (tg_url t)) l))) as Hg; [|specialize (Hg s1); by rewrite E2 in Hg].
  apply grows_gather, Forall_forall. intros m (t' & -> & _)%list_elem_of_fmap. unfold _download_url, raise_for_status. grows.
Qed.

Lemma stored l cs : List.length l = List.length cs -> forall d : list (string * string),
  (forall (k c : string), dget k (fold_left (fun d tc => dset (tg_file tc.1) tc.2 d) (combine l cs) d) = Some c -> c ∈ cs \/ dget k d = Some c) /\
  (forall k : string, is_Some (dget k d) \/ k ∈ map tg_file l -> is_Some (dget k (fold_left (fun d tc => dset (tg_file tc.1) tc.2 d) (combine l cs) d))).
Proof.
  revert cs. induction l as [|t l IH]; intros [|c cs] Hl d; try done; cbn [combine fold_left].
  { split; [auto|]. cbn [map]. intros k [?|H]; [done|set_solver]. }
  injection Hl as Hl. destruct (IH cs Hl (dset (tg_file t) c d)) as [H1 H2]. cbn [fst snd]. split.
  - intros k c' [?|H]%H1; [left; by right|]. rewrite dget_dset in H. case_match; [injection H as <-; left; by left|by right].
  - intros k Hk. apply H2. rewrite dget_dset. destruct Hk as [Hk|[->|Hk]%elem_of_cons]; [left; case_match; [by eexists|done]|left; rewrite decide_True by done; by eexists|by right].
Qed.

(** The document of the registry for which [content] is right. *)
Inductive vouched (s : io) (name content : string) : string -> Prop :=
  | vouched_pypi version doc m urls e : served s (JSON_URL name version) doc -> loads doc = Some (JObj m) ->
      jget "urls" m JNull = JArr urls -> JObj e ∈ urls -> digest_agrees e content -> vouched s name content "pypi"
  | vouched_npm version doc manifest dist : served s (REGISTRY_BASE +:+ "/" +:+ _encode_name name +:+ "/" +:+ version) doc -> loads doc = Some (JObj manifest) ->
      jget "dist" manifest JNull = JObj dist -> sri_matches dist content \/ (no_sri dist /\ shasum_matches dist content) -> vouched s name content "npm"
  | vouched_crates version doc m v : served s (_build_api_url name version) doc -> loads doc = Some (JObj m) ->
      jget "version" m (JObj []) = JObj v -> jget "checksum" v JEmpty = JStr (hexdigest sha256 content) -> vouched s name content "crates".

Definition sound (eco name : string) (s : io) (r : FetchResult) : Prop :=
  archives r <> [] /\ Forall (fun a => exists url content, served s url content /\ arc_sha256 a = hexdigest sha256 content /\
    (eco <> "gomod" -> vouched s name content eco)) (archives r).

Lemma elem_of_rev {A} (l : list A) x : x ∈ rev l <-> x ∈ l.
Proof. by rewrite !list_elem_of_In, <- in_rev. Qed.
Lemma removing_inl {A} work (m : net A) s a s' : removing work m s = (inl a, s') -> m s = (inl a, s').
Proof. unfold removing. by destruct (m s) as [[?|?] ?]. Qed.

Lemma get_json_served url s v s' : (r ← client_get server url; _ ← raise_for_status r; json_of loads r) s = (inl v, s') ->
  exists doc, served s' url doc /\ loads doc = Some v.
Proof.
  intros (r & s1 & Hg & (u & s2 & [Hs ->]%raise_for_status_ok & Hj)%net_bind_inl)%net_bind_inl. unfold json_of, of_option in Hj.
  destruct (loads (r_body r)) eqn:El; [|done]. injection Hj as <- <-. exists (r_body r). split; [by eapply get_served|done].
Qed.
Lemma as_dict_ok v s o s' : as_dict v s = (inl o, s') <-> v = JObj o /\ s' = s.
Proof. unfold as_dict, mret, net_ret, raise. destruct v; naive_solver. Qed.

Lemma pypi_sound name version s r s' : download_all server loads sha256 mkdtemp_at second_first name version s = (inl r, s') -> sound "pypi" name s' r.
Proof.
  intros (work & s0 & _ & H%removing_inl)%net_bind_inl. unfold pypi_body, _get_json in H.
  apply net_bind_inl in H as (meta & s1 & (doc & Hdoc & Hl)%get_json_served & (m & s2 & [-> ->]%as_dict_ok & (urls & s3 & Hu & (sd & s4 & Hsd & (wh & s5 & Hwh & (t1 & s6 & Ht1 & (t2 & s7 & Ht2 & H)%net_bind_inl)%net_bind_inl)%net_bind_inl)%net_bind_inl)%net_bind_inl)%net_bind_inl).
  pose proof Hsd as ->%pick_url_state. pose proof Hwh as ->%pick_url_state. apply target_of_ok in Ht1 as [-> Ht1]. apply target_of_ok in Ht2 as [-> Ht2].
  cbv zeta in H. destruct (bool_decide_reflect (t1 ++ t2 = [])) as [|Hne]; [done|].
  assert (forall t, t ∈ t1 ++ t2 -> JObj (tg_entry t) ∈ urls) as Hin.
  { intros t [Ht|Ht]%elem_of_app; [rewrite Forall_forall in Ht1; specialize (Ht1 t Ht); subst sd; by eapply pick_url_in|rewrite Forall_forall in Ht2; specialize (Ht2 t Ht); subst wh; by eapply pick_url_in]. }
  assert (s3 = s1 /\ (urls = [] \/ jget "urls" m JNull = JArr urls \/ forall x o, x ∈ urls -> x <> JObj o)) as [-> Hk].
  { destruct (json_truthy (jget "urls" m JNull)); [|by injection Hu as <- <-; auto]. unfold as_items in Hu. destruct (jget "urls" m JNull); try done; injection Hu as <- <-; (split; [done|]); auto;
      right; right; intros x o (y & -> & _)%list_elem_of_fmap; done. }
  apply net_bind_inl in H as (cs & s8 & Hg & (arcs & s9 & Hm & [= <- <-])%net_bind_inl).
  set (order := if second_first then _ else _) in *. pose proof (gather_served _ _ _ _ Hg) as [Hlen Hserved].
  assert (grows (gather (map (fun t => _download_url server (tg_url t)) order))) as Hgr.
  { apply grows_gather, Forall_forall. intros mm (t' & -> & _)%list_elem_of_fmap. unfold _download_url, raise_for_status. grows. }
  specialize (Hgr s1). rewrite Hg in Hgr. cbn [snd] in Hgr. destruct (stored order cs Hlen []) as [Hs1 Hs2].
  eapply (mapM_pure _ (fun t a => a = _ /\ digest_agrees (tg_entry t) _)) in Hm as [-> Hm]; [|intros t st a st' Hv; exact (verify_target_ok _ _ _ _ _ _ _ Hv)].
  split; cbn [archives].
  - intros ->. apply Forall2_nil_inv_r in Hm. done.
  - apply Forall_forall. intros a [i Ha]%list_elem_of_lookup_1. destruct (Forall2_lookup_r _ _ _ _ _ Hm Ha) as (t & Ht%list_elem_of_lookup_2 & -> & Hd).
    assert (t ∈ order) as Ho by (subst order; destruct second_first; [by apply elem_of_rev|done]).
    destruct (Hs2 (tg_file t)) as [c Hc]; [right; apply list_elem_of_fmap; by exists t|]. pose proof Hc as [Hcc|?]%Hs1; [|done].
    cbv zeta in Hd |- *. rewrite Hc in Hd |- *. cbn [default arc_sha256] in *. rewrite Forall_forall in Hserved. destruct (Hserved c Hcc) as [u Hc'].
    exists u, c. split_and!; [exact Hc'|done|]. intros _. specialize (Hin t Ht).
    destruct Hk as [->|[Hk|Hk]]; [by apply elem_of_nil in Hin| |by destruct (Hk _ _ Hin eq_refl)].
    eapply (vouched_pypi _ _ _ version doc m urls (tg_entry t)); try done. by eapply served_mono.
Qed.

Lemma retry_served left url delay s r s' : retry_loop server left url delay s = (inl r, s') -> is_success r = true -> served s' url (r_body r).
Proof.
  revert delay s. induction left as [|left IH]; intros delay s H Hs; cbn [retry_loop] in H; apply net_bind_inl in H as (x & s1 & Hg & H);
    (destruct (negb (throttled x)); [injection H as <- <-; by eapply get_served|]).
  - injection H as <- <-. by eapply get_served.
  - apply net_bind_inl in H as (u & s2 & [= <- <-] & H). by eapply IH.
Qed.

Lemma npm_sound name version s r s' : download_tarball server loads str_of hash_named sha1 sha256 mkdtemp_at name version s = (inl r, s') -> sound "npm" name s' r.
Proof.
  intros (doc & s1 & Hman & (manifest & s2 & [-> ->]%as_dict_ok & (dist & s3 & [Hdist ->]%as_dict_ok & H)%net_bind_inl)%net_bind_inl)%net_bind_inl.
  unfold _get_manifest in Hman. apply net_bind_inl in Hman as (mr & s2 & Hret & Hman). destruct (r_status mr =? 404); [done|].
  apply net_bind_inl in Hman as (u & s3 & [Hs ->]%raise_for_status_ok & Hj). unfold json_of, of_option in Hj. destruct (loads (r_body mr)) eqn:El; [|done]. injection Hj as -> <-.
  cbv zeta in H. destruct (json_truthy (jget "tarball" dist JNull)) eqn:Et; cbn [negb] in H; [|done].
  apply net_bind_inl in H as (work & s4 & Hw & (url & s5 & Hu & (resp & s6 & Hg & H)%net_bind_inl)%net_bind_inl).
  destruct (r_status resp =? 404); [done|]. apply net_bind_inl in H as (u1 & s7 & [Hs1 ->]%raise_for_status_ok & (u2 & s8 & [-> Hv]%verify_integrity_ok & [= <- <-])%net_bind_inl).
  split; [done|]. cbn [archives]. constructor; [|constructor]. exists url, (r_body resp). split_and!; [by eapply get_served|done|]. intros _.
  pose proof (grows_get url s5) as G1. rewrite Hg in G1. pose proof (grows_as_str (jget "tarball" dist JNull) s4) as G2. rewrite Hu in G2.
  match type of Hw with mkdtemp _ ?p _ = _ => pose proof (grows_mkdtemp p s2) as G3; rewrite Hw in G3 end. cbn [snd] in *.
  eapply vouched_npm; [|exact El| |exact Hv].
  - eapply served_mono; [by eapply retry_served|]. by repeat (etransitivity; [eassumption|]).
  - unfold json_or in Hdist. destruct (json_truthy (jget "dist" manifest JNull)); [exact Hdist|]. by injection Hdist as <-.
Qed.

Lemma crates_sound name version s r s' : download_crate server loads str_of sha256 mkdtemp_at name version s = (inl r, s') -> sound "crates" name s' r.
Proof.
  intros (v & s1 & _ & (work & s2 & _ & (ck & s3 & Hck & (resp & s4 & Hg & H)%net_bind_inl)%net_bind_inl)%net_bind_inl)%net_bind_inl.
  unfold _get_expected_checksum, api_field in Hck. apply net_bind_inl in Hck as (ck0 & s3' & Hf & Hck).
  destruct (json_truthy ck0); [|done]. injection Hck as -> ->.
  apply net_bind_inl in Hf as (ar & t1 & Hag & (u & t2 & [= <- <-] & (u1 & t3 & [Hs ->]%raise_for_status_ok & (data & t4 & Hj & (d & t5 & [-> ->]%as_dict_ok & (o & t6 & [Ho ->]%as_dict_ok & [= Hcks <-])%net_bind_inl)%net_bind_inl)%net_bind_inl)%net_bind_inl)%net_bind_inl).
  unfold json_of, of_option in Hj. destruct (loads (r_body ar)) eqn:El; [|done]. injection Hj as -> <-.
  destruct (r_status resp =? 404); [done|]. apply net_bind_inl in H as (u2 & s5 & [Hs1 ->]%raise_for_status_ok & H). cbv zeta in H.
  apply net_bind_inl in H as (u3 & s6 & Hc & (cr & s7 & Hg2 & (u4 & s8 & [= <- <-] & (md & s9 & Hmd & [= <- <-])%net_bind_inl)%net_bind_inl)%net_bind_inl).
  unfold check_sha256 in Hc. destruct ck as [| | | |e| |]; try done. destruct (String.eqb_spec (hexdigest sha256 (r_body resp)) e) as [He|]; [|done]. injection Hc as <- <-.
  pose proof (grows_get (_build_download_url name v) (mkIo (asked t1) (slept t1 ++ [1]) (dirs t1))) as G1. rewrite Hg in G1.
  pose proof (grows_get (API_BASE +:+ "/" +:+ name) s4) as G2. rewrite Hg2 in G2.
  assert (grows (crate_metadata loads v cr)) as G3.
  { unfold crate_metadata, join_items, json_of. grows; [generalize a1 as l; induction l as [|x l IH]; cbn [published_by]; grows|apply grows_mapM; grows]. }
  specialize (G3 (mkIo (asked s7) (slept s7 ++ [1]) (dirs s7))). rewrite Hmd in G3. cbn [snd asked] in *.
  split; [done|]. constructor; [|constructor]. exists (_build_download_url name v), (r_body resp).
  split_and!; [|done|intros _; eapply vouched_crates; [|exact El|exact Ho|by rewrite He]].
  - eapply served_mono; [by eapply get_served|]. by etransitivity.
  - eapply served_mono; [by eapply get_served|]. by repeat (etransitivity; [eassumption|]).
Qed.

Lemma gomod_sound name version s r s' : download_module server loads sha256 mkdtemp_at name version s = (inl r, s') -> sound "gomod" name s' r.
Proof.
  intros (work & s1 & _ & (resp & s2 & Hg & H)%net_bind_inl)%net_bind_inl. destruct (r_status resp =? 404); [done|]. destruct (r_status resp =? 410); [done|].
  apply net_bind_inl in H as (u & s3 & [Hs ->]%raise_for_status_ok & (md & s4 & Hi & [= <- <-])%net_bind_inl).
  assert (asked s2 `prefix_of` asked s4) as G.
  { pose proof (grows_get (_build_info_url name version) s2) as G. unfold go_info in Hi. destruct (client_get _ _ s2) as [[x|e] s5]; [case_match|]; by injection Hi as _ <-. }
  split; [done|]. constructor; [|constructor]. exists (_build_zip_url name version), (r_body resp). split_and!; [|done|done].
  eapply served_mono; [by eapply get_served|done].
Qed.

(** C14. Nothing unverified is analysed.  Whatever the servers answer, every archive that a
    fetch returns holds what a successful answer to one of its requests held, under its own
    SHA-256; and the registry itself vouched for it in a document the fetch asked for: the digest of a PyPI
    entry, where it publishes one, the subresource digest or else the SHA-1 of an npm version, the
    checksum of a crate.  Only for Go modules is nothing compared. *)
Theorem fetch_verified eco name version m s r s'
  (Hm : fetch server loads str_of hash_named sha1 sha256 mkdtemp_at second_first eco name version = Some m) (H : m s = (inl r, s')) :
  archives r <> [] /\ Forall (fun a => exists url content, served s' url content /\ arc_sha256 a = hexlify (sha256 content) /\
    (eco <> "gomod" -> vouched s' name content eco)) (archives r).
Proof.
  unfold fetch in Hm. destruct (String.eqb_spec eco "pypi") as [->|]; [injection Hm as <-; by eapply pypi_sound|].
  destruct (String.eqb_spec eco "npm") as [->|]; [injection Hm as <-; by eapply npm_sound|].
  destruct (String.eqb_spec eco "crates") as [->|]; [injection Hm as <-; by eapply crates_sound|].
  destruct (String.eqb_spec eco "gomod") as [->|]; [injection Hm as <-; by eapply gomod_sound|done].
Qed.

(** ** Retries *)

Lemma retry_bounded left url delay s r s' : retry_loop server left url delay s = (r, s') -> exists k, (k <= left)%nat /\
  asked s' = asked s ++ repeat url (S k) /\ dirs s' = dirs s /\ (exists ws, slept s' = slept s ++ ws /\ List.length ws = k /\ Forall (fun w : Z => w <= 30) ws) /\
  (forall resp, r = inl resp -> throttled resp = false \/ k = left).
Proof.
  revert delay s. induction left as [|left IH]; intros delay s; cbn [retry_loop]; unfold mbind at 1, net_bind at 1, client_get at 1;
    (destruct (server (asked s) url) as [err|st ra body];
      [intros [= <- <-]; exists 0%nat; split_and!; [lia|done|done|exists []; by rewrite app_nil_r|done]|]).
  all: destruct (throttled _) eqn:Et; cbn [negb]; [|intros [= <- <-]; exists 0%nat; split_and!; [lia|done|done|exists []; by rewrite app_nil_r|]; intros ? [= <-]; by left].
  - intros [= <- <-]. exists 0%nat. split_and!; [lia|done|done|exists []; by rewrite app_nil_r|]. intros ? _. by right.
  - cbn [r_retry_after]. unfold mbind, net_bind. cbn [sleep]. intros (k & Hk & Ha & Hd & (ws & Hw & Hl & Hf) & Hr)%IH. cbn [asked slept dirs] in *. exists (S k). split_and!.
    + lia.
    + rewrite Ha, <- app_assoc. reflexivity.
    + done.
    + eexists (_ :: ws). rewrite Hw, <- app_assoc. split_and!; [reflexivity|cbn; lia|]. constructor; [lia|done].
    + intros resp Hresp. destruct (Hr resp Hresp); [by left|right; lia].
Qed.
End Fetched.

(** Grants stand at least the interval apart, and none before its caller's time. *)
Lemma grants_apart interval next nows : 0 < interval ->
  StronglySorted (fun a b => a + interval <= b) (grants interval next nows) /\ Forall2 (fun now g => now <= g) nows (grants interval next nows).
Proof.
  intros Hi. revert next. induction nows as [|now nows IH]; intros next; cbn [grants]; [split; constructor|]. unfold acquire. rewrite (proj2 (Z.eqb_neq _ _)) by lia.
  destruct (IH (Z.max now next + interval)) as [H1 H2]. split; [|constructor; [lia|done]]. constructor; [done|]. clear -Hi.
  generalize (Z.max now next). intros g. apply Forall_forall. intros x Hx. revert x g Hx. induction nows as [|n nows IH]; intros x g; cbn [grants]; [by intros ?%elem_of_nil|].
  unfold acquire. rewrite (proj2 (Z.eqb_neq _ _)) by lia. intros [->|Hx]%elem_of_cons; [lia|]. apply IH in Hx. lia.
Qed.

(** ** Names in addresses *)

Lemma concat_cons (x : string) l : String.concat "" (x :: l) = x +:+ String.concat "" l.
Proof. destruct l; cbn [String.concat]; [by rewrite str_app_nil_r|done]. Qed.

Lemma unquote_char c s : Ascii.eqb PCT c = false -> unquote_to_bytes (String c s) = String c (unquote_to_bytes s).
Proof.
  intros H. unfold unquote_to_bytes. cbn [split]. rewrite H. pose proof (split_nonempty PCT s). by destruct (split PCT s).
Qed.
Lemma unquote_escape h l a b s : hexval h = Some a -> hexval l = Some b -> Ascii.eqb PCT h = false -> Ascii.eqb PCT l = false ->
  unquote_to_bytes (String PCT (String h (String l s))) = String (chr (a * 16 + b)) (unquote_to_bytes s).
Proof.
  intros Ha Hb Hh Hl. unfold unquote_to_bytes. cbn [split]. rewrite Ascii.eqb_refl, Hh, Hl. pose proof (split_nonempty PCT s). destruct (split PCT s) as [|w ws]; [done|].
  cbn [map]. rewrite concat_cons. cbn [unquote_item]. by rewrite Ha, Hb.
Qed.

Lemma upper_pair c : exists h l, upper_hex (hex_pair c) = String h (String l "") /\ hexval h = Some (code c / 16) /\ hexval l = Some (code c mod 16) /\
  Ascii.eqb PCT h = false /\ Ascii.eqb PCT l = false.
Proof.
  unfold hex_pair, upper_hex. cbn [smap]. eexists _, _. split; [reflexivity|]. by destruct c as [[] [] [] [] [] [] [] []].
Qed.

(** What [quote] makes of a character. *)
Definition path_safe (c : ascii) : bool := unreserved c || Ascii.eqb c PCT || Ascii.eqb c "@".
Lemma quote_char c t : (if unreserved c then String c "" else String PCT (upper_hex (hex_pair c))) = t ->
  (forall s, unquote_to_bytes (t +:+ s) = String c (unquote_to_bytes s)) /\ str_forall path_safe t = true.
Proof.
  intros <-. split; [intros s|by destruct c as [[] [] [] [] [] [] [] []]]. destruct (unreserved c) eqn:E.
  - apply unquote_char. destruct (Ascii.eqb_spec PCT c) as [<-|]; done.
  - destruct (upper_pair c) as (h & l & -> & Hh & Hl & Ph & Pl). change (String PCT (String h (String l "")) +:+ s) with (String PCT (String h (String l s))).
    by rewrite (unquote_escape _ _ _ _ _ Hh Hl Ph Pl), chr_nibbles.
Qed.

Lemma unquote_quote s t : unquote_to_bytes (quote s +:+ t) = s +:+ unquote_to_bytes t.
Proof.
  unfold quote. induction s as [|c s IH]; [done|]. cbn [each]. rewrite str_app_assoc, (proj1 (quote_char c _ eq_refl)), IH. reflexivity.
Qed.
Lemma quote_safe s : str_forall path_safe (quote s) = true.
Proof. unfold quote. induction s as [|c s IH]; [done|]. cbn [each]. by rewrite str_forall_app, (proj2 (quote_char c _ eq_refl)), IH. Qed.

Lemma before_after c s t : after_first c s = Some t -> s = before_first c s +:+ String c t.
Proof.
  unfold before_first. induction s as [|d s IH]; cbn [after_first split]; [done|]. destruct (Ascii.eqb_spec c d) as [->|]; [by intros [= ->]|].
  intros H. specialize (IH H). pose proof (split_nonempty c s). destruct (split c s); [done|]. rewrite append_cons. by rewrite IH at 1.
Qed.

(** Package names cannot leave their place in an address.  The encoded name of any npm package,
    scoped or not, decodes to the name, so two packages never share an address; and it has no slash, question mark or
    number sign, so no name reaches another path, a query or a fragment. *)
Theorem encode_name_roundtrip name : let e := _encode_name name in
  unquote_to_bytes e = name /\ has_char "/" e = false /\ has_char "?" e = false /\ has_char "#" e = false.
Proof.
  cbv zeta. assert (unquote_to_bytes (_encode_name name) = name /\ str_forall path_safe (_encode_name name) = true) as [H1 H2].
  { assert (unquote_to_bytes (quote name) = name /\ str_forall path_safe (quote name) = true) as Hq.
    { split; [|apply quote_safe]. pose proof (unquote_quote name "") as E. rewrite !str_app_nil_r in E. exact E. }
    destruct name as [|c s]; [exact Hq|]. unfold _encode_name. cbv zeta. destruct (Ascii.eqb_spec c "@") as [->|]; [|exact Hq]. cbn [andb].
    destruct (truthy (ostr (after_first "/" s))) eqn:Et; [|exact Hq]. destruct (after_first "/" s) as [pkg|] eqn:Ea; [|done]. change (ostr (Some pkg)) with pkg. split.
    - change ("@" +:+ ?x) with (String "@" x). rewrite unquote_char by done. f_equal. rewrite unquote_quote. change ("%2f" +:+ ?x) with (String PCT (String "2" (String "f" x))).
      rewrite (unquote_escape _ _ 2 15) by done. pose proof (unquote_quote pkg "") as E. rewrite !str_app_nil_r in E. rewrite E. symmetry. by apply before_after.
    - rewrite !str_forall_app, !quote_safe. done. }
  split; [exact H1|]. revert H2. generalize (_encode_name name). clear. intros e H. assert (forall c, path_safe c = false -> has_char c e = false) as Hc; [|split_and!; by apply Hc].
  intros c Hc. induction e as [|d e IH]; [done|]. cbn [str_forall has_char] in *. apply andb_true_iff in H as [Hd H]. destruct (Ascii.eqb_spec c d) as [->|]; [congruence|by apply IH].
Qed.

(** Go's encoding loses nothing of a path without exclamation marks. *)
Fixpoint case_decode (s : string) : string :=
  match s with
  | String "!" (String c s') => String (if is_lower c then chr (code c - 32) else c) (case_decode s')
  | String c s' => String c (case_decode s')
  | EmptyString => EmptyString
  end.
Lemma case_roundtrip path : has_char "!" path = false -> case_decode (case_encode path) = path.
Proof.
  unfold case_encode. induction path as [|c p IH]; [done|]. cbn [has_char each]. intros [Hc Hp]%orb_false_iff. specialize (IH Hp).
  assert (forall s, case_decode ((if is_upper c then String "!" (String (lower_char c) "") else String c "") +:+ s) = String c (case_decode s)) as E.
  { intros s. destruct c as [[] [] [] [] [] [] [] []]; first [discriminate Hc|reflexivity]. }
  by rewrite E, IH.
Qed.

(** ** Tampering *)

Section Tampered.
Context (server : list string -> string -> reply) (loads : string -> option json) (str_of : json -> string).
Context (hash_named : string -> algorithm) (sha1 sha256 : string -> string) (mkdtemp_at : list string -> string -> option string).

Lemma net_bind_step {A B} (m : net A) (k : A -> net B) s a s1 : m s = (inl a, s1) -> (m ≫= k) s = k a s1.
Proof. unfold mbind, net_bind. by intros ->. Qed.
Lemma net_bind_err {A B} (m : net A) (k : A -> net B) s e s1 : m s = (inr e, s1) -> (m ≫= k) s = (inr e, s1).
Proof. unfold mbind, net_bind. by intros ->. Qed.

Lemma bad_digest content dist label i h s : jget "integrity" dist JNull = JStr i -> has_char "-" i = true ->
  hash_named (before_first "-" i) = Fixed h -> b64decode (ostr (after_first "-" i)) <> Some (h content) ->
  exists msg, _verify_integrity hash_named sha1 content dist label s = (inr (Integrity msg), s).
Proof.
  intros Hi Hd Hh Hb. unfold _verify_integrity, check_sri. rewrite Hi. assert (truthy i = true) as Ht by (destruct i; [discriminate Hd|done]).
  cbn [json_truthy has_dash]. rewrite Ht, Hd, Hh. cbv zeta. destruct (b64decode _) as [e|]; [|by eexists].
  destruct (String.eqb_spec (h content) e) as [<-|]; [done|by eexists].
Qed.

(** An archive refused for its digest convicts the package. *)
Lemma refused_convicts extract static now row token adapter d msg : exists inp,
  Process.gather extract static now row token adapter (IntegrityError msg) d = inl inp /\ in_fetch_error inp = Some ("sha256_mismatch", msg) /\
  forall pack rank, sr_verdict (score_and_verdict pack (in_findings inp) rank) = VMalicious.
Proof.
  eexists. split; [reflexivity|]. split; [done|]. intros pack rank. by apply (critical_convicts _ _ _ (fetch_finding "sha256_mismatch" msg)); [left|..].
Qed.

(** C15. A tampered tarball convicts.  When the registry publishes a subresource digest of a known
    algorithm for an npm version and the tarball that is served does not have it, the fetch fails with an
    integrity error, whatever else the servers do, no archive reaches the analyzers, and the finding the
    pipeline records for the error makes the verdict malicious under every pack and rank. *)
Theorem tampering_convicts name version manifest dist url i h ra body s s1
  (Hm : _get_manifest server loads name version s = (inl (JObj manifest), s1))
  (Hd : jget "dist" manifest JNull = JObj dist) (Hu : jget "tarball" dist JNull = JStr url) (Hne : url <> "")
  (Hi : jget "integrity" dist JNull = JStr i) (Hdash : has_char "-" i = true) (Hh : hash_named (before_first "-" i) = Fixed h)
  (Hw : forall prefix, is_Some (mkdtemp_at (dirs s1) prefix)) (Hs : server (asked s1) url = Answer 200 ra body)
  (Hbad : b64decode (ostr (after_first "-" i)) <> Some (h body)) :
  exists msg s', download_tarball server loads str_of hash_named sha1 sha256 mkdtemp_at name version s = (inr (Integrity msg), s') /\
  forall extract static now row token adapter d, exists f inp, fetched_of (inr (Integrity msg)) = Some f /\
    Process.gather extract static now row token adapter f d = inl inp /\ in_archives inp = [] /\
    forall pack rank, sr_verdict (score_and_verdict pack (in_findings inp) rank) = VMalicious.
Proof.
  unfold download_tarball. rewrite (net_bind_step _ _ _ _ _ Hm). cbn [as_dict]. rewrite (net_bind_step _ _ s1 manifest s1) by done. cbv zeta.
  assert (dist <> []) as Hnil by (intros ->; discriminate Hu).
  rewrite Hd. replace (json_or (JObj dist) (JObj [])) with (JObj dist) by (by destruct dist).
  rewrite (net_bind_step _ _ s1 dist s1) by done. rewrite Hu. cbn [json_truthy]. replace (truthy url) with true by (destruct url; done). cbn [negb].
  match goal with |- context [mkdtemp _ ?p] => destruct (Hw p) as [w Hp] end.
  rewrite (net_bind_step _ _ s1 w (mkIo (asked s1) (slept s1) (dirs s1 ++ [w]))) by (unfold mkdtemp; by rewrite Hp).
  rewrite (net_bind_step _ _ _ url (mkIo (asked s1) (slept s1) (dirs s1 ++ [w]))) by done.
  rewrite (net_bind_step _ _ _ (mkResponse 200 ra body) (mkIo (asked s1 ++ [url]) (slept s1) (dirs s1 ++ [w]))) by (unfold client_get; cbn [asked]; by rewrite Hs).
  cbn [r_status]. change (200 =? 404) with false. cbv iota. set (s2 := mkIo _ _ _). rewrite (net_bind_step _ _ s2 tt s2) by done. cbn [r_body].
  edestruct (bad_digest body dist) as [msg Hv]; [done..|]. rewrite (net_bind_err _ _ _ _ _ Hv). exists msg, s2. split; [done|].
  intros. edestruct refused_convicts as (inp & Hg & _ & Hv'). exists (IntegrityError msg), inp. split_and!; [done|exact Hg|by injection Hg as <-|exact Hv'].
Qed.
End Tampered.

(** ** A concrete server *)

(** A stand-in for a hash function: the first four bytes. *)
Definition toy (s : string) : string := str_take 4 (s +:+ "....").
Definition ex_hash (name : string) : algorithm := if String.eqb name "sha512" then Fixed toy else if String.eqb name "shake_128" then Extendable else Unsupported.
Definition ex_manifest (integrity : string) : list (string * json) :=
  [("name", JStr "@s/p"); ("version", JStr "1.0.0"); ("_npmUser", JObj [("name", JStr "alice")]);
   ("dist", JObj [("tarball", JStr "https://r/p.tgz"); ("integrity", JStr integrity)])].
Definition ex_loads (body : string) : option json :=
  if String.eqb body "{npm}" then Some (JObj (ex_manifest ("sha512-" +:+ b64encode (toy "content"))))
  else if String.eqb body "{pypi}" then Some (JObj [("urls", JArr (map (fun kf => JObj [("packagetype", JStr kf.1); ("filename", JStr kf.2); ("url", JStr ("https://f/" +:+ kf.2))])
    [("sdist", "p.tar.gz"); ("bdist_wheel", "p-any.whl"); ("bdist_wheel", "p-linux.whl")]))])
  else None.
(** The tarball the server hands out is [tarball]; the first request for a manifest is throttled. *)
Definition ex_server (tarball : string) (before : list string) (url : string) : reply :=
  if String.eqb url "https://r/p.tgz" then Answer 200 "" tarball
  else if contains "registry.npmjs.org" url then (match before with [] => Answer 429 "7" "" | _ => Answer 200 "" "{npm}" end)
  else if contains "pypi.org" url then Answer 200 "" "{pypi}"
  else if contains "p-linux" url then Answer 500 "" "" else Answer 200 "" url.
Definition ex_tmp (_ : list string) (prefix : string) : option string := Some ("/tmp/pkgward/" +:+ prefix +:+ "x").
Definition ex_npm (tarball : string) : (FetchResult + exception) * io :=
  download_tarball (ex_server tarball) ex_loads (fun _ => "") ex_hash toy toy ex_tmp "@s/p" "latest" io0.

Lemma fetch_verified_witness : exists r s', ex_npm "content" = (inl r, s') /\ List.length (asked s') = 3%nat /\ archives r <> [] /\
  Forall (fun a => exists url content, served (ex_server "content") s' url content /\ arc_sha256 a = hexlify (toy content) /\
    ("npm" <> "gomod" -> vouched (ex_server "content") ex_loads ex_hash toy toy s' "@s/p" content "npm")) (archives r).
Proof.
  destruct (ex_npm "content") as [[r|e] s'] eqn:E; [|exfalso; revert E; by vm_compute]. exists r, s'.
  split_and!; [done|by (revert E; vm_compute; intros [= <- <-])|..];
    exact (proj1 (fetch_verified (ex_server "content") ex_loads (fun _ => "") ex_hash toy toy ex_tmp false "npm" "@s/p" "latest" _ io0 r s' eq_refl E)) ||
    exact (proj2 (fetch_verified (ex_server "content") ex_loads (fun _ => "") ex_hash toy toy ex_tmp false "npm" "@s/p" "latest" _ io0 r s' eq_refl E)).
Defined.

Lemma tampering_convicts_witness : exists msg s', ex_npm "coNtent" = (inr (Integrity msg), s') /\
  forall extract static now row token adapter d, exists f inp, fetched_of (inr (Integrity msg)) = Some f /\
    Process.gather extract static now row token adapter f d = inl inp /\ in_archives inp = [] /\
    forall pack rank, sr_verdict (score_and_verdict pack (in_findings inp) rank) = VMalicious.
Proof.
  refine (tampering_convicts (ex_server "coNtent") ex_loads (fun _ => "") ex_hash toy toy ex_tmp "@s/p" "latest" (ex_manifest ("sha512-" +:+ b64encode (toy "content")))
    [("tarball", JStr "https://r/p.tgz"); ("integrity", JStr ("sha512-" +:+ b64encode (toy "content")))] "https://r/p.tgz" ("sha512-" +:+ b64encode (toy "content")) toy "" "coNtent" io0
    (mkIo (repeat "https://registry.npmjs.org/@s%2fp/latest" 2) [7] []) _ eq_refl eq_refl _ eq_refl _ eq_refl _ eq_refl _); [by vm_compute|done|by vm_compute|by eexists|by vm_compute].
Defined.

(** The downloads over the example server: the requests, the pauses, the directories left, and the digest. *)
Definition ex_run (r : (FetchResult + exception) * io) : option (list string) * (list string * list Z * list string) :=
  (match r.1 with inl f => Some (map arc_path (archives f)) | inr _ => None end, (asked r.2, slept r.2, dirs r.2)).
Definition ex_pypi (tarball : string) : (FetchResult + exception) * io := download_all (ex_server tarball) ex_loads toy ex_tmp true "p" "1.0" io0.

Example npm_ex : ex_run (ex_npm "content") = (Some ["/tmp/pkgward/p-1.0.0-x/p-1.0.0.tgz"],
   (["https://registry.npmjs.org/@s%2fp/latest"; "https://registry.npmjs.org/@s%2fp/latest"; "https://r/p.tgz"], [7], ["/tmp/pkgward/p-1.0.0-x"])).
Proof. by vm_compute. Qed.

(** Of the wheels of a release only the first is fetched, so the others are not analysed. *)
Example second_wheel_unseen : ex_run (ex_pypi "") =
  (Some ["/tmp/pkgward/p-1.0-x/p.tar.gz"; "/tmp/pkgward/p-1.0-x/p-any.whl"],
   (["https://pypi.org/pypi/p/1.0/json"; "https://f/p-any.whl"; "https://f/p.tar.gz"], [], ["/tmp/pkgward/p-1.0-x"])).
Proof. by vm_compute. Qed.

(** A failing PyPI fetch removes its directory; a failing npm fetch leaves it to the sweep. *)
Example failures_leave : dirs (download_all (fun _ _ => Unreachable "timeout") ex_loads toy ex_tmp false "p" "1.0" io0).2 = [] /\ dirs (ex_npm "coNtent").2 = ["/tmp/pkgward/p-1.0.0-x"].
Proof. by vm_compute. Qed.

(** The module path is encoded, the version is not, although the proxy protocol asks for both. *)
Example version_not_encoded : _build_zip_url "github.com/BurntSushi/toml" "v1.0.0-RC1" = "https://proxy.golang.org/github.com/!burnt!sushi/toml/@v/v1.0.0-RC1.zip".
Proof. by vm_compute. Qed.

(** Names that are not scoped are encoded as well. *)
Example unscoped_encoded : map _encode_name ["left-pad"; "a b"; "@scope/pkg"; "@scope/"] = ["left-pad"; "a%20b"; "@scope%2fpkg"; "%40scope%2F"].
Proof. by vm_compute. Qed.

Example publishers : map _publisher_from_path ["github.com/o/r"; "github.com"; "k8s.io/api"; "std/x"] = [Some "github.com/o"; Some "github.com"; Some "k8s.io"; None].
Proof. by vm_compute. Qed.
