(* ===== verification/DetWorker.v ===== *)
(** * The detonation worker ([detonation_worker.py], [detonate/client.py])

    What becomes of one claimed detonation job: the outcomes of fetching and
    detonating, the retry budget, and the re-scoring of the scan with the
    dynamic findings. *)
From S2P Require Import Prelude PyStr Sql Findings Jobs DetQueue Intel Score Json Triage Watch DepIntel Store Pipeline Finalize.
From Stdlib Require Import Ascii.

Open Scope list_scope.
Open Scope Z_scope.

(** ** The job and the service's answer *)

(** The dict [_claim_job] builds from the claimed row. *)
Record det_job := mkDetJob {
  dj_id : Z;
  dj_token : string;
  dj_scan_id : Z;
  dj_version_id : Z;
  dj_ecosystem : string;
  dj_name : string;
  dj_version : string;
  dj_archive_kind : string;
  dj_static_verdict : verdict;
}.

Definition job_of (row : drow) (token : string) : det_job :=
  mkDetJob (id row) token (scan_id (extra row)) (version_id (extra row)) (ecosystem row) (name row) (version row)
    (archive_kind (extra row)) (static_verdict (extra row)).

Definition claim_job shuffle env (now : timestamp) (token : string) (t : dqueue) : option det_job * dqueue :=
  let '(claimed, t) := claim_next shuffle env now token t in
  ((fun rt => job_of rt.1 rt.2) <$> claimed, t).

(** One entry of [findings_json]; a missing key is [None]. *)
Record raw_finding := mkRaw {
  rf_rule_id : string;
  rf_category : option string;
  rf_severity : option severity;
  rf_confidence : option confidence;
  rf_file : option string;
  rf_line : option Z;
  rf_evidence : option string;
}.

Record DetonationResult := mkDetResult {
  dr_status : string;
  dr_findings : list raw_finding;
  dr_events : list (list (string * json));
}.

Definition to_findings (r : DetonationResult) : list Finding :=
  map (fun f => mkFinding (rf_rule_id f) (default "dynamic" (rf_category f)) (default SMedium (rf_severity f))
    (default CMedium (rf_confidence f)) (default "" (rf_file f)) (rf_line f) (default "" (rf_evidence f))) (dr_findings r).

(** ** Vendor self-downloads *)

Definition is_host_char (c : ascii) : bool := is_alnum c || Ascii.eqb c "." || Ascii.eqb c "-".

(** [_EXFIL_HOST_RE.search(s)]: the host after the first [phase:] that one follows. *)
Fixpoint exfil_host (s : string) : option string :=
  let here :=
    if startswith s "phase:"
    then nonempty (take_while is_host_char (lstrip_where is_space (str_drop (len "phase:") s)))
    else None in
  match here with
  | Some h => Some h
  | None => match s with EmptyString => None | String _ s' => exfil_host s' end
  end.

(** [s.split(sep, 1)[1]], where [sep] occurs. *)
Fixpoint after_sub (sep s : string) : option string :=
  if startswith s sep then Some (str_drop (len sep) s)
  else match s with EmptyString => None | String _ s' => after_sub sep s' end.

(** [p[-2:]] of a list with at least two elements. *)
Definition last_two (p : list string) : list string := List.skipn (length p - 2) p.

Definition registrable (host : string) : string :=
  let p := split "."%char (strip_where (fun c => Ascii.eqb c "." || Ascii.eqb c " ") (lower host)) in
  if (2 <=? length p)%nat then join "." (last_two p) else lower host.

Definition is_verified_drop (f : Finding) : bool :=
  String.eqb (rule_id f) "installer.npm_install_remote_binary_drop" &&
  contains "checksum-verified" (evidence f) && contains "hosts:" (evidence f).

Definition drop_hosts (f : Finding) : list string :=
  if is_verified_drop f
  then map registrable (bfilter truthy (map strip (split ","%char (ostr (after_sub "hosts:" (evidence f))))))
  else [].

Definition verified_download_hosts (fs : list Finding) : list string := dedup (flat_map drop_hosts fs).

Definition is_self_download_exfil (vhosts : list string) (f : Finding) : bool :=
  String.eqb (rule_id f) "dyn_install_exfil" &&
  match exfil_host (evidence f) with Some h => str_in (registrable h) vhosts | None => false end.

(** The dynamic findings that count. *)
Definition kept_dynamic (static dyn : list Finding) : list Finding :=
  let vhosts := verified_download_hosts static in
  match vhosts with
  | [] => dyn
  | _ => bfilter (fun f => negb (is_self_download_exfil vhosts f)) dyn
  end.

(** ** [_finalize_detonation] *)

Record flip_alert := mkFlip {
  fa_name : string; fa_version : string; fa_ecosystem : string;
  fa_static : verdict; fa_new : verdict; fa_score : Z; fa_findings : list Finding;
}.

Definition trace_event (det_id : Z) (evt : list (string * json)) (i : Z) : TraceEvent :=
  mkTrace i det_id (jget "phase" evt (JStr "install")) (jget "category" evt (JStr "unknown"))
    (jget "operation" evt (JStr "unknown")) (jget "pid" evt JNull) (strip_nul (jget "binary" evt JNull))
    (strip_nul (json_or (jget "detail" evt JNull) (JObj []))) (jget "matched_rule" evt JNull).

Section Finalize.
Variable pack : IntelPack.
Variable now : timestamp.

Definition save_detonation (job : det_job) (sid : Z) (r : DetonationResult) (d : db) : db :=
  let '(t, row) := insert (fun i => mkDetonation i sid (dj_ecosystem job) (dr_status r) now) (detonations d) in
  let d := set_detonations t d in
  set_trace_events (insert_all (trace_event (dt_id row)) (dr_events r) (trace_events d)) d.

(** [scan.verdict = res.verdict] and its two companions. *)
Definition rescored (res : ScoreResult) (sc : Scan) : Scan :=
  mkScan (sc_id sc) (sc_version_id sc) (sc_started_at sc) (sc_finished_at sc) (sr_verdict res) (score res)
    (alert_tag res) (sc_llm sc).

Definition rescore (job : det_job) (sc : Scan) (static dyn : list Finding) (d : db) : ScoreResult * db :=
  let d := persist_findings (sc_id sc) dyn d in
  let rank := is_watchlist (dj_name job) (dj_ecosystem job) (watchlist d) in
  let res := score_and_verdict pack (static ++ dyn) rank in
  (res, put_scan (rescored res sc) d).

Definition flip (job : det_job) (res : ScoreResult) (fs : list Finding) : option flip_alert :=
  if bool_decide (sr_verdict res = VMalicious) && negb (bool_decide (dj_static_verdict job = VMalicious))
  then Some (mkFlip (dj_name job) (dj_version job) (dj_ecosystem job) (dj_static_verdict job) (sr_verdict res) (score res)
               (bfilter (fun f => negb (is_shadow_finding f)) fs))
  else None.

Definition finish_job (job : det_job) (q : drow) (d : db) : db :=
  set_det_queue (DetQueue.mark_done now q (Some (dj_token job)) (detonation_queue d)).2 d.

(** The transaction, the alert payload, and the findings to count afterwards. *)
Definition finalize_detonation (job : det_job) (r : DetonationResult) (d : db) : option flip_alert * list Finding * db :=
  match get (dj_id job) (detonation_queue d) with
  | None => (None, [], d)
  | Some q =>
      if negb (owns (dj_token job) q) then (None, [], d)
      else
        match get (dj_scan_id job) (scans d) with
        | None => (None, [], finish_job job q d)
        | Some sc =>
            let d := save_detonation job (sc_id sc) r d in
            match to_findings r with
            | [] => (None, [], finish_job job q d)
            | dyn =>
                let static := findings_of (sc_id sc) d in
                let dyn := kept_dynamic static dyn in
                let '(res, d) := rescore job sc static dyn d in
                (flip job res (static ++ dyn), dyn, finish_job job q d)
            end
        end
  end.

End Finalize.

(** ** [_process_detonation] *)

Inductive det_outcome :=
  | DetTimeout
  | DetNoFiles (msg : string)
  | DetRaised (msg : string)
  | DetUnavailable (* the client returned [None] *)
  | DetResult (r : DetonationResult).

Inductive det_effect := DetCommitted (d : db) | FlipAlerted (a : flip_alert) | ArchivesRemoved.

(** The database exceptions of one round of the loop: claiming, the session of
    [_mark_failed] or [_requeue_or_fail] inside [_process_detonation], the finalising
    transaction, counting the rule hits after it, and the [_requeue_or_fail] of the
    loop's own handler. *)
Record det_faults := mkDetFaults {
  df_claim : option string;
  df_settle : option string;
  df_finalize : option string;
  df_count : option string;
  df_loop : option string;
}.
Definition no_det_faults : det_faults := mkDetFaults None None None None None.

Section Process.
Variable pack : IntelPack.
Variable now : timestamp.
Variable has_adapter : string -> bool.
Variable discord : bool.

Definition requeue (job : det_job) (reason : string) (d : db) : db :=
  set_det_queue (requeue_or_fail now (dj_id job) (dj_token job) reason (detonation_queue d)) d.

(** Why an outcome is not finalised, if it is not. *)
Definition retry_reason (o : det_outcome) : option string :=
  match o with
  | DetTimeout => Some "timeout_after_300s"
  | DetNoFiles msg => Some ("no_files: " +:+ msg)
  | DetRaised msg => Some ("fetch_failed: " +:+ msg)
  | DetUnavailable => Some "detonation_unavailable"
  | DetResult r => if String.eqb (dr_status r) "error" then Some "detonation_service_error" else None
  end.

(** A session that makes [d'] of [d], or raises and is rolled back. *)
Definition session (fault : option string) (d d' : db) : list det_effect * option string * db :=
  match fault with None => ([DetCommitted d'], None, d') | Some err => ([], Some err, d) end.

(** [_finalize_detonation] with the count of the rule hits, and the alert. *)
Definition finalize_and_alert (job : det_job) (r : DetonationResult) (F : det_faults) (d : db)
    : list det_effect * option string * db :=
  match df_finalize F with
  | Some err => ([], Some err, d)
  | None =>
      let '(alert, dyn, d1) := finalize_detonation pack now job r d in
      match df_count F with
      | Some err => ([DetCommitted d1], Some err, d1)
      | None =>
          let d2 := bump_rulehits dyn d1 in
          ([DetCommitted d1; DetCommitted d2] ++
             match alert with Some a => if discord then [FlipAlerted a] else [] | None => [] end, None, d2)
      end
  end.

(** The effects, the exception that leaves the coroutine, and the database. *)
Definition process_detonation (job : det_job) (o : det_outcome) (F : det_faults) (d : db)
    : list det_effect * option string * db :=
  if negb (has_adapter (dj_ecosystem job)) then
    session (df_settle F) d
      (set_det_queue (worker_mark_failed now (dj_id job) (dj_token job) ("no adapter for " +:+ dj_ecosystem job)
                        (detonation_queue d)) d)
  else
    let '(es, escaped, d) :=
      match retry_reason o, o with
      | Some reason, _ => session (df_settle F) d (requeue job reason d)
      | None, DetResult r => finalize_and_alert job r F d
      | None, _ => ([], None, d)
      end in
    (es ++ [ArchivesRemoved], escaped, d).

(** The [try] of [_detonation_loop]: an exception is turned into a retry; one of the
    handler itself leaves the loop, and [gather] ends the pool with it. *)
Definition detonation_job (job : det_job) (o : det_outcome) (F : det_faults) (d : db)
    : list det_effect * option string * db :=
  let '(es, escaped, d) := process_detonation job o F d in
  match escaped with
  | None => (es, None, d)
  | Some err =>
      let '(es', crash, d) := session (df_loop F) d (requeue job (str_take 4000 err) d) in
      (es ++ es', crash, d)
  end.

End Process.

(** ** Lemmas *)

Lemma dyn_persist_findings sid fs d :
  findings_of sid (persist_findings sid fs d) = findings_of sid d ++ map stored_finding fs.
Proof.
  unfold findings_of, persist_findings. cbn [findings set_findings].
  apply (insert_all_select _ _ fr_finding); [intros; apply Z.eqb_refl|done].
Qed.

(** The job is held by the caller and its scan exists. *)
Definition held_job (job : det_job) (d : db) (q : drow) (sc : Scan) : Prop :=
  get (dj_id job) (detonation_queue d) = Some q /\ owns (dj_token job) q = true /\
  get (dj_scan_id job) (scans d) = Some sc.

Lemma held_cases job d :
  (exists q sc, held_job job d q sc) \/
  (exists q, get (dj_id job) (detonation_queue d) = Some q /\ owns (dj_token job) q = true /\ get (dj_scan_id job) (scans d) = None) \/
  (forall q, get (dj_id job) (detonation_queue d) = Some q -> owns (dj_token job) q = false).
Proof.
  unfold held_job. destruct (get (dj_id job) (detonation_queue d)) as [q|]; [|right; right; done].
  destruct (owns (dj_token job) q) eqn:Eo; [|right; right; by intros q' [= <-]].
  destruct (get (dj_scan_id job) (scans d)) as [sc|] eqn:Es; [left; eauto 6|right; left; eauto 6].
Qed.

Lemma finalize_not_held pack now job r d :
  (forall q, get (dj_id job) (detonation_queue d) = Some q -> owns (dj_token job) q = false) ->
  finalize_detonation pack now job r d = (None, [], d).
Proof.
  intros H. unfold finalize_detonation. destruct (get _ _) as [q|]; [|done]. by rewrite (H q eq_refl).
Qed.

Lemma finalize_held pack now job r d q sc :
  held_job job d q sc ->
  let static := findings_of (sc_id sc) d in
  let dyn := kept_dynamic static (to_findings r) in
  let res := score_and_verdict pack (static ++ dyn) (is_watchlist (dj_name job) (dj_ecosystem job) (watchlist d)) in
  exists d1,
    finalize_detonation pack now job r d =
      (match to_findings r with [] => None | _ => flip job res (static ++ dyn) end,
       match to_findings r with [] => [] | _ => dyn end, d1) /\
    detonation_queue d1 = (DetQueue.mark_done now q (Some (dj_token job)) (detonation_queue d)).2 /\
    detonations d1 = (insert (fun i => mkDetonation i (sc_id sc) (dj_ecosystem job) (dr_status r) now) (detonations d)).1 /\
    scans d1 = match to_findings r with [] => scans d | _ => put (rescored res sc) (scans d) end /\
    findings d1 = match to_findings r with [] => findings d | _ => findings (persist_findings (sc_id sc) dyn d) end.
Proof.
  intros (Hq & Ho & Hs) static dyn res. unfold finalize_detonation. rewrite Hq, Ho, Hs. cbn [negb].
  unfold save_detonation. cbv beta iota zeta delta [insert]. fold static.
  change (findings_of (sc_id sc) (set_trace_events _ (set_detonations _ d))) with static.
  destruct (to_findings r) as [|f fs] eqn:Ef; [eexists; split_and!; done|].
  unfold rescore. eexists. split; [reflexivity|]. split_and!; done.
Qed.

Lemma kept_dynamic_in static dyn f : f ∈ kept_dynamic static dyn <->
  f ∈ dyn /\ is_self_download_exfil (verified_download_hosts static) f = false.
Proof.
  unfold kept_dynamic. destruct (verified_download_hosts static) as [|h hs] eqn:E.
  - split; [intros H; split; [done|]|tauto]. unfold is_self_download_exfil. destruct (exfil_host _); by rewrite ?andb_false_r.
  - rewrite bfilter_in, negb_true_iff. done.
Qed.

Lemma verified_hosts_in static h : h ∈ verified_download_hosts static <-> exists g, g ∈ static /\ h ∈ drop_hosts g.
Proof.
  unfold verified_download_hosts. rewrite dedup_elem. rewrite list_elem_of_In, in_flat_map.
  setoid_rewrite <- list_elem_of_In. naive_solver.
Qed.

Lemma self_download_true vhosts f : is_self_download_exfil vhosts f = true <->
  rule_id f = "dyn_install_exfil" /\ exists h, exfil_host (evidence f) = Some h /\ registrable h ∈ vhosts.
Proof.
  unfold is_self_download_exfil. rewrite andb_true_iff, String.eqb_eq. destruct (exfil_host (evidence f)) as [h|]; [|naive_solver].
  rewrite str_in_true. naive_solver.
Qed.

Lemma flip_iff job res fs : is_Some (flip job res fs) <-> sr_verdict res = VMalicious /\ dj_static_verdict job <> VMalicious.
Proof.
  unfold flip. destruct (decide (sr_verdict res = VMalicious)) as [E|E], (decide (dj_static_verdict job = VMalicious)) as [E'|E'];
    rewrite ?(bool_decide_true _ E), ?(bool_decide_false _ E), ?(bool_decide_true _ E'), ?(bool_decide_false _ E'); cbn [andb negb];
    split; try (intros [? [=]]); try (intros [? ?]); try done.
Qed.

Lemma finalize_queue pack now job r d q :
  get (dj_id job) (detonation_queue d) = Some q -> owns (dj_token job) q = true ->
  exists alert dyn d1, finalize_detonation pack now job r d = (alert, dyn, d1) /\
    detonation_queue d1 = (DetQueue.mark_done now q (Some (dj_token job)) (detonation_queue d)).2.
Proof.
  intros Hg Ho. destruct (get (dj_scan_id job) (scans d)) as [sc|] eqn:Es.
  - destruct (finalize_held pack now job r d q sc) as (d1 & E & Hq & _); [done|]. rewrite E. eauto.
  - unfold finalize_detonation. rewrite Hg, Ho, Es. eauto 6.
Qed.

(** ** Properties *)

(** Re-scoring after a detonation.  For a job still held by the worker, the job ends done and one
    detonation is recorded.  Without dynamic findings the scan keeps its verdict.  With some, the
    stored verdict, score and tag become those of the static findings and the kept dynamic ones
    together, the latter are stored behind the former, and the flip alert is raised exactly when
    the new verdict is malicious and the static one was not. *)
Theorem detonation_rescore pack now job r d q sc :
  held_job job d q sc -> table_wf (scans d) -> table_wf (detonation_queue d) -> sc_id sc = dj_scan_id job ->
  let '(alert, dyn, d1) := finalize_detonation pack now job r d in
  let static := findings_of (sc_id sc) d in
  (exists q', get (dj_id job) (detonation_queue d1) = Some q' /\ jstatus q' = Done) /\
  length (rows (detonations d1)) = S (length (rows (detonations d))) /\
  (to_findings r = [] -> alert = None /\ scans d1 = scans d) /\
  (to_findings r <> [] ->
     dyn = kept_dynamic static (to_findings r) /\
     findings_of (sc_id sc) d1 = static ++ map stored_finding dyn /\
     exists rank sc', let res := score_and_verdict pack (static ++ dyn) rank in
       get (dj_scan_id job) (scans d1) = Some sc' /\
       sc_verdict sc' = sr_verdict res /\ sc_score sc' = score res /\ sc_alert_tag sc' = alert_tag res /\
       (is_Some alert <-> sr_verdict res = VMalicious /\ dj_static_verdict job <> VMalicious)).
Proof.
  intros Hh Hws Hwq Hid. destruct (finalize_held pack now job r d q sc Hh) as (d1 & -> & Hq & Hd & Hs & Hf).
  destruct Hh as (Hg & Ho & Hsc). split_and!.
  - unfold DetQueue.mark_done, job_mark_done in Hq.
    apply andb_true_iff in Ho as [_ Ho%bool_decide_eq_true].
    rewrite (proj2 (token_refused_false (dj_token job) q) Ho) in Hq. rewrite Hq.
    eexists. split; [eapply get_put; [done| |exact Hg]; by apply get_in in Hg as [_ ?]|done].
  - rewrite Hd. unfold insert. cbn [rows fst]. rewrite List.length_app. simpl. lia.
  - intros E. rewrite E in *. done.
  - intros Hne. destruct (to_findings r) as [|f fs] eqn:Ef; [done|]. split; [done|]. split.
    { rewrite <- dyn_persist_findings. unfold findings_of. by rewrite Hf. }
    eexists _, (rescored _ sc). rewrite Hs. split; [eapply get_put; [done|exact Hid|exact Hsc]|]. split_and!; try done.
    by apply flip_iff.
Qed.

(** Self-downloads are excused narrowly.  A dynamic finding is dropped exactly when it is an
    install-time exfiltration whose connect host has the same last two labels as a host that a
    checksum-verified binary drop of the same scan lists; nothing else is ever dropped. *)
Theorem self_download_only static dyn f :
  f ∈ dyn ->
  (f ∉ kept_dynamic static dyn <->
   rule_id f = "dyn_install_exfil" /\
   exists host g, exfil_host (evidence f) = Some host /\ g ∈ static /\ is_verified_drop g = true /\
     registrable host ∈ drop_hosts g).
Proof.
  intros Hf. rewrite kept_dynamic_in.
  assert (registrable_ok : forall g h, h ∈ drop_hosts g -> is_verified_drop g = true).
  { intros g h. unfold drop_hosts. destruct (is_verified_drop g); [done|]. by intros ?%elem_of_nil. }
  transitivity (is_self_download_exfil (verified_download_hosts static) f = true).
  - destruct (is_self_download_exfil _ f); naive_solver.
  - rewrite self_download_true. setoid_rewrite verified_hosts_in. split.
    + intros (Hr & h & He & g & Hg & Hin). eauto 10.
    + intros (Hr & h & g & He & Hg & _ & Hin). eauto 10.
Qed.

(** What a retry makes of the row. *)
Definition retried (q q' : drow) : Prop :=
  attempts q' = attempts q + 1 /\
  (if DetQueue.MAX_AUTO_ATTEMPTS <=? attempts q + 1 then jstatus q' = Failed
   else jstatus q' = Pending /\ claim_token q' = None /\ claimed_at q' = None).

Lemma requeue_held now job reason d q :
  table_wf (detonation_queue d) -> get (dj_id job) (detonation_queue d) = Some q -> owns (dj_token job) q = true ->
  exists q', get (dj_id job) (detonation_queue (requeue now job reason d)) = Some q' /\ retried q q'.
Proof.
  intros Hwf Hg Ho. unfold requeue. cbn [detonation_queue set_det_queue]. unfold requeue_or_fail. rewrite Hg, Ho.
  apply get_in in Hg as Hi. destruct Hi as [_ Hid].
  exists (after_failure now reason q). split.
  - eapply get_put; [done| |exact Hg]. rewrite <- Hid. unfold after_failure. by case_match.
  - unfold after_failure, retried. cbn [attempts set_attempts]. destruct (DetQueue.MAX_AUTO_ATTEMPTS <=? attempts q + 1); done.
Qed.

(** What a round that finalised, or that could not, makes of the row it holds. *)
Definition settled_as (finalised failed : bool) (crash : option string) (q q' : drow) : Prop :=
  if finalised then jstatus q' = Done
  else match crash with
  | Some _ => q' = q
  | None => if failed then jstatus q' = Failed else retried q q'
  end.

Definition finalises (adapter : bool) (o : det_outcome) (F : det_faults) : bool :=
  adapter && bool_decide (retry_reason o = None) && bool_decide (df_finalize F = None).

Lemma requeue_done now job reason d q :
  get (dj_id job) (detonation_queue d) = Some q -> jstatus q <> Claimed ->
  detonation_queue (requeue now job reason d) = detonation_queue d.
Proof.
  intros Hg Hs. unfold requeue, requeue_or_fail. cbn [detonation_queue set_det_queue]. rewrite Hg. unfold owns, status_is.
  by rewrite bool_decide_false.
Qed.

(** The loop's handler on a row that is still held. *)
Lemma loop_retry now job err F d q :
  get (dj_id job) (detonation_queue d) = Some q -> owns (dj_token job) q = true -> table_wf (detonation_queue d) ->
  let '(_, crash, d') := session (df_loop F) d (requeue now job err d) in
  crash = df_loop F /\ exists q', get (dj_id job) (detonation_queue d') = Some q' /\ settled_as false false crash q q'.
Proof.
  intros Hg Ho Hwf. unfold session. destruct (df_loop F) as [e|]; (split; [done|]); [by exists q|].
  by apply requeue_held.
Qed.

Lemma finalized_done pack now job r d q :
  get (dj_id job) (detonation_queue d) = Some q -> owns (dj_token job) q = true -> table_wf (detonation_queue d) ->
  let '(_, _, d1) := finalize_detonation pack now job r d in
  exists q', get (dj_id job) (detonation_queue d1) = Some q' /\ jstatus q' = Done.
Proof.
  intros Hg Ho Hwf. pose proof Ho as Ho'. apply andb_true_iff in Ho' as [_ Ht%bool_decide_eq_true].
  apply (proj2 (token_refused_false (dj_token job) q)) in Ht. apply get_in in Hg as Hi. destruct Hi as [_ Hid].
  destruct (finalize_queue pack now job r d q Hg Ho) as (alert & dyn & d1 & -> & Hq). rewrite Hq.
  unfold DetQueue.mark_done, job_mark_done. rewrite Ht. eexists. split; [eapply get_put; [done|exact Hid|exact Hg]|done].
Qed.

Lemma job_settles pack now has_adapter discord job o F d q :
  get (dj_id job) (detonation_queue d) = Some q -> owns (dj_token job) q = true -> table_wf (detonation_queue d) ->
  let adapter := has_adapter (dj_ecosystem job) in
  let '(_, crash, d') := detonation_job pack now has_adapter discord job o F d in
  (forall e, crash = Some e -> df_loop F = Some e) /\
  exists q', get (dj_id job) (detonation_queue d') = Some q' /\
    settled_as (finalises adapter o F) (negb adapter && bool_decide (df_settle F = None)) crash q q'.
Proof.
  intros Hg Ho Hwf adapter. unfold detonation_job, process_detonation, finalises. fold adapter.
  assert (forall err, let '(_, crash, d') := session (df_loop F) d (requeue now job err d) in
    (forall e, crash = Some e -> df_loop F = Some e) /\ exists q', get (dj_id job) (detonation_queue d') = Some q' /\ settled_as false false crash q q') as Hloop.
  { intros err. pose proof (loop_retry now job err F d q Hg Ho Hwf) as H. destruct (session _ _ _) as [[es' crash] d'].
    destruct H as [-> H]. split; [done|exact H]. }
  pose proof Ho as Ho'. apply andb_true_iff in Ho' as [_ Ht%bool_decide_eq_true].
  apply (proj2 (token_refused_false (dj_token job) q)) in Ht. apply get_in in Hg as Hi. destruct Hi as [_ Hid].
  destruct adapter; cbn [negb andb].
  - destruct (retry_reason o) as [reason|] eqn:Er.
    + rewrite bool_decide_false by done. cbn [andb]. unfold session at 1. destruct (df_settle F) as [e|].
      * specialize (Hloop (str_take 4000 e)). by destruct (session _ _ _) as [[es' crash] d'].
      * split; [done|]. by apply requeue_held.
    + rewrite bool_decide_true by done. cbn [andb]. destruct o as [| | | |r]; try done. unfold finalize_and_alert.
      destruct (df_finalize F) as [e|].
      * rewrite bool_decide_false by done. specialize (Hloop (str_take 4000 e)). by destruct (session _ _ _) as [[es' crash] d'].
      * rewrite bool_decide_true by done. pose proof (finalized_done pack now job r d q Hg Ho Hwf) as Hf.
        destruct (finalize_detonation pack now job r d) as [[alert dyn] d1]. destruct Hf as (q' & Hg' & Hs).
        destruct (df_count F) as [e|]; [|split; [done|]; exists q'; done].
        unfold session. destruct (df_loop F) as [e'|]; (split; [done|]); exists q'; [done|].
        by rewrite (requeue_done now job _ d1 q') by congruence.
  - destruct (df_settle F) as [e|]; unfold session at 1.
    + rewrite bool_decide_false by done. specialize (Hloop (str_take 4000 e)). by destruct (session _ _ _) as [[es' crash] d'].
    + rewrite bool_decide_true by done. split; [done|]. cbn [detonation_queue set_det_queue].
      unfold worker_mark_failed, DetQueue.mark_failed, job_mark_failed. rewrite Hg, Ht.
      eexists. split; [eapply get_put; [done|exact Hid|exact Hg]|done].
Qed.

(** A held row that was left alone is taken back by the stale sweep. *)
Lemma held_swept now (q : drow) tok t :
  table_wf t -> get (id q) t = Some q -> owns tok q = true ->
  older (now - seconds DetQueue.STALE_CLAIM_TIMEOUT_SECONDS) (claimed_at q) = true ->
  exists r, get (id q) (DetQueue.sweep_stale_claims now t).2 = Some r /\ jstatus r <> Claimed.
Proof.
  intros Hwf Hg [Hc _]%owns_true Ho. unfold DetQueue.sweep_stale_claims, job_sweep. cbn [snd].
  rewrite get_update, Hg by (intros; apply release_stale_id). cbn [fmap option_fmap option_map].
  assert (stale (seconds DetQueue.STALE_CLAIM_TIMEOUT_SECONDS) now q = true) as -> by (unfold stale, status_is; by rewrite Hc, Ho).
  eexists. split; [reflexivity|]. unfold release_stale. by destruct (_ <=? _).
Qed.

(** C39. No detonation job is stuck.  A round of the loop on a job it holds, whatever the fetch and
    the service do and whichever database sessions raise: the job is done if the result was
    finalised; failed if its ecosystem has no adapter and that could be written; otherwise its
    failure count goes up by one and it is pending again, without a claim, or failed once the
    count reaches three.  The only exception is a retry, requested by the loop's own handler,
    whose session raises: that exception leaves the loop and ends the worker pool, and the row
    is exactly as it was claimed, until the stale sweep takes it back. *)
Theorem detonation_settles pack now has_adapter discord job o F d q :
  get (dj_id job) (detonation_queue d) = Some q -> owns (dj_token job) q = true -> table_wf (detonation_queue d) ->
  let '(_, crash, d') := detonation_job pack now has_adapter discord job o F d in
  (forall e, crash = Some e -> df_loop F = Some e) /\
  exists q', get (dj_id job) (detonation_queue d') = Some q' /\
    if finalises (has_adapter (dj_ecosystem job)) o F then jstatus q' = Done
    else match crash with
    | Some _ => q' = q /\
        forall later t, table_wf t -> get (id q) t = Some q ->
          older (later - seconds DetQueue.STALE_CLAIM_TIMEOUT_SECONDS) (claimed_at q) = true ->
          exists r, get (id q) (DetQueue.sweep_stale_claims later t).2 = Some r /\ jstatus r <> Claimed
    | None => if negb (has_adapter (dj_ecosystem job)) && bool_decide (df_settle F = None) then jstatus q' = Failed
              else retried q q'
    end.
Proof.
  intros Hg Ho Hwf. pose proof (job_settles pack now has_adapter discord job o F d q Hg Ho Hwf) as H. cbv zeta in H.
  destruct (detonation_job _ _ _ _ _ _ _ _) as [[es crash] d']. destruct H as (Hc & q' & Hg' & Hs). split; [done|].
  exists q'. split; [done|]. unfold settled_as in Hs. destruct (finalises _ _ _); [done|]. destruct crash as [e|]; [|done].
  split; [done|]. intros later t Hwt Hqt Hold. by eapply held_swept.
Qed.

(** A worker whose claim was taken over does nothing.  When the row is gone or carries another
    token, no outcome changes the database and no alert is raised. *)
Theorem stale_detonation_inert pack now has_adapter discord job o F d :
  (forall q, get (dj_id job) (detonation_queue d) = Some q -> claim_token q <> Some (dj_token job)) ->
  let '(es, _, d') := detonation_job pack now has_adapter discord job o F d in
  d' = d /\ forall a, FlipAlerted a ∉ es.
Proof.
  intros H.
  assert (forall q, get (dj_id job) (detonation_queue d) = Some q -> owns (dj_token job) q = false) as Hown.
  { intros q Hq. unfold owns. rewrite (bool_decide_false _ (H q Hq)). apply andb_false_r. }
  assert (forall reason, requeue now job reason d = d) as Hr.
  { intros reason. unfold requeue, requeue_or_fail. destruct (get _ _) as [q|]; [rewrite (Hown q eq_refl)|]; by destruct d. }
  assert (set_det_queue (worker_mark_failed now (dj_id job) (dj_token job) ("no adapter for " +:+ dj_ecosystem job) (detonation_queue d)) d = d) as Hm.
  { unfold worker_mark_failed, DetQueue.mark_failed, job_mark_failed. destruct (get _ _) as [q|] eqn:Eg; [|by destruct d].
    rewrite (proj2 (token_refused_true (dj_token job) q) (H q eq_refl)). by destruct d. }
  assert (forall fault, let '(es, escaped, d') := session fault d d in d' = d /\ forall a, FlipAlerted a ∉ es) as Hs.
  { intros [e|]; (split; [done|]); intros a; rewrite ?list_elem_of_singleton, ?elem_of_nil; by intros ?. }
  assert (let '(es, escaped, d') := process_detonation pack now has_adapter discord job o F d in
    d' = d /\ forall a, FlipAlerted a ∉ es) as Hp.
  { unfold process_detonation. rewrite Hm. destruct (has_adapter (dj_ecosystem job)); cbn [negb]; [|apply Hs].
    assert (forall x : list det_effect * option string * db, (let '(es, escaped, d') := x in d' = d /\ forall a, FlipAlerted a ∉ es) ->
      let '(es, escaped, d') := (let '(es, escaped, d) := x in (es ++ [ArchivesRemoved], escaped, d)) in d' = d /\ forall a, FlipAlerted a ∉ es) as Hx.
    { intros [[es escaped] d'] [-> He]. split; [done|]. intros a [?|?%list_elem_of_singleton]%elem_of_app; [by apply (He a)|done]. }
    apply Hx. destruct (retry_reason o) as [reason|]; [rewrite Hr; apply Hs|].
    destruct o as [| | | |r]; try (split; [done|]; intros a; apply not_elem_of_nil). unfold finalize_and_alert.
    destruct (df_finalize F); [split; [done|]; intros a; apply not_elem_of_nil|].
    rewrite (finalize_not_held pack now job r d Hown). destruct (df_count F); (split; [by destruct d|]); intros a;
      rewrite ?elem_of_app, !elem_of_cons, elem_of_nil; naive_solver. }
  unfold detonation_job. destruct (process_detonation _ _ _ _ _ _ _ _) as [[es escaped] d0]. destruct Hp as [-> He].
  destruct escaped as [e|]; [|done]. rewrite Hr. specialize (Hs (df_loop F)). destruct (session _ _ _) as [[es' crash] d'].
  destruct Hs as [-> Hs]. split; [done|]. intros a [?|?]%elem_of_app; [by apply (He a)|by apply (Hs a)].
Qed.

(** ** Concrete runs *)

Definition ex_det_pack : IntelPack := empty_pack "baseline".
Definition ex_detrow : drow := Job 1 "npm" "evil" "1.0" (mkDet 7 3 "npm_tarball" VSuspicious) PHigh Claimed 0 (Some "tok") None 0 (Some 5) None.
Definition ex_scan (v : verdict) : Scan := mkScan 7 3 1 (Some 2) v 10 (Some "needs_review") None.
Definition ex_db (v : verdict) : db :=
  set_findings (Table [mkFindingRow 1 7 (mkFinding "installer.postinstall" "installer" SHigh CHigh "package.json" None "runs a.js")] 2)
    (set_det_queue (Table [ex_detrow] 2) (set_scans (Table [ex_scan v] 8) empty_db)).
Definition ex_job : det_job := job_of ex_detrow "tok".
Definition ex_dynamic (s : severity) : DetonationResult :=
  mkDetResult "ok" [mkRaw "dyn_install_exfil" None (Some s) None None None (Some "connect in install phase: cdn.evil.com:443")] [].

Lemma ex_db_wf v : table_wf (scans (ex_db v)) /\ table_wf (detonation_queue (ex_db v)).
Proof. split; (split; [apply NoDup_singleton|by repeat constructor]). Qed.

Lemma detonation_rescore_witness :
  exists sc', get 7 (scans (finalize_detonation ex_det_pack 9 ex_job (ex_dynamic SCritical) (ex_db VSuspicious)).2) = Some sc' /\
    sc_verdict sc' = VMalicious.
Proof.
  pose proof (detonation_rescore ex_det_pack 9 ex_job (ex_dynamic SCritical) (ex_db VSuspicious) ex_detrow (ex_scan VSuspicious)
    ltac:(repeat split) (proj1 (ex_db_wf VSuspicious)) (proj2 (ex_db_wf VSuspicious)) eq_refl) as H.
  remember (finalize_detonation ex_det_pack 9 ex_job (ex_dynamic SCritical) (ex_db VSuspicious)) as out eqn:E.
  destruct out as [[alert dyn] d1]. destruct H as (_ & _ & _ & H). destruct H as (_ & _ & rank & sc' & Hg & Hv & _); [done|].
  exists sc'. split; [exact Hg|]. vm_compute in E. injection E as _ _ ->. vm_compute in Hg. by injection Hg as <-.
Defined.

Lemma self_download_only_witness :
  let exfil := mkFinding "dyn_install_exfil" "dynamic" SHigh CHigh "" None "connect in install phase: dl.vendor.com:443" in
  let drop := mkFinding "installer.npm_install_remote_binary_drop" "installer" SLow CHigh "" None "checksum-verified; hosts: cdn.vendor.com" in
  exfil ∉ kept_dynamic [drop] [exfil].
Proof.
  intros exfil drop. apply (self_download_only [drop] [exfil] exfil); [by left|]. split; [reflexivity|].
  exists "dl.vendor.com", drop. split_and!; [reflexivity|by left|reflexivity|]. vm_compute. by left.
Defined.

(** The service times out and the session of the retry raises; the loop's handler retries. *)
Lemma detonation_settles_witness :
  let '(_, crash, d') := detonation_job ex_det_pack 9 (fun _ => true) true ex_job DetTimeout
    (mkDetFaults None (Some "deadlock") None None None) (ex_db VSuspicious) in
  crash = None /\ exists q', get 1 (detonation_queue d') = Some q' /\ retried ex_detrow q'.
Proof.
  pose proof (detonation_settles ex_det_pack 9 (fun _ => true) true ex_job DetTimeout
    (mkDetFaults None (Some "deadlock") None None None) (ex_db VSuspicious) ex_detrow
    eq_refl eq_refl (proj2 (ex_db_wf VSuspicious))) as H.
  destruct (detonation_job _ _ _ _ _ _ _ _) as [[es crash] d']. destruct H as (Hc & q' & Hg & Hs).
  destruct crash as [e|]; [specialize (Hc e eq_refl); discriminate|]. split; [reflexivity|]. exists q'. split; [exact Hg|exact Hs].
Defined.

Lemma stale_detonation_inert_witness :
  let job := job_of ex_detrow "old" in
  (detonation_job ex_det_pack 9 (fun _ => true) true job (DetResult (ex_dynamic SCritical)) no_det_faults (ex_db VSuspicious)).2 = ex_db VSuspicious.
Proof.
  intros job.
  pose proof (stale_detonation_inert ex_det_pack 9 (fun _ => true) true job (DetResult (ex_dynamic SCritical)) no_det_faults (ex_db VSuspicious)) as H.
  destruct (detonation_job _ _ _ _ _ _ _ _) as [[es crash] d']. apply H. intros q Hq. vm_compute in Hq. by injection Hq as <-.
Defined.

(** When the loop's own requeue raises, the exception ends the pool and the row stays claimed. *)
Example pool_dies_claimed :
  let '(_, crash, d') := detonation_job ex_det_pack 9 (fun _ => true) true ex_job DetTimeout
    (mkDetFaults None (Some "deadlock") None None (Some "gone")) (ex_db VSuspicious) in
  crash = Some "gone" /\ jstatus <$> get 1 (detonation_queue d') = Some Claimed.
Proof. by vm_compute. Qed.

(** The host rule keeps two labels, whatever the public suffix: unrelated sites under a shared
    suffix count as the same vendor. *)
Example public_suffix_excused :
  registrable "exfil.evil.co.uk" = registrable "cdn.vendor.co.uk" /\ registrable "attacker.github.io" = registrable "vendor.github.io".
Proof. by vm_compute. Qed.

(** A re-score overwrites what the model decided: a package it cleared is suspicious again and its
    review tag is gone. *)
Example rescore_forgets_llm :
  let d1 := (finalize_detonation ex_det_pack 9 ex_job (ex_dynamic SHigh) (ex_db VBenign)).2 in
  map (fun sc => (sc_verdict sc, sc_alert_tag sc)) (rows (scans d1)) = [(VSuspicious, None)].
Proof. by vm_compute. Qed.

(** The job is committed done before the flip alert goes out: a crash between the two loses it. *)
Example flip_alert_after_done :
  match (process_detonation ex_det_pack 9 (fun _ => true) true ex_job (DetResult (ex_dynamic SCritical)) no_det_faults (ex_db VSuspicious)).1 with
  | ([DetCommitted d1; DetCommitted _; FlipAlerted a; ArchivesRemoved], None) =>
      (jstatus <$> get 1 (detonation_queue d1)) = Some Done /\ fa_new a = VMalicious
  | _ => False
  end.
Proof. by vm_compute. Qed.
