(* ===== verification/Analyze.v ===== *)
(** * The static analysis of an archive, composed ([pipeline.py], [run_static_analyzers])

    The analyzers of the other files put into the pipeline's composition.  What stays an
    argument is what they take as one: parsers, hashes, the YARA matcher, the opengrep
    program, the network. *)
From stdpp Require Import gmap.
From S2P Require Import Prelude PyStr Text Regex Findings Json Tree Intel Score Store PyAst Codecs DecodeEngine Iocs MalwarePatterns SecretAccess GoDirectives Binary Obfuscation BuildRs NpmInstall UrlDeps PypiInstall Imports Entropy Scanners Pipeline.
From Stdlib Require Import Ascii String.

Open Scope string_scope.
Open Scope list_scope.
Open Scope Z_scope.

(** What the opengrep analyzer is given: the switches, the rule directories that exist, whether
    the binary answers, how its run over the tree ends; the working directory and [str]. *)
Record opengrep := mkOpengrep {
  o_switches : Opengrep.switches; o_dirs : list string; o_binary : bool; o_run : list tree_file -> Opengrep.run;
  o_cwd : list string; o_str : json -> string;
}.

(** What the analyzers are given besides the tree. *)
Record environment := mkEnvironment {
  e_pack : IntelPack;
  e_root : list string; (* the parts of the extraction directory *)
  e_ast : string -> option module_; (* [ast.parse]; [None]: an error that malware_patterns catches *)
  e_parse : string -> parsed;
  e_loads : string -> option json;
  e_stdlib : list string;
  e_budgets : Budgets; e_decompressors : decompressors; e_hash : string -> Z; e_recover_max : Z;
  e_shannon : string -> double;
  e_astral_word : list Regex.item;
  e_host_file : list string -> option bool;
  e_yara : option (string -> string -> option (list Yara.ymatch)); (* the compiled rules, if there are any *)
  e_opengrep : opengrep;
  e_extract : string -> string -> option (list tree_file);
  e_fetch_enabled : bool; e_bracketed : string -> bool; e_resolves : string -> answer; e_get : string -> response;
}.

Section Compose.
Variable E : environment.

Definition iocs_of (changed : option (list string)) (tree : list tree_file) : list Finding :=
  Iocs.analyze_iocs (ioc_whitelist (e_pack E)) (e_budgets E) (e_decompressors E) (e_hash E) (e_root E) (e_recover_max E) changed tree.
Definition malware_of (changed : option (list string)) (tree : list tree_file) : list Finding :=
  MalwarePatterns.analyze_malware_patterns (e_pack E) (e_ast E) (e_stdlib E) (e_root E) changed tree.
Definition npm_install_of (tree : list tree_file) : option (list Finding) :=
  NpmInstall.analyze_install_scripts (npm_benign_tools (e_pack E)) (e_root E) tree (e_host_file E) (e_loads E).

(** The adapters' [analyze_install]. *)
Definition install_of (eco : string) (changed : option (list string)) (tree : list tree_file) : option (list Finding) :=
  if String.eqb eco "pypi" then PypiInstall.analyze_install_scripts (e_parse E) tree
  else if String.eqb eco "npm" then npm_install_of tree
  else if String.eqb eco "crates" then Some (BuildRs.analyze_build_rs tree)
  else if String.eqb eco "gomod" then GoDirectives.analyze_go_directives (gomod_benign_tools (e_pack E)) changed tree
  else Some [].

Definition yara_of (changed : option (list string)) (tree : list tree_file) : list Finding :=
  Yara.analyze_yara (fun r => r) (e_yara E) changed tree.
Definition opengrep_of (changed : option (list string)) (tree : list tree_file) : option (list Finding) :=
  let o := e_opengrep E in
  Opengrep.analyze_opengrep (o_str o) (o_cwd o) (e_root E) (e_loads E) (o_switches o) (o_dirs o) (o_binary o) (o_run o tree) changed.

(** The analyzers run over a fetched second stage. *)
Definition stage_analyzers : list (list tree_file -> option (list Finding)) :=
  [npm_install_of; fun t => Some (iocs_of None t); fun t => Some (malware_of None t); fun t => Some (yara_of None t)].
Definition url_deps_of (tree : list tree_file) : option (list Finding) :=
  UrlDeps.analyze_url_dependencies (e_extract E) stage_analyzers (e_fetch_enabled E) (e_bracketed E) (e_resolves E) (e_get E) (e_loads E) tree.

(** Previous and current file information, for the entropy delta. *)
Variables (current_info prev_info : list (string * FileInfo)) (norm_to_real : list (string * string)).

(** Everything but the opengrep findings. *)
Definition analyzers (eco : string) (changed : option (list string)) (tree : list tree_file) (imports install opengrep : list Finding) : Analyzers :=
  mkAnalyzers imports (malware_of changed tree) (iocs_of changed tree) (SecretAccess.analyze_secret_access changed tree)
    (Entropy.analyze_entropy (e_shannon E) changed tree) (Obfuscation.analyze_obfuscation (e_astral_word E) changed tree)
    (Entropy.analyze_entropy_delta current_info prev_info norm_to_real) (Binary.analyze_binary_artifacts (e_root E) tree changed)
    (yara_of changed tree) opengrep install (url_deps_of tree).

Definition replaced (eco : string) : bool := Opengrep.replaces_install_analyzer_for (o_switches (e_opengrep E)) eco.

Definition gomod_has_go (tree : list tree_file) : bool :=
  existsb (fun f => String.eqb (tf_name f) "go.mod" || String.eqb (name_suffix (tf_name f)) ".go") tree.
(** [run_static_analyzers]; [None]: an analyzer raised. *)
Definition static_analysis (eco arc_kind install_kind : string) (lite : bool) (changed : option (list string)) (tree : list tree_file) : option (list Finding) :=
  install ← (if String.eqb arc_kind install_kind && negb (replaced eco) then install_of eco changed tree else Some []);
  imports ← (if String.eqb eco "pypi" then Imports.analyze_imports (e_parse E) changed tree else Some []);
  opengrep ← opengrep_of changed tree;
  let has_go := gomod_has_go tree in
  Some (run_static_analyzers (analyzers eco changed tree imports install opengrep) eco arc_kind install_kind (replaced eco) has_go lite).

End Compose.

(** ** The rules *)

(** Every rule of the analyzers, with the category, severity and confidence of its findings. *)
Definition RULES : list (string * list signature) :=
  [(Iocs.CATEGORY, IOC_SIGNATURES); (MalwarePatterns.CATEGORY, MALWARE_SIGNATURES); (SecretAccess.CATEGORY, SecretAccess.SIGNATURES);
   (GoDirectives.CATEGORY, GoDirectives.SIGNATURES); (Binary.CATEGORY, Binary.SIGNATURES); (Obfuscation.CATEGORY, Obfuscation.SIGNATURES);
   (BuildRs.CATEGORY, BuildRs.SIGNATURES); (NpmInstall.CATEGORY, NpmInstall.SIGNATURES); (PypiInstall.CATEGORY, PypiInstall.SIGNATURES);
   (Imports.CATEGORY, Imports.SIGNATURES); (Entropy.CATEGORY, Entropy.SIGNATURES);
   (UrlDeps.CATEGORY, [("installer.npm_url_dependency", SHigh, CHigh); ("installer.npm_url_dependency", SMedium, CHigh)])].
Definition well_typed (g : Finding) : Prop := exists row, row ∈ RULES /\ signature_of g ∈ row.2 /\ category g = row.1.
Definition all_typed (fs : list Finding) : Prop := Forall well_typed fs.

Lemma typed_by n cat sigs fs : RULES !! n = Some (cat, sigs) -> Forall (signed_by cat sigs) fs -> all_typed fs.
Proof.
  intros Hn. apply list_elem_of_lookup_2 in Hn. unfold all_typed. rewrite !Forall_forall. intros H g Hg. destruct (H g Hg) as [H1 H2]. exists (cat, sigs). done.
Qed.
Lemma typed_one n cat sigs g : RULES !! n = Some (cat, sigs) -> signed_by cat sigs g -> well_typed g.
Proof. intros Hn [H1 H2]. apply list_elem_of_lookup_2 in Hn. exists (cat, sigs). done. Qed.

Section Typed.
Context (E : environment).

Lemma iocs_typed changed tree : all_typed (iocs_of E changed tree).
Proof. apply (typed_by 0 _ _ _ eq_refl), Forall_forall. intros g Hg. by eapply iocs_signature. Qed.
Lemma malware_typed changed tree : all_typed (malware_of E changed tree).
Proof. apply (typed_by 1 _ _ _ eq_refl), Forall_forall. intros g Hg. by eapply malware_signature. Qed.
Lemma npm_typed tree fs : npm_install_of E tree = Some fs -> all_typed fs.
Proof. intros H. eapply (typed_by 7 _ _ _ eq_refl), npm_signed, H. Qed.

Lemma install_typed eco changed tree fs : install_of E eco changed tree = Some fs -> all_typed fs.
Proof.
  unfold install_of. repeat case_match; intros H'.
  - eapply (typed_by 8 _ _ _ eq_refl), pypi_signed, H'.
  - by eapply npm_typed.
  - injection H' as <-. apply (typed_by 6 _ _ _ eq_refl), build_rs_signed.
  - eapply (typed_by 3 _ _ _ eq_refl), go_signed, H'.
  - injection H' as <-. constructor.
Qed.

(** A finding of YARA or opengrep. *)
Definition external (g : Finding) : Prop := startswith (rule_id g) "yara." = true \/ startswith (rule_id g) "opengrep." = true.
Notation accounted := (fun g => well_typed g \/ external g).

Lemma typed_accounted fs : all_typed fs -> Forall accounted fs.
Proof. unfold all_typed. rewrite !Forall_forall. intros H g Hg. left. by apply H. Qed.
Lemma yara_accounted changed tree : Forall accounted (yara_of E changed tree).
Proof. apply Forall_forall. intros g Hg. right. left. by eapply yara_prefixed. Qed.
Lemma opengrep_accounted changed tree gs : opengrep_of E changed tree = Some gs -> Forall accounted gs.
Proof. intros H. apply Forall_forall. intros g Hg. right. right. by eapply opengrep_prefixed. Qed.

Lemma stage_accounted t fn : fn ∈ stage_analyzers E -> Forall accounted (default [] (fn t)).
Proof.
  unfold stage_analyzers. rewrite !elem_of_cons. intros [->|[->|[->|[->|?%elem_of_nil]]]]; [|apply typed_accounted, iocs_typed|apply typed_accounted, malware_typed|apply yara_accounted|done].
  destruct (npm_install_of E t) eqn:En; [|constructor]. eapply typed_accounted, npm_typed, En.
Qed.

Lemma of_dep_accounted name g : accounted g -> accounted (of_dep name g).
Proof. intros [H|H]; [left; exact H|right; exact H]. Qed.

Lemma fetched_accounted name r : Forall accounted (_fetch_and_analyze (e_extract E) (stage_analyzers E) name r).
Proof.
  unfold _fetch_and_analyze, _analyze_stage_bytes. destruct (_bounded_get r) as [data|]; [|constructor]. destruct (truthy data); [|constructor].
  destruct (e_extract E _ data) as [t|]; [|constructor]. apply Forall_forall. intros g (g0 & -> & Hg)%list_elem_of_fmap. apply of_dep_accounted.
  apply elem_flat_map in Hg as (fn & Hfn & Hg). pose proof (stage_accounted t fn Hfn) as H. rewrite Forall_forall in H. by apply H.
Qed.

Lemma url_deps_accounted tree fs : url_deps_of E tree = Some fs -> Forall accounted fs.
Proof.
  unfold url_deps_of, analyze_url_dependencies. intros (st & Hl & ->)%fmap_Some.
  eapply (foldM_inv (fun s => Forall accounted (found_so_far s))); [|exact Hl|constructor]. intros s [name url] s' Hs Hf. unfold url_step in Hs.
  destruct (str_in url (seen s)); [by injection Hs as <-|]. apply bind_Some in Hs as (host & _ & [= <-]).
  assert (accounted (url_finding name url (_host_suspicious host))) as Hu.
  { left. apply (typed_one 11 _ _ _ eq_refl). unfold url_finding. destruct (_host_suspicious host); sign_one. }
  assert (Forall accounted (found_so_far s ++ [url_finding name url (_host_suspicious host)])) as Ha by (apply Forall_app; split; [done|by constructor]).
  case_match; cbn [found_so_far]; [|done]. apply Forall_app. split; [exact Ha|apply fetched_accounted].
Qed.

(** The analyzers that run on every archive. *)
Lemma run_accounted cur prev real eco changed tree imports install gs lite :
  (if String.eqb eco "pypi" then Imports.analyze_imports (e_parse E) changed tree else Some []) = Some imports ->
  opengrep_of E changed tree = Some gs ->
  Forall accounted (run_analyzers (analyzers E cur prev real eco changed tree imports install gs) eco lite).
Proof.
  intros Him Hgs. unfold run_analyzers, analyzers. cbn [an_imports an_malware_patterns an_iocs an_secret_access an_entropy an_obfuscation an_entropy_delta an_binary an_yara an_opengrep].
  rewrite !Forall_app. split_and!.
  - destruct (String.eqb eco "pypi"); [|constructor]. apply Forall_app. split; [|apply typed_accounted, malware_typed].
    eapply typed_accounted, (typed_by 9 _ _ _ eq_refl), imports_signed, Him.
  - apply typed_accounted, iocs_typed.
  - apply typed_accounted, (typed_by 2 _ _ _ eq_refl), secret_signed.
  - destruct lite; [constructor|]. apply Forall_app. split; [apply typed_accounted, (typed_by 10 _ _ _ eq_refl), entropy_signed|apply typed_accounted, (typed_by 5 _ _ _ eq_refl), obfuscation_signed].
  - apply typed_accounted, (typed_by 10 _ _ _ eq_refl), delta_signed.
  - apply typed_accounted, (typed_by 4 _ _ _ eq_refl), binary_signed.
  - apply yara_accounted.
  - by eapply opengrep_accounted.
Qed.

(** C20. Every finding is of a declared kind.  Whatever archive is analysed, in whatever
    ecosystem and mode, each finding of the static analysis has the category, severity and
    confidence that its rule declares in the table of rules, or the rule is one of YARA or
    opengrep and its name says so. *)
Theorem findings_well_typed cur prev real eco arc_kind install_kind lite changed tree fs
  (H : static_analysis E cur prev real eco arc_kind install_kind lite changed tree = Some fs) :
  Forall (fun g => (exists row, row ∈ RULES /\ (rule_id g, f_severity g, f_confidence g) ∈ row.2 /\ category g = row.1) \/
    startswith (rule_id g) "yara." = true \/ startswith (rule_id g) "opengrep." = true) fs.
Proof.
  apply bind_Some in H as (install & Hi & (imports & Him & (gs & Hgs & [= <-])%bind_Some)%bind_Some).
  pose proof (run_accounted cur prev real eco changed tree imports install gs lite Him Hgs) as Hr. unfold run_static_analyzers. cbv zeta.
  match goal with |- Forall _ (if _ then filter_gomod_non_go _ ?l else ?l) => assert (Forall accounted l) as Hall end.
  { rewrite !Forall_app. split_and!; [|destruct (String.eqb eco "npm" && _); [|constructor]|exact Hr]; cbn [analyzers an_install an_url_deps].
    - destruct (String.eqb arc_kind install_kind && negb _); [|constructor]. eapply typed_accounted, install_typed, Hi.
    - destruct (url_deps_of E tree) eqn:Eu; [|constructor]. by apply url_deps_accounted in Eu. }
  destruct (String.eqb eco "gomod"); [|exact Hall]. unfold filter_gomod_non_go. match goal with |- Forall _ (if ?b then _ else _) => destruct b end; [exact Hall|].
  apply Forall_forall. intros g [Hg _]%bfilter_in. rewrite Forall_forall in Hall. by apply Hall.
Qed.

(** When the static analysis of an archive raises: only when its install analyzer runs and
    raises, the import analyzer does for PyPI, or the output of opengrep cannot be read; a failing
    analysis of URL dependencies never does. *)
Theorem static_analysis_raises cur prev real eco arc_kind install_kind lite changed tree :
  static_analysis E cur prev real eco arc_kind install_kind lite changed tree = None <->
  (arc_kind = install_kind /\ replaced E eco = false /\ install_of E eco changed tree = None) \/
  (eco = "pypi" /\ Imports.analyze_imports (e_parse E) changed tree = None) \/ opengrep_of E changed tree = None.
Proof.
  unfold static_analysis. destruct (String.eqb_spec arc_kind install_kind) as [->|Ha], (String.eqb_spec eco "pypi") as [->|He], (replaced E _); cbn [andb negb];
    repeat match goal with |- context [?x ≫= _] => destruct x eqn:?; cbn [mbind option_bind] end; split; try done; try tauto; naive_solver.
Qed.

End Typed.

(** ** Shadow mode *)

Definition with_opengrep (E : environment) (o : opengrep) : environment :=
  mkEnvironment (e_pack E) (e_root E) (e_ast E) (e_parse E) (e_loads E) (e_stdlib E) (e_budgets E) (e_decompressors E) (e_hash E) (e_recover_max E)
    (e_shannon E) (e_astral_word E) (e_host_file E) (e_yara E) o (e_extract E) (e_fetch_enabled E) (e_bracketed E) (e_resolves E) (e_get E).
(** Shadow mode on, or the analyzer off. *)
Definition unscored (o : opengrep) : Prop := Opengrep._shadow_mode (o_switches o) = true \/ Opengrep._enabled (o_switches o) = false.

Lemma unscored_opengrep E changed tree gs : unscored (e_opengrep E) -> opengrep_of E changed tree = Some gs -> scored gs = [].
Proof.
  unfold opengrep_of. intros [H|H] Hg; [by eapply shadow_unscored|]. unfold Opengrep.analyze_opengrep in Hg. rewrite H in Hg. by injection Hg as <-.
Qed.
Lemma unscored_replaces o eco : unscored o -> Opengrep.replaces_install_analyzer_for (o_switches o) eco = false.
Proof. intros H. apply not_true_iff_false. rewrite replaces_only_live. intros (H1 & H2 & _). destruct H; congruence. Qed.

Lemma scored_app fs gs : scored (fs ++ gs) = scored fs ++ scored gs.
Proof. apply List.filter_app. Qed.
Lemma scored_filter has_go fs : scored (filter_gomod_non_go has_go fs) = filter_gomod_non_go has_go (scored fs).
Proof. unfold filter_gomod_non_go, scored. destruct has_go; [done|]. rewrite !bfilter_bfilter. apply bfilter_ext. intros g _. apply andb_comm. Qed.

(** What is scored of an archive does not depend on opengrep. *)
Lemma scored_without E o o' cur prev real eco arc_kind install_kind lite changed tree fs fs' : unscored o -> unscored o' ->
  static_analysis (with_opengrep E o) cur prev real eco arc_kind install_kind lite changed tree = Some fs ->
  static_analysis (with_opengrep E o') cur prev real eco arc_kind install_kind lite changed tree = Some fs' -> scored fs = scored fs'.
Proof.
  intros Ho Ho'. unfold static_analysis, replaced. cbn [e_opengrep with_opengrep]. rewrite !unscored_replaces by done.
  intros (install & Hi & (imports & Him & (gs & Hgs & [= <-])%bind_Some)%bind_Some)%bind_Some
         (install' & Hi' & (imports' & Him' & (gs' & Hgs' & [= <-])%bind_Some)%bind_Some)%bind_Some.
  assert (install' = install) as -> by exact (Some_inj _ _ (eq_trans (eq_sym Hi') Hi)).
  assert (imports' = imports) as -> by exact (Some_inj _ _ (eq_trans (eq_sym Him') Him)).
  apply unscored_opengrep in Hgs, Hgs'; [|done|done].
  unfold run_static_analyzers, run_analyzers, analyzers. cbv zeta. cbn [an_imports an_malware_patterns an_iocs an_secret_access an_entropy an_obfuscation an_entropy_delta an_binary an_yara an_opengrep an_install an_url_deps].
  destruct (String.eqb eco "gomod"); rewrite ?scored_filter; [f_equal|]; rewrite !scored_app, Hgs, Hgs'; reflexivity.
Qed.

(** The answer of opengrep that cannot be gone through: the run succeeds with output that is no
    text, or decodes to a value whose results are no list of objects. *)
Definition unreadable (E : environment) (o : opengrep) (tree : list tree_file) : Prop :=
  Opengrep._enabled (o_switches o) = true /\ o_dirs o <> [] /\ o_binary o = true /\
  (o_run o tree = Opengrep.Undecodable \/
   exists out v, o_run o tree = Opengrep.Exited 0 out /\ out <> "" /\ e_loads E out = Some v /\ Opengrep.results_of v = None).

Lemma with_opengrep_raises E o changed tree : opengrep_of (with_opengrep E o) changed tree = None <-> unreadable E o tree.
Proof. apply opengrep_raises. Qed.

Lemma switched_off E o changed tree : Opengrep._enabled (o_switches o) = false -> opengrep_of (with_opengrep E o) changed tree = Some [].
Proof. intros H. unfold opengrep_of, Opengrep.analyze_opengrep. cbn [e_opengrep with_opengrep]. by rewrite H. Qed.

(** C22. What shadow mode can do.  Compare the analysis of an archive with opengrep in shadow mode,
    or switched off, with the same analysis with opengrep switched off.  Where the latter raises so
    does the former.  Otherwise the former raises exactly if opengrep ran, succeeded and gave
    output that is no text or no list of results; and whenever it does not raise, the archive
    has the same score, tag and verdict, whatever opengrep's rules are and whatever it reports. *)
Theorem shadow_mode_inert E o o0 cur prev real eco arc_kind install_kind lite changed tree pack rank
  (Ho : unscored o) (H0 : Opengrep._enabled (o_switches o0) = false) :
  match static_analysis (with_opengrep E o0) cur prev real eco arc_kind install_kind lite changed tree with
  | None => static_analysis (with_opengrep E o) cur prev real eco arc_kind install_kind lite changed tree = None
  | Some fs0 =>
      (static_analysis (with_opengrep E o) cur prev real eco arc_kind install_kind lite changed tree = None <-> unreadable E o tree) /\
      forall fs, static_analysis (with_opengrep E o) cur prev real eco arc_kind install_kind lite changed tree = Some fs ->
        score_and_verdict pack fs rank = score_and_verdict pack fs0 rank
  end.
Proof.
  pose proof (with_opengrep_raises E o changed tree) as Hu. pose proof (switched_off E o0 changed tree H0) as Hoff.
  destruct (static_analysis (with_opengrep E o0) _ _ _ _ _ _ _ _ _) as [fs0|] eqn:E0.
  - split; [|intros fs E1; pose proof (scored_without E o o0 _ _ _ _ _ _ _ _ _ _ _ Ho (or_intror H0) E1 E0) as Hs;
      unfold score_and_verdict; fold (scored fs) (scored fs0); by rewrite Hs].
    rewrite <- Hu. revert E0. unfold static_analysis, replaced. cbn [e_opengrep with_opengrep].
    rewrite !unscored_replaces by (done || by right). rewrite Hoff. change (install_of (with_opengrep E o)) with (install_of (with_opengrep E o0)).
    change (e_parse (with_opengrep E o)) with (e_parse (with_opengrep E o0)).
    destruct (if _ && _ then _ else _) as [install|]; [|done]. cbn [mbind option_bind].
    destruct (if String.eqb eco "pypi" then _ else _) as [imports|]; [|done]. cbn [mbind option_bind].
    intros _. by destruct (opengrep_of _ changed tree).
  - revert E0. unfold static_analysis, replaced. cbn [e_opengrep with_opengrep].
    rewrite !unscored_replaces by (done || by right). rewrite Hoff. change (install_of (with_opengrep E o)) with (install_of (with_opengrep E o0)).
    change (e_parse (with_opengrep E o)) with (e_parse (with_opengrep E o0)).
    destruct (if _ && _ then _ else _) as [install|]; [|done]. cbn [mbind option_bind].
    destruct (if String.eqb eco "pypi" then _ else _) as [imports|]; [|done]. done.
Qed.

(** ** A concrete environment *)

Definition ex_opengrep (shadow : string) (r : Opengrep.run) : opengrep :=
  mkOpengrep (Opengrep.mkSwitches None (Some shadow) None) ["rules"] true (fun _ => r) [] (fun _ => "").
Definition ex_environment : environment :=
  mkEnvironment ex_pack ["tmp"; "x"] (fun _ => None) (fun _ => SyntaxError) (fun _ => Some (JObj (NpmInstall.ex_manifest [("preinstall", JStr NpmInstall.ex_hook)]))) ["os"]
    default_budgets no_ext polynomial 2097152 (fun _ => f_zero) [] (fun _ => Some false) None (ex_opengrep "1" Opengrep.TimedOut) (fun _ _ => None) false (fun _ => false)
    (fun _ => None) (fun _ => None).
Definition ex_static : option (list Finding) :=
  static_analysis ex_environment [] [] [] "npm" "npm_tarball" "npm_tarball" false None (NpmInstall.ex_tree NpmInstall.ex_text).
Lemma findings_well_typed_witness : exists fs, ex_static = Some fs /\ List.length fs = 1%nat /\
  Forall (fun g => (exists row, row ∈ RULES /\ (rule_id g, f_severity g, f_confidence g) ∈ row.2 /\ category g = row.1) \/
    startswith (rule_id g) "yara." = true \/ startswith (rule_id g) "opengrep." = true) fs.
Proof.
  destruct ex_static as [fs|] eqn:Es; [|exfalso; revert Es; by vm_compute]. exists fs. split_and!; [done|by (revert Es; vm_compute; intros [= <-])|].
  exact (findings_well_typed ex_environment [] [] [] "npm" "npm_tarball" "npm_tarball" false None (NpmInstall.ex_tree NpmInstall.ex_text) fs Es).
Defined.

(** A PyPI archive whose [setup.py] fetches and runs code, under opengrep's answers. *)
Definition ex_setup_py : list tree_file := [mkTreeFile ["p-1.0"; "setup.py"] (Some 1) (Some "x")].
Definition ex_loader : module_ :=
  mkModule [Call (Name "exec") [Call (Attribute (Call (Name "urlopen") [Constant (CStr "https://x")] [] 1) "read") [] [] 1] [] 1].
Definition ex_pypi (shadow : string) (r : Opengrep.run) : environment :=
  with_opengrep (mkEnvironment ex_pack ["tmp"; "x"] (fun _ => None) (fun _ => Parsed ex_loader)
    (fun _ => Some (JObj [("results", JArr [JObj [("check_id", JStr "rules.loader"); ("path", JStr "/tmp/x/p-1.0/setup.py"); ("extra", JObj [("severity", JStr "ERROR")])]])])) []
    default_budgets no_ext polynomial 2097152 (fun _ => f_zero) [] (fun _ => Some false) None (ex_opengrep "1" Opengrep.TimedOut) (fun _ _ => None) false (fun _ => false)
    (fun _ => None) (fun _ => None)) (ex_opengrep shadow r).
Definition ex_report (shadow : string) (r : Opengrep.run) : option (list (string * severity)) :=
  map (fun g => (rule_id g, f_severity g)) <$> static_analysis (ex_pypi shadow r) [] [] [] "pypi" "sdist" "sdist" false None ex_setup_py.

Lemma shadow_mode_inert_witness : exists fs fs0, fs <> fs0 /\
  static_analysis (ex_pypi "1" (Opengrep.Exited 0 "{}")) [] [] [] "pypi" "sdist" "sdist" false None ex_setup_py = Some fs /\
  score_and_verdict ex_pack fs None = score_and_verdict ex_pack fs0 None /\ sr_verdict (score_and_verdict ex_pack fs0 None) = VMalicious.
Proof.
  pose (off := mkOpengrep (Opengrep.mkSwitches (Some "0") (Some "1") None) [] false (fun _ => Opengrep.TimedOut) [] (fun _ => "")).
  pose proof (shadow_mode_inert (ex_pypi "1" Opengrep.TimedOut) (ex_opengrep "1" (Opengrep.Exited 0 "{}")) off
    [] [] [] "pypi" "sdist" "sdist" false None ex_setup_py ex_pack None (or_introl eq_refl) eq_refl) as H.
  destruct (static_analysis (ex_pypi "1" (Opengrep.Exited 0 "{}")) [] [] [] "pypi" "sdist" "sdist" false None ex_setup_py) as [fs|] eqn:E1; [|exfalso; revert E1; by vm_compute].
  destruct (static_analysis (with_opengrep (ex_pypi "1" Opengrep.TimedOut) off) [] [] [] "pypi" "sdist" "sdist" false None ex_setup_py) as [fs0|] eqn:E0; [|exfalso; revert E0; by vm_compute].
  destruct H as [_ H]. exists fs, fs0. split_and!; [revert E1 E0; by vm_compute; intros [= <-] [= <-]|reflexivity| |by (revert E0; vm_compute; intros [= <-])].
  apply H. exact E1.
Defined.

(** With shadow mode off, opengrep stands in for the install analyzer even where it gives no
    answer: a package that makes it time out is not looked at by either. *)
Example cutover_fails_open :
  ex_report "1" Opengrep.TimedOut = Some [("installer.urlopen_exec_chain", SCritical)] /\
  ex_report "0" Opengrep.TimedOut = Some [] /\ ex_report "0" (Opengrep.Exited 2 "") = Some [] /\
  ex_report "0" (Opengrep.Exited 0 "{}") = Some [("opengrep.loader", SHigh)] /\
  ex_report "1" (Opengrep.Exited 0 "{}") = Some [("installer.urlopen_exec_chain", SCritical); ("opengrep.shadow_loader", SHigh)].
Proof. by vm_compute. Qed.
