(* ===== verification/Glob.v ===== *)
(** * Shell patterns ([fnmatch]) and walks by pattern ([llm/triage.py], [_safe_rglob])

    [fnmatch.fnmatch] on a system without case folding: [*], [?] and sets of
    characters; a bracket that does not close stands for itself. *)
From stdpp Require Import base list.
From S2P Require Import Prelude PyStr Text Tree Codecs.
From Stdlib Require Import Ascii String.

Open Scope string_scope.
Open Scope list_scope.
Open Scope Z_scope.

(** ** Patterns *)

Inductive token := Star | AnyChar | Char (c : ascii) | CharSet (negated : bool) (ranges : list (ascii * ascii)).

(** What stands between the brackets, and what follows; a closing bracket right after the opening
    one, or after the mark of negation, belongs to the set. *)
Definition bracket (s : string) : option (bool * string * string) :=
  let negated := startswith s "!" in
  let s1 := if negated then str_drop 1 s else s in
  let first := if startswith s1 "]" then "]" else "" in
  let s2 := str_drop (len first) s1 in
  rest ← after_first "]" s2; Some (negated, first +:+ before_first "]" s2, rest).

(** Single characters and ranges; a range whose ends are in the wrong order holds nothing. *)
Fixpoint ranges_of (l : list ascii) : list (ascii * ascii) :=
  match l with
  | [] => []
  | x :: t =>
      match t with
      | d :: y :: t' => if Ascii.eqb d "-" then (x, y) :: ranges_of t' else (x, x) :: ranges_of t
      | _ => (x, x) :: ranges_of t
      end
  end.

Fixpoint translate (fuel : nat) (s : string) : list token :=
  match fuel, s with
  | S fuel', String c s' =>
      if Ascii.eqb c "*" then Star :: translate fuel' s'
      else if Ascii.eqb c "?" then AnyChar :: translate fuel' s'
      else if Ascii.eqb c "[" then
        match bracket s' with
        | Some (negated, body, rest) => CharSet negated (ranges_of (list_ascii_of_string body)) :: translate fuel' rest
        | None => Char c :: translate fuel' s'
        end
      else Char c :: translate fuel' s'
  | _, _ => []
  end.

Definition in_ranges (c : ascii) (l : list (ascii * ascii)) : bool := existsb (fun r => (code r.1 <=? code c) && (code c <=? code r.2)) l.
Definition token_ok (t : token) (c : ascii) : bool :=
  match t with
  | Star | AnyChar => true
  | Char d => Ascii.eqb d c
  | CharSet negated l => xorb negated (in_ranges c l)
  end.

Fixpoint tokens_match (ts : list token) (s : string) : bool :=
  match ts with
  | [] => String.eqb s ""
  | Star :: ts' => (fix star s := tokens_match ts' s || match s with EmptyString => false | String _ s' => star s' end) s
  | t :: ts' => match s with String c s' => token_ok t c && tokens_match ts' s' | EmptyString => false end
  end.
Definition fnmatch (name pat : string) : bool := tokens_match (translate (len pat) pat) name.

(** ** Walks *)

(** The pattern against the last parts of a path. *)
Definition tail_matches (pattern : string) (parts : list string) : bool :=
  let pat_parts := split "/" pattern in
  let n := List.length pat_parts in
  (n <=? List.length parts)%nat && forallb (fun sp => fnmatch sp.1 sp.2) (combine (skipn (List.length parts - n) parts) pat_parts).

Definition _safe_rglob (tree : list tree_file) (pattern : string) : list tree_file := bfilter (fun f => tail_matches pattern (tf_parts f)) tree.
(** With the bound on the files that are yielded. *)
Definition _safe_rglob_limit (tree : list tree_file) (pattern : string) (limit : nat) : list tree_file := firstn limit (_safe_rglob tree pattern).

(** ** Lemmas *)

(** A pattern without the three special characters matches itself alone. *)
Definition plain_pattern (s : string) : bool := negb (has_char "*" s) && negb (has_char "?" s) && negb (has_char "[" s).

Lemma fnmatch_plain name pat : plain_pattern pat = true -> fnmatch name pat = String.eqb name pat.
Proof.
  unfold fnmatch, plain_pattern, len. revert name. induction pat as [|c p IH]; intros name; [by destruct name|].
  cbn [has_char String.length translate]. rewrite !negb_orb, !andb_true_iff, !negb_true_iff. intros [[[H1 Hp1] [H2 Hp2]] [H3 Hp3]].
  rewrite Ascii.eqb_sym in H1, H2, H3. rewrite H1, H2, H3. cbn [tokens_match]. destruct name as [|d name]; [done|]. cbn [token_ok String.eqb].
  rewrite Ascii.eqb_sym. destruct (Ascii.eqb d c); [|done]. apply IH. by rewrite !andb_true_iff, !negb_true_iff.
Qed.

Lemma safe_rglob_in tree pattern f : f ∈ _safe_rglob tree pattern <-> f ∈ tree /\ tail_matches pattern (tf_parts f) = true.
Proof. unfold _safe_rglob. by rewrite bfilter_in. Qed.

(** The reported path of a file finds it, unless it has a special character. *)
Lemma split_join c l : l <> [] -> Forall (fun w => has_char c w = false) l -> split c (join (String c "") l) = l.
Proof.
  induction l as [|w l IH]; [done|]. intros _ [Hw Hl]%Forall_cons. destruct l as [|w' l].
  - by apply split_last.
  - change (join (String c "") (w :: w' :: l)) with (w +:+ String c (join (String c "") (w' :: l))). rewrite split_word by done. f_equal. by apply IH.
Qed.

Lemma own_path_matches parts : parts <> [] -> Forall (fun w => has_char "/" w = false) parts -> Forall (fun w => plain_pattern w = true) parts ->
  tail_matches (join "/" parts) parts = true.
Proof.
  intros Hne Hs Hp. unfold tail_matches. rewrite split_join by done. cbv zeta. rewrite Nat.leb_refl, Nat.sub_diag, drop_0. cbn [andb].
  clear Hne Hs. induction Hp as [|w l Hw _ IH]; [done|]. cbn [combine forallb fst snd]. by rewrite fnmatch_plain, String.eqb_refl.
Qed.

Example glob_fnmatch_ex : map (fun np => fnmatch np.1 np.2) [("a.js", "*.js"); ("[id].js", "[id].js"); ("i.js", "[id].js"); ("b", "[!a-c]"); ("]", "[]]"); ("[x", "[x"); ("-", "[a-]"); ("b", "[c-a]"); ("z", "[!c-a]")] =
  [true; false; true; false; true; true; true; false; true].
Proof. by vm_compute. Qed.
