(* ===== verification/TriageSource.v ===== *)
(** * What the model is shown ([llm/triage.py], [_gather_source] and [_build_messages])

    The files of the package that go into the prompt: install entries, modules that [.pth]
    files import, and the files the findings point at, ranked by severity, each pass within its
    budget.  Contents are text of one byte per character; the tree is in the order of
    [os.walk]; [None] is an exception that ends the triage. *)
From stdpp Require Import base list sorting.
From S2P Require Import Prelude PyStr Text Regex RegexSyntax Findings Json Tree Intel Obfuscation NpmInstall Codecs Glob.
From Stdlib Require Import Ascii String Sorting.Sorted.

Open Scope string_scope.
Open Scope list_scope.
Open Scope Z_scope.

(** ** Configuration *)

Definition MAX_CODE_BYTES : Z := 48 * 1024.
Definition LINES_AROUND_FINDING : Z := 20.
Definition PER_FILE_CAP : Z := 12 * 1024.
Definition RESERVED_ENTRY_BYTES : Z := 16 * 1024.
Definition ENTRY_FILE_CAP : Z := 8 * 1024.
Definition MAX_RECON_FILES : nat := Z.to_nat 20000.
Definition _SEV_ORDER (s : severity) : Z := match s with SCritical => 0 | SHigh => 1 | SMedium => 2 | SLow => 3 end.
Definition _INSTALL_HOOK_KEYS : list string := ["preinstall"; "install"; "postinstall"; "prepare"].
Definition _SCRIPT_FILE_REF : regex := compile plain "(?:\./)?(?:[\w.\-]+/)*[\w.\-]+\.(?:c?m?[jt]s)\b".
Definition _PTH_IMPORT_RE : regex := compile plain "(?:^|[;\s])import\s+([\w][\w.]*)".

Record eco_config := mkEco {
  priority_files : list string; prompt_ecosystem : string; prompt_language : string; prompt_source_desc : string;
  prompt_install_time_focus : string; source_exts : list string;
}.
Definition _DEFAULT_ECOSYSTEM_CONFIG : eco_config := mkEco [] "package registry" "" "source code from a third-party package"
  "any code that runs at install, build, or import time (as opposed to code that only runs when a consumer explicitly calls it)" ["*.py"].
Definition _ECOSYSTEM_CONFIG : list (string * eco_config) :=
  [("pypi", mkEco ["setup.py"; "__init__.py"] "PyPI" "Python" "Python source code from a third-party PyPI package"
      "setup.py, setup.cfg, pyproject.toml build hooks, __init__.py top-level statements, conftest.py" ["*.py"]);
   ("crates", mkEco ["build.rs"; "Cargo.toml"] "crates.io" "Rust" "Rust source code from a third-party crate"
      "build.rs, Cargo.toml build/proc-macro deps, lib.rs top-level + proc-macro expansion" ["*.rs"; "*.toml"]);
   ("gomod", mkEco [] "Go modules" "Go" "Go source code from a third-party module"
      "//go:generate directives, init() bodies, CGO blocks, replace/unsafe usage, top-level var initializers" ["*.go"]);
   ("npm", mkEco ["package.json"] "npm" "JavaScript" "JavaScript/TypeScript source from a third-party npm package"
      "package.json lifecycle scripts (preinstall/install/postinstall/prepare), the bin entry and referenced install scripts, and top-level module code that runs on require()"
      ["*.js"; "*.mjs"; "*.cjs"; "*.ts"])].
Definition config_of (ecosystem : string) : eco_config := dget_or ecosystem _DEFAULT_ECOSYSTEM_CONFIG _ECOSYSTEM_CONFIG.

(** ** Text *)

Definition zlen (s : string) : Z := Z.of_nat (len s).
Definition take_z (n : Z) (s : string) : string := str_take (Z.to_nat n) s.
Definition NL : string := String LF "".
Definition lines_of (l : list string) : string := join NL l.
(** [f"{i:>5}"]. *)
Definition pad5 (i : Z) : string := rep (5 - len (show i)) " " +:+ show i.

(** ** Binary files *)

Definition _BINARY_SNIFF_BYTES : nat := Z.to_nat 8192.
Definition _BINARY_STRINGS_SCAN_BYTES : nat := Z.to_nat (256 * 1024).
Definition _BINARY_STRINGS_BUDGET : Z := 1024.
Definition _BINARY_MAGIC_BYTES : nat := 32.
Definition _PRINTABLE_RUN_RE : regex := compile bplain "[\x20-\x7e]{6,}".

(** The ratio [count / len > 0.15] over at most 8192 characters, where the rounding of
    the quotient decides nothing. *)
Definition _is_binary_file (f : tree_file) : bool :=
  match tf_data f with
  | None => false
  | Some data =>
      let head := str_take _BINARY_SNIFF_BYTES data in
      let decoded := utf8_replace (codes_of head) in
      truthy head && (has_char NUL head ||
        (3 * Z.max (Z.of_nat (List.length decoded)) 1 <? 20 * Z.of_nat (List.length (bfilter (Z.eqb 65533) decoded))))
  end.

(** [json.dumps] of text. *)
Definition json_char (c : ascii) : string :=
  let n := code c in
  if Ascii.eqb c DQ then String BS (String DQ "") else if Ascii.eqb c BS then String BS (String BS "")
  else if n =? 10 then "\n" else if n =? 13 then "\r" else if n =? 9 then "\t" else if n =? 8 then "\b" else if n =? 12 then "\f"
  else if (32 <=? n) && (n <=? 126) then String c "" else "\u00" +:+ hex_pair c.
Definition json_string (s : string) : string := String DQ (each json_char s +:+ String DQ "").

(** The loop over the printable runs. *)
Fixpoint run_strings (used : Z) (seen : list string) (runs : list string) : list string :=
  match runs with
  | [] => []
  | sv :: runs' =>
      if str_in sv seen then run_strings used seen runs'
      else if _BINARY_STRINGS_BUDGET <? used + zlen sv then []
      else json_string sv :: run_strings (used + zlen sv) (sv :: seen) runs'
  end.

Definition _binary_stub_block (f : tree_file) (rel notes : string) : string :=
  let header := "--- FILE: " +:+ rel +:+ " (flagged — binary, content not shown" +:+ (if truthy notes then "; findings: " +:+ notes else "") +:+ ") ---" in
  match tf_size f, tf_data f with
  | Some size, Some data =>
      let data := str_take _BINARY_STRINGS_SCAN_BYTES data in
      let magic := join " " (map hex_pair (list_ascii_of_string (str_take _BINARY_MAGIC_BYTES data))) in
      let strings := run_strings 0 [] (map (group0 data) (finditer _PRINTABLE_RUN_RE data)) in
      let body := ["size: " +:+ show size +:+ " bytes"; "magic: " +:+ magic] ++
        match strings with [] => [] | _ => ["strings (printable, deduped): " +:+ join ", " strings] end in
      header +:+ NL +:+ lines_of body +:+ NL
  | _, _ => header +:+ NL +:+ "[unreadable]" +:+ NL
  end.

Definition tag_of (f : Finding) : string := rule_id f +:+ match line f with Some n => "@L" +:+ show n | None => "" end.
Definition _finding_notes (findings : list Finding) (fname : string) (cap : nat) : string :=
  let tags := sorted_set (map tag_of (bfilter (fun f => String.eqb (file f) fname) findings)) in
  join ", " (firstn cap tags) +:+
  (if (cap <? List.length tags)%nat then ", +" +:+ show (Z.of_nat (List.length tags - cap)) +:+ " more" else "").

(** ** Entry files *)

(** A file under the path by which it was reached. *)
Definition entry : Type := string * tree_file.
Definition entry_of (f : tree_file) : entry := (real_path f, f).

Section Gather.
(** The parts of the extraction directory; the files; paths outside of the tree; [json.loads]; the
    order in which a set of names is gone through. *)
Variables (root : list string) (tree : list tree_file) (host_file : list string -> option bool) (host_dir : list string -> bool).
Variables (loads : string -> option json) (set_order : list string -> list string).

Definition is_file_at (p : list string) : option (option tree_file) := NpmInstall.is_file root tree host_file p.
Definition dir_of (f : tree_file) : list string := root ++ removelast (tf_parts f).
Definition content_of (f : tree_file) : option string := read_text <$> tf_data f.

(** The parts of [Path(s)]. *)
Definition raw_parts (s : string) : list string := bfilter (fun p => negb (String.eqb p "" || String.eqb p ".")) (split "/" s).

(** [.pth] files and the modules they import. *)
Definition _resolve_pth_module (dotted : string) : option (option tree_file) :=
  let parts := split "." dotted in
  let names := bfilter truthy parts in
  direct ← is_file_at (root ++ removelast names ++ [List.last names "" +:+ ".py"]);
  match direct with
  | Some f => Some (Some f)
  | None =>
      init ← is_file_at (root ++ names ++ ["__init__.py"]);
      match init with
      | Some f => Some (Some f)
      | None =>
          let leaves := _safe_rglob tree (List.last parts "" +:+ ".py") in
          let parent := List.last (removelast parts) "" in
          let siblings := if (1 <? List.length parts)%nat then bfilter (fun f => String.eqb (List.last (dir_of f) "") parent) leaves else [] in
          Some (head (siblings ++ leaves))
      end
  end.

Definition same_file (f g : tree_file) : bool := bool_decide (tf_parts f = tf_parts g).
Definition pth_import (out : list tree_file) (dotted : string) : option (list tree_file) :=
  m ← _resolve_pth_module dotted;
  Some (match m with Some f => if existsb (same_file f) out then out else out ++ [f] | None => out end).
Definition pth_step (out : list tree_file) (pth : tree_file) : option (list tree_file) :=
  let out := out ++ [pth] in
  match content_of pth with
  | None => Some out
  | Some content => foldM pth_import out (findall _PTH_IMPORT_RE content)
  end.
Definition _pth_companion_files : option (list tree_file) := foldM pth_step [] (_safe_rglob tree "*.pth").

(** A decoded [package.json] that is an object. *)
Definition manifests : list (tree_file * list (string * json)) :=
  omap (fun pj => match content_of pj ≫= loads with Some (JObj o) => Some (pj, o) | _ => None end) (_safe_rglob_limit tree "package.json" 50).

Definition lifecycle_ref (pj : tree_file) (ref : string) : option (list tree_file) :=
  cand ← NpmInstall.resolve (dir_of pj) (lstrip_chars "./" ref);
  match NpmInstall.relative_to cand root with
  | None => Some []
  | Some _ => o ← is_file_at cand; Some (match o with Some f => [f] | None => [] end)
  end.
Definition hook_refs (o : list (string * json)) : list string :=
  match jget "scripts" o JNull with
  | JObj scripts => flat_map (fun hook => match jget hook scripts JNull with JStr cmd => map (group0 cmd) (finditer _SCRIPT_FILE_REF cmd) | _ => [] end) _INSTALL_HOOK_KEYS
  | _ => []
  end.
Definition concat_opt {A B} (f : A -> option (list B)) (l : list A) : option (list B) := foldM (fun out a => app out <$> f a) [] l.
Definition _npm_lifecycle_files : option (list tree_file) := concat_opt (fun m => concat_opt (lifecycle_ref m.1) (hook_refs m.2)) manifests.

(** The candidates of a [main] field; [with_suffix] of a path without a name raises. *)
Definition main_candidates (pj : tree_file) (main : string) : option (list (list string)) :=
  let base := (if startswith main "/" then [] else dir_of pj) ++ raw_parts main in
  match base with
  | [] => None
  | _ => Some [base; removelast base ++ [name_stem (List.last base "") +:+ ".js"]; base ++ ["index.js"]]
  end.

Definition is_dir (p : list string) : bool :=
  match NpmInstall.relative_to p root with
  | Some parts => NpmInstall.dir_exists tree parts
  | None => bool_decide (p `prefix_of` root) || host_dir p
  end.
(** The path the system reaches: each parent step needs a directory to leave. *)
Fixpoint follow (acc parts : list string) : option (option (list string)) :=
  match parts with
  | [] => Some (Some acc)
  | p :: parts' =>
      if String.eqb p ".." then
        if is_dir acc then follow (removelast acc) parts' else (fun _ => None) <$> is_file_at acc
      else follow (acc ++ [p]) parts'
  end.
Definition raw_is_file (p : list string) : option (option tree_file) :=
  o ← follow [] p; match o with Some q => is_file_at q | None => Some None end.

(** The first candidate that is a file below the root. *)
Fixpoint first_main (cands : list (list string)) : option (option entry) :=
  match cands with
  | [] => Some None
  | c :: cands' =>
      if existsb (has_char NUL) c || negb (bool_decide (is_Some (NpmInstall.relative_to (fold_left NpmInstall.path_step c []) root))) then first_main cands'
      else
        o ← raw_is_file c;
        match o with Some f => Some (Some (join "/" (skipn (List.length root) c), f)) | None => first_main cands' end
  end.
Definition main_file (m : tree_file * list (string * json)) : option (list entry) :=
  match jget "main" m.2 JNull with
  | JStr main => if truthy main then cands ← main_candidates m.1 main; o ← first_main cands; Some (match o with Some e => [e] | None => [] end) else Some []
  | _ => Some []
  end.
Definition _npm_main_files : option (list entry) := concat_opt main_file manifests.

(** [add]: once under each path. *)
Definition add_entry (out : list entry) (e : entry) : list entry := if str_in e.1 out.*1 then out else out ++ [e].
Definition add_entries (out es : list entry) : list entry := fold_left add_entry es out.

Definition _entry_files (cfg : eco_config) (ecosystem : string) (finding_files : list string) : option (list entry) :=
  let out := add_entries [] (flat_map (fun name => map entry_of (_safe_rglob_limit tree name 20)) (priority_files cfg)) in
  out ← (if String.eqb ecosystem "npm" then
           lifecycle ← _npm_lifecycle_files; main ← _npm_main_files; Some (add_entries (add_entries out (map entry_of lifecycle)) main)
         else Some out);
  Some (if String.eqb ecosystem "npm" || String.eqb ecosystem "gomod" then
          add_entries out (flat_map (fun ext => map entry_of (bfilter (fun f => negb (str_in (real_path f) finding_files || str_in (tf_name f) finding_files))
            (_safe_rglob_limit tree ext 12))) (source_exts cfg))
        else out).

(** ** The three passes *)

Record gathered := mkGathered { snippets : list string; total : Z; seen : list string }.
Definition push (block : string) (g : gathered) : gathered := mkGathered (snippets g ++ [block]) (total g + zlen block) (seen g).
Definition mark (rel : string) (g : gathered) : gathered := mkGathered (snippets g) (total g) (seen g ++ [rel]).

Definition capped (cap : Z) (note block : string) : string :=
  if cap <? zlen block then take_z cap block +:+ NL +:+ "... [" +:+ note +:+ "truncated] ..." +:+ NL else block.

(** The entry pass: a file that does not fit counts as seen. *)
Definition entry_ceiling : Z := Z.min RESERVED_ENTRY_BYTES MAX_CODE_BYTES.
Definition entry_block (e : entry) (src : string) : string :=
  capped ENTRY_FILE_CAP "entry " ("--- FILE: " +:+ e.1 +:+ " (install entry) ---" +:+ NL +:+ src +:+ NL).
Definition entry_step (g : gathered) (e : entry) : gathered :=
  if (entry_ceiling <=? total g) || str_in e.1 (seen g) then g
  else match content_of e.2 with
  | None => g
  | Some src =>
      let g := mark e.1 g in
      let block := entry_block e src in
      if entry_ceiling <? total g + zlen block then g else push block g
  end.

(** [_include]; [false] ends the pass. *)
Definition _include (f : tree_file) (g : gathered) : bool * gathered :=
  let rel := real_path f in
  if str_in rel (seen g) then (true, g)
  else
    let g := mark rel g in
    match content_of f with
    | None => (true, g)
    | Some src =>
        let block := "--- FILE: " +:+ rel +:+ " ---" +:+ NL +:+ src +:+ NL in
        let remaining := MAX_CODE_BYTES - total g in
        if MAX_CODE_BYTES <? total g + zlen block then
          if 200 <? remaining then
            let g := push (take_z remaining block +:+ NL +:+ "... [truncated] ..." +:+ NL) g in (total g <? MAX_CODE_BYTES, g)
          else (false, g)
        else let g := push block g in (total g <? MAX_CODE_BYTES, g)
    end.
Fixpoint include_all (fs : list tree_file) (g : gathered) : gathered :=
  match fs with
  | [] => g
  | f :: fs' => let (go, g') := _include f g in if go then include_all fs' g' else g'
  end.

(** Windows around the lines of the findings. *)
Definition pair_leb (a b : Z * Z) : bool := (a.1 <? b.1) || ((a.1 =? b.1) && (a.2 <=? b.2)).
Definition window (n_lines ln : Z) : Z * Z := (Z.max 1 (ln - LINES_AROUND_FINDING), Z.min n_lines (ln + LINES_AROUND_FINDING)).
Definition numbered_range (src_lines : list string) (a b : Z) : list string :=
  map (fun k => let i := a + Z.of_nat k in pad5 i +:+ ": " +:+ nth (Z.to_nat (i - 1)) src_lines "") (List.seq 0 (Z.to_nat (b - a + 1))).
Definition region_step (src_lines : list string) (st : Z * list string) (r : Z * Z) : Z * list string :=
  (Z.max st.1 r.2, st.2 ++ (if st.1 + 1 <? r.1 then ["... [skip] ..."] else []) ++ numbered_range src_lines r.1 r.2).
Definition regions_block (rel notes text : string) (lines : list Z) : string :=
  let src_lines := splitlines text in
  let ranges := ssort pair_leb (map (window (Z.of_nat (List.length src_lines))) lines) in
  lines_of (("--- FILE: " +:+ rel +:+ " (regions around findings: " +:+ notes +:+ ") ---") :: (fold_left (region_step src_lines) ranges (0, [])).2) +:+ NL.

Definition flagged_lines (findings : list Finding) (fname : string) : list Z :=
  dedup (omap (fun f => if String.eqb (file f) fname then line f else None) findings).
(** The block of a flagged file; [None]: it cannot be read. *)
Definition flagged_block (findings : list Finding) (fname : string) (f : tree_file) : option string :=
  let rel := real_path f in
  let notes := _finding_notes findings fname 8 in
  let lines := flagged_lines findings fname in
  let whole text := match lines with
    | [] => "--- FILE: " +:+ rel +:+ " (flagged — whole file; findings: " +:+ notes +:+ ") ---" +:+ NL +:+ text +:+ NL
    | _ => regions_block rel notes text lines
    end in
  if bool_decide (lines = []) && _is_binary_file f then Some (_binary_stub_block f rel notes) else whole <$> content_of f.

Definition flagged_files (findings : list Finding) : list string := dedup (bfilter truthy (map file findings)).
Definition rank_of (findings : list Finding) (fname : string) : Z :=
  foldr Z.min 9 (map (fun f => _SEV_ORDER (f_severity f)) (bfilter (fun f => String.eqb (file f) fname) findings)).
Definition _ranked (findings : list Finding) : list string :=
  ssort (fun a b => rank_of findings a <=? rank_of findings b) (set_order (flagged_files findings)).
(** The first file the name leads to, as a pattern. *)
Definition found_file (fname : string) : option tree_file :=
  head (_safe_rglob tree fname ++ _safe_rglob tree (path_name fname)).

(** One flagged file; [false] ends the pass. *)
Definition flagged_step (findings : list Finding) (fname : string) (g : gathered) : bool * gathered :=
  if MAX_CODE_BYTES <=? total g then (false, g)
  else match found_file fname with
  | None => (true, g)
  | Some f =>
      if str_in (real_path f) (seen g) then (true, g)
      else
        let g := mark (real_path f) g in
        match flagged_block findings fname f with
        | None => (true, g)
        | Some block =>
            let block := capped PER_FILE_CAP "finding-file " block in
            if MAX_CODE_BYTES <? total g + zlen block then (false, g) else (true, push block g)
        end
  end.
Fixpoint flagged_pass (findings : list Finding) (names : list string) (g : gathered) : gathered :=
  match names with
  | [] => g
  | n :: names' => let (go, g') := flagged_step findings n g in if go then flagged_pass findings names' g' else g'
  end.

Definition entry_pass (es : list entry) : gathered := fold_left entry_step es (mkGathered [] 0 []).
Definition gather_snippets (findings : list Finding) (ecosystem : string) : option (list string) :=
  es ← _entry_files (config_of ecosystem) ecosystem (flagged_files findings);
  companions ← (if String.eqb ecosystem "pypi" then _pth_companion_files else Some []);
  Some (snippets (flagged_pass findings (_ranked findings) (include_all companions (entry_pass es)))).
Definition _gather_source (findings : list Finding) (ecosystem : string) : option string :=
  (fun l => match l with [] => "(no source extracted)" | _ => lines_of l end) <$> gather_snippets findings ecosystem.

(** ** The messages *)

(** The walk that counts the sources: their number and the bytes of those below 10 MB. *)
Definition source_stats (ecosystem : string) : Z * Z :=
  fold_left (fun st f => match tf_size f with Some sz => (st.1 + 1, if sz <? 10 * 1024 * 1024 then st.2 + sz else st.2) | None => st end)
    (flat_map (fun ext => _safe_rglob_limit tree ext MAX_RECON_FILES) (source_exts (config_of ecosystem))) (0, 0).
End Gather.

(** [int(x)] of a finite double. *)
Definition truncate (x : double) : Z :=
  match x with
  | S754_finite s m e => let n := if 0 <=? e then Z.pos m * 2 ^ e else Z.pos m / 2 ^ (- e) in if s then - n else n
  | _ => 0
  end.
Definition double_of (n : Z) : double := default f_zero (float_of_int n).
(** [max(0, 100 - int(len(source) / max(source_bytes_total, 1) * 100))]. *)
Definition truncation_pct (source_len source_bytes_total : Z) : Z :=
  Z.max 0 (100 - truncate (SFmul 53 1024 (SFdiv 53 1024 (double_of source_len) (double_of (Z.max source_bytes_total 1))) (double_of 100))).

(** [str.format] with named fields that have neither conversion nor format specification; [None]: it raises. *)
Fixpoint format_go (fuel : nat) (args : list (string * string)) (s : string) : option string :=
  match fuel, s with
  | S fuel', String c s' =>
      if Ascii.eqb c "{" then
        if startswith s' "{" then (fun t => String c t) <$> format_go fuel' args (str_drop 1 s')
        else rest ← after_first "}" s'; v ← dget (before_first "}" s') args; (fun t => v +:+ t) <$> format_go fuel' args rest
      else if Ascii.eqb c "}" then
        if startswith s' "}" then (fun t => String c t) <$> format_go fuel' args (str_drop 1 s') else None
      else (fun t => String c t) <$> format_go fuel' args s'
  | _, _ => Some ""
  end.
Definition format (args : list (string * string)) (template : string) : option string := format_go (len template) args template.

Definition confidence_name (c : confidence) : string := match c with CLow => "low" | CMedium => "medium" | CHigh => "high" end.
(** [json.dumps([...], indent=2)] of the first fifty findings. *)
Definition field_line (k v : string) : string := "    " +:+ json_string k +:+ ": " +:+ v.
Definition finding_json (f : Finding) : string :=
  "  {" +:+ NL +:+ join ("," +:+ NL) [field_line "rule_id" (json_string (rule_id f)); field_line "severity" (json_string (severity_name (f_severity f)));
    field_line "confidence" (json_string (confidence_name (f_confidence f))); field_line "file" (json_string (file f));
    field_line "line" (match line f with Some n => show n | None => "null" end); field_line "evidence" (json_string (str_take 200 (evidence f)))] +:+ NL +:+ "  }".
Definition findings_json (findings : list Finding) : string :=
  match firstn 50 findings with
  | [] => "[]"
  | fs => "[" +:+ NL +:+ join ("," +:+ NL) (map finding_json fs) +:+ NL +:+ "]"
  end.

Section Messages.
(** The intel pack's prompts, and the random delimiter. *)
Variables (pack_prompts : list (string * string)) (delim : string).

(** The system and the user message; [None]: a template is missing or cannot be filled in. *)
Definition _build_messages (pkg_name pkg_version : string) (findings : list Finding) (source ecosystem : string) (source_files_total pct : Z) : option (string * string) :=
  let cfg := config_of ecosystem in
  warning ← (let template := dget_or "truncation_warning" "" pack_prompts in
    if (50 <=? pct) && truthy template then format [("visible_pct", show (100 - pct)); ("source_files_total", show source_files_total)] template else Some "");
  let template := dget_or "triage_system" "" pack_prompts in
  if negb (truthy template) then None
  else
    system ← format [("eco_name", prompt_ecosystem cfg); ("source_desc", prompt_source_desc cfg); ("delim", delim); ("truncation_warning", warning);
                     ("install_time_focus", prompt_install_time_focus cfg)] template;
    let fence := "<<<" +:+ delim +:+ ">>>" in
    Some (system, "Package: " +:+ pkg_name +:+ "==" +:+ pkg_version +:+ NL +:+ NL +:+ "Rule findings:" +:+ NL +:+ findings_json findings +:+ NL +:+ NL +:+
                  fence +:+ NL +:+ source +:+ NL +:+ fence).
End Messages.

(** ** Lengths *)

Lemma zlen_app s t : zlen (s +:+ t) = zlen s + zlen t.
Proof. unfold zlen. rewrite len_app. lia. Qed.
Lemma zlen_nonneg s : 0 <= zlen s.
Proof. unfold zlen. lia. Qed.
Lemma zlen_take n s : 0 <= n -> zlen (take_z n s) = Z.min n (zlen s).
Proof.
  intros Hn. unfold zlen, take_z. rewrite <- (str_take_drop (Z.to_nat n) s) at 2. rewrite len_app.
  pose proof (str_take_length (Z.to_nat n) s). destruct (decide (len s <= Z.to_nat n)%nat) as [H'|H'].
  - rewrite str_take_all by done. rewrite <- (str_take_all (Z.to_nat n) s) at 2 by done. rewrite <- len_app, str_take_drop. lia.
  - assert (len (str_take (Z.to_nat n) s) = Z.to_nat n) as ->; [|lia]. clear H. revert s H'. generalize (Z.to_nat n). intros k.
    unfold len. induction k as [|k IH]; intros [|c s] H'; cbn in *; try lia. rewrite IH by lia. done.
Qed.

Lemma capped_length cap note b : 0 <= cap -> zlen note <= 13 -> zlen (capped cap note b) <= cap + 34 /\ Z.min 10 (zlen b) <= Z.max (10 - cap) (zlen (capped cap note b)).
Proof.
  intros Hc Hn. unfold capped. destruct (Z.ltb_spec cap (zlen b)) as [H|H]; [|pose proof (zlen_nonneg b); lia].
  rewrite !zlen_app, zlen_take by done. change (zlen NL) with 1. change (zlen "... [") with 5. change (zlen "truncated] ...") with 14.
  pose proof (zlen_nonneg note). lia.
Qed.

(** ** The source stays within its budget *)

Section Bounds.
Context (root : list string) (tree : list tree_file) (host_file : list string -> option bool) (host_dir : list string -> bool).
Context (loads : string -> option json) (set_order : list string -> list string).

Definition sum_len (l : list string) : Z := foldr (fun s n => zlen s + n) 0 l.
Lemma sum_len_app l l' : sum_len (l ++ l') = sum_len l + sum_len l'.
Proof. induction l as [|s l IH]; [done|]. change (zlen s + sum_len (l ++ l') = zlen s + sum_len l + sum_len l'). lia. Qed.

Record sized (bound : Z) (g : gathered) : Prop := {
  sz_total : total g = sum_len (snippets g);
  sz_long : Forall (fun s => 10 <= zlen s) (snippets g);
  sz_bound : total g <= bound;
}.

Lemma sized_push bound block g : sized bound g -> 10 <= zlen block -> total g + zlen block <= bound -> sized bound (push block g).
Proof.
  intros [Ht Hl Hb] Hn Hs. constructor; cbn [push total snippets]; [|apply Forall_app; split; [done|by constructor]|done]. rewrite sum_len_app, Ht. cbn. lia.
Qed.
Lemma sized_mark bound rel g : sized bound g -> sized bound (mark rel g).
Proof. by intros [? ? ?]. Qed.
Lemma sized_weaken b b' g : sized b g -> b <= b' -> sized b' g.
Proof. intros [? ? ?] ?. constructor; [done..|lia]. Qed.

(** Every block begins with its file. *)
Lemma header_long s : 10 <= zlen ("--- FILE: " +:+ s).
Proof. rewrite zlen_app. change (zlen "--- FILE: ") with 10. pose proof (zlen_nonneg s). lia. Qed.
Lemma capped_long cap note b : 10 <= cap -> zlen note <= 13 -> 10 <= zlen b -> 10 <= zlen (capped cap note b).
Proof. intros Hc Hn Hb. pose proof (capped_length cap note b). lia. Qed.

Lemma entry_step_sized g e : sized entry_ceiling g -> sized entry_ceiling (entry_step g e).
Proof.
  intros H. unfold entry_step. destruct (_ || _); [done|]. destruct (content_of e.2) as [src|]; [|done]. cbv zeta.
  destruct (Z.ltb_spec entry_ceiling (total (mark e.1 g) + zlen (entry_block e src))); [by apply sized_mark|].
  apply sized_push; [by apply sized_mark| |lia]. apply capped_long; [unfold ENTRY_FILE_CAP; lia|done|apply header_long].
Qed.
Lemma entry_pass_sized es : sized entry_ceiling (entry_pass es).
Proof. apply (fold_inv (sized entry_ceiling)); [intros; by apply entry_step_sized|]. by constructor. Qed.

Definition LIMIT : Z := MAX_CODE_BYTES + 21.
Lemma include_sized f g : sized LIMIT g -> sized LIMIT (_include f g).2.
Proof.
  intros H. unfold _include. destruct (str_in _ _); [done|]. cbv zeta. destruct (content_of f) as [src|]; [|by apply sized_mark].
  set (block := "--- FILE: " +:+ _). assert (10 <= zlen block) as Hb by apply header_long. cbn [total mark]. destruct (Z.ltb_spec MAX_CODE_BYTES (total g + zlen block)) as [Hl|Hl].
  - destruct (Z.ltb_spec 200 (MAX_CODE_BYTES - total g)) as [Hr|Hr]; cbn [snd]; [|by apply sized_mark]. apply sized_push; [by apply sized_mark|..]; cbn [total mark];
      rewrite !zlen_app, zlen_take by lia; change (zlen NL) with 1; change (zlen "... [truncated] ...") with 19; unfold LIMIT; lia.
  - cbn [snd]. apply sized_push; [by apply sized_mark|done|]. cbn [total mark]. unfold LIMIT. lia.
Qed.
Lemma include_all_sized fs g : sized LIMIT g -> sized LIMIT (include_all fs g).
Proof.
  revert g. induction fs as [|f fs IH]; intros g H; cbn [include_all]; [done|]. pose proof (include_sized f g H) as H'.
  destruct (_include f g) as [[] g']; [by apply IH|done].
Qed.

Lemma flagged_block_long findings n f b : flagged_block findings n f = Some b -> 10 <= zlen b.
Proof.
  unfold flagged_block. cbv zeta. destruct (_ && _).
  - intros [= <-]. unfold _binary_stub_block. destruct (tf_size f), (tf_data f); rewrite ?str_app_assoc; apply header_long.
  - intros (text & _ & ->)%fmap_Some. destruct (flagged_lines findings n); [apply header_long|]. unfold regions_block, lines_of, join.
    destruct (fold_left _ _ _).2; cbn [String.concat]; rewrite ?str_app_assoc; apply header_long.
Qed.
Lemma flagged_step_sized findings n g : sized LIMIT g -> sized LIMIT (flagged_step tree findings n g).2.
Proof.
  intros H. unfold flagged_step. destruct (MAX_CODE_BYTES <=? total g); [done|]. destruct (found_file tree n) as [f|]; [|done].
  destruct (str_in _ _); [done|]. cbv zeta. destruct (flagged_block findings n f) as [b|] eqn:Eb; [|by apply sized_mark].
  destruct (Z.ltb_spec MAX_CODE_BYTES (total (mark (real_path f) g) + zlen (capped PER_FILE_CAP "finding-file " b))); cbn [snd]; [by apply sized_mark|].
  apply sized_push; [by apply sized_mark| |unfold LIMIT; lia]. apply capped_long; [unfold PER_FILE_CAP; lia|done|by eapply flagged_block_long].
Qed.
Lemma flagged_pass_sized findings names g : sized LIMIT g -> sized LIMIT (flagged_pass tree findings names g).
Proof.
  revert g. induction names as [|n names IH]; intros g H; cbn [flagged_pass]; [done|]. pose proof (flagged_step_sized findings n g H) as H'.
  destruct (flagged_step tree findings n g) as [[] g']; [by apply IH|done].
Qed.

Lemma lines_of_length l : Forall (fun s => 10 <= zlen s) l -> 10 * zlen (lines_of l) <= 11 * sum_len l.
Proof.
  intros H. enough (10 * (zlen (lines_of l) + match l with [] => 0 | _ => 1 end) <= 11 * sum_len l) by (destruct l; cbn in *; lia).
  induction H as [|s l Hs _ IH]; [done|]. unfold lines_of, join in *. cbn [String.concat sum_len foldr]. fold (sum_len l).
  destruct l as [|s' l]; [cbn in *; lia|]. rewrite !zlen_app. change (zlen NL) with 1. lia.
Qed.

(** The source the model is shown is bounded.  Whatever the package holds and however many
    findings there are, the text that goes into the prompt has at most 54,091 characters, a tenth more than
    the budget of 48 KB; the install entries take at most the 16 KB reserved for them, so at
    least two thirds of the budget are left to the other passes. *)
Theorem source_bounded findings ecosystem source (H : _gather_source root tree host_file host_dir loads set_order findings ecosystem = Some source) :
  zlen source <= 54091 /\ exists es, _entry_files root tree host_file host_dir loads (config_of ecosystem) ecosystem (flagged_files findings) = Some es /\
    total (entry_pass es) <= 16384.
Proof.
  unfold _gather_source in H. apply fmap_Some in H as (l & Hl & ->). unfold gather_snippets in Hl. apply bind_Some in Hl as (es & Hes & (cs & _ & [= <-])%bind_Some).
  pose proof (entry_pass_sized es) as He. split; [|exists es; split; [done|exact (sz_bound _ _ He)]].
  pose proof (sized_weaken _ LIMIT _ He ltac:(done)) as H1. apply (include_all_sized cs) in H1. apply (flagged_pass_sized findings (_ranked set_order findings)) in H1.
  destruct H1 as [Ht Hf Hb]. pose proof (lines_of_length _ Hf) as Hn. rewrite <- Ht in Hn. unfold LIMIT, MAX_CODE_BYTES in Hb.
  destruct (snippets _); [done|]. lia.
Qed.
End Bounds.

(** ** The convicting evidence is shown *)

Lemma entry_seen es : forall x, x ∈ seen (entry_pass es) -> x ∈ es.*1.
Proof.
  unfold entry_pass. assert (forall g, (forall x, x ∈ seen g -> x ∈ es.*1) -> forall es', es' ⊆ es -> forall x, x ∈ seen (fold_left entry_step es' g) -> x ∈ es.*1) as H.
  2: { apply H; [cbn; set_solver|done]. }
  intros g Hg es'. revert g Hg. induction es' as [|e es' IH]; intros g Hg Hsub; [done|]. cbn [fold_left]. apply IH; [|set_solver].
  unfold entry_step. destruct (_ || _); [done|]. destruct (content_of e.2); [|done]. cbv zeta. intros x.
  assert (x ∈ seen g ++ [e.1] -> x ∈ es.*1) as Hx.
  { intros [?| ->%list_elem_of_singleton]%elem_of_app; [auto|]. apply list_elem_of_fmap. exists e. split; [done|]. apply Hsub. by left. }
  by destruct (entry_ceiling <? _).
Qed.

Section Ranked.
Context (set_order : list string -> list string) (findings : list Finding).

(** Some finding in [m] is as severe as every finding in [n]. *)
Definition as_severe (m n : string) : Prop :=
  exists g, g ∈ findings /\ file g = m /\ forall g', g' ∈ findings -> file g' = n -> _SEV_ORDER (f_severity g) <= _SEV_ORDER (f_severity g').
(** At most one other file the findings point at is as severe as [n]. *)
Definition of_two_worst (n : string) : Prop :=
  n ∈ flagged_files findings /\ forall m1 m2, m1 ∈ flagged_files findings -> m2 ∈ flagged_files findings -> as_severe m1 n -> as_severe m2 n ->
    m1 <> n -> m2 <> n -> m1 = m2.

Lemma foldr_min_spec d l : (forall x, x ∈ l -> x <= d) ->
  foldr Z.min d l <= d /\ (forall x, x ∈ l -> foldr Z.min d l <= x) /\ (l <> [] -> foldr Z.min d l ∈ l).
Proof.
  induction l as [|x l IH]; intros H; cbn [foldr]; [split_and!; [lia|by intros ? ?%elem_of_nil|done]|].
  destruct IH as (H1 & H2 & H3); [set_solver|]. split_and!; [lia| |].
  - intros y [->|Hy]%elem_of_cons; [lia|]. specialize (H2 y Hy). lia.
  - intros _. destruct (Z.min_spec x (foldr Z.min d l)) as [[Hlt ->]|[Hle ->]]; [by left|]. destruct l as [|z l]; [|right; by apply H3].
    specialize (H x ltac:(by left)). cbn [foldr] in *. replace d with x by lia. by left.
Qed.

(** Ranked first is as severe. *)
Lemma rank_severe m n : m ∈ flagged_files findings -> rank_of findings m <= rank_of findings n -> as_severe m n.
Proof.
  intros Hm Hle. apply dedup_elem, bfilter_in in Hm as [(g0 & -> & Hg0)%list_elem_of_fmap _].
  assert (forall k, let l := map (fun f => _SEV_ORDER (f_severity f)) (bfilter (fun f => String.eqb (file f) k) findings) in forall x, x ∈ l -> x <= 9) as H9.
  { cbn zeta. intros k x (g & -> & _)%list_elem_of_fmap. destruct (f_severity g); cbn; lia. }
  destruct (foldr_min_spec 9 _ (H9 (file g0))) as (_ & _ & H). destruct (foldr_min_spec 9 _ (H9 n)) as (_ & Hn & _).
  apply list_elem_of_fmap in H as (g & Hg & [Hin Hf%String.eqb_eq]%bfilter_in).
  - exists g. split_and!; [done|done|]. intros g' Hg' Hf'. unfold rank_of in Hle. rewrite Hg in Hle. etransitivity; [exact Hle|]. apply Hn.
    apply list_elem_of_fmap. exists g'. split; [done|]. apply bfilter_in. split; [done|]. by apply String.eqb_eq.
  - intros E. assert (_SEV_ORDER (f_severity g0) ∈ map (fun f => _SEV_ORDER (f_severity f)) (bfilter (fun f => String.eqb (file f) (file g0)) findings)) as Hin.
    { apply list_elem_of_fmap. exists g0. split; [done|]. apply bfilter_in. split; [done|apply String.eqb_refl]. }
    rewrite E in Hin. by apply elem_of_nil in Hin.
Qed.

(** One of the two worst files is ranked among the first two, behind files as severe only. *)
Lemma worst_ranked n : (forall l, set_order l ≡ₚ l) -> of_two_worst n ->
  exists k, (k < 2)%nat /\ _ranked set_order findings !! k = Some n /\ forall m, m ∈ take (S k) (_ranked set_order findings) -> m = n \/ as_severe m n.
Proof.
  intros Hord [Hn Htwo]. set (leb := fun a b => rank_of findings a <=? rank_of findings b).
  assert (forall m, m ∈ _ranked set_order findings <-> m ∈ flagged_files findings) as Hin by (intros m; unfold _ranked; by rewrite ssort_in, Hord).
  assert (NoDup (_ranked set_order findings)) as Hnd by (unfold _ranked; rewrite ssort_perm, Hord; apply dedup_NoDup).
  assert (StronglySorted (fun a b => leb a b = true) (_ranked set_order findings)) as Hs.
  { apply (ssort_sorted leb); unfold leb; [intros a b; destruct (Z.leb_spec (rank_of findings a) (rank_of findings b)); [by left|right; apply Z.leb_le; lia]|].
    intros a b c H1%Z.leb_le H2%Z.leb_le. apply Z.leb_le. lia. }
  apply Hin, list_elem_of_split in Hn as (l1 & l2 & E). rewrite E in *.
  assert (forall m, m ∈ l1 -> m ∈ flagged_files findings /\ as_severe m n /\ m <> n) as Hl1.
  { intros m Hm. assert (m ∈ flagged_files findings) as Hf by (apply Hin; set_solver). split_and!; [done| |].
    - apply rank_severe; [done|]. apply Z.leb_le. change (leb m n = true). eapply (StronglySorted_app_1_elem_of (fun a b => leb a b = true) l1 (n :: l2)); [exact Hs|done|by left].
    - intros ->. apply NoDup_app in Hnd as (_ & Hd & _). apply (Hd n Hm). by left. }
  exists (List.length l1). split_and!; [|by apply list_lookup_middle|].
  - destruct l1 as [|x [|y l1]]; cbn; [lia..|]. exfalso. destruct (Hl1 x) as (X1 & X2 & X3); [by left|]. destruct (Hl1 y) as (Y1 & Y2 & Y3); [by right; left|].
    assert (x = y) as -> by (by apply Htwo). cbn [app] in Hnd. apply NoDup_cons in Hnd as [Hx _]. apply Hx. by left.
  - intros m Hm. replace (take (S (List.length l1)) (l1 ++ n :: l2)) with (l1 ++ [n]) in Hm
      by (rewrite take_app_ge by lia; replace (S (List.length l1) - List.length l1)%nat with 1%nat by lia; done).
    apply elem_of_app in Hm as [Hm|Hm%list_elem_of_singleton]; [right; by apply Hl1|by left].
Qed.

End Ranked.

Section Shown.
Context (root : list string) (tree : list tree_file) (host_file : list string -> option bool) (host_dir : list string -> bool).
Context (loads : string -> option json) (set_order : list string -> list string) (findings : list Finding).

(** Paths are unique in a tree. *)
Hypothesis unique_paths : NoDup (map real_path tree).

Lemma found_file_in n f : found_file tree n = Some f -> f ∈ tree.
Proof. unfold found_file. by intros [[H _]%safe_rglob_in|[H _]%safe_rglob_in]%head_in%elem_of_app. Qed.
Lemma same_path f g : f ∈ tree -> g ∈ tree -> real_path f = real_path g -> f = g.
Proof.
  intros [i Hi]%list_elem_of_lookup_1 [j Hj]%list_elem_of_lookup_1 E. assert (i = j) as ->; [|congruence].
  apply (NoDup_lookup _ _ _ (real_path f) unique_paths); change (map real_path tree) with (real_path <$> tree); rewrite list_lookup_fmap; [by rewrite Hi|by rewrite Hj, E].
Qed.
Lemma readable_block n f data : tf_data f = Some data -> is_Some (flagged_block findings n f).
Proof. intros H. unfold flagged_block, content_of. rewrite H. cbv zeta. destruct (_ && _); by eexists. Qed.

(** What one flagged file takes of the budget at most. *)
Definition SHARE : Z := PER_FILE_CAP + 34.
Definition flagged_text (n : string) (f : tree_file) : option string := capped PER_FILE_CAP "finding-file " <$> flagged_block findings n f.
Definition shown (names : list string) (f : tree_file) (l : list string) : Prop :=
  exists n b, n ∈ names /\ found_file tree n = Some f /\ flagged_text n f = Some b /\ b ∈ l.

Lemma capped_share b : zlen (capped PER_FILE_CAP "finding-file " b) <= SHARE.
Proof. apply capped_length; done. Qed.

Lemma flagged_step_room n g : total g + SHARE <= MAX_CODE_BYTES -> exists g', flagged_step tree findings n g = (true, g') /\ total g' <= total g + SHARE /\
  snippets g `prefix_of` snippets g' /\
  (forall f data, f ∈ tree -> tf_data f = Some data -> real_path f ∉ seen g -> real_path f ∈ seen g' -> shown [n] f (snippets g')) /\
  (forall f, found_file tree n = Some f -> real_path f ∈ seen g').
Proof.
  intros Hr. unfold flagged_step. assert (0 < SHARE) as Hs by done. destruct (Z.leb_spec MAX_CODE_BYTES (total g)) as [?|_]; [lia|].
  destruct (found_file tree n) as [f|] eqn:Ef.
  2: { exists g. split_and!; [done|lia|done|by intros|done]. }
  destruct (str_in (real_path f) (seen g)) eqn:Ei.
  { exists g. split_and!; [done|lia|done|by intros|]. intros ? [= <-]. by apply str_in_true. }
  cbv zeta. assert (forall x, x ∈ seen (mark (real_path f) g) -> x ∉ seen g -> x = real_path f) as Hnew by (cbn [seen mark]; set_solver).
  destruct (flagged_block findings n f) as [b|] eqn:Eb.
  - pose proof (capped_share b) as Hc. cbn [total mark]. destruct (Z.ltb_spec MAX_CODE_BYTES (total g + zlen (capped PER_FILE_CAP "finding-file " b))) as [?|_]; [lia|].
    eexists. split; [reflexivity|]. cbn [total push mark snippets seen]. split_and!; [lia|by eexists| |intros ? [= <-]; set_solver].
    intros f' data Hf' _ H1 H2. apply Hnew in H2; [|done]. apply (same_path f' f) in H2 as ->; [|done|by eapply found_file_in].
    exists n, (capped PER_FILE_CAP "finding-file " b). unfold flagged_text. rewrite Eb. split_and!; [by left|done|done|set_solver].
  - eexists. split; [reflexivity|]. cbn [total mark snippets seen]. split_and!; [lia|done| |intros ? [= <-]; set_solver].
    intros f' data Hf' Hd H1 H2. apply Hnew in H2; [|done]. apply (same_path f' f) in H2 as ->; [|done|by eapply found_file_in].
    destruct (readable_block n f data Hd) as [? ?]. congruence.
Qed.

Lemma flagged_pass_keeps names g : snippets g `prefix_of` snippets (flagged_pass tree findings names g).
Proof.
  revert g. induction names as [|n names IH]; intros g; cbn [flagged_pass]; [done|].
  assert (snippets g `prefix_of` snippets (flagged_step tree findings n g).2) as H.
  { unfold flagged_step. destruct (_ <=? _); [done|]. destruct (found_file tree n); [|done]. destruct (str_in _ _); [done|]. cbv zeta.
    destruct (flagged_block _ _ _); [|done]. destruct (_ <? _); [done|]. by eexists. }
  destruct (flagged_step tree findings n g) as [[] g']; [|done]. etransitivity; [exact H|apply IH].
Qed.

Lemma pass_shows names g k n f data : names !! k = Some n -> total g + (Z.of_nat k + 1) * SHARE <= MAX_CODE_BYTES ->
  found_file tree n = Some f -> tf_data f = Some data -> real_path f ∉ seen g -> shown (take (S k) names) f (snippets (flagged_pass tree findings names g)).
Proof.
  revert g k. induction names as [|n0 names IH]; intros g k Hk Hb Hf Hd Hn; [done|]. cbn [flagged_pass].
  assert (total g + SHARE <= MAX_CODE_BYTES) as Hroom by (assert (0 < SHARE) by done; nia).
  destruct (flagged_step_room n0 g Hroom) as (g' & -> & Ht & Hp & Hs & Hm). pose proof (flagged_pass_keeps names g') as [l Hl].
  assert (forall m, shown m f (snippets g') -> m = [n0] -> shown (n0 :: take k names) f (snippets (flagged_pass tree findings names g'))) as Hkeep.
  { intros m (n1 & b & Hn1 & H1 & H2 & H3) ->. exists n1, b. rewrite Hl. set_solver. }
  cbn [take].
  destruct (decide (real_path f ∈ seen g')) as [Hin|Hout].
  - eapply Hkeep; [|done]. eapply Hs; try done. by eapply found_file_in.
  - destruct k as [|k]; [injection Hk as ->; by apply Hm in Hf|]. destruct (IH g' k Hk ltac:(lia) Hf Hd Hout) as (n1 & b & Hn1 & H1 & H2 & H3).
    exists n1, b. set_solver.
Qed.

End Shown.

(** C24. The worst evidence reaches the model.  For the ecosystems without [.pth] files, whatever
    else is flagged and however large the package is: if at most one other file the findings point at has a
    finding as severe as the worst of this one, and the file can be found and read, then it is in the prompt, with the
    windows around its findings or whole, up to 12 KB, under its own name or another as severe that leads to it; unless it
    stands among the install entries, which have their own pass.  If collecting the install entries raises, the
    triage ends there and nothing is shown. *)
Theorem evidence_shown root tree host_file host_dir loads set_order findings ecosystem n f data
  (Hu : NoDup (map real_path tree)) (He : ecosystem <> "pypi") (Hord : forall l, set_order l ≡ₚ l)
  (Hn : of_two_worst findings n) (Hf : found_file tree n = Some f) (Hd : tf_data f = Some data) :
  let shown_list := gather_snippets root tree host_file host_dir loads set_order findings ecosystem in
  match _entry_files root tree host_file host_dir loads (config_of ecosystem) ecosystem (flagged_files findings) with
  | None => shown_list = None
  | Some es => real_path f ∉ es.*1 -> exists l m b, shown_list = Some l /\ (m = n \/ as_severe findings m n) /\
      found_file tree m = Some f /\ flagged_text findings m f = Some b /\ b ∈ l
  end.
Proof.
  cbn zeta. unfold gather_snippets. destruct (_entry_files _ _ _ _ _ _ _ _) as [es|]; [|done]. intros Hne.
  apply String.eqb_neq in He. rewrite He. cbn [mbind option_bind include_all].
  destruct (worst_ranked set_order findings n Hord Hn) as (k & H2 & Hk & Hbefore).
  destruct (pass_shows root tree host_file host_dir loads set_order findings Hu (_ranked set_order findings) (entry_pass es) k n f data Hk) as (m & b & Hm & H3 & H4 & H5); [|done|done| |].
  - pose proof (sz_bound _ _ (entry_pass_sized es)) as Hb. unfold entry_ceiling, RESERVED_ENTRY_BYTES, MAX_CODE_BYTES, SHARE, PER_FILE_CAP in *. lia.
  - intros H. by apply entry_seen in H.
  - eexists _, m, b. split_and!; [reflexivity|by apply Hbefore|done..].
Qed.

(** ** Concrete packages *)

Definition ex_root : list string := ["tmp"; "x"].
Definition ex_file (path : string) (data : string) : tree_file := mkTreeFile (split "/" path) (Some (zlen data)) (Some data).
Definition ex_flag (path : string) (sev : severity) (ln : option Z) : Finding := mkFinding "yara.rule" "yara" sev CHigh path ln "evidence".
(** Every [package.json] names [p.js] as its hook and [main] as its entry. *)
Definition ex_loads (main : string) (_ : string) : option json := Some (JObj [("scripts", JObj [("postinstall", JStr "node ./p.js")]); ("main", JStr main)]).
Definition ex_gather (main : string) (findings : list Finding) (ecosystem : string) (tree : list tree_file) : option (list string) :=
  gather_snippets ex_root tree (fun _ => Some false) (fun _ => true) (ex_loads main) (fun l => l) findings ecosystem.

Definition ex_findings : list Finding := [ex_flag "lib/x.js" SLow (Some 2); ex_flag "lib/evil.js" SCritical None].
Definition ex_tree : list tree_file := [ex_file "package.json" "{}"; ex_file "lib/x.js" ("a" +:+ NL +:+ "b"); ex_file "lib/evil.js" "eval(x)"; ex_file "p.js" "run()"].

Example gather_ex : ex_gather "lib" ex_findings "npm" ex_tree = Some
  ["--- FILE: package.json (install entry) ---" +:+ NL +:+ "{}" +:+ NL; "--- FILE: p.js (install entry) ---" +:+ NL +:+ "run()" +:+ NL;
   "--- FILE: lib/evil.js (flagged — whole file; findings: yara.rule) ---" +:+ NL +:+ "eval(x)" +:+ NL;
   "--- FILE: lib/x.js (regions around findings: yara.rule@L2) ---" +:+ NL +:+ "    1: a" +:+ NL +:+ "    2: b" +:+ NL].
Proof. by vm_compute. Qed.

Lemma source_bounded_witness : exists source, _gather_source ex_root ex_tree (fun _ => Some false) (fun _ => true) (ex_loads "lib") (fun l => l) ex_findings "npm" = Some source /\
  zlen source <= 54091 /\ exists es, _entry_files ex_root ex_tree (fun _ => Some false) (fun _ => true) (ex_loads "lib") (config_of "npm") "npm" (flagged_files ex_findings) = Some es /\
    total (entry_pass es) <= 16384.
Proof.
  destruct (_gather_source ex_root ex_tree (fun _ => Some false) (fun _ => true) (ex_loads "lib") (fun l => l) ex_findings "npm") as [source|] eqn:E; [|exfalso; revert E; by vm_compute].
  exists source. split; [done|]. exact (source_bounded _ _ _ _ _ _ _ _ _ E).
Defined.

Definition ex_es : list entry := [entry_of (ex_file "package.json" "{}"); entry_of (ex_file "p.js" "run()")].
Lemma evidence_shown_witness : exists l m b, ex_gather "lib" ex_findings "npm" ex_tree = Some l /\ (m = "lib/evil.js" \/ as_severe ex_findings m "lib/evil.js") /\
  found_file ex_tree m = Some (ex_file "lib/evil.js" "eval(x)") /\ flagged_text ex_findings m (ex_file "lib/evil.js" "eval(x)") = Some b /\ b ∈ l.
Proof.
  pose proof (evidence_shown ex_root ex_tree (fun _ => Some false) (fun _ => true) (ex_loads "lib") (fun l => l) ex_findings "npm" "lib/evil.js" (ex_file "lib/evil.js" "eval(x)") "eval(x)") as H.
  cbn zeta in H. replace (_entry_files _ _ _ _ _ _ _ _) with (Some ex_es) in H by by vm_compute. apply H; [|done|done| |by vm_compute|done|]; try (apply (bool_decide_unpack _); by vm_compute).
  split; [apply (bool_decide_unpack _); by vm_compute|]. intros m1 m2 H1 H2 _ _ N1 N2. change (flagged_files ex_findings) with ["lib/x.js"; "lib/evil.js"] in *. set_solver.
Defined.

Definition mentions (path : string) (l : option (list string)) : option bool := existsb (contains path) <$> l.
Definition filler (n : Z) : string := rep (Z.to_nat n) "x".

(** A hook script that does not fit beside a large manifest is skipped as an entry, and as evidence too, because it counts as seen. *)
Example entry_too_big_hides :
  let tree := [ex_file "package.json" (filler 8300); ex_file "p.js" (filler 8300)] in
  mentions "p.js" (ex_gather "" [ex_flag "p.js" SCritical None] "npm" tree) = Some false /\
  mentions "p.js" (ex_gather "" [ex_flag "p.js" SCritical None] "npm" [ex_file "package.json" "{}"; ex_file "p.js" (filler 8300)]) = Some true.
Proof. by vm_compute. Qed.

(** A reported path is searched for as a pattern, so a name with brackets does not find its own file. *)
Example bracket_name_unseen : ex_gather "" [ex_flag "pages/[id].js" SCritical None] "crates" [ex_file "pages/[id].js" "evil()"] = Some [] /\
  mentions "i.js" (ex_gather "" [ex_flag "pages/[id].js" SCritical None] "crates" [ex_file "pages/[id].js" "evil()"; ex_file "pages/i.js" "fine()"]) = Some true.
Proof. by vm_compute. Qed.

(** A large [.pth] file uses up the whole budget before the flagged file has its turn, and more than the budget. *)
Example companions_starve :
  let r := ex_gather "" [ex_flag "p/evil.py" SCritical None] "pypi" [ex_file "a.pth" (filler 60000); ex_file "p/evil.py" "evil()"] in
  mentions "evil.py" r = Some false /\ (zlen <$> (lines_of <$> r)) = Some (MAX_CODE_BYTES + 21).
Proof. by vm_compute. Qed.

(** The windows of neighbouring findings overlap, and the lines in both are repeated. *)
Example overlap_repeats : regions_block "f" "n" ("a" +:+ NL +:+ "b") [1; 22] =
  "--- FILE: f (regions around findings: n) ---" +:+ NL +:+ "    1: a" +:+ NL +:+ "    2: b" +:+ NL +:+ "    2: b" +:+ NL.
Proof. by vm_compute. Qed.

(** A [main] of a slash, or a long name in a [.pth] file, raises and ends the triage. *)
Example main_slash_aborts : ex_gather "/" [] "npm" [ex_file "package.json" "{}"] = None.
Proof. by vm_compute. Qed.
Example long_import_aborts : ex_gather "" [] "pypi" [ex_file "a.pth" ("import " +:+ filler 300)] = None.
Proof. by vm_compute. Qed.

Example format_ex : format [("a", "1"); ("b", "{c}")] "x{a}{{y}}{b}" = Some "x1{y}{c}" /\ format [("a", "1")] "{b}" = None.
Proof. by vm_compute. Qed.
Example truncation_ex : map (fun n => truncation_pct n 1000) [0; 290; 500; 2000] = [100; 72; 50; 0].
Proof. by vm_compute. Qed.
