(* ===== verification/Packs.v ===== *)
(** * Intel packs on disk ([intel/pack.py], [store/seed_intel.py])

    Reading a pack directory into the [IntelPack] of Intel.v, and seeding its
    fingerprints into the table the file matcher of ThreatIntel.v reads.  The
    TOML and JSON parsers are arguments; a line of the fingerprint file is an
    object of strings, or malformed. *)
From S2P Require Import Prelude PyStr Text Sql Findings Tree Json Intel ThreatIntel.

Open Scope string_scope.
Open Scope list_scope.
Open Scope Z_scope.

(** ** Decoded TOML *)

Inductive toml_value :=
  | VStr (s : string) | VInt (n : Z) | VFloat (f : double) | VBool (b : bool)
  | VArr (l : list toml_value) | VTable (l : list (string * toml_value)) | VDate (s : string).
Abbreviation toml_table := (list (string * toml_value)).

Definition toml_truthy (v : toml_value) : bool :=
  match v with
  | VStr s => truthy s
  | VInt n => negb (n =? 0)
  | VFloat f => float_truthy f
  | VBool b => b
  | VArr l => match l with [] => false | _ => true end
  | VTable l => match l with [] => false | _ => true end
  | VDate _ => true
  end.

(** [int(x)] of a double: [OverflowError] and [ValueError] are [None]. *)
Definition int_of_float (f : double) : option Z :=
  match f with
  | S754_zero _ => Some 0
  | S754_infinity _ | S754_nan => None
  | S754_finite s m e =>
      let n := if 0 <=? e then Z.shiftl (Z.pos m) e else Z.shiftr (Z.pos m) (- e) in Some (if s then - n else n)
  end.

Definition numeric_of (v : toml_value) : option toml :=
  match v with
  | VBool b => Some (TBool b)
  | VInt n => Some (TInt n)
  | VFloat f => TFloat <$> int_of_float f
  | _ => Some TOther
  end.
Definition _numeric_map (raw : toml_table) : option (list (string * Z)) :=
  numeric_map <$> mapM (fun kv => pair kv.1 <$> numeric_of kv.2) raw.

(** Iteration over [v or []]; [None] is [TypeError]. *)
Definition chars (s : string) : list toml_value := map (fun c => VStr (String c EmptyString)) (String.list_ascii_of_string s).
Definition iterate (v : toml_value) : option (list toml_value) :=
  if negb (toml_truthy v) then Some []
  else match v with
  | VArr l => Some l
  | VStr s => Some (chars s)
  | VTable kvs => Some (map (fun kv => VStr kv.1) kvs)
  | _ => None
  end.
(** [(v or {}).items()]; [None] is [AttributeError]. *)
Definition items (v : toml_value) : option toml_table :=
  if negb (toml_truthy v) then Some [] else match v with VTable kvs => Some kvs | _ => None end.
Definition get_or (k : string) (raw : toml_table) : toml_value := dget_or k (VBool false) raw.

(** The members of [set(...)]: arrays and tables are not hashable, and what is
    no string equals no rule id. *)
Definition hashable (v : toml_value) : bool := match v with VArr _ | VTable _ => false | _ => true end.
Definition set_of (l : list toml_value) : option (gset string) :=
  if forallb hashable l then Some (list_to_set (omap (fun v => match v with VStr s => Some s | _ => None end) l)) else None.

(** ** The directory *)

Record pack_dir := mkPackDir {
  pd_path : string;
  pd_name : string;
  pd_dirs : list string;              (* the directories below it, by relative path *)
  pd_files : list (string * string);  (* the files below it, with their text *)
  pd_prompts : list string;           (* what [prompts/*.txt] matches, in the order of the listing *)
}.

Section Load.
Variable toml_loads : string -> option toml_table.
Variable seed_loads : string -> option seed.
(** [str] of a value that is no string, integer or boolean. *)
Variable py_str : toml_value -> string.

Definition str_of (v : toml_value) : string :=
  match v with
  | VStr s => s
  | VInt n => show n
  | VBool b => if b then "True" else "False"
  | _ => py_str v
  end.

Definition _load_toml (d : pack_dir) (rel : string) : option toml_table :=
  match dget rel (pd_files d) with Some text => toml_loads text | None => Some [] end.
Definition _load_text (d : pack_dir) (rel : string) : string := dget_or rel "" (pd_files d).

(** Blank lines and comments apart, the lines that parse; the rest is counted and reported. *)
Definition seed_line (line : string) : option seed :=
  let line := strip line in
  if negb (truthy line) || startswith line "#" then None else seed_loads line.
Definition _load_jsonl (d : pack_dir) (rel : string) : list seed :=
  match dget rel (pd_files d) with Some text => omap seed_line (splitlines text) | None => [] end.

(** [{k: [str(x) for x in v] for k, v in ... if isinstance(v, list)}]. *)
Definition string_lists (kvs : toml_table) : strmap :=
  fold_left (fun acc kv => match kv.2 with VArr l => dset kv.1 (map str_of l) acc | _ => acc end) kvs [].
Definition tools_of (raw : toml_table) : option (list string) := map str_of <$> iterate (get_or "tools" raw).
Definition sub_dir (d : pack_dir) (nm : string) : list string :=
  if str_in nm (pd_dirs d) then [pd_path d +:+ "/" +:+ nm] else [].
Definition prompts_of (d : pack_dir) : list (string * string) :=
  if str_in "prompts" (pd_dirs d)
  then fold_left (fun acc p => dset (name_stem p) (_load_text d ("prompts/" +:+ p)) acc) (pd_prompts d) [] else [].
Definition domains_of (raw : toml_table) : option (gset string) :=
  (fun l => list_to_set (map str_of (bfilter toml_truthy l))) <$> iterate (get_or "benign_domains" raw).

Definition load_pack (d : pack_dir) (source_label : option string) : option IntelPack :=
  thresholds ← _load_toml d "thresholds.toml" ≫= _numeric_map;
  weights ← _load_toml d "scoring_weights.toml" ≫= _numeric_map;
  chains_raw ← _load_toml d "behavioral_chains.toml";
  chain_ids ← iterate (get_or "chain_ids" chains_raw) ≫= set_of;
  lure_raw ← _load_toml d "lure_keywords.toml";
  lure ← items (get_or "categories" lure_raw);
  ioc_raw ← _load_toml d "ioc_whitelist.toml";
  whitelist ← domains_of ioc_raw;
  malware_raw ← _load_toml d "malware_patterns.toml";
  malware ← items (get_or "patterns" malware_raw);
  gomod_tools ← _load_toml d "gomod_benign_tools.toml" ≫= tools_of;
  npm_tools ← _load_toml d "npm_benign_tools.toml" ≫= tools_of;
  det_rules ← _load_toml d "detonation/rules_data.toml";
  det_noise ← _load_toml d "detonation/noise_baseline.toml";
  Some (mkPack (str_or (ostr source_label) (pd_name d)) (sub_dir d "yara") (sub_dir d "opengrep")
    (_load_jsonl d "hashes/known_malicious.jsonl") (prompts_of d) thresholds weights chain_ids (string_lists lure) whitelist
    (string_lists malware) gomod_tools npm_tools (string_lists det_rules) (string_lists det_noise)).

(** [intel.load] over directories: an exception in either pack leaves. *)
Definition load_packs (baseline : pack_dir) (dirs : string -> option pack_dir) (overlay_path : option string)
    (use_env : bool) (env_path : string) : option IntelPack :=
  let overlay_path := match overlay_path with
    | Some p => Some p
    | None => if use_env then nonempty (strip env_path) else None
    end in
  base ← load_pack baseline (Some "baseline");
  match overlay_path ≫= (fun p => pair p <$> dirs p) with
  | Some (p, d) => merge base <$> load_pack d (Some p)
  | None => Some base
  end.

End Load.

(** ** Seeding ([seed_intel.seed]) *)

(** [entry.get(field)]: absent is [None]. *)
Definition field (k : string) (h : seed) : option string := dget k h.
(** [if val and not getattr(existing, field): setattr(...)]. *)
Definition fill (val old : option string) : option string := if otruthy val && negb (otruthy old) then val else old.
Definition fills (val old : option string) : bool := otruthy val && negb (otruthy old).

Definition backfill_row (h : seed) (e : ThreatIntelHash) : ThreatIntelHash :=
  mkIntelHash (ti_id e) (ti_sha256 e) (fill (field "ssdeep" h) (ti_ssdeep e)) (fill (field "tlsh" h) (ti_tlsh e))
    (ostr (fill (field "campaign" h) (Some (ti_campaign e)))) (ostr (fill (field "label" h) (Some (ti_label e))))
    (fill (field "file_pattern" h) (ti_file_pattern e)) (fill (field "description" h) (ti_description e))
    (fill (field "source" h) (ti_source e)) (ti_added_at e).
Definition changed (h : seed) (e : ThreatIntelHash) : bool :=
  fills (field "ssdeep" h) (ti_ssdeep e) || fills (field "tlsh" h) (ti_tlsh e) ||
  fills (field "campaign" h) (Some (ti_campaign e)) || fills (field "label" h) (Some (ti_label e)) ||
  fills (field "file_pattern" h) (ti_file_pattern e) || fills (field "description" h) (ti_description e) ||
  fills (field "source" h) (ti_source e).

Definition new_seed (now : timestamp) (h : seed) (campaign : string) (i : Z) : ThreatIntelHash :=
  mkIntelHash i (seed_sha h) (field "ssdeep" h) (field "tlsh" h) campaign (default "malicious" (field "label" h))
    (field "file_pattern" h) (field "description" h) (field "source" h) now.

Definition has_sha (sha : string) (e : ThreatIntelHash) : bool := String.eqb (ti_sha256 e) sha.

(** One entry; [None] is the [IntegrityError] of a campaign that is [NULL]. *)
Definition seed_one (now : timestamp) (st : Z * Z * itable) (h : seed) : option (Z * Z * itable) :=
  let '(added, updated, t) := st in
  let sha := seed_sha h in
  if negb (truthy sha) then Some st
  else match first (has_sha sha) t with
  | Some e => if changed h e then Some (added, updated + 1, put (backfill_row h e) t) else Some st
  | None =>
      match field "campaign" h with
      | Some campaign => Some (added + 1, updated, (insert (new_seed now h campaign) t).1)
      | None => None
      end
  end.
Fixpoint seed_all (now : timestamp) (entries : list seed) (st : Z * Z * itable) : option (Z * Z * itable) :=
  match entries with
  | [] => Some st
  | h :: entries' => st' ← seed_one now st h; seed_all now entries' st'
  end.
(** The transaction: nothing is committed where it raises. *)
Definition seed_pack (now : timestamp) (entries : list seed) (t : itable) : option (Z * Z * itable) :=
  seed_all now entries (0, 0, t).

(** ** Lemmas *)

Lemma fills_false val old : fills val old = false <-> (otruthy val = true -> otruthy old = true).
Proof. unfold fills. destruct (otruthy val), (otruthy old); naive_solver. Qed.

(** A filled field stays filled, and one that had a value keeps it. *)
Lemma fill_kept val old : otruthy old = true -> fill val old = old.
Proof. unfold fill. intros ->. by rewrite andb_false_r. Qed.

Lemma fill_done val old : fills val (fill val old) = false.
Proof. unfold fill, fills. destruct (otruthy val) eqn:Ev, (otruthy old) eqn:Eo; simpl; rewrite ?Ev, ?Eo; done. Qed.

Lemma fill_more val val' old : fills val old = false -> fills val (fill val' old) = false.
Proof. rewrite !fills_false. intros H Hv. rewrite fill_kept; auto. Qed.

Lemma fills_same val : fills val val = false.
Proof. unfold fills. by destruct (otruthy val). Qed.

Lemma fills_some val old : fills val (Some (ostr old)) = fills val old.
Proof. by destruct old. Qed.

Lemma changed_false h e : changed h e = false <->
  fills (field "ssdeep" h) (ti_ssdeep e) = false /\ fills (field "tlsh" h) (ti_tlsh e) = false /\
  fills (field "campaign" h) (Some (ti_campaign e)) = false /\ fills (field "label" h) (Some (ti_label e)) = false /\
  fills (field "file_pattern" h) (ti_file_pattern e) = false /\ fills (field "description" h) (ti_description e) = false /\
  fills (field "source" h) (ti_source e) = false.
Proof. unfold changed. rewrite !orb_false_iff. tauto. Qed.

Lemma backfill_unchanged h e : changed h (backfill_row h e) = false.
Proof. apply changed_false. cbn. rewrite !fills_some, !fill_done. done. Qed.

Lemma backfill_stays h h' e : changed h e = false -> changed h (backfill_row h' e) = false.
Proof.
  intros (?&?&?&?&?&?&?)%changed_false. apply changed_false. cbn. rewrite !fills_some.
  split_and!; by apply fill_more.
Qed.

Lemma new_seed_unchanged now h campaign i : field "campaign" h = Some campaign -> changed h (new_seed now h campaign i) = false.
Proof.
  intros Hc. apply changed_false. cbn. rewrite Hc, !fills_same. split_and!; try done.
  destruct (field "label" h); [apply fills_same|done].
Qed.

(** What seeding does to a row that was there: ids, hashes and every field with a value are kept. *)
Definition keeps (old new : option string) : Prop := otruthy old = true -> new = old.
Record kept (e e' : ThreatIntelHash) : Prop := {
  kept_id : ti_id e' = ti_id e;
  kept_sha : ti_sha256 e' = ti_sha256 e;
  kept_ssdeep : keeps (ti_ssdeep e) (ti_ssdeep e');
  kept_tlsh : keeps (ti_tlsh e) (ti_tlsh e');
  kept_campaign : keeps (Some (ti_campaign e)) (Some (ti_campaign e'));
  kept_label : keeps (Some (ti_label e)) (Some (ti_label e'));
  kept_pattern : keeps (ti_file_pattern e) (ti_file_pattern e');
  kept_description : keeps (ti_description e) (ti_description e');
  kept_source : keeps (ti_source e) (ti_source e');
  kept_added : ti_added_at e' = ti_added_at e
}.

Lemma keeps_field_trans x y z : keeps x y -> keeps y z -> keeps x z.
Proof. unfold keeps. intros H1 H2 Hx. specialize (H1 Hx). subst. auto. Qed.

#[export] Instance kept_preorder : PreOrder kept.
Proof. split; [intros e; constructor; done|]. intros a b c [] []. constructor; try congruence; by eapply keeps_field_trans. Qed.

Lemma backfill_kept h e : kept e (backfill_row h e).
Proof.
  constructor; try done; unfold keeps; cbn; try (by apply fill_kept).
  all: intros Ht; by rewrite fill_kept.
Qed.

Lemma has_sha_true sha e : has_sha sha e = true <-> ti_sha256 e = sha.
Proof. apply String.eqb_eq. Qed.

Section First.
Implicit Types (t : itable) (e : ThreatIntelHash).

(** The first row of a hash, after a row was replaced by one with its id and hash. *)
Lemma first_put sha e e' t : table_wf t -> e ∈ rows t -> ti_id e' = ti_id e -> ti_sha256 e' = ti_sha256 e ->
  first (has_sha sha) (put e' t) = (fun r => if ti_id r =? ti_id e then e' else r) <$> first (has_sha sha) t.
Proof.
  intros Hwf He Hid Hsha. unfold first, select, put, update_where. cbn [rows].
  assert (forall r, r ∈ rows t -> ti_id r = ti_id e -> r = e) as Hinj by (intros r Hr Ei; by apply (row_id_inj t r e Hwf Hr He Ei)).
  clear He. induction (rows t) as [|r l IH]; [done|]. rewrite fmap_cons. cbn [List.filter].
  specialize (IH ltac:(set_solver)). change (row_id r =? row_id e') with (ti_id r =? ti_id e'). rewrite Hid.
  destruct (Z.eqb_spec (ti_id r) (ti_id e)) as [E|E].
  - rewrite (Hinj r) by (done || set_solver). assert (has_sha sha e' = has_sha sha e) as -> by (unfold has_sha; by rewrite Hsha).
    destruct (has_sha sha e); [cbn; by rewrite Z.eqb_refl|done].
  - destruct (has_sha sha r); [cbn; by apply Z.eqb_neq in E as ->|done].
Qed.

Lemma first_snoc sha t x q : first (has_sha sha) (Table (rows t ++ [x]) q) =
  match first (has_sha sha) t with Some e => Some e | None => if has_sha sha x then Some x else None end.
Proof.
  unfold first, select. cbn [rows]. rewrite List.filter_app. destruct (bfilter _ (rows t)); [cbn; by destruct (has_sha _ _)|done].
Qed.

(** An entry that has nothing left to give to the table. *)
Definition covered h t : Prop := truthy (seed_sha h) = true -> exists e, first (has_sha (seed_sha h)) t = Some e /\ changed h e = false.

Definition rows_kept t t' : Prop := forall e, e ∈ rows t -> exists e', e' ∈ rows t' /\ kept e e'.

#[export] Instance rows_kept_preorder : PreOrder rows_kept.
Proof.
  split; [intros t e He; by exists e|]. intros t1 t2 t3 H1 H2 e He.
  destruct (H1 e He) as (e' & He' & K1), (H2 e' He') as (e'' & ? & K2). exists e''. split; [done|]. by transitivity e'.
Qed.

Lemma seed_entry_spec now a u t h a' u' t' : table_wf t -> seed_one now (a, u, t) h = Some (a', u', t') ->
  table_wf t' /\ rows_kept t t' /\ covered h t' /\ (forall h', covered h' t -> covered h' t').
Proof.
  intros Hwf. unfold seed_one, covered at 1. destruct (truthy (seed_sha h)) eqn:Et; cbn [negb].
  2: { intros [= <- <- <-]. split_and!; try done. }
  destruct (first _ t) as [e|] eqn:Ef.
  - pose proof Ef as [He Hs%has_sha_true]%head_in%select_in. destruct (changed h e) eqn:Ec; intros [= <- <- <-].
    2: { split_and!; try done. intros _. by exists e. }
    set (e' := backfill_row h e). assert (ti_id e' = ti_id e /\ ti_sha256 e' = ti_sha256 e) as [Hi Hsh] by done.
    split_and!.
    + by apply table_wf_put.
    + intros r Hr. destruct (Z.eqb_spec (ti_id r) (ti_id e)) as [E|E].
      * exists e'. rewrite (row_id_inj t r e Hwf Hr He E). split; [by eapply put_self|apply backfill_kept].
      * exists r. split; [by apply put_other|done].
    + intros _. exists e'. rewrite (first_put _ e) by done. rewrite Ef. cbn. rewrite Z.eqb_refl. split; [done|apply backfill_unchanged].
    + intros h' Hc Ht. destruct (Hc Ht) as (r & Hr & Hch). rewrite (first_put _ e) by done. rewrite Hr. cbn. eexists. split; [done|].
      apply head_in, select_in in Hr as [Hr _]. destruct (Z.eqb_spec (ti_id r) (ti_id e)) as [E|]; [|done].
      rewrite (row_id_inj t r e Hwf Hr He E) in Hch. by apply backfill_stays.
  - destruct (field "campaign" h) as [campaign|] eqn:Ec; [|done]. intros [= <- <- <-]. split_and!.
    + by apply table_wf_insert.
    + intros r Hr. exists r. split; [|done]. apply insert_in. by left.
    + intros _. rewrite first_snoc, Ef. unfold has_sha. cbn. rewrite String.eqb_refl. eexists. split; [done|].
      by apply new_seed_unchanged.
    + intros h' Hc Ht. destruct (Hc Ht) as (r & Hr & Hch). rewrite first_snoc, Hr. by exists r.
Qed.

Lemma seed_all_spec now es a u t a' u' t' : table_wf t -> seed_all now es (a, u, t) = Some (a', u', t') ->
  table_wf t' /\ rows_kept t t' /\ (forall h, h ∈ es -> covered h t') /\ (forall h, covered h t -> covered h t').
Proof.
  revert a u t. induction es as [|h es IH]; intros a u t Hwf; cbn [seed_all].
  - intros [= <- <- <-]. split_and!; try done. set_solver.
  - destruct (seed_one now (a, u, t) h) as [[[a1 u1] t1]|] eqn:E1; [|done]. cbn [mbind option_bind]. intros E.
    destruct (seed_entry_spec _ _ _ _ _ _ _ _ Hwf E1) as (Hwf1 & K1 & C1 & P1).
    destruct (IH _ _ _ Hwf1 E) as (Hwf' & K & C & P). split_and!; [done|by transitivity t1| |auto].
    intros h' [->|Hh]%elem_of_cons; auto.
Qed.

Lemma seed_covered now es st : (forall h, h ∈ es -> covered h st.2) -> seed_all now es st = Some st.
Proof.
  destruct st as [[a u] t]. cbn [snd]. induction es as [|h es IH]; intros Hc; [done|]. cbn [seed_all].
  assert (seed_one now (a, u, t) h = Some (a, u, t)) as ->; [|cbn; apply IH; set_solver].
  unfold seed_one. destruct (truthy (seed_sha h)) eqn:Et; [|done]. cbn [negb].
  destruct (Hc h ltac:(set_solver) Et) as (e & -> & ->). done.
Qed.

Lemma check_file_sha caps t sha ss tl nm e : first (has_sha sha) t = Some e ->
  check_file caps (rows t) sha ss tl nm = Some (match_of TSha256 100 e).
Proof. intros Hf. unfold check_file, sha_tier. unfold first, select in Hf. change (fun e => String.eqb (ti_sha256 e) sha) with (has_sha sha). by rewrite Hf. Qed.

End First.

(** Where both packs load, the result is the merge that Intel.v describes. *)
Lemma load_packs_spec toml_loads seed_loads py_str baseline dirs overlay use_env env_path base :
  load_pack toml_loads seed_loads py_str baseline (Some "baseline") = Some base ->
  (forall p d, dirs p = Some d -> is_Some (load_pack toml_loads seed_loads py_str d (Some p))) ->
  load_packs toml_loads seed_loads py_str baseline dirs overlay use_env env_path =
  Some (Intel.load base (fun p => dirs p ≫= (fun d => load_pack toml_loads seed_loads py_str d (Some p))) overlay use_env env_path).
Proof.
  intros Hb Hd. unfold load_packs, Intel.load. rewrite Hb. cbn [mbind option_bind].
  destruct (match overlay with Some p => _ | None => _ end) as [p|]; [|done]. cbn.
  destruct (dirs p) as [d|] eqn:E; [|done]. cbn. by destruct (Hd p d E) as [ov ->].
Qed.

(** A file of numbers that has neither infinity nor NaN loads. *)
Lemma numeric_map_finite raw : (forall k f, (k, VFloat f) ∈ raw -> is_Some (int_of_float f)) -> is_Some (_numeric_map raw).
Proof.
  intros H. unfold _numeric_map. rewrite fmap_is_Some. apply mapM_is_Some_2, Forall_forall. intros [k v] Hkv.
  destruct v; cbn; try by eexists. rewrite !fmap_is_Some. by eapply H.
Qed.

(** C28. The fingerprints of the pack reach the matcher.  Once seeding has committed, a file with the
    exact hash of any entry is matched in the first tier, whatever its other fingerprints and name;
    no row that was there lost its id, its hash or a field that had a value; and seeding the same
    pack again, as every start does, adds and changes nothing. *)
Theorem pack_fingerprints_convict now entries t added updated t' : table_wf t ->
  seed_pack now entries t = Some (added, updated, t') ->
  (forall h, h ∈ entries -> truthy (seed_sha h) = true -> forall caps ss tl nm,
     exists m, check_file caps (rows t') (seed_sha h) ss tl nm = Some m /\ m_tier m = TSha256) /\
  (forall e, e ∈ rows t -> exists e', e' ∈ rows t' /\ kept e e') /\
  (forall now', seed_pack now' entries t' = Some (0, 0, t')).
Proof.
  intros Hwf H. destruct (seed_all_spec _ _ _ _ _ _ _ _ Hwf H) as (_ & K & C & _). split_and!; [|done|].
  - intros h Hh Ht caps ss tl nm. destruct (C h Hh Ht) as (e & He & _). rewrite (check_file_sha _ _ _ _ _ _ _ He). by eexists.
  - intros now'. by apply seed_covered.
Qed.

(** ** Concrete packs *)

Definition ex_entry (sha : string) (campaign : option string) (tlsh : string) : seed :=
  ("sha256", sha) :: match campaign with Some c => [("campaign", c)] | None => [] end ++ [("tlsh", tlsh)].
Definition ex_old : ThreatIntelHash := mkIntelHash 1 "aa" None None "auto:npm:x" "malicious" None None (Some "auto") 3.
Definition ex_intel : itable := Table [ex_old] 2.
Definition ex_entries : list seed := [ex_entry "aa" (Some "worm") "T1"; ex_entry "bb" (Some "worm") "T2"].
Definition ex_seeded : itable :=
  Table [mkIntelHash 1 "aa" None (Some "T1") "auto:npm:x" "malicious" None None (Some "auto") 3;
         mkIntelHash 2 "bb" None (Some "T2") "worm" "malicious" None None None 9] 3.

Example seed_pack_ex : seed_pack 9 ex_entries ex_intel = Some (1, 1, ex_seeded).
Proof. by vm_compute. Qed.

Lemma pack_fingerprints_convict_witness :
  (forall h, h ∈ ex_entries -> truthy (seed_sha h) = true -> forall caps ss tl nm,
     exists m, check_file caps (rows ex_seeded) (seed_sha h) ss tl nm = Some m /\ m_tier m = TSha256) /\
  (forall e, e ∈ rows ex_intel -> exists e', e' ∈ rows ex_seeded /\ kept e e') /\
  (forall now', seed_pack now' ex_entries ex_seeded = Some (0, 0, ex_seeded)).
Proof.
  refine (pack_fingerprints_convict 9 ex_entries ex_intel 1 1 ex_seeded _ _); [|by vm_compute].
  split; [apply NoDup_singleton|by repeat constructor].
Defined.

(** The campaign is optional in the file and mandatory in the table: one entry without it, and no entry is seeded. *)
Example campaign_missing_blocks : seed_pack 9 [ex_entry "bb" (Some "worm") "T2"; ex_entry "cc" None "T3"] ex_intel = None.
Proof. by vm_compute. Qed.

(** Hashes are compared as they are written, so an entry in capitals is seeded and never matches. *)
Example capitals_never_match :
  (fun r => check_file (mkCaps None None) (rows r.2) "bb" "" "" "x.js") <$> seed_pack 9 [ex_entry "BB" (Some "worm") ""] empty_table = Some None.
Proof. by vm_compute. Qed.

(** Of a number that is no integer, truncation remains; infinity raises and the pack does not load. *)
Example numeric_map_ex : _numeric_map [("a", VInt 3); ("b", VStr "4"); ("c", VFloat f_0_80); ("d", VBool true)] = Some [("a", 3); ("c", 0)] /\
  _numeric_map [("a", VInt 3); ("b", VFloat (S754_infinity false))] = None.
Proof. by vm_compute. Qed.

(** A single rule id written without brackets is read as the set of its letters. *)
Example chain_id_letters : iterate (VStr "dyn") ≫= set_of = Some {["d"; "y"; "n"]} /\ iterate (VInt 1) = None /\ iterate (VInt 0) = Some [].
Proof. by vm_compute. Qed.

Definition ex_dir : pack_dir := mkPackDir "/p" "p" ["yara"] [("hashes/known_malicious.jsonl", "# c" +:+ String LF "" +:+ "{x" +:+ String LF " {y}")] [].
Example load_pack_ex : load_pack (fun _ => None) (fun l => if String.eqb l "{y}" then Some (ex_entry "bb" None "T") else None) (fun _ => "") ex_dir None =
  Some (mkPack "p" ["/p/yara"] [] [ex_entry "bb" None "T"] [] [] [] ∅ [] ∅ [] [] [] [] []).
Proof. by vm_compute. Qed.
