(* ===== verification/Service.v ===== *)
(** * The running service and its operator ([runtime.py], [cli.py])

    The scheduler's jobs, the start-up, and every command of the command line,
    composed from the components' operations
    over one state: the store with its two queues, the focus list and the
    maintainer watches.  The commands of the command line are values, run by
    one dispatcher; what they meet outside of the database is the record [Around]. *)
From S2P Require Import PypiCursor Releases WatchRefresh Finalize Process.
From S2P Require Import Prelude PyStr Text Sql Findings Json Jobs ScanQueue DetQueue Intel Score Triage Watch Scope.
From S2P Require Import Focus MaintWatch ThreatIntel Store Ingest Pipeline MaintPivot Packs.
From Stdlib Require Import Ascii.

Open Scope string_scope.
Open Scope list_scope.
Open Scope Z_scope.

(** ** The state *)

Definition set_focus (t : ftable) (i : ingest_db) : ingest_db := mkIngest (i_store i) t (i_maint i) (i_cursors i).
Definition i_det (i : ingest_db) : table (job DetExtra) := detonation_queue (i_store i).
Definition set_det (q : table (job DetExtra)) (i : ingest_db) : ingest_db := set_store (set_det_queue q (i_store i)) i.
Definition i_watch (i : ingest_db) : wtable := watchlist (i_store i).
Definition set_watch (t : wtable) (i : ingest_db) : ingest_db := set_store (set_watchlist t (i_store i)) i.
Definition i_scopes (i : ingest_db) : stable := scopes (i_store i).
Definition set_scope_table (t : stable) (i : ingest_db) : ingest_db := set_store (set_scopes t (i_store i)) i.
Definition i_intel (i : ingest_db) : itable := intel_hashes (i_store i).
Definition set_intel_table (t : itable) (i : ingest_db) : ingest_db := set_store (set_intel t (i_store i)) i.

(** What the process reads from its environment, and its clocks. *)
Record Env := mkEnv {
  e_queue : QueueConfig;
  e_auto : AutoConfig;
  e_mw : MwConfig;
  e_pivot : PivotConfig;
  e_scope : option string;     (* [SCOPE_WATCHLIST_ENABLED] *)
  e_prolific : option string;
  e_focus : option string;     (* [PKGWARD_FOCUS_EXCLUSIVE] *)
  e_now : timestamp;
  e_mono : timestamp;
  e_seeding : Finalize.Settings; (* the limit and the entropy bound of seeding *)
  e_faults : nat -> nat -> nat -> option string; (* of the k-th section's j-th enqueue *)
}.

(** ** The scheduler's jobs ([_async_run]) *)

Inductive sched_job := SweepAll | ClaimSweep | QueuePrune | DetClaimSweep | DetExpireClean | AutoJanitor | MaintJanitor.

(** Every job with its interval in minutes; [det_cluster]: detonation runs somewhere. *)
Definition schedule (det_cluster : bool) : list (sched_job * Z) :=
  [(SweepAll, 15); (ClaimSweep, 2); (QueuePrune, 6 * 60)] ++
  (if det_cluster then [(DetClaimSweep, 2); (DetExpireClean, 15)] else []) ++
  [(AutoJanitor, 60); (MaintJanitor, 60)].

Section Run.
Variable e : Env.

Definition _sweep_stale_job (i : ingest_db) : ingest_db := set_queue (ScanQueue.sweep_stale_claims (e_now e) (i_queue i)).2 i.
Definition _queue_prune_job (i : ingest_db) : ingest_db := set_queue (prune_terminal (e_queue e) None (e_now e) (i_queue i)).2 i.
Definition _det_sweep_stale_job (i : ingest_db) : ingest_db := set_det (DetQueue.sweep_stale_claims (e_now e) (i_det i)).2 i.
Definition _det_expire_clean_job (i : ingest_db) : ingest_db :=
  set_det (expire_stale_clean (e_now e) CLEAN_TTL_HOURS CLEAN_BACKLOG_CAP (i_det i)).2 i.
Definition _watchlist_auto_janitor (i : ingest_db) : ingest_db :=
  if negb (Watch.is_enabled (e_auto e)) then i
  else set_watch (prune_over_cap (e_auto e) (prune_expired (e_auto e) (e_now e) (i_watch i)).2).2 i.
Definition _maintainer_watch_janitor (i : ingest_db) : ingest_db :=
  set_maint (mw_prune (e_mw e) (e_now e) (i_store i) (i_maint i)).2 i.

(** The adapters' sweeps remove staged files; they leave the tables alone. *)
Definition run_job (j : sched_job) (i : ingest_db) : ingest_db :=
  match j with
  | SweepAll => i
  | ClaimSweep => _sweep_stale_job i
  | QueuePrune => _queue_prune_job i
  | DetClaimSweep => _det_sweep_stale_job i
  | DetExpireClean => _det_expire_clean_job i
  | AutoJanitor => _watchlist_auto_janitor i
  | MaintJanitor => _maintainer_watch_janitor i
  end.

(** [max_workers] of the shared executor: every worker's database call at once, and name resolution. *)
Definition executor_threads (workers det_workers : Z) : Z := Z.max 32 (workers + det_workers + 16).

(** ** Focus files and pinned versions *)

(** [if e.pinned_version and enqueue(...)]. *)
Definition pins (es : list FocusEntry) : list (string * string * priority) :=
  omap (fun en => if otruthy (e_pinned en) then Some (e_name en, ostr (e_pinned en), PHigh) else None) es.

(** The pins of every section in order, in the session that is open; [None] is an exception. *)
Fixpoint enqueue_pins (k : nat) (sections : list (string * list FocusEntry)) (n : Z) (q : queue) : option (Z * queue) :=
  match sections with
  | [] => Some (n, q)
  | (eco, es) :: rest =>
      match enqueue_batch (e_queue e) (e_faults e k) (e_now e) eco 0 (pins es) q with
      | Some (rs, q') => enqueue_pins (S k) rest (n + Z.of_nat (List.length (omap (fun r => r) rs))) q'
      | None => None
      end
  end.

Inductive file_read := FileMissing | FileUnreadable | FileText (text : string).

(** [None]: the exception leaves.  Only a missing file is caught around the
    reading; around the session everything is, and the session is rolled back. *)
Definition sync_focus_file (f : file_read) (i : ingest_db) : option ingest_db :=
  match f with
  | FileMissing => Some i
  | FileUnreadable => None
  | FileText text =>
      match apply_focus_file (e_now e) text (i_focus i) with
      | (inl _, _) => Some i
      | (inr sections, t) =>
          match enqueue_pins 0 sections 0 (i_queue i) with
          | Some (_, q) => Some (set_queue q (set_focus t i))
          | None => Some i
          end
      end
  end.

(** [runtime.enqueue_one]; [None]: the exception leaves, and nothing is committed. *)
Definition enqueue_one (eco nm ver : string) (prio : priority) (i : ingest_db) : option ingest_db :=
  match ScanQueue.enqueue (e_queue e) quiet (e_faults e 0 0) (e_now e) eco nm ver prio true (i_queue i) with
  | (Raised _, _) => None
  | (Returned _, q) => Some (set_queue q i)
  end.

(** ** Start-up *)

Definition seed_scopes (i : ingest_db) : ingest_db :=
  if Scope.is_enabled (e_scope e) then set_scope_table (seed_baseline (e_prolific e) (e_now e) (i_scopes i)).2 i else i.
Definition seed_fingerprints (pack : IntelPack) (i : ingest_db) : ingest_db :=
  match seed_pack (e_now e) (hash_seeds pack) (i_intel i) with
  | Some (_, _, t) => set_intel_table t i
  | None => i
  end.
(** [pack] is what [intel.load] gives, [None] an exception; [focus]: the file of [run -f]. *)
Definition start_up (pack : option IntelPack) (focus : option file_read) (i : ingest_db) : option ingest_db :=
  p ← pack;
  let i := seed_fingerprints p (seed_scopes i) in
  match focus with Some f => sync_focus_file f i | None => Some i end.
(** [run -f] sets the variable before anything reads it. *)
Definition focus_exclusive_of (focus : option file_read) : option string :=
  match focus with Some _ => Some "1" | None => e_focus e end.

End Run.

(** ** Commands of the command line ([cli.py]) *)

Definition TAB : string := String (chr 9) "".
Definition tabbed (l : list string) : string := join TAB l.
Definition count_line (n : nat) (what : string) : string := "# " +:+ show (Z.of_nat n) +:+ " " +:+ what.

Inductive reply :=
  | Echo (lines : list string)         (* what [typer.echo] prints *)
  | BadParameter (msg : string)        (* a usage error; nothing is done *)
  | Exit (lines : list string)         (* the same, with exit code 1 *)
  | Crash                              (* an exception leaves; the session that is open is rolled back *)
  | Pivoted (o : MaintPivot.outcome).

Inductive command :=
  | InitDb
  | RunCmd (focus : option string)
  | BackfillCmd (days_ : Z)
  | ReplayCmd (names : list string) (package version ecosystem : option string) (all_vaulted yes : bool)
  | ScanWatchlist (limit : nat)
  | ShowCmd (ecosystem package version : string)
  | MaintainerList
  | RescanCmd (ecosystem package version : string)
  | ReviewCmd (limit : nat) (ecosystem : option string)
  | FocusLoad (text : option string) (ecosystem : option string) (enqueue_pinned : bool)
  | FocusListCmd (ecosystem : option string)
  | FocusClear (ecosystem : option string)
  | MaintainerSweep (ecosystem name : string)
  | MaintainerWatchList (ecosystem : option string)
  | MaintainerWatchRemove (ecosystem name : string)
  | ScopeList (ecosystem : option string)
  | ScopeAdd (ecosystem scope : string)
  | ScopeRemove (ecosystem scope : string)
  | ScopeSeed
  | IntelBackfill (limit : Z)
  | IntelBackfillTlsh
  | IntelCandidates
  | IntelPromote (campaign : string)
  | IntelRemove (campaign : string)
  | IntelStats
  | AutoList (ecosystem : option string)
  | AutoRemove (ecosystem name : string)
  | AutoPurge (older_than_days : Z)
  | AutoBackfill (days_ : Z).

Definition _ECOSYSTEMS : list string := ["pypi"; "crates"; "gomod"; "npm"].
Definition _check_ecosystem (eco : string) : option reply :=
  if str_in eco _ECOSYSTEMS then None else Some (BadParameter "ecosystem must be one of ('pypi', 'crates', 'gomod', 'npm')").

Definition scope_status_name (s : scope_status) : string :=
  match s with ScopeAdded => "added" | ScopeRefreshed => "refreshed" | ScopeUnsupported => "unsupported" end.
(** [ORDER BY ecosystem, name]. *)
Definition pair_leb (a b : string * string) : bool := if String.eqb a.1 b.1 then String.leb a.2 b.2 else String.leb a.1 b.1.
(** [if ecosystem: q = q.where(...)]. *)
Definition of_eco (eco : option string) (x : string) : bool := negb (otruthy eco) || String.eqb x (ostr eco).

(** *** Fingerprints of past scans ([threat_intel_auto.py]) *)

(** A scan with its package and version: the rows of the join. *)
Definition scan_rows (p : Scan -> bool) (d : db) : list (Scan * Version * Package) :=
  flat_map (fun sc =>
    flat_map (fun v => map (fun pk => (sc, v, pk)) (select (fun pk => v_package_id v =? p_id pk) (packages d)))
      (select (fun v => sc_version_id sc =? v_id v) (versions d)))
    (select p (scans d)).
Definition twice_malicious (sc : Scan) : bool :=
  bool_decide (sc_verdict sc = VMalicious) && match sc_llm sc with Some l => bool_decide (llm_verdict l = VMalicious) | None => false end.
(** [rows[:limit]], where zero is no limit. *)
Definition limited {A} (limit : Z) (l : list A) : list A :=
  if limit =? 0 then l else List.firstn (Z.to_nat (if 0 <? limit then limit else Z.of_nat (List.length l) + limit)) l.

Definition seed_past (e : Env) (d : db) (st : Z * itable) (r : Scan * Version * Package) : Z * itable :=
  let '(sc, _, pk) := r in
  let bad := map file (bfilter (fun f => sev_in f [SHigh; SCritical]) (findings_of (sc_id sc) d)) in
  let '(n, t) := seed_from_scan (Finalize.st_seed_max (e_seeding e)) (e_now e) (p_ecosystem pk) (p_name pk) (blocklisted (e_auto e) (p_ecosystem pk) (p_name pk)) bad
    (map (Finalize.seed_file_of (e_seeding e)) (select (fun h => fh_scan_id h =? sc_id sc) (file_hashes d))) st.2 in
  (st.1 + n, t).
(** The scans processed, the fingerprints seeded, the table. *)
Definition backfill (e : Env) (limit : Z) (d : db) : Z * Z * itable :=
  let rs := limited limit (ssort (desc (fun r : Scan * Version * Package => sc_id r.1.1)) (scan_rows twice_malicious d)) in
  let '(n, t) := fold_left (seed_past e d) rs (0, intel_hashes d) in (Z.of_nat (List.length rs), n, t).

(** The vault and the hashes: the names of its archives, the contents of the
    files inside one, up to an exception if it raises, SHA-256 and TLSH. *)
Record Vaulted := mkVaulted {
  va_has_tlsh : bool;
  va_zips : option (list string);
  va_inner : string -> list string * bool;
  va_sha256 : string -> string;
  va_tlsh : string -> option string;
}.

Definition untagged (r : ThreatIntelHash) : bool := ThreatIntel.is_auto r && bool_decide (ti_tlsh r = None).
Definition set_tlsh (tl : string) (r : ThreatIntelHash) : ThreatIntelHash :=
  mkIntelHash (ti_id r) (ti_sha256 r) (ti_ssdeep r) (Some tl) (ti_campaign r) (ti_label r) (ti_file_pattern r) (ti_description r)
    (ti_source r) (ti_added_at r).
(** The part of the campaign a file name of the vault contains. *)
Definition campaign_token (r : ThreatIntelHash) : string :=
  remove_char "@"%char (Releases.replace_char "/"%char "_"%char (List.last (split ":"%char (ti_campaign r)) "")).

(** One file; the dictionary keeps the last of the rows with a hash. *)
Definition tlsh_file (v : Vaulted) (by_sha : list (string * Z)) (st : Z * itable) (content : string) : Z * itable :=
  match dget (va_sha256 v content) by_sha ≫= (fun i => get i st.2) with
  | Some r =>
      if bool_decide (is_Some (ti_tlsh r)) || (len content <? 64)%nat then st
      else match va_tlsh v content with
      | Some tl => if truthy tl && negb (String.eqb tl "TNULL") then (st.1 + 1, put (set_tlsh tl r) st.2) else st
      | None => st
      end
  | None => st
  end.
Definition tlsh_zip (v : Vaulted) (by_sha : list (string * Z)) (tokens : list string) (st : Z * Z * itable) (zip_name : string) : Z * Z * itable :=
  if negb (existsb (fun tok => truthy tok && contains tok zip_name) tokens) then st
  else
    let '(contents, ok) := va_inner v zip_name in
    let '(n, t) := fold_left (tlsh_file v by_sha) contents (st.1.2, st.2) in
    (st.1.1 + Z.b2z ok, n, t).
Definition backfill_tlsh_from_vault (v : Vaulted) (t : itable) : Z * Z * itable :=
  if negb (va_has_tlsh v) then (0, 0, t)
  else match va_zips v with
  | None => (0, 0, t)
  | Some zips =>
      let rs := select untagged t in
      let by_sha := fold_left (fun d r => dset (ti_sha256 r) (ti_id r) d) rs [] in
      match by_sha with
      | [] => (0, 0, t)
      | _ => fold_left (tlsh_zip v by_sha (dedup (map campaign_token rs))) (py_sorted zips) (0, 0, t)
      end
  end.

(** *** [scan-watchlist], [backfill], [show] *)

(** The refresh runs only where the whole table is empty, whatever the ecosystem of its rows. *)
Definition scan_watchlist_cmd (e : Env) (o : Releases.outside) (top_n : nat) (snapshot : option (list WatchRefresh.top_entry))
    (limit : nat) (i : ingest_db) : reply * ingest_db :=
  let empty := bool_decide (rows (i_watch i) = []) in
  let '(written, t) := if empty then WatchRefresh.pypi_refresh (e_now e) top_n snapshot (i_watch i) else (WatchRefresh.Written 0, i_watch i) in
  match written with
  | WatchRefresh.IntegrityFailed => (Crash, i)
  | WatchRefresh.Written _ =>
      let '(n, i) := Releases.pypi_poll_watchlist (e_queue e) o (if (limit =? 0)%nat then None else Some limit) (set_watch t i) in
      (Echo ((if empty then ["watchlist empty — refreshing from PyPI..."] else []) ++ ["enqueued " +:+ show n +:+ " packages"]), i)
  end.

(** [runtime.backfill_days]: the adapter's count, [None] where it raised. *)
Definition backfill_days (adapters : list (string * (Z -> ingest_db -> option Z * ingest_db))) (days_ : Z) (eco : string) (i : ingest_db) : option Z * ingest_db :=
  match dget eco adapters with Some run => run days_ i | None => (Some 0, i) end.

(** [show]. *)
Section Show.
Variable str_time : timestamp -> string.
Variable str_of : json -> string.
(** [repr] of the first elements of a list of requirements. *)
Variable repr_json : list json -> string.

Definition opt_str (x : option string) : string := default "None" x.
Definition finding_line (f : Finding) : string :=
  let loc := file f +:+ match line f with Some n => if n =? 0 then "" else ":" +:+ show n | None => "" end in
  "  [" +:+ severity_name (f_severity f) +:+ "/" +:+ match f_confidence f with CLow => "low" | CMedium => "medium" | CHigh => "high" end +:+
  "] " +:+ rule_id f +:+ " " +:+ loc +:+ " :: " +:+ evidence f.
Definition meta_lines (m : VersionMeta) : list string :=
  (if json_truthy (vm_author m) then
     ["author=" +:+ str_of (vm_author m) +:+ " email=" +:+ if json_truthy (vm_author_email m) then str_of (vm_author_email m) else "-"] else []) ++
  (if json_truthy (vm_summary m) then ["summary=" +:+ str_of (vm_summary m)] else []) ++
  match vm_downloads_last_30d m with Some n => if n =? 0 then [] else ["downloads_last_30d=" +:+ show n] | None => [] end ++
  match vm_requires_dist m with
  | JArr (r :: rs) =>
      ["requires_dist=" +:+ repr_json (List.firstn 5 (r :: rs)) +:+ if (5 <? List.length (r :: rs))%nat then " ..." else ""]
  | _ => []
  end.
Definition show_scan (eco nm ver : string) (v : Version) (sc : Scan) (d : db) : list string :=
  ["=== " +:+ eco +:+ ":" +:+ nm +:+ "==" +:+ ver +:+ " ===";
   "verdict=" +:+ verdict_name (sc_verdict sc) +:+ " score=" +:+ show (sc_score sc) +:+ " alert_tag=" +:+ opt_str (sc_alert_tag sc);
   "started=" +:+ str_time (sc_started_at sc) +:+ " finished=" +:+ opt_str (str_time <$> sc_finished_at sc)] ++
  meta_lines (v_meta v) ++
  match findings_of (sc_id sc) d with [] => ["(no findings)"] | fs => map finding_line fs end.
Definition show_findings (eco nm ver : string) (d : db) : list string :=
  match first (same_package eco nm) (packages d) with
  | None => ["no package: " +:+ eco +:+ ":" +:+ nm]
  | Some pkg =>
      match first (same_version eco (p_id pkg) ver) (versions d) with
      | None => ["no version: " +:+ eco +:+ ":" +:+ nm +:+ "==" +:+ ver]
      | Some v =>
          match first_desc sc_started_at (fun sc => sc_version_id sc =? v_id v) (scans d) with
          | None => ["no scan yet for " +:+ nm +:+ "==" +:+ ver]
          | Some sc => show_scan eco nm ver v sc d
          end
      end
  end.
End Show.

(** ** [replay] *)

Record target := mkTarget { tg_ecosystem : string; tg_name : string; tg_version : string }.

(** One filter that is given or not. *)
Definition wants (filter : option string) (x : string) : bool := negb (otruthy filter) || String.eqb x (ostr filter).
Definition replay_targets (enabled : bool) (vaulted : list target) (names : list string) (package version_ eco : option string)
    (all_vaulted yes : bool) : reply + list target :=
  if negb enabled then inl (Exit ["vault not enabled (set PKGWARD_VAULT_PATH)"])
  else if negb all_vaulted && bool_decide (names = []) && negb (otruthy package) && negb (otruthy version_) && negb (otruthy eco)
  then inl (BadParameter "give package NAMES, or --package/--version/--ecosystem, or --all")
  else
    let targets := if all_vaulted then vaulted else
      bfilter (fun t => wants eco (tg_ecosystem t) && wants package (tg_name t) && wants version_ (tg_version t) &&
                        (bool_decide (names = []) || str_in (tg_name t) names)) vaulted in
    if bool_decide (targets = []) then inl (Exit ["no matching vaulted samples"])
    else if (20 <? List.length targets)%nat && negb yes
    then inl (Exit ["about to replay " +:+ show (Z.of_nat (List.length targets)) +:+ " samples — each malicious one fires a real Discord alert." +:+
                    String (chr 10) "re-run with --yes to confirm."])
    else inr targets.

(** The session before each run: the row is enqueued and claimed in place,
    without a swap; [None] is an exception. *)
Definition replay_claim (e : Env) (k : nat) (token : string) (t : target) (q : queue) : option (option row * queue) :=
  match ScanQueue.enqueue (e_queue e) quiet (e_faults e k 0) (e_now e) (tg_ecosystem t) (tg_name t) (tg_version t) PHigh true q with
  | (Raised _, _) => None
  | (Returned None, q') => Some (None, q')
  | (Returned (Some r), q') =>
      let r' := set_claim (Some token) (Some (e_now e)) (set_status Claimed r) in Some (Some r', put r' q')
  end.

Section Replay.
Variable e : Env.
(** Reading the vault, staging what was read, and its hash. *)
Variable read_archive : target -> option (list Z * string).
Variable stage : list Z -> string -> string + string.
Variable sha256 : list Z -> string.
(** [uuid4] per target, and [process_one] on a claimed row. *)
Variable token : nat -> string.
Variable adapter_of : string -> option Process.Adapter.
Variable process : nat -> Z -> option string -> Process.fetched -> Finalize.world -> Finalize.world.

(** [_stage_archive_from_vault] and what [process_one] makes of it. *)
Definition replay_fetch (t : target) (kind : string) : Process.fetched :=
  match read_archive t with
  | None => Process.NoFilesError ("not_vaulted:" +:+ tg_ecosystem t +:+ "/" +:+ tg_name t +:+ "@" +:+ tg_version t)
  | Some (data, inner) =>
      match stage data inner with
      | inl path => Process.FetchOk [mkArchive path kind (sha256 data)] []
      | inr err => Process.FetchRaised err
      end
  end.
Definition kind_of (t : target) : string := match adapter_of (tg_ecosystem t) with Some a => Process.ad_install_kind a | None => "" end.

(** The lines, whether an exception ended the loop, and the world. *)
Fixpoint replay_loop (k : nat) (targets : list target) (w : Finalize.world) : list string * bool * Finalize.world :=
  match targets with
  | [] => ([], false, w)
  | t :: rest =>
      match replay_claim e k (token k) t (scan_queue (Finalize.w_db w)) with
      | None => ([], true, w)
      | Some (claimed, q) =>
          let w := Finalize.set_db (set_scan_queue q (Finalize.w_db w)) w in
          let '(text, w) := match claimed with
            | None => ("  SKIP " +:+ tg_name t +:+ "@" +:+ tg_version t +:+ " (enqueue failed)", w)
            | Some r => ("  replayed " +:+ tg_ecosystem t +:+ "/" +:+ tg_name t +:+ "@" +:+ tg_version t,
                         process k (id r) (Some (token k)) (replay_fetch t (kind_of t)) w)
            end in
          let '(lines, crashed, w) := replay_loop (S k) rest w in (text :: lines, crashed, w)
      end
  end.
End Replay.

(** [vault.list_vaulted], as far as [replay] reads it: the manifests by path,
    [None] where there is no vault; one that does not parse is passed over. *)
Definition toml_string (k : string) (m : toml_table) : option string := match dget k m with Some (VStr s) => Some s | _ => None end.
Definition manifest_target (m : toml_table) : option target :=
  eco ← toml_string "ecosystem" m; nm ← toml_string "name" m; ver ← toml_string "version" m; Some (mkTarget eco nm ver).
Definition list_vaulted (toml_loads : string -> option toml_table) (manifests : option (list (string * string))) : list target :=
  match manifests with
  | None => []
  | Some fs => omap (fun f => toml_loads f.2 ≫= manifest_target) (ssort (fun a b => String.leb a.1 b.1) fs)
  end.

(** What the commands meet outside of the database: the registries' answers, the vault and
    its staging, the intelligence pack, files, and the pipeline that a replay runs. *)
Record Around := mkAround {
  a_gate : GateConfig;
  a_log : nat -> PypiCursor.outside;      (* the changelog, at the k-th pull *)
  a_releases : Releases.outside;
  a_top : nat * option (list WatchRefresh.top_entry);
  a_pack : option IntelPack;
  a_file : string -> file_read;
  a_vaulted : option (list target);       (* [None]: no vault is set up *)
  a_read_archive : target -> option (list Z * string);
  a_stage : list Z -> string -> string + string;
  a_sha256 : list Z -> string;
  a_token : nat -> string;
  a_adapter_of : string -> option Process.Adapter;
  a_process : nat -> Z -> option string -> Process.fetched -> Finalize.world -> Finalize.world;
  a_world : db -> Finalize.world;         (* the database in a fresh process *)
  a_str : json -> string;
  a_repr : list json -> string;
  a_timeout : string * string;            (* the timeout and the memory of the pivot, as text *)
}.

Section Exec.
Variable e : Env.
Variable o : MaintPivot.outside.
Variable vault : Vaulted.
Variable a : Around.
Variable isoformat : timestamp -> string.
(** [str] of a time, and where the database sorts a missing one. *)
Variable str_time : timestamp -> string.
Variable null_time : timestamp.

(** *** Focus *)

Definition load_section (authoritative : bool) (t : ftable) (kv : string * list FocusEntry) : ftable :=
  (if authoritative then sync_focus (e_now e) kv.1 kv.2 t else upsert_focus (e_now e) kv.1 kv.2 t).2.
(** The sections of the text, and whether they replace what is there. *)
Definition focus_sections (text : string) (eco : option string) : reply + (list (string * list FocusEntry) * bool) :=
  if otruthy eco then
    match _check_ecosystem (ostr eco) with
    | Some bad => inl bad
    | None => inr ([(ostr eco, parse_focus_file text (ostr eco))], false)
    end
  else match parse_combined_focus_file text with
  | inl _ => inl Crash
  | inr [] => inl (BadParameter "no [ecosystem] sections found — pass -e for a flat single-ecosystem file.")
  | inr sections => inr (sections, true)
  end.
Definition focus_load_cmd (text : option string) (eco : option string) (enqueue_pinned : bool) (i : ingest_db) : reply * ingest_db :=
  match text with
  | None => (Crash, i)
  | Some text =>
      match focus_sections text eco with
      | inl r => (r, i)
      | inr (sections, authoritative) =>
          let t := fold_left (load_section authoritative) sections (i_focus i) in
          match (if enqueue_pinned then enqueue_pins e 0 sections 0 (i_queue i) else Some (0, i_queue i)) with
          | None => (Crash, i)
          | Some (enq, q) =>
              (Echo ["loaded " +:+ show (Z.of_nat (List.length (flat_map snd sections))) +:+ " focus entries (" +:+
                     join ", " (py_sorted (map fst sections)) +:+ ") — " +:+ show enq +:+ " pinned versions enqueued"],
               set_queue q (set_focus t i))
          end
      end
  end.
Definition focus_list_cmd (eco : option string) (i : ingest_db) : list string :=
  let rs := ssort (fun a b => pair_leb (fo_key a) (fo_key b)) (select (fun r => of_eco eco (fo_ecosystem r)) (i_focus i)) in
  map (fun r => tabbed [fo_ecosystem r; fo_name r; str_or (ostr (fo_pinned r)) "-"]) rs ++ [count_line (List.length rs) "entries"] ++
  (if focus_exclusive (e_focus e) && bool_decide (rs = []) then
     ["WARNING: PKGWARD_FOCUS_EXCLUSIVE=1 but focus list is empty — the scanner will idle."] else []).

(** *** Review *)

Definition finished_key (sc : Scan) : Z := default null_time (sc_finished_at sc).
Definition review_rows (limit : nat) (eco : option string) (d : db) : list (Scan * Version * Package) :=
  List.firstn limit (ssort (desc (fun r : Scan * Version * Package => finished_key r.1.1))
    (bfilter (fun r => of_eco eco (p_ecosystem r.2)) (scan_rows (fun sc => bool_decide (sc_verdict sc = VInconclusive)) d))).
Definition review_lines (r : Scan * Version * Package) : list string :=
  let '(sc, v, pk) := r in
  (String (chr 10) "" +:+ tabbed [p_ecosystem pk; p_name pk +:+ "==" +:+ v_version v; "score=" +:+ show (sc_score sc);
     match sc_finished_at sc with Some t => isoformat t | None => "?" end]) ::
  match sc_llm sc with
  | Some l => if truthy (llm_reasoning l) then ["  " +:+ strip (llm_reasoning l)] else []
  | None => []
  end.
Definition review_cmd (limit : nat) (eco : option string) (i : ingest_db) : list string :=
  let rs := review_rows limit eco (i_store i) in
  flat_map review_lines rs ++ [String (chr 10) "" +:+ count_line (List.length rs) "inconclusive scan(s) awaiting review"].

(** *** The automatic watchlist *)

Definition purgeable (older_than_days : Z) (w : watch) : bool :=
  Watch.is_auto w && ((older_than_days <=? 0) || (w_refreshed_at w <? e_now e - days older_than_days)).
Definition watchlist_auto_purge_cmd (older_than_days : Z) (i : ingest_db) : reply * ingest_db :=
  let p := purgeable older_than_days in
  (Echo ["purged " +:+ show (count_where p (i_watch i)) +:+ " auto-added entries"], set_watch (delete_where p (i_watch i)) i).

(** The correlated subquery: severe evidence of a primary category, outside shadow mode. *)
Definition primary_finding (f : Finding) : bool :=
  sev_in f [SHigh; SCritical] && negb (str_in (category f) NON_PRIMARY_PROMOTE_CATEGORIES) &&
  negb (sql_like (rule_id f) "opengrep.shadow_%").
Definition backfill_scan (cutoff : timestamp) (d : db) (sc : Scan) : bool :=
  double_malicious cutoff sc && existsb primary_finding (findings_of (sc_id sc) d).
(** [GROUP BY ecosystem, name]. *)
Definition backfill_names (cutoff : timestamp) (d : db) : list (string * string) :=
  dedup (map (fun pk => (p_ecosystem pk, p_name pk)) (scan_packages (backfill_scan cutoff d) d)).

Record tally := mkTally { t_added : Z; t_refreshed : Z; t_skipped : Z }.
Definition count_status (s : option added) (c : tally) : tally :=
  match s with
  | Some Added => mkTally (t_added c + 1) (t_refreshed c) (t_skipped c)
  | Some Refreshed => mkTally (t_added c) (t_refreshed c + 1) (t_skipped c)
  | _ => mkTally (t_added c) (t_refreshed c) (t_skipped c + 1)
  end.
Definition backfill_one (st : tally * list (string * list timestamp) * wtable) (en : string * string) : tally * list (string * list timestamp) * wtable :=
  let '(c, rl, t) := st in
  let '(s, rl, t) := add_confirmed_malicious (e_auto e) (fun t => t) (e_now e) (e_mono e) en.1 en.2 rl t in
  (count_status s c, rl, t).
Definition watchlist_auto_backfill_cmd (days_ : Z) (i : ingest_db) : reply * ingest_db :=
  let names := backfill_names (e_now e - days days_) (i_store i) in
  let '(c, _, t) := fold_left backfill_one names (mkTally 0 0 0, [], i_watch i) in
  (Echo ["backfilled " +:+ show (Z.of_nat (List.length names)) +:+ " unique double-confirmed names — " +:+
         "added=" +:+ show (t_added c) +:+ " refreshed=" +:+ show (t_refreshed c) +:+ " skipped=" +:+ show (t_skipped c)],
   set_watch t i).

(** [run]: what happens before the pools and the jobs start, which are steps of their own.
    An exception of the focus file leaves what was seeded. *)
Definition run_cmd (focus : option string) (i : ingest_db) : reply * ingest_db :=
  match start_up e (a_pack a) (a_file a <$> focus) i with
  | Some i' => (Echo [], i')
  | None => (Crash, match a_pack a with Some p => seed_fingerprints e p (seed_scopes e i) | None => i end)
  end.
Definition backfill_cmd (days_ : Z) (i : ingest_db) : reply * ingest_db :=
  match backfill_days [("pypi", PypiCursor.pypi_backfill (a_gate a) (focus_exclusive (e_focus e)) (a_log a))] days_ "pypi" i with
  | (Some _, i') => (Echo [], i')
  | (None, i') => (Crash, i')
  end.
Definition replay_cmd (names : list string) (package version_ eco : option string) (all_vaulted yes : bool) (i : ingest_db) : reply * ingest_db :=
  match replay_targets (bool_decide (is_Some (a_vaulted a))) (default [] (a_vaulted a)) names package version_ eco all_vaulted yes with
  | inl r => (r, i)
  | inr targets =>
      let '(lines, crashed, w) := replay_loop e (a_read_archive a) (a_stage a) (a_sha256 a) (a_token a) (a_adapter_of a) (a_process a)
        0 targets (a_world a (i_store i)) in
      (if crashed then Crash
       else Echo (["replaying " +:+ show (Z.of_nat (List.length targets)) +:+ " vaulted sample(s) through the real pipeline..."] ++ lines ++
                  ["done — malicious verdicts fire Discord alerts"]),
       set_store (Finalize.w_db w) i)
  end.
Definition or_text (none : string) (l : list string) : string := match l with [] => none | _ => join ", " (py_sorted l) end.
Definition py_bool (b : bool) : string := if b then "True" else "False".
Definition maintainer_list_cmd : list string :=
  let p := e_pivot e in
  [tabbed ["enabled"; py_bool (MaintPivot.is_enabled p)]; tabbed ["shadow"; py_bool (is_shadow p)];
   tabbed ["supported"; join ", " MaintPivot.SUPPORTED]; tabbed ["max_pkgs"; show (pv_max_pkgs p)]; tabbed ["corr_days"; show (pv_corr_days p)];
   tabbed ["timeout_s"; fst (a_timeout a)]; tabbed ["dedup_ttl_s"; snd (a_timeout a)];
   tabbed ["trigger_allow"; or_text "(any)" (dedup (trigger_rule_set (TRIGGER_ALLOW p)))];
   tabbed ["trigger_deny"; or_text "(none)" (dedup (trigger_rule_set (TRIGGER_DENY p)))];
   tabbed ["watch_enabled"; py_bool (mw_enabled (e_mw e))]; tabbed ["watch_releases"; show (mw_releases (e_mw e))];
   tabbed ["watch_ttl_days"; show (mw_ttl_days (e_mw e))]].

(** *** The dispatcher *)

Definition lookup (k : string) (l : list (string * Z)) : string := show (dget_or k 0 l).

Definition exec (c : command) (i : ingest_db) : reply * ingest_db :=
  match c with
  | InitDb => (Echo ["ok"], i)
  | RunCmd focus => run_cmd focus i
  | BackfillCmd d => backfill_cmd d i
  | ReplayCmd names package version_ eco all_vaulted yes => replay_cmd names package version_ eco all_vaulted yes i
  | ScanWatchlist limit => scan_watchlist_cmd e (a_releases a) (fst (a_top a)) (snd (a_top a)) limit i
  | ShowCmd eco nm ver => (Echo (show_findings str_time (a_str a) (a_repr a) eco nm ver (i_store i)), i)
  | MaintainerList => (Echo maintainer_list_cmd, i)
  | RescanCmd eco nm ver =>
      match enqueue_one e eco nm ver PHigh i with Some i' => (Echo ["enqueued"], i') | None => (Crash, i) end
  | ReviewCmd limit eco => (Echo (review_cmd limit eco i), i)
  | FocusLoad text eco pinned => focus_load_cmd text eco pinned i
  | FocusListCmd eco => (Echo (focus_list_cmd eco i), i)
  | FocusClear eco =>
      let '(n, t) := clear_focus eco (i_focus i) in (Echo ["cleared " +:+ show n +:+ " entries"], set_focus t i)
  | MaintainerSweep eco nm =>
      let '(out, _, i') := sweep_on_malicious (e_pivot e) o eco nm [] None true [] i in (Pivoted out, i')
  | MaintainerWatchList eco =>
      let rs := list_watches eco (i_maint i) in
      (Echo (map (fun r => tabbed [r.1.1.1; r.1.1.2; str_or (ostr r.1.2) "-"; str_time r.2]) rs ++ [count_line (List.length rs) "watches"]), i)
  | MaintainerWatchRemove eco nm =>
      let '(n, t) := remove_watch eco nm (i_maint i) in (Echo ["removed: " +:+ show n], set_maint t i)
  | ScopeList eco =>
      let rs := ssort (fun a b => pair_leb (scope_key a) (scope_key b)) (select (fun r => of_eco eco (s_ecosystem r)) (i_scopes i)) in
      (Echo (map (fun r => tabbed [s_ecosystem r; s_scope r; s_source r]) rs ++ [count_line (List.length rs) "scopes"]), i)
  | ScopeAdd eco scope =>
      let '(s, t) := add_scope (e_now e) eco scope "manual" (i_scopes i) in
      (Echo [scope_status_name s +:+ ": " +:+ eco +:+ " " +:+ scope], set_scope_table t i)
  | ScopeRemove eco scope =>
      let '(n, t) := remove_scope eco scope (i_scopes i) in (Echo ["removed: " +:+ show n], set_scope_table t i)
  | ScopeSeed =>
      let '(n, t) := seed_baseline (e_prolific e) (e_now e) (i_scopes i) in
      (Echo ["seeded: " +:+ show n +:+ " new scopes"], set_scope_table t i)
  | IntelBackfill limit =>
      let '(n, seeded, t) := backfill e limit (i_store i) in
      (Echo ["backfill: " +:+ show n +:+ " malicious scans processed, " +:+ show seeded +:+ " new fingerprints seeded"], set_intel_table t i)
  | IntelBackfillTlsh =>
      let '(n, updated, t) := backfill_tlsh_from_vault vault (i_intel i) in
      (Echo ["tlsh backfill: " +:+ show n +:+ " vault archives read, " +:+ show updated +:+ " fingerprints gained TLSH"], set_intel_table t i)
  | IntelCandidates =>
      let cs := candidates (i_intel i) in
      (Echo (map (fun c => tabbed [show c.2; c.1]) cs ++ [count_line (List.length cs) "candidate campaigns"]), i)
  | IntelPromote campaign =>
      let '(n, t) := promote campaign (i_intel i) in
      (Echo ["promoted: " +:+ show n +:+ " fingerprints -> fuzzy matching enabled"], set_intel_table t i)
  | IntelRemove campaign =>
      let '(n, t) := ThreatIntel.remove campaign (i_intel i) in
      (Echo ["removed: " +:+ show n +:+ " fingerprints for " +:+ repr campaign], set_intel_table t i)
  | IntelStats =>
      let st := stats (i_intel i) in
      (Echo ["fingerprints: " +:+ lookup "auto" st +:+ " auto (exact-only) / " +:+ lookup "promoted" st +:+ " promoted (fuzzy) / " +:+
             lookup "total" st +:+ " total"], i)
  | AutoList eco =>
      let rs := list_auto_entries eco (i_watch i) in
      (Echo (map (fun r => tabbed [r.1.1; r.1.2; isoformat r.2]) rs ++ [count_line (List.length rs) "entries"]), i)
  | AutoRemove eco nm =>
      match _check_ecosystem eco with
      | Some bad => (bad, i)
      | None => let '(b, t) := remove_auto_entry eco nm (i_watch i) in (Echo ["removed: " +:+ py_bool b], set_watch t i)
      end
  | AutoPurge d => watchlist_auto_purge_cmd d i
  | AutoBackfill d => watchlist_auto_backfill_cmd d i
  end.

End Exec.

(** ** The service as a transition system *)

Record service := mkService { sv : ingest_db; sv_tokens : gset string; sv_det_tokens : gset string }.

(** Steps of others that write none of the tables below: scans, findings, packages, cursors. *)
Definition same_tables (i i' : ingest_db) : Prop :=
  i_queue i' = i_queue i /\ i_det i' = i_det i /\ i_watch i' = i_watch i /\ i_scopes i' = i_scopes i /\
  i_intel i' = i_intel i /\ i_focus i' = i_focus i /\ i_maint i' = i_maint i.
Definition pivot_quiet (o : MaintPivot.outside) : Prop := forall k i, MaintPivot.world o k i = i.

(** The answers to a poll's requests come in some order. *)
Definition in_some_order (a : Around) : Prop := forall l, Releases.completion (a_releases a) l ≡ₚ l.
Definition is_replay (c : command) : bool := match c with ReplayCmd _ _ _ _ _ _ => true | _ => false end.

(** What can happen: any step of the pollers and workers on the two queues, a
    promotion of the pipeline, a weekly refresh, a job of the scheduler, a start, an operator's
    command, and the claim of a replay, whose runs are steps of a worker. *)
Inductive sstep : service -> service -> Prop :=
| svc_queue cfg i q' U U' D :
    qstep cfg true (QState (i_queue i) U) (QState q' U') -> sstep (mkService i U D) (mkService (set_queue q' i) U' D)
| svc_det i q' U D D' :
    dstep (DState (i_det i) D) (DState q' D') -> sstep (mkService i U D) (mkService (set_det q' i) U D')
| svc_promote cfg now mono eco nm rl i U D :
    sstep (mkService i U D) (mkService (set_watch (add_confirmed_malicious cfg (fun t => t) now mono eco nm rl (i_watch i)).2 i) U D)
| svc_scope env now eco nm i U D :
    sstep (mkService i U D) (mkService (set_scope_table (auto_watch_on_malicious env now eco nm (i_scopes i)).2 i) U D)
| svc_merge lookup now eco its t i U D :
    WatchRefresh.merge_table lookup now eco its (i_watch i) = Some t -> sstep (mkService i U D) (mkService (set_watch t i) U D)
| svc_rebuild now eco its t i U D :
    WatchRefresh.rebuild_table now eco its (i_watch i) = Some t -> sstep (mkService i U D) (mkService (set_watch t i) U D)
| svc_job e j i U D : sstep (mkService i U D) (mkService (run_job e j i) U D)
| svc_start e pack focus i i' U D : start_up e pack focus i = Some i' -> sstep (mkService i U D) (mkService i' U D)
| svc_command e o v a iso st nt c i U D :
    pivot_quiet o -> in_some_order a -> is_replay c = false -> sstep (mkService i U D) (mkService (exec e o v a iso st nt c i).2 U D)
| svc_replay e k tok t r q i U D :
    tok ∉ U -> replay_claim e k tok t (i_queue i) = Some (r, q) -> sstep (mkService i U D) (mkService (set_queue q i) ({[tok]} ∪ U) D)
| svc_other i i' U D : same_tables i i' -> sstep (mkService i U D) (mkService i' U D).

Definition initial : service := mkService (mkIngest empty_db empty_table empty_table []) ∅ ∅.

(** Ids and keys are unique. *)
Definition keyed {R K} `{Entity R} (k : R -> K) (t : table R) : Prop := table_wf t /\ unique k t.

Record service_inv (s : service) : Prop := {
  inv_queue : queue_inv true (QState (i_queue (sv s)) (sv_tokens s));
  inv_det : det_inv (DState (i_det (sv s)) (sv_det_tokens s));
  inv_watch : keyed w_key (i_watch (sv s));
  inv_scopes : keyed scope_key (i_scopes (sv s));
  inv_focus : keyed fo_key (i_focus (sv s));
  inv_maint : keyed mw_key (i_maint (sv s));
  inv_intel : table_wf (i_intel (sv s))
}.

(** ** Lemmas: tables with keys *)

Section Keyed.
Context {R K : Type} `{Entity R} (k : R -> K).
Implicit Types t : table R.

Lemma keyed_empty : keyed k empty_table.
Proof. split; [apply table_wf_empty|constructor]. Qed.

Lemma keyed_delete p t : keyed k t -> keyed k (delete_where p t).
Proof. intros [? ?]. split; [by apply table_wf_delete|by apply unique_delete]. Qed.

Lemma keyed_put r r0 t : r0 ∈ rows t -> row_id r = row_id r0 -> k r = k r0 -> keyed k t -> keyed k (put r t).
Proof.
  intros Hr Hid Hk [Hwf Hu]. split; [by apply table_wf_put|]. apply unique_update; [|done].
  intros r1 Hr1 E%Z.eqb_eq. rewrite Hk. f_equal. symmetry. apply (row_id_inj t); [done..|congruence].
Qed.

Lemma keyed_insert (mk : Z -> R) t : (forall i, row_id (mk i) = i) -> (forall r, r ∈ rows t -> k r <> k (mk (seq t))) ->
  keyed k t -> keyed k (insert mk t).1.
Proof.
  intros Hid Hf [Hwf Hu]. split; [by apply table_wf_insert|]. unfold unique. change (rows (insert mk t).1) with (rows t ++ [mk (seq t)]).
  rewrite fmap_app. apply NoDup_app. split_and!; [done| |apply NoDup_singleton].
  intros x (r & -> & Hr)%list_elem_of_fmap Hx%list_elem_of_singleton. by apply (Hf r Hr).
Qed.

Lemma keyed_insert_unique `{EqDecision K} (mk : Z -> R) t t' r : (forall i, row_id (mk i) = i) ->
  insert_unique k mk t = Some (t', r) -> keyed k t -> keyed k t'.
Proof.
  intros Hid E [Hwf Hu]. split; [|by eapply unique_insert]. apply insert_unique_inv in E as (-> & -> & _). by apply table_wf_insert.
Qed.
End Keyed.
#[export] Hint Resolve keyed_empty keyed_delete : pk.

(** *** The watchlist *)

Lemma add_confirmed_keyed cfg now mono eco nm rl t :
  keyed w_key t -> keyed w_key (add_confirmed_malicious cfg (fun t => t) now mono eco nm rl t).2.
Proof.
  intros Hk. unfold add_confirmed_malicious. destruct (negb _); [done|]. destruct (blocklisted _ _ _); [done|].
  destruct (first _ t) as [w|] eqn:E.
  - destruct (Watch.is_auto w); [|done]. apply head_in, select_in in E as [Hw _]. by eapply keyed_put.
  - destruct (rate_limited _ _ _ _) as [[] st]; [done|].
    destruct (insert_unique _ _ _) as [[t' r]|] eqn:Ei; [|done]. cbn [snd]. by eapply (keyed_insert_unique w_key (new_auto now eco nm) t t' r).
Qed.

Lemma refresh_rows_keyed now eco its t t' : WatchRefresh.insert_all now eco its t = Some t' -> keyed w_key t -> keyed w_key t'.
Proof.
  revert t. induction its as [|it its IH]; intros t; cbn [WatchRefresh.insert_all]; [by intros [= ->]|].
  destruct (insert_unique _ _ _) as [[t1 r]|] eqn:E; [|done]. intros H Hk. eapply IH; [done|]. by eapply (keyed_insert_unique w_key (WatchRefresh.new_watch now eco it) t t1 r).
Qed.

(** The rows the dictionary holds are still there, by id and key, whatever was updated. *)
Definition held (ex : list (string * watch)) (t : wtable) : Prop :=
  forall n w, dget n ex = Some w -> exists r, r ∈ rows t /\ w_id r = w_id w /\ w_key r = w_key w.

Lemma update_held lookup now ex t it : keyed w_key t -> held ex t ->
  keyed w_key (WatchRefresh.update_item lookup now ex t it) /\ held ex (WatchRefresh.update_item lookup now ex t it).
Proof.
  intros Hk Hh. unfold WatchRefresh.update_item. destruct (dget _ ex) as [w|] eqn:E; [|done].
  destruct (Hh _ _ E) as (r & Hr & Hid & Hkey). set (w' := WatchRefresh.update_watch now it w). split; [by eapply (keyed_put _ w' r)|].
  intros n w1 (r1 & Hr1 & Hid1 & Hk1)%Hh. destruct (decide (row_id r1 = row_id w')) as [Ei|Ei].
  - exists w'. split; [by eapply put_self|]. destruct Hk as [Hwf _]. assert (r1 = r) as ->; [|split; [change (w_id w = w_id w1); congruence|]].
    + apply (row_id_inj t); [done..|]. change (w_id r1 = w_id r). change (w_id r1 = w_id w) in Ei. congruence.
    + change (w_key w = w_key w1). congruence.
  - exists r1. split; [by apply put_other|done].
Qed.

Lemma updates_keyed lookup now ex its t : keyed w_key t -> held ex t -> keyed w_key (fold_left (WatchRefresh.update_item lookup now ex) its t).
Proof.
  revert t. induction its as [|it its IH]; intros t Hk Hh; [done|]. cbn [fold_left].
  destruct (update_held lookup now ex t it Hk Hh). by apply IH.
Qed.

Lemma merge_keyed lookup now eco its t t' : WatchRefresh.merge_table lookup now eco its t = Some t' -> keyed w_key t -> keyed w_key t'.
Proof.
  unfold WatchRefresh.merge_table. intros H Hk. destruct (WatchRefresh.insert_all _ _ _ _) as [t1|] eqn:E; [|done].
  injection H as <-. apply keyed_delete, updates_keyed; [by eapply refresh_rows_keyed|].
  intros n w (Hw & _ & _)%WatchRefresh.existing_some. apply WatchRefresh.insert_all_news in E as (_ & ws & E & _). exists w. rewrite E. set_solver.
Qed.

Lemma rebuild_keyed now eco its t t' : WatchRefresh.rebuild_table now eco its t = Some t' -> keyed w_key t -> keyed w_key t'.
Proof. intros H Hk. eapply refresh_rows_keyed; [exact H|by apply keyed_delete]. Qed.

Lemma prune_cap_keyed cfg ecos st : keyed w_key st.2 -> keyed w_key (fold_left (prune_eco cfg) ecos st).2.
Proof.
  revert st. induction ecos as [|eco ecos IH]; intros st Hk; [done|]. cbn [fold_left]. apply IH. unfold prune_eco.
  destruct (_ <=? 0); [done|]. by apply keyed_delete.
Qed.

Lemma janitor_keyed cfg now t : keyed w_key t -> keyed w_key (prune_over_cap cfg (prune_expired cfg now t).2).2.
Proof.
  intros Hk. assert (keyed w_key (prune_expired cfg now t).2) as H1 by (unfold prune_expired; destruct (_ <=? 0); [done|by apply keyed_delete]).
  unfold prune_over_cap. destruct (_ <=? 0); [done|by apply prune_cap_keyed].
Qed.

Lemma backfill_keyed e names st : keyed w_key st.2 -> keyed w_key (fold_left (backfill_one e) names st).2.
Proof.
  revert st. induction names as [|n names IH]; intros [[c rl] t] Hk; [done|]. cbn [fold_left]. apply IH. unfold backfill_one.
  pose proof (add_confirmed_keyed (e_auto e) (e_now e) (e_mono e) n.1 n.2 rl t Hk) as H. by destruct (add_confirmed_malicious _ _ _ _ _ _ _ _) as [[s rl'] t'].
Qed.

(** *** Scopes *)

Lemma add_scope_keyed now eco sc src t : keyed scope_key t -> keyed scope_key (add_scope now eco sc src t).2.
Proof.
  intros Hk. unfold add_scope. destruct (negb _); [done|]. destruct (find_scope _ _ t) as [r|] eqn:E; cbn [snd].
  - apply head_in, select_in in E as [Hr _]. by eapply (keyed_put _ _ r).
  - apply keyed_insert; [done| |done]. intros r Hr [= He Hs].
    assert (select (fun r => String.eqb (s_ecosystem r) eco && String.eqb (lower (s_scope r)) (normalize_scope eco sc)) t = []) as Hn.
    { unfold find_scope, first in E. by destruct (select _ t). }
    pose proof (proj1 (select_nil _ _) Hn r Hr) as Hf. cbn beta in Hf. by rewrite He, Hs, normalize_lower, !String.eqb_refl in Hf.
Qed.

Lemma auto_watch_keyed env now eco nm t : keyed scope_key t -> keyed scope_key (auto_watch_on_malicious env now eco nm t).2.
Proof.
  intros Hk. unfold auto_watch_on_malicious. destruct (_ || _); [done|]. destruct (scope_of eco nm) as [sc|]; [|done].
  destruct (truthy sc); [by apply add_scope_keyed|done].
Qed.

Lemma remove_scope_keyed eco sc t : keyed scope_key t -> keyed scope_key (remove_scope eco sc t).2.
Proof. intros Hk. unfold remove_scope. destruct (find_scope _ _ t); [by apply keyed_delete|done]. Qed.

(** What the set of the seed loop holds covers the scopes of the table. *)
Definition covers (eco : string) (have : list string) (t : stable) : Prop :=
  forall r, r ∈ rows t -> s_ecosystem r = eco -> lower (s_scope r) ∈ have.

Lemma seed_scopes_keyed now eco scs have n t : covers eco have t -> keyed scope_key t ->
  keyed scope_key (fold_left (Scope.seed_one now eco) scs (have, n, t)).2.
Proof.
  revert have n t. induction scs as [|sc scs IH]; intros have n t Hc Hk; [done|]. cbn [fold_left]. unfold Scope.seed_one at 2. fold (seed_form sc).
  destruct (str_in (seed_form sc) have) eqn:E; [by apply IH|]. apply IH.
  - intros r [Hr| ->]%insert_in He; [right; by apply Hc|]. cbn. rewrite seed_form_lower. by left.
  - apply keyed_insert; [done| |done]. intros r Hr [= He Hs]. specialize (Hc r Hr He). rewrite Hs, seed_form_lower in Hc.
    apply str_in_true in Hc. congruence.
Qed.

Lemma seed_ecos_keyed p now ecos st : keyed scope_key st.2 -> keyed scope_key (fold_left (seed_eco p now) ecos st).2.
Proof.
  revert st. induction ecos as [|eco ecos IH]; intros st Hk; [done|]. cbn [fold_left]. apply IH. unfold seed_eco.
  pose proof (seed_scopes_keyed now eco (wanted p eco) (load_scopes eco st.2) st.1 st.2) as H.
  destruct (fold_left _ _ _) as [[h m] t']. apply H; [|done]. intros r Hr He. apply load_scopes_in. eauto.
Qed.

Lemma seed_baseline_keyed p now t : keyed scope_key t -> keyed scope_key (seed_baseline p now t).2.
Proof. intros Hk. by apply seed_ecos_keyed. Qed.

(** *** The focus list *)

Lemma upsert_one_keyed now eco t en : keyed fo_key t -> keyed fo_key (upsert_one now eco t en).
Proof.
  intros Hk. unfold upsert_one. destruct (first _ t) as [r|] eqn:E.
  - apply head_in, select_in in E as [Hr _]. by eapply (keyed_put _ _ r).
  - apply keyed_insert; [done| |done]. intros r Hr [= He Hn].
    assert (select (fun r => in_eco eco r && String.eqb (fo_name r) (e_name en)) t = []) as Hs by (unfold first in E; by destruct (select _ t)).
    pose proof (proj1 (select_nil _ _) Hs r Hr) as Hf. unfold in_eco in Hf. by rewrite He, Hn, !String.eqb_refl in Hf.
Qed.

Lemma upsert_keyed now eco es t : keyed fo_key t -> keyed fo_key (upsert_focus now eco es t).2.
Proof.
  unfold upsert_focus. cbn [snd]. revert t. induction es as [|en es IH]; intros t Hk; [done|]. cbn [fold_left]. by apply IH, upsert_one_keyed.
Qed.

Lemma clear_keyed eco t : keyed fo_key t -> keyed fo_key (clear_focus eco t).2.
Proof. apply keyed_delete. Qed.

Lemma sync_keyed now eco es t : keyed fo_key t -> keyed fo_key (sync_focus now eco es t).2.
Proof. intros Hk. by apply upsert_keyed, clear_keyed. Qed.

Lemma load_sections_keyed e auth sections t : keyed fo_key t -> keyed fo_key (fold_left (load_section e auth) sections t).
Proof.
  revert t. induction sections as [|kv sections IH]; intros t Hk; [done|]. cbn [fold_left]. apply IH. unfold load_section.
  destruct auth; [by apply sync_keyed|by apply upsert_keyed].
Qed.

Lemma apply_file_keyed now text t : keyed fo_key t -> keyed fo_key (apply_focus_file now text t).2.
Proof.
  intros Hk. unfold apply_focus_file. destruct (parse_combined_focus_file text) as [|sections]; [done|]. cbn [snd]. revert t Hk.
  induction sections as [|kv sections IH]; intros t Hk; [done|]. cbn [fold_left]. by apply IH, sync_keyed.
Qed.

(** *** The maintainer watches *)

Lemma add_watch_keyed now eco nm m t : keyed mw_key t -> keyed mw_key (add_watch (fun t => t) now eco nm m t).2.
Proof.
  intros Hk. unfold add_watch. destruct (negb _); [done|]. destruct (first _ t) as [w|] eqn:E.
  - apply head_in, select_in in E as [Hw _]. by eapply (keyed_put _ _ w).
  - destruct (insert_unique _ _ t) as [[t' r]|] eqn:Ei; [|done]. by eapply (keyed_insert_unique mw_key (fun i => mkMw i eco nm m now) t t' r).
Qed.

Lemma register_keyed cfg now eco m sibs t : keyed mw_key t -> keyed mw_key (register_clean_watches cfg now eco m sibs t).2.
Proof.
  intros Hk. unfold register_clean_watches. destruct (negb _); [done|]. generalize 0 as n. revert t Hk.
  induction sibs as [|s sibs IH]; intros t Hk n; [done|]. cbn [fold_left]. unfold register_watch at 2. cbn [fst snd].
  destruct (blocklisted _ _ _); [by apply IH|]. by apply IH, add_watch_keyed.
Qed.

Lemma mw_prune_keyed cfg now d t : keyed mw_key t -> keyed mw_key (mw_prune cfg now d t).2.
Proof.
  intros Hk. unfold mw_prune. assert (keyed mw_key (delete_where (dead cfg now d) t)) as H by by apply keyed_delete.
  destruct (0 <? _); [|done]. set (st := (_, _)). assert (keyed mw_key st.2) as Hs by done. clearbody st. revert st Hs.
  induction MW_SUPPORTED as [|eco ecos IH]; intros st Hs; [done|]. cbn [fold_left]. apply IH. unfold cap_eco.
  destruct (0 <? _); [by apply keyed_delete|done].
Qed.

(** *** Fingerprints *)

Lemma seed_pack_wf now es t a u t' : seed_pack now es t = Some (a, u, t') -> table_wf t -> table_wf t'.
Proof. intros H Hwf. by apply (seed_all_spec _ _ _ _ _ _ _ _ Hwf) in H as (? & _). Qed.

Lemma tlsh_wf v by_sha contents st : table_wf st.2 -> table_wf (fold_left (tlsh_file v by_sha) contents st).2.
Proof.
  revert st. induction contents as [|c cs IH]; intros st Hwf; [done|]. cbn [fold_left]. apply IH. unfold tlsh_file.
  destruct (dget _ _ ≫= _) as [r|]; [|done]. destruct (_ || _); [done|]. destruct (va_tlsh v c) as [tl|]; [|done].
  destruct (_ && _); [by apply table_wf_put|done].
Qed.

Lemma backfill_tlsh_wf v t : table_wf t -> table_wf (backfill_tlsh_from_vault v t).2.
Proof.
  intros Hwf. unfold backfill_tlsh_from_vault. destruct (negb _); [done|]. destruct (va_zips v) as [zips|]; [|done].
  destruct (fold_left _ (select untagged t) []) as [|x l]; [done|]. set (tokens := dedup _). clearbody tokens.
  set (st := (0, 0, t)). assert (table_wf st.2) as Hs by done. clearbody st. revert st Hs.
  induction (py_sorted zips) as [|z zs IH]; intros st Hs; [done|]. cbn [fold_left]. apply IH. unfold tlsh_zip.
  destruct (negb _); [done|]. destruct (va_inner v z) as [cs ok]. pose proof (tlsh_wf v (x :: l) cs (st.1.2, st.2) Hs) as H.
  by destruct (fold_left (tlsh_file _ _) _ _).
Qed.

(** Seeding from history is switched off in the code. *)
Lemma backfill_off e limit d : backfill e limit d = ((backfill e limit d).1.1, 0, intel_hashes d).
Proof.
  unfold backfill. assert (forall rs st, fold_left (seed_past e d) rs st = st) as Hf.
  { induction rs as [|[[sc v] pk] rs IH]; intros [n t]; [done|]. cbn [fold_left]. rewrite IH. unfold seed_past, seed_from_scan. cbn. by rewrite Z.add_0_r. }
  by rewrite Hf.
Qed.

(** *** The scan queue *)

Lemma enqueue_inv cfg faults now eco nm ver p b U t :
  queue_inv true (QState t U) -> queue_inv true (QState (ScanQueue.enqueue cfg quiet faults now eco nm ver p b t).2 U).
Proof. apply (qstep_inv cfg true). by apply ScanQueue.step_enqueue. Qed.

Lemma enqueue_batch_inv cfg faults now eco U j its q rs q' :
  enqueue_batch cfg faults now eco j its q = Some (rs, q') -> queue_inv true (QState q U) -> queue_inv true (QState q' U).
Proof.
  revert j q rs. induction its as [|[[nm ver] p] its IH]; intros j q rs; cbn [enqueue_batch]; [by intros [= _ <-]|].
  intros H Hi. pose proof (enqueue_inv cfg (faults j) now eco nm ver p false U q Hi) as H1.
  destruct (ScanQueue.enqueue _ _ _ _ _ _ _ _ _ _) as [[r|msg] q1]; [|done]. cbn [snd] in H1.
  destruct (enqueue_batch _ _ _ _ _ _ q1) as [[rs1 q2]|] eqn:E; [|done]. injection H as _ <-. by eapply IH.
Qed.

Lemma enqueue_pins_inv e U k sections n q m q' :
  enqueue_pins e k sections n q = Some (m, q') -> queue_inv true (QState q U) -> queue_inv true (QState q' U).
Proof.
  revert k n q. induction sections as [|[eco es] rest IH]; intros k n q; cbn [enqueue_pins]; [by intros [= _ <-]|].
  destruct (enqueue_batch _ _ _ _ _ _ q) as [[rs q1]|] eqn:E; [|done]. intros H Hi. eapply IH; [exact H|]. by eapply enqueue_batch_inv.
Qed.

Lemma enqueue_catalog_inv cfg o eco ex U k j catalog q m q' :
  enqueue_catalog cfg o eco ex k j catalog q = Some (m, q') -> queue_inv true (QState q U) -> queue_inv true (QState q' U).
Proof.
  revert k j q m. induction catalog as [|[nm ver] rest IH]; intros k j q m; cbn [enqueue_catalog]; [by intros [= _ <-]|].
  destruct (String.eqb _ _); [apply IH|]. destruct (_ && late o k); [by intros [= _ <-]|]. cbv zeta.
  destruct (if _ : bool then pypi_latest_version o nm else Some ver) as [v|]; [|done]. destruct (negb (truthy v)); [apply IH|].
  intros H Hi. pose proof (enqueue_inv (pv_queue cfg) (MaintPivot.faults o j) (MaintPivot.clock o) eco nm v PHigh false U q Hi) as H1.
  destruct (ScanQueue.enqueue _ _ _ _ _ _ _ _ _ _) as [r q1]. cbn [snd] in H1.
  destruct (enqueue_catalog _ _ _ _ _ _ rest q1) as [[n1 q2]|] eqn:E; [|done]. injection H as _ <-. by eapply IH.
Qed.

(** A row taken under a token nobody carries, whatever its state was. *)
Lemma take_over_inv now tok r t U : tok ∉ U -> r ∈ rows t -> queue_inv true (QState t U) ->
  queue_inv true (QState (put (set_claim (Some tok) (Some now) (set_status Claimed r)) t) ({[tok]} ∪ U)).
Proof.
  intros Hf Hr (Hwf & Hu & Hi & Ht). cbn [q_table q_tokens] in *. set (r' := set_claim _ _ _). split_and!; cbn [q_table q_tokens].
  - by apply table_wf_put.
  - by eapply (put_unique t r r').
  - intros x [->|[Hx _]]%put_in; [|by apply row_inv_tokens, Hi].
    destruct (Hi r Hr) as (_ & _ & Ha & _). unfold ScanQueue.row_inv, claim_wf; cbn. split_and!; try done; [set_solver].
  - intros x y tk [->|[Hx Nx]]%put_in [->|[Hy Ny]]%put_in Ex Ey; [done| | |by apply (Ht x y tk)].
    + destruct Hf. cbn in Ex. injection Ex as ->. destruct (Hi y Hy) as (_ & H & _). by apply H.
    + destruct Hf. cbn in Ey. injection Ey as ->. destruct (Hi x Hx) as (_ & H & _). by apply H.
Qed.

Lemma queue_inv_more U tok t : queue_inv true (QState t U) -> queue_inv true (QState t ({[tok]} ∪ U)).
Proof. intros (? & ? & Hi & ?). split_and!; try done. cbn. intros r Hr. by apply row_inv_tokens, Hi. Qed.

Lemma replay_claim_inv e k tok t q r q' U : tok ∉ U -> replay_claim e k tok t q = Some (r, q') ->
  queue_inv true (QState q U) -> queue_inv true (QState q' ({[tok]} ∪ U)).
Proof.
  unfold replay_claim. intros Hf H Hi.
  pose proof (enqueue_inv (e_queue e) (e_faults e k 0) (e_now e) (tg_ecosystem t) (tg_name t) (tg_version t) PHigh true U q Hi) as H1.
  pose proof (enqueue_result_row (e_queue e) quiet (e_faults e k 0) (e_now e) (tg_ecosystem t) (tg_name t) (tg_version t) PHigh true q) as H2.
  destruct (ScanQueue.enqueue _ _ _ _ _ _ _ _ _ _) as [[[x|]|msg] q1]; cbn [snd] in H1; [..|done]; injection H as _ <-.
  - destruct H2 as [_ H2]. exact (take_over_inv (e_now e) tok x q1 U Hf H2 H1).
  - by apply queue_inv_more.
Qed.

(** ** The invariant *)

Section Frames.
Variables (i : ingest_db) (U D : gset string).

Lemma inv_set_queue q U' : queue_inv true (QState q U') -> service_inv (mkService i U D) -> service_inv (mkService (set_queue q i) U' D).
Proof. intros Hq []. by constructor. Qed.
Lemma inv_set_det q D' : det_inv (DState q D') -> service_inv (mkService i U D) -> service_inv (mkService (set_det q i) U D').
Proof. intros Hq []. by constructor. Qed.
Lemma inv_set_watch t : keyed w_key t -> service_inv (mkService i U D) -> service_inv (mkService (set_watch t i) U D).
Proof. intros Hq []. by constructor. Qed.
Lemma inv_set_scopes t : keyed scope_key t -> service_inv (mkService i U D) -> service_inv (mkService (set_scope_table t i) U D).
Proof. intros Hq []. by constructor. Qed.
Lemma inv_set_intel t : table_wf t -> service_inv (mkService i U D) -> service_inv (mkService (set_intel_table t i) U D).
Proof. intros Hq []. by constructor. Qed.
Lemma inv_set_focus t : keyed fo_key t -> service_inv (mkService i U D) -> service_inv (mkService (set_focus t i) U D).
Proof. intros Hq []. by constructor. Qed.
Lemma inv_set_maint t : keyed mw_key t -> service_inv (mkService i U D) -> service_inv (mkService (set_maint t i) U D).
Proof. intros Hq []. by constructor. Qed.
End Frames.

Lemma initial_inv : service_inv initial.
Proof.
  constructor; try apply keyed_empty.
  - apply queue_inv_init.
  - apply det_inv_init.
  - apply table_wf_empty.
Qed.

Lemma job_inv e j i U D : service_inv (mkService i U D) -> service_inv (mkService (run_job e j i) U D).
Proof.
  intros Hi. destruct j; cbn [run_job]; [done|..].
  - eapply inv_set_queue; [|eassumption]. eapply (qstep_inv (e_queue e)); [apply ScanQueue.step_sweep|apply Hi].
  - eapply inv_set_queue; [|eassumption]. eapply (qstep_inv (e_queue e)); [apply ScanQueue.step_prune|apply Hi].
  - eapply inv_set_det; [|eassumption]. eapply dstep_inv; [apply DetQueue.step_sweep|apply Hi].
  - eapply inv_set_det; [|eassumption]. eapply dstep_inv; [apply DetQueue.step_expire|apply Hi].
  - unfold _watchlist_auto_janitor. destruct (negb _); [done|]. apply inv_set_watch; [|done]. apply janitor_keyed, Hi.
  - apply inv_set_maint; [|done]. apply mw_prune_keyed, Hi.
Qed.

Lemma enqueue_one_inv e eco nm ver p i i' U D :
  enqueue_one e eco nm ver p i = Some i' -> service_inv (mkService i U D) -> service_inv (mkService i' U D).
Proof.
  unfold enqueue_one. intros H Hi.
  pose proof (enqueue_inv (e_queue e) (e_faults e 0 0) (e_now e) eco nm ver p true U (i_queue i) (inv_queue _ Hi)) as Hq.
  destruct (ScanQueue.enqueue _ _ _ _ _ _ _ _ _ _) as [[r|msg] q]; [|done]. injection H as <-. by eapply inv_set_queue.
Qed.

Lemma sync_file_inv e f i i' U D : sync_focus_file e f i = Some i' -> service_inv (mkService i U D) -> service_inv (mkService i' U D).
Proof.
  destruct f as [| |text]; cbn [sync_focus_file]; [by intros [= <-]|done|]. intros H Hi.
  pose proof (apply_file_keyed (e_now e) text (i_focus i) (inv_focus _ Hi)) as Hf.
  destruct (apply_focus_file _ _ _) as [[?|sections] t]; [by injection H as <-|]. cbn [snd] in Hf.
  destruct (enqueue_pins _ _ _ _ _) as [[n q]|] eqn:E; injection H as <-; [|done].
  eapply inv_set_queue; [|by apply inv_set_focus]. eapply enqueue_pins_inv; [exact E|apply Hi].
Qed.

Lemma start_inv e pack focus i i' U D : start_up e pack focus i = Some i' -> service_inv (mkService i U D) -> service_inv (mkService i' U D).
Proof.
  unfold start_up. destruct pack as [p|]; [|done]. cbn [mbind option_bind]. intros H Hi.
  assert (service_inv (mkService (seed_scopes e i) U D)) as H1.
  { unfold seed_scopes. destruct (Scope.is_enabled _); [|done]. apply inv_set_scopes; [|done]. apply seed_baseline_keyed, Hi. }
  assert (service_inv (mkService (seed_fingerprints e p (seed_scopes e i)) U D)) as H2.
  { unfold seed_fingerprints. destruct (seed_pack _ _ _) as [[[a u] t]|] eqn:E; [|done]. apply inv_set_intel; [|done].
    eapply seed_pack_wf; [exact E|apply H1]. }
  destruct focus as [f|]; [by eapply sync_file_inv|by injection H as <-].
Qed.

Lemma run_inv e a focus i U D : service_inv (mkService i U D) -> service_inv (mkService (run_cmd e a focus i).2 U D).
Proof.
  intros Hi. unfold run_cmd. destruct (start_up e (a_pack a) (a_file a <$> focus) i) as [i'|] eqn:E; [by eapply start_inv|].
  destruct (a_pack a) as [p|]; [|done]. apply (start_inv e (Some p) None i); [done|exact Hi].
Qed.

Lemma run_sweep_inv cfg o eco nm m size why catalog sibs i U D : pivot_quiet o ->
  service_inv (mkService i U D) -> service_inv (mkService (run_sweep cfg o eco nm m size why catalog sibs i).2 U D).
Proof.
  intros Hq Hi. unfold run_sweep. rewrite !Hq. destruct (enqueue_catalog _ _ _ _ _ _ _ _) as [[n q]|] eqn:E; [|done].
  assert (service_inv (mkService (set_queue q i) U D)) as H1 by (eapply inv_set_queue; [eapply enqueue_catalog_inv; [exact E|apply Hi]|eassumption]).
  cbv zeta. rewrite Hq. pose proof (register_keyed cfg (MaintPivot.clock o) eco m sibs (i_maint (set_queue q i)) (inv_maint _ H1)) as Hk.
  destruct (register_clean_watches _ _ _ _ _ _) as [w t]. destruct (watch_ok o); [by apply inv_set_maint|done].
Qed.

Lemma sweep_inv cfg o eco nm i U D : pivot_quiet o ->
  service_inv (mkService i U D) -> service_inv (mkService (sweep_on_malicious cfg o eco nm [] None true [] i).2 U D).
Proof.
  intros Hq Hi. unfold sweep_on_malicious. rewrite !Hq. cbv zeta.
  repeat (case_match; cbn [snd]; try done).
  match goal with H : run_sweep _ _ _ _ ?m ?s ?w ?c ?b _ = _ |- _ => pose proof (run_sweep_inv cfg o eco nm m s w c b i U D Hq Hi) as Hr; by rewrite H in Hr end.
Qed.

Lemma focus_load_inv e text eco pinned i U D : service_inv (mkService i U D) -> service_inv (mkService (focus_load_cmd e text eco pinned i).2 U D).
Proof.
  intros Hi. unfold focus_load_cmd. destruct text as [text|]; [|done]. destruct (focus_sections text eco) as [r|[sections auth]]; [done|].
  destruct (if pinned then _ else _) as [[enq q]|] eqn:E; [|done]. cbn [snd].
  eapply inv_set_queue; [|apply inv_set_focus; [apply load_sections_keyed, Hi|done]].
  destruct pinned; [eapply enqueue_pins_inv; [exact E|]|injection E as _ <-]; apply Hi.
Qed.

(** *** Commands that only enqueue *)

(** Enqueue calls and moves of a cursor. *)
Inductive enqueues : ingest_db -> ingest_db -> Prop :=
| enq_none i : enqueues i i
| enq_call cfg f now eco nm ver p b i i' :
    enqueues (set_queue (ScanQueue.enqueue cfg quiet f now eco nm ver p b (i_queue i)).2 i) i' -> enqueues i i'
| enq_cursor eco n i i' : enqueues (set_cursor eco n i) i' -> enqueues i i'.

Lemma enqueues_trans i1 i2 i3 : enqueues i1 i2 -> enqueues i2 i3 -> enqueues i1 i3.
Proof. induction 1; [done|intros; eapply enq_call; eauto|intros; eapply enq_cursor; eauto]. Qed.

Lemma enqueues_inv i i' U D : enqueues i i' -> service_inv (mkService i U D) -> service_inv (mkService i' U D).
Proof.
  induction 1 as [i|cfg f now eco nm ver p b i i' _ IH|eco n i i' _ IH]; intros Hi; [done| |]; apply IH.
  - eapply inv_set_queue; [apply enqueue_inv, Hi|exact Hi].
  - by destruct Hi; constructor.
Qed.

Lemma pull_events_enqueues g o exclusive fs ws ms es acc acc' :
  PypiCursor.pull_events g o exclusive fs ws ms es acc = Some acc' -> enqueues acc.2 acc'.2.
Proof.
  revert acc. induction es as [|ev es IH]; intros acc; cbn [PypiCursor.pull_events]; [by intros [= <-]; constructor|].
  destruct (PypiCursor.pull_event _ _ _ _ _ _ ev acc) as [acc1|] eqn:E; [|done]. intros H. eapply enqueues_trans; [|by eapply IH].
  destruct acc as [st i]. unfold PypiCursor.pull_event in E. destruct (negb _); [injection E as <-; constructor|].
  destruct (PypiCursor.gate _ _ _ _ _ _ _ _ _) as [p|]; [|injection E as <-; constructor].
  match type of E with context [ScanQueue.enqueue ?c ?qt ?f ?nw ?ec ?nm ?vr ?pr ?bb ?qq] =>
    pose proof (enq_call c f nw ec nm vr pr bb i _ (enq_none _)) as Hc; destruct (ScanQueue.enqueue c qt f nw ec nm vr pr bb qq) as [[r|msg] q] end; [|done].
  by injection E as <-.
Qed.

Lemma pull_since_enqueues g o exclusive m i : enqueues i (PypiCursor.pull_since g o exclusive m i).2.
Proof.
  unfold PypiCursor.pull_since, PypiCursor.get_last_serial.
  assert (forall serial i1, enqueues i i1 -> enqueues i
    (match PypiCursor.changelog_since_serial o serial with
     | None => (PypiCursor.Polled 0, i1)
     | Some [] => (PypiCursor.Polled 0, i1)
     | Some es =>
         match PypiCursor.pull_events g o exclusive (load_focus_names PypiCursor.ECOSYSTEM (i_focus i1)) (load_scopes PypiCursor.ECOSYSTEM (scopes (i_store i1)))
                 (load_watch_names PypiCursor.ECOSYSTEM (i_maint i1)) (PypiCursor.take_items m es) (PypiCursor.mkPull [] 0 0 0 0 serial, i1) with
         | None => (PypiCursor.PollRaised, i1)
         | Some (st, i2) => (PypiCursor.Polled (PypiCursor.p_enqueued st), if serial <? PypiCursor.p_max st then set_cursor PypiCursor.ECOSYSTEM (PypiCursor.p_max st) i2 else i2)
         end
     end).2) as H.
  { intros serial i1 H1. destruct (PypiCursor.changelog_since_serial o serial) as [[|ev es]|]; [done| |done].
    destruct (PypiCursor.pull_events _ _ _ _ _ _ _ _) as [[st i2]|] eqn:E; [|done]. apply pull_events_enqueues in E. cbn [snd] in *.
    eapply enqueues_trans; [exact H1|]. eapply enqueues_trans; [exact E|]. destruct (_ <? _); [|constructor]. eapply enq_cursor. constructor. }
  destruct (get_cursor _ i) as [n|]; [apply (H n i); constructor|].
  destruct (PypiCursor.changelog_last_serial o) as [n|]; [apply (H n (set_cursor PypiCursor.ECOSYSTEM n i)); eapply enq_cursor; constructor|apply (H 0 i); constructor].
Qed.

Lemma pypi_backfill_enqueues g exclusive log d i : enqueues i (PypiCursor.pypi_backfill g exclusive log d i).2.
Proof.
  unfold PypiCursor.pypi_backfill. generalize (PypiCursor.max_iter d) as left, 0%nat as k, 0 as total. intros left. revert i.
  induction left as [|left IH]; intros i k total; cbn [PypiCursor.pypi_pulls]; [constructor|].
  pose proof (pull_since_enqueues g (log k) exclusive (Some 5000%nat) i) as H.
  destruct (PypiCursor.pull_since _ _ _ _ i) as [[n|] i1]; [|done]. destruct (n =? 0); [done|]. eapply enqueues_trans; [exact H|apply IH].
Qed.

Lemma backfill_cmd_enqueues e a d i : enqueues i (backfill_cmd e a d i).2.
Proof.
  unfold backfill_cmd, backfill_days. cbn [dget]. rewrite decide_True by done.
  pose proof (pypi_backfill_enqueues (a_gate a) (focus_exclusive (e_focus e)) (a_log a) d i) as H.
  by destruct (PypiCursor.pypi_backfill _ _ _ _ _) as [[n|] i1].
Qed.

(** Releases under the name they are listed under: nothing is renamed. *)
Definition unrenamed (rs : list release) : Prop := forall r, r ∈ rs -> original r = canonical r.

Lemma set_same_watches i : set_watches (watches i) i = i.
Proof. destruct i as [s f m c]. by destruct s. Qed.

Lemma enqueue_chunk_enqueues cfg now eco f j rs enq i enq' i' : unrenamed rs ->
  enqueue_chunk cfg now eco f j rs enq i = (enq', Some i') -> enqueues i i'.
Proof.
  revert j enq i. induction rs as [|r rs IH]; intros j enq i Hu; cbn [enqueue_chunk]; [by intros [= _ <-]; constructor|].
  unfold rename_watchlist_to_canonical. rewrite (Hu r) by (by left). rewrite String.eqb_refl. cbn [snd]. rewrite set_same_watches.
  pose proof (enq_call cfg (f j) now eco (canonical r) (rel_version r) PHigh false i _ (enq_none _)) as Hc.
  destruct (ScanQueue.enqueue _ _ _ _ _ _ _ _ _ _) as [[row|msg] q]; [|done]. intros H. eapply enqueues_trans; [exact Hc|].
  eapply IH; [|exact H]. intros x Hx. apply Hu. by right.
Qed.

Lemma enqueue_chunks_enqueues cfg now eco f n k cs enq i : (forall c, c ∈ cs -> unrenamed c) ->
  enqueues i (enqueue_chunks cfg now eco f n k cs enq i).2.
Proof.
  revert k enq i. induction cs as [|c cs IH]; intros k enq i Hu; cbn [enqueue_chunks]; [constructor|].
  assert (forall a enq i, enqueues i (try_chunk cfg now eco (f k) a n c enq i).2) as Ht.
  { clear IH. induction n as [|n' IHn]; intros a enq0 i0; cbn [try_chunk]; [constructor|].
    destruct (enqueue_chunk cfg now eco (f k a) 0 c enq0 i0) as [enq1 [i1|]] eqn:E; [|apply IHn].
    eapply enqueue_chunk_enqueues; [|exact E]. apply Hu. by left. }
  specialize (Ht 0%nat enq i). destruct (try_chunk _ _ _ _ _ _ _ _ _) as [enq1 i1]. eapply enqueues_trans; [exact Ht|]. apply IH. intros x Hx. apply Hu. by right.
Qed.

Lemma pypi_poll_enqueues cfg o limit i : (forall l, Releases.completion o l ≡ₚ l) -> enqueues i (Releases.pypi_poll_watchlist cfg o limit i).2.
Proof.
  intros Ho. unfold Releases.pypi_poll_watchlist. apply enqueue_chunks_enqueues. intros c Hc r Hr.
  eapply chunks_from_elem in Hr; [|exact Hc]. rewrite Ho in Hr. apply list_elem_of_omap in Hr as (n & _ & H).
  destruct (Releases.latest o n) as [v|]; [|done]. destruct (truthy v); [|done]. by injection H as <-.
Qed.

(** The refresh of an empty list and the poll. *)
Lemma scan_watchlist_steps e a limit i : in_some_order a -> exists t,
  enqueues (set_watch t i) (scan_watchlist_cmd e (a_releases a) (fst (a_top a)) (snd (a_top a)) limit i).2 /\
  (t = i_watch i \/ rows (i_watch i) = [] /\ exists its, WatchRefresh.merge_table (fun n => n) (e_now e) "pypi" its (i_watch i) = Some t).
Proof.
  intros Ho.
  assert (forall r t, let q := let '(n, i') := Releases.pypi_poll_watchlist (e_queue e) (a_releases a) (if (limit =? 0)%nat then None else Some limit) (set_watch t i) in (r n, i') in
    enqueues (set_watch t i) (q : reply * ingest_db).2) as Hpoll.
  { intros r t. cbn zeta. pose proof (pypi_poll_enqueues (e_queue e) (a_releases a) (if (limit =? 0)%nat then None else Some limit) (set_watch t i) Ho) as H.
    by destruct (Releases.pypi_poll_watchlist _ _ _ _). }
  unfold scan_watchlist_cmd. cbv zeta. case_bool_decide as Hr; [|exists (i_watch i); split; [apply Hpoll|by left]].
  unfold WatchRefresh.pypi_refresh, WatchRefresh.commit. destruct (snd (a_top a)) as [top|]; [|exists (i_watch i); split; [apply Hpoll|by left]].
  cbv zeta. destruct (WatchRefresh.merge_table _ _ _ _ _) as [t|] eqn:E.
  - exists t. split; [apply Hpoll|right]. split; [done|]. by eexists.
  - exists (i_watch i). split; [cbn [snd]; change (set_watch (i_watch i) i) with (set_watches (watches i) i); rewrite set_same_watches; constructor|by left].
Qed.

Lemma exec_inv e o v a iso st nt c i U D : pivot_quiet o -> in_some_order a -> is_replay c = false ->
  service_inv (mkService i U D) -> service_inv (mkService (exec e o v a iso st nt c i).2 U D).
Proof.
  intros Hq Ho Hc Hi. destruct c; cbn [exec]; try done.
  - by apply run_inv.
  - eapply enqueues_inv; [apply backfill_cmd_enqueues|done].
  - destruct (scan_watchlist_steps e a limit i Ho) as (t & H & Ht). eapply enqueues_inv; [exact H|]. apply inv_set_watch; [|done].
    destruct Ht as [->|(_ & its & Ht)]; [apply Hi|]. eapply merge_keyed; [exact Ht|apply Hi].
  - destruct (enqueue_one _ _ _ _ _ _) eqn:E; [by eapply enqueue_one_inv|done].
  - by apply focus_load_inv.
  - apply inv_set_focus; [apply clear_keyed, Hi|done].
  - pose proof (sweep_inv (e_pivot e) o ecosystem name i U D Hq Hi) as H. by destruct (sweep_on_malicious _ _ _ _ _ _ _ _ _) as [[out r] i'].
  - apply inv_set_maint; [apply keyed_delete, Hi|done].
  - pose proof (add_scope_keyed (e_now e) ecosystem scope "manual" (i_scopes i) (inv_scopes _ Hi)) as H.
    destruct (add_scope _ _ _ _ _) as [s t]. by apply inv_set_scopes.
  - pose proof (remove_scope_keyed ecosystem scope (i_scopes i) (inv_scopes _ Hi)) as H.
    destruct (remove_scope _ _ _) as [n t]. by apply inv_set_scopes.
  - pose proof (seed_baseline_keyed (e_prolific e) (e_now e) (i_scopes i) (inv_scopes _ Hi)) as H.
    destruct (seed_baseline _ _ _) as [n t]. by apply inv_set_scopes.
  - rewrite backfill_off. apply inv_set_intel; [apply Hi|done].
  - pose proof (backfill_tlsh_wf v (i_intel i) (inv_intel _ Hi)) as H.
    destruct (backfill_tlsh_from_vault _ _) as [[n u] t]. by apply inv_set_intel.
  - apply inv_set_intel; [|done]. apply table_wf_update; [done|apply Hi].
  - apply inv_set_intel; [|done]. apply table_wf_delete, Hi.
  - destruct (_check_ecosystem ecosystem); [done|]. apply inv_set_watch; [apply keyed_delete, Hi|done].
  - apply inv_set_watch; [apply keyed_delete, Hi|done].
  - unfold watchlist_auto_backfill_cmd. pose proof (backfill_keyed e (backfill_names (e_now e - days days_) (i_store i)) (mkTally 0 0 0, [], i_watch i) (inv_watch _ Hi)) as H.
    destruct (fold_left _ _ _) as [[c rl] t]. by apply inv_set_watch.
Qed.

Lemma sstep_inv s s' : sstep s s' -> service_inv s -> service_inv s'.
Proof.
  destruct 1; intros Hi.
  - eapply inv_set_queue; [|eassumption]. eapply qstep_inv; [eassumption|apply Hi].
  - eapply inv_set_det; [|eassumption]. eapply dstep_inv; [eassumption|apply Hi].
  - apply inv_set_watch; [apply add_confirmed_keyed, Hi|done].
  - apply inv_set_scopes; [apply auto_watch_keyed, Hi|done].
  - apply inv_set_watch; [eapply merge_keyed; [eassumption|apply Hi]|done].
  - apply inv_set_watch; [eapply rebuild_keyed; [eassumption|apply Hi]|done].
  - by apply job_inv.
  - by eapply start_inv.
  - by apply exec_inv.
  - eapply inv_set_queue; [eapply replay_claim_inv; [done|eassumption|apply Hi]|exact Hi].
  - match goal with H : same_tables _ _ |- _ => destruct H as (E1 & E2 & E3 & E4 & E5 & E6 & E7) end.
    destruct Hi; constructor; cbn [sv sv_tokens sv_det_tokens] in *; by rewrite ?E1, ?E2, ?E3, ?E4, ?E5, ?E6, ?E7.
Qed.

Lemma service_reachable_inv s : rtc sstep initial s -> service_inv s.
Proof.
  intros Hr. remember initial as s0 eqn:E. assert (service_inv s0) as Hi by (subst; apply initial_inv). clear E.
  induction Hr; eauto using sstep_inv.
Qed.

(** *** Claims under way *)

(** The same row under the same claim: only its priority may differ. *)
Record same_claim (r r' : row) : Prop := {
  sc_same_id : id r' = id r;
  sc_same_key : key_of r' = key_of r;
  sc_same_status : jstatus r' = jstatus r;
  sc_same_token : claim_token r' = claim_token r;
  sc_same_time : claimed_at r' = claimed_at r;
  sc_same_attempts : attempts r' = attempts r
}.
#[export] Instance same_claim_preorder : PreOrder same_claim.
Proof. split; [intros r; by constructor|]. intros a b c [] []. constructor; congruence. Qed.

Definition claims_kept (t t' : queue) : Prop :=
  forall r, r ∈ rows t -> jstatus r = Claimed -> exists r', r' ∈ rows t' /\ same_claim r r'.
#[export] Instance claims_kept_preorder : PreOrder claims_kept.
Proof.
  split; [intros t r Hr _; exists r; split; [done|reflexivity]|]. intros t1 t2 t3 H1 H2 r Hr Hs.
  destruct (H1 r Hr Hs) as (r' & Hr' & K1). destruct (H2 r' Hr') as (r'' & Hr'' & K2); [by rewrite (sc_same_status _ _ K1)|].
  exists r''. split; [done|]. by transitivity r'.
Qed.

Lemma bump_same_claim p r : same_claim r (bump_priority p r).
Proof. unfold bump_priority. destruct (_ <? _); by constructor. Qed.

Lemma insert_attempts_kept cfg faults mk n k t : claims_kept t (insert_attempts cfg quiet faults mk n k t).2.
Proof.
  apply insert_attempts_inv; [done| |done]. intros t0 t' r Hk (-> & _)%insert_unique_inv. transitivity t0; [done|].
  intros x Hx _. exists x. split; [apply insert_in; by left|done].
Qed.

(** An enqueue, even of a rescan, leaves the rows that are being scanned under their claims. *)
Lemma enqueue_kept cfg faults now eco nm ver p b t : table_wf t -> claims_kept t (ScanQueue.enqueue cfg quiet faults now eco nm ver p b t).2.
Proof.
  intros Hwf. unfold ScanQueue.enqueue. destruct (first _ t) as [r0|] eqn:E; [|apply insert_attempts_kept].
  destruct (enqueue_existing p b r0) as [r1|] eqn:E1; [|apply insert_attempts_kept]. cbn [snd]. intros r Hr Hs.
  apply head_in, select_in in E as [Hr0 _]. destruct (enq_rel_id _ _ _ (enqueue_existing_rel _ _ _ _ E1)) as [Hid _].
  destruct (decide (id r = id r1)) as [Ei|Ei].
  - assert (r = r0) as -> by (apply (row_id_inj t); [done..|]; change (id r = id r0); congruence). exists r1. split; [by eapply put_self|].
    unfold enqueue_existing, status_in, status_is in E1. rewrite Hs in E1. cbn in E1. destruct b; injection E1 as <-; apply bump_same_claim.
  - exists r. split; [by apply put_other|done].
Qed.

(** What an enqueueing command does to the queue: ids stay unique and claims stand. *)
Definition calm (q q' : queue) : Prop := table_wf q -> table_wf q' /\ claims_kept q q'.
#[export] Instance calm_preorder : PreOrder calm.
Proof.
  split; [by intros q Hwf|]. intros q1 q2 q3 H1 H2 Hwf. destruct (H1 Hwf) as [Hwf2 K1], (H2 Hwf2) as [Hwf3 K2].
  split; [done|]. by transitivity q2.
Qed.

Lemma enqueue_calm cfg faults now eco nm ver p b t : calm t (ScanQueue.enqueue cfg quiet faults now eco nm ver p b t).2.
Proof. intros Hwf. split; [by apply enqueue_wf|by apply enqueue_kept]. Qed.

Lemma enqueue_batch_calm cfg faults now eco j its q rs q' : enqueue_batch cfg faults now eco j its q = Some (rs, q') -> calm q q'.
Proof.
  revert j q rs. induction its as [|[[nm ver] p] its IH]; intros j q rs; cbn [enqueue_batch]; [by intros [= _ <-]|].
  intros H. pose proof (enqueue_calm cfg (faults j) now eco nm ver p false q) as H1.
  destruct (ScanQueue.enqueue _ _ _ _ _ _ _ _ _ _) as [[r|msg] q1]; [|done]. cbn [snd] in H1.
  destruct (enqueue_batch _ _ _ _ _ _ q1) as [[rs1 q2]|] eqn:E; [|done]. injection H as _ <-. transitivity q1; [done|by eapply IH].
Qed.

Lemma enqueue_pins_calm e k sections n q m q' : enqueue_pins e k sections n q = Some (m, q') -> calm q q'.
Proof.
  revert k n q. induction sections as [|[eco es] rest IH]; intros k n q; cbn [enqueue_pins]; [by intros [= _ <-]|].
  destruct (enqueue_batch _ _ _ _ _ _ q) as [[rs q1]|] eqn:E; [|done]. intros H. transitivity q1; [by eapply enqueue_batch_calm|by eapply IH].
Qed.

Lemma enqueue_catalog_calm cfg o eco ex k j catalog q m q' : enqueue_catalog cfg o eco ex k j catalog q = Some (m, q') -> calm q q'.
Proof.
  revert k j q m. induction catalog as [|[nm ver] rest IH]; intros k j q m; cbn [enqueue_catalog]; [by intros [= _ <-]|].
  destruct (String.eqb _ _); [apply IH|]. destruct (_ && late o k); [by intros [= _ <-]|]. cbv zeta.
  destruct (if _ : bool then pypi_latest_version o nm else Some ver) as [v|]; [|done]. destruct (negb (truthy v)); [apply IH|].
  intros H. pose proof (enqueue_calm (pv_queue cfg) (MaintPivot.faults o j) (MaintPivot.clock o) eco nm v PHigh false q) as H1.
  destruct (ScanQueue.enqueue _ _ _ _ _ _ _ _ _ _) as [r q1]. cbn [snd] in H1.
  destruct (enqueue_catalog _ _ _ _ _ _ rest q1) as [[n1 q2]|] eqn:E; [|done]. injection H as _ <-. transitivity q1; [done|by eapply IH].
Qed.

(** *** What a command leaves alone *)

Record spares (i i' : ingest_db) : Prop := {
  sp_queue : calm (i_queue i) (i_queue i');
  sp_det : i_det i' = i_det i;
  sp_watch : table_wf (i_watch i) -> keeps_popularity (i_watch i) (i_watch i')
}.

#[export] Instance spares_refl : Reflexive spares.
Proof. by constructor. Qed.

Lemma spares_queue q i i' : spares i i' -> calm (i_queue i) q -> spares i (set_queue q i').
Proof. intros [] Hq. by constructor. Qed.

Lemma spares_watch t i : (table_wf (i_watch i) -> keeps_popularity (i_watch i) t) -> spares i (set_watch t i).
Proof. intros H. by constructor. Qed.

Lemma sweep_spares cfg o eco nm i : pivot_quiet o -> spares i (sweep_on_malicious cfg o eco nm [] None true [] i).2.
Proof.
  intros Hq. unfold sweep_on_malicious. rewrite !Hq. cbv zeta. repeat (case_match; cbn [snd]; try done).
  match goal with H : run_sweep _ _ _ _ _ _ _ _ _ _ = _ |- _ => revert H end. unfold run_sweep. rewrite !Hq. cbv zeta.
  destruct (enqueue_catalog _ _ _ _ _ _ _ _) as [[n q]|] eqn:E; [|by intros [= _ <-]]. rewrite Hq.
  apply enqueue_catalog_calm in E. destruct (register_clean_watches _ _ _ _ _ _) as [w t1].
  destruct (watch_ok o); intros [= _ <-]; by constructor.
Qed.

Lemma backfill_spares e names st : table_wf st.2 ->
  table_wf (fold_left (backfill_one e) names st).2 /\ keeps_popularity st.2 (fold_left (backfill_one e) names st).2.
Proof.
  revert st. induction names as [|n names IH]; intros [[c rl] t] Hwf; [done|]. cbn [fold_left]. unfold backfill_one at 2 4.
  pose proof (popularity_untouched (e_auto e) (fun t => t) (e_now e) (e_mono e) n.1 n.2 rl t Hwf ltac:(done)) as (H & _).
  assert (table_wf (add_confirmed_malicious (e_auto e) (fun t => t) (e_now e) (e_mono e) n.1 n.2 rl t).2) as Hwf1.
  { unfold add_confirmed_malicious. destruct (negb _); [done|]. destruct (blocklisted _ _ _); [done|]. destruct (first _ t) as [w|].
    - destruct (Watch.is_auto w); [by apply table_wf_put|done].
    - destruct (rate_limited _ _ _ _) as [[] x]; [done|]. destruct (insert_unique _ _ _) as [[t' r]|] eqn:Ei; [|done].
      apply insert_unique_inv in Ei as (-> & _ & _). by apply table_wf_insert. }
  destruct (add_confirmed_malicious _ _ _ _ _ _ _ _) as [[s rl'] t']. cbn [snd] in *. destruct (IH (count_status s c, rl', t') Hwf1) as [Hw Hk].
  split; [done|]. by eapply keeps_trans.
Qed.

Lemma enqueues_calm i i' : enqueues i i' -> calm (i_queue i) (i_queue i') /\ i_det i' = i_det i /\ i_watch i' = i_watch i.
Proof.
  induction 1 as [i|cfg f now eco nm ver p b i i' _ (H1 & H2 & H3)|eco n i i' _ (H1 & H2 & H3)]; [done| |by split_and!].
  split_and!; [|by rewrite H2|by rewrite H3]. etransitivity; [apply enqueue_calm|exact H1].
Qed.

Lemma run_spares e a focus i : spares i (run_cmd e a focus i).2.
Proof.
  assert (forall p, spares i (seed_fingerprints e p (seed_scopes e i))) as Hs.
  { intros p. unfold seed_fingerprints, seed_scopes. destruct (Scope.is_enabled _); destruct (seed_pack _ _ _) as [[[x u] t]|]; by constructor. }
  unfold run_cmd, start_up. destruct (a_pack a) as [p|]; cbn [mbind option_bind]; [|done].
  destruct focus as [f|]; cbn [fmap option_fmap option_map snd]; [|apply Hs].
  unfold sync_focus_file. destruct (a_file a f) as [| |text]; [apply Hs|apply Hs|].
  destruct (apply_focus_file _ _ _) as [[r|sections] t]; [apply Hs|].
  destruct (enqueue_pins _ _ _ _ _) as [[n q]|] eqn:E; [|apply Hs]. cbn [snd]. apply enqueue_pins_calm in E.
  destruct (Hs p) as [H1 H2 H3]. constructor; [etransitivity; [exact H1|exact E]|exact H2|exact H3].
Qed.

Definition may_fill (c : command) : bool := match c with ScanWatchlist _ => true | _ => false end.

Lemma exec_spares e o v a iso st nt c i : pivot_quiet o -> is_replay c = false -> may_fill c = false -> spares i (exec e o v a iso st nt c i).2.
Proof.
  intros Hq Hc Hf. destruct c; cbn [exec]; try done.
  - apply run_spares.
  - destruct (enqueues_calm _ _ (backfill_cmd_enqueues e a days_ i)) as (H1 & H2 & H3). constructor; [exact H1|exact H2|by rewrite H3].
  - unfold enqueue_one. pose proof (enqueue_calm (e_queue e) (e_faults e 0 0) (e_now e) ecosystem package version PHigh true (i_queue i)) as H.
    destruct (ScanQueue.enqueue _ _ _ _ _ _ _ _ _ _) as [[r|msg] q]; [by apply spares_queue|done].
  - unfold focus_load_cmd. destruct text as [text|]; [|done]. destruct (focus_sections text ecosystem) as [r|[sections auth]]; [done|].
    destruct (if enqueue_pinned then _ else _) as [[enq q]|] eqn:E; [|done]. cbn [snd]. apply spares_queue; [by constructor|].
    destruct enqueue_pinned; [by eapply enqueue_pins_calm|by injection E as _ <-].
  - pose proof (sweep_spares (e_pivot e) o ecosystem name i Hq) as H. by destruct (sweep_on_malicious _ _ _ _ _ _ _ _ _) as [[out r] i'].
  - destruct (add_scope _ _ _ _ _). by constructor.
  - destruct (remove_scope _ _ _). by constructor.
  - destruct (seed_baseline _ _ _). by constructor.
  - destruct (backfill _ _ _) as [[n' u] t']. by constructor.
  - destruct (backfill_tlsh_from_vault _ _) as [[n' u] t']. by constructor.
  - destruct (_check_ecosystem ecosystem); [done|]. apply spares_watch. intros Hwf.
    by destruct (popularity_untouched (e_auto e) (fun t => t) 0 0 ecosystem name [] (i_watch i) Hwf ltac:(done)) as (_ & _ & _ & H).
  - apply spares_watch. intros Hwf. apply keeps_delete. by intros w _ [? _]%andb_true_iff.
  - unfold watchlist_auto_backfill_cmd.
    pose proof (backfill_spares e (backfill_names (e_now e - days days_) (i_store i)) (mkTally 0 0 0, [], i_watch i)) as H.
    destruct (fold_left _ _ _) as [[c' rl] t']. apply spares_watch. intros Hwf. by apply H.
Qed.

(** [scan-watchlist] fills a list that is empty, and otherwise leaves it alone. *)
Lemma fill_spares e o v a iso st nt c i : in_some_order a -> may_fill c = true -> let i' := (exec e o v a iso st nt c i).2 in
  calm (i_queue i) (i_queue i') /\ i_det i' = i_det i /\ (i_watch i' = i_watch i \/ rows (i_watch i) = []).
Proof.
  intros Ho Hf. destruct c; try done. cbn [exec]. destruct (scan_watchlist_steps e a limit i Ho) as (t & H & Ht). cbn zeta.
  apply enqueues_calm in H as (H1 & H2 & H3). split_and!; [exact H1|exact H2|].
  destruct Ht as [->|(Hr & _)]; [by left|by right].
Qed.

(** *** Claims that time out *)

Definition expired_claims {X} (timeout now : timestamp) (t : table (job X)) : Prop :=
  forall r at_, r ∈ rows t -> jstatus r = Claimed -> claimed_at r = Some at_ -> at_ < now - timeout.

(** What the sweep makes of one row whose claim, if any, has expired. *)
Record released {X} (limit : Z) (r r' : job X) : Prop := {
  re_id : id r' = id r;
  re_attempts : attempts r' = attempts r;
  re_other : jstatus r <> Claimed -> r' = r;
  re_again : jstatus r = Claimed -> attempts r < limit -> jstatus r' = Pending /\ claim_token r' = None /\ claimed_at r' = None;
  re_failed : jstatus r = Claimed -> limit <= attempts r -> jstatus r' = Failed /\ last_error r' = Some "claim_timeout"
}.

Lemma sweep_releases {X} limit timeout now (t : table (job X)) : (forall r, r ∈ rows t -> claim_wf r) -> expired_claims timeout now t ->
  (forall r, r ∈ rows t -> exists r', r' ∈ rows (job_sweep limit timeout now t).2 /\ released limit r r') /\
  (forall r', r' ∈ rows (job_sweep limit timeout now t).2 -> jstatus r' <> Claimed /\ exists r, r ∈ rows t /\ released limit r r').
Proof.
  intros Hwf Hold.
  assert (forall r, r ∈ rows t -> let r' := if stale timeout now r then release_stale limit now r else r in
    released limit r r' /\ jstatus r' <> Claimed) as Hone.
  { intros r Hr. cbn zeta.
    assert (stale timeout now r = bool_decide (jstatus r = Claimed)) as ->.
    { unfold stale, status_is. case_bool_decide as E; [|done]. destruct (Hwf r Hr) as [Hc _]. destruct (Hc E) as [_ [t0 Hct]].
      rewrite Hct. cbn. apply Z.ltb_lt. by eapply Hold. }
    case_bool_decide as E; [|split; [constructor; naive_solver|done]]. unfold release_stale.
    destruct (Z.leb_spec limit (attempts r)); (split; [constructor; cbn; try done; intros; lia|done]). }
  split.
  - intros r Hr. eexists. split; [apply update_where_in; exists r; done|]. by apply Hone.
  - intros r' (r & Hr & ->)%update_where_in. destruct (Hone r Hr) as [H1 H2]. split; [done|]. exists r. done.
Qed.

(** ** Properties *)


(** C26. The work of a crashed process is taken up again.  In every reachable state, once every claim
    is older than its timeout, the two claim sweeps of the scheduler leave no row claimed; each claimed
    scan and detonation is pending again without a token, or failed where its attempts are used up,
    and no other row is changed, added or lost. *)
Theorem crash_recovery e s (Hs : rtc sstep initial s)
  (Hq : expired_claims (seconds ScanQueue.STALE_CLAIM_TIMEOUT_SECONDS) (e_now e) (i_queue (sv s)))
  (Hd : expired_claims (seconds DetQueue.STALE_CLAIM_TIMEOUT_SECONDS) (e_now e) (i_det (sv s))) :
  let i := sv s in let i' := run_job e DetClaimSweep (run_job e ClaimSweep i) in
  ((forall r, r ∈ rows (i_queue i) -> exists r', r' ∈ rows (i_queue i') /\ released ScanQueue.MAX_AUTO_ATTEMPTS r r') /\
   (forall r', r' ∈ rows (i_queue i') -> jstatus r' <> Claimed /\ exists r, r ∈ rows (i_queue i) /\ released ScanQueue.MAX_AUTO_ATTEMPTS r r')) /\
  ((forall r, r ∈ rows (i_det i) -> exists r', r' ∈ rows (i_det i') /\ released DetQueue.MAX_AUTO_ATTEMPTS r r') /\
   (forall r', r' ∈ rows (i_det i') -> jstatus r' <> Claimed /\ exists r, r ∈ rows (i_det i) /\ released DetQueue.MAX_AUTO_ATTEMPTS r r')).
Proof.
  destruct (service_reachable_inv s Hs) as [(_ & _ & Hr & _) (_ & _ & Hr' & _) _ _ _ _ _]. cbn zeta. split.
  - apply sweep_releases; [|done]. intros r Hin. apply Hr, Hin.
  - apply sweep_releases; [|done]. intros r Hin. apply Hr', Hin.
Qed.


(** ** Concrete runs *)

Definition ex_env : Env :=
  mkEnv default_config default_auto default_mw (ex_pivot (Some "0")) None None None (seconds 10000) 0 Finalize.ex_settings (fun _ _ _ => None).
Definition ex_vault : Vaulted := mkVaulted false None (fun _ => ([], true)) (fun _ => "") (fun _ => None).
Definition ex_around : Around :=
  mkAround default_gate (fun _ => PypiCursor.mkPypiOutside None (fun _ => None) (fun _ _ => None) 5)
    (Releases.mkOut (fun _ => Some "1.0") (fun l => l) (fun _ _ _ _ => None) 5) (10%nat, None) None (fun _ => FileMissing)
    (Some [mkTarget "npm" "left-pad" "1.0"]) (fun _ => None) (fun _ _ => inr "no disk") (fun _ => "") (fun _ => "tok-r") (fun _ => None)
    (fun _ _ _ _ w => w) (fun d => Finalize.mkWorld d [] []) (fun _ => "") (fun _ => "") ("15.0", "3600.0").
Definition ex_exec (c : command) (i : ingest_db) : reply * ingest_db := exec ex_env ex_out ex_vault ex_around show show 0 c i.

Definition ex_claimed : row := Job 1 "npm" "left-pad" "1.0" tt PNormal Claimed 1 (Some "tok-a") None 10 (Some 20) None.
Definition ex_busy : ingest_db := set_queue (Table [ex_claimed] 2) (mkIngest empty_db empty_table empty_table []).

(** A worker claims what an operator enqueued, and dies. *)
Definition ex_enqueued : ingest_db := (ex_exec (RescanCmd "npm" "left-pad" "1.0") (sv initial)).2.
Definition ex_crashed : service := mkService (set_queue (ScanQueue.cas_claim 20 "tok-a" 1 (i_queue ex_enqueued)).2 ex_enqueued) ({["tok-a"]} ∪ ∅) ∅.

Lemma ex_pivot_quiet : pivot_quiet ex_out.
Proof. done. Qed.

Lemma ex_crashed_reachable : rtc sstep initial ex_crashed.
Proof.
  eapply rtc_l; [apply (svc_command ex_env ex_out ex_vault ex_around show show 0 (RescanCmd "npm" "left-pad" "1.0")); [apply ex_pivot_quiet|by intros l|done]|].
  apply rtc_once. apply (svc_queue default_config). apply ScanQueue.step_claim. set_solver.
Qed.


Lemma crash_recovery_witness : exists r', r' ∈ rows (i_queue (run_job ex_env DetClaimSweep (run_job ex_env ClaimSweep (sv ex_crashed)))) /\
  jstatus r' = Pending /\ claim_token r' = None.
Proof.
  destruct (crash_recovery ex_env ex_crashed ex_crashed_reachable) as [[H _] _].
  - intros r t Hr _ Ht. apply list_elem_of_singleton in Hr as ->. injection Ht as <-. by vm_compute.
  - intros r t Hr. by apply elem_of_nil in Hr.
  - destruct (H (ScanQueue.take 20 "tok-a" (new_row (seconds 10000) "npm" "left-pad" "1.0" PHigh 1))) as (r' & Hr & [_ _ _ Ha _]); [by apply list_elem_of_singleton|].
    exists r'. split; [exact Hr|]. destruct Ha as (H1 & H2 & _); [done|done|]. split; [exact H1|exact H2].
Defined.


(** A replay takes a row from the worker that scans it: the package is scanned twice at once, and the worker cannot complete. *)
Example replay_steals_claim :
  let r := ex_exec (ReplayCmd ["left-pad"] None None None false false) ex_busy in
  fst r = Echo ["replaying 1 vaulted sample(s) through the real pipeline..."; "  replayed npm/left-pad@1.0"; "done — malicious verdicts fire Discord alerts"] /\
  map (fun x => (jstatus x, claim_token x, attempts x, fst (ScanQueue.mark_done 30 x (Some "tok-a") (i_queue (snd r))))) (rows (i_queue (snd r))) =
    [(Claimed, Some "tok-r", 1, false)].
Proof. by vm_compute. Qed.

(** History for the backfill: one scan of [evil], convicted twice, with the given findings and confidence. *)
Definition ex_llm (conf : double) : LlmColumns := mkLlm VMalicious conf "because" (Some true) 0 0 [] (QArith_base.Qmake 0 1).
Definition ex_history (conf : double) (fs : list Finding) : db :=
  set_findings (Table (map (fun f => mkFindingRow 1 1 f) fs) 2)
    (set_scans (Table [mkScan 1 1 5 (Some 9) VMalicious 80 None (Some (ex_llm conf))] 2)
      (set_versions (Table [mkVersion 1 "npm" 1 "1.0" 0 no_meta] 2) (set_packages (Table [mkPackage 1 "npm" "evil" 0] 2) empty_db))).
Definition ex_cat (c : string) : Finding := mkFinding "r" c SHigh CHigh "a.js" None "".
Definition ex_tri (conf : double) : option LLMTriageResult := Some (mkResult VMalicious conf "because" "" [] None 0 0 (QArith_base.Qmake 0 1)).
Definition f_0_1 : double := S754_finite false 7205759403792794 (-56).

(** The backfill is said to mirror the live bar.  It has no floor for the model's confidence, and no
    second way in for two soft categories. *)
Example backfill_bar_differs :
  backfill_names 0 (ex_history f_0_1 [ex_cat "malware"]) = [("npm", "evil")] /\
  auto_watchlist_qualifies f_0_7 VMalicious (ex_tri f_0_1) [ex_cat "malware"] = (false, "llm_confidence_below_floor") /\
  backfill_names 0 (ex_history f_one [ex_cat "iocs"; ex_cat "dep_intel"]) = [] /\
  auto_watchlist_qualifies f_0_7 VMalicious (ex_tri f_one) [ex_cat "iocs"; ex_cat "dep_intel"] = (true, "ok").
Proof. by vm_compute. Qed.

(** It goes through the limiter of the live pipeline, so a long history is cut off at the hourly rate. *)
Example backfill_rate_limited :
  let e := mkEnv default_config (mkAuto None None 180 5000 1) default_mw (ex_pivot None) None None None 100 0 Finalize.ex_settings (fun _ _ _ => None) in
  (fold_left (backfill_one e) [("npm", "a"); ("npm", "b"); ("npm", "c")] (mkTally 0 0 0, [], empty_table)).1.1 = mkTally 1 0 2.
Proof. by vm_compute. Qed.

Definition ex_registry : Releases.outside := Releases.mkOut (fun _ => Some "1.0") (fun l => l) (fun _ _ _ _ => None) 5.

(** The table counts as filled when any registry has a row in it: then nothing is fetched, and nothing enqueued. *)
Example scan_watchlist_unfilled :
  let i := set_watch (Table [mkWatch 1 "npm" "react" 1 0 0] 2) (mkIngest empty_db empty_table empty_table []) in
  (scan_watchlist_cmd ex_env ex_registry 10 (Some WatchRefresh.ex_top) 0 i).1 = Echo ["enqueued 0 packages"] /\
  (scan_watchlist_cmd ex_env ex_registry 10 (Some WatchRefresh.ex_top) 0 (sv initial)).1 =
    Echo ["watchlist empty — refreshing from PyPI..."; "enqueued 2 packages"].
Proof. by vm_compute. Qed.

(** A focus file that is no UTF-8 stops the start; one that does not parse is logged. *)
Example unreadable_focus_stops (p : IntelPack) : start_up ex_env (Some p) (Some FileUnreadable) (sv initial) = None /\
  is_Some (sync_focus_file ex_env (FileText "stray line") (sv initial)).
Proof. split; [done|by eexists]. Qed.

Example focus_load_ex :
  (ex_exec (FocusLoad (Some ("[npm]" +:+ String LF "axios==1.1" +:+ String LF "[pypi]" +:+ String LF "flask")) None true) (sv initial)).1 =
    Echo ["loaded 2 focus entries (npm, pypi) — 1 pinned versions enqueued"] /\
  (ex_exec (FocusLoad (Some "axios") (Some "maven") true) (sv initial)).1 = BadParameter "ecosystem must be one of ('pypi', 'crates', 'gomod', 'npm')".
Proof. by vm_compute. Qed.

Example replay_guard_ex :
  let many := repeat (mkTarget "npm" "x" "1") 21 in
  (exists l, replay_targets true many [] None None None true false = inl (Exit l)) /\ replay_targets true many [] None None None true true = inr many /\
  (exists m, replay_targets true many [] None None None false true = inl (BadParameter m)) /\
  replay_targets true [mkTarget "npm" "x" "1"; mkTarget "pypi" "x" "2"] ["x"] None None (Some "pypi") false false = inr [mkTarget "pypi" "x" "2"].
Proof. vm_compute. split_and!; by eexists || done. Qed.
