(* ===== verification/Detonate.v ===== *)
(** * Staging and the sandbox service ([detonation_staging.py], [detonate/client.py], detonation_worker.py)

    How the bytes of a sample reach the sandbox, across two users of one
    machine, and how its answer becomes the outcome that DetWorker.v settles a
    job by: the staging directory with its modes, the client of the service, the
    choice between vault and registry, and one round of the worker's loop. *)
From S2P Require Import Prelude PyStr Text Sql Findings Json Jobs DetQueue Intel Score Store Pipeline Finalize Process Vault DetWorker.
From Stdlib Require Import Ascii.

Open Scope string_scope.
Open Scope list_scope.
Open Scope Z_scope.

(** ** Files with modes *)

Inductive node := Dir (mode : Z) | File (mode : Z) (content : list Z).
(** Paths by their parts below the root directory. *)
Abbreviation files := (gmap (list string) node).

(** [0o755] and [0o644]. *)
Definition DIR_MODE : Z := 493.
Definition FILE_MODE : Z := 420.
(** What [mkdir] ([0o777]), [mkdtemp] ([0o700]) and [open] ([0o666]) ask for, less the mask of the process. *)
Definition masked (umask mode : Z) : Z := Z.land mode (Z.lnot umask).

Definition chmod (mode : Z) (n : node) : node := match n with Dir _ => Dir mode | File _ c => File mode c end.

(** Bits of the mode for users that are neither owner nor in the group. *)
Definition others_search (n : node) : bool := match n with Dir m => Z.testbit m 0 | File _ _ => false end.
Definition others_list (n : node) : bool := match n with Dir m => Z.testbit m 2 | File _ _ => false end.
Definition others_read (n : node) : bool := match n with Dir _ => false | File m _ => Z.testbit m 2 end.

(** The directories on the way to a path. *)
Definition ancestors (p : list string) : list (list string) := map (fun n => List.firstn n p) (List.seq 1 (List.length p - 1)).
Definition open_to_others (t : files) (p : list string) : bool :=
  forallb (fun d => match t !! d with Some n => others_search n | None => false end) (ancestors p).
(** What a user with none of the scanner's rights reads. *)
Definition read_by_others (t : files) (p : list string) : option (list Z) :=
  match t !! p with
  | Some (File m c) => if open_to_others t p && others_read (File m c) then Some c else None
  | _ => None
  end.

(** ** Staging ([detonation_staging.py]) *)

(** [mkdir(parents=True, exist_ok=True)]: [None] where a file is in the way. *)
Fixpoint mkdirs (umask : Z) (base rest : list string) (t : files) : option files :=
  match rest with
  | [] => Some t
  | p :: rest' =>
      let d := base ++ [p] in
      match t !! d with
      | Some (Dir _) => mkdirs umask d rest' t
      | Some (File _ _) => None
      | None => mkdirs umask d rest' (<[d := Dir (masked umask 511)]> t)
      end
  end.

Section Staging.
Variable umask : Z.
(** [tempfile.gettempdir()], and the name [mkdtemp] finds free; [None]: it raises. *)
Variable tmp : list string.
Variable free_name : files -> string -> option string.

Definition STAGING_ROOT : list string := tmp ++ ["pkgward"].

Definition staging_dir (prefix : string) (t : files) : option (list string) * files :=
  match mkdirs umask [] STAGING_ROOT t with
  | None => (None, t)
  | Some t =>
      match free_name t prefix with
      | None => (None, t)
      | Some n =>
          let d := STAGING_ROOT ++ [n] in
          (Some d, alter (chmod DIR_MODE) d (<[d := Dir (masked umask 448)]> t))
      end
  end.

(** Names that open for writing in an empty directory. *)
Definition NUL : ascii := chr 0.
Definition is_file_name (n : string) : bool :=
  truthy n && negb (String.eqb n "..") && negb (has_char NUL n) && (len n <=? 255)%nat.

(** [None]: an exception; what was made before it stays. *)
Definition stage_bytes (data : list Z) (inner_name prefix : string) (t : files) : option (list string) * files :=
  match staging_dir prefix t with
  | (None, t) => (None, t)
  | (Some d, t) =>
      let n := path_name inner_name in
      let dest := d ++ [n] in
      if negb (is_file_name n) then (None, t)
      else (Some dest, alter (chmod FILE_MODE) dest (<[dest := File (masked umask 438) data]> t))
  end.

(** ** Vault or registry *)

Definition str_path (p : list string) : string := "/" +:+ join "/" p.

Inductive staged := NotVaulted | Staged (a : ArchivePath) | StageRaised (err : string).

Definition _stage_from_vault (vault_enabled : bool) (sha256_hex : list Z -> string) (vault : list (string * list Z))
    (job : det_job) (t : files) : staged * files :=
  match read_archive vault_enabled (dj_ecosystem job) (dj_name job) (dj_version job) vault with
  | None => (NotVaulted, t)
  | Some (data, inner) =>
      match stage_bytes data inner "vault-" t with
      | (None, t) => (StageRaised "OSError", t)
      | (Some dest, t) => (Staged (mkArchive (str_path dest) (dj_archive_kind job) (sha256_hex data)), t)
      end
  end.

End Staging.

(** ** The client ([detonate/client.py]) *)

Record client := mkClient { c_socket : option string; c_url : option string }.
(** [DetonationClient(socket_path, base_url)] in an environment. *)
Definition new_client (socket_path base_url env_socket env_url : option string) : client :=
  mkClient (match socket_path with Some s => Some s | None => env_socket end)
           (match base_url with Some u => Some u | None => env_url end).
Definition is_enabled (c : client) : bool := bool_decide (is_Some (c_socket c)) || bool_decide (is_Some (c_url c)).

Inductive transport := UnixSocket (path : string) | BaseUrl (url : string).
Definition _make_client (c : client) : transport :=
  if otruthy (c_socket c) then UnixSocket (ostr (c_socket c)) else BaseUrl (ostr (c_url c)).

(** An answer: a failure of the request, or a status with the body as [resp.json()] reads it. *)
Inductive http_answer := RequestFailed (err : string) | Answered (status : Z) (body : option json).

Record PhaseResult := mkPhase { exit_code : json; duration_ms : json; timed_out : json }.
Record service_result := mkResult {
  detonation_id : json;
  status_ : json;
  install_phase : option PhaseResult;
  import_phase : option PhaseResult;
  findings_json : json;
  trace_events_json : json;
  total_trace_events : json;
  filtered_trace_events : Z;
}.

(** [None] is an exception: [.get] of a value that is no object. *)
Definition _phase (data : list (string * json)) (k : string) : option (option PhaseResult) :=
  let v := jget k data JNull in
  if negb (json_truthy v) then Some None
  else match v with
  | JObj p => Some (Some (mkPhase (jget "exit_code" p (JInt (-1))) (jget "duration_ms" p (JInt 0)) (jget "timed_out" p (JBool false))))
  | _ => None
  end.
(** [len(x)]. *)
Definition size (v : json) : option Z :=
  match v with
  | JArr l => Some (Z.of_nat (List.length l))
  | JObj l => Some (Z.of_nat (List.length (dedup l.*1)))
  | JStr s => Some (Z.of_nat (len s))
  | _ => None
  end.
Definition _parse_result (v : json) : option service_result :=
  match v with
  | JObj data =>
      install ← _phase data "install_phase";
      imp ← _phase data "import_phase";
      let trace_events := json_or (jget "trace_events" data JNull) (JArr []) in
      total ← match jget "trace_summary" data (JObj []) with JObj s => Some (jget "total_events" s (JInt 0)) | _ => None end;
      n ← size trace_events;
      Some (mkResult (jget "id" data (JStr "")) (jget "status" data (JStr "error")) install imp
        (jget "findings" data (JArr [])) trace_events total n)
  | _ => None
  end.

Section Client.
(** The service: what it answers to a request on a transport. *)
Variable get : transport -> string -> http_answer.
Variable post : transport -> string -> list (string * json) -> http_answer.

Definition health (c : client) : bool :=
  is_enabled c && match get (_make_client c) "/api/v1/health" with Answered status _ => status =? 200 | RequestFailed _ => false end.

Definition payload (eco nm version archive_path archive_kind : string) (timeout_seconds : Z) : list (string * json) :=
  [("ecosystem", JStr eco); ("name", JStr nm); ("version", JStr version); ("archive_path", JStr archive_path);
   ("archive_kind", JStr archive_kind); ("timeout_seconds", JInt timeout_seconds)].

Inductive detonated := Unavailable | Parsed (r : service_result) | ParseRaised.
Definition detonate (c : client) (eco nm version archive_path archive_kind : string) (timeout_seconds : Z) : detonated :=
  if negb (is_enabled c) then Unavailable
  else match post (_make_client c) "/api/v1/detonate" (payload eco nm version archive_path archive_kind timeout_seconds) with
  | RequestFailed _ => Unavailable
  | Answered status body =>
      if negb (status =? 200) then Unavailable
      else match body with
      | None => Unavailable
      | Some data => match _parse_result data with Some r => Parsed r | None => ParseRaised end
      end
  end.

(** The same over the blocking client. *)
Definition detonate_sync : client -> string -> string -> string -> string -> string -> Z -> detonated := detonate.

(** ** [_fetch_and_detonate] *)

(** The archive to detonate: the kind of the job, or else the first. *)
Definition pick_archive (kind : string) (archives : list ArchivePath) : option ArchivePath :=
  match List.find (fun a => String.eqb (arc_kind a) kind) archives with Some a => Some a | None => head archives end.

Inductive detonation := DNoFiles (msg : string) | DRaised (msg : string) | Detonated (arc : ArchivePath) (r : detonated).

(** The archives to clean up, and how it ended; [fetch] is asked only where the vault has nothing. *)
Definition _fetch_and_detonate (c : client) (job : det_job) (s : staged) (fetch : string -> string -> fetched)
    : list ArchivePath * detonation :=
  let run archives arc :=
    (archives, Detonated arc (detonate c (dj_ecosystem job) (dj_name job) (dj_version job) (arc_path arc) (arc_kind arc) 120)) in
  match s with
  | StageRaised err => ([], DRaised err)
  | Staged arc => run [arc] arc
  | NotVaulted =>
      match fetch (dj_name job) (dj_version job) with
      | NoFilesError msg => ([], DNoFiles msg)
      | IntegrityError msg => ([], DRaised msg)
      | FetchRaised err => ([], DRaised err)
      | FetchOk archives _ =>
          match pick_archive (dj_archive_kind job) archives with
          | None => ([], DNoFiles "no_archives")
          | Some arc => run archives arc
          end
      end
  end.

End Client.

(** ** The answer as the worker reads it *)

(** What the finalising transaction makes of a value: it raises, or it stores
    something; of that, the model describes the values the columns are for. *)
Inductive reading (A : Type) := Typed (a : A) | Raises | Beyond.
Arguments Typed {A}. Arguments Raises {A}. Arguments Beyond {A}.

Definition confidence_of_name (s : string) : option confidence :=
  if String.eqb s "low" then Some CLow else if String.eqb s "medium" then Some CMedium
  else if String.eqb s "high" then Some CHigh else None.

(** [f.get(k, ...)] as a member of an enumeration, or as text. *)
Definition named_field {A} (of_name : string -> option A) (k : string) (o : list (string * json)) : option (option A) :=
  match dget k (rev o) with
  | None => Some None
  | Some (JStr s) => Some <$> of_name s
  | Some _ => None
  end.
Definition text_field (k : string) (o : list (string * json)) : option (option string) := named_field Some k o.

Definition described (o : list (string * json)) (rule : string) : option raw_finding :=
  cat ← text_field "category" o;
  sev ← named_field severity_of_name "severity" o;
  conf ← named_field confidence_of_name "confidence" o;
  file ← text_field "file" o;
  line ← match jget "line" o JNull with JNull => Some None | JInt n => Some (Some n) | _ => None end;
  ev ← text_field "evidence" o;
  Some (mkRaw rule cat sev conf file line ev).
(** [f["rule_id"]] is the one key that is read without a default. *)
Definition read_finding (v : json) : reading raw_finding :=
  match v with
  | JObj o =>
      match dget "rule_id" (rev o) with
      | None => Raises
      | Some (JStr rule) => match described o rule with Some f => Typed f | None => Beyond end
      | Some _ => Beyond
      end
  | _ => Raises
  end.
(** [evt.get]. *)
Definition read_event (v : json) : reading (list (string * json)) := match v with JObj o => Typed o | _ => Raises end.

Definition raises {A} (r : reading A) : bool := match r with Raises => true | _ => false end.
Definition typed {A} (r : reading A) : option A := match r with Typed a => Some a | _ => None end.
(** A loop over a decoded value. *)
Definition read_all {A} (read : json -> reading A) (v : json) : reading (list A) :=
  match v with
  | JArr l =>
      if existsb (fun x => raises (read x)) l then Raises
      else match mapM (fun x => typed (read x)) l with Some rs => Typed rs | None => Beyond end
  | JObj [] | JStr EmptyString => Typed []
  | _ => Raises
  end.

Definition result_of (r : service_result) (status : string) : reading DetonationResult :=
  match read_all read_event (trace_events_json r), read_all read_finding (findings_json r) with
  | Raises, _ | _, Raises => Raises
  | Typed es, Typed fs => Typed (mkDetResult status fs es)
  | _, _ => Beyond
  end.

(** The outcome, and whether the finalising transaction raises once it has checked the
    claim and found the scan; [None] where the answer is beyond what the columns are for. *)
Definition outcome_of (timeout : bool) (x : detonation) : option (det_outcome * option string) :=
  if timeout then Some (DetTimeout, None)
  else match x with
  | DNoFiles msg => Some (DetNoFiles msg, None)
  | DRaised msg => Some (DetRaised msg, None)
  | Detonated _ Unavailable => Some (DetUnavailable, None)
  | Detonated _ ParseRaised => Some (DetRaised "AttributeError", None)
  | Detonated _ (Parsed r) =>
      match status_ r with
      | JStr status =>
          match result_of r status with
          | Typed dr => Some (DetResult dr, None)
          | Raises => Some (DetResult (mkDetResult status [] []), Some "TypeError")
          | Beyond => None
          end
      | _ => None
      end
  end.
Definition fault_of (job : det_job) (malformed : option string) (d : db) : option string :=
  match Sql.get (dj_id job) (detonation_queue d) with
  | Some q => if owns (dj_token job) q && bool_decide (is_Some (Sql.get (dj_scan_id job) (scans d))) then malformed else None
  | None => None
  end.

(** An answer the transaction cannot take makes it raise. *)
Definition faults_with (fault : option string) (F : det_faults) : det_faults :=
  mkDetFaults (df_claim F) (df_settle F) (match fault with Some e => Some e | None => df_finalize F end) (df_count F) (df_loop F).

(** ** One round of [_detonation_loop] *)

Section Round.
Variable pack : IntelPack.
Variable has_adapter : string -> bool.
Variable discord : bool.
Variables (shuffle : list string -> list string) (env : nat -> dqueue -> dqueue).
Variables (claimed_at_ settled_at : timestamp) (token : string).
(** What fetching and detonating the job came to ([outcome_of]), and what other sessions committed meanwhile. *)
Variable run : det_job -> det_outcome * option string.
Variable meanwhile : db -> db.

(** [crash]: the exception that leaves the loop, and ends the pool.  The claim stands
    outside the [try]. *)
Definition detonation_round (F : det_faults) (d : db) : option (list det_effect) * option string * db :=
  match df_claim F with
  | Some err => (None, Some err, d)
  | None =>
      let '(claimed, q) := claim_job shuffle env claimed_at_ token (detonation_queue d) in
      let d := set_det_queue q d in
      match claimed with
      | None => (None, None, d)
      | Some job =>
          let d := meanwhile d in
          let '(o, malformed) := run job in
          let '(es, crash, d) :=
            detonation_job pack settled_at has_adapter discord job o (faults_with (fault_of job malformed d) F) d in
          (Some es, crash, d)
      end
  end.

End Round.

(** [shutil.rmtree] of a directory. *)
Definition rmtree (d : list string) (t : files) : files := filter (fun kv : list string * node => ~ d `prefix_of` kv.1) t.
(** What the worker does at the end, whatever happened: the directories of the archives go. *)
Definition _cleanup (archives : list (list string)) (t : files) : files := fold_left (fun t p => rmtree (removelast p) t) archives t.

(** ** Lemmas *)

Lemma ancestors_snoc p x : p <> [] -> ancestors (p ++ [x]) = ancestors p ++ [p].
Proof.
  intros Hp. unfold ancestors. rewrite List.length_app. cbn [List.length]. destruct p as [|a p]; [done|]. cbn [List.length].
  replace (S (length p) + 1 - 1)%nat with (S (length p)) by lia. replace (S (length p) - 1)%nat with (length p) by lia.
  rewrite List.seq_S, List.map_app. f_equal.
  - apply List.map_ext_in. intros n [? ?]%List.in_seq. rewrite List.firstn_app. replace (n - length (a :: p))%nat with 0%nat by (cbn; lia).
    by rewrite List.firstn_O, app_nil_r.
  - cbn [map Nat.add]. f_equal. change (S (length p)) with (length (a :: p)). rewrite List.firstn_app, List.firstn_all, Nat.sub_diag.
    by rewrite List.firstn_O, app_nil_r.
Qed.

Lemma open_snoc t p x : p <> [] ->
  open_to_others t (p ++ [x]) = open_to_others t p && match t !! p with Some n => others_search n | None => false end.
Proof. intros Hp. unfold open_to_others. rewrite ancestors_snoc by done. rewrite forallb_app. cbn [forallb]. by rewrite andb_true_r. Qed.

Lemma open_agree t t' p : (forall d, d ∈ ancestors p -> t' !! d = t !! d) -> open_to_others t' p = open_to_others t p.
Proof.
  unfold open_to_others. generalize (ancestors p). intros l H. induction l as [|d l IH]; [done|]. cbn [forallb].
  rewrite H by (by left). f_equal. apply IH. intros. apply H. by right.
Qed.

Lemma in_ancestors p d : d ∈ ancestors p -> (List.length d < List.length p)%nat.
Proof.
  unfold ancestors. rewrite list_elem_of_In, in_map_iff. intros (n & <- & [? ?]%List.in_seq). rewrite List.length_firstn. lia.
Qed.

Lemma mkdirs_present umask base rest t : base ++ rest <> [] ->
  (forall k, (List.length base < k <= List.length (base ++ rest))%nat -> exists m, t !! List.firstn k (base ++ rest) = Some (Dir m)) ->
  mkdirs umask base rest t = Some t.
Proof.
  revert base. induction rest as [|p rest IH]; intros base Hne H; [done|]. cbn [mkdirs].
  assert (base ++ p :: rest = (base ++ [p]) ++ rest) as E by (by rewrite <- app_assoc).
  assert (exists m, t !! (base ++ [p]) = Some (Dir m)) as [m ->].
  { destruct (H (S (List.length base))) as [m Hm]; [rewrite List.length_app; cbn; lia|]. exists m. rewrite <- Hm. f_equal.
    rewrite E, List.firstn_app, List.length_app. cbn [List.length]. replace (S (length base) - (length base + 1))%nat with 0%nat by lia.
    rewrite List.firstn_O, app_nil_r, List.firstn_all2; [done|]. rewrite List.length_app. cbn. lia. }
  apply IH; rewrite <- E; [done|]. intros k Hk. apply H. rewrite List.length_app in Hk. cbn in Hk. lia.
Qed.

(** A machine on which staging works: the staging root is there, and [mkdtemp] finds names that nothing uses. *)
Record staging_ready (tmp : list string) (free_name : files -> string -> option string) (t : files) : Prop := {
  sr_root : forall k, (0 < k <= List.length (STAGING_ROOT tmp))%nat -> exists m, t !! List.firstn k (STAGING_ROOT tmp) = Some (Dir m);
  sr_named : forall t' prefix, is_Some (free_name t' prefix);
  sr_fresh : forall t' prefix n q, free_name t' prefix = Some n -> t' !! (STAGING_ROOT tmp ++ n :: q) = None
}.

Section Ready.
Context (umask : Z) (tmp : list string) (free_name : files -> string -> option string).
Implicit Types t : files.

Lemma root_nonempty : STAGING_ROOT tmp <> [].
Proof. unfold STAGING_ROOT. by destruct tmp. Qed.

Lemma staging_dir_ready prefix t : staging_ready tmp free_name t -> exists n,
  free_name t prefix = Some n /\
  staging_dir umask tmp free_name prefix t = (Some (STAGING_ROOT tmp ++ [n]), <[STAGING_ROOT tmp ++ [n] := Dir DIR_MODE]> t).
Proof.
  intros [Hr Hn Hf]. destruct (Hn t prefix) as [n E]. exists n. split; [done|]. unfold staging_dir.
  rewrite mkdirs_present.
  - rewrite E. f_equal. by rewrite alter_insert_eq.
  - apply root_nonempty.
  - exact Hr.
Qed.

(** The staged file: where it is, who reads it, what else changed, and what is left after the clean-up. *)
Lemma stage_bytes_ready data inner prefix t : staging_ready tmp free_name t -> is_file_name (path_name inner) = true -> exists n t',
  let dest := STAGING_ROOT tmp ++ [n; path_name inner] in
  stage_bytes umask tmp free_name data inner prefix t = (Some dest, t') /\
  read_by_others t' dest = (if open_to_others t (STAGING_ROOT tmp ++ [n]) then Some data else None) /\
  (forall q, ~ (STAGING_ROOT tmp ++ [n]) `prefix_of` q -> t' !! q = t !! q) /\
  _cleanup [dest] t' = t.
Proof.
  intros Hok Hname. destruct (staging_dir_ready prefix t Hok) as (n & Efree & E). destruct Hok as [Hr _ Hf].
  set (R := STAGING_ROOT tmp) in *. set (d := R ++ [n]) in *. set (dest := d ++ [path_name inner]).
  exists n, (<[dest := File FILE_MODE data]> (<[d := Dir DIR_MODE]> t)).
  assert (R ++ [n; path_name inner] = dest) as -> by (unfold dest, d; by rewrite <- app_assoc).
  assert (List.length dest = S (List.length d)) as Hlen by (unfold dest; rewrite List.length_app; cbn; lia).
  assert (dest <> d) as Hne by (intros Ed; rewrite Ed in Hlen; lia).
  cbv zeta. split_and!.
  - unfold stage_bytes. rewrite E, Hname. cbn [negb]. fold dest. by rewrite alter_insert_eq.
  - unfold read_by_others. rewrite lookup_insert_eq.
    assert (open_to_others (<[dest:=File FILE_MODE data]> (<[d:=Dir DIR_MODE]> t)) dest = open_to_others t d) as ->; [|by rewrite andb_true_r].
    unfold dest at 2. rewrite open_snoc by (unfold d; by destruct R). rewrite lookup_insert_ne, lookup_insert_eq by done.
    rewrite andb_true_r. apply open_agree.
    intros d' Hd'%in_ancestors. rewrite !lookup_insert_ne; [done| |]; intros Ed; rewrite <- Ed in Hd'; lia.
  - intros q Hq. rewrite !lookup_insert_ne; [done| |]; intros <-; apply Hq; [by exists []; rewrite app_nil_r|by eexists].
  - unfold _cleanup. cbn [fold_left]. unfold dest at 1. rewrite List.removelast_last. apply map_eq. intros q. unfold rmtree.
    rewrite map_lookup_filter. destruct (decide (d `prefix_of` q)) as [[q' ->]|Hq].
    + assert (t !! (d ++ q') = None) as -> by (unfold d; rewrite <- app_assoc; by apply (Hf t prefix)).
      destruct (_ !! _) as [x|]; [|done]. cbn. rewrite option_guard_False; [done|]. intros H. apply H. by eexists.
    + rewrite !lookup_insert_ne; [|intros <-; apply Hq; by exists []; rewrite app_nil_r|intros <-; apply Hq; by eexists].
      destruct (t !! q) as [x|]; [|done]. cbn. by rewrite option_guard_True.
Qed.

End Ready.

(** *** Claims *)

Lemma det_cas_get now token i t : table_wf t -> (DetQueue.cas_claim now token i t).1 = 1 ->
  exists r0, r0 ∈ rows t /\ id r0 = i /\ jstatus r0 = Pending /\ Sql.get i (DetQueue.cas_claim now token i t).2 = Some (DetQueue.take now token r0).
Proof.
  intros Hwf. unfold DetQueue.cas_claim, count_where. cbn [fst snd]. intros Hc.
  destruct (select (DetQueue.cas_where i) t) as [|r0 l] eqn:E; [done|].
  assert (r0 ∈ select (DetQueue.cas_where i) t) as [Hr [Hi Hp]%det_cas_where_true]%select_in by (rewrite E; by left).
  exists r0. split_and!; try done. apply Sql.get_Some; [by apply table_wf_update|]. split; [|done].
  apply update_where_in. exists r0. split; [done|]. assert (DetQueue.cas_where i r0 = true) as -> by by apply det_cas_where_true. done.
Qed.

Section Claims.
Context (env : nat -> dqueue -> dqueue) (now : timestamp) (token : string).
Hypothesis Henv : forall k t, table_wf t -> table_wf (env k t).

(** What a claim leaves: the row, held under the token. *)
Definition claimed_row (r : drow) (t : dqueue) : Prop :=
  table_wf t /\ Sql.get (id r) t = Some r /\ owns token r = true.

Lemma claim_ecos_held prio ecos k t : table_wf t ->
  match claim_ecos env now token prio ecos k t with (Some r, t', _) => claimed_row r t' | (None, t', _) => table_wf t' end.
Proof.
  revert k t. induction ecos as [|eco ecos IH]; intros k t Hwf; [done|]. cbn [claim_ecos].
  destruct (candidate prio eco t) as [r|]; [|by apply IH]. specialize (Henv k t Hwf).
  destruct (DetQueue.cas_claim now token (id r) (env k t)) as [n t'] eqn:Ec.
  assert (table_wf t') as Hwf' by (change t' with (n, t').2; rewrite <- Ec; by apply table_wf_update).
  destruct (Z.eqb_spec n 1) as [->|]; [|by apply IH].
  destruct (det_cas_get now token (id r) (env k t) Henv) as (r0 & Hr & Hi & Hp & Hg); [by rewrite Ec|]. rewrite Ec in Hg. cbn [snd] in Hg. rewrite Hg.
  split_and!; [done| |]; [rewrite <- Hg; by f_equal|by apply owns_true].
Qed.

Lemma claim_next_held shuffle t : table_wf t ->
  match DetQueue.claim_next shuffle env now token t with (Some (r, tok), t') => tok = token /\ claimed_row r t' | (None, t') => table_wf t' end.
Proof.
  unfold DetQueue.claim_next. generalize 0%nat. generalize [PHigh; PNormal; PLow]. intros prios. revert t.
  induction prios as [|prio prios IH]; intros t k Hwf; [done|]. cbn [DetQueue.claim_tiers].
  destruct (tier_ecosystems prio t) as [|eco ecos]; [by apply IH|].
  pose proof (claim_ecos_held prio (shuffle (eco :: ecos)) k t Hwf) as H.
  destruct (claim_ecos env now token prio (shuffle (eco :: ecos)) k t) as [[[r|] t'] k']; [done|by apply IH].
Qed.

End Claims.

(** *** Answers *)

Lemma pick_archive_in kind archives arc : pick_archive kind archives = Some arc -> arc ∈ archives.
Proof.
  unfold pick_archive. destruct (List.find _ archives) as [a|] eqn:E.
  - intros [= <-]. apply List.find_some in E as [? _]. by apply list_elem_of_In.
  - destruct archives as [|a l]; [done|]. intros [= <-]. by left.
Qed.

(** Where the bytes come from that are detonated. *)
Definition source_of (s : staged) (fetch : string -> string -> fetched) (job : det_job) (arc : ArchivePath) : Prop :=
  s = Staged arc \/ s = NotVaulted /\ exists archives md, fetch (dj_name job) (dj_version job) = FetchOk archives md /\ arc ∈ archives.

Lemma fetched_source post c job s fetch arc x : (_fetch_and_detonate post c job s fetch).2 = Detonated arc x ->
  source_of s fetch job arc /\ x = detonate post c (dj_ecosystem job) (dj_name job) (dj_version job) (arc_path arc) (arc_kind arc) 120.
Proof.
  unfold _fetch_and_detonate, source_of. destruct s as [|a|err]; [|by intros [= -> <-]; auto|done].
  destruct (fetch _ _) as [archives md| | |] eqn:Ef; [|done|done|done].
  destruct (pick_archive _ archives) as [a|] eqn:Ep; [|done]. intros [= -> <-]. apply pick_archive_in in Ep. split; [|done]. right. eauto 6.
Qed.

Lemma detonate_parsed post c eco nm ver path kind timeout r : detonate post c eco nm ver path kind timeout = Parsed r ->
  is_enabled c = true /\ exists body, post (_make_client c) "/api/v1/detonate" (payload eco nm ver path kind timeout) = Answered 200 (Some body) /\
    _parse_result body = Some r.
Proof.
  unfold detonate. destruct (is_enabled c); [|done]. cbn [negb]. destruct (post _ _ _) as [|status body]; [done|].
  destruct (Z.eqb_spec status 200) as [->|]; [|done]. destruct body as [body|]; [|done]. cbn [negb].
  destruct (_parse_result body) as [r'|] eqn:E; [|done]. intros [= ->]. split; [done|]. by exists body.
Qed.

Lemma outcome_final timeout x o malformed : outcome_of timeout x = Some (o, malformed) -> retry_reason o = None ->
  timeout = false /\ exists arc r st, x = Detonated arc (Parsed r) /\ status_ r = JStr st /\ st <> "error".
Proof.
  unfold outcome_of. destruct timeout; [by intros [= <- _]|]. destruct x as [msg|msg|arc [|r|]]; try by intros [= <- _].
  destruct (status_ r) as [| | | |st| |] eqn:Es; try done. intros H Hr. split; [done|]. exists arc, r, st. split_and!; try done. intros ->.
  destruct (result_of r "error") as [dr| |] eqn:Er; [|by injection H as <- _|done]. injection H as <- _.
  unfold result_of in Er. repeat case_match; simplify_eq; done.
Qed.

(** ** Properties *)

(** C37. The sandbox sees the sample that was scanned.  On a machine whose staging root is there,
    let an archive go into the vault (on the conditions of [vault_roundtrip], and with no readable
    file of its pattern sorting before it).  A detonation of its package then stages exactly its
    bytes, in a new directory right below the staging root; a user without any of the scanner's
    rights reads them exactly if such a user gets through the directories down to the root, the
    mask of the worker's process playing no part; nothing else in the file system changes, and
    after the clean-up it is what it was. *)
Theorem sandbox_sees_the_sample umask tmp free_name o s data vault job t :
  healthy o -> s_data s = Some data -> printable (s_inner s) = true -> Z.of_nat (len (s_inner s)) < 65536 ->
  Z.of_nat (List.length data) + 65600 < 2 ^ 32 ->
  vault_stem o s data +:+ ".zip" ∉ vault.*1 ->
  unshadowed (s_ecosystem s) (s_name s) (s_version s) (vault_stem o s data +:+ ".zip") vault ->
  dj_ecosystem job = s_ecosystem s -> dj_name job = s_name s -> dj_version job = s_version s ->
  staging_ready tmp free_name t -> is_file_name (path_name (s_inner s)) = true ->
  exists n t', let dest := STAGING_ROOT tmp ++ [n; path_name (s_inner s)] in
    _stage_from_vault umask tmp free_name true (sha256_hex o) (archive_to_vault true o s vault).2 job t =
      (Staged (mkArchive (str_path dest) (dj_archive_kind job) (sha256_hex o data)), t') /\
    read_by_others t' dest = (if open_to_others t (STAGING_ROOT tmp ++ [n]) then Some data else None) /\
    (forall q, ~ (STAGING_ROOT tmp ++ [n]) `prefix_of` q -> t' !! q = t !! q) /\
    _cleanup [dest] t' = t.
Proof.
  intros Hh Hs Hp Hl Hsz Hnew Hv He Hn Hver Hok Hname.
  pose proof (archive_read_back o s data vault Hh Hs Hp Hl Hsz Hnew Hv) as Hb.
  destruct (stage_bytes_ready umask tmp free_name data (s_inner s) "vault-" t Hok Hname) as (n & t' & E & Hread & Hrest & Hclean).
  exists n, t'. split_and!; [|done|done|done]. unfold _stage_from_vault. rewrite He, Hn, Hver. by rewrite Hb, E.
Qed.

Lemma held_not_done q q' (crash : option string) (failed : bool) tok :
  owns tok q = true -> (match crash with Some _ => q' = q | None => if failed then jstatus q' = Failed else retried q q' end) ->
  jstatus q' <> Done.
Proof.
  intros [Hc _]%owns_true H. destruct crash as [e|]; [congruence|]. destruct failed; [congruence|]. destruct H as [_ H].
  destruct (_ <=? _); [|destruct H as [H _]]; congruence.
Qed.

(** C38. Nothing passes for detonated that was not.  Whatever staging, the registry, the service and
    the timeout do, and whichever sessions raise, a held job is completed only if the service, asked about an archive that was
    staged from the vault or, where the vault has none, fetched for the job, answered with status
    200 and a result whose own status is no error. *)
Theorem done_means_detonated pack now has_adapter discord post c job s fetch timeout o malformed F d q :
  Sql.get (dj_id job) (detonation_queue d) = Some q -> owns (dj_token job) q = true -> table_wf (detonation_queue d) ->
  outcome_of timeout (_fetch_and_detonate post c job s fetch).2 = Some (o, malformed) ->
  (exists q', Sql.get (dj_id job) (detonation_queue (detonation_job pack now has_adapter discord job o
       (faults_with (fault_of job malformed d) F) d).2) = Some q' /\
     jstatus q' = Done) ->
  exists arc body r st, timeout = false /\ source_of s fetch job arc /\ is_enabled c = true /\
    post (_make_client c) "/api/v1/detonate"
      (payload (dj_ecosystem job) (dj_name job) (dj_version job) (arc_path arc) (arc_kind arc) 120) = Answered 200 (Some body) /\
    _parse_result body = Some r /\ status_ r = JStr st /\ st <> "error".
Proof.
  intros Hg Ho Hwf Hout (q' & Hg' & Hd).
  pose proof (job_settles pack now has_adapter discord job o (faults_with (fault_of job malformed d) F) d q Hg Ho Hwf) as H. cbv zeta in H.
  destruct (detonation_job _ _ _ _ _ _ _ _) as [[es crash] d']. destruct H as (_ & q'' & Hg'' & H). cbn [snd] in Hg'.
  rewrite Hg' in Hg''. injection Hg'' as <-. unfold settled_as in H.
  destruct (finalises _ _ _) eqn:Ef; [|exfalso; destruct (held_not_done q q' _ _ (dj_token job) Ho H Hd)].
  apply andb_true_iff in Ef as [[_ Hr%bool_decide_eq_true]%andb_true_iff _].
  destruct (outcome_final timeout _ o malformed Hout Hr) as (-> & arc & r & st & Hx & Hst & Hne).
  destruct (fetched_source post c job s fetch arc _ Hx) as [Hsrc Hp]. symmetry in Hp.
  apply detonate_parsed in Hp as (Hen & body & Hpost & Hparse). exists arc, body, r, st. done.
Qed.

(** Each round of the loop settles what it claims: when the other sessions leave a claimed row and
    its table alone, the row it took is not claimed any more, unless the round's own handler raised. *)
Theorem detonation_round_settles pack has_adapter discord shuffle env claimed settled token run meanwhile F d r tok t :
  (forall k t, table_wf t -> table_wf (env k t)) ->
  (forall d i q, table_wf (detonation_queue d) -> Sql.get i (detonation_queue d) = Some q ->
     table_wf (detonation_queue (meanwhile d)) /\ Sql.get i (detonation_queue (meanwhile d)) = Some q) ->
  table_wf (detonation_queue d) -> DetQueue.claim_next shuffle env claimed token (detonation_queue d) = (Some (r, tok), t) ->
  df_claim F = None ->
  let '(_, crash, d') := detonation_round pack has_adapter discord shuffle env claimed settled token run meanwhile F d in
  (forall e, crash = Some e -> df_loop F = Some e) /\
  exists q', Sql.get (id r) (detonation_queue d') = Some q' /\ (crash = None -> jstatus q' <> Claimed).
Proof.
  intros Henv Hmw Hwf Hc HF. pose proof (claim_next_held env claimed token Henv shuffle (detonation_queue d) Hwf) as H.
  unfold detonation_round, claim_job. rewrite HF. rewrite Hc in H |- *. cbn [fmap option_fmap option_map fst snd].
  destruct H as [-> (Hwf' & Hg & Ho)]. set (job := job_of r token). set (d0 := meanwhile (set_det_queue t d)).
  destruct (Hmw (set_det_queue t d) (id r) r Hwf' Hg) as [Hwf0 Hg0]. fold d0 in Hwf0, Hg0. destruct (run job) as [o malformed].
  pose proof (job_settles pack settled has_adapter discord job o (faults_with (fault_of job malformed d0) F) d0 r Hg0 Ho Hwf0) as H. cbv zeta in H.
  destruct (detonation_job _ _ _ _ _ _ _ _) as [[es crash] d2]. destruct H as (Hcr & q' & Hg' & Hq). split; [exact Hcr|].
  exists q'. split; [exact Hg'|]. intros ->. unfold settled_as in Hq.
  destruct (finalises _ _ _); [congruence|]. destruct (_ && _); [congruence|]. destruct Hq as [_ Hq].
  destruct (_ <=? _); [|destruct Hq as [Hq _]]; congruence.
Qed.

(** ** Concrete runs *)

Definition ex_tmp : list string := ["tmp"].
Definition ex_free (t : files) (prefix : string) : option string := Some (prefix +:+ "x").
Definition ex_files : files := {[ ["tmp"] := Dir 1023; ["tmp"; "pkgward"] := Dir DIR_MODE ]}.
(** A name that occurs nowhere in the file system. *)
Definition ex_names (t : files) : list string := concat (map_to_list t).*1.
Definition ex_fresh (t : files) (prefix : string) : option string := Some (fresh (ex_names t)).

Definition ex_vaulted : sample := Vault.ex_sample "evil" "1.0" [31; 139; 0; 255].
Definition ex_client : client := mkClient (Some "/run/det.sock") None.
Definition ex_body (status : json) (rest : list (string * json)) : json := JObj (("id", JStr "d1") :: ("status", status) :: rest).
Definition ex_post (a : http_answer) (_ : transport) (_ : string) (_ : list (string * json)) : http_answer := a.
Definition ex_staged : staged := Staged (mkArchive "/tmp/pkgward/vault-x/pkg-1.0.0.tgz" "npm_tarball" "abc").
Definition ex_no_fetch (_ _ : string) : fetched := NoFilesError "gone".
Definition ex_answer (a : http_answer) : option (det_outcome * option string) :=
  outcome_of false (_fetch_and_detonate (ex_post a) ex_client ex_job ex_staged ex_no_fetch).2.

Lemma ex_ready : staging_ready ex_tmp ex_fresh ex_files.
Proof.
  constructor; [intros [|[|[|k]]] Hk; cbn in Hk; try lia; eexists; by vm_compute|by eexists|]. intros t prefix n q [= <-].
  destruct (t !! _) as [x|] eqn:E; [|done]. exfalso. apply (infinite_is_fresh (ex_names t)). unfold ex_names at 2.
  apply list_elem_of_In, in_concat. eexists. split.
  - apply list_elem_of_In, list_elem_of_fmap. eexists. split; [|by apply elem_of_map_to_list]. done.
  - apply list_elem_of_In. cbn [fst]. set_solver.
Qed.

Lemma sandbox_sees_the_sample_witness : exists n t',
  _stage_from_vault 63 ex_tmp ex_fresh true (sha256_hex Vault.ex_out) (archive_to_vault true Vault.ex_out ex_vaulted []).2
    (mkDetJob 1 "tok" 1 1 "npm" "evil" "1.0" "tarball" VMalicious) ex_files =
    (Staged (mkArchive (str_path ["tmp"; "pkgward"; n; "pkg-1.0.0.tgz"]) "tarball" "0123456789abcdef"), t') /\
  read_by_others t' ["tmp"; "pkgward"; n; "pkg-1.0.0.tgz"] = Some [31; 139; 0; 255].
Proof.
  destruct (sandbox_sees_the_sample 63 ex_tmp ex_fresh Vault.ex_out ex_vaulted [31; 139; 0; 255] []
    (mkDetJob 1 "tok" 1 1 "npm" "evil" "1.0" "tarball" VMalicious) ex_files) as (n & t' & H1 & H2 & _);
    [by split|reflexivity|reflexivity|reflexivity|reflexivity|intros Hq; by apply elem_of_nil in Hq|intros q Hq; by apply elem_of_nil in Hq
    |reflexivity|reflexivity|reflexivity|exact ex_ready|reflexivity|].
  exists n, t'. split; [exact H1|]. etransitivity; [exact H2|]. vm_compute. reflexivity.
Defined.

Definition ex_good : http_answer := Answered 200 (Some (ex_body (JStr "completed") [])).

Lemma done_means_detonated_witness : exists arc body, source_of ex_staged ex_no_fetch ex_job arc /\ ex_good = Answered 200 (Some body).
Proof.
  destruct (done_means_detonated ex_det_pack 9 (fun _ => true) true (ex_post ex_good) ex_client ex_job ex_staged ex_no_fetch false
    (DetResult (mkDetResult "completed" [] [])) None no_det_faults (ex_db VSuspicious) ex_detrow) as (arc & body & r & st & _ & Hs & _ & Hp & _);
    [reflexivity|reflexivity|exact (proj2 (ex_db_wf VSuspicious))|by vm_compute|eexists; split; by vm_compute|].
  exists arc, body. split; [exact Hs|exact Hp].
Defined.

(** A fresh machine has no staging root: it is made with the modes the mask leaves, against what
    the module says of its modes, and under a tight mask the sandbox's user does not get in. *)
Example mask_closes_root :
  let fresh : files := {[ ["tmp"] := Dir 1023 ]} in
  (fun r => read_by_others r.2 <$> r.1) (stage_bytes 63 ex_tmp ex_free [1; 2] "a.tgz" "vault-" fresh) = Some None /\
  (fun r => read_by_others r.2 <$> r.1) (stage_bytes 18 ex_tmp ex_free [1; 2] "a.tgz" "vault-" fresh) = Some (Some [1; 2]) /\
  (fun r => read_by_others r.2 <$> r.1) (stage_bytes 63 ex_tmp ex_free [1; 2] "a.tgz" "vault-" ex_files) = Some (Some [1; 2]).
Proof. vm_compute. done. Qed.

(** A stored name that is no file name raises after the directory was made, and nobody removes it. *)
Example unnamed_sample_leaks : (fun r => (r.1, r.2 !! ["tmp"; "pkgward"; "vault-x"])) (stage_bytes 18 ex_tmp ex_free [1] ".." "vault-" ex_files) =
  (None, Some (Dir DIR_MODE)).
Proof. by vm_compute. Qed.

(** A variable that is set and empty counts as a configured service, which no request reaches. *)
Example empty_url_enabled : let c := new_client None None None (Some "") in is_enabled c = true /\ _make_client c = BaseUrl "".
Proof. done. Qed.

(** A null where an object is expected raises outside the handler of the request. *)
Example null_summary_raises :
  ex_answer (Answered 200 (Some (ex_body (JStr "completed") [("trace_summary", JNull)]))) = Some (DetRaised "AttributeError", None) /\
  ex_answer (Answered 200 (Some (ex_body (JStr "completed") [("findings", JNull)]))) = Some (DetResult (mkDetResult "completed" [] []), Some "TypeError") /\
  ex_answer (Answered 200 (Some (JObj []))) = Some (DetResult (mkDetResult "error" [] []), None) /\
  ex_answer (Answered 500 (Some (ex_body (JStr "completed") []))) = Some (DetUnavailable, None).
Proof. by vm_compute. Qed.
