(* ===== verification/Enrich.v ===== *)
(** * What an alert adds ([enrich/downloads.py], [enrich/publisher.py], [notify/discord.py])

    The weekly downloads of a package, asked from the registry's statistics and
    kept for a week on its row, the publisher as the scan recorded it, and the
    three alerts that show them. *)
From S2P Require Import Prelude PyStr Text Sql Findings Json Codecs Fetch DepIntel Triage Store Notify Packs.
From Stdlib Require Import Ascii.

Open Scope string_scope.
Open Scope list_scope.
Open Scope Z_scope.

(** ** Statistics of the registries *)

(** An answer with its body as [r.json()] reads it. *)
Record answer := mkAnswer { a_status : Z; a_json : option json }.

(** [int(x)] of a decoded value; [None] is an exception. *)
Definition int_of (v : json) : option Z :=
  match v with
  | JInt n => Some n
  | JBool b => Some (Z.b2z b)
  | JFloat f => int_of_float f
  | JStr s => py_int s
  | _ => None
  end.
(** [x.get(k)]. *)
Definition get_key (k : string) (v : json) : option json := match v with JObj o => Some (jget k o JNull) | _ => None end.
(** [int(v) if v is not None else None]. *)
Definition int_or_none (v : json) : option (option Z) := match v with JNull => Some None | _ => Some <$> int_of v end.
(** [urllib.parse.quote], which leaves slashes. *)
Definition quote_path (s : string) : string := join "/" (map quote (split "/"%char s)).
(** [round(a / b)]: to the nearest integer, halves to the even one.  The quotient is taken
    exactly; for counts below [2 ^ 46] its double is on the same side of every half. *)
Definition round_div (a b : Z) : Z :=
  let q := a / b in
  let r := 2 * (a mod b) in
  if r <? b then q else if b <? r then q + 1 else if Z.even q then q else q + 1.

Section Fetchers.
(** [httpx.get]; [None]: it raises. *)
Variable get : string -> option answer.

(** What a fetcher gives: [None] where it raises. *)
Definition checked (r : answer) (k : json -> option (option Z)) : option (option Z) :=
  if (200 <=? a_status r) && (a_status r <? 300) then a_json r ≫= k else None.
(** [(r.json().get(a) or {}).get(b)]. *)
Definition nested (a b : string) (v : json) : option json := x ← get_key a v; get_key b (Pipeline.json_or x (JObj [])).

Definition _fetch_npm (nm : string) : option (option Z) :=
  r ← get ("https://api.npmjs.org/downloads/point/last-week/" +:+ nm);
  if a_status r =? 404 then Some (Some 0) else checked r (fun v => get_key "downloads" v ≫= int_or_none).
Definition _fetch_pypi (nm : string) : option (option Z) :=
  r ← get ("https://pypistats.org/api/packages/" +:+ quote_path (collapse false (lower nm)) +:+ "/recent");
  if a_status r =? 404 then Some None else checked r (fun v => nested "data" "last_week" v ≫= int_or_none).
Definition _fetch_crates (nm : string) : option (option Z) :=
  r ← get ("https://crates.io/api/v1/crates/" +:+ quote_path nm);
  if a_status r =? 404 then Some None
  else checked r (fun v => rd ← nested "crate" "recent_downloads" v; n ← int_or_none rd; Some (match n with Some n => Some (Z.max 0 (round_div (n * 7) 90)) | None => None end)).

Definition _FETCHERS : list (string * (string -> option (option Z))) := [("npm", _fetch_npm); ("pypi", _fetch_pypi); ("crates", _fetch_crates)].
Definition weekly_downloads (eco nm : string) : option Z :=
  match dget eco _FETCHERS with
  | Some fn => if truthy nm then default None (fn nm) else None
  | None => None
  end.

(** ** The cache on the package's row *)

(** [downloads_weekly] and [downloads_fetched_at], by the id of the package. *)
Record stats := mkStats { weekly : option Z; fetched_at : timestamp }.
Abbreviation cache := (gmap Z stats).

Record Lookup := mkLookup {
  l_enabled : bool;
  l_ttl : Z;
  l_read_fails : bool;  (* an exception of the reading session *)
  l_write_fails : bool; (* and of the writing one *)
  l_now : timestamp;    (* the clock at the reading *)
  l_then : timestamp;   (* and at the writing *)
}.

Definition same_package (eco nm : string) (p : Package) : bool := String.eqb (p_ecosystem p) eco && String.eqb (p_name p) nm.
Definition fresh_stats (e : Lookup) (id : Z) (c : cache) : option stats :=
  match c !! id with Some s => if l_now e - fetched_at s <? l_ttl e then Some s else None | None => None end.

(** The estimate, whether the registry was asked, the cache; [later] is the package table when the result is written. *)
Definition enrich (e : Lookup) (eco nm : string) (pkgs later : table Package) (c : cache) : option Z * bool * cache :=
  if negb (l_enabled e) || negb (truthy nm) then (None, false, c)
  else if l_read_fails e then (None, false, c)
  else
    let pkg := first (same_package eco nm) pkgs in
    match pkg ≫= (fun p => fresh_stats e (p_id p) c) with
    | Some s => (weekly s, false, c)
    | None =>
        let val := weekly_downloads eco nm in
        (val, true,
         match pkg, val with
         | Some p, Some v =>
             if l_write_fails e then c
             else if bool_decide (is_Some (Sql.get (p_id p) later)) then <[p_id p := mkStats (Some v) (l_then e)]> c else c
         | _, _ => c
         end)
    end.

End Fetchers.

(** ** The publisher ([enrich/publisher.py]) *)

Definition text_of (v : json) : string := match v with JStr s => s | _ => "" end.
(** [fails]: an exception of the session. *)
Definition from_scan (fails : bool) (sid : Z) (d : db) : option publisher :=
  if fails then None
  else
    sc ← Sql.get sid (scans d);
    v ← Sql.get (sc_version_id sc) (versions d);
    let m := v_meta v in
    if existsb json_truthy [vm_author m; vm_author_email m; vm_maintainers m; vm_upload_user m]
    then Some (mkPublisher (text_of (vm_author m)) (text_of (vm_author_email m)) (text_of (vm_upload_user m)) (vm_maintainers m))
    else None.

(** ** The alerts *)

Section Alerts.
Variables (webhook : option string) (node_label : string) (replies : nat -> Notify.reply).

(** The embed that is posted, the result, and the number of requests. *)
Definition posted (em : embed) : option embed * bool * nat :=
  if negb (otruthy webhook) then (None, false, O)
  else let '(ok, n) := _post_embed webhook replies in (Some (_sanitize_embed em), ok, n).

Definition send_alert (model stats nm ver eco rule_verdict : string) (rule_score n_findings : Z) (t : LLMTriageResult) (fs : list Finding)
    (downloads_weekly : option Z) (p : option publisher) : option embed * bool * nat :=
  posted (_build_embed node_label model stats nm ver eco rule_verdict rule_score n_findings t fs downloads_weekly p).
Definition send_dynamic_alert (nm ver eco static_verdict new_verdict : string) (new_score n_findings : Z) (fs : list Finding)
    (downloads_weekly : option Z) (p : option publisher) : option embed * bool * nat :=
  posted (dynamic_embed node_label nm ver eco static_verdict new_verdict new_score n_findings fs downloads_weekly p).
Definition send_review_alert (model nm ver eco rule_verdict : string) (rule_score n_findings : Z) (t : LLMTriageResult) (fs : list Finding)
    (p : option publisher) : option embed * bool * nat :=
  posted (review_embed node_label model nm ver eco rule_verdict rule_score n_findings t fs p).

End Alerts.

(** ** Lemmas *)

Lemma round_div_near a b : 0 < b -> 2 * Z.abs (a - b * round_div a b) <= b.
Proof.
  intros Hb. unfold round_div. pose proof (Z.div_mod a b ltac:(lia)) as E. pose proof (Z.mod_pos_bound a b Hb) as Hr.
  set (q := a / b) in *. set (r := a mod b) in *. destruct (Z.ltb_spec (2 * r) b); [nia|]. destruct (Z.ltb_spec b (2 * r)); [nia|].
  destruct (Z.even q); nia.
Qed.

(** A package's count is asked for once per period: a count that was stored is what every alert of the
    period gets, without a request; an answer that is no count is never stored, so the next alert
    asks again; and no other package's row is touched. *)
Theorem downloads_asked_once get e eco nm pkgs later c p :
  first (same_package eco nm) pkgs = Some p -> l_enabled e = true -> truthy nm = true -> l_read_fails e = false ->
  fresh_stats e (p_id p) c = None ->
  let '(val, asked, c') := enrich get e eco nm pkgs later c in
  asked = true /\ val = weekly_downloads get eco nm /\
  (forall i, i <> p_id p -> c' !! i = c !! i) /\
  (val = None -> c' = c) /\
  (forall v get' e' later', val = Some v -> l_write_fails e = false -> is_Some (Sql.get (p_id p) later) ->
     l_enabled e' = true -> l_read_fails e' = false -> l_now e' - l_then e < l_ttl e' ->
     enrich get' e' eco nm pkgs later' c' = (Some v, false, c')).
Proof.
  intros Hp He Hn Hr Hf. unfold enrich. rewrite He, Hn, Hr, Hp. cbn [negb orb mbind option_bind]. rewrite Hf.
  destruct (weekly_downloads get eco nm) as [v|] eqn:Ev; [|split_and!; done].
  destruct (l_write_fails e) eqn:Ew; [split_and!; done|]. destruct (bool_decide _) eqn:Eb.
  - split_and!; try done.
    + intros i Hi. by rewrite lookup_insert_ne by done.
    + intros v' get' e' later' [= <-] _ _ He' Hr' Ht. rewrite He', Hr'. cbn [negb orb]. unfold fresh_stats at 1. rewrite lookup_insert_eq.
      cbn [fetched_at]. by rewrite (proj2 (Z.ltb_lt _ _) Ht).
  - apply bool_decide_eq_false in Eb. split_and!; done.
Qed.

(** Without a webhook nothing is posted; with one, at most four requests carry one embed within the limits. *)
Lemma posted_once webhook replies em : otruthy webhook = true -> exists ok n, posted webhook replies em = (Some (_sanitize_embed em), ok, n).
Proof. intros H. unfold posted. rewrite H. cbn [negb]. destruct (_post_embed webhook replies) as [ok n]. by exists ok, n. Qed.

(** ** Concrete runs *)

Definition ex_get (status : Z) (v : json) (_ : string) : option answer := Some (mkAnswer status (Some v)).
Definition ex_pkgs : table Package := Table [mkPackage 4 "npm" "@s/p" 0; mkPackage 5 "crates" "serde" 0] 6.
Definition ex_lookup (now : Z) : Lookup := mkLookup true (days 7) false false now now.

Example fetchers_ex :
  weekly_downloads (fun u => if String.eqb u "https://api.npmjs.org/downloads/point/last-week/@s/p" then Some (mkAnswer 404 None) else None) "npm" "@s/p" = Some 0 /\
  weekly_downloads (fun u => if String.eqb u "https://pypistats.org/api/packages/a-b/recent" then Some (mkAnswer 404 None) else None) "pypi" "A_.B" = None /\
  weekly_downloads (ex_get 200 (JObj [("crate", JObj [("recent_downloads", JInt 45)])])) "crates" "serde" = Some 4 /\
  weekly_downloads (ex_get 200 (JObj [("downloads", JStr "12")])) "npm" "p" = Some 12 /\
  weekly_downloads (ex_get 429 JNull) "pypi" "p" = None /\ weekly_downloads (ex_get 200 JNull) "gomod" "p" = None.
Proof. by vm_compute. Qed.

Lemma downloads_asked_once_witness :
  let c := (enrich (ex_get 200 (JObj [("downloads", JInt 12)])) (ex_lookup 0) "npm" "@s/p" ex_pkgs ex_pkgs ∅).2 in
  enrich (fun _ => None) (ex_lookup (days 6)) "npm" "@s/p" ex_pkgs ex_pkgs c = (Some 12, false, c).
Proof.
  destruct (downloads_asked_once (ex_get 200 (JObj [("downloads", JInt 12)])) (ex_lookup 0) "npm" "@s/p" ex_pkgs ex_pkgs ∅ (mkPackage 4 "npm" "@s/p" 0))
    as (_ & _ & _ & _ & H); [reflexivity|reflexivity|reflexivity|reflexivity|reflexivity|].
  apply (H 12 (fun _ => None) (ex_lookup (days 6)) ex_pkgs); [reflexivity|reflexivity|by eexists|reflexivity|reflexivity|vm_compute; reflexivity].
Defined.

(** A negative count and a boolean are taken as they come; NaN and text without digits are no count. *)
Example counts_ex : map (fun v => weekly_downloads (ex_get 200 (JObj [("downloads", v)])) "npm" "p") [JInt (-3); JBool true; JFloat S754_nan; JStr "many"] =
  [Some (-3); Some 1; None; None].
Proof. by vm_compute. Qed.
