(* ===== verification/Adapters.v ===== *)
(** * The registry adapters ([ecosystems/*/adapter.py])

    What each adapter schedules, does at start-up, sweeps and backfills, composed
    from the pollers and refreshes of the other files, with the keystone tables
    the refreshes rank first.  What the registries answer is an argument. *)
From S2P Require Import WatchRefresh Releases NpmCursor GoCursor CratesFeeds PypiCursor.
From S2P Require Import Prelude PyStr Text Sql Findings Jobs ScanQueue Watch Focus Store MaintWatch Ingest Anomaly Pipeline.
From Stdlib Require Import Ascii.

Open Scope string_scope.
Open Scope list_scope.
Open Scope Z_scope.

(** ** Keystone packages *)

Definition GO_CRITICAL_INFRA : list (string * Z) :=
 [("k8s.io/kubernetes", 100000); ("k8s.io/client-go", 90000); ("k8s.io/api", 89000); ("k8s.io/apimachinery", 88000);
   ("k8s.io/kubectl", 87000); ("k8s.io/klog/v2", 86000); ("k8s.io/utils", 85000); ("cloud.google.com/go", 80000);
   ("cloud.google.com/go/storage", 79000); ("cloud.google.com/go/bigquery", 78000);
   ("google.golang.org/grpc", 75000); ("google.golang.org/protobuf", 74000); ("google.golang.org/api", 73000);
   ("golang.org/x/crypto", 70000); ("golang.org/x/net", 69000); ("golang.org/x/oauth2", 68000);
   ("golang.org/x/text", 67000); ("golang.org/x/sys", 66000); ("golang.org/x/tools", 65000);
   ("golang.org/x/sync", 64000); ("golang.org/x/mod", 63000); ("golang.org/x/exp", 62000);
   ("golang.org/x/time", 61000); ("go.uber.org/zap", 55000); ("go.uber.org/atomic", 54000);
   ("go.uber.org/multierr", 53000); ("go.uber.org/goleak", 52000); ("go.etcd.io/etcd/client/v3", 50000);
   ("go.etcd.io/bbolt", 49000); ("go.opentelemetry.io/otel", 48000); ("go.opentelemetry.io/contrib", 47000);
   ("sigs.k8s.io/controller-runtime", 45000); ("sigs.k8s.io/yaml", 44000); ("sigs.k8s.io/kustomize", 43000);
   ("helm.sh/helm/v3", 40000); ("istio.io/istio", 38000); ("oras.land/oras-go/v2", 35000); ("mvdan.cc/sh/v3", 30000);
   ("honnef.co/go/tools", 29000)].
Definition NPM_CRITICAL_INFRA : list (string * Z) :=
 [("react", 100000000); ("react-dom", 99000000); ("lodash", 98000000); ("express", 97000000); ("axios", 96000000);
   ("chalk", 95000000); ("debug", 94000000); ("commander", 93000000); ("semver", 92000000); ("typescript", 91000000);
   ("@babel/core", 90000000); ("webpack", 89000000); ("eslint", 88000000); ("@types/node", 87000000);
   ("rxjs", 86000000); ("moment", 85000000); ("uuid", 84000000); ("glob", 83000000); ("yargs", 82000000);
   ("dotenv", 81000000); ("classnames", 80000000); ("prop-types", 79000000); ("vue", 78000000); ("next", 77000000);
   ("react-router-dom", 76000000); ("redux", 75000000); ("zod", 74000000); ("node-fetch", 73000000);
   ("cross-env", 72000000); ("rimraf", 71000000); ("fs-extra", 70000000); ("inquirer", 69000000);
   ("colors", 68000000); ("minimist", 67000000); ("ws", 66000000); ("body-parser", 65000000); ("cors", 64000000);
   ("mongoose", 63000000); ("pg", 62000000); ("mysql2", 61000000); ("redis", 60000000); ("ioredis", 59000000);
   ("jsonwebtoken", 58000000); ("bcrypt", 57000000); ("passport", 56000000); ("socket.io", 55000000);
   ("nodemon", 54000000); ("ts-node", 53000000); ("jest", 52000000); ("mocha", 51000000); ("chai", 50000000);
   ("vite", 49000000); ("rollup", 48000000); ("esbuild", 47000000); ("@babel/preset-env", 46000000);
   ("postcss", 45000000); ("tailwindcss", 44000000); ("prettier", 43000000); ("husky", 42000000);
   ("dayjs", 41000000); ("date-fns", 40000000); ("validator", 39000000); ("winston", 38000000); ("pino", 37000000);
   ("nanoid", 36000000); ("undici", 35000000); ("@aws-sdk/client-s3", 34000000); ("graphql", 33000000);
   ("apollo-server", 32000000); ("sequelize", 31000000); ("prisma", 30000000); ("knex", 29000000)].
Definition SEARCH_SEEDS : list string :=
 ["react"; "vue"; "angular"; "svelte"; "http"; "cli"; "test"; "util"; "types"; "babel"; "webpack"; "eslint";
   "stream"; "async"; "promise"; "logger"; "config"; "parser"; "server"; "express"; "date"; "string"; "array";
   "object"; "file"; "fs"; "path"; "crypto"; "json"; "css"; "html"; "aws"; "sdk"; "graphql"; "database"; "orm";
   "redis"; "mongodb"; "socket"; "websocket"; "template"; "markdown"; "cache"; "queue"; "auth"; "jwt"; "oauth";
   "validation"; "schema"; "format"; "color"; "spinner"; "prompt"; "table"; "csv"; "xml"; "yaml"; "i18n"; "router";
   "store"; "state"; "hook"; "component"; "icon"; "build"; "bundle"; "compiler"; "transform"; "lint"; "prettier";
   "jest"; "mock"; "uuid"; "hash"; "compress"; "image"; "pdf"; "email"; "metrics"; "trace"; "docker"; "git"].

(** ** The registry

    The adapters register themselves when [pkgward.ecosystems] is imported, in this order, each
    under its identifier; with it, the kind of archive that is installed. *)
Definition register {A} (ecosystem_id : A -> string) (a : A) (adapter_registry : list (string * A)) : list (string * A) := dset (ecosystem_id a) a adapter_registry.
Definition install_archive_kind : list (string * string) :=
  fold_left (fun reg a => dset a.1 a.2 reg) [("pypi", "sdist"); ("crates", "crate"); ("gomod", "gomod_zip"); ("npm", "npm_tarball")] [].

(** ** Actions

    What an adapter calls: whether it came back without an exception, and the database. *)
Definition action : Type := ingest_db -> bool * ingest_db.
Definition skip : action := fun i => (true, i).
Definition and_then (a b : action) : action := fun i => let '(ok, i) := a i in if ok then b i else (false, i).
Definition in_turn (l : list action) : action := foldr and_then skip l.

Definition refreshing (f : wtable -> refresh_result * wtable) : action := fun i =>
  match f (watches i) with (Written _, t) => (true, set_watches t i) | (IntegrityFailed, t) => (false, set_watches t i) end.
Definition counting {N} (f : ingest_db -> N * ingest_db) : action := fun i => (true, (f i).2).
Definition strict {N} (f : ingest_db -> option N * ingest_db) : action := fun i => let '(n, i) := f i in (bool_decide (is_Some n), i).

(** [select(Watchlist).where(ecosystem == ...).limit(1)], and the same of the focus list. *)
Definition has_watchlist (eco : string) (i : ingest_db) : bool := negb (bool_decide (select (fun w => String.eqb (w_ecosystem w) eco) (watches i) = [])).

(** ** Start-up ([boot]) *)

(** npm, crates and Go: the list of the registry is built if it has no row, and otherwise
    completed; then the focus packages and one poll. *)
Definition registry_boot (eco : string) (exclusive : bool) (refresh seed_all seed_missing focus poll : action) : action :=
  in_turn [if exclusive then skip
           else fun i => if negb (has_watchlist eco i) then and_then refresh seed_all i else seed_missing i;
           focus; poll].
(** PyPI looks for any row at all, and completes nothing. *)
Definition pypi_boot (exclusive : bool) (refresh poll_all focus feeds pull : action) : action :=
  in_turn [if exclusive then skip
           else fun i => if bool_decide (rows (watches i) = []) then and_then refresh poll_all i else (true, i);
           focus; feeds; pull].

Section Pypi.
Variables (g : GateConfig) (fd : PypiCursor.FeedConfig) (exclusive : bool) (now : timestamp).
Variables (snapshot : option (list top_entry)) (o : Releases.outside) (feed : PypiCursor.rss_outside) (log : PypiCursor.outside).

Definition PypiAdapter_boot : action :=
  pypi_boot exclusive (refreshing (pypi_refresh now TOP_N snapshot)) (counting (pypi_poll_watchlist (g_queue g) o None))
    (strict (pypi_poll_focus (g_queue g) o))
    (fun i => match PypiCursor.poll_feeds_once fd feed exclusive i with (FeedPolled _, i) => (true, i) | (FeedRaised, i) => (false, i) end)
    (fun i => match PypiCursor.pull_since g log exclusive (Some DEFAULT_MAX_ITEMS) i with (PypiCursor.Polled _, i) => (true, i) | (PypiCursor.PollRaised, i) => (false, i) end).
End Pypi.

Section Npm.
Variables (cfg : NpmConfig) (queue_cfg : QueueConfig) (exclusive : bool) (now : timestamp).
Variables (answers : list (option (list (string * QArith_base.Q)))) (readme : option string) (o : Releases.outside) (changes : NpmCursor.outside) (p : NpmCursor.proc).

Definition NpmAdapter_boot : action :=
  registry_boot "npm" exclusive (refreshing (npm_refresh NPM_CRITICAL_INFRA now TOP_N answers readme)) (counting (npm_poll_watchlist queue_cfg o))
    (counting (npm_seed_missing queue_cfg o)) (counting (npm_poll_focus queue_cfg o))
    (fun i => match NpmCursor.poll_changes_once cfg exclusive changes p i with (NpmCursor.Polled _, _, i) => (true, i) | (_, _, i) => (false, i) end).
End Npm.

Section Crates.
Variables (fd : CratesFeeds.FeedConfig) (exclusive : bool) (now : timestamp) (page_of : Z -> option (list (string * Z))).
Variables (o : Releases.outside) (feeds : CratesFeeds.outside).

Definition CratesAdapter_boot : action :=
  registry_boot "crates" exclusive (refreshing (crates_refresh now page_of)) (counting (crates_poll_watchlist (cf_queue fd) o))
    (counting (crates_seed_missing (cf_queue fd) o)) (counting (crates_poll_focus (cf_queue fd) o))
    (counting (CratesFeeds.poll_feeds_once fd feeds exclusive)).
End Crates.

Section Gomod.
Variables (http : string -> proxy_answer).
Variables (g : GateConfig) (exclusive scan_pseudo : bool) (now : timestamp) (respond : Z * option Z -> Z -> nat -> gh_response) (fuel poll_fuel : nat).
Variables (readme : option string) (o : go_outside) (index : GoCursor.outside).

(** A collection of repositories that does not come back within the fuel counts as one that raised. *)
Definition GoModAdapter_boot : action :=
  registry_boot "gomod" exclusive
    (fun i => match go_refresh GO_CRITICAL_INFRA respond fuel now readme (watches i) with
              | Some (Written _, t) => (true, set_watches t i) | Some (IntegrityFailed, t) => (false, set_watches t i) | None => (false, i) end)
    (counting (go_seed_queue http (g_queue g) o)) (counting (go_seed_missing http (g_queue g) o)) (strict (go_poll_focus http (g_queue g) o))
    (fun i => match GoCursor.poll_index_once g index scan_pseudo exclusive now poll_fuel i with (GoCursor.Polled _, i) => (true, i) | (_, i) => (false, i) end).
End Gomod.

(** The boots one after the other; one that raised is logged ([runtime._async_run]). *)
Definition boot_all (ingest_enabled : bool) (boots : list action) (i : ingest_db) : ingest_db :=
  if ingest_enabled then fold_left (fun i b => (b i).2) boots i else i.

(** ** Scheduled jobs ([schedule_jobs]) *)

Inductive ingest_job := Poll | Pull | FocusPoll | Refresh | Reconcile.
Definition WEEK : Z := 7 * 24 * 3600.
(** The jobs of an adapter with their intervals in seconds; what the watchlist needs is left out in focused mode. *)
Definition PyPIAdapter_schedule_jobs (exclusive : bool) : list (ingest_job * Z) :=
  [(Poll, 60); (Pull, 120); (FocusPoll, 300)] ++ (if exclusive then [] else [(Refresh, WEEK)]).
Definition NpmAdapter_schedule_jobs (exclusive : bool) : list (ingest_job * Z) :=
  [(Poll, 60); (FocusPoll, 300)] ++ (if exclusive then [] else [(Refresh, WEEK)]).
Definition CratesAdapter_schedule_jobs (exclusive : bool) : list (ingest_job * Z) :=
  [(Poll, 60); (FocusPoll, 300)] ++ (if exclusive then [] else [(Refresh, WEEK); (Reconcile, 15 * 60)]).
Definition GoModAdapter_schedule_jobs (exclusive : bool) : list (ingest_job * Z) :=
  [(Poll, 60); (FocusPoll, 300)] ++ (if exclusive then [] else [(Refresh, WEEK)]).

(** ** Sweeping ([sweep_orphans]) *)

Record entry := mkEntry { en_name : string; en_mtime : option Z; en_removable : bool }.
Section Sweep.
Variables (now max_age : Z).
Definition orphan (e : entry) : bool := match en_mtime e with Some t => max_age <? now - t | None => false end.
(** The number of removals, and what is left; [None]: the directory is not there. *)
Definition sweep_orphans (work_root : option (list entry)) : Z * option (list entry) :=
  match work_root with
  | None => (0, None)
  | Some es => (Z.of_nat (List.length (bfilter orphan es)), Some (bfilter (fun e => negb (orphan e && en_removable e)) es))
  end.
End Sweep.
(** The age all four adapters sweep at, in seconds. *)
Definition SWEEP_AGE : Z := 3600.

(** ** Backfilling *)

(** crates.io and npm have no history to replay. *)
Definition crates_backfill (days_ : Z) (i : ingest_db) : option Z * ingest_db := (Some 0, i).
Definition npm_backfill (days_ : Z) (i : ingest_db) : option Z * ingest_db := (Some 0, i).

(** ** Lemmas *)

Lemma take_ordered_prefix top_n seen names rest : NoDup (map lower names) -> (forall n, n ∈ names -> lower n ∉ seen) ->
  (List.length seen + List.length names <= top_n)%nat -> exists l, take_ordered top_n seen (names ++ rest) = names ++ l.
Proof.
  revert seen. induction names as [|n names IH]; intros seen Hnd Hseen Hlen; [by eexists|]. cbn [app take_ordered map List.length] in *.
  apply NoDup_cons in Hnd as [Hn Hnd]. assert (str_in (lower n) seen = false) as -> by (apply not_true_is_false; rewrite str_in_true; apply Hseen; by left).
  destruct names as [|n' names].
  - cbn [app]. destruct (_ <=? _)%nat; by eexists.
  - destruct (Nat.leb_spec top_n (S (List.length seen))); [cbn in Hlen; lia|].
    destruct (IH (lower n :: seen)) as [l ->]; [done| |cbn in *; lia|by exists l].
    intros m Hm [E|E]%elem_of_cons; [|by apply (Hseen m); [by right|]]. apply Hn. rewrite <- E. apply list_elem_of_fmap. by exists m.
Qed.

(** Whatever the search index and the curated list answer, the keystones head the list that is
    written, each under its own rank: an outage of both cannot unwatch them. *)
Theorem keystones_ranked answers readme : exists l, npm_final NPM_CRITICAL_INFRA TOP_N answers readme = map fst NPM_CRITICAL_INFRA ++ l.
Proof.
  unfold npm_final. apply take_ordered_prefix; [|intros n _; apply not_elem_of_nil|].
  - apply (bool_decide_unpack _). by vm_compute.
  - apply Nat.leb_le. by vm_compute.
Qed.

(** The archive that is detonated is the one whose install analyzer ran. *)
Lemma kinds_agree eco : dget eco install_archive_kind = dget eco PREFERRED_ARCHIVE.
Proof. done. Qed.

(** In focused mode a start-up does nothing but the focus packages and the polls. *)
Lemma exclusive_boot eco refresh seed_all seed_missing focus poll i :
  registry_boot eco true refresh seed_all seed_missing focus poll i = in_turn [focus; poll] i.
Proof. done. Qed.

(** Nothing but what outlived the age is removed, and the scans of the last hour keep their files. *)
Lemma sweep_spares_recent now es e : e ∈ es -> (forall t, en_mtime e = Some t -> now - SWEEP_AGE <= t) ->
  exists es', (sweep_orphans now SWEEP_AGE (Some es)).2 = Some es' /\ e ∈ es'.
Proof.
  intros He Ht. eexists. split; [done|]. apply bfilter_in. split; [done|]. unfold orphan.
  destruct (en_mtime e) as [t|] eqn:E; [|done]. specialize (Ht t eq_refl). destruct (Z.ltb_spec SWEEP_AGE (now - t)); [lia|done].
Qed.

(** The backfill ends after as many pulls as it may make, and earlier at the first that enqueues nothing. *)
Lemma pulls_stop g exclusive log left k total i i' : PypiCursor.pull_since g (log k) exclusive (Some 5000%nat) i = (PypiCursor.Polled 0, i') ->
  PypiCursor.pypi_pulls g exclusive log (S left) k total i = (Some total, i').
Proof. intros E. cbn [PypiCursor.pypi_pulls]. by rewrite E. Qed.

(** ** Concrete runs *)

Definition ex_registry_out : Releases.outside := Releases.mkOut (fun _ => Some "1.0") (fun l => l) (fun _ _ _ _ => None) 5.
Definition ex_no_feed : PypiCursor.rss_outside :=
  PypiCursor.mkRss None (fun _ => true) (fun _ => None) (fun l => l) (fun l => l) (fun _ _ _ => None) (fun _ i => i) 5.
Definition ex_no_log : PypiCursor.outside := PypiCursor.mkPypiOutside None (fun _ => None) (fun _ _ => None) 5.
Definition ex_feed_cfg : PypiCursor.FeedConfig := PypiCursor.mkFeedConfig default_gate Core.default_diff false 0.
Definition ex_boot (i : ingest_db) : bool * ingest_db :=
  PypiAdapter_boot default_gate ex_feed_cfg false 9 (Some WatchRefresh.ex_top) ex_registry_out ex_no_feed ex_no_log i.
Definition ex_npm_row : ingest_db := Releases.ex_i [Releases.ex_watch 1 "npm" "evil"].

(** PyPI's adapter asks whether the list has any row, whatever its registry: one row of npm, such as
    an automatic addition, and the PyPI list is left empty at the start, where a table without
    rows is filled. *)
Example pypi_list_never_filled :
  watch_names "pypi" (watches (ex_boot ex_npm_row).2) = [] /\ (ex_boot ex_npm_row).1 = true /\
  watch_names "pypi" (watches (ex_boot (Releases.ex_i [])).2) = ["requests"; "numpy"].
Proof. vm_compute. done. Qed.

(** A changelog of three batches, of which the second has nothing that is watched. *)
Definition ex_history (k : nat) : PypiCursor.outside :=
  PypiCursor.mkPypiOutside (Some 0)
    (fun _ => Some match k with
      | O => [PypiCursor.mkEvent "a" None (Some "create") 1; PypiCursor.mkEvent "a" (Some "1") (Some "new release") 2]
      | 1%nat => [PypiCursor.mkEvent "old" (Some "2") (Some "new release") 3]
      | _ => [PypiCursor.mkEvent "b" None (Some "create") 4; PypiCursor.mkEvent "b" (Some "1") (Some "new release") 5]
      end) (fun _ _ => None) 9.

(** A batch in which nothing passes the gate counts zero and ends the backfill, though more of the changelog is left. *)
Example backfill_stops_early :
  let r := PypiCursor.pypi_backfill default_gate false ex_history 30 (Releases.ex_i []) in
  r.1 = Some 1 /\ map name (rows (i_queue r.2)) = ["a"] /\ get_cursor "pypi" r.2 = Some 3.
Proof. by vm_compute. Qed.

(** The days only bound the number of pulls: the history asked for begins at the stored cursor, and
    on a new database at the registry's present. *)
Example days_choose_nothing : PypiCursor.pypi_backfill default_gate false (fun _ => PypiCursor.ex_outside (Some 103) None) 1 (Releases.ex_i []) =
  PypiCursor.pypi_backfill default_gate false (fun _ => PypiCursor.ex_outside (Some 103) None) 365 (Releases.ex_i []) /\
  (PypiCursor.pypi_backfill default_gate false (fun _ => PypiCursor.ex_outside (Some 103) None) 365 (Releases.ex_i [])).1 = Some 0.
Proof. by vm_compute. Qed.

Example sweep_ex : sweep_orphans 10000 SWEEP_AGE (Some [mkEntry "old" (Some 6399) true; mkEntry "new" (Some 6400) true; mkEntry "gone" None true; mkEntry "stuck" (Some 0) false]) =
  (2, Some [mkEntry "new" (Some 6400) true; mkEntry "gone" None true; mkEntry "stuck" (Some 0) false]).
Proof. by vm_compute. Qed.
