(* ===== verification/Clients.v ===== *)
(** * The pollers' requests (ingest/cursor.py, ingest/watchlist.py, ingest/feeds.py, maintainer_pivot.py)

    The small HTTP clients behind the arguments of the pollers: how an answer, an
    error status, an exception or a malformed body becomes the value that the
    poller reads.  The requests are those of Fetch.v's monad; the pivot's own
    client streams its body under a cap. *)
From S2P Require Import UrlDeps GoCursor CratesFeeds NpmCursor.
From S2P Require Import Prelude PyStr Text Json Fetch.
From Stdlib Require Import Ascii.

Open Scope string_scope.
Open Scope list_scope.
Open Scope Z_scope.

(** [try: ... except Exception: return None]. *)
Definition attempt {A} (m : net A) : net (option A) := fun s => match m s with (inl a, s') => (inl (Some a), s') | (inr _, s') => (inl None, s') end.
Definition or_none {A} (m : net (option A)) : net (option A) := r ← attempt m; mret (mjoin r).

Section Requests.
Variables (server : list string -> string -> Fetch.reply) (loads : string -> option json) (str_of : json -> string).

(** ** npm *)

(** [ingest/watchlist.py]: the newest version of a package. *)
Definition npm_resolve_latest (nm : string) : net (option string) :=
  or_none (
    resp ← Fetch.get_with_retry server (REGISTRY_BASE +:+ "/" +:+ _encode_name nm +:+ "/latest") 4;
    if negb (r_status resp =? 200) then mret None
    else v ← json_of loads resp; o ← as_dict v;
      let version := jget "version" o JNull in
      mret (if json_truthy version then Some (text str_of version) else None)).
(** [ingest/cursor.py]: the document with every version's manifest. *)
Definition _fetch_packument (nm : string) : net (option json) :=
  or_none (
    resp ← Fetch.get_with_retry server (REGISTRY_BASE +:+ "/" +:+ _encode_name nm) 4;
    if negb (r_status resp =? 200) then mret None else v ← json_of loads resp; mret (Some v)).

(** ** crates.io *)

(** The items of an RSS document, [None] where it does not parse. *)
Variable rss_items : string -> option (list rss_item).
Definition _fetch_rss (url : string) : net (list (string * string)) :=
  doc ← attempt (resp ← client_get server url; _ ← raise_for_status resp; mret (r_body resp));
  mret (match doc with Some body => parse_rss_items (rss_items body) | None => [] end).
(** The names are a set; [resolve] is the adapter's, under the rate limit. *)
Variable resolve : string -> net string.
Fixpoint _resolve_new_latest (names : list string) : net (list (string * string)) :=
  match names with
  | [] => mret []
  | nm :: names' =>
      v ← attempt (resolve nm); rest ← _resolve_new_latest names';
      mret (match v with Some v => (nm, v) :: rest | None => rest end)
  end.

(** ** The Go index *)

Definition INDEX_URL : string := "https://index.golang.org/index".
(** The address with its query, as the client encodes it. *)
Variable with_params : string -> list (string * string) -> string.

Definition ndjson_line (line : string) : option json := let line := strip line in if truthy line then loads line else None.
Definition _parse_ndjson (body : string) : list json := omap ndjson_line (splitlines (strip body)).
Definition _fetch_page (since : string) (limit : Z) : net (list json) :=
  body ← attempt (
    resp ← client_get server (with_params INDEX_URL [("since", since); ("limit", show limit)]);
    _ ← raise_for_status resp; mret (r_body resp));
  mret (match body with Some text => _parse_ndjson text | None => [] end).

End Requests.

(** [_github_headers]. *)
Definition _github_headers (user_agent : string) (token : option string) : list (string * string) :=
  [("User-Agent", user_agent); ("Accept", "application/vnd.github+json")] ++
  (if otruthy token then [("Authorization", "Bearer " +:+ ostr token)] else []).

(** ** The maintainer pivot *)

Definition _MAX_BODY_BYTES : Z := 8 * 1024 * 1024.
(** The reading loop; [None] where the cap is exceeded. *)
Fixpoint read_body (buf : string) (chunks : list string) : option string :=
  match chunks with
  | [] => Some buf
  | c :: cs => let buf' := buf +:+ c in if _MAX_BODY_BYTES <? Z.of_nat (len buf') then None else read_body buf' cs
  end.

Section Pivot.
Variables (bracketed_host_ok : string -> bool) (resolves : string -> UrlDeps.answer) (get : string -> UrlDeps.response).
Variable loads : string -> option json.

(** The outer [None]: [urlparse] raises. *)
Definition _get_text (url : string) : option string :=
  host ← hostname bracketed_host_ok url;
  Some (if negb (truthy host) || negb (UrlDeps._ssrf_safe (resolves host)) then ""
        else match get url with
        | None => ""
        | Some (status, chunks) => if status =? 200 then default "" (read_body "" chunks) else ""
        end).
Definition _get_json (url : string) : option (option json) :=
  text ← _get_text url; Some (if truthy text then loads text else None).

End Pivot.

(** ** Lemmas *)

Lemma attempt_total {A} (m : net A) s : exists r s', attempt m s = (inl r, s').
Proof. unfold attempt. destruct (m s) as [[a|e] s']; by eexists _, _. Qed.

Lemma bind_total {A B} (m : net A) (k : A -> net B) s : (exists a s1, m s = (inl a, s1)) -> (forall a s1, exists b s2, k a s1 = (inl b, s2)) ->
  exists b s2, (m ≫= k) s = (inl b, s2).
Proof. intros (a & s1 & E) Hk. unfold mbind, net_bind. rewrite E. apply Hk. Qed.

(** None of the pollers' clients raises: whatever the server answers, a value comes back. *)
Theorem clients_never_raise server loads str_of rss_items resolve with_params nm names url since limit s :
  (exists r s', npm_resolve_latest server loads str_of nm s = (inl r, s')) /\
  (exists r s', _fetch_packument server loads nm s = (inl r, s')) /\
  (exists r s', _fetch_rss server rss_items url s = (inl r, s')) /\
  (exists r s', _resolve_new_latest resolve names s = (inl r, s')) /\
  (exists r s', _fetch_page server loads with_params since limit s = (inl r, s')).
Proof.
  split_and!.
  1-3, 5: apply bind_total; [apply attempt_total|intros a s1; by eexists _, _].
  revert s. induction names as [|n names IH]; intros s; [by eexists _, _|]. cbn [_resolve_new_latest].
  apply bind_total; [apply attempt_total|]. intros v s1. apply bind_total; [apply IH|]. intros rest s2. by eexists _, _.
Qed.

Lemma read_body_bound buf cs b : Z.of_nat (len buf) <= _MAX_BODY_BYTES -> read_body buf cs = Some b -> Z.of_nat (len b) <= _MAX_BODY_BYTES.
Proof.
  revert buf. induction cs as [|c cs IH]; intros buf Hb; cbn [read_body]; [by intros [= <-]|]. cbv zeta.
  destruct (Z.ltb_spec _MAX_BODY_BYTES (Z.of_nat (len (buf +:+ c)))); [done|]. by apply IH.
Qed.

(** The pivot reads text only from a host all of whose addresses are public, answered with
    status 200, and never more than eight megabytes. *)
Theorem pivot_requests_guarded ok resolves get url text : _get_text ok resolves get url = Some text -> text <> "" ->
  Z.of_nat (len text) <= _MAX_BODY_BYTES /\
  exists host chunks infos, hostname ok url = Some host /\ get url = Some (200, chunks) /\ resolves host = Some infos /\ infos <> [] /\
    forall i, i ∈ infos -> exists a, i = Some a /\ UrlDeps.forbidden a = false.
Proof.
  unfold _get_text. intros (host & Hh & [= Ht])%bind_Some Hne. destruct (truthy host); [|by subst]. destruct (UrlDeps._ssrf_safe (resolves host)) eqn:Es; [|by subst].
  cbn [negb orb] in Ht. destruct (get url) as [[status chunks]|]; [|by subst]. destruct (Z.eqb_spec status 200) as [->|]; [|by subst].
  destruct (read_body "" chunks) as [b|] eqn:Eb; [|by subst]. change (b = text) in Ht. subst text. split.
  - eapply read_body_bound; [|exact Eb]. vm_compute. discriminate.
  - unfold UrlDeps._ssrf_safe in Es. destruct (resolves host) as [[|i infos]|] eqn:Er; [done| |done]. exists host, chunks, (i :: infos). split_and!; try done.
    intros j Hj. rewrite forallb_forall in Es. apply list_elem_of_In in Hj. specialize (Es j Hj). destruct j as [a|]; [|done]. exists a. split; [done|]. by apply negb_true_iff.
Qed.

(** ** Concrete runs *)

Definition ex_public : UrlDeps.address := UrlDeps.mkAddress false false false false false false.
Definition ex_private : UrlDeps.address := UrlDeps.mkAddress true false false false false false.

Lemma pivot_requests_guarded_witness :
  _get_text (fun _ => true) (fun _ => Some [Some ex_public]) (fun _ => Some (200, ["a"; "b"])) "https://pypi.org/user/x/" = Some "ab" /\
  Z.of_nat (len "ab") <= _MAX_BODY_BYTES.
Proof.
  split; [by vm_compute|].
  exact (proj1 (pivot_requests_guarded (fun _ => true) (fun _ => Some [Some ex_public]) (fun _ => Some (200, ["a"; "b"])) "https://pypi.org/user/x/" "ab" eq_refl ltac:(discriminate))).
Defined.

(** One private address of several blocks the request; a bracket that does not close leaves as an exception. *)
Example guard_ex :
  _get_text (fun _ => true) (fun _ => Some [Some ex_public; Some ex_private]) (fun _ => Some (200, ["a"])) "https://pypi.org/" = Some "" /\
  _get_text (fun _ => true) (fun _ => None) (fun _ => None) "https://[::1/" = None /\
  _get_text (fun _ => true) (fun _ => Some [Some ex_public]) (fun _ => Some (302, ["a"])) "https://pypi.org/" = Some "".
Proof. by vm_compute. Qed.

(** A line that is no JSON is passed over; the others of the page are read. *)
Example ndjson_ex : _parse_ndjson (fun l => if String.eqb l "{1}" then Some (JInt 1) else None) (" {1} " +:+ String LF ("oops" +:+ String LF (String LF "{1}"))) = [JInt 1; JInt 1].
Proof. by vm_compute. Qed.
