(* ===== verification/Host.v ===== *)
(** * The process and its host ([util/], [node_id.py], [store/session.py], [intel/schema.py])

    What the process reads from its environment, which database it opens and how it
    completes an older one, how it names itself, and the linter of intel packs. *)
From S2P Require Import Prelude PyStr Text Json Tree Intel Packs.
From Stdlib Require Import Ascii.

Open Scope string_scope.
Open Scope list_scope.
Open Scope Z_scope.

Abbreviation environ := (string -> option string).

(** ** Environment ([util/env.py], [util/user_agent.py]) *)

Fixpoint env_chain (env : environ) (names : list string) (dflt : option string) : option string :=
  match names with
  | [] => dflt
  | n :: names' => if otruthy (env n) then env n else env_chain env names' dflt
  end.

Definition _PROJECT_URL : string := "https://github.com/boredchilada/pkgward-oss".
Definition user_agent (version : string) (env : environ) : string :=
  let contact := strip (default "" (env "PKGWARD_CONTACT_EMAIL")) in
  if truthy contact then "pkgward/" +:+ version +:+ " (contact: " +:+ contact +:+ ")" else "pkgward/" +:+ version +:+ " (+" +:+ _PROJECT_URL +:+ ")".

(** ** Optional libraries ([util/capabilities.py]) *)

Record tiers := mkTiers { HAS_YARA : bool; HAS_PPDEEP : bool; HAS_TLSH : bool }.
Definition capabilities (t : tiers) : list (string * bool) := [("yara", HAS_YARA t); ("ppdeep", HAS_PPDEEP t); ("tlsh", HAS_TLSH t)].
(** The names that the start-up line warns of, and the result. *)
Definition log_capabilities (t : tiers) : list string * list (string * bool) :=
  let caps := capabilities t in (py_sorted (map fst (bfilter (fun kv => negb kv.2) caps)), caps).

(** ** The node ([node_id.py]) *)

(** The files of the repository's [.git], by relative path; [None] where the read raises. *)
Record git_dir := mkGit { g_exists : string -> bool; g_read : string -> option string }.

Definition packed_sha (ref line : string) : option string :=
  if endswith line (" " +:+ ref) then Some (str_take 7 (before_first " " line)) else None.
(** [git] is [None] without a checkout; an exception is no version. *)
Definition _git_sha (git : git_dir) : option string :=
  head_ ← strip <$> g_read git "HEAD";
  if negb (startswith head_ "ref:") then Some (str_take 7 head_)
  else
    let ref := strip (str_drop 4 head_) in
    if g_exists git ref then str_take 7 ∘ strip <$> g_read git ref
    else if g_exists git "packed-refs" then text ← g_read git "packed-refs"; head (omap (packed_sha ref) (splitlines text))
    else None.

Section Node.
Variables (env : environ) (hostname : string) (git : git_dir) (installed : option string).
Definition node_name : string := str_or (default "" (env "PKGWARD_NODE_NAME")) hostname.
Definition node_version : string :=
  let sha := default "" (_git_sha git) in
  if truthy sha then sha
  else
    let baked := default "" (env "PKGWARD_BUILD_SHA") in
    if truthy baked && negb (String.eqb baked "unknown") then baked else default "unknown" installed.
Definition node_label : string := node_name +:+ " @ " +:+ node_version.
End Node.

(** ** The database ([store/session.py]) *)

Definition DEFAULT_URL : string := "sqlite:///pkgward.db".
Definition _url (env : environ) : string :=
  str_or (default "" (env_chain env ["PKGWARD_DB_URL"; "PKGWATCH_DB_URL"; "PYPI_SCANNER_DB_URL"; "pkgward_DB_URL"] (Some DEFAULT_URL))) DEFAULT_URL.

(** How the engine is made; [None]: a size that is no number raises. *)
Inductive engine := Sqlite (url : string) | Pooled (url : string) (pool_size max_overflow : Z).
Definition create_engine (env : environ) : option engine :=
  let url := _url env in
  if startswith url "sqlite" then Some (Sqlite url)
  else
    pool_size ← py_int (default "16" (env "PKGWARD_DB_POOL_SIZE"));
    max_overflow ← py_int (default "8" (env "PKGWARD_DB_MAX_OVERFLOW"));
    Some (Pooled url pool_size max_overflow).
(** The engine of the process ([_engine]) is made once: a later environment is not looked at.
    The second part is the module's variable afterwards. *)
Definition get_engine (env : environ) (cached : option engine) : option engine * option engine :=
  match cached with Some e => (Some e, cached) | None => let e := create_engine env in (e, e) end.
Definition reset_engine (cached : option engine) : option engine := None.
(** The statements on each new SQLite connection. *)
Definition _sqlite_tune : list string :=
  ["PRAGMA journal_mode=WAL"; "PRAGMA busy_timeout=10000"; "PRAGMA synchronous=NORMAL"; "PRAGMA foreign_keys=ON"].

(** The tables of a database with their columns and types. *)
Abbreviation tables := (list (string * list (string * string))).
Inductive dialect := Postgresql | SqliteDialect | OtherDialect.

Definition _ADDITIVE_COLUMNS : list (string * string * string) :=
  [("file_hash", "tlsh", "VARCHAR(128)"); ("package", "downloads_weekly", "BIGINT"); ("package", "downloads_fetched_at", "TIMESTAMPTZ")].

(** [ALTER TABLE ... ADD COLUMN]; [None] where the table is missing or, without [IF NOT EXISTS], the column is there. *)
Definition add_column (if_not_exists : bool) (tb col ty : string) (t : tables) : option tables :=
  cols ← dget tb t;
  if dhas col cols then if if_not_exists then Some t else None else Some (dset tb (dset col ty cols) t).
Definition ensure_column (d : dialect) (t : tables) (c : string * string * string) : option tables :=
  let '(tb, col, ty) := c in
  match d with
  | Postgresql => add_column true tb col ty t
  | SqliteDialect => if dhas col (default [] (dget tb t)) then Some t else add_column false tb col ty t
  | OtherDialect => Some t
  end.
(** One transaction: an exception rolls it back and is passed over. *)
Definition _ensure_columns (d : dialect) (t : tables) : tables := default t (foldl (fun acc c => t ← acc; ensure_column d t c) (Some t) _ADDITIVE_COLUMNS).
(** [create_all] adds the tables that are missing, with all their columns. *)
Definition create_all (schema t : tables) : tables := fold_left (fun t kv => if dhas kv.1 t then t else dset kv.1 kv.2 t) schema t.
Definition init_db (d : dialect) (schema t : tables) : tables := _ensure_columns d (create_all schema t).

(** ** The linter of packs ([intel/schema.py]) *)

Definition _KNOWN_TOML_FILES : list (string * list string) :=
  [("thresholds.toml", ["suspicious_min"; "malicious_min"; "category_cap"]); ("scoring_weights.toml", ["low"; "medium"; "high"; "critical"]);
   ("behavioral_chains.toml", []); ("lure_keywords.toml", []); ("ioc_whitelist.toml", []); ("malware_patterns.toml", []);
   ("gomod_benign_tools.toml", []); ("detonation/rules_data.toml", []); ("detonation/noise_baseline.toml", [])].

Definition type_name (v : toml_value) : string :=
  match v with VStr _ => "str" | VInt _ => "int" | VFloat _ => "float" | VBool _ => "bool" | VArr _ => "list" | VTable _ => "dict" | VDate _ => "datetime" end.
(** [isinstance(v, int)], which booleans are. *)
Definition is_int (v : toml_value) : bool := match v with VInt _ | VBool _ => true | _ => false end.
Definition is_str (v : toml_value) : bool := match v with VStr _ => true | _ => false end.

Section Lint.
(** A document, or the text of its parse error. *)
Variable toml_parse : string -> toml_table + string.

Definition key_issue (rel : string) (data : toml_table) (key : string) : option string :=
  match dget key data with
  | Some v => if is_int v then None else Some (rel +:+ ": " +:+ repr key +:+ " expected int, got " +:+ type_name v)
  | None => None
  end.
Definition file_issues (d : pack_dir) (f : string * list string) : list string :=
  match dget f.1 (pd_files d) with
  | None => []
  | Some text => match toml_parse text with inr e => [f.1 +:+ ": parse error: " +:+ e] | inl data => omap (key_issue f.1 data) f.2 end
  end.
Definition chain_issues (d : pack_dir) : list string :=
  match dget "behavioral_chains.toml" (pd_files d) with
  | None => []
  | Some text =>
      match toml_parse text with
      | inr _ => []
      | inl data =>
          match dget "chain_ids" data with
          | None => []
          | Some (VArr l) => if forallb is_str l then [] else ["behavioral_chains.toml: chain_ids must be list[str]"]
          | Some _ => ["behavioral_chains.toml: chain_ids must be list[str]"]
          end
      end
  end.
(** The files right below [yara/]. *)
Definition yara_file (p : string) : bool :=
  startswith p "yara/" && negb (has_char "/" (str_drop 5 p)) && (endswith p ".yar" || endswith p ".yara").
Definition yara_issues (d : pack_dir) : list string :=
  if str_in "yara" (pd_dirs d) && negb (existsb (fun f => yara_file f.1) (pd_files d)) then ["yara/ exists but contains no .yar / .yara files"] else [].
Definition manifest_issues (d : pack_dir) : list string :=
  match dget "intel_pack.toml" (pd_files d) with
  | None => []
  | Some text => match toml_parse text with inr e => ["intel_pack.toml: " +:+ e] | inl _ => [] end
  end.
(** [root] is [None] where there is no directory. *)
Definition validate (path : string) (root : option pack_dir) : list string :=
  match root with
  | None => ["intel pack root does not exist: " +:+ path]
  | Some d => manifest_issues d ++ flat_map (file_issues d) _KNOWN_TOML_FILES ++ chain_issues d ++ yara_issues d
  end.
End Lint.

(** ** Lemmas *)

Lemma env_chain_first env names dflt n : n ∈ names -> otruthy (env n) = true -> otruthy (env_chain env names dflt) = true.
Proof.
  induction names as [|m names IH]; intros Hn Ht; [by apply elem_of_nil in Hn|]. cbn [env_chain].
  destruct (otruthy (env m)) eqn:E; [done|]. apply elem_of_cons in Hn as [->|Hn]; [congruence|auto].
Qed.

(** An address is always found. *)
Lemma url_present env : _url env <> "".
Proof. unfold _url, str_or. destruct (truthy _) eqn:E; [|done]. intros H. by rewrite H in E. Qed.

(** The column is there with some type. *)
Definition has_column (t : tables) (tb col : string) : Prop := exists cols, dget tb t = Some cols /\ dhas col cols = true.

Lemma has_column_set t tb col cols tb' col' ty : dget tb t = Some cols -> has_column t tb' col' -> has_column (dset tb (dset col ty cols) t) tb' col'.
Proof.
  intros Hg (cols' & Hg' & Hc). unfold has_column. destruct (decide (tb' = tb)) as [->|Hne].
  - exists (dset col ty cols). rewrite dget_dset_eq. split; [done|]. assert (cols' = cols) as -> by congruence. unfold dhas in *.
    destruct (decide (col' = col)) as [->|]; [by rewrite dget_dset_eq|by rewrite dget_dset_ne by done].
  - exists cols'. by rewrite dget_dset_ne by done.
Qed.

Lemma ensure_column_spec d t tb col ty : d <> OtherDialect -> is_Some (dget tb t) ->
  exists t', ensure_column d t (tb, col, ty) = Some t' /\ has_column t' tb col /\
    (forall tb' col', has_column t tb' col' -> has_column t' tb' col') /\ (forall tb', is_Some (dget tb' t) -> is_Some (dget tb' t')) /\
    (has_column t tb col -> t' = t).
Proof.
  intros Hd [cols Hg]. unfold ensure_column, add_column. rewrite Hg. cbn [mbind option_bind default].
  assert (forall b : bool, exists t', (if dhas col cols then Some t else Some (dset tb (dset col ty cols) t)) = Some t' /\ has_column t' tb col /\
    (forall tb' col', has_column t tb' col' -> has_column t' tb' col') /\ (forall tb', is_Some (dget tb' t) -> is_Some (dget tb' t')) /\
    (has_column t tb col -> t' = t)) as H.
  { intros _. destruct (dhas col cols) eqn:Ec.
    - exists t. split_and!; [done|by exists cols|done|done|done].
    - eexists. split; [done|]. split_and!.
      + exists (dset col ty cols). rewrite dget_dset_eq. split; [done|]. unfold dhas. by rewrite dget_dset_eq.
      + intros tb' col'. by apply has_column_set.
      + intros tb' Hs. destruct (decide (tb' = tb)) as [->|]; [rewrite dget_dset_eq; by eexists|by rewrite dget_dset_ne by done].
      + intros (cols' & Hg' & Hc). congruence. }
  destruct d; [apply (H true)| |done]. destruct (H true) as (t' & E & Hr). exists t'. split; [|done]. rewrite <- E. change (id cols) with cols. by destruct (dhas col cols).
Qed.

(** The three additions in turn. *)
Lemma ensure_columns_steps d t t1 t2 t3 : ensure_column d t ("file_hash", "tlsh", "VARCHAR(128)") = Some t1 ->
  ensure_column d t1 ("package", "downloads_weekly", "BIGINT") = Some t2 ->
  ensure_column d t2 ("package", "downloads_fetched_at", "TIMESTAMPTZ") = Some t3 -> _ensure_columns d t = t3.
Proof. intros E1 E2 E3. unfold _ensure_columns, _ADDITIVE_COLUMNS. cbn [foldl mbind option_bind]. by rewrite E1; cbn [mbind option_bind]; rewrite E2; cbn [mbind option_bind]; rewrite E3. Qed.

(** Opening an older database completes it.  Where the tables are there, every additive column is
    there afterwards, no column is lost, and opening it again changes nothing. *)
Theorem columns_ensured d t : d <> OtherDialect -> is_Some (dget "file_hash" t) -> is_Some (dget "package" t) ->
  let t' := _ensure_columns d t in
  (forall c, c ∈ _ADDITIVE_COLUMNS -> has_column t' c.1.1 c.1.2) /\
  (forall tb col, has_column t tb col -> has_column t' tb col) /\ _ensure_columns d t' = t'.
Proof.
  intros Hd Hf Hp.
  destruct (ensure_column_spec d t "file_hash" "tlsh" "VARCHAR(128)" Hd Hf) as (t1 & E1 & C1 & K1 & S1 & _).
  destruct (ensure_column_spec d t1 "package" "downloads_weekly" "BIGINT" Hd (S1 _ Hp)) as (t2 & E2 & C2 & K2 & S2 & _).
  destruct (ensure_column_spec d t2 "package" "downloads_fetched_at" "TIMESTAMPTZ" Hd (S2 _ (S1 _ Hp))) as (t3 & E3 & C3 & K3 & S3 & _).
  cbv zeta. rewrite (ensure_columns_steps d t t1 t2 t3 E1 E2 E3).
  destruct (ensure_column_spec d t3 "file_hash" "tlsh" "VARCHAR(128)" Hd (S3 _ (S2 _ (S1 _ Hf)))) as (u1 & F1 & _ & _ & _ & U1).
  destruct (ensure_column_spec d t3 "package" "downloads_weekly" "BIGINT" Hd (S3 _ (S2 _ (S1 _ Hp)))) as (u2 & F2 & _ & _ & _ & U2).
  destruct (ensure_column_spec d t3 "package" "downloads_fetched_at" "TIMESTAMPTZ" Hd (S3 _ (S2 _ (S1 _ Hp)))) as (u3 & F3 & _ & _ & _ & U3).
  rewrite U1 in F1 by auto. rewrite U2 in F2 by auto. rewrite U3 in F3 by auto. split_and!.
  - intros c. unfold _ADDITIVE_COLUMNS. rewrite !elem_of_cons, elem_of_nil. intros [->|[->|[->|[]]]]; [exact (K3 _ _ (K2 _ _ C1))|exact (K3 _ _ C2)|exact C3].
  - auto.
  - by apply (ensure_columns_steps d t3 t3 t3 t3).
Qed.

(** ** Concrete runs *)

Definition ex_tables : tables := [("file_hash", [("sha256", "VARCHAR(64)")]); ("package", [("name", "TEXT"); ("downloads_weekly", "BIGINT")])].

Lemma columns_ensured_witness : has_column (_ensure_columns SqliteDialect ex_tables) "file_hash" "tlsh" /\ has_column (_ensure_columns SqliteDialect ex_tables) "file_hash" "sha256".
Proof.
  destruct (columns_ensured SqliteDialect ex_tables) as (H1 & H2 & _); [done|by eexists|by eexists|]. split.
  - apply (H1 ("file_hash", "tlsh", "VARCHAR(128)")). by left.
  - apply H2. by eexists.
Defined.

Example node_ex :
  let git text := mkGit (fun p => String.eqb p "packed-refs") (fun p => if String.eqb p "HEAD" then Some ("ref: refs/heads/main" +:+ String LF "") else Some text) in
  node_label (fun _ => None) "host" (git ("0123456789ab refs/heads/main" +:+ String LF "")) None = "host @ 0123456" /\
  node_label (fun k => if String.eqb k "PKGWARD_BUILD_SHA" then Some "unknown" else Some "prod") "host" (git "") (Some "1.2") = "prod @ 1.2".
Proof. by vm_compute. Qed.

(** The column check of SQLite reads an absent table as one without columns, and the statement
    that follows raises: a missing table leaves the others incomplete. *)
Example missing_table_stops : _ensure_columns SqliteDialect (List.tl ex_tables) = List.tl ex_tables.
Proof. by vm_compute. Qed.

Definition ex_lint (rel : string) (doc : toml_table) : pack_dir * (string -> toml_table + string) := (mkPackDir "/p" "p" [] [(rel, "x")] [], fun _ => inl doc).

(** What the linter passes need not load: the shapes of the lure keywords and the size of numbers are not looked at. *)
Example clean_but_unloadable :
  let lint rel doc := (validate (fun _ => inl doc) "/p" (Some (mkPackDir "/p" "p" [] [(rel, "x")] [])),
                       load_pack (fun _ => Some doc) (fun _ => None) (fun _ => "") (mkPackDir "/p" "p" [] [(rel, "x")] []) None) in
  lint "lure_keywords.toml" [("categories", VStr "crypto")] = ([], None) /\
  lint "scoring_weights.toml" [("bonus", VFloat (S754_infinity false))] = ([], None) /\
  lint "gomod_benign_tools.toml" [("tools", VInt 1)] = ([], None).
Proof. by vm_compute. Qed.

(** A boolean is an integer to the linter, and dropped by the loader, so the default stays in force. *)
Example boolean_threshold :
  let d := mkPackDir "/p" "p" [] [("thresholds.toml", "x")] [] in
  let doc := [("malicious_min", VBool true)] in
  validate (fun _ => inl doc) "/p" (Some d) = [] /\
  thresholds <$> load_pack (fun _ => Some doc) (fun _ => None) (fun _ => "") d None = Some [].
Proof. by vm_compute. Qed.
