(* ===== verification/Members.v ===== *)
(** * Around one archive ([pipeline.py], [threat_intel_auto.py])

    What the pipeline does with a fetched archive before the analyzers see it:
    extraction, unpacking, the member list, the choice of the fast path and the
    hashes, composed; the streamed hash; the clean-up; and the reader of the
    archives inside the vault. *)
From S2P Require Import Prelude PyStr Text Json Findings Tree Store Vault Scanners Extract Pipeline Process Host.
From stdpp Require Import gmap strings.
From Stdlib Require Import Ascii String.

Open Scope string_scope.
Open Scope list_scope.
Open Scope Z_scope.

(** ** Members *)

(** [m.isfile()]. *)
Definition isfile (m : tar_member) : bool := match t_kind m with Regular => true | _ => false end.
Definition MEMBERS_TAR : list string := [".tar.gz"; ".tgz"; ".tar"; ".crate"].
Definition MEMBERS_ZIP : list string := [".whl"; ".zip"; ".egg"].
(** No suffix contains a slash, so the file's name decides as the path does. *)
Definition _archive_members (a : archive) : list string :=
  let p := lower (a_name a) in
  if existsb (endswith p) MEMBERS_TAR then
    match as_tar a with Some ms => map t_name (bfilter isfile ms) | None => [] end
  else if existsb (endswith p) MEMBERS_ZIP then
    match as_zip a with Some ms => map z_name (bfilter (fun m => negb (zip_is_dir m)) ms) | None => [] end
  else [].

(** The contents that are read before one raises. *)
Fixpoint read_bodies (bs : list body) : list string :=
  match bs with
  | [] => []
  | b :: bs' => if b_ok b then string_of (b_bytes b) :: read_bodies bs' else []
  end.
Definition INNER_TAR : list string := [".tgz"; ".tar.gz"; ".tar"].
Definition INNER_ZIP : list string := [".zip"; ".whl"; ".egg"].
(** [a_name] is the name inside the vault's container, whose case counts. *)
Definition _iter_inner_files (a : archive) : list string :=
  if existsb (endswith (a_name a)) INNER_TAR then
    match as_tar a with Some ms => read_bodies (omap (fun m => if isfile m then t_body m else None) ms) | None => [] end
  else if existsb (endswith (a_name a)) INNER_ZIP then
    match as_zip a with Some ms => read_bodies (map z_body (bfilter (fun m => negb (zip_is_dir m)) ms)) | None => [] end
  else [].
(** One container of the vault: its entries, [None] where an entry cannot be decrypted; whether
    it was read to its end. *)
Fixpoint container_files (entries : list (option archive)) : list string * bool :=
  match entries with
  | [] => ([], true)
  | None :: _ => ([], false)
  | Some a :: entries' => let '(l, ok) := container_files entries' in (_iter_inner_files a ++ l, ok)
  end.

(** ** Hashing a large file *)

Section Stream.
Context {H : Type}.
Variables (start : H) (update : H -> string -> H) (digest : H -> string).
Definition CHUNK : nat := Z.to_nat (1024 * 1024).

Fixpoint hash_chunks (fuel : nat) (h : H) (rest : string) : option string :=
  match fuel with
  | O => None
  | S fuel' =>
      let chunk := str_take CHUNK rest in
      if truthy chunk then hash_chunks fuel' (update h chunk) (str_drop CHUNK rest) else Some (digest h)
  end.
Definition _sha256_stream (data : string) : option string := hash_chunks (S (len data)) start data.
End Stream.

(** ** Limits; [None]: a value that is no number raises when the module is loaded *)

Definition mebibytes (env : environ) (nm dflt : string) : option Z := n ← py_int (default dflt (env nm)); Some (n * 1024 * 1024).
Definition HASH_FULL_MAX_BYTES (env : environ) : option Z := mebibytes env "PKGWARD_HASH_FULL_MAX_MB" "20".
Definition GIANT_FASTPATH (env : environ) : bool := negb (String.eqb (default "1" (env "PKGWARD_GIANT_FASTPATH")) "0").
Definition GIANT_FILE_THRESHOLD (env : environ) : option Z := py_int (default "5000" (env "PKGWARD_GIANT_FILE_THRESHOLD")).
Definition GIANT_MAX_BYTES (env : environ) : option Z := mebibytes env "PKGWARD_GIANT_MAX_MB" "100".

Record Limits := mkLimits { l_hash_full : Z; l_fastpath : bool; l_files : Z; l_bytes : Z }.
Definition limits (env : environ) : option Limits :=
  h ← HASH_FULL_MAX_BYTES env; f ← GIANT_FILE_THRESHOLD env; b ← GIANT_MAX_BYTES env;
  Some (mkLimits h (GIANT_FASTPATH env) f b).

(** ** Extraction and hashing of one archive *)

Section ExtractAndHash.
Variables (accepts : path -> bool) (sub : path) (free : option Z).
(** [rglob] over the extracted tree. *)
Variable walk : tree -> list tree_file.
Variables (upx : string -> Unpack.upx_run) (upx_available : bool).
Variables (sha256 : string -> string) (entropy : string -> double) (ssdeep tlsh : option (string -> string)).
Variable lim : Limits.

Definition _extract_and_hash (kind : string) (a : archive) (st : state) : extraction + ExtractionError :=
  match safe_extract accepts sub DEFAULT_MAX_FILES DEFAULT_MAX_BYTES free a st with
  | (Some e, _) => inr e
  | (None, st) =>
      let files := Unpack.u_tree (Unpack.unpack_packed_executables upx upx_available (walk (fs st))) in
      let lite := giant_lite (l_fastpath lim) (l_files lim) (l_bytes lim) (map tf_size files) in
      let '(info, norm_to_real) := compute_file_hashes sha256 entropy ssdeep tlsh (l_hash_full lim) kind lite files in
      inl (mkExtraction info norm_to_real (_archive_members a) lite [])
  end.
End ExtractAndHash.

(** ** Clean-up *)

(** [shutil.rmtree] of a directory. *)
Definition rmtree (p : path) (t : tree) : tree := filter (fun kv => ~ p `prefix_of` kv.1) t.
(** [archives]: the paths of the downloaded files, each in a directory of its own. *)
Definition _cleanup_extract (tmp_extract : path) (archives : list path) (t : tree) : tree :=
  fold_left (fun t a => rmtree (removelast a) t) archives (rmtree tmp_extract t).

(** [_load_prev_hashes] opens a session of its own for the query. *)
Definition _load_prev_hashes (eco nm version : string) (d : db) : list (string * list (string * FileInfo)) := get_prev_scan_hashes eco nm version d.

(** ** Lemmas *)

Lemma str_drop_shorter n s : (0 < n)%nat -> s <> "" -> (len (str_drop n s) < len s)%nat.
Proof. intros Hn Hs. rewrite <- (str_take_drop n s) at 2. rewrite len_app. destruct n; [lia|]. destruct s; [done|]. cbn. lia. Qed.

Lemma hash_chunks_whole {H} update digest (h : H) fuel s :
  (forall h, update h "" = h) -> (forall h a b, update (update h a) b = update h (a +:+ b)) -> (len s < fuel)%nat ->
  hash_chunks update digest fuel h s = Some (digest (update h s)).
Proof.
  intros Hnil Happ. assert (0 < CHUNK)%nat as Hc by (unfold CHUNK; lia). revert h s. induction fuel as [|fuel IH]; intros h s Hl; [lia|].
  cbn [hash_chunks]. cbv zeta. destruct (truthy (str_take CHUNK s)) eqn:Et.
  - assert (s <> "") as Hs by (intros ->; by destruct CHUNK). rewrite IH.
    + by rewrite Happ, str_take_drop.
    + pose proof (str_drop_shorter CHUNK s Hc Hs). lia.
  - assert (s = "") as ->; [|by rewrite Hnil]. destruct s; [done|]. destruct CHUNK; [lia|done].
Qed.

(** Streaming a file through SHA-256 by megabytes ends and gives the digest of the whole. *)
Theorem stream_is_whole {H} (start : H) update digest data :
  (forall h, update h "" = h) -> (forall h a b, update (update h a) b = update h (a +:+ b)) ->
  _sha256_stream start update digest data = Some (digest (update start data)).
Proof. intros Hnil Happ. apply hash_chunks_whole; [done|done|lia]. Qed.

Lemma endswith_app_inv s p : endswith s p = true -> exists t, s = t +:+ p.
Proof.
  unfold endswith. intros [_ E%String.eqb_eq]%andb_true_iff. exists (str_take (len s - len p) s). rewrite <- E at 2. by rewrite str_take_drop.
Qed.

(** Of two suffixes of one name the shorter ends the longer. *)
Definition nested (p q : string) : bool := if (len p <=? len q)%nat then endswith q p else endswith p q.
Lemma endswith_nested s p q : endswith s p = true -> endswith s q = true -> nested p q = true.
Proof.
  intros Hp Hq. unfold nested. destruct (Nat.leb_spec (len p) (len q)).
  - apply endswith_app_inv in Hq as [t ->]. by rewrite endswith_app in Hp.
  - apply endswith_app_inv in Hp as [t ->]. rewrite endswith_app in Hq; [done|lia].
Qed.
Lemma suffixes_apart s l l' : existsb (fun p => existsb (nested p) l') l = false -> existsb (endswith s) l = true -> existsb (endswith s) l' = false.
Proof.
  intros Hn [p [Hp Ep]]%existsb_exists. apply not_true_is_false. intros [q [Hq Eq]]%existsb_exists.
  apply not_true_iff_false in Hn. apply Hn, existsb_exists. exists p. split; [done|]. apply existsb_exists. exists q. split; [done|]. by eapply endswith_nested.
Qed.

(** What extraction takes for a tar or a zip file, the member list does as well. *)
Lemma tar_members_tar s : existsb (endswith s) MEMBERS_TAR = true -> existsb (endswith s) TAR_SUFFIXES = true.
Proof.
  intros [p [Hp Ep]]%existsb_exists. apply existsb_exists. exists p. split; [|done]. cbn in *. tauto.
Qed.
Lemma zip_members_zip s : existsb (endswith s) MEMBERS_ZIP = true -> existsb (endswith s) TAR_SUFFIXES = false.
Proof. apply suffixes_apart. by vm_compute. Qed.

Lemma last_of_key {K V} `{EqDecision K} (l : list (K * V)) k : k ∈ l.*1 -> exists pre v post, l = pre ++ (k, v) :: post /\ k ∉ post.*1.
Proof.
  induction l as [|[k' v'] l IH]; intros Hk; [by apply elem_of_nil in Hk|].
  destruct (decide (k ∈ l.*1)) as [Hl|Hl].
  - destruct (IH Hl) as (pre & v & post & -> & Hp). by exists ((k', v') :: pre), v, post.
  - apply elem_of_cons in Hk as [->|Hk]; [|done]. by exists [], v', l.
Qed.

Lemma listed_file out a nm rel : (forall ms m, as_tar a = Some ms -> m ∈ ms -> t_kind m = Regular -> is_Some (t_body m)) ->
  nm ∈ _archive_members a -> safe_path out nm = Some rel -> rel ∈ (archive_files out a).*1.
Proof.
  intros Hb Hn Hs. unfold _archive_members, archive_files in *. apply list_elem_of_fmap.
  destruct (existsb _ MEMBERS_TAR) eqn:Et.
  - rewrite (tar_members_tar _ Et). destruct (as_tar a) as [ms|]; [|by apply elem_of_nil in Hn].
    apply list_elem_of_fmap in Hn as (m & -> & [Hm Hk]%bfilter_in). unfold isfile in Hk. destruct (t_kind m) eqn:Ek; try done.
    destruct (Hb ms m eq_refl Hm Ek) as [b Eb]. exists (rel, b). split; [done|]. apply list_elem_of_omap. exists m. split; [done|]. unfold tar_file. by rewrite Ek, Hs, Eb.
  - destruct (existsb _ MEMBERS_ZIP) eqn:Ez; [|by apply elem_of_nil in Hn]. rewrite (zip_members_zip _ Ez).
    destruct (as_zip a) as [ms|]; [|by apply elem_of_nil in Hn]. apply list_elem_of_fmap in Hn as (m & -> & [Hm Hk%negb_true_iff]%bfilter_in).
    exists (rel, z_body m). split; [done|]. apply list_elem_of_omap. exists m. split; [done|]. unfold zip_file. by rewrite Hk, Hs.
Qed.

(** The member list of an archive that was extracted is true: every name in it that is kept is a
    file of the extracted tree. *)
Theorem members_extracted accepts out free a st st' nm rel : has_nul out = false ->
  safe_extract accepts out DEFAULT_MAX_FILES DEFAULT_MAX_BYTES free a st = (None, st') ->
  (forall ms m, as_tar a = Some ms -> m ∈ ms -> t_kind m = Regular -> is_Some (t_body m)) ->
  nm ∈ _archive_members a -> safe_path out nm = Some rel -> exists content, fs st' !! (out ++ rel) = Some (File content).
Proof.
  intros Ho He Hb Hn Hs. destruct (last_of_key _ _ (listed_file out a nm rel Hb Hn Hs)) as (pre & b & post & E & Hp).
  destruct (extract_complete accepts out _ _ free a st st' Ho He) as [H _]. destruct (H _ _ _ _ E Hp) as [Hf _]. by exists (b_bytes b).
Qed.

Lemma rmtree_lookup p t q : rmtree p t !! q = if decide (p `prefix_of` q) then None else t !! q.
Proof.
  unfold rmtree. destruct (decide (p `prefix_of` q)) as [Hp|Hp].
  - apply map_lookup_filter_None. right. intros x _. cbn. tauto.
  - destruct (t !! q) as [x|] eqn:E.
    + by apply map_lookup_filter_Some.
    + apply map_lookup_filter_None. by left.
Qed.

(** The clean-up takes away the extracted tree and the directory of every download, and nothing else. *)
Theorem cleanup_complete tmp archives t q :
  _cleanup_extract tmp archives t !! q =
    if decide (tmp `prefix_of` q \/ Exists (fun a => removelast a `prefix_of` q) archives) then None else t !! q.
Proof.
  unfold _cleanup_extract. pose proof (rmtree_lookup tmp t q) as Ht. revert Ht. generalize (rmtree tmp t) as t1.
  assert (forall (P : Prop) `{Decision P} t1, t1 !! q = (if decide P then None else t !! q) ->
    fold_left (fun t a => rmtree (removelast a) t) archives t1 !! q = if decide (P \/ Exists (fun a => removelast a `prefix_of` q) archives) then None else t !! q) as Hgen.
  { induction archives as [|a archives IH]; intros P HP t1 Ht; cbn [fold_left].
    - rewrite Ht. repeat case_decide; try done; exfalso; rewrite Exists_nil in *; tauto.
    - rewrite (IH (P \/ removelast a `prefix_of` q) _).
      + repeat case_decide; try done; exfalso; rewrite Exists_cons in *; tauto.
      + rewrite rmtree_lookup, Ht. repeat case_decide; try done; exfalso; tauto. }
  intros t1 Ht. by apply Hgen.
Qed.

(** ** Concrete runs *)

Definition ex_member (nm : string) : tar_member := mkTar nm Regular 1 (Some (mkBody [97] true)).
Definition ex_extracted (nm : string) : archive * (option ExtractionError * state) :=
  let a := Extract.mkArchive nm (Some [ex_member "x-1.0/setup.py"]) None in
  (a, safe_extract (fun _ => true) ["tmp"] DEFAULT_MAX_FILES DEFAULT_MAX_BYTES None a (mkState {[["tmp"] := Dir]} [])).

(** A source archive compressed with bzip2 is extracted, but its member list is empty, without a
    word in the log: the checks on the members of the release see no file. *)
Example bzip2_members_lost :
  let '(a, r) := ex_extracted "x-1.0.tar.bz2" in
  r.1 = None /\ fs r.2 !! ["tmp"; "x-1.0"; "setup.py"] = Some (File [97]) /\ _archive_members a = [] /\
  _archive_members (ex_extracted "x-1.0.tar.gz").1 = ["x-1.0/setup.py"].
Proof. by vm_compute. Qed.

(** The reader of the vault knows no [.crate]: nothing of a crate is read back, although the
    member list and the extraction take it for what it is. *)
Example crate_not_read_back :
  let a := (ex_extracted "evil-1.0.crate").1 in
  _archive_members a = ["x-1.0/setup.py"] /\ container_files [Some a] = ([], true) /\
  container_files [Some (ex_extracted "evil-1.0.tgz").1] = (["a"], true).
Proof. by vm_compute. Qed.

Lemma stream_is_whole_witness : _sha256_stream "" String.append (fun s => s) "abc" = Some "abc".
Proof. rewrite (stream_is_whole "" String.append (fun s => s) "abc"); [done|apply str_app_nil_r|intros h a b; by rewrite str_app_assoc]. Defined.

Lemma members_extracted_witness : exists content, fs (ex_extracted "x-1.0.tar.gz").2.2 !! ["tmp"; "x-1.0"; "setup.py"] = Some (File content).
Proof.
  apply (members_extracted (fun _ => true) ["tmp"] None (ex_extracted "x-1.0.tar.gz").1 (mkState {[["tmp"] := Dir]} []) (ex_extracted "x-1.0.tar.gz").2.2 "x-1.0/setup.py" ["x-1.0"; "setup.py"]).
  - by vm_compute.
  - by vm_compute.
  - intros ms m [= <-] ->%list_elem_of_singleton _. by eexists.
  - by left.
  - by vm_compute.
Defined.
