(* ===== verification/Tools.v ===== *)
(** * The maintenance tools ([tools/])

    The scripts beside the program that read its database: the precision of the rules
    that may start a maintainer pivot, the replay of the scoring, the audit of the
    automatic watchlist, the live statistics, and the records that seed the threat
    intelligence.  They share the components' own operations. *)
From S2P Require Import Service PypiCursor Adapters Glob Codecs.
From S2P Require Import Prelude PyStr Text Sql Findings Json Jobs ScanQueue DetQueue Intel Score Triage Watch Scope Regex RegexSyntax Tree.
From S2P Require Import Focus MaintWatch ThreatIntel Store Ingest Pipeline MaintPivot Packs Vault.
From stdpp Require Import gmap strings.
From Stdlib Require Import Ascii String.

Open Scope string_scope.
Open Scope list_scope.
Open Scope Z_scope.

(** ** The precision of the pivot's rules ([conviction_precision.py]) *)

Module Precision.

Record RuleStat := mkStat {
  rule : string;
  bad : Z; good : Z;
  confirmed : Z; cleared : Z; ambiguous : Z;
  hi_fi : bool;
}.
Abbreviation stats := (list (string * RuleStat)).

(** [a / b] of counts; [None] without support. *)
Definition ratio (a b : Z) : option double :=
  if b =? 0 then None else Some (SFdiv 53 1024 (binary_normalize 53 1024 a 0 false) (binary_normalize 53 1024 b 0 false)).
Definition corpus_support (st : RuleStat) : Z := bad st + good st.
Definition corpus_precision (st : RuleStat) : option double := ratio (bad st) (corpus_support st).
Definition prod_support (st : RuleStat) : Z := confirmed st + cleared st.
Definition prod_precision (st : RuleStat) : option double := ratio (confirmed st) (prod_support st).

Definition _ensure (rule_id : string) (s : stats) : RuleStat := dget_or rule_id (mkStat rule_id 0 0 0 0 0 false) s.
(** The statistic of a rule, counted and put back. *)
Definition counted (f : RuleStat -> RuleStat) (rule_id : string) (s : stats) : stats := dset rule_id (f (_ensure rule_id s)) s.

(** What a finding adds to its rule. *)
Inductive tick := TBad | TGood | TConfirmed | TCleared | TAmbiguous.
Definition ticked (t : tick) (high : bool) (st : RuleStat) : RuleStat :=
  mkStat (rule st) (bad st + match t with TBad => 1 | _ => 0 end) (good st + match t with TGood => 1 | _ => 0 end)
    (confirmed st + match t with TConfirmed => 1 | _ => 0 end) (cleared st + match t with TCleared => 1 | _ => 0 end)
    (ambiguous st + match t with TAmbiguous => 1 | _ => 0 end) (hi_fi st || high).

Section Measure.
Variable cfg : PivotConfig.

Definition high_rule (f : Finding) : bool := bool_decide (rule_id f ∈ pv_chain_ids cfg) || String.eqb (category f) "threat_intel".
Definition measure (t : tick) (fs : list Finding) (s : stats) : stats :=
  fold_left (fun s f => counted (ticked t (high_rule f)) (rule_id f) s) (trigger_eligible_findings cfg fs) s.

(** The samples of the corpus with their labels; [None]: a sample that failed is reported and left out. *)
Definition corpus_tick (label : string) : tick := if String.eqb label "good" then TGood else TBad.
Definition run_corpus (samples : list (option (string * list Finding))) (s : stats) : Z * stats :=
  (Z.of_nat (List.length samples), fold_left (fun s x => match x with Some (label, fs) => measure (corpus_tick label) fs s | None => s end) samples s).

Definition adjudicated (sc : Scan) : bool :=
  match sc_llm sc with Some l => verdict_in (llm_verdict l) [VMalicious; VBenign; VSuspicious] | None => false end.
Definition prod_tick (sc : Scan) : tick :=
  let said v := match sc_llm sc with Some l => bool_decide (llm_verdict l = v) | None => false end in
  if bool_decide (sc_verdict sc = VMalicious) && said VMalicious then TConfirmed else if said VBenign then TCleared else TAmbiguous.
(** [if limit: q.limit(limit)]. *)
Definition sampled {A} (limit : option nat) (l : list A) : list A := match limit with Some (S n) => List.firstn (S n) l | _ => l end.
Definition newest_first (rs : list (Scan * Version * Package)) : list (Scan * Version * Package) :=
  ssort (desc (fun r : Scan * Version * Package => sc_started_at r.1.1)) rs.
Definition prod_rows (eco : option string) (limit : option nat) (d : db) : list (Scan * Version * Package) :=
  sampled limit (newest_first (bfilter (fun r => of_eco eco (p_ecosystem r.2)) (scan_rows adjudicated d))).
Definition run_prod (eco : option string) (limit : option nat) (d : db) (s : stats) : Z * stats :=
  let rs := prod_rows eco limit d in
  (Z.of_nat (List.length rs), fold_left (fun s r => measure (prod_tick r.1.1) (findings_of (sc_id r.1.1) d) s) rs s).
End Measure.

(** *** The report *)

Definition precisions (st : RuleStat) : list double := omap (fun p => p) [corpus_precision st; prod_precision st].
Definition least (st : RuleStat) : double :=
  match precisions st with [] => f_one | p :: ps => fold_left (fun m x => if float_lt x m then x else m) ps p end.
(** Python compares the tuples by their first components that differ. *)
Definition key_leb (a b : RuleStat) : bool :=
  if SFeqb (least a) (least b) then corpus_support b + prod_support b <=? corpus_support a + prod_support a else float_lt (least a) (least b).
Definition ordered (s : stats) : list RuleStat := ssort key_leb s.*2.

Section Report.
Variables (min_precision : double) (min_support : Z).
Definition poor (precision : option double) (support : Z) : bool :=
  match precision with Some p => (min_support <=? support) && float_lt p min_precision | None => false end.
Definition deny_worthy (st : RuleStat) : bool :=
  negb (hi_fi st) && (poor (corpus_precision st) (corpus_support st) || poor (prod_precision st) (prod_support st)).
Definition deny (s : stats) : list string := map rule (bfilter deny_worthy (ordered s)).
(** The value suggested for [PKGWARD_MAINTAINER_PIVOT_TRIGGER_DENY], if the report prints one. *)
Definition suggestion (s : stats) : option string :=
  match deny s with [] => None | l => Some (PyStr.join "," (sorted_set l)) end.
End Report.

(** Both sources, then the report. *)
Definition measured (cfg : PivotConfig) (corpus prod : bool) (samples : list (option (string * list Finding))) (eco : option string) (limit : option nat) (d : db) : stats :=
  let s := if corpus then (run_corpus cfg samples []).2 else [] in
  if prod then (run_prod cfg eco limit d s).2 else s.
Definition conviction_report cfg corpus prod samples eco limit d (min_precision : double) (min_support : Z) : option string :=
  suggestion min_precision min_support (measured cfg corpus prod samples eco limit d).

(** The pivot's configuration with this value in the environment. *)
Definition with_deny (v : option string) (cfg : PivotConfig) : PivotConfig :=
  mkPivot (MAINTAINER_PIVOT cfg) (PIVOT_SHADOW cfg) (pv_max_pkgs cfg) (pv_corr_days cfg) (pv_dedup_ttl cfg) (TRIGGER_ALLOW cfg) v
    (pv_auto cfg) (pv_watch cfg) (pv_queue cfg) (pv_chain_ids cfg).

(** *** Lemmas *)

(** A rule id with no space and no comma. *)
Definition id_char (c : ascii) : bool := negb (is_space c) && negb (Ascii.eqb c ",").
Definition plain_rule (r : string) : bool := truthy r && str_forall id_char r.

Lemma plain_no_comma r : str_forall id_char r = true -> has_char "," r = false.
Proof.
  induction r as [|c r IH]; [done|]. cbn [has_char str_forall]. rewrite !andb_true_iff. intros [Hc Hr]. rewrite IH by done. unfold id_char in Hc.
  rewrite andb_true_iff, !negb_true_iff in Hc. destruct Hc as [_ Hc]. by rewrite Ascii.eqb_sym, Hc.
Qed.
Lemma plain_spaceless r : str_forall id_char r = true -> str_forall (fun c => negb (is_space c)) r = true.
Proof. induction r as [|c r IH]; [done|]. cbn [has_char str_forall]. rewrite !andb_true_iff. intros [Hc Hr]. unfold id_char in Hc. rewrite andb_true_iff in Hc. split; [tauto|auto]. Qed.
Lemma spaceless_join l : Forall (fun r => str_forall id_char r = true) l -> str_forall (fun c => negb (is_space c)) (PyStr.join "," l) = true.
Proof.
  induction l as [|a l IH]; [done|]. intros [Ha%plain_spaceless Hl]%Forall_cons. destruct l as [|b l]; [done|].
  change (PyStr.join "," (a :: b :: l)) with (a +:+ "," +:+ PyStr.join "," (b :: l)). rewrite !str_forall_app, Ha, IH by done. done.
Qed.

(** The printed value is read back as the rules it was made of. *)
Lemma deny_read_back l : l <> [] -> Forall (fun r => plain_rule r = true) l -> trigger_rule_set (Some (PyStr.join "," l)) = l.
Proof.
  intros Hne Hl. assert (Forall (fun r => str_forall id_char r = true) l) as Hc by (eapply Forall_impl; [exact Hl|]; cbn; intros r [_ H]%andb_true_iff; exact H).
  assert (strip (PyStr.join "," l) = PyStr.join "," l) as Es by (by apply strip_where_id, spaceless_join).
  assert (PyStr.split "," (PyStr.join "," l) = l) as Ep.
  { apply (split_join "," l); [done|]. eapply Forall_impl; [exact Hc|]. cbn. apply plain_no_comma. }
  assert (truthy (PyStr.join "," l) = true) as Et.
  { destruct l as [|a l]; [done|]. apply Forall_cons in Hl as [[Ha _]%andb_true_iff _]. destruct a; [done|]. by destruct l. }
  unfold trigger_rule_set. change (default "" (Some (PyStr.join "," l))) with (PyStr.join "," l). cbv zeta. rewrite Es, Et, Ep.
  clear Hne Hc Es Ep Et. induction Hl as [|r l [Hr Hrc]%andb_true_iff Hl IH]; [done|]. cbn [omap list_omap].
  assert (strip r = r) as -> by (by apply strip_where_id, plain_spaceless). unfold nonempty. rewrite Hr. by f_equal.
Qed.

(** What the measurements have of a rule: it is under its own name, and may start a pivot. *)
Definition measured_wf (cfg : PivotConfig) (s : stats) : Prop :=
  NoDup s.*1 /\ forall k st, dget k s = Some st -> rule st = k /\ str_in k (trigger_deny cfg) = false.

Lemma measured_nil cfg : measured_wf cfg [].
Proof. split; [constructor|done]. Qed.
Lemma measure_wf cfg t fs s : measured_wf cfg s -> measured_wf cfg (measure cfg t fs s).
Proof.
  unfold measure. assert (forall f, f ∈ trigger_eligible_findings cfg fs -> str_in (rule_id f) (trigger_deny cfg) = false) as Hd.
  { intros f [_ He]%bfilter_in. unfold eligible, rule_allowed in He. rewrite !andb_true_iff, !negb_true_iff in He. tauto. }
  revert s Hd. induction (trigger_eligible_findings cfg fs) as [|f l IH]; intros s Hd [Hn Hw]; [done|]. cbn [fold_left].
  apply IH; [intros g Hg; apply Hd; by right|]. unfold counted. split; [by apply dset_NoDup|]. intros k st. rewrite dget_dset.
  case_decide as Hk; [subst k|apply Hw]. intros [= <-]. split; [|apply Hd; by left]. unfold _ensure, dget_or.
  destruct (dget (rule_id f) s) as [st|] eqn:E; [exact (proj1 (Hw _ _ E))|done].
Qed.

Lemma measured_run cfg corpus prod samples eco limit d : measured_wf cfg (measured cfg corpus prod samples eco limit d).
Proof.
  assert (forall s, measured_wf cfg s -> measured_wf cfg (run_corpus cfg samples s).2) as Hc.
  { unfold run_corpus; cbn [snd]. induction samples as [|x xs IH]; intros s Hs; [done|]. cbn [fold_left]. apply IH. destruct x as [[label fs]|]; [by apply measure_wf|done]. }
  assert (forall s, measured_wf cfg s -> measured_wf cfg (run_prod cfg eco limit d s).2) as Hp.
  { unfold run_prod; cbn [snd]. induction (prod_rows eco limit d) as [|x xs IH]; intros s Hs; [done|]. cbn [fold_left]. apply IH. by apply measure_wf. }
  unfold measured. destruct corpus, prod; auto using measured_nil.
Qed.

Lemma deny_spec mp ms cfg s r : measured_wf cfg s -> r ∈ deny mp ms s <-> exists st, dget r s = Some st /\ deny_worthy mp ms st = true.
Proof.
  intros [Hn Hw]. unfold deny, ordered. rewrite list_elem_of_fmap. split.
  - intros (st & -> & [Hs Hd]%bfilter_in). rewrite ssort_in in Hs. apply list_elem_of_fmap in Hs as ([k st'] & -> & Hin). cbn [snd] in *.
    pose proof (dget_in_NoDup _ _ _ Hn Hin) as E. exists st'. by rewrite (proj1 (Hw _ _ E)).
  - intros (st & E & Hd). exists st. split; [by rewrite (proj1 (Hw _ _ E))|]. apply bfilter_in. split; [|done].
    apply ssort_in, list_elem_of_fmap. exists (r, st). split; [done|]. by apply dget_Some_in.
Qed.

(** The suggestion does what it says.  Put into the environment it is read back as exactly the rules
    that measured poorly; none of them, whatever its severity, starts a pivot any more, by itself
    or as strong evidence; every other rule starts one as it did without a deny list.  Each of
    them has the support asked for, a precision below the bound, and is no high-fidelity rule. *)
Theorem suggestion_takes_effect cfg corpus prod samples eco limit d mp ms v :
  let s := measured cfg corpus prod samples eco limit d in
  let cfg' := with_deny (Some v) cfg in
  conviction_report cfg corpus prod samples eco limit d mp ms = Some v ->
  Forall (fun r => plain_rule r = true) s.*1 ->
  (forall r, r ∈ trigger_deny cfg' <-> exists st, dget r s = Some st /\ hi_fi st = false /\
    (poor mp ms (corpus_precision st) (corpus_support st) = true \/ poor mp ms (prod_precision st) (prod_support st) = true)) /\
  (forall f, rule_id f ∈ trigger_deny cfg' -> eligible cfg' f = false /\ finding_trigger cfg' f = None) /\
  (forall f, rule_id f ∉ trigger_deny cfg' ->
    eligible cfg' f = eligible (with_deny None cfg) f /\ finding_trigger cfg' f = finding_trigger (with_deny None cfg) f).
Proof.
  intros s cfg' Hm Hp. pose proof (measured_run cfg corpus prod samples eco limit d) as Hw. fold s in Hw.
  unfold conviction_report in Hm. fold s in Hm. unfold suggestion in Hm. destruct (deny mp ms s) as [|r0 l0] eqn:El; [done|]. rewrite <- El in Hm. injection Hm as Hv.
  assert (forall r, r ∈ deny mp ms s -> plain_rule r = true) as Hpl.
  { intros r (st & E & _)%(deny_spec _ _ cfg); [|done]. rewrite Forall_forall in Hp. apply Hp. apply list_elem_of_fmap. exists (r, st). split; [done|]. by apply dget_Some_in. }
  assert (trigger_deny cfg' = sorted_set (deny mp ms s)) as Hd.
  { unfold trigger_deny, cfg', with_deny; cbn [TRIGGER_DENY]. rewrite <- Hv. apply deny_read_back.
    - intros E. assert (r0 ∈ sorted_set (deny mp ms s)) as Hr by (apply sorted_set_elem; rewrite El; by left). rewrite E in Hr. by apply elem_of_nil in Hr.
    - apply Forall_forall. intros r Hr. by apply Hpl, sorted_set_elem. }
  split_and!.
  - intros r. rewrite Hd, sorted_set_elem, (deny_spec _ _ cfg) by done. unfold deny_worthy. setoid_rewrite andb_true_iff. setoid_rewrite negb_true_iff. setoid_rewrite orb_true_iff. done.
  - intros f Hf. unfold eligible, finding_trigger, rule_allowed. apply str_in_true in Hf. rewrite Hf. cbn [negb andb]. rewrite andb_false_r, orb_true_r. done.
  - intros f Hf. assert (str_in (rule_id f) (trigger_deny cfg') = false) as Hs by (apply not_true_iff_false; by rewrite str_in_true).
    unfold eligible, finding_trigger, rule_allowed. by rewrite Hs.
Qed.

(** What the deny list already holds is not measured: it is in no later suggestion. *)
Lemma denied_not_suggested cfg corpus prod samples eco limit d mp ms r :
  r ∈ deny mp ms (measured cfg corpus prod samples eco limit d) -> r ∉ trigger_deny cfg.
Proof.
  pose proof (measured_run cfg corpus prod samples eco limit d) as Hw. intros (st & E & _)%(deny_spec _ _ cfg); [|done].
  destruct Hw as [_ Hw]. destruct (Hw _ _ E) as [_ H]. rewrite <- str_in_true. by rewrite H.
Qed.

(** *** A concrete run *)

Definition ex_finding (r : string) : Finding := mkFinding r "obfuscation" SHigh CHigh "a.js" None "x".
Definition ex_good (rs : list string) : list (option (string * list Finding)) := [Some ("good", map ex_finding rs)].
(** 0.9. *)
Definition f_0_90 : double := SpecFloat.S754_finite false 8106479329266893 (-53).
Definition ex_report (cfg : PivotConfig) (samples : list (option (string * list Finding))) : option string :=
  conviction_report cfg true false samples None None empty_db f_0_90 5.
Definition ex_weak : list (option (string * list Finding)) := flat_map (fun _ => ex_good ["weak"; "other"]) (seq 0 5).

Lemma suggestion_takes_effect_witness : eligible (with_deny (Some "other,weak") default_pivot) (ex_finding "weak") = false.
Proof.
  assert (ex_report default_pivot ex_weak = Some "other,weak") as Hm by (vm_compute; reflexivity).
  destruct (suggestion_takes_effect default_pivot true false ex_weak None None empty_db f_0_90 5 "other,weak" Hm) as (_ & H & _).
  - apply (bool_decide_unpack _). vm_compute. reflexivity.
  - apply H. apply str_in_true. vm_compute. reflexivity.
Defined.

(** With the suggestion in force the tool is blind to the rules it names: the next suggestion, a full
    value of the same variable, leaves them out, and putting it in place lets them start pivots again. *)
Example second_run_readmits :
  ex_report default_pivot (ex_weak ++ flat_map (fun _ => ex_good ["third"]) (seq 0 5)) = Some "other,third,weak" /\
  ex_report (with_deny (Some "other,weak") default_pivot) (ex_weak ++ flat_map (fun _ => ex_good ["third"]) (seq 0 5)) = Some "third" /\
  eligible (with_deny (Some "third") default_pivot) (ex_finding "weak") = true.
Proof. by vm_compute. Qed.

End Precision.

(** ** The replay of the scoring ([parity_tier1.py]) *)

Module Parity.
Section Replay.
Variable pack : IntelPack.

Definition _watchlist_rank (eco nm : string) (t : wtable) : option Z :=
  w_rank <$> first (fun w => String.eqb (w_ecosystem w) eco && String.eqb (w_name w) nm) t.
Definition replayed (d : db) (r : Scan * Version * Package) : ScoreResult :=
  score_and_verdict pack (findings_of (sc_id r.1.1) d) (_watchlist_rank (p_ecosystem r.2) (p_name r.2) (watchlist d)).
(** [x or None]. *)
Definition tag (t : option string) : option string := if otruthy t then t else None.
Definition same (sc : Scan) (res : ScoreResult) : bool :=
  bool_decide (sr_verdict res = sc_verdict sc) && (score res =? sc_score sc) && bool_decide (tag (alert_tag res) = tag (sc_alert_tag sc)).

Record parity := mkParity { total : Z; diffs : Z; verdict_changes : list (string * Z); diff_examples : list (Z * ScoreResult) }.
Definition replay_rows (eco : option string) (limit : option nat) (d : db) : list (Scan * Version * Package) :=
  Precision.sampled limit (Precision.newest_first (bfilter (fun r => of_eco eco (p_ecosystem r.2)) (scan_rows (fun _ => true) d))).
Definition compare (show_diffs : nat) (d : db) (p : parity) (r : Scan * Version * Package) : parity :=
  let result := replayed d r in
  let sc := r.1.1 in
  if same sc result then mkParity (total p + 1) (diffs p) (verdict_changes p) (diff_examples p)
  else
    let change := verdict_name (sc_verdict sc) +:+ "->" +:+ verdict_name (sr_verdict result) in
    mkParity (total p + 1) (diffs p + 1) (dset change (dget_or change 0 (verdict_changes p) + 1) (verdict_changes p))
      (if (List.length (diff_examples p) <? show_diffs)%nat then diff_examples p ++ [(sc_id sc, result)] else diff_examples p).
Definition parity_run (eco : option string) (limit : option nat) (show_diffs : nat) (d : db) : parity :=
  fold_left (compare show_diffs d) (replay_rows eco limit d) (mkParity 0 0 [] []).
Definition exit_code (p : parity) : Z := if diffs p =? 0 then 0 else 1.

(** *** Lemmas *)

Lemma diffs_count show_diffs d rs p : diffs (fold_left (compare show_diffs d) rs p) =
  diffs p + Z.of_nat (List.length (bfilter (fun r => negb (same r.1.1 (replayed d r))) rs)).
Proof.
  revert p. induction rs as [|r rs IH]; intros p; cbn [fold_left bfilter List.filter]; [cbn; lia|]. rewrite IH. unfold compare. cbv zeta.
  destruct (same r.1.1 (replayed d r)); cbn [negb diffs List.length]; lia.
Qed.

(** The tool succeeds exactly when every scan it replays scores as it is stored. *)
Theorem parity_exit eco limit show_diffs d :
  exit_code (parity_run eco limit show_diffs d) = 0 <-> forall r, r ∈ replay_rows eco limit d -> same r.1.1 (replayed d r) = true.
Proof.
  unfold exit_code, parity_run. rewrite diffs_count. cbn [diffs]. set (bad := bfilter _ _). transitivity (bad = []).
  - destruct bad; cbn [List.length]; [tauto|]. destruct (Z.eqb_spec (0 + Z.of_nat (S (List.length bad))) 0); [lia|done].
  - unfold bad. split.
    + intros E r Hr. destruct (same _ _) eqn:Es; [done|]. assert (r ∈ @nil (Scan * Version * Package)) as Hn; [|by apply elem_of_nil in Hn].
      rewrite <- E. apply bfilter_in. by rewrite Es.
    + intros H. apply bfilter_none. intros r Hr. by rewrite H.
Qed.

(** A verdict that only the model gives is in no replay: such a scan is a difference for ever,
    whatever the rules do. *)
Theorem model_verdicts_differ d r : sc_verdict r.1.1 ∉ [VClean; VSuspicious; VMalicious] -> same r.1.1 (replayed d r) = false.
Proof.
  intros Hv. unfold same. apply not_true_is_false. rewrite !andb_true_iff, bool_decide_eq_true. intros [[E _] _]. apply Hv. rewrite <- E. apply verdict_trichotomy.
Qed.
End Replay.
End Parity.

(** ** The audit of the automatic watchlist ([audit_auto_watchlist.py]) *)

Module Audit.

Inductive class := Primary | Thin | NoScan.
#[export] Instance class_eq_dec : EqDecision class.
Proof. solve_decision. Defined.

Definition entries (t : wtable) : list (string * string) :=
  ssort pair_leb (map (fun w => (w_ecosystem w, w_name w)) (select (fun w => w_rank w =? AUTO_MALICIOUS_RANK) t)).
Definition llm_malicious (sc : Scan) : bool := match sc_llm sc with Some l => bool_decide (llm_verdict l = VMalicious) | None => false end.
(** The scan that the dictionary holds for a package in the end: a later one replaces it if both have a time. *)
Definition newer (sc prior : Scan) : bool :=
  match sc_finished_at sc, sc_finished_at prior with Some t, Some t' => t' <? t | _, _ => false end.
Definition latest (d : db) (en : string * string) : option Scan :=
  fold_left (fun acc r => match acc with None => Some r | Some prior => if newer r prior then Some r else acc end)
    (map (fun r => r.1.1) (bfilter (fun r => String.eqb (p_ecosystem r.2) en.1 && String.eqb (p_name r.2) en.2) (scan_rows llm_malicious d))) None.

Definition strong (fs : list Finding) : list Finding := bfilter (fun f => sev_in f [SHigh; SCritical] && negb (is_shadow_finding f)) fs.
Definition is_primary (fs : list Finding) : bool :=
  let cats := dedup (map category (strong fs)) in
  existsb (fun c => negb (str_in c NON_PRIMARY_PROMOTE_CATEGORIES)) cats || (2 <=? List.length cats)%nat.
Definition classify (d : db) (en : string * string) : class :=
  match latest d en with
  | None => NoScan
  | Some sc => if is_primary (findings_of (sc_id sc) d) then Primary else Thin
  end.
(** The strong categories of a line with the severity each was last seen at. *)
Definition cat_str (fs : list Finding) : string :=
  let sev_by_cat := fold_left (fun m f => dset (category f) (severity_name (f_severity f)) m) (strong fs) [] in
  str_or (PyStr.join ", " (map (fun c => c +:+ ":" +:+ dget_or c "" sev_by_cat) (py_sorted sev_by_cat.*1))) "(no strong findings)".
(** The three lists of the report. *)
Definition listed (c : class) (d : db) : list (string * string) := bfilter (fun en => bool_decide (classify d en = c)) (entries (watchlist d)).
Definition summary (d : db) : string :=
  let n c := show (Z.of_nat (List.length (listed c d))) in
  "SUMMARY: " +:+ n Primary +:+ " genuine, " +:+ n Thin +:+ " thin/FP, " +:+ n NoScan +:+ " no-scan of " +:+ show (Z.of_nat (List.length (entries (watchlist d)))) +:+ " total".

(** The audit applies the bar of the promotion itself: with a conviction by the model that is
    confident enough and corroborated, a scan would be promoted exactly if the audit calls it genuine. *)
Theorem audit_is_the_bar floor rule t fs : r_verdict t = VMalicious ->
  let conf := if float_truthy (r_confidence t) then r_confidence t else f_zero in
  float_lt conf floor = false -> bool_decide (rule = VMalicious) || float_ge conf f_0_80 = true -> (auto_watchlist_qualifies floor rule (Some t) fs).1 = is_primary fs.
Proof.
  intros Hv conf Hc Hr. unfold auto_watchlist_qualifies, is_primary. rewrite bool_decide_true by done. cbn [negb].
  assert (dedup (map category (strong fs)) = strong_categories fs) as ->.
  { unfold strong, strong_categories. do 2 f_equal. apply bfilter_ext. intros f _. apply andb_comm. }
  fold conf. cbv zeta. rewrite Hc, Hr.
  destruct (existsb _ (strong_categories fs)); [done|]. cbn [negb andb orb].
  destruct (Nat.ltb_spec (List.length (strong_categories fs)) 2), (Nat.leb_spec 2 (List.length (strong_categories fs))); try done; lia.
Qed.

(** Every entry is in exactly one of the lists. *)
Lemma listed_once d en : en ∈ entries (watchlist d) <-> en ∈ listed (classify d en) d.
Proof. unfold listed. rewrite bfilter_in. rewrite bool_decide_true by done. tauto. Qed.

End Audit.

(** ** Live statistics ([stats.py]) *)

Module Stats.

Definition _ECOS : list string := ["pypi"; "crates"; "gomod"; "npm"].
Section Window.
Variables (cutoff : timestamp) (d : db).

Definition queue_line (eco : string) : list (status * Z) :=
  map (fun st => (st, count_where (fun r => String.eqb (ecosystem r) eco && status_is st r) (scan_queue d))) [Pending; Claimed; Done; Failed].
Definition since (x : option timestamp) : bool := match x with Some t => cutoff <=? t | None => false end.
Definition ingested (eco : string) : Z := count_where (fun r => String.eqb (ecosystem r) eco && (cutoff <=? enqueued_at r)) (scan_queue d).
Definition completed (eco : string) : Z := count_where (fun r => String.eqb (ecosystem r) eco && status_is Done r && since (finished_at r)) (scan_queue d).
Definition net (eco : string) : Z := ingested eco - completed eco.

Definition detonation_line : list (status * Z) := map (fun st => (st, count_where (status_is st) (detonation_queue d))) [Pending; Claimed; Done; Failed; Expired].
Definition pending_by_priority : list (priority * Z) :=
  omap (fun p => let n := count_where (fun r => status_is Pending r && bool_decide (jpriority r = p)) (detonation_queue d) in if n =? 0 then None else Some (p, n)) [PHigh; PNormal; PLow].
Definition detonated : Z := count_where (fun r => status_is Done r && since (finished_at r)) (detonation_queue d).

Definition VERDICTS : list verdict := [VMalicious; VSuspicious; VClean; VError].
Definition verdict_lines : list (verdict * Z) := map (fun v => (v, count_where (fun sc => bool_decide (sc_verdict sc = v)) (scans d))) VERDICTS.
Definition scan_total : Z := Z.of_nat (List.length (rows (scans d))).

(** The triages whose reasoning says that it saw no source, per ecosystem. *)
Definition no_source (sc : Scan) : bool := match sc_llm sc with Some l => contains "no source" (lower (llm_reasoning l)) | None => false end.
Definition triaged (eco : string) : list Scan :=
  map (fun r => r.1.1) (bfilter (fun r => String.eqb (p_ecosystem r.2) eco) (scan_rows (fun sc => bool_decide (is_Some (sc_llm sc))) d)).
Definition coverage_line (eco : string) : Z * Z * Z * bool :=
  let tot := Z.of_nat (List.length (triaged eco)) in
  let no_src := Z.of_nat (List.length (bfilter no_source (triaged eco))) in
  let pct := if tot =? 0 then 0 else no_src * 100 / tot in
  (no_src, tot, pct, 10 <=? pct).
Definition coverage : list (string * (Z * Z * Z * bool)) :=
  map (fun eco => (eco, coverage_line eco))
    (py_sorted (dedup (map (fun r => p_ecosystem r.2) (scan_rows (fun sc => bool_decide (is_Some (sc_llm sc))) d)))).

(** Jobs that are done, whose scan was not convicted before and is now. *)
Definition flipped (r : drow) : bool :=
  status_is Done r && negb (bool_decide (static_verdict (extra r) = VMalicious)) &&
  exists_row (fun sc => (sc_id sc =? scan_of r) && bool_decide (sc_verdict sc = VMalicious)) (scans d).
Definition flips : Z := count_where flipped (detonation_queue d).
End Window.

(** The share is a share, and the mark is on at ten percent. *)
Lemma coverage_bounds d eco : let '(no_src, tot, pct, gap) := coverage_line d eco in
  0 <= no_src <= tot /\ 0 <= pct <= 100 /\ gap = (10 <=? pct).
Proof.
  unfold coverage_line. set (tot := Z.of_nat (List.length (triaged d eco))). set (n := Z.of_nat (List.length (bfilter no_source (triaged d eco)))).
  assert (0 <= n <= tot) as Hn.
  { unfold n, tot. pose proof (List.filter_length_le no_source (triaged d eco)). change (bfilter no_source (triaged d eco)) with (List.filter no_source (triaged d eco)). lia. }
  split_and!; [lia|lia| | |done]; destruct (Z.eqb_spec tot 0); try lia.
  - apply Z.div_pos; lia.
  - apply Z.div_le_upper_bound; lia.
Qed.

(** Scans that await a review are in none of the lines above the total. *)
Example inconclusive_not_counted :
  let d := set_scans (Table [mkScan 1 1 0 (Some 1) VInconclusive 30 None None] 2) empty_db in
  verdict_lines d = [(VMalicious, 0); (VSuspicious, 0); (VClean, 0); (VError, 0)] /\ scan_total d = 1.
Proof. by vm_compute. Qed.

End Stats.

(** ** Fingerprints by hand ([genome.py]) *)

Module Genome.

(** *** Functions of a file *)

(** The four groups are the names of [function], [func], [fn] and of the other forms. *)
Definition _BRACE_DECL : regex := compile (mkFlags false false true true)
  ("^[ \t]*(?:export\s+|async\s+|pub\s+|public\s+|private\s+|static\s+)*" +:+
   "(?:function\s+(\w+)|func\s+(?:\([^)]*\)\s*)?(\w+)|fn\s+(\w+)" +:+
   "|(\w+)\s*(?:=\s*(?:async\s*)?\([^)]*\)\s*=>|\([^)]*\)\s*\{))").

Record func := mkFunc { fn_name : string; fn_line : Z; fn_end : Z; fn_segment : string }.

(** The number of characters up to the brace that closes, or to the end; [s] begins at the first brace. *)
Fixpoint close_at (depth : Z) (s : string) : nat :=
  match s with
  | EmptyString => O
  | String c s' =>
      if Ascii.eqb c "{" then S (close_at (depth + 1) s')
      else if Ascii.eqb c "}" then (if depth - 1 =? 0 then O else S (close_at (depth - 1) s'))
      else S (close_at depth s')
  end.
Fixpoint index_of (c : ascii) (s : string) : option nat :=
  match s with EmptyString => None | String d s' => if Ascii.eqb c d then Some O else S <$> index_of c s' end.

Definition brace_function (text : string) (m : mtch) : option func :=
  let name := str_or (group_or text 1 m) (str_or (group_or text 2 m) (str_or (group_or text 3 m) (group_or text 4 m))) in
  if negb (truthy name) then None
  else
    k ← index_of "{" (str_drop (m_start m) text);
    let i := (m_start m + k)%nat in
    let j := (i + close_at 0 (str_drop i text))%nat in
    Some (mkFunc name (Tree.line_at text (m_start m)) (Tree.line_at text j) (slice text (m_start m) (S j))).
Definition _brace_functions (text : string) : list func := omap (brace_function text) (finditer _BRACE_DECL text).
Definition _select (fs : list func) (nm : string) : option func := List.find (fun f => String.eqb (fn_name f) nm) fs.

(** *** Hashes *)

(** What a hashing library gives: a hash, or the text of its exception. *)
Record hashers := mkHashers { sha256_of : string -> string; ppdeep_of : string -> string + string; ssdeep_of : string -> string + string; tlsh_of : string -> string + string }.
Definition unavailable (e : string) : string := "<unavailable: " +:+ e +:+ ">".
Record multihash := mkMulti { mh_sha256 : string; mh_size : Z; mh_ssdeep : string; mh_tlsh : option string }.
Definition _multihash (h : hashers) (data : string) : multihash :=
  mkMulti (sha256_of h data) (Z.of_nat (len data))
    match ppdeep_of h data with inl x => x | inr _ => match ssdeep_of h data with inl x => x | inr e => unavailable e end end
    match tlsh_of h data with inl x => if truthy x && negb (String.eqb x "TNULL") then Some x else None | inr e => Some (unavailable e) end.

(** *** The record *)

Inductive selection := WholeFile | LineRange (a b : Z) | Function (nm : string).
Definition label_of (s : selection) : option string :=
  match s with WholeFile => None | LineRange a b => Some ("lines:" +:+ show a +:+ "-" +:+ show b) | Function nm => Some ("func:" +:+ nm) end.

Record gene_args := mkArgs {
  g_name : string; (* the last part of the path *)
  g_selection : selection;
  g_campaign : string; g_label : string; g_source : string;
  g_file_pattern : option string; g_description : option string;
}.
(** [functions]: those of the file, by the parser of Python or by braces.  [None]: the function is not among them. *)
Definition cmd_gene (h : hashers) (functions : list func) (a : gene_args) (data : string) : option seed :=
  let found := match g_selection a with Function nm => bool_decide (is_Some (_select functions nm)) | _ => true end in
  if negb found then None
  else
    let f := _multihash h data in
    let desc := if otruthy (g_description a) then ostr (g_description a)
                else g_campaign a +:+ " — " +:+ g_name a +:+ match label_of (g_selection a) with Some l => " (malicious " +:+ l +:+ ")" | None => "" end in
    Some [("sha256", mh_sha256 f); ("ssdeep", if startswith (mh_ssdeep f) "<" then "" else mh_ssdeep f);
          ("tlsh", str_or (ostr (mh_tlsh f)) "TNULL");
          ("file_pattern", str_or (ostr (g_file_pattern a)) (g_name a)); ("campaign", g_campaign a); ("label", g_label a);
          ("description", desc); ("source", g_source a)].

(** *** Pulling a sample *)

Inductive opened := AsTar | AsZip | NotOpened.
(** How [pull] opens the archive of the vault, by its name there. *)
Definition pulled_as (inner : string) : opened :=
  if existsb (endswith inner) [".tgz"; ".tar.gz"; ".tar"] then AsTar
  else if existsb (endswith inner) [".zip"; ".crate"; ".whl"] then AsZip else NotOpened.
(** The sample with what opening it gives, [tar] and [zip] being the readers; [None] in the second
    place where they raise, which is reported; the outer [None]: not in the vault. *)
Definition cmd_pull {A} (tar zip : list Z -> option A) (enabled : bool) (eco nm version : string) (fs : vault_fs) : option (list Z * string * option A) :=
  '(data, inner) ← read_archive enabled eco nm version fs;
  Some (data, inner, match pulled_as inner with AsTar => tar data | AsZip => zip data | NotOpened => None end).

(** *** Lemmas *)

Lemma close_at_bound depth s : (close_at depth s <= len s)%nat.
Proof.
  revert depth. induction s as [|c s IH]; intros depth; cbn [close_at]; [done|]. change (len (String c s)) with (S (len s)).
  destruct (Ascii.eqb c "{"); [specialize (IH (depth + 1)); lia|]. destruct (Ascii.eqb c "}"); [|specialize (IH depth); lia].
  destruct (depth - 1 =? 0); [lia|]. specialize (IH (depth - 1)). lia.
Qed.

(** The braces of a text, opened less closed. *)
Fixpoint balance (s : string) : Z :=
  match s with
  | EmptyString => 0
  | String c s' => (if Ascii.eqb c "{" then 1 else if Ascii.eqb c "}" then -1 else 0) + balance s'
  end.
Lemma close_at_balanced depth s : 0 < depth -> (close_at depth s < len s)%nat -> depth + balance (str_take (S (close_at depth s)) s) = 0.
Proof.
  revert depth. induction s as [|c s IH]; intros depth Hd; cbn [close_at]; [intros Hl; cbn in Hl; lia|]. change (len (String c s)) with (S (len s)).
  destruct (Ascii.eqb c "{") eqn:Eo.
  - intros Hl. change (str_take (S (S ?n)) (String c s)) with (String c (str_take (S n) s)). cbn [balance]. rewrite Eo.
    specialize (IH (depth + 1) ltac:(lia) ltac:(lia)). lia.
  - destruct (Ascii.eqb c "}") eqn:Ec.
    + destruct (Z.eqb_spec (depth - 1) 0) as [E|E]; intros Hl.
      * change (str_take 1 (String c s)) with (String c (str_take 0 s)). cbn [balance]. rewrite Eo, Ec. destruct s; cbn; lia.
      * change (str_take (S (S ?n)) (String c s)) with (String c (str_take (S n) s)). cbn [balance]. rewrite Eo, Ec.
        specialize (IH (depth - 1) ltac:(lia) ltac:(lia)). lia.
    + intros Hl. change (str_take (S (S ?n)) (String c s)) with (String c (str_take (S n) s)). cbn [balance]. rewrite Eo, Ec.
      specialize (IH depth Hd ltac:(lia)). lia.
Qed.

(** The body that is cut out of a file is the text from its first brace to the one that closes it. *)
Lemma body_balanced s : let s := String "{" s in (close_at 0 s < len s)%nat -> balance (str_take (S (close_at 0 s)) s) = 0.
Proof.
  cbv zeta. cbn [close_at]. change (Ascii.eqb "{" "{") with true. cbn match. change (len (String "{" s)) with (S (len s)). intros Hl.
  change (str_take (S (S ?n)) (String "{" s)) with (String "{" (str_take (S n) s)). cbn [balance]. change (Ascii.eqb "{" "{") with true. cbn match.
  apply close_at_balanced; lia.
Qed.

(** A record convicts its file.  Appended to the pack and seeded, whatever the table holds, it is
    committed, and every file with the bytes of the sample is matched in the first tier. *)
Theorem gene_convicts h functions a data now t r : table_wf t -> cmd_gene h functions a data = Some r -> truthy (sha256_of h data) = true ->
  exists added updated t', seed_pack now [r] t = Some (added, updated, t') /\
    forall data' caps ss tl nm, sha256_of h data' = sha256_of h data ->
      exists m, check_file caps (rows t') (sha256_of h data') ss tl nm = Some m /\ m_tier m = TSha256.
Proof.
  intros Hwf Hg Ht. unfold cmd_gene in Hg. destruct (negb _); [done|]. cbv zeta in Hg. injection Hg as Hr.
  assert (seed_sha r = sha256_of h data) as Es by (by rewrite <- Hr).
  assert (exists a u t', seed_pack now [r] t = Some (a, u, t')) as (added & updated & t' & E).
  { unfold seed_pack. cbn [seed_all seed_one]. rewrite Es, Ht. cbn [negb]. destruct (first (has_sha (sha256_of h data)) t) as [e|].
    - cbv zeta. destruct (changed r e); by eexists _, _, _.
    - assert (field "campaign" r = Some (g_campaign a)) as -> by (by rewrite <- Hr). by eexists _, _, _. }
  exists added, updated, t'. split; [done|]. intros data' caps ss tl nm ->.
  destruct (seed_all_spec _ _ _ _ _ _ _ _ Hwf E) as (_ & _ & C & _).
  destruct (C r ltac:(by left)) as (e & He & _); [by rewrite Es|]. rewrite Es in He. rewrite (check_file_sha _ _ _ _ _ _ _ He). by eexists.
Qed.

(** *** Concrete runs *)

Example brace_functions_ex : map (fun f => (fn_name f, fn_line f, fn_end f)) (_brace_functions "function run() { if (x) { y } }") = [("run", 1, 1)] /\
  fn_segment <$> _select (_brace_functions "fn a() { b } fn c() {") "a" = Some "fn a() { b }".
Proof. by vm_compute. Qed.

Definition ex_hashers : hashers := mkHashers (fun s => "sha of " +:+ s) (fun _ => inr "no") (fun _ => inr "no ssdeep") (fun _ => inr "no tlsh").
Definition ex_args : gene_args := mkArgs "evil.js" WholeFile "worm" "malicious" "pkgward-genome" None None.

(** Where the library is missing, the text of the exception is no ssdeep, but it is kept as the TLSH of the record. *)
Example unavailable_tlsh_kept : (fun r => (dget "ssdeep" r, dget "tlsh" r)) <$> cmd_gene ex_hashers [] ex_args "x" = Some (Some "", Some "<unavailable: no tlsh>").
Proof. by vm_compute. Qed.

(** A crate is a compressed tar and is opened as a zip file. *)
Example crate_pulled_as_zip : pulled_as "evil-1.0.crate" = AsZip /\ pulled_as "evil-1.0.tgz" = AsTar.
Proof. by vm_compute. Qed.

Lemma gene_convicts_witness : exists m,
  check_file (mkCaps None None) [new_seed 9 (default [] (cmd_gene ex_hashers [] ex_args "x")) "worm" 1] "sha of x" "" "" "other.js" = Some m /\ m_tier m = TSha256.
Proof.
  assert (table_wf (@empty_table ThreatIntelHash)) as Hwf by (split; constructor).
  destruct (gene_convicts ex_hashers [] ex_args "x" 9 empty_table (default [] (cmd_gene ex_hashers [] ex_args "x")) Hwf eq_refl eq_refl) as (a & u & t' & E & H).
  vm_compute in E. injection E as <- <- <-. exact (H "x" (mkCaps None None) "" "" "other.js" eq_refl).
Defined.

End Genome.

(** ** Importing into the vault ([vault_import.py]) *)

Module VaultImport.

(** [NAME@VERSION]; [None] ends the tool. *)
Definition _parse_pkg (spec : string) : option (string * string) :=
  if negb (has_char "@" spec) then None else Some (PypiCursor.before_last "@" spec, after_last "@" spec).

Record args := mkArgs {
  i_eco : string; i_package : string;
  i_archive : option (string * option (list Z)); (* a local file: its name, and its content where it exists *)
  i_kind : option string; i_verdict : string; i_score : Z; i_expect : string; i_url : option string;
}.
Definition pick (want : string) (archives : list (string * string * option (list Z))) : option (string * string * option (list Z)) :=
  match List.find (fun a => String.eqb a.1.2 want) archives with Some a => Some a | None => head archives end.
Definition expected (s : string) : list string := omap (fun r => nonempty (strip r)) (PyStr.split "," s).

(** The path stored and the vault; [None]: the tool ends without writing.  [fetch]: the archives of a release, as name, kind and content. *)
Definition import_sample (enabled : bool) (o : Vault.outside) (fetch : string -> string -> list (string * string * option (list Z))) (a : args) (fs : vault_fs) : option string * vault_fs :=
  if negb enabled then (None, fs)
  else match _parse_pkg (i_package a) with
  | None => (None, fs)
  | Some (nm, version) =>
      match match i_archive a with
            | Some (file, Some data) => Some (file, str_or (ostr (i_kind a)) "sdist", Some data)
            | Some (_, None) => None
            | None => pick (str_or (ostr (i_kind a)) (dget_or (i_eco a) "" install_archive_kind)) (fetch nm version)
            end with
      | None => (None, fs)
      | Some (inner, kind, data) =>
          archive_to_vault true o (mkSample (i_eco a) nm version inner data kind (i_verdict a) (i_score a) (expected (i_expect a)) (i_url a)) fs
      end
  end.

Lemma after_last_at c a b : has_char c b = false -> after_last c (a +:+ String c b) = b.
Proof.
  intros Hb. induction a as [|d a IH].
  - change (("" +:+ String c b)%string) with (String c b). cbn [after_last]. by rewrite Hb, Ascii.eqb_refl.
  - rewrite append_cons. cbn [after_last]. rewrite has_char_app. cbn [has_char]. by rewrite Ascii.eqb_refl, orb_true_r.
Qed.
(** A package is read back from the way it is written, with or without a scope. *)
Theorem package_read_back nm version : has_char "@" version = false -> _parse_pkg (nm +:+ "@" +:+ version) = Some (nm, version).
Proof.
  intros Hv. change (("@" +:+ version)%string) with (String "@" version). unfold _parse_pkg. rewrite has_char_app. cbn [has_char]. rewrite Ascii.eqb_refl, orb_true_r. cbn [negb].
  unfold PypiCursor.before_last. rewrite after_last_at by done. do 2 f_equal. rewrite len_app. change (len (String "@" version)) with (S (len version)).
  replace (len nm + S (len version) - len version - 1)%nat with (len nm) by lia. apply str_take_app.
Qed.

(** A scoped name without a version is taken for a package without a name, in the version of its scope and name. *)
Example scope_taken_for_version : _parse_pkg "@scope/pkg" = Some ("", "scope/pkg") /\ _parse_pkg "@scope/pkg@1.0" = Some ("@scope/pkg", "1.0") /\ _parse_pkg "pkg" = None.
Proof. by vm_compute. Qed.

End VaultImport.

(** ** Looking at one package ([triage_pkg.py]) *)

Module TriagePkg.
Section Show.
(** Where the database sorts a time that is not there. *)
Variable null_time : Z.

(** [list(zip(args[::2], args[1::2]))]: an argument too many is dropped. *)
Fixpoint pairs (l : list string) : list (string * string) :=
  match l with eco :: nm :: l' => (eco, nm) :: pairs l' | _ => [] end.
Definition scans_of (eco nm : string) (d : db) : list (Scan * Version * Package) :=
  ssort (desc (fun r : Scan * Version * Package => Service.finished_key null_time r.1.1)) (bfilter (fun r => String.eqb (p_ecosystem r.2) eco && String.eqb (p_name r.2) nm) (scan_rows (fun _ => true) d)).
(** The newest scan that the model convicted, or the newest. *)
Definition promoting (eco nm : string) (d : db) : option (Scan * Version * Package) :=
  let rs := scans_of eco nm d in
  match List.find (fun r => Audit.llm_malicious r.1.1) rs with Some r => Some r | None => head rs end.
Definition clean_evidence (s : string) : string := str_take 120 (Releases.replace_char (chr 10) " " (strip s)).
(** Severities are ordered as strings. *)
Definition finding_leb (a b : Finding) : bool :=
  let sa := severity_name (f_severity a) in let sb := severity_name (f_severity b) in
  if String.eqb sa sb then String.leb (rule_id a) (rule_id b) else String.leb sa sb.
Definition finding_lines (fs : list Finding) : list (string * string * string * string) :=
  map (fun f => (severity_name (f_severity f), rule_id f, if truthy (file f) then " @" +:+ file f else "", clean_evidence (evidence f))) (ssort finding_leb fs).
(** A package: the scan shown, how many there are, its findings; [None]: no scan. *)
Definition shown (eco nm : string) (d : db) : option (Scan * Z * list (string * string * string * string)) :=
  r ← promoting eco nm d; Some (r.1.1, Z.of_nat (List.length (scans_of eco nm d)), finding_lines (findings_of (sc_id r.1.1) d)).
Definition triage_pkg (args : list string) (d : db) : list (string * string * option (Scan * Z * list (string * string * string * string))) :=
  map (fun p => (p.1, p.2, shown p.1 p.2 d)) (pairs args).

(** A package that was scanned is shown, and the scan is one of its own. *)
Lemma shown_own eco nm d : scans_of eco nm d <> [] -> exists r, promoting eco nm d = Some r /\ p_ecosystem r.2 = eco /\ p_name r.2 = nm.
Proof.
  intros Hne. assert (forall r, r ∈ scans_of eco nm d -> p_ecosystem r.2 = eco /\ p_name r.2 = nm) as Hown.
  { intros r Hr. unfold scans_of in Hr. apply ssort_in, bfilter_in in Hr as [_ [H1%String.eqb_eq H2%String.eqb_eq]%andb_true_iff]. done. }
  unfold promoting. cbv zeta. destruct (List.find _ (scans_of eco nm d)) as [r|] eqn:E.
  - exists r. split; [done|]. apply Hown, list_elem_of_In. by apply List.find_some in E as [? _].
  - destruct (scans_of eco nm d) as [|r rs] eqn:Er; [done|]. exists r. split; [done|]. apply Hown. by left.
Qed.

End Show.

(** Severities sort by their names, so the critical findings come first and the high ones before the low. *)
Example severities_by_name : map (fun l => l.1.1.1) (finding_lines (map (fun s => mkFinding "r" "c" s CHigh "" None "") [SMedium; SLow; SHigh; SCritical])) = ["critical"; "high"; "low"; "medium"].
Proof. by vm_compute. Qed.

End TriagePkg.

(** ** The evaluation of the triage ([llm_eval/run_eval.py]) *)

Module Eval.

Record sample := mkSample { sm_eco : string; sm_name : string; sm_version : string; sm_label : string }.
Definition wanted (eco label only : option string) (s : sample) : bool :=
  of_eco eco (sm_eco s) && (negb (otruthy label) || String.eqb (sm_label s) (ostr label)) &&
  (negb (otruthy only) || contains (lower (ostr only)) (lower (sm_name s))).
Definition _load_samples (eco label only : option string) (l : list sample) : list sample := bfilter (wanted eco label only) l.

(** [text] is that of the candidate or of the given file; the baseline leaves the pack alone. *)
Definition _install_prompt (which text : string) (pack : IntelPack) : IntelPack :=
  if String.eqb which "baseline" then pack
  else mkPack (source pack) (yara_dirs pack) (opengrep_dirs pack) (hash_seeds pack) (dset "triage_system" text (prompts pack))
    (thresholds pack) (scoring_weights pack) (behavioral_chain_ids pack) (lure_keywords pack) (ioc_whitelist pack)
    (malware_pattern_strings pack) (gomod_benign_tools pack) (npm_benign_tools pack) (detonation_rules_data pack) (detonation_noise pack).

Inductive evaluated := Skipped (error : string) | Judged (rules : ScoreResult) (n_findings : Z) (tri : LLMTriageResult).

Section Run.
Variable pack : IntelPack.
(** The install kind of a registered adapter. *)
Variable adapter_registry : string -> option string.
Variable fetch : sample -> list ArchivePath + string.
(** Extraction and the static analyzers. *)
Variable analyze : sample -> ArchivePath -> list Finding + string.
Variables (enabled : bool) (triage : sample -> verdict -> list Finding -> triage_out).

Definition _eval_one (s : sample) : evaluated :=
  match adapter_registry (sm_eco s) with
  | None => Skipped ("no adapter for " +:+ sm_eco s)
  | Some kind =>
      match fetch s with
      | inr e => Skipped e
      | inl [] => Skipped "no archives returned by fetch"
      | inl (a :: rest) =>
          match analyze s (match List.find (fun a => String.eqb (arc_kind a) kind) (a :: rest) with Some b => b | None => a end) with
          | inr e => Skipped e
          | inl fs =>
              let result := score_and_verdict pack fs None in
              if negb enabled then Skipped "triage disabled (OPENROUTER_API_KEY not set?)"
              else match triage s (sr_verdict result) fs with
                   | TriageRaised e => Skipped e
                   | Triaged tri => Judged result (Z.of_nat (List.length fs)) tri
                   end
          end
      end
  end.
End Run.

Inductive outcome := Skip | Pass | Suppressed | Cleared | Escalated | Neutral.
#[export] Instance outcome_eq_dec : EqDecision outcome.
Proof. solve_decision. Defined.

Definition _classify (label : string) (e : evaluated) : outcome :=
  match e with
  | Skipped _ => Skip
  | Judged _ _ tri =>
      let lv := r_verdict tri in
      if String.eqb label "bad" then (if bool_decide (lv = VBenign) then Suppressed else Pass)
      else if bool_decide (lv = VBenign) then Cleared else if bool_decide (lv = VMalicious) then Escalated else Neutral
  end.
Definition autowatch_fp (label : string) (e : evaluated) : bool :=
  match e with
  | Judged rules _ tri => String.eqb label "good" && bool_decide (sr_verdict rules = VMalicious) && bool_decide (r_verdict tri = VMalicious)
  | Skipped _ => false
  end.

Abbreviation records := (list (sample * evaluated)).
Definition outcome_of (r : sample * evaluated) : outcome := _classify (sm_label r.1) r.2.
Definition count (o : outcome) (rs : records) : Z := Z.of_nat (List.length (bfilter (fun r => bool_decide (outcome_of r = o)) rs)).
Definition eval_exit (rs : records) : Z := if count Suppressed rs =? 0 then 0 else 1.

Lemma count_zero o rs : count o rs = 0 <-> forall r, r ∈ rs -> outcome_of r <> o.
Proof.
  unfold count. split.
  - intros E r Hr Ho. assert (r ∈ bfilter (fun r => bool_decide (outcome_of r = o)) rs) as Hin by (apply bfilter_in; by rewrite bool_decide_true).
    destruct (bfilter _ rs); [by apply elem_of_nil in Hin|]. cbn in E. lia.
  - intros H. rewrite bfilter_none; [done|]. intros r Hr. apply bool_decide_false, H, Hr.
Qed.

(** The gate is shut exactly when the model cleared a bad sample that was judged. *)
Theorem gate_spec rs : eval_exit rs = 1 <-> exists s rules n tri, (s, Judged rules n tri) ∈ rs /\ sm_label s = "bad" /\ r_verdict tri = VBenign.
Proof.
  unfold eval_exit. pose proof (count_zero Suppressed rs) as Hz. destruct (Z.eqb_spec (count Suppressed rs) 0) as [E|E].
  - split; [done|]. intros (s & rules & n & tri & Hin & Hl & Hv). exfalso. apply (proj1 Hz E _ Hin). unfold outcome_of, _classify. cbn [fst snd].
    by rewrite Hl, Hv.
  - split; [|done]. intros _. assert (exists r, r ∈ rs /\ outcome_of r = Suppressed) as ([s e] & Hin & Ho).
    { unfold count in E. destruct (bfilter (fun r => bool_decide (outcome_of r = Suppressed)) rs) as [|r l] eqn:Eb; [done|].
      exists r. assert (r ∈ bfilter (fun r => bool_decide (outcome_of r = Suppressed)) rs) as Hr by (rewrite Eb; by left). apply bfilter_in in Hr as [? Hr]. by apply bool_decide_eq_true in Hr. }
    unfold outcome_of, _classify in Ho. cbn [fst snd] in Ho. destruct e as [?|rules n tri]; [done|]. cbv zeta in Ho.
    destruct (String.eqb_spec (sm_label s) "bad"); [|repeat case_bool_decide; done]. case_bool_decide; [|done]. by exists s, rules, n, tri.
Qed.

(** Samples that were not judged count for nothing: with no key, or no network, the gate is open. *)
Example gate_open_when_blind : eval_exit [(mkSample "npm" "evil" "1" "bad", Skipped "triage disabled (OPENROUTER_API_KEY not set?)")] = 0.
Proof. by vm_compute. Qed.

End Eval.

(** ** The commit hook ([precommit_no_private_intel.py]) *)

Module PreCommit.

(** [Path(p).as_posix().split("/")[0]]. *)
Definition first_part (p : string) : string := if startswith p "/" then "" else default "." (head (path_parts p)).
Definition blocked (argv : list string) : list string := bfilter (fun p => String.eqb (first_part p) "intel") argv.
Definition commit_hook (argv : list string) : Z := match blocked argv with [] => 0 | _ => 1 end.

(** A commit passes exactly if none of its paths is below the private directory. *)
Theorem hook_spec argv : commit_hook argv = 0 <-> forall p, p ∈ argv -> first_part p <> "intel".
Proof.
  unfold commit_hook. transitivity (blocked argv = []); [by destruct (blocked argv)|]. split.
  - intros E p Hp Hf. assert (p ∈ blocked argv) as Hb by (apply bfilter_in; by rewrite Hf). rewrite E in Hb. by apply elem_of_nil in Hb.
  - intros H. apply bfilter_none. intros p Hp. apply not_true_is_false. intros E%String.eqb_eq. by apply (H p).
Qed.

(** The ignore file in the directory is not spared. *)
Example gitignore_blocked : commit_hook ["intel/.gitignore"] = 1 /\ commit_hook ["./intel/pack.toml"] = 1 /\ commit_hook ["pkgward/intel/baseline/x.toml"; "/intel/x"] = 0.
Proof. by vm_compute. Qed.

End PreCommit.
